(* ===== verification/_CoqProject ===== *)
-Q . S2P
Prelude.v
JsNum.v
Numbers.v
Json.v
IdPages.v
Checkpoint.v
Pipeline.v
Catalog.v
Partitions.v
Constraints.v
EventTables.v
Contracts.v
ContractEvents.v
Cw721.v
Cw721Stats.v
Cw20.v
Address.v
Registry.v
Decode.v
Accounts.v
Proposals.v
EvmTx.v
EvmContracts.v
EvmProxy.v
Media.v
Validators.v
Delegators.v
Images.v
CrawlBlock.v
CrawlTx.v
CoinTransfer.v
Feegrant.v
Votes.v
IbcTao.v
Ics20.v
Erc20.v
Erc20Service.v
Erc20Events.v
Erc20Index.v
Erc721.v
Erc721Index.v
Assets.v
Verify.v
Compiler.v
Genesis.v
GenesisRows.v
GraphQL.v
Gateway.v
Statistics.v
Backfill.v
