(* ===== verification/Prelude.v ===== *)
(** * Verification of the Horoscope indexer

    The program under src/ reads a Cosmos chain (with an EVM) block by block
    and keeps a PostgreSQL database of blocks, transactions, events, tokens,
    balances, votes and fee grants.  It is a set of jobs: each runs again and
    again, takes the range of blocks after its checkpoint, and writes its rows.
    This library models the jobs as executable functions over the tables and
    proves what they keep true.

    ** The program and the files

    Every job calls [BlockCheckpoint.getCheckpoint] to learn its range (start,
    end]: start is its own checkpoint, end is bounded by the checkpoints of the
    jobs it depends on.  That call and the table of checkpoints are the only
    thing jobs share besides the tables, so the development is layered the
    same way:

    - Prelude.v (this file): exceptions ([res]), programs with several commits
      ([io]), arrays and objects of JavaScript and lodash, and lemmas on them.
    - JsNum.v: [BigInt], [Number.parseInt], rounding to binary64, printing;
      Numbers.v: Numbers that are not integers, [Number] of a text;
      Json.v: the values of [JSON.parse]; IdPages.v: loops over pages by id.
    - Checkpoint.v: models/block_checkpoint.ts, the 30 calls of
      [getCheckpoint] with their arguments and guards, the class
      [CheckpointJob] (what a handler does to the checkpoints) and
      [checkpoint_handler] (the shape most handlers share), with the lemma that
      it is a [CheckpointJob].
    - Pipeline.v: the abstract specification of the pipeline, a step relation
      in which the jobs run in any order.
    - Catalog.v: the part of the PostgreSQL catalog the maintenance jobs read
      and change (partitions, bounds, checks, rows), and the insertion of a row.
    - Partitions.v: services/job/create_*_partition.service.ts and their EVM
      counterparts; Constraints.v: the five
      create_constraint_in_*_partition.service.ts; EventTables.v: the
      constraints of event_attribute, migrate_data_event_table.service.ts,
      rename_event_with_event_partition.service.ts and the composite index.
    - Contracts.v: services/crawl-cosmwasm/crawl_code.service.ts and
      crawl_smart_contract.service.ts; ContractEvents.v:
      crawl_contract_event.service.ts, common/utils/smart_contract.ts and the
      query of contract events the token jobs share.
    - Cw721.v: services/cw721/cw721_handler.ts, cw721.service.ts and
      cw721-reindexing.service.ts; Cw721Stats.v: the refresh of the statistics
      in cw721.service.ts; Cw20.v: services/cw20/cw20.service.ts,
      cw20_update_by_contract.service.ts and cw20_reindexing.service.ts.
    - Address.v, Registry.v: services/evm/utils.ts and the attribute codecs of
      common/utils/chain.registry.ts, over classes that state the laws of the
      library encoders; Decode.v: [decodeMsg] of the same file with
      [isBase64] and [camelizeKeys] of common/utils/utils.ts.
    - Accounts.v: services/crawl-account/handle_address.service.ts and
      crawl_account.service.ts.
    - Validators.v: services/crawl-validator/crawl_validator.service.ts,
      crawl_signing_info.service.ts and handle_stake_event.service.ts;
      Delegators.v: services/crawl-validator/crawl_delegators.service.ts;
      Images.v: crawl_validator_image.service.ts.
    - CrawlBlock.v: services/crawl-block/crawl_block.service.ts.
    - CrawlTx.v: services/crawl-tx/crawl_tx.service.ts, both jobs.
    - CoinTransfer.v: services/crawl-tx/coin_transfer.service.ts.
    - Feegrant.v: services/feegrant/feegrant.service.ts and
      update_feegrant.service.ts.
    - Votes.v: services/crawl-tx/handle_authz_tx.service.ts,
      services/handle-vote/handle_vote_tx.service.ts and
      services/crawl-proposal/count_vote_proposal.service.ts.
    - Proposals.v: services/crawl-proposal/crawl_proposal.service.ts,
      crawl_tally_proposal.service.ts and models/proposal.ts.
    - IbcTao.v: services/ibc/crawl_ibc_tao.service.ts.
    - Ics20.v: services/ibc/crawl_ibc_app.service.ts and
      crawl_ibc_ics20.service.ts.
    - EvmTx.v: services/evm/handle_tx_evm.service.ts,
      crawl_evm_event.service.ts and evm_crawl_internal_tx.service.ts;
      EvmContracts.v: crawl_contract_evm.service.ts, helpers/contract_helper.ts
      and the constants they use; EvmProxy.v: crawl_evm_proxy_history.service.ts
      and evm_proxy.service.ts.
    - Erc20.v, Erc20Events.v, Erc20Service.v: services/evm/erc20_handler.ts
      (the fold over activities, the building of activities from logs and
      events, the queries and writes) and the balance job of
      services/evm/erc20.service.ts; Erc20Index.v: its other jobs and actions
      and erc20_reindex.ts, over the tables of Erc20Service.v.
    - Erc721.v: services/evm/erc721_handler.ts and the activity job of
      services/evm/erc721.service.ts; Erc721Index.v: its contract job, the
      action that registers contracts and the refresh of the statistics.
    - Verify.v: services/evm/verify_contract_evm.service.ts,
      evm_signature_mapping.service.ts, job/insert_verify_by_codehash.service.ts
      and job/sync_sourcify.service.ts; Compiler.v: solidity_compiler.ts.
    - Media.v: services/cw721/cw721-media.service.ts,
      services/evm/erc721_media_handler.ts and the media jobs of
      services/evm/erc721.service.ts.
    - Genesis.v, GenesisRows.v: services/crawl-genesis/crawl_genesis.service.ts,
      the download and the protocol of its jobs, and the jobs with their rows.
    - GraphQL.v: services/api-gateways/graphiql.service.ts and the functions of
      common/utils/utils.ts that walk a query; Gateway.v: the other files of
      services/api-gateways/, the actions that put a job into a queue and
      services/manager/services-manager.service.ts.
    - Statistics.v: services/statistics/, but the materialized view.
    - Assets.v: services/job/update_assets.service.ts and
      services/evm/update_assets.service.ts.
    - Backfill.v: services/job/update_tx_count_in_block.service.ts,
      update_sender_in_tx_message.service.ts and redecode_tx.service.ts.

    In each file [Db] is the record of the tables the component reads and
    writes; a table with a unique key that the code relies on is a finite map,
    or a list whose insert checks the key (IbcTao.v), any other a list of rows
    in the order of their ids.  A handler keeps the
    name of its method and is an [io Db] program whose [commit]s are the
    [knex.transaction]s: a transaction happens as a whole, what a handler did
    before it threw stays.

    ** The theorems

    - Blocks are processed once: in the abstract pipeline the committed ranges
      of a job tile the blocks (exactly_once), a job is never ahead of the
      crawler or of its dependencies (never_ahead_of_crawler,
      follows_dependency); the concrete block crawler refines it
      (crawl_refines_pipeline), stores every block once even when it is killed
      between its two commits (crawl_exactly_once), and makes progress
      (crawl_progress).  unguarded_job_repeats and
      missing_dependency_not_awaited show where the protocol does not hold.
    - Transactions: crawl_tx_exactly_once, getListRawTx_complete (the pages
      are complete or the run throws), handle_transaction_correct (the rows of
      a range are stored when every one fits its table, and otherwise none) and
      createListEventWithMsgIndex_spec (the rows of a transaction);
      log_value_redecoded shows a decoding that is applied to plain text.
    - Messages: the decoding of a message ends (decodeMsg_terminates), with any
      larger fuel in the same way (decodeMsg_more), keeps what it does not know
      (unsupported_kept) and decodes the messages of an execution all or none
      (exec_all_or_nothing); keys are renamed once (camelizeKeys_idempotent);
      empty_message_throws, empty_submessage_spoils_exec, ack_half_parsed and
      bytes_not_base64 are about the tests it makes.  Stored transactions are
      decoded again, each once (redecode_in_order), counted (tx_counts_filled)
      and given their senders (sender_job_start); inner_message_overwritten,
      unordered_page_skips, failed_run_keeps_transactions and
      last_block_skipped show what these jobs miss.
    - Derived rows: coin_transfer_correct, multi_send_transfers and
      extractAmount_exact, with extractAmount_limits and
      long_denomination_stops_job for where amounts are lost;
      authz_expands, votes_latest, count_votes_correct, with
      same_block_vote_order for the order inside a block;
      feegrant_events_counted, updateFeegrant_correct, update_job_processes.
    - Proposals: the status of a proposal is one the chain gave it
      (statuses_follow_chain) and never goes back (status_never_back), the
      proposals of a range are stored (proposals_crawled), those whose period
      ends are settled (ended_proposals_settle, unfunded_proposals_marked), tallies
      are mirrored (tallies_mirrored) and turnouts exact (turnout_exact);
      foreign_id_stops_job, long_type_stops_job, missing_tally_stops_job,
      turnout_not_final and stale_crawl_overwrites show what goes wrong.
    - IBC: tao_correct (the rows refer to each other as the events say),
      app_packets, ics20_status (the status of every transfer follows its
      answers), with ack_without_send and ics20_denoms for what goes wrong.
    - Tokens: the ERC-20 handler moves balances and supply by exactly the
      amounts of the activities (process_ledger, process_conserves), succeeds
      on complete dictionaries and rejects stale activities (process_succeeds,
      stale_activity_throws), its job writes the result to the tables
      (updateErc20AccountsBalance_ledger, handleErc20Balance_correct);
      activities come out in order and with the right parties
      (buildErc20Activities_order, cosmos_conversion_minted). The owner of an
      ERC-721 token is the receiver of its last transfer (erc721_owner,
      erc721_process_fails, no_missing_erc721_contracts); its contracts are
      registered (erc721_contracts_registered) unless one is known
      (known_erc721_stops_job), erc721_stats_refreshed and
      young_chain_no_stats are about the statistics.
    - EVM: every MsgEthereumTx gets its row (evm_txs_stored), every log finds a
      transaction of its Cosmos transaction whatever the order of the jobs
      (logs_find_their_tx, evm_events_stored), the internal transactions are
      those of the traces (internal_txs_stored) under addresses that identify
      them (trace_addresses_unique); deep_trace_stops_job, large_fee_stops_job,
      failure_shared and internal_value_bounds show the limits.  Contracts are
      recorded for every address with code (contracts_recorded), proxies are
      recognised by their slots (proxy_detected), upgrades are stored per block
      (upgrades_stored, detect_twice); which transaction describes a contract
      depends on the order in which requests settle (any_mention_describes).
    - Verification of contracts: a contract is recorded as verified only when
      the library compared it with the chain (verified_matches), with sources of
      the hashes its metadata names (sources_by_hash); every request is settled
      in the end as long as the names of contracts fit their column
      (all_requests_settled), though most rejections wait
      (rejected_request_waits) and a long name blocks a batch
      (long_name_stops_verification); what compiles has no errors
      (compiled_without_errors), from an executable that runs
      (executable_runs, executable_in_repo), with no_binary_falls_back,
      old_version_never_compiles and version_leaves_repo; same_code_verified, sourcify_synced,
      killed_sync_inserts_twice, signatures_stored and
      repeated_signature_throws are about the services around it.
    - ERC-20 contracts and activities: erc20_contracts_registered,
      erc20_activities_stored, getBatchErc20Info_each, and the reindexer, which
      leaves the ledger of the logs (reindex_rebuilds);
      supply_added_to_snapshot and reindexed_events_stored_twice are about the
      composition with the balance and activity jobs; long_name_stops_job,
      unknown_token_stops_job, failed_reindex_untracks about errors.
    - Assets: the table has the supply of the chain (assets_mirror_supply) and
      the ERC-20 contracts (erc20_assets_stored); coin_names_cleared and
      repeated_asset_stops_job are about the statement that stores it.
    - Media: every link in the tables names an object of the bucket
      (stored_links_exist), runs of the choosing job queue every token
      (all_media_queued), once (passed_tokens_not_queued); the three spellings
      of an IPFS file share one name (ipfs_names_agree).
    - CosmWasm: every instantiation gets its row and its code when the names
      of the new contracts fit their columns (contracts_stored,
      long_contract_name_stops_job), a migration retires one row and adds one
      (migrate_correct), the events of unknown contracts are stored by the
      second run when their actions fit (missing_contracts_recovered,
      long_action_stops_job).  The CW721 job refines a
      machine of owner and burned flag per token (cw721_job_correct); the
      total supply of a CW20 contract is the sum of its holders whatever the
      jobs do (cw20_supply_invariant), its update is a ledger
      (cw20_update_ledger), its job writes the activities and asks for the
      updates (cw20_job_correct).  The statistics of CW721 contracts count their
      activities (cw721_stats_refreshed).  cw721_overlap_blocks,
      burned_token_stops_history, history_from_current_owner,
      unnamed_contract_skipped,
      cw20_late_update_lost and cw20_first_run_throws show what goes wrong.
    - Accounts: the addresses of a range get one row each
      (addresses_registered) unless the insert is raced (raced_batch_lost); the
      jobs mirror the description, the vesting schedule and the coins of the
      node (auth_updated, balances_mirrored), the first 200 of them
      (coins_beyond_page_zeroed); the end of every vesting is noticed
      (vesting_ends_seen); late_vesting_loses_batch is about a column.
    - Staking: the validators of the table mirror those of the chain
      (validators_mirrored) unless one comes back (returning_validator_stops);
      every stake event gets its power event (stake_events_recorded); the
      delegators job moves a ledger of delegations message by message, without
      the messages the columns refuse (delegators_job_correct), whatever the
      code of the transaction (failed_delegations_counted);
      refused_page_stops_job, late_message_skipped,
      resync_keeps_checkpoint and counts_overwritten show what it loses.  Every
      validator gets its picture (images_updated) unless one fails
      (failing_picture_blocks, retries_pile_up).
    - Genesis: each job fills its tables once, whatever is delivered again or
      fails (genesis_written_once); the process ends only when all are done
      (genesis_exits_when_done) and the last one ends it (last_job_exits); the
      rows are those of the file (genesis_accounts_stored, genesis_ibc_linked,
      genesis_feegrants_stored).  The download takes any error for the end of
      the file (genesis_from_chunks); v1_proposal_stops_job,
      balance_without_auth_stops, client_without_consensus_stops and
      no_expiration_1970 are about files the jobs do not take.
    - Queries: the text of a query reaches Hasura exactly when its fields and
      where arguments are nested no deeper than the limits and the tables that
      need one have a condition on the height (query_forwarded_iff, over
      queries as trees); the checks find every where argument
      (filterWhereQuery_complete), measure its nesting (argument_depth) and
      limit literal ranges of a table without such relations
      (height_condition_checked), the limit included (exact_limit_passes);
      only_first_definition_checked, comment_hides_depth,
      variable_range_unlimited, variable_height_throws and
      one_condition_suffices are the ways around them.  Every other request is
      forwarded to the node of its chain (forwarded_to_chain, calls_accepted),
      those of administrators not from the public route (admin_not_public);
      jobs with an id are queued once (second_redecode_ignored,
      reindex_locked, reindex_unlocked), and health_exact says which jobs lag.
    - Statistics: the rows of a day are sums over its events
      (account_statistics_stored) but those of its last transaction
      (last_transaction_ignored), the number of transactions stays right
      (total_transactions_exact, statistic_stays_right), the top lists hold the
      highest shares (top_accounts_correct), a request for past days starts the
      jobs of each (sync_creates_each_day, daily_statistics_stored);
      repeated_day_throws and no_transaction_throws are about errors.
    - Tables: a row always finds a partition while the tables grow slower than
      the jobs run, and is stored unless a constraint refuses it
      (rows_always_have_a_partition, attr_partitions_ahead), the
      constraints of a partition are none, lower bounds or both bounds of
      rows it held, and true of its rows
      (constraints_well_formed, attr_constraint_correct) and come to rest
      (full_partition_final); late_event_rejected and rejected_batch_lost show
      rows that are refused or lost.

    ** Conventions and bounds

    Loops are structural recursion over the list they walk where the code
    walks a list. Fuel appears in twelve places: the decimal printer of
    JsNum.v, where [print_fuel n] is one more than the binary logarithm and
    [print_fuel_enough] with the round trip [BigInt (toString z) = z] shows it
    suffices; the pages of vesting accounts in Accounts.v (one more than the
    number of accounts, [vesting_pages_all]); the loops of EventTables.v that
    create partitions and move batches, whose fuel is computed from the tables
    ([create_loop_fuel], [batches_all]); the pages of a listing of the node
    ([pages_complete]: the number of pages is enough); and the loop over the
    pages of a contract query, which ends when the contract answers an empty
    page ([all_pages_complete] gives the fuel for a finite list of entries);
    the chunks of the genesis (one more than their number,
    genesis_from_chunks); [chunk] of GenesisRows.v (the length of the list,
    [concat_chunk]); the pages by id of IdPages.v (one more than the rows,
    [id_pages_all]) and those of Backfill.v (redecode_in_order); the days of a
    request (two more than their number, sync_creates_each_day); and
    [decodeMsg] (two more than the bytes of the message,
    decodeMsg_terminates).
    Big integers are Z; Numbers appear where a Number can lose digits
    (CoinTransfer.v, EvmTx.v) and are then rounded to binary64.  Ids, heights
    and indices are Z: they stay far below 2^53.  Columns that can refuse a
    value the chain decides (bigint, decimal, varchar(255): [varchar255] below)
    are checked at the insert, and the theorems say what then happens.
    The order in which the requests of a [Promise.all] settle is a class
    ([Settling], below) over which the theorems quantify.

    ** What is a parameter, what is left out

    Node clients, protobuf and JSON decoding, bech32, base64, keccak and ABI
    decoding are not under src/; they are arguments or classes whose laws are
    the documented inverse or determinism properties, and each class has a
    concrete instance the witnesses use.  [Model.fromJson] builds the record;
    its schema validation is left out except for required fields that come from
    messages and events whose shape the code does not know (Votes.v, IbcTao.v,
    Ics20.v).  Queries without an ORDER BY return rows in the
    order of the table.  One run of a job at a time is assumed, as the queues
    are configured; runs of different jobs interleave.  Logging, metrics and
    queue administration have no effect on the tables and are left out, but for
    the ids of jobs in Gateway.v.  Not
    modelled, because they have no logic of their own on the tables: the
    registration of queues and services, the constructors of clients and the
    choice of the package of generated types. *)
From stdpp Require Export base gmap strings list option sorting relations.
From Stdlib Require Export ZArith Lia.

Set Default Proof Using "Type".
#[global] Open Scope Z_scope.

(** ** Exceptions

    [res A] is the outcome of a piece of TypeScript: a value, or a thrown
    error with its message (an uncaught [TypeError] included). *)
Inductive res (A : Type) : Type :=
| Ok (a : A)
| Throw (msg : string).
Arguments Ok {A} a.
Arguments Throw {A} msg.

#[export] Instance res_ret : MRet res := @Ok.
#[export] Instance res_bind : MBind res := λ _ _ k m,
  match m with Ok a => k a | Throw e => Throw e end.
#[export] Instance res_fmap : FMap res := λ _ _ f m,
  match m with Ok a => Ok (f a) | Throw e => Throw e end.
#[export] Instance res_eq_dec `{EqDecision A} : EqDecision (res A).
Proof. solve_decision. Defined.

(** [is_ok m] : the code returned. *)
Definition is_ok {A} (m : res A) : bool :=
  match m with Ok _ => true | Throw _ => false end.

(** Inversion of a successful [bind]. *)
Lemma bind_Ok {A B} (m : res A) (k : A → res B) (b : B) :
  (m ≫= k) = Ok b ↔ ∃ a, m = Ok a ∧ k a = Ok b.
Proof.
  destruct m as [a|e]; simpl; split; eauto.
  - by intros (? & [= ->] & ?).
  - done.
  - by intros (? & ? & ?).
Qed.

Lemma bind_Throw {A B} (m : res A) (k : A → res B) (e : string) :
  (m ≫= k) = Throw e ↔ m = Throw e ∨ ∃ a, m = Ok a ∧ k a = Throw e.
Proof.
  destruct m as [a|e']; simpl; split; eauto.
  - by intros [?|(? & [= ->] & ?)].
  - intros [= ->]. by left.
  - by intros [[= ->]|(? & ? & ?)].
Qed.

(** [forEachM f s l]: the loop [l.forEach(x => ...)] whose body updates a
    state and may throw, which ends the loop. *)
Fixpoint forEachM {S A} (f : S → A → res S) (s : S) (l : list A) : res S :=
  match l with
  | [] => Ok s
  | x :: l => s' ← f s x; forEachM f s' l
  end.

(** [mapR f l]: the list built by [l.map(x => ...)] whose body may throw. *)
Fixpoint mapR {A B} (f : A → res B) (l : list A) : res (list B) :=
  match l with
  | [] => Ok []
  | x :: l => y ← f x; ys ← mapR f l; Ok (y :: ys)
  end.

Section ForEach.
Context {S A : Type} (f : S → A → res S).

Lemma forEachM_app s l1 l2 :
  forEachM f s (l1 ++ l2) = (s' ← forEachM f s l1; forEachM f s' l2).
Proof.
  revert s. induction l1 as [|x l1 IH]; intros s; simpl; [done|].
  destruct (f s x); simpl; auto.
Qed.

(** An invariant that the body preserves holds after the loop. *)
Lemma forEachM_inv (P : S → Prop) s l s' :
  (∀ s x s', P s → x ∈ l → f s x = Ok s' → P s') →
  P s → forEachM f s l = Ok s' → P s'.
Proof.
  intros Hstep. revert s. induction l as [|x l IH]; intros s Hs; simpl.
  - by intros [= <-].
  - intros (s1 & H1 & H2)%bind_Ok.
    eapply IH; [| |exact H2].
    + intros s2 y s3 Hs2 Hy. apply Hstep; [done|set_solver].
    + eapply Hstep; [exact Hs| |exact H1]. set_solver.
Qed.

(** A quantity that the body moves by [d x] moves by the sum of the [d]. *)
Lemma forEachM_sum (P : S → Prop) (q : S → Z) (d : A → Z) s l s' :
  (∀ s x s', P s → f s x = Ok s' → P s' ∧ q s' = q s + d x) →
  P s → forEachM f s l = Ok s' →
  P s' ∧ q s' = q s + foldr (λ x acc, d x + acc) 0 l.
Proof.
  intros Hstep. revert s. induction l as [|x l IH]; intros s Hs; simpl.
  - intros [= <-]. split; [done|lia].
  - intros (s1 & H1 & H2)%bind_Ok.
    destruct (Hstep _ _ _ Hs H1) as [Hs1 Hq].
    destruct (IH _ Hs1 H2) as [Hs' Hq']. split; [done|lia].
Qed.
End ForEach.

Lemma mapR_Ok {A B} (f : A → res B) l l' :
  mapR f l = Ok l' ↔ Forall2 (λ x y, f x = Ok y) l l'.
Proof.
  revert l'. induction l as [|x l IH]; intros l'; simpl.
  - split; [intros [= <-]; constructor | by inversion 1].
  - rewrite bind_Ok. split.
    + intros (y & Hy & (ys & Hys & [= <-])%bind_Ok).
      constructor; [done|]. by apply IH.
    + inversion 1 as [|? y ? ys Hy Hys]; subst.
      exists y. split; [done|]. apply bind_Ok. exists ys.
      split; [by apply IH|done].
Qed.

Lemma mapR_app {A B} (f : A → res B) l1 l2 :
  mapR f (l1 ++ l2) = (ys ← mapR f l1; zs ← mapR f l2; Ok (ys ++ zs)).
Proof.
  induction l1 as [|x l1 IH]; simpl; [by destruct (mapR f l2)|].
  destruct (f x); simpl; [|done]. rewrite IH. destruct (mapR f l1); simpl; [|done].
  by destruct (mapR f l2).
Qed.

(** The loop returns when no call of the body throws. *)
Lemma mapR_total {A B} (f : A → res B) l :
  (∀ x, x ∈ l → ∃ y, f x = Ok y) → ∃ ys, mapR f l = Ok ys.
Proof.
  induction l as [|x l IH]; intros H; simpl; [eauto|].
  destruct (H x) as [y ->]; [by left|]. destruct IH as [ys ->]; [|simpl; eauto].
  intros z Hz. apply H. by right.
Qed.

Lemma mapR_ext {A B} (f g : A → res B) l :
  (∀ x, x ∈ l → f x = g x) → mapR f l = mapR g l.
Proof.
  induction l as [|x l IH]; intros H; simpl; [done|].
  rewrite H by (by left). rewrite IH; [done|]. intros y Hy. apply H. by right.
Qed.

Lemma Forall2_compose {A B C} (P : A → B → Prop) (Q : B → C → Prop) (R : A → C → Prop) l1 l2 l3 :
  (∀ x y z, P x y → Q y z → R x z) → Forall2 P l1 l2 → Forall2 Q l2 l3 → Forall2 R l1 l3.
Proof.
  intros Hpqr H12. revert l3. induction H12 as [|x y l1 l2 Hxy _ IH]; intros l3 H23;
    inversion H23; subst; constructor; eauto.
Qed.

Lemma Forall2_impl_l {A B} (Q : A → Prop) (P R : A → B → Prop) l k :
  Forall2 P l k → Forall Q l → (∀ x y, Q x → P x y → R x y) → Forall2 R l k.
Proof. intros H HQ Himpl. induction H; [constructor|]. inversion HQ. constructor; auto. Qed.

Lemma mapR_pure {A B} (f : A → B) l : mapR (λ x, Ok (f x)) l = Ok (f <$> l).
Proof. induction l as [|x l IH]; simpl; [done|]. by rewrite IH. Qed.

(** ** Jobs with several commits

    [io D A] is a piece of a handler that reads and writes the state [D]:
    what it wrote before it threw stays written.  A transaction is one write
    that happens as a whole or not at all. *)
Definition io (D A : Type) : Type := D → D * res A.

#[export] Instance io_ret {D} : MRet (io D) := λ _ a d, (d, Ok a).
#[export] Instance io_bind {D} : MBind (io D) := λ _ _ k m d,
  match m d with
  | (d', Ok a) => k a d'
  | (d', Throw e) => (d', Throw e)
  end.

Definition lift {D A} (m : res A) : io D A := λ d, (d, m).
Definition throw {D A} (msg : string) : io D A := lift (Throw msg).
(** A query outside a transaction. *)
Definition query {D A} (f : D → A) : io D A := λ d, (d, Ok (f d)).
(** An assignment to a field of the service, or a write that cannot fail. *)
Definition update {D} (f : D → D) : io D () := λ d, (f d, Ok tt).
(** A statement or a [knex.transaction]. *)
Definition commit {D} (body : D → res D) : io D () := λ d,
  match body d with Ok d' => (d', Ok tt) | Throw e => (d, Throw e) end.
(** A transaction whose errors are caught and logged. *)
Definition logged {D} (body : D → res D) : io D () := λ d,
  match body d with Ok d' => (d', Ok tt) | Throw _ => (d, Ok tt) end.
(** [for (const x of l) await f(x)] *)
Fixpoint each {D A} (f : A → io D ()) (l : list A) : io D () := λ d,
  match l with
  | [] => (d, Ok tt)
  | x :: l => match f x d with
              | (d', Ok _) => each f l d'
              | (d', Throw e) => (d', Throw e)
              end
  end.
(** [try { m } catch (error) { throw new Error(msg) }] *)
Definition rethrow {D A} (msg : string) (m : io D A) : io D A := λ d,
  match m d with (d', Ok a) => (d', Ok a) | (d', Throw _) => (d', Throw msg) end.

Lemma io_bind_Ok {D A B} (m : io D A) (k : A → io D B) d d' b :
  (m ≫= k) d = (d', Ok b) ↔ ∃ d1 a, m d = (d1, Ok a) ∧ k a d1 = (d', Ok b).
Proof.
  unfold mbind, io_bind. destruct (m d) as [d1 [a|e]]; split.
  - eauto.
  - by intros (? & ? & [= <- <-] & ?).
  - done.
  - by intros (? & ? & ? & ?).
Qed.

(** One step of a program that returned. *)
Lemma io_step {D A B} (m : io D A) (k : A → io D B) d d1 a :
  m d = (d1, Ok a) → (m ≫= k) d = k a d1.
Proof. intros Hm. unfold mbind, io_bind. by rewrite Hm. Qed.

Lemma bind_query {D A B} (f : D → A) (k : A → io D B) d : (query f ≫= k) d = k (f d) d.
Proof. done. Qed.

(** A property of the state that every part of a program preserves. *)
Definition keeps {D A} (P : D → Prop) (m : io D A) : Prop := ∀ d, P d → P (m d).1.

Lemma keeps_bind {D A B} (P : D → Prop) (m : io D A) (k : A → io D B) :
  keeps P m → (∀ a, keeps P (k a)) → keeps P (m ≫= k).
Proof.
  intros Hm Hk d Hd. unfold mbind, io_bind. specialize (Hm d Hd).
  destruct (m d) as [d1 [a|e]]; simpl in *; [by apply Hk|done].
Qed.

Lemma keeps_lift {D A} (P : D → Prop) (m : res A) : keeps P (lift m).
Proof. by intros d Hd. Qed.

Lemma keeps_query {D A} (P : D → Prop) (f : D → A) : keeps P (query f).
Proof. by intros d Hd. Qed.

Lemma keeps_ret {D A} (P : D → Prop) (a : A) : keeps P (mret a : io D A).
Proof. by intros d Hd. Qed.

Lemma keeps_update {D} (P : D → Prop) (f : D → D) : (∀ d, P d → P (f d)) → keeps P (update f).
Proof. intros H d Hd. by apply H. Qed.

Lemma keeps_commit {D} (P : D → Prop) (body : D → res D) :
  (∀ d d', P d → body d = Ok d' → P d') → keeps P (commit body).
Proof.
  intros H d Hd. unfold commit. destruct (body d) as [d'|e] eqn:Hb; [|done].
  by eapply H.
Qed.

Lemma keeps_logged {D} (P : D → Prop) (body : D → res D) :
  (∀ d d', P d → body d = Ok d' → P d') → keeps P (logged body).
Proof.
  intros H d Hd. unfold logged. destruct (body d) as [d'|e] eqn:Hb; [|done].
  by eapply H.
Qed.

Lemma keeps_each {D A} (P : D → Prop) (f : A → io D ()) l :
  (∀ x, keeps P (f x)) → keeps P (each f l).
Proof.
  intros Hf. induction l as [|x l IH]; intros d Hd; simpl; [done|].
  specialize (Hf x d Hd). destruct (f x d) as [d' [[]|e]]; simpl in *; [by apply IH|done].
Qed.

Lemma keeps_rethrow {D A} (P : D → Prop) msg (m : io D A) :
  keeps P m → keeps P (rethrow msg m).
Proof.
  intros H d Hd. unfold rethrow. specialize (H d Hd). by destruct (m d) as [d' [a|e]].
Qed.

Create HintDb keeps.
#[export] Hint Resolve keeps_bind keeps_lift keeps_query keeps_ret keeps_update keeps_commit
  keeps_logged keeps_each keeps_rethrow : keeps.

(** ** Objects and arrays *)

(** [o?.value] for a value that can be [null] or [undefined]. *)
Definition truthy_str (o : option string) : bool :=
  match o with Some s => negb (bool_decide (s = "")) | None => false end.

(** [arr.find(p)] *)
Fixpoint find {A} (p : A → bool) (l : list A) : option A :=
  match l with
  | [] => None
  | x :: l => if p x then Some x else find p l
  end.

(** [arr.findIndex(p)], with [None] for [-1]. *)
Fixpoint findIndex {A} (p : A → bool) (l : list A) : option nat :=
  match l with
  | [] => None
  | x :: l => if p x then Some 0%nat else S <$> findIndex p l
  end.

(** [arr[i]] for an index that is a JS number: [undefined] out of range. *)
Definition at_index {A} (l : list A) (i : Z) : option A :=
  if i <? 0 then None else l !! Z.to_nat i.

(** ** Columns of text

    A text column takes any text without NUL; [char_length] counts the
    characters of a text given by its UTF-8 bytes, that is the bytes that do
    not continue a character. *)
Fixpoint no_nul (s : string) : bool :=
  match s with EmptyString => true | String c s => negb (Ascii.N_of_ascii c =? 0)%N && no_nul s end.
Fixpoint char_length (s : string) : Z :=
  match s with
  | EmptyString => 0
  | String c s =>
      (if (128 <=? Ascii.N_of_ascii c)%N && (Ascii.N_of_ascii c <? 192)%N then 0 else 1) + char_length s
  end.
(** [table.string(...)]: a column varchar(255). *)
Definition varchar255 (s : string) : bool := no_nul s && (char_length s <=? 255).
Definition varchar255_opt (o : option string) : bool := from_option varchar255 true o.
Definition too_long : string := "value too long for type character varying(255)".

(** lodash [_.keyBy(l, k)]: a later element replaces an earlier one. *)
Definition keyBy {A} (k : A → string) (l : list A) : gmap string A :=
  foldl (λ m x, <[k x := x]> m) ∅ l.

(** Rows with distinct keys that are written over a table one by one. *)
Lemma foldl_upsert_lookup `{Countable K} {A R} (key : R → K) (f : option A → R → A) (rows : list R) (t : gmap K A) :
  NoDup (key <$> rows) →
  (∀ r, r ∈ rows → foldl (λ t r, <[key r := f (t !! key r) r]> t) t rows !! key r = Some (f (t !! key r) r)) ∧
  (∀ k, k ∉ key <$> rows → foldl (λ t r, <[key r := f (t !! key r) r]> t) t rows !! k = t !! k).
Proof.
  revert t. induction rows as [|r rows IH]; intros t Hnd; simpl.
  { split; [by intros r ?%not_elem_of_nil|done]. }
  apply NoDup_cons in Hnd as [Hr Hnd]. destruct (IH (<[key r := f (t !! key r) r]> t) Hnd) as [IH1 IH2]. split.
  - intros r' [->|Hr']%elem_of_cons; [by rewrite IH2, lookup_insert_eq|].
    assert (key r' ≠ key r) as Hne by (intros He; apply Hr; rewrite <-He; by apply list_elem_of_fmap_2).
    by rewrite IH1, lookup_insert_ne by done.
  - intros k [Hk Hk']%not_elem_of_cons. by rewrite IH2, lookup_insert_ne by done.
Qed.

(** lodash [_.sortBy(l, k)]: a stable sort on a numeric key. *)
Fixpoint sortBy_insert {A} (k : A → Z) (x : A) (l : list A) : list A :=
  match l with
  | [] => [x]
  | y :: l' => if k x <=? k y then x :: l else y :: sortBy_insert k x l'
  end.
Definition sortBy {A} (k : A → Z) (l : list A) : list A :=
  foldr (sortBy_insert k) [] l.

Lemma find_Some {A} (p : A → bool) l x :
  find p l = Some x → x ∈ l ∧ p x = true.
Proof.
  induction l as [|y l IH]; simpl; [done|].
  destruct (p y) eqn:Hy.
  - intros [= <-]. split; [left|done].
  - intros Hf. destruct (IH Hf). split; [by right|done].
Qed.

Lemma find_None {A} (p : A → bool) l :
  find p l = None ↔ Forall (λ x, p x = false) l.
Proof.
  induction l as [|y l IH]; simpl; [by split|].
  rewrite Forall_cons, <-IH. by destruct (p y); split; try intros [? ?].
Qed.

Lemma find_fmap {A B} (f : A → B) (p : B → bool) (l : list A) : find p (f <$> l) = f <$> find (λ x, p (f x)) l.
Proof. induction l as [|x l IH]; [done|]. rewrite fmap_cons. cbn [find]. by destruct (p (f x)). Qed.

Lemma findIndex_Some {A} (p : A → bool) l i :
  findIndex p l = Some i → ∃ x, l !! i = Some x ∧ p x = true.
Proof.
  revert i. induction l as [|y l IH]; intros i; simpl; [done|].
  destruct (p y) eqn:Hy; [intros [= <-]; eauto|].
  intros (j & Hj & ->)%fmap_Some. by apply IH.
Qed.

Lemma sortBy_insert_perm {A} (k : A → Z) x l :
  sortBy_insert k x l ≡ₚ x :: l.
Proof.
  induction l as [|y l IH]; simpl; [done|].
  destruct (k x <=? k y); [done|]. rewrite IH. apply Permutation_swap.
Qed.

Lemma sortBy_perm {A} (k : A → Z) l : sortBy k l ≡ₚ l.
Proof.
  induction l as [|x l IH]; simpl; [done|].
  by rewrite sortBy_insert_perm, IH.
Qed.

Lemma sortBy_insert_sorted {A} (k : A → Z) x l :
  Sorted (λ a b, k a <= k b) l →
  Sorted (λ a b, k a <= k b) (sortBy_insert k x l).
Proof.
  induction 1 as [|y l Hs IH Hhd]; simpl; [repeat constructor|].
  destruct (k x <=? k y) eqn:Hxy.
  - constructor; [by constructor|]. constructor. lia.
  - constructor; [done|]. destruct l as [|z l]; simpl; [constructor; lia|].
    inversion Hhd; subst. destruct (k x <=? k z); constructor; lia.
Qed.

Lemma sortBy_sorted {A} (k : A → Z) l :
  Sorted (λ a b, k a <= k b) (sortBy k l).
Proof.
  induction l; simpl; [constructor|]. by apply sortBy_insert_sorted.
Qed.

(** Stability: elements with the same key keep their order. *)
Lemma sortBy_stable {A} (k : A → Z) (z : Z) l :
  filter (λ a, k a = z) (sortBy k l) = filter (λ a, k a = z) l.
Proof.
  induction l as [|x l IH]; simpl; [done|].
  rewrite filter_cons, <-IH. generalize (sortBy k l) as l'. clear l IH.
  induction l' as [|y l' IH]; simpl; [by rewrite filter_cons|].
  destruct (k x <=? k y) eqn:Hxy; [by rewrite filter_cons|].
  rewrite !filter_cons, IH.
  destruct (decide (k y = z)), (decide (k x = z)); try done. lia.
Qed.

Lemma filter_none {A} (P : A → Prop) `{!∀ x, Decision (P x)} (l : list A) :
  (∀ x, x ∈ l → ¬ P x) → filter P l = [].
Proof.
  induction l as [|x l IH]; intros Hl; [done|].
  rewrite filter_cons, decide_False by (apply Hl; by left). apply IH. intros y Hy. apply Hl. by right.
Qed.

Lemma filter_all {A} (P : A → Prop) `{!∀ x, Decision (P x)} (l : list A) :
  (∀ x, x ∈ l → P x) → filter P l = l.
Proof.
  induction l as [|x l IH]; intros Hl; [done|].
  rewrite filter_cons, decide_True by (apply Hl; by left). f_equal. apply IH.
  intros y Hy. apply Hl. by right.
Qed.

Lemma filter_ext_in {A} (P Q : A → Prop) `{!∀ x, Decision (P x)} `{!∀ x, Decision (Q x)} (l : list A) :
  (∀ x, x ∈ l → (P x ↔ Q x)) → filter P l = filter Q l.
Proof.
  induction l as [|x l IH]; intros Hl; [done|]. rewrite !filter_cons, IH by (intros y Hy; apply Hl; by right).
  assert (P x ↔ Q x) as Hx by (apply Hl; by left).
  destruct (decide (P x)), (decide (Q x)); naive_solver.
Qed.

(** Rows with different keys: a key finds one row. *)
Lemma NoDup_fmap_key {A B} (f : A → B) (l : list A) x y :
  NoDup (f <$> l) → x ∈ l → y ∈ l → f x = f y → x = y.
Proof.
  induction l as [|z l IH]; [intros _ []%not_elem_of_nil|].
  rewrite fmap_cons, NoDup_cons. intros [Hz Hnd] Hx Hy Heq.
  apply elem_of_cons in Hx as [->|Hx], Hy as [->|Hy]; [done| | |by apply IH].
  - destruct Hz. rewrite Heq. by apply list_elem_of_fmap_2.
  - destruct Hz. rewrite <-Heq. by apply list_elem_of_fmap_2.
Qed.

Lemma NoDup_fmap_filter {A B} (f : A → B) (P Q : A → Prop) `{!∀ x, Decision (P x)}
    `{!∀ x, Decision (Q x)} (l : list A) :
  (∀ x, P x → Q x) → NoDup (f <$> filter Q l) → NoDup (f <$> filter P l).
Proof.
  intros Hpq. induction l as [|x l IH]; [done|]. rewrite !filter_cons.
  destruct (decide (Q x)) as [Hq|Hq]; cycle 1.
  { rewrite decide_False by auto. done. }
  rewrite fmap_cons, NoDup_cons. intros [Hx Hnd]. case_decide; [|by apply IH].
  rewrite fmap_cons. constructor; [|by apply IH].
  intros (y & Hy & [Hp Hin]%list_elem_of_filter)%list_elem_of_fmap.
  destruct Hx. rewrite Hy. apply list_elem_of_fmap_2, list_elem_of_filter. auto.
Qed.

(** Sorting commutes with functions that keep the key, and with filters. *)
Lemma sortBy_fmap {B C} (k : B → Z) (k' : C → Z) (g : B → C) l :
  (∀ x, k' (g x) = k x) → sortBy k' (g <$> l) = g <$> sortBy k l.
Proof.
  intros Hk. unfold sortBy. induction l as [|x l IH]; [done|].
  rewrite fmap_cons. cbn [foldr]. rewrite IH. clear IH.
  induction (foldr (sortBy_insert k) [] l) as [|y l' IH]; [done|].
  rewrite fmap_cons. cbn [sortBy_insert]. rewrite !Hk.
  destruct (k x <=? k y); [done|]. by rewrite fmap_cons, IH.
Qed.

Lemma sortBy_insert_filter {A} (k : A → Z) (P : A → Prop) `{!∀ x, Decision (P x)} x (l : list A) :
  Sorted (λ a b, k a <= k b) l →
  filter P (sortBy_insert k x l)
  = if decide (P x) then sortBy_insert k x (filter P l) else filter P l.
Proof.
  intros Hs%Sorted_StronglySorted; [|intros ? ? ?; lia].
  induction Hs as [|y l Hs IH Hall]; simpl; [by rewrite filter_cons|].
  destruct (k x <=? k y) eqn:Hxy.
  - rewrite filter_cons. case_decide; [|done].
    destruct (filter P (y :: l)) as [|z l'] eqn:Hf; [done|]. simpl.
    assert (z ∈ y :: l) as Hz by (apply (list_elem_of_filter P); rewrite Hf; by left).
    rewrite Forall_forall in Hall.
    assert (k y <= k z) by (apply elem_of_cons in Hz as [->|Hz]; [lia|by apply Hall]).
    by rewrite (proj2 (Z.leb_le _ _)) by lia.
  - rewrite !filter_cons, IH. do 2 case_decide; try done. simpl. by rewrite Hxy.
Qed.

Lemma sortBy_filter {A} (k : A → Z) (P : A → Prop) `{!∀ x, Decision (P x)} (l : list A) :
  filter P (sortBy k l) = sortBy k (filter P l).
Proof.
  induction l as [|x l IH]; [done|]. simpl.
  rewrite sortBy_insert_filter, filter_cons, IH by apply sortBy_sorted. by case_decide.
Qed.

(** A sorted list falls into the elements up to a bound and those above it. *)
Lemma sorted_split {A} (k : A → Z) (m : Z) (l : list A) :
  Sorted (λ a b, k a <= k b) l →
  l = filter (λ x, k x <= m) l ++ filter (λ x, m < k x) l.
Proof.
  intros Hs%Sorted_StronglySorted; [|intros ? ? ?; lia].
  induction Hs as [|y l Hs IH Hall]; [done|]. rewrite !filter_cons. case_decide as Hy.
  - rewrite decide_False by lia. simpl. by f_equal.
  - rewrite decide_True by lia. rewrite Forall_forall in Hall.
    rewrite (filter_none _ l), filter_all; [done| |]; intros x Hx%Hall; lia.
Qed.

Lemma concat_fmap {A B} (f : A → list B) l : concat (f <$> l) = l ≫= f.
Proof. induction l as [|x l IH]; [done|]. by rewrite fmap_cons, bind_cons, <-IH. Qed.

(** [Array.from(new Set(l))]: the first occurrence of every element. *)
Definition uniq {A} `{EqDecision A} (l : list A) : list A :=
  foldl (λ acc x, if bool_decide (x ∈ acc) then acc else acc ++ [x]) [] l.

Lemma uniq_snoc {A} `{EqDecision A} (l : list A) x :
  uniq (l ++ [x]) = if bool_decide (x ∈ uniq l) then uniq l else uniq l ++ [x].
Proof. unfold uniq. by rewrite foldl_app. Qed.

Lemma elem_of_uniq {A} `{EqDecision A} (l : list A) x : x ∈ uniq l ↔ x ∈ l.
Proof.
  induction l as [|y l IH] using rev_ind; [done|].
  rewrite uniq_snoc, elem_of_app, <-IH, list_elem_of_singleton.
  case_bool_decide; [|by rewrite elem_of_app, list_elem_of_singleton].
  split; [auto|]. by intros [?| ->].
Qed.

Lemma NoDup_uniq {A} `{EqDecision A} (l : list A) : NoDup (uniq l).
Proof.
  induction l as [|y l IH] using rev_ind; [constructor|].
  rewrite uniq_snoc. case_bool_decide as H; [done|].
  apply NoDup_app. split; [done|]. split; [|apply NoDup_singleton].
  intros x Hx ->%list_elem_of_singleton. done.
Qed.

(** lodash [_.uniqBy(l, k)]: the first element with each key. *)
Definition uniqBy {A} (k : A → string) (l : list A) : list A :=
  foldl (λ acc x, if bool_decide (k x ∈ k <$> acc) then acc else acc ++ [x]) [] l.

Lemma uniqBy_snoc {A} (k : A → string) l x :
  uniqBy k (l ++ [x]) = if bool_decide (k x ∈ k <$> uniqBy k l) then uniqBy k l else uniqBy k l ++ [x].
Proof. unfold uniqBy. by rewrite foldl_app. Qed.

Lemma uniqBy_sub {A} (k : A → string) l x : x ∈ uniqBy k l → x ∈ l.
Proof.
  induction l as [|y l IH] using rev_ind; [done|]. rewrite uniqBy_snoc, elem_of_app.
  case_bool_decide; [by left; auto|]. rewrite elem_of_app. intros [?|?]; auto.
Qed.

Lemma uniqBy_keys {A} (k : A → string) l s : s ∈ k <$> uniqBy k l ↔ s ∈ k <$> l.
Proof.
  induction l as [|y l IH] using rev_ind; [done|]. rewrite uniqBy_snoc, fmap_app, elem_of_app, <-IH.
  case_bool_decide as Hy.
  - split; [by left|]. intros [?|Hs]; [done|]. apply list_elem_of_singleton in Hs as ->. done.
  - by rewrite fmap_app, elem_of_app.
Qed.

Lemma NoDup_uniqBy {A} (k : A → string) l : NoDup (k <$> uniqBy k l).
Proof.
  induction l as [|y l IH] using rev_ind; [constructor|]. rewrite uniqBy_snoc.
  case_bool_decide as Hy; [done|]. rewrite fmap_app, NoDup_app. split; [done|]. split; [|apply NoDup_singleton].
  intros s Hs ->%list_elem_of_singleton. done.
Qed.

Lemma keyBy_snoc {A} (k : A → string) l x :
  keyBy k (l ++ [x]) = <[k x := x]> (keyBy k l).
Proof. unfold keyBy. by rewrite foldl_app. Qed.

Lemma keyBy_Some {A} (k : A → string) l s x :
  keyBy k l !! s = Some x → x ∈ l ∧ k x = s.
Proof.
  induction l as [|y l IH] using rev_ind; [done|].
  rewrite keyBy_snoc, lookup_insert, elem_of_app, list_elem_of_singleton.
  case_decide; [intros [= <-]; auto|]. intros Hx. destruct (IH Hx). auto.
Qed.

Lemma keyBy_elem {A} (k : A → string) l x :
  x ∈ l → (∀ y, y ∈ l → k y = k x → y = x) → keyBy k l !! k x = Some x.
Proof.
  intros Hx Hinj. destruct (keyBy k l !! k x) as [y|] eqn:Hy.
  - apply keyBy_Some in Hy as [Hy Hk]. by rewrite (Hinj y).
  - clear Hinj. exfalso. induction l as [|y l IH] using rev_ind; [by apply not_elem_of_nil in Hx|].
    rewrite keyBy_snoc, lookup_insert in Hy. case_decide as Hk; [done|].
    apply elem_of_app in Hx as [Hx|Hx%list_elem_of_singleton]; [by apply IH|congruence].
Qed.

Lemma keyBy_None {A} (k : A → string) l s :
  keyBy k l !! s = None ↔ Forall (λ x, k x ≠ s) l.
Proof.
  induction l as [|y l IH] using rev_ind; [by split|].
  rewrite keyBy_snoc, Forall_app, Forall_singleton, <-IH, lookup_insert.
  case_decide; split; try done; naive_solver.
Qed.

Lemma keyBy_last {A} (k : A → string) l s :
  keyBy k l !! s = last (filter (λ x, k x = s) l).
Proof.
  induction l as [|x l IH] using rev_ind; [done|].
  rewrite keyBy_snoc, lookup_insert, filter_app, filter_cons, filter_nil.
  case_decide; [by rewrite last_snoc|by rewrite app_nil_r].
Qed.

Lemma keyBy_is_Some {A} (k : A → string) l s :
  is_Some (keyBy k l !! s) ↔ s ∈ k <$> l.
Proof.
  rewrite <-not_eq_None_Some, keyBy_None.
  destruct (decide (s ∈ k <$> l)) as [Hs|Hs]; split; try done.
  - intros _ Hall. apply list_elem_of_fmap in Hs as (x & -> & Hx).
    rewrite Forall_forall in Hall. by eapply Hall.
  - intros Hn. destruct Hn. apply Forall_forall. intros x Hx <-.
    by apply Hs, list_elem_of_fmap_2.
Qed.

(** ** Serial ids

    The rows of an insertion take their ids from a sequence, in order. *)
Definition serial {A} (with_id : Z → A → A) (next : Z) (l : list A) : list A :=
  imap (λ i x, with_id (next + Z.of_nat i) x) l.

Lemma serial_cons {A} (with_id : Z → A → A) next x l :
  serial with_id next (x :: l) = with_id next x :: serial with_id (next + 1) l.
Proof.
  unfold serial. simpl. f_equal; [f_equal; lia|].
  apply imap_ext. intros i y _. simpl. f_equal. lia.
Qed.

Lemma length_serial {A} (with_id : Z → A → A) next l : length (serial with_id next l) = length l.
Proof. apply length_imap. Qed.

Section Serial.
Context {A : Type} (with_id : Z → A → A) (id : A → Z).
Context (id_with_id : ∀ i x, id (with_id i x) = i).

Lemma serial_ids next l : id <$> serial with_id next l = seqZ next (Z.of_nat (length l)).
Proof using id_with_id.
  revert next. induction l as [|x l IH]; intros next; [done|].
  rewrite serial_cons, fmap_cons, id_with_id, IH, length_cons.
  rewrite (seqZ_cons next) by lia. f_equal. f_equal; lia.
Qed.

Lemma serial_rows next l : Forall2 (λ x y, y = with_id (id y) x) l (serial with_id next l).
Proof using id_with_id.
  revert next. induction l as [|x l IH]; intros next; [constructor|].
  rewrite serial_cons. constructor; [by rewrite id_with_id|apply IH].
Qed.

(** Fresh ids keep the ids of a table unique and below the sequence. *)
Lemma serial_fresh next l old :
  NoDup (id <$> old) → Forall (λ x, id x < next) old →
  NoDup (id <$> old ++ serial with_id next l) ∧
  Forall (λ x, id x < next + Z.of_nat (length l)) (old ++ serial with_id next l).
Proof using id_with_id.
  intros Hnd Hlt. rewrite Forall_forall in Hlt. split.
  - rewrite fmap_app, serial_ids. apply NoDup_app. split; [done|]. split; [|apply NoDup_seqZ].
    intros i (x & -> & Hx)%list_elem_of_fmap Hi%elem_of_seqZ. specialize (Hlt _ Hx). lia.
  - apply Forall_forall. intros x [Hx|Hx]%elem_of_app; [specialize (Hlt _ Hx); lia|].
    assert (id x ∈ seqZ next (Z.of_nat (length l))) as Hi%elem_of_seqZ
      by (rewrite <-serial_ids; by apply list_elem_of_fmap_2). lia.
Qed.
End Serial.

(** ** Sums *)
Definition sum_of {A} (f : A → Z) (l : list A) : Z := foldr (λ x acc, f x + acc) 0 l.

Lemma sum_of_app {A} (f : A → Z) l1 l2 : sum_of f (l1 ++ l2) = sum_of f l1 + sum_of f l2.
Proof. induction l1 as [|x l1 IH]; simpl; lia. Qed.

(** The sum of [f] over the entries of a map. *)
Definition map_total `{Countable K} {A} (f : K → A → Z) (m : gmap K A) : Z :=
  map_fold (λ k x acc, f k x + acc) 0 m.

Lemma map_total_insert_None `{Countable K} {A} (f : K → A → Z) m k x :
  m !! k = None → map_total f (<[k := x]> m) = f k x + map_total f m.
Proof.
  intros Hk. unfold map_total. rewrite map_fold_insert_L; [done| |done].
  intros. lia.
Qed.

Lemma map_total_insert `{Countable K} {A} (f : K → A → Z) m k x :
  map_total f (<[k := x]> m) = map_total f m + f k x - from_option (f k) 0 (m !! k).
Proof.
  destruct (m !! k) as [y|] eqn:Hk; simpl.
  - rewrite <-(insert_delete_id m k y Hk), insert_insert_eq.
    rewrite !map_total_insert_None by apply lookup_delete_eq. lia.
  - rewrite map_total_insert_None by done. lia.
Qed.

Lemma map_total_ext `{Countable K} {A} (f g : K → A → Z) (m : gmap K A) :
  (∀ k x, m !! k = Some x → f k x = g k x) → map_total f m = map_total g m.
Proof.
  induction m as [|k x m Hk IH] using map_ind; intros Hfg; [done|].
  rewrite !map_total_insert_None by done. rewrite (Hfg k x) by apply lookup_insert_eq.
  rewrite IH; [done|]. intros k' x' Hx. apply Hfg. rewrite lookup_insert_ne; congruence.
Qed.

Lemma map_total_zero `{Countable K} {A} (m : gmap K A) : map_total (λ _ _, 0) m = 0.
Proof.
  induction m as [|k x m Hk IH] using map_ind; [done|]. by rewrite map_total_insert_None, IH.
Qed.

Lemma map_total_filter `{Countable K} {A} (f : K → A → Z) (P : K * A → Prop) `{!∀ x, Decision (P x)}
    (m : gmap K A) :
  map_total f (filter P m) = map_total (λ k x, if decide (P (k, x)) then f k x else 0) m.
Proof.
  induction m as [|k x m Hk IH] using map_ind; [by rewrite map_filter_empty|].
  rewrite map_total_insert_None by done. destruct (decide (P (k, x))).
  - rewrite map_filter_insert_True by done. rewrite map_total_insert_None, IH; [done|].
    apply map_lookup_filter_None. by left.
  - rewrite map_filter_insert_False by done. rewrite delete_id by done. by rewrite IH.
Qed.

Definition map_sum {A} (f : A → Z) (m : gmap string A) : Z := map_total (λ _, f) m.

Lemma map_sum_insert_None {A} (f : A → Z) m k x :
  m !! k = None → map_sum f (<[k := x]> m) = f x + map_sum f m.
Proof. apply (map_total_insert_None (λ _, f)). Qed.

Lemma map_sum_insert {A} (f : A → Z) m k x :
  map_sum f (<[k := x]> m) = map_sum f m + f x - from_option f 0 (m !! k).
Proof. apply (map_total_insert (λ _, f)). Qed.

(** ** Concurrency

    The callbacks of a [Promise.all] finish in any order: what they push to a
    shared array comes in the order in which they settle.  [settled l] is the
    list [l] in the order of settling, a parameter of the model. *)
Class Settling := settle_order : nat → list nat.
Class SettlingLaws (S : Settling) : Prop := settle_perm n : settle_order n ≡ₚ seq 0 n.

Definition settled {S : Settling} {A} (l : list A) : list A := omap (λ i, l !! i) (settle_order (length l)).

Lemma omap_lookup_seq {A} (l : list A) : omap (λ i, l !! i) (seq 0 (length l)) = l.
Proof.
  induction l as [|x l IH] using rev_ind; [done|].
  rewrite length_app, seq_app, omap_app. simpl. rewrite lookup_app_r, Nat.sub_diag by lia. simpl. f_equal.
  rewrite <-IH at 2. apply list_omap_ext.
  apply Forall2_same_length_lookup. split; [done|]. intros i x1 x2 H1 H2. simplify_eq.
  apply lookup_seq in H1 as [-> Hi]. by rewrite lookup_app_l.
Qed.

Lemma settled_perm {S : Settling} `{!SettlingLaws S} {A} (l : list A) : settled l ≡ₚ l.
Proof. unfold settled. rewrite (settle_perm (length l)). by rewrite omap_lookup_seq. Qed.

(** In the order of the calls, and in the opposite order. *)
Definition in_order : Settling := seq 0.
Definition last_first : Settling := λ n, rev (seq 0 n).
#[export] Instance in_order_laws : SettlingLaws in_order.
Proof. by intros n. Qed.
#[export] Instance last_first_laws : SettlingLaws last_first.
Proof. intros n. unfold settle_order, last_first. symmetry. apply Permutation_rev. Qed.

(** ** Text *)
Lemma string_app_cons c (a b : string) : (String c a +:+ b = String c (a +:+ b))%string.
Proof. done. Qed.

Lemma string_app_assoc (a b c : string) : ((a +:+ b) +:+ c = a +:+ (b +:+ c))%string.
Proof. induction a as [|x a IH]; [done|]. by rewrite !string_app_cons, IH. Qed.

Lemma string_app_nil (a : string) : (a +:+ "" = a)%string.
Proof. induction a as [|x a IH]; [done|]. by rewrite string_app_cons, IH. Qed.

Lemma string_length_app (a b : string) : String.length (a +:+ b) = (String.length a + String.length b)%nat.
Proof. induction a as [|x a IH]; [done|]. rewrite string_app_cons. simpl. by rewrite IH. Qed.

(** ** Pages

    A [while] loop that asks for one page after the other: [page k] answers
    the items from [k] on (the start without one) and the key of the next
    page.  The fuel bounds the number of pages. *)
Section Pages.
Context {K A : Type} (page : option K → res (list A * option K)).

Fixpoint pages (fuel : nat) (key : option K) : res (list A) :=
  match fuel with
  | O => Throw "out of fuel"
  | S fuel =>
      '(items, next) ← page key;
      match next with
      | None => Ok items
      | Some k => rest ← pages fuel (Some k); Ok (items ++ rest)
      end
  end.

(** The pages from a key on are [n], with these items. *)
Inductive paged : option K → list A → nat → Prop :=
| paged_last key items : page key = Ok (items, None) → paged key items 1
| paged_more key items k rest n :
    page key = Ok (items, Some k) → paged (Some k) rest n → paged key (items ++ rest) (S n).

(** As much fuel as there are pages is enough, and the result is theirs. *)
Lemma pages_complete key l n fuel : paged key l n → (n <= fuel)%nat → pages fuel key = Ok l.
Proof.
  intros H. revert fuel. induction H as [key items Hp|key items k rest n Hp H IH];
    intros [|fuel] Hf; try lia; cbn [pages]; rewrite Hp; cbn [mbind res_bind]; [done|].
  rewrite IH by lia. done.
Qed.

Lemma pages_paged key l fuel : pages fuel key = Ok l → ∃ n, (n <= fuel)%nat ∧ paged key l n.
Proof.
  revert key l. induction fuel as [|fuel IH]; intros key l; cbn [pages]; [done|].
  intros ([items next] & Hp & H)%bind_Ok. destruct next as [k|].
  - apply bind_Ok in H as (rest & (n & Hn & Hr)%IH & [= <-]). exists (S n). split; [lia|]. by econstructor.
  - injection H as <-. exists 1%nat. split; [lia|by constructor].
Qed.
End Pages.

(** ** Event attributes *)
Record attribute := Attribute { attr_key : string; attr_value : option string }.

#[export] Instance attribute_eq_dec : EqDecision attribute.
Proof. solve_decision. Defined.

(** [getAttributeFrom] of [common/utils/smart_contract.ts]: the value of the
    first attribute with the key. *)
Definition getAttributeFrom (listAttributes : list attribute) (attributeType : string)
  : option string :=
  find (λ a, bool_decide (attr_key a = attributeType)) listAttributes ≫= attr_value.

(** A required field of a schema ([Model.fromJson]). *)
Definition required (o : option string) : res string :=
  match o with Some s => Ok s | None => Throw "ValidationError: must have required property" end.

Lemma required_Ok o s : required o = Ok s → o = Some s.
Proof. destruct o; by intros [= <-]. Qed.

(** ** Automation *)
Create Rewrite HintDb erascope.
#[export] Hint Rewrite @bind_Ok : erascope.

(** Split a hypothesis about a successful run into its steps. *)
Ltac inv_ok H :=
  repeat match type of H with
  | (_ ≫= _) = Ok _ =>
      let a := fresh "a" in let Ha := fresh "Ha" in
      apply bind_Ok in H as (a & Ha & H)
  end.

(** Split a hypothesis about a program with commits that returned. *)
Ltac inv_io H :=
  repeat match type of H with
  | (_ ≫= _) _ = (_, Ok _) =>
      let d := fresh "d" in let a := fresh "a" in let Ha := fresh "Ha" in
      apply io_bind_Ok in H as (d & a & Ha & H)
  end.

(** Decide a closed proposition by evaluation. *)
Ltac by_compute := apply (bool_decide_unpack _); vm_compute; exact I.
