(* ===== verification/JsNum.v ===== *)
(** * JavaScript numbers and big integers

    Token amounts cross the program as decimal strings.  The services compute
    with them through [BigInt(s)] and print the result back with
    [.toString()]; one service, coin transfer, uses [Number.parseInt]
    instead.  This file models these primitives of the language:
    - [BigInt] : StringToBigInt of ECMAScript (leading and trailing ASCII
      white space, empty string as 0, [0x]/[0o]/[0b] literals, an optional
      sign on a decimal literal, SyntaxError otherwise);
    - [toString] : the decimal representation of a big integer;
    - [to_double] : the Number (IEEE 754 binary64, round to nearest, ties to
      even) nearest to a mathematical non-negative integer;
    and the round trip [BigInt (toString z) = z]. *)
From S2P Require Import Prelude.
From Stdlib Require Export Ascii.

(** ** Characters and digits *)
Definition ascii_Z (c : ascii) : Z := Z.of_N (N_of_ascii c).
Definition Z_ascii (z : Z) : ascii := ascii_of_N (Z.to_N z).

Definition is_digit (c : ascii) : bool := (48 <=? ascii_Z c) && (ascii_Z c <=? 57).

(** Tab, line feed, vertical tab, form feed, carriage return and space. *)
Definition is_space (c : ascii) : bool :=
  ((9 <=? ascii_Z c) && (ascii_Z c <=? 13)) || (ascii_Z c =? 32).

(** The value of a digit in any base up to 36. *)
Definition digit_val (c : ascii) : Z :=
  let z := ascii_Z c in
  if (48 <=? z) && (z <=? 57) then z - 48
  else if (97 <=? z) && (z <=? 122) then z - 87
  else if (65 <=? z) && (z <=? 90) then z - 55
  else 36.

(** ** Reading *)

(** The digits of [s] in [base], most significant first, added to [acc]. *)
Fixpoint read_digits (base acc : Z) (s : string) : option Z :=
  match s with
  | EmptyString => Some acc
  | String c s =>
      let d := digit_val c in
      if d <? base then read_digits base (acc * base + d) s else None
  end.

Definition read_nonempty (base : Z) (s : string) : option Z :=
  match s with EmptyString => None | _ => read_digits base 0 s end.

Fixpoint trim_start (s : string) : string :=
  match s with
  | String c s' => if is_space c then trim_start s' else s
  | EmptyString => EmptyString
  end.

Fixpoint all_space (s : string) : bool :=
  match s with String c s => is_space c && all_space s | EmptyString => true end.

Fixpoint trim_end (s : string) : string :=
  match s with
  | EmptyString => EmptyString
  | String c s' => if all_space s then EmptyString else String c (trim_end s')
  end.

Definition read_literal (s : string) : option Z :=
  match s with
  | EmptyString => Some 0
  | String "-" s => Z.opp <$> read_nonempty 10 s
  | String "+" s => read_nonempty 10 s
  | String "0" (String "x" s) | String "0" (String "X" s) => read_nonempty 16 s
  | String "0" (String "o" s) | String "0" (String "O" s) => read_nonempty 8 s
  | String "0" (String "b" s) | String "0" (String "B" s) => read_nonempty 2 s
  | _ => read_nonempty 10 s
  end%char.

(** [BigInt(s)] for a string. *)
Definition BigInt (s : string) : res Z :=
  match read_literal (trim_end (trim_start s)) with
  | Some z => Ok z
  | None => Throw "SyntaxError: Cannot convert string to a BigInt"
  end.

(** [BigInt(o)] for a string that can be [undefined] or [null]. *)
Definition BigInt_opt (o : option string) : res Z :=
  match o with
  | Some s => BigInt s
  | None => Throw "TypeError: Cannot convert undefined to a BigInt"
  end.

(** [BigInt(o || 0)]: [undefined], [null] and [''] count as 0. *)
Definition BigInt_or_0 (o : option string) : res Z :=
  match o with Some s => if decide (s = "") then Ok 0 else BigInt s | None => Ok 0 end.

(** ** Printing *)
Definition digit_char (d : Z) : ascii := Z_ascii (48 + d).

(** The decimal digits of [n] in front of [acc]. *)
Fixpoint print_digits (fuel : nat) (n : Z) (acc : string) : string :=
  let acc' := String (digit_char (n mod 10)) acc in
  match fuel with
  | O => acc'
  | S fuel => if n <? 10 then acc' else print_digits fuel (n / 10) acc'
  end.

(** Enough fuel for the decimal digits of [n]. *)
Definition print_fuel (n : Z) : nat := S (Z.to_nat (Z.log2 n)).

Definition print_nat (n : Z) : string := print_digits (print_fuel n) n "".

(** [z.toString()] for a big integer. *)
Definition toString (z : Z) : string :=
  if z <? 0 then String "-" (print_nat (- z)) else print_nat z.

Example toString_ex : toString (-1050011) = "-1050011".
Proof. reflexivity. Qed.
Example BigInt_ex : BigInt " 0x1F " = Ok 31 ∧ is_ok (BigInt "1.5") = false.
Proof. by vm_compute. Qed.

(** ** Round trip *)

(** Case analysis on a decimal digit. *)
Ltac digit_cases d :=
  let H := fresh in
  assert (d = 0 ∨ d = 1 ∨ d = 2 ∨ d = 3 ∨ d = 4 ∨ d = 5 ∨ d = 6 ∨ d = 7 ∨ d = 8 ∨ d = 9)
    as H by lia;
  destruct_or! H; subst d.

Lemma digit_val_char d : 0 <= d < 10 → digit_val (digit_char d) = d.
Proof. intros Hd. digit_cases d; reflexivity. Qed.

Lemma is_digit_char d : 0 <= d < 10 → is_digit (digit_char d) = true.
Proof. intros Hd. digit_cases d; reflexivity. Qed.

Lemma is_digit_inv c : is_digit c = true → ∃ d, 0 <= d < 10 ∧ c = digit_char d.
Proof.
  intros H. exists (ascii_Z c - 48). unfold is_digit in H. split; [lia|].
  unfold digit_char, Z_ascii, ascii_Z in *.
  replace (48 + (Z.of_N (N_of_ascii c) - 48)) with (Z.of_N (N_of_ascii c)) by lia.
  by rewrite N2Z.id, ascii_N_embedding.
Qed.

(** Every character of [s] is a decimal digit. *)
Fixpoint all_digits (s : string) : bool :=
  match s with String c s => is_digit c && all_digits s | EmptyString => true end.

Lemma read_print_digits fuel n acc :
  0 <= n < 10 ^ (Z.of_nat fuel + 1) →
  read_digits 10 0 (print_digits fuel n acc) = read_digits 10 n acc.
Proof.
  revert n acc. induction fuel as [|fuel IH]; intros n acc Hn; cbn [print_digits].
  - change (Z.of_nat 0 + 1) with 1 in Hn. rewrite Z.mod_small by lia. simpl.
    rewrite digit_val_char by lia.
    destruct (Z.ltb_spec n 10); [f_equal; lia | lia].
  - destruct (Z.ltb_spec n 10) as [Hlt|Hge].
    + rewrite Z.mod_small by lia. simpl. rewrite digit_val_char by lia.
      destruct (Z.ltb_spec n 10); [f_equal; lia | lia].
    + assert (Hm := Z.mod_pos_bound n 10 ltac:(lia)).
      rewrite IH.
      * simpl. rewrite digit_val_char by lia.
        destruct (Z.ltb_spec (n mod 10) 10); [|lia].
        f_equal. pose proof (Z.div_mod n 10). lia.
      * split; [apply Z.div_pos; lia|]. apply Z.div_lt_upper_bound; [lia|].
        replace (Z.of_nat (S fuel) + 1) with (Z.succ (Z.of_nat fuel + 1)) in Hn by lia.
        rewrite Z.pow_succ_r in Hn by lia. lia.
Qed.

Lemma print_fuel_enough n : 0 <= n → n < 10 ^ (Z.of_nat (print_fuel n) + 1).
Proof.
  intros Hn. unfold print_fuel. rewrite Nat2Z.inj_succ, Z2Nat.id by apply Z.log2_nonneg.
  destruct (Z.eq_dec n 0) as [->|Hne]; [done|].
  destruct (Z.log2_spec n) as [_ Hlog]; [lia|].
  eapply Z.lt_le_trans; [exact Hlog|].
  transitivity (10 ^ Z.succ (Z.log2 n)).
  - apply Z.pow_le_mono_l. lia.
  - apply Z.pow_le_mono_r; lia.
Qed.

Lemma print_digits_all fuel n acc :
  0 <= n → all_digits acc = true → all_digits (print_digits fuel n acc) = true.
Proof.
  revert n acc. induction fuel as [|fuel IH]; intros n acc Hn Hacc; simpl;
    assert (Hm := Z.mod_pos_bound n 10 ltac:(lia)).
  - by rewrite is_digit_char.
  - destruct (n <? 10); simpl.
    + by rewrite is_digit_char.
    + apply IH; [apply Z.div_pos; lia|]. simpl. by rewrite is_digit_char.
Qed.

Lemma print_digits_nonempty fuel n acc : print_digits fuel n acc ≠ "".
Proof.
  revert n acc. induction fuel as [|fuel IH]; intros n acc; simpl; [done|].
  by destruct (n <? 10).
Qed.

Lemma all_digits_no_space s : all_digits s = true → s ≠ "" → all_space s = false.
Proof.
  destruct s as [|c s]; simpl; [done|].
  intros [(d & Hd & ->)%is_digit_inv _]%andb_prop _.
  digit_cases d; reflexivity.
Qed.

Lemma trim_start_digits s : all_digits s = true → trim_start s = s.
Proof.
  destruct s as [|c s]; simpl; [done|].
  intros [(d & Hd & ->)%is_digit_inv _]%andb_prop. digit_cases d; reflexivity.
Qed.

Lemma trim_end_digits s : all_digits s = true → trim_end s = s.
Proof.
  induction s as [|c s IH]; cbn [trim_end all_digits]; [done|].
  intros Hds. rewrite (all_digits_no_space (String c s)) by done.
  apply andb_prop in Hds as [_ Hs]. by rewrite IH.
Qed.

Lemma read_literal_digits s :
  all_digits s = true → s ≠ "" → read_literal s = read_digits 10 0 s.
Proof.
  destruct s as [|c [|c2 s]]; simpl; [done| |].
  - intros [(d & Hd & ->)%is_digit_inv _]%andb_prop _. digit_cases d; reflexivity.
  - intros [(d & Hd & ->)%is_digit_inv
            [(d2 & Hd2 & ->)%is_digit_inv _]%andb_prop]%andb_prop _.
    digit_cases d; try reflexivity. digit_cases d2; reflexivity.
Qed.

Lemma BigInt_digits s : all_digits s = true → s ≠ "" →
  BigInt s = match read_digits 10 0 s with
             | Some z => Ok z
             | None => Throw "SyntaxError: Cannot convert string to a BigInt" end.
Proof.
  intros Hs Hne. unfold BigInt.
  by rewrite trim_start_digits, trim_end_digits, read_literal_digits.
Qed.

Lemma BigInt_print_nat n : 0 <= n → BigInt (print_nat n) = Ok n.
Proof.
  intros Hn. unfold print_nat. rewrite BigInt_digits.
  - rewrite read_print_digits; [done|]. split; [done|]. by apply print_fuel_enough.
  - by apply print_digits_all.
  - apply print_digits_nonempty.
Qed.

Lemma trim_end_minus s : all_digits s = true → s ≠ "" →
  trim_end (String "-" s) = String "-" s.
Proof.
  intros Hs Hne. cbn [trim_end all_space]. by rewrite trim_end_digits.
Qed.

(** Printing then reading a big integer gives it back. *)
Lemma BigInt_toString z : BigInt (toString z) = Ok z.
Proof.
  unfold toString. destruct (Z.ltb_spec z 0); [|by apply BigInt_print_nat].
  unfold BigInt, print_nat. cbn [trim_start]. change (is_space "-") with false.
  cbn iota. set (s := print_digits _ _ _).
  assert (all_digits s = true) as Hs by (apply print_digits_all; [lia|done]).
  assert (s ≠ "") as Hne by apply print_digits_nonempty.
  rewrite trim_end_minus by done. cbn [read_literal].
  assert (read_nonempty 10 s = read_digits 10 0 s) as -> by (by destruct s).
  subst s. rewrite read_print_digits.
  - simpl. f_equal. lia.
  - split; [lia|]. apply print_fuel_enough. lia.
Qed.

Lemma toString_nonempty z : toString z ≠ "".
Proof.
  unfold toString. destruct (z <? 0); [done|]. apply print_digits_nonempty.
Qed.

Lemma toString_inj z1 z2 : toString z1 = toString z2 → z1 = z2.
Proof.
  intros H. assert (Ok z1 = Ok z2) as [= ->]; [|done].
  by rewrite <-(BigInt_toString z1), <-(BigInt_toString z2), H.
Qed.

Lemma BigInt_or_0_toString z : BigInt_or_0 (Some (toString z)) = Ok z.
Proof.
  simpl. rewrite decide_False by apply toString_nonempty. apply BigInt_toString.
Qed.

#[export] Hint Rewrite BigInt_toString BigInt_or_0_toString : erascope.

(** ** [parseInt(s, 10)]

    The integer at the start of [s], [None] for [NaN]. *)
Fixpoint read_prefix (acc : Z) (s : string) : Z :=
  match s with
  | String c s' => if is_digit c then read_prefix (acc * 10 + digit_val c) s' else acc
  | EmptyString => acc
  end.

Definition parseInt_digits (s : string) : option Z :=
  match s with
  | String c _ => if is_digit c then Some (read_prefix 0 s) else None
  | EmptyString => None
  end.

Definition parseInt (s : string) : option Z :=
  match trim_start s with
  | String "-" s => Z.opp <$> parseInt_digits s
  | String "+" s => parseInt_digits s
  | s => parseInt_digits s
  end%char.

(** [parseInt(s, 16)]: the digits may follow a [0x]. *)
Fixpoint read_hex_prefix (acc : Z) (s : string) : Z :=
  match s with
  | String c s' => if digit_val c <? 16 then read_hex_prefix (acc * 16 + digit_val c) s' else acc
  | EmptyString => acc
  end.

Definition parseInt16_digits (s : string) : option Z :=
  let s := match s with
           | String "0" (String "x" s') | String "0" (String "X" s') => s'
           | _ => s
           end%char in
  match s with
  | String c _ => if digit_val c <? 16 then Some (read_hex_prefix 0 s) else None
  | EmptyString => None
  end.

Definition parseInt16 (s : string) : option Z :=
  match trim_start s with
  | String "-" s => Z.opp <$> parseInt16_digits s
  | String "+" s => parseInt16_digits s
  | s => parseInt16_digits s
  end%char.

Example parseInt16_ex : parseInt16 <$> ["0xde0b6b3a7640000"; "-1F"; "0x"; "undefined"]
  = [Some 1000000000000000000; Some (-31); None; None].
Proof. reflexivity. Qed.

Lemma read_prefix_digits acc s : all_digits s = true → read_digits 10 acc s = Some (read_prefix acc s).
Proof.
  revert acc. induction s as [|c s IH]; intros acc; simpl; [done|].
  intros [Hc Hs]%andb_prop. rewrite Hc. apply is_digit_inv in Hc as (d & Hd & ->).
  rewrite digit_val_char by done. destruct (Z.ltb_spec d 10); [by apply IH|lia].
Qed.

Lemma parseInt_toString n : 0 <= n → parseInt (toString n) = Some n.
Proof.
  intros Hn. unfold toString. destruct (Z.ltb_spec n 0); [lia|]. unfold print_nat.
  pose proof (print_digits_all (print_fuel n) n "" Hn eq_refl) as Hall.
  pose proof (print_digits_nonempty (print_fuel n) n "") as Hne.
  pose proof (read_print_digits (print_fuel n) n "" (conj Hn (print_fuel_enough n Hn))) as Hr.
  set (s := print_digits _ _ _) in *. rewrite read_prefix_digits in Hr by done.
  unfold parseInt. rewrite trim_start_digits by done.
  destruct s as [|c s]; [done|]. pose proof Hall as Hc. apply andb_prop in Hc as [Hc _].
  assert (parseInt_digits (String c s) = Some n) as Hp by (unfold parseInt_digits; by rewrite Hc).
  apply is_digit_inv in Hc as (d & Hd & ->). digit_cases d; exact Hp.
Qed.

#[export] Hint Rewrite parseInt_toString using lia : erascope.

#[global] Arguments toString : simpl never.
#[global] Arguments parseInt : simpl never.

(** ** Numbers *)

(** [k] / 2^[e], rounded to the nearest integer, ties to the even one. *)
Definition round_half_even (k e : Z) : Z :=
  let q := k / 2 ^ e in
  let r := k mod 2 ^ e in
  let half := 2 ^ (e - 1) in
  if r <? half then q
  else if half <? r then q + 1
  else if Z.even q then q else q + 1.

(** The Number nearest to the non-negative integer [n], as an integer; [None]
    is [Infinity]. *)
Definition to_double (n : Z) : option Z :=
  if n <? 2 ^ 53 then Some n
  else
    let e := Z.log2 n - 52 in
    let m := round_half_even n e * 2 ^ e in
    if m <? 2 ^ 1024 then Some m else None.

Lemma to_double_exact n : n <= 2 ^ 53 → to_double n = Some n.
Proof.
  intros Hn. unfold to_double. destruct (Z.ltb_spec n (2 ^ 53)); [done|].
  assert (n = 2 ^ 53) as -> by lia. reflexivity.
Qed.

Example to_double_inexact : to_double (2 ^ 53 + 1) = Some (2 ^ 53).
Proof. reflexivity. Qed.

(** ** Composite keys

    Dictionaries are keyed by [`${a}_${b}`].  The key determines both parts
    when the first one holds no underscore. *)
Fixpoint no_underscore (s : string) : bool :=
  match s with
  | EmptyString => true
  | String c s => negb (bool_decide (c = "_"%char)) && no_underscore s
  end.

Definition key2 (a b : string) : string := (a +:+ "_" +:+ b)%string.

Lemma key2_inj a a' b b' :
  no_underscore a = true → no_underscore a' = true →
  key2 a b = key2 a' b' → a = a' ∧ b = b'.
Proof.
  unfold key2. revert a'. induction a as [|c a IH]; intros [|c' a'] Ha Ha'; simpl in *.
  - intros H. injection H as H. done.
  - intros H. injection H as <- H. done.
  - intros H. injection H as -> H. done.
  - apply andb_prop in Ha as [_ Ha], Ha' as [_ Ha'].
    intros H. injection H as -> Heq. by destruct (IH a' Ha Ha' Heq) as [-> ->].
Qed.

Lemma all_digits_no_underscore s : all_digits s = true → no_underscore s = true.
Proof.
  induction s as [|c s IH]; simpl; [done|].
  intros [(d & Hd & ->)%is_digit_inv Hs]%andb_prop. rewrite IH by done.
  digit_cases d; reflexivity.
Qed.

Lemma toString_no_underscore z : no_underscore (toString z) = true.
Proof.
  unfold toString, print_nat. destruct (Z.ltb_spec z 0).
  - change (no_underscore (print_digits (print_fuel (- z)) (- z) "") = true).
    apply all_digits_no_underscore, print_digits_all; [lia|done].
  - apply all_digits_no_underscore, print_digits_all; [lia|done].
Qed.

(** [`${id}`] for a number that can be [null]. *)
Definition show_id (o : option Z) : string :=
  match o with Some z => toString z | None => "null" end.

Lemma show_id_no_underscore o : no_underscore (show_id o) = true.
Proof. destruct o; [apply toString_no_underscore|done]. Qed.

Lemma toString_not_null z : toString z ≠ "null".
Proof.
  unfold toString, print_nat. destruct (Z.ltb_spec z 0) as [|Hz]; [done|].
  intros Heq. pose proof (print_digits_all (print_fuel z) z "" Hz eq_refl) as H.
  rewrite Heq in H. by vm_compute in H.
Qed.

Lemma show_id_inj o1 o2 : show_id o1 = show_id o2 → o1 = o2.
Proof.
  destruct o1 as [z1|], o2 as [z2|]; simpl; [|intros H..|done].
  - intros H. by rewrite (toString_inj _ _ H).
  - by apply toString_not_null in H.
  - symmetry in H. by apply toString_not_null in H.
Qed.

#[export] Hint Resolve toString_no_underscore show_id_no_underscore : core.

(** AJV's coercion of a string to a number, for a field of the schema that is
    one ([coerceTypes] of models/base.ts). *)
Definition coerce_number (s : string) : res Z :=
  if decide (s = "") then Throw "ValidationError: must be number" else BigInt s.

Lemma coerce_toString i : coerce_number (toString i) = Ok i.
Proof.
  unfold coerce_number. rewrite decide_False by apply toString_nonempty. apply BigInt_toString.
Qed.

(** [x ? f(x) : null] for a text. *)
Definition if_text {A} (o : option string) (f : string → A) : option A :=
  match o with Some s => if bool_decide (s = "") then None else Some (f s) | None => None end.

Lemma if_text_Some {A} s (f : string → A) : s ≠ "" → if_text (Some s) f = Some (f s).
Proof. intros Hs. simpl. by rewrite bool_decide_eq_false_2. Qed.

(** [s.toLowerCase()] on ASCII strings. *)
Fixpoint toLowerCase (s : string) : string :=
  match s with
  | EmptyString => EmptyString
  | String c s =>
      String (if (65 <=? ascii_Z c) && (ascii_Z c <=? 90) then Z_ascii (ascii_Z c + 32) else c)
             (toLowerCase s)
  end.

(** [s.toUpperCase()] on ASCII strings. *)
Fixpoint toUpperCase (s : string) : string :=
  match s with
  | EmptyString => EmptyString
  | String c s =>
      String (if (97 <=? ascii_Z c) && (ascii_Z c <=? 122) then Z_ascii (ascii_Z c - 32) else c)
             (toUpperCase s)
  end.

(** ** [String(n)] for a Number

    The shortest digits that read back as the Number [n] (an integer, at least
    0): [s] of [k] digits with [s * 10^(e + 1 - k)] rounding to [n], where [e]
    is the exponent of the first digit; 17 digits always suffice. *)
Fixpoint shortest_digits (fuel : nat) (n e k : Z) : Z * Z :=
  let p := 10 ^ (e + 1 - k) in
  let s := (n + p / 2) / p in
  match fuel with
  | O => (s, k)
  | S fuel => if bool_decide (to_double (s * p) = Some n) then (s, k) else shortest_digits fuel n e (k + 1)
  end.

(** The shortest digits, how many they are, and the exponent of the first. *)
Definition number_digits (n : Z) : Z * Z * Z :=
  let e := Z.of_nat (String.length (toString n)) - 1 in
  let '(s, k) := shortest_digits 16 n e 1 in
  if s =? 10 ^ k then (1, 1, e + 1) else (s, k, e).

(** Below 10^21 the digits are filled up with zeros, from there on the text
    has an exponent. *)
Definition Number_toString (n : Z) : string :=
  if n <? 2 ^ 53 then toString n
  else
    let '(s, k, e) := number_digits n in
    if e <? 21 then toString (s * 10 ^ (e + 1 - k))
    else match toString s with
         | String c "" => String c ("e+" +:+ toString e)
         | String c r => String c ("." +:+ r +:+ "e+" +:+ toString e)
         | "" => ""
         end%string.

(** The number that the text of [n] denotes, which is what a decimal column
    gets. *)
Definition Number_decimal (n : Z) : Z :=
  if n <? 2 ^ 53 then n
  else let '(s, k, e) := number_digits n in s * 10 ^ (e + 1 - k).

Lemma Number_decimal_exact n : n <= 2 ^ 53 → Number_decimal n = n.
Proof.
  intros Hn. unfold Number_decimal. destruct (Z.ltb_spec n (2 ^ 53)); [done|].
  assert (n = 2 ^ 53) as -> by lia. vm_compute. reflexivity.
Qed.

Example Number_toString_ex :
  Number_toString <$> [4860001; 12345678901234567168; 1234567890123456774144; 999999999999999983222784]
  = ["4860001"; "12345678901234567000"; "1.2345678901234568e+21"; "1e+24"].
Proof. vm_compute. reflexivity. Qed.

(** [Number.parseInt(s, 10)] for a number field of a schema, which rejects
    [NaN] and [Infinity]. *)
Definition parse_number (s : string) : res Z :=
  match n ← parseInt s; to_double n with
  | Some z => Ok z
  | None => Throw "ValidationError: must be number"
  end.

(** [Number.parseInt(s, 10)] for a text field of a schema, which is coerced
    to a text. *)
Definition parse_number_text (s : string) : string :=
  match parseInt s with
  | None => "NaN"
  | Some n => match to_double n with Some z => Number_toString z | None => "Infinity" end
  end.
