(* ===== verification/Numbers.v ===== *)
(** * Numbers

    The Numbers of JavaScript where the code computes with them beyond the
    integers: binary64 as multiples of its smallest step, the reading of a text
    with [Number], and when all of it is exact. *)
From S2P Require Import Prelude JsNum.

(** ** Arithmetic *)

(** A Number: a finite one is a multiple of 2^-1074. *)
Inductive Num := NaN | Infinite (negative : bool) | Finite (z : Z).
Definition unit_exp : Z := 1074.
Definition of_Z (n : Z) : Num := Finite (n * 2 ^ unit_exp).

(** [a] / [d], rounded to the nearest integer, ties to the even one. *)
Definition round_div (a d : Z) : Z :=
  let q := a / d in
  let r := a mod d in
  if 2 * r <? d then q else if d <? 2 * r then q + 1 else if Z.even q then q else q + 1.
(** The Number nearest to [a] / [b] units, for [0 <= a] and [0 < b]. *)
Definition round_ratio (a b : Z) : Num :=
  let e := Z.max 0 (Z.log2 (a / b) - 52) in
  let m := round_div a (b * 2 ^ e) * 2 ^ e in
  if m <? 2 ^ (1024 + unit_exp) then Finite m else Infinite false.
Definition neg (x : Num) : Num :=
  match x with NaN => NaN | Infinite b => Infinite (negb b) | Finite z => Finite (- z) end.
Definition sub (x y : Num) : Num :=
  match x, y with
  | Finite a, Finite b => if a <? b then neg (round_ratio (b - a) 1) else round_ratio (a - b) 1
  | NaN, _ | _, NaN => NaN
  | Infinite a, Infinite b => if Bool.eqb a b then NaN else Infinite a
  | Infinite a, Finite _ => Infinite a
  | Finite _, Infinite b => Infinite (negb b)
  end.
Definition Math_abs (x : Num) : Num :=
  match x with NaN => NaN | Infinite _ => Infinite false | Finite z => Finite (Z.abs z) end.
Definition gt (x y : Num) : bool :=
  match x, y with
  | NaN, _ | _, NaN => false
  | Finite a, Finite b => b <? a
  | Infinite a, Infinite b => negb a && b
  | Infinite a, Finite _ => negb a
  | Finite _, Infinite b => b
  end.
Definition Math_max (x y : Num) : Num :=
  match x, y with NaN, _ | _, NaN => NaN | _, _ => if gt y x then y else x end.

(** [n] * 10^[x] *)
Definition decimal (n x : Z) : Num :=
  if 0 <=? x then round_ratio (n * 10 ^ x * 2 ^ unit_exp) 1 else round_ratio (n * 2 ^ unit_exp) (10 ^ (- x)).
Fixpoint split_at (p : ascii → bool) (s : string) : string * option string :=
  match s with
  | EmptyString => (EmptyString, None)
  | String c s' => if p c then (EmptyString, Some s') else let x := split_at p s' in (String c x.1, x.2)
  end.
Definition is_char (c d : ascii) : bool := bool_decide (c = d).
Definition read_exponent (s : string) : option Z :=
  match s with
  | String "-" s => Z.opp <$> read_nonempty 10 s
  | String "+" s => read_nonempty 10 s
  | _ => read_nonempty 10 s
  end%char.
Definition read_unsigned (s : string) : option Num :=
  if bool_decide (s = "Infinity") then Some (Infinite false) else
  let m := split_at (λ c, is_char "e" c || is_char "E" c) s in
  let d := split_at (is_char ".") m.1 in
  let frac := default "" d.2 in
  n ← read_nonempty 10 (d.1 +:+ frac);
  x ← match m.2 with Some e => read_exponent e | None => Some 0 end;
  Some (decimal n (x - Z.of_nat (String.length frac))).
(** [Number(s)] for a text. *)
Definition Number_text (s : string) : Num :=
  let t := trim_end (trim_start s) in
  default NaN (match t with
    | EmptyString => Some (Finite 0)
    | String "-" t => neg <$> read_unsigned t
    | String "+" t => read_unsigned t
    | String "0" (String "x" t) | String "0" (String "X" t) => (λ n, decimal n 0) <$> read_nonempty 16 t
    | String "0" (String "o" t) | String "0" (String "O" t) => (λ n, decimal n 0) <$> read_nonempty 8 t
    | String "0" (String "b" t) | String "0" (String "B" t) => (λ n, decimal n 0) <$> read_nonempty 2 t
    | _ => read_unsigned t
    end%char).

(** ** Numbers that are integers *)
Lemma round_div_exact k d : 0 < d → round_div (k * d) d = k.
Proof.
  intros Hd. unfold round_div. rewrite Z.div_mul, Z.mod_mul by lia.
  by rewrite (proj2 (Z.ltb_lt (2 * 0) d)) by lia.
Qed.

Lemma round_integer n : 0 <= n <= 2 ^ 53 → round_ratio (n * 2 ^ unit_exp) 1 = of_Z n.
Proof.
  intros Hn. unfold round_ratio, of_Z. rewrite Z.div_1_r, Z.mul_1_l.
  set (e := Z.max 0 (Z.log2 (n * 2 ^ unit_exp) - 52)).
  assert (0 <= e) as He by (unfold e; lia).
  assert (∃ k, n * 2 ^ unit_exp = k * 2 ^ e) as [k Hk].
  { destruct (decide (n = 0)) as [->|Hn0]; [by exists 0|].
    assert (e = Z.log2 n + (unit_exp - 52)) as He'.
    { unfold e. rewrite Z.log2_mul_pow2 by (unfold unit_exp; lia). pose proof (Z.log2_nonneg n). unfold unit_exp. lia. }
    destruct (decide (n = 2 ^ 53)) as [->|Hne].
    - exists (2 ^ 52). rewrite He'. reflexivity.
    - assert (Z.log2 n <= 52) as Hl.
      { assert (Z.log2 n < 53) by (apply Z.log2_lt_pow2; lia). lia. }
      exists (n * 2 ^ (unit_exp - e)). rewrite <-Z.mul_assoc, <-Z.pow_add_r by (unfold unit_exp in *; lia).
      do 2 f_equal. lia. }
  rewrite Hk, round_div_exact by (apply Z.pow_pos_nonneg; lia). rewrite <-Hk.
  rewrite (proj2 (Z.ltb_lt (n * 2 ^ unit_exp) _)); [done|].
  apply Z.le_lt_trans with (2 ^ 53 * 2 ^ unit_exp); [apply Z.mul_le_mono_nonneg_r; [by apply Z.pow_nonneg|lia]|].
  rewrite <-Z.pow_add_r by (unfold unit_exp; lia). apply Z.pow_lt_mono_r; unfold unit_exp; lia.
Qed.

Lemma split_at_none p s : (∀ c, c ∈ String.list_ascii_of_string s → p c = false) → split_at p s = (s, None).
Proof.
  induction s as [|c s IH]; intros H; [done|]. cbn [split_at]. rewrite H by (simpl; by left). rewrite IH; [done|].
  intros d Hd. apply H. simpl. by right.
Qed.

Lemma all_digits_chars s c : all_digits s = true → c ∈ String.list_ascii_of_string s → is_digit c = true.
Proof.
  induction s as [|d s IH]; simpl; [by intros _ ?%not_elem_of_nil|]. rewrite andb_true_iff. intros [Hd Hs] [->|Hc]%elem_of_cons; auto.
Qed.

Lemma read_unsigned_digits s n :
  all_digits s = true → s ≠ "" → read_digits 10 0 s = Some n → read_unsigned s = Some (decimal n 0).
Proof.
  intros Hs Hne Hn. unfold read_unsigned.
  assert (∀ p, (∀ d, 0 <= d < 10 → p (digit_char d) = false) → split_at p s = (s, None)) as Hsplit.
  { intros p Hp. apply split_at_none. intros c Hc. destruct (is_digit_inv c (all_digits_chars s c Hs Hc)) as (d & Hd & ->). auto. }
  rewrite bool_decide_eq_false_2 by (intros ->; done).
  rewrite Hsplit by (intros d Hd; digit_cases d; reflexivity). cbn [fst snd].
  rewrite Hsplit by (intros d Hd; digit_cases d; reflexivity). cbn [fst snd default].
  rewrite string_app_nil. destruct s as [|c s]; [done|]. cbn [read_nonempty]. rewrite Hn. done.
Qed.

Lemma Number_digits s n :
  all_digits s = true → s ≠ "" → read_digits 10 0 s = Some n → Number_text s = decimal n 0.
Proof.
  intros Hs Hne Hn. unfold Number_text. rewrite trim_start_digits, trim_end_digits by done.
  pose proof (read_unsigned_digits s n Hs Hne Hn) as Hu.
  destruct s as [|c s]; [done|]. pose proof Hs as Hs'. cbn [all_digits] in Hs'. apply andb_prop in Hs' as [Hc Hs'].
  destruct (is_digit_inv c Hc) as (d & Hd & ->).
  change (decimal n 0) with (default NaN (Some (decimal n 0))). rewrite <-Hu. clear Hu Hn Hs Hc Hne.
  destruct s as [|c2 s]; [digit_cases d; reflexivity|]. cbn [all_digits] in Hs'. apply andb_prop in Hs' as [Hc2 _].
  destruct (is_digit_inv c2 Hc2) as (d2 & Hd2 & ->).
  digit_cases d; try reflexivity. digit_cases d2; reflexivity.
Qed.

Lemma Number_toString n : 0 <= n <= 2 ^ 53 → Number_text (toString n) = of_Z n.
Proof.
  intros Hn. unfold toString. rewrite (proj2 (Z.ltb_ge n 0)) by lia. unfold print_nat.
  rewrite (Number_digits _ n).
  - unfold decimal. cbn [Z.leb]. rewrite Z.mul_1_r. by apply round_integer.
  - by apply print_digits_all; [lia|].
  - apply print_digits_nonempty.
  - rewrite read_print_digits; [done|]. split; [lia|]. apply print_fuel_enough. lia.
Qed.

Lemma range_of_integers a b limit :
  0 <= a <= 2 ^ 53 → 0 <= b <= 2 ^ 53 → 0 <= limit →
  gt (Math_max (Math_abs (sub (of_Z b) (of_Z a))) (Finite 0)) (of_Z limit) = (limit <? Z.abs (b - a)).
Proof.
  intros Ha Hb Hl. assert (0 < 2 ^ unit_exp) as Hu by by vm_compute.
  assert (sub (of_Z b) (of_Z a) = of_Z (b - a)) as ->.
  { unfold sub, of_Z. destruct (Z.ltb_spec (b * 2 ^ unit_exp) (a * 2 ^ unit_exp)) as [Hlt|Hge].
    - rewrite <-Z.mul_sub_distr_r, round_integer by nia. unfold of_Z, neg. f_equal. ring.
    - rewrite <-Z.mul_sub_distr_r, round_integer by nia. done. }
  unfold of_Z. cbn [Math_abs Math_max gt]. rewrite Z.abs_mul, (Z.abs_eq (2 ^ unit_exp)) by lia.
  destruct (Z.ltb_spec (Z.abs (b - a) * 2 ^ unit_exp) 0) as [H|H]; [nia|]. cbn [gt].
  apply Bool.eq_iff_eq_true. rewrite !Z.ltb_lt. nia.
Qed.
