(* ===== verification/Json.v ===== *)
(** * JSON values

    What [JSON.parse] answers, and what the code does with such a value:
    members, truthiness, conversion to text.  [None] stands for [undefined];
    the numbers that occur are integers. *)
From S2P Require Import Prelude JsNum.

#[warnings="-register-all"]
Inductive Json :=
| JNull
| JBool (b : bool)
| JStr (s : string)
| JNum (z : Z)
| JArr (l : list Json)
| JObj (l : list (string * Json)).

(** [!!v] *)
Definition json_truthy (v : Json) : bool :=
  match v with
  | JNull => false
  | JBool b => b
  | JStr s => negb (bool_decide (s = ""))
  | JNum z => negb (z =? 0)
  | JArr _ | JObj _ => true
  end.
Definition is_truthy (o : option Json) : bool := from_option json_truthy false o.
(** [v?.k], for a key that is not a property of texts and arrays. *)
Definition opt_get (o : option Json) (k : string) : option Json :=
  match o with Some (JObj l) => snd <$> find (λ x, bool_decide (x.1 = k)) l | _ => None end.
(** [v.k] *)
Definition json_get (o : option Json) (k : string) : res (option Json) :=
  match o with
  | None | Some JNull => Throw "TypeError: Cannot read properties of undefined"
  | _ => Ok (opt_get o k)
  end.
(** [String(v)]: an array is the list of its elements. *)
Fixpoint json_string (v : Json) : string :=
  match v with
  | JNull => "null"
  | JBool b => if b then "true" else "false"
  | JStr s => s
  | JNum z => toString z
  | JArr l => String.concat "," (map (λ x, match x with JNull => "" | _ => json_string x end) l)
  | JObj _ => "[object Object]"
  end.
(** [Object.keys(v)] with their values, of a value that is not [null]; the
    indices of a text count its bytes, which are its units if it is ASCII. *)
Definition json_entries (v : Json) : list (string * option Json) :=
  match v with
  | JObj l => (λ x, (x.1, Some x.2)) <$> l
  | JArr l => imap (λ i x, (toString (Z.of_nat i), Some x)) l
  | JStr s => imap (λ i c, (toString (Z.of_nat i), Some (JStr (String c "")))) (String.list_ascii_of_string s)
  | _ => []
  end.

Lemma json_get_Ok o k v : json_get o k = Ok v → v = opt_get o k.
Proof. destruct o as [[]|]; by intros [= <-]. Qed.

Section JsonInd.
Context (P : Json → Prop).
Context (Hnull : P JNull) (Hbool : ∀ b, P (JBool b)) (Hstr : ∀ s, P (JStr s)) (Hnum : ∀ z, P (JNum z)).
Context (Harr : ∀ l, Forall P l → P (JArr l)) (Hobj : ∀ l, Forall (λ x, P x.2) l → P (JObj l)).
(** Induction with the hypothesis for the values inside. *)
Fixpoint Json_nested_ind (v : Json) : P v :=
  match v with
  | JNull => Hnull
  | JBool b => Hbool b
  | JStr s => Hstr s
  | JNum z => Hnum z
  | JArr l => Harr l ((fix go l : Forall P l :=
      match l with [] => Forall_nil_2 _ | x :: l => Forall_cons_2 _ _ _ (Json_nested_ind x) (go l) end) l)
  | JObj l => Hobj l ((fix go l : Forall (λ x, P x.2) l :=
      match l with [] => Forall_nil_2 _ | x :: l => Forall_cons_2 _ _ _ (Json_nested_ind x.2) (go l) end) l)
  end.
End JsonInd.
