(* ===== verification/IdPages.v ===== *)
(** * Pages by id

    [while (!done)] loops that read the rows of a table whose id is above the
    last one they saw, a page at a time, until a page is empty. *)
From S2P Require Import Prelude.

Section Pages.
Context {A : Type} (id : A → Z) (limit : nat) (table : list A).

Definition id_page (currentId : Z) : list A := take limit (sortBy id (filter (λ x, currentId < id x) table)).
(** The rows of all pages; the fuel bounds their number. *)
Fixpoint id_pages (fuel : nat) (currentId : Z) : res (list A) :=
  match fuel with
  | O => Throw "out of fuel"
  | S fuel =>
      let page := id_page currentId in
      match last page with
      | None => Ok []
      | Some x => rest ← id_pages fuel (id x); Ok (page ++ rest)
      end
  end.

Lemma sortBy_strict (l : list A) : NoDup (id <$> l) → StronglySorted (λ x y, id x < id y) (sortBy id l).
Proof.
  intros Hnd. assert (NoDup (id <$> sortBy id l)) as Hnd' by (by rewrite sortBy_perm).
  pose proof (sortBy_sorted id l) as Hs%Sorted_StronglySorted; [|intros ? ? ?; lia].
  induction Hs as [|x m Hs IH Hall]; [constructor|]. rewrite fmap_cons in Hnd'. apply NoDup_cons in Hnd' as [Hx Hnd'].
  constructor; [by apply IH|]. rewrite Forall_forall in *. intros y Hy. specialize (Hall y Hy).
  assert (id x ≠ id y); [|lia]. intros Heq. apply Hx. rewrite Heq. by apply list_elem_of_fmap_2.
Qed.

Lemma strict_filter_drop (l : list A) n x :
  StronglySorted (λ x y, id x < id y) l → last (take n l) = Some x → filter (λ y, id x < id y) l = drop n l.
Proof.
  intros Hs Hlast. rewrite <-(take_drop n l) in Hs |- * at 1.
  apply last_Some in Hlast as [l' Hl']. rewrite Hl' in Hs |- *.
  apply StronglySorted_app in Hs as (Hcross & Hs1 & Hs2). rewrite filter_app, filter_none, filter_all; [done| |].
  - intros y Hy. apply Hcross; [|done]. apply elem_of_app. right. by apply list_elem_of_singleton.
  - intros y [Hy| ->%list_elem_of_singleton]%elem_of_app; [|lia].
    apply StronglySorted_app in Hs1 as (Hc & _). specialize (Hc y x Hy ltac:(by left)). lia.
Qed.

Lemma next_id_page currentId x : NoDup (id <$> table) → last (id_page currentId) = Some x →
  sortBy id (filter (λ y, id x < id y) table) = drop limit (sortBy id (filter (λ y, currentId < id y) table)).
Proof.
  intros Hnd Hlast. unfold id_page in Hlast.
  assert (x ∈ filter (λ y, currentId < id y) table) as [Hx _]%list_elem_of_filter.
  { rewrite <-(sortBy_perm id). apply last_Some in Hlast as [l' Hl']. eapply sublist_subseteq; [apply sublist_take|].
    rewrite Hl'. apply elem_of_app. right. by apply list_elem_of_singleton. }
  rewrite <-(strict_filter_drop _ _ _ (sortBy_strict _ (sublist_NoDup _ _ Hnd (fmap_sublist id _ _ (sublist_filter _ _)))) Hlast).
  rewrite <-!sortBy_filter, list_filter_filter. apply list_filter_iff. intros y. lia.
Qed.

(** With a page size and enough fuel every row above the first id comes once,
    in the order of the ids. *)
Lemma id_pages_all fuel currentId :
  (0 < limit)%nat → NoDup (id <$> table) → (length (filter (λ x, (currentId < id x)%Z) table) < fuel)%nat →
  id_pages fuel currentId = Ok (sortBy id (filter (λ x, currentId < id x) table)).
Proof.
  intros Hlimit Hnd. revert currentId. induction fuel as [|fuel IH]; intros cur Hf; [lia|]. cbn [id_pages].
  destruct (last (id_page cur)) as [x|] eqn:Hlast.
  - rewrite IH.
    + cbn [mbind res_bind]. rewrite (next_id_page _ _ Hnd Hlast). unfold id_page. by rewrite take_drop.
    + rewrite <-(Permutation_length (sortBy_perm id (filter (λ y, id x < id y) table))), (next_id_page _ _ Hnd Hlast), length_drop.
      rewrite (Permutation_length (sortBy_perm id _)).
      assert (filter (λ x, cur < id x) table ≠ []); [|destruct (filter (λ x, cur < id x) table); [done|simpl in *; lia]].
      intros He. unfold id_page in Hlast. rewrite He in Hlast. simpl in Hlast. by rewrite take_nil in Hlast.
  - apply last_None in Hlast. unfold id_page in Hlast. destruct (sortBy id _) as [|y l] eqn:Hs; [done|].
    destruct limit; [lia|done].
Qed.
End Pages.
