(* ===== verification/Checkpoint.v ===== *)
(** * Block checkpoints

    [models/block_checkpoint.ts]: the table [block_checkpoint] keeps, for
    every job, the height up to which the job has processed blocks
    ([job_name] is unique, [height] is not null).  [getCheckpoint] computes
    the half-open range of blocks (start, end] a run of a job processes; the
    handlers store [end] as the new height of the job in the transaction that
    writes their rows.

    The file also lists the jobs that call [getCheckpoint], with the
    arguments of the call and the guard that follows it, and states the
    interface [CheckpointJob] that the handlers of the other files implement. *)
From S2P Require Import Prelude.

(** ** Configuration

    [config[name].blocksPerCall] for the sections of [config.json]; [None]
    is a section that does not exist. *)
Module Config.
Record t := { startBlock : Z; blocksPerCall : string → option Z }.

(** The values of [config.json] for the sections the jobs name. *)
Definition json : t := {|
  startBlock := 4860000;
  blocksPerCall := λ name,
    (list_to_map [
      ("crawlTransaction", 100); ("handleCoinTransfer", 100);
      ("handleTransaction", 100); ("handleAddress", 100);
      ("crawlProposal", 100); ("handleStakeEvent", 100);
      ("crawlCodeId", 100); ("handleAuthzTx", 100);
      ("crawlSmartContract", 100); ("handleVoteTx", 100); ("cw20", 100);
      ("cw721", 100); ("crawlContractEvent", 100); ("feegrant", 1000);
      ("jobCrawlEvmEvent", 50); ("crawlIbcTao", 100); ("crawlIbcApp", 100);
      ("crawlIbcIcs20", 100); ("jobUpdateTxCountInBlock", 100);
      ("handleTransactionEVM", 10000); ("evmCrawlInternalTx", 100);
      ("crawlSmartContractEVM", 10000); ("erc20", 100); ("erc721", 100);
      ("crawlEvmProxyHistory", 100)
    ] : gmap string Z) !! name |}.
End Config.

(** ** The model and [getCheckpoint] *)
Record BlockCheckpoint := { job_name : string; height : Z }.

(** [.whereIn('job_name', names).orderBy('height', 'ASC').first()] *)
Fixpoint lastHeightCheckpoint (tbl : gmap string Z) (names : list string) : option Z :=
  match names with
  | [] => None
  | n :: names =>
      match tbl !! n, lastHeightCheckpoint tbl names with
      | Some h, Some m => Some (Z.min h m)
      | Some h, None => Some h
      | None, o => o
      end
  end.

Definition getCheckpoint (cfg : Config.t) (tbl : gmap string Z)
    (jobName : string) (lastHeightJobNames : list string) (configName : option string)
  : res (Z * Z * BlockCheckpoint) :=
  let '(startHeight, updateBlockCheckpoint) :=
    match tbl !! jobName with
    | Some h => (h, {| job_name := jobName; height := h |})
    | None => (Config.startBlock cfg,
               {| job_name := jobName; height := Config.startBlock cfg |})
    end in
  endHeight ←
    match lastHeightCheckpoint tbl lastHeightJobNames with
    | None => Ok 0
    | Some last =>
        if truthy_str configName then
          match Config.blocksPerCall cfg (default "" configName) with
          | Some n => Ok (Z.min (startHeight + n) last)
          | None => Throw "TypeError: Cannot read properties of undefined (reading 'blocksPerCall')"
          end
        else Ok last
    end;
  Ok (startHeight, endHeight, updateBlockCheckpoint).

(** [checkpoint.height = endHeight] then
    [.insert(checkpoint).onConflict('job_name').merge()]. *)
Definition saveCheckpoint (bc : BlockCheckpoint) (endHeight : Z) (tbl : gmap string Z)
  : gmap string Z := <[job_name bc := endHeight]> tbl.

(** ** Facts about [getCheckpoint] *)
Lemma lastHeightCheckpoint_None tbl names :
  lastHeightCheckpoint tbl names = None ↔ Forall (λ n, tbl !! n = None) names.
Proof.
  induction names as [|n names IH]; simpl; [by split|].
  rewrite Forall_cons, <-IH.
  by destruct (tbl !! n), (lastHeightCheckpoint tbl names); split; try intros [? ?].
Qed.

(** The height found is that of a dependency, and no dependency that has a
    checkpoint is below it. *)
Lemma lastHeightCheckpoint_Some tbl names m :
  lastHeightCheckpoint tbl names = Some m →
  (∃ n, n ∈ names ∧ tbl !! n = Some m) ∧
  ∀ n h, n ∈ names → tbl !! n = Some h → m <= h.
Proof.
  revert m. induction names as [|n names IH]; intros m; simpl; [done|].
  destruct (tbl !! n) as [h|] eqn:Hn.
  - destruct (lastHeightCheckpoint tbl names) as [m'|] eqn:Hl; intros [= <-].
    + destruct (IH m' eq_refl) as [(n' & Hin & Hm') Hmin]. split.
      * destruct (Z.min_spec h m') as [[_ ->]|[_ ->]]; [exists n|exists n'];
          rewrite elem_of_cons; auto.
      * intros n2 h2 [->|Hn2]%elem_of_cons Hh2; [simplify_eq; lia|].
        specialize (Hmin _ _ Hn2 Hh2). lia.
    + split; [exists n; rewrite elem_of_cons; auto|].
      apply lastHeightCheckpoint_None in Hl. rewrite Forall_forall in Hl.
      intros n2 h2 [->|Hn2]%elem_of_cons Hh2; [simplify_eq; lia|].
      by rewrite Hl in Hh2.
  - intros Hl. destruct (IH m Hl) as [(n' & Hin & Hm') Hmin]. split.
    + exists n'. rewrite elem_of_cons. auto.
    + intros n2 h2 [->|Hn2]%elem_of_cons Hh2; [by rewrite Hn in Hh2|eauto].
Qed.

(** What a range returned by [getCheckpoint] satisfies. *)
Lemma getCheckpoint_Ok cfg tbl j deps key s e u :
  getCheckpoint cfg tbl j deps key = Ok (s, e, u) →
  s = default (Config.startBlock cfg) (tbl !! j) ∧
  u = {| job_name := j; height := s |} ∧
  (lastHeightCheckpoint tbl deps = None ∧ e = 0 ∨
   ∃ m, lastHeightCheckpoint tbl deps = Some m ∧ e <= m).
Proof.
  unfold getCheckpoint.
  destruct (lastHeightCheckpoint tbl deps) as [m|] eqn:Hl;
    [destruct (truthy_str key) eqn:Hk;
     [destruct (Config.blocksPerCall cfg (default "" key)) as [n|]|]|];
    destruct (tbl !! j) as [h|]; simpl; intros [= <- <- <-];
    (split; [done|split; [done|]]);
    try (left; done); right; exists m; split; try done; lia.
Qed.

Lemma saveCheckpoint_lookup u e tbl : saveCheckpoint u e tbl !! job_name u = Some e.
Proof. apply lookup_insert_eq. Qed.

(** ** Jobs *)

(** The test a handler makes after [getCheckpoint]. *)
Inductive guard :=
| StopIfGe    (** [if (start >= end) return;] *)
| StopIfGt    (** [if (start > end) return;] *)
| NoGuard.

Definition stops (g : guard) (s e : Z) : bool :=
  match g with
  | StopIfGe => e <=? s
  | StopIfGt => e <? s
  | NoGuard => false
  end.

Record JobDesc := Job {
  jd_name : string;
  jd_deps : list string;
  jd_config : option string;
  jd_guard : guard
}.

#[export] Instance guard_eq_dec : EqDecision guard.
Proof. solve_decision. Defined.
#[export] Instance JobDesc_eq_dec : EqDecision JobDesc.
Proof. solve_decision. Defined.

Definition CRAWL_BLOCK := "crawl:block".

(** The calls of [getCheckpoint] in the services. *)
Definition CRAWL_TRANSACTION := Job "crawl:transaction" ["crawl:block"] (Some "crawlTransaction") StopIfGe.
Definition HANDLE_TRANSACTION := Job "handle:transaction" ["crawl:transaction"] (Some "handleTransaction") StopIfGe.
Definition HANDLE_COIN_TRANSFER := Job "handle:coin_transfer" ["handle:transaction"] (Some "handleCoinTransfer") StopIfGe.
Definition HANDLE_AUTHZ_TX := Job "handle:authz-tx" ["handle:transaction"] (Some "handleAuthzTx") StopIfGt.
Definition HANDLE_VOTE_TX := Job "handle:vote-tx" ["handle:authz-tx"] (Some "handleVoteTx") StopIfGt.
Definition HANDLE_ADDRESS := Job "handle:address" ["handle:transaction"] (Some "handleAddress") StopIfGe.
Definition HANDLE_FEEGRANT := Job "handle:feegrant" ["handle:transaction"] (Some "feegrant") StopIfGe.
Definition CRAWL_PROPOSAL := Job "crawl:proposal" ["handle:transaction"] (Some "crawlProposal") StopIfGe.
Definition CRAWL_VALIDATOR := Job "crawl:validator" ["handle:transaction"] None StopIfGe.
Definition HANDLE_STAKE_EVENT :=
  Job "handle:stake-event" ["handle:transaction"; "crawl:validator"] (Some "handleStakeEvent") StopIfGe.
Definition CRAWL_CODE := Job "crawl:code" ["handle:transaction"] (Some "crawlCodeId") StopIfGe.
Definition CRAWL_SMART_CONTRACT := Job "crawl:smart-contract" ["crawl:code"] (Some "crawlSmartContract") StopIfGe.
Definition HANDLE_MIGRATE_CONTRACT := Job "handle:migrate-contract" ["crawl:code"] (Some "crawlSmartContract") StopIfGe.
Definition CRAWL_CONTRACT_EVENT := Job "crawl:contract-event" ["crawl:smart-contract"] (Some "crawlContractEvent") StopIfGe.
Definition HANDLE_CW20 := Job "handle:cw20" ["crawl:contract-event"] (Some "cw20") StopIfGe.
Definition HANDLE_CW721_TRANSACTION := Job "handle:cw721-tx" ["crawl:contract-event"] (Some "cw721") StopIfGe.
Definition CRAWL_IBC_TAO := Job "crawl:ibc-tao" ["handle:transaction"] (Some "crawlIbcTao") StopIfGt.
Definition CRAWL_IBC_APP := Job "crawl:ibc-app" ["crawl:ibc-tao"] (Some "crawlIbcTao") StopIfGt.
Definition CRAWL_IBC_ICS20 := Job "crawl:ibc-ics20" ["crawl:ibc-app"] (Some "crawlIbcIcs20") StopIfGt.
Definition JOB_UPDATE_TX_COUNT_IN_BLOCK :=
  Job "job:update-tx-count-in-block" ["crawl:block"] (Some "jobUpdateTxCountInBlock") StopIfGt.
Definition HANDLE_TRANSACTION_EVM := Job "handle:transaction-evm" ["handle:transaction"] (Some "handleTransactionEVM") StopIfGe.
Definition JOB_CRAWL_EVM_EVENT := Job "job:crawl-evm-event" ["handle:transaction-evm"] (Some "jobCrawlEvmEvent") NoGuard.
Definition EVM_CRAWL_INTERNAL_TX := Job "crawl:crawl-internal-tx" ["handle:transaction-evm"] (Some "evmCrawlInternalTx") StopIfGe.
Definition CRAWL_SMART_CONTRACT_EVM :=
  Job "crawl:smart-contract-evm" ["job:crawl-evm-event"; "crawl:crawl-internal-tx"] (Some "crawlSmartContractEVM") StopIfGe.
Definition HANDLE_EVM_PROXY_HISTORY :=
  Job "handle:evm-proxy-history" ["crawl:smart-contract-evm"] (Some "crawlEvmProxyHistory") NoGuard.
Definition HANDLE_ERC20_CONTRACT := Job "handle:erc20-contract" ["crawl:smart-contract-evm"] (Some "erc20") NoGuard.
Definition HANDLE_ERC20_ACTIVITY :=
  Job "handle:erc20-activity" ["handle:erc20-contract"; "handle:evm-proxy-history"] (Some "erc20") NoGuard.
Definition HANDLE_ERC20_BALANCE := Job "handle:erc20-balance" ["handle:erc20-activity"] (Some "erc20") NoGuard.
Definition HANDLE_ERC721_CONTRACT := Job "handle:erc721-contract" ["crawl:smart-contract-evm"] (Some "erc721") NoGuard.
Definition HANDLE_ERC721_ACTIVITY :=
  Job "handle:erc721-activity" ["handle:erc721-contract"; "handle:evm-proxy-history"] (Some "erc721") NoGuard.

Definition jobs : list JobDesc := [
  CRAWL_TRANSACTION; HANDLE_TRANSACTION; HANDLE_COIN_TRANSFER; HANDLE_AUTHZ_TX;
  HANDLE_VOTE_TX; HANDLE_ADDRESS; HANDLE_FEEGRANT; CRAWL_PROPOSAL;
  CRAWL_VALIDATOR; HANDLE_STAKE_EVENT; CRAWL_CODE; CRAWL_SMART_CONTRACT;
  HANDLE_MIGRATE_CONTRACT; CRAWL_CONTRACT_EVENT; HANDLE_CW20;
  HANDLE_CW721_TRANSACTION; CRAWL_IBC_TAO; CRAWL_IBC_APP; CRAWL_IBC_ICS20;
  JOB_UPDATE_TX_COUNT_IN_BLOCK; HANDLE_TRANSACTION_EVM; JOB_CRAWL_EVM_EVENT;
  EVM_CRAWL_INTERNAL_TX; CRAWL_SMART_CONTRACT_EVM; HANDLE_EVM_PROXY_HISTORY;
  HANDLE_ERC20_CONTRACT; HANDLE_ERC20_ACTIVITY; HANDLE_ERC20_BALANCE;
  HANDLE_ERC721_CONTRACT; HANDLE_ERC721_ACTIVITY ].

Definition jobCheckpoint (cfg : Config.t) (j : JobDesc) (tbl : gmap string Z)
  : res (Z * Z * BlockCheckpoint) :=
  getCheckpoint cfg tbl (jd_name j) (jd_deps j) (jd_config j).

(** ** The interface of a checkpoint job

    What one run of job [j] does to the checkpoint table: nothing (the guard
    returned, or the transaction was rolled back), or the processing of the
    range (s, e]. *)
Inductive job_run (cfg : Config.t) (j : JobDesc) (tbl : gmap string Z)
  : option (Z * Z) → gmap string Z → Prop :=
| run_idle : job_run cfg j tbl None tbl
| run_range s e u :
    jobCheckpoint cfg j tbl = Ok (s, e, u) →
    stops (jd_guard j) s e = false →
    job_run cfg j tbl (Some (s, e)) (saveCheckpoint u e tbl).

(** A state that holds the checkpoint table. *)
Class HasCheckpoints (D : Type) := checkpoints_of : D → gmap string Z.

(** The call of [BlockCheckpoint.getCheckpoint] a handler starts with. *)
Definition readCheckpoint {D} `{HasCheckpoints D} (cfg : Config.t) (j : JobDesc)
  : io D (Z * Z * BlockCheckpoint) := λ d, (d, jobCheckpoint cfg j (checkpoints_of d)).

(** A handler is a checkpoint job when every run of it, also one that throws,
    is a [job_run]. *)
Class CheckpointJob {D} `{HasCheckpoints D} (cfg : Config.t) (j : JobDesc)
    (handler : io D ()) : Prop :=
  checkpoint_job d : ∃ r, job_run cfg j (checkpoints_of d) r (checkpoints_of (handler d).1).

(** A part of a handler that leaves the checkpoints alone. *)
Definition frames {D A} `{HasCheckpoints D} (m : io D A) : Prop :=
  ∀ d, checkpoints_of (m d).1 = checkpoints_of d.

Section Frames.
Context {D : Type} `{HasCheckpoints D}.

Lemma frames_bind {A B} (m : io D A) (k : A → io D B) :
  frames m → (∀ a, frames (k a)) → frames (m ≫= k).
Proof.
  intros Hm Hk d. unfold mbind, io_bind. specialize (Hm d).
  destruct (m d) as [d1 [a|e]]; simpl in *; [by rewrite Hk|done].
Qed.

Lemma frames_lift {A} (m : res A) : frames (lift m).
Proof. done. Qed.

Lemma frames_query {A} (f : D → A) : frames (query f).
Proof. done. Qed.

Lemma frames_ret {A} (a : A) : frames (mret a : io D A).
Proof. done. Qed.

Lemma frames_commit (body : D → res D) :
  (∀ d d', body d = Ok d' → checkpoints_of d' = checkpoints_of d) → frames (commit body).
Proof. intros H' d. unfold commit. destruct (body d) eqn:Hb; [by eapply H'|done]. Qed.

Lemma frames_logged (body : D → res D) :
  (∀ d d', body d = Ok d' → checkpoints_of d' = checkpoints_of d) → frames (logged body).
Proof. intros H' d. unfold logged. destruct (body d) eqn:Hb; [by eapply H'|done]. Qed.

Lemma frames_each {A} (f : A → io D ()) l : (∀ x, frames (f x)) → frames (each f l).
Proof.
  intros Hf. induction l as [|x l IH]; intros d; simpl; [done|].
  specialize (Hf x d). destruct (f x d) as [d' [[]|e]]; simpl in *; [by rewrite IH|done].
Qed.
End Frames.
Create HintDb frames.
#[export] Hint Resolve frames_bind frames_lift frames_query frames_ret frames_commit
  frames_logged frames_each : frames.

Lemma job_run_idle cfg j tbl tbl' : tbl' = tbl → ∃ r, job_run cfg j tbl r tbl'.
Proof. intros ->. exists None. constructor. Qed.

(** Proves [CheckpointJob] for a handler written as [getCheckpoint], guard,
    work, [saveCheckpoint]. *)
Lemma job_run_guarded cfg j tbl s e u :
  jobCheckpoint cfg j tbl = Ok (s, e, u) →
  ∃ r, job_run cfg j tbl r (if stops (jd_guard j) s e then tbl else saveCheckpoint u e tbl).
Proof.
  intros Hj. destruct (stops (jd_guard j) s e) eqn:Hs.
  - exists None. constructor.
  - exists (Some (s, e)). by econstructor.
Qed.

(** ** The common shape of the handlers

    Most handlers read the checkpoint, return when the guard says so, prepare
    what they need outside a transaction, and write their rows and the
    checkpoint in one transaction.  [checkpoint_handler] is that shape; the
    handlers of the other files are instances of it. *)
Class SetCheckpoints (D : Type) `{HasCheckpoints D} := {
  set_checkpoints : gmap string Z → D → D;
  checkpoints_set t d : checkpoints_of (set_checkpoints t d) = t
}.

Section Handler.
Context {D W : Type} `{SetCheckpoints D}.
Context (cfg : Config.t) (j : JobDesc) (prepare : Z → Z → io D W) (write : Z → Z → W → D → res D).

Definition checkpoint_handler : io D () :=
  '(startBlock, endBlock, blockCheckpoint) ← readCheckpoint cfg j;
  if stops (jd_guard j) startBlock endBlock then mret () else
  w ← prepare startBlock endBlock;
  commit (λ d,
    d ← write startBlock endBlock w d;
    Ok (set_checkpoints (saveCheckpoint blockCheckpoint endBlock (checkpoints_of d)) d)).

(** A run returns without doing anything, fails before or in its transaction,
    or commits. *)
Lemma checkpoint_handler_cases d d' o :
  checkpoint_handler d = (d', o) →
  (d' = d ∧ o = Ok tt ∧ ∃ s e u, jobCheckpoint cfg j (checkpoints_of d) = Ok (s, e, u) ∧
     stops (jd_guard j) s e = true) ∨
  (∃ msg, o = Throw msg ∧ (d' = d ∨ ∃ s e, d' = (prepare s e d).1)) ∨
  ∃ s e u w d1 d2, jobCheckpoint cfg j (checkpoints_of d) = Ok (s, e, u) ∧
    stops (jd_guard j) s e = false ∧ prepare s e d = (d1, Ok w) ∧ write s e w d1 = Ok d2 ∧
    d' = set_checkpoints (saveCheckpoint u e (checkpoints_of d2)) d2 ∧ o = Ok tt.
Proof.
  unfold checkpoint_handler, readCheckpoint. unfold mbind at 1, io_bind at 1.
  destruct (jobCheckpoint cfg j (checkpoints_of d)) as [[[s e] u]|msg] eqn:Hj;
    [|intros [= <- <-]; right; left; eauto].
  destruct (stops (jd_guard j) s e) eqn:Hs; [intros [= <- <-]; left; eauto 10|].
  unfold mbind at 1, io_bind at 1. destruct (prepare s e d) as [d1 [w|msg]] eqn:Hp; cycle 1.
  { intros [= <- <-]. right. left. eexists. split; [done|]. right. exists s, e. by rewrite Hp. }
  unfold commit. destruct (write s e w d1) as [d2|msg] eqn:Hw; simpl; intros [= <- <-].
  - right. right. eauto 20.
  - right. left. eexists. split; [done|]. right. exists s, e. by rewrite Hp.
Qed.

(** A run that processes a range. *)
Lemma checkpoint_handler_run d s e u d1 w d2 :
  jobCheckpoint cfg j (checkpoints_of d) = Ok (s, e, u) → stops (jd_guard j) s e = false →
  prepare s e d = (d1, Ok w) → write s e w d1 = Ok d2 →
  checkpoint_handler d = (set_checkpoints (saveCheckpoint u e (checkpoints_of d2)) d2, Ok tt).
Proof.
  intros Hj Hs Hp Hw. unfold checkpoint_handler, readCheckpoint.
  erewrite io_step by (by rewrite Hj). cbv beta iota. rewrite Hs.
  rewrite (io_step _ _ _ _ _ Hp). unfold commit. by rewrite Hw.
Qed.

(** A run whose transaction fails: what was prepared stays. *)
Lemma checkpoint_handler_fails d s e u d1 w msg :
  jobCheckpoint cfg j (checkpoints_of d) = Ok (s, e, u) → stops (jd_guard j) s e = false →
  prepare s e d = (d1, Ok w) → write s e w d1 = Throw msg →
  checkpoint_handler d = (d1, Throw msg).
Proof.
  intros Hj Hs Hp Hw. unfold checkpoint_handler, readCheckpoint.
  erewrite io_step by (by rewrite Hj). cbv beta iota. rewrite Hs.
  rewrite (io_step _ _ _ _ _ Hp). unfold commit. by rewrite Hw.
Qed.

(** The shape of a handler that goes on after its transaction. *)
Definition checkpoint_handler_then (after : W → io D ()) : io D () :=
  '(startBlock, endBlock, blockCheckpoint) ← readCheckpoint cfg j;
  if stops (jd_guard j) startBlock endBlock then mret () else
  w ← prepare startBlock endBlock;
  commit (λ d,
    d ← write startBlock endBlock w d;
    Ok (set_checkpoints (saveCheckpoint blockCheckpoint endBlock (checkpoints_of d)) d));;
  after w.

(** Its runs are those of [checkpoint_handler], followed by [after] when the
    transaction was committed. *)
Lemma checkpoint_handler_then_cases after d d' o :
  checkpoint_handler_then after d = (d', o) →
  (d' = d ∧ o = Ok tt ∧ ∃ s e u, jobCheckpoint cfg j (checkpoints_of d) = Ok (s, e, u) ∧
     stops (jd_guard j) s e = true) ∨
  (∃ msg, o = Throw msg ∧ (d' = d ∨ ∃ s e, d' = (prepare s e d).1)) ∨
  ∃ s e u w d1 d2, jobCheckpoint cfg j (checkpoints_of d) = Ok (s, e, u) ∧
    stops (jd_guard j) s e = false ∧ prepare s e d = (d1, Ok w) ∧ write s e w d1 = Ok d2 ∧
    (d', o) = after w (set_checkpoints (saveCheckpoint u e (checkpoints_of d2)) d2).
Proof.
  unfold checkpoint_handler_then, readCheckpoint. unfold mbind at 1, io_bind at 1.
  destruct (jobCheckpoint cfg j (checkpoints_of d)) as [[[s e] u]|msg] eqn:Hj;
    [|intros [= <- <-]; right; left; eauto].
  destruct (stops (jd_guard j) s e) eqn:Hs; [intros [= <- <-]; left; eauto 10|].
  unfold mbind at 1, io_bind at 1. destruct (prepare s e d) as [d1 [w|msg]] eqn:Hp; cycle 1.
  { intros [= <- <-]. right. left. eexists. split; [done|]. right. exists s, e. by rewrite Hp. }
  unfold commit, mbind, io_bind. destruct (write s e w d1) as [d2|msg] eqn:Hw; simpl; intros Hrun.
  - right. right. exists s, e, u, w, d1, d2. split_and!; try done.
  - injection Hrun as <- <-. right. left. eexists. split; [done|]. right. exists s, e. by rewrite Hp.
Qed.

Lemma checkpoint_handler_then_run after d s e u d1 w d2 :
  jobCheckpoint cfg j (checkpoints_of d) = Ok (s, e, u) → stops (jd_guard j) s e = false →
  prepare s e d = (d1, Ok w) → write s e w d1 = Ok d2 →
  checkpoint_handler_then after d = after w (set_checkpoints (saveCheckpoint u e (checkpoints_of d2)) d2).
Proof.
  intros Hj Hs Hp Hw. unfold checkpoint_handler_then, readCheckpoint.
  erewrite io_step by (by rewrite Hj). cbv beta iota. rewrite Hs.
  rewrite (io_step _ _ _ _ _ Hp). erewrite io_step; [done|]. unfold commit. by rewrite Hw.
Qed.

(** A run that fails before its transaction. *)
Lemma checkpoint_handler_then_throws after d s e u d1 msg :
  jobCheckpoint cfg j (checkpoints_of d) = Ok (s, e, u) → stops (jd_guard j) s e = false →
  prepare s e d = (d1, Throw msg) → checkpoint_handler_then after d = (d1, Throw msg).
Proof.
  intros Hj Hs Hp. unfold checkpoint_handler_then, readCheckpoint.
  erewrite io_step by (by rewrite Hj). cbv beta iota. rewrite Hs.
  unfold mbind at 1, io_bind at 1. by rewrite Hp.
Qed.

(** The parts of the handler that must leave the checkpoints alone. *)
Class HandlerFrames : Prop := {
  prepare_frames s e : frames (prepare s e);
  write_frames s e w d d' : write s e w d = Ok d' → checkpoints_of d' = checkpoints_of d
}.

#[export] Instance checkpoint_handler_job `{!HandlerFrames} :
  CheckpointJob cfg j checkpoint_handler.
Proof.
  intros d. destruct (checkpoint_handler d) as [d' o] eqn:Hrun. simpl.
  apply checkpoint_handler_cases in Hrun as [(-> & _)|[(msg & _ & [->|(s & e & ->)])|
    (s & e & u & w & d1 & d2 & Hj & Hs & Hp & Hw & -> & _)]].
  - by apply job_run_idle.
  - by apply job_run_idle.
  - apply job_run_idle, prepare_frames.
  - rewrite checkpoints_set, (write_frames _ _ _ _ _ Hw).
    pose proof (prepare_frames s e d) as Hf. rewrite Hp in Hf. simpl in Hf. rewrite Hf.
    pose proof (job_run_guarded cfg j _ _ _ _ Hj) as Hjob. by rewrite Hs in Hjob.
Qed.

Lemma checkpoint_handler_then_job `{!HandlerFrames} after :
  (∀ w, frames (after w)) → CheckpointJob cfg j (checkpoint_handler_then after).
Proof.
  intros Hafter d. destruct (checkpoint_handler_then after d) as [d' o] eqn:Hrun. simpl.
  apply checkpoint_handler_then_cases in Hrun as [(-> & _)|[(msg & _ & [->|(s & e & ->)])|
    (s & e & u & w & d1 & d2 & Hj & Hs & Hp & Hw & Ha)]].
  - by apply job_run_idle.
  - by apply job_run_idle.
  - apply job_run_idle, prepare_frames.
  - replace d' with (d', o).1 by done. rewrite Ha, Hafter, checkpoints_set, (write_frames _ _ _ _ _ Hw).
    pose proof (prepare_frames s e d) as Hf. rewrite Hp in Hf. simpl in Hf. rewrite Hf.
    pose proof (job_run_guarded cfg j _ _ _ _ Hj) as Hjob. by rewrite Hs in Hjob.
Qed.
End Handler.
