(* ===== verification/Pipeline.v ===== *)
(** * The pipeline of checkpoint jobs

    The block crawler raises the checkpoint of [crawl:block]; every other job
    follows the jobs it depends on.  This file is the abstract specification
    of that protocol: a state is the checkpoint table together with the log of
    the ranges that committed runs have processed, a step is one run of one
    job (or one advance of the block crawler), and runs interleave freely.  The
    handlers of the other files refine it ([CheckpointJob] of Checkpoint.v). *)
From S2P Require Import Prelude Checkpoint.

Record PState := { tbl : gmap string Z; log : list (string * (Z * Z)) }.

Definition init : PState := {| tbl := ∅; log := [] |}.

Definition log_entry (j : JobDesc) (r : option (Z * Z)) : list (string * (Z * Z)) :=
  match r with Some r => [(jd_name j, r)] | None => [] end.

Section Pipeline.
Context (cfg : Config.t).

Inductive step : PState → PState → Prop :=
| step_block_init st :
    tbl st !! CRAWL_BLOCK = None →
    step st {| tbl := <[CRAWL_BLOCK := Config.startBlock cfg]> (tbl st); log := log st |}
| step_block st h h' :
    tbl st !! CRAWL_BLOCK = Some h → h < h' →
    step st {| tbl := <[CRAWL_BLOCK := h']> (tbl st); log := log st |}
| step_job st j r tbl' :
    j ∈ jobs → job_run cfg j (tbl st) r tbl' →
    step st {| tbl := tbl'; log := log st ++ log_entry j r |}.

Definition reachable (st : PState) : Prop := rtc step init st.

(** ** An executable scheduler *)
Inductive action :=
| CrawlTo (h : Z)
| Run (j : JobDesc).

Definition exec (st : PState) (a : action) : PState :=
  match a with
  | CrawlTo h' =>
      match tbl st !! CRAWL_BLOCK with
      | None => {| tbl := <[CRAWL_BLOCK := Config.startBlock cfg]> (tbl st); log := log st |}
      | Some h => if h <? h'
                  then {| tbl := <[CRAWL_BLOCK := h']> (tbl st); log := log st |} else st
      end
  | Run j =>
      match jobCheckpoint cfg j (tbl st) with
      | Ok (s, e, u) =>
          if stops (jd_guard j) s e then st
          else {| tbl := saveCheckpoint u e (tbl st); log := log st ++ [(jd_name j, (s, e))] |}
      | Throw _ => st
      end
  end.

Definition action_ok (a : action) : Prop :=
  match a with CrawlTo _ => True | Run j => j ∈ jobs end.

#[export] Instance action_ok_dec a : Decision (action_ok a).
Proof. destruct a; apply _. Defined.

Lemma exec_step st a : action_ok a → rtc step st (exec st a).
Proof.
  intros Ha. destruct a as [h'|j]; simpl in *.
  - destruct (tbl st !! CRAWL_BLOCK) as [h|] eqn:Hb.
    + destruct (Z.ltb_spec h h'); [|apply rtc_refl]. by eapply rtc_once, step_block.
    + by apply rtc_once, step_block_init.
  - destruct (jobCheckpoint cfg j (tbl st)) as [[[s e] u]|] eqn:Hj; [|apply rtc_refl].
    destruct (stops (jd_guard j) s e) eqn:Hs; [apply rtc_refl|].
    apply rtc_once. eapply (step_job st j (Some (s, e))); [done|by econstructor].
Qed.

Lemma exec_reachable acts : Forall action_ok acts → reachable (foldl exec init acts).
Proof.
  assert (∀ st, Forall action_ok acts → rtc step st (foldl exec st acts)) as H; [|apply H].
  induction acts as [|a acts IH]; intros st Hacts; simpl; [apply rtc_refl|].
  apply Forall_cons in Hacts as [Ha Hacts].
  etrans; [by apply exec_step|by apply IH].
Qed.

(** ** The ranges of a job *)
Definition ranges (j : JobDesc) (st : PState) : list (Z * Z) :=
  snd <$> filter (λ x, x.1 = jd_name j) (log st).

Definition job_height (n : string) (st : PState) : Z :=
  default (Config.startBlock cfg) (tbl st !! n).

(** The number of ranges (s, e] of [l] that contain block [b]. *)
Fixpoint times (b : Z) (l : list (Z * Z)) : nat :=
  match l with
  | [] => 0%nat
  | (s, e) :: l => if (s <? b) && (b <=? e) then S (times b l) else times b l
  end.

(** Consecutive ranges from [lo] to [hi]. *)
Fixpoint chain (lo hi : Z) (l : list (Z * Z)) : Prop :=
  match l with
  | [] => lo = hi
  | (s, e) :: l => s = lo ∧ s <= e ∧ chain e hi l
  end.

Lemma chain_snoc lo mid hi l :
  chain lo mid l → mid <= hi → chain lo hi (l ++ [(mid, hi)]).
Proof.
  revert lo. induction l as [|[s e] l IH]; intros lo; simpl.
  - intros -> ?. done.
  - intros (-> & ? & ?) ?. auto.
Qed.

Lemma chain_le lo hi l : chain lo hi l → lo <= hi.
Proof.
  revert lo. induction l as [|[s e] l IH]; intros lo; simpl; [lia|].
  intros (-> & ? & ?%IH). lia.
Qed.

Lemma chain_times lo hi l b :
  chain lo hi l → times b l = if (lo <? b) && (b <=? hi) then 1%nat else 0%nat.
Proof.
  revert lo. induction l as [|[s e] l IH]; intros lo; simpl.
  - intros ->. destruct (Z.ltb_spec hi b), (Z.leb_spec b hi); simpl; lia.
  - intros (-> & Hle & Hl). rewrite (IH e Hl). apply chain_le in Hl.
    destruct (Z.ltb_spec lo b), (Z.leb_spec b e), (Z.ltb_spec e b), (Z.leb_spec b hi);
      simpl; lia.
Qed.

Lemma ranges_app j st l :
  ranges j {| tbl := tbl st; log := log st ++ l |}
  = ranges j st ++ (snd <$> filter (λ x, x.1 = jd_name j) l).
Proof. unfold ranges. simpl. by rewrite filter_app, fmap_app. Qed.
End Pipeline.

(** The names of the jobs identify them and none is [crawl:block]. *)
Lemma jobs_names_nodup : NoDup (CRAWL_BLOCK :: (jd_name <$> jobs)).
Proof. apply (bool_decide_unpack _). by vm_compute. Qed.

Lemma jobs_name_inj j1 j2 :
  j1 ∈ jobs → j2 ∈ jobs → jd_name j1 = jd_name j2 → j1 = j2.
Proof.
  intros [i1 H1]%list_elem_of_lookup [i2 H2]%list_elem_of_lookup Hn.
  pose proof (NoDup_cons_1_2 _ _ jobs_names_nodup) as Hnd.
  assert (i1 = i2) as ->; [|congruence].
  apply (NoDup_lookup (jd_name <$> jobs) i1 i2 (jd_name j1) Hnd).
  - rewrite list_lookup_fmap, H1. done.
  - rewrite list_lookup_fmap, H2. simpl. by rewrite Hn.
Qed.

Lemma jobs_name_not_block j : j ∈ jobs → jd_name j ≠ CRAWL_BLOCK.
Proof.
  intros Hj Heq. apply (NoDup_cons_1_1 _ _ jobs_names_nodup).
  rewrite <-Heq. by apply list_elem_of_fmap_2.
Qed.

(** ** Invariants of the protocol *)
Section Invariants.
Context (cfg : Config.t).

(** A property of states that holds at the start and after every step. *)
Lemma reachable_ind_inv (P : PState → Prop) :
  P init → (∀ st st', P st → step cfg st st' → P st') →
  ∀ st, reachable cfg st → P st.
Proof.
  intros Hi Hs st Hr. unfold reachable in Hr.
  remember init as st0 eqn:E.
  assert (P st0) as H0 by (by subst). clear E Hi.
  induction Hr; eauto.
Qed.

(** The processed ranges of a guarded job are consecutive, from the start
    block to its checkpoint. *)
Definition chained (j : JobDesc) (st : PState) : Prop :=
  chain (Config.startBlock cfg) (job_height cfg (jd_name j) st) (ranges j st).

Lemma guard_le g s e : g ≠ NoGuard → stops g s e = false → s <= e.
Proof. destruct g; simpl; intros; try done; lia. Qed.

Lemma job_run_other j tbl r tbl' n :
  job_run cfg j tbl r tbl' → n ≠ jd_name j → tbl' !! n = tbl !! n.
Proof.
  intros [|s e u Hj _] Hn; [done|].
  apply getCheckpoint_Ok in Hj as (-> & -> & _). unfold saveCheckpoint. simpl.
  by rewrite lookup_insert_ne.
Qed.

Lemma chained_init j : chained j init.
Proof. unfold chained, job_height, ranges. simpl. by rewrite lookup_empty. Qed.

Lemma chained_step j st st' :
  j ∈ jobs → jd_guard j ≠ NoGuard →
  chained j st → step cfg st st' → chained j st'.
Proof.
  intros Hj Hg Hc Hstep. pose proof (jobs_name_not_block _ Hj) as Hnb.
  unfold chained in *. destruct Hstep as [st Hn|st h h' Hh Hlt|st j' r tbl' Hj' Hrun].
  1,2: unfold ranges, job_height in *; simpl; by rewrite lookup_insert_ne.
  destruct (decide (jd_name j = jd_name j')) as [Heq|Hne].
  - apply jobs_name_inj in Heq as <-; [|done..].
    destruct Hrun as [|s e u Hcp Hs]; simpl.
    + rewrite app_nil_r. by destruct st.
    + apply getCheckpoint_Ok in Hcp as (-> & -> & _).
      pose proof (guard_le _ _ _ Hg Hs) as Hle.
      unfold ranges, job_height, saveCheckpoint in *. simpl.
      rewrite lookup_insert_eq, filter_app, fmap_app, filter_cons_True by done.
      by apply (chain_snoc _ (default (Config.startBlock cfg) (tbl st !! jd_name j))).
  - unfold ranges, job_height in *. simpl.
    rewrite (job_run_other _ _ _ _ _ Hrun Hne), filter_app, fmap_app.
    destruct r; simpl; [rewrite filter_cons_False by (simpl; congruence)|];
      simpl; by rewrite app_nil_r.
Qed.

Lemma chained_reachable j st :
  j ∈ jobs → jd_guard j ≠ NoGuard → reachable cfg st → chained j st.
Proof.
  intros Hj Hg. apply reachable_ind_inv; [apply chained_init|].
  intros st1 st2. by apply chained_step.
Qed.

(** No checkpoint is ahead of the block crawler. *)
Definition bounded (st : PState) : Prop :=
  Config.startBlock cfg <= job_height cfg CRAWL_BLOCK st ∧
  ∀ n h, tbl st !! n = Some h → h <= job_height cfg CRAWL_BLOCK st.

Lemma bounded_step st st' :
  0 <= Config.startBlock cfg → bounded st → step cfg st st' → bounded st'.
Proof.
  intros H0 [Hb Hall] Hstep. unfold bounded, job_height in *.
  destruct Hstep as [st Hn|st h h' Hh Hlt|st j r tbl' Hj Hrun]; simpl.
  - rewrite Hn in *. rewrite lookup_insert_eq. simpl in *. split; [lia|].
    intros n h. rewrite lookup_insert. case_decide; [intros [= <-]; lia|apply Hall].
  - rewrite Hh in *. rewrite lookup_insert_eq. simpl in *. split; [lia|].
    intros n k. rewrite lookup_insert. case_decide; [intros [= <-]; lia|].
    intros ?%Hall. lia.
  - rewrite (job_run_other _ _ _ _ _ Hrun) by (intros E; by apply (jobs_name_not_block j)).
    split; [done|]. destruct Hrun as [|s e u Hcp _]; [done|].
    apply getCheckpoint_Ok in Hcp as (_ & -> & He). unfold saveCheckpoint. simpl.
    intros n h. rewrite lookup_insert. case_decide; [|apply Hall].
    intros [= <-]. destruct He as [[_ ->]|(m & Hm & Hle)]; [lia|].
    apply lastHeightCheckpoint_Some in Hm as [(d & _ & Hd) _].
    apply Hall in Hd. lia.
Qed.

Lemma bounded_reachable st :
  0 <= Config.startBlock cfg → reachable cfg st → bounded st.
Proof.
  intros H0. apply reachable_ind_inv.
  - unfold bounded, job_height. simpl. rewrite lookup_empty. simpl.
    split; [lia|]. intros n h. by rewrite lookup_empty.
  - intros st1 st2. by apply bounded_step.
Qed.

(** Whether the checkpoint with this name never goes down. *)
Definition steady (n : string) : Prop :=
  n = CRAWL_BLOCK ∨ ∃ j, j ∈ jobs ∧ jd_name j = n ∧ jd_guard j ≠ NoGuard.

Lemma steady_step n st st' :
  steady n → step cfg st st' → job_height cfg n st <= job_height cfg n st'.
Proof.
  intros Hn Hstep. unfold job_height.
  destruct Hstep as [st Hb|st h h' Hh Hlt|st j r tbl' Hj Hrun]; simpl.
  - rewrite lookup_insert. case_decide; [subst; by rewrite Hb|lia].
  - rewrite lookup_insert. case_decide; [subst; rewrite Hh; simpl; lia|lia].
  - destruct Hrun as [|s e u Hcp Hs]; [lia|].
    apply getCheckpoint_Ok in Hcp as (-> & -> & _). unfold saveCheckpoint. simpl.
    rewrite lookup_insert. case_decide; [|lia]. subst n. simpl.
    destruct Hn as [Hn|(j' & Hj' & Heq & Hg)].
    + by apply jobs_name_not_block in Hn.
    + apply jobs_name_inj in Heq as ->; [|done..]. by apply (guard_le (jd_guard j)).
Qed.

(** A job follows its only dependency. *)
Definition follows (j : JobDesc) (d : string) (st : PState) : Prop :=
  job_height cfg (jd_name j) st <= job_height cfg d st.

Lemma steady_start n st :
  0 <= Config.startBlock cfg → steady n → reachable cfg st →
  Config.startBlock cfg <= job_height cfg n st.
Proof.
  intros H0 Hn. revert st. apply reachable_ind_inv.
  - unfold job_height. simpl. rewrite lookup_empty. simpl. lia.
  - intros st st' ? ?%(steady_step n); [lia|done].
Qed.

Lemma follows_step j d st st' :
  0 <= Config.startBlock cfg → reachable cfg st →
  j ∈ jobs → jd_deps j = [d] → steady d →
  follows j d st → step cfg st st' → follows j d st'.
Proof.
  intros H0 Hr Hj Hd Hst Hf Hstep. unfold follows in *.
  pose proof (steady_step d _ _ Hst Hstep) as Hmono.
  pose proof (steady_start d _ H0 Hst Hr) as Hstart.
  enough (job_height cfg (jd_name j) st' <= job_height cfg (jd_name j) st ∨
          job_height cfg (jd_name j) st' <= job_height cfg d st) by lia.
  clear Hmono Hf. destruct Hstep as [st Hb|st h h' Hh Hlt|st j' r tbl' Hj' Hrun].
  1,2: left; unfold job_height; simpl;
    rewrite lookup_insert_ne by (intros E; by apply (jobs_name_not_block j)); lia.
  destruct (decide (jd_name j = jd_name j')) as [Heq|Hne].
  - apply jobs_name_inj in Heq as <-; [|done..].
    destruct Hrun as [|s e u Hcp Hs]; [left; unfold job_height; simpl; lia|].
    right. unfold jobCheckpoint in Hcp. rewrite Hd in Hcp.
    apply getCheckpoint_Ok in Hcp as (_ & -> & He).
    unfold job_height, saveCheckpoint in *. simpl. rewrite lookup_insert_eq. simpl in *.
    destruct (tbl st !! d) as [m|] eqn:Hm; simpl in *;
      destruct He as [[? ->]|(m' & [= <-] & ?)]; simplify_eq; lia.
  - left. unfold job_height. simpl. by rewrite (job_run_other _ _ _ _ _ Hrun Hne).
Qed.

Lemma follows_reachable j d st :
  0 <= Config.startBlock cfg → j ∈ jobs → jd_deps j = [d] → steady d →
  reachable cfg st → follows j d st.
Proof.
  intros H0 Hj Hd Hst Hr.
  enough (reachable cfg st ∧ follows j d st) by tauto.
  revert st Hr. apply reachable_ind_inv.
  - split; [apply rtc_refl|]. unfold follows, job_height. simpl.
    rewrite !lookup_empty. simpl. lia.
  - intros st st' [Hr Hf] Hstep. split; [by eapply rtc_r|].
    by eapply follows_step.
Qed.
End Invariants.

(** ** Properties *)

(** C2: exactly-once processing.  In every reachable state of the pipeline, a
    job whose handler guards the range it gets from [getCheckpoint] has
    processed every block between the start block and its checkpoint exactly
    once, and no other block. *)
Theorem exactly_once cfg st j b :
  reachable cfg st → j ∈ jobs → jd_guard j ≠ NoGuard →
  times b (ranges j st) =
    if (Config.startBlock cfg <? b) && (b <=? job_height cfg (jd_name j) st)
    then 1%nat else 0%nat.
Proof. intros Hr Hj Hg. apply chain_times. by apply chained_reachable. Qed.

(** A run of the pipeline used by the witnesses: two hundred blocks, of which
    the EVM jobs have processed all. *)
Definition demo_actions : list action :=
  [CrawlTo 0; CrawlTo 4860200] ++ concat (replicate 2 [Run CRAWL_TRANSACTION])
  ++ concat (replicate 2 [Run HANDLE_TRANSACTION])
  ++ [Run HANDLE_TRANSACTION_EVM] ++ replicate 4 (Run JOB_CRAWL_EVM_EVENT)
  ++ replicate 2 (Run EVM_CRAWL_INTERNAL_TX) ++ [Run CRAWL_SMART_CONTRACT_EVM]
  ++ replicate 2 (Run HANDLE_ERC20_CONTRACT) ++ replicate 2 (Run HANDLE_ERC20_ACTIVITY).

Definition demo : PState := foldl (exec Config.json) init demo_actions.


Lemma exactly_once_witness :
  reachable Config.json demo ∧
  times 4860150 (ranges HANDLE_TRANSACTION demo) = 1%nat.
Proof.
  assert (reachable Config.json demo) as Hr by (apply exec_reachable; by_compute).
  split; [exact Hr|].
  rewrite (exactly_once Config.json demo HANDLE_TRANSACTION 4860150 Hr).
  - vm_compute. reflexivity.
  - by_compute.
  - discriminate.
Defined.

(** No job ever gets ahead of the block crawler: in every reachable state
    the checkpoint of every job is at most that of [crawl:block] (or the start
    block, before the crawler has a checkpoint). *)
Theorem never_ahead_of_crawler cfg st n h :
  0 <= Config.startBlock cfg → reachable cfg st → tbl st !! n = Some h →
  h <= default (Config.startBlock cfg) (tbl st !! CRAWL_BLOCK).
Proof. intros H0 Hr. by apply (bounded_reachable cfg st H0 Hr). Qed.

Lemma never_ahead_of_crawler_witness :
  reachable Config.json demo ∧
  (4860200 <= default 4860000 (tbl demo !! CRAWL_BLOCK)).
Proof.
  assert (reachable Config.json demo) as Hr by (apply exec_reachable; by_compute).
  split; [exact Hr|].
  apply (never_ahead_of_crawler Config.json demo "handle:erc20-activity");
    [done|exact Hr|vm_compute; reflexivity].
Defined.

(** The documented order of dependent jobs.  A job with a single
    dependency whose own checkpoint never goes down (the block crawler, or a
    job with a guard) never processes a block before that dependency has. *)
Theorem follows_dependency cfg st j d :
  0 <= Config.startBlock cfg → reachable cfg st →
  j ∈ jobs → jd_deps j = [d] → steady d →
  job_height cfg (jd_name j) st <= job_height cfg d st.
Proof. intros. by apply follows_reachable. Qed.

Lemma follows_dependency_witness :
  reachable Config.json demo ∧
  job_height Config.json "handle:transaction-evm" demo
    <= job_height Config.json "handle:transaction" demo.
Proof.
  assert (reachable Config.json demo) as Hr by (apply exec_reachable; by_compute).
  split; [exact Hr|].
  apply (follows_dependency Config.json demo HANDLE_TRANSACTION_EVM "handle:transaction");
    [done|exact Hr|by_compute|reflexivity|].
  right. exists HANDLE_TRANSACTION. split; [by_compute|]. by split.
Defined.

(** Twice the EVM jobs at the end of the pipeline, before and after the proxy
    history job has a checkpoint. *)
Definition regress_actions : list action :=
  demo_actions ++ [Run HANDLE_EVM_PROXY_HISTORY; Run HANDLE_ERC20_ACTIVITY;
                   Run HANDLE_EVM_PROXY_HISTORY; Run HANDLE_ERC20_ACTIVITY].

(** the handlers without a guard do not have the property [exactly_once].  When a
    dependency of [handle:erc20-activity] obtains its first checkpoint after
    the job has run, the checkpoint of the job goes back and the blocks
    between are processed a second time. *)
Theorem unguarded_job_repeats :
  ∃ st b, reachable Config.json st ∧ times b (ranges HANDLE_ERC20_ACTIVITY st) = 2%nat.
Proof.
  exists (foldl (exec Config.json) init regress_actions), 4860150.
  split; [apply exec_reachable; by_compute|by vm_compute].
Qed.

(** a dependency that has no checkpoint yet is not waited for.
    [handle:stake-event] depends on [crawl:validator] too, but runs ahead of
    it while it has no checkpoint. *)
Theorem missing_dependency_not_awaited :
  ∃ st, reachable Config.json st ∧
    tbl st !! "crawl:validator" = None ∧
    job_height Config.json "handle:stake-event" st = Config.startBlock Config.json + 100.
Proof.
  exists (foldl (exec Config.json) init
    [CrawlTo 0; CrawlTo 4860200; Run CRAWL_TRANSACTION; Run HANDLE_TRANSACTION;
     Run HANDLE_STAKE_EVENT]).
  split; [apply exec_reachable; by_compute|by vm_compute].
Qed.
