(* ===== verification/Catalog.v ===== *)
(** * Partitioned tables

    The statements of PostgreSQL the partition jobs send: the catalog of
    partitions ([pg_inherits], [pg_class]) and of check constraints
    ([pg_constraint]), [CREATE TABLE ... (LIKE ...)] with [ATTACH PARTITION],
    [ALTER TABLE ... ADD / VALIDATE / DROP CONSTRAINT], and the insertion of a
    row into a partitioned table.  A check has SQL's three-valued logic: a
    comparison with a NULL is unknown, and a row is rejected only when the
    check is false.

    The server shortens identifiers that are longer than 63 bytes; the class
    [Identifiers] states that.  The file also has the string functions the
    jobs apply to catalog entries: [match(/\d+/g)] on the text of the bounds,
    [LIKE] and [split('_').pop()] on constraint names. *)
From S2P Require Import Prelude JsNum.

(** ** Identifiers *)

(** What the server does to an identifier ([NAMEDATALEN] is 64). *)
Class Identifiers := {
  ident : string → string;
  ident_short s : (String.length s ≤ 63)%nat → ident s = s;
  ident_long s : (63 < String.length s)%nat → ident s = String.substring 0 63 s
}.

(** Cutting at 63 bytes satisfies the class. *)
Lemma substring_all s n : (String.length s ≤ n)%nat → String.substring 0 n s = s.
Proof.
  revert s. induction n as [|n IH]; intros [|c s]; simpl; try done; [lia|].
  intros Hs. f_equal. apply IH. lia.
Qed.

Definition cut63 : Identifiers := {|
  ident := String.substring 0 63;
  ident_short s := substring_all s 63;
  ident_long s _ := eq_refl
|}.

(** ** Rows and checks *)

(** The numeric columns of a row; a column that is not a key is NULL. *)
Definition row := gmap string Z.

Inductive check :=
| CGe (col : string) (bound : option Z)      (** [col >= bound] *)
| CLe (col : string) (bound : option Z)      (** [col <= bound] *)
| CLt (col : string) (bound : option Z)      (** [col < bound] *)
| CIsNull (col : string)                     (** [col IS NULL] *)
| CAnd (c1 c2 : check)
| COr (c1 c2 : check).

(** A comparison of two values of which each can be NULL. *)
Definition compare_null (f : Z → Z → bool) (a b : option Z) : option bool :=
  match a, b with Some x, Some y => Some (f x y) | _, _ => None end.

(** Three-valued conjunction and disjunction. *)
Definition and3 (a b : option bool) : option bool :=
  match a, b with
  | Some false, _ | _, Some false => Some false
  | Some true, Some true => Some true
  | _, _ => None
  end.
Definition or3 (a b : option bool) : option bool :=
  match a, b with
  | Some true, _ | _, Some true => Some true
  | Some false, Some false => Some false
  | _, _ => None
  end.

Fixpoint eval_check (r : row) (c : check) : option bool :=
  match c with
  | CGe col b => compare_null Z.geb (r !! col) b
  | CLe col b => compare_null Z.leb (r !! col) b
  | CLt col b => compare_null Z.ltb (r !! col) b
  | CIsNull col => Some (bool_decide (r !! col = None))
  | CAnd c1 c2 => and3 (eval_check r c1) (eval_check r c2)
  | COr c1 c2 => or3 (eval_check r c1) (eval_check r c2)
  end.

(** A row is accepted unless the check is false. *)
Definition accepts (c : check) (r : row) : bool :=
  match eval_check r c with Some false => false | _ => true end.

(** The texts that [pg_get_constraintdef] prints for a check: does a
    comparison of the column with that operator occur in it? *)
Fixpoint mentions_ge (col : string) (c : check) : bool :=
  match c with
  | CGe col' _ => bool_decide (col' = col)
  | CAnd c1 c2 | COr c1 c2 => mentions_ge col c1 || mentions_ge col c2
  | _ => false
  end.
Fixpoint mentions_le (col : string) (c : check) : bool :=
  match c with
  | CLe col' _ => bool_decide (col' = col)
  | CAnd c1 c2 | COr c1 c2 => mentions_le col c1 || mentions_le col c2
  | _ => false
  end.

Lemma accepts_and c1 c2 r : accepts (CAnd c1 c2) r = accepts c1 r && accepts c2 r.
Proof.
  unfold accepts. simpl. by destruct (eval_check r c1) as [[]|], (eval_check r c2) as [[]|].
Qed.

Lemma accepts_iff c r : accepts c r = true ↔ eval_check r c ≠ Some false.
Proof. unfold accepts. by destruct (eval_check r c) as [[]|]; split. Qed.

Lemma compare_null_spec (f : Z → Z → bool) (P : Z → Z → Prop) a b :
  (∀ x y, f x y = false ↔ ¬ P x y) → (∀ x y, P x y ∨ ¬ P x y) →
  compare_null f a b ≠ Some false ↔ ∀ x y, a = Some x → b = Some y → P x y.
Proof.
  intros Hf Hdec. destruct a as [x|], b as [y|]; simpl;
    try (by split; [intros _ ??; congruence|]).
  split.
  - intros H ?? [= <-] [= <-]. destruct (Hdec x y) as [?|Hn]; [done|].
    apply Hf in Hn. by rewrite Hn in H.
  - intros H [= Hn%Hf]. auto.
Qed.

Lemma accepts_ge col b r :
  accepts (CGe col b) r = true ↔ ∀ x y, r !! col = Some x → b = Some y → y <= x.
Proof.
  rewrite accepts_iff. apply (compare_null_spec _ (λ x y, y <= x)); intros x y; [|lia].
  destruct (Z.geb_spec x y); split; try done; lia.
Qed.

Lemma accepts_le col b r :
  accepts (CLe col b) r = true ↔ ∀ x y, r !! col = Some x → b = Some y → x <= y.
Proof. rewrite accepts_iff. apply (compare_null_spec _ (λ x y, x <= y)); intros x y; lia. Qed.

Lemma accepts_lt col b r :
  accepts (CLt col b) r = true ↔ ∀ x y, r !! col = Some x → b = Some y → x < y.
Proof. rewrite accepts_iff. apply (compare_null_spec _ (λ x y, x < y)); intros x y; lia. Qed.

(** [c OR col IS NULL] rejects no more and no less than [c] when [c] compares
    only [col]. *)
Lemma accepts_or_null c col r :
  (r !! col = None → eval_check r c = None) → accepts (COr c (CIsNull col)) r = accepts c r.
Proof.
  unfold accepts. simpl. intros Hc. destruct (r !! col) as [x|] eqn:Hr.
  - rewrite bool_decide_false by done. by destruct (eval_check r c) as [[]|].
  - by rewrite Hc.
Qed.

(** [min(col)] and [max(col)]: NULL when no row has the column. *)
Definition column (col : string) (rows : list row) : list Z := omap (λ r : row, r !! col) rows.
Definition min_col (col : string) (rows : list row) : option Z :=
  match column col rows with [] => None | x :: l => Some (foldr Z.min x l) end.
Definition max_col (col : string) (rows : list row) : option Z :=
  match column col rows with [] => None | x :: l => Some (foldr Z.max x l) end.

Lemma elem_of_column (col : string) (rows : list row) x :
  x ∈ column col rows ↔ ∃ r : row, r ∈ rows ∧ r !! col = Some x.
Proof. unfold column. rewrite list_elem_of_omap. naive_solver. Qed.

Lemma foldr_min_spec (l : list Z) x :
  foldr Z.min x l ∈ x :: l ∧ ∀ y, y ∈ x :: l → foldr Z.min x l <= y.
Proof.
  induction l as [|z l [IH1 IH2]]; simpl.
  - split; [by left|]. intros y Hy%list_elem_of_singleton. lia.
  - assert (∀ y, y ∈ x :: z :: l ↔ y = z ∨ y ∈ x :: l) as Hel by set_solver. split.
    + apply Hel. destruct (Z.min_spec z (foldr Z.min x l)) as [[_ ->]|[_ ->]]; auto.
    + intros y [->|Hy%IH2]%Hel; lia.
Qed.

Lemma foldr_max_spec (l : list Z) x :
  foldr Z.max x l ∈ x :: l ∧ ∀ y, y ∈ x :: l → y <= foldr Z.max x l.
Proof.
  induction l as [|z l [IH1 IH2]]; simpl.
  - split; [by left|]. intros y Hy%list_elem_of_singleton. lia.
  - assert (∀ y, y ∈ x :: z :: l ↔ y = z ∨ y ∈ x :: l) as Hel by set_solver. split.
    + apply Hel. destruct (Z.max_spec z (foldr Z.max x l)) as [[_ ->]|[_ ->]]; auto.
    + intros y [->|Hy%IH2]%Hel; lia.
Qed.

Lemma min_col_spec (col : string) (rows : list row) m :
  min_col col rows = Some m ↔
  (∃ r : row, r ∈ rows ∧ r !! col = Some m) ∧ ∀ (r : row) x, r ∈ rows → r !! col = Some x → m <= x.
Proof.
  assert (∀ P : Z → Prop, (∀ (r : row) x, r ∈ rows → r !! col = Some x → P x)
    ↔ ∀ x, x ∈ column col rows → P x) as Hall.
  { intros P. setoid_rewrite elem_of_column. naive_solver. }
  rewrite (Hall (λ x, m <= x)), <-elem_of_column. unfold min_col.
  destruct (column col rows) as [|x l]; [by split; [done|intros [?%not_elem_of_nil ?]]|].
  destruct (foldr_min_spec l x) as [H1 H2]. split.
  - by intros [= <-].
  - intros [Hm1 Hm2]. f_equal. specialize (H2 m Hm1). specialize (Hm2 _ H1). lia.
Qed.

Lemma max_col_spec (col : string) (rows : list row) m :
  max_col col rows = Some m ↔
  (∃ r : row, r ∈ rows ∧ r !! col = Some m) ∧ ∀ (r : row) x, r ∈ rows → r !! col = Some x → x <= m.
Proof.
  assert (∀ P : Z → Prop, (∀ (r : row) x, r ∈ rows → r !! col = Some x → P x)
    ↔ ∀ x, x ∈ column col rows → P x) as Hall.
  { intros P. setoid_rewrite elem_of_column. naive_solver. }
  rewrite (Hall (λ x, x <= m)), <-elem_of_column. unfold max_col.
  destruct (column col rows) as [|x l]; [by split; [done|intros [?%not_elem_of_nil ?]]|].
  destruct (foldr_max_spec l x) as [H1 H2]. split.
  - by intros [= <-].
  - intros [Hm1 Hm2]. f_equal. specialize (H2 m Hm1). specialize (Hm2 _ H1). lia.
Qed.

Lemma max_col_None (col : string) (rows : list row) :
  max_col col rows = None ↔ ∀ r : row, r ∈ rows → r !! col = None.
Proof.
  transitivity (column col rows = []).
  { unfold max_col. by destruct (column col rows). }
  split.
  - intros Hc r Hr. destruct (r !! col) as [x|] eqn:Hx; [|done].
    assert (x ∈ column col rows) as Hin by (apply elem_of_column; eauto). rewrite Hc in Hin. set_solver.
  - intros H. destruct (column col rows) as [|x l] eqn:Hc; [done|].
    assert (x ∈ column col rows) as (r & Hr & Hx)%elem_of_column by (rewrite Hc; by left).
    by rewrite H in Hx.
Qed.

(** ** The catalog *)
Record partition := Partition {
  p_parent : string;
  p_name : string;
  p_from : Z;
  p_to : Z;
  p_checks : list (string * check);
  p_rows : list row
}.
Record catalog := Catalog {
  relations : list string;      (** [pg_class.relname] *)
  parts : list partition        (** the children of [pg_inherits] *)
}.

Definition children (parent : string) (c : catalog) : list partition :=
  filter (λ p, p_parent p = parent) (parts c).

Section Statements.
Context `{!Identifiers}.

(** [SELECT ... WHERE child.relname = name] *)
Definition exists_child (name : string) (c : catalog) : bool :=
  existsb (λ p, bool_decide (p_name p = ident name)) (parts c).

(** [CREATE TABLE name (LIKE ... EXCLUDING CONSTRAINTS)] *)
Definition create_table (name : string) (c : catalog) : res catalog :=
  if bool_decide (ident name ∈ relations c) then Throw "relation already exists"
  else Ok {| relations := ident name :: relations c; parts := parts c |}.

Definition overlaps (from to : Z) (p : partition) : bool := (p_from p <? to) && (from <? p_to p).

(** [ALTER TABLE parent ATTACH PARTITION name FOR VALUES FROM (from) TO (to)]
    for a table that was just created: it has no rows and no checks. *)
Definition attach_partition (parent name : string) (from to : Z) (c : catalog) : res catalog :=
  if to <=? from then Throw "empty range bound specified for partition" else
  if existsb (overlaps from to) (children parent c) then Throw "partition would overlap partition"
  else Ok {| relations := relations c;
             parts := parts c ++ [Partition parent (ident name) from to [] []] |}.

Definition get_part (name : string) (c : catalog) : res partition :=
  match find (λ p, bool_decide (p_name p = ident name)) (parts c) with
  | Some p => Ok p
  | None => Throw "relation does not exist"
  end.

Definition set_checks (cs : list (string * check)) (p : partition) : partition :=
  Partition (p_parent p) (p_name p) (p_from p) (p_to p) cs (p_rows p).

Definition update_part (name : string) (f : partition → partition) (c : catalog) : catalog :=
  {| relations := relations c;
     parts := (λ p, if bool_decide (p_name p = ident name) then f p else p) <$> parts c |}.

Definition drop_constraint (name : string) (cs : list (string * check)) : res (list (string * check)) :=
  if bool_decide (ident name ∈ cs.*1) then Ok (filter (λ nc, nc.1 ≠ ident name) cs)
  else Throw "constraint does not exist".

Definition add_constraint (name : string) (ck : check) (cs : list (string * check))
  : res (list (string * check)) :=
  if bool_decide (ident name ∈ cs.*1) then Throw "constraint already exists"
  else Ok (cs ++ [(ident name, ck)]).

(** [ALTER TABLE ... VALIDATE CONSTRAINT name] *)
Definition validate_constraint (name : string) (rows : list row) (cs : list (string * check)) : res () :=
  match find (λ nc, bool_decide (nc.1 = ident name)) cs with
  | None => Throw "constraint does not exist"
  | Some (_, ck) =>
      if forallb (accepts ck) rows then Ok tt
      else Throw "check constraint is violated by some row"
  end.

(** [INSERT INTO parent]: the row goes to the partition of its key and must
    pass the checks of that partition. *)
Definition covers (key : string) (r : row) (p : partition) : bool :=
  match r !! key with Some k => (p_from p <=? k) && (k <? p_to p) | None => false end.

Definition check_violated : string := "new row for relation violates check constraint".
Fixpoint insert_in (parent key : string) (r : row) (ps : list partition) : res (list partition) :=
  match ps with
  | [] => Throw "no partition of relation found for row"
  | p :: ps =>
      if bool_decide (p_parent p = parent) && covers key r p then
        if forallb (λ nc, accepts nc.2 r) (p_checks p) then
          Ok (Partition (p_parent p) (p_name p) (p_from p) (p_to p) (p_checks p) (p_rows p ++ [r]) :: ps)
        else Throw check_violated
      else ps' ← insert_in parent key r ps; Ok (p :: ps')
  end.

Definition insert_row (parent key : string) (r : row) (c : catalog) : res catalog :=
  ps ← insert_in parent key r (parts c);
  Ok {| relations := relations c; parts := ps |}.

Definition add_row (r : row) (p : partition) : partition :=
  Partition (p_parent p) (p_name p) (p_from p) (p_to p) (p_checks p) (p_rows p ++ [r]).

Lemma insert_in_Ok parent key r ps ps' :
  insert_in parent key r ps = Ok ps' →
  ∃ l1 p l2, ps = l1 ++ p :: l2 ∧ p_parent p = parent ∧ covers key r p = true ∧
    forallb (λ nc, accepts nc.2 r) (p_checks p) = true ∧ ps' = l1 ++ add_row r p :: l2.
Proof.
  revert ps'. induction ps as [|p ps IH]; intros ps'; simpl; [done|].
  destruct (bool_decide (p_parent p = parent) && covers key r p) eqn:Hc.
  - apply andb_true_iff in Hc as [Hp%bool_decide_eq_true Hc].
    destruct (forallb _ _) eqn:Hck; [|done]. intros [= <-]. by exists [], p, ps.
  - intros (ps1 & Hps1 & [= <-])%bind_Ok.
    destruct (IH _ Hps1) as (l1 & q & l2 & -> & ? & ? & ? & ->). by exists (p :: l1), q, l2.
Qed.

Lemma insert_row_Ok parent key r c c' :
  insert_row parent key r c = Ok c' →
  ∃ l1 p l2, parts c = l1 ++ p :: l2 ∧ p_parent p = parent ∧ covers key r p = true ∧
    forallb (λ nc, accepts nc.2 r) (p_checks p) = true ∧
    c' = {| relations := relations c; parts := l1 ++ add_row r p :: l2 |}.
Proof.
  intros (ps & (l1 & p & l2 & ? & ? & ? & ? & ->)%insert_in_Ok & [= <-])%bind_Ok. eauto 10.
Qed.

(** A row whose key is in a partition of the table is inserted when every
    partition that takes the key accepts it. *)
(** A row with a partition is stored or refused by a check of it. *)
Lemma insert_row_cases parent key r c p :
  p ∈ children parent c → covers key r p = true →
  (∃ c', insert_row parent key r c = Ok c') ∨
  insert_row parent key r c = Throw check_violated ∧
  ∃ q, q ∈ children parent c ∧ covers key r q = true ∧ forallb (λ nc, accepts nc.2 r) (p_checks q) = false.
Proof.
  unfold insert_row, children. intros Hp Hcov.
  cut ((∃ ps, insert_in parent key r (parts c) = Ok ps) ∨
    insert_in parent key r (parts c) = Throw check_violated ∧
    ∃ q, q ∈ filter (λ p, p_parent p = parent) (parts c) ∧ covers key r q = true ∧
      forallb (λ nc, accepts nc.2 r) (p_checks q) = false).
  { intros [[ps ->]|[-> ?]]; [left; by eexists|by right]. }
  revert Hp. induction (parts c) as [|q ps IH]; [by intros ?%elem_of_nil|].
  rewrite filter_cons. cbn [insert_in]. intros Hp.
  destruct (bool_decide (p_parent q = parent) && covers key r q) eqn:Hc.
  - apply andb_true_iff in Hc as [Hq%bool_decide_eq_true Hc]. rewrite decide_True by done.
    destruct (forallb _ (p_checks q)) eqn:Hck; [left; by eexists|right]. split; [done|].
    exists q. split; [left|done].
  - assert (p ∈ filter (λ p, p_parent p = parent) ps) as Hps.
    { case_decide as Hq; [|done]. rewrite bool_decide_true in Hc by done. simpl in Hc.
      apply elem_of_cons in Hp as [->|Hp]; [congruence|done]. }
    destruct (IH Hps) as [[ps' ->]|[-> (q' & Hq' & Hrest)]]; [left; by eexists|right].
    split; [done|]. exists q'. split; [|done]. case_decide; [by right|done].
Qed.

End Statements.

(** ** Text *)

(** [s.match(/\d+/g)]: the maximal runs of digits. *)
Fixpoint digit_runs (cur s : string) : list string :=
  match s with
  | EmptyString => if bool_decide (cur = "") then [] else [cur]
  | String c s =>
      if is_digit c then digit_runs (cur +:+ String c "") s
      else if bool_decide (cur = "") then digit_runs "" s else cur :: digit_runs "" s
  end.

(** [pg_get_expr(child.relpartbound, child.oid)] *)
Definition partition_bounds (p : partition) : string :=
  "FOR VALUES FROM ('" +:+ toString (p_from p) +:+ "') TO ('" +:+ toString (p_to p) +:+ "')".

(** [bounds.match(/\d+/g)[0]] and [[1]] *)
Definition bounds_match (bounds : string) : option (string * string) :=
  match digit_runs "" bounds with a :: b :: _ => Some (a, b) | _ => None end.

(** [name.split('_').pop()] *)
Fixpoint split_pop (cur s : string) : string :=
  match s with
  | EmptyString => cur
  | String c s => if bool_decide (c = "_"%char) then split_pop "" s else split_pop (cur +:+ String c "") s
  end.

(** [s LIKE p]: [%] stands for any string and [_] for any character. *)
Fixpoint like (p s : string) : bool :=
  match p with
  | EmptyString => bool_decide (s = "")
  | String "%" p =>
      (fix any (s : string) : bool :=
         like p s || match s with String _ s => any s | EmptyString => false end) s
  | String "_" p => match s with String _ s => like p s | EmptyString => false end
  | String c p => match s with String d s => bool_decide (c = d) && like p s | EmptyString => false end
  end.

Lemma append_cons c s1 s2 : (String c s1 +:+ s2)%string = String c (s1 +:+ s2).
Proof. done. Qed.

Lemma append_nil_l s : ("" +:+ s)%string = s.
Proof. done. Qed.

Lemma append_nil_r s : (s +:+ "")%string = s.
Proof. induction s as [|c s IH]; [done|]. by rewrite append_cons, IH. Qed.

Lemma append_assoc s1 s2 s3 : ((s1 +:+ s2) +:+ s3)%string = (s1 +:+ (s2 +:+ s3))%string.
Proof. induction s1 as [|c s1 IH]; [done|]. by rewrite !append_cons, IH. Qed.

Lemma digit_runs_digits d cur s :
  all_digits d = true → digit_runs cur (d +:+ s) = digit_runs (cur +:+ d) s.
Proof.
  revert cur. induction d as [|c d IH]; intros cur.
  - by rewrite append_nil_r.
  - intros [Hc Hd]%andb_true_iff. rewrite append_cons. simpl.
    rewrite Hc, IH by done. by rewrite append_assoc.
Qed.

Lemma toString_digits z : 0 <= z → all_digits (toString z) = true.
Proof.
  intros Hz. unfold toString, print_nat. rewrite (proj2 (Z.ltb_ge z 0)) by lia.
  by apply print_digits_all.
Qed.

Lemma bounds_match_bounds p :
  0 <= p_from p → 0 <= p_to p →
  bounds_match (partition_bounds p) = Some (toString (p_from p), toString (p_to p)).
Proof.
  intros Hf Ht. unfold bounds_match, partition_bounds. rewrite !append_cons, append_nil_l. simpl.
  rewrite (digit_runs_digits (toString (p_from p))) by by apply toString_digits.
  rewrite !append_nil_l. simpl.
  rewrite bool_decide_false by apply toString_nonempty. simpl.
  rewrite (digit_runs_digits (toString (p_to p))) by by apply toString_digits. simpl.
  by rewrite bool_decide_false by apply toString_nonempty.
Qed.

Lemma split_pop_last cur a b :
  no_underscore b = true → split_pop cur (a +:+ String "_" b) = b.
Proof.
  intros Hb.
  assert (∀ b cur, no_underscore b = true → split_pop cur b = (cur +:+ b)%string) as Hplain.
  { clear. induction b as [|c b IH]; intros cur; [by rewrite append_nil_r|]. simpl.
    intros [Hc Hb]%andb_true_iff. rewrite negb_true_iff, bool_decide_eq_false in Hc.
    rewrite bool_decide_false by done. rewrite IH by done. by rewrite append_assoc. }
  revert cur. induction a as [|c a IH]; intros cur.
  - rewrite append_nil_l. simpl. by rewrite Hplain.
  - rewrite append_cons. simpl. case_bool_decide; apply IH.
Qed.
