(* ===== verification/Partitions.v ===== *)
(** * Creation of partitions

    Six tables are partitioned by ranges of an id (the blocks by height), and
    each has a job that runs every few seconds and attaches the next partition
    when the ids have passed the middle of the current one:
    [services/job/create_event_partition.service.ts],
    [create_transaction_partition], [create_transaction_message_partition],
    [create_block_partition], [services/evm/job/create_evm_event_partition]
    and [create_evm_transaction_partition].  The six services have the same
    three functions over another table; [Section Job] has them for a
    [table_job] and the Modules at the end of the file instantiate them.

    [Module EventAttr] is the seventh table, [event_attribute], which is
    partitioned by height and kept ahead of the block crawler by a pair of
    jobs ([create_event_attr_partition.service.ts]).

    The theorems: what one run does; the partitions tile the ids and the job
    never fails; no row misses its partition as long as the ids grow by at
    most half a partition between two runs. *)
From S2P Require Import Prelude JsNum Checkpoint Catalog.

(** ** The jobs *)

(** The table, its ordered column, and [step] of its section in
    [config.json]. *)
Record table_job := TableJob { tj_table : string; tj_key : string; tj_step : Z }.

Record partition_info := PartitionInfo {
  pi_from : Z;              (** [fromEventId], a decimal string in the code *)
  pi_to : Z;
  pi_name : string
}.

(** [`event_partition_${from}_${to}`] *)
Definition partition_name (table : string) (from to : Z) : string :=
  table +:+ "_partition_" +:+ toString from +:+ "_" +:+ toString to.

(** All rows of a partitioned table. *)
Definition table_rows (table : string) (c : catalog) : list row :=
  children table c ≫= p_rows.

Section Job.
Context `{!Identifiers} (j : table_job).

(** [Event.query().limit(1).orderBy('id', 'DESC').first()], as far as the job
    reads it: the largest id. *)
Definition latest_key (c : catalog) : option Z := max_col (tj_key j) (table_rows (tj_table j) c).

(** [Math.floor(BigNumber(id).div(step).toNumber()) + 1] is computed on exact
    quotients: ids are below 2^53. *)
Definition createPartitionName (latest : option Z) (c : catalog) : option partition_info :=
  match latest with
  | None => None
  | Some id =>
      if 2 * (id mod tj_step j) <? tj_step j then None else
      let stepMultiple := id / tj_step j + 1 in
      let from := tj_step j * stepMultiple in
      let to := from + tj_step j in
      let partitionName := partition_name (tj_table j) from to in
      if exists_child partitionName c then None
      else Some (PartitionInfo from to partitionName)
  end.

Definition createPartitionByPartitionInfo (info : partition_info) : io catalog () :=
  commit (λ c,
    c ← create_table (pi_name info) c;
    attach_partition (tj_table j) (pi_name info) (pi_from info) (pi_to info) c).

Definition jobCreatePartition : io catalog bool :=
  latest ← query latest_key;
  info ← query (createPartitionName latest);
  match info with
  | None => mret false
  | Some info => createPartitionByPartitionInfo info;; mret true
  end.

End Job.

(** ** The six services *)
Module Event.
Definition job := TableJob "event" "id" 200000000.
Definition createPartitionName `{!Identifiers} := createPartitionName job.
Definition createPartitionByPartitionInfo `{!Identifiers} := createPartitionByPartitionInfo job.
Definition jobCreateEventPartition `{!Identifiers} := jobCreatePartition job.
End Event.

Module Transaction.
Definition job := TableJob "transaction" "id" 100000000.
Definition createPartitionName `{!Identifiers} := createPartitionName job.
Definition createPartitionByPartitionInfo `{!Identifiers} := createPartitionByPartitionInfo job.
Definition jobCreateTransactionPartition `{!Identifiers} := jobCreatePartition job.
End Transaction.

Module TransactionMessage.
Definition job := TableJob "transaction_message" "id" 100000000.
Definition createPartitionName `{!Identifiers} := createPartitionName job.
Definition createPartitionByPartitionInfo `{!Identifiers} := createPartitionByPartitionInfo job.
Definition jobCreateTransactionMessagePartition `{!Identifiers} := jobCreatePartition job.
End TransactionMessage.

Module Block.
Definition job := TableJob "block" "height" 100000000.
Definition createPartitionName `{!Identifiers} := createPartitionName job.
Definition createPartitionByPartitionInfo `{!Identifiers} := createPartitionByPartitionInfo job.
Definition jobCreateBlockPartition `{!Identifiers} := jobCreatePartition job.
End Block.

Module EvmEvent.
Definition job := TableJob "evm_event" "id" 100000000.
Definition createPartitionName `{!Identifiers} := createPartitionName job.
Definition createPartitionByPartitionInfo `{!Identifiers} := createPartitionByPartitionInfo job.
Definition jobCreateEvmEventPartition `{!Identifiers} := jobCreatePartition job.
End EvmEvent.

Module EVMTransaction.
Definition job := TableJob "evm_transaction" "id" 100000000.
Definition createPartitionName `{!Identifiers} := createPartitionName job.
Definition createPartitionByPartitionInfo `{!Identifiers} := createPartitionByPartitionInfo job.
Definition jobCreateEVMTransactionPartition `{!Identifiers} := jobCreatePartition job.
End EVMTransaction.

Definition table_jobs : list table_job :=
  [Event.job; Transaction.job; TransactionMessage.job; Block.job; EvmEvent.job; EVMTransaction.job].

(** ** Names *)
Lemma length_app s1 s2 : String.length (s1 +:+ s2) = (String.length s1 + String.length s2)%nat.
Proof. induction s1 as [|c s1 IH]; [done|]. rewrite append_cons. simpl. by rewrite IH. Qed.

Lemma print_digits_length fuel n acc d :
  0 <= n < 10 ^ Z.of_nat d → (0 < d)%nat →
  (String.length (print_digits fuel n acc) ≤ d + String.length acc)%nat.
Proof.
  revert n acc d. induction fuel as [|fuel IH]; intros n acc d Hn Hd; simpl; [lia|].
  destruct (Z.ltb_spec n 10) as [Hlt|Hge]; simpl; [lia|].
  destruct d as [|[|d]]; [lia|change (10 ^ Z.of_nat 1) with 10 in Hn; lia|].
  etransitivity; [apply (IH _ _ (S d)); [|lia]|simpl; lia].
  rewrite Nat2Z.inj_succ, Z.pow_succ_r in Hn by lia.
  split; [apply Z.div_pos; lia|apply Z.div_lt_upper_bound; lia].
Qed.

Lemma toString_length z d :
  0 <= z < 10 ^ Z.of_nat d → (0 < d)%nat → (String.length (toString z) ≤ d)%nat.
Proof.
  intros Hz Hd. unfold toString, print_nat. rewrite (proj2 (Z.ltb_ge z 0)) by lia.
  pose proof (print_digits_length (print_fuel z) z "" d Hz Hd) as H. by rewrite Nat.add_0_r in H.
Qed.

Lemma partition_name_length table from to :
  0 <= from < 10 ^ 16 → 0 <= to < 10 ^ 16 →
  (String.length (partition_name table from to) ≤ String.length table + 44)%nat.
Proof.
  intros Hf Ht. unfold partition_name. rewrite !length_app. simpl.
  pose proof (toString_length from 16 Hf ltac:(lia)).
  pose proof (toString_length to 16 Ht ltac:(lia)). lia.
Qed.

Lemma partition_name_inj table from to from' to' :
  partition_name table from to = partition_name table from' to' → from = from' ∧ to = to'.
Proof.
  unfold partition_name. intros H.
  apply (inj (String.append table)), (inj (String.append "_partition_")) in H.
  apply key2_inj in H as [->%toString_inj ->%toString_inj]; auto using toString_no_underscore.
Qed.

Lemma exists_child_true `{!Identifiers} name c :
  exists_child name c = true ↔ ∃ p, p ∈ parts c ∧ p_name p = ident name.
Proof.
  unfold exists_child. rewrite existsb_exists. setoid_rewrite bool_decide_eq_true.
  split; intros (p & Hp & Hn); exists p; (split; [by apply list_elem_of_In|done]).
Qed.

Lemma elem_of_children table c p : p ∈ children table c ↔ p ∈ parts c ∧ p_parent p = table.
Proof. unfold children. rewrite list_elem_of_filter. naive_solver. Qed.

Lemma existsb_false {A} (f : A → bool) (l : list A) :
  existsb f l = false ↔ ∀ x, x ∈ l → f x = false.
Proof.
  rewrite <-not_true_iff_false, existsb_exists. split.
  - intros H x Hx. destruct (f x) eqn:Hf; [|done]. destruct H. exists x.
    split; [by apply list_elem_of_In|done].
  - intros H (x & Hx%list_elem_of_In & Hf). by rewrite H in Hf.
Qed.

(** ** Partitions that tile the ids

    The partitions of table [j] are the ranges [step*k, step*(k+1)) for
    [0 <= k < n], their tables are named after the ranges, and no other table
    has such a name. *)
Section Tiled.
Context `{!Identifiers} (j : table_job).

Definition nth_name (k : Z) : string :=
  partition_name (tj_table j) (tj_step j * k) (tj_step j * k + tj_step j).
Definition in_nth (k : Z) (p : partition) : Prop :=
  p_from p = tj_step j * k ∧ p_to p = tj_step j * k + tj_step j ∧ p_name p = ident (nth_name k).

Record tiled (n : Z) (c : catalog) : Prop := {
  tiled_count : 0 <= n;
  tiled_sound p : p ∈ children (tj_table j) c → ∃ k, 0 <= k < n ∧ in_nth k p;
  tiled_complete k : 0 <= k < n → ∃ p, p ∈ children (tj_table j) c ∧ in_nth k p;
  tiled_names k p : 0 <= k → p ∈ parts c → p_name p = ident (nth_name k) →
    p_parent p = tj_table j;
  tiled_relations k : n <= k → tj_step j * (k + 1) < 10 ^ 16 → ident (nth_name k) ∉ relations c;
  tiled_listed p : p ∈ parts c → p_name p ∈ relations c;
  tiled_rows p r : p ∈ children (tj_table j) c → r ∈ p_rows p → covers (tj_key j) r p = true
}.

Hypothesis step_pos : 0 < tj_step j.
Hypothesis table_short : (String.length (tj_table j) ≤ 19)%nat.

(** The ids of the table are below the end of the last partition. *)
Lemma tiled_latest n c id :
  tiled n c → latest_key j c = Some id → 0 <= id < tj_step j * n.
Proof.
  intros Ht [(r & Hr & Hid) _]%max_col_spec.
  apply list_elem_of_bind in Hr as (p & Hr & Hp).
  destruct (tiled_sound _ _ Ht _ Hp) as (k & Hk & Hf & Hto & _).
  pose proof (tiled_rows _ _ Ht _ _ Hp Hr) as Hc. unfold covers in Hc. rewrite Hid in Hc. nia.
Qed.

Lemma nth_name_ident k :
  0 <= k → tj_step j * (k + 1) < 10 ^ 16 → ident (nth_name k) = nth_name k.
Proof.
  intros Hk Hb. apply ident_short. etransitivity; [apply partition_name_length; nia|lia].
Qed.

Lemma nth_name_inj k k' :
  0 <= k → 0 <= k' → tj_step j * (k + 1) < 10 ^ 16 → tj_step j * (k' + 1) < 10 ^ 16 →
  ident (nth_name k) = ident (nth_name k') → k = k'.
Proof.
  intros ????. rewrite !nth_name_ident by done. intros [Heq _]%partition_name_inj. nia.
Qed.

(** Attaching the next partition succeeds, and the partitions tile one range
    more. *)
Lemma attach_next n c :
  tiled n c → tj_step j * (n + 1) < 10 ^ 16 →
  ∃ c', createPartitionByPartitionInfo j
          (PartitionInfo (tj_step j * n) (tj_step j * n + tj_step j) (nth_name n)) c = (c', Ok tt) ∧
    parts c' = parts c ++ [Partition (tj_table j) (ident (nth_name n)) (tj_step j * n)
                             (tj_step j * n + tj_step j) [] []] ∧
    tiled (n + 1) c'.
Proof.
  intros Ht Hb. pose proof (tiled_count _ _ Ht) as Hn.
  unfold createPartitionByPartitionInfo, commit, create_table, attach_partition. simpl.
  rewrite bool_decide_false by (apply (tiled_relations _ _ Ht); [lia|done]). simpl.
  rewrite (proj2 (Z.leb_gt _ _)) by lia.
  change (children _ _) with (children (tj_table j) c).
  rewrite (proj2 (existsb_false _ _)).
  2:{ intros p Hp. destruct (tiled_sound _ _ Ht _ Hp) as (k & Hk & Hf & Hto & _).
      unfold overlaps. nia. }
  eexists. split; [done|]. split; [done|].
  assert (∀ p', p' ∈ children (tj_table j) {| relations := ident (nth_name n) :: relations c;
      parts := parts c ++ [Partition (tj_table j) (ident (nth_name n)) (tj_step j * n)
                             (tj_step j * n + tj_step j) [] []] |}
    ↔ p' ∈ children (tj_table j) c ∨ p' = Partition (tj_table j) (ident (nth_name n)) (tj_step j * n)
                             (tj_step j * n + tj_step j) [] []) as Hch.
  { intros p'. rewrite !elem_of_children. simpl. rewrite elem_of_app, list_elem_of_singleton.
    naive_solver. }
  split.
  - lia.
  - intros p [Hp| ->]%Hch.
    + destruct (tiled_sound _ _ Ht _ Hp) as (k & Hk & ?). exists k. split; [lia|done].
    + exists n. split; [lia|]. by split_and!.
  - intros k Hk. setoid_rewrite Hch. destruct (decide (k = n)) as [->|].
    + eexists. split; [by right|]. by split_and!.
    + destruct (tiled_complete _ _ Ht k) as (p & ? & ?); [lia|]. eauto.
  - intros k p Hk. simpl. rewrite elem_of_app, list_elem_of_singleton.
    intros [Hp| ->]; [by apply (tiled_names _ _ Ht)|done].
  - intros k Hk Hkb. simpl. rewrite not_elem_of_cons. split.
    + intros ?%nth_name_inj; lia.
    + apply (tiled_relations _ _ Ht); [lia|done].
  - intros p. simpl. rewrite elem_of_app, list_elem_of_singleton, elem_of_cons.
    intros [Hp| ->]; [right; by apply (tiled_listed _ _ Ht)|by left].
  - intros p r [Hp| ->]%Hch; [by apply (tiled_rows _ _ Ht)|]. by intros ?%elem_of_nil.
Qed.

(** Does the run of the job attach a partition? *)
Definition attaches (n : Z) (latest : option Z) : bool :=
  match latest with
  | Some id => (tj_step j <=? 2 * (id mod tj_step j)) && (id / tj_step j + 1 =? n)
  | None => false
  end.

Lemma exists_child_nth n c k :
  tiled n c → 0 <= k → tj_step j * (k + 1) < 10 ^ 16 → exists_child (nth_name k) c = (k <? n).
Proof.
  intros Ht Hk Hb. destruct (Z.ltb_spec k n) as [Hlt|Hge].
  - apply exists_child_true. destruct (tiled_complete _ _ Ht k) as (p & Hp & _ & _ & Hname); [lia|].
    exists p. split; [|done]. by apply elem_of_children in Hp as [? _].
  - apply not_true_iff_false. rewrite exists_child_true. intros (p & Hp & Hname).
    apply (tiled_relations _ _ Ht k Hge Hb). rewrite <-Hname. by apply (tiled_listed _ _ Ht).
Qed.

(** One run of the job. *)
Lemma job_run_tiled n c :
  tiled n c → tj_step j * (n + 1) < 10 ^ 16 →
  let b := attaches n (latest_key j c) in
  ∃ c', jobCreatePartition j c = (c', Ok b) ∧ tiled (if b then n + 1 else n) c' ∧
    parts c' = parts c ++ (if b then
      [Partition (tj_table j) (ident (nth_name n)) (tj_step j * n) (tj_step j * n + tj_step j) [] []]
      else []) ∧ (b = false → c' = c).
Proof.
  intros Ht Hb. simpl. unfold jobCreatePartition, query. unfold mbind at 1, io_bind at 1.
  unfold mbind at 1, io_bind at 1. unfold createPartitionName.
  destruct (latest_key j c) as [id|] eqn:Hid; simpl; [|exists c; by rewrite app_nil_r].
  apply (tiled_latest n) in Hid; [|done].
  assert (0 <= id / tj_step j < n) as Hq
    by (split; [apply Z.div_pos; lia|apply Z.div_lt_upper_bound; lia]).
  destruct (Z.ltb_spec (2 * (id mod tj_step j)) (tj_step j)) as [Hlt|Hge].
  { rewrite (proj2 (Z.leb_gt _ _)) by done. simpl. exists c. by rewrite app_nil_r. }
  rewrite (proj2 (Z.leb_le _ _)) by done. simpl.
  fold (nth_name (id / tj_step j + 1)).
  rewrite (exists_child_nth n) by (done || lia || nia).
  destruct (Z.eqb_spec (id / tj_step j + 1) n) as [Heq|Hne].
  - rewrite Heq, (proj2 (Z.ltb_ge _ _)) by lia.
    destruct (attach_next n c Ht Hb) as (c' & Hrun & Hparts & Ht').
    exists c'. unfold mbind, io_bind. by rewrite Hrun.
  - rewrite (proj2 (Z.ltb_lt _ _)) by lia. exists c. by rewrite app_nil_r.
Qed.

(** An insertion keeps the tiling; it fails only for an id outside it, or at
    a check. *)
Lemma tiled_insert n c r c' :
  tiled n c → insert_row (tj_table j) (tj_key j) r c = Ok c' → tiled n c'.
Proof.
  intros Ht (l1 & p & l2 & Hparts & Hpar & Hcov & _ & ->)%insert_row_Ok.
  assert (∀ p', p' ∈ l1 ++ add_row r p :: l2 →
    ∃ q, q ∈ parts c ∧ p_parent p' = p_parent q ∧ p_from p' = p_from q ∧ p_to p' = p_to q ∧
      p_name p' = p_name q ∧ (p' = q ∨ p' = add_row r p ∧ q = p)) as Hback.
  { intros p'. rewrite Hparts. setoid_rewrite elem_of_app. setoid_rewrite elem_of_cons.
    intros [?|[->|?]]; [exists p'|exists p|exists p']; naive_solver. }
  split.
  - apply (tiled_count _ _ Ht).
  - intros p' [Hp' Hpp]%elem_of_children. destruct (Hback _ Hp') as (q & Hq & E1 & E2 & E3 & E4 & _).
    destruct (tiled_sound _ _ Ht q) as (k & Hk & H1 & H2 & H3).
    { apply elem_of_children. split; [done|congruence]. }
    exists k. split; [done|]. unfold in_nth. by rewrite E2, E3, E4.
  - intros k Hk. destruct (tiled_complete _ _ Ht k Hk) as (q & [Hq Hqp]%elem_of_children & H1 & H2 & H3).
    rewrite Hparts, elem_of_app, elem_of_cons in Hq. setoid_rewrite elem_of_children. simpl.
    setoid_rewrite elem_of_app. setoid_rewrite elem_of_cons.
    destruct Hq as [Hq|[->|Hq]]; [exists q|exists (add_row r p)|exists q]; unfold in_nth; naive_solver.
  - intros k p' Hk Hp'. destruct (Hback _ Hp') as (q & Hq & -> & _ & _ & -> & _).
    by apply (tiled_names _ _ Ht).
  - apply (tiled_relations _ _ Ht).
  - intros p' Hp'. destruct (Hback _ Hp') as (q & Hq & _ & _ & _ & -> & _).
    by apply (tiled_listed _ _ Ht).
  - intros p' r' [Hp' Hpp]%elem_of_children Hr'.
    destruct (Hback _ Hp') as (q & Hq & E1 & E2 & E3 & _ & [->|[-> ->]]).
    + apply (tiled_rows _ _ Ht); [by apply elem_of_children|done].
    + simpl in Hr'. apply elem_of_app in Hr' as [Hr'| ->%list_elem_of_singleton]; [|done].
      apply (tiled_rows _ _ Ht p); [by apply elem_of_children|done].
Qed.

Lemma insert_row_rows r c c' :
  insert_row (tj_table j) (tj_key j) r c = Ok c' →
  ∀ r', r' ∈ table_rows (tj_table j) c' ↔ r' = r ∨ r' ∈ table_rows (tj_table j) c.
Proof.
  intros (l1 & p & l2 & Hparts & Hpar & _ & _ & ->)%insert_row_Ok r'.
  unfold table_rows. rewrite !list_elem_of_bind. setoid_rewrite elem_of_children.
  simpl. rewrite Hparts. setoid_rewrite elem_of_app. setoid_rewrite elem_of_cons. split.
  - intros (q & Hr' & [[?|[->|?]] ?]); [right; eauto 10| |right; eauto 10].
    simpl in Hr'. apply elem_of_app in Hr' as [?|?%list_elem_of_singleton]; [right; eauto 10|by left].
  - intros [->|(q & Hr' & [[?|[->|?]] ?])]; [|eauto 10| |eauto 10]; exists (add_row r p);
      (split; [|by auto]); simpl; apply elem_of_app; [right; by apply list_elem_of_singleton|by left].
Qed.

Lemma insert_row_latest r c c' id :
  insert_row (tj_table j) (tj_key j) r c = Ok c' → r !! tj_key j = Some id →
  latest_key j c' = Some (match latest_key j c with Some m => Z.max m id | None => id end).
Proof.
  intros Hrows Hid. pose proof (insert_row_rows _ _ _ Hrows) as Hrow. clear Hrows.
  unfold latest_key. apply max_col_spec. setoid_rewrite Hrow. split.
  - destruct (max_col _ (table_rows _ c)) as [m|] eqn:Hm; [|eauto].
    apply max_col_spec in Hm as [(r' & Hr' & Hrm) _].
    destruct (Z.max_spec m id) as [[_ ->]|[_ ->]]; eauto.
  - intros r' x [->|Hr'] Hx; [simplify_eq; destruct (max_col _ _); lia|].
    destruct (max_col _ (table_rows _ c)) as [m|] eqn:Hm.
    + apply max_col_spec in Hm as [_ Hm]. specialize (Hm _ _ Hr' Hx). lia.
    + rewrite max_col_None in Hm. by rewrite (Hm r') in Hx.
Qed.

(** ** Rows between the runs of the job

    An epoch is what happens between two runs: some rows are inserted, then
    the job runs.  A row that a check refuses is not stored, and its job has
    failed; the state keeps the rows that were stored and those that were
    refused.  Any other error stops the run. *)
Record Inserted := { in_catalog : catalog; in_stored : list row; in_refused : list row }.
Definition start (c : catalog) : Inserted := {| in_catalog := c; in_stored := []; in_refused := [] |}.
Definition try_insert (x : Inserted) (r : row) : res Inserted :=
  match insert_row (tj_table j) (tj_key j) r (in_catalog x) with
  | Ok c => Ok {| in_catalog := c; in_stored := in_stored x ++ [r]; in_refused := in_refused x |}
  | Throw e =>
      if bool_decide (e = check_violated)
      then Ok {| in_catalog := in_catalog x; in_stored := in_stored x; in_refused := in_refused x ++ [r] |}
      else Throw e
  end.
Definition insert_rows : Inserted → list row → res Inserted := forEachM try_insert.
Definition run_job (x : Inserted) : res Inserted :=
  '(_) ← (jobCreatePartition j (in_catalog x)).2;
  Ok {| in_catalog := (jobCreatePartition j (in_catalog x)).1; in_stored := in_stored x; in_refused := in_refused x |}.
Definition epoch (x : Inserted) (rs : list row) : res Inserted := x ← insert_rows x rs; run_job x.

(** The largest id of a stored row, or -1. *)
Definition latest_or (c : catalog) : Z := default (-1) (latest_key j c).

(** The ids of an epoch are above [m], the largest id stored before it, by at
    most half a partition. *)
Definition paced_row (m : Z) (r : row) : Prop :=
  ∃ id, r !! tj_key j = Some id ∧ m < id ∧ 2 * (id - m) <= tj_step j ∧ id < 10 ^ 15.
Fixpoint paced (x : Inserted) (epochs : list (list row)) : Prop :=
  match epochs with
  | [] => True
  | rs :: epochs => Forall (paced_row (latest_or (in_catalog x))) rs ∧ ∀ x', epoch x rs = Ok x' → paced x' epochs
  end.

(** A check of the partition of the row refuses it. *)
Definition refused_by (c : catalog) (r : row) : Prop :=
  ∃ p, p ∈ children (tj_table j) c ∧ covers (tj_key j) r p = true ∧
    forallb (λ nc, accepts nc.2 r) (p_checks p) = false.

(** The checks of [c'] are those of [c]. *)
Definition same_checks (c c' : catalog) : Prop :=
  ∀ p, p ∈ children (tj_table j) c' → p_checks p = [] ∨
    ∃ q, q ∈ children (tj_table j) c ∧ p_from q = p_from p ∧ p_to q = p_to p ∧ p_checks q = p_checks p.

Lemma same_checks_insert c0 r c c' :
  same_checks c0 c → insert_row (tj_table j) (tj_key j) r c = Ok c' → same_checks c0 c'.
Proof.
  intros Hs (l1 & p & l2 & Hparts & Hpar & _ & _ & ->)%insert_row_Ok q [Hq Hqp]%elem_of_children.
  simpl in Hq.
  assert (∀ p', p' ∈ l1 ++ p :: l2 → p_parent p' = tj_table j → p' ∈ children (tj_table j) c) as Hin.
  { intros p' Hp' Hpp. apply elem_of_children. by rewrite Hparts. }
  apply elem_of_app in Hq as [Hq|[->|Hq]%elem_of_cons]; [|apply (Hs p), Hin; [|done]|];
    try (apply (Hs q), Hin; [|done]); rewrite elem_of_app, elem_of_cons; auto.
Qed.

Lemma same_checks_refused c0 c r : same_checks c0 c → refused_by c r → refused_by c0 r.
Proof.
  intros Hs (p & Hp & Hcov & Hck). destruct (Hs p Hp) as [Hnil|(q & Hq & Hf & Ht & Hc)].
  - by rewrite Hnil in Hck.
  - exists q. rewrite Hc. split; [done|]. split; [|done]. unfold covers in *. by rewrite Hf, Ht.
Qed.

(** What the inserted rows have become, since the catalog [c0]. *)
Record settled (c0 : catalog) (rs : list row) (x : Inserted) : Prop := {
  se_all : rs ≡ₚ in_stored x ++ in_refused x;
  se_rows r : r ∈ table_rows (tj_table j) (in_catalog x) ↔ r ∈ in_stored x ∨ r ∈ table_rows (tj_table j) c0;
  se_refused : Forall (refused_by c0) (in_refused x);
  se_checks : same_checks c0 (in_catalog x)
}.

Lemma settled_start c : settled c [] (start c).
Proof.
  split; simpl; [done| |constructor|].
  - intros r. rewrite elem_of_nil. naive_solver.
  - intros p Hp. right. by exists p.
Qed.

Lemma try_insert_paced c0 seen n x r m :
  tiled n (in_catalog x) → settled c0 seen x → -1 <= m → 2 * m + tj_step j < 2 * (tj_step j * n) → paced_row m r →
  ∃ x', try_insert x r = Ok x' ∧ tiled n (in_catalog x') ∧ settled c0 (seen ++ [r]) x' ∧
    latest_or (in_catalog x) <= latest_or (in_catalog x') < Z.max (latest_or (in_catalog x) + 1) (10 ^ 15).
Proof.
  intros Ht [Hall Hrows Href Hck] Hm Hroom (id & Hid & Hlo & Hhi & Hbound).
  destruct (tiled_complete _ _ Ht (id / tj_step j)) as (p & Hp & Hf & Hto & _).
  { split; [apply Z.div_pos; lia|apply Z.div_lt_upper_bound; lia]. }
  assert (covers (tj_key j) r p = true) as Hcov.
  { unfold covers. rewrite Hid, Hf, Hto.
    pose proof (Z.div_mod id (tj_step j)). pose proof (Z.mod_pos_bound id (tj_step j)). lia. }
  unfold try_insert. destruct (insert_row_cases _ _ _ _ _ Hp Hcov) as [[c1 Hc1]|[-> Hq]].
  - rewrite Hc1. eexists. split; [done|]. simpl. split; [by eapply tiled_insert|]. split.
    + split; simpl.
      * rewrite Hall, <-!app_assoc. f_equiv. apply Permutation_app_comm.
      * intros r'. rewrite (insert_row_rows _ _ _ Hc1), Hrows, elem_of_app, list_elem_of_singleton. naive_solver.
      * done.
      * by eapply same_checks_insert.
    + unfold latest_or. rewrite (insert_row_latest _ _ _ _ Hc1 Hid). simpl.
      destruct (latest_key j (in_catalog x)); simpl; lia.
  - rewrite bool_decide_eq_true_2 by done. eexists. split; [done|]. simpl. split; [done|]. split; [|lia].
    split; simpl; [|done| |done].
    + by rewrite Hall, app_assoc.
    + apply Forall_app. split; [done|]. constructor; [|constructor]. by apply (same_checks_refused c0 _ _ Hck).
Qed.

Lemma insert_rows_paced c0 seen n x rs m :
  tiled n (in_catalog x) → settled c0 seen x → -1 <= m → 2 * m + tj_step j < 2 * (tj_step j * n) →
  Forall (paced_row m) rs → latest_or (in_catalog x) < 10 ^ 15 →
  ∃ x', insert_rows x rs = Ok x' ∧ tiled n (in_catalog x') ∧ settled c0 (seen ++ rs) x' ∧
    latest_or (in_catalog x') < 10 ^ 15.
Proof.
  intros Ht Hs Hm Hroom Hrs. revert seen x Ht Hs. induction Hrs as [|r rs Hr _ IH]; intros seen x Ht Hs Hlt.
  { exists x. by rewrite app_nil_r. }
  destruct (try_insert_paced c0 seen n x r m Ht Hs Hm Hroom Hr) as (x1 & Hx1 & Ht1 & Hs1 & Hl1).
  destruct (IH (seen ++ [r]) x1 Ht1 Hs1 ltac:(lia)) as (x' & Hx' & Ht' & Hs' & Hl').
  exists x'. unfold insert_rows in *. simpl. rewrite Hx1. simpl. by rewrite <-app_assoc in Hs'.
Qed.

(** The room above the largest id that a run of the job leaves. *)
Lemma room_after n c :
  tiled n c → -2 + tj_step j < 2 * (tj_step j * n) → tj_step j * (n + 1) < 10 ^ 16 →
  tj_step j < 10 ^ 15 → latest_or c < 10 ^ 15 →
  let n' := if attaches n (latest_key j c) then n + 1 else n in
  tj_step j * (n' + 1) < 10 ^ 16 ∧ 2 * latest_or c + tj_step j < 2 * (tj_step j * n').
Proof.
  intros Ht Hroom Hn Hs. unfold latest_or, attaches.
  destruct (latest_key j c) as [id|] eqn:Hid; simpl; [|lia].
  apply (tiled_latest n) in Hid; [|done]. intros Hlt.
  assert (id / tj_step j < n) by (apply Z.div_lt_upper_bound; lia).
  pose proof (Z.div_mod id (tj_step j)) as Hdm. pose proof (Z.mod_pos_bound id (tj_step j)) as Hmod.
  destruct (Z.leb_spec (tj_step j) (2 * (id mod tj_step j))); simpl; [|nia].
  destruct (Z.eqb_spec (id / tj_step j + 1) n); nia.
Qed.

(** A run of the job keeps the rows and adds partitions without checks. *)
Lemma run_job_settled c0 seen n x :
  tiled n (in_catalog x) → settled c0 seen x → tj_step j * (n + 1) < 10 ^ 16 →
  let n' := if attaches n (latest_key j (in_catalog x)) then n + 1 else n in
  ∃ x', run_job x = Ok x' ∧ tiled n' (in_catalog x') ∧ settled c0 seen x' ∧
    latest_or (in_catalog x') = latest_or (in_catalog x).
Proof.
  intros Ht [Hall Hr Href Hck] Hn. cbv zeta.
  destruct (job_run_tiled n (in_catalog x) Ht Hn) as (c' & Hrun & Ht' & Hparts & _).
  assert (children (tj_table j) c' = children (tj_table j) (in_catalog x) ++
    (if attaches n (latest_key j (in_catalog x)) then
      [Partition (tj_table j) (ident (nth_name n)) (tj_step j * n) (tj_step j * n + tj_step j) [] []]
      else [])) as Hch.
  { unfold children. rewrite Hparts, filter_app. destruct (attaches _ _); [|done].
    by rewrite (filter_all _ [_]) by by intros p ->%list_elem_of_singleton. }
  assert (table_rows (tj_table j) c' = table_rows (tj_table j) (in_catalog x)) as Htr.
  { unfold table_rows. rewrite Hch, bind_app. destruct (attaches _ _); by rewrite app_nil_r. }
  unfold run_job. rewrite Hrun. eexists. split; [done|]. simpl. split; [done|].
  split; [|by unfold latest_or, latest_key; rewrite Htr].
  split; simpl; [done|intros r; by rewrite Htr|done|].
  intros p. rewrite Hch. intros [Hp|Hp]%elem_of_app; [by apply Hck|].
  destruct (attaches _ _); [|by apply elem_of_nil in Hp]. apply list_elem_of_singleton in Hp as ->. by left.
Qed.

(** An epoch succeeds and leaves room for the next one. *)
Lemma epoch_paced c0 seen n x rs :
  tiled n (in_catalog x) → settled c0 seen x → tj_step j * (n + 1) < 10 ^ 16 → tj_step j < 10 ^ 15 →
  latest_or (in_catalog x) < 10 ^ 15 → 2 * latest_or (in_catalog x) + tj_step j < 2 * (tj_step j * n) →
  Forall (paced_row (latest_or (in_catalog x))) rs →
  ∃ x' n', epoch x rs = Ok x' ∧ tiled n' (in_catalog x') ∧ settled c0 (seen ++ rs) x' ∧
    tj_step j * (n' + 1) < 10 ^ 16 ∧ latest_or (in_catalog x') < 10 ^ 15 ∧
    2 * latest_or (in_catalog x') + tj_step j < 2 * (tj_step j * n').
Proof.
  intros Ht Hset Hn Hs Hlt Hroom Hrs.
  assert (-1 <= latest_or (in_catalog x)) as Hlow.
  { unfold latest_or. destruct (latest_key j (in_catalog x)) as [id|] eqn:Hid; simpl; [|lia].
    apply (tiled_latest n) in Hid; [lia|done]. }
  destruct (insert_rows_paced c0 seen n x rs (latest_or (in_catalog x))) as (x1 & Hx1 & Ht1 & Hs1 & Hl1); try done.
  destruct (run_job_settled c0 (seen ++ rs) n x1 Ht1 Hs1 Hn) as (x' & Hx' & Ht' & Hs' & Hl').
  destruct (room_after n (in_catalog x1)) as [Hn' Hroom']; [done|lia|done|done|done|].
  exists x', (if attaches n (latest_key j (in_catalog x1)) then n + 1 else n).
  unfold epoch. rewrite Hx1. simpl. rewrite Hx', Hl'. by split_and!.
Qed.

Lemma epochs_paced c0 seen n x epochs :
  tiled n (in_catalog x) → settled c0 seen x → tj_step j * (n + 1) < 10 ^ 16 → tj_step j < 10 ^ 15 →
  latest_or (in_catalog x) < 10 ^ 15 → 2 * latest_or (in_catalog x) + tj_step j < 2 * (tj_step j * n) →
  paced x epochs →
  ∃ x' n', forEachM epoch x epochs = Ok x' ∧ tiled n' (in_catalog x') ∧ settled c0 (seen ++ concat epochs) x'.
Proof.
  revert seen n x. induction epochs as [|rs epochs IH]; intros seen n x Ht Hset Hn Hs Hlt Hroom; simpl.
  { intros _. exists x, n. by rewrite app_nil_r. }
  intros [Hrs Hp].
  destruct (epoch_paced c0 seen n x rs) as (x1 & n1 & Hx1 & Ht1 & Hset1 & Hn1 & Hlt1 & Hroom1); try done.
  destruct (IH (seen ++ rs) n1 x1) as (x' & n' & Hx' & Ht' & Hset'); try done; [by apply Hp|].
  exists x', n'. rewrite Hx1. simpl. by rewrite <-app_assoc in Hset'.
Qed.
End Tiled.

(** ** The partitions of [event_attribute]

    [create_event_attr_partition.service.ts]: one job compares the crawler's
    height with the end of the last partition, which it keeps as a checkpoint,
    and queues a second job that attaches the next partition. *)
Module EventAttr.
Record db := Db { db_catalog : catalog; db_checkpoints : gmap string Z }.
Record config := Config { range : Z; step : Z }.

(** [jobCheckNeedCreateEventAttributePartition] of [config.json]. *)
Definition json : config := Config 100000 10000.

Definition JOB_CREATE_EVENT_ATTR_PARTITION := "job:create-event-attr-partition".

Section Jobs.
Context `{!Identifiers} (cfg : config).

Definition jobCreateEventAttrPartition (payload : Z * Z) : io db () :=
  let '(startBlock, endBlock) := payload in
  let tableName := partition_name "event_attribute" startBlock endBlock in
  commit (λ d,
    c ← create_table tableName (db_catalog d);
    c ← attach_partition "event_attribute" tableName startBlock endBlock c;
    Ok (Db c (match db_checkpoints d !! JOB_CREATE_EVENT_ATTR_PARTITION with
              | Some _ => <[JOB_CREATE_EVENT_ATTR_PARTITION := endBlock]> (db_checkpoints d)
              | None => db_checkpoints d
              end))).

(** The payload of the job it creates, if any. *)
Definition jobCheckIfNeedCreateEventAttrPartition (d : db) : option (Z * Z) :=
  match db_checkpoints d !! CRAWL_BLOCK, db_checkpoints d !! JOB_CREATE_EVENT_ATTR_PARTITION with
  | Some crawled, Some created =>
      if created <=? crawled + range cfg then Some (created, created + step cfg) else None
  | _, _ => None
  end.

(** A tick of the first job, followed by the job it queued. *)
Definition tick : io db () :=
  payload ← query jobCheckIfNeedCreateEventAttrPartition;
  match payload with None => mret tt | Some p => jobCreateEventAttrPartition p end.

(** The crawler has reached height [h] when the tick happens. *)
Definition tick_at (d : db) (h : Z) : res db :=
  let d := Db (db_catalog d) (<[CRAWL_BLOCK := h]> (db_checkpoints d)) in
  '(_) ← (tick d).2; Ok (tick d).1.

(** The partitions cover the heights below the checkpoint [e], and nothing
    above it. *)
Record covered (e : Z) (d : db) : Prop := {
  covered_checkpoint : db_checkpoints d !! JOB_CREATE_EVENT_ATTR_PARTITION = Some e;
  covered_heights h : 0 <= h < e → ∃ p, p ∈ children "event_attribute" (db_catalog d) ∧ p_from p <= h < p_to p;
  covered_end p : p ∈ children "event_attribute" (db_catalog d) → p_to p <= e;
  covered_names from : e <= from → from + step cfg < 10 ^ 16 →
    ident (partition_name "event_attribute" from (from + step cfg)) ∉ relations (db_catalog d)
}.

Hypothesis step_pos : 0 < step cfg.

Lemma tick_unfold d :
  tick d = match jobCheckIfNeedCreateEventAttrPartition d with
           | None => (d, Ok tt) | Some p => jobCreateEventAttrPartition p d end.
Proof.
  unfold tick, query. unfold mbind, io_bind.
  by destruct (jobCheckIfNeedCreateEventAttrPartition d).
Qed.

Lemma attr_name_ne from from' :
  0 <= from < from' → from' + step cfg < 10 ^ 16 →
  ident (partition_name "event_attribute" from' (from' + step cfg))
  ≠ ident (partition_name "event_attribute" from (from + step cfg)).
Proof.
  intros Hf Hb. rewrite !ident_short.
  - intros [? _]%partition_name_inj. lia.
  - etransitivity; [apply partition_name_length; lia|simpl; lia].
  - etransitivity; [apply partition_name_length; lia|simpl; lia].
Qed.

Lemma tick_at_covered e d h :
  0 <= e → e + step cfg < 10 ^ 16 → covered e d → h + range cfg < e + step cfg →
  ∃ d' e', tick_at d h = Ok d' ∧ covered e' d' ∧ h + range cfg < e' ∧ e <= e' <= e + step cfg ∧
    (e' = e ∨ e <= h + range cfg).
Proof.
  intros He Hb [Hcp Hh Hend Hnames] Hgrow. unfold tick_at. rewrite !tick_unfold.
  unfold jobCheckIfNeedCreateEventAttrPartition. simpl.
  rewrite lookup_insert_eq, lookup_insert_ne, Hcp by done. simpl.
  destruct (Z.leb_spec e (h + range cfg)) as [Hle|Hgt]; cycle 1.
  { simpl. eexists _, e. split; [done|]. split_and!; try lia.
    split; simpl; try done. by rewrite lookup_insert_ne. }
  unfold jobCreateEventAttrPartition, commit, create_table, attach_partition. simpl.
  rewrite bool_decide_false by (apply Hnames; lia). simpl.
  rewrite (proj2 (Z.leb_gt _ _)) by lia.
  change (children _ _) with (children "event_attribute" (db_catalog d)).
  rewrite (proj2 (existsb_false _ _)).
  2:{ intros p Hp. specialize (Hend p Hp). unfold overlaps. lia. }
  simpl. rewrite lookup_insert_ne, Hcp by done.
  eexists _, (e + step cfg). split; [done|]. split_and!; try lia. split; simpl.
  - by rewrite lookup_insert_eq.
  - intros x Hx. setoid_rewrite elem_of_children. simpl. setoid_rewrite elem_of_app.
    destruct (Z.lt_ge_cases x e).
    + destruct (Hh x) as (p & Hp%elem_of_children & ?); [lia|]. exists p. naive_solver.
    + eexists. split; [split; [right; by apply list_elem_of_singleton|done]|]. simpl. lia.
  - intros p [Hp Hpp]%elem_of_children. simpl in Hp.
    apply elem_of_app in Hp as [Hp| ->%list_elem_of_singleton]; [|simpl; lia].
    specialize (Hend p ltac:(by apply elem_of_children)). lia.
  - intros from Hfrom Hfb. rewrite not_elem_of_cons.
    split; [apply attr_name_ne; lia|apply Hnames; lia].
Qed.
(** The crawler advances at most [step] blocks between two ticks. *)
Fixpoint slow (h : Z) (hs : list Z) : Prop :=
  match hs with [] => True | h' :: hs => 0 <= h' <= h + step cfg ∧ h' < 10 ^ 15 ∧ slow h' hs end.

Lemma ticks_covered e d h hs :
  0 <= range cfg < 10 ^ 15 → step cfg < 10 ^ 15 → 0 <= h → h + range cfg < e → e + step cfg < 10 ^ 16 →
  covered e d → slow h hs →
  ∃ d' e', forEachM tick_at d hs = Ok d' ∧ covered e' d' ∧ default h (last hs) + range cfg < e'.
Proof.
  intros Hr Hs. revert e d h. induction hs as [|h' hs IH]; intros e d h Hh Hahead Hb Hcov; simpl.
  { intros _. exists d, e. by split_and!. }
  intros (Hh' & Hlt & Hslow).
  destruct (tick_at_covered e d h') as (d1 & e1 & Hd1 & Hc1 & Ha1 & He1 & Hor); [lia|done|done|lia|].
  destruct (IH e1 d1 h') as (d' & e' & Hd' & Hc' & Ha'); [lia|done|lia|done|done|].
  exists d', e'. rewrite Hd1. simpl. split_and!; try done.
  destruct hs as [|h2 hs]; [done|]. rewrite last_cons_cons in *. 
  destruct (last (h2 :: hs)) eqn:Hl; [done|]. by apply last_None in Hl.
Qed.
End Jobs.

(** The partitions of [event_attribute] stay ahead of the block crawler:
    if the crawler advances at most [step] blocks between two ticks of the
    job, then no tick fails, and after any number of ticks there is a
    partition for every height up to [range] blocks above the crawler's. *)
Theorem attr_partitions_ahead `{!Identifiers} (e h : Z) (hs : list Z) (d : db) :
  0 <= h → h + range json < e → e < 10 ^ 15 → covered json e d → slow json h hs →
  ∃ d', forEachM (tick_at json) d hs = Ok d' ∧
    ∀ x, 0 <= x <= default h (last hs) + range json →
      ∃ p, p ∈ children "event_attribute" (db_catalog d') ∧ p_from p <= x < p_to p.
Proof.
  intros Hh Ha Hb Hc Hs.
  destruct (ticks_covered json ltac:(done) e d h hs) as (d' & e' & Hd' & Hc' & Ha'); try done; try (simpl; lia).
  exists d'. split; [done|]. intros x Hx. apply (covered_heights _ _ _ Hc'). lia.
Qed.
End EventAttr.

(** ** Properties *)

Lemma table_jobs_bounds j :
  j ∈ table_jobs → 0 < tj_step j < 10 ^ 15 ∧ (String.length (tj_table j) ≤ 19)%nat.
Proof.
  unfold table_jobs. rewrite !elem_of_cons, elem_of_nil.
  intros [->|[->|[->|[->|[->|[->|[]]]]]]]; simpl; lia.
Qed.

(** One run of a partition job, on a table whose partitions tile the ids
    [0 .. step*n): the run never fails; it attaches exactly one empty
    partition, the range after the last one, when the largest id is in the
    second half of the last partition, and otherwise it returns false and
    changes nothing.  The partitions tile the ids again afterwards: they do
    not overlap and leave no gap. *)
Theorem partition_job_run `{!Identifiers} (j : table_job) (n : Z) (c : catalog) :
  j ∈ table_jobs → tiled j n c → tj_step j * (n + 1) < 10 ^ 16 →
  ∃ c' b, jobCreatePartition j c = (c', Ok b) ∧
    (b = true ↔ ∃ id, latest_key j c = Some id ∧ tj_step j <= 2 * (id mod tj_step j) ∧
                     id / tj_step j = n - 1) ∧
    (b = false → c' = c) ∧
    (b = true → tiled j (n + 1) c' ∧ parts c' = parts c ++
       [Partition (tj_table j) (ident (nth_name j n)) (tj_step j * n) (tj_step j * (n + 1)) [] []]).
Proof.
  intros [Hstep Hlen]%table_jobs_bounds Ht Hb.
  destruct (job_run_tiled j (proj1 Hstep) Hlen n c Ht Hb) as (c' & Hrun & Ht' & Hparts & Hsame).
  exists c', (attaches j n (latest_key j c)). split_and!; try done.
  - unfold attaches. destruct (latest_key j c) as [id|]; [|naive_solver].
    rewrite andb_true_iff, Z.leb_le, Z.eqb_eq. split.
    + intros [? ?]. exists id. split_and!; [done|done|lia].
    + intros (? & [= <-] & ? & ?). lia.
  - intros Heq. rewrite Heq in Ht', Hparts. split; [done|]. rewrite Hparts. do 2 f_equal. f_equal. lia.
Qed.

(** C30: Between two runs of a partition job the ids of a table may grow by up
    to half a partition above the largest id that is stored: then every row
    finds its partition, whatever the number of runs, and no run of the job
    fails.  A row is stored, or refused by a CHECK of its partition (the
    constraint jobs add these; the partitions this job attaches have none), and
    the table holds exactly the old rows and the stored ones.  So when no
    partition has a CHECK every row is stored. *)
Theorem rows_always_have_a_partition `{!Identifiers} (j : table_job) (n : Z) (c : catalog)
    (epochs : list (list row)) :
  j ∈ table_jobs → tiled j n c → tj_step j * (n + 1) < 10 ^ 16 →
  latest_or j c < 10 ^ 15 → 2 * latest_or j c + tj_step j < 2 * (tj_step j * n) →
  paced j (start c) epochs →
  ∃ x n', forEachM (epoch j) (start c) epochs = Ok x ∧ tiled j n' (in_catalog x) ∧
    concat epochs ≡ₚ in_stored x ++ in_refused x ∧
    (∀ r, r ∈ table_rows (tj_table j) (in_catalog x) ↔ r ∈ in_stored x ∨ r ∈ table_rows (tj_table j) c) ∧
    Forall (refused_by j c) (in_refused x) ∧
    ((∀ p, p ∈ children (tj_table j) c → p_checks p = []) → in_refused x = []).
Proof.
  intros [[? ?] ?]%table_jobs_bounds Ht Hn Hlt Hroom Hp.
  destruct (epochs_paced j ltac:(done) ltac:(done) c [] n (start c) epochs) as (x & n' & Hx & Ht' & [Hperm Hrows Href _]); try done.
  { apply settled_start. }
  exists x, n'. split_and!; try done. intros Hnone. destruct (in_refused x) as [|r rs]; [done|].
  inversion Href as [|? ? (p & Hpc & _ & Hck) _]; subst. by rewrite (Hnone p Hpc) in Hck.
Qed.

(** ** Concrete runs *)
Section Witnesses.
Local Existing Instance cut63.

(** The table [event] after the migration: one empty partition. *)
Definition event_catalog : catalog :=
  {| relations := ["event_partition_0_200000000"];
     parts := [Partition "event" "event_partition_0_200000000" 0 200000000 [] []] |}.
Definition event_row (id : Z) : row := {[ "id" := id ]}.

Lemma tiled_empty j : 0 < tj_step j → tiled j 0 (Catalog [] []).
Proof.
  intros Hs. split; try done; try lia; try (by intros ? ?%elem_of_nil).
  - by intros ? ? ? ?%elem_of_nil.
  - intros. by apply not_elem_of_nil.
  - by intros ? ? ?%elem_of_nil.
Qed.

Lemma tiled_event_catalog : tiled Event.job 1 event_catalog.
Proof.
  destruct (attach_next Event.job ltac:(done) ltac:(simpl; lia) 0 (Catalog [] [])) as (c' & Hc' & _ & Ht);
    [by apply tiled_empty|done|].
  vm_compute in Hc'. injection Hc' as <-. exact Ht.
Qed.
(** Rows in the second half of the partition; the job attaches the next one. *)
Definition half_full : catalog :=
  {| relations := relations event_catalog;
     parts := [Partition "event" "event_partition_0_200000000" 0 200000000 []
                 [event_row 99999999; event_row 100000000]] |}.

Lemma tiled_half_full : tiled Event.job 1 half_full.
Proof.
  apply (tiled_insert Event.job) with (r := event_row 100000000) (c :=
    {| relations := relations event_catalog;
       parts := [Partition "event" "event_partition_0_200000000" 0 200000000 []
                   [event_row 99999999]] |}); [|by vm_compute].
  apply (tiled_insert Event.job) with (r := event_row 99999999) (c := event_catalog); [|by vm_compute].
  apply tiled_event_catalog.
Qed.

Lemma partition_job_run_witness :
  (Event.jobCreateEventPartition half_full).2 = Ok true ∧
  ∃ c' b, Event.jobCreateEventPartition half_full = (c', Ok b) ∧
    (b = true ↔ ∃ id, latest_key Event.job half_full = Some id ∧
       tj_step Event.job <= 2 * (id mod tj_step Event.job) ∧ id / tj_step Event.job = 1 - 1) ∧
    (b = false → c' = half_full) ∧
    (b = true → tiled Event.job (1 + 1) c' ∧ parts c' = parts half_full ++
       [Partition "event" (ident (nth_name Event.job 1)) (200000000 * 1) (200000000 * (1 + 1)) [] []]).
Proof.
  split; [by vm_compute|].
  apply (partition_job_run Event.job 1 half_full); [by left|apply tiled_half_full|done].
Defined.

(** Three epochs of rows of the table [event]. *)
Definition event_epochs : list (list row) :=
  [[event_row 1; event_row 99999999]; [event_row 150000000]; [event_row 250000000]].

Lemma event_epochs_paced : paced Event.job (start event_catalog) event_epochs.
Proof.
  split.
  { repeat constructor; eexists; (split; [by apply lookup_singleton_eq|]); vm_compute; by split_and!. }
  intros x1 Hx1. vm_compute in Hx1. injection Hx1 as <-. split.
  { repeat constructor; eexists; (split; [by apply lookup_singleton_eq|]); vm_compute; by split_and!. }
  intros x2 Hx2. vm_compute in Hx2. injection Hx2 as <-. split; [|done].
  repeat constructor; eexists; (split; [by apply lookup_singleton_eq|]); vm_compute; by split_and!.
Qed.

Lemma rows_always_have_a_partition_witness :
  ∃ x n', forEachM (epoch Event.job) (start event_catalog) event_epochs = Ok x ∧
    tiled Event.job n' (in_catalog x) ∧ in_refused x = [] ∧
    ∀ r, r ∈ table_rows "event" (in_catalog x) ↔ r ∈ in_stored x ∨ r ∈ table_rows "event" event_catalog.
Proof.
  destruct (rows_always_have_a_partition Event.job 1 event_catalog event_epochs)
    as (x & n' & Hx & Ht & _ & Hr & _ & Hnone); [by left|apply tiled_event_catalog|done..|apply event_epochs_paced|].
  exists x, n'. split; [exact Hx|]. split; [exact Ht|]. split; [|exact Hr].
  apply Hnone. intros p [Hp _]%elem_of_children. by apply list_elem_of_singleton in Hp as ->.
Defined.

Definition attr_db : EventAttr.db := EventAttr.Db
  {| relations := ["event_attribute_partition_0_13000000"];
     parts := [Partition "event_attribute" "event_attribute_partition_0_13000000" 0 13000000 [] []] |}
  {[ EventAttr.JOB_CREATE_EVENT_ATTR_PARTITION := 13000000 ]}.

Lemma attr_partitions_ahead_witness :
  ∃ d', forEachM (EventAttr.tick_at EventAttr.json) attr_db [12895000; 12905000; 12914000] = Ok d' ∧
    ∀ x, 0 <= x <= default 12890000 (last [12895000; 12905000; 12914000]) + 100000 →
      ∃ p, p ∈ children "event_attribute" (EventAttr.db_catalog d') ∧ p_from p <= x < p_to p.
Proof.
  apply (EventAttr.attr_partitions_ahead 13000000 12890000); [done|done|done| |].
  - split.
    + done.
    + intros h Hh. eexists. split; [apply elem_of_children; split; [by left|done]|]. simpl. lia.
    + intros p [Hp _]%elem_of_children. by apply list_elem_of_singleton in Hp as ->.
    + intros from Hfrom Hb Heq%list_elem_of_singleton.
      rewrite ident_short in Heq.
      * change "event_attribute_partition_0_13000000" with (partition_name "event_attribute" 0 13000000) in Heq.
        apply partition_name_inj in Heq as [? ?]. lia.
      * etransitivity; [apply partition_name_length; simpl in *; lia|simpl; lia].
  - simpl. lia.
Defined.
End Witnesses.
