(* ===== verification/Constraints.v ===== *)
(** * Check constraints of partitions

    For five of the partitioned tables a job puts a check constraint on every
    partition, with the smallest (and, when the partition is full, the
    largest) values of the columns the queries filter by, so that the planner
    can skip partitions:
    [services/job/create_constraint_in_event_partition.service.ts],
    [..._transaction_partition], [..._transaction_message_partition],
    [services/evm/job/create_constraint_in_evm_event_partition] and
    [..._evm_transaction_partition].  The services have the same functions
    over other columns; [Section Job] has them for a [constraint_job], and the
    Modules after it instantiate them.

    The constraint of a partition goes through three states: none, inserting
    (lower bounds only) and done (both bounds).  The state is read back from
    the name of the constraint.

    The theorems: the job keeps the partition well formed and never fails; a
    full partition gets its final constraint once; the inserting constraint
    rejects rows that arrive late; a name that the server shortens is never
    recognised as done. *)
From S2P Require Import Prelude JsNum Catalog Partitions.

(** ** The jobs *)

(** [insertionStatus] *)
Inductive insertion_status := Empty | Done | Inserting.
Definition status_name (s : insertion_status) : string :=
  match s with Empty => "empty" | Done => "done" | Inserting => "inserting" end.

(** [createConstraintEventStatus] *)
Inductive job_status := currentPartitionEmpty | currentPartitionDoneOrInserting | constraintUpdated.

#[export] Instance insertion_status_eq_dec : EqDecision insertion_status.
Proof. solve_decision. Defined.
#[export] Instance job_status_eq_dec : EqDecision job_status.
Proof. solve_decision. Defined.

(** The table, the prefix of its constraint names, the columns of the
    constraint (the test [toTxId === null] looks at the first one), and the
    further constraints on one column each that the service of [evm_event]
    adds. [cj_strict]: the service reads the bounds without [?.]. *)
Record constraint_job := ConstraintJob {
  cj_table : string;
  cj_prefix : string;
  cj_cols : list string;
  cj_extra : list (string * string);
  cj_strict : bool
}.

Record payload := Payload { pl_name : string; pl_fromId : option string; pl_toId : option string }.

(** A column with [fromTxId] and [toTxId], [None] for null. *)
Definition bound : Type := string * option Z * option Z.

Section Job.
Context `{!Identifiers} (j : constraint_job).

(** [getEventPartitionInfo] *)
Definition getPartitionInfo (c : catalog) : res (list payload) :=
  mapR (λ p,
    match bounds_match (partition_bounds p) with
    | Some (a, b) => Ok (Payload (p_name p) (Some a) (Some b))
    | None => if cj_strict j then Throw "TypeError: Cannot read properties of null (reading '0')"
              else Ok (Payload (p_name p) None None)
    end) (children (cj_table j) c).

(** [BigNumber(toId).minus(1).eq(id)], for the strings of digits of a payload. *)
Definition is_last_id (toId : option string) (id : Z) : bool :=
  match toId ≫= parseInt with Some t => t - 1 =? id | None => false end.

Definition getPartitionInsertionInfo (name : string) (toId : option string) (c : catalog)
  : res insertion_status :=
  p ← get_part name c;
  match max_col "id" (p_rows p) with
  | None => Ok Empty
  | Some id => if is_last_id toId id then Ok Done else Ok Inserting
  end.

(** [conname like 'event_ct%'], the first row. *)
Definition getCurrentConstrainInfo (name : string) (c : catalog) : res (option string) :=
  p ← get_part name c;
  Ok (fst <$> find (λ nc, like (cj_prefix j +:+ "%") nc.1) (p_checks p)).

(** [getMaxMinTxIdAndBlhByPartition] *)
Definition getMaxMin (cols : list string) (p : partition) : list bound :=
  (λ col, (col, min_col col (p_rows p), max_col col (p_rows p))) <$> cols.

(** The services of transaction_message and evm_transaction read the bounds
    before the tests, the others after them. *)
Definition prepareConstrainInformation (name : string) (status : insertion_status)
    (current : option string) (c : catalog) : res (option (list bound * option string)) :=
  match status with
  | Empty => Ok None
  | Inserting =>
      match current with
      | Some _ => Ok None
      | None =>
          p ← get_part name c;
          Ok (Some ((λ b : bound, (b.1, None)) <$> getMaxMin (cj_cols j) p, None))
      end
  | Done =>
      if match current with Some n => bool_decide (split_pop "" n = "done") | None => false end
      then Ok None
      else
        p ← get_part name c;
        Ok (Some (getMaxMin (cj_cols j) p, current))
  end.

(** [`event_ct_${partitionName}_${status}`] *)
Definition constraint_name (prefix name : string) (s : insertion_status) : string :=
  prefix +:+ "_" +:+ name +:+ "_" +:+ status_name s.

(** The conjuncts of a check; the lists are not empty. *)
Definition conjunction (l : list check) : check :=
  match l with [] => CGe "" None | ck :: l => foldl CAnd ck l end.

Definition lower_check (bs : list bound) : check :=
  conjunction ((λ b : bound, CGe b.1.1 b.1.2) <$> bs).
Definition full_check (bs : list bound) : check :=
  conjunction (bs ≫= λ b : bound, [CGe b.1.1 b.1.2; CLe b.1.1 b.2]).

(** [toTxId === null] *)
Definition to_is_null (bs : list bound) : bool :=
  match bs with (_, _, Some _) :: _ => false | _ => true end.

(** The constraints that are added, with their names. *)
Definition new_constraints (name : string) (bs : list bound) (p : partition) : list (string * check) :=
  let null := to_is_null bs in
  let s := if null then Inserting else Done in
  let mk := λ bs, if null then lower_check bs else full_check bs in
  (constraint_name (cj_prefix j) name s, mk bs) ::
  ((λ e : string * string, (constraint_name e.1 name s, mk (getMaxMin [e.2] p))) <$> cj_extra j).

Definition createConstraint (name : string) (bs : list bound) (drop : option string) : io catalog () :=
  commit (λ c,
    p ← get_part name c;
    let news := new_constraints name bs p in
    cs ← match drop with
         | None => Ok (p_checks p)
         | Some n =>
             cs ← drop_constraint n (p_checks p);
             forEachM (λ cs (e : string * string), drop_constraint (constraint_name e.1 name Inserting) cs)
               cs (cj_extra j)
         end;
    cs ← forEachM (λ cs nc, add_constraint nc.1 nc.2 cs) cs news;
    '(_) ← mapR (λ nc, validate_constraint nc.1 (p_rows p) cs) news;
    Ok (update_part name (set_checks cs) c)).

(** [createEventConstraint] *)
Definition createConstraintJob (pl : payload) : io catalog job_status :=
  status ← λ c, (c, getPartitionInsertionInfo (pl_name pl) (pl_toId pl) c);
  if decide (status = Empty) then mret currentPartitionEmpty else
  current ← λ c, (c, getCurrentConstrainInfo (pl_name pl) c);
  info ← λ c, (c, prepareConstrainInformation (pl_name pl) status current c);
  match info with
  | None => mret currentPartitionDoneOrInserting
  | Some (bs, drop) => createConstraint (pl_name pl) bs drop;; mret constraintUpdated
  end.

End Job.

(** ** The five services *)
Module EventCt.
Definition job := ConstraintJob "event" "event_ct" ["tx_id"; "block_height"] [] true.
Section Service.
Context `{!Identifiers}.
Definition getMaxMinTxIdAndBlhByPartition := getMaxMin (cj_cols job).
Definition getPartitionInsertionInfo := getPartitionInsertionInfo.
Definition getCurrentConstrainInfo := getCurrentConstrainInfo job.
Definition prepareConstrainInformation := prepareConstrainInformation job.
Definition getEventPartitionInfo := getPartitionInfo job.
Definition createConstraint := createConstraint job.
Definition createEventConstraint := createConstraintJob job.
End Service.
End EventCt.

Module TransactionCt.
Definition job := ConstraintJob "transaction" "tx_ct" ["height"] [] false.
Section Service.
Context `{!Identifiers}.
Definition getMaxMinIdAndHeightByPartition := getMaxMin (cj_cols job).
Definition getPartitionInsertionInfo := getPartitionInsertionInfo.
Definition getCurrentConstrainInfo := getCurrentConstrainInfo job.
Definition prepareConstrainInformation := prepareConstrainInformation job.
Definition getTransactionPartitionInfo := getPartitionInfo job.
Definition createConstraint := createConstraint job.
Definition createTransactionConstraint := createConstraintJob job.
End Service.
End TransactionCt.

Module TransactionMessageCt.
Definition job := ConstraintJob "transaction_message" "txmsg_ct" ["tx_id"] [] true.
Section Service.
Context `{!Identifiers}.
Definition getMaxMinTxIdByPartition := getMaxMin (cj_cols job).
Definition getPartitionInsertionInfo := getPartitionInsertionInfo.
Definition getCurrentConstrainInfo := getCurrentConstrainInfo job.
Definition prepareConstrainInformation := prepareConstrainInformation job.
Definition getTxMsgPartitionInfo := getPartitionInfo job.
Definition createConstraint := createConstraint job.
Definition createTransactionMessageConstraint := createConstraintJob job.
End Service.
End TransactionMessageCt.

Module EvmEventCt.
Definition job := ConstraintJob "evm_event" "evm_event_ct" ["block_height"]
  [("evm_event_c1", "tx_id"); ("evm_event_c2", "evm_tx_id")] false.
Section Service.
Context `{!Identifiers}.
Definition getMaxMinIdAndHeightByPartition := getMaxMin (cj_cols job).
Definition getMaxMinTxIdAndEvmTxIdByPartition := getMaxMin (snd <$> cj_extra job).
Definition getPartitionInsertionInfo := getPartitionInsertionInfo.
Definition getCurrentConstrainInfo := getCurrentConstrainInfo job.
Definition prepareConstrainInformation := prepareConstrainInformation job.
Definition getEvmEventPartitionInfo := getPartitionInfo job.
Definition createConstraint := createConstraint job.
Definition createEvmEventConstraint := createConstraintJob job.
End Service.
End EvmEventCt.

Module EVMTransactionCt.
Definition job := ConstraintJob "evm_transaction" "evmtx_ct" ["tx_id"; "tx_msg_id"] [] true.
Section Service.
Context `{!Identifiers}.
Definition getMaxMinTxIdAndTxMsgIdByPartition := getMaxMin (cj_cols job).
Definition getPartitionInsertionInfo := getPartitionInsertionInfo.
Definition getCurrentConstrainInfo := getCurrentConstrainInfo job.
Definition prepareConstraintInformation := prepareConstrainInformation job.
Definition getEVMTxPartitionInfo := getPartitionInfo job.
Definition createConstraint := createConstraint job.
Definition createEVMTransactionConstraint := createConstraintJob job.
End Service.
End EVMTransactionCt.

Definition constraint_jobs : list constraint_job :=
  [EventCt.job; TransactionCt.job; TransactionMessageCt.job; EvmEventCt.job; EVMTransactionCt.job].

(** ** Names of constraints *)
Lemma substring_app s1 s2 n :
  (String.length s1 ≤ n)%nat →
  String.substring 0 n (s1 +:+ s2) = s1 +:+ String.substring 0 (n - String.length s1) s2.
Proof.
  revert n. induction s1 as [|c s1 IH]; intros n Hn.
  - by rewrite !append_nil_l, Nat.sub_0_r.
  - destruct n as [|n]; simpl in Hn; [lia|]. rewrite !append_cons. simpl. f_equal. apply IH. lia.
Qed.

Lemma app_same_length s1 s2 t1 t2 :
  String.length s1 = String.length s2 → s1 +:+ t1 = s2 +:+ t2 → s1 = s2.
Proof.
  revert s2. induction s1 as [|c s1 IH]; intros [|d s2]; simpl; try done.
  intros [= Hlen]. rewrite !append_cons. intros Heq. injection Heq as -> Heq. f_equal. by apply IH.
Qed.

Lemma like_any s : like "%" s = true.
Proof. induction s as [|c s IH]; [done|]. exact IH. Qed.

Section Names.
Context `{!Identifiers}.

Lemma ident_done base :
  (String.length base + 5 ≤ 63)%nat → ident (base +:+ "_done") = base +:+ "_done".
Proof. intros Hb. apply ident_short. rewrite length_app. simpl. lia. Qed.

(** A shortened name still ends in a prefix of "inserting". *)
Lemma ident_inserting base :
  (String.length base + 5 ≤ 63)%nat →
  ∃ t, ident (base +:+ "_inserting") = base +:+ String "_" t ∧ t ∈ ["inse"; "inser"; "insert"; "inserti"; "insertin"; "inserting"].
Proof.
  intros Hb. destruct (Nat.le_gt_cases (String.length base + 10) 63) as [Hs|Hl].
  - exists "inserting". split; [|rewrite !elem_of_cons; auto 10].
    apply ident_short. rewrite length_app. simpl. lia.
  - exists (String.substring 0 (62 - String.length base) "inserting"). split.
    + rewrite ident_long by (rewrite length_app; simpl; lia).
      rewrite substring_app by lia. f_equal.
      replace (63 - String.length base)%nat with (S (62 - String.length base)) by lia. done.
    + assert (62 - String.length base ∈ [4;5;6;7;8;9])%nat as Hin.
      { rewrite !elem_of_cons. lia. }
      rewrite !elem_of_cons, elem_of_nil in Hin.
      destruct Hin as [->|[->|[->|[->|[->|[->|[]]]]]]]; rewrite !elem_of_cons; simpl; auto 10.
Qed.
End Names.

(** ** Well-formed partitions *)
Record job_ok (j : constraint_job) : Prop := {
  ok_like s : like (cj_prefix j +:+ "%") (cj_prefix j +:+ s) = true;
  ok_nodup : NoDup (cj_prefix j :: (cj_extra j).*1);
  ok_length p : p ∈ (cj_extra j).*1 → String.length p = String.length (cj_prefix j);
  ok_cols : cj_cols j ≠ []
}.

Lemma constraint_jobs_ok j : j ∈ constraint_jobs → job_ok j.
Proof.
  unfold constraint_jobs. rewrite !elem_of_cons, elem_of_nil.
  intros [->|[->|[->|[->|[->|[]]]]]]; split; try done; try apply like_any;
    try (by apply (bool_decide_unpack _); vm_compute); simpl;
    intros p; rewrite ?elem_of_cons, elem_of_nil; naive_solver.
Qed.

Section WellFormed.
Context `{!Identifiers} (j : constraint_job) (Hj : job_ok j).

Definition prefixes : list string := cj_prefix j :: (cj_extra j).*1.

(** The names of the constraints of a partition in a state. *)
Definition names (name : string) (s : insertion_status) : list string :=
  (λ prefix, ident (constraint_name prefix name s)) <$> prefixes.

(** The partition's name leaves room for the constraint's. *)
Definition short (name : string) : Prop :=
  (String.length (cj_prefix j) + String.length name + 6 ≤ 63)%nat.

(** The columns each constraint is about. *)
Definition groups : list (list string) := cj_cols j :: ((λ e, [e.2]) <$> cj_extra j).

(** The value of [r] in a column is between the values of [rs]: not below all
    of them and, for the final constraint, not above all of them.  A column
    without a value in [r] or in [rs] bounds nothing. *)
Definition within (s : insertion_status) (rs : list row) (r : row) (col : string) : Prop :=
  ∀ v, r !! col = Some v → (∃ r0 : row, r0 ∈ rs ∧ is_Some (r0 !! col)) →
    (∃ (r1 : row) v1, r1 ∈ rs ∧ r1 !! col = Some v1 ∧ v1 <= v) ∧
    (s = Done → ∃ (r2 : row) v2, r2 ∈ rs ∧ r2 !! col = Some v2 ∧ v <= v2).

(** The constraints of a partition in the state [s]: their names, and that
    each accepts a row exactly when its columns are between the values of the
    rows the partition held at some moment.  For the final constraints that
    is a moment when the partition held its last id. *)
Definition bounded (s : insertion_status) (p : partition) : Prop :=
  (p_checks p).*1 = names (p_name p) s ∧
  ∃ rs, rs `prefix_of` p_rows p ∧ rs ≠ [] ∧
    (s = Done → max_col "id" rs = Some (p_to p - 1)) ∧
    Forall2 (λ nc cols, ∀ r, accepts nc.2 r = true ↔ Forall (within s rs r) cols) (p_checks p) groups.

(** A partition the job can meet: its rows pass its constraints, and these
    are none, the lower bounds, or both bounds. *)
Record wf_part (p : partition) : Prop := {
  wf_name : short (p_name p);
  wf_rows r nc : r ∈ p_rows p → nc ∈ p_checks p → accepts nc.2 r = true;
  wf_state : p_checks p = [] ∨ bounded Inserting p ∨ bounded Done p
}.

Lemma wf_names p :
  wf_part p → (p_checks p).*1 = [] ∨ (p_checks p).*1 = names (p_name p) Inserting ∨
              (p_checks p).*1 = names (p_name p) Done.
Proof. intros [_ _ [->|[[? _]|[? _]]]]; auto. Qed.

Lemma prefix_length p : p ∈ prefixes → String.length p = String.length (cj_prefix j).
Proof. unfold prefixes. intros [->|Hp]%elem_of_cons; [done|]. by apply ok_length. Qed.

(** What the server stores for a constraint name. *)
Lemma ident_name prefix name s :
  s ≠ Empty → prefix ∈ prefixes → short name →
  ∃ t, ident (constraint_name prefix name s) = prefix +:+ "_" +:+ name +:+ String "_" t ∧
    no_underscore t = true ∧ (t = "done" ↔ s = Done).
Proof.
  unfold short. intros Hs Hp%prefix_length Hshort. unfold constraint_name.
  assert (prefix +:+ "_" +:+ name +:+ "_" +:+ status_name s
    = (prefix +:+ "_" +:+ name) +:+ String "_" (status_name s)) as ->.
  { rewrite !append_assoc. by rewrite append_cons, append_nil_l. }
  assert (∀ t, prefix +:+ "_" +:+ name +:+ String "_" t = (prefix +:+ "_" +:+ name) +:+ String "_" t) as Hassoc
    by by intros t; rewrite !append_assoc.
  setoid_rewrite Hassoc. destruct s; [done| |].
  - exists "done". split; [|by split]. change (String "_" "done") with "_done".
    apply ident_done. rewrite !length_app. simpl. lia.
  - destruct (ident_inserting (prefix +:+ "_" +:+ name)) as (t & Ht & Hin).
    + rewrite !length_app. simpl. lia.
    + exists t. split; [done|]. rewrite !elem_of_cons, elem_of_nil in Hin.
      destruct Hin as [->|[->|[->|[->|[->|[->|[]]]]]]]; by split.
Qed.

Lemma names_nodup name s : s ≠ Empty → short name → NoDup (names name s).
Proof.
  intros Hs Hshort. unfold names. apply NoDup_fmap_2_strong; [|apply Hj].
  intros p1 p2 Hp1 Hp2 Heq.
  destruct (ident_name p1 name s) as (t1 & Ht1 & _); [done..|].
  destruct (ident_name p2 name s) as (t2 & Ht2 & _); [done..|].
  rewrite Ht1, Ht2 in Heq. eapply app_same_length; [|exact Heq].
  by rewrite (prefix_length _ Hp1), (prefix_length _ Hp2).
Qed.

(** The state is read back from the name. *)
Lemma split_pop_name prefix name s :
  s ≠ Empty → prefix ∈ prefixes → short name →
  bool_decide (split_pop "" (ident (constraint_name prefix name s)) = "done") = bool_decide (s = Done).
Proof.
  intros Hs Hp Hshort. destruct (ident_name prefix name s) as (t & -> & Hu & Ht); [done..|].
  rewrite <-!append_assoc, split_pop_last by done. by apply bool_decide_ext.
Qed.

Lemma current_constraint name s cs :
  s ≠ Empty → short name → cs.*1 = names name s →
  fst <$> find (λ nc : string * check, like (cj_prefix j +:+ "%") nc.1) cs
  = Some (ident (constraint_name (cj_prefix j) name s)).
Proof.
  intros Hs Hshort. destruct cs as [|[n ck] cs]; [done|]. simpl. intros [= -> _].
  destruct (ident_name (cj_prefix j) name s) as (t & -> & _); [done|by left|done|].
  by rewrite ok_like.
Qed.

(** ** Adding and dropping *)
Lemma add_constraints news cs :
  NoDup (cs.*1 ++ ((λ nc : string * check, ident nc.1) <$> news)) →
  forEachM (λ cs nc, add_constraint nc.1 nc.2 cs) cs news
  = Ok (cs ++ ((λ nc : string * check, (ident nc.1, nc.2)) <$> news)).
Proof.
  revert cs. induction news as [|[n ck] news IH]; intros cs; [by intros _; rewrite fmap_nil, app_nil_r|].
  rewrite !fmap_cons. simpl. intros Hnd.
  assert (add_constraint n ck cs = Ok (cs ++ [(ident n, ck)])) as ->.
  { unfold add_constraint. apply NoDup_app in Hnd as (_ & Hdis & _).
    rewrite bool_decide_false; [done|]. intros Hin. apply (Hdis _ Hin). by left. }
  simpl. rewrite IH; [by rewrite <-app_assoc|]. rewrite fmap_app. simpl. by rewrite <-app_assoc.
Qed.

Lemma drop_head n ck cs :
  NoDup (ident n :: cs.*1) → drop_constraint n ((ident n, ck) :: cs) = Ok cs.
Proof.
  intros [Hn _]%NoDup_cons. unfold drop_constraint. simpl.
  rewrite bool_decide_true by by left. f_equal. rewrite filter_cons, decide_False by naive_solver.
  apply filter_all. intros nc Hnc Heq. apply Hn. rewrite <-Heq. by apply list_elem_of_fmap_2.
Qed.

(** Dropping the inserting constraints, in the order the job does. *)
Lemma drop_all name cs (es : list (string * string)) :
  cs.*1 = (λ e : string * string, ident (constraint_name e.1 name Inserting)) <$> es →
  NoDup (cs.*1) →
  forEachM (λ cs (e : string * string), drop_constraint (constraint_name e.1 name Inserting) cs) cs es = Ok [].
Proof.
  revert cs. induction es as [|e es IH]; intros [|[n ck] cs]; simpl; try done.
  intros [= -> Hcs] Hnd. rewrite drop_head by done. simpl.
  apply NoDup_cons in Hnd as [_ Hnd]. by apply IH.
Qed.

Lemma validate_Ok n ck cs rows :
  NoDup cs.*1 → (ident n, ck) ∈ cs → (∀ r, r ∈ rows → accepts ck r = true) →
  validate_constraint n rows cs = Ok tt.
Proof.
  intros Hnd Hin Hrows. unfold validate_constraint.
  assert (find (λ nc : string * check, bool_decide (nc.1 = ident n)) cs = Some (ident n, ck)) as ->.
  { induction cs as [|[n' ck'] cs IH]; [by apply elem_of_nil in Hin|]. simpl in *.
    apply NoDup_cons in Hnd as [Hn Hnd]. apply elem_of_cons in Hin as [[= <- <-]|Hin].
    - by rewrite bool_decide_true.
    - rewrite bool_decide_false; [by apply IH|]. intros ->. apply Hn.
      by apply (list_elem_of_fmap_2 fst _ (ident n, ck)). }
  by rewrite (proj2 (forallb_forall _ _)) by by intros r Hr%list_elem_of_In; apply Hrows.
Qed.

(** ** The bounds hold *)
Lemma foldl_and l ck r :
  accepts (foldl CAnd ck l) r = accepts ck r && forallb (λ c, accepts c r) l.
Proof.
  revert ck. induction l as [|c l IH]; intros ck; simpl; [by rewrite andb_true_r|].
  by rewrite IH, accepts_and, andb_assoc.
Qed.

Lemma accepts_conjunction l r :
  accepts (conjunction l) r = true ↔ Forall (λ ck, accepts ck r = true) l.
Proof.
  destruct l as [|ck l]; [split; [done|intros _; by apply accepts_ge]|].
  cbn [conjunction]. rewrite foldl_and, andb_true_iff, Forall_cons, forallb_forall, Forall_forall.
  by setoid_rewrite list_elem_of_In.
Qed.

(** Bounds taken from the rows. *)
Definition from_rows (p : partition) (bs : list bound) : Prop :=
  ∀ b : bound, b ∈ bs → b.1.2 = min_col b.1.1 (p_rows p) ∧ (b.2 = None ∨ b.2 = max_col b.1.1 (p_rows p)).

Lemma from_rows_accepts p bs r :
  from_rows p bs → r ∈ p_rows p → accepts (lower_check bs) r = true ∧ accepts (full_check bs) r = true.
Proof.
  intros Hbs Hr. unfold lower_check, full_check.
  assert (∀ b : bound, b ∈ bs → accepts (CGe b.1.1 b.1.2) r = true ∧ accepts (CLe b.1.1 b.2) r = true) as Hb.
  { intros b Hb. destruct (Hbs b Hb) as [Hmin Hmax]. split.
    - apply accepts_ge. intros x y Hx Hy. rewrite Hmin in Hy.
      apply min_col_spec in Hy as [_ Hle]. by eapply Hle.
    - apply accepts_le. intros x y Hx Hy. destruct Hmax as [Hn|Hmax]; [congruence|].
      rewrite Hmax in Hy. apply max_col_spec in Hy as [_ Hle]. by eapply Hle. }
  split; apply accepts_conjunction, Forall_forall; intros ck.
  - intros (b & -> & Hin)%list_elem_of_fmap. by apply Hb.
  - intros (b & Hck & Hin)%list_elem_of_bind. rewrite !elem_of_cons, elem_of_nil in Hck.
    destruct Hck as [->|[->|[]]]; by apply Hb.
Qed.

Lemma from_rows_getMaxMin p cols : from_rows p (getMaxMin cols p).
Proof. intros b (col & -> & _)%list_elem_of_fmap. simpl. auto. Qed.

Lemma from_rows_lower p bs : from_rows p bs → from_rows p ((λ b : bound, (b.1, None)) <$> bs).
Proof. intros Hbs b (b' & -> & Hb')%list_elem_of_fmap. simpl. split; [by apply Hbs|by left]. Qed.

Lemma new_constraints_accept name bs p r nc :
  from_rows p bs → r ∈ p_rows p → nc ∈ new_constraints j name bs p → accepts nc.2 r = true.
Proof.
  intros Hbs Hr. unfold new_constraints. intros [->|(e & -> & _)%list_elem_of_fmap]%elem_of_cons.
  - simpl. destruct (to_is_null bs); by apply (from_rows_accepts p).
  - pose proof (from_rows_getMaxMin p [e.2]) as He. cbn [snd].
    destruct (to_is_null bs); by apply (from_rows_accepts p).
Qed.

(** The names and checks as the server stores them. *)
Definition stored (news : list (string * check)) : list (string * check) :=
  (λ nc, (ident nc.1, nc.2)) <$> news.

Lemma stored_names name bs p :
  (stored (new_constraints j name bs p)).*1 = names name (if to_is_null bs then Inserting else Done).
Proof.
  unfold stored, new_constraints, names, prefixes. rewrite <-list_fmap_compose. simpl.
  rewrite <-!list_fmap_compose. done.
Qed.

(** *** What the checks mean *)
Lemma min_max_exist col rs :
  (∃ r0 : row, r0 ∈ rs ∧ is_Some (r0 !! col)) → is_Some (min_col col rs) ∧ is_Some (max_col col rs).
Proof.
  intros (r0 & Hr0 & [v Hv]). assert (v ∈ column col rs) as Hin by (apply elem_of_column; eauto).
  unfold min_col, max_col. destruct (column col rs); [by apply elem_of_nil in Hin|]. eauto.
Qed.

Lemma within_lower s col rs (r : row) :
  (s ≠ Done) → accepts (CGe col (min_col col rs)) r = true ↔ within s rs r col.
Proof.
  intros Hs. rewrite accepts_ge. unfold within. split.
  - intros Hge v Hv Hhas. split; [|done]. apply min_max_exist in Hhas as [[m Hm] _].
    apply min_col_spec in Hm as Hm'. destruct Hm' as [(r1 & Hr1 & Hc) _]. exists r1, m. eauto.
  - intros Hw v m Hv Hm. apply min_col_spec in Hm as [(r0 & Hr0 & Hc) Hle].
    destruct (Hw v Hv) as [(r1 & v1 & Hr1 & Hv1 & Hle1) _]; [exists r0; rewrite Hc; eauto|].
    specialize (Hle r1 v1 Hr1 Hv1). lia.
Qed.

Lemma within_both col rs (r : row) :
  accepts (CGe col (min_col col rs)) r = true ∧ accepts (CLe col (max_col col rs)) r = true
  ↔ within Done rs r col.
Proof.
  rewrite (within_lower Inserting) by done. rewrite accepts_le. unfold within. split.
  - intros [Hge Hle] v Hv Hhas. split; [by apply (Hge v Hv Hhas)|]. intros _.
    apply min_max_exist in Hhas as [_ [m Hm]].
    apply max_col_spec in Hm as Hm'. destruct Hm' as [(r2 & Hr2 & Hc) _]. exists r2, m. eauto.
  - intros Hw. split; [intros v Hv Hhas; split; [by apply (Hw v Hv Hhas)|done]|].
    intros v m Hv Hm. apply max_col_spec in Hm as [(r0 & Hr0 & Hc) Hle].
    destruct (Hw v Hv) as [_ Hup]; [exists r0; rewrite Hc; eauto|].
    destruct (Hup eq_refl) as (r2 & v2 & Hr2 & Hv2 & Hle2). specialize (Hle r2 v2 Hr2 Hv2). lia.
Qed.

Lemma lower_check_iff cols rs bs r :
  fst <$> bs = (λ col, (col, min_col col rs)) <$> cols →
  accepts (lower_check bs) r = true ↔ Forall (within Inserting rs r) cols.
Proof.
  intros Hbs. unfold lower_check.
  assert ((λ b : bound, CGe b.1.1 b.1.2) <$> bs = (λ col, CGe col (min_col col rs)) <$> cols) as ->.
  { transitivity ((λ b : string * option Z, CGe b.1 b.2) <$> (fst <$> bs)).
    - by rewrite <-list_fmap_compose.
    - rewrite Hbs. by rewrite <-list_fmap_compose. }
  rewrite accepts_conjunction, Forall_fmap. apply Forall_iff. intros col. by apply within_lower.
Qed.

Lemma full_check_iff cols p r :
  accepts (full_check (getMaxMin cols p)) r = true ↔ Forall (within Done (p_rows p) r) cols.
Proof.
  unfold full_check, getMaxMin. rewrite accepts_conjunction.
  induction cols as [|col cols IH]; [done|].
  rewrite fmap_cons, bind_cons, Forall_app, IH. rewrite !Forall_cons, Forall_nil, <-within_both. cbn. tauto.
Qed.

(** The bounds of a run: of the lower state, or of a partition with its last id. *)
Definition run_bounds (p : partition) (bs : list bound) : Prop :=
  (bs = (λ b : bound, (b.1, None)) <$> getMaxMin (cj_cols j) p ∧ p_rows p ≠ []) ∨
  (bs = getMaxMin (cj_cols j) p ∧ max_col "id" (p_rows p) = Some (p_to p - 1)).

Lemma run_from_rows p bs : run_bounds p bs → from_rows p bs.
Proof. intros [[-> _]|[-> _]]; [apply from_rows_lower|]; apply from_rows_getMaxMin. Qed.

Lemma run_bounded p bs :
  run_bounds p bs →
  bounded (if to_is_null bs then Inserting else Done)
    (set_checks (stored (new_constraints j (p_name p) bs p)) p).
Proof.
  intros Hbs. split; [apply stored_names|]. exists (p_rows p). cbn [set_checks p_checks p_rows p_to].
  assert (fst <$> bs = (λ col, (col, min_col col (p_rows p))) <$> cj_cols j) as Hlow.
  { destruct Hbs as [[-> _]|[-> _]]; unfold getMaxMin; by rewrite <-!list_fmap_compose. }
  split; [done|]. split.
  { destruct Hbs as [[_ ?]|[_ Hmax]]; [done|]. by intros Hnil; rewrite Hnil in Hmax. }
  split.
  { destruct Hbs as [[-> _]|[_ Hmax]]; [|done].
    unfold getMaxMin. by destruct (cj_cols j). }
  unfold stored, new_constraints, groups. rewrite fmap_cons. constructor.
  - intros r. cbn [snd]. destruct (to_is_null bs) eqn:Hnull; [by apply lower_check_iff|].
    destruct Hbs as [[-> _]|[-> _]]; [|by apply full_check_iff].
    exfalso. revert Hnull. unfold getMaxMin. by destruct (cj_cols j).
  - rewrite <-list_fmap_compose. apply Forall2_fmap, Forall_Forall2_diag, Forall_forall.
    intros e _ r. cbn [snd compose]. destruct (to_is_null bs); [|by apply full_check_iff].
    by apply lower_check_iff.
Qed.

Lemma bounded_app s p r : bounded s p → bounded s (add_row r p).
Proof.
  intros [Hn (rs & Hpre & Hrest)]. split; [done|]. exists rs. split; [|done].
  by apply prefix_app_r.
Qed.

Lemma substring_length n s : (String.length (String.substring 0 n s) ≤ n)%nat.
Proof.
  revert s. induction n as [|n IH]; intros [|c s]; simpl; try lia. specialize (IH s). lia.
Qed.

Lemma ident_idem s : ident (ident s) = ident s.
Proof.
  apply ident_short. destruct (Nat.le_gt_cases (String.length s) 63).
  - by rewrite ident_short.
  - rewrite ident_long by done. apply substring_length.
Qed.

(** The transaction: from no constraint, or from the inserting ones. *)
Lemma createConstraint_run p bs drop c :
  get_part (p_name p) c = Ok p → wf_part p → from_rows p bs →
  (drop = None ∧ p_checks p = [] ∨
   drop = Some (ident (constraint_name (cj_prefix j) (p_name p) Inserting)) ∧
   (p_checks p).*1 = names (p_name p) Inserting) →
  createConstraint j (p_name p) bs drop c
  = (update_part (p_name p) (set_checks (stored (new_constraints j (p_name p) bs p))) c, Ok tt).
Proof.
  intros Hget Hwf Hbs Hdrop. pose proof (wf_name _ Hwf) as Hshort.
  pose proof (new_constraints_accept (p_name p) bs p) as Hacc.
  pose proof (stored_names (p_name p) bs p) as Hnames.
  unfold createConstraint, commit. rewrite Hget.
  change (Ok p ≫= ?k) with (k p). cbv beta zeta.
  revert Hacc Hnames. generalize (new_constraints j (p_name p) bs p). intros news Hacc Hnames.
  assert ((stored news).*1 = (λ nc : string * check, ident nc.1) <$> news) as Hst
    by (unfold stored; by rewrite <-list_fmap_compose).
  assert (NoDup (stored news).*1) as Hnd.
  { rewrite Hnames. apply names_nodup; [|done]. by destruct (to_is_null bs). }
  assert (∀ k : list (string * check) → res catalog,
    ((match drop with
     | None => Ok (p_checks p)
     | Some n => drop_constraint n (p_checks p) ≫= (λ cs,
         forEachM (λ cs (e : string * string),
           drop_constraint (constraint_name e.1 (p_name p) Inserting) cs) cs (cj_extra j))
     end) ≫= k) = k []) as ->.
  { intros k. clear Hnames. destruct Hdrop as [[-> ->]|[-> Hnames]]; [done|].
    assert (NoDup (p_checks p).*1) as Hnd1 by (rewrite Hnames; by apply names_nodup).
    destruct (p_checks p) as [|[n ck] cs] eqn:Hcs; [done|].
    unfold names, prefixes in Hnames. rewrite !fmap_cons in Hnames. rewrite fmap_cons in Hnd1.
    injection Hnames as Hn Hrest. simpl in Hn. subst n. simpl in Hnd1.
    pose proof (drop_head (ident (constraint_name (cj_prefix j) (p_name p) Inserting)) ck cs) as Hhead.
    rewrite ident_idem in Hhead. rewrite Hhead by done. simpl.
    apply NoDup_cons in Hnd1 as [_ Hnd1].
    rewrite (drop_all (p_name p)); [done| |done].
    rewrite Hrest. by rewrite <-list_fmap_compose. }
  rewrite add_constraints by by rewrite app_nil_l, <-Hst. simpl. fold (stored news).
  destruct (mapR_total (λ nc : string * check, validate_constraint nc.1 (p_rows p) (stored news)) news)
    as [ys Hys]; [|by rewrite Hys].
  intros [n ck] Hin. exists tt. apply (validate_Ok n ck); [done| |].
  - apply list_elem_of_fmap. by exists (n, ck).
  - intros r Hr. by apply (Hacc r (n, ck)).
Qed.

(** ** One run of the job *)

(** What a run does to a partition: the status it returns, and the constraints
    it puts in place of the present ones. *)
Definition job_spec (p : partition) : job_status * option (list (string * check)) :=
  match max_col "id" (p_rows p) with
  | None => (currentPartitionEmpty, None)
  | Some id =>
      if id =? p_to p - 1 then
        if decide ((p_checks p).*1 = names (p_name p) Done) then (currentPartitionDoneOrInserting, None)
        else (constraintUpdated,
              Some (stored (new_constraints j (p_name p) (getMaxMin (cj_cols j) p) p)))
      else if decide (p_checks p = []) then
        (constraintUpdated,
         Some (stored (new_constraints j (p_name p)
           ((λ b : bound, (b.1, None)) <$> getMaxMin (cj_cols j) p) p)))
      else (currentPartitionDoneOrInserting, None)
  end.

Definition after (p : partition) (o : option (list (string * check))) : partition :=
  match o with None => p | Some cs => set_checks cs p end.
Definition after_cat (p : partition) (o : option (list (string * check))) (c : catalog) : catalog :=
  match o with None => c | Some cs => update_part (p_name p) (set_checks cs) c end.

Lemma names_ne name : short name → names name Inserting ≠ names name Done.
Proof.
  intros Hshort Heq. unfold names, prefixes in Heq. rewrite !fmap_cons in Heq. injection Heq as Heq _.
  pose proof (split_pop_name (cj_prefix j) name Inserting ltac:(done) ltac:(by left) Hshort) as H1.
  pose proof (split_pop_name (cj_prefix j) name Done ltac:(done) ltac:(by left) Hshort) as H2.
  rewrite Heq, H2 in H1. done.
Qed.

Lemma wf_set_checks p bs :
  wf_part p → run_bounds p bs → wf_part (set_checks (stored (new_constraints j (p_name p) bs p)) p).
Proof.
  intros [Hn Hr Hs] Hbs. split; cbn [set_checks p_name p_checks p_rows]; [done| |].
  - intros r nc Hrow (nc' & -> & Hnc')%list_elem_of_fmap. apply (new_constraints_accept (p_name p) bs p r nc'); [by apply run_from_rows|done..].
  - right. pose proof (run_bounded p bs Hbs). destruct (to_is_null bs); auto.
Qed.

Lemma is_last_id_to t id : 0 <= t → is_last_id (Some (toString t)) id = (id =? t - 1).
Proof.
  intros Ht. unfold is_last_id. simpl. rewrite parseInt_toString by done. apply Z.eqb_sym.
Qed.

#[local] Opaque new_constraints stored.

Lemma job_run_spec p from c :
  get_part (p_name p) c = Ok p → wf_part p → 0 <= p_to p →
  createConstraintJob j (Payload (p_name p) from (Some (toString (p_to p)))) c
  = (after_cat p (job_spec p).2 c, Ok (job_spec p).1) ∧ wf_part (after p (job_spec p).2).
Proof.
  intros Hget Hwf Hto. pose proof (wf_name _ Hwf) as Hshort.
  unfold createConstraintJob, mbind, io_bind. simpl.
  unfold getPartitionInsertionInfo, getCurrentConstrainInfo, prepareConstrainInformation, job_spec.
  rewrite Hget. simpl.
  destruct (max_col "id" (p_rows p)) as [id|] eqn:Hmax; simpl; [|by split].
  assert (p_rows p ≠ []) as Hrows by by intros Hnil; rewrite Hnil in Hmax.
  change (parseInt (toString (p_to p))) with (Some (toString (p_to p)) ≫= parseInt).
  fold (is_last_id (Some (toString (p_to p))) id). rewrite is_last_id_to by done.
  rewrite ?Hget. simpl. destruct (Z.eqb_spec id (p_to p - 1)) as [->|_]; simpl; rewrite ?Hget; simpl.
  - assert (run_bounds p (getMaxMin (cj_cols j) p)) as Hbs by by right.
    destruct (wf_names _ Hwf) as [Hc|[Hc|Hc]].
    + apply fmap_nil_inv in Hc as Hnil. rewrite decide_False by (by rewrite Hc).
      rewrite Hnil. simpl. rewrite (createConstraint_run p) by (done || apply from_rows_getMaxMin || auto).
      split; [done|]. by apply wf_set_checks.
    + rewrite (current_constraint (p_name p) Inserting) by done. simpl.
      rewrite split_pop_name by (done || by left). simpl.
      rewrite decide_False by (rewrite Hc; by apply names_ne).
      rewrite (createConstraint_run p) by (done || apply from_rows_getMaxMin || auto).
      split; [done|]. by apply wf_set_checks.
    + rewrite (current_constraint (p_name p) Done) by done. simpl.
      rewrite split_pop_name by (done || by left). simpl. by rewrite decide_True.
  - destruct (wf_names _ Hwf) as [Hc|Hc].
    + apply fmap_nil_inv in Hc as Hnil. rewrite decide_True by done. rewrite Hnil. simpl.
      assert (run_bounds p ((λ b : bound, (b.1, None)) <$> getMaxMin (cj_cols j) p)) as Hbs by by left.
      rewrite (createConstraint_run p) by (done || by apply run_from_rows || auto).
      split; [done|]. by apply wf_set_checks.
    + assert (∃ s, s ≠ Empty ∧ (p_checks p).*1 = names (p_name p) s) as (s & Hs & Hcs)
        by (destruct Hc; [exists Inserting|exists Done]; done).
      rewrite (current_constraint (p_name p) s) by done.
      rewrite decide_False by by destruct (p_checks p). by split.
Qed.
End WellFormed.

(** ** The table over time

    Rows are inserted, the partition job attaches partitions, and the check
    job runs the constraint job for the partitions of the table. *)
Section Table.
Context `{!Identifiers} (j : constraint_job) (Hj : job_ok j).

Record wf_table (c : catalog) : Prop := {
  wf_unique : NoDup (p_name <$> parts c);
  wf_listed p : p ∈ parts c → p_name p ∈ relations c;
  wf_parts p : p ∈ children (cj_table j) c → wf_part j p;
  wf_range p : p ∈ children (cj_table j) c → 0 <= p_from p < p_to p;
  wf_ids p r : p ∈ children (cj_table j) c → r ∈ p_rows p → covers "id" r p = true
}.

Inductive step (c : catalog) : catalog → Prop :=
| step_insert r c' : insert_row (cj_table j) "id" r c = Ok c' → step c c'
| step_attach n from to name c' :
    0 <= from → short j (ident name) →
    createPartitionByPartitionInfo (TableJob (cj_table j) "id" n) (PartitionInfo from to name) c
      = (c', Ok tt) → step c c'
| step_constraint pls pl c' o :
    getPartitionInfo j c = Ok pls → pl ∈ pls → createConstraintJob j pl c = (c', o) → step c c'.

Lemma short_ident name : short j name → ident name = name.
Proof. unfold short. intros Hs. apply ident_short. lia. Qed.

Lemma get_part_elem c p :
  NoDup (p_name <$> parts c) → p ∈ parts c → ident (p_name p) = p_name p →
  get_part (p_name p) c = Ok p.
Proof.
  intros Hnd Hp Hid. unfold get_part. rewrite Hid. clear Hid.
  enough (find (λ q, bool_decide (p_name q = p_name p)) (parts c) = Some p) as -> by done.
  induction (parts c) as [|q ps IH]; [by apply elem_of_nil in Hp|]. simpl.
  rewrite fmap_cons in Hnd. apply NoDup_cons in Hnd as [Hq Hnd].
  apply elem_of_cons in Hp as [->|Hp]; [by rewrite bool_decide_true|].
  rewrite bool_decide_false; [by apply IH|]. intros Heq. apply Hq. rewrite Heq. by apply list_elem_of_fmap_2.
Qed.

(** The payloads of the check job: the partitions, with the ends of their
    ranges read back from the text of the bounds. *)
Lemma payloads c :
  (∀ p, p ∈ children (cj_table j) c → 0 <= p_from p < p_to p) →
  getPartitionInfo j c = Ok ((λ p, Payload (p_name p) (Some (toString (p_from p)))
                                     (Some (toString (p_to p)))) <$> children (cj_table j) c).
Proof.
  intros Hr. unfold getPartitionInfo. rewrite <-mapR_pure. apply mapR_ext. intros p Hp%Hr.
  by rewrite bounds_match_bounds by lia.
Qed.

Lemma children_update name f c p' :
  (∀ q, p_parent (f q) = p_parent q) → p' ∈ children (cj_table j) (update_part name f c) →
  ∃ q, q ∈ children (cj_table j) c ∧
    (p_name q ≠ ident name ∧ p' = q ∨ p_name q = ident name ∧ p' = f q).
Proof.
  intros Hf [Hp Hpar]%elem_of_children. simpl in Hp.
  apply list_elem_of_fmap in Hp as (q & Heq & Hq).
  case_bool_decide as Hn; subst p'; exists q; (split; [apply elem_of_children|]); auto.
  by rewrite Hf in Hpar.
Qed.

Lemma update_names name cs c :
  p_name <$> parts (update_part name (set_checks cs) c) = p_name <$> parts c.
Proof.
  simpl. rewrite <-list_fmap_compose. apply list_fmap_ext. intros i q _. simpl.
  by case_bool_decide.
Qed.

Lemma wf_payload c pls pl :
  wf_table c → getPartitionInfo j c = Ok pls → pl ∈ pls →
  ∃ p, p ∈ children (cj_table j) c ∧
    createConstraintJob j pl c = (after_cat p (job_spec j p).2 c, Ok (job_spec j p).1) ∧
    wf_part j (after p (job_spec j p).2).
Proof.
  intros Hwf. rewrite payloads by apply Hwf. intros [= <-] (p & -> & Hp)%list_elem_of_fmap.
  pose proof (wf_parts _ Hwf p Hp) as Hpart. pose proof (wf_range _ Hwf p Hp).
  exists p. split; [done|]. apply job_run_spec; [done| |done|lia].
  apply get_part_elem; [apply Hwf|by apply elem_of_children in Hp as [? _]|].
  apply short_ident, Hpart.
Qed.

Lemma insert_wf r c c' :
  wf_table c → insert_row (cj_table j) "id" r c = Ok c' → wf_table c'.
Proof.
  intros Hwf Hins.
  apply insert_row_Ok in Hins as (l1 & p & l2 & Hparts & Hpar & Hcov & Hacc & ->).
  assert (∀ p', p' ∈ children (cj_table j) {| relations := relations c; parts := l1 ++ add_row r p :: l2 |} →
    p' ∈ children (cj_table j) c ∨ p' = add_row r p ∧ p ∈ children (cj_table j) c) as Hch.
  { intros p' [Hp' Hpp]%elem_of_children. rewrite !elem_of_children, Hparts. simpl in Hp'.
    rewrite elem_of_app, elem_of_cons in Hp' |- *. rewrite elem_of_app, elem_of_cons.
    naive_solver. }
  split; simpl.
  - pose proof (wf_unique _ Hwf) as Hnd. rewrite Hparts in Hnd.
    by rewrite fmap_app, fmap_cons in Hnd |- *.
  - intros p' Hp'. pose proof (wf_listed _ Hwf) as Hl. rewrite Hparts in Hl.
    rewrite elem_of_app, elem_of_cons in Hp'. setoid_rewrite elem_of_app in Hl.
    setoid_rewrite elem_of_cons in Hl. destruct Hp' as [?|[->|?]]; [auto| |auto]. apply (Hl p). auto.
  - intros p' [Hp'|[-> Hp]]%Hch; [by apply Hwf|].
    destruct (wf_parts _ Hwf p Hp) as [Hn Hr Hs]. split; simpl; [done| |].
    2:{ destruct Hs as [?|[?|?]]; [by left| |]; right; [left|right]; by apply bounded_app. }
    intros r' nc [Hr'|Hr']%elem_of_app Hnc; [by apply Hr|]. apply list_elem_of_singleton in Hr' as ->.
    rewrite forallb_forall in Hacc. by apply Hacc, list_elem_of_In.
  - intros p' [Hp'|[-> Hp]]%Hch; [by apply Hwf|by apply (wf_range _ Hwf p)].
  - intros p' r' [Hp'|[-> Hp]]%Hch; [by apply Hwf|]. simpl.
    intros [Hr'|Hr']%elem_of_app; [by apply (wf_ids _ Hwf p)|].
    by apply list_elem_of_singleton in Hr' as ->.
Qed.

Lemma attach_wf n from to name c c' :
  wf_table c → 0 <= from → short j (ident name) →
  createPartitionByPartitionInfo (TableJob (cj_table j) "id" n) (PartitionInfo from to name) c
    = (c', Ok tt) → wf_table c'.
Proof.
  intros Hwf Hfrom Hshort Hatt.
  unfold createPartitionByPartitionInfo, commit, create_table, attach_partition in Hatt. simpl in Hatt.
  case_bool_decide as Hfresh; [done|]. simpl in Hatt.
  destruct (Z.leb_spec to from) as [|Hlt]; [done|].
  destruct (existsb _ _); [done|]. injection Hatt as <-.
  assert (∀ p', p' ∈ children (cj_table j) {| relations := ident name :: relations c;
      parts := parts c ++ [Partition (cj_table j) (ident name) from to [] []] |} →
    p' ∈ children (cj_table j) c ∨ p' = Partition (cj_table j) (ident name) from to [] []) as Hch.
  { intros p' [Hp' Hpp]%elem_of_children. rewrite elem_of_children. simpl in Hp'.
    rewrite elem_of_app, list_elem_of_singleton in Hp'. naive_solver. }
  split; simpl.
  - rewrite fmap_app. apply NoDup_app. split; [apply Hwf|]. split; [|apply NoDup_singleton].
    intros x (q & -> & Hq)%list_elem_of_fmap Hx. simpl in Hx. apply list_elem_of_singleton in Hx.
    apply Hfresh. rewrite <-Hx. by apply (wf_listed _ Hwf).
  - intros p' [Hp'| ->%list_elem_of_singleton]%elem_of_app; simpl; rewrite elem_of_cons; [|by left].
    right. by apply (wf_listed _ Hwf).
  - intros p' [Hp'| ->]%Hch; [by apply Hwf|]. split; simpl; [done|by intros ? ? ?%elem_of_nil|by left].
  - intros p' [Hp'| ->]%Hch; [by apply Hwf|]. simpl. lia.
  - intros p' r [Hp'| ->]%Hch; [by apply Hwf|]. by intros ?%elem_of_nil.
Qed.

Lemma constraint_wf pls pl c c' o :
  wf_table c → getPartitionInfo j c = Ok pls → pl ∈ pls → createConstraintJob j pl c = (c', o) →
  wf_table c'.
Proof.
  intros Hwf Hpls Hpl Hrun.
  destruct (wf_payload c pls pl Hwf Hpls Hpl) as (p & Hp & Hjob & Hp').
  rewrite Hjob in Hrun. injection Hrun as <- <-.
  destruct (job_spec j p).2 as [cs|]; simpl in *; [|done].
  assert (∀ q, q ∈ children (cj_table j) (update_part (p_name p) (set_checks cs) c) →
    q = set_checks cs p ∨ q ∈ children (cj_table j) c) as Hch.
  { intros q (q' & Hq' & [[_ ->]|[Hn ->]])%children_update; [by right| |done].
    left. f_equal. pose proof (wf_parts _ Hwf p Hp) as Hpart.
    rewrite (short_ident (p_name p)) in Hn by apply Hpart.
    apply elem_of_children in Hq' as [Hq' _], Hp as [Hp _].
    pose proof (wf_unique _ Hwf) as Hnd.
    pose proof (get_part_elem c p Hnd Hp ltac:(apply short_ident, Hpart)) as G1.
    pose proof (get_part_elem c q' Hnd Hq') as G2. rewrite Hn in G2.
    rewrite G1 in G2. specialize (G2 ltac:(apply short_ident, Hpart)). by injection G2. }
  split.
  - rewrite update_names. apply Hwf.
  - intros q Hq. simpl in *. apply list_elem_of_fmap in Hq as (q' & -> & Hq').
    case_bool_decide; by apply (wf_listed _ Hwf q').
  - intros q [->|Hq]%Hch; [done|by apply Hwf].
  - intros q [->|Hq]%Hch; [by apply (wf_range _ Hwf p)|by apply Hwf].
  - intros q r [->|Hq]%Hch; [|by apply Hwf]. by apply (wf_ids _ Hwf p r).
Qed.

Lemma step_wf c c' : wf_table c → step c c' → wf_table c'.
Proof. intros Hwf []; eauto using insert_wf, attach_wf, constraint_wf. Qed.
End Table.

(** ** Properties *)

(** C31: The partitions of a table stay well formed, whatever sequence of
    insertions, runs of the constraint job and new partitions, as long as the
    names of the new partitions leave room for the names of their constraints
    (a longer one is never recognised as done).  Every row lies in the range
    of its partition and satisfies its constraints.  The constraints of a
    partition are none, or the lower bounds, or both bounds: they accept
    exactly the rows whose columns are not below (and, with both bounds, not
    above) all the values of the rows that the partition held at some moment;
    both bounds were taken when it held its last id.  In such a state no run
    of the constraint job fails (durations, and so the timeout of its
    statements, are not modelled). *)
Theorem constraints_well_formed `{!Identifiers} (j : constraint_job) (c c' : catalog) :
  j ∈ constraint_jobs → wf_table j c → rtc (step j) c c' →
  wf_table j c' ∧
  ∃ pls, getPartitionInfo j c' = Ok pls ∧
    ∀ pl, pl ∈ pls → ∃ c'' status, createConstraintJob j pl c' = (c'', Ok status).
Proof.
  intros Hj%constraint_jobs_ok Hwf Hsteps. assert (wf_table j c') as Hwf'.
  { induction Hsteps as [|c c1 c' Hs _ IH]; [done|]. apply IH. by eapply step_wf. }
  split; [done|]. eexists. split; [apply payloads, Hwf'|]. intros pl Hpl.
  destruct (wf_payload j Hj c' _ pl Hwf' (payloads j c' (wf_range _ _ Hwf')) Hpl) as (p & _ & Hrun & _).
  eauto.
Qed.

(** One run of the constraint job on a partition: an empty partition gets
    nothing; a partition that still takes rows gets, once, the lower bounds
    of its rows; a full partition gets both bounds in place of the lower
    ones, once; the new constraints hold for all its rows. *)
Theorem constraint_job_correct `{!Identifiers} (j : constraint_job) (p : partition)
    (from : option string) (c : catalog) :
  j ∈ constraint_jobs → get_part (p_name p) c = Ok p → wf_part j p → 0 <= p_to p →
  createConstraintJob j (Payload (p_name p) from (Some (toString (p_to p)))) c
  = (after_cat p (job_spec j p).2 c, Ok (job_spec j p).1) ∧ wf_part j (after p (job_spec j p).2).
Proof. intros Hj%constraint_jobs_ok ???. by apply job_run_spec. Qed.

Lemma get_part_update `{!Identifiers} name f c p :
  (∀ q, p_name (f q) = p_name q) → get_part name c = Ok p →
  get_part name (update_part name f c) = Ok (f p).
Proof.
  unfold get_part. simpl. intros Hf.
  induction (parts c) as [|q ps IH]; simpl; [done|].
  case_bool_decide as Hq; simpl.
  - intros [= <-]. by rewrite bool_decide_true by by rewrite Hf.
  - rewrite bool_decide_false by done. apply IH.
Qed.

(** A full partition reaches its final state in one run: when a row has
    the first column of the constraint, the run leaves the constraints with
    both bounds, and every later run changes nothing.  When no row has it,
    the run is taken for one of a partition that still takes rows: it drops
    and adds the lower bounds again, and so does every later run. *)
Theorem full_partition_final `{!Identifiers} (j : constraint_job) (p : partition)
    (from : option string) (c : catalog) :
  j ∈ constraint_jobs → get_part (p_name p) c = Ok p → wf_part j p → 0 <= p_to p →
  max_col "id" (p_rows p) = Some (p_to p - 1) → (p_checks p).*1 ≠ names j (p_name p) Done →
  let pl := Payload (p_name p) from (Some (toString (p_to p))) in
  let final := if to_is_null (getMaxMin (cj_cols j) p) then Inserting else Done in
  ∃ c' p', createConstraintJob j pl c = (c', Ok constraintUpdated) ∧
    get_part (p_name p) c' = Ok p' ∧ (p_checks p').*1 = names j (p_name p) final ∧
    (final = Done → createConstraintJob j pl c' = (c', Ok currentPartitionDoneOrInserting)) ∧
    (final = Inserting → ∃ c'', createConstraintJob j pl c' = (c'', Ok constraintUpdated)).
Proof.
  intros Hj%constraint_jobs_ok Hget Hwf Hto Hmax Hnd pl final.
  destruct (job_run_spec j Hj p from c Hget Hwf Hto) as [Hrun Hwf'].
  unfold job_spec in Hrun, Hwf'. rewrite Hmax, Z.eqb_refl, decide_False in Hrun, Hwf' by done.
  cbn [fst snd after_cat after] in Hrun, Hwf'.
  set (cs := stored (new_constraints j (p_name p) (getMaxMin (cj_cols j) p) p)) in *.
  pose proof (get_part_update (p_name p) (set_checks cs) c p (λ _, eq_refl) Hget) as Hget'.
  eexists _, (set_checks cs p). split; [exact Hrun|]. split; [exact Hget'|].
  assert (cs.*1 = names j (p_name p) final) as Hcs by apply stored_names.
  split; [exact Hcs|].
  destruct (job_run_spec j Hj (set_checks cs p) from _ Hget' Hwf' Hto) as [Hrun2 _].
  unfold job_spec in Hrun2. cbn [p_name p_rows p_checks p_to set_checks] in Hrun2.
  rewrite Hmax, Z.eqb_refl, Hcs in Hrun2.
  split; intros Hf; rewrite Hf in Hrun2.
  - by rewrite decide_True in Hrun2.
  - rewrite decide_False in Hrun2 by (by apply names_ne, Hwf). eexists. exact Hrun2.
Qed.

(** Once the constraint job has run on a partition of [event] that still
    takes rows, the partition rejects every row whose block is below the
    lowest block it held at that moment.  The block crawler inserts the
    events of a block before the transactions of earlier blocks are handled,
    so such rows do arrive. *)
Theorem late_event_rejected `{!Identifiers} (p : partition) (from : option string)
    (c : catalog) (r : row) (id m h : Z) :
  get_part (p_name p) c = Ok p → wf_part EventCt.job p → 0 <= p_to p → p_checks p = [] →
  max_col "id" (p_rows p) = Some id → id ≠ p_to p - 1 →
  min_col "block_height" (p_rows p) = Some m →
  (∀ q, q ∈ children "event" c → covers "id" r q = true → q = p) →
  r !! "block_height" = Some h → h < m →
  ∃ c', EventCt.createEventConstraint (Payload (p_name p) from (Some (toString (p_to p)))) c
        = (c', Ok constraintUpdated) ∧
    ∃ msg, insert_row "event" "id" r c' = Throw msg.
Proof.
  intros Hget Hwf Hto Hck Hmax Hid Hmin Honly Hh Hlt.
  assert (job_ok EventCt.job) as Hj by (apply constraint_jobs_ok; by left).
  destruct (job_run_spec EventCt.job Hj p from c Hget Hwf Hto) as [Hrun _].
  unfold job_spec in Hrun. rewrite Hmax, (proj2 (Z.eqb_neq _ _)) in Hrun by done.
  rewrite decide_True in Hrun by done.
  eexists. split; [exact Hrun|]. cbn [snd after_cat].
  destruct (insert_row _ _ r _) as [c''|msg] eqn:Hins; [exfalso|by eexists].
  apply insert_row_Ok in Hins as (l1 & q & l2 & Hparts & Hpar & Hcov & Hacc & _).
  assert (q ∈ children (cj_table EventCt.job) (update_part (p_name p)
    (set_checks (stored (new_constraints EventCt.job (p_name p)
      ((λ b : bound, (b.1, None)) <$> getMaxMin (cj_cols EventCt.job) p) p))) c)) as Hq.
  { apply elem_of_children. split; [|done]. rewrite Hparts, elem_of_app, elem_of_cons. auto. }
  assert (ident (p_name p) = p_name p) as Hname by apply (short_ident EventCt.job), Hwf.
  apply children_update in Hq as (q' & Hq' & [[Hne ->]|[_ ->]]); [| |done].
  - apply Hne. rewrite Hname. f_equal. by apply Honly.
  - assert (q' = p) as -> by by apply Honly.
    cbn [p_checks set_checks] in Hacc. unfold stored, new_constraints in Hacc. simpl in Hacc.
    unfold lower_check in Hacc. simpl in Hacc. rewrite andb_true_r, accepts_and, andb_true_iff in Hacc.
    destruct Hacc as [_ Hge]. rewrite accepts_ge in Hge. specialize (Hge _ _ Hh Hmin). lia.
Qed.

(** ** Concrete runs *)
Section Witnesses.
Local Existing Instance cut63.

Definition ct_row (id tx height : Z) : row :=
  <["id" := id]> (<["tx_id" := tx]> {[ "block_height" := height ]}).

(** A small partition of [event] with the given rows. *)
Definition ct_catalog (rows : list row) : catalog :=
  {| relations := ["event_partition_0_4"];
     parts := [Partition "event" "event_partition_0_4" 0 4 [] rows] |}.
Definition ct_part (rows : list row) : partition :=
  Partition "event" "event_partition_0_4" 0 4 [] rows.
Definition open_rows : list row := [{[ "id" := 1; "block_height" := 1000 ]}; ct_row 2 7 1001].
Definition full_rows : list row := open_rows ++ [ct_row 3 8 1001].

Lemma ct_part_wf rows : wf_part EventCt.job (ct_part rows).
Proof. split; [unfold short; simpl; lia|by intros ? ? ? ?%elem_of_nil|by left]. Qed.

Lemma ct_catalog_wf rows :
  (∀ r, r ∈ rows → covers "id" r (ct_part rows) = true) → wf_table EventCt.job (ct_catalog rows).
Proof.
  assert (∀ p, p ∈ children "event" (ct_catalog rows) → p = ct_part rows) as Hp
    by by intros p [?%list_elem_of_singleton _]%elem_of_children.
  intros Hrows. split.
  - apply NoDup_singleton.
  - intros p ->%list_elem_of_singleton. by left.
  - intros p ->%Hp. apply ct_part_wf.
  - intros p ->%Hp. simpl. lia.
  - intros p r ->%Hp. apply Hrows.
Qed.

(** A row fills the partition, and the job puts both bounds. *)
Definition ct_bounded : catalog :=
  {| relations := ["event_partition_0_4"];
     parts := [Partition "event" "event_partition_0_4" 0 4
       [("event_ct_event_partition_0_4_done",
         CAnd (CAnd (CAnd (CGe "tx_id" (Some 7)) (CLe "tx_id" (Some 8)))
           (CGe "block_height" (Some 1000))) (CLe "block_height" (Some 1001)))] full_rows] |}.

Lemma constraints_well_formed_witness :
  wf_table EventCt.job ct_bounded ∧
  ∃ pls, getPartitionInfo EventCt.job ct_bounded = Ok pls ∧
    ∀ pl, pl ∈ pls → ∃ c'' status, createConstraintJob EventCt.job pl ct_bounded = (c'', Ok status).
Proof.
  apply (constraints_well_formed EventCt.job (ct_catalog open_rows)); [by left| |].
  - apply ct_catalog_wf. unfold open_rows. intros r. rewrite !elem_of_cons, elem_of_nil.
    intros [->|[->|[]]]; by vm_compute.
  - apply (rtc_l _ _ (ct_catalog full_rows)); [apply (step_insert _ _ (ct_row 3 8 1001)); by vm_compute|].
    apply rtc_once, (step_constraint _ _ [Payload "event_partition_0_4" (Some "0") (Some "4")]
      (Payload "event_partition_0_4" (Some "0") (Some "4")) _ (Ok constraintUpdated));
      [by vm_compute|by left|by vm_compute].
Defined.

Lemma constraint_job_correct_witness :
  createConstraintJob EventCt.job (Payload "event_partition_0_4" None (Some (toString 4))) (ct_catalog open_rows)
  = (after_cat (ct_part open_rows) (job_spec EventCt.job (ct_part open_rows)).2 (ct_catalog open_rows),
     Ok (job_spec EventCt.job (ct_part open_rows)).1) ∧
  wf_part EventCt.job (after (ct_part open_rows) (job_spec EventCt.job (ct_part open_rows)).2).
Proof.
  apply (constraint_job_correct EventCt.job (ct_part open_rows) None (ct_catalog open_rows));
    [by left|done|apply ct_part_wf|done].
Defined.

Lemma full_partition_final_witness :
  let final := if to_is_null (getMaxMin (cj_cols EventCt.job) (ct_part full_rows)) then Inserting else Done in
  let pl := Payload "event_partition_0_4" None (Some (toString 4)) in
  final = Done ∧
  ∃ c' p', createConstraintJob EventCt.job pl (ct_catalog full_rows) = (c', Ok constraintUpdated) ∧
    get_part "event_partition_0_4" c' = Ok p' ∧
    (p_checks p').*1 = names EventCt.job "event_partition_0_4" final ∧
    (final = Done → createConstraintJob EventCt.job pl c' = (c', Ok currentPartitionDoneOrInserting)) ∧
    (final = Inserting → ∃ c'', createConstraintJob EventCt.job pl c' = (c'', Ok constraintUpdated)).
Proof.
  split; [by vm_compute|].
  apply (full_partition_final EventCt.job (ct_part full_rows) None (ct_catalog full_rows));
    [by left|done|apply ct_part_wf|done|by vm_compute|done].
Defined.

Lemma late_event_rejected_witness :
  ∃ c', EventCt.createEventConstraint (Payload "event_partition_0_4" None (Some (toString 4)))
          (ct_catalog open_rows) = (c', Ok constraintUpdated) ∧
    ∃ msg, insert_row "event" "id" (ct_row 3 5 999) c' = Throw msg.
Proof.
  apply (late_event_rejected (ct_part open_rows) None (ct_catalog open_rows) (ct_row 3 5 999) 2 1000 999);
    try done; try by vm_compute.
  - apply ct_part_wf.
  - by intros q [?%list_elem_of_singleton _]%elem_of_children.
Defined.
End Witnesses.

(** The name of a done constraint that is longer than the server allows
    loses its last letters, and the job does not recognise it: on a full
    partition of [transaction_message] with ten-digit ids every run drops the
    constraint and adds it again. *)
Theorem shortened_name_never_done :
  let name := "transaction_message_partition_900000000_1000000000" in
  let p := Partition "transaction_message" name 900000000 1000000000 []
             [<["id" := 999999999]> {[ "tx_id" := 5 ]}] in
  let c := {| relations := [name]; parts := [p] |} in
  let run := @createConstraintJob cut63 TransactionMessageCt.job
               (Payload name (Some "900000000") (Some "1000000000")) in
  ∃ c1, run c = (c1, Ok constraintUpdated) ∧ run c1 = (c1, Ok constraintUpdated) ∧
    p_checks <$> parts c1 = [[("txmsg_ct_transaction_message_partition_900000000_1000000000_don",
      CAnd (CGe "tx_id" (Some 5)) (CLe "tx_id" (Some 5)))]].
Proof. eexists. split; [vm_compute; reflexivity|]. split; vm_compute; reflexivity. Qed.
