(* ===== verification/EventTables.v ===== *)
(** * Maintenance of the event tables

    [Module AttrConstraint] models
    [services/job/create_constraint_in_attr_partition.service.ts]: the
    constraints of the partitions of [event_attribute], which follow the
    height that [handle:transaction] has reached.

    [Module Migrate] and [Module Rename] model
    [migrate_data_event_table.service.ts] and
    [rename_event_with_event_partition.service.ts]: the copy of the table
    [event] into the partitioned table [event_partition], and the exchange of
    the two tables when the copy has caught up.

    [Module CompositeIndex] models
    [create_index_composite_in_attr_partition.service.ts]. *)
From S2P Require Import Prelude JsNum Checkpoint Catalog Partitions Constraints.

(** ** Constraints of [event_attribute] *)
Module AttrConstraint.

(** [statusPartition] *)
Inductive status := running | waiting | done.
#[export] Instance status_eq_dec : EqDecision status.
Proof. solve_decision. Defined.

Record job_payload := JobPayload { jp_name : string; jp_lower : string; jp_upper : string; jp_status : status }.

(** A comparison of a number with a string of digits, which JavaScript turns
    into a number. *)
Definition num (s : string) : Z := default 0 (parseInt s).

(** [addStatusToPartition], for one partition. *)
Definition partition_status (height : Z) (lower upper : string) : status :=
  if (num lower <=? height) && (height <? num upper) then running
  else if num upper <? height then done
  else waiting.

Definition addStatusToPartition (cps : gmap string Z) (listPartition : list (string * string * string))
  : res (list job_payload) :=
  match cps !! jd_name HANDLE_TRANSACTION with
  | None => Throw "Cannot found HANDLE_TRANSACTION block checkpoint"
  | Some height =>
      Ok ((λ '(n, a, b), JobPayload n a b (partition_status height a b)) <$> listPartition)
  end.

(** [createContraintInAttrPartition]: the payloads of the jobs it creates. *)
Definition createContraintInAttrPartition (cps : gmap string Z) (c : catalog) : res (list job_payload) :=
  listPartition ← mapR (λ p,
    match bounds_match (partition_bounds p) with
    | Some (a, b) => Ok (p_name p, a, b)
    | None => Throw "TypeError: Cannot read properties of null (reading '0')"
    end) (children "event_attribute" c);
  addStatusToPartition cps listPartition.

(** [!boundaries.min_event_id && !boundaries.max_event_id], where ids are
    strings or null. *)
Definition no_data (rows : list row) : bool :=
  match min_col "event_id" rows, max_col "event_id" rows with None, None => true | _, _ => false end.

Definition constraint_of (pl : job_payload) : string :=
  "check_in_" +:+ jp_lower pl +:+ "_" +:+ jp_upper pl.

(** [createFullConstraintScript] and [createLowerBoundConstraintScript] *)
Definition full_script (pl : job_payload) (rows : list row) : check :=
  CAnd (CAnd (CAnd (CAnd (CGe "event_id" (min_col "event_id" rows)) (CLe "event_id" (max_col "event_id" rows)))
    (CGe "block_height" (Some (num (jp_lower pl))))) (CLt "block_height" (Some (num (jp_upper pl)))))
    (COr (CAnd (CGe "tx_id" (min_col "tx_id" rows)) (CLe "tx_id" (max_col "tx_id" rows))) (CIsNull "tx_id")).
Definition lower_script (pl : job_payload) (rows : list row) : check :=
  CAnd (CAnd (CAnd (CGe "event_id" (min_col "event_id" rows))
    (CGe "block_height" (Some (num (jp_lower pl))))) (CLt "block_height" (Some (num (jp_upper pl)))))
    (COr (CGe "tx_id" (min_col "tx_id" rows)) (CIsNull "tx_id")).

Section Job.
Context `{!Identifiers}.

(** [add constraint ... not valid], a statement of its own. *)
Definition add_statement (name cname : string) (ck : check) : catalog → res catalog := λ c,
  p ← get_part name c; cs ← add_constraint cname ck (p_checks p);
  Ok (update_part name (set_checks cs) c).
Definition drop_statement (name cname : string) : catalog → res catalog := λ c,
  p ← get_part name c; cs ← drop_constraint cname (p_checks p);
  Ok (update_part name (set_checks cs) c).
Definition validate_statement (name cname : string) : catalog → res catalog := λ c,
  p ← get_part name c; '(_) ← validate_constraint cname (p_rows p) (p_checks p); Ok c.

Definition createConstraintInPartition (pl : job_payload) : io catalog () :=
  p ← λ c, (c, get_part (jp_name pl) c);
  let constraintResult := find (λ nc : string * check, like "check_in_%" nc.1) (p_checks p) in
  if match constraintResult with
     | Some (_, def) => mentions_ge "event_id" def && mentions_le "event_id" def
     | None => false
     end then mret () else
  if no_data (p_rows p) then mret () else
  let name := jp_name pl in
  let full := full_script pl (p_rows p) in
  match constraintResult with
  | Some (current, def) =>
      if mentions_ge "event_id" def && bool_decide (jp_status pl = done) then
        commit (λ c,
          c ← drop_statement name current c;
          c ← add_statement name (constraint_of pl) full c;
          validate_statement name (constraint_of pl) c)
      else mret ()
  | None =>
      match jp_status pl with
      | done =>
          commit (add_statement name (constraint_of pl) full);;
          commit (validate_statement name (constraint_of pl))
      | running =>
          commit (add_statement name (constraint_of pl) (lower_script pl (p_rows p)));;
          commit (validate_statement name (constraint_of pl))
      | waiting => mret ()
      end
  end.

(** ** One run *)

(** The status against the height that [handle:transaction] has reached.  At
    the height of the upper bound, which the partition does not contain any
    more, the partition is still [waiting]. *)
Lemma partition_status_spec height lo hi :
  0 <= lo < hi →
  partition_status height (toString lo) (toString hi)
  = if decide (lo <= height < hi) then running else if decide (hi < height) then done else waiting.
Proof.
  intros Hb. unfold partition_status, num. rewrite !parseInt_toString by lia. simpl.
  destruct (Z.leb_spec lo height), (Z.ltb_spec height hi), (Z.ltb_spec hi height); simpl;
    repeat case_decide; try done; lia.
Qed.

(** The partition as the job meets it. *)
Record wf_attr (pl : job_payload) (p : partition) : Prop := {
  wfa_name : jp_name pl = p_name p ∧ ident (p_name p) = p_name p ∧ ident (constraint_of pl) = constraint_of pl;
  wfa_rows (r : row) : r ∈ p_rows p → ∃ h, r !! "block_height" = Some h ∧ num (jp_lower pl) <= h < num (jp_upper pl);
  wfa_checks : p_checks p = [] ∨ ∃ def, p_checks p = [(constraint_of pl, def)] ∧ mentions_ge "event_id" def = true ∧
    ∀ r, r ∈ p_rows p → accepts def r = true
}.

Lemma like_check_in s : like "check_in_%" ("check_in_" +:+ s) = true.
Proof. apply like_any. Qed.

Lemma scripts_accept pl p r :
  wf_attr pl p → r ∈ p_rows p →
  accepts (full_script pl (p_rows p)) r = true ∧ accepts (lower_script pl (p_rows p)) r = true.
Proof.
  intros Hwf Hr. destruct (wfa_rows _ _ Hwf r Hr) as (h & Hh & Hlo & Hhi).
  assert (∀ col, accepts (CGe col (min_col col (p_rows p))) r = true) as Hge.
  { intros col. apply accepts_ge. intros x y Hx [_ Hy]%min_col_spec. by eapply Hy. }
  assert (∀ col, accepts (CLe col (max_col col (p_rows p))) r = true) as Hle.
  { intros col. apply accepts_le. intros x y Hx [_ Hy]%max_col_spec. by eapply Hy. }
  assert (accepts (CGe "block_height" (Some (num (jp_lower pl)))) r = true) as H1.
  { apply accepts_ge. intros x y Hx [= <-]. simplify_eq. lia. }
  assert (accepts (CLt "block_height" (Some (num (jp_upper pl)))) r = true) as H2.
  { apply accepts_lt. intros x y Hx [= <-]. simplify_eq. lia. }
  assert (∀ c, accepts c r = true → accepts (COr c (CIsNull "tx_id")) r = true) as Hor.
  { intros c. unfold accepts. simpl. by destruct (eval_check r c) as [[]|], (bool_decide _). }
  unfold full_script, lower_script. rewrite !accepts_and, !Hge, !Hle, H1, H2. simpl. split; apply Hor.
  - by rewrite accepts_and, Hge, Hle.
  - apply Hge.
Qed.

Lemma update_twice name cs cs' c :
  update_part name (set_checks cs) (update_part name (set_checks cs') c) = update_part name (set_checks cs) c.
Proof.
  unfold update_part. simpl. f_equal. rewrite <-list_fmap_compose. apply list_fmap_ext.
  intros i q _. simpl. destruct (bool_decide (p_name q = ident name)) eqn:Hq; simpl; by rewrite Hq.
Qed.

(** What a run does to the constraints of the partition. *)
Definition attr_spec (pl : job_payload) (p : partition) : option (list (string * check)) :=
  if no_data (p_rows p) then None else
  match p_checks p, jp_status pl with
  | [], done => Some [(constraint_of pl, full_script pl (p_rows p))]
  | [], running => Some [(constraint_of pl, lower_script pl (p_rows p))]
  | [], waiting => None
  | (_, def) :: _, done =>
      if mentions_le "event_id" def then None
      else Some [(constraint_of pl, full_script pl (p_rows p))]
  | _, _ => None
  end.

Lemma add_then_validate pl p ck c :
  wf_attr pl p → get_part (p_name p) c = Ok p → p_checks p = [] →
  (∀ r, r ∈ p_rows p → accepts ck r = true) →
  ∃ c', add_statement (p_name p) (constraint_of pl) ck c = Ok c' ∧
    c' = update_part (p_name p) (set_checks [(constraint_of pl, ck)]) c ∧
    validate_statement (p_name p) (constraint_of pl) c' = Ok c'.
Proof.
  intros Hwf Hget Hck Hacc. destruct (wfa_name _ _ Hwf) as (_ & _ & Hid). eexists. split_and!.
  - unfold add_statement, add_constraint. rewrite Hget. simpl. by rewrite Hck, bool_decide_false by by intros ?%elem_of_nil.
  - by rewrite Hid.
  - unfold validate_statement. rewrite (get_part_update _ _ _ p) by done. simpl.
    unfold validate_constraint. simpl. rewrite Hid, bool_decide_true by done.
    by rewrite (proj2 (forallb_forall _ _)) by by intros r Hr%list_elem_of_In; apply Hacc.
Qed.

Lemma wf_attr_after pl p o :
  wf_attr pl p → attr_spec pl p = o → wf_attr pl (after p o).
Proof.
  intros Hwf <-. pose proof (scripts_accept pl p) as Hacc.
  unfold attr_spec. destruct (no_data _); [done|].
  assert (∀ ck, mentions_ge "event_id" ck = true → (∀ r, r ∈ p_rows p → accepts ck r = true) →
    wf_attr pl (set_checks [(constraint_of pl, ck)] p)) as Hset.
  { intros ck Hge Hr. destruct Hwf. split; [done|done|]. right. by exists ck. }
  destruct (p_checks p) as [|[n def] cs]; destruct (jp_status pl); simpl; try done;
    try (apply Hset; [done|]; intros r Hr; by apply Hacc).
  destruct (mentions_le _ _); simpl; [done|]. apply Hset; [done|]. intros r Hr; by apply Hacc.
Qed.

Lemma attr_run pl p c :
  get_part (p_name p) c = Ok p → wf_attr pl p →
  createConstraintInPartition pl c = (after_cat p (attr_spec pl p) c, Ok tt).
Proof.
  intros Hget Hwf. destruct (wfa_name _ _ Hwf) as (Hn & _ & Hid).
  unfold createConstraintInPartition, attr_spec. rewrite Hn.
  unfold mbind at 1, io_bind at 1. rewrite Hget. cbv beta zeta.
  destruct (wfa_checks _ _ Hwf) as [Hck|(def & Hck & Hge & Hacc)]; rewrite Hck.
  - simpl. destruct (no_data _); [done|].
    destruct (jp_status pl); simpl; [| done|];
    match goal with |- context [commit (add_statement _ _ ?ck)] =>
      destruct (add_then_validate pl p ck c) as (c' & Hadd & Hc' & Hval); try done;
        [intros r Hr; by apply (scripts_accept pl p)|] end;
    unfold commit, mbind, io_bind; by rewrite Hadd, Hval, Hc'.
  - cbn [find fst]. rewrite (like_check_in (jp_lower pl +:+ "_" +:+ jp_upper pl) : like "check_in_%" (constraint_of pl) = true).
    rewrite Hge. cbn [andb].
    destruct (mentions_le "event_id" def); [by destruct (no_data _), (jp_status pl)|].
    destruct (no_data _); [done|].
    destruct (jp_status pl); simpl; try done.
    assert (drop_statement (p_name p) (constraint_of pl) c
      = Ok (update_part (p_name p) (set_checks []) c)) as Hdrop.
    { unfold drop_statement, drop_constraint. rewrite Hget. simpl. rewrite Hck, Hid. simpl.
      rewrite bool_decide_true by by left. simpl. by rewrite filter_cons, decide_False, filter_nil by naive_solver. }
    set (c1 := update_part (p_name p) (set_checks []) c) in *.
    destruct (add_then_validate pl (set_checks [] p) (full_script pl (p_rows p)) c1) as (c' & Hadd & Hc' & Hval).
    + destruct Hwf. split; [done|done|by left].
    + by apply (get_part_update (p_name p) (set_checks []) c p).
    + done.
    + intros r Hr. by apply (scripts_accept pl p).
    + cbn [p_name set_checks] in Hadd, Hc', Hval. unfold commit. rewrite Hdrop. simpl. rewrite Hadd. simpl.
      rewrite Hval, Hc'. unfold c1. by rewrite update_twice.
Qed.

Lemma attr_spec_idem pl p : wf_attr pl p → attr_spec pl (after p (attr_spec pl p)) = None.
Proof.
  intros Hwf. destruct (attr_spec pl p) as [cs|] eqn:Hs; [|done]. revert Hs. unfold attr_spec. simpl.
  destruct (no_data _); [done|].
  destruct (p_checks p) as [|[n def] l], (jp_status pl); try done; try (by intros [= <-]).
  destruct (mentions_le _ _); [done|]. by intros [= <-].
Qed.

(** The constraint of a partition of [event_attribute] follows its status:
    nothing while it has no data or waits, the lower bounds when
    [handle:transaction] works on it, both bounds once that job has passed
    it.  A run never fails, the constraint holds for every row of the
    partition, and a second run with the same status changes nothing. *)
Theorem attr_constraint_correct (pl : job_payload) (p : partition) (c : catalog) :
  get_part (p_name p) c = Ok p → wf_attr pl p →
  let c' := after_cat p (attr_spec pl p) c in
  createConstraintInPartition pl c = (c', Ok tt) ∧ wf_attr pl (after p (attr_spec pl p)) ∧
  createConstraintInPartition pl c' = (c', Ok tt).
Proof.
  intros Hget Hwf c'. split; [by apply attr_run|]. pose proof (wf_attr_after pl p _ Hwf eq_refl) as Hwf'.
  split; [done|]. rewrite (attr_run pl (after p (attr_spec pl p))); [by rewrite attr_spec_idem| |done].
  unfold c'. destruct (attr_spec pl p) as [cs|]; simpl; [|done]. by apply get_part_update.
Qed.
End Job.

Section Witness.
Local Existing Instance cut63.
Lemma attr_constraint_correct_witness :
  let r : row := <["event_id" := 7]> {[ "block_height" := 12 ]} in
  let p := Partition "event_attribute" "event_attribute_partition_10_20" 10 20 [] [r] in
  let c := Catalog ["event_attribute_partition_10_20"] [p] in
  let pl := JobPayload "event_attribute_partition_10_20" "10" "20" (partition_status 25 "10" "20") in
  let c' := after_cat p (attr_spec pl p) c in
  jp_status pl = done ∧
  createConstraintInPartition pl c = (c', Ok tt) ∧ wf_attr pl (after p (attr_spec pl p)) ∧
  createConstraintInPartition pl c' = (c', Ok tt).
Proof.
  split; [by vm_compute|]. apply attr_constraint_correct; [done|]. split.
  - by vm_compute.
  - intros r ->%list_elem_of_singleton. exists 12. by vm_compute.
  - by left.
Defined.
End Witness.
End AttrConstraint.

(** ** The copy of the table [event] *)
Module Migrate.
(** The parts of [config.migrationEventToPartition] the job uses. *)
Record config := Config { startId : Z; step : Z; limitRecordGet : Z }.
Definition json : config := Config 0 200000000 10000.

(** The old table (ids in ascending order), the new one, the checkpoint
    [CP_MIGRATE_DATA_EVENT_TABLE] and the catalog. *)
Record db := Db { event : list Z; event_partition : list Z; checkpoint : option Z; cat : catalog }.

Section Job.
Context `{!Identifiers} (cfg : config).

(** The loop [for (fromValue; fromValue < endValue; fromValue += range)], each
    round one transaction. *)
Fixpoint create_loop (fuel : nat) (fromValue endValue : Z) : io catalog () :=
  match fuel with
  | O => mret tt
  | S fuel =>
      if fromValue <? endValue then
        commit (λ c,
          c ← create_table (partition_name "event" fromValue (fromValue + step cfg)) c;
          attach_partition "event_partition" (partition_name "event" fromValue (fromValue + step cfg))
            fromValue (fromValue + step cfg) c);;
        create_loop fuel (fromValue + step cfg) endValue
      else mret tt
  end.

Definition createPartitionForEventPartition (startId endId : Z) (isPartitionAlreadyCreated : bool)
  : io catalog () :=
  if isPartitionAlreadyCreated then mret tt
  else create_loop (S (Z.to_nat ((endId + step cfg - startId) / step cfg))) startId (endId + step cfg).

(** [Event.query().where('id', '>', cur).orderBy('id', 'ASC').limit(n)] *)
Definition next_batch (cur : Z) (d : db) : list Z :=
  take (Z.to_nat (limitRecordGet cfg)) (filter (λ id, cur < id) (event d)).

(** The transaction of one batch (the row of the checkpoint exists); [ok] tells whether the database accepted it.
    On an error the transaction is rolled back and the error is logged. *)
Definition migrate_batch (ok : bool) (events : list Z) (last : Z) (d : db) : db :=
  if ok then Db (event d) (event_partition d ++ events) (Some last) (cat d) else d.

(** The loop [while (!done)]: [currentIdMigrated] moves to the end of the
    batch before the transaction.  [oks] are the outcomes of the
    transactions. *)
Fixpoint migrate_loop (fuel : nat) (oks : nat → bool) (cur : Z) (d : db) : db :=
  match fuel with
  | O => d
  | S fuel =>
      match last (next_batch cur d) with
      | None => d
      | Some l => migrate_loop fuel (λ n, oks (S n)) l (migrate_batch (oks O) (next_batch cur d) l d)
      end
  end.

(** A round removes at least one row from those above [cur]. *)
Definition migrateDataFromEventToEventPartition (oks : nat → bool) (startId : Z) (d : db) : db :=
  migrate_loop (S (length (event d))) oks startId d.

Definition migrateEventPartition (oks : nat → bool) : io db () := λ d,
  let created := match checkpoint d with Some _ => true | None => false end in
  let start := default (startId cfg) (checkpoint d) in
  let d := Db (event d) (event_partition d) (Some start) (cat d) in
  match last (event d) with
  | None => (d, Throw "TypeError: Cannot read properties of undefined (reading 'id')")
  | Some endId =>
      match createPartitionForEventPartition start endId created (cat d) with
      | (c, Throw e) => (Db (event d) (event_partition d) (checkpoint d) c, Throw e)
      | (c, Ok _) =>
          (migrateDataFromEventToEventPartition oks start
             (Db (event d) (event_partition d) (checkpoint d) c), Ok tt)
      end
  end.

(** Enough fuel for the loop that creates the partitions. *)
Lemma create_loop_fuel fuel fuel' fromValue endValue :
  0 < step cfg → endValue - fromValue <= step cfg * Z.of_nat fuel → (fuel ≤ fuel')%nat →
  ∀ c, create_loop fuel' fromValue endValue c = create_loop fuel fromValue endValue c.
Proof.
  intros Hstep. revert fuel' fromValue.
  induction fuel as [|fuel IH]; intros fuel' fromValue Hend Hle c.
  - destruct fuel' as [|fuel']; [done|]. simpl. by rewrite (proj2 (Z.ltb_ge _ _)) by lia.
  - destruct fuel' as [|fuel']; [lia|]. simpl. destruct (fromValue <? endValue); [|done].
    unfold mbind, io_bind. destruct (commit _ c) as [c' [[]|e]]; [|done]. apply IH; lia.
Qed.

(** ** What is copied *)

(** The rows above the checkpoint in batches of [n]. *)
Fixpoint batches (fuel n : nat) (l : list Z) : list (list Z) :=
  match fuel, l with
  | S fuel, _ :: _ => take n l :: batches fuel n (drop n l)
  | _, _ => []
  end.
(** The batches whose transaction was accepted. *)
Fixpoint accepted (oks : nat → bool) (bs : list (list Z)) : list (list Z) :=
  match bs with
  | [] => []
  | b :: bs => (if oks O then [b] else []) ++ accepted (λ n, oks (S n)) bs
  end.

Lemma sorted_filter_drop (l : list Z) n x :
  StronglySorted Z.lt l → last (take n l) = Some x → filter (λ y, x < y) l = drop n l.
Proof.
  intros Hs Hlast. rewrite <-(take_drop n l) in Hs |- * at 1.
  apply last_Some in Hlast as [l' Hl']. rewrite Hl' in Hs |- *.
  apply StronglySorted_app in Hs as (Hcross & Hs1 & Hs2).
  rewrite filter_app, filter_none, filter_all; [done| |].
  - intros y Hy. apply Hcross; [|done]. apply elem_of_app. right. by apply list_elem_of_singleton.
  - intros y [Hy| ->%list_elem_of_singleton]%elem_of_app; [|lia].
    apply StronglySorted_app in Hs1 as (Hc & _). specialize (Hc y x Hy ltac:(by left)). lia.
Qed.

Lemma filter_filter_lt (l : list Z) a b :
  a <= b → filter (λ y, b < y) (filter (λ y, a < y) l) = filter (λ y, b < y) l.
Proof. intros Hab. rewrite list_filter_filter. apply list_filter_iff. intros x. lia. Qed.

Lemma filter_sorted (l : list Z) a : StronglySorted Z.lt l → StronglySorted Z.lt (filter (λ y, a < y) l).
Proof.
  induction 1 as [|x l Hs IH Hall]; [constructor|]. rewrite filter_cons. case_decide; [|done].
  constructor; [done|]. rewrite Forall_forall in *. intros y [_ Hy]%list_elem_of_filter. by apply Hall.
Qed.

Hypothesis limit_pos : 0 < limitRecordGet cfg.

Lemma migrate_loop_spec fuel oks (cur : Z) (d : db) :
  StronglySorted Z.lt (event d) →
  (length (filter (λ id, (cur < id)%Z) (event d)) < fuel)%nat →
  let bs := accepted oks (batches fuel (Z.to_nat (limitRecordGet cfg)) (filter (λ id, cur < id) (event d))) in
  let d' := migrate_loop fuel oks cur d in
  event d' = event d ∧ event_partition d' = event_partition d ++ concat bs ∧
  checkpoint d' = (match last (concat bs) with Some l => Some l | None => checkpoint d end) ∧ cat d' = cat d.
Proof.
  revert oks cur d. induction fuel as [|fuel IH]; intros oks cur d Hs Hlen; [lia|]. simpl.
  unfold next_batch. set (n := Z.to_nat (limitRecordGet cfg)).
  destruct (filter (λ id, cur < id) (event d)) as [|x rest] eqn:Hrest.
  { rewrite take_nil. simpl. by rewrite app_nil_r. }
  assert (∃ l, last (take n (x :: rest)) = Some l) as [l Hl].
  { destruct (last _) eqn:E; [eauto|]. apply last_None in E. unfold n in E.
    destruct (Z.to_nat (limitRecordGet cfg)) eqn:Hn; [lia|done]. }
  rewrite Hl.
  assert (filter (λ id, l < id) (event d) = drop n (x :: rest)) as Hdrop.
  { rewrite <-(sorted_filter_drop (x :: rest) n l), <-Hrest; [|rewrite <-Hrest; by apply filter_sorted|done].
    symmetry. apply filter_filter_lt.
    assert (l ∈ filter (λ id, cur < id) (event d)) as [? _]%list_elem_of_filter; [|lia].
    rewrite Hrest. apply last_Some in Hl as [l' Hl']. rewrite <-(take_drop n (x :: rest)), Hl'.
    rewrite !elem_of_app. left. right. by apply list_elem_of_singleton. }
  set (d1 := migrate_batch (oks O) (take n (x :: rest)) l d).
  assert (event d1 = event d ∧ cat d1 = cat d) as [He Hc] by by unfold d1, migrate_batch; destruct (oks O).
  destruct (IH (λ n, oks (S n)) l d1) as (H1 & H2 & H3 & H4).
  { by rewrite He. }
  { rewrite He, Hdrop, length_drop. simpl in *. unfold n. lia. }
  rewrite He, Hdrop in H2, H3. rewrite H1, H2, H3, H4, He, Hc. split; [done|].
  fold n. cbn [batches accepted]. unfold d1, migrate_batch. destruct (oks O); simpl; [|by split_and!].
  rewrite <-app_assoc. split_and!; [done| |done].
  rewrite last_app. destruct (last (concat _)); [done|by rewrite Hl].
Qed.

Lemma batches_all fuel oks (l : list Z) :
  (∀ n, oks n = true) → (length l < fuel)%nat →
  concat (accepted oks (batches fuel (Z.to_nat (limitRecordGet cfg)) l)) = l.
Proof.
  intros Hok. revert oks l Hok. induction fuel as [|fuel IH]; intros oks l Hok Hlen; [lia|].
  destruct l as [|x l]; [done|]. cbn [batches accepted]. rewrite Hok. simpl.
  rewrite IH, take_drop; [done|intros; apply Hok|]. rewrite length_drop. simpl in *. lia.
Qed.

(** The copy of [event] into [event_partition]: the loop ends; the new
    table gets exactly the batches whose transaction was accepted, each row
    once and in order, and the checkpoint is the last row copied.  When every
    transaction is accepted, all rows above the checkpoint are copied. *)
Theorem migrate_copies (oks : nat → bool) (start : Z) (d : db) :
  StronglySorted Z.lt (event d) →
  let rest := filter (λ id, start < id) (event d) in
  let bs := accepted oks (batches (S (length (event d))) (Z.to_nat (limitRecordGet cfg)) rest) in
  let d' := migrateDataFromEventToEventPartition oks start d in
  event_partition d' = event_partition d ++ concat bs ∧
  checkpoint d' = (match last (concat bs) with Some l => Some l | None => checkpoint d end) ∧
  ((∀ n, oks n = true) → event_partition d' = event_partition d ++ rest).
Proof.
  intros Hs rest bs d'.
  assert (length rest < S (length (event d)))%nat as Hlen by (pose proof (length_filter (λ id, (start < id)%Z) (event d)); unfold rest; lia).
  destruct (migrate_loop_spec (S (length (event d))) oks start d Hs Hlen) as (_ & H2 & H3 & _).
  split; [done|]. split; [done|]. intros Hok. unfold d', migrateDataFromEventToEventPartition. rewrite H2. f_equal.
  by apply batches_all.
Qed.
End Job.

Lemma migrate_copies_witness :
  let d := Db [1; 2; 3; 4; 5] [] (Some 0) (Catalog [] []) in
  let d' := migrateDataFromEventToEventPartition (Config 0 200000000 2) (λ _, true) 0 d in
  let bs := accepted (λ _, true) (batches 6 2 (filter (λ id, 0 < id) (event d))) in
  event_partition d' = [] ++ concat bs ∧
  checkpoint d' = (match last (concat bs) with Some l => Some l | None => Some 0 end) ∧
  ((∀ n : nat, true = true) → event_partition d' = [] ++ filter (λ id, 0 < id) (event d)).
Proof.
  apply (migrate_copies (Config 0 200000000 2)); [done|]. repeat constructor.
Defined.
End Migrate.

(** ** The exchange of the tables *)
Module Rename.
(** What the job sees: the number of partitions of [event], the rows of both
    tables and the checkpoint; [switched] tells whether [event_partition] has
    become [event] and whether the repeated job is stopped. *)
Record db := Db { partition_count : Z; mig : Migrate.db; switched : bool; repeating : bool }.

(** [switchEventPartitionToEvent], when its transaction commits. *)
Definition switchEventPartitionToEvent (d : db) : db :=
  Db (partition_count d)
     (Migrate.Db (Migrate.event_partition (mig d)) (Migrate.event (mig d))
        (Migrate.checkpoint (mig d)) (Migrate.cat (mig d)))
     true (repeating d).

Definition removeRepeatJob (d : db) : db := Db (partition_count d) (mig d) (switched d) false.

(** The id and the checkpoint are compared as strings. *)
Definition migrateEventPartition (d : db) : db * res () :=
  if 0 <? partition_count d then (removeRepeatJob d, Ok tt) else
  match last (Migrate.event (mig d)) with
  | None => (d, Throw "TypeError: Cannot read properties of undefined (reading 'id')")
  | Some id =>
      if bool_decide (Some (toString id) = (toString <$> Migrate.checkpoint (mig d)))
      then (removeRepeatJob (switchEventPartitionToEvent d), Ok tt)
      else (d, Ok tt)
  end.

(** A batch that the database rejects is not copied later: the position
    has already moved past it.  When the last batch is accepted, the
    checkpoint is the last id, the job that compares them exchanges the
    tables, and the rows of the rejected batches are missing from [event]. *)
Theorem rejected_batch_lost `{!Identifiers} (cfg : Migrate.config) (oks : nat → bool) (start : Z)
    (d : Migrate.db) :
  0 < Migrate.limitRecordGet cfg → StronglySorted Z.lt (Migrate.event d) → Migrate.event d ≠ [] →
  let bs := Migrate.batches (S (length (Migrate.event d))) (Z.to_nat (Migrate.limitRecordGet cfg))
              (filter (λ id, start < id) (Migrate.event d)) in
  last (concat (Migrate.accepted oks bs)) = last (Migrate.event d) →
  let d' := (migrateEventPartition
    (Db 0 (Migrate.migrateDataFromEventToEventPartition cfg oks start d) false true)).1 in
  switched d' = true ∧
  Migrate.event (mig d') = Migrate.event_partition d ++ concat (Migrate.accepted oks bs).
Proof.
  intros Hlim Hs Hne bs Hlast.
  destruct (Migrate.migrate_loop_spec cfg Hlim (S (length (Migrate.event d))) oks start d Hs) as (H1 & H2 & H3 & _).
  { pose proof (length_filter (λ id, (start < id)%Z) (Migrate.event d)). lia. }
  fold bs in H2, H3. rewrite Hlast in H3. unfold Migrate.migrateDataFromEventToEventPartition.
  set (m := Migrate.migrate_loop _ _ _ _ _) in *. cbv zeta.
  unfold migrateEventPartition. cbn [partition_count mig Z.ltb Z.compare]. rewrite H1.
  destruct (last (Migrate.event d)) as [id|] eqn:Hid; [|by apply last_None in Hid].
  rewrite H3. simpl. by rewrite bool_decide_true.
Qed.

Lemma rejected_batch_lost_witness :
  let d := Migrate.Db [1; 2; 3; 4; 5] [] (Some 0) (Catalog [] []) in
  let cfg := Migrate.Config 0 200000000 2 in
  let oks := λ n : nat, negb (Nat.eqb n 1) in
  let bs := Migrate.batches 6 2 (filter (λ id, 0 < id) (Migrate.event d)) in
  concat (Migrate.accepted oks bs) = [1; 2; 5] ∧
  let d' := (migrateEventPartition
    (Db 0 (Migrate.migrateDataFromEventToEventPartition cfg oks 0 d) false true)).1 in
  switched d' = true ∧ Migrate.event (mig d') = [] ++ concat (Migrate.accepted oks bs).
Proof.
  split; [by vm_compute|].
  apply (@rejected_batch_lost cut63 (Migrate.Config 0 200000000 2) (λ n : nat, negb (Nat.eqb n 1)) 0
    (Migrate.Db [1; 2; 3; 4; 5] [] (Some 0) (Catalog [] []))); [done| |done|by vm_compute].
  repeat constructor.
Defined.
End Rename.

(** ** Composite indexes of [event_attribute] *)
Module CompositeIndex.
Record db := Db { indexes : list string; checkpoints : gmap string Z }.

Definition checkpoint_name (partitionName : string) : string :=
  "job:create-index-composite-attr-partition" +:+ "_" +:+ partitionName.

(** [CREATE INDEX (CONCURRENTLY) IF NOT EXISTS ...]; both variants leave the
    same index. *)
Definition create_index (name : string) (l : list string) : list string :=
  if bool_decide (name ∈ l) then l else l ++ [name].

(** [jobCheckIfNeedCreateEventAttrPartition] of the service *)
Definition jobCreateIndex (partitionName : string) (needConcurrently : bool) (d : db) : db :=
  match checkpoints d !! checkpoint_name partitionName with
  | Some _ => d
  | None =>
      Db (match digit_runs "" partitionName with
          | [a; b] => create_index ("event_attribute_partition_" +:+ a +:+ "_" +:+ b +:+ "_composite_index") (indexes d)
          | _ => indexes d
          end)
         (<[checkpoint_name partitionName := 1]> (checkpoints d))
  end.

(** A second run for the same partition does nothing. *)
Lemma jobCreateIndex_idem n b b' d : jobCreateIndex n b' (jobCreateIndex n b d) = jobCreateIndex n b d.
Proof.
  unfold jobCreateIndex. destruct (checkpoints d !! checkpoint_name n) as [h|] eqn:Hc; [by rewrite Hc|].
  simpl. by rewrite lookup_insert_eq.
Qed.
End CompositeIndex.
