(* ===== verification/Contracts.v ===== *)
(** * CosmWasm codes and contracts

    [services/crawl-cosmwasm/crawl_code.service.ts] stores the codes of a
    block range, [crawl_smart_contract.service.ts] the contracts that are
    instantiated or migrated, and both offer an action that stores missing
    ones.  What the node answers is a parameter ([WasmNode]).

    The theorems: every stored contract has its code in the table of codes;
    an address has at most one contract with status LATEST, also after
    migrations; a migration to a code without contracts loses the name. *)
From S2P Require Import Prelude JsNum Checkpoint.

(** ** Data *)
Record Transaction := { t_id : Z; t_hash : string; t_height : Z; t_code : Z }.

Record Event := {
  e_id : Z;
  e_tx_id : option Z;
  e_type : string;
  e_block_height : Z;
  e_attributes : list attribute      (** ordered by [index] *)
}.

Record Code := {
  c_creator : string;
  c_data_hash : string;
  c_instantiate_permission : string;
  c_type : option string;
  c_status : option string;
  c_store_hash : string;
  c_store_height : Z
}.

Record CodeIdVerification := { cv_code_id : Z; cv_data_hash : string; cv_status : string }.

Record SmartContract := {
  sc_id : Z;
  sc_name : option string;
  sc_address : string;
  sc_creator : string;
  sc_code_id : Z;
  sc_status : string;
  sc_label : option string;
  sc_instantiate_hash : string;
  sc_instantiate_height : Z;
  sc_version : option string
}.

(** A row of [smart_contract_event] with its attributes. *)
Record SmartContractEvent := {
  se_id : Z;
  se_smart_contract_id : Z;
  se_action : option string;
  se_event_id : Z;
  se_index : Z;
  se_tx_id : Z;
  se_attributes : list attribute
}.

Definition LATEST := "LATEST".
Definition MIGRATED := "MIGRATED".
Definition VERIFICATION_SUCCESS := "SUCCESS".
Definition STORE_CODE := "store_code".
Definition INSTANTIATE := "instantiate".
Definition MIGRATE := "migrate".
Definition WASM := "wasm".

(** [Code.detectCodeType] with [code-type.json] *)
Definition detectCodeType (contract : string) : string :=
  if bool_decide (contract ∈ ["crates.io:cw20-base"]) then "CW20"
  else if bool_decide (contract ∈ ["crates.io:cw721-base"; "crates.io:cw721-metadata-onchain";
                                   "crates.io:cw721-fixed-price"; "crates.io:cw2981-royalties"]) then "CW721"
  else if bool_decide (contract ∈ ["crates.io:cw4973"]) then "CW4973"
  else "".

(** [event] in the order of the ids; [code] by its key [code_id]. *)
Record Db := {
  transaction : list Transaction;
  event : list Event;
  code : gmap Z Code;
  code_id_verification : list CodeIdVerification;
  smart_contract : list SmartContract;
  next_contract_id : Z;
  smart_contract_event : list SmartContractEvent;
  next_contract_event_id : Z;
  block_checkpoint : gmap string Z
}.
Definition set_code c v d := {|
  transaction := transaction d; event := event d; code := c; code_id_verification := v;
  smart_contract := smart_contract d; next_contract_id := next_contract_id d;
  smart_contract_event := smart_contract_event d;
  next_contract_event_id := next_contract_event_id d; block_checkpoint := block_checkpoint d |}.
Definition set_contracts c n d := {|
  transaction := transaction d; event := event d; code := code d;
  code_id_verification := code_id_verification d;
  smart_contract := c; next_contract_id := n; smart_contract_event := smart_contract_event d;
  next_contract_event_id := next_contract_event_id d; block_checkpoint := block_checkpoint d |}.
Definition set_events c n d := {|
  transaction := transaction d; event := event d; code := code d;
  code_id_verification := code_id_verification d;
  smart_contract := smart_contract d; next_contract_id := next_contract_id d;
  smart_contract_event := c; next_contract_event_id := n; block_checkpoint := block_checkpoint d |}.
#[export] Instance Db_checkpoints : HasCheckpoints Db := block_checkpoint.
#[export] Program Instance Db_set_checkpoints : SetCheckpoints Db := {|
  set_checkpoints c d := {|
    transaction := transaction d; event := event d; code := code d;
    code_id_verification := code_id_verification d;
    smart_contract := smart_contract d; next_contract_id := next_contract_id d;
    smart_contract_event := smart_contract_event d;
    next_contract_event_id := next_contract_event_id d; block_checkpoint := c |} |}.
Next Obligation. done. Qed.

(** ** The node *)

(** [codeInfo] of [QueryCodeResponse]. *)
Record CodeInfo := { ci_creator : string; ci_data_hash : string; ci_instantiate_permission : string }.
(** The JSON under the key [contract_info] of a contract (cw2). *)
Record Cw2 := { cw2_contract : string; cw2_version : option string; cw2_name : option string }.
Record ContractInfo := { nc_code_id : Z; nc_creator : string; nc_label : option string }.

(** The queries; they can fail, and their answer can be empty. *)
Class WasmNode := {
  query_code : Z → res (option CodeInfo);
  query_cw2 : string → res (option Cw2);
  query_contract_info : string → res (option ContractInfo)
}.

(** ** The rows of a join of transactions, events and attributes *)
Definition tx_attributes (d : Db) : list (Transaction * Event * attribute) :=
  transaction d ≫= λ t, filter (λ e, e_tx_id e = Some (t_id t)) (event d) ≫= λ e,
    (λ a, (t, e, a)) <$> e_attributes e.

(** The successful transactions of a range with an event of a type. *)
Definition attributes_in (startHeight endHeight : Z) (ty : string) (d : Db)
  : list (Transaction * Event * attribute) :=
  filter (λ r, startHeight < t_height r.1.1 ∧ t_height r.1.1 <= endHeight ∧ t_code r.1.1 = 0 ∧
               e_type r.1.2 = ty) (tx_attributes d).

Section Services.
Context {N : WasmNode}.

(** ** Codes *)
Record IStoreCodes := { i_code_id : Z; i_code_hash : string; i_code_height : Z }.

(** [Long.fromString(value)] *)
Definition long_fromString (s : option string) : res Z :=
  match s with
  | Some s => if bool_decide (s = "") then Throw "empty string" else Ok (default 0 (parseInt s))
  | None => Throw "empty string"
  end.

(** The code ids stored in a range, with the transaction. *)
Definition stored_codes (startHeight endHeight : Z) (d : Db) : res (list IStoreCodes) :=
  mapR (λ r : Transaction * Event * attribute,
    id ← long_fromString (attr_value r.2);
    Ok {| i_code_id := id; i_code_hash := t_hash r.1.1; i_code_height := t_height r.1.1 |})
    (filter (λ r, attr_key r.2 = "code_id") (attributes_in startHeight endHeight STORE_CODE d)).

(** [Code.fromJson]: the creator is required. *)
Definition code_entity (c : IStoreCodes) : res (Z * Code) :=
  info ← query_code (i_code_id c);
  match info with
  | None => Throw "ValidationError: creator: must have required property 'creator'"
  | Some info =>
      Ok (i_code_id c, {|
        c_creator := ci_creator info; c_data_hash := toLowerCase (ci_data_hash info);
        c_instantiate_permission := ci_instantiate_permission info;
        c_type := None; c_status := None;
        c_store_hash := i_code_hash c; c_store_height := i_code_height c |})
  end.

(** The verification of another code with the same hash is copied. *)
Definition copied_verification (vs : list CodeIdVerification) (c : Z * Code) : option CodeIdVerification :=
  (λ v, {| cv_code_id := c.1; cv_data_hash := cv_data_hash v; cv_status := cv_status v |}) <$>
  find (λ v, bool_decide (cv_data_hash v = c_data_hash c.2))
    (filter (λ v, cv_status v = VERIFICATION_SUCCESS) vs).

(** [insertNewCodes]: the queries, then [onConflict('code_id').merge()], which
    a statement may do once for a code, and the insertion of the verifications. *)
Definition prepareCodes (codeIds : list IStoreCodes) : io Db (list (Z * Code) * list CodeIdVerification) :=
  entities ← lift (mapR code_entity codeIds);
  vs ← query code_id_verification;
  mret (entities, omap (copied_verification vs) entities).
Definition writeCodes (w : list (Z * Code) * list CodeIdVerification) (d : Db) : res Db :=
  if bool_decide (NoDup w.1.*1) then
    Ok (set_code (foldl (λ m c, <[c.1 := c.2]> m) (code d) w.1) (code_id_verification d ++ w.2) d)
  else Throw "ON CONFLICT DO UPDATE command cannot affect row a second time".

(** The action: a failed insertion is logged and rolled back. *)
Definition actionCrawlMissingCode (codeIds : list IStoreCodes) : io Db () :=
  w ← prepareCodes codeIds; logged (writeCodes w).

(** In the job the checkpoint cannot be written after a failed insertion. *)
Definition handleCodeJob (cfg : Config.t) : io Db () :=
  checkpoint_handler cfg CRAWL_CODE
    (λ startHeight endHeight,
      codeIds ← λ d, (d, stored_codes startHeight endHeight d); prepareCodes codeIds)
    (λ _ _ w, writeCodes w).

(** ** Contracts *)
Record IInstantiateContracts := { i_address : string; i_hash : string; i_height : Z }.

Definition instantiated (startHeight endHeight : Z) (d : Db) : list IInstantiateContracts :=
  (λ r : Transaction * Event * attribute,
    {| i_address := default "" (attr_value r.2); i_hash := t_hash r.1.1; i_height := t_height r.1.1 |}) <$>
  filter (λ r, attr_key r.2 = "_contract_address") (attributes_in startHeight endHeight INSTANTIATE d).

(** A contract as it is built from the answers of the node (no id yet). *)
Definition new_contract (c : IInstantiateContracts) (cw2 : option Cw2) (info : option ContractInfo)
  : SmartContract := {|
  sc_id := 0;
  sc_name := cw2_contract <$> cw2;
  sc_address := i_address c;
  sc_creator := match info with Some i => nc_creator i | None => "" end;
  sc_code_id := match info with Some i => nc_code_id i | None => 0 end;
  sc_status := LATEST;
  sc_label := info ≫= nc_label;
  sc_instantiate_hash := i_hash c;
  sc_instantiate_height := i_height c;
  sc_version := cw2 ≫= cw2_version |}.

(** The update of the type of a code; without the code id the query throws. *)
Definition type_update (cw2 : option Cw2) (info : option ContractInfo) : option (option Z * string) :=
  match cw2 with
  | Some data =>
      let ty := detectCodeType (cw2_contract data) in
      if bool_decide (ty = "") then None else Some (nc_code_id <$> info, ty)
  | None => None
  end.

Definition set_type (ty : string) (c : Code) : Code := {|
  c_creator := c_creator c; c_data_hash := c_data_hash c;
  c_instantiate_permission := c_instantiate_permission c; c_type := Some ty; c_status := c_status c;
  c_store_hash := c_store_hash c; c_store_height := c_store_height c |}.

Definition patch_type (u : option Z * string) (d : Db) : res Db :=
  match u.1 with
  | None => Throw "Undefined binding(s) detected when compiling UPDATE"
  | Some id => Ok (set_code (alter (set_type u.2) id (code d)) (code_id_verification d) d)
  end.

(** [insertNewContracts] up to the insertion; it does not use the transaction
    of the caller. *)
Definition answers (contracts : list IInstantiateContracts)
  : res (list (option Cw2 * option ContractInfo)) :=
  cw2s ← mapR (λ c, query_cw2 (i_address c)) contracts;
  infos ← mapR (λ c, query_contract_info (i_address c)) contracts;
  Ok (zip cw2s infos).

Definition codeIds_of (l : list (option Cw2 * option ContractInfo)) : list Z :=
  uniq (omap (λ a, nc_code_id <$> a.2) l).

Definition crawlMissingCodes (codeIds : list Z) : io Db () :=
  codes ← query code;
  let missingCodeIds := filter (λ id, codes !! id = None) codeIds in
  if bool_decide (missingCodeIds = []) then mret tt
  else actionCrawlMissingCode
         ((λ id, {| i_code_id := id; i_code_hash := ""; i_code_height := 0 |}) <$> missingCodeIds).

Definition prepareContracts (contracts : list IInstantiateContracts) : io Db (list SmartContract) :=
  data ← lift (answers contracts);
  crawlMissingCodes (codeIds_of data);;
  each (λ u, commit (patch_type u)) (omap (λ a, type_update a.1 a.2) data);;
  mret (zip_with (λ c a, new_contract c a.1 a.2) contracts data).

Definition with_id (id : Z) (c : SmartContract) : SmartContract := {|
  sc_id := id; sc_name := sc_name c; sc_address := sc_address c; sc_creator := sc_creator c;
  sc_code_id := sc_code_id c; sc_status := sc_status c; sc_label := sc_label c;
  sc_instantiate_hash := sc_instantiate_hash c; sc_instantiate_height := sc_instantiate_height c;
  sc_version := sc_version c |}.

(** The columns of text of [smart_contract] are varchar(255); name and version
    are what the contract itself answers, the label what its creator chose. *)
Definition contract_fits (c : SmartContract) : bool :=
  varchar255_opt (sc_name c) && varchar255 (sc_address c) && varchar255 (sc_creator c) &&
  varchar255_opt (sc_label c) && varchar255 (sc_instantiate_hash c) && varchar255_opt (sc_version c).

(** The widths of the columns and the foreign key of [smart_contract] on
    [code]. *)
Definition insert_contracts (l : list SmartContract) (d : Db) : res Db :=
  if negb (forallb contract_fits l) then Throw too_long
  else if bool_decide (Forall (λ c, is_Some (code d !! sc_code_id c)) l) then
    Ok (set_contracts (smart_contract d ++ serial with_id (next_contract_id d) l)
          (next_contract_id d + Z.of_nat (length l)) d)
  else Throw "smart_contract_code_id_foreign".

Definition handleContractJob (cfg : Config.t) : io Db () :=
  checkpoint_handler cfg CRAWL_SMART_CONTRACT
    (λ startHeight endHeight, contracts ← query (instantiated startHeight endHeight); prepareContracts contracts)
    (λ _ _, insert_contracts).

Definition actionCrawlMissingContract (contracts : list IInstantiateContracts) : io Db () :=
  l ← prepareContracts contracts; logged (insert_contracts l).

(** ** Migrations *)
Record migration := { mg_address : string; mg_codeId : option (option string); mg_hash : string; mg_height : Z }.

(** The migrations of a range: for every attribute [_contract_address], the
    first code id of the same event ([undefined], or a value that can be
    [null]). *)
Definition migrations (rows : list (Transaction * Event * attribute)) : list migration :=
  (λ r : Transaction * Event * attribute, {|
    mg_address := default "" (attr_value r.2);
    mg_codeId := find (λ r' : Transaction * Event * attribute,
        bool_decide (e_id r'.1.2 = e_id r.1.2) && bool_decide (attr_key r'.2 = "code_id")) rows
      ≫= λ r', Some (attr_value r'.2);
    mg_hash := t_hash r.1.1; mg_height := t_height r.1.1 |}) <$>
  filter (λ r : Transaction * Event * attribute, attr_key r.2 = "_contract_address") rows.

(** The code id as the validator coerces it ([coerceTypes]). *)
Definition required_code_id (o : option (option string)) : res Z :=
  match o with
  | Some (Some s) => coerce_number s
  | Some None => Ok 0
  | None => Throw "ValidationError: code_id: must have required property 'code_id'"
  end.

(** The contract of the code the address migrates to; the later of several. *)
Definition codeContract (codeId : option (option string)) (id : Z) (d : Db) : option SmartContract :=
  match codeId with
  | Some (Some _) => last (filter (λ c, sc_code_id c = id) (smart_contract d))
  | _ => None
  end.

(** The new row of a migrated contract, and whether the code is known from
    another contract. *)
Definition migrated_row (d : Db) (evs : gmap string migration) (old : SmartContract)
  : res (bool * SmartContract) :=
  match evs !! sc_address old with
  | None => Throw "TypeError: Cannot read properties of undefined (reading 'codeId')"
  | Some m =>
      code_id ← required_code_id (mg_codeId m);
      let contract := codeContract (mg_codeId m) code_id d in
      Ok (match contract with Some _ => true | None => false end, {|
        sc_id := 0;
        sc_name := match contract with Some c => sc_name c | None => Some "" end;
        sc_address := sc_address old; sc_creator := sc_creator old; sc_code_id := code_id;
        sc_status := LATEST; sc_label := Some (default "" (sc_label old));
        sc_instantiate_hash := mg_hash m; sc_instantiate_height := mg_height m;
        sc_version := match contract with Some c => sc_version c | None => Some "" end |})
  end.

(** [missingVersionContracts[index].name = data.name] *)
Definition complete (c : SmartContract) : res SmartContract :=
  cw2 ← query_cw2 (sc_address c);
  Ok match cw2 with
     | Some data => {|
         sc_id := sc_id c; sc_name := cw2_name data; sc_address := sc_address c;
         sc_creator := sc_creator c; sc_code_id := sc_code_id c; sc_status := sc_status c;
         sc_label := sc_label c; sc_instantiate_hash := sc_instantiate_hash c;
         sc_instantiate_height := sc_instantiate_height c; sc_version := cw2_version data |}
     | None => c
     end.

Definition oldContracts (ms : list migration) (d : Db) : list SmartContract :=
  filter (λ c, sc_address c ∈ mg_address <$> ms ∧ sc_status c = LATEST) (smart_contract d).

Definition prepareMigrations (startHeight endHeight : Z) : io Db (list SmartContract * list Z) := λ d,
  (d,
   let ms := migrations (attributes_in startHeight endHeight MIGRATE d) in
   _ ← (if bool_decide (None ∈ mg_codeId <$> ms) then Throw "Undefined binding(s) detected" else Ok tt);
   let olds := oldContracts ms d in
   rows ← mapR (migrated_row d (keyBy mg_address ms)) olds;
   missing ← mapR complete (filter (λ r : bool * SmartContract, r.1 = false) rows).*2;
   Ok ((filter (λ r : bool * SmartContract, r.1 = true) rows).*2 ++ missing, sc_id <$> olds)).

Definition set_status (s : string) (c : SmartContract) : SmartContract := {|
  sc_id := sc_id c; sc_name := sc_name c; sc_address := sc_address c; sc_creator := sc_creator c;
  sc_code_id := sc_code_id c; sc_status := s; sc_label := sc_label c;
  sc_instantiate_hash := sc_instantiate_hash c; sc_instantiate_height := sc_instantiate_height c;
  sc_version := sc_version c |}.

Definition retire (ids : list Z) (d : Db) : Db :=
  set_contracts ((λ c, if decide (sc_id c ∈ ids) then set_status MIGRATED c else c) <$> smart_contract d)
    (next_contract_id d) d.
Definition writeMigrations (w : list SmartContract * list Z) (d : Db) : res Db :=
  d ← insert_contracts w.1 d; Ok (retire w.2 d).

Definition handleMigrateContract (cfg : Config.t) : io Db () :=
  checkpoint_handler cfg HANDLE_MIGRATE_CONTRACT prepareMigrations (λ _ _, writeMigrations).
End Services.

(** ** The jobs move their checkpoints only *)
Section Jobs.
Context {N : WasmNode} (cfg : Config.t).

Lemma prepareCodes_state ids d : (prepareCodes ids d).1 = d.
Proof.
  unfold prepareCodes, lift, query. cbn [mbind io_bind].
  by destruct (mapR code_entity ids).
Qed.

Lemma writeCodes_frames w d d' : writeCodes w d = Ok d' → checkpoints_of d' = checkpoints_of d.
Proof. unfold writeCodes. case_bool_decide; [|done]. by intros [= <-]. Qed.

Lemma insert_contracts_frames l d d' :
  insert_contracts l d = Ok d' → checkpoints_of d' = checkpoints_of d.
Proof.
  unfold insert_contracts. destruct (negb _); [done|]. case_bool_decide; [|done]. by intros [= <-].
Qed.

Lemma prepareCodes_frames ids : frames (prepareCodes ids).
Proof. intros d. by rewrite prepareCodes_state. Qed.

Lemma patch_type_frames u d d' : patch_type u d = Ok d' → checkpoints_of d' = checkpoints_of d.
Proof. unfold patch_type. destruct u as [[id|] ty]; [|done]. by intros [= <-]. Qed.

Lemma actionCrawlMissingCode_frames ids : frames (actionCrawlMissingCode ids).
Proof.
  apply frames_bind; [apply prepareCodes_frames|]. intros w.
  apply frames_logged, writeCodes_frames.
Qed.

Lemma crawlMissingCodes_frames ids : frames (crawlMissingCodes ids).
Proof.
  apply frames_bind; [apply frames_query|]. intros codes. cbv beta zeta.
  case_bool_decide; [apply frames_ret|apply actionCrawlMissingCode_frames].
Qed.

Lemma prepareContracts_frames l : frames (prepareContracts l).
Proof.
  apply frames_bind; [apply frames_lift|]. intros data.
  apply frames_bind; [apply crawlMissingCodes_frames|]. intros _.
  apply frames_bind; [|intros; apply frames_ret].
  apply frames_each. intros u. apply frames_commit, patch_type_frames.
Qed.

#[export] Instance handleCodeJob_frames :
  HandlerFrames (λ startHeight endHeight,
      codeIds ← λ d, (d, stored_codes startHeight endHeight d); prepareCodes codeIds)
    (λ _ _ w, writeCodes w).
Proof.
  split; [|intros s e; apply writeCodes_frames].
  intros s e. apply frames_bind; [done|]. intros l. apply prepareCodes_frames.
Qed.
#[export] Instance handleCodeJob_job : CheckpointJob cfg CRAWL_CODE (handleCodeJob cfg).
Proof. apply _. Qed.

#[export] Instance handleContractJob_frames :
  HandlerFrames (λ startHeight endHeight,
      contracts ← query (instantiated startHeight endHeight); prepareContracts contracts)
    (λ _ _, insert_contracts).
Proof.
  split; [|intros s e; apply insert_contracts_frames].
  intros s e. apply frames_bind; [apply frames_query|]. intros l. apply prepareContracts_frames.
Qed.
#[export] Instance handleContractJob_job : CheckpointJob cfg CRAWL_SMART_CONTRACT (handleContractJob cfg).
Proof. apply _. Qed.

#[export] Instance handleMigrateContract_frames :
  HandlerFrames prepareMigrations (λ _ _, writeMigrations).
Proof.
  split; [done|]. intros s e w d d'. unfold writeMigrations.
  intros (d1 & Hd1 & [= <-])%bind_Ok. by apply insert_contracts_frames in Hd1.
Qed.
#[export] Instance handleMigrateContract_job :
  CheckpointJob cfg HANDLE_MIGRATE_CONTRACT (handleMigrateContract cfg).
Proof. apply _. Qed.
End Jobs.

(** ** Every instantiated contract is stored *)
Section Stored.
Context {N : WasmNode}.

(** The node knows the contract and its code. *)
Definition answered (c : IInstantiateContracts) : Prop :=
  (∃ cw2, query_cw2 (i_address c) = Ok cw2) ∧
  ∃ info, query_contract_info (i_address c) = Ok (Some info) ∧
    ∃ code, query_code (nc_code_id info) = Ok (Some code).

(** A row holds what the node answers. *)
Definition row_of (c : IInstantiateContracts) (r : SmartContract) : Prop :=
  ∃ cw2 info, query_cw2 (i_address c) = Ok cw2 ∧
    query_contract_info (i_address c) = Ok (Some info) ∧
    r = with_id (sc_id r) (new_contract c cw2 (Some info)).

Definition answer_of (c : IInstantiateContracts) (a : option Cw2 * option ContractInfo) : Prop :=
  query_cw2 (i_address c) = Ok a.1 ∧ query_contract_info (i_address c) = Ok a.2.

Lemma answers_Ok l data : answers l = Ok data ↔ Forall2 answer_of l data.
Proof.
  unfold answers. split.
  - intros (cw2s & H1 & (infos & H2 & [= <-])%bind_Ok)%bind_Ok.
    apply mapR_Ok in H1, H2. revert infos H2. induction H1 as [|c cw2 l cw2s Hc _ IH];
      intros infos H2; inversion H2; subst; constructor; [done|]. by apply IH.
  - intros Hd. apply bind_Ok. exists data.*1. split.
    { apply mapR_Ok. induction Hd as [|c a l data [Hc _]]; constructor; auto. }
    apply bind_Ok. exists data.*2. split.
    { apply mapR_Ok. induction Hd as [|c a l data [_ Hc]]; constructor; auto. }
    by rewrite zip_fst_snd.
Qed.

Lemma answered_answers l :
  Forall answered l → ∃ data, answers l = Ok data ∧
    Forall (λ a, ∃ info code, a.2 = Some info ∧ query_code (nc_code_id info) = Ok (Some code)) data.
Proof.
  intros Hl. assert (∃ data, Forall2 answer_of l data ∧
    Forall (λ a, ∃ info code, a.2 = Some info ∧ query_code (nc_code_id info) = Ok (Some code)) data)
    as (data & Hd & Hc).
  { induction Hl as [|c l ([cw2 H1] & info & H2 & code & H3) _ (data & Hd & Hc)].
    - exists []. by split.
    - exists ((cw2, Some info) :: data). split; constructor; try done. simpl. eauto. }
  exists data. split; [by apply answers_Ok|done].
Qed.

Lemma codes_grow (l : list (Z * Code)) (m : gmap Z Code) id :
  is_Some (m !! id) ∨ id ∈ l.*1 → is_Some (foldl (λ m c, <[c.1 := c.2]> m) m l !! id).
Proof.
  revert m. induction l as [|[k c] l IH]; intros m; simpl.
  - by intros [?|?%elem_of_nil].
  - intros Hid. apply IH. rewrite lookup_insert.
    case_decide; [left; eauto|]. rewrite elem_of_cons in Hid. naive_solver.
Qed.

Lemma code_entities ids :
  Forall (λ id, ∃ code, query_code id = Ok (Some code)) ids →
  ∃ es, mapR code_entity ((λ id, {| i_code_id := id; i_code_hash := ""; i_code_height := 0 |}) <$> ids)
    = Ok es ∧ es.*1 = ids.
Proof.
  induction 1 as [|id l [c Hc] _ (es & Hes & Hfst)]; [by exists []|].
  eassert (code_entity {| i_code_id := id; i_code_hash := ""; i_code_height := 0 |} = Ok (id, _)) as He.
  { unfold code_entity. cbn [i_code_id]. rewrite Hc. reflexivity. }
  rewrite fmap_cons. cbn [mapR]. rewrite He, Hes. eexists. split; [reflexivity|].
  by rewrite fmap_cons, Hfst.
Qed.

(** After the action the codes of the ids are known. *)
Lemma crawlMissingCodes_spec ids d :
  NoDup ids → Forall (λ id, ∃ code, query_code id = Ok (Some code)) ids →
  ∃ d', crawlMissingCodes ids d = (d', Ok tt) ∧ smart_contract d' = smart_contract d ∧
    next_contract_id d' = next_contract_id d ∧ checkpoints_of d' = checkpoints_of d ∧
    Forall (λ id, is_Some (code d' !! id)) ids.
Proof.
  intros Hnd Hq. unfold crawlMissingCodes, query. unfold mbind, io_bind. cbv beta zeta iota.
  case_bool_decide as Hm.
  { exists d. repeat split; try done. apply Forall_forall. intros id Hid.
    destruct (code d !! id) as [c|] eqn:Hc; [eauto|].
    assert (id ∈ filter (λ id, code d !! id = None) ids) as Hin by by apply list_elem_of_filter.
    rewrite Hm in Hin. by apply elem_of_nil in Hin. }
  set (missing := filter (λ id, code d !! id = None) ids) in *.
  assert (NoDup missing) as Hnd' by by apply NoDup_filter.
  destruct (code_entities missing) as (es & Hes & Hfst).
  { rewrite Forall_forall in Hq |- *. intros id [_ Hid]%list_elem_of_filter. by apply Hq. }
  assert (∀ ids, mapR code_entity ids = Ok es →
    prepareCodes ids d = (d, Ok (es, omap (copied_verification (code_id_verification d)) es))) as Hp.
  { intros ids' He. unfold prepareCodes. erewrite io_step by (unfold lift; by rewrite He).
    by erewrite io_step by done. }
  unfold actionCrawlMissingCode. rewrite (io_step _ _ _ _ _ (Hp _ Hes)).
  unfold logged, writeCodes. simpl. rewrite bool_decide_eq_true_2 by (by rewrite Hfst).
  eexists. split; [done|].
  repeat split. simpl. apply Forall_forall. intros id Hid. apply codes_grow.
  rewrite Hfst. destruct (code d !! id) eqn:Hc; [left; eauto|]. right. by apply list_elem_of_filter.
Qed.

(** The updates of the types do not throw, and forget no code. *)
Lemma patch_types us d :
  Forall (λ u : option Z * string, is_Some u.1) us →
  ∃ d', each (λ u, commit (patch_type u)) us d = (d', Ok tt) ∧ smart_contract d' = smart_contract d ∧
    next_contract_id d' = next_contract_id d ∧ checkpoints_of d' = checkpoints_of d ∧
    ∀ id, is_Some (code d !! id) → is_Some (code d' !! id).
Proof.
  intros Hus. revert d. induction Hus as [|[o ty] us [k Hk] _ IH]; intros d; simpl; [eauto 10|].
  simpl in Hk. subst o. unfold commit, patch_type at 1. simpl.
  destruct (IH (set_code (alter (set_type ty) k (code d)) (code_id_verification d) d))
    as (d' & Hrun & H1 & H2 & H3 & H4).
  exists d'. split; [exact Hrun|]. repeat split; [done..|].
  intros id Hid. apply H4. simpl. destruct (decide (k = id)) as [->|Hne].
  - rewrite lookup_alter_eq. by destruct Hid as [c ->].
  - by rewrite lookup_alter_ne.
Qed.

(** What the preparation gives when the node answers. *)
Lemma prepareContracts_spec l d :
  Forall answered l →
  ∃ d' rows, prepareContracts l d = (d', Ok rows) ∧ Forall2 row_of l rows ∧
    smart_contract d' = smart_contract d ∧ next_contract_id d' = next_contract_id d ∧
    checkpoints_of d' = checkpoints_of d ∧
    Forall (λ r, is_Some (code d' !! sc_code_id r)) rows.
Proof.
  intros Hl. destruct (answered_answers l Hl) as (data & Hdata & Hknown).
  unfold prepareContracts, lift. unfold mbind at 1, io_bind at 1. rewrite Hdata.
  destruct (crawlMissingCodes_spec (codeIds_of data) d) as (d1 & Hrun & Hc1 & Hn1 & Hk1 & Hcodes).
  { apply NoDup_uniq. }
  { apply Forall_forall. intros id Hid. unfold codeIds_of in Hid.
    apply elem_of_uniq, list_elem_of_omap in Hid as (a & Ha & Hid).
    rewrite Forall_forall in Hknown. destruct (Hknown _ Ha) as (info & c & Hi & Hc).
    rewrite Hi in Hid. injection Hid as <-. eauto. }
  unfold mbind at 1, io_bind at 1. rewrite Hrun.
  destruct (patch_types (omap (λ a, type_update a.1 a.2) data) d1)
    as (d2 & Hrun2 & Hc2 & Hn2 & Hk2 & Hkeep).
  { apply Forall_forall. intros u (a & Ha & Hu)%list_elem_of_omap.
    rewrite Forall_forall in Hknown. destruct (Hknown _ Ha) as (info & c & Hi & _).
    unfold type_update in Hu. rewrite Hi in Hu. destruct a.1; [|done].
    case_bool_decide; [done|]. injection Hu as <-. by eexists. }
  unfold mbind at 1, io_bind at 1. rewrite Hrun2. do 2 eexists. split; [done|].
  apply answers_Ok in Hdata. split; [|split; [congruence|split; [congruence|split; [congruence|]]]].
  - clear -Hdata Hknown. induction Hdata as [|c [cw2 info] l data [H1 H2] _ IH]; simpl; [constructor|].
    inversion Hknown as [|? ? (i & co & Hi & _) Hk]; subst. simpl in *. subst info.
    constructor; [|by apply IH]. exists cw2, i. by repeat split.
  - apply Forall_forall. intros r Hr. apply Hkeep. rewrite Forall_forall in Hcodes. apply Hcodes.
    unfold codeIds_of. apply elem_of_uniq, list_elem_of_omap. clear -Hdata Hknown Hr.
    revert r Hr. induction Hdata as [|c a l data Ha _ IH]; simpl; intros r Hr; [by apply elem_of_nil in Hr|].
    inversion Hknown as [|? ? (i & co & Hi & _) Hk]; subst.
    apply elem_of_cons in Hr as [->|Hr].
    + exists a. rewrite Hi. split; [left|done].
    + destruct (IH Hk r Hr) as (a' & Ha' & He). exists a'. split; [by right|done].
Qed.

Lemma row_of_with_id c r id : row_of c r → row_of c (with_id id r).
Proof. intros (cw2 & info & H1 & H2 & ->). exists cw2, info. by repeat split. Qed.

Lemma insert_contracts_rows l d d' :
  insert_contracts l d = Ok d' →
  ∃ rows, smart_contract d' = smart_contract d ++ rows ∧
    Forall2 (λ r r', r' = with_id (sc_id r') r) l rows ∧
    sc_id <$> rows = seqZ (next_contract_id d) (Z.of_nat (length l)) ∧
    next_contract_id d' = next_contract_id d + Z.of_nat (length l) ∧
    code d' = code d ∧ Forall (λ r, is_Some (code d !! sc_code_id r)) l.
Proof.
  unfold insert_contracts. destruct (negb _); [done|]. case_bool_decide as Hfk; [|done]. intros [= <-].
  eexists. split; [done|]. repeat split; try done; [by apply serial_rows|by apply serial_ids].
Qed.

(** The row of a contract fits the columns. *)
Definition storable (c : IInstantiateContracts) : Prop := ∀ r, row_of c r → contract_fits r = true.

Lemma row_of_fits c r r' : row_of c r → row_of c r' → contract_fits r = contract_fits r'.
Proof.
  intros (cw2 & info & H1 & H2 & ->) (cw2' & info' & H1' & H2' & ->).
  rewrite H1 in H1'. rewrite H2 in H2'. by simplify_eq.
Qed.

Lemma rows_fit l rows :
  Forall2 row_of l rows → (forallb contract_fits rows = true ↔ Forall storable l).
Proof.
  induction 1 as [|c r l rows Hr _ IH]; [done|]. simpl. rewrite andb_true_iff, IH, Forall_cons.
  apply and_iff_compat_r. split; [|by intros H; apply H]. intros Hf r' Hr'.
  by rewrite (row_of_fits c r' r).
Qed.

(** The insertion succeeds exactly when the rows fit; else nothing is stored. *)
Lemma insert_contracts_iff l d (cs : list IInstantiateContracts) :
  Forall2 row_of cs l → Forall (λ r, is_Some (code d !! sc_code_id r)) l →
  (Forall storable cs → insert_contracts l d = Ok (set_contracts
     (smart_contract d ++ serial with_id (next_contract_id d) l)
     (next_contract_id d + Z.of_nat (length l)) d)) ∧
  (¬ Forall storable cs → insert_contracts l d = Throw too_long).
Proof.
  intros Hl Hfk. unfold insert_contracts. rewrite <-(rows_fit _ _ Hl).
  rewrite (bool_decide_eq_true_2 _ Hfk). destruct (forallb contract_fits l); by split.
Qed.
End Stored.

(** C12: when the node knows the contracts a range instantiates and their
    codes, and every row fits its columns (name and version, which the contract
    itself answers, label, address, creator and hash have at most 255 characters
    and no NUL), the job succeeds: it appends one row per instantiation, in
    order, with what the node answers, fetches the codes the table lacks first so
    that the foreign key holds, and stores its checkpoint.  When a row does not
    fit, the run throws, stores no contract and leaves its checkpoint. *)
Theorem contracts_stored {N : WasmNode} cfg d s e u :
  jobCheckpoint cfg CRAWL_SMART_CONTRACT (checkpoints_of d) = Ok (s, e, u) → s < e →
  Forall answered (instantiated s e d) →
  (Forall storable (instantiated s e d) →
   ∃ d' rows, handleContractJob cfg d = (d', Ok tt) ∧
    smart_contract d' = smart_contract d ++ rows ∧
    Forall2 row_of (instantiated s e d) rows ∧
    sc_id <$> rows = seqZ (next_contract_id d) (Z.of_nat (length (instantiated s e d))) ∧
    Forall (λ r, is_Some (code d' !! sc_code_id r)) rows ∧
    checkpoints_of d' = saveCheckpoint u e (checkpoints_of d)) ∧
  (¬ Forall storable (instantiated s e d) →
   ∃ d', handleContractJob cfg d = (d', Throw too_long) ∧
    smart_contract d' = smart_contract d ∧ checkpoints_of d' = checkpoints_of d).
Proof.
  intros Hj Hse Hans.
  destruct (prepareContracts_spec _ d Hans) as (d1 & l & Hrun & Hl & Hc & Hn & Hk & Hcodes).
  destruct (insert_contracts_iff l d1 _ Hl Hcodes) as [Hins Hrefused]. split; intros Hfit; cycle 1.
  { exists d1. split; [|split; [done|by rewrite Hk]]. unfold handleContractJob.
    eapply checkpoint_handler_fails; [exact Hj|simpl; lia| |by apply Hrefused].
    rewrite (io_step _ _ d d (instantiated s e d)) by done. exact Hrun. }
  specialize (Hins Hfit). clear Hrefused.
  destruct (insert_contracts_rows _ _ _ Hins) as (rows & Hrows & Hl' & Hids & _ & _ & _).
  unfold handleContractJob. erewrite checkpoint_handler_run; [|exact Hj| |rewrite (io_step _ _ d d (instantiated s e d)) by done; exact Hrun|exact Hins]; cycle 1.
  { simpl. lia. }
  do 2 eexists. split; [reflexivity|]. split; [rewrite <-Hc; exact Hrows|]. split.
  { eapply Forall2_compose; [|exact Hl|exact Hl']. intros c r r' Hr ->. by apply row_of_with_id. }
  rewrite Hids, Hn, (Forall2_length _ _ _ Hl). split; [done|]. split.
  - apply Forall_forall. intros r Hr. simpl. rewrite Forall_forall in Hcodes.
    apply list_elem_of_lookup in Hr as [i Hi].
    destruct (Forall2_lookup_r _ _ _ _ _ Hl' Hi) as (r0 & H0 & ->). simpl.
    apply Hcodes. by eapply list_elem_of_lookup_2.
  - by rewrite checkpoints_set, <-Hk.
Qed.

(** ** Migrations *)

(** The contracts with their ids, and one contract per address in use. *)
Record contracts_wf (d : Db) : Prop := {
  ids_unique : NoDup (sc_id <$> smart_contract d);
  ids_below : Forall (λ c, sc_id c < next_contract_id d) (smart_contract d);
  latest_unique : NoDup (sc_address <$> filter (λ c, sc_status c = LATEST) (smart_contract d))
}.

Section Migrate.
Context {N : WasmNode}.

(** The row a migration gives a contract. *)
Definition migrated_to (m : migration) (old new : SmartContract) : Prop :=
  sc_address new = sc_address old ∧ sc_creator new = sc_creator old ∧
  sc_status new = LATEST ∧ required_code_id (mg_codeId m) = Ok (sc_code_id new) ∧
  sc_instantiate_hash new = mg_hash m ∧ sc_instantiate_height new = mg_height m.

Definition migrated_in (evs : gmap string migration) (old new : SmartContract) : Prop :=
  ∃ m, evs !! sc_address old = Some m ∧ migrated_to m old new.

Lemma migrated_row_spec d evs old b new :
  migrated_row d evs old = Ok (b, new) → migrated_in evs old new.
Proof.
  unfold migrated_row. destruct (evs !! sc_address old) as [m|] eqn:Hm; [|done].
  intros (id & Hid & [= _ <-])%bind_Ok. exists m. by repeat split.
Qed.

Lemma complete_spec evs old c c' :
  complete c = Ok c' → migrated_in evs old c → migrated_in evs old c'.
Proof.
  intros (cw2 & _ & Hc)%bind_Ok (m & Hm & H1). destruct cw2; injection Hc as <-; by exists m.
Qed.

(** The rows of a run: one per contract in use that is migrated. *)
Lemma prepareMigrations_Ok s e d d1 news ids :
  prepareMigrations s e d = (d1, Ok (news, ids)) →
  let ms := migrations (attributes_in s e MIGRATE d) in
  d1 = d ∧ ids = sc_id <$> oldContracts ms d ∧
  ∃ olds, olds ≡ₚ oldContracts ms d ∧ Forall2 (migrated_in (keyBy mg_address ms)) olds news.
Proof.
  intros Hp ms. unfold prepareMigrations in Hp. injection Hp as <- Hp.
  fold ms in Hp. set (olds := oldContracts ms d) in *.
  apply bind_Ok in Hp as (_ & _ & Hp). apply bind_Ok in Hp as (rows & Hrows & Hp).
  apply bind_Ok in Hp as (missing & Hmiss & [= <- <-]). split; [done|]. split; [done|].
  apply mapR_Ok in Hrows, Hmiss. revert missing Hmiss. clearbody olds.
  induction Hrows as [|old [b new] olds rows Hr _ IH]; intros missing Hmiss.
  { inversion Hmiss; subst. exists []. by split. }
  apply migrated_row_spec in Hr. rewrite filter_cons. rewrite filter_cons in Hmiss. simpl in *.
  destruct b.
  - rewrite decide_True by done. rewrite decide_False in Hmiss by done.
    destruct (IH _ Hmiss) as (os & Hos & Hf). exists (old :: os). split; [by apply Permutation_skip|].
    by constructor.
  - rewrite decide_False by done. rewrite decide_True in Hmiss by done. simpl in Hmiss.
    inversion Hmiss as [|? new' ? missing' Hn Hmiss']; subst.
    destruct (IH _ Hmiss') as (os & Hos & Hf). apply Forall2_app_inv_r in Hf as (o1 & o2 & H1 & H2 & ->).
    exists (o1 ++ old :: o2). split; [rewrite <-Permutation_middle; by apply Permutation_skip|].
    apply Forall2_app; [done|]. constructor; [|done]. by eapply complete_spec.
Qed.

Lemma retire_LATEST (ids : list Z) (l : list SmartContract) :
  filter (λ c, sc_status c = LATEST)
    ((λ c, if decide (sc_id c ∈ ids) then set_status MIGRATED c else c) <$> l)
  = filter (λ c, sc_status c = LATEST ∧ sc_id c ∉ ids) l.
Proof.
  induction l as [|c l IH]; [done|]. rewrite fmap_cons, !filter_cons, IH.
  destruct (decide (sc_id c ∈ ids)).
  - rewrite decide_False by done. by rewrite decide_False by (by intros [_ ?]).
  - destruct (decide (sc_status c = LATEST)) as [Hl|Hl];
      [by rewrite decide_True by (split; done) | by rewrite decide_False by (by intros [? _])].
Qed.
End Migrate.

(** The write of a migration: [olds] are the contracts in use that are
    replaced, [rows] their successors. *)
Section Replace.
Context (d d3 : Db) (evs : gmap string migration) (olds rows : list SmartContract).
Context (P : SmartContract → Prop) `{!∀ c, Decision (P c)}.
Let replaced := filter (λ c, P c ∧ sc_status c = LATEST) (smart_contract d).
Hypothesis Hwf : contracts_wf d.
Hypothesis Hperm : olds ≡ₚ replaced.
Hypothesis Hnew : Forall2 (migrated_in evs) olds rows.
Hypothesis Hrows : smart_contract d3 = smart_contract d ++ rows.
Hypothesis Hids : sc_id <$> rows = seqZ (next_contract_id d) (Z.of_nat (length rows)).
Hypothesis Hnext : next_contract_id d3 = next_contract_id d + Z.of_nat (length rows).
Let ids := sc_id <$> replaced.

Lemma replaced_ids c : c ∈ smart_contract d → (sc_id c ∈ ids ↔ c ∈ replaced).
Proof using Hwf.
  intros Hc. split; [|by apply list_elem_of_fmap_2].
  intros (c' & Heq & Hc')%list_elem_of_fmap.
  assert (c = c') as ->; [|done]. apply list_elem_of_filter in Hc' as [_ Hc'].
  eapply (NoDup_fmap_key sc_id); [exact (ids_unique _ Hwf)|done..].
Qed.

Lemma rows_fresh r : r ∈ rows → (sc_id r ∉ ids) ∧ (next_contract_id d <= sc_id r < next_contract_id d3).
Proof using Hids Hwf Hnext.
  intros Hr. assert (sc_id r ∈ seqZ (next_contract_id d) (Z.of_nat (length rows))) as Hin
    by (rewrite <-Hids; by apply list_elem_of_fmap_2).
  apply elem_of_seqZ in Hin. split; [|lia].
  intros (c & Hc & [_ Hc']%list_elem_of_filter)%list_elem_of_fmap.
  pose proof Hwf as [_ Hlt _]. rewrite Forall_forall in Hlt. specialize (Hlt _ Hc'). lia.
Qed.

Lemma rows_addresses : sc_address <$> rows = sc_address <$> olds.
Proof using Hnew.
  clear -Hnew. induction Hnew as [|c r olds rows (m & _ & Ha & _) Hf IH]; [done|].
  by rewrite !fmap_cons, Ha, (IH Hf).
Qed.

Lemma rows_LATEST : filter (λ c, sc_status c = LATEST ∧ sc_id c ∉ ids) rows = rows.
Proof using Hids Hwf Hnew Hnext.
  apply filter_all. intros r Hr. split; [|by apply rows_fresh].
  apply list_elem_of_lookup in Hr as [i Hi].
  by destruct (Forall2_lookup_r _ _ _ _ _ Hnew Hi) as (c & _ & m & _ & _ & _ & Hs & _).
Qed.

Lemma retire_wf : contracts_wf (retire ids d3).
Proof using All.
  split; simpl.
  - rewrite <-list_fmap_compose.
    rewrite (list_fmap_ext _ sc_id) by (intros i c _; simpl; by case_decide).
    rewrite Hrows, fmap_app, Hids. apply NoDup_app. split; [exact (ids_unique _ Hwf)|].
    split; [|apply NoDup_seqZ]. intros id (c & -> & Hc)%list_elem_of_fmap Hin%elem_of_seqZ.
    pose proof Hwf as [_ Hlt _]. rewrite Forall_forall in Hlt. specialize (Hlt _ Hc). lia.
  - apply Forall_fmap, Forall_forall. intros c. rewrite Hrows, elem_of_app. intros Hc. simpl.
    assert (sc_id c < next_contract_id d3) by (destruct Hc as [Hc|Hc];
      [pose proof Hwf as [_ Hlt _]; rewrite Forall_forall in Hlt; specialize (Hlt _ Hc); lia
      |by apply rows_fresh]). by case_decide.
  - rewrite retire_LATEST, Hrows, filter_app, rows_LATEST, fmap_app, rows_addresses.
    rewrite Hperm. pose proof Hwf as [_ _ Hun]. apply NoDup_app. split.
    { eapply NoDup_fmap_filter; [|exact Hun]. by intros c [? _]. }
    split; [|eapply NoDup_fmap_filter; [|exact Hun]; by intros c [_ ?]].
    intros a (c & -> & [[Hl Hid] Hc]%list_elem_of_filter)%list_elem_of_fmap (c' & Ha & Hc')%list_elem_of_fmap.
    apply Hid, replaced_ids; [done|]. pose proof Hc' as [[_ Hl'] Hin]%list_elem_of_filter.
    assert (c = c') as ->; [|done].
    eapply (NoDup_fmap_key sc_address); [exact Hun| | |done]; by apply list_elem_of_filter.
Qed.

(** What becomes of a row. *)
Lemma retire_row c :
  c ∈ smart_contract d →
  if decide (P c ∧ sc_status c = LATEST) then
    set_status MIGRATED c ∈ smart_contract (retire ids d3) ∧
    ∃ c', c' ∈ smart_contract (retire ids d3) ∧ migrated_in evs c c'
  else c ∈ smart_contract (retire ids d3).
Proof using All.
  intros Hc. assert (c ∈ smart_contract d3) as Hc3 by (rewrite Hrows, elem_of_app; by left).
  case_decide as Hd.
  - assert (c ∈ replaced) as Hr by by apply list_elem_of_filter. split.
    { apply list_elem_of_fmap. exists c. split; [|done]. by rewrite decide_True by by apply replaced_ids. }
    rewrite <-Hperm in Hr. apply list_elem_of_lookup in Hr as [i Hi].
    destruct (Forall2_lookup_l _ _ _ _ _ Hnew Hi) as (c' & Hc' & Hm). exists c'. split; [|done].
    apply list_elem_of_lookup_2 in Hc'. apply list_elem_of_fmap. exists c'.
    rewrite decide_False by by apply rows_fresh. split; [done|]. rewrite Hrows, elem_of_app. by right.
  - apply list_elem_of_fmap. exists c. split; [|done]. rewrite decide_False; [done|].
    rewrite replaced_ids by done. by intros [? _]%list_elem_of_filter.
Qed.
End Replace.

(** C13: a run of the migration job that returns keeps the ids unique and every
    address with one LATEST contract; a contract in use that the range migrates
    becomes MIGRATED and gets one successor with the code, hash and height of
    its last migration and the creator it had; every other row stays. *)
Theorem migrate_correct {N : WasmNode} cfg d d' s e u :
  contracts_wf d →
  jobCheckpoint cfg HANDLE_MIGRATE_CONTRACT (checkpoints_of d) = Ok (s, e, u) → s < e →
  handleMigrateContract cfg d = (d', Ok tt) →
  let evs := keyBy mg_address (migrations (attributes_in s e MIGRATE d)) in
  contracts_wf d' ∧ ∀ c, c ∈ smart_contract d →
    match evs !! sc_address c with
    | Some m =>
        if decide (sc_status c = LATEST) then
          set_status MIGRATED c ∈ smart_contract d' ∧
          ∃ c', c' ∈ smart_contract d' ∧ migrated_to m c c'
        else c ∈ smart_contract d'
    | None => c ∈ smart_contract d'
    end.
Proof.
  intros Hwf Hj Hse Hrun evs.
  apply checkpoint_handler_cases in Hrun as [(_ & _ & s' & e' & u' & Hj' & Hs)|
    [(msg & [=] & _)|(s' & e' & u' & [news ids] & d1 & d2 & Hj' & _ & Hp & Hw & -> & _)]].
  { rewrite Hj in Hj'. injection Hj' as <- <- <-. simpl in Hs. lia. }
  rewrite Hj in Hj'. injection Hj' as <- <- <-.
  apply prepareMigrations_Ok in Hp as (-> & -> & olds & Hperm & Hnews). fold evs in Hnews.
  set (ms := migrations (attributes_in s e MIGRATE d)) in *.
  apply bind_Ok in Hw as (d3 & Hins & [= <-]).
  apply insert_contracts_rows in Hins as (rows & Hrows & Hl & Hids & Hnext & _ & _).
  assert (Forall2 (migrated_in evs) olds rows) as Hnew.
  { eapply Forall2_compose; [|exact Hnews|exact Hl].
    intros c r r' (m & Hm & Hr) ->. exists m. split; [done|]. exact Hr. }
  rewrite (Forall2_length _ _ _ Hl) in Hids, Hnext.
  split.
  { destruct (retire_wf d d3 evs olds rows (λ c, sc_address c ∈ mg_address <$> ms)
      Hwf Hperm Hnew Hrows Hids Hnext) as [H1 H2 H3]. split; [exact H1|exact H2|exact H3]. }
  intros c Hc. pose proof (retire_row d d3 evs olds rows (λ c, sc_address c ∈ mg_address <$> ms)
    Hwf Hperm Hnew Hrows Hids Hnext c Hc) as Hrow.
  destruct (evs !! sc_address c) as [m|] eqn:Hm.
  - assert (sc_address c ∈ mg_address <$> ms) as Hin by (apply keyBy_is_Some; by exists m).
    destruct (decide (sc_status c = LATEST)) as [Hla|Hla]; [|by rewrite decide_False in Hrow by (by intros [_ ?])].
    rewrite decide_True in Hrow by (split; done). destruct Hrow as (Hret & c' & Hc' & m' & Hm' & Hto).
    split; [exact Hret|]. exists c'. split; [exact Hc'|]. by simplify_eq.
  - rewrite decide_False in Hrow; [exact Hrow|]. intros [Hin _].
    apply keyBy_is_Some in Hin as [m' Hm']. fold evs in Hm'. by rewrite Hm in Hm'.
Qed.

(** ** A concrete run *)
Definition demo_node : WasmNode := {|
  query_code := λ _, Ok (Some {| ci_creator := "aura1creator"; ci_data_hash := "AB";
    ci_instantiate_permission := "{}" |});
  query_cw2 := λ _, Ok (Some {| cw2_contract := "crates.io:cw20-base"; cw2_version := Some "1.0";
    cw2_name := None |});
  query_contract_info := λ a, Ok (Some {| nc_code_id := 7; nc_creator := "aura1creator"; nc_label := Some a |}) |}.

Definition demo_event (id : Z) (ty : string) (attrs : list attribute) : Event := {|
  e_id := id; e_tx_id := Some 1; e_type := ty; e_block_height := 4860001; e_attributes := attrs |}.

Definition demo_contract : SmartContract := {| sc_id := 1; sc_name := Some "crates.io:cw20-base"; sc_address := "aura1b";
    sc_creator := "aura1creator"; sc_code_id := 5; sc_status := LATEST; sc_label := None;
    sc_instantiate_hash := "H0"; sc_instantiate_height := 4850000; sc_version := Some "0.9" |}.

(** Contract aura1a is instantiated; aura1b, of code 5, migrates to code 9. *)
Definition demo_db : Db := {|
  transaction := [{| t_id := 1; t_hash := "H1"; t_height := 4860001; t_code := 0 |}];
  event := [
    demo_event 1 INSTANTIATE [Attribute "_contract_address" (Some "aura1a"); Attribute "code_id" (Some "7")];
    demo_event 2 MIGRATE [Attribute "code_id" (Some "9"); Attribute "_contract_address" (Some "aura1b")];
    demo_event 3 WASM [Attribute "_contract_address" (Some "aura1a"); Attribute "action" (Some "mint")]];
  code := {[ 9 := {| c_creator := "aura1creator"; c_data_hash := "cd"; c_instantiate_permission := "{}";
    c_type := None; c_status := None; c_store_hash := ""; c_store_height := 0 |} ]};
  code_id_verification := [];
  smart_contract := [demo_contract];
  next_contract_id := 2;
  smart_contract_event := []; next_contract_event_id := 1;
  block_checkpoint := {[ "crawl:code" := 4860005; "crawl:smart-contract" := 4860000 ]} |}.

Definition demo_checkpoint (j : JobDesc) : BlockCheckpoint := {| job_name := jd_name j; height := 4860000 |}.

Lemma contracts_stored_witness :
  ∃ d' rows, handleContractJob (N := demo_node) Config.json demo_db = (d', Ok tt) ∧
    smart_contract d' = smart_contract demo_db ++ rows ∧
    Forall2 (row_of (N := demo_node)) (instantiated 4860000 4860005 demo_db) rows.
Proof.
  destruct (contracts_stored (N := demo_node) Config.json demo_db 4860000 4860005
    (demo_checkpoint CRAWL_SMART_CONTRACT)) as [H _].
  - vm_compute; reflexivity.
  - lia.
  - apply Forall_forall. intros c _. split; [eexists; reflexivity|].
    eexists. split; [reflexivity|]. eexists. reflexivity.
  - destruct H as (d' & rows & Hrun & Hrows & Hl & _).
    + apply (rows_fit (N := demo_node) _ [new_contract {| i_address := "aura1a"; i_hash := "H1"; i_height := 4860001 |}
        (Some {| cw2_contract := "crates.io:cw20-base"; cw2_version := Some "1.0"; cw2_name := None |})
        (Some {| nc_code_id := 7; nc_creator := "aura1creator"; nc_label := Some "aura1a" |})]); [|by vm_compute].
      replace (instantiated 4860000 4860005 demo_db)
        with [{| i_address := "aura1a"; i_hash := "H1"; i_height := 4860001 |}] by (vm_compute; reflexivity).
      constructor; [|constructor]. eexists _, _. repeat split.
    + exists d', rows. auto.
Defined.

(** A contract whose cw2 name has 256 characters. *)
Definition long_name : string := String.concat "" (replicate 16 "crates.io:long__").
Definition demo_long_node : WasmNode := {|
  query_code := query_code (WasmNode := demo_node);
  query_cw2 := λ _, Ok (Some {| cw2_contract := long_name; cw2_version := None; cw2_name := None |});
  query_contract_info := query_contract_info (WasmNode := demo_node) |}.

(** Its name stops the job: every run throws. *)
Example long_contract_name_stops_job :
  (handleContractJob (N := demo_long_node) Config.json demo_db).2 = Throw too_long ∧
  checkpoints_of (handleContractJob (N := demo_long_node) Config.json demo_db).1 = checkpoints_of demo_db.
Proof. split; vm_compute; reflexivity. Qed.

Definition demo_migrated : Db := (handleMigrateContract (N := demo_node) Config.json demo_db).1.

(** The run of the witness: the migrated contract has no name, since the
    code looks for [name] in the answer of the node, where it is [contract]. *)
Example migrated_name_lost :
  (λ c, (sc_address c, sc_code_id c, sc_status c, sc_name c)) <$> smart_contract demo_migrated
  = [("aura1b", 5, MIGRATED, Some "crates.io:cw20-base"); ("aura1b", 9, LATEST, None)].
Proof. vm_compute. reflexivity. Qed.

Lemma migrate_correct_witness :
  contracts_wf demo_migrated ∧ set_status MIGRATED demo_contract ∈ smart_contract demo_migrated.
Proof.
  destruct (migrate_correct (N := demo_node) Config.json demo_db demo_migrated 4860000 4860005
    (demo_checkpoint HANDLE_MIGRATE_CONTRACT)) as [Hwf H].
  - split; [repeat constructor; set_solver|repeat constructor; simpl; lia|repeat constructor; set_solver].
  - vm_compute; reflexivity.
  - lia.
  - vm_compute; reflexivity.
  - split; [exact Hwf|]. specialize (H demo_contract). cbv zeta in H.
    destruct (_ !! sc_address demo_contract) eqn:E; [|vm_compute in E; discriminate].
    rewrite decide_True in H by reflexivity. apply H. left.
Defined.
