(* ===== verification/ContractEvents.v ===== *)
(** * Contract events

    [services/crawl-cosmwasm/crawl_contract_event.service.ts] with
    [getContractActivities] of [common/utils/smart_contract.ts]: every event of
    type wasm or instantiate of a range becomes a row of
    [smart_contract_event] that names the contract it is about.  The tables
    are those of Contracts.v.

    The theorems: the rows of a range when its contracts are known, and what
    happens when they are not: the first run stores the contracts and throws,
    the second one stores the rows. *)
From S2P Require Import Prelude Checkpoint Contracts.

(** ** [getContractActivities] *)
Record IContractMsgInfo := {
  contractAddress : option string;
  action : option string;
  attributes : list attribute;
  tx : option Transaction;
  event_id : Z;
  index : Z
}.

Definition wasmEvents (fromBlock toBlock : Z) (d : Db) : list Event :=
  filter (λ e, e_type e ∈ [WASM; INSTANTIATE] ∧ fromBlock < e_block_height e ∧ e_block_height e <= toBlock)
    (event d).

(** The relation [transaction] of an event. *)
Definition transaction_of (d : Db) (e : Event) : option Transaction :=
  e_tx_id e ≫= λ id, find (λ t, bool_decide (t_id t = id)) (transaction d).

Definition contractActivity (d : Db) (index : nat) (wasmEvent : Event) : IContractMsgInfo := {|
  contractAddress := getAttributeFrom (e_attributes wasmEvent) "_contract_address";
  action := if bool_decide (e_type wasmEvent = INSTANTIATE) then Some INSTANTIATE
            else getAttributeFrom (e_attributes wasmEvent) "action";
  attributes := e_attributes wasmEvent;
  tx := transaction_of d wasmEvent;
  event_id := e_id wasmEvent;
  index := Z.of_nat index |}.

Definition getContractActivities (fromBlock toBlock : Z) (d : Db) : list IContractMsgInfo :=
  imap (contractActivity d) (wasmEvents fromBlock toBlock d).

(** ** The job *)

(** [getContractByAddress]; all the rows of an address, the last one wins. *)
Definition getContractByAddress (addresses : list string) (d : Db) : gmap string SmartContract :=
  keyBy sc_address (filter (λ c, sc_address c ∈ addresses) (smart_contract d)).

Definition missingContractsAddress (byAddress : gmap string SmartContract) (addresses : list string)
  : list string := uniq (filter (λ a, byAddress !! a = None) addresses).

(** [whereIn] throws for an address that is [undefined]. *)
Definition address_of (m : IContractMsgInfo) : res string :=
  match contractAddress m with
  | Some a => Ok a
  | None => Throw "Undefined binding(s) detected when compiling SELECT"
  end.

Definition crawlMissing {N : WasmNode} (missing : list string) : io Db () :=
  if bool_decide (missing = []) then mret tt
  else actionCrawlMissingContract
         ((λ a, {| i_address := a; i_hash := ""; i_height := 0 |}) <$> missing).

(** The contracts are read before the missing ones are fetched. *)
Definition prepareEvents {N : WasmNode} (startBlock endBlock : Z)
  : io Db (list IContractMsgInfo * gmap string SmartContract) :=
  contractEvents ← query (getContractActivities startBlock endBlock);
  addresses ← lift (mapR address_of contractEvents);
  contractByAddress ← query (getContractByAddress addresses);
  crawlMissing (missingContractsAddress contractByAddress addresses);;
  mret (contractEvents, contractByAddress).

(** The row of a contract event (no id yet). *)
Definition event_row (byAddress : gmap string SmartContract) (m : IContractMsgInfo)
  : res SmartContractEvent :=
  match tx m, contractAddress m ≫= (byAddress !!.) with
  | Some t, Some c => Ok {|
      se_id := 0; se_smart_contract_id := sc_id c; se_action := action m;
      se_event_id := event_id m; se_index := index m; se_tx_id := t_id t;
      se_attributes := attributes m |}
  | _, _ => Throw "TypeError: Cannot read properties of undefined (reading 'id')"
  end.

Definition event_with_id (id : Z) (e : SmartContractEvent) : SmartContractEvent := {|
  se_id := id; se_smart_contract_id := se_smart_contract_id e; se_action := se_action e;
  se_event_id := se_event_id e; se_index := se_index e; se_tx_id := se_tx_id e;
  se_attributes := se_attributes e |}.

Definition event_key (e : SmartContractEvent) : Z * Z := (se_event_id e, se_index e).

(** The action is a column varchar(255), as the keys of the attributes. *)
Definition texts_fit (action : option string) (attrs : list attribute) : bool :=
  varchar255_opt action &&
  forallb (λ a, varchar255 (attr_key a) && from_option no_nul true (attr_value a)) attrs.

(** The insertions of a range; [(event_id, index)] is unique. *)
Definition insert_events (rows : list SmartContractEvent) (d : Db) : res Db :=
  let l := serial event_with_id (next_contract_event_id d) rows in
  if negb (forallb (λ r, texts_fit (se_action r) (se_attributes r)) rows) then Throw too_long
  else if bool_decide (NoDup (event_key <$> smart_contract_event d ++ l)) then
    Ok (set_events (smart_contract_event d ++ l) (next_contract_event_id d + Z.of_nat (length rows)) d)
  else Throw "smart_contract_event_event_id_index_unique".

Definition writeEvents (w : list IContractMsgInfo * gmap string SmartContract) (d : Db) : res Db :=
  rows ← mapR (event_row w.2) w.1; insert_events rows d.

Definition jobHandler {N : WasmNode} (cfg : Config.t) : io Db () :=
  checkpoint_handler cfg CRAWL_CONTRACT_EVENT prepareEvents (λ _ _, writeEvents).

(** ** The events of the contracts of a type

    The query the CW20 and CW721 services share: the contract events of a
    range joined with their event, transaction, contract and code, in the
    order of the ids; the joins are inner. *)
Definition find_contract (b : Db) (id : Z) : option SmartContract :=
  find (λ c, bool_decide (sc_id c = id)) (smart_contract b).

Definition has_type (b : Db) (ty : string) (c : SmartContract) : bool :=
  bool_decide ((code b !! sc_code_id c) ≫= c_type = Some ty).

Record Joined := {
  j_contract : SmartContract;
  j_event : Event;
  j_tx : Transaction;
  j_row : SmartContractEvent
}.

Definition joined (b : Db) (ty : string) (se : SmartContractEvent) : option Joined :=
  ev ← find (λ e, bool_decide (e_id e = se_event_id se)) (event b);
  id ← e_tx_id ev;
  t ← find (λ t, bool_decide (t_id t = id)) (transaction b);
  c ← find_contract b (se_smart_contract_id se);
  if has_type b ty c then Some {| j_contract := c; j_event := ev; j_tx := t; j_row := se |} else None.

(** [if (smartContractId)] a condition on the contract. *)
Definition selects (smartContractId : option Z) (id : Z) : bool :=
  match smartContractId with
  | Some i => if bool_decide (i = 0) then true else bool_decide (id = i)
  | None => true
  end.

Definition contractEvents (b : Db) (ty : string) (startBlock endBlock : Z) (smartContractId : option Z)
    (page : option (Z * nat)) : list Joined :=
  let rows := filter (λ r,
      startBlock < e_block_height (j_event r) ∧ e_block_height (j_event r) <= endBlock ∧
      selects smartContractId (sc_id (j_contract r)) = true)
    (omap (joined b ty) (smart_contract_event b)) in
  match page with
  | Some (prevId, limit) => take limit (filter (λ r, prevId < se_id (j_row r)) rows)
  | None => rows
  end.

(** ** Queries in pages

    [getAllTokensOwner] of [models/cw721_contract.ts] and
    [getInstantiateBalances] of [models/cw20_contract.ts] read a list of the
    contract page by page, each page after the last item of the one before,
    until a page is empty.  The fuel bounds the number of pages. *)
Section Pages.
Context (page : option string → res (list string)).

Fixpoint all_pages (fuel : nat) (startAfter : option string) : res (list string) :=
  match fuel with
  | O => Throw "out of fuel"
  | S fuel =>
      items ← page startAfter;
      match last items with
      | Some x => if bool_decide (x = "") then Ok items
                  else rest ← all_pages fuel (Some x); Ok (items ++ rest)
      | None => Ok []
      end
  end.

(** The pages add up to the list, when a page holds the next items after the
    given one; one page more than the list has items is enough. *)
Lemma all_pages_complete k (l : list string) :
  (0 < k)%nat → Forall (λ x, x ≠ "") l →
  page None = Ok (take k l) →
  (∀ pre x post, l = pre ++ x :: post → page (Some x) = Ok (take k post)) →
  ∀ fuel, (length l < fuel)%nat → all_pages fuel None = Ok l.
Proof.
  intros Hk0 Hne Hfirst Hnext fuel Hfuel.
  assert (∀ fuel pre post o, l = pre ++ post → page o = Ok (take k post) →
    (length post < fuel)%nat → all_pages fuel o = Ok post) as Hgen; cycle 1.
  { by apply (Hgen fuel []). }
  clear fuel Hfuel Hfirst. induction fuel as [|fuel IH]; intros pre post o Hl Hq Hfuel; [lia|].
  cbn [all_pages]. rewrite Hq. cbn [mbind res_bind]. destruct (last (take k post)) as [t|] eqn:Hlast.
  - apply last_Some in Hlast as [l' Hl']. rewrite Forall_forall in Hne.
    assert (post = (l' ++ [t]) ++ drop k post) as Hpost by (rewrite <-Hl'; by rewrite take_drop).
    rewrite bool_decide_eq_false_2.
    2:{ apply Hne. rewrite Hl, Hpost, !elem_of_app. right. left. right. left. }
    rewrite (IH (pre ++ l' ++ [t]) (drop k post)).
    + cbn [mbind res_bind]. by rewrite take_drop.
    + by rewrite Hl, <-!app_assoc, (app_assoc l'), <-Hpost.
    + apply (Hnext (pre ++ l')). by rewrite Hl, <-app_assoc, Hpost at 1; rewrite <-!app_assoc.
    + assert (length post = (length l' + 1 + length (drop k post))%nat); [|lia].
      rewrite Hpost at 1. by rewrite !length_app.
  - apply last_None in Hlast. destruct post; [done|]. by destruct k; [lia|].
Qed.
End Pages.

(** ** Facts *)
Section Facts.
Context {N : WasmNode}.

Lemma actionCrawlMissing_frames l : frames (actionCrawlMissingContract l).
Proof.
  apply frames_bind; [apply prepareContracts_frames|]. intros rows.
  apply frames_logged, insert_contracts_frames.
Qed.

#[export] Instance jobHandler_frames : HandlerFrames prepareEvents (λ _ _, writeEvents).
Proof.
  split.
  - intros s e. apply frames_bind; [apply frames_query|]. intros evs.
    apply frames_bind; [apply frames_lift|]. intros addrs.
    apply frames_bind; [apply frames_query|]. intros byA.
    apply frames_bind; [|intros; apply frames_ret]. unfold crawlMissing.
    case_bool_decide; [apply frames_ret|apply actionCrawlMissing_frames].
  - intros s e w d d'. unfold writeEvents. intros (rows & _ & Hi)%bind_Ok.
    unfold insert_events in Hi. cbv zeta in Hi. destruct (negb _); [done|].
    case_bool_decide; [|done]. by injection Hi as <-.
Qed.
#[export] Instance jobHandler_job cfg : CheckpointJob cfg CRAWL_CONTRACT_EVENT (jobHandler cfg).
Proof. apply _. Qed.
End Facts.

(** ** The rows of a range *)

(** The event has an address and a transaction. *)
Definition resolvable (d : Db) (e : Event) : Prop :=
  is_Some (getAttributeFrom (e_attributes e) "_contract_address") ∧ is_Some (transaction_of d e).

(** The action of the row of an event, and whether the row fits its columns. *)
Definition action_of (e : Event) : option string :=
  if bool_decide (e_type e = INSTANTIATE) then Some INSTANTIATE
  else getAttributeFrom (e_attributes e) "action".
Definition event_fits (e : Event) : Prop := texts_fit (action_of e) (e_attributes e) = true.

(** Its contract is in the table. *)
Definition known (d : Db) (e : Event) : Prop :=
  ∀ a, getAttributeFrom (e_attributes e) "_contract_address" = Some a →
    a ∈ sc_address <$> smart_contract d.
#[export] Instance known_dec d e : Decision (known d e).
Proof.
  unfold known. destruct (getAttributeFrom _ _) as [a|]; [|by left].
  destruct (decide (a ∈ sc_address <$> smart_contract d)) as [Ha|Ha];
    [left; by intros a' [= <-]|right; auto].
Defined.

(** The row of the event at a position of the range: the contract is the
    latest row with the address. *)
Definition row_for (d : Db) (i : nat) (e : Event) (r : SmartContractEvent) : Prop :=
  ∃ a c t, getAttributeFrom (e_attributes e) "_contract_address" = Some a ∧
    last (filter (λ c, sc_address c = a) (smart_contract d)) = Some c ∧
    transaction_of d e = Some t ∧
    se_smart_contract_id r = sc_id c ∧ se_event_id r = e_id e ∧ se_tx_id r = t_id t ∧
    se_index r = Z.of_nat i ∧ se_attributes r = e_attributes e ∧
    se_action r = action_of e.

(** The tables before the range: events have one id each, rows of contract
    events one key each, and no row is about an event of the range. *)
Record events_fresh (s e : Z) (d : Db) : Prop := {
  event_ids : NoDup (e_id <$> event d);
  event_keys : NoDup (event_key <$> smart_contract_event d);
  no_row_yet r ev : r ∈ smart_contract_event d → ev ∈ wasmEvents s e d → se_event_id r ≠ e_id ev
}.

Lemma addresses_Ok (acts : list IContractMsgInfo) :
  Forall (λ m, is_Some (contractAddress m)) acts →
  ∃ addrs, mapR address_of acts = Ok addrs ∧
    (∀ m a, m ∈ acts → contractAddress m = Some a → a ∈ addrs) ∧
    ∀ a, a ∈ addrs → ∃ m, m ∈ acts ∧ contractAddress m = Some a.
Proof.
  induction 1 as [|m acts [a Ha] _ (addrs & Hrun & Hin & Hof)].
  { exists []. split; [done|]. split; intros ?; [by intros a []%not_elem_of_nil|by intros []%not_elem_of_nil]. }
  assert (address_of m = Ok a) as Hma by (unfold address_of; by rewrite Ha).
  exists (a :: addrs). cbn [mapR]. rewrite Hma, Hrun.
  split; [done|]. split.
  - intros m' a' [->|Hm]%elem_of_cons Ha'; [simplify_eq; left|right; by eapply Hin].
  - intros a' [->|Ha']%elem_of_cons; [exists m; split; [left|done]|].
    destruct (Hof a' Ha') as (m' & Hm' & ?). exists m'. split; [by right|done].
Qed.

Lemma elem_of_activities d s e m :
  m ∈ getContractActivities s e d ↔
  ∃ i ev, wasmEvents s e d !! i = Some ev ∧ m = contractActivity d i ev.
Proof.
  unfold getContractActivities. rewrite list_elem_of_lookup. split.
  - intros [i Hi]. rewrite list_lookup_imap in Hi. apply fmap_Some in Hi as (ev & Hev & ->). eauto.
  - intros (i & ev & Hev & ->). exists i. by rewrite list_lookup_imap, Hev.
Qed.

Lemma contractByAddress_lookup d addrs a :
  a ∈ addrs →
  getContractByAddress addrs d !! a = last (filter (λ c, sc_address c = a) (smart_contract d)).
Proof.
  intros Ha. unfold getContractByAddress. rewrite keyBy_last, list_filter_filter. f_equal.
  apply list_filter_iff. intros c. split; [by intros [? _]|]. intros <-. done.
Qed.

Section Correct.
Context {N : WasmNode} (cfg : Config.t) (d : Db) (s e : Z) (u : BlockCheckpoint).
Hypothesis Hj : jobCheckpoint cfg CRAWL_CONTRACT_EVENT (checkpoints_of d) = Ok (s, e, u).
Hypothesis Hse : s < e.
Hypothesis Hres : Forall (resolvable d) (wasmEvents s e d).

Lemma activities_resolvable m :
  m ∈ getContractActivities s e d → is_Some (contractAddress m) ∧ is_Some (tx m).
Proof using Hres.
  intros (i & ev & Hev & ->)%elem_of_activities. rewrite Forall_forall in Hres.
  apply list_elem_of_lookup_2 in Hev. exact (Hres _ Hev).
Qed.

Lemma range_addresses :
  ∃ addrs, mapR address_of (getContractActivities s e d) = Ok addrs ∧
    (∀ m a, m ∈ getContractActivities s e d → contractAddress m = Some a → a ∈ addrs) ∧
    ∀ a, a ∈ addrs → ∃ ev, ev ∈ wasmEvents s e d ∧
      getAttributeFrom (e_attributes ev) "_contract_address" = Some a.
Proof using Hres.
  destruct (addresses_Ok (getContractActivities s e d)) as (addrs & Hrun & Hin & Hof).
  { apply Forall_forall. intros m Hm. by apply activities_resolvable. }
  exists addrs. split; [done|]. split; [done|]. intros a Ha.
  destruct (Hof a Ha) as (m & (i & ev & Hev & ->)%elem_of_activities & Hma).
  exists ev. split; [by eapply list_elem_of_lookup_2|done].
Qed.

(** The rows, whatever contracts were read. *)
Lemma event_rows addrs d0 :
  (∀ m a, m ∈ getContractActivities s e d → contractAddress m = Some a → a ∈ addrs) →
  (∀ m a, m ∈ getContractActivities s e d → contractAddress m = Some a →
     a ∈ sc_address <$> smart_contract d0) →
  ∃ rows, mapR (event_row (getContractByAddress addrs d0)) (getContractActivities s e d) = Ok rows.
Proof using Hres.
  intros Hin Hknown. apply mapR_total. intros m Hm.
  destruct (activities_resolvable m Hm) as [[a Ha] [t Ht]].
  unfold event_row. rewrite Ht, Ha. simpl. rewrite contractByAddress_lookup by by eapply Hin.
  destruct (last _) as [c|] eqn:Hl; [eauto|]. apply last_None in Hl.
  destruct (proj1 (list_elem_of_fmap sc_address (smart_contract d0) a) (Hknown _ _ Hm Ha)) as (c & -> & Hc).
  assert (c ∈ filter (λ c', sc_address c' = sc_address c) (smart_contract d0)) as Hc'
    by by apply list_elem_of_filter.
  rewrite Hl in Hc'. by apply elem_of_nil in Hc'.
Qed.

Lemma event_rows_for addrs rows :
  (∀ m a, m ∈ getContractActivities s e d → contractAddress m = Some a → a ∈ addrs) →
  mapR (event_row (getContractByAddress addrs d)) (getContractActivities s e d) = Ok rows →
  Forall2 (λ ir r, row_for d ir.1 ir.2 r) (imap pair (wasmEvents s e d)) rows ∧
  event_key <$> rows = imap (λ i ev, (e_id ev, Z.of_nat i)) (wasmEvents s e d).
Proof using Type.
  intros Hin Hrows%mapR_Ok.
  assert (∀ i r, rows !! i = Some r →
    ∃ ev, wasmEvents s e d !! i = Some ev ∧ row_for d i ev r) as Hrow.
  { intros i r Hr. destruct (Forall2_lookup_r _ _ _ _ _ Hrows Hr) as (m & Hm & Hr').
    assert (m ∈ getContractActivities s e d) as Hm' by by eapply list_elem_of_lookup_2.
    unfold getContractActivities in Hm. rewrite list_lookup_imap in Hm.
    apply fmap_Some in Hm as (ev & Hev & ->). exists ev. split; [done|].
    unfold event_row in Hr'. destruct (tx _) as [t|] eqn:Ht; [|done].
    destruct (contractAddress _) as [a|] eqn:Ha; [|done]. simpl in Hr'.
    rewrite contractByAddress_lookup in Hr' by by eapply Hin.
    destruct (last _) as [c|] eqn:Hc; [|done]. injection Hr' as <-.
    exists a, c, t. by repeat split. }
  pose proof (Forall2_length _ _ _ Hrows) as Hlen.
  unfold getContractActivities in Hlen. rewrite length_imap in Hlen. split.
  - apply Forall2_same_length_lookup_2; [by rewrite length_imap|].
    intros i ir r Hir Hr. rewrite list_lookup_imap in Hir.
    apply fmap_Some in Hir as (ev & Hev & ->). simpl. destruct (Hrow _ _ Hr) as (ev' & Hev' & ?).
    by simplify_eq.
  - apply list_eq_same_length with (length rows);
      [by rewrite length_imap|by rewrite length_fmap|].
    intros i x y _ Hx Hy. rewrite list_lookup_fmap in Hx. rewrite list_lookup_imap in Hy.
    apply fmap_Some in Hx as (r & Hr & ->), Hy as (ev & Hev & ->).
    destruct (Hrow _ _ Hr) as (ev' & Hev' & a & c & t & _ & _ & _ & _ & He & _ & Hi & _).
    unfold event_key. simplify_eq. by rewrite He, Hi.
Qed.

(** The rows fit exactly when the events do. *)
Lemma event_rows_fit rows :
  Forall2 (λ ir r, row_for d ir.1 ir.2 r) (imap pair (wasmEvents s e d)) rows →
  (forallb (λ r, texts_fit (se_action r) (se_attributes r)) rows = true
   ↔ Forall event_fits (wasmEvents s e d)).
Proof using Type.
  intros Hrows. assert ((imap pair (wasmEvents s e d)).*2 = wasmEvents s e d) as Hevs.
  { rewrite fmap_imap. etrans; [apply (imap_const id)|apply list_fmap_id]. }
  rewrite <-Hevs. clear Hevs.
  induction Hrows as [|[i ev] r l rows (a & c & t & _ & _ & _ & _ & _ & _ & _ & Hat & Hac) _ IH]; [done|].
  rewrite fmap_cons, Forall_cons, <-IH. simpl in *. by rewrite andb_true_iff, Hat, Hac.
Qed.

(** The keys of the rows are new. *)
Lemma event_keys_fresh rows d0 :
  events_fresh s e d → smart_contract_event d0 = smart_contract_event d →
  forallb (λ r, texts_fit (se_action r) (se_attributes r)) rows = true →
  event_key <$> rows = imap (λ i ev, (e_id ev, Z.of_nat i)) (wasmEvents s e d) →
  ∃ l, insert_events rows d0 = Ok (set_events (smart_contract_event d ++ l)
         (next_contract_event_id d0 + Z.of_nat (length rows)) d0) ∧
    Forall2 (λ r r', r' = event_with_id (se_id r') r) rows l ∧
    se_id <$> l = seqZ (next_contract_event_id d0) (Z.of_nat (length rows)).
Proof using Type.
  intros [_ Hnd Hno] Hd0 Hfit Hkeys. exists (serial event_with_id (next_contract_event_id d0) rows).
  split; [|split; [by apply serial_rows|by apply serial_ids]].
  unfold insert_events. cbv zeta. rewrite Hd0, Hfit. cbn [negb]. rewrite bool_decide_eq_true_2; [done|].
  assert (event_key <$> serial event_with_id (next_contract_event_id d0) rows = event_key <$> rows) as Heq.
  { generalize (next_contract_event_id d0). clear. induction rows as [|r rows IH]; intros n; [done|].
    rewrite serial_cons, !fmap_cons. by rewrite IH. }
  rewrite fmap_app, Heq, Hkeys. apply NoDup_app. split; [done|]. split.
  - intros k (r & -> & Hr)%list_elem_of_fmap (i & ev & Hk & Hev)%elem_of_lookup_imap_1.
    apply list_elem_of_lookup_2 in Hev. apply (Hno _ _ Hr Hev). by injection Hk.
  - apply NoDup_fmap_1 with snd. rewrite fmap_imap. 
    rewrite (imap_ext _ (λ i _, Z.of_nat i)) by done. rewrite imap_seq_0.
    apply NoDup_fmap_2; [apply _|apply NoDup_seq].
Qed.

(** With [addrs] the addresses of the range. *)
Lemma event_address (addrs : list string) ev a :
  (∀ m a, m ∈ getContractActivities s e d → contractAddress m = Some a → a ∈ addrs) →
  ev ∈ wasmEvents s e d → getAttributeFrom (e_attributes ev) "_contract_address" = Some a → a ∈ addrs.
Proof using Type.
  intros Hin [i Hi]%list_elem_of_lookup Ha.
  apply (Hin (contractActivity d i ev)); [|done]. apply elem_of_activities. eauto.
Qed.

Lemma elem_of_missing addrs a :
  a ∈ missingContractsAddress (getContractByAddress addrs d) addrs ↔
  a ∈ addrs ∧ a ∉ sc_address <$> smart_contract d.
Proof using Type.
  unfold missingContractsAddress. rewrite elem_of_uniq, list_elem_of_filter. split.
  - intros [Hn Ha]. split; [done|]. intros (c & -> & Hc)%list_elem_of_fmap.
    unfold getContractByAddress in Hn. rewrite keyBy_None, Forall_forall in Hn.
    apply (Hn c); [|done]. by apply list_elem_of_filter.
  - intros [Ha Hc]. split; [|done]. apply keyBy_None, Forall_forall. intros c [_ Hc']%list_elem_of_filter <-.
    apply Hc. by apply list_elem_of_fmap_2.
Qed.

(** The contracts read before the missing ones are stored do not do. *)
Lemma stale_write_throws addrs d1 :
  (∀ m a, m ∈ getContractActivities s e d → contractAddress m = Some a → a ∈ addrs) →
  ¬ Forall (known d) (wasmEvents s e d) →
  ∃ msg, writeEvents (getContractActivities s e d, getContractByAddress addrs d) d1 = Throw msg.
Proof using Type.
  intros Hin Hun. unfold writeEvents. cbn [fst snd].
  destruct (mapR (event_row _) _) as [rs|msg] eqn:Hmap; [exfalso|by exists msg].
  destruct (event_rows_for addrs rs Hin Hmap) as [Hfor _].
  apply Hun, Forall_forall. intros ev Hev a Ha. apply list_elem_of_lookup in Hev as [i Hi].
  destruct (Forall2_lookup_l _ _ _ i (i, ev) Hfor) as (r & _ & a' & c & t & Ha' & Hc & _).
  { by rewrite list_lookup_imap, Hi. }
  simpl in Ha'. simplify_eq. apply last_Some in Hc as [l' Hc].
  assert (c ∈ filter (λ c, sc_address c = a) (smart_contract d)) as [<- Hin']%list_elem_of_filter
    by (rewrite Hc, elem_of_app; right; left).
  by apply list_elem_of_fmap_2.
Qed.
End Correct.

(** What a run that stores the range leaves. *)
Definition range_stored (s e : Z) (u : BlockCheckpoint) (d d' : Db) : Prop :=
  ∃ rows, smart_contract_event d' = smart_contract_event d ++ rows ∧
    Forall2 (λ ir r, row_for d ir.1 ir.2 r) (imap pair (wasmEvents s e d)) rows ∧
    se_id <$> rows = seqZ (next_contract_event_id d) (Z.of_nat (length rows)) ∧
    checkpoints_of d' = saveCheckpoint u e (checkpoints_of d).

Lemma row_for_with_id d i ev r id : row_for d i ev r → row_for d i ev (event_with_id id r).
Proof. intros (a & c & t & H1). exists a, c, t. exact H1. Qed.

(** A table of contracts that knows the addresses: the job stores the range
    when the rows fit, and throws otherwise. *)
Lemma known_run {N : WasmNode} cfg d s e u :
  jobCheckpoint cfg CRAWL_CONTRACT_EVENT (checkpoints_of d) = Ok (s, e, u) → s < e →
  Forall (resolvable d) (wasmEvents s e d) → Forall (known d) (wasmEvents s e d) →
  events_fresh s e d →
  (Forall event_fits (wasmEvents s e d) →
    ∃ d', jobHandler cfg d = (d', Ok tt) ∧ range_stored s e u d d') ∧
  (¬ Forall event_fits (wasmEvents s e d) → jobHandler cfg d = (d, Throw too_long)).
Proof.
  intros Hj Hse Hres Hknown Hfresh.
  destruct (range_addresses d s e Hres) as (addrs & Hrun & Hin & Hof).
  rewrite Forall_forall in Hknown.
  destruct (event_rows d s e Hres addrs d Hin) as [rows Hrows].
  { intros m a (i & ev & Hev & ->)%elem_of_activities Ha.
    apply list_elem_of_lookup_2 in Hev. by apply (Hknown ev). }
  destruct (event_rows_for d s e addrs rows Hin Hrows) as [Hfor Hkeys].
  assert (missingContractsAddress (getContractByAddress addrs d) addrs = []) as Hmiss.
  { unfold missingContractsAddress. rewrite filter_none; [done|]. intros a Ha Hn.
    destruct (Hof a Ha) as (ev & Hev & Hea). specialize (Hknown ev Hev a Hea).
    unfold getContractByAddress in Hn. rewrite keyBy_None, Forall_forall in Hn.
    apply list_elem_of_fmap in Hknown as (c & -> & Hc). apply (Hn c); [|done].
    by apply list_elem_of_filter. }
  assert (prepareEvents s e d = (d, Ok (getContractActivities s e d, getContractByAddress addrs d))) as Hp.
  { unfold prepareEvents. erewrite io_step by done. erewrite io_step by (unfold lift; by rewrite Hrun).
    erewrite io_step by done. rewrite Hmiss. by erewrite io_step by done. }
  rewrite <-(event_rows_fit d s e rows Hfor). split; intros Hfit.
  - destruct (event_keys_fresh d s e rows d Hfresh eq_refl Hfit Hkeys) as (l & Hins & Hl & Hids).
    eexists. split.
    + unfold jobHandler. eapply checkpoint_handler_run; [exact Hj|simpl; lia|exact Hp|].
      unfold writeEvents. cbn [fst snd]. rewrite Hrows. exact Hins.
    + exists l. split; [done|]. split; [|split; [|done]].
      * eapply Forall2_compose; [|exact Hfor|exact Hl]. intros ir r r' Hr ->. by apply row_for_with_id.
      * by rewrite Hids, (Forall2_length _ _ _ Hl).
  - unfold jobHandler. eapply checkpoint_handler_fails; [exact Hj|simpl; lia|exact Hp|].
    unfold writeEvents. cbn [fst snd]. rewrite Hrows. cbn [mbind res_bind].
    unfold insert_events. cbv zeta. by destruct (forallb _ rows).
Qed.

(** The tables of events do not change when contracts are fetched. *)
Definition same_events (d d' : Db) : Prop :=
  event d' = event d ∧ transaction d' = transaction d ∧
  smart_contract_event d' = smart_contract_event d ∧
  next_contract_event_id d' = next_contract_event_id d.

Lemma prepareContracts_same_events {N : WasmNode} l d :
  same_events d (prepareContracts l d).1.
Proof.
  assert (keeps (same_events d) (prepareContracts l)) as Hk; [|by apply Hk].
  apply keeps_bind; [apply keeps_lift|]. intros data. apply keeps_bind.
  - apply keeps_bind; [apply keeps_query|]. intros codes. cbv beta zeta.
    case_bool_decide; [apply keeps_ret|]. apply keeps_bind.
    + intros d0 Hd0. by rewrite prepareCodes_state.
    + intros w. apply keeps_logged. intros d0 d1 Hd0. unfold writeCodes.
      case_bool_decide; [|done]. by intros [= <-].
  - intros _. apply keeps_bind; [|intros; apply keeps_ret]. apply keeps_each. intros [o ty].
    apply keeps_commit. intros d0 d1 Hd0. unfold patch_type. destruct o; [|done]. by intros [= <-].
Qed.

Definition missing_contract (a : string) : IInstantiateContracts :=
  {| i_address := a; i_hash := ""; i_height := 0 |}.

(** The action on missing contracts the node knows: it stores them when their
    rows fit, and nothing otherwise. *)
Lemma missing_stored {N : WasmNode} missing d :
  Forall answered (missing_contract <$> missing) →
  ∃ d1 rows, actionCrawlMissingContract (missing_contract <$> missing) d = (d1, Ok tt) ∧
    smart_contract d1 = smart_contract d ++ rows ∧
    (Forall storable (missing_contract <$> missing) → sc_address <$> rows = missing) ∧
    (¬ Forall storable (missing_contract <$> missing) → rows = []) ∧
    same_events d d1 ∧ checkpoints_of d1 = checkpoints_of d.
Proof.
  intros Hans. destruct (prepareContracts_spec _ d Hans) as (d1 & l & Hrun & Hl & Hc & Hn & Hk & Hcodes).
  pose proof (prepareContracts_same_events (missing_contract <$> missing) d) as Hsame.
  rewrite Hrun in Hsame. unfold actionCrawlMissingContract. rewrite (io_step _ _ _ _ _ Hrun). unfold logged.
  destruct (insert_contracts_iff l d1 _ Hl Hcodes) as [Hok Hrefused].
  destruct (decide (forallb contract_fits l = true)) as [Hfit%(rows_fit _ _ Hl)|Hfit]; cycle 1.
  { rewrite (rows_fit _ _ Hl) in Hfit. rewrite (Hrefused Hfit). exists d1, []. rewrite app_nil_r.
    split; [done|]. split; [done|]. split; [by intros ?|]. by split. }
  pose proof (Hok Hfit) as Hins. rewrite Hins. clear Hok Hrefused.
  pose proof (insert_contracts_frames _ _ _ Hins) as Hck.
  destruct (insert_contracts_rows _ _ _ Hins) as (rows & Hrows & Hl' & _).
  eexists _, rows. split; [done|]. split; [by rewrite <-Hc|]. split; [intros _|].
  2:{ split; [by intros ?|]. split; [exact Hsame|by rewrite Hck]. }
  assert (sc_address <$> rows = i_address <$> (missing_contract <$> missing)) as ->.
  { clear -Hl Hl'. revert rows Hl'. induction Hl as [|c r cs l (cw2 & info & _ & _ & Hr) _ IH]; intros rows Hl';
      inversion Hl' as [|? r' ? rows' Hr' Hl'']; subst; [done|].
    rewrite !fmap_cons, (IH _ Hl''). f_equal. rewrite Hr'. simpl. by rewrite Hr. }
  rewrite <-list_fmap_compose. apply list_fmap_id.
Qed.

(** The unknown addresses of a range. *)
Definition unknown (d : Db) (s e : Z) (a : string) : Prop :=
  ∃ ev, ev ∈ wasmEvents s e d ∧ getAttributeFrom (e_attributes ev) "_contract_address" = Some a ∧
    a ∉ sc_address <$> smart_contract d.

(** A run that finds events of unknown contracts. *)
Lemma unknown_run {N : WasmNode} cfg d s e u :
  jobCheckpoint cfg CRAWL_CONTRACT_EVENT (checkpoints_of d) = Ok (s, e, u) → s < e →
  Forall (resolvable d) (wasmEvents s e d) →
  ¬ Forall (known d) (wasmEvents s e d) →
  (∀ a, unknown d s e a → answered (missing_contract a)) →
  ∃ d1 rows msg, jobHandler cfg d = (d1, Throw msg) ∧
    smart_contract d1 = smart_contract d ++ rows ∧
    ((∀ a, unknown d s e a → storable (missing_contract a)) → ∀ a, unknown d s e a → a ∈ sc_address <$> rows) ∧
    (¬ (∀ a, unknown d s e a → storable (missing_contract a)) → rows = []) ∧
    same_events d d1 ∧ checkpoints_of d1 = checkpoints_of d.
Proof.
  intros Hj Hse Hres Hun Hans.
  destruct (range_addresses d s e Hres) as (addrs & Hrun & Hin & Hof).
  set (missing := missingContractsAddress (getContractByAddress addrs d) addrs).
  assert (∀ a, a ∈ missing ↔ unknown d s e a) as Hmiss.
  { intros a. unfold missing. rewrite elem_of_missing. split.
    - intros [Ha Hc]. destruct (Hof a Ha) as (ev & Hev & Hea). by exists ev.
    - intros (ev & Hev & Hea & Hc). split; [|done]. by eapply event_address. }
  assert (∀ P : IInstantiateContracts → Prop,
    Forall P (missing_contract <$> missing) ↔ ∀ a, unknown d s e a → P (missing_contract a)) as Hall.
  { intros P. rewrite Forall_fmap, Forall_forall. split; intros H a Ha; by apply H, Hmiss. }
  destruct (missing_stored missing d) as (d1 & rows & Hact & Hsc & Hrows & Hno & Hsame & Hck).
  { by apply Hall. }
  destruct (stale_write_throws d s e addrs d1 Hin Hun) as [msg Hthrow].
  exists d1, rows, msg. split; [|split; [done|split; [|split; [|done]]]].
  - eapply checkpoint_handler_fails; [exact Hj|simpl; lia| |exact Hthrow].
    unfold prepareEvents. erewrite io_step by done. erewrite io_step by (unfold lift; by rewrite Hrun).
    erewrite io_step by done. fold missing. unfold crawlMissing.
    rewrite bool_decide_eq_false_2; [by rewrite (io_step _ _ _ _ _ Hact)|].
    intros Hnil. apply Hun, Forall_forall. intros ev Hev a Ha.
    destruct (decide (a ∈ sc_address <$> smart_contract d)) as [|Hc]; [done|]. exfalso.
    apply (not_elem_of_nil a). rewrite <-Hnil. apply Hmiss. by exists ev.
  - rewrite <-Hall. intros Hs a Ha. rewrite (Hrows Hs). by apply Hmiss.
  - by rewrite <-Hall.
Qed.

(** C14: a run of the job that finds events of unknown contracts fetches them
    and then throws, because it looks the contracts up in what it read before;
    it leaves the checkpoint and the rows alone.  When the rows of the unknown
    contracts fit their columns (storable) and those of the events theirs
    (the action, which the contract chooses, has at most 255 characters), the
    next run stores the range: one row per event, in order, with the contract of
    its address.  Otherwise the next run throws again, and again leaves the
    checkpoint and the rows alone. *)
Theorem missing_contracts_recovered {N : WasmNode} cfg d s e u :
  jobCheckpoint cfg CRAWL_CONTRACT_EVENT (checkpoints_of d) = Ok (s, e, u) → s < e →
  Forall (resolvable d) (wasmEvents s e d) → events_fresh s e d →
  ¬ Forall (known d) (wasmEvents s e d) →
  (∀ a, unknown d s e a → answered (missing_contract a)) →
  let fits := (∀ a, unknown d s e a → storable (missing_contract a)) ∧
              Forall event_fits (wasmEvents s e d) in
  ∃ d1 msg, jobHandler cfg d = (d1, Throw msg) ∧
    checkpoints_of d1 = checkpoints_of d ∧ smart_contract_event d1 = smart_contract_event d ∧
    (fits → ∃ d2, jobHandler cfg d1 = (d2, Ok tt) ∧ range_stored s e u d1 d2) ∧
    (¬ fits → ∃ d2 msg', jobHandler cfg d1 = (d2, Throw msg') ∧
      checkpoints_of d2 = checkpoints_of d ∧ smart_contract_event d2 = smart_contract_event d).
Proof.
  intros Hj Hse Hres Hfresh Hun Hans fits.
  destruct (unknown_run cfg d s e u Hj Hse Hres Hun Hans)
    as (d1 & rows & msg & Hrun & Hsc & Hin & Hno & (He & Ht & Hsce & Hnext) & Hck).
  assert (wasmEvents s e d1 = wasmEvents s e d) as Hwe by (unfold wasmEvents; by rewrite He).
  assert (Forall (resolvable d1) (wasmEvents s e d1)) as Hres1.
  { rewrite Hwe. eapply Forall_impl; [exact Hres|]. intros ev [? Htx]. split; [done|].
    unfold transaction_of in *. by rewrite Ht. }
  assert (events_fresh s e d1) as Hfresh1.
  { destruct Hfresh as [H1 H2 H3]. split; [by rewrite He|by rewrite Hsce|]. by rewrite Hsce, Hwe. }
  rewrite <-Hck in Hj.
  assert ((∀ a, unknown d s e a → storable (missing_contract a)) → Forall (known d1) (wasmEvents s e d1)) as Hknown.
  { intros Hs. rewrite Hwe, Forall_forall. intros ev Hev a Ha. rewrite Hsc, fmap_app, elem_of_app.
    destruct (decide (a ∈ sc_address <$> smart_contract d)) as [?|Hc]; [by left|right].
    apply (Hin Hs). by exists ev. }
  exists d1, msg. split; [done|]. split; [done|]. split; [done|]. split.
  - intros [Hs Hf]. apply (known_run cfg d1 s e u); try done; [by apply Hknown|by rewrite Hwe].
  - intros Hfits. destruct (decide (Forall (known d1) (wasmEvents s e d1))) as [Hk|Hk].
    + exists d1, too_long. split; [|done]. apply (known_run cfg d1 s e u Hj Hse Hres1 Hk Hfresh1).
      rewrite Hwe. intros Hf. apply Hun. rewrite Hwe in Hk. eapply Forall_impl; [exact Hk|].
      intros ev Hev a Ha. specialize (Hev a Ha). by rewrite Hsc, Hno, app_nil_r in Hev by (by intros ?; apply Hfits).
    + assert (smart_contract d1 = smart_contract d) as Hsame
        by (rewrite Hsc, Hno, app_nil_r by (intros Hs; by apply Hk, Hknown); done).
      destruct (unknown_run cfg d1 s e u Hj Hse Hres1 Hk)
        as (d2 & _ & msg' & Hrun2 & _ & _ & _ & (_ & _ & Hsce2 & _) & Hck2).
      { intros a (ev & Hev & Ha & Hc). apply Hans. exists ev. by rewrite <-Hwe, <-Hsame. }
      exists d2, msg'. split; [done|]. by rewrite Hck2, Hsce2.
Qed.

(** ** A concrete run *)
Definition demo_events : Db :=
  set_checkpoints {[ "crawl:smart-contract" := 4860005; "crawl:contract-event" := 4860000 ]} demo_db.

Lemma demo_range : wasmEvents 4860000 4860005 demo_events = [
    demo_event 1 INSTANTIATE [Attribute "_contract_address" (Some "aura1a"); Attribute "code_id" (Some "7")];
    demo_event 3 WASM [Attribute "_contract_address" (Some "aura1a"); Attribute "action" (Some "mint")]].
Proof. vm_compute. reflexivity. Qed.

(** The address the range mentions. *)
Lemma demo_unknown a : unknown demo_events 4860000 4860005 a → a = "aura1a".
Proof.
  intros (ev & Hev & Ha & _). rewrite demo_range in Hev.
  repeat (apply elem_of_cons in Hev as [->|Hev]; [vm_compute in Ha; congruence|]).
  by apply elem_of_nil in Hev.
Qed.

Lemma missing_contracts_recovered_witness :
  ∃ d1 d2 msg, jobHandler (N := demo_node) Config.json demo_events = (d1, Throw msg) ∧
    jobHandler (N := demo_node) Config.json d1 = (d2, Ok tt) ∧
    range_stored 4860000 4860005 (demo_checkpoint CRAWL_CONTRACT_EVENT) d1 d2.
Proof.
  destruct (missing_contracts_recovered (N := demo_node) Config.json demo_events 4860000 4860005
    (demo_checkpoint CRAWL_CONTRACT_EVENT)) as (d1 & msg & H1 & _ & _ & H2 & _).
  - vm_compute; reflexivity.
  - lia.
  - rewrite demo_range. repeat constructor; vm_compute; eexists; reflexivity.
  - split; [repeat constructor; set_solver|constructor|]. intros r ev Hr. by apply elem_of_nil in Hr.
  - rewrite demo_range. intros Hall. inversion Hall as [|? ? Hk _]; subst.
    specialize (Hk "aura1a" eq_refl). simpl in Hk. set_solver.
  - intros a _. split; [eexists; reflexivity|]. eexists. split; [reflexivity|]. eexists. reflexivity.
  - destruct H2 as (d2 & H2 & H3); [split|].
    + intros a ->%demo_unknown r (cw2 & info & [= <-] & [= <-] & ->). vm_compute. reflexivity.
    + rewrite demo_range. repeat constructor.
    + exists d1, d2, msg. auto.
Defined.

(** An event whose action has 256 characters stops the job: the second run,
    which knows the contract, throws too. *)
Definition long_action_events : Db :=
  {| transaction := transaction demo_events;
     event := [demo_event 3 WASM [Attribute "_contract_address" (Some "aura1a"); Attribute "action" (Some long_name)]];
     code := code demo_events; code_id_verification := code_id_verification demo_events;
     smart_contract := smart_contract demo_events; next_contract_id := next_contract_id demo_events;
     smart_contract_event := []; next_contract_event_id := 1;
     block_checkpoint := block_checkpoint demo_events |}.
Example long_action_stops_job :
  let d1 := (jobHandler (N := demo_node) Config.json long_action_events).1 in
  jobHandler (N := demo_node) Config.json d1 = (d1, Throw too_long).
Proof. vm_compute. reflexivity. Qed.
