(* ===== verification/Cw721.v ===== *)
(** * CW721 tokens

    [services/cw721/cw721_handler.ts], [cw721.service.ts] and
    [cw721-reindexing.service.ts]: the contract events of CW721 contracts become
    activities; mint, transfer and burn events change the tokens.  The tables of
    contracts and contract events are those of Contracts.v.

    The theorems: the owner of every token and the activities after a run of
    the job, and where the job or the reindexing stops for good. *)
From S2P Require Import Prelude JsNum Checkpoint Contracts ContractEvents.

Module CW721_ACTION.
Definition MINT := "mint".
Definition BURN := "burn".
Definition TRANSFER := "transfer_nft".
Definition INSTANTIATE := "instantiate".
Definition SEND_NFT := "send_nft".
End CW721_ACTION.

(** ** Data *)
Record CW721Contract := {
  cc_id : Z;
  cc_contract_id : Z;
  cc_symbol : option string;
  cc_minter : option string;
  cc_name : option string;
  cc_track : bool
}.

Record CW721Token := {
  tk_token_id : string;
  tk_media_info : option string;
  tk_owner : option string;
  tk_contract_id : Z;                 (* cw721_contract_id *)
  tk_last_updated_height : Z;
  tk_burned : bool
}.

Record CW721Activity := {
  ac_action : string;
  ac_sender : option string;
  ac_tx_hash : string;
  ac_contract_id : Z;                 (* cw721_contract_id *)
  ac_height : Z;
  ac_event_id : Z;                    (* smart_contract_event_id *)
  ac_from : option string;
  ac_to : option string;
  ac_token_id : option string;
  ac_cw721_token_id : option Z
}.

(** A contract event as [getCw721ContractEvents] selects it. *)
Record Msg := {
  m_contractAddress : string;
  m_action : option string;
  m_event_id : Z;                     (* smart_contract_event_id *)
  m_hash : string;
  m_height : Z;
  m_attributes : list attribute
}.

(** ** The handler *)

(** [`${contractAddress}_${tokenId}`]; an absent token id prints as
    [undefined]. *)
Definition token_key (address : string) (tokenId : option string) : string :=
  key2 address (default "undefined" tokenId).

Definition tokenId (m : Msg) : option string := getAttributeFrom (m_attributes m) "token_id".
Definition msg_key (m : Msg) : string := token_key (m_contractAddress m) (tokenId m).

(** The dictionary of tokens, with the id of those that are stored. *)
Abbreviation tokens := (gmap string (option Z * CW721Token)).

Section Handler.
Context (trackedCw721ContractsByAddr : gmap string CW721Contract).

Definition activity (m : Msg) (c : CW721Contract) (sender from to : option string) : CW721Activity := {|
  ac_action := default "" (m_action m); ac_sender := sender; ac_tx_hash := m_hash m;
  ac_contract_id := cc_id c; ac_height := m_height m; ac_event_id := m_event_id m;
  ac_from := from; ac_to := to; ac_token_id := tokenId m; ac_cw721_token_id := None |}.

Definition set_owner (owner : option string) (height : Z) (t : CW721Token) : CW721Token := {|
  tk_token_id := tk_token_id t; tk_media_info := tk_media_info t; tk_owner := owner;
  tk_contract_id := tk_contract_id t; tk_last_updated_height := height; tk_burned := tk_burned t |}.

Definition set_burned (height : Z) (t : CW721Token) : CW721Token := {|
  tk_token_id := tk_token_id t; tk_media_info := tk_media_info t; tk_owner := tk_owner t;
  tk_contract_id := tk_contract_id t; tk_last_updated_height := height; tk_burned := true |}.

Definition handlerCw721Transfer (s : tokens * list CW721Activity) (m : Msg) : res (tokens * list CW721Activity) :=
  match trackedCw721ContractsByAddr !! m_contractAddress m with
  | None => Ok s
  | Some c =>
      let recipient := getAttributeFrom (m_attributes m) "recipient" in
      let token := s.1 !! msg_key m in
      let act := activity m c (getAttributeFrom (m_attributes m) "sender")
                   (token ≫= λ t, tk_owner t.2) recipient in
      Ok (match token with
          | Some (id, t) =>
              if tk_last_updated_height t <=? m_height m
              then <[msg_key m := (id, set_owner recipient (m_height m) t)]> s.1 else s.1
          | None => s.1
          end, s.2 ++ [act])
  end.

(** [CW721Token.fromJson]: the token id is required. *)
Definition minted (m : Msg) (c : CW721Contract) : res CW721Token :=
  match tokenId m with
  | None => Throw "ValidationError: token_id: must have required property 'token_id'"
  | Some id => Ok {|
      tk_token_id := id; tk_media_info := None;
      tk_owner := getAttributeFrom (m_attributes m) "owner"; tk_contract_id := cc_id c;
      tk_last_updated_height := m_height m; tk_burned := false |}
  end.

Definition handlerCw721Mint (s : tokens * list CW721Activity) (m : Msg) : res (tokens * list CW721Activity) :=
  match trackedCw721ContractsByAddr !! m_contractAddress m with
  | None => Ok s
  | Some c =>
      let token := s.1 !! msg_key m in
      let act := activity m c (getAttributeFrom (m_attributes m) "minter") None
                   (getAttributeFrom (m_attributes m) "owner") in
      if match token with Some (_, t) => tk_last_updated_height t <=? m_height m | None => true end then
        t' ← minted m c;
        Ok (<[msg_key m := (token ≫= fst, t')]> s.1, s.2 ++ [act])
      else Ok (s.1, s.2 ++ [act])
  end.

Definition handlerCw721Burn (s : tokens * list CW721Activity) (m : Msg) : res (tokens * list CW721Activity) :=
  match trackedCw721ContractsByAddr !! m_contractAddress m with
  | None => Ok s
  | Some c =>
      match s.1 !! msg_key m with
      | None => Throw "TypeError: Cannot read properties of undefined (reading 'owner')"
      | Some (id, t) =>
          let act := activity m c (getAttributeFrom (m_attributes m) "sender") (tk_owner t) None in
          Ok (if tk_last_updated_height t <=? m_height m
              then <[msg_key m := (id, set_burned (m_height m) t)]> s.1 else s.1, s.2 ++ [act])
      end
  end.

Definition handleCw721Others (s : tokens * list CW721Activity) (m : Msg) : res (tokens * list CW721Activity) :=
  match trackedCw721ContractsByAddr !! m_contractAddress m with
  | None => Ok s
  | Some c => Ok (s.1, s.2 ++ [activity m c (getAttributeFrom (m_attributes m) "sender") None None])
  end.

Definition process_one (s : tokens * list CW721Activity) (m : Msg) : res (tokens * list CW721Activity) :=
  if bool_decide (m_action m = Some CW721_ACTION.MINT) then handlerCw721Mint s m
  else if bool_decide (m_action m = Some CW721_ACTION.TRANSFER ∨ m_action m = Some CW721_ACTION.SEND_NFT)
  then handlerCw721Transfer s m
  else if bool_decide (m_action m = Some CW721_ACTION.BURN) then handlerCw721Burn s m
  else handleCw721Others s m.

Definition process (toks : tokens) (orderedMsgs : list Msg) : res (tokens * list CW721Activity) :=
  forEachM process_one (toks, []) orderedMsgs.
End Handler.

(** ** Tables

    [base] holds the contracts and contract events; [cw721_token] is by [id].
    [reindex_history] are the jobs of that queue that wait. *)
Record ICw721ReindexingHistoryParams := {
  p_smartContractId : Z;
  p_startBlock : Z;
  p_endBlock : Z;
  p_prevId : Z;
  p_contractAddress : string
}.

Record Db := {
  base : Contracts.Db;
  cw721_contract : list CW721Contract;
  next_contract_id : Z;
  cw721_token : gmap Z CW721Token;
  next_token_id : Z;
  cw721_activity : list CW721Activity;
  reindex_history : list ICw721ReindexingHistoryParams
}.
Definition set_base b d := {|
  base := b; cw721_contract := cw721_contract d; next_contract_id := next_contract_id d;
  cw721_token := cw721_token d; next_token_id := next_token_id d;
  cw721_activity := cw721_activity d; reindex_history := reindex_history d |}.
Definition set_contract c n d := {|
  base := base d; cw721_contract := c; next_contract_id := n; cw721_token := cw721_token d;
  next_token_id := next_token_id d; cw721_activity := cw721_activity d;
  reindex_history := reindex_history d |}.
Definition set_token t n d := {|
  base := base d; cw721_contract := cw721_contract d; next_contract_id := next_contract_id d;
  cw721_token := t; next_token_id := n; cw721_activity := cw721_activity d;
  reindex_history := reindex_history d |}.
Definition set_activity a d := {|
  base := base d; cw721_contract := cw721_contract d; next_contract_id := next_contract_id d;
  cw721_token := cw721_token d; next_token_id := next_token_id d; cw721_activity := a;
  reindex_history := reindex_history d |}.
Definition set_history q d := {|
  base := base d; cw721_contract := cw721_contract d; next_contract_id := next_contract_id d;
  cw721_token := cw721_token d; next_token_id := next_token_id d;
  cw721_activity := cw721_activity d; reindex_history := q |}.
#[export] Instance Db_checkpoints : HasCheckpoints Db := λ d, checkpoints_of (base d).
#[export] Program Instance Db_set_checkpoints : SetCheckpoints Db := {|
  set_checkpoints c d := set_base (set_checkpoints c (base d)) d |}.
Next Obligation. done. Qed.

(** ** Queries *)
Definition is_cw721 (b : Contracts.Db) (c : SmartContract) : bool := has_type b "CW721" c.

Definition msg_of (r : Joined) : Msg := {|
  m_contractAddress := sc_address (j_contract r); m_action := se_action (j_row r);
  m_event_id := se_id (j_row r); m_hash := t_hash (j_tx r); m_height := t_height (j_tx r);
  m_attributes := se_attributes (j_row r) |}.

(** [getCw721ContractEvents]; an id that is 0 or absent selects every contract. *)
Definition getCw721ContractEvents (startBlock endBlock : Z) (smartContractId : option Z)
    (page : option (Z * nat)) (d : Db) : list Msg :=
  msg_of <$> contractEvents (base d) "CW721" startBlock endBlock smartContractId page.

Definition cw721_address (b : Contracts.Db) (c : CW721Contract) : option string :=
  sc_address <$> find_contract b (cc_contract_id c).

(** [getCw721TrackedContracts], keyed by address. *)
Definition getCw721TrackedContracts (addresses : list string) (d : Db) : gmap string CW721Contract :=
  snd <$> keyBy fst (omap (λ c,
    a ← cw721_address (base d) c;
    if bool_decide (a ∈ addresses ∧ cc_track c = true) then Some (a, c) else None) (cw721_contract d)).

(** The stored tokens the messages are about, keyed by address and token id.
    [getAttributeFrom(...) || null] matches nothing when it is empty. *)
Definition fetchTokens (msgs : list Msg) (d : Db) : tokens :=
  snd <$> keyBy fst (omap (λ r : Z * CW721Token,
    c ← find (λ c, bool_decide (cc_id c = tk_contract_id r.2)) (cw721_contract d);
    a ← cw721_address (base d) c;
    if bool_decide ((a, Some (tk_token_id r.2)) ∈ (λ m, (m_contractAddress m, tokenId m)) <$> msgs
                    ∧ tk_token_id r.2 ≠ "")
    then Some (token_key a (Some (tk_token_id r.2)), (Some r.1, r.2)) else None)
    (map_to_list (cw721_token d))).

(** ** The job *)

(** What the node answers about a contract; an answer that cannot be parsed is
    [None]. *)
Record ContractInfo721 := { ci_symbol : option string; ci_name : option string }.
Class Cw721Node := {
  query_info : string → res (option ContractInfo721);
  query_minter : string → res (option string);
  query_all_tokens : string → option string → res (list string);
  query_owner_of : string → string → res (option string * Z)   (* the owner, and the height of the answer *)
}.

Section Job.
Context {N : Cw721Node}.

(** The row of [CW721Contract.fromJson] for a contract (no id yet). *)
Definition contract_row (r : Z * string) : res CW721Contract :=
  info ← query_info r.2;
  minter ← query_minter r.2;
  Ok {| cc_id := 0; cc_contract_id := r.1; cc_symbol := info ≫= ci_symbol; cc_minter := minter;
        cc_name := info ≫= ci_name; cc_track := true |}.

Definition contract_with_id (id : Z) (c : CW721Contract) : CW721Contract := {|
  cc_id := id; cc_contract_id := cc_contract_id c; cc_symbol := cc_symbol c;
  cc_minter := cc_minter c; cc_name := cc_name c; cc_track := cc_track c |}.

(** [contract_id] is unique. *)
Definition insert_contract_rows (rows : list CW721Contract) (d : Db) : res Db :=
  let l := cw721_contract d ++ serial contract_with_id (next_contract_id d) rows in
  if bool_decide (NoDup (cc_contract_id <$> l))
  then Ok (set_contract l (next_contract_id d + Z.of_nat (length rows)) d)
  else Throw "cw721_contract_contract_id_unique".

Definition handleInstantiateMsgs (msgsInstantiate : list Msg) (d : Db) : res Db :=
  let contracts := filter (λ c, sc_address c ∈ m_contractAddress <$> msgsInstantiate ∧ is_cw721 (base d) c = true)
                     (smart_contract (base d)) in
  rows ← mapR (λ c, contract_row (sc_id c, sc_address c)) contracts;
  insert_contract_rows rows d.

Definition handleCw721MsgExec (msgs : list Msg) (d : Db)
  : res (list (option Z * CW721Token) * list CW721Activity) :=
  '(toks, acts) ← process (getCw721TrackedContracts (m_contractAddress <$> msgs) d) (fetchTokens msgs d) msgs;
  Ok ((map_to_list toks).*2, acts).

(** [.insert(updatedTokens).onConflict('id').merge()]: the rows with their ids. *)
Fixpoint tokens_with_id (next : Z) (l : list (option Z * CW721Token)) : list (Z * CW721Token) :=
  match l with
  | [] => []
  | (Some id, t) :: l => (id, t) :: tokens_with_id next l
  | (None, t) :: l => (next, t) :: tokens_with_id (next + 1) l
  end.

Definition upsert_tokens (l : list (option Z * CW721Token)) (d : Db) : Db :=
  set_token (foldl (λ m r, <[r.1 := r.2]> m) (cw721_token d) (tokens_with_id (next_token_id d) l))
    (next_token_id d + Z.of_nat (length (filter (λ r : option Z * CW721Token, r.1 = None) l))) d.

Definition stored_key (contractId : Z) (tokenId : option string) : string :=
  key2 (toString contractId) (default "undefined" tokenId).

Definition with_token_id (tokensKeyById : gmap string (Z * CW721Token)) (a : CW721Activity) : CW721Activity := {|
  ac_action := ac_action a; ac_sender := ac_sender a; ac_tx_hash := ac_tx_hash a;
  ac_contract_id := ac_contract_id a; ac_height := ac_height a; ac_event_id := ac_event_id a;
  ac_from := ac_from a; ac_to := ac_to a; ac_token_id := ac_token_id a;
  ac_cw721_token_id := fst <$> tokensKeyById !! stored_key (ac_contract_id a) (ac_token_id a) |}.

Definition tokens_by_id (l : list (Z * CW721Token)) : gmap string (Z * CW721Token) :=
  keyBy (λ r : Z * CW721Token, stored_key (tk_contract_id r.2) (Some (tk_token_id r.2))) l.

(** [smart_contract_event_id] is unique. *)
Definition insert_activities (acts : list CW721Activity) (d : Db) : res Db :=
  if bool_decide (NoDup (ac_event_id <$> cw721_activity d ++ acts))
  then Ok (set_activity (cw721_activity d ++ acts) d)
  else Throw "cw721_activity_smart_contract_event_id_unique".

(** [(token_id, cw721_contract_id)] is unique. *)
Definition token_columns (t : CW721Token) : Z * string := (tk_contract_id t, tk_token_id t).

Definition updateTokenAndActivities (updatedTokens : list (option Z * CW721Token))
    (acts : list CW721Activity) (d : Db) : res Db :=
  let rows := tokens_with_id (next_token_id d) updatedTokens in
  let d1 := upsert_tokens updatedTokens d in
  if bool_decide (NoDup (token_columns <$> (map_to_list (cw721_token d1)).*2)) then
    insert_activities
      (if bool_decide (updatedTokens = []) then acts else with_token_id (tokens_by_id rows) <$> acts) d1
  else Throw "cw721_token_token_id_cw721_contract_id_unique".

Definition handle_msgs (listContractMsg : list Msg) (d : Db) : res Db :=
  '(toks, acts) ← handleCw721MsgExec listContractMsg d;
  updateTokenAndActivities toks acts d.

Definition handle_range (listContractMsg : list Msg) (d : Db) : res Db :=
  if bool_decide (listContractMsg = []) then Ok d else
  d1 ← handleInstantiateMsgs (filter (λ m, m_action m = Some CW721_ACTION.INSTANTIATE) listContractMsg) d;
  handle_msgs listContractMsg d1.

Definition handleJob (cfg : Config.t) : io Db () :=
  checkpoint_handler cfg HANDLE_CW721_TRANSACTION
    (λ startBlock endBlock, query (getCw721ContractEvents startBlock endBlock None None))
    (λ _ _, handle_range).

(** ** Reindexing *)
Definition limitRecordGet : nat := 500.

(** [crawlMissingContractHistory]: a page of the events, of which only the
    activities are stored; then the job for the next page. *)
Definition history_page (p : ICw721ReindexingHistoryParams) (events : list Msg) (d : Db) : res Db :=
  '(_, acts) ← handleCw721MsgExec events d;
  if bool_decide (acts = []) then Ok d else
  let rows := filter (λ r : Z * CW721Token,
      cc_contract_id <$> find (λ c, bool_decide (cc_id c = tk_contract_id r.2)) (cw721_contract d)
      = Some (p_smartContractId p)) (map_to_list (cw721_token d)) in
  insert_activities (with_token_id (tokens_by_id rows) <$> acts) d.

Definition crawlMissingContractHistory (p : ICw721ReindexingHistoryParams) : io Db () :=
  events ← query (getCw721ContractEvents (p_startBlock p) (p_endBlock p) (Some (p_smartContractId p))
                    (Some (p_prevId p, limitRecordGet)));
  match last events with
  | None => mret tt
  | Some e =>
      commit (history_page p events);;
      update (λ d, set_history (reindex_history d ++ [{|
        p_smartContractId := p_smartContractId p; p_startBlock := p_startBlock p; p_endBlock := p_endBlock p;
        p_prevId := m_event_id e; p_contractAddress := p_contractAddress p |}]) d)
  end.

Definition handleRangeBlockMissingContract (smartContractId startBlock endBlock : Z) : io Db () :=
  missingHistories ← query (getCw721ContractEvents startBlock endBlock (Some smartContractId) None);
  commit (handle_msgs missingHistories).

(** The pages of [all_tokens]; the fuel bounds their number. *)
Definition all_tokens (fuel : nat) (contractAddress : string) : res (list string) :=
  all_pages (query_all_tokens contractAddress) fuel None.

Record TokenOwner := { to_owner : option string; to_token_id : string; to_last_updated_height : Z }.

(** [getAllTokensOwner]: all the tokens, then the owner of every one. *)
Definition getAllTokensOwner (fuel : nat) (contractAddress : string) : res (list TokenOwner) :=
  tokenIds ← all_tokens fuel contractAddress;
  mapR (λ t, '(owner, height) ← query_owner_of contractAddress t;
             Ok {| to_owner := owner; to_token_id := t; to_last_updated_height := height |}) tokenIds.

Definition delete_contract (id : Z) (d : Db) : Db :=
  set_contract (filter (λ c, cc_id c ≠ id) (cw721_contract d)) (next_contract_id d)
    (set_token (filter (λ r : Z * CW721Token, tk_contract_id r.2 ≠ id) (cw721_token d)) (next_token_id d)
      (set_activity (filter (λ a, ac_contract_id a ≠ id) (cw721_activity d)) d)).

Definition min_height (l : list TokenOwner) : Z :=
  match l with [] => 0 | t :: l => foldl (λ m t, Z.min m (to_last_updated_height t)) (to_last_updated_height t) l end.
Definition max_height (l : list TokenOwner) : Z :=
  match l with [] => 0 | t :: l => foldl (λ m t, Z.max m (to_last_updated_height t)) (to_last_updated_height t) l end.

(** The token of an owner the node reported. *)
Definition owned_token (contract : Z) (o : TokenOwner) : option Z * CW721Token :=
  (None, {| tk_token_id := to_token_id o; tk_media_info := None; tk_owner := to_owner o;
            tk_contract_id := contract; tk_last_updated_height := to_last_updated_height o;
            tk_burned := false |}).

Definition insert_tokens (l : list (option Z * CW721Token)) (d : Db) : res Db :=
  let d1 := upsert_tokens l d in
  if bool_decide (NoDup (token_columns <$> (map_to_list (cw721_token d1)).*2)) then Ok d1
  else Throw "cw721_token_token_id_cw721_contract_id_unique".

(** [handleReindexAll]; its statements are committed one by one. *)
Definition handleReindexAll (cfg : Config.t) (fuel : nat) (smartContractId : Z) (contractAddress : string)
  : io Db () :=
  cw721Contract ← query (λ d, find (λ c, bool_decide (cw721_address (base d) c = Some contractAddress))
                                (cw721_contract d));
  row ← lift (contract_row (smartContractId, contractAddress));
  currentTokensOwner ← lift (getAllTokensOwner fuel contractAddress);
  (match cw721Contract with Some c => update (delete_contract (cc_id c)) | None => mret tt end);;
  id ← query next_contract_id;
  commit (insert_contract_rows [row]);;
  commit (insert_tokens (owned_token id <$> currentTokensOwner));;
  handleRangeBlockMissingContract smartContractId (min_height currentTokensOwner) (max_height currentTokensOwner);;
  update (λ d, set_history (reindex_history d ++ [{|
    p_smartContractId := smartContractId; p_startBlock := Config.startBlock cfg;
    p_endBlock := max_height currentTokensOwner; p_prevId := 0; p_contractAddress := contractAddress |}]) d).

(** [handleReindexHistory] *)
Definition handleReindexHistory (cfg : Config.t) (smartContractId : Z) (contractAddress : string) : io Db () :=
  cw721Contract ← query (λ d, find (λ c, bool_decide (cw721_address (base d) c = Some contractAddress))
                                (cw721_contract d));
  match cw721Contract with
  | None => throw "NotFoundError"
  | Some c =>
      currentHeight ← query (λ d, foldl Z.max 0 (ac_height <$> cw721_activity d));
      update (λ d, set_activity (filter (λ a, ac_contract_id a ≠ cc_id c ∨ currentHeight < ac_height a)
                                   (cw721_activity d)) d);;
      update (λ d, set_history (reindex_history d ++ [{|
        p_smartContractId := smartContractId; p_startBlock := Config.startBlock cfg;
        p_endBlock := currentHeight; p_prevId := 0; p_contractAddress := contractAddress |}]) d)
  end.
End Job.

(** ** What an event does to a token

    The abstract token: its owner and whether it is burned.  The handler keeps
    a dictionary of rows with the heights of their last change; the theorems
    relate it to this machine. *)
Definition is_mint (m : Msg) : bool := bool_decide (m_action m = Some CW721_ACTION.MINT).
Definition is_transfer (m : Msg) : bool :=
  bool_decide (m_action m = Some CW721_ACTION.TRANSFER ∨ m_action m = Some CW721_ACTION.SEND_NFT).
Definition is_burn (m : Msg) : bool := bool_decide (m_action m = Some CW721_ACTION.BURN).

Definition token_step (st : option (option string * bool)) (m : Msg) : option (option string * bool) :=
  if is_mint m then Some (getAttributeFrom (m_attributes m) "owner", false)
  else if is_transfer m then (λ s, (getAttributeFrom (m_attributes m) "recipient", s.2)) <$> st
  else if is_burn m then (λ s, (s.1, true)) <$> st
  else st.

Definition view (t : CW721Token) : option string * bool := (tk_owner t, tk_burned t).

Section Process.
Context (tracked : gmap string CW721Contract).

(** The messages about the token under a key. *)
Definition about (k : string) (m : Msg) : Prop :=
  is_Some (tracked !! m_contractAddress m) ∧ msg_key m = k.
#[export] Instance about_dec k m : Decision (about k m).
Proof. unfold about. apply _. Defined.

Definition dict_view (toks : tokens) (k : string) : option (option string * bool) :=
  (λ r : option Z * CW721Token, view r.2) <$> toks !! k.

(** No token was changed above a height. *)
Definition heights_below (h : Z) (toks : tokens) : Prop :=
  map_Forall (λ _ r, tk_last_updated_height r.2 <= h) toks.

Lemma heights_insert h toks k r :
  heights_below h toks → tk_last_updated_height r.2 <= h → heights_below h (<[k := r]> toks).
Proof. intros Ht Hr. by apply map_Forall_insert_2. Qed.

(** The activity of a message of a tracked contract. *)
Definition activity_for (before : option (option string * bool)) (m : Msg) (a : CW721Activity) : Prop :=
  ac_event_id a = m_event_id m ∧ ac_token_id a = tokenId m ∧ ac_height a = m_height m ∧
  ac_action a = default "" (m_action m) ∧
  ac_from a = (if is_transfer m || is_burn m then before ≫= fst else None) ∧
  ac_to a = (if is_mint m then getAttributeFrom (m_attributes m) "owner"
             else if is_transfer m then getAttributeFrom (m_attributes m) "recipient" else None).

Lemma process_one_untracked s m :
  tracked !! m_contractAddress m = None → process_one tracked s m = Ok s.
Proof.
  intros Hn. unfold process_one, handlerCw721Mint, handlerCw721Transfer, handlerCw721Burn, handleCw721Others.
  rewrite Hn. by repeat case_bool_decide.
Qed.

Lemma process_one_view s m s' :
  heights_below (m_height m) s.1 → process_one tracked s m = Ok s' →
  heights_below (m_height m) s'.1 ∧
  (∀ k, dict_view s'.1 k =
     if decide (about k m) then token_step (dict_view s.1 k) m else dict_view s.1 k) ∧
  ∃ acts, s'.2 = s.2 ++ acts ∧
    match tracked !! m_contractAddress m with
    | Some _ => ∃ a, acts = [a] ∧ activity_for (dict_view s.1 (msg_key m)) m a
    | None => acts = []
    end.
Proof.
  intros Hh Hp. destruct (tracked !! m_contractAddress m) as [c|] eqn:Hc; cycle 1.
  { rewrite process_one_untracked in Hp by done. injection Hp as <-. split; [done|]. split.
    - intros k. rewrite decide_False; [done|]. intros [[? ?] _]. congruence.
    - exists []. by rewrite app_nil_r. }
  assert (∀ id t, s.1 !! msg_key m = Some (id, t) → (tk_last_updated_height t <=? m_height m) = true) as Hle.
  { intros id t Ht. apply Z.leb_le. exact (Hh _ _ Ht). }
  assert (∀ r, Some (view r.2) = token_step (dict_view s.1 (msg_key m)) m → tk_last_updated_height r.2 = m_height m →
    heights_below (m_height m) (<[msg_key m := r]> s.1) ∧ ∀ k, dict_view (<[msg_key m := r]> s.1) k =
      if decide (about k m) then token_step (dict_view s.1 k) m else dict_view s.1 k) as Hins.
  { intros r Hr Hh'. split; [apply heights_insert; [done|lia]|]. intros k. unfold dict_view.
    destruct (decide (msg_key m = k)) as [<-|Hk].
    - rewrite decide_True by (split; [by eexists|done]). rewrite lookup_insert_eq. simpl.
      by fold (dict_view s.1 (msg_key m)).
    - rewrite decide_False by (by intros [_ ?]). by rewrite lookup_insert_ne. }
  assert (token_step (dict_view s.1 (msg_key m)) m = dict_view s.1 (msg_key m) →
    heights_below (m_height m) s.1 ∧ ∀ k, dict_view s.1 k =
      if decide (about k m) then token_step (dict_view s.1 k) m else dict_view s.1 k) as Hsame.
  { intros Hst. split; [done|]. intros k. case_decide as Hk; [|done]. destruct Hk as [_ <-]. by rewrite Hst. }
  unfold process_one in Hp. fold (is_mint m) (is_transfer m) (is_burn m) in Hp.
  unfold activity_for. unfold token_step in Hins, Hsame |- *.
  destruct (is_mint m) eqn:Em; [|destruct (is_transfer m) eqn:Et; [|destruct (is_burn m) eqn:Eb]].
  - assert (is_transfer m = false ∧ is_burn m = false) as [-> ->].
    { unfold is_mint, is_transfer, is_burn in *. apply bool_decide_eq_true_1 in Em. rewrite Em. done. }
    unfold handlerCw721Mint in Hp. rewrite Hc in Hp. cbv zeta in Hp.
    assert (∃ o t, minted m c = Ok t ∧ s' = (<[msg_key m := (o, t)]> s.1, s.2 ++ [activity m c
      (getAttributeFrom (m_attributes m) "minter") None (getAttributeFrom (m_attributes m) "owner")]))
      as (o & t & Ht & ->).
    { destruct (s.1 !! msg_key m) as [[id t]|] eqn:Ht; [rewrite (Hle _ _ eq_refl) in Hp|];
        apply bind_Ok in Hp as (t' & Ht' & [= <-]); eauto. }
    unfold minted in Ht. destruct (tokenId m) eqn:Hid; [|done]. injection Ht as <-.
    cbn [fst snd]. match goal with |- context [<[msg_key m := ?r]> _] =>
      destruct (Hins r eq_refl eq_refl) as [H1 H2] end. split; [exact H1|]. split; [exact H2|].
    eexists. split; [done|]. eexists. by repeat split.
  - unfold handlerCw721Transfer in Hp. rewrite Hc in Hp. cbv zeta in Hp. injection Hp as <-. cbn [fst snd].
    destruct (s.1 !! msg_key m) as [[id t]|] eqn:Ht.
    + assert (dict_view s.1 (msg_key m) = Some (view t)) as Hv by (unfold dict_view; by rewrite Ht).
      rewrite (Hle _ _ eq_refl). rewrite Hv in *.
      destruct (Hins (id, set_owner (getAttributeFrom (m_attributes m) "recipient") (m_height m) t))
        as [H1 H2]; [done..|]. split; [exact H1|]. split; [exact H2|].
      eexists. split; [done|]. eexists. by repeat split.
    + assert (dict_view s.1 (msg_key m) = None) as Hv by (unfold dict_view; by rewrite Ht).
      rewrite Hv in *. destruct Hsame as [H1 H2]; [done|]. split; [exact H1|]. split; [exact H2|].
      eexists. split; [done|]. eexists. by repeat split.
  - unfold handlerCw721Burn in Hp. rewrite Hc in Hp.
    destruct (s.1 !! msg_key m) as [[id t]|] eqn:Ht; [|done]. cbv zeta in Hp. injection Hp as <-. cbn [fst snd].
    assert (dict_view s.1 (msg_key m) = Some (view t)) as Hv by (unfold dict_view; by rewrite Ht).
    rewrite (Hle _ _ eq_refl). rewrite Hv in *.
    destruct (Hins (id, set_burned (m_height m) t)) as [H1 H2]; [done..|].
    split; [exact H1|]. split; [exact H2|]. eexists. split; [done|]. eexists. by repeat split.
  - unfold handleCw721Others in Hp. rewrite Hc in Hp. injection Hp as <-. cbn [fst snd].
    destruct Hsame as [H1 H2]; [done|]. split; [exact H1|]. split; [exact H2|].
    eexists. split; [done|]. eexists. by repeat split.
Qed.

(** The token a message is about, before it. *)
Definition before (toks : tokens) (pre : list Msg) (m : Msg) : option (option string * bool) :=
  foldl token_step (dict_view toks (msg_key m)) (filter (about (msg_key m)) pre).

Lemma heights_weaken h h' toks : h <= h' → heights_below h toks → heights_below h' toks.
Proof. intros Hle Ht k r Hr. specialize (Ht k r Hr). simpl in Ht. lia. Qed.

(** A run over messages in the order of their heights. *)
Lemma process_view s msgs s' :
  StronglySorted (λ a b, m_height a <= m_height b) msgs →
  (∀ m, m ∈ msgs → heights_below (m_height m) s.1) →
  forEachM (process_one tracked) s msgs = Ok s' →
  (∀ k, dict_view s'.1 k = foldl token_step (dict_view s.1 k) (filter (about k) msgs)) ∧
  ∃ acts, s'.2 = s.2 ++ acts ∧
    ac_event_id <$> acts = m_event_id <$> filter (λ m, is_Some (tracked !! m_contractAddress m)) msgs ∧
    ∀ pre m post, msgs = pre ++ m :: post → is_Some (tracked !! m_contractAddress m) →
      ∃ a, a ∈ acts ∧ activity_for (before s.1 pre m) m a.
Proof.
  intros Hs. revert s. induction Hs as [|m msgs Hs IH Hall]; intros s Hh Hp.
  { injection Hp as <-. split; [done|]. exists []. split; [by rewrite app_nil_r|]. split; [done|].
    intros [|? ?] ? ? ?; done. }
  cbn [forEachM] in Hp. apply bind_Ok in Hp as (s1 & H1 & Hp).
  destruct (process_one_view s m s1) as (Hb & Hv & acts1 & Hacts1 & Hact1); [apply Hh; left|done|].
  rewrite Forall_forall in Hall.
  destruct (IH s1) as (Hv' & acts & Hacts & Hids & Hfrom); [|done|].
  { intros m' Hm'. eapply heights_weaken; [|exact Hb]. by apply Hall. }
  split.
  { intros k. rewrite Hv', Hv, filter_cons. by case_decide. }
  exists (acts1 ++ acts). split; [by rewrite Hacts, Hacts1, app_assoc|].
  rewrite fmap_app, Hids, filter_cons. split.
  { destruct (tracked !! m_contractAddress m) eqn:Hc.
    - rewrite decide_True by (by eexists). destruct Hact1 as (a & -> & Ha & _). rewrite fmap_cons. simpl.
      by rewrite Ha.
    - rewrite decide_False by (intros [? ?]; done). by rewrite Hact1. }
  intros [|m0 pre] m' post [= <- Heq] Hm'.
  - destruct Hm' as [c Hc]. rewrite Hc in Hact1. destruct Hact1 as (a & -> & Ha).
    exists a. split; [left|exact Ha].
  - destruct (Hfrom pre m' post Heq Hm') as (a & Ha & Hfor). exists a. rewrite elem_of_app. split; [by right|].
    unfold before in *. rewrite Hv in Hfor. rewrite filter_cons. by case_decide.
Qed.

(** Only a mint makes a token known. *)
Lemma process_one_known_by s m s' k :
  process_one tracked s m = Ok s' → is_Some (s'.1 !! k) →
  is_Some (s.1 !! k) ∨ is_mint m = true ∧ about k m.
Proof.
  destruct (tracked !! m_contractAddress m) as [c|] eqn:Hc; cycle 1.
  { rewrite process_one_untracked by done. intros [= <-]. by left. }
  unfold process_one. fold (is_mint m) (is_transfer m) (is_burn m).
  destruct (is_mint m); [|destruct (is_transfer m); [|destruct (is_burn m)]].
  - unfold handlerCw721Mint. rewrite Hc. cbv zeta.
    destruct (match s.1 !! msg_key m with Some (_, t) => _ | None => _ end); [|intros [= <-]; by left].
    intros (t & _ & [= <-])%bind_Ok. simpl. rewrite lookup_insert_is_Some.
    intros [<-|[_ ?]]; [right|by left]. split; [done|]. split; [by eexists|done].
  - unfold handlerCw721Transfer. rewrite Hc. cbv zeta. intros [= <-]. simpl.
    destruct (s.1 !! msg_key m) as [[id t]|] eqn:Ht; [|by left]. case_match; [|by left].
    rewrite lookup_insert_is_Some. intros [<-|[_ ?]]; [left; by eexists|by left].
  - unfold handlerCw721Burn. rewrite Hc. destruct (s.1 !! msg_key m) as [[id t]|] eqn:Ht; [|done].
    cbv zeta. intros [= <-]. simpl. case_match; [|by left].
    rewrite lookup_insert_is_Some. intros [<-|[_ ?]]; [left; by eexists|by left].
  - unfold handleCw721Others. rewrite Hc. intros [= <-]. by left.
Qed.

(** When the handler throws. *)
Definition known_by (toks : tokens) (pre : list Msg) (k : string) : Prop :=
  is_Some (toks !! k) ∨ ∃ m, m ∈ pre ∧ is_mint m = true ∧ about k m.

Lemma process_burn_throws s pre m post :
  is_burn m = true → is_Some (tracked !! m_contractAddress m) →
  ¬ known_by s.1 pre (msg_key m) →
  ∃ msg, forEachM (process_one tracked) s (pre ++ m :: post) = Throw msg.
Proof.
  intros Hb [c Hc]. revert s. induction pre as [|m0 pre IH]; intros s Hk; simpl.
  - assert (process_one tracked s m = Throw "TypeError: Cannot read properties of undefined (reading 'owner')") as ->; [|eauto].
    unfold process_one. fold (is_mint m) (is_transfer m) (is_burn m). rewrite Hb.
    assert (is_mint m = false ∧ is_transfer m = false) as [-> ->].
    { unfold is_mint, is_transfer, is_burn in *. apply bool_decide_eq_true_1 in Hb. rewrite Hb. done. }
    unfold handlerCw721Burn. rewrite Hc. destruct (s.1 !! msg_key m) eqn:Ht; [|done].
    destruct Hk. left. by eexists.
  - destruct (process_one tracked s m0) as [s1|msg] eqn:H1; [|simpl; eauto]. simpl. apply IH.
    intros [Hs1|(m' & Hm' & Hmint & Hab)]; apply Hk; cycle 1.
    { right. exists m'. split; [by right|done]. }
    destruct (process_one_known_by _ _ _ _ H1 Hs1) as [|[Hmint Hab]]; [by left|right].
    exists m0. split; [left|done].
Qed.
End Process.

(** ** The tables *)
Record tables_ok (d : Db) : Prop := {
  contract_ids : NoDup (cc_id <$> cw721_contract d);
  contract_ids_below : Forall (λ c, cc_id c < next_contract_id d) (cw721_contract d);
  contract_addresses c1 c2 a : c1 ∈ cw721_contract d → c2 ∈ cw721_contract d →
    cw721_address (base d) c1 = Some a → cw721_address (base d) c2 = Some a → c1 = c2;
  address_chars c a : c ∈ cw721_contract d → cw721_address (base d) c = Some a → no_underscore a = true;
  token_unique id1 t1 id2 t2 : cw721_token d !! id1 = Some t1 → cw721_token d !! id2 = Some t2 →
    token_columns t1 = token_columns t2 → id1 = id2;
  token_ids id : is_Some (cw721_token d !! id) → id < next_token_id d
}.

(** What the table says about a token of a contract. *)
Definition status (d : Db) (contract : Z) (token : string) : option (option string * bool) :=
  (λ r : Z * CW721Token, view r.2) <$>
    find (λ r : Z * CW721Token, bool_decide (token_columns r.2 = (contract, token))) (map_to_list (cw721_token d)).

Lemma status_cases d c t :
  (∃ id tok, cw721_token d !! id = Some tok ∧ token_columns tok = (c, t) ∧ status d c t = Some (view tok)) ∨
  (∀ id tok, cw721_token d !! id = Some tok → token_columns tok ≠ (c, t)) ∧ status d c t = None.
Proof.
  unfold status. destruct (find _ _) as [[id tok]|] eqn:Hf; [left|right].
  - apply find_Some in Hf as [Hin Hb%bool_decide_eq_true_1]. apply elem_of_map_to_list in Hin. eauto.
  - split; [|done]. apply find_None in Hf. rewrite Forall_forall in Hf. intros id tok Ht%elem_of_map_to_list Hc.
    specialize (Hf _ Ht). by rewrite bool_decide_eq_true_2 in Hf.
Qed.

Lemma status_row d c t id tok :
  (∀ id1 t1 id2 t2, cw721_token d !! id1 = Some t1 → cw721_token d !! id2 = Some t2 →
     token_columns t1 = token_columns t2 → id1 = id2) →
  cw721_token d !! id = Some tok → token_columns tok = (c, t) → status d c t = Some (view tok).
Proof.
  intros Hu Hid Hc. destruct (status_cases d c t) as [(id' & tok' & Hid' & Hc' & ->)|[Hn _]].
  - assert (id = id') as -> by (eapply Hu; [done..|congruence]). congruence.
  - by destruct (Hn id tok).
Qed.

(** A dictionary of tokens under their own keys; the ids are those of the table. *)
Definition dict_ok (d : Db) (toks : tokens) : Prop :=
  ∀ k o tok, toks !! k = Some (o, tok) →
    (∃ c a, c ∈ cw721_contract d ∧ cc_id c = tk_contract_id tok ∧ cw721_address (base d) c = Some a ∧
       k = token_key a (Some (tk_token_id tok))) ∧
    ∀ id, o = Some id → ∃ tok0, cw721_token d !! id = Some tok0 ∧ token_columns tok0 = token_columns tok.

Section Tables.
Context (d : Db) (Hd : tables_ok d).

Lemma tracked_lookup addrs a c :
  getCw721TrackedContracts addrs d !! a = Some c →
  c ∈ cw721_contract d ∧ cw721_address (base d) c = Some a ∧ cc_track c = true ∧ a ∈ addrs.
Proof using Type.
  unfold getCw721TrackedContracts. rewrite lookup_fmap. intros ([a' c'] & Hk & ->)%fmap_Some. simpl.
  apply keyBy_Some in Hk as [(c0 & Hc0 & Heq)%list_elem_of_omap <-]. simpl.
  destruct (cw721_address (base d) c0) as [a0|] eqn:Ha; [|done]. simpl in Heq.
  case_bool_decide as Hb; [|done]. injection Heq as <- <-. destruct Hb. auto.
Qed.

(** A contract that is tracked is found under its address. *)
Lemma tracked_found addrs a c :
  c ∈ cw721_contract d → cw721_address (base d) c = Some a → cc_track c = true → a ∈ addrs →
  getCw721TrackedContracts addrs d !! a = Some c.
Proof using Hd.
  intros Hc Ha Ht Hin. destruct (getCw721TrackedContracts addrs d !! a) as [c'|] eqn:Hl.
  - apply tracked_lookup in Hl as (Hc' & Ha' & _). f_equal. by eapply contract_addresses.
  - exfalso. unfold getCw721TrackedContracts in Hl. rewrite lookup_fmap, fmap_None, keyBy_None, Forall_forall in Hl.
    apply (Hl (a, c)); [|done]. apply list_elem_of_omap. exists c. split; [done|]. rewrite Ha. simpl.
    by rewrite bool_decide_eq_true_2.
Qed.

Lemma find_contract_row c : c ∈ cw721_contract d →
  find (λ c', bool_decide (cc_id c' = cc_id c)) (cw721_contract d) = Some c.
Proof using Hd.
  intros Hc. destruct (find _ _) as [c'|] eqn:Hf.
  - apply find_Some in Hf as [Hc' Hb%bool_decide_eq_true_1]. f_equal.
    eapply (NoDup_fmap_key cc_id); [by apply contract_ids|done..].
  - apply find_None in Hf. rewrite Forall_forall in Hf. specialize (Hf _ Hc).
    by rewrite bool_decide_eq_true_2 in Hf.
Qed.

Definition requested (msgs : list Msg) (a t : string) : Prop :=
  (a, Some t) ∈ (λ m, (m_contractAddress m, tokenId m)) <$> msgs.
#[export] Instance requested_dec msgs a t : Decision (requested msgs a t).
Proof. unfold requested. apply _. Defined.

Lemma fetchTokens_row msgs k r :
  fetchTokens msgs d !! k = Some r →
  ∃ id c a, r.1 = Some id ∧ cw721_token d !! id = Some r.2 ∧ c ∈ cw721_contract d ∧
    cc_id c = tk_contract_id r.2 ∧ cw721_address (base d) c = Some a ∧
    k = token_key a (Some (tk_token_id r.2)) ∧ requested msgs a (tk_token_id r.2).
Proof using Type.
  unfold fetchTokens. rewrite lookup_fmap. intros ([k' r'] & Hk & ->)%fmap_Some. simpl.
  apply keyBy_Some in Hk as [([id tok] & Hin & Heq)%list_elem_of_omap <-]. simpl in *.
  apply elem_of_map_to_list in Hin.
  destruct (find _ _) as [c|] eqn:Hf; [|done]. simpl in Heq.
  apply find_Some in Hf as [Hc Hb%bool_decide_eq_true_1].
  destruct (cw721_address (base d) c) as [a|] eqn:Ha; [|done]. simpl in Heq.
  case_bool_decide as Hr; [|done]. destruct Hr. injection Heq as <- <-. simpl. exists id, c, a. auto 10.
Qed.

Lemma fetchTokens_dict_ok msgs : dict_ok d (fetchTokens msgs d).
Proof using Type.
  intros k o tok Hk. apply fetchTokens_row in Hk as (id & c & a & Ho & Hid & Hc & Hcid & Ha & -> & _).
  simpl in *. split; [eauto 10|]. intros id' ->. simplify_eq. eauto.
Qed.

Lemma fetchTokens_view msgs c a t :
  c ∈ cw721_contract d → cw721_address (base d) c = Some a → t ≠ "" → requested msgs a t →
  dict_view (fetchTokens msgs d) (token_key a (Some t)) = status d (cc_id c) t.
Proof using Hd.
  intros Hc Ha Ht Hreq. unfold dict_view.
  destruct (fetchTokens msgs d !! token_key a (Some t)) as [r|] eqn:Hk.
  - apply fetchTokens_row in Hk as (id & c' & a' & Ho & Hid & Hc' & Hcid & Ha' & Heq & _).
    apply key2_inj in Heq as [-> Heq]; [|by eapply (address_chars d Hd c)|by eapply (address_chars d Hd c')].
    simpl in Heq. subst t.
    rewrite (contract_addresses d Hd c c' a') by done. symmetry.
    eapply status_row; [by apply (token_unique d Hd)|done|]. unfold token_columns. by rewrite Hcid.
  - destruct (status_cases d (cc_id c) t) as [(id & tok & Hid & Hcols & _)|[_ ->]]; [exfalso|done].
    unfold fetchTokens in Hk. rewrite lookup_fmap, fmap_None, keyBy_None, Forall_forall in Hk.
    unfold token_columns in Hcols. injection Hcols as Hcid <-.
    apply (Hk (token_key a (Some (tk_token_id tok)), (Some id, tok))); [|done].
    apply list_elem_of_omap. exists (id, tok). split; [by apply elem_of_map_to_list|]. simpl.
    rewrite Hcid, find_contract_row by done. simpl. rewrite Ha. simpl. by rewrite bool_decide_eq_true_2.
Qed.

(** The handler keeps the dictionary in order. *)
Lemma dict_insert toks k o tok tok' :
  dict_ok d toks → toks !! k = Some (o, tok) → token_columns tok' = token_columns tok →
  dict_ok d (<[k := (o, tok')]> toks).
Proof using Type.
  intros Hok Hk Hcols k' o' tok2. rewrite lookup_insert. case_decide as Hkk; [|by apply Hok].
  intros [= <- <-]. subst k'. destruct (Hok _ _ _ Hk) as [(c & a & Hc & Hcid & Ha & ->) Hid].
  unfold token_columns in Hcols. injection Hcols as H1 H2. split.
  - exists c, a. rewrite H1, H2. auto.
  - intros id ->. destruct (Hid id eq_refl) as (tok0 & ? & Heq). exists tok0. split; [done|].
    unfold token_columns in *. by rewrite Heq, H1, H2.
Qed.

Lemma process_one_ok addrs s m s' :
  dict_ok d s.1 → process_one (getCw721TrackedContracts addrs d) s m = Ok s' → dict_ok d s'.1.
Proof using Hd.
  intros Hok. destruct (getCw721TrackedContracts addrs d !! m_contractAddress m) as [c|] eqn:Hc; cycle 1.
  { rewrite process_one_untracked by done. by intros [= <-]. }
  pose proof (tracked_lookup _ _ _ Hc) as (Hin & Ha & _).
  unfold process_one. repeat case_bool_decide.
  - unfold handlerCw721Mint. rewrite Hc. cbv zeta.
    destruct (match s.1 !! msg_key m with Some (_, t) => _ | None => _ end); [|intros [= <-]; done].
    intros (t & Ht & [= <-])%bind_Ok. simpl. unfold minted in Ht.
    destruct (tokenId m) as [tid|] eqn:Htid; [|done]. injection Ht as <-.
    assert (msg_key m = token_key (m_contractAddress m) (Some tid)) as Hkey by (unfold msg_key; by rewrite Htid).
    destruct (s.1 !! msg_key m) as [[o tok]|] eqn:Hk; simpl.
    + eapply dict_insert; [done|done|]. destruct (Hok _ _ _ Hk) as [(c' & a & Hc' & Hcid & Ha' & Heq) _].
      rewrite Hkey in Heq. apply key2_inj in Heq as [<- Heq]; [|by eapply (address_chars d Hd c)|by eapply (address_chars d Hd c')].
      simpl in Heq. unfold token_columns. simpl. rewrite <-Heq, <-Hcid. f_equal.
      by rewrite (contract_addresses d Hd c c' (m_contractAddress m)).
    + intros k o tok. rewrite lookup_insert. case_decide as Hkk; [|by apply Hok].
      intros [= <- <-]. split; [|done]. exists c, (m_contractAddress m). by rewrite <-Hkk.
  - unfold handlerCw721Transfer. rewrite Hc. cbv zeta. intros [= <-]. simpl.
    destruct (s.1 !! msg_key m) as [[o tok]|] eqn:Hk; [|done]. case_match; [|done]. by eapply dict_insert.
  - unfold handlerCw721Burn. rewrite Hc. destruct (s.1 !! msg_key m) as [[o tok]|] eqn:Hk; [|done].
    cbv zeta. intros [= <-]. simpl. case_match; [|done]. by eapply dict_insert.
  - unfold handleCw721Others. rewrite Hc. by intros [= <-].
Qed.
End Tables.

(** ** Storing a dictionary *)
Lemma tokens_with_id_elem next l id t :
  (id, t) ∈ tokens_with_id next l →
  (Some id, t) ∈ l ∨ (None, t) ∈ l ∧ next <= id.
Proof.
  revert next. induction l as [|[[i|] t'] l IH]; intros next; simpl; [by intros []%not_elem_of_nil|..].
  - intros [[= -> ->]|Hin]%elem_of_cons; [left; left|].
    destruct (IH _ Hin) as [|[? ?]]; [left; by right|right; split; [by right|done]].
  - intros [[= -> ->]|Hin]%elem_of_cons; [right; split; [left|lia]|].
    destruct (IH _ Hin) as [|[? ?]]; [left; by right|right; split; [by right|lia]].
Qed.

Lemma elem_tokens_with_id next l o t :
  (o, t) ∈ l → ∃ id, (id, t) ∈ tokens_with_id next l ∧ (∀ i, o = Some i → id = i).
Proof.
  revert next. induction l as [|[[i|] t'] l IH]; intros next; simpl; [by intros []%not_elem_of_nil|..].
  - intros [[= -> ->]|Hin]%elem_of_cons; [exists i; split; [left|congruence]|].
    destruct (IH next Hin) as (id & ? & ?). exists id. split; [by right|done].
  - intros [[= -> ->]|Hin]%elem_of_cons; [exists next; split; [left|done]|].
    destruct (IH (next + 1) Hin) as (id & ? & ?). exists id. split; [by right|done].
Qed.

Lemma tokens_with_id_NoDup next (l : list (option Z * CW721Token)) :
  NoDup (omap fst l) → (∀ i t, (Some i, t) ∈ l → i < next) → NoDup (tokens_with_id next l).*1.
Proof.
  revert next. induction l as [|[[i|] t'] l IH]; intros next Hnd Hlt; [constructor|..].
  - cbn in Hnd. apply NoDup_cons in Hnd as [Hi Hnd]. cbn [tokens_with_id fmap list_fmap fst].
    constructor; [|apply IH; [done|]; intros; eapply Hlt; by right].
    intros ([i' t] & Heq & Hin)%list_elem_of_fmap. simpl in Heq. subst i'.
    destruct (tokens_with_id_elem _ _ _ _ Hin) as [Hin'|[_ Hge]].
    + apply Hi, list_elem_of_omap. by exists (Some i, t).
    + assert (i < next); [|lia]. apply (Hlt i t'). left.
  - cbn in Hnd. cbn [tokens_with_id fmap list_fmap fst].
    constructor; [|apply IH; [done|]; intros i t Hin; assert (i < next); [eapply Hlt; by right|lia]].
    intros ([i' t] & Heq & Hin)%list_elem_of_fmap. simpl in Heq. subst i'.
    destruct (tokens_with_id_elem _ _ _ _ Hin) as [Hin'|[_ Hge]]; [|lia].
    assert (next < next); [|lia]. eapply Hlt. right. exact Hin'.
Qed.

Lemma foldl_insert_lookup (l : list (Z * CW721Token)) (m : gmap Z CW721Token) id t :
  NoDup l.*1 →
  foldl (λ m r, <[r.1 := r.2]> m) m l !! id = Some t ↔
  (id, t) ∈ l ∨ (id ∉ l.*1) ∧ m !! id = Some t.
Proof.
  revert m. induction l as [|[i t'] l IH]; intros m Hnd; simpl.
  { split; [right; split; [apply not_elem_of_nil|done]|]. intros [[]%not_elem_of_nil|[_ ?]]; done. }
  apply NoDup_cons in Hnd as [Hi Hnd]. rewrite IH by done. rewrite !elem_of_cons, lookup_insert.
  destruct (decide (i = id)) as [->|Hne].
  - split.
    + intros [Hin|[_ [= ->]]]; [|left; by left].
      destruct Hi. apply list_elem_of_fmap. by exists (id, t).
    + intros [[[= ->]|Hin]|[Hno _]]; [right; done|by left|]. destruct Hno. by left.
  - split.
    + intros [Hin|[Hno Hm]]; [left; by right|right]. split; [|done]. intros [->|]; done.
    + intros [[[= -> ->]|Hin]|[Hno Hm]]; [done|by left|right]. split; [|done]. intros ?. apply Hno. by right.
Qed.

Section Store.
Context (d : Db) (Hd : tables_ok d) (toks : tokens) (Hok : dict_ok d toks).
Let l := (map_to_list toks).*2.
Let d1 := upsert_tokens l d.
Hypothesis Huniq : NoDup (token_columns <$> (map_to_list (cw721_token d1)).*2).

Lemma elem_of_values o t : (o, t) ∈ l ↔ ∃ k, toks !! k = Some (o, t).
Proof using Type.
  unfold l. rewrite list_elem_of_fmap. split.
  - intros ([k r] & -> & Hin%elem_of_map_to_list). eauto.
  - intros [k Hk]. exists (k, (o, t)). by rewrite elem_of_map_to_list.
Qed.

(** Two entries with the same columns are one. *)
Lemma dict_columns k1 k2 r1 r2 :
  toks !! k1 = Some r1 → toks !! k2 = Some r2 → token_columns r1.2 = token_columns r2.2 → k1 = k2.
Proof using Hd Hok.
  destruct r1 as [o1 t1], r2 as [o2 t2]. intros H1 H2 [= Hc Ht].
  destruct (Hok _ _ _ H1) as [(c1 & a1 & Hc1 & Hid1 & Ha1 & ->) _].
  destruct (Hok _ _ _ H2) as [(c2 & a2 & Hc2 & Hid2 & Ha2 & ->) _]. simpl in *.
  assert (c1 = c2) as ->.
  { eapply (NoDup_fmap_key cc_id); [by apply contract_ids|done..|congruence]. }
  congruence.
Qed.

Lemma stored_ids_NoDup : NoDup (omap fst l).
Proof using Hd Hok.
  unfold l. assert (NoDup (map_to_list toks)) as Hnd by apply NoDup_map_to_list.
  assert (∀ k o t, (k, (o, t)) ∈ map_to_list toks → toks !! k = Some (o, t)) as Hin.
  { intros k o t H. by apply elem_of_map_to_list in H. }
  revert Hnd Hin. generalize (map_to_list toks) as ml. induction ml as [|[k [o t]] ml IH]; intros Hnd Hin; [constructor|].
  apply NoDup_cons in Hnd as [Hk Hnd].
  assert (NoDup (omap fst ml.*2)) as Hml by (apply IH; [done|]; intros; apply Hin; by right).
  cbn. destruct o as [i|]; [|done]. constructor; [|done].
  intros ([o' t'] & ([k' r'] & Heq & Hm)%list_elem_of_fmap & Ho)%list_elem_of_omap. simpl in *. subst o' r'.
  assert (k' = k) as ->.
  { pose proof (Hin _ _ _ (list_elem_of_here _ _)) as H1. assert (toks !! k' = Some (Some i, t')) as H2 by (apply Hin; by right).
    eapply (dict_columns k' k); [done..|]. simpl.
    destruct (Hok _ _ _ H1) as [_ Hi1], (Hok _ _ _ H2) as [_ Hi2].
    destruct (Hi1 i eq_refl) as (x & Hx & <-), (Hi2 i eq_refl) as (y & Hy & <-). congruence. }
  apply Hk. assert (toks !! k = Some (Some i, t)) as H1 by (apply Hin; left).
  assert (toks !! k = Some (Some i, t')) as H2 by (apply Hin; by right). rewrite H1 in H2. by injection H2 as ->.
Qed.

Lemma stored_rows id t :
  cw721_token d1 !! id = Some t ↔
  (id, t) ∈ tokens_with_id (next_token_id d) l ∨
  (id ∉ (tokens_with_id (next_token_id d) l).*1) ∧ cw721_token d !! id = Some t.
Proof using Hd Hok.
  unfold d1. simpl. apply foldl_insert_lookup, tokens_with_id_NoDup; [apply stored_ids_NoDup|].
  intros i t' [k Hk]%elem_of_values. destruct (Hok _ _ _ Hk) as [_ Hid].
  destruct (Hid i eq_refl) as (tok & Ht & _). apply (token_ids d Hd). by eexists.
Qed.

(** The table says what the dictionary says, or what it said before. *)
Lemma status_stored c a t :
  c ∈ cw721_contract d → cw721_address (base d) c = Some a →
  status d1 (cc_id c) t = match dict_view toks (token_key a (Some t)) with
                          | Some v => Some v | None => status d (cc_id c) t end.
Proof using Hd Hok Huniq.
  intros Hc Ha.
  assert (∀ id1 t1 id2 t2, cw721_token d1 !! id1 = Some t1 → cw721_token d1 !! id2 = Some t2 →
    token_columns t1 = token_columns t2 → id1 = id2) as Hu.
  { intros id1 t1 id2 t2 H1 H2 Hcols. apply elem_of_map_to_list in H1, H2.
    assert ((id1, t1) = (id2, t2)) as [= -> _]; [|done].
    rewrite <-list_fmap_compose in Huniq.
    eapply (NoDup_fmap_key (token_columns ∘ snd)); [exact Huniq|done..]. }
  unfold dict_view. destruct (toks !! token_key a (Some t)) as [[o tok]|] eqn:Hk; simpl.
  - assert (token_columns tok = (cc_id c, t)) as Hcols.
    { destruct (Hok _ _ _ Hk) as [(c' & a' & Hc' & Hcid & Ha' & Heq) _].
      apply key2_inj in Heq as [-> Heq]; [|by eapply (address_chars d Hd c)|by eapply (address_chars d Hd c')].
      simpl in Heq. subst t. unfold token_columns. rewrite <-Hcid.
      by rewrite (contract_addresses d Hd c c' a'). }
    destruct (elem_tokens_with_id (next_token_id d) l o tok) as (id & Hid & _); [apply elem_of_values; eauto|].
    eapply status_row; [exact Hu| |exact Hcols]. apply stored_rows. by left.
  - assert (∀ o tok, (o, tok) ∈ l → token_columns tok ≠ (cc_id c, t)) as Hno.
    { intros o tok [k Hk']%elem_of_values Hcols. destruct (Hok _ _ _ Hk') as [(c' & a' & Hc' & Hcid & Ha' & ->) _].
      unfold token_columns in Hcols. injection Hcols as H1 H2. subst t.
      assert (c' = c) as -> by (eapply (NoDup_fmap_key cc_id); [by apply contract_ids|done..|congruence]).
      congruence. }
    assert (∀ id tok, token_columns tok = (cc_id c, t) →
      (cw721_token d1 !! id = Some tok ↔ cw721_token d !! id = Some tok)) as Hiff.
    { intros id tok Hcols. rewrite stored_rows. split.
      - intros [[Hin|[Hin _]]%tokens_with_id_elem|[_ ?]]; [by destruct (Hno _ _ Hin)..|done].
      - intros Hid. right. split; [|done]. intros ([i t'] & -> & Hin)%list_elem_of_fmap. simpl in Hid.
        apply tokens_with_id_elem in Hin as [Hin|[_ Hge]].
        + pose proof Hin as [k Hk']%elem_of_values. destruct (Hok _ _ _ Hk') as [_ Hi].
          destruct (Hi i eq_refl) as (tok0 & Ht0 & Hcols'). apply (Hno _ _ Hin).
          assert (tok0 = tok) as -> by congruence. by rewrite <-Hcols'.
        + assert (i < next_token_id d); [|lia]. apply (token_ids d Hd). by eexists. }
    destruct (status_cases d (cc_id c) t) as [(id & tok & Hid & Hcols & ->)|[Hn ->]].
    + eapply status_row; [exact Hu| |exact Hcols]. by apply Hiff.
    + destruct (status_cases d1 (cc_id c) t) as [(id & tok & Hid & Hcols & _)|[_ ->]]; [|done].
      destruct (Hn id tok); [by apply Hiff|done].
Qed.
End Store.

(** ** A range of events *)

(** The messages about a token; [undefined] and the empty id are excluded. *)
Definition token_msgs (a t : string) (msgs : list Msg) : list Msg :=
  filter (λ m, m_contractAddress m = a ∧ tokenId m = Some t) msgs.
Definition plain (t : string) : Prop := t ≠ "" ∧ t ≠ "undefined".

(** Events come in the order of their heights, and after the last change of
    every token. *)
Record in_order (msgs : list Msg) (d : Db) : Prop := {
  msgs_sorted : StronglySorted (λ a b, m_height a <= m_height b) msgs;
  msgs_after m id tok : m ∈ msgs → cw721_token d !! id = Some tok → tk_last_updated_height tok <= m_height m
}.

(** The activities of the messages of tracked contracts, in order; the owner a
    transfer or burn takes the token from is the one of the machine. *)
Definition activities_spec (msgs : list Msg) (d : Db) (acts : list CW721Activity) : Prop :=
  let tracked := getCw721TrackedContracts (m_contractAddress <$> msgs) d in
  ac_event_id <$> acts = m_event_id <$> filter (λ m, is_Some (tracked !! m_contractAddress m)) msgs ∧
  ∀ pre m post c t, msgs = pre ++ m :: post → tracked !! m_contractAddress m = Some c →
    tokenId m = Some t → plain t →
    ∃ a, a ∈ acts ∧
      activity_for (foldl token_step (status d (cc_id c) t) (token_msgs (m_contractAddress m) t pre)) m a.

Definition tokens_spec (msgs : list Msg) (d d' : Db) : Prop :=
  ∀ c a t, c ∈ cw721_contract d → cw721_address (base d) c = Some a → cc_track c = true → plain t →
    status d' (cc_id c) t = foldl token_step (status d (cc_id c) t) (token_msgs a t msgs).

Section Range.
Context (d : Db) (Hd : tables_ok d) (msgs : list Msg).
Let tracked := getCw721TrackedContracts (m_contractAddress <$> msgs) d.

Lemma about_token_msgs l c a t :
  (∀ m, m ∈ l → m ∈ msgs) →
  c ∈ cw721_contract d → cw721_address (base d) c = Some a → cc_track c = true → plain t →
  filter (about tracked (token_key a (Some t))) l = token_msgs a t l.
Proof using Hd.
  intros Hsub Hc Ha Htr [_ Ht]. apply filter_ext_in. intros m Hm. unfold about, msg_key. split.
  - intros [[c' Hc'] Heq]. apply tracked_lookup in Hc' as (Hc' & Ha' & _).
    apply key2_inj in Heq as [-> Heq]; [|by eapply (address_chars d Hd c')|by eapply (address_chars d Hd c)].
    simpl in Heq. split; [done|]. destruct (tokenId m); simpl in *; congruence.
  - intros [<- ->]. split; [|done]. exists c. apply tracked_found; [done..|].
    by apply list_elem_of_fmap_2, Hsub.
Qed.

(** The dictionary the handler starts from. *)
Lemma fetched c a t :
  c ∈ cw721_contract d → cw721_address (base d) c = Some a → plain t →
  dict_view (fetchTokens msgs d) (token_key a (Some t)) =
    if decide (requested msgs a t) then status d (cc_id c) t else None.
Proof using Hd.
  intros Hc Ha [Ht _]. case_decide as Hr; [by apply fetchTokens_view|].
  unfold dict_view. destruct (fetchTokens msgs d !! _) as [r|] eqn:Hk; [exfalso|done].
  apply fetchTokens_row in Hk as (id & c' & a' & _ & _ & Hc' & _ & Ha' & Heq & Hr').
  apply key2_inj in Heq as [-> Heq]; [|by eapply (address_chars d Hd c)|by eapply (address_chars d Hd c')].
  simpl in Heq. by subst.
Qed.

Lemma not_requested a t l :
  (∀ m, m ∈ l → m ∈ msgs) → ¬ requested msgs a t → token_msgs a t l = [].
Proof using Type.
  intros Hsub Hr. apply filter_none. intros m Hm [Ha Ht]. apply Hr. apply list_elem_of_fmap.
  exists m. rewrite Ha, Ht. auto.
Qed.

Hypothesis Hord : in_order msgs d.

Lemma fetched_heights m : m ∈ msgs → heights_below (m_height m) (fetchTokens msgs d).
Proof using Hord.
  intros Hm k r Hk. apply fetchTokens_row in Hk as (id & c & a & _ & Hid & _). by eapply msgs_after.
Qed.

Lemma forEachM_dict_ok addrs s l s' :
  dict_ok d s.1 → forEachM (process_one (getCw721TrackedContracts addrs d)) s l = Ok s' → dict_ok d s'.1.
Proof using Hd.
  intros Hs. apply (forEachM_inv _ (λ s, dict_ok d s.1)); [|done].
  intros s0 m s1 Hs0 _ H1. by eapply process_one_ok.
Qed.

(** What a range does to the tables. *)
Lemma handle_msgs_spec d' :
  handle_msgs msgs d = Ok d' →
  tokens_spec msgs d d' ∧ base d' = base d ∧ cw721_contract d' = cw721_contract d ∧
  ∃ acts, cw721_activity d' = cw721_activity d ++ acts ∧ activities_spec msgs d acts.
Proof using Hd Hord.
  unfold handle_msgs, handleCw721MsgExec. intros ([vals acts] & Hex & Hup)%bind_Ok.
  apply bind_Ok in Hex as ([toks acts'] & Hp & [= <- <-]).
  pose proof (process_view _ (fetchTokens msgs d, []) msgs (toks, acts') (msgs_sorted _ _ Hord) fetched_heights Hp) as (Hview & new & Hnew & Hids & Hfor).
  simpl in Hview, Hnew. subst acts'.
  assert (dict_ok d toks) as Hok.
  { eapply (forEachM_dict_ok _ (fetchTokens msgs d, []) msgs (toks, new)); [|exact Hp]. apply fetchTokens_dict_ok. }
  unfold updateTokenAndActivities in Hup. cbv zeta in Hup. case_bool_decide as Huniq; [|done].
  unfold insert_activities in Hup. case_bool_decide; [|done]. injection Hup as <-.
  split; [|split; [done|split; [done|]]].
  - intros c a t Hc Ha Htr Hpl.
    change (status (set_activity _ (upsert_tokens (map_to_list toks).*2 d)) (cc_id c) t)
      with (status (upsert_tokens (map_to_list toks).*2 d) (cc_id c) t).
    rewrite (status_stored d Hd toks Hok Huniq c a t Hc Ha), Hview.
    fold tracked. rewrite (about_token_msgs msgs c a t), (fetched c a t) by done.
    case_decide as Hr; [|by rewrite not_requested].
    destruct (status d (cc_id c) t) as [v|] eqn:Hst; [|by destruct (foldl _ _ _)].
    clear. assert (∃ v', foldl token_step (Some v) (token_msgs a t msgs) = Some v') as [v' ->]; [|done].
    revert v. induction (token_msgs a t msgs) as [|m l IH]; intros v; simpl; [eauto|].
    unfold token_step at 2. repeat case_match; apply IH.
  - eexists. split; [reflexivity|]. split.
    + rewrite <-Hids. case_bool_decide; [done|]. by rewrite <-list_fmap_compose.
    + intros pre m post c t Heq Hc Ht Hpl.
      destruct (Hfor pre m post Heq) as (a & Ha & Hact); [by exists c|].
      pose proof (tracked_lookup _ _ _ _ Hc) as (Hin & Haddr & Htr & _).
      assert (∀ m', m' ∈ pre → m' ∈ msgs) as Hsub by (intros m' ?; rewrite Heq, elem_of_app; by left).
      unfold before, msg_key in Hact. rewrite Ht in Hact. simpl in Hact.
      fold tracked in Hact. rewrite (about_token_msgs pre c) in Hact by done.
      rewrite (fetched c) in Hact by done. rewrite decide_True in Hact.
      2:{ apply list_elem_of_fmap. exists m. rewrite Ht. split; [done|]. rewrite Heq, elem_of_app. right. left. }
      case_bool_decide; [by exists a|].
      eexists. split; [by apply list_elem_of_fmap_2|]. exact Hact.
Qed.
End Range.

(** ** New contracts *)

(** The CW721 contracts a range instantiates. *)
Definition instantiated_contracts (msgs : list Msg) (d : Db) : list SmartContract :=
  filter (λ c, sc_address c ∈ m_contractAddress <$> filter (λ m, m_action m = Some CW721_ACTION.INSTANTIATE) msgs
               ∧ is_cw721 (base d) c = true) (smart_contract (base d)).

(** They have one row each in [smart_contract], and none in [cw721_contract]. *)
Record instantiations_fresh (msgs : list Msg) (d : Db) : Prop := {
  smart_contract_ids : NoDup (sc_id <$> smart_contract (base d));
  instantiated_once : NoDup (sc_address <$> instantiated_contracts msgs d);
  instantiated_new c c' : c ∈ instantiated_contracts msgs d → c' ∈ cw721_contract d →
    cw721_address (base d) c' ≠ Some (sc_address c);
  instantiated_chars c : c ∈ instantiated_contracts msgs d → no_underscore (sc_address c) = true
}.

Section Instantiate.
Context {N : Cw721Node} (msgs : list Msg) (d d1 : Db).
Hypothesis Hd : tables_ok d.
Hypothesis Hfresh : instantiations_fresh msgs d.
Hypothesis Hrun : handleInstantiateMsgs (filter (λ m, m_action m = Some CW721_ACTION.INSTANTIATE) msgs) d = Ok d1.

Lemma contract_row_spec r row : contract_row r = Ok row → cc_contract_id row = r.1 ∧ cc_track row = true.
Proof using Type. intros (info & _ & (minter & _ & [= <-])%bind_Ok)%bind_Ok. done. Qed.

Lemma instantiate_rows : ∃ rows,
  d1 = set_contract (cw721_contract d ++ rows) (next_contract_id d + Z.of_nat (length rows)) d ∧
  Forall2 (λ c row, cc_contract_id row = sc_id c ∧ cc_track row = true) (instantiated_contracts msgs d) rows ∧
  NoDup (cc_id <$> cw721_contract d ++ rows) ∧
  Forall (λ c, cc_id c < next_contract_id d + Z.of_nat (length rows)) (cw721_contract d ++ rows).
Proof using Hd Hrun.
  unfold handleInstantiateMsgs in Hrun. apply bind_Ok in Hrun as (rows & Hrows%mapR_Ok & Hins).
  unfold insert_contract_rows in Hins. cbv zeta in Hins. case_bool_decide; [|done]. injection Hins as <-.
  destruct (serial_fresh contract_with_id cc_id (λ _ _, eq_refl) (next_contract_id d) rows (cw721_contract d))
    as [Hnd Hlt]; [by destruct Hd..|].
  exists (serial contract_with_id (next_contract_id d) rows). rewrite length_serial. split; [done|].
  split; [|split; [done|exact Hlt]].
  eapply Forall2_compose; [|exact Hrows|exact (serial_rows contract_with_id cc_id (λ _ _, eq_refl) _ _)].
  intros c row row' Hrow ->. simpl. by apply contract_row_spec in Hrow.
Qed.

Lemma find_smart_contract c : c ∈ smart_contract (base d) → find_contract (base d) (sc_id c) = Some c.
Proof using Hfresh.
  intros Hc. unfold find_contract. destruct (find _ _) as [c'|] eqn:Hf.
  - apply find_Some in Hf as [Hc' Hb%bool_decide_eq_true_1]. f_equal.
    eapply (NoDup_fmap_key sc_id); [by destruct Hfresh|done..].
  - apply find_None in Hf. rewrite Forall_forall in Hf. specialize (Hf _ Hc). by rewrite bool_decide_eq_true_2 in Hf.
Qed.

Lemma new_row_address rows row :
  Forall2 (λ c row, cc_contract_id row = sc_id c ∧ cc_track row = true) (instantiated_contracts msgs d) rows →
  row ∈ rows → ∃ i c, instantiated_contracts msgs d !! i = Some c ∧ rows !! i = Some row ∧
    cw721_address (base d) row = Some (sc_address c).
Proof using Hfresh.
  intros Hrows [i Hi]%list_elem_of_lookup.
  destruct (Forall2_lookup_r _ _ _ _ _ Hrows Hi) as (c & Hc & Hid & _). exists i, c. split; [done|].
  split; [done|]. unfold cw721_address. rewrite Hid, find_smart_contract; [done|].
  by apply list_elem_of_lookup_2, list_elem_of_filter in Hc as [_ ?].
Qed.

Lemma instantiate_ok : tables_ok d1.
Proof using All.
  destruct instantiate_rows as (rows & -> & Hrows & Hnd & Hlt). split; simpl; [done|done| | | |].
  - intros c1 c2 a H1 H2 Ha1 Ha2. rewrite elem_of_app in H1, H2.
    assert (∀ c row, c ∈ cw721_contract d → row ∈ rows → cw721_address (base d) c = Some a →
      cw721_address (base d) row = Some a → False) as Hcross.
    { intros c row Hc Hr Ha Har. destruct (new_row_address _ _ Hrows Hr) as (i & sc & Hsc & _ & Ha').
      eapply (instantiated_new _ _ Hfresh sc c); [by eapply list_elem_of_lookup_2|done|congruence]. }
    destruct H1 as [H1|H1], H2 as [H2|H2]; [by eapply (contract_addresses d Hd)|by destruct (Hcross c1 c2)
      |by destruct (Hcross c2 c1)|].
    destruct (new_row_address _ _ Hrows H1) as (i & sc1 & Hi & Hr1 & Ha1').
    destruct (new_row_address _ _ Hrows H2) as (j & sc2 & Hj & Hr2 & Ha2').
    assert (i = j) as ->; [|congruence].
    eapply (NoDup_lookup (sc_address <$> instantiated_contracts msgs d) _ _ a); [by destruct Hfresh|..];
      rewrite list_lookup_fmap; [rewrite Hi|rewrite Hj]; simpl; congruence.
  - intros c a [Hc|Hc]%elem_of_app Ha; [by eapply (address_chars d Hd)|].
    destruct (new_row_address _ _ Hrows Hc) as (i & sc & Hi & _ & Ha'). rewrite Ha' in Ha. injection Ha as <-.
    by eapply instantiated_chars, list_elem_of_lookup_2.
  - apply (token_unique d Hd).
  - apply (token_ids d Hd).
Qed.
End Instantiate.

(** ** Properties *)
Section Checkpoints.
Context {N : Cw721Node}.

Lemma handle_msgs_base msgs d d' : handle_msgs msgs d = Ok d' → base d' = base d.
Proof.
  unfold handle_msgs. intros ([toks acts] & _ & Hup)%bind_Ok.
  unfold updateTokenAndActivities, insert_activities in Hup. cbv zeta in Hup.
  repeat (case_bool_decide; try done); by injection Hup as <-.
Qed.

Lemma handleInstantiateMsgs_base msgs d d' :
  handleInstantiateMsgs msgs d = Ok d' →
  base d' = base d ∧ cw721_token d' = cw721_token d ∧ cw721_activity d' = cw721_activity d.
Proof.
  unfold handleInstantiateMsgs, insert_contract_rows. intros (rows & _ & Hins)%bind_Ok.
  cbv zeta in Hins. case_bool_decide; [|done]. by injection Hins as <-.
Qed.

#[export] Instance handleJob_frames :
  HandlerFrames (λ startBlock endBlock, query (getCw721ContractEvents startBlock endBlock None None))
    (λ _ _, handle_range).
Proof.
  split; [intros; apply frames_query|]. intros s e w d d'. unfold handle_range, checkpoints_of, Db_checkpoints.
  case_bool_decide; [by intros [= <-]|]. intros (d1 & H1 & H2)%bind_Ok.
  apply handleInstantiateMsgs_base in H1 as [<- _]. by rewrite (handle_msgs_base _ _ _ H2).
Qed.
#[export] Instance handleJob_job cfg : CheckpointJob cfg HANDLE_CW721_TRANSACTION (handleJob cfg).
Proof. apply _. Qed.
End Checkpoints.

(** C10: a run of the CW721 job that returns refines the machine of every token:
    the stored owner and the burned flag of a token of a tracked contract are
    what the mints, transfers and burns of the range make of the old ones; the
    run appends one activity per event of a tracked contract, in order, and a
    transfer or burn is recorded with the owner the token had before it. *)
Theorem cw721_job_correct {N : Cw721Node} cfg d d' s e u :
  let msgs := getCw721ContractEvents s e None None d in
  tables_ok d → instantiations_fresh msgs d → in_order msgs d →
  jobCheckpoint cfg HANDLE_CW721_TRANSACTION (checkpoints_of d) = Ok (s, e, u) → s < e →
  handleJob cfg d = (d', Ok tt) →
  ∃ d1, (msgs ≠ [] → handleInstantiateMsgs
           (filter (λ m, m_action m = Some CW721_ACTION.INSTANTIATE) msgs) d = Ok d1) ∧
    cw721_token d1 = cw721_token d ∧ cw721_contract d' = cw721_contract d1 ∧
    tokens_spec msgs d1 d' ∧
    (∃ acts, cw721_activity d' = cw721_activity d ++ acts ∧ activities_spec msgs d1 acts) ∧
    checkpoints_of d' = saveCheckpoint u e (checkpoints_of d).
Proof.
  intros msgs Hd Hfresh Hord Hj Hse Hrun.
  apply checkpoint_handler_cases in Hrun as [(_ & _ & s' & e' & u' & Hj' & Hs)|
    [(msg & [=] & _)|(s' & e' & u' & w & d0 & d2 & Hj' & _ & Hq & Hw & -> & _)]];
    rewrite Hj in Hj'; injection Hj' as <- <- <-; [simpl in Hs; lia|].
  apply (inj2 pair) in Hq as [<- Hq]. assert (msgs = w) as <- by (unfold msgs; congruence).
  unfold handle_range in Hw. case_bool_decide as Hm.
  - injection Hw as <-. exists d. split; [done|]. split; [done|]. split; [done|]. rewrite Hm. split; [done|].
    split; [|done]. exists []. split; [by rewrite app_nil_r|]. split; [done|]. by intros [|? ?].
  - apply bind_Ok in Hw as (d1 & H1 & H2). pose proof (instantiate_ok msgs d d1 Hd Hfresh H1) as Hd1.
    pose proof (handleInstantiateMsgs_base _ _ _ H1) as (Hb & Ht & Ha).
    destruct (handle_msgs_spec d1 Hd1 msgs) with (d' := d2) as (Htok & Hb2 & Hc2 & acts & Hacts & Hspec); [|done|].
    { destruct Hord as [Hs1 Hs2]. split; [done|]. by rewrite Ht. }
    exists d1. split; [done|]. split; [done|]. split; [done|]. split; [exact Htok|].
    split; [exists acts; rewrite <-Ha; done|]. rewrite checkpoints_set.
    unfold checkpoints_of, Db_checkpoints. by rewrite Hb2, Hb.
Qed.

(** ** Where the job and the reindexing stop *)
Section Stops.
Context {N : Cw721Node}.

Lemma process_one_ids tracked s m s' :
  process_one tracked s m = Ok s' →
  ac_event_id <$> s'.2 = (ac_event_id <$> s.2) ++
    match tracked !! m_contractAddress m with Some _ => [m_event_id m] | None => [] end.
Proof.
  destruct (tracked !! m_contractAddress m) as [c|] eqn:Hc; cycle 1.
  { rewrite process_one_untracked by done. intros [= <-]. by rewrite app_nil_r. }
  unfold process_one, handlerCw721Mint, handlerCw721Transfer, handlerCw721Burn, handleCw721Others. rewrite Hc.
  cbv zeta. repeat case_bool_decide.
  - destruct (match s.1 !! msg_key m with Some (_, t) => _ | None => _ end);
      [intros (t & _ & [= <-])%bind_Ok|intros [= <-]]; simpl; by rewrite fmap_app.
  - intros [= <-]. simpl. by rewrite fmap_app.
  - destruct (s.1 !! msg_key m) as [[o t]|]; [|done]. intros [= <-]. simpl. by rewrite fmap_app.
  - intros [= <-]. simpl. by rewrite fmap_app.
Qed.

Lemma process_ids tracked msgs s s' :
  forEachM (process_one tracked) s msgs = Ok s' →
  ac_event_id <$> s'.2 = (ac_event_id <$> s.2) ++
    (m_event_id <$> filter (λ m, is_Some (tracked !! m_contractAddress m)) msgs).
Proof.
  revert s. induction msgs as [|m msgs IH]; intros s; simpl.
  { intros [= <-]. by rewrite app_nil_r. }
  intros (s1 & H1 & H2)%bind_Ok. rewrite (IH _ H2), (process_one_ids _ _ _ _ H1), filter_cons, <-app_assoc.
  f_equal. destruct (tracked !! m_contractAddress m) eqn:Hc; [by rewrite decide_True by (by eexists)|].
  by rewrite decide_False by (by intros [? ?]).
Qed.

Lemma tracked_exists addrs c a d :
  c ∈ cw721_contract d → cw721_address (base d) c = Some a → cc_track c = true → a ∈ addrs →
  is_Some (getCw721TrackedContracts addrs d !! a).
Proof.
  intros Hc Ha Ht Hin. unfold getCw721TrackedContracts. rewrite lookup_fmap, fmap_is_Some, keyBy_is_Some.
  apply list_elem_of_fmap. exists (a, c). split; [done|]. apply list_elem_of_omap. exists c. split; [done|].
  rewrite Ha. simpl. by rewrite bool_decide_eq_true_2.
Qed.

(** An event of a tracked contract that has an activity already. *)
Definition already_stored (msgs : list Msg) (d : Db) : Prop :=
  ∃ m c a, m ∈ msgs ∧ c ∈ cw721_contract d ∧ cw721_address (base d) c = Some (m_contractAddress m) ∧
    cc_track c = true ∧ a ∈ cw721_activity d ∧ ac_event_id a = m_event_id m.

Lemma handle_msgs_overlap msgs d d' : already_stored msgs d → handle_msgs msgs d ≠ Ok d'.
Proof.
  intros (m & c & a & Hm & Hc & Haddr & Htr & Ha & Heq). unfold handle_msgs, handleCw721MsgExec.
  intros ([toks acts] & ([toks' acts'] & Hp & [= <- <-])%bind_Ok & Hup)%bind_Ok.
  apply process_ids in Hp. simpl in Hp.
  unfold updateTokenAndActivities in Hup. cbv zeta in Hup. case_bool_decide; [|done].
  unfold insert_activities in Hup. case_bool_decide as Hnd; [|done]. clear Hup.
  rewrite fmap_app in Hnd. apply NoDup_app in Hnd as (_ & Hdis & _).
  apply (Hdis (m_event_id m)).
  - rewrite <-Heq. by apply list_elem_of_fmap_2.
  - assert (∀ (b : bool) f, (∀ x, ac_event_id (f x) = ac_event_id x) →
      ac_event_id <$> (if b then acts' else f <$> acts') = ac_event_id <$> acts') as ->; [| |done].
    { intros [] f Hf; [done|]. rewrite <-list_fmap_compose. apply list_fmap_ext. intros i x _. apply Hf. }
    rewrite Hp. apply list_elem_of_fmap_2, list_elem_of_filter. split; [|done].
    eapply tracked_exists; [done..|]. by apply list_elem_of_fmap_2.
Qed.
End Stops.

(** Activities that the reindexing stored ahead of the job stop it: when an
    event of the job's range has an activity already, every run throws and
    changes nothing, since [smart_contract_event_id] is unique. *)
Theorem cw721_overlap_blocks {N : Cw721Node} cfg d s e u :
  jobCheckpoint cfg HANDLE_CW721_TRANSACTION (checkpoints_of d) = Ok (s, e, u) → s < e →
  already_stored (getCw721ContractEvents s e None None d) d →
  ∃ msg, handleJob cfg d = (d, Throw msg).
Proof.
  intros Hj Hse Hst. set (msgs := getCw721ContractEvents s e None None d) in *.
  assert (∃ msg, handle_range msgs d = Throw msg) as [msg Hw].
  { unfold handle_range. rewrite bool_decide_eq_false_2.
    2:{ intros Hm. destruct Hst as (m & ? & ? & Hin & _). rewrite Hm in Hin. by apply elem_of_nil in Hin. }
    destruct (handleInstantiateMsgs _ d) as [d1|msg] eqn:H1; [|by eexists].
    destruct (handle_msgs msgs d1) as [d2|msg] eqn:H2; [exfalso|by exists msg].
    eapply handle_msgs_overlap; [|exact H2].
    destruct Hst as (m & c & a & Hm & Hc & Haddr & Htr & Ha & Heq). exists m, c, a.
    pose proof (handleInstantiateMsgs_base _ _ _ H1) as (-> & _ & ->).
    unfold handleInstantiateMsgs, insert_contract_rows in H1. apply bind_Ok in H1 as (rows & _ & H1).
    cbv zeta in H1. case_bool_decide; [|done]. injection H1 as <-. simpl. rewrite elem_of_app. auto 10. }
  exists msg. eapply checkpoint_handler_fails; [exact Hj|simpl; lia|reflexivity|exact Hw].
Qed.

(** A page of the history that burns a token which is not stored and not
    minted in the page itself (its mint was in an earlier page) throws; the
    history is never completed. *)
Theorem burned_token_stops_history p d pre m post c t :
  tables_ok d →
  getCw721ContractEvents (p_startBlock p) (p_endBlock p) (Some (p_smartContractId p))
    (Some (p_prevId p, limitRecordGet)) d = pre ++ m :: post →
  is_burn m = true → c ∈ cw721_contract d → cw721_address (base d) c = Some (m_contractAddress m) →
  cc_track c = true → tokenId m = Some t → plain t → status d (cc_id c) t = None →
  (∀ m', m' ∈ pre → is_mint m' = true → m_contractAddress m' = m_contractAddress m → tokenId m' ≠ Some t) →
  ∃ msg, crawlMissingContractHistory p d = (d, Throw msg).
Proof.
  intros Hd Hpage Hb Hc Ha Htr Ht Hpl Hst Hpre. set (msgs := pre ++ m :: post) in *.
  assert (m ∈ msgs) as Hm by (unfold msgs; rewrite elem_of_app; right; left).
  destruct (process_burn_throws (getCw721TrackedContracts (m_contractAddress <$> msgs) d)
    (fetchTokens msgs d, []) pre m post Hb) as [msg Hp].
  { eapply tracked_exists; [done..|]. by apply list_elem_of_fmap_2. }
  { unfold msg_key. rewrite Ht. intros [[r Hr]|(m' & Hm' & Hmint & Hab)]; simpl in *.
    - pose proof (fetched d Hd msgs c _ t Hc Ha Hpl) as Hf. unfold dict_view in Hf. rewrite Hr, Hst in Hf.
      by destruct (decide _).
    - assert (m' ∈ msgs) as Hin by (unfold msgs; rewrite elem_of_app; by left).
      assert (m' ∈ filter (about (getCw721TrackedContracts (m_contractAddress <$> msgs) d)
        (token_key (m_contractAddress m) (Some t))) pre) as Hab' by by apply list_elem_of_filter.
      rewrite (about_token_msgs d Hd msgs pre c) in Hab'; [| |done..].
      + apply list_elem_of_filter in Hab' as [[H1 H2] _]. by apply (Hpre m').
      + intros m0 Hm0. unfold msgs. rewrite elem_of_app. by left. }
  exists msg. unfold crawlMissingContractHistory. erewrite io_step by (unfold query; by rewrite Hpage).
  destruct (last msgs) as [m1|] eqn:Hl; cycle 1.
  { apply last_None in Hl. rewrite Hl in Hm. by apply elem_of_nil in Hm. }
  unfold mbind, io_bind, commit, history_page, handleCw721MsgExec, process. fold msgs in Hp. by rewrite Hp.
Qed.

(** ** The history of a token that changed later *)
Section Stale.
Context (tracked : gmap string CW721Contract) (k : string) (o : option Z) (tok : CW721Token).

(** Messages below the last change of a token leave it alone. *)
Lemma process_one_stale s m s' :
  s.1 !! k = Some (o, tok) → m_height m < tk_last_updated_height tok →
  process_one tracked s m = Ok s' → s'.1 !! k = Some (o, tok).
Proof.
  intros Hk Hlt. destruct (tracked !! m_contractAddress m) as [c|] eqn:Hc; cycle 1.
  { rewrite process_one_untracked by done. by intros [= <-]. }
  assert (∀ r, (msg_key m = k → False) → <[msg_key m := r]> s.1 !! k = Some (o, tok)) as Hins.
  { intros r Hne. by rewrite lookup_insert_ne. }
  assert (msg_key m = k → s.1 !! msg_key m = Some (o, tok)) as Hkey by by intros ->.
  unfold process_one, handlerCw721Mint, handlerCw721Transfer, handlerCw721Burn, handleCw721Others.
  rewrite Hc. cbv zeta. repeat case_bool_decide; [| | |by intros [= <-]].
  - destruct (s.1 !! msg_key m) as [[o' t']|] eqn:Ht.
    + destruct (tk_last_updated_height t' <=? m_height m) eqn:Hle; [|by intros [= <-]].
      intros (t & _ & [= <-])%bind_Ok. apply Hins. intros Heq. specialize (Hkey Heq). simplify_eq. lia.
    + intros (t & _ & [= <-])%bind_Ok. apply Hins. intros Heq. specialize (Hkey Heq). done.
  - intros [= <-]. simpl. destruct (s.1 !! msg_key m) as [[o' t']|] eqn:Ht; [|done].
    destruct (tk_last_updated_height t' <=? m_height m) eqn:Hle; [|done].
    apply Hins. intros Heq. specialize (Hkey Heq). simplify_eq. lia.
  - destruct (s.1 !! msg_key m) as [[o' t']|] eqn:Ht; [|done]. intros [= <-]. simpl.
    destruct (tk_last_updated_height t' <=? m_height m) eqn:Hle; [|done].
    apply Hins. intros Heq. specialize (Hkey Heq). simplify_eq. lia.
Qed.

Lemma process_one_acts s m s' : process_one tracked s m = Ok s' → ∃ l, s'.2 = s.2 ++ l.
Proof.
  unfold process_one, handlerCw721Mint, handlerCw721Transfer, handlerCw721Burn, handleCw721Others.
  cbv zeta. destruct (tracked !! m_contractAddress m).
  2:{ repeat case_bool_decide; intros [= <-]; exists []; by rewrite app_nil_r. }
  repeat case_bool_decide.
  - destruct (match s.1 !! msg_key m with Some (_, t) => _ | None => _ end);
      [intros (t & _ & [= <-])%bind_Ok|intros [= <-]]; simpl; eauto.
  - intros [= <-]. simpl. eauto.
  - destruct (s.1 !! msg_key m) as [[o' t']|]; [|done]. intros [= <-]. simpl. eauto.
  - intros [= <-]. simpl. eauto.
Qed.

Lemma process_stale msgs s s' :
  s.1 !! k = Some (o, tok) → (∀ m, m ∈ msgs → m_height m < tk_last_updated_height tok) →
  forEachM (process_one tracked) s msgs = Ok s' →
  (∀ a, a ∈ s.2 → a ∈ s'.2) ∧
  ∀ m, m ∈ msgs → is_transfer m = true → about tracked k m →
    ∃ a, a ∈ s'.2 ∧ ac_event_id a = m_event_id m ∧ ac_from a = tk_owner tok.
Proof.
  revert s. induction msgs as [|m msgs IH]; intros s Hk Hlt; simpl.
  { intros [= <-]. split; [done|]. by intros ? []%not_elem_of_nil. }
  intros (s1 & H1 & H2)%bind_Ok.
  destruct (IH s1) as [Hsub Hin]; [|intros m' ?; apply Hlt; by right|done|].
  { eapply process_one_stale; [exact Hk|apply Hlt; left|exact H1]. }
  split.
  { intros a Ha. apply Hsub. destruct (process_one_acts _ _ _ H1) as [l ->]. rewrite elem_of_app. by left. }
  intros m' [->|Hm']%elem_of_cons Ht [[c Hc] Hkey]; [|by apply Hin].
  unfold process_one in H1. fold (is_mint m) (is_transfer m) in H1. rewrite Ht in H1.
  assert (is_mint m = false) as Hm.
  { unfold is_mint, is_transfer in *. apply bool_decide_eq_true_1 in Ht. apply bool_decide_eq_false_2.
    intros Heq. rewrite Heq in Ht. by destruct Ht. }
  rewrite Hm in H1. unfold handlerCw721Transfer in H1. rewrite Hc, Hkey, Hk in H1. cbv zeta in H1.
  injection H1 as <-. eexists. split; [apply Hsub; simpl; rewrite elem_of_app; right; left|]. by split.
Qed.
End Stale.

(** The history of a token is written with its present owner: when a token
    changed after every event of a page, each transfer of the page is recorded
    as coming from the owner the table holds now, not from the owner before
    the transfer; the tokens stay as they are. *)
Theorem history_from_current_owner p d d' c tok id m :
  let page := getCw721ContractEvents (p_startBlock p) (p_endBlock p) (Some (p_smartContractId p))
    (Some (p_prevId p, limitRecordGet)) d in
  tables_ok d → crawlMissingContractHistory p d = (d', Ok tt) →
  c ∈ cw721_contract d → cc_track c = true → cw721_address (base d) c = Some (m_contractAddress m) →
  cw721_token d !! id = Some tok → token_columns tok = (cc_id c, tk_token_id tok) → plain (tk_token_id tok) →
  m ∈ page → is_transfer m = true → tokenId m = Some (tk_token_id tok) →
  (∀ m', m' ∈ page → m_height m' < tk_last_updated_height tok) →
  cw721_token d' = cw721_token d ∧
  ∃ a, a ∈ cw721_activity d' ∧ ac_event_id a = m_event_id m ∧ ac_from a = tk_owner tok.
Proof.
  intros page Hd Hrun Hc Htr Ha Hid Hcols Hpl Hm Ht Htid Hlt.
  unfold crawlMissingContractHistory in Hrun. rewrite (io_step _ _ d d page) in Hrun by done.
  destruct (last page) as [e|] eqn:Hl; cycle 1.
  { apply last_None in Hl. rewrite Hl in Hm. by apply elem_of_nil in Hm. }
  apply io_bind_Ok in Hrun as (d1 & [] & Hpage & Hrun). unfold update in Hrun. injection Hrun as <-. simpl.
  unfold commit in Hpage. destruct (history_page p page d) as [d2|] eqn:Hh; [|done]. injection Hpage as ->.
  unfold history_page, handleCw721MsgExec in Hh.
  apply bind_Ok in Hh as ([vals acts] & ([toks acts'] & Hp & [= <- <-])%bind_Ok & Hh).
  assert (∃ o, fetchTokens page d !! token_key (m_contractAddress m) (Some (tk_token_id tok)) = Some (o, tok)) as [o Hk].
  { pose proof (fetched d Hd page c _ _ Hc Ha Hpl) as Hf. rewrite decide_True in Hf.
    2:{ apply list_elem_of_fmap. exists m. by rewrite Htid. }
    rewrite (status_row d _ _ id tok (token_unique d Hd) Hid Hcols) in Hf. unfold dict_view in Hf.
    destruct (fetchTokens page d !! _) as [[o tok']|] eqn:Hk; [|done]. exists o. do 2 f_equal.
    apply fetchTokens_row in Hk as (id' & c' & a' & _ & Hid' & Hc' & Hcid & Ha' & Heq & _). simpl in *.
    apply key2_inj in Heq as [<- Heq]; [|by eapply (address_chars d Hd c)|by eapply (address_chars d Hd c')].
    simpl in Heq. rewrite (contract_addresses d Hd c' c (m_contractAddress m)) in Hcid by done.
    assert (id' = id) as ->; [|congruence]. eapply (token_unique d Hd); [done..|].
    rewrite Hcols. unfold token_columns. congruence. }
  destruct (process_stale _ _ o tok page (fetchTokens page d, []) (toks, acts') Hk Hlt Hp) as [_ Hact].
  destruct (Hact m Hm Ht) as (a & Hin & Hev & Hfrom).
  { split; [|unfold msg_key; by rewrite Htid]. eapply tracked_exists; [done..|]. by apply list_elem_of_fmap_2. }
  simpl in Hin. rewrite bool_decide_eq_false_2 in Hh by (intros ->; by apply elem_of_nil in Hin).
  unfold insert_activities in Hh. cbv zeta in Hh. case_bool_decide; [|done]. injection Hh as <-. split; [done|].
  eexists. simpl. rewrite elem_of_app. split; [right; by apply list_elem_of_fmap_2|]. by split.
Qed.

(** ** Concrete runs: token 7 is minted to a, sent to b and burned *)
Definition demo_node721 : Cw721Node := {|
  query_info := λ _, Ok (Some {| ci_symbol := Some "NFT"; ci_name := Some "nft" |});
  query_minter := λ _, Ok (Some "aura1m");
  query_all_tokens := λ _ _, Ok [];
  query_owner_of := λ _ _, Ok (None, 0) |}.

Definition demo_tx (id height : Z) : Transaction :=
  {| t_id := id; t_hash := "H"; t_height := height; t_code := 0 |}.
Definition demo_ev (id height : Z) : Event := {|
  e_id := id; e_tx_id := Some id; e_type := WASM; e_block_height := height; e_attributes := [] |}.
Definition demo_sce (id : Z) (act : string) (attrs : list attribute) : SmartContractEvent := {|
  se_id := id; se_smart_contract_id := 1; se_action := Some act; se_event_id := id; se_index := 0;
  se_tx_id := id; se_attributes := Attribute "token_id" (Some "7") :: attrs |}.

Definition demo_base : Contracts.Db := {|
  transaction := [demo_tx 1 4860001; demo_tx 2 4860002; demo_tx 3 4860003];
  event := [demo_ev 1 4860001; demo_ev 2 4860002; demo_ev 3 4860003];
  code := {[ 3 := {| c_creator := "aura1creator"; c_data_hash := "cd"; c_instantiate_permission := "{}";
    c_type := Some "CW721"; c_status := None; c_store_hash := ""; c_store_height := 0 |} ]};
  code_id_verification := [];
  smart_contract := [{| sc_id := 1; sc_name := Some "crates.io:cw721-base"; sc_address := "aura1n";
    sc_creator := "aura1creator"; sc_code_id := 3; sc_status := LATEST; sc_label := None;
    sc_instantiate_hash := "H0"; sc_instantiate_height := 4850000; sc_version := None |}];
  Contracts.next_contract_id := 2;
  smart_contract_event := [
    demo_sce 1 "mint" [Attribute "minter" (Some "m"); Attribute "owner" (Some "a")];
    demo_sce 2 "transfer_nft" [Attribute "sender" (Some "a"); Attribute "recipient" (Some "b")];
    demo_sce 3 "burn" [Attribute "sender" (Some "b")]];
  next_contract_event_id := 4;
  block_checkpoint := {[ "crawl:contract-event" := 4860010; "handle:cw721-tx" := 4860000 ]} |}.

Definition demo_contract721 : CW721Contract := {|
  cc_id := 1; cc_contract_id := 1; cc_symbol := None; cc_minter := None; cc_name := None; cc_track := true |}.
Definition demo_db721 : Db := {|
  base := demo_base; cw721_contract := [demo_contract721]; next_contract_id := 2;
  cw721_token := ∅; next_token_id := 1; cw721_activity := []; reindex_history := [] |}.

Definition demo_msg (id : Z) (act : string) (attrs : list attribute) : Msg := {|
  m_contractAddress := "aura1n"; m_action := Some act; m_event_id := id; m_hash := "H";
  m_height := 4860000 + id; m_attributes := Attribute "token_id" (Some "7") :: attrs |}.
Definition demo_msgs : list Msg := [
  demo_msg 1 "mint" [Attribute "minter" (Some "m"); Attribute "owner" (Some "a")];
  demo_msg 2 "transfer_nft" [Attribute "sender" (Some "a"); Attribute "recipient" (Some "b")];
  demo_msg 3 "burn" [Attribute "sender" (Some "b")]].

Lemma demo_range721 : getCw721ContractEvents 4860000 4860010 None None demo_db721 = demo_msgs.
Proof. vm_compute. reflexivity. Qed.

Lemma demo_tables721_ok toks next acts q :
  (∀ id t, toks !! id = Some t → id = 1 ∧ 1 < next) →
  tables_ok {| base := demo_base; cw721_contract := [demo_contract721]; next_contract_id := 2;
    cw721_token := toks; next_token_id := next; cw721_activity := acts; reindex_history := q |}.
Proof.
  intros Htoks. split; simpl.
  - repeat constructor; set_solver.
  - repeat constructor; simpl; lia.
  - intros c1 c2 a H1 H2. by rewrite list_elem_of_singleton in H1, H2; subst.
  - intros c a ->%list_elem_of_singleton. intros [= <-]. reflexivity.
  - intros id1 t1 id2 t2 [-> _]%Htoks [-> _]%Htoks. done.
  - intros id [t [-> ?]%Htoks]. lia.
Qed.

Lemma demo_in_order d : cw721_token d = ∅ → in_order demo_msgs d.
Proof.
  intros He. split; [repeat constructor; simpl; lia|]. intros m id tok _. by rewrite He.
Qed.

Definition demo_run721 : Db * res () := handleJob (N := demo_node721) Config.json demo_db721.

Lemma cw721_job_correct_witness :
  status demo_run721.1 1 "7" = Some (Some "b", true) ∧
  ∃ d1, tokens_spec demo_msgs d1 demo_run721.1 ∧
    ∃ acts, cw721_activity demo_run721.1 = acts ∧ activities_spec demo_msgs d1 acts.
Proof.
  split; [vm_compute; reflexivity|].
  destruct (cw721_job_correct (N := demo_node721) Config.json demo_db721 demo_run721.1 4860000 4860010
    {| job_name := "handle:cw721-tx"; height := 4860000 |})
    as (d1 & _ & _ & _ & Htok & (acts & Hacts & Hspec) & _); rewrite ?demo_range721.
  - by apply demo_tables721_ok.
  - split; [repeat constructor; set_solver|vm_compute; constructor|intros c c' Hc|intros c Hc];
      by vm_compute in Hc; apply elem_of_nil in Hc.
  - by apply demo_in_order.
  - vm_compute; reflexivity.
  - lia.
  - vm_compute; reflexivity.
  - rewrite demo_range721 in Htok, Hspec. exists d1. split; [exact Htok|]. exists acts. split; [exact Hacts|exact Hspec].
Defined.

(** The reindexing stored the activity of event 2 before the job came to it. *)
Definition demo_overlap : Db :=
  set_activity [activity (demo_msg 2 "transfer_nft" []) demo_contract721 None None (Some "b")] demo_db721.

Lemma cw721_overlap_blocks_witness :
  already_stored demo_msgs demo_overlap ∧
  ∃ msg, handleJob (N := demo_node721) Config.json demo_overlap = (demo_overlap, Throw msg).
Proof.
  assert (already_stored demo_msgs demo_overlap) as Hst.
  { exists (demo_msg 2 "transfer_nft" [Attribute "sender" (Some "a"); Attribute "recipient" (Some "b")]), demo_contract721,
      (activity (demo_msg 2 "transfer_nft" []) demo_contract721 None None (Some "b")).
    split; [right; left|]. split; [left|]. split; [vm_compute; reflexivity|]. split; [reflexivity|].
    split; [left|reflexivity]. }
  split; [exact Hst|].
  eapply (cw721_overlap_blocks (N := demo_node721) Config.json demo_overlap 4860000 4860010);
    [vm_compute; reflexivity|lia|].
  assert (getCw721ContractEvents 4860000 4860010 None None demo_overlap = demo_msgs) as -> by (vm_compute; reflexivity).
  exact Hst.
Defined.

(** A page that starts after the mint. *)
Definition demo_params (prevId : Z) : ICw721ReindexingHistoryParams := {|
  p_smartContractId := 1; p_startBlock := 4860000; p_endBlock := 4860010; p_prevId := prevId;
  p_contractAddress := "aura1n" |}.

Lemma burned_token_stops_history_witness :
  ∃ msg, crawlMissingContractHistory (demo_params 2) demo_db721 = (demo_db721, Throw msg).
Proof.
  eapply (burned_token_stops_history (demo_params 2) demo_db721 []
    (demo_msg 3 "burn" [Attribute "sender" (Some "b")]) [] demo_contract721 "7").
  - by apply demo_tables721_ok.
  - vm_compute; reflexivity.
  - reflexivity.
  - left.
  - vm_compute; reflexivity.
  - reflexivity.
  - reflexivity.
  - split; discriminate.
  - vm_compute; reflexivity.
  - intros m' Hm'. by apply elem_of_nil in Hm'.
Defined.

(** The token is with c now, since height 4860009. *)
Definition demo_token : CW721Token := {|
  tk_token_id := "7"; tk_media_info := None; tk_owner := Some "c"; tk_contract_id := 1;
  tk_last_updated_height := 4860009; tk_burned := false |}.
Definition demo_reindexed : Db := set_token {[ 1 := demo_token ]} 2 demo_db721.

Lemma demo_page :
  getCw721ContractEvents (p_startBlock (demo_params 0)) (p_endBlock (demo_params 0))
    (Some (p_smartContractId (demo_params 0))) (Some (p_prevId (demo_params 0), limitRecordGet)) demo_reindexed
  = demo_msgs.
Proof. vm_compute. reflexivity. Qed.

Lemma history_from_current_owner_witness :
  ∃ a, a ∈ cw721_activity (crawlMissingContractHistory (demo_params 0) demo_reindexed).1 ∧
    ac_event_id a = 2 ∧ ac_from a = Some "c".
Proof.
  destruct (history_from_current_owner (demo_params 0) demo_reindexed
    (crawlMissingContractHistory (demo_params 0) demo_reindexed).1 demo_contract721 demo_token 1
    (demo_msg 2 "transfer_nft" [Attribute "sender" (Some "a"); Attribute "recipient" (Some "b")]))
    as [_ Ha].
  - apply demo_tables721_ok. intros id t Ht. apply lookup_singleton_Some in Ht as [<- _]. split; [done|lia].
  - vm_compute; reflexivity.
  - left.
  - reflexivity.
  - vm_compute; reflexivity.
  - reflexivity.
  - reflexivity.
  - split; discriminate.
  - rewrite demo_page. right. left.
  - reflexivity.
  - reflexivity.
  - rewrite demo_page.
    intros m' Hm'. repeat (apply elem_of_cons in Hm' as [->|Hm']; [simpl; lia|]). by apply elem_of_nil in Hm'.
  - exact Ha.
Defined.
