(* ===== verification/Cw721Stats.v ===== *)
(** * Statistics of CW721 contracts

    [refreshCw721Stats] of [services/cw721/cw721.service.ts]: one query over
    cw721_contract, smart_contract and cw721_activity. *)
From S2P Require Import Prelude.

(** A row of cw721_contract with the name of its smart contract. *)
Record Contract := { c_id : Z; c_track : bool; c_name : option string }.
Record Activity := { a_contract : Z; a_action : option string; a_height : Z }.
Record Db := {
  contracts : list Contract; activities : list Activity;
  blocks : list (Z * Z);                             (* height, time *)
  stats : gmap Z (Z * Z)                             (* by contract: total_activity, transfer_24h *)
}.
Definition set_stats (s : gmap Z (Z * Z)) (d : Db) : Db := {|
  contracts := contracts d; activities := activities d; blocks := blocks d; stats := s |}.

Definition day_ms : Z := 86400000.
(** [WHERE time <= now() - '24 hours' ORDER BY height DESC LIMIT 1] *)
Definition blockSince24hAgo (now : Z) (d : Db) : option Z :=
  head (rev (sortBy id (fst <$> filter (λ b, b.2 <= now - day_ms) (blocks d)))).
(** A comparison with null is not true. *)
Definition differs (o : option string) (s : string) : bool := from_option (λ x, negb (bool_decide (x = s))) false o.
Definition counted (c : Contract) : bool := c_track c && differs (c_name c) "crates.io:cw4973".
Definition activities_of (c : Contract) (d : Db) : list Activity :=
  filter (λ a, a_contract a = c_id c ∧ differs (a_action a) "" = true) (activities d).
Definition is_transfer (h : Z) (a : Activity) : bool :=
  bool_decide (h <= a_height a) && bool_decide (a_action a ∈ Some <$> ["mint"; "burn"; "send_nft"; "transfer_nft"]).
Definition transfers_since (h : Z) (l : list Activity) : Z := Z.of_nat (length (filter (λ a, is_transfer h a = true) l)).
Record Cw721Stats := { cs_cw721_contract_id : Z; cs_total_activity : Z; cs_transfer_24h : Z }.
Definition calCw721Stats (now : Z) (d : Db) : res (list Cw721Stats) :=
  match blockSince24hAgo now d with
  | None => Throw "Undefined binding(s) detected when compiling RAW"
  | Some h =>
      Ok ((λ c, {| cs_cw721_contract_id := c_id c; cs_total_activity := Z.of_nat (length (activities_of c d));
                   cs_transfer_24h := transfers_since h (activities_of c d) |})
            <$> filter (λ c, counted c = true ∧ activities_of c d ≠ []) (contracts d))
  end.
Definition refreshCw721Stats (now : Z) : io Db () :=
  answer ← query (calCw721Stats now);
  cw721Stats ← lift answer;
  update (λ d, set_stats (foldl (λ s r, <[cs_cw721_contract_id r := (cs_total_activity r, cs_transfer_24h r)]> s) (stats d) cw721Stats) d).

(** The block is the highest one that is a day old. *)
Theorem block_a_day_ago now d h :
  blockSince24hAgo now d = Some h ↔
    (∃ t, (h, t) ∈ blocks d ∧ t <= now - day_ms) ∧ (∀ h' t, (h', t) ∈ blocks d → t <= now - day_ms → h' <= h).
Proof.
  unfold blockSince24hAgo. set (l := fst <$> filter (λ b, b.2 <= now - day_ms) (blocks d)).
  assert (∀ x, x ∈ l ↔ ∃ t, (x, t) ∈ blocks d ∧ t <= now - day_ms) as Hl.
  { intros x. unfold l. rewrite list_elem_of_fmap. split.
    - intros ([y t] & -> & [Ht Hin]%list_elem_of_filter). by exists t.
    - intros (t & Hin & Ht). exists (x, t). split; [done|]. by apply list_elem_of_filter. }
  assert (head (rev (sortBy id l)) = Some h ↔ h ∈ l ∧ ∀ x, x ∈ l → x <= h) as ->.
  { assert (∀ x, x ∈ sortBy id l ↔ x ∈ l) as Hp by (intros x; by rewrite sortBy_perm).
    pose proof (sortBy_sorted id l) as Hs%Sorted_StronglySorted; [|intros ? ? ?; lia].
    setoid_rewrite <-Hp. revert Hs. generalize (sortBy id l). intros m Hs.
    destruct m as [|y m _] using rev_ind; [split; [done|by intros [?%not_elem_of_nil _]]|].
    rewrite rev_app_distr. cbn [rev app head]. apply StronglySorted_app in Hs as (Hc & _ & _). split.
    - intros [= ->]. split; [set_solver|]. intros x [Hx|Hx]%elem_of_app; [apply (Hc x h Hx); set_solver|set_solver].
    - intros [Hin Hmax]. f_equal. apply elem_of_app in Hin as [Hin|Hin]; [|set_solver].
      assert (h <= y) by (apply (Hc h y Hin); set_solver). assert (y <= h) by (apply Hmax; set_solver). lia. }
  rewrite Hl. split; intros [H1 H2]; (split; [done|]).
  - intros h' t Hin Ht. apply H2, Hl. by exists t.
  - intros x (t & Hin & Ht)%Hl. by apply (H2 x t).
Qed.

(** The rows the refresh writes. *)
Lemma refresh_run now d h :
  NoDup (c_id <$> contracts d) → blockSince24hAgo now d = Some h →
  ∃ d', refreshCw721Stats now d = (d', Ok tt) ∧ contracts d' = contracts d ∧ activities d' = activities d ∧ blocks d' = blocks d ∧
    (∀ c, c ∈ contracts d → counted c = true → activities_of c d ≠ [] →
       stats d' !! c_id c = Some (Z.of_nat (length (activities_of c d)), transfers_since h (activities_of c d))) ∧
    (∀ i, (∀ c, c ∈ contracts d → c_id c = i → counted c = false ∨ activities_of c d = []) → stats d' !! i = stats d !! i).
Proof.
  intros Hnd Hh. eexists. split.
  { unfold refreshCw721Stats. rewrite bind_query. unfold calCw721Stats. rewrite Hh. by erewrite io_step by done. }
  split; [done|]. split; [done|]. split; [done|]. cbn [stats set_stats]. set (f := λ c, _ : Cw721Stats). set (rows := filter _ (contracts d)).
  assert (NoDup (cs_cw721_contract_id <$> (f <$> rows))) as Hids.
  { rewrite <-list_fmap_compose. eapply sublist_NoDup; [exact Hnd|]. apply (fmap_sublist c_id), sublist_filter. }
  destruct (foldl_upsert_lookup cs_cw721_contract_id (λ _ r, (cs_total_activity r, cs_transfer_24h r)) (f <$> rows) (stats d) Hids)
    as [Hnew Hold].
  split; [intros c Hc Ht Ha|intros i Hi].
  - apply (Hnew (f c)), list_elem_of_fmap_2, list_elem_of_filter. done.
  - apply Hold. intros (x & -> & (c & -> & [[Ht Ha] Hc]%list_elem_of_filter)%list_elem_of_fmap)%list_elem_of_fmap.
    destruct (Hi c Hc eq_refl); congruence.
Qed.

(** [name != 'crates.io:cw4973'] is not true of null: a contract without a name
    never gets statistics. *)
Theorem unnamed_contract_skipped now d c :
  NoDup (c_id <$> contracts d) → c ∈ contracts d → c_name c = None →
  stats (refreshCw721Stats now d).1 !! c_id c = stats d !! c_id c.
Proof.
  intros Hnd Hc Hn. destruct (blockSince24hAgo now d) as [h|] eqn:Hh.
  - destruct (refresh_run now d h Hnd Hh) as (d' & Hrun & _ & _ & _ & _ & Hold). rewrite Hrun. apply Hold.
    intros c' Hc' Hid. left. assert (c' = c) as -> by (by apply (NoDup_fmap_key c_id (contracts d))).
    unfold counted, differs. rewrite Hn. by rewrite andb_false_r.
  - unfold refreshCw721Stats. rewrite bind_query. unfold calCw721Stats. by rewrite Hh.
Qed.

(** Without a block that is a day old the height is undefined and the refresh
    throws. *)
Lemma young_run now d :
  (∀ b, b ∈ blocks d → now - day_ms < b.2) → ∃ msg, refreshCw721Stats now d = (d, Throw msg).
Proof.
  intros Hb. assert (blockSince24hAgo now d = None) as Hn.
  { destruct (blockSince24hAgo now d) as [h|] eqn:Hh; [|done]. apply block_a_day_ago in Hh as [(t & Hin & Ht) _].
    specialize (Hb _ Hin). cbn in Hb. lia. }
  eexists. unfold refreshCw721Stats. rewrite bind_query. unfold calCw721Stats. rewrite Hn. reflexivity.
Qed.

(** The activities of a contract: those with an action. *)
Definition acts (c : Contract) (d : Db) : list Activity :=
  filter (λ a, a_contract a = c_id c ∧ a_action a ≠ None ∧ a_action a ≠ Some "") (activities d).

Lemma differs_iff o s : differs o s = true ↔ o ≠ None ∧ o ≠ Some s.
Proof. destruct o as [x|]; cbn; [|naive_solver]. case_bool_decide; naive_solver. Qed.

Lemma activities_of_acts c d : activities_of c d = acts c d.
Proof. apply list_filter_iff. intros a. by rewrite differs_iff. Qed.

(** C38: With a block that is at least a day old, the refresh succeeds and
    changes statistics only: a contract that is tracked, has a name other than
    that of a soulbound contract and has activities with an action gets their
    number and the number of its mints, burns and transfers since the highest
    block that is a day old; every other contract, one without a name among
    them, keeps what it had.  Without such a block the refresh throws and
    changes nothing. *)
Theorem cw721_stats_refreshed now d :
  NoDup (c_id <$> contracts d) →
  (∀ h t, (h, t) ∈ blocks d → t <= now - day_ms → (∀ h' t', (h', t') ∈ blocks d → t' <= now - day_ms → h' <= h) →
    ∃ d', refreshCw721Stats now d = (d', Ok tt) ∧
      contracts d' = contracts d ∧ activities d' = activities d ∧ blocks d' = blocks d ∧
      (∀ c, c ∈ contracts d →
        c_track c = true ∧ c_name c ≠ None ∧ c_name c ≠ Some "crates.io:cw4973" ∧ acts c d ≠ [] →
        stats d' !! c_id c = Some (Z.of_nat (length (acts c d)),
          Z.of_nat (length (filter (λ a, h <= a_height a ∧
            a_action a ∈ [Some "mint"; Some "burn"; Some "send_nft"; Some "transfer_nft"]) (acts c d))))) ∧
      (∀ c, c ∈ contracts d →
        ¬ (c_track c = true ∧ c_name c ≠ None ∧ c_name c ≠ Some "crates.io:cw4973" ∧ acts c d ≠ []) →
        stats d' !! c_id c = stats d !! c_id c) ∧
      (∀ i, i ∉ c_id <$> contracts d → stats d' !! i = stats d !! i)) ∧
  ((∀ h t, (h, t) ∈ blocks d → now - day_ms < t) → ∃ msg, refreshCw721Stats now d = (d, Throw msg)).
Proof.
  intros Hnd. split; [|intros Hb; apply young_run; intros [h t] Hin; by apply (Hb h t)].
  intros h t Hin Ht Hmax. assert (blockSince24hAgo now d = Some h) as Hh by (apply block_a_day_ago; split; [by exists t|done]).
  destruct (refresh_run now d h Hnd Hh) as (d' & Hrun & Hc & Ha & Hb & Hnew & Hold).
  exists d'. split_and!; [done..| | |].
  - intros c Hin' (Htr & Hn1 & Hn2 & Hacts). rewrite <-activities_of_acts in Hacts |- *. rewrite Hnew; [|done| |done].
    + unfold transfers_since. do 3 f_equal. apply (f_equal length), list_filter_iff. intros a. unfold is_transfer.
      by rewrite andb_true_iff, !bool_decide_eq_true.
    + unfold counted. rewrite Htr. by apply differs_iff.
  - intros c Hin' Hno. apply Hold. intros c' Hc' Hid. assert (c' = c) as -> by (by apply (NoDup_fmap_key c_id (contracts d))).
    rewrite activities_of_acts. destruct (decide (acts c d = [])) as [|Hne]; [by right|]. left.
    destruct (counted c) eqn:Hcount; [|done]. exfalso. apply Hno. apply andb_true_iff in Hcount as [? ?%differs_iff]. tauto.
  - intros i Hi. apply Hold. intros c Hc' <-. exfalso. apply Hi. by apply list_elem_of_fmap_2.
Qed.

Definition demo_db : Db := {|
  contracts := [ {| c_id := 1; c_track := true; c_name := Some "cw721" |}; {| c_id := 2; c_track := true; c_name := Some "crates.io:cw4973" |};
                 {| c_id := 3; c_track := true; c_name := None |} ];
  activities := [ {| a_contract := 1; a_action := Some "mint"; a_height := 5 |}; {| a_contract := 1; a_action := Some "transfer_nft"; a_height := 10 |};
                  {| a_contract := 1; a_action := Some "approve"; a_height := 11 |}; {| a_contract := 1; a_action := None; a_height := 11 |};
                  {| a_contract := 2; a_action := Some "mint"; a_height := 5 |}; {| a_contract := 3; a_action := Some "mint"; a_height := 5 |} ];
  blocks := [(5, 0); (9, 1000); (11, day_ms)]; stats := ∅ |}.
Example demo_refresh : let d := (refreshCw721Stats (day_ms + 2000) demo_db).1 in
  (stats d !! 1, stats d !! 2, stats d !! 3) = (Some (3, 1), None, None).
Proof. vm_compute. reflexivity. Qed.

Lemma cw721_stats_refreshed_witness :
  ∃ d', refreshCw721Stats (day_ms + 2000) demo_db = (d', Ok tt) ∧ stats d' !! 1 = Some (3, 1) ∧ stats d' !! 3 = None.
Proof.
  destruct (cw721_stats_refreshed (day_ms + 2000) demo_db) as [Hold _]; [apply (bool_decide_unpack _); by vm_compute|].
  destruct (Hold 9 1000) as (d' & Hrun & _ & _ & _ & Hnew & Hsame & _).
  - apply (bool_decide_unpack _). by vm_compute.
  - by vm_compute.
  - intros h' t'. cbn [blocks demo_db]. rewrite !elem_of_cons, elem_of_nil. unfold day_ms. intros [[= -> ->]|[[= -> ->]|[[= -> ->]|[]]]]; lia.
  - exists d'. split; [exact Hrun|]. split.
    + etransitivity; [apply (Hnew {| c_id := 1; c_track := true; c_name := Some "cw721" |}); [by left|]|by vm_compute].
      by apply (bool_decide_unpack _); vm_compute.
    + apply (Hsame {| c_id := 3; c_track := true; c_name := None |}); [right; right; left|naive_solver].
Defined.
