(* ===== verification/Cw20.v ===== *)
(** * CW20 tokens

    [services/cw20/cw20.service.ts], [cw20_update_by_contract.service.ts] and
    [cw20_reindexing.service.ts] with [models/cw20_contract.ts]: the contract
    events of CW20 contracts become activities; a second job per contract moves
    the balances of the holders.  The tables of contracts and contract events
    are those of Contracts.v.

    The theorems: the update of the balances conserves the supply and is a
    ledger; the rows of a run; what stops the job, and which balances are
    lost. *)
From S2P Require Import Prelude JsNum Checkpoint Contracts ContractEvents.

Module CW20_ACTION.
Definition MINT := "mint".
Definition BURN := "burn".
Definition TRANSFER := "transfer".
Definition INSTANTIATE := "instantiate".
Definition SEND := "send".
Definition TRANSFER_FROM := "transfer_from".
Definition BURN_FROM := "burn_from".
Definition SEND_FROM := "send_from".
End CW20_ACTION.

(** ** Data *)
Record Cw20Contract := {
  cw_id : Z;
  cw_smart_contract_id : Z;
  cw_symbol : option string;
  cw_minter : option string;
  cw_marketing_info : option string;
  cw_name : option string;
  cw_decimal : option string;
  cw_total_supply : Z;
  cw_track : bool;
  cw_last_updated_height : Z
}.

Record CW20Holder := { ho_amount : Z; ho_last_updated_height : Z }.

Record Cw20Activity := {
  ca_id : Z;
  ca_smart_contract_event_id : Z;
  ca_sender : option string;
  ca_action : option string;
  ca_cw20_contract_id : Z;
  ca_amount : option Z;
  ca_from : option string;
  ca_to : option string;
  ca_height : Z;
  ca_tx_hash : string;
  ca_tx_id : Z
}.

Record CW20TotalHolderStats := { st_date : Z; st_cw20_contract_id : Z; st_total_holder : Z }.

Record ICw20UpdateByContractParam := { up_cw20ContractId : Z; up_startBlock : Z; up_endBlock : Z }.

Record ICw20ReindexingHistoryParams := {
  rh_smartContractId : Z;
  rh_startBlock : Z;
  rh_endBlock : Z;
  rh_prevId : Z;
  rh_contractAddress : string
}.

(** [block] gives the time of a height; [tx_msg_index] is that column of
    [event], and [transaction_message] gives the sender of a message by
    transaction and index; holders are unique per contract and address.
    [update_jobs] and [reindex_history] are the jobs that wait. *)
Record Db := {
  base : Contracts.Db;
  block : gmap Z Z;
  tx_msg_index : gmap Z Z;
  transaction_message : gmap (Z * Z) string;
  cw20_contract : list Cw20Contract;
  next_cw20_contract_id : Z;
  cw20_holder : gmap (Z * string) CW20Holder;
  cw20_activity : list Cw20Activity;
  next_activity_id : Z;
  cw20_total_holder_stats : list CW20TotalHolderStats;
  update_jobs : list ICw20UpdateByContractParam;
  reindex_history : list ICw20ReindexingHistoryParams
}.
Definition set_base b d := {|
  base := b; block := block d; tx_msg_index := tx_msg_index d;
  transaction_message := transaction_message d; cw20_contract := cw20_contract d;
  next_cw20_contract_id := next_cw20_contract_id d; cw20_holder := cw20_holder d;
  cw20_activity := cw20_activity d; next_activity_id := next_activity_id d;
  cw20_total_holder_stats := cw20_total_holder_stats d; update_jobs := update_jobs d;
  reindex_history := reindex_history d |}.
Definition set_contract c n h d := {|
  base := base d; block := block d; tx_msg_index := tx_msg_index d;
  transaction_message := transaction_message d; cw20_contract := c;
  next_cw20_contract_id := n; cw20_holder := h;
  cw20_activity := cw20_activity d; next_activity_id := next_activity_id d;
  cw20_total_holder_stats := cw20_total_holder_stats d; update_jobs := update_jobs d;
  reindex_history := reindex_history d |}.
Definition set_activity a n d := {|
  base := base d; block := block d; tx_msg_index := tx_msg_index d;
  transaction_message := transaction_message d; cw20_contract := cw20_contract d;
  next_cw20_contract_id := next_cw20_contract_id d; cw20_holder := cw20_holder d;
  cw20_activity := a; next_activity_id := n;
  cw20_total_holder_stats := cw20_total_holder_stats d; update_jobs := update_jobs d;
  reindex_history := reindex_history d |}.
Definition set_stats s d := {|
  base := base d; block := block d; tx_msg_index := tx_msg_index d;
  transaction_message := transaction_message d; cw20_contract := cw20_contract d;
  next_cw20_contract_id := next_cw20_contract_id d; cw20_holder := cw20_holder d;
  cw20_activity := cw20_activity d; next_activity_id := next_activity_id d;
  cw20_total_holder_stats := s; update_jobs := update_jobs d; reindex_history := reindex_history d |}.
Definition set_jobs u r d := {|
  base := base d; block := block d; tx_msg_index := tx_msg_index d;
  transaction_message := transaction_message d; cw20_contract := cw20_contract d;
  next_cw20_contract_id := next_cw20_contract_id d; cw20_holder := cw20_holder d;
  cw20_activity := cw20_activity d; next_activity_id := next_activity_id d;
  cw20_total_holder_stats := cw20_total_holder_stats d; update_jobs := u; reindex_history := r |}.
#[export] Instance Db_checkpoints : HasCheckpoints Db := λ d, checkpoints_of (base d).
#[export] Program Instance Db_set_checkpoints : SetCheckpoints Db := {|
  set_checkpoints c d := set_base (set_checkpoints c (base d)) d |}.
Next Obligation. done. Qed.

(** ** Balances of a contract ([cw20_update_by_contract.service.ts]) *)
Definition is_base_action (a : Cw20Activity) : bool :=
  match ca_action a with
  | Some s => bool_decide (s ∈ [CW20_ACTION.MINT; CW20_ACTION.BURN; CW20_ACTION.TRANSFER; CW20_ACTION.SEND;
                                CW20_ACTION.TRANSFER_FROM; CW20_ACTION.BURN_FROM; CW20_ACTION.SEND_FROM])
  | None => false
  end.

(** [_.orderBy(cw20Events.filter(...), ['id'], ['asc'])] *)
Definition orderEvents (cw20Events : list Cw20Activity) : list Cw20Activity :=
  sortBy ca_id (filter (λ a, is_base_action a = true) cw20Events).

(** An address that is not empty. *)
Definition party (o : option string) : option string :=
  match o with Some s => if bool_decide (s = "") then None else Some s | None => None end.

Definition parties (events : list Cw20Activity) : list string :=
  events ≫= λ a, option_list (party (ca_from a)) ++ option_list (party (ca_to a)).

Abbreviation holders := (gmap string CW20Holder).

(** The sender of an event must be a holder; an event below the holder's
    height is skipped. *)
Definition from_half (a : Cw20Activity) (amount : Z) (s : holders * Z) : res (holders * Z) :=
  match party (ca_from a) with
  | None => Ok s
  | Some from =>
      match s.1 !! from with
      | None => Throw "TypeError: Cannot read properties of undefined (reading 'last_updated_height')"
      | Some h =>
          Ok (if ho_last_updated_height h <=? ca_height a then
                (<[from := {| ho_amount := ho_amount h - amount; ho_last_updated_height := ca_height a |}]> s.1,
                 s.2 - amount)
              else s)
      end
  end.

Definition to_half (a : Cw20Activity) (amount : Z) (s : holders * Z) : holders * Z :=
  match party (ca_to a) with
  | None => s
  | Some to =>
      let h := s.1 !! to in
      if match h with Some h => ho_last_updated_height h | None => 0 end <=? ca_height a then
        (<[to := {| ho_amount := match h with Some h => ho_amount h | None => 0 end + amount;
                    ho_last_updated_height := ca_height a |}]> s.1, s.2 + amount)
      else s
  end.

Definition handle_event (s : holders * Z) (a : Cw20Activity) : res (holders * Z) :=
  match ca_amount a with
  | None => Throw "handle event not found amount"
  | Some amount => s ← from_half a amount s; Ok (to_half a amount s)
  end.

(** The holders in the table among the parties of the events, by address. *)
Definition fetchHolders (contract : Z) (events : list Cw20Activity) (d : Db) : holders :=
  list_to_map (omap (λ a, pair a <$> cw20_holder d !! (contract, a)) (parties events)).

(** [.onConflict(['cw20_contract_id', 'address']).merge()] *)
Definition upsert_holders (contract : Z) (h : holders) (tbl : gmap (Z * string) CW20Holder)
  : gmap (Z * string) CW20Holder :=
  map_fold (λ address holder tbl, <[(contract, address) := holder]> tbl) tbl h.

Definition updateBalanceHolders (cw20Events : list Cw20Activity) (contract : Z) (d : Db)
  : res (gmap (Z * string) CW20Holder * Z) :=
  let events := orderEvents cw20Events in
  '(h, addAmount) ← forEachM handle_event (fetchHolders contract events d, 0) events;
  Ok (upsert_holders contract h (cw20_holder d), addAmount).

Definition newEvents (p : ICw20UpdateByContractParam) (d : Db) : list Cw20Activity :=
  filter (λ a, ca_cw20_contract_id a = up_cw20ContractId p ∧
               up_startBlock p < ca_height a ∧ ca_height a <= up_endBlock p) (cw20_activity d).

Definition patch_contract (contract addAmount endBlock : Z) (c : Cw20Contract) : Cw20Contract :=
  if bool_decide (cw_id c = contract) then {|
    cw_id := cw_id c; cw_smart_contract_id := cw_smart_contract_id c; cw_symbol := cw_symbol c;
    cw_minter := cw_minter c; cw_marketing_info := cw_marketing_info c; cw_name := cw_name c;
    cw_decimal := cw_decimal c; cw_total_supply := cw_total_supply c + addAmount; cw_track := cw_track c;
    cw_last_updated_height := endBlock |}
  else c.

Definition jobHandle_write (p : ICw20UpdateByContractParam) (events : list Cw20Activity) (d : Db) : res Db :=
  '(h, addAmount) ← updateBalanceHolders events (up_cw20ContractId p) d;
  if bool_decide (up_cw20ContractId p ∈ cw_id <$> cw20_contract d) then
    Ok (set_contract (patch_contract (up_cw20ContractId p) addAmount (up_endBlock p) <$> cw20_contract d)
          (next_cw20_contract_id d) h d)
  else Throw "NotFoundError".

Definition jobHandle (p : ICw20UpdateByContractParam) : io Db () :=
  events ← query (newEvents p);
  if bool_decide (events = []) then mret tt else commit (jobHandle_write p events).

(** The action: a job for every contract that is behind. *)
Definition UpdateByContract (contracts : list (Z * Z)) (startBlock endBlock : Z) : io Db () :=
  each (λ c : Z * Z,
    let startUpdateBlock := Z.max startBlock c.2 in
    if startUpdateBlock <? endBlock then
      update (λ d, set_jobs (update_jobs d ++ [{| up_cw20ContractId := c.1; up_startBlock := startUpdateBlock;
                                                   up_endBlock := endBlock |}]) (reindex_history d) d)
    else mret tt) contracts.

(** ** Contracts and activities ([cw20.service.ts]) *)

(** A contract event as [getCw20ContractEvents] selects it. *)
Record Cw20Event := {
  ev_contract_address : string;
  ev_action : option string;
  ev_smart_contract_id : Z;
  ev_id : Z;                          (* smart_contract_event_id *)
  ev_hash : string;
  ev_height : Z;
  ev_tx_id : Z;
  ev_attributes : list attribute;
  ev_message : option string          (* the sender of the message *)
}.

(** The relation [message] of a contract event. *)
Definition message_of (d : Db) (r : Joined) : option string :=
  i ← tx_msg_index d !! e_id (j_event r);
  id ← e_tx_id (j_event r);
  transaction_message d !! (id, i).

Definition cw20_event (d : Db) (r : Joined) : Cw20Event := {|
  ev_contract_address := sc_address (j_contract r); ev_action := se_action (j_row r);
  ev_smart_contract_id := sc_id (j_contract r); ev_id := se_id (j_row r);
  ev_hash := t_hash (j_tx r); ev_height := t_height (j_tx r); ev_tx_id := se_tx_id (j_row r);
  ev_attributes := se_attributes (j_row r); ev_message := message_of d r |}.

Definition getCw20ContractEvents (startBlock endBlock : Z) (smartContractId : option Z)
    (page : option (Z * nat)) (d : Db) : list Cw20Event :=
  cw20_event d <$> contractEvents (base d) "CW20" startBlock endBlock smartContractId page.

Record TokenInfo := { ti_symbol : option string; ti_name : option string; ti_decimals : option string }.

(** What the node answers; an answer that cannot be parsed is [None]. *)
Class Cw20Node := {
  query_token_info : string → res (option TokenInfo);
  query_minter : string → res (option string);
  query_marketing_info : string → res (option string);
  query_all_accounts : string → option string → res (list string);
  query_balance : string → string → res (option string * Z);   (* the balance, and the height of the answer *)
  pages : nat                                          (* a bound on the pages of accounts *)
}.

(** A holder with the balance as the contract writes it, [undefined] without
    one; and the row that is inserted for it. *)
Record IHolderEvent := { hd_address : string; hd_amount : option string; hd_event_height : Z }.
Record HolderRow := { hl_address : string; hl_amount : Z; hl_event_height : Z }.

Section Node.
Context {N : Cw20Node}.

(** [getInstantiateBalances]: all the accounts, then the balance of every one. *)
Definition getInstantiateBalances (contractAddress : string) : res (list IHolderEvent) :=
  accounts ← all_pages (query_all_accounts contractAddress) pages None;
  mapR (λ a, '(balance, height) ← query_balance contractAddress a;
             Ok {| hd_address := a; hd_amount := balance; hd_event_height := height |}) accounts.

(** The amount of a holder: the sum of the supply reads it with [BigInt], which
    throws on a text that is no number (and takes the empty one for 0, which
    the column of the holder then refuses). *)
Definition holder_row (h : IHolderEvent) : res HolderRow :=
  amount ← BigInt_opt (hd_amount h);
  if bool_decide (hd_amount h = Some "") then Throw "invalid input syntax for type numeric"
  else Ok {| hl_address := hd_address h; hl_amount := amount; hl_event_height := hd_event_height h |}.

Definition min_height (l : list HolderRow) : Z :=
  match l with [] => 0 | h :: l => foldl (λ m h, Z.min m (hl_event_height h)) (hl_event_height h) l end.
Definition max_height (l : list HolderRow) : Z :=
  match l with [] => 0 | h :: l => foldl (λ m h, Z.max m (hl_event_height h)) (hl_event_height h) l end.

(** The contract with its holders as it is inserted (no id yet). *)
Definition contract_graph (smartContractId : Z) (address : string) : res (Cw20Contract * list HolderRow) :=
  info ← query_token_info address;
  minter ← query_minter address;
  marketing ← query_marketing_info address;
  let balances := getInstantiateBalances address in
  initBalances ← mapR holder_row (match balances with Ok l => l | Throw _ => [] end);
  Ok ({| cw_id := 0; cw_smart_contract_id := smartContractId; cw_symbol := info ≫= ti_symbol;
         cw_minter := minter; cw_marketing_info := marketing; cw_name := info ≫= ti_name;
         cw_decimal := info ≫= ti_decimals; cw_total_supply := sum_of hl_amount initBalances;
         cw_track := is_ok balances; cw_last_updated_height := min_height initBalances |}, initBalances).

Definition contract_with_id (id : Z) (c : Cw20Contract) : Cw20Contract := {|
  cw_id := id; cw_smart_contract_id := cw_smart_contract_id c; cw_symbol := cw_symbol c;
  cw_minter := cw_minter c; cw_marketing_info := cw_marketing_info c; cw_name := cw_name c;
  cw_decimal := cw_decimal c; cw_total_supply := cw_total_supply c; cw_track := cw_track c;
  cw_last_updated_height := cw_last_updated_height c |}.

(** [insertGraph] of one contract; the contract and the addresses of its
    holders are unique. *)
Definition insert_graph (d : Db) (g : Cw20Contract * list HolderRow) : res Db :=
  if bool_decide ((cw_smart_contract_id g.1 ∉ cw_smart_contract_id <$> cw20_contract d) ∧
                  NoDup (hl_address <$> g.2)) then
    let id := next_cw20_contract_id d in
    Ok (set_contract (cw20_contract d ++ [contract_with_id id g.1]) (id + 1)
          (foldl (λ m h, <[(id, hl_address h) := {| ho_amount := hl_amount h;
                                                    ho_last_updated_height := hl_event_height h |}]> m)
             (cw20_holder d) g.2) d)
  else Throw "duplicate key value violates unique constraint".

Definition handleCw20Instantiate (events : list Cw20Event) (d : Db) : res Db :=
  graphs ← mapR (λ e, contract_graph (ev_smart_contract_id e) (ev_contract_address e)) events;
  forEachM insert_graph d graphs.

Definition contract_address (b : Contracts.Db) (c : Cw20Contract) : option string :=
  sc_address <$> find_contract b (cw_smart_contract_id c).

(** The tracked contracts of the addresses. *)
Definition tracked_contracts (addresses : list string) (d : Db) : list (string * Cw20Contract) :=
  omap (λ c, a ← contract_address (base d) c;
             if bool_decide (a ∈ addresses ∧ cw_track c = true) then Some (a, c) else None) (cw20_contract d).

(** The column [amount] is a decimal without a fraction. *)
Definition decimal_column (o : option string) : res (option Z) :=
  match o with
  | None => Ok None
  | Some s => if bool_decide (s = "") then Throw "invalid input syntax for type numeric"
              else z ← BigInt s; Ok (Some z)
  end.

(** [Cw20Activity.fromJson] and its insertion (no id yet). *)
Definition activity_row (e : Cw20Event) (contract : Z) : res Cw20Activity :=
  sender ← (match ev_message e with
            | Some s => Ok s
            | None => Throw "TypeError: Cannot read properties of undefined (reading 'sender')" end);
  amount ← decimal_column (getAttributeFrom (ev_attributes e) "amount");
  Ok {| ca_id := 0; ca_smart_contract_event_id := ev_id e; ca_sender := Some sender; ca_action := ev_action e;
        ca_cw20_contract_id := contract; ca_amount := amount;
        ca_from := getAttributeFrom (ev_attributes e) "from"; ca_to := getAttributeFrom (ev_attributes e) "to";
        ca_height := ev_height e; ca_tx_hash := ev_hash e; ca_tx_id := ev_tx_id e |}.

Definition activity_with_id (id : Z) (a : Cw20Activity) : Cw20Activity := {|
  ca_id := id; ca_smart_contract_event_id := ca_smart_contract_event_id a; ca_sender := ca_sender a;
  ca_action := ca_action a; ca_cw20_contract_id := ca_cw20_contract_id a; ca_amount := ca_amount a;
  ca_from := ca_from a; ca_to := ca_to a; ca_height := ca_height a; ca_tx_hash := ca_tx_hash a;
  ca_tx_id := ca_tx_id a |}.

(** The events of tracked contracts, with the contract of their address. *)
Definition events_with_contract (events : list Cw20Event) (d : Db) : list (Cw20Event * Z) :=
  let byAddress := keyBy fst (tracked_contracts (ev_contract_address <$> events) d) in
  omap (λ e, c ← byAddress !! ev_contract_address e; Some (e, cw_id c.2)) events.

Definition handleCw20Histories (events : list Cw20Event) (d : Db) : res Db :=
  rows ← mapR (λ p : Cw20Event * Z, activity_row p.1 p.2) (events_with_contract events d);
  Ok (set_activity (cw20_activity d ++ serial activity_with_id (next_activity_id d) rows)
        (next_activity_id d + Z.of_nat (length rows)) d).

(** [setHours(0, 0, 0, 0)]: the day of a time in milliseconds. *)
Definition day (t : Z) : Z := t / 86400000.

Definition handleTotalHolderStatistic (systemDate : Z) (d : Db) : res Db :=
  let rows := omap (λ c,
      let n := length (filter (λ r : (Z * string) * CW20Holder, r.1.1 = cw_id c ∧ 0 < ho_amount r.2)
                 (map_to_list (cw20_holder d))) in
      if cw_track c && negb (bool_decide (n = 0%nat))
      then Some {| st_date := systemDate; st_cw20_contract_id := cw_id c; st_total_holder := Z.of_nat n |}
      else None) (cw20_contract d) in
  Ok (set_stats (cw20_total_holder_stats d ++ rows) d).

(** The statistic is made once a day of block time; it needs the block at the
    start of the range. *)
Definition handleStatistic (startBlock : Z) : io Db () :=
  time ← query (λ d, block d !! startBlock);
  match time with
  | None => throw "NotFoundError"
  | Some t =>
      stats ← query cw20_total_holder_stats;
      match stats with
      | [] => commit (handleTotalHolderStatistic (day t))
      | s :: l => if foldl (λ m s, Z.max m (st_date s)) (st_date s) l <? day t
                  then commit (handleTotalHolderStatistic (day t)) else mret tt
      end
  end.

Definition handle_range (events : list Cw20Event) (d : Db) : res Db :=
  if bool_decide (events = []) then Ok d else
  d ← handleCw20Instantiate (filter (λ e, ev_action e = Some CW20_ACTION.INSTANTIATE) events) d;
  handleCw20Histories events d.

Definition jobHandleCw20 (cfg : Config.t) : io Db () :=
  '(startBlock, endBlock, updateBlockCheckpoint) ← readCheckpoint cfg HANDLE_CW20;
  handleStatistic startBlock;;
  if stops (jd_guard HANDLE_CW20) startBlock endBlock then mret tt else
  events ← query (getCw20ContractEvents startBlock endBlock None None);
  commit (λ d,
    d ← handle_range events d;
    Ok (set_checkpoints (saveCheckpoint updateBlockCheckpoint endBlock (checkpoints_of d)) d));;
  contracts ← query (tracked_contracts (ev_contract_address <$> events));
  UpdateByContract ((λ r : string * Cw20Contract, (cw_id r.2, cw_last_updated_height r.2)) <$> contracts)
    startBlock endBlock.

(** ** Reindexing *)
Definition limitRecordGet : nat := 500.

Definition reindexHistory (p : ICw20ReindexingHistoryParams) : io Db () :=
  events ← query (getCw20ContractEvents (rh_startBlock p) (rh_endBlock p) (Some (rh_smartContractId p))
                    (Some (rh_prevId p, limitRecordGet)));
  match last events with
  | None => mret tt
  | Some e =>
      commit (handleCw20Histories events);;
      update (λ d, set_jobs (update_jobs d) (reindex_history d ++ [{|
        rh_smartContractId := rh_smartContractId p; rh_startBlock := rh_startBlock p;
        rh_endBlock := rh_endBlock p; rh_prevId := ev_id e; rh_contractAddress := rh_contractAddress p |}]) d)
  end.

Definition delete_contract (id : Z) (d : Db) : Db :=
  set_contract (filter (λ c, cw_id c ≠ id) (cw20_contract d)) (next_cw20_contract_id d)
    (filter (λ r : (Z * string) * CW20Holder, r.1.1 ≠ id) (cw20_holder d))
    (set_activity (filter (λ a, ca_cw20_contract_id a ≠ id) (cw20_activity d)) (next_activity_id d)
      (set_stats (filter (λ s, st_cw20_contract_id s ≠ id) (cw20_total_holder_stats d)) d)).

(** The rows of a contract are replaced in one transaction, then the jobs for
    its balances and its history are created. *)
Definition jobHandler_reindex (cfg : Config.t) (smartContractId : Z) (contractAddress : string) : io Db () :=
  cw20Contract ← query (λ d, find (λ c, bool_decide (contract_address (base d) c = Some contractAddress))
                               (cw20_contract d));
  graph ← lift (contract_graph smartContractId contractAddress);
  id ← query next_cw20_contract_id;
  commit (λ d, insert_graph (match cw20Contract with Some c => delete_contract (cw_id c) d | None => d end) graph);;
  UpdateByContract [(id, min_height graph.2)] (min_height graph.2) (max_height graph.2);;
  update (λ d, set_jobs (update_jobs d) (reindex_history d ++ [{|
    rh_smartContractId := smartContractId; rh_startBlock := Config.startBlock cfg;
    rh_endBlock := max_height graph.2; rh_prevId := 0; rh_contractAddress := contractAddress |}]) d).
End Node.

(** ** The update of the balances *)

(** What the holders of a contract hold. *)
Definition held (contract : Z) (tbl : gmap (Z * string) CW20Holder) : Z :=
  map_total (λ k h, if bool_decide (k.1 = contract) then ho_amount h else 0) tbl.

Definition amount_of (o : option CW20Holder) : Z := from_option ho_amount 0 o.

Section Balances.
Context (contract : Z) (tbl : gmap (Z * string) CW20Holder).

(** What a dictionary adds to the balances of the table. *)
Definition gain (h : holders) : Z :=
  map_total (λ a x, ho_amount x - amount_of (tbl !! (contract, a))) h.

Lemma upsert_holders_spec h :
  (∀ c a, upsert_holders contract h tbl !! (c, a) =
     match (if bool_decide (c = contract) then h !! a else None) with
     | Some x => Some x | None => tbl !! (c, a) end) ∧
  ∀ c, held c (upsert_holders contract h tbl) = held c tbl + if bool_decide (c = contract) then gain h else 0.
Proof.
  unfold upsert_holders, gain.
  apply (map_fold_weak_ind (λ r m, (∀ c a, r !! (c, a) =
     match (if bool_decide (c = contract) then m !! a else None) with
     | Some x => Some x | None => tbl !! (c, a) end) ∧
     ∀ c, held c r = held c tbl + if bool_decide (c = contract)
                                  then map_total (λ a x, ho_amount x - amount_of (tbl !! (contract, a))) m else 0)).
  - split; [intros c a; by case_bool_decide|]. intros c. unfold map_total at 1. rewrite map_fold_empty.
    case_bool_decide; lia.
  - intros a x m r Hm [Hl Hh]. split.
    + intros c a'. rewrite lookup_insert. case_decide as Heq.
      * injection Heq as <- <-. rewrite bool_decide_eq_true_2 by done. by rewrite lookup_insert_eq.
      * rewrite Hl. case_bool_decide as Hc; [|done]. subst c. rewrite lookup_insert_ne by congruence. done.
    + intros c. rewrite map_total_insert_None by done. unfold held in *. rewrite map_total_insert, Hh, Hl. simpl.
      rewrite (bool_decide_eq_true_2 (contract = contract)), Hm by done. unfold amount_of.
      destruct (decide (c = contract)) as [->|Hc].
      * rewrite !bool_decide_eq_true_2 by done.
        destruct (tbl !! (contract, a)); simpl; rewrite ?bool_decide_eq_true_2 by done; lia.
      * rewrite !(bool_decide_eq_false_2 (c = contract)), !(bool_decide_eq_false_2 (contract = c)) by congruence.
        destruct (tbl !! (contract, a)); simpl; rewrite ?(bool_decide_eq_false_2 (contract = c)) by congruence; lia.
Qed.

Lemma fetchHolders_lookup events d a :
  cw20_holder d = tbl →
  fetchHolders contract events d !! a = if decide (a ∈ parties events) then tbl !! (contract, a) else None.
Proof.
  intros Hd. unfold fetchHolders. rewrite Hd. induction (parties events) as [|p l IH]; [done|].
  cbn [omap list_omap]. destruct (tbl !! (contract, p)) as [h|] eqn:Hp; cbn [fmap option_fmap option_map list_to_map foldr].
  - simpl. rewrite lookup_insert, IH. destruct (decide (p = a)) as [->|Hne].
    { by rewrite decide_True by (by left). }
    destruct (decide (a ∈ l)); [by rewrite decide_True by (by right)|].
    rewrite decide_False; [done|]. intros [->|]%elem_of_cons; done.
  - simpl. rewrite IH. destruct (decide (a ∈ l)); [by rewrite decide_True by (by right)|].
    destruct (decide (a ∈ p :: l)) as [Hin|]; [|done]. by apply elem_of_cons in Hin as [->|].
Qed.

(** A state of the loop: addresses without an entry are not in the table, and
    [addAmount] is what the dictionary adds. *)
Record loop_ok (addresses : list string) (s : holders * Z) : Prop := {
  no_entry a : a ∈ addresses → s.1 !! a = None → tbl !! (contract, a) = None;
  added : gain s.1 = s.2
}.

Lemma gain_insert h a x : gain (<[a := x]> h) =
  gain h + ho_amount x - match h !! a with Some y => ho_amount y | None => amount_of (tbl !! (contract, a)) end.
Proof. unfold gain. rewrite map_total_insert. destruct (h !! a); simpl; lia. Qed.

Lemma loop_insert addresses s a x delta :
  a ∈ addresses → loop_ok addresses s → ho_amount x = amount_of (s.1 !! a) + delta →
  loop_ok addresses (<[a := x]> s.1, s.2 + delta).
Proof.
  intros Ha [Hno Hadd] Hx. split; simpl.
  - intros a' Ha'. rewrite lookup_insert. case_decide; [done|]. by apply Hno.
  - rewrite gain_insert, Hadd, Hx. specialize (Hno a Ha). destruct (s.1 !! a); simpl; [lia|].
    rewrite Hno by done. simpl. lia.
Qed.

Lemma handle_event_ok addresses s ev s' :
  (∀ a, party (ca_from ev) = Some a ∨ party (ca_to ev) = Some a → a ∈ addresses) →
  loop_ok addresses s → handle_event s ev = Ok s' → loop_ok addresses s'.
Proof.
  intros Hin Hs. unfold handle_event. destruct (ca_amount ev) as [amount|]; [|done].
  intros (s1 & H1 & [= <-])%bind_Ok. assert (loop_ok addresses s1) as Hs1.
  { unfold from_half in H1. destruct (party (ca_from ev)) as [a|]; [|by injection H1 as <-].
    destruct (s.1 !! a) as [h|] eqn:Ha; [|done]. case_match; injection H1 as <-; [|done].
    replace (s.2 - amount) with (s.2 + - amount) by lia. apply loop_insert; [by apply Hin; left|done|].
    rewrite Ha. simpl. lia. }
  unfold to_half. destruct (party (ca_to ev)) as [a|]; [|done]. cbv zeta.
  destruct (_ <=? _); [|done]. apply loop_insert; [by apply Hin; right|done|]. by destruct (s1.1 !! a).
Qed.

Lemma elem_of_parties ev events a :
  ev ∈ events → party (ca_from ev) = Some a ∨ party (ca_to ev) = Some a → a ∈ parties events.
Proof.
  intros Hev Ha. unfold parties. apply list_elem_of_bind. exists ev. split; [|done].
  rewrite elem_of_app. destruct Ha as [->| ->]; simpl; [left|right]; by apply list_elem_of_singleton.
Qed.

(** The loop over the events of a run. *)
Lemma loop_run events d h n :
  cw20_holder d = tbl →
  forEachM handle_event (fetchHolders contract events d, 0) events = Ok (h, n) →
  loop_ok (parties events) (h, n).
Proof.
  intros Hd Hloop. eapply (forEachM_inv _ (loop_ok (parties events))); [| |exact Hloop].
  - intros s ev s' Hs Hev. apply handle_event_ok; [|done]. intros a. by apply elem_of_parties.
  - split; simpl.
    + intros a Ha. rewrite (fetchHolders_lookup _ _ _ Hd). by rewrite decide_True.
    + unfold gain. assert (∀ a x, fetchHolders contract events d !! a = Some x →
        ho_amount x - amount_of (tbl !! (contract, a)) = 0) as Hz.
      { intros a x. rewrite (fetchHolders_lookup _ _ _ Hd). case_decide; [|done]. intros ->. simpl. lia. }
      revert Hz. generalize (fetchHolders contract events d) as m0.
      induction m0 as [|a x m0 Hm0 IH] using map_ind; intros Hz; [done|].
      rewrite map_total_insert_None by done. rewrite (Hz a x) by (by rewrite lookup_insert_eq).
      rewrite IH; [done|]. intros a' x' Hx'. apply Hz. rewrite lookup_insert_ne; [done|]. congruence.
Qed.

(** [addAmount] is the change of what the holders hold. *)
Lemma updateBalanceHolders_conserves events d tbl' n c :
  cw20_holder d = tbl → updateBalanceHolders events contract d = Ok (tbl', n) →
  held c tbl' = held c tbl + if bool_decide (c = contract) then n else 0.
Proof.
  intros Hd. unfold updateBalanceHolders. cbv zeta. intros ([h m] & Hloop & [= <- <-])%bind_Ok. rewrite Hd.
  apply (loop_run _ _ _ _ Hd) in Hloop as [_ Hg]. simpl in Hg.
  destruct (upsert_holders_spec h) as [_ ->]. by rewrite Hg.
Qed.
End Balances.

(** ** The ledger *)

(** What an event moves to an address. *)
Definition moved (a : string) (ev : Cw20Activity) : Z :=
  let amount := default 0 (ca_amount ev) in
  (if bool_decide (party (ca_to ev) = Some a) then amount else 0)
  - (if bool_decide (party (ca_from ev) = Some a) then amount else 0).

(** No party of the event changed above its height. *)
Definition up_to_date (h : holders) (ev : Cw20Activity) : Prop :=
  0 <= ca_height ev ∧
  ∀ a x, party (ca_from ev) = Some a ∨ party (ca_to ev) = Some a → h !! a = Some x →
    ho_last_updated_height x <= ca_height ev.

Lemma handle_event_ledger s ev s' :
  up_to_date s.1 ev → handle_event s ev = Ok s' →
  (∀ a, amount_of (s'.1 !! a) = amount_of (s.1 !! a) + moved a ev) ∧
  (∀ a, party (ca_from ev) ≠ Some a → party (ca_to ev) ≠ Some a → s'.1 !! a = s.1 !! a) ∧
  ∀ ev', ca_height ev <= ca_height ev' → up_to_date s.1 ev' → up_to_date s'.1 ev'.
Proof.
  intros [H0 Hup]. unfold handle_event, moved. destruct (ca_amount ev) as [n|]; [|done]. change (default 0 (Some n)) with n.
  intros (s1 & H1 & [= <-])%bind_Ok.
  assert ((∀ a, amount_of (s1.1 !! a) = amount_of (s.1 !! a)
             - (if bool_decide (party (ca_from ev) = Some a) then n else 0)) ∧
    (∀ a, party (ca_from ev) ≠ Some a → s1.1 !! a = s.1 !! a) ∧
    (∀ a x, s1.1 !! a = Some x → s.1 !! a = Some x ∨ ho_last_updated_height x = ca_height ev)) as (Ha1 & Ho1 & Hh1).
  { unfold from_half in H1. destruct (party (ca_from ev)) as [f|] eqn:Hf; cycle 1.
    { injection H1 as <-. split; [intros a; rewrite bool_decide_eq_false_2 by done; lia|]. auto. }
    destruct (s.1 !! f) as [h|] eqn:Hs; [|done].
    rewrite (proj2 (Z.leb_le _ _)) in H1 by (apply (Hup f); auto). injection H1 as <-. simpl. split; [|split].
    - intros a. rewrite lookup_insert. case_decide as Hd.
      + subst f. rewrite bool_decide_eq_true_2, Hs by done. simpl. lia.
      + rewrite bool_decide_eq_false_2 by congruence. lia.
    - intros a Hne. rewrite lookup_insert_ne; congruence.
    - intros a x. rewrite lookup_insert. case_decide; [intros [= <-]; by right|by left]. }
  assert (∀ a x, s1.1 !! a = Some x → party (ca_to ev) = Some a → ho_last_updated_height x <= ca_height ev) as Hto.
  { intros a x Hx Ht. destruct (Hh1 a x Hx) as [Hs| ->]; [|lia]. apply (Hup a); auto. }
  assert ((∀ a, amount_of ((to_half ev n s1).1 !! a) = amount_of (s1.1 !! a)
             + (if bool_decide (party (ca_to ev) = Some a) then n else 0)) ∧
    (∀ a, party (ca_to ev) ≠ Some a → (to_half ev n s1).1 !! a = s1.1 !! a) ∧
    (∀ a x, (to_half ev n s1).1 !! a = Some x → s1.1 !! a = Some x ∨ ho_last_updated_height x = ca_height ev))
    as (Ha2 & Ho2 & Hh2).
  { unfold to_half. destruct (party (ca_to ev)) as [t|] eqn:Ht; cycle 1.
    { split; [intros a; rewrite bool_decide_eq_false_2 by done; lia|]. auto. }
    cbv zeta. rewrite (proj2 (Z.leb_le _ _)).
    2:{ destruct (s1.1 !! t) as [x|] eqn:Hx; [by apply (Hto t)|done]. }
    simpl. split; [|split].
    - intros a. rewrite lookup_insert. case_decide as Hd.
      + subst t. rewrite bool_decide_eq_true_2 by done. simpl. by destruct (s1.1 !! a).
      + rewrite bool_decide_eq_false_2 by congruence. lia.
    - intros a Hne. rewrite lookup_insert_ne; congruence.
    - intros a x. rewrite lookup_insert. case_decide; [intros [= <-]; by right|by left]. }
  split; [intros a; rewrite Ha2, Ha1; lia|]. split; [intros a Hf Ht; by rewrite Ho2, Ho1|].
  intros ev' Hle [H0' Hup']. split; [done|]. intros a x Hp Hx.
  destruct (Hh2 a x Hx) as [Hx1| ->]; [|done]. destruct (Hh1 a x Hx1) as [Hx0| ->]; [|done]. by apply (Hup' a).
Qed.

Lemma loop_ledger events s s' :
  StronglySorted (λ e1 e2, ca_height e1 <= ca_height e2) events →
  Forall (up_to_date s.1) events →
  forEachM handle_event s events = Ok s' →
  (∀ a, amount_of (s'.1 !! a) = amount_of (s.1 !! a) + sum_of (moved a) events) ∧
  ∀ a, a ∉ parties events → s'.1 !! a = s.1 !! a.
Proof.
  intros Hs. revert s. induction Hs as [|ev events Hs IH Hall]; intros s Hup; simpl.
  { intros [= <-]. split; [intros; lia|done]. }
  intros (s1 & H1 & H2)%bind_Ok. inversion Hup as [|? ? Hev Hrest]; subst.
  destruct (handle_event_ledger _ _ _ Hev H1) as (Ha & Ho & Hkeep).
  destruct (IH s1) as [Ha' Ho']; [|done|].
  { rewrite Forall_forall in Hall, Hrest |- *. intros ev' Hin. by apply Hkeep; [apply Hall|apply Hrest]. }
  split; [intros a; rewrite Ha', Ha; lia|]. intros a Hn.
  unfold parties in Hn. cbn in Hn. fold (parties events) in Hn. rewrite !elem_of_app in Hn.
  rewrite Ho', Ho; [done| | |]; intros Hp; apply Hn; [..|by right]; left; rewrite Hp; simpl;
    [left|right]; by apply list_elem_of_singleton.
Qed.

(** ** The supply of a contract *)

(** The supply of every contract is what its holders hold. *)
Record supply_ok (d : Db) : Prop := {
  supply_held c : c ∈ cw20_contract d → cw_total_supply c = held (cw_id c) (cw20_holder d);
  supply_ids : NoDup (cw_id <$> cw20_contract d);
  supply_below : Forall (λ c, cw_id c < next_cw20_contract_id d) (cw20_contract d);
  holders_below i a : is_Some (cw20_holder d !! (i, a)) → i < next_cw20_contract_id d
}.

(** The fields the invariant is about. *)
Lemma supply_ok_frame d d' :
  cw20_contract d' = cw20_contract d → cw20_holder d' = cw20_holder d →
  next_cw20_contract_id d' = next_cw20_contract_id d → supply_ok d → supply_ok d'.
Proof.
  intros Hc Hh Hn [H1 H2 H3 H4]. split; by rewrite ?Hc, ?Hh, ?Hn.
Qed.

Lemma held_other c i a x tbl : c ≠ i → held c (<[(i, a) := x]> tbl) = held c tbl.
Proof.
  intros Hne. unfold held. rewrite map_total_insert. simpl. rewrite bool_decide_eq_false_2 by congruence.
  destruct (tbl !! (i, a)); simpl; rewrite ?bool_decide_eq_false_2 by congruence; lia.
Qed.

Lemma held_new i a x tbl : tbl !! (i, a) = None → held i (<[(i, a) := x]> tbl) = ho_amount x + held i tbl.
Proof.
  intros Hn. unfold held. rewrite map_total_insert_None by done. simpl. by rewrite bool_decide_eq_true_2.
Qed.

Lemma held_none i tbl : (∀ a, tbl !! (i, a) = None) → held i tbl = 0.
Proof.
  intros Hn. unfold held. rewrite (map_total_ext _ (λ _ _, 0)); [apply map_total_zero|].
  intros [j a] x Hx. simpl. rewrite bool_decide_eq_false_2; [done|]. intros ->. by rewrite Hn in Hx.
Qed.

(** The holders of an inserted contract. *)
Definition insert_holders (i : Z) (l : list HolderRow) (tbl : gmap (Z * string) CW20Holder) :=
  foldl (λ m h, <[(i, hl_address h) := {| ho_amount := hl_amount h;
                                          ho_last_updated_height := hl_event_height h |}]> m) tbl l.

Lemma insert_holders_held i l tbl :
  NoDup (hl_address <$> l) → (∀ a, a ∈ hl_address <$> l → tbl !! (i, a) = None) →
  held i (insert_holders i l tbl) = held i tbl + sum_of hl_amount l ∧
  (∀ c, c ≠ i → held c (insert_holders i l tbl) = held c tbl) ∧
  (∀ j a, is_Some (insert_holders i l tbl !! (j, a)) → j = i ∨ is_Some (tbl !! (j, a))).
Proof.
  revert tbl. induction l as [|h l IH]; intros tbl Hnd Hnew; simpl.
  { split; [lia|]. split; [done|]. intros j a; by right. }
  apply NoDup_cons in Hnd as [Hh Hnd].
  destruct (IH (<[(i, hl_address h) := {| ho_amount := hl_amount h; ho_last_updated_height := hl_event_height h |}]> tbl))
    as (H1 & H2 & H3); [done| |].
  { intros a Ha. rewrite lookup_insert_ne; [apply Hnew; by right|]. intros [= <-]. done. }
  split; [|split].
  - unfold insert_holders in *. rewrite H1, held_new by (apply Hnew; left). simpl. lia.
  - intros c Hc. unfold insert_holders in *. by rewrite H2, held_other.
  - intros j a Hs. destruct (H3 j a Hs) as [|Hs']; [by left|].
    apply lookup_insert_is_Some in Hs' as [Heq|[_ ?]]; [left; congruence|by right].
Qed.

Section Supply.
Context {N : Cw20Node}.

Lemma contract_graph_supply i a g : contract_graph i a = Ok g → cw_total_supply g.1 = sum_of hl_amount g.2.
Proof.
  unfold contract_graph. intros (info & _ & (minter & _ & (marketing & _ & Hg)%bind_Ok)%bind_Ok)%bind_Ok.
  cbv zeta in Hg. apply bind_Ok in Hg as (l & _ & [= <-]). done.
Qed.

Lemma insert_graph_supply g d d' :
  cw_total_supply g.1 = sum_of hl_amount g.2 → supply_ok d → insert_graph d g = Ok d' → supply_ok d'.
Proof.
  intros Hg [H1 H2 H3 H4]. unfold insert_graph. case_bool_decide as Hb; [|done]. destruct Hb as [_ Hnd].
  cbv zeta. intros [= <-]. set (i := next_cw20_contract_id d) in *.
  assert (∀ a, cw20_holder d !! (i, a) = None) as Hnone.
  { intros a. destruct (cw20_holder d !! (i, a)) eqn:Ha; [|done]. assert (i < i); [|lia].
    apply (H4 i a). by eexists. }
  destruct (insert_holders_held i g.2 (cw20_holder d) Hnd) as (Hi & Ho & Hs); [done|].
  fold (insert_holders i g.2 (cw20_holder d)). rewrite Forall_forall in H3. split; simpl.
  - intros c [Hc| ->%list_elem_of_singleton]%elem_of_app.
    + rewrite Ho; [by apply H1|]. specialize (H3 c Hc). lia.
    + simpl. rewrite Hi, held_none by done. simpl. lia.
  - rewrite fmap_app. apply NoDup_app. split; [done|]. split; [|apply NoDup_singleton].
    intros x (c & -> & Hc)%list_elem_of_fmap Hx. apply list_elem_of_singleton in Hx.
    specialize (H3 c Hc). simpl in Hx. lia.
  - apply Forall_forall. intros c [Hc| ->%list_elem_of_singleton]%elem_of_app; [specialize (H3 c Hc); lia|simpl; lia].
  - intros j a Hj. destruct (Hs j a Hj) as [->|Hold]; [lia|]. specialize (H4 j a Hold). lia.
Qed.

Lemma handle_range_supply events d d' : supply_ok d → handle_range events d = Ok d' → supply_ok d'.
Proof.
  intros Hd. unfold handle_range. case_bool_decide; [by intros [= <-]|].
  intros (d1 & H1 & H2)%bind_Ok. assert (supply_ok d1) as Hd1.
  { unfold handleCw20Instantiate in H1. apply bind_Ok in H1 as (graphs & Hgr%mapR_Ok & H1).
    eapply (forEachM_inv _ supply_ok); [|exact Hd|exact H1]. intros d0 g d2 Hd0 Hg.
    apply list_elem_of_lookup in Hg as [k Hk].
    destruct (Forall2_lookup_r _ _ _ _ _ Hgr Hk) as (ev & _ & Hev).
    apply insert_graph_supply; [by eapply contract_graph_supply|done]. }
  unfold handleCw20Histories in H2. apply bind_Ok in H2 as (rows & _ & [= <-]).
  by eapply supply_ok_frame; [..|exact Hd1].
Qed.

Lemma jobHandle_write_supply p events d d' : supply_ok d → jobHandle_write p events d = Ok d' → supply_ok d'.
Proof.
  intros [H1 H2 H3 H4]. unfold jobHandle_write. intros ([tbl n] & Hup & Hw)%bind_Ok.
  case_bool_decide; [|done]. injection Hw as <-.
  pose proof (λ c, updateBalanceHolders_conserves _ _ _ _ _ _ c eq_refl Hup) as Hheld.
  assert (∀ c, cw_id (patch_contract (up_cw20ContractId p) n (up_endBlock p) c) = cw_id c) as Hid.
  { intros c. unfold patch_contract. by case_bool_decide. }
  split; simpl.
  - intros c' (c & -> & Hc)%list_elem_of_fmap. rewrite Hid, Hheld, <-H1 by done.
    unfold patch_contract. case_bool_decide; simpl; lia.
  - rewrite <-list_fmap_compose. by rewrite (list_fmap_ext _ cw_id) by (intros; apply Hid).
  - apply Forall_fmap. eapply Forall_impl; [exact H3|]. intros c Hc. simpl. by rewrite Hid.
  - unfold updateBalanceHolders in Hup. cbv zeta in Hup.
    apply bind_Ok in Hup as ([h m] & Hloop & [= <- <-]). intros i a.
    destruct (upsert_holders_spec (up_cw20ContractId p) (cw20_holder d) h) as [-> _].
    case_bool_decide as Hi; [|apply H4]. intros _. subst i.
    match goal with Hin : up_cw20ContractId p ∈ _ |- _ => apply list_elem_of_fmap in Hin as (c & -> & Hc) end.
    rewrite Forall_forall in H3. by apply H3.
Qed.

Lemma delete_contract_supply i d : supply_ok d → supply_ok (delete_contract i d).
Proof.
  intros [H1 H2 H3 H4]. split; simpl.
  - intros c [Hi Hc]%list_elem_of_filter. rewrite H1 by done. unfold held. rewrite map_total_filter.
    apply map_total_ext. intros [j a] x _. simpl. repeat case_bool_decide; repeat case_decide; congruence.
  - by eapply NoDup_fmap_filter with (Q := λ _, True); [|rewrite filter_all].
  - rewrite Forall_forall in H3 |- *. intros c [_ Hc]%list_elem_of_filter. by apply H3.
  - intros j a [x [Hx _]%map_lookup_filter_Some]. apply (H4 j a). by eexists.
Qed.

Lemma UpdateByContract_supply l s e : keeps supply_ok (UpdateByContract l s e).
Proof.
  apply keeps_each. intros c. cbv zeta. destruct (_ <? _); [|apply keeps_ret].
  apply keeps_update. intros d. by apply supply_ok_frame.
Qed.

Lemma handleStatistic_supply s : keeps supply_ok (handleStatistic s).
Proof.
  assert (∀ t, keeps supply_ok (commit (handleTotalHolderStatistic t))) as Hc.
  { intros t. apply keeps_commit. intros d d' Hd [= <-]. by eapply supply_ok_frame; [..|exact Hd]. }
  apply keeps_bind; [apply keeps_query|]. intros [t|]; [|apply keeps_lift].
  apply keeps_bind; [apply keeps_query|]. intros [|st l]; [apply Hc|].
  destruct (_ <? _); [apply Hc|apply keeps_ret].
Qed.
End Supply.

(** ** Properties *)

(** C9: whatever the jobs do, the total supply of every contract is the sum of
    the balances of its holders: the job of a block range, the update of the
    balances of a contract, the reindexing of a contract and a page of its
    history keep this invariant, also when they throw. *)
Theorem cw20_supply_invariant {N : Cw20Node} cfg p q i a :
  keeps supply_ok (jobHandleCw20 cfg) ∧ keeps supply_ok (jobHandle p) ∧
  keeps supply_ok (jobHandler_reindex cfg i a) ∧ keeps supply_ok (reindexHistory q).
Proof.
  split; [|split; [|split]].
  - apply keeps_bind; [by intros d Hd|]. intros [[s e] u].
    apply keeps_bind; [apply handleStatistic_supply|]. intros _.
    destruct (stops _ _ _); [apply keeps_ret|]. apply keeps_bind; [apply keeps_query|]. intros events.
    apply keeps_bind.
    + apply keeps_commit. intros d d' Hd (d1 & H1 & [= <-])%bind_Ok.
      eapply supply_ok_frame; [..|eapply handle_range_supply; [exact Hd|exact H1]]; done.
    + intros _. apply keeps_bind; [apply keeps_query|]. intros l. apply UpdateByContract_supply.
  - apply keeps_bind; [apply keeps_query|]. intros events. case_bool_decide; [apply keeps_ret|].
    apply keeps_commit. intros d d'. apply jobHandle_write_supply.
  - apply keeps_bind; [apply keeps_query|]. intros c.
    unfold lift. intros d Hd. unfold mbind, io_bind. destruct (contract_graph i a) as [g|] eqn:Hg; [|done].
    revert d Hd. change (keeps supply_ok (id ← query next_cw20_contract_id;
      commit (λ d, insert_graph (match c with Some c => delete_contract (cw_id c) d | None => d end) g);;
      UpdateByContract [(id, min_height g.2)] (min_height g.2) (max_height g.2);;
      update (λ d, set_jobs (update_jobs d) (reindex_history d ++ [{|
        rh_smartContractId := i; rh_startBlock := Config.startBlock cfg;
        rh_endBlock := max_height g.2; rh_prevId := 0; rh_contractAddress := a |}]) d))).
    apply keeps_bind; [apply keeps_query|]. intros id. apply keeps_bind.
    + apply keeps_commit. intros d d' Hd. apply insert_graph_supply; [by eapply contract_graph_supply|].
      destruct c; [by apply delete_contract_supply|done].
    + intros _. apply keeps_bind; [apply UpdateByContract_supply|]. intros _.
      apply keeps_update. intros d. by apply supply_ok_frame.
  - apply keeps_bind; [apply keeps_query|]. intros events. destruct (last events); [|apply keeps_ret].
    apply keeps_bind.
    + apply keeps_commit. intros d d' Hd (rows & _ & [= <-])%bind_Ok. by eapply supply_ok_frame; [..|exact Hd].
    + intros _. apply keeps_update. intros d. by apply supply_ok_frame.
Qed.

(** The balance of an address. *)
Definition balance (d : Db) (contract : Z) (a : string) : Z := amount_of (cw20_holder d !! (contract, a)).

(** The events of an update come in the order of their heights, none before
    the last change of a party. *)
Definition updates_fresh (p : ICw20UpdateByContractParam) (d : Db) : Prop :=
  let events := orderEvents (newEvents p d) in
  StronglySorted (λ e1 e2, ca_height e1 <= ca_height e2) events ∧
  ∀ ev, ev ∈ events → 0 <= ca_height ev ∧
    ∀ a x, party (ca_from ev) = Some a ∨ party (ca_to ev) = Some a →
      cw20_holder d !! (up_cw20ContractId p, a) = Some x → ho_last_updated_height x <= ca_height ev.

Lemma orderEvents_elem ev l : ev ∈ orderEvents l ↔ is_base_action ev = true ∧ ev ∈ l.
Proof. unfold orderEvents. rewrite sortBy_perm. apply (list_elem_of_filter (λ a, is_base_action a = true)). Qed.

(** The update of a contract is a ledger: after a run that returns, the
    balance of every address moved by what the events of the range send it,
    less what they take from it; the balances of other contracts stay, and the
    events need not be stored in order, since the run sorts them. *)
Theorem cw20_update_ledger p d d' :
  jobHandle p d = (d', Ok tt) → updates_fresh p d →
  (∀ a, balance d' (up_cw20ContractId p) a =
     balance d (up_cw20ContractId p) a + sum_of (moved a) (orderEvents (newEvents p d))) ∧
  ∀ c a, c ≠ up_cw20ContractId p → balance d' c a = balance d c a.
Proof.
  set (contract := up_cw20ContractId p). set (events := orderEvents (newEvents p d)).
  intros Hrun [Hs Hfresh]. fold events in Hs, Hfresh. fold contract in Hfresh. unfold jobHandle in Hrun.
  rewrite (io_step _ _ d d (newEvents p d)) in Hrun by done.
  case_bool_decide as Hne.
  { injection Hrun as <-. unfold events. rewrite Hne. simpl. split; [intros; lia|done]. }
  unfold commit, jobHandle_write in Hrun. destruct (updateBalanceHolders _ _ d) as [[tbl n]|] eqn:Hup; [|done].
  cbn [mbind res_bind] in Hrun. case_bool_decide; [|done]. injection Hrun as <-.
  unfold updateBalanceHolders in Hup. cbv zeta in Hup. fold contract events in Hup.
  apply bind_Ok in Hup as ([h m] & Hloop & [= <- <-]).
  destruct (upsert_holders_spec contract (cw20_holder d) h) as [Hl _].
  pose proof (λ a, fetchHolders_lookup contract (cw20_holder d) events d a eq_refl) as Hfetch.
  destruct (loop_ledger events (fetchHolders contract events d, 0) (h, m) Hs) as [Ha Ho]; [|exact Hloop|].
  { apply Forall_forall. intros ev Hev. destruct (Hfresh ev Hev) as [H0 Hf]. split; [done|].
    intros a x Hp Hx. simpl in Hx. rewrite Hfetch in Hx. case_decide; [|done]. by apply (Hf a). }
  apply (loop_run contract (cw20_holder d) events d h m eq_refl) in Hloop as [Hno _].
  simpl in Ha, Ho, Hno. unfold balance. simpl. split; [|intros c a Hc; rewrite Hl; by rewrite bool_decide_eq_false_2].
  intros a. rewrite Hl, bool_decide_eq_true_2 by done. specialize (Ha a). rewrite Hfetch in Ha.
  case_decide as Hin.
  - destruct (h !! a) as [x|] eqn:Hx; [exact Ha|]. specialize (Hno a Hin Hx). rewrite Hno in Ha |- *. exact Ha.
  - rewrite (Ho a Hin), Hfetch, decide_False in Ha by done. rewrite (Ho a Hin), Hfetch, decide_False by done.
    simpl in Ha. lia.
Qed.

(** An update that runs after a later one of the same contract (its job is
    retried when it fails, while the next one goes on) loses its events: where
    the parties changed above the heights of the events, nothing moves, and the
    job returns as if it had done its work. *)
Theorem cw20_late_update_lost p d :
  (∀ ev, ev ∈ newEvents p d → is_base_action ev = true → is_Some (ca_amount ev) ∧
     ∀ a, party (ca_from ev) = Some a ∨ party (ca_to ev) = Some a →
       ∃ x, cw20_holder d !! (up_cw20ContractId p, a) = Some x ∧ ca_height ev < ho_last_updated_height x) →
  up_cw20ContractId p ∈ cw_id <$> cw20_contract d →
  ∃ d', jobHandle p d = (d', Ok tt) ∧
    (∀ c a, cw20_holder d' !! (c, a) = cw20_holder d !! (c, a)) ∧
    cw_total_supply <$> cw20_contract d' = cw_total_supply <$> cw20_contract d.
Proof.
  set (contract := up_cw20ContractId p). set (events := orderEvents (newEvents p d)).
  intros Hlate Hin. unfold jobHandle. rewrite (io_step _ _ d d (newEvents p d)) by done.
  case_bool_decide as Hne; [by exists d|].
  pose proof (λ a, fetchHolders_lookup contract (cw20_holder d) events d a eq_refl) as Hfetch.
  set (h0 := fetchHolders contract events d) in *.
  assert (∀ l, (∀ ev, ev ∈ l → ev ∈ events) → forEachM handle_event (h0, 0) l = Ok (h0, 0)) as Hloop.
  { induction l as [|ev l IH]; intros Hsub; [done|]. cbn [forEachM].
    assert (handle_event (h0, 0) ev = Ok (h0, 0)) as ->; [|apply IH; intros; apply Hsub; by right].
    assert (ev ∈ events) as Hev by (apply Hsub; left). pose proof Hev as [Hb Hn]%orderEvents_elem.
    destruct (Hlate ev Hn Hb) as [[n Hamt] Hp]. unfold handle_event. rewrite Hamt.
    assert (∀ a, party (ca_from ev) = Some a ∨ party (ca_to ev) = Some a →
      ∃ x, h0 !! a = Some x ∧ (ho_last_updated_height x <=? ca_height ev) = false) as Hold.
    { intros a Ha. destruct (Hp a Ha) as (x & Hx & Hlt). exists x. split; [|lia].
      rewrite Hfetch, decide_True; [done|]. by eapply elem_of_parties. }
    assert (from_half ev n (h0, 0) = Ok (h0, 0)) as ->.
    { unfold from_half. destruct (party (ca_from ev)) as [a|]; [|done].
      destruct (Hold a) as (x & Hx & Hle); [by left|]. simpl. by rewrite Hx, Hle. }
    cbn [mbind res_bind]. unfold to_half. destruct (party (ca_to ev)) as [a|]; [|done].
    destruct (Hold a) as (x & Hx & Hle); [by right|]. simpl. by rewrite Hx, Hle. }
  unfold commit, jobHandle_write, updateBalanceHolders. cbv zeta. fold contract events h0.
  rewrite (Hloop events) by done. cbn [mbind res_bind]. rewrite bool_decide_eq_true_2 by done.
  eexists. split; [reflexivity|]. simpl. split.
  - intros c a. destruct (upsert_holders_spec contract (cw20_holder d) h0) as [-> _].
    case_bool_decide as Hc; [|done]. subst c. rewrite Hfetch. case_decide; [|done].
    by destruct (cw20_holder d !! (contract, a)).
  - rewrite <-list_fmap_compose. apply list_fmap_ext. intros i c _. simpl. unfold patch_contract.
    case_bool_decide; simpl; lia.
Qed.

(** On a fresh database the job never starts: without a checkpoint it begins
    at the configured block, whose row the statistic requires; the crawler
    stores the blocks above it only, so every run throws and changes nothing. *)
Theorem cw20_first_run_throws {N : Cw20Node} cfg d :
  checkpoints_of d !! jd_name HANDLE_CW20 = None → block d !! Config.startBlock cfg = None →
  ∃ msg, jobHandleCw20 cfg d = (d, Throw msg).
Proof.
  intros Hc Hb. unfold jobHandleCw20, readCheckpoint.
  destruct (jobCheckpoint cfg HANDLE_CW20 (checkpoints_of d)) as [[[s e] u]|msg] eqn:Hj.
  - erewrite io_step by (by rewrite Hj). cbv beta iota.
    apply getCheckpoint_Ok in Hj as (-> & _ & _). rewrite Hc. simpl.
    exists "NotFoundError". unfold mbind, io_bind, handleStatistic. unfold mbind, io_bind, query. by rewrite Hb.
  - exists msg. unfold mbind, io_bind. by rewrite Hj.
Qed.

(** ** The rows of a run *)

(** The job for a contract that is behind the end of a range. *)
Definition update_job (s e : Z) (c : Z * Z) : option ICw20UpdateByContractParam :=
  if Z.max s c.2 <? e
  then Some {| up_cw20ContractId := c.1; up_startBlock := Z.max s c.2; up_endBlock := e |} else None.

Lemma UpdateByContract_spec l s e d :
  ∃ d', UpdateByContract l s e d = (d', Ok tt) ∧ update_jobs d' = update_jobs d ++ omap (update_job s e) l ∧
    cw20_contract d' = cw20_contract d ∧ cw20_activity d' = cw20_activity d ∧ base d' = base d ∧
    cw20_holder d' = cw20_holder d.
Proof.
  revert d. induction l as [|[id h] l IH]; intros d.
  { exists d. split; [done|]. split; [by rewrite app_nil_r|done]. }
  assert (∀ o, update_job s e (id, h) = o → omap (update_job s e) ((id, h) :: l) =
    option_list o ++ omap (update_job s e) l) as Homap.
  { intros o Ho. cbn. rewrite Ho. by destruct o. }
  unfold UpdateByContract in *. cbn [each]. cbv zeta. cbn [fst snd]. unfold update_job at 1 in Homap.
  cbn [fst snd] in Homap. destruct (Z.max s h <? e).
  - unfold update at 1. specialize (Homap _ eq_refl). rewrite Homap.
    destruct (IH (set_jobs (update_jobs d ++ [{| up_cw20ContractId := id; up_startBlock := Z.max s h;
      up_endBlock := e |}]) (reindex_history d) d)) as (d' & Hrun & Hjobs & Hrest).
    exists d'. split; [exact Hrun|]. rewrite Hjobs. simpl. rewrite <-app_assoc. done.
  - specialize (Homap _ eq_refl). rewrite Homap. destruct (IH d) as (d' & Hrun & Hjobs & Hrest).
    exists d'. split; [exact Hrun|]. done.
Qed.

(** The activity of an event. *)
Definition activity_of (ev : Cw20Event) (contract : Z) (r : Cw20Activity) : Prop :=
  ca_smart_contract_event_id r = ev_id ev ∧ ca_cw20_contract_id r = contract ∧ ca_action r = ev_action ev ∧
  ca_sender r = ev_message ev ∧ decimal_column (getAttributeFrom (ev_attributes ev) "amount") = Ok (ca_amount r) ∧
  ca_from r = getAttributeFrom (ev_attributes ev) "from" ∧ ca_to r = getAttributeFrom (ev_attributes ev) "to" ∧
  ca_height r = ev_height ev ∧ ca_tx_hash r = ev_hash ev.

Section Rows.
Context {N : Cw20Node}.

Lemma activity_row_spec ev c r : activity_row ev c = Ok r → activity_of ev c r.
Proof.
  unfold activity_row. intros (sender & Hs & (amount & Ha & [= <-])%bind_Ok)%bind_Ok.
  destruct (ev_message ev) eqn:Hm; [|done]. injection Hs as ->. unfold activity_of. simpl. rewrite Hm. auto 10.
Qed.

Lemma handleCw20Histories_spec events d d' :
  handleCw20Histories events d = Ok d' →
  ∃ rows, cw20_activity d' = cw20_activity d ++ rows ∧
    Forall2 (λ p r, activity_of p.1 p.2 r) (events_with_contract events d) rows ∧
    ca_id <$> rows = seqZ (next_activity_id d) (Z.of_nat (length rows)) ∧
    cw20_contract d' = cw20_contract d ∧ base d' = base d ∧ update_jobs d' = update_jobs d.
Proof.
  unfold handleCw20Histories. intros (rows & Hrows%mapR_Ok & [= <-])%bind_Ok.
  exists (serial activity_with_id (next_activity_id d) rows). split; [done|]. split.
  - eapply Forall2_compose; [|exact Hrows|by apply (serial_rows activity_with_id ca_id)].
    intros [ev c] r r' Hr ->. apply activity_row_spec in Hr. exact Hr.
  - rewrite length_serial, (serial_ids activity_with_id ca_id) by done. done.
Qed.

Lemma insert_graphs_frame l d d' :
  forEachM insert_graph d l = Ok d' →
  cw20_activity d' = cw20_activity d ∧ base d' = base d ∧ update_jobs d' = update_jobs d.
Proof.
  intros Hl. eapply (forEachM_inv _ (λ d', cw20_activity d' = cw20_activity d ∧ base d' = base d ∧
    update_jobs d' = update_jobs d)); [|done|exact Hl].
  intros d0 g d1 H0 _. unfold insert_graph. case_bool_decide; [|done]. cbv zeta. by intros [= <-].
Qed.

Lemma handle_range_rows events d d' :
  handle_range events d = Ok d' →
  ∃ rows, cw20_activity d' = cw20_activity d ++ rows ∧
    Forall2 (λ p r, activity_of p.1 p.2 r) (events_with_contract events d') rows ∧
    base d' = base d ∧ update_jobs d' = update_jobs d.
Proof.
  unfold handle_range. case_bool_decide as He.
  { intros [= <-]. exists []. rewrite app_nil_r, He. split; [done|]. split; [|done]. constructor. }
  intros (d1 & (graphs & _ & H1)%bind_Ok & H2)%bind_Ok.
  apply insert_graphs_frame in H1 as (Ha & Hb & Hu).
  apply handleCw20Histories_spec in H2 as (rows & Hrows & Hf & _ & Hc & Hb2 & Hu2).
  exists rows. rewrite Hrows, Ha. split; [done|]. split; [|split; congruence].
  unfold events_with_contract, tracked_contracts in *. by rewrite Hc, Hb2.
Qed.

Lemma handleStatistic_frame s d d' o :
  handleStatistic s d = (d', o) →
  base d' = base d ∧ cw20_activity d' = cw20_activity d ∧ update_jobs d' = update_jobs d ∧
  tx_msg_index d' = tx_msg_index d ∧ transaction_message d' = transaction_message d.
Proof.
  unfold handleStatistic. unfold mbind, io_bind, query, throw, lift, commit, handleTotalHolderStatistic. cbv zeta.
  repeat (case_match; simplify_eq; try done); by intros [= <- <-].
Qed.
End Rows.

(** A run of the CW20 job that returns appends one activity per event of a
    tracked contract, in the order of the events, with the contract of its
    address, the sender of its message and its amount; it stores its
    checkpoint; and it creates one update of the balances for every tracked
    contract that is behind the end of the range, from the later of the start
    of the range and the contract's height. *)
Theorem cw20_job_correct {N : Cw20Node} cfg d d' s e u :
  jobCheckpoint cfg HANDLE_CW20 (checkpoints_of d) = Ok (s, e, u) → s < e →
  jobHandleCw20 cfg d = (d', Ok tt) →
  let events := getCw20ContractEvents s e None None d in
  ∃ rows, cw20_activity d' = cw20_activity d ++ rows ∧
    Forall2 (λ p r, activity_of p.1 p.2 r) (events_with_contract events d') rows ∧
    update_jobs d' = update_jobs d ++
      omap (update_job s e) ((λ r : string * Cw20Contract, (cw_id r.2, cw_last_updated_height r.2)) <$>
                             tracked_contracts (ev_contract_address <$> events) d') ∧
    checkpoints_of d' = saveCheckpoint u e (checkpoints_of d).
Proof.
  intros Hj Hse Hrun events. unfold jobHandleCw20, readCheckpoint in Hrun.
  erewrite io_step in Hrun by (by rewrite Hj). cbv beta iota in Hrun.
  apply io_bind_Ok in Hrun as (d0 & [] & Hst & Hrun).
  pose proof (handleStatistic_frame _ _ _ _ Hst) as (Hb & Ha & Hu & Hi & Ht).
  assert (stops (jd_guard HANDLE_CW20) s e = false) as Hg by (simpl; lia). rewrite Hg in Hrun.
  assert (getCw20ContractEvents s e None None d0 = events) as Hev.
  { unfold events, getCw20ContractEvents. rewrite Hb. apply list_fmap_ext. intros i r _.
    unfold cw20_event, message_of. by rewrite Hi, Ht. }
  rewrite (io_step _ _ d0 d0 events) in Hrun by (unfold query; by rewrite Hev).
  apply io_bind_Ok in Hrun as (d2 & [] & Hcommit & Hrun). unfold commit in Hcommit.
  destruct (handle_range events d0) as [d1|] eqn:Hr; [|done]. cbn [mbind res_bind] in Hcommit. injection Hcommit as <-.
  apply handle_range_rows in Hr as (rows & Hrows & Hf & Hb1 & Hu1).
  erewrite io_step in Hrun by done.
  match type of Hrun with UpdateByContract ?l s e ?d2 = _ =>
    destruct (UpdateByContract_spec l s e d2) as (d3 & Hup & Hjobs & Hc3 & Ha3 & Hb3 & _) end.
  rewrite Hup in Hrun. injection Hrun as ->. exists rows. split; [by rewrite Ha3; simpl; rewrite Hrows, Ha|].
  assert (∀ addrs, tracked_contracts addrs d' = tracked_contracts addrs d1) as Htr.
  { intros addrs. unfold tracked_contracts. rewrite Hc3, Hb3. reflexivity. }
  split.
  { unfold events_with_contract in *. by rewrite Htr. }
  split.
  - rewrite Hjobs, Htr. simpl. rewrite Hu1, Hu. f_equal.
  - assert (checkpoints_of d1 = checkpoints_of d) as <- by (unfold checkpoints_of, Db_checkpoints; by rewrite Hb1, Hb).
    unfold checkpoints_of at 1, Db_checkpoints at 1. rewrite Hb3. reflexivity.
Qed.

#[export] Instance jobHandleCw20_job {N : Cw20Node} cfg : CheckpointJob cfg HANDLE_CW20 (jobHandleCw20 cfg).
Proof.
  intros d. unfold jobHandleCw20, readCheckpoint. unfold mbind at 1, io_bind at 1.
  destruct (jobCheckpoint cfg HANDLE_CW20 (checkpoints_of d)) as [[[s e] u]|] eqn:Hj;
    [|by apply job_run_idle].
  unfold mbind at 1, io_bind at 1. destruct (handleStatistic s d) as [d0 o] eqn:Hst.
  pose proof (handleStatistic_frame _ _ _ _ Hst) as (Hb & _).
  assert (checkpoints_of d0 = checkpoints_of d) as Hck by (unfold checkpoints_of, Db_checkpoints; by rewrite Hb).
  destruct o as [[]|]; [|by apply job_run_idle].
  pose proof (job_run_guarded cfg HANDLE_CW20 _ _ _ _ Hj) as Hjob.
  destruct (stops (jd_guard HANDLE_CW20) s e); [by apply job_run_idle|].
  erewrite io_step by done. unfold mbind at 1, io_bind at 1. unfold commit.
  destruct (handle_range _ d0) as [d1|] eqn:Hr; [|by apply job_run_idle]. cbn [mbind res_bind].
  apply handle_range_rows in Hr as (_ & _ & _ & Hb1 & _). erewrite io_step by done.
  match goal with |- context [UpdateByContract ?l s e ?d2] =>
    destruct (UpdateByContract_spec l s e d2) as (d3 & -> & _ & _ & _ & Hb3 & _) end.
  assert (checkpoints_of d3 = saveCheckpoint u e (checkpoints_of d)) as Hd3; [|simpl; by rewrite Hd3].
  assert (checkpoints_of d1 = checkpoints_of d) as <- by (unfold checkpoints_of, Db_checkpoints; by rewrite Hb1, Hb).
  unfold checkpoints_of at 1, Db_checkpoints at 1. rewrite Hb3. reflexivity.
Qed.

(** ** Concrete runs: 100 coins are minted to a, 30 go to b *)
Definition demo_node20 : Cw20Node := {|
  query_token_info := λ _, Ok None; query_minter := λ _, Ok None; query_marketing_info := λ _, Ok None;
  query_all_accounts := λ _ _, Ok []; query_balance := λ _ _, Ok (Some "0", 0); pages := 1 |}.

Definition demo_sce20 (id : Z) (act : string) (attrs : list attribute) : SmartContractEvent := {|
  se_id := id; se_smart_contract_id := 1; se_action := Some act; se_event_id := id; se_index := 0;
  se_tx_id := id; se_attributes := attrs |}.
Definition demo_event20 (id : Z) : Event := {|
  e_id := id; e_tx_id := Some id; e_type := WASM; e_block_height := 4860000 + id; e_attributes := [] |}.

Definition demo_base20 : Contracts.Db := {|
  transaction := [{| t_id := 1; t_hash := "H1"; t_height := 4860001; t_code := 0 |};
                  {| t_id := 2; t_hash := "H2"; t_height := 4860002; t_code := 0 |}];
  event := [demo_event20 1; demo_event20 2];
  code := {[ 3 := {| c_creator := "aura1creator"; c_data_hash := "cd"; c_instantiate_permission := "{}";
    c_type := Some "CW20"; c_status := None; c_store_hash := ""; c_store_height := 0 |} ]};
  code_id_verification := [];
  smart_contract := [{| sc_id := 1; sc_name := Some "crates.io:cw20-base"; sc_address := "aura1t";
    sc_creator := "aura1creator"; sc_code_id := 3; sc_status := LATEST; sc_label := None;
    sc_instantiate_hash := "H0"; sc_instantiate_height := 4850000; sc_version := None |}];
  next_contract_id := 2;
  smart_contract_event := [
    demo_sce20 1 "mint" [Attribute "amount" (Some "100"); Attribute "to" (Some "a")];
    demo_sce20 2 "transfer" [Attribute "amount" (Some "30"); Attribute "from" (Some "a"); Attribute "to" (Some "b")]];
  next_contract_event_id := 3;
  block_checkpoint := {[ "crawl:contract-event" := 4860010; "handle:cw20" := 4860000 ]} |}.

Definition demo_db20 : Db := {|
  base := demo_base20; block := {[ 4860000 := 1700000000000 ]};
  tx_msg_index := {[ 1 := 0; 2 := 0 ]}; transaction_message := {[ (1, 0) := "m"; (2, 0) := "a" ]};
  cw20_contract := [{| cw_id := 1; cw_smart_contract_id := 1; cw_symbol := None; cw_minter := None;
    cw_marketing_info := None; cw_name := None; cw_decimal := None; cw_total_supply := 0; cw_track := true;
    cw_last_updated_height := 4860000 |}];
  next_cw20_contract_id := 2; cw20_holder := ∅; cw20_activity := []; next_activity_id := 1;
  cw20_total_holder_stats := []; update_jobs := []; reindex_history := [] |}.

Definition demo_run20 : Db * res () := jobHandleCw20 (N := demo_node20) Config.json demo_db20.

Lemma cw20_job_correct_witness :
  update_jobs demo_run20.1 = [{| up_cw20ContractId := 1; up_startBlock := 4860000; up_endBlock := 4860010 |}] ∧
  ∃ rows, cw20_activity demo_run20.1 = rows ∧
    Forall2 (λ p r, activity_of p.1 p.2 r)
      (events_with_contract (getCw20ContractEvents 4860000 4860010 None None demo_db20) demo_run20.1) rows.
Proof.
  split; [vm_compute; reflexivity|].
  destruct (cw20_job_correct (N := demo_node20) Config.json demo_db20 demo_run20.1 4860000 4860010
    {| job_name := "handle:cw20"; height := 4860000 |}) as (rows & Hrows & Hf & _).
  - vm_compute; reflexivity.
  - lia.
  - vm_compute; reflexivity.
  - exists rows. split; [exact Hrows|exact Hf].
Defined.

(** The update of the balances that the run created. *)
Definition demo_update : ICw20UpdateByContractParam :=
  {| up_cw20ContractId := 1; up_startBlock := 4860000; up_endBlock := 4860010 |}.
Definition demo_updated : Db * res () := jobHandle demo_update demo_run20.1.

Lemma cw20_update_ledger_witness :
  balance demo_updated.1 1 "a" = 70 ∧
  ∀ a, balance demo_updated.1 1 a =
    balance demo_run20.1 1 a + sum_of (moved a) (orderEvents (newEvents demo_update demo_run20.1)).
Proof.
  split; [vm_compute; reflexivity|].
  destruct (cw20_update_ledger demo_update demo_run20.1 demo_updated.1) as [Ha _].
  - vm_compute; reflexivity.
  - assert (Forall (λ ev, 0 <= ca_height ev) (orderEvents (newEvents demo_update demo_run20.1))) as H0
      by (vm_compute; repeat constructor; discriminate).
    split; [vm_compute; repeat constructor; discriminate|]. rewrite Forall_forall in H0.
    intros ev Hev. split; [by apply H0|]. intros a x _ Hx.
    assert (cw20_holder demo_run20.1 = ∅) as Hh by (vm_compute; reflexivity). by rewrite Hh in Hx.
  - exact Ha.
Defined.

(** The same update, when b and a changed at a later height. *)
Definition demo_late : Db :=
  set_contract (cw20_contract demo_run20.1) 2
    {[ (1, "a") := {| ho_amount := 5; ho_last_updated_height := 4860050 |};
       (1, "b") := {| ho_amount := 7; ho_last_updated_height := 4860050 |} ]} demo_run20.1.

Lemma cw20_late_update_lost_witness :
  ∃ d', jobHandle demo_update demo_late = (d', Ok tt) ∧
    cw20_holder d' !! (1, "b") = Some {| ho_amount := 7; ho_last_updated_height := 4860050 |}.
Proof.
  destruct (cw20_late_update_lost demo_update demo_late) as (d' & Hrun & Hh & _).
  - assert (∃ e1 e2, newEvents demo_update demo_late = [e1; e2] ∧ ca_amount e1 = Some 100 ∧ ca_amount e2 = Some 30 ∧
      party (ca_from e1) = None ∧ party (ca_to e1) = Some "a" ∧ party (ca_from e2) = Some "a" ∧
      party (ca_to e2) = Some "b" ∧ ca_height e1 = 4860001 ∧ ca_height e2 = 4860002)
      as (e1 & e2 & -> & H1 & H2 & F1 & T1 & F2 & T2 & G1 & G2)
      by (do 2 eexists; split; [vm_compute; reflexivity|]; repeat split).
    intros ev Hev _. apply elem_of_cons in Hev as [->|[->|[]%not_elem_of_nil]%elem_of_cons].
    + rewrite H1, F1, T1, G1. split; [by eexists|]. intros a [|[= <-]]; [done|].
      eexists. split; [vm_compute; reflexivity|simpl; lia].
    + rewrite H2, F2, T2, G2. split; [by eexists|].
      intros a [[= <-]|[= <-]]; (eexists; split; [vm_compute; reflexivity|simpl; lia]).
  - vm_compute. left.
  - exists d'. split; [exact Hrun|]. rewrite Hh. vm_compute. reflexivity.
Defined.

Lemma cw20_first_run_throws_witness :
  ∃ msg, jobHandleCw20 (N := demo_node20) Config.json
    (set_checkpoints {[ "crawl:contract-event" := 4860010 ]} (set_stats [] {|
       base := demo_base20; block := {[ 4860001 := 1700000000000 ]};
       tx_msg_index := ∅; transaction_message := ∅; cw20_contract := []; next_cw20_contract_id := 1;
       cw20_holder := ∅; cw20_activity := []; next_activity_id := 1; cw20_total_holder_stats := [];
       update_jobs := []; reindex_history := [] |}))
  = (set_checkpoints {[ "crawl:contract-event" := 4860010 ]} (set_stats [] {|
       base := demo_base20; block := {[ 4860001 := 1700000000000 ]};
       tx_msg_index := ∅; transaction_message := ∅; cw20_contract := []; next_cw20_contract_id := 1;
       cw20_holder := ∅; cw20_activity := []; next_activity_id := 1; cw20_total_holder_stats := [];
       update_jobs := []; reindex_history := [] |}), Throw msg).
Proof. apply cw20_first_run_throws; vm_compute; reflexivity. Defined.
