(* ===== verification/Address.v ===== *)
(** * Address conversion

    [services/evm/utils.ts]: a Cosmos account has a bech32 address and an
    Ethereum (0x) address for the same bytes.  The encoders are library code
    (@cosmjs/encoding, @evmos/address-converter) and parameters here, with the
    laws the services rely on. *)
From S2P Require Import Prelude JsNum.

(** Bytes of an address, one character per byte. *)
Abbreviation bytes := string.

Class AddressCodec := {
  toBech32 : string → bytes → string;
  fromBech32 : string → res (string * bytes);   (* prefix, data *)
  ETH_encoder : bytes → string;
  ETH_decoder : string → res bytes
}.

(** The encoders and decoders are inverse of each other. *)
Class AddressCodecLaws (C : AddressCodec) (prefix : string) : Prop := {
  fromBech32_toBech32 d : fromBech32 (toBech32 prefix d) = Ok (prefix, d);
  toBech32_fromBech32 s p d : fromBech32 s = Ok (p, d) → toBech32 p d = s;
  ETH_decoder_encoder d : ETH_decoder (ETH_encoder d) = Ok d;
}.

Section Convert.
Context {C : AddressCodec}.

Definition makeBech32Encoder (prefix : string) : bytes → string := toBech32 prefix.

Definition makeBech32Decoder (currentPrefix : string) (input : string) : res bytes :=
  '(prefix, data) ← fromBech32 input;
  if bool_decide (prefix = currentPrefix) then Ok data
  else Throw "Unrecognised address format".

Definition convertBech32AddressToEthAddress (prefix bech32Address : string) : res string :=
  data ← makeBech32Decoder prefix bech32Address; Ok (ETH_encoder data).

Definition convertEthAddressToBech32Address (prefix ethAddress : string) : res string :=
  data ← ETH_decoder ethAddress; Ok (makeBech32Encoder prefix data).

Context (prefix : string) {L : AddressCodecLaws C prefix}.

Lemma convert_bech32 s e :
  convertBech32AddressToEthAddress prefix s = Ok e →
  convertEthAddressToBech32Address prefix e = Ok s.
Proof using L.
  unfold convertBech32AddressToEthAddress, convertEthAddressToBech32Address, makeBech32Decoder.
  intros H. apply bind_Ok in H as (data & H & [= <-]).
  apply bind_Ok in H as ([p d] & Hd & H). case_bool_decide; simplify_eq.
  rewrite ETH_decoder_encoder. simpl. f_equal. by apply toBech32_fromBech32.
Qed.
End Convert.

(** A codec that satisfies the laws: the prefix and the bytes, separated. *)
Module DemoCodec.
Fixpoint split_at_underscore (s : string) : res (string * string) :=
  match s with
  | EmptyString => Throw "no separator"
  | String "_"%char s => Ok (EmptyString, s)
  | String c s => '(p, d) ← split_at_underscore s; Ok (String c p, d)
  end.

Definition codec : AddressCodec := {|
  toBech32 := key2;
  fromBech32 := split_at_underscore;
  ETH_encoder := λ d, ("0x" +:+ d)%string;
  ETH_decoder := λ s, match s with
    | String "0"%char (String "x"%char d) => Ok d
    | _ => Throw "Unrecognized address format" end
|}.

Lemma split_key2 p d : no_underscore p = true → split_at_underscore (key2 p d) = Ok (p, d).
Proof.
  unfold key2. induction p as [|c p IH]; intros Hp; [done|].
  apply andb_prop in Hp as [Hc Hp]. specialize (IH Hp). simpl in *. rewrite IH.
  apply negb_true_iff, bool_decide_eq_false in Hc.
  destruct c as [[] [] [] [] [] [] [] []]; try done.
Qed.

Lemma split_key2_inv s p d : split_at_underscore s = Ok (p, d) → key2 p d = s.
Proof.
  revert p. unfold key2. induction s as [|c s IH]; intros p; [done|].
  cbn [split_at_underscore].
  destruct (Ascii.ascii_dec c "_"%char) as [->|Hne]; [by intros [= <- <-]|].
  intros H. assert (('(p, d) ← split_at_underscore s; Ok (String c p, d)) = Ok (p, d)) as H'.
  { destruct c as [[] [] [] [] [] [] [] []]; done. }
  clear H. apply bind_Ok in H' as ([p' d'] & H & [= <- <-]). by rewrite <-(IH p' H).
Qed.

Lemma demo_codec_laws prefix : no_underscore prefix = true → AddressCodecLaws codec prefix.
Proof.
  intros Hp. constructor; simpl.
  - intros d. by apply split_key2.
  - intros s p d. apply split_key2_inv.
  - done.
Qed.
End DemoCodec.
