(* ===== verification/Registry.v ===== *)
(** * The chain registry

    [common/utils/chain.registry.ts]: how attribute keys and values are
    decoded, which depends on the version of the Cosmos SDK the node runs.
    The base64 and UTF-8 functions (@cosmjs/encoding) and the comparison of
    versions (semver) are library code and parameters. *)
From Stdlib Require Import Ascii.
From S2P Require Import Prelude.

Abbreviation bytes := string.

Class Encoding := {
  fromBase64 : string → res bytes;
  toBase64 : bytes → string;
  fromUtf8 : bytes → res string;
  toUtf8 : string → bytes;
  (** [new SemVer(v1).compare(v2)], which throws on a malformed [v1] *)
  semver_compare : string → string → res Z
}.

(** ** Text

    A JS string is represented by its UTF-8 bytes.  [utf8 s]: [s] is
    well-formed UTF-8 (no overlong form, no surrogate, at most U+10FFFF). *)
Definition in_range (lo hi : Z) (c : ascii) : bool :=
  (lo <=? Z.of_N (N_of_ascii c)) && (Z.of_N (N_of_ascii c) <=? hi).

Fixpoint utf8 (s : bytes) : bool :=
  match s with
  | EmptyString => true
  | String c1 s1 =>
      if in_range 0 127 c1 then utf8 s1 else
      match s1 with
      | EmptyString => false
      | String c2 s2 =>
          if in_range 194 223 c1 then in_range 128 191 c2 && utf8 s2 else
          match s2 with
          | EmptyString => false
          | String c3 s3 =>
              if in_range 224 224 c1 then
                in_range 160 191 c2 && in_range 128 191 c3 && utf8 s3
              else if in_range 237 237 c1 then
                in_range 128 159 c2 && in_range 128 191 c3 && utf8 s3
              else if in_range 225 239 c1 then
                in_range 128 191 c2 && in_range 128 191 c3 && utf8 s3
              else
              match s3 with
              | EmptyString => false
              | String c4 s4 =>
                  (if in_range 240 240 c1 then in_range 144 191 c2
                   else if in_range 244 244 c1 then in_range 128 143 c2
                   else in_range 241 243 c1 && in_range 128 191 c2)
                  && in_range 128 191 c3 && in_range 128 191 c4 && utf8 s4
              end
          end
      end
  end.

(** The byte order mark, which a [TextDecoder] drops. *)
Definition bom : bytes :=
  String (ascii_of_nat 239) (String (ascii_of_nat 187) (String (ascii_of_nat 191) "")).

Definition is_text (s : string) : bool := utf8 s && negb (String.prefix bom s).

(** Encoding and decoding again gives the text, and base64 of a non-empty text
    is not empty. *)
Class EncodingLaws (E : Encoding) : Prop := {
  fromBase64_toBase64 b : fromBase64 (toBase64 b) = Ok b;
  fromUtf8_toUtf8 s : is_text s = true → fromUtf8 (toUtf8 s) = Ok s;
  toBase64_nonempty s : s ≠ "" → toBase64 (toUtf8 s) ≠ ""
}.

(** [base64_attributes] says which of the two pairs of closures
    [decodeAttribute] and [encodeAttribute] are; they are [undefined] until
    the version is set. *)
Record ChainRegistry := {
  cosmosSdkVersion : string;
  base64_attributes : option bool
}.

Definition new_ChainRegistry : ChainRegistry :=
  {| cosmosSdkVersion := "v0.45.17"; base64_attributes := None |}.

Section Registry.
Context {E : Encoding}.

Definition setCosmosSdkVersionByString (version : string) : res ChainRegistry :=
  c ← semver_compare version "v0.45.99";
  Ok {| cosmosSdkVersion := version; base64_attributes := Some (c =? -1) |}.

Definition decodeAttribute (r : ChainRegistry) (input : string) : res string :=
  match base64_attributes r with
  | None => Throw "TypeError: this._registry.decodeAttribute is not a function"
  | Some true =>
      if decide (input = "") then Ok input
      else match (b ← fromBase64 input; fromUtf8 b) with
           | Ok s => Ok s
           | Throw _ => Ok input
           end
  | Some false => Ok input
  end.

Definition encodeAttribute (r : ChainRegistry) (input : string) : res string :=
  match base64_attributes r with
  | None => Throw "TypeError: this._registry.encodeAttribute is not a function"
  | Some true => Ok (toBase64 (toUtf8 input))
  | Some false => Ok input
  end.

(** The registry can decode once the version is set. *)
Definition initialised (r : ChainRegistry) : Prop := is_Some (base64_attributes r).

Lemma decodeAttribute_total r s : initialised r → ∃ s', decodeAttribute r s = Ok s'.
Proof.
  intros [b Hb]. unfold decodeAttribute. rewrite Hb. destruct b; [|eauto].
  destruct (decide (s = "")); [eauto|]. destruct (_ ≫= _); eauto.
Qed.

Lemma setCosmosSdkVersion_initialised v r :
  setCosmosSdkVersionByString v = Ok r → initialised r.
Proof.
  unfold setCosmosSdkVersionByString, initialised. intros H.
  apply bind_Ok in H as (c & _ & [= <-]). simpl. eauto.
Qed.

Lemma decode_encode `{!EncodingLaws E} r s e :
  is_text s = true → encodeAttribute r s = Ok e → decodeAttribute r e = Ok s.
Proof.
  intros Ht. unfold encodeAttribute, decodeAttribute. destruct (base64_attributes r) as [[]|]; [| |done].
  - intros [= <-]. rewrite fromBase64_toBase64. simpl. rewrite fromUtf8_toUtf8 by done.
    case_decide as Hs; [|done]. destruct (decide (s = "")) as [->|Hne]; [by rewrite Hs|].
    by destruct (toBase64_nonempty s Hne Hs).
  - by intros [= <-].
Qed.

(** ** Attributes of an event *)

(** An event as the node returns it. *)
Record RawAttribute := { ra_key : option string; ra_value : option string }.
Record RawEvent := { re_type : string; re_attributes : list RawAttribute }.

(** A row of [event_attribute]; the event and the transaction it belongs to
    are those of the event row that holds it.  The validator of the model
    coerces a null key or value to the empty string ([coerceTypes]). *)
Record EventAttribute := {
  att_block_height : Z;
  att_index : Z;
  att_composite_key : string;
  att_key : string;
  att_value : string
}.

(** A row of [event] with its attributes. *)
Record EventRow := {
  ev_tx_id : option Z;
  ev_tx_msg_index : option Z;
  ev_type : string;
  ev_attributes : list EventAttribute;
  ev_block_height : Z;
  ev_source : string
}.
Definition BEGIN_BLOCK_EVENT := "BEGIN_BLOCK_EVENT".
Definition END_BLOCK_EVENT := "END_BLOCK_EVENT".
Definition TX_EVENT := "TX_EVENT".

(** [x ? this._registry.decodeAttribute(x) : null] *)
Definition decode_or_null (r : ChainRegistry) (x : option string) : res (option string) :=
  match x with
  | Some s => if decide (s = "") then Ok None else s' ← decodeAttribute r s; Ok (Some s')
  | None => Ok None
  end.

(** The row built from attribute number [i] of an event of type [ty]. *)
Definition attribute_row (r : ChainRegistry) (ty : string) (height : Z) (i : nat)
    (a : RawAttribute) : res EventAttribute :=
  key ← decode_or_null r (ra_key a);
  value ← decode_or_null r (ra_value a);
  Ok {| att_block_height := height;
        att_index := Z.of_nat i;
        att_composite_key := default "" ((λ k, ty +:+ "." +:+ k)%string <$> key);
        att_key := default "" key;
        att_value := default "" value |}.

Fixpoint attribute_rows_from (r : ChainRegistry) (ty : string) (height : Z) (i : nat)
    (l : list RawAttribute) : res (list EventAttribute) :=
  match l with
  | [] => Ok []
  | a :: l => row ← attribute_row r ty height i a;
              rows ← attribute_rows_from r ty height (S i) l; Ok (row :: rows)
  end.

(** [event.attributes.map((attribute, index) => ({...}))] *)
Definition attribute_rows (r : ChainRegistry) (ty : string) (height : Z)
    (l : list RawAttribute) : res (list EventAttribute) :=
  attribute_rows_from r ty height 0 l.

Lemma decode_or_null_total r x : initialised r → ∃ y, decode_or_null r x = Ok y.
Proof.
  intros Hr. destruct x as [s|]; simpl; [|eauto]. case_decide; [eauto|].
  destruct (decodeAttribute_total r s Hr) as [s' ->]. simpl. eauto.
Qed.

Lemma attribute_rows_total r ty h l : initialised r → ∃ rows, attribute_rows r ty h l = Ok rows.
Proof.
  intros Hr. unfold attribute_rows. generalize 0%nat as i.
  induction l as [|a l IH]; intros i; simpl; [eauto|].
  unfold attribute_row. destruct (decode_or_null_total r (ra_key a) Hr) as [k ->]. simpl.
  destruct (decode_or_null_total r (ra_value a) Hr) as [v ->]. simpl.
  destruct (IH (S i)) as [rows ->]. simpl. eauto.
Qed.

(** The rows are numbered from 0, so the primary key ([event_id], [index],
    [block_height]) of [event_attribute] is never violated. *)
Lemma attribute_rows_index r ty h l rows :
  attribute_rows r ty h l = Ok rows →
  att_index <$> rows = Z.of_nat <$> seq 0 (length l).
Proof.
  unfold attribute_rows. generalize 0%nat as i. revert rows.
  induction l as [|a l IH]; intros rows i; simpl; [by intros [= <-]|].
  intros (row & Hrow & (rows' & Hrows & [= <-])%bind_Ok)%bind_Ok. simpl.
  f_equal; [|by apply IH]. unfold attribute_row in Hrow.
  apply bind_Ok in Hrow as (? & _ & Hrow). by apply bind_Ok in Hrow as (? & _ & [= <-]).
Qed.

(** The row of an attribute: key and value decoded, an absent one empty. *)
Definition decoded_attribute (r : ChainRegistry) (ty : string) (height : Z) (a : RawAttribute)
    (row : EventAttribute) : Prop :=
  ∃ key value, decode_or_null r (ra_key a) = Ok key ∧ decode_or_null r (ra_value a) = Ok value ∧
    att_key row = default "" key ∧ att_value row = default "" value ∧
    att_composite_key row = match key with Some k => (ty +:+ "." +:+ k)%string | None => "" end ∧
    att_block_height row = height.

Lemma attribute_rows_decoded r ty h l rows :
  attribute_rows r ty h l = Ok rows → Forall2 (decoded_attribute r ty h) l rows.
Proof.
  unfold attribute_rows. generalize 0%nat as i. revert rows.
  induction l as [|a l IH]; intros rows i; simpl; [by intros [= <-]; constructor|].
  intros (row & Hrow & (rows' & Hrows & [= <-])%bind_Ok)%bind_Ok.
  constructor; [|by eapply IH]. unfold attribute_row in Hrow.
  apply bind_Ok in Hrow as (key & Hkey & (value & Hvalue & [= <-])%bind_Ok).
  exists key, value. do 4 (split; [done|]). by destruct key.
Qed.
End Registry.

(** ** An instance

    The base64 of RFC 4648, used by the witnesses. *)
Module DemoEncoding.
Definition Zc (c : ascii) : Z := Z.of_N (N_of_ascii c).
Definition cZ (z : Z) : ascii := ascii_of_N (Z.to_N z).

Definition b64_char (v : Z) : ascii :=
  if v <? 26 then cZ (65 + v) else if v <? 52 then cZ (71 + v)
  else if v <? 62 then cZ (v - 4) else if v =? 62 then "+"%char else "/"%char.

Definition b64_val (c : ascii) : res Z :=
  let z := Zc c in
  if (65 <=? z) && (z <=? 90) then Ok (z - 65)
  else if (97 <=? z) && (z <=? 122) then Ok (z - 71)
  else if (48 <=? z) && (z <=? 57) then Ok (z + 4)
  else if z =? 43 then Ok 62 else if z =? 47 then Ok 63
  else Throw "Invalid base64 string format".

Definition char1 (a : Z) := b64_char (a / 4).
Definition char2 (a b : Z) := b64_char (a mod 4 * 16 + b / 16).
Definition char3 (b c : Z) := b64_char (b mod 16 * 4 + c / 64).
Definition char4 (c : Z) := b64_char (c mod 64).

Fixpoint encode (s : bytes) : string :=
  match s with
  | EmptyString => ""
  | String a EmptyString => String (char1 (Zc a)) (String (char2 (Zc a) 0) "==")
  | String a (String b EmptyString) =>
      String (char1 (Zc a)) (String (char2 (Zc a) (Zc b)) (String (char3 (Zc b) 0) "="))
  | String a (String b (String c s)) =>
      String (char1 (Zc a)) (String (char2 (Zc a) (Zc b))
        (String (char3 (Zc b) (Zc c)) (String (char4 (Zc c)) (encode s))))
  end.

Fixpoint decode (s : string) : res bytes :=
  match s with
  | EmptyString => Ok EmptyString
  | String w (String x (String y (String z s))) =>
      w ← b64_val w; x ← b64_val x;
      let c1 := cZ (w * 4 + x / 16) in
      if decide (y = "="%char) then
        (if decide (z = "="%char ∧ s = EmptyString) then Ok (String c1 EmptyString)
         else Throw "Invalid base64 string format")
      else
        y ← b64_val y;
        let c2 := cZ (x mod 16 * 16 + y / 4) in
        if decide (z = "="%char) then
          (if decide (s = EmptyString) then Ok (String c1 (String c2 EmptyString))
           else Throw "Invalid base64 string format")
        else z ← b64_val z; rest ← decode s;
             Ok (String c1 (String c2 (String (cZ (y mod 4 * 64 + z)) rest)))
  | _ => Throw "Invalid string. Length must be a multiple of 4"
  end.

(** Versions compare as text here, which is right for two-digit minors. *)
Definition encoding : Encoding := {|
  fromBase64 := decode; toBase64 := encode;
  fromUtf8 := λ b, if utf8 b then Ok b else Throw "The encoded data was not valid";
  toUtf8 := λ s, s;
  semver_compare := λ a b, Ok (match String.compare a b with Lt => -1 | Eq => 0 | Gt => 1 end)
|}.

Lemma b64_val_char v : 0 <= v < 64 → b64_val (b64_char v) = Ok v ∧ b64_char v ≠ "="%char.
Proof.
  intros Hv.
  assert (Forall (λ v, b64_val (b64_char v) = Ok v ∧ b64_char v ≠ "="%char) (seqZ 0 64)) as H
    by by_compute.
  rewrite Forall_forall in H. apply H, elem_of_seqZ. lia.
Qed.

Lemma Zc_range c : 0 <= Zc c < 256.
Proof. unfold Zc. pose proof (N_ascii_bounded c). lia. Qed.

Lemma cZ_Zc c : cZ (Zc c) = c.
Proof. unfold cZ, Zc. by rewrite N2Z.id, ascii_N_embedding. Qed.

Ltac b64_step :=
  match goal with
  | |- context [b64_val (b64_char ?v)] =>
      let H := fresh in let H' := fresh in
      destruct (b64_val_char v) as [H H'];
      [Z.to_euclidean_division_equations; lia|rewrite H; simpl]
  end.

Ltac b64_byte :=
  match goal with
  | |- context [cZ ?e] =>
      match goal with
      | x : ascii |- _ => replace e with (Zc x) by (Z.to_euclidean_division_equations; lia)
      end; rewrite cZ_Zc
  end.

Lemma decode_encode_base64 s : decode (encode s) = Ok s.
Proof.
  assert (∀ n s, (String.length s <= n)%nat → decode (encode s) = Ok s) as H; [|by eapply H].
  clear s. induction n as [|n IH]; intros s Hn; [by destruct s; simpl in Hn; [|lia]|].
  destruct s as [|a [|b [|c s]]]; [done|..];
    pose proof (Zc_range a); try pose proof (Zc_range b); try pose proof (Zc_range c);
    cbn [encode]; unfold char1, char2, char3, char4; cbn [decode];
    repeat b64_step; repeat case_decide; try done; repeat b64_step; repeat case_decide; try done.
  all: try (exfalso; tauto).
  - by repeat b64_byte.
  - by repeat b64_byte.
  - rewrite IH by (simpl in Hn; lia). simpl. by repeat b64_byte.
Qed.

Lemma demo_encoding_laws : EncodingLaws encoding.
Proof.
  constructor; simpl.
  - apply decode_encode_base64.
  - intros s Hs. unfold is_text in Hs. by destruct (utf8 s).
  - by intros [|a [|b [|c s]]].
Qed.

Definition registry : ChainRegistry :=
  {| cosmosSdkVersion := "v0.45.16"; base64_attributes := Some true |}.
End DemoEncoding.
