(* ===== verification/Decode.v ===== *)
(** * Decoding messages

    [decodeMsg] of [common/utils/chain.registry.ts] with [isBase64] and
    [camelizeKeys] of [common/utils/utils.ts]: the JSON of a protobuf message,
    the messages inside it included.  The generated types ([decode] and
    [toJSON]), [JSON.parse] and [_.snakeCase] are a class. *)
From S2P Require Import Prelude JsNum Json Registry.
From Stdlib Require Import Ascii.

Module MSG_TYPE.
Definition MSG_EXECUTE_CONTRACT := "/cosmwasm.wasm.v1.MsgExecuteContract".
Definition MSG_INSTANTIATE_CONTRACT := "/cosmwasm.wasm.v1.MsgInstantiateContract".
Definition MSG_INSTANTIATE2_CONTRACT := "/cosmwasm.wasm.v1.MsgInstantiateContract2".
Definition MSG_ACKNOWLEDGEMENT := "/ibc.core.channel.v1.MsgAcknowledgement".
Definition MSG_AUTHZ_EXEC := "/cosmos.authz.v1beta1.MsgExec".
Definition MSG_SUBMIT_PROPOSAL_V1 := "/cosmos.gov.v1.MsgSubmitProposal".
End MSG_TYPE.

(** ** Values *)

(** A [Uint8Array], or a value of JSON or [undefined]. *)
Inductive MsgValue := VBytes (b : bytes) | VJson (v : option Json).
Class ProtoTypes := {
  (** [registry.lookupType(typeUrl)], then [toJSON(registry.decode({typeUrl, value}))]:
      its keys with their values, which can be undefined *)
  lookupType : string → option (MsgValue → res (list (string * option Json)));
  parse_json : string → res Json;
  snakeCase : string → string
}.

Definition is_base64_char (c : ascii) : bool :=
  let n := Z.of_N (N_of_ascii c) in
  ((48 <=? n) && (n <=? 57)) || ((65 <=? n) && (n <=? 90)) || ((97 <=? n) && (n <=? 122)) || (n =? 43) || (n =? 47).
Definition is_pad (c : ascii) : bool := bool_decide (c = "="%char).
(** [/^([0-9a-zA-Z+/]{4})*(([0-9a-zA-Z+/]{2}==)|([0-9a-zA-Z+/]{3}=))?$/] *)
Fixpoint isBase64 (text : string) : bool :=
  match text with
  | EmptyString => true
  | String a (String b (String c (String d rest))) =>
      is_base64_char a && is_base64_char b &&
      (if is_base64_char c && is_base64_char d then isBase64 rest
       else bool_decide (rest = "") && is_pad d && (is_base64_char c || is_pad c))
  | _ => false
  end.
(** [String(value)], as the test of a regular expression converts it. *)
Definition bytes_text (b : bytes) : string :=
  String.concat "," ((λ c, toString (Z.of_N (N_of_ascii c))) <$> String.list_ascii_of_string b).
Definition value_text (v : MsgValue) : string :=
  match v with VBytes b => bytes_text b | VJson o => from_option json_string "undefined" o end.
(** A [Uint8Array] in a column of type jsonb. *)
Definition bytes_json (b : bytes) : Json :=
  JObj (imap (λ i c, (toString (Z.of_nat i), JNum (Z.of_N (N_of_ascii c)))) (String.list_ascii_of_string b)).
Definition value_json (v : MsgValue) : option Json := match v with VBytes b => Some (bytes_json b) | VJson o => o end.

(** ** Objects *)

(** [o[k] = v]; a member that is [undefined] is left out. *)
Fixpoint set_key (k : string) (v : Json) (o : list (string * Json)) : list (string * Json) :=
  match o with
  | [] => [(k, v)]
  | x :: o => if bool_decide (x.1 = k) then (k, v) :: o else x :: set_key k v o
  end.
Definition set_opt (k : string) (v : option Json) (o : list (string * Json)) : list (string * Json) :=
  match v with Some v => set_key k v o | None => o end.
Definition member (k : string) (o : list (string * Json)) : option Json := opt_get (Some (JObj o)) k.

(** ** Computations with fuel: [None] when it runs out *)
Definition fueled (A : Type) : Type := option (res A).
Definition fbind {A B} (m : fueled A) (k : A → fueled B) : fueled B :=
  match m with None => None | Some (Throw e) => Some (Throw e) | Some (Ok a) => k a end.
Fixpoint fmapR {A B} (f : A → fueled B) (l : list A) : fueled (list B) :=
  match l with [] => Some (Ok []) | x :: l => fbind (f x) (λ y, fbind (fmapR f l) (λ ys, Some (Ok (y :: ys)))) end.

Section Decode.
Context {E : Encoding} {P : ProtoTypes}.

(** [Utils.isBase64(value) ? fromBase64(value) : value] *)
Definition from_base64_value (v : MsgValue) : res MsgValue :=
  if isBase64 (value_text v) then
    match v with
    | VJson (Some (JStr s)) => b ← fromBase64 s; Ok (VBytes b)
    | _ => Throw "TypeError: base64String.match is not a function"
    end
  else Ok v.
Definition is_wasm_msg (typeUrl : string) : bool :=
  bool_decide (typeUrl ∈ [MSG_TYPE.MSG_EXECUTE_CONTRACT; MSG_TYPE.MSG_INSTANTIATE_CONTRACT; MSG_TYPE.MSG_INSTANTIATE2_CONTRACT]).
(** [fromUtf8(fromBase64(v))] *)
Definition base64_text (v : option Json) : res string :=
  match v with Some (JStr s) => b ← fromBase64 s; fromUtf8 b | _ => Throw "TypeError" end.

Definition parse_wasm (result : list (string * Json)) : list (string * Json) :=
  if is_truthy (member "msg" result) then
    match base64_text (member "msg" result) with Ok s => set_key "msg" (JStr s) result | Throw _ => result end
  else result.
(** The data of the packet stays parsed when the acknowledgement is not JSON. *)
Definition parse_ack (result : list (string * Json)) : list (string * Json) :=
  match member "packet" result with
  | Some (JObj packet) =>
      match (s ← base64_text (member "data" packet); parse_json s) with
      | Ok data =>
          let result := set_key "packet" (JObj (set_key "data" data packet)) result in
          match (s ← base64_text (member "acknowledgement" result); parse_json s) with
          | Ok ack => set_key "acknowledgement" ack result
          | Throw _ => result
          end
      | Throw _ => result
      end
  | _ => result
  end.

(** What [decodeMsg] is called with: a value of JSON, or an object with the
    bytes of a message. *)
Inductive Arg := AJson (v : option Json) | AMsg (typeUrl : option Json) (value : MsgValue).
Definition arg_typeUrl (a : Arg) : option Json := match a with AJson v => opt_get v "typeUrl" | AMsg t _ => t end.
Definition arg_value (a : Arg) : MsgValue := match a with AJson v => VJson (opt_get v "value") | AMsg _ v => v end.
Definition arg_truthy (a : Arg) : bool := match a with AJson v => is_truthy v | AMsg _ _ => true end.
Definition arg_json (a : Arg) : option Json :=
  match a with AJson v => v | AMsg t v => Some (JObj (set_opt "value" (value_json v) (set_opt "typeUrl" t []))) end.
Definition type_text (t : option Json) : string := match t with Some (JStr s) => s | _ => "" end.

(** The messages in the array [key], all of them or none. *)
Definition sub_arg (subMsg : Json) : res Arg :=
  typeUrl ← json_get (Some subMsg) "typeUrl";
  value ← from_base64_value (VJson (opt_get (Some subMsg) "value"));
  Ok (AMsg typeUrl value).
Definition decode_sub (decode : Arg → fueled (option Json)) (key : string) (result : list (string * Json))
    : fueled (list (string * Json)) :=
  match member key result with
  | Some (JArr l) =>
      match fmapR (λ subMsg, fbind (Some (sub_arg subMsg)) decode) l with
      | None => None
      | Some (Ok msgs) => Some (Ok (set_key key (JArr (default JNull <$> msgs)) result))
      | Some (Throw _) => Some (Ok result)
      end
  | _ => Some (Ok result)
  end.
(** [decoded[key].typeUrl ? decodeMsg(decoded[key]) : decoded[key]] *)
Definition decode_key (decode : Arg → fueled (option Json)) (x : string * option Json) : fueled (string * option Json) :=
  fbind (Some (json_get x.2 "typeUrl")) (λ t,
    if is_truthy t then fbind (decode (AJson x.2)) (λ v, Some (Ok (x.1, v))) else Some (Ok x)).

(** The fields of some types that are JSON or messages in base64. *)
Definition parse_fields (decode : Arg → fueled (option Json)) (typeUrl : string) (result : list (string * Json))
    : fueled (list (string * Json)) :=
  if is_wasm_msg typeUrl then Some (Ok (parse_wasm result))
  else if bool_decide (typeUrl = MSG_TYPE.MSG_ACKNOWLEDGEMENT) then Some (Ok (parse_ack result))
  else if bool_decide (typeUrl = MSG_TYPE.MSG_AUTHZ_EXEC) then decode_sub decode "msgs" result
  else if bool_decide (typeUrl = MSG_TYPE.MSG_SUBMIT_PROPOSAL_V1) then decode_sub decode "messages" result
  else Some (Ok result).
Definition type_of (t : option Json) : option (MsgValue → res (list (string * option Json))) :=
  match t with Some (JStr s) => lookupType s | _ => None end.
(** The body, with [decode] for the recursive calls. *)
Definition decode_step (decode : Arg → fueled (option Json)) (msg : Arg) : fueled (option Json) :=
  if negb (arg_truthy msg) then Some (Ok None) else
  if negb (is_truthy (arg_typeUrl msg)) then Some (Ok (arg_json msg)) else
  let typeUrl := type_text (arg_typeUrl msg) in
  let result := set_opt "@type" (arg_typeUrl msg) [] in
  fbind match type_of (arg_typeUrl msg) with
        | None =>
            Some (Ok (set_opt "value" (match arg_value msg with VBytes b => Some (JStr (toBase64 b)) | VJson o => o end) result))
        | Some msgType =>
            fbind (Some (value ← from_base64_value (arg_value msg); msgType value)) (λ decoded,
            fbind (fmapR (decode_key decode) decoded) (λ members,
            Some (Ok (foldl (λ r x, set_opt x.1 x.2 r) result members))))
        end (λ result,
  fbind (parse_fields decode typeUrl result) (λ result, Some (Ok (Some (JObj result))))).
Fixpoint decodeMsg (fuel : nat) (msg : Arg) : fueled (option Json) :=
  match fuel with O => None | S fuel => decode_step (decodeMsg fuel) msg end.

(** ** Keys *)
Definition key_case (key : string) : string := if bool_decide (key = "@type") then "@type" else snakeCase key.
Fixpoint camelizeKeys (v : Json) : Json :=
  match v with
  | JArr l => JArr (map camelizeKeys l)
  | JObj o => JObj (fold_left (λ r x, set_key (key_case x.1) x.2 r) (map (λ x, (x.1, camelizeKeys x.2)) o) [])
  | _ => v
  end.
End Decode.

(** ** Fuel *)
Definition value_size (v : MsgValue) : nat :=
  match v with VBytes b => String.length b | VJson (Some (JStr s)) => String.length s | VJson _ => 0 end.
(** The values of the messages in a member of a decoded message: its own, and
    those of its elements. *)
Definition nested (v : Json) : list Json := match v with JArr l => v :: l | _ => [v] end.
Class ProtoLaws {E : Encoding} (P : ProtoTypes) : Prop := {
  (** a message inside another one, whose typeUrl is part of the other's bytes,
      is shorter *)
  nested_smaller t decode v l k w x b :
    lookupType t = Some decode → decode v = Ok l → (k, Some w) ∈ l → x ∈ nested w →
    is_truthy (opt_get (Some x) "typeUrl") = true →
    from_base64_value (VJson (opt_get (Some x) "value")) = Ok b → (value_size b < value_size v)%nat;
  snakeCase_idempotent k : snakeCase (snakeCase k) = snakeCase k
}.

Lemma fmapR_fuel {A B} (f : A → fueled B) l : (∀ x, x ∈ l → f x ≠ None) → fmapR f l ≠ None.
Proof.
  induction l as [|x l IH]; [done|]. intros Hf. cbn [fmapR]. pose proof (Hf x ltac:(by left)) as Hx.
  destruct (f x) as [[y|e]|]; cbn [fbind]; [|done|done].
  pose proof (IH ltac:(intros z Hz; apply Hf; by right)) as Hl. destruct (fmapR f l) as [[ys|e]|]; by cbn [fbind].
Qed.

Lemma fmapR_ext {A B} (f g : A → fueled B) l : (∀ x, x ∈ l → f x = g x) → fmapR f l = fmapR g l.
Proof.
  induction l as [|x l IH]; intros H; [done|]. cbn [fmapR]. rewrite H by (by left). rewrite IH; [done|].
  intros y Hy. apply H. by right.
Qed.

Lemma fmapR_mono {A B} (f g : A → fueled B) l r :
  (∀ x y, x ∈ l → f x = Some y → g x = Some y) → fmapR f l = Some r → fmapR g l = Some r.
Proof.
  revert r. induction l as [|x l IH]; intros r H; [done|]. cbn [fmapR].
  destruct (f x) as [y|] eqn:Hx; [|done]. rewrite (H x y) by (done || by left). destruct y as [y|e]; cbn [fbind]; [|done].
  destruct (fmapR f l) as [ys|] eqn:Hl; [|done]. rewrite (IH ys); [done| |done]. intros z w Hz. apply H. by right.
Qed.

Lemma fmapR_Ok {A B} (f : A → fueled B) l ys y : fmapR f l = Some (Ok ys) → y ∈ ys → ∃ x, x ∈ l ∧ f x = Some (Ok y).
Proof.
  revert ys. induction l as [|x l IH]; intros ys; cbn [fmapR]; [by intros [= <-] ?%not_elem_of_nil|].
  destruct (f x) as [[z|e]|] eqn:Hx; cbn [fbind]; [|done|done].
  destruct (fmapR f l) as [[zs|e]|] eqn:Hl; cbn [fbind]; [|done|done]. intros [= <-] [->|Hy]%elem_of_cons.
  - exists x. split; [left|done].
  - destruct (IH zs eq_refl Hy) as (w & Hw & Hf). exists w. split; [by right|done].
Qed.

(** ** Members *)
Lemma member_set_key k k' v o : member k (set_key k' v o) = if bool_decide (k' = k) then Some v else member k o.
Proof.
  unfold member. cbn [opt_get]. induction o as [|x o IH]; cbn [set_key find fst snd]; [by destruct (bool_decide (k' = k))|].
  destruct (bool_decide_reflect (x.1 = k')) as [Hx|Hx]; cbn [find fst snd].
  - rewrite <-Hx. by destruct (bool_decide (x.1 = k)).
  - destruct (bool_decide_reflect (x.1 = k)) as [Hk|Hk]; [|exact IH].
    rewrite bool_decide_false; [done|]. intros ->. by apply Hx.
Qed.

Lemma member_set_opt k k' v o : member k (set_opt k' v o) = if bool_decide (k' = k ∧ is_Some v) then v else member k o.
Proof.
  destruct v as [v|]; cbn [set_opt].
  - rewrite member_set_key. repeat case_bool_decide; try done; [|tauto]. naive_solver.
  - rewrite bool_decide_false; [done|]. by intros [_ [? ?]].
Qed.

Lemma member_members k v ms o :
  member k (foldl (λ r x, set_opt x.1 x.2 r) o ms) = Some v → (k, Some v) ∈ ms ∨ member k o = Some v.
Proof.
  revert o. induction ms as [|x ms IH]; intros o; cbn [foldl]; [by right|]. intros [H|H]%IH; [left; by right|].
  rewrite member_set_opt in H. case_bool_decide as Hx; [|by right]. destruct x as [k' v'], Hx as [Hk _]. cbn in *. subst. left. left.
Qed.

Section Termination.
Context {E : Encoding} {P : ProtoTypes} `{!ProtoLaws P}.

(** What a call decodes, one more than its size; nothing when the value
    is refused or is no message. *)
Definition arg_size (a : Arg) : nat :=
  if is_truthy (arg_typeUrl a) then match from_base64_value (arg_value a) with Ok v => S (value_size v) | Throw _ => 0 end else 0.

Lemma decodeMsg_object fuel v r :
  is_truthy (opt_get v "typeUrl") = true → decodeMsg fuel (AJson v) = Some (Ok r) → ∃ o, r = Some (JObj o).
Proof.
  destruct fuel as [|fuel]; [done|]. intros Ht. cbn [decodeMsg]. unfold decode_step. cbn [arg_typeUrl]. rewrite Ht.
  destruct (arg_truthy (AJson v)) eqn:Hv; cbn [negb]; [|by destruct v as [[]|]].
  match goal with |- fbind ?m _ = _ → _ => destruct m as [[result|]|] end; cbn [fbind]; [|done|done].
  match goal with |- fbind ?m _ = _ → _ => destruct m as [[result'|]|] end; cbn [fbind]; [|done|done].
  intros [= <-]. by eexists.
Qed.

(** A member of the result that is an array is one of the decoded message. *)
Lemma array_member fuel decoded members t k l :
  fmapR (decode_key (decodeMsg fuel)) decoded = Some (Ok members) → k ≠ "@type" →
  member k (foldl (λ r x, set_opt x.1 x.2 r) (set_opt "@type" t []) members) = Some (JArr l) → (k, Some (JArr l)) ∈ decoded.
Proof.
  intros Hm Hk [Hin|H]%member_members.
  - destruct (fmapR_Ok _ _ _ _ Hm Hin) as ([k' v] & Hv & Hd). unfold decode_key in Hd. cbn [fst snd] in Hd.
    destruct (json_get v "typeUrl") as [ty|e] eqn:Hty; cbn [fbind] in Hd; [|done].
    destruct (is_truthy ty) eqn:Ht; [|by injection Hd as -> ->].
    apply json_get_Ok in Hty as ->. destruct (decodeMsg fuel (AJson v)) as [[r|e]|] eqn:Hr; cbn [fbind] in Hd; [|done|done].
    destruct (decodeMsg_object _ _ _ Ht Hr) as [o ->]. done.
  - rewrite member_set_opt in H. case_bool_decide as Hc; [naive_solver|done].
Qed.
Lemma decode_sub_fuel (decode : Arg → fueled (option Json)) key result :
  (∀ l x a, member key result = Some (JArr l) → x ∈ l → sub_arg x = Ok a → decode a ≠ None) → decode_sub decode key result ≠ None.
Proof.
  intros H. unfold decode_sub. destruct (member key result) as [[| | | |l|]|] eqn:Hm; try done.
  pose proof (fmapR_fuel (λ subMsg, fbind (Some (sub_arg subMsg)) decode) l) as Hl.
  destruct (fmapR _ l) as [[]|]; [done|done|]. exfalso. apply Hl; [|done].
  intros x Hx. destruct (sub_arg x) as [a|e] eqn:Ha; cbn [fbind]; [|done]. by apply (H l x a).
Qed.

Lemma from_base64_twice v v' : from_base64_value v = Ok v' → ∀ w, from_base64_value v' = Ok w → w = v'.
Proof.
  unfold from_base64_value. intros Hv w. destruct (isBase64 (value_text v')) eqn:H'; [|by intros [= ->]].
  destruct (isBase64 (value_text v)) eqn:Hb.
  - destruct v as [b|[[]|]]; try done. by apply bind_Ok in Hv as (b & _ & [= <-]).
  - injection Hv as ->. congruence.
Qed.

Lemma parse_fields_fuel (decode : Arg → fueled (option Json)) typeUrl result :
  (∀ key l x a, key ∈ ["msgs"; "messages"] → member key result = Some (JArr l) → x ∈ l → sub_arg x = Ok a → decode a ≠ None) →
  parse_fields decode typeUrl result ≠ None.
Proof.
  intros H. unfold parse_fields. destruct (is_wasm_msg typeUrl); [done|]. destruct (bool_decide (typeUrl = MSG_TYPE.MSG_ACKNOWLEDGEMENT)); [done|].
  destruct (bool_decide (typeUrl = MSG_TYPE.MSG_AUTHZ_EXEC)).
  { apply decode_sub_fuel. intros l x a. apply (H "msgs"). left. }
  destruct (bool_decide (typeUrl = MSG_TYPE.MSG_SUBMIT_PROPOSAL_V1)); [|done].
  apply decode_sub_fuel. intros l x a. apply (H "messages"). right. left.
Qed.

(** The messages a call decodes are smaller than its own. *)
Lemma nested_arg t decode v decoded k w x a :
  lookupType t = Some decode → decode v = Ok decoded → (k, Some w) ∈ decoded → x ∈ nested w →
  (a = AJson (Some x) ∨ sub_arg x = Ok a) → (arg_size a <= value_size v)%nat.
Proof using ProtoLaws0.
  intros Ht Hd Hk Hx Ha. pose proof (λ b, nested_smaller t decode v decoded k w x b Ht Hd Hk Hx) as Hlt. unfold arg_size.
  destruct (is_truthy (arg_typeUrl a)) eqn:Htype; [|lia]. destruct Ha as [->|Ha].
  - cbn [arg_value]. cbn [arg_typeUrl] in Htype. destruct (from_base64_value _) as [b|e]; [|lia]. by apply Hlt.
  - unfold sub_arg in Ha. apply bind_Ok in Ha as (ty & Hty & (b & Hb & [= <-])%bind_Ok). cbn [arg_value].
    apply json_get_Ok in Hty. cbn [arg_typeUrl] in Htype. rewrite Hty in Htype.
    destruct (from_base64_value b) as [b'|e] eqn:Hb'; [|lia]. rewrite (from_base64_twice _ _ Hb _ Hb'). by apply Hlt.
Qed.

(** A call decodes messages of ever smaller size, so it ends: fuel of one more
    than the size of its bytes is enough. *)
Theorem decodeMsg_terminates fuel msg : (arg_size msg < fuel)%nat → decodeMsg fuel msg ≠ None.
Proof using ProtoLaws0.
  revert msg. induction fuel as [|fuel IH]; intros msg Hf; [lia|]. cbn [decodeMsg]. unfold decode_step.
  destruct (negb (arg_truthy msg)); [done|]. destruct (is_truthy (arg_typeUrl msg)) eqn:Htype; cbn [negb]; [|done].
  destruct (type_of (arg_typeUrl msg)) as [decode|] eqn:Hty; cycle 1.
  { cbn [fbind]. match goal with |- context [parse_fields ?f ?t ?r] => pose proof (parse_fields_fuel f t r) as Hpost; destruct (parse_fields f t r) as [[]|] end; try done.
    exfalso. apply Hpost; [|done]. intros key l x a Hkey Hm. rewrite !member_set_opt in Hm. revert Hm.
    repeat case_bool_decide; try done; set_solver. }
  destruct (from_base64_value (arg_value msg)) as [v|e] eqn:Hv; cbn [mbind res_bind fbind]; [|done].
  destruct (decode v) as [decoded|e] eqn:Hd; cbn [fbind]; [|done].
  assert (lookupType (type_text (arg_typeUrl msg)) = Some decode) as Hlook.
  { destruct (arg_typeUrl msg) as [[]|]; done. }
  assert (∀ k w x a, (k, Some w) ∈ decoded → x ∈ nested w → (a = AJson (Some x) ∨ sub_arg x = Ok a) → decodeMsg fuel a ≠ None) as Hrec.
  { intros k w x a Hk Hx Ha. apply IH. pose proof (nested_arg _ _ _ _ _ _ _ _ Hlook Hd Hk Hx Ha).
    unfold arg_size in Hf. rewrite Htype, Hv in Hf. lia. }
  pose proof (fmapR_fuel (decode_key (decodeMsg fuel)) decoded) as Hkeys.
  destruct (fmapR (decode_key (decodeMsg fuel)) decoded) as [[members|e]|] eqn:Hm; cbn [fbind]; [|done|]; cycle 1.
  { exfalso. apply Hkeys; [|done]. intros [k w] Hk. unfold decode_key. cbn [fst snd].
    destruct (json_get w "typeUrl") as [ty|e] eqn:Hg; cbn [fbind]; [|done]. destruct (is_truthy ty); [|done].
    destruct w as [w|]; [|done]. pose proof (Hrec k w w (AJson (Some w)) Hk ltac:(destruct w; left) ltac:(by left)) as Hn.
    destruct (decodeMsg fuel (AJson (Some w))) as [[]|]; done. }
  match goal with |- context [parse_fields ?f ?t ?r] => pose proof (parse_fields_fuel f t r) as Hpost; destruct (parse_fields f t r) as [[]|] end; try done.
  exfalso. apply Hpost; [|done]. intros key l x a Hkey Harr Hx Ha.
  apply (array_member _ _ _ _ _ _ Hm) in Harr; [|by intros ->; set_solver].
  apply (Hrec key (JArr l) x a Harr); [by right|by right].
Qed.
End Termination.

Lemma fmapR_total_Ok {A B} (f : A → fueled B) l ys x : fmapR f l = Some (Ok ys) → x ∈ l → ∃ y, f x = Some (Ok y).
Proof.
  revert ys. induction l as [|z l IH]; intros ys; cbn [fmapR]; [by intros _ ?%not_elem_of_nil|].
  destruct (f z) as [[w|e]|] eqn:Hz; cbn [fbind]; [|done|done].
  destruct (fmapR f l) as [[zs|e]|] eqn:Hl; cbn [fbind]; [|done|done]. intros _ [->|Hx]%elem_of_cons; [by exists w|by apply (IH zs)].
Qed.

(** More fuel gives the same. *)
Section More.
Context {E : Encoding} {P : ProtoTypes}.

Lemma decode_key_more (f g : Arg → fueled (option Json)) x y :
  (∀ a y, f a = Some y → g a = Some y) → decode_key f x = Some y → decode_key g x = Some y.
Proof.
  intros H. unfold decode_key. destruct (json_get x.2 "typeUrl") as [t|e]; cbn [fbind]; [|done].
  destruct (is_truthy t); [|done]. destruct (f (AJson x.2)) as [z|] eqn:Hf; [|done]. by rewrite (H _ _ Hf).
Qed.

Lemma decode_sub_more (f g : Arg → fueled (option Json)) key r y :
  (∀ a y, f a = Some y → g a = Some y) → decode_sub f key r = Some y → decode_sub g key r = Some y.
Proof.
  intros H. unfold decode_sub. destruct (member key r) as [[| | | |l|]|]; try done.
  pose proof (fmapR_mono (λ subMsg, fbind (Some (sub_arg subMsg)) f) (λ subMsg, fbind (Some (sub_arg subMsg)) g) l) as Hmono.
  destruct (fmapR (λ subMsg, fbind (Some (sub_arg subMsg)) f) l) as [z|] eqn:Hl; [|done].
  rewrite (Hmono z); [done| |done]. intros x w _. destruct (sub_arg x); cbn [fbind]; [apply H|done].
Qed.

Lemma parse_fields_more (f g : Arg → fueled (option Json)) t r y :
  (∀ a y, f a = Some y → g a = Some y) → parse_fields f t r = Some y → parse_fields g t r = Some y.
Proof. intros H. unfold parse_fields. repeat case_match; try done; by apply decode_sub_more. Qed.

Lemma decode_step_more (f g : Arg → fueled (option Json)) msg r :
  (∀ a y, f a = Some y → g a = Some y) → decode_step f msg = Some r → decode_step g msg = Some r.
Proof.
  intros Hfg. unfold decode_step. destruct (negb (arg_truthy msg)); [done|]. destruct (negb (is_truthy (arg_typeUrl msg))); [done|].
  set (post := λ (f : Arg → fueled (option Json)) result, fbind (parse_fields f (type_text (arg_typeUrl msg)) result) (λ result, Some (Ok (Some (JObj result))))).
  assert (∀ result y, post f result = Some y → post g result = Some y) as Hpost.
  { intros result y. unfold post. destruct (parse_fields f _ result) as [z|] eqn:Hz; [|done]. by rewrite (parse_fields_more _ g _ _ _ Hfg Hz). }
  fold (post f) (post g).
  destruct (type_of (arg_typeUrl msg)) as [decode|]; [|cbn [fbind]; by apply Hpost].
  destruct (value ← from_base64_value (arg_value msg); decode value) as [decoded|e]; cbn [fbind]; [|done].
  pose proof (fmapR_mono (decode_key f) (decode_key g) decoded) as Hmono.
  destruct (fmapR (decode_key f) decoded) as [members|] eqn:Hm; [|done].
  rewrite (Hmono members); [|intros x y _; by apply decode_key_more|done].
  destruct members as [members|e]; cbn [fbind]; [by apply Hpost|done].
Qed.

Lemma decodeMsg_step fuel msg r : decodeMsg fuel msg = Some r → decodeMsg (S fuel) msg = Some r.
Proof.
  revert msg r. induction fuel as [|fuel IH]; intros msg r; [done|]. cbn [decodeMsg]. fold (decodeMsg (S fuel)).
  by apply decode_step_more.
Qed.

Theorem decodeMsg_more n m msg r : decodeMsg n msg = Some r → (n <= m)%nat → decodeMsg m msg = Some r.
Proof. intros Hr. induction 1 as [|m _ IH]; [done|]. by apply decodeMsg_step. Qed.
End More.

(** ** Base64 and bytes *)
Definition in_alphabet (c : ascii) : bool := is_base64_char c || is_pad c.
Lemma isBase64_chars s : isBase64 s = true → Forall (λ c, in_alphabet c = true) (String.list_ascii_of_string s).
Proof.
  assert (∀ n s, (String.length s <= n)%nat → isBase64 s = true → Forall (λ c, in_alphabet c = true) (String.list_ascii_of_string s)) as H.
  2: { by apply (H (String.length s)). }
  clear s. induction n as [|n IH]; intros s Hn; [by destruct s; [constructor|simpl in Hn; lia]|].
  destruct s as [|a [|b [|c [|d rest]]]]; [by constructor|done..|]. cbn [isBase64 String.list_ascii_of_string]. unfold in_alphabet.
  intros [[Ha Hb]%andb_true_iff H]%andb_true_iff. rewrite !Forall_cons, Ha, Hb. cbn [orb]. split; [done|]. split; [done|].
  destruct (is_base64_char c && is_base64_char d) eqn:Hcd.
  - apply andb_true_iff in Hcd as [-> ->]. cbn [orb]. split; [done|]. split; [done|]. apply IH; [simpl in Hn; lia|done].
  - apply andb_true_iff in H as [[->%bool_decide_eq_true ->]%andb_true_iff ->]. rewrite orb_true_r. split; [done|]. split; [done|constructor].
Qed.

Lemma list_ascii_app a b : String.list_ascii_of_string (a +:+ b) = String.list_ascii_of_string a ++ String.list_ascii_of_string b.
Proof. induction a as [|c a IH]; [done|]. rewrite string_app_cons. cbn [String.list_ascii_of_string]. by rewrite IH. Qed.

(** The text of an array of bytes is a list of decimals, so the test for base64
    is passed by the empty array alone. *)
Lemma bytes_not_base64 b : b ≠ "" → isBase64 (bytes_text b) = false.
Proof.
  destruct b as [|c [|c' b]]; [done| |].
  - intros _. unfold bytes_text. destruct c as [[] [] [] [] [] [] [] []]; vm_compute; reflexivity.
  - intros _. destruct (isBase64 _) eqn:Hb; [|done]. exfalso. apply isBase64_chars in Hb. revert Hb. unfold bytes_text.
    cbn [String.list_ascii_of_string fmap list_fmap String.concat]. 
    match goal with |- Forall _ (String.list_ascii_of_string (?x ++ "," ++ ?y)%string) → _ => 
      change (x ++ "," ++ y)%string with (x +:+ ("," +:+ y)) end.
    rewrite !list_ascii_app, !Forall_app. intros (_ & Hc & _). apply Forall_cons in Hc as [Hc _]. by vm_compute in Hc.
Qed.

(** ** What comes out *)
Section Results.
Context {E : Encoding} {P : ProtoTypes}.

(** A type that is not registered keeps its bytes, in base64. *)
Theorem unsupported_kept fuel t b :
  t ≠ "" → lookupType t = None → t ≠ MSG_TYPE.MSG_ACKNOWLEDGEMENT → t ≠ MSG_TYPE.MSG_AUTHZ_EXEC → t ≠ MSG_TYPE.MSG_SUBMIT_PROPOSAL_V1 →
  is_wasm_msg t = false →
  decodeMsg (S fuel) (AMsg (Some (JStr t)) (VBytes b)) = Some (Ok (Some (JObj [("@type", JStr t); ("value", JStr (toBase64 b))]))).
Proof.
  intros Ht Hl Ha He Hp Hw. cbn [decodeMsg]. unfold decode_step. cbn [arg_truthy arg_typeUrl negb is_truthy from_option json_truthy type_of type_text arg_value].
  rewrite Hl, (bool_decide_false (t = "")) by done. cbn [negb fbind set_opt set_key fst]. unfold parse_fields.
  by rewrite Hw, !bool_decide_false.
Qed.

(** The messages of an authz execution are decoded all or not at all: when one
    of them cannot be decoded, the others stay in base64 too. *)
Theorem exec_all_or_nothing fuel decode b granter l :
  b ≠ "" →
  lookupType MSG_TYPE.MSG_AUTHZ_EXEC = Some decode → decode (VBytes b) = Ok [("grantee", Some (JStr granter)); ("msgs", Some (JArr l))] →
  let exec msgs := Some (JObj [("@type", JStr MSG_TYPE.MSG_AUTHZ_EXEC); ("grantee", JStr granter); ("msgs", JArr msgs)]) in
  decodeMsg (S fuel) (AMsg (Some (JStr MSG_TYPE.MSG_AUTHZ_EXEC)) (VBytes b)) =
  match fmapR (λ subMsg, fbind (Some (sub_arg subMsg)) (decodeMsg fuel)) l with
  | None => None
  | Some (Ok msgs) => Some (Ok (exec (default JNull <$> msgs)))
  | Some (Throw _) => Some (Ok (exec l))
  end.
Proof.
  intros Hb Hl Hd exec. cbn [decodeMsg]. unfold decode_step. cbn [arg_truthy arg_typeUrl negb is_truthy from_option json_truthy type_of type_text arg_value].
  rewrite Hl. unfold from_base64_value. cbn [value_text]. rewrite (bytes_not_base64 b Hb). cbn [mbind res_bind]. rewrite Hd.
  change (parse_fields (decodeMsg fuel) MSG_TYPE.MSG_AUTHZ_EXEC) with (decode_sub (decodeMsg fuel) "msgs").
  change (negb (negb (bool_decide (MSG_TYPE.MSG_AUTHZ_EXEC = "")))) with false. cbv iota.
  transitivity (fbind (decode_sub (decodeMsg fuel) "msgs"
    [("@type", JStr MSG_TYPE.MSG_AUTHZ_EXEC); ("grantee", JStr granter); ("msgs", JArr l)]) (λ result, Some (Ok (Some (JObj result))))); [reflexivity|].
  unfold decode_sub. change (member "msgs" _) with (Some (JArr l)). cbv iota. by destruct (fmapR _ l) as [[msgs|e]|].
Qed.

(** A registered message without bytes is refused: the empty array passes for
    base64, and it is no text. *)
Theorem empty_message_throws fuel t decode :
  t ≠ "" → lookupType t = Some decode →
  decodeMsg (S fuel) (AMsg (Some (JStr t)) (VBytes "")) = Some (Throw "TypeError: base64String.match is not a function").
Proof.
  intros Ht Hl. cbn [decodeMsg]. unfold decode_step. cbn [arg_truthy arg_typeUrl negb is_truthy from_option json_truthy type_of arg_value].
  by rewrite Hl, (bool_decide_false (t = "")).
Qed.

(** So one message without fields keeps every message of an execution in base64. *)
Theorem empty_submessage_spoils_exec fuel decode decode_sub b granter l t :
  b ≠ "" → lookupType MSG_TYPE.MSG_AUTHZ_EXEC = Some decode → decode (VBytes b) = Ok [("grantee", Some (JStr granter)); ("msgs", Some (JArr l))] →
  JObj [("typeUrl", JStr t); ("value", JStr "")] ∈ l → t ≠ "" → lookupType t = Some decode_sub → fromBase64 "" = Ok "" →
  decodeMsg (S (S fuel)) (AMsg (Some (JStr MSG_TYPE.MSG_AUTHZ_EXEC)) (VBytes b)) ≠ None →
  decodeMsg (S (S fuel)) (AMsg (Some (JStr MSG_TYPE.MSG_AUTHZ_EXEC)) (VBytes b)) =
    Some (Ok (Some (JObj [("@type", JStr MSG_TYPE.MSG_AUTHZ_EXEC); ("grantee", JStr granter); ("msgs", JArr l)]))).
Proof.
  intros Hb Hl Hd Hin Ht Hsub Hempty. rewrite (exec_all_or_nothing (S fuel) decode b granter l Hb Hl Hd). intros Hne.
  destruct (fmapR _ l) as [[msgs|e]|] eqn:Hm; [|done|done]. exfalso.
  apply (fmapR_total_Ok _ _ _ _ Hm) in Hin as (y & Hy).
  assert (sub_arg (JObj [("typeUrl", JStr t); ("value", JStr "")]) = Ok (AMsg (Some (JStr t)) (VBytes ""))) as Hsa.
  { change (sub_arg _) with (value ← (b ← fromBase64 ""; Ok (VBytes b)); Ok (AMsg (Some (JStr t)) value)). by rewrite Hempty. }
  rewrite Hsa in Hy. cbn [fbind] in Hy. by rewrite (empty_message_throws fuel t decode_sub Ht Hsub) in Hy.
Qed.
End Results.

(** ** Keys *)
Section Keys.
Context {E : Encoding} {P : ProtoTypes} `{!ProtoLaws P}.

Lemma key_case_idempotent k : key_case (key_case k) = key_case k.
Proof using ProtoLaws0.
  unfold key_case. destruct (bool_decide_reflect (k = "@type")) as [Hk|Hk]; [done|]. rewrite snakeCase_idempotent.
  by case_bool_decide as Hs; [rewrite Hs|].
Qed.

(** An object whose keys are distinct and in snake case. *)
Definition normal (o : list (string * Json)) : Prop := NoDup o.*1 ∧ Forall (λ x, key_case x.1 = x.1 ∧ camelizeKeys x.2 = x.2) o.

Lemma set_key_keys k v o j : j ∈ (set_key k v o).*1 ↔ j = k ∨ j ∈ o.*1.
Proof.
  induction o as [|x o IH]; cbn [set_key]; [rewrite fmap_cons; set_solver|].
  case_bool_decide as Hx; rewrite !fmap_cons, !elem_of_cons; cbn [fst]; [by rewrite Hx; tauto|]. rewrite IH. tauto.
Qed.

Lemma set_key_normal k v o : key_case k = k → camelizeKeys v = v → normal o → normal (set_key k v o).
Proof.
  intros Hk Hv [Hnd Hall]. induction o as [|x o IH]; cbn [set_key].
  { split; [apply NoDup_singleton|by repeat constructor]. }
  rewrite fmap_cons in Hnd. apply NoDup_cons in Hnd as [Hx Hnd]. apply Forall_cons in Hall as [Hxn Hall].
  case_bool_decide as Heq.
  - split; [rewrite fmap_cons; cbn [fst]; apply NoDup_cons; by rewrite <-Heq|by constructor].
  - destruct (IH Hnd Hall) as [Hnd' Hall']. split; [|by constructor]. rewrite fmap_cons. apply NoDup_cons. split; [|done].
    rewrite set_key_keys. intros [|]; [done|by apply Hx].
Qed.

Lemma set_key_last k v o : k ∉ o.*1 → set_key k v o = o ++ [(k, v)].
Proof.
  induction o as [|x o IH]; [done|]. rewrite fmap_cons. intros [Hx Ho]%not_elem_of_cons. cbn [set_key].
  rewrite bool_decide_false by done. by rewrite IH.
Qed.

Lemma normal_fixed o acc : NoDup (acc ++ o).*1 → Forall (λ x, key_case x.1 = x.1 ∧ camelizeKeys x.2 = x.2) o →
  fold_left (λ r x, set_key (key_case x.1) x.2 r) (map (λ x, (x.1, camelizeKeys x.2)) o) acc = acc ++ o.
Proof.
  revert acc. induction o as [|x o IH]; intros acc Hnd Hall; [by rewrite app_nil_r|].
  apply Forall_cons in Hall as [[Hk Hv] Hall]. cbn [map fold_left fst snd]. rewrite Hk, Hv.
  assert (x.1 ∉ acc.*1) as Hx.
  { rewrite fmap_app, fmap_cons in Hnd. apply NoDup_app in Hnd as (_ & Hd & _). intros Hin. apply (Hd _ Hin). by left. }
  destruct x as [k v]. cbn [fst snd] in *.
  rewrite set_key_last, IH by (done || by rewrite <-app_assoc). by rewrite <-app_assoc.
Qed.

Lemma fold_normal l acc : Forall (λ x, camelizeKeys (camelizeKeys x.2) = camelizeKeys x.2) l → normal acc →
  normal (fold_left (λ r x, set_key (key_case x.1) x.2 r) (map (λ x, (x.1, camelizeKeys x.2)) l) acc).
Proof using ProtoLaws0.
  revert acc. induction l as [|x l IH]; intros acc Hall Hacc; [done|]. apply Forall_cons in Hall as [Hx Hall].
  cbn [map fold_left fst snd]. apply IH; [done|]. by apply set_key_normal; [apply key_case_idempotent|..].
Qed.

(** Renaming the keys of what is renamed already changes nothing: a message that
    is decoded again has the keys it had. *)
Theorem camelizeKeys_idempotent v : camelizeKeys (camelizeKeys v) = camelizeKeys v.
Proof using ProtoLaws0.
  induction v as [| | | |l IH|o IH] using Json_nested_ind; try done.
  - cbn [camelizeKeys]. f_equal. rewrite List.map_map. apply List.map_ext_in. intros x Hx%list_elem_of_In.
    rewrite Forall_forall in IH. by apply IH.
  - cbn [camelizeKeys]. f_equal.
    pose proof (fold_normal o [] IH (conj (NoDup_nil_2) (Forall_nil_2 _))) as [Hnd Hall].
    exact (normal_fixed _ [] Hnd Hall).
Qed.
End Keys.

(** An acknowledgement that is not JSON leaves the packet parsed and itself in
    base64. *)
Theorem ack_half_parsed {E : Encoding} {P : ProtoTypes} result packet text data :
  member "packet" result = Some (JObj packet) → base64_text (member "data" packet) = Ok text → parse_json text = Ok data →
  (s ← base64_text (member "acknowledgement" result); parse_json s) = Throw "SyntaxError" →
  parse_ack result = set_key "packet" (JObj (set_key "data" data packet)) result.
Proof.
  intros Hp Ht Hd Ha. unfold parse_ack. rewrite Hp, Ht. cbn [mbind res_bind]. rewrite Hd.
  cbv zeta. rewrite member_set_key, bool_decide_false by done. by rewrite Ha.
Qed.

(** ** An example: an execution of two messages, the base64 of a text being the
    text and one character. *)
#[local] Instance demo_encoding : Encoding := {|
  fromBase64 s := Ok (String.substring 0 (String.length s - 1) s); toBase64 b := b +:+ "="; fromUtf8 b := Ok b; toUtf8 s := s;
  semver_compare _ _ := Ok 0 |}.
Definition demo_text : MsgValue → res (list (string * option Json)) := λ v,
  match v with VBytes b => Ok [("someText", Some (JStr b))] | _ => Throw "illegal buffer" end.
Definition demo_sub (t v : string) : Json := JObj [("typeUrl", JStr t); ("value", JStr v)].
Definition demo_exec (msgs : list Json) : MsgValue → res (list (string * option Json)) := λ v,
  match v with
  | VBytes b => if bool_decide (b = "execute") then Ok [("grantee", Some (JStr "aura1")); ("msgs", Some (JArr msgs))] else Throw "illegal"
  | _ => Throw "illegal buffer" end.
Definition demo_types (msgs : list Json) : ProtoTypes := {|
  lookupType t := if bool_decide (t = "/text") then Some demo_text
                  else if bool_decide (t = MSG_TYPE.MSG_AUTHZ_EXEC) then Some (demo_exec msgs) else None;
  parse_json _ := Throw "SyntaxError";
  snakeCase k := if bool_decide (k = "someText") then "some_text" else k |}.
Definition demo_msgs : list Json := [demo_sub "/text" "abcd"; demo_sub "/unknown" "efgh"].
Definition demo_spoiled : list Json := [demo_sub "/text" "abcd"; demo_sub "/text" ""].

#[local] Instance demo_laws : ProtoLaws (demo_types demo_msgs).
Proof.
  split.
  - intros t decode v l k w x b Ht Hd Hk Hx Hurl Hb. cbn in Ht. case_bool_decide.
    + injection Ht as <-. destruct v as [s|]; [|done]. cbn in Hd. injection Hd as <-.
      apply list_elem_of_singleton in Hk. injection Hk as -> ->. by apply list_elem_of_singleton in Hx as ->.
    + case_bool_decide; [|done]. injection Ht as <-. destruct v as [s|]; [|done]. cbn in Hd.
      case_bool_decide as Hs; [|done]. subst s. injection Hd as <-.
      assert (Forall (λ y, ∀ b, from_base64_value (VJson (opt_get (Some y) "value")) = Ok b → (value_size b < 7)%nat)
        (nested (JStr "aura1") ++ nested (JArr demo_msgs))) as Hall.
      { cbn [nested app demo_msgs]. repeat (apply Forall_cons_2; [intros b' Hb'; vm_compute in Hb'; injection Hb' as <-; simpl; lia|]).
        apply Forall_nil_2. }
      rewrite Forall_forall in Hall. apply (Hall x); [|done]. apply elem_of_app.
      apply elem_of_cons in Hk as [[= -> ->]|Hk]; [by left|]. apply list_elem_of_singleton in Hk. injection Hk as -> ->. by right.
  - intros k. cbn. repeat case_bool_decide; done.
Qed.

Example demo_decoded :
  (λ r, camelizeKeys (P := demo_types demo_msgs) (default JNull r)) <$> default (Throw "no fuel")
    (decodeMsg (P := demo_types demo_msgs) 9 (AMsg (Some (JStr MSG_TYPE.MSG_AUTHZ_EXEC)) (VBytes "execute")))
  = Ok (JObj [("@type", JStr MSG_TYPE.MSG_AUTHZ_EXEC); ("grantee", JStr "aura1");
        ("msgs", JArr [JObj [("@type", JStr "/text"); ("some_text", JStr "abc")];
                       JObj [("@type", JStr "/unknown"); ("value", JStr "efg=")]])]).
Proof. vm_compute. reflexivity. Qed.

Example demo_spoiled_exec :
  decodeMsg (P := demo_types demo_spoiled) 9 (AMsg (Some (JStr MSG_TYPE.MSG_AUTHZ_EXEC)) (VBytes "execute"))
  = Some (Ok (Some (JObj [("@type", JStr MSG_TYPE.MSG_AUTHZ_EXEC); ("grantee", JStr "aura1"); ("msgs", JArr demo_spoiled)]))).
Proof. vm_compute. reflexivity. Qed.

Lemma decodeMsg_terminates_witness :
  decodeMsg (P := demo_types demo_msgs) 9 (AMsg (Some (JStr MSG_TYPE.MSG_AUTHZ_EXEC)) (VBytes "execute")) ≠ None.
Proof. apply (decodeMsg_terminates (P := demo_types demo_msgs)). vm_compute. lia. Defined.
