(* ===== verification/Accounts.v ===== *)
(** * Accounts

    [services/crawl-account/handle_address.service.ts]: the accounts that the
    events of a range mention; [services/crawl-account/crawl_account.service.ts]:
    what the chain knows about an account (its type, keys and vesting schedule,
    its balances, what it can spend), copied into the tables.

    The queries of the node and the decoding of their answers are a parameter
    class, the bech32 codec is that of Address.v. *)
From S2P Require Import Prelude JsNum Checkpoint Address.

(** ** Data *)
Record Coin := { c_denom : string; c_amount : string; c_base_denom : option string }.

Record Account := {
  a_id : Z; a_address : string; a_evm_address : string;
  a_balances : list Coin; a_spendable_balances : list Coin;
  a_type : string; a_pubkey : string; a_account_number : Z; a_sequence : Z; a_code_hash : option string }.
Record AccountVesting := {
  v_original_vesting : list Coin; v_delegated_free : list Coin; v_delegated_vesting : list Coin;
  v_start_time : option Z; v_end_time : Z }.
Record AccountBalance := {
  b_amount : string; b_base_denom : option string; b_last_updated_height : Z; b_type : string }.
Module TYPE.
Definition NATIVE := "NATIVE".
Definition ERC20_TOKEN := "ERC20_TOKEN".
End TYPE.

(** The tables, the cache of denominations in redis and the jobs that wait:
    the name of a queue and the addresses of the payload. *)
Record Db := {
  account : list Account;
  next_account_id : Z;
  account_vesting : gmap Z AccountVesting;
  account_balance : gmap (Z * string) AccountBalance;
  event_attribute : list (string * Z);
  ibc_denom : gmap string string;
  account_jobs : list (string * list string);
  block_checkpoint : gmap string Z
}.
Definition set_account (l : list Account) (next : Z) (d : Db) : Db := {|
  account := l; next_account_id := next; account_vesting := account_vesting d; account_balance := account_balance d;
  event_attribute := event_attribute d; ibc_denom := ibc_denom d; account_jobs := account_jobs d;
  block_checkpoint := block_checkpoint d |}.
Definition set_vesting (t : gmap Z AccountVesting) (d : Db) : Db := {|
  account := account d; next_account_id := next_account_id d; account_vesting := t; account_balance := account_balance d;
  event_attribute := event_attribute d; ibc_denom := ibc_denom d; account_jobs := account_jobs d;
  block_checkpoint := block_checkpoint d |}.
Definition set_balances (t : gmap (Z * string) AccountBalance) (d : Db) : Db := {|
  account := account d; next_account_id := next_account_id d; account_vesting := account_vesting d; account_balance := t;
  event_attribute := event_attribute d; ibc_denom := ibc_denom d; account_jobs := account_jobs d;
  block_checkpoint := block_checkpoint d |}.
Definition set_ibc_denom (t : gmap string string) (d : Db) : Db := {|
  account := account d; next_account_id := next_account_id d; account_vesting := account_vesting d;
  account_balance := account_balance d; event_attribute := event_attribute d; ibc_denom := t;
  account_jobs := account_jobs d; block_checkpoint := block_checkpoint d |}.
Definition set_jobs (l : list (string * list string)) (d : Db) : Db := {|
  account := account d; next_account_id := next_account_id d; account_vesting := account_vesting d;
  account_balance := account_balance d; event_attribute := event_attribute d; ibc_denom := ibc_denom d;
  account_jobs := l; block_checkpoint := block_checkpoint d |}.

#[export] Instance Db_checkpoints : HasCheckpoints Db := block_checkpoint.
#[export] Program Instance Db_set_checkpoints : SetCheckpoints Db := {|
  set_checkpoints t d := {|
    account := account d; next_account_id := next_account_id d; account_vesting := account_vesting d;
    account_balance := account_balance d; event_attribute := event_attribute d; ibc_denom := ibc_denom d;
    account_jobs := account_jobs d; block_checkpoint := t |}
|}.
Next Obligation. done. Qed.

(** Integer columns have 32 bits. *)
Definition int4 (z : Z) : bool := (- 2 ^ 31 <=? z) && (z <? 2 ^ 31).

(** ** Answers of the node *)
Record BaseAccount := {
  ba_address : string; ba_pub_key : option string; ba_account_number : string; ba_sequence : string }.
Record BaseVestingAccount := {
  bv_base_account : BaseAccount; bv_original_vesting : list Coin; bv_delegated_free : list Coin;
  bv_delegated_vesting : list Coin; bv_end_time : string }.
(** A decoded account: which of the three places holds the base account
    depends on its type. *)
Record Auth := {
  au_type : string; au_code_hash : option string; au_start_time : option string;
  au_base_vesting_account : option BaseVestingAccount; au_base_account : option BaseAccount;
  au_self : option BaseAccount }.

Class AccountNode := {
  (** [None]: the response has a code other than 0 *)
  queryAccount : string → res (option Auth);
  (** address, limit of the page: the coins and the height of the answer *)
  queryAllBalances : string → nat → res (list (string * string) * Z);
  querySpendableBalances : string → nat → res (list (string * string));
  denomTrace : string → res string
}.

Module AccountType.
Definition CONTINUOUS_VESTING := "/cosmos.vesting.v1beta1.ContinuousVestingAccount".
Definition PERIODIC_VESTING := "/cosmos.vesting.v1beta1.PeriodicVestingAccount".
Definition DELAYED_VESTING := "/cosmos.vesting.v1beta1.DelayedVestingAccount".
Definition MODULE := "/cosmos.auth.v1beta1.ModuleAccount".
Definition ETH_ACCOUNT := "/ethermint.types.v1.EthAccount".
End AccountType.

(** The limit of the pages of balances. *)
Definition balances_limit : nat := 200.

(** ** handle_address.service.ts *)
Section Address.
Context {C : AddressCodec} (networkPrefixAddress : string).

(** [Utils.isValidAccountAddress] *)
Definition isValidAccountAddress (address prefix : string) (length : Z) : bool :=
  match fromBech32 address with
  | Ok (p, data) =>
      if length =? -1 then true else (Z.of_nat (String.length data) =? length) && bool_decide (p = prefix)
  | Throw _ => false
  end.

Definition eventAddresses (startHeight endHeight : Z) (d : Db) : list string :=
  (filter (λ r : string * Z, String.prefix networkPrefixAddress r.1 = true ∧ startHeight < r.2 <= endHeight)
     (event_attribute d)).*1.
Definition valid_address (a : string) : bool :=
  isValidAccountAddress a networkPrefixAddress 20 || isValidAccountAddress a networkPrefixAddress 32.
Definition range_addresses (startHeight endHeight : Z) (d : Db) : list string :=
  uniq (filter (λ a, valid_address a = true) (eventAddresses startHeight endHeight d)).

Definition existedAccounts (addresses : list string) (d : Db) : list string :=
  filter (λ a, a ∈ addresses) (a_address <$> account d).

(** [type: null] becomes an empty text by the schema of the model. *)
Definition new_account (address : string) : res Account :=
  evm ← convertBech32AddressToEthAddress networkPrefixAddress address;
  Ok {| a_id := 0; a_address := address; a_evm_address := toLowerCase evm; a_balances := []; a_spendable_balances := [];
        a_type := ""; a_pubkey := "{}"; a_account_number := 0; a_sequence := 0; a_code_hash := None |}.
Definition new_accounts (existed addresses : list string) : res (list Account) :=
  mapR new_account (filter (λ a, a ∉ existed) addresses).

Definition set_account_id (i : Z) (a : Account) : Account := {|
  a_id := i; a_address := a_address a; a_evm_address := a_evm_address a; a_balances := a_balances a;
  a_spendable_balances := a_spendable_balances a; a_type := a_type a; a_pubkey := a_pubkey a;
  a_account_number := a_account_number a; a_sequence := a_sequence a; a_code_hash := a_code_hash a |}.

(** [address] and [evm_address] are unique. *)
Definition unique_accounts (l : list Account) : Prop := NoDup (a_address <$> l) ∧ NoDup (a_evm_address <$> l).
#[export] Instance unique_accounts_dec l : Decision (unique_accounts l).
Proof. unfold unique_accounts. apply _. Defined.

(** [trx.batchInsert] runs at a savepoint, and its errors are logged: a batch
    that is refused leaves the transaction as it was. *)
Definition insert_accounts (rows : list Account) (d : Db) : Db :=
  let rows := serial set_account_id (next_account_id d) rows in
  if bool_decide (unique_accounts (account d ++ rows))
  then set_account (account d ++ rows) (next_account_id d + Z.of_nat (length rows)) d
  else d.

(** [createJobAccount] *)
Definition createJobAccount (addresses : list string) : io Db () :=
  update (λ d, set_jobs (account_jobs d ++ [("crawl:account-auth", addresses); ("crawl:account-balances", addresses);
                                            ("crawl:account-spendable-balances", addresses)]) d).
Definition actionUpdateAccount (addresses : list string) : io Db () := createJobAccount addresses.

Definition insertNewAccountAndUpdate (addresses : list string) : io Db () :=
  existed ← query (existedAccounts addresses);
  rows ← lift (new_accounts existed addresses);
  update (insert_accounts rows).
Definition actionCrawlNewAccountApi (addresses : list string) : io Db () := insertNewAccountAndUpdate addresses.

Definition prepareAddresses (startHeight endHeight : Z) : io Db (list string * list Account) :=
  addresses ← query (range_addresses startHeight endHeight);
  existed ← query (existedAccounts addresses);
  rows ← lift (new_accounts existed addresses);
  mret (addresses, rows).
Definition handleAddress (cfg : Config.t) : io Db () :=
  checkpoint_handler_then cfg HANDLE_ADDRESS prepareAddresses (λ _ _ w d, Ok (insert_accounts w.2 d))
    (λ w, actionUpdateAccount w.1).
End Address.

(** ** crawl_account.service.ts *)
Section Crawl.
Context {N : AccountNode}.

(** *** Authentication *)
Definition is_vesting (ty : string) : bool :=
  bool_decide (ty ∈ [AccountType.CONTINUOUS_VESTING; AccountType.DELAYED_VESTING; AccountType.PERIODIC_VESTING]).
Definition has_base (ty : string) : bool := bool_decide (ty ∈ [AccountType.MODULE; AccountType.ETH_ACCOUNT]).

(** The property of a value that can be missing. *)
Definition defined {A} (o : option A) : res A :=
  match o with Some x => Ok x | None => Throw "TypeError: Cannot read properties of undefined" end.

Definition base_account (auth : Auth) : res BaseAccount :=
  if is_vesting (au_type auth) then bv_base_account <$> defined (au_base_vesting_account auth)
  else if has_base (au_type auth) then defined (au_base_account auth)
  else defined (au_self auth).

Record AccountPatch := {
  p_id : Z; p_type : string; p_pubkey : option string; p_account_number : Z; p_sequence : Z;
  p_code_hash : option string }.

(** [Number.parseInt(s, 10)] for a column that must be a number. *)
Definition parse_column (s : string) : res Z :=
  match parseInt s with Some n => Ok n | None => Throw "ValidationError: must be number" end.

Definition account_patch (accountsInDb : list Account) (auth : Auth) : res AccountPatch :=
  base ← base_account auth;
  acc ← defined (find (λ acc, bool_decide (a_address acc = ba_address base)) accountsInDb);
  number ← parse_column (ba_account_number base);
  sequence ← parse_column (ba_sequence base);
  Ok {| p_id := a_id acc; p_type := au_type auth; p_pubkey := ba_pub_key base; p_account_number := number;
        p_sequence := sequence; p_code_hash := au_code_hash auth |}.

Definition vesting_row (account_id : Z) (auth : Auth) : res (option (Z * AccountVesting)) :=
  if is_vesting (au_type auth) then
    bv ← defined (au_base_vesting_account auth);
    start ← match if_text (au_start_time auth) id with
            | Some s => n ← parse_column s; Ok (Some n)
            | None => Ok None
            end;
    end_time ← coerce_number (bv_end_time bv);
    Ok (Some (account_id, {| v_original_vesting := bv_original_vesting bv; v_delegated_free := bv_delegated_free bv;
                     v_delegated_vesting := bv_delegated_vesting bv; v_start_time := start; v_end_time := end_time |}))
  else Ok None.

(** A column whose value is [undefined] is not part of the patch. *)
Definition patch_account (p : AccountPatch) (a : Account) : Account :=
  if bool_decide (a_id a = p_id p) then
    {| a_id := a_id a; a_address := a_address a; a_evm_address := a_evm_address a; a_balances := a_balances a;
       a_spendable_balances := a_spendable_balances a; a_type := p_type p; a_pubkey := default (a_pubkey a) (p_pubkey p);
       a_account_number := p_account_number p; a_sequence := p_sequence p;
       a_code_hash := match p_code_hash p with Some h => Some h | None => a_code_hash a end |}
  else a.

Definition patch_fits (p : AccountPatch) : bool := int4 (p_account_number p) && int4 (p_sequence p).
Definition vesting_fits (v : AccountVesting) : bool :=
  match v_start_time v with Some s => int4 s | None => true end && int4 (v_end_time v).

(** The transaction.  Both statements catch their errors, but an error aborts
    the transaction, and what is committed then is nothing. *)
Definition write_auth (patches : list AccountPatch) (vestings : list (Z * AccountVesting)) (d : Db) : res Db :=
  if negb (forallb patch_fits patches && forallb (λ v, vesting_fits v.2) vestings) then Throw "integer out of range" else
  if negb (bool_decide (NoDup vestings.*1)) then Throw "ON CONFLICT DO UPDATE command cannot affect row a second time" else
  Ok (set_vesting (foldl (λ t v, <[v.1 := v.2]> t) (account_vesting d) vestings)
        (set_account (foldl (λ l p, patch_account p <$> l) (account d) patches) (next_account_id d) d)).

Definition handleJobAccountAuth (addresses : list string) : io Db () :=
  if bool_decide (addresses = []) then mret () else
  accountsInDb ← query (λ d, filter (λ a, a_address a ∈ addresses) (account d));
  answers ← lift (mapR (λ a, queryAccount (a_address a)) accountsInDb);
  let auths := omap id answers in
  patches ← lift (mapR (account_patch accountsInDb) auths);
  vestings ← lift (mapR (λ r : AccountPatch * Auth, vesting_row (p_id r.1) r.2) (zip patches auths));
  logged (write_auth patches (omap id vestings)).

(** *** Denominations of IBC coins *)

(** [denom.split('/')[1]] of a text that starts with [ibc/] *)
Fixpoint until_slash (s : string) : string :=
  match s with
  | EmptyString => ""
  | String c s => if decide (c = "/"%char) then "" else String c (until_slash s)
  end.
Definition is_ibc (denom : string) : bool := String.prefix "ibc/" denom.
Definition ibc_hash (denom : string) : string :=
  until_slash (String.substring 4 (String.length denom - 4) denom).

Definition with_base_denom (base : string) (c : Coin) : Coin :=
  {| c_denom := c_denom c; c_amount := c_amount c; c_base_denom := Some base |}.

Definition handleIbcDenom (ibcDenomRedis : gmap string string) (balances : list Coin) : res (list Coin) :=
  mapR (λ balance,
    if is_ibc (c_denom balance) then
      match if_text (ibcDenomRedis !! c_denom balance) id with
      | Some base => Ok (with_base_denom base balance)
      | None => base ← denomTrace (ibc_hash (c_denom balance)); Ok (with_base_denom base balance)
      end
    else Ok balance) balances.

(** What a call adds to its copy of the cache. *)
Definition traced (ibcDenomRedis : gmap string string) (balances : list Coin) : list (string * string) :=
  omap (λ balance,
    if is_ibc (c_denom balance) then
      match if_text (ibcDenomRedis !! c_denom balance) id, denomTrace (ibc_hash (c_denom balance)) with
      | None, Ok base => Some (c_denom balance, base)
      | _, _ => None
      end
    else None) balances.

(** Every account has its own copy of the cache; the copy stored last stays. *)
Definition cache_after {O : Settling} (ibcDenomRedis : gmap string string) (l : list (list Coin)) : gmap string string :=
  match last (filter (λ t, t ≠ []) (settled (traced ibcDenomRedis <$> l))) with
  | Some t => foldl (λ m e, <[e.1 := e.2]> m) ibcDenomRedis t
  | None => ibcDenomRedis
  end.

(** Only lists of more than one coin are looked up. *)
Definition several (balances : list Coin) : bool := (1 <? length balances)%nat.
Definition base_denoms (ibcDenomRedis : gmap string string) (balances : list Coin) : res (list Coin) :=
  if several balances then handleIbcDenom ibcDenomRedis balances else Ok balances.

Definition coins (l : list (string * string)) : list Coin :=
  (λ c : string * string, {| c_denom := c.1; c_amount := c.2; c_base_denom := None |}) <$> l.

(** *** Balances *)
Record AccountAnswer := { aa_address : string; aa_balances : list Coin; aa_last_updated_height : Z }.

(** [addressesWithIds[address]?.id] *)
Definition id_of (d : Db) (address : string) : option Z := a_id <$> keyBy a_address (account d) !! address.

Definition resetBalanceList (d : Db) (accounts : list AccountAnswer) : list (Z * Z) :=
  omap (λ a, i ← id_of d (aa_address a); Some (i, aa_last_updated_height a)) accounts.

(** [UPDATE account_balance SET amount = 0 ...]: the native balances of the
    accounts. *)
Definition reset (resets : list (Z * Z)) (t : gmap (Z * string) AccountBalance) : gmap (Z * string) AccountBalance :=
  map_imap (λ k b, Some
    match find (λ r : Z * Z, r.1 =? k.1) resets with
    | Some r => if bool_decide (b_type b = TYPE.NATIVE)
                then {| b_amount := "0"; b_base_denom := b_base_denom b; b_last_updated_height := r.2; b_type := b_type b |}
                else b
    | None => b
    end) t.

Record BalanceRow := { r_account_id : Z; r_coin : Coin; r_height : Z }.
Definition listAccountBalance (d : Db) (accounts : list AccountAnswer) : list BalanceRow :=
  accounts ≫= λ a,
    match id_of d (aa_address a) with
    | Some i => (λ c, {| r_account_id := i; r_coin := c; r_height := aa_last_updated_height a |}) <$> aa_balances a
    | None => []
    end.
Definition row_key (r : BalanceRow) : Z * string := (r_account_id r, c_denom (r_coin r)).

(** [insert(rows).onConflict(['account_id', 'denom']).merge()]: the column of
    the base denominations is part of it when a row has one. *)
Definition merge_balance (with_base : bool) (old : option AccountBalance) (r : BalanceRow) : AccountBalance := {|
  b_amount := c_amount (r_coin r);
  b_base_denom := match old with
                  | Some b => if with_base then c_base_denom (r_coin r) else b_base_denom b
                  | None => c_base_denom (r_coin r)
                  end;
  b_last_updated_height := r_height r;
  b_type := match old with Some b => b_type b | None => TYPE.NATIVE end |}.
Definition upsert_balances (rows : list BalanceRow) (t : gmap (Z * string) AccountBalance)
  : res (gmap (Z * string) AccountBalance) :=
  if negb (bool_decide (NoDup (row_key <$> rows)))
  then Throw "ON CONFLICT DO UPDATE command cannot affect row a second time" else
  let with_base := existsb (λ r, bool_decide (is_Some (c_base_denom (r_coin r)))) rows in
  Ok (foldl (λ t r, <[row_key r := merge_balance with_base (t !! row_key r) r]> t) t rows).

Definition set_account_balances (accounts : list AccountAnswer) (a : Account) : Account :=
  match find (λ x, bool_decide (aa_address x = a_address a)) accounts with
  | Some x => {| a_id := a_id a; a_address := a_address a; a_evm_address := a_evm_address a; a_balances := aa_balances x;
                 a_spendable_balances := a_spendable_balances a; a_type := a_type a; a_pubkey := a_pubkey a;
                 a_account_number := a_account_number a; a_sequence := a_sequence a; a_code_hash := a_code_hash a |}
  | None => a
  end.

(** The transaction; a list of no values is a syntax error. *)
Definition write_balances (accounts : list AccountAnswer) (d : Db) : res Db :=
  let resets := resetBalanceList d accounts in
  if bool_decide (resets = []) then Throw "syntax error" else
  t ← upsert_balances (listAccountBalance d accounts) (reset resets (account_balance d));
  Ok (set_balances t (set_account (set_account_balances accounts <$> account d) (next_account_id d) d)).

Definition account_answer (ibcDenomRedis : gmap string string) (x : string * (list (string * string) * Z))
  : res AccountAnswer :=
  balances ← base_denoms ibcDenomRedis (coins x.2.1);
  Ok {| aa_address := x.1; aa_balances := balances; aa_last_updated_height := x.2.2 |}.

Definition handleJobAccountBalances {O : Settling} (addresses : list string) : io Db () :=
  if bool_decide (addresses = []) then mret () else
  result ← lift (mapR (λ a, queryAllBalances a balances_limit) addresses);
  cache ← query ibc_denom;
  update (set_ibc_denom (cache_after cache (filter (λ l, several l = true) ((λ x : list (string * string) * Z, coins x.1) <$> result))));;
  accounts ← lift (mapR (account_answer cache) (zip addresses result));
  logged (write_balances accounts).

(** *** What an account can spend *)
Definition set_spendable (address : string) (balances : list Coin) (l : list Account) : list Account :=
  (λ a, if bool_decide (a_address a = address) then
     {| a_id := a_id a; a_address := a_address a; a_evm_address := a_evm_address a; a_balances := a_balances a;
        a_spendable_balances := balances; a_type := a_type a; a_pubkey := a_pubkey a;
        a_account_number := a_account_number a; a_sequence := a_sequence a; a_code_hash := a_code_hash a |}
     else a) <$> l.

Definition handleJobAccountSpendableBalances {O : Settling} (addresses : list string) : io Db () :=
  if bool_decide (addresses = []) then mret () else
  result ← lift (mapR (λ a, querySpendableBalances a balances_limit) addresses);
  cache ← query ibc_denom;
  update (set_ibc_denom (cache_after cache (filter (λ l, several l = true) (coins <$> result))));;
  balances ← lift (mapR (λ l, base_denoms cache (coins l)) result);
  update (λ d, set_account (foldl (λ l (x : string * list Coin), set_spendable x.1 x.2 l) (account d) (zip addresses balances))
                 (next_account_id d) d).

(** *** Vesting accounts *)
Definition still_vesting (now : Z) (ty : string) (v : AccountVesting) : bool :=
  bool_decide (ty ∈ [AccountType.CONTINUOUS_VESTING; AccountType.PERIODIC_VESTING]) && (now - 6 <=? v_end_time v).
Definition just_ended (now : Z) (ty : string) (v : AccountVesting) : bool :=
  is_vesting ty && (v_end_time v <=? now) && (now - 60 <? v_end_time v).
Definition vesting_addresses (now : Z) (d : Db) : list string :=
  omap (λ a, v ← account_vesting d !! a_id a;
             if still_vesting now (a_type a) v || just_ended now (a_type a) v then Some (a_address a) else None) (account d).

(** The loop over the pages: [page(page, 1000)] until one is empty. *)
Definition page_of (l : list string) (page : nat) : list string := take 1000 (drop (page * 1000) l).
Fixpoint vesting_pages (fuel page : nat) (l : list string) : option (list string) :=
  match fuel with
  | O => None
  | S fuel => match page_of l page with
              | [] => Some []
              | results => rest ← vesting_pages fuel (S page) l; Some (results ++ rest)
              end
  end.

(** The fuel is one more than the number of pages. *)
Definition handleVestingAccounts {O : Settling} (now : Z) : io Db () :=
  addresses ← query (λ d, let l := vesting_addresses now d in vesting_pages (1 + length l) 0 l);
  match addresses with
  | Some addresses => handleJobAccountSpendableBalances addresses
  | None => throw "fuel"
  end.
End Crawl.

(** ** Registration *)

(** The decoder of 0x addresses accepts lower case. *)
Class LowerCaseCodec (C : AddressCodec) : Prop :=
  ETH_decoder_lower d : ETH_decoder (toLowerCase (ETH_encoder d)) = Ok d.

Section Registered.
Context {C : AddressCodec} (np : string) {L : AddressCodecLaws C np} {LC : LowerCaseCodec C}.

(** The 0x address of an account is that of its bech32 address. *)
Definition evm_of (a : Account) : Prop :=
  ∃ evm, convertBech32AddressToEthAddress np (a_address a) = Ok evm ∧ a_evm_address a = toLowerCase evm.
Record accounts_ok (d : Db) : Prop := {
  ok_evm : Forall evm_of (account d);
  ok_addresses : NoDup (a_address <$> account d);
  ok_ids : NoDup (a_id <$> account d);
  ok_next : Forall (λ a, a_id a < next_account_id d) (account d)
}.

Lemma evm_of_inj a b : evm_of a → evm_of b → a_evm_address a = a_evm_address b → a_address a = a_address b.
Proof using L LC.
  intros (e1 & H1 & ->) (e2 & H2 & ->) He.
  unfold convertBech32AddressToEthAddress, makeBech32Decoder in H1, H2.
  apply bind_Ok in H1 as (x1 & H1 & [= <-]), H2 as (x2 & H2 & [= <-]).
  apply bind_Ok in H1 as ([p1 y1] & H1 & Hp1), H2 as ([p2 y2] & H2 & Hp2).
  case_bool_decide; [|done]. case_bool_decide; [|done]. simplify_eq.
  assert (x1 = x2) as ->.
  { pose proof (ETH_decoder_lower x1) as Hd. rewrite He, ETH_decoder_lower in Hd. by injection Hd. }
  apply toBech32_fromBech32 in H1, H2. congruence.
Qed.

Lemma evm_NoDup l : Forall evm_of l → NoDup (a_address <$> l) → NoDup (a_evm_address <$> l).
Proof using L LC.
  induction l as [|x l IH]; intros Hevm Hnd; [constructor|]. rewrite fmap_cons in *.
  apply Forall_cons in Hevm as [Hx Hevm]. apply NoDup_cons in Hnd as [Hin Hnd]. constructor; [|by apply IH].
  intros (y & Heq & Hy)%list_elem_of_fmap. apply Hin. apply list_elem_of_fmap. exists y. split; [|done].
  rewrite Forall_forall in Hevm. apply evm_of_inj; [done|by apply Hevm|done].
Qed.

(** A row of a new account. *)
Definition blank (a : Account) : Prop :=
  a_balances a = [] ∧ a_spendable_balances a = [] ∧ a_type a = "" ∧ a_pubkey a = "{}" ∧ a_account_number a = 0 ∧
  a_sequence a = 0 ∧ a_code_hash a = None.

Lemma valid_converts a : valid_address np a = true → ∃ evm, convertBech32AddressToEthAddress np a = Ok evm.
Proof.
  unfold valid_address, isValidAccountAddress, convertBech32AddressToEthAddress, makeBech32Decoder.
  destruct (fromBech32 a) as [[p data]|]; [|done]. simpl. intros Hv.
  assert (p = np) as -> by (apply orb_prop in Hv as [[_ Hv]%andb_prop|[_ Hv]%andb_prop]; by apply bool_decide_eq_true in Hv).
  rewrite bool_decide_eq_true_2 by done. by eexists.
Qed.

Lemma new_accounts_total existed l :
  (∀ a, a ∈ l → valid_address np a = true) →
  ∃ rows, new_accounts np existed l = Ok rows ∧ a_address <$> rows = filter (λ a, a ∉ existed) l ∧
    Forall evm_of rows ∧ Forall blank rows.
Proof using Type.
  clear L LC. intros Hv. unfold new_accounts.
  assert (∀ a, a ∈ filter (λ a, a ∉ existed) l → valid_address np a = true) as Hv'
    by (intros a [_ Ha]%list_elem_of_filter; by apply Hv).
  induction (filter (λ a, a ∉ existed) l) as [|a k IH]; [by exists []|].
  destruct IH as (rows & Hrows & Haddr & Hevm & Hbl); [intros; apply Hv'; by right|].
  destruct (valid_converts a) as [evm He]; [apply Hv'; by left|].
  assert (∃ r, new_account np a = Ok r ∧ a_address r = a ∧ evm_of r ∧ blank r) as (r & Hr & Ha & Hre & Hrb).
    { unfold new_account. rewrite He. eexists. split; [done|]. split; [done|]. split; [by exists evm|done]. }
  exists (r :: rows). cbn [mapR]. rewrite Hr. simpl. rewrite Hrows. split; [done|]. split_and!.
  - simpl. by rewrite Ha, <-Haddr.
  - by constructor.
  - by constructor.
Qed.

Lemma new_serial_addresses next rows :
  a_address <$> serial set_account_id next rows = a_address <$> rows ∧
  (Forall evm_of rows → Forall evm_of (serial set_account_id next rows)) ∧
  (Forall blank rows → Forall blank (serial set_account_id next rows)).
Proof using Type.
  clear L LC. revert next. induction rows as [|r rows IH]; intros next; [done|]. rewrite serial_cons.
  destruct (IH (next + 1)) as (H1 & H2 & H3). rewrite !fmap_cons, H1. split_and!; [done|..].
  - intros [Hr Hrows]%Forall_cons. constructor; [exact Hr|by apply H2].
  - intros [Hr Hrows]%Forall_cons. constructor; [exact Hr|by apply H3].
Qed.

(** New accounts that no account of the table shares an address with. *)
Lemma insert_accounts_fresh d rows :
  accounts_ok d → Forall evm_of rows → NoDup (a_address <$> rows) →
  (∀ a, a ∈ a_address <$> rows → a ∉ a_address <$> account d) →
  let rows' := serial set_account_id (next_account_id d) rows in
  insert_accounts rows d = set_account (account d ++ rows') (next_account_id d + Z.of_nat (length rows')) d ∧
  accounts_ok (insert_accounts rows d).
Proof using L LC.
  intros Hok Hevm Hnd Hnew rows'. destruct (new_serial_addresses (next_account_id d) rows) as (Haddr & Hevm' & _).
  fold rows' in Haddr, Hevm'. specialize (Hevm' Hevm). destruct Hok as [He Ha Hi Hn].
  assert (NoDup (a_address <$> account d ++ rows')) as Hnd'.
  { rewrite fmap_app, Haddr. apply NoDup_app. split; [done|]. split; [|done]. intros a H1 H2. by apply (Hnew a). }
  assert (Forall evm_of (account d ++ rows')) as Hall by (by apply Forall_app).
  assert (insert_accounts rows d = set_account (account d ++ rows') (next_account_id d + Z.of_nat (length rows')) d) as Heq.
  { unfold insert_accounts. fold rows'. rewrite bool_decide_eq_true_2; [done|]. split; [done|]. by apply evm_NoDup. }
  split; [done|]. rewrite Heq. split; cbn [account next_account_id set_account].
  - done.
  - done.
  - by apply (serial_fresh set_account_id a_id (λ _ _, eq_refl)).
  - unfold rows'. rewrite length_serial. by apply (serial_fresh set_account_id a_id (λ _ _, eq_refl)).
Qed.
End Registered.

Section Handle.
Context {C : AddressCodec} (np : string) {L : AddressCodecLaws C np} {LC : LowerCaseCodec C}.

(** The addresses of a range: the values of its event attributes that are
    account or contract addresses of the chain. *)
Definition mentioned (s e : Z) (d : Db) (a : string) : Prop :=
  String.prefix np a = true ∧ valid_address np a = true ∧ ∃ h, (a, h) ∈ event_attribute d ∧ s < h <= e.

Lemma elem_of_range_addresses s e d a : a ∈ range_addresses np s e d ↔ mentioned s e d a.
Proof.
  unfold range_addresses, mentioned, eventAddresses. rewrite elem_of_uniq, list_elem_of_filter, list_elem_of_fmap.
  split.
  - intros (Hv & [x h] & -> & [[Hp Hh] Hin]%list_elem_of_filter). eauto 10.
  - intros (Hp & Hv & h & Hin & Hh). split; [done|]. exists (a, h). split; [done|]. by apply list_elem_of_filter.
Qed.

Lemma prepareAddresses_total s e d :
  ∃ rows, prepareAddresses np s e d = (d, Ok (range_addresses np s e d, rows)) ∧
    a_address <$> rows = filter (λ a, a ∉ a_address <$> account d) (range_addresses np s e d) ∧
    Forall (evm_of np) rows ∧ Forall blank rows.
Proof.
  destruct (new_accounts_total np (existedAccounts (range_addresses np s e d) d) (range_addresses np s e d))
    as (rows & Hrows & Haddr & Hevm & Hbl).
  { intros a Ha. by apply elem_of_range_addresses in Ha as (_ & ? & _). }
  exists rows. split; [unfold prepareAddresses, query, lift, mbind, io_bind; by rewrite Hrows|]. split; [|done].
  rewrite Haddr. apply filter_ext_in. intros a Ha. unfold existedAccounts. rewrite list_elem_of_filter. naive_solver.
Qed.

(** A run of the address job registers exactly the addresses its range
    mentions and no account has: one blank account each, with the 0x address
    of the same bytes, fresh ids and unique addresses; it asks for the data of
    all addresses of the range and stores its checkpoint. *)
Theorem addresses_registered cfg d s e u :
  jobCheckpoint cfg HANDLE_ADDRESS (checkpoints_of d) = Ok (s, e, u) → s < e → accounts_ok np d →
  ∃ d' rows, handleAddress np cfg d = (d', Ok tt) ∧ account d' = account d ++ rows ∧
    (∀ a, a ∈ a_address <$> rows ↔ mentioned s e d a ∧ a ∉ a_address <$> account d) ∧
    Forall (λ r, evm_of np r ∧ blank r) rows ∧ accounts_ok np d' ∧
    account_balance d' = account_balance d ∧ account_vesting d' = account_vesting d ∧
    account_jobs d' = account_jobs d ++ ((λ q, (q, range_addresses np s e d)) <$>
      ["crawl:account-auth"; "crawl:account-balances"; "crawl:account-spendable-balances"]) ∧
    checkpoints_of d' = saveCheckpoint u e (checkpoints_of d).
Proof using L LC.
  intros Hj Hse Hok. destruct (prepareAddresses_total s e d) as (rows & Hp & Haddr & Hevm & Hbl).
  destruct (insert_accounts_fresh np d rows Hok Hevm) as [Hins Hok'].
  { rewrite Haddr. apply NoDup_filter, NoDup_uniq. }
  { intros a. rewrite Haddr. by intros [? _]%list_elem_of_filter. }
  destruct (new_serial_addresses np (next_account_id d) rows) as (Haddr' & Hevm' & Hbl').
  unfold handleAddress.
  rewrite (checkpoint_handler_then_run cfg HANDLE_ADDRESS (prepareAddresses np)
    (λ _ _ w d, Ok (insert_accounts w.2 d)) (λ w, actionUpdateAccount w.1) d s e u d _ (insert_accounts rows d) Hj)
    by (simpl; done || lia). rewrite Hins in *.
  eexists _, (serial set_account_id (next_account_id d) rows). split; [done|]. split; [done|]. split_and!; try done.
  - intros a. by rewrite Haddr', Haddr, list_elem_of_filter, elem_of_range_addresses, (comm and).
  - apply Forall_and. auto.
  - destruct Hok' as [H1 H2 H3 H4]. by split.
Qed.
End Handle.

(** The accounts are looked up before they are inserted.  When another process
    inserts one of them in between, the batch is refused, and the transaction
    stores the checkpoint without the accounts of the range. *)
Lemma raced_batch_lost {C : AddressCodec} np s e d d1 w a u :
  prepareAddresses np s e d = (d, Ok w) → a ∈ a_address <$> w.2 → a ∈ a_address <$> account d1 →
  commit (λ d, d ← Ok (insert_accounts w.2 d); Ok (set_checkpoints (saveCheckpoint u e (checkpoints_of d)) d)) d1 =
  (set_checkpoints (saveCheckpoint u e (checkpoints_of d1)) d1, Ok tt).
Proof.
  intros _ Ha Ha1. unfold commit. simpl. assert (insert_accounts w.2 d1 = d1) as ->; [|done].
  unfold insert_accounts. rewrite bool_decide_eq_false_2; [done|]. intros [Hnd _].
  rewrite fmap_app in Hnd. apply NoDup_app in Hnd as (_ & Hnd & _). apply (Hnd a Ha1).
  destruct (new_serial_addresses np (next_account_id d1) w.2) as (-> & _). done.
Qed.

(** ** Balances *)
Section Balances.
Context {N : AccountNode}.

(** The cache holds what the node answers. *)
Definition cache_sound (m : gmap string string) : Prop :=
  ∀ denom base, m !! denom = Some base → denomTrace (ibc_hash denom) = Ok base.
Definition traceable (l : list (string * string)) : Prop :=
  ∀ c, c ∈ l → is_ibc c.1 = true → is_ok (denomTrace (ibc_hash c.1)) = true.

(** The base denomination of a coin in a list of [n] coins. *)
Definition base_in (n : nat) (denom : string) : option string :=
  if (1 <? n)%nat && is_ibc denom then
    match denomTrace (ibc_hash denom) with Ok base => Some base | Throw _ => None end
  else None.
Definition chain_coins (l : list (string * string)) : list Coin :=
  (λ c : string * string, {| c_denom := c.1; c_amount := c.2; c_base_denom := base_in (length l) c.1 |}) <$> l.

Lemma handleIbcDenom_sound cache l :
  cache_sound cache → traceable l → (1 < length l)%nat →
  ∀ k, (∀ c, c ∈ k → c ∈ l) →
  handleIbcDenom cache (coins k) = Ok ((λ c : string * string,
    {| c_denom := c.1; c_amount := c.2; c_base_denom := base_in (length l) c.1 |}) <$> k).
Proof.
  intros Hs Ht Hl k Hk. unfold handleIbcDenom, coins. induction k as [|c k IH]; [done|]. rewrite fmap_cons. cbn [mapR c_denom].
  specialize (Ht c (Hk c ltac:(by left))). rewrite IH by (intros; apply Hk; by right).
  unfold base_in. rewrite (proj2 (Nat.ltb_lt _ _) Hl). simpl. unfold with_base_denom. simpl.
  destruct (is_ibc c.1) eqn:Hi; [|done]. specialize (Ht eq_refl).
  destruct (cache !! c.1) as [base|] eqn:Hc.
  - unfold if_text. rewrite (Hs _ _ Hc). by case_bool_decide.
  - simpl. by destruct (denomTrace _).
Qed.

Lemma account_answer_sound cache a l h :
  cache_sound cache → traceable l →
  account_answer cache (a, (l, h)) = Ok {| aa_address := a; aa_balances := chain_coins l; aa_last_updated_height := h |}.
Proof.
  intros Hs Ht. unfold account_answer, base_denoms, several. cbn [fst snd].
  unfold coins at 1. rewrite length_fmap. destruct (1 <? length l)%nat eqn:Hl.
  - apply Nat.ltb_lt in Hl. by rewrite (handleIbcDenom_sound cache l Hs Ht Hl l).
  - simpl. do 2 f_equal. unfold chain_coins, coins. apply list_fmap_ext. intros _ c _. unfold base_in. by rewrite Hl.
Qed.

(** *** Writing *)
Record accounts_unique (d : Db) : Prop := {
  unique_addresses : NoDup (a_address <$> account d);
  unique_ids : NoDup (a_id <$> account d)
}.

Lemma id_of_Some d a i :
  accounts_unique d → id_of d a = Some i ↔ ∃ x, x ∈ account d ∧ a_address x = a ∧ a_id x = i.
Proof.
  intros [Ha _]. unfold id_of. rewrite fmap_Some. split.
  - intros (x & Hx & ->). apply keyBy_Some in Hx as [? ?]. eauto.
  - intros (x & Hx & <- & <-). exists x. split; [|done]. apply keyBy_elem; [done|].
    intros y Hy. by apply (NoDup_fmap_key a_address (account d)).
Qed.

Lemma account_of_id d x y : accounts_unique d → x ∈ account d → y ∈ account d → a_id x = a_id y → x = y.
Proof.
  intros [_ Hi]. by apply (NoDup_fmap_key a_id).
Qed.

Lemma reset_lookup resets t k :
  reset resets t !! k =
  (λ b, match find (λ r : Z * Z, r.1 =? k.1) resets with
        | Some r => if bool_decide (b_type b = TYPE.NATIVE)
                    then {| b_amount := "0"; b_base_denom := b_base_denom b; b_last_updated_height := r.2; b_type := b_type b |}
                    else b
        | None => b
        end) <$> t !! k.
Proof. unfold reset. rewrite map_lookup_imap. by destruct (t !! k). Qed.
End Balances.

Section Write.
Context (d : Db) (Hu : accounts_unique d).

Lemma id_of_account x a : x ∈ account d → id_of d a = Some (a_id x) ↔ a_address x = a.
Proof using Hu.
  intros Hx. rewrite (id_of_Some d a (a_id x) Hu). split.
  - intros (y & Hy & <- & Heq). by rewrite (account_of_id d x y Hu Hx Hy (eq_sym Heq)).
  - intros Ha. by exists x.
Qed.

Lemma find_reset x accts :
  x ∈ account d →
  find (λ r : Z * Z, r.1 =? a_id x) (resetBalanceList d accts) =
  (λ y, (a_id x, aa_last_updated_height y)) <$> find (λ y, bool_decide (aa_address y = a_address x)) accts.
Proof using Hu.
  intros Hx. induction accts as [|y accts IH]; [done|].
  assert (resetBalanceList d (y :: accts) = match id_of d (aa_address y) with
    | Some i => (i, aa_last_updated_height y) :: resetBalanceList d accts | None => resetBalanceList d accts end) as ->.
  { unfold resetBalanceList. simpl. by destruct (id_of d (aa_address y)). }
  cbn [find]. destruct (id_of d (aa_address y)) as [i|] eqn:Hi; cbn [find fst].
  - destruct (Z.eqb_spec i (a_id x)) as [->|Hne].
    + apply (id_of_account x) in Hi; [|done]. by rewrite bool_decide_eq_true_2.
    + rewrite IH, bool_decide_eq_false_2; [done|]. intros Ha%eq_sym. apply (id_of_account x) in Ha; [|done].
      rewrite Hi in Ha. by injection Ha.
  - rewrite IH, bool_decide_eq_false_2; [done|]. intros Ha%eq_sym. apply (id_of_account x) in Ha; [|done]. by rewrite Hi in Ha.
Qed.

Lemma elem_of_rows accts r :
  r ∈ listAccountBalance d accts ↔
  ∃ y x c, y ∈ accts ∧ x ∈ account d ∧ a_address x = aa_address y ∧ c ∈ aa_balances y ∧
    r = {| r_account_id := a_id x; r_coin := c; r_height := aa_last_updated_height y |}.
Proof using Hu.
  unfold listAccountBalance. rewrite list_elem_of_bind. split.
  - intros (y & Hr & Hy). destruct (id_of d (aa_address y)) as [i|] eqn:Hi; [|by apply not_elem_of_nil in Hr].
    apply (id_of_Some d _ _ Hu) in Hi as (x & Hx & Ha & <-). apply list_elem_of_fmap in Hr as (c & -> & Hc). eauto 10.
  - intros (y & x & c & Hy & Hx & Ha & Hc & ->). exists y. split; [|done].
    rewrite (proj2 (id_of_account x (aa_address y) Hx) Ha). apply list_elem_of_fmap. eauto.
Qed.

Lemma rows_NoDup accts :
  NoDup (aa_address <$> accts) → (∀ y, y ∈ accts → NoDup (c_denom <$> aa_balances y)) →
  NoDup (row_key <$> listAccountBalance d accts).
Proof using Hu.
  induction accts as [|y accts IH]; intros Hnd Hden; [constructor|]. rewrite fmap_cons in Hnd.
  apply NoDup_cons in Hnd as [Hy Hnd].
  change (listAccountBalance d (y :: accts)) with
    (match id_of d (aa_address y) with
     | Some i => (λ c, {| r_account_id := i; r_coin := c; r_height := aa_last_updated_height y |}) <$> aa_balances y
     | None => [] end ++ listAccountBalance d accts).
  rewrite fmap_app. apply NoDup_app. split; [|split; [|apply IH; [done|intros; apply Hden; by right]]].
  - destruct (id_of d (aa_address y)) as [i|]; [|constructor]. rewrite <-list_fmap_compose.
    apply (NoDup_fmap_1 snd). rewrite <-list_fmap_compose. apply Hden. by left.
  - intros k Hk1 Hk2. destruct (id_of d (aa_address y)) as [i|] eqn:Hi; [|by apply not_elem_of_nil in Hk1].
    apply list_elem_of_fmap in Hk1 as (r1 & -> & Hr1). apply list_elem_of_fmap in Hr1 as (c1 & -> & _).
    apply list_elem_of_fmap in Hk2 as (r2 & Heq & Hr2). apply elem_of_rows in Hr2 as (y2 & x2 & c2 & Hy2 & Hx2 & Ha2 & _ & ->).
    injection Heq as -> _. apply (id_of_account x2) in Hi; [|done]. apply Hy. rewrite <-Hi, Ha2.
    by apply list_elem_of_fmap_2.
Qed.

(** What a run leaves of a balance: the coin the node lists, or zero. *)
Definition stored_balance (h : Z) (coin : option Coin) (old new : option AccountBalance) : Prop :=
  match coin with
  | Some c => ∃ b, new = Some b ∧ b_amount b = c_amount c ∧ b_last_updated_height b = h ∧
                b_type b = default TYPE.NATIVE (b_type <$> old) ∧
                ∀ base, c_base_denom c = Some base → b_base_denom b = Some base
  | None => new = (λ b, if bool_decide (b_type b = TYPE.NATIVE)
                        then {| b_amount := "0"; b_base_denom := b_base_denom b; b_last_updated_height := h; b_type := b_type b |}
                        else b) <$> old
  end.

Definition answer_for (accts : list AccountAnswer) (a : string) : option AccountAnswer :=
  find (λ y, bool_decide (aa_address y = a)) accts.
Definition coin_of (denom : string) (l : list Coin) : option Coin := find (λ c, bool_decide (c_denom c = denom)) l.

Lemma find_by_key {A} (f : A → string) k l (x : A) :
  find (λ y, bool_decide (f y = k)) l = Some x → x ∈ l ∧ f x = k.
Proof using Type. intros [? Hk%bool_decide_eq_true]%find_Some. done. Qed.
Lemma find_by_key_None {A} (f : A → string) k (l : list A) :
  find (λ y, bool_decide (f y = k)) l = None → k ∉ f <$> l.
Proof using Type.
  intros Hn%find_None. rewrite Forall_forall in Hn. intros (x & -> & Hx)%list_elem_of_fmap.
  specialize (Hn x Hx). by apply bool_decide_eq_false in Hn.
Qed.

Definition upserts (has : bool) (t : gmap (Z * string) AccountBalance) (rows : list BalanceRow) :=
  foldl (λ t r, <[row_key r := merge_balance has (t !! row_key r) r]> t) t rows.

Lemma upserted_row has accts t x denom y c :
  NoDup (row_key <$> listAccountBalance d accts) → x ∈ account d →
  answer_for accts (a_address x) = Some y → coin_of denom (aa_balances y) = Some c →
  let r := {| r_account_id := a_id x; r_coin := c; r_height := aa_last_updated_height y |} in
  upserts has t (listAccountBalance d accts) !! (a_id x, denom) =
  Some (merge_balance has (t !! (a_id x, denom)) r).
Proof using Hu.
  intros Hnd Hx [Hy Hya]%find_by_key [Hc <-]%find_by_key r.
  destruct (foldl_upsert_lookup row_key (merge_balance has) _ t Hnd) as [H1 _]. apply (H1 r).
  apply elem_of_rows. by exists y, x, c.
Qed.

Lemma other_row has accts t x denom :
  NoDup (row_key <$> listAccountBalance d accts) → NoDup (aa_address <$> accts) → x ∈ account d →
  answer_for accts (a_address x) ≫= (λ y, coin_of denom (aa_balances y)) = None →
  upserts has t (listAccountBalance d accts) !! (a_id x, denom) =
  t !! (a_id x, denom).
Proof using Hu.
  intros Hnd Hnda Hx Hno. destruct (foldl_upsert_lookup row_key (merge_balance has) _ t Hnd) as [_ H2]. apply H2.
  intros (r & Hk & Hr)%list_elem_of_fmap. apply elem_of_rows in Hr as (y & x' & c & Hy & Hx' & Ha & Hc & ->).
  injection Hk as Hid ->. pose proof (account_of_id d x x' Hu Hx Hx' Hid) as <-.
  destruct (answer_for accts (a_address x)) as [y'|] eqn:Hf.
  - apply find_by_key in Hf as [Hy' Ha']. rewrite Ha in Ha'.
    pose proof (NoDup_fmap_key aa_address accts y y' Hnda Hy Hy' (eq_sym Ha')) as <-. simpl in Hno.
    apply find_by_key_None in Hno. apply Hno. by apply list_elem_of_fmap_2.
  - apply find_by_key_None in Hf. apply Hf. rewrite Ha. by apply list_elem_of_fmap_2.
Qed.

(** The transaction of the balances. *)
Lemma write_balances_spec accts :
  NoDup (aa_address <$> accts) → (∀ y, y ∈ accts → NoDup (c_denom <$> aa_balances y)) →
  (∃ y, y ∈ accts ∧ aa_address y ∈ a_address <$> account d) →
  ∃ t, write_balances accts d = Ok (set_balances t (set_account (set_account_balances accts <$> account d) (next_account_id d) d)) ∧
    ∀ x denom, x ∈ account d →
      match answer_for accts (a_address x) with
      | Some y => stored_balance (aa_last_updated_height y) (coin_of denom (aa_balances y))
                    (account_balance d !! (a_id x, denom)) (t !! (a_id x, denom))
      | None => t !! (a_id x, denom) = account_balance d !! (a_id x, denom)
      end.
Proof using Hu.
  intros Hnda Hden (y0 & Hy0 & Hx0). pose proof (rows_NoDup accts Hnda Hden) as Hnd.
  unfold write_balances. rewrite bool_decide_eq_false_2; cycle 1.
  { intros Hnil. apply list_elem_of_fmap in Hx0 as (x0 & Ha0 & Hx0).
    pose proof (find_reset x0 accts Hx0) as Hf. rewrite Hnil in Hf. simpl in Hf.
    destruct (find _ accts) eqn:Hf'; [done|]. apply find_by_key_None in Hf'. apply Hf'. rewrite <-Ha0. by apply list_elem_of_fmap_2. }
  unfold upsert_balances. rewrite bool_decide_eq_true_2 by done. simpl. fold (upserts (existsb (λ r, bool_decide (is_Some (c_base_denom (r_coin r)))) (listAccountBalance d accts)) (reset (resetBalanceList d accts) (account_balance d)) (listAccountBalance d accts)).
  eexists. split; [done|]. intros x denom Hx. destruct (answer_for accts (a_address x)) as [y|] eqn:Hy.
  - destruct (coin_of denom (aa_balances y)) as [c|] eqn:Hc.
    + rewrite (upserted_row _ _ _ x denom y c Hnd Hx Hy Hc). apply find_by_key in Hy as [Hy Hya].
      apply find_by_key in Hc as [Hc Hcd]. eexists. split; [done|]. cbn [merge_balance b_amount b_last_updated_height b_type b_base_denom r_coin r_height].
      split_and!; [done|done|..].
      * rewrite reset_lookup. destruct (account_balance d !! (a_id x, denom)) as [b|]; [|done]. simpl.
        destruct (find _ _); [|done]. by case_bool_decide.
      * intros base Hb. destruct (reset _ _ !! _); [|done].
        assert (existsb (λ r, bool_decide (is_Some (c_base_denom (r_coin r)))) (listAccountBalance d accts) = true) as ->; [|done].
        apply existsb_exists. exists {| r_account_id := a_id x; r_coin := c; r_height := aa_last_updated_height y |}.
        split; [|apply bool_decide_eq_true; simpl; by rewrite Hb]. apply list_elem_of_In, elem_of_rows. by exists y, x, c.
    + rewrite other_row by (done || by rewrite Hy). rewrite reset_lookup. cbn [fst]. rewrite (find_reset x accts Hx).
      unfold answer_for in Hy. rewrite Hy. done.
  - rewrite other_row by (done || by rewrite Hy). rewrite reset_lookup. cbn [fst]. rewrite (find_reset x accts Hx).
    unfold answer_for in Hy. rewrite Hy. simpl. by destruct (account_balance d !! _).
Qed.
End Write.

Section Mirror.
Context {N : AccountNode} {O : Settling}.

Lemma traced_entry cache l e : e ∈ traced cache l → denomTrace (ibc_hash e.1) = Ok e.2.
Proof.
  intros (c & _ & Hc)%list_elem_of_omap. destruct (is_ibc _); [|done]. destruct (if_text _ _); [done|].
  destruct (denomTrace _) as [base|] eqn:Ht; [|done]. by injection Hc as <-.
Qed.

Lemma insert_entries_sound (t : list (string * string)) cache :
  (∀ e, e ∈ t → denomTrace (ibc_hash e.1) = Ok e.2) → cache_sound cache →
  cache_sound (foldl (λ (m : gmap string string) e, <[e.1 := e.2]> m) cache t).
Proof.
  revert cache. induction t as [|e t IH]; intros cache He Hs; [done|]. simpl. apply IH; [intros; apply He; by right|].
  intros denom base. destruct (decide (e.1 = denom)) as [<-|Hne].
  - rewrite lookup_insert_eq. intros [= <-]. apply He. by left.
  - rewrite lookup_insert_ne by done. apply Hs.
Qed.

Lemma cache_after_sound `{!SettlingLaws O} cache l : cache_sound cache → cache_sound (cache_after cache l).
Proof.
  intros Hs. unfold cache_after. destruct (last _) as [t|] eqn:Ht; [|done].
  apply last_Some_elem_of, list_elem_of_filter in Ht as [_ Ht]. rewrite settled_perm in Ht.
  apply list_elem_of_fmap in Ht as (x & -> & _). apply insert_entries_sound; [intros e; apply traced_entry|done].
Qed.

Context (answer : string → list (string * string) * Z).

Definition answer_of (a : string) : AccountAnswer :=
  {| aa_address := a; aa_balances := chain_coins (answer a).1; aa_last_updated_height := (answer a).2 |}.

(** The node answers for the addresses. *)
Definition answered (addresses : list string) : Prop :=
  ∀ a, a ∈ addresses →
    queryAllBalances a balances_limit = Ok (answer a) ∧ NoDup (answer a).1.*1 ∧ traceable (answer a).1.

Lemma balances_run addresses d :
  addresses ≠ [] → answered addresses → cache_sound (ibc_denom d) →
  handleJobAccountBalances addresses d =
  logged (write_balances (answer_of <$> addresses))
    (set_ibc_denom (cache_after (ibc_denom d)
       (filter (λ l, several l = true) ((λ x : list (string * string) * Z, coins x.1) <$> (answer <$> addresses)))) d).
Proof.
  intros Hne Hans Hs. unfold handleJobAccountBalances. rewrite bool_decide_eq_false_2 by done.
  assert (mapR (λ a, queryAllBalances a balances_limit) addresses = Ok (answer <$> addresses)) as ->.
  { rewrite <-mapR_pure. apply mapR_ext. intros a Ha. by destruct (Hans a Ha) as [-> _]. }
  erewrite io_step by done. erewrite io_step by done. erewrite io_step by done.
  assert (mapR (account_answer (ibc_denom d)) (zip addresses (answer <$> addresses)) = Ok (answer_of <$> addresses)) as ->.
  { assert (∀ l, (∀ a, a ∈ l → a ∈ addresses) →
      mapR (account_answer (ibc_denom d)) (zip l (answer <$> l)) = Ok (answer_of <$> l)) as Hl; [|by apply Hl].
    induction l as [|a l IH]; intros Hin; [done|]. rewrite !fmap_cons. cbn [zip zip_with mapR].
    destruct (Hans a (Hin a ltac:(by left))) as (_ & _ & Ht). unfold answer_of at 1. destruct (answer a) as [coins h].
    rewrite (account_answer_sound _ _ _ _ Hs Ht). simpl. by rewrite IH by (intros; apply Hin; by right). }
  by erewrite io_step by done.
Qed.

Lemma answers_keys addresses :
  NoDup addresses → answered addresses →
  NoDup (aa_address <$> (answer_of <$> addresses)) ∧
  (∀ y, y ∈ answer_of <$> addresses → NoDup (c_denom <$> aa_balances y)).
Proof.
  intros Hnd Hans. split.
  - rewrite <-list_fmap_compose. by rewrite (list_fmap_ext _ id), list_fmap_id.
  - intros y (a & -> & Ha)%list_elem_of_fmap. destruct (Hans a Ha) as (_ & Hd & _). simpl. unfold chain_coins.
    by rewrite <-list_fmap_compose.
Qed.

Lemma answer_for_address addresses a :
  answer_for (answer_of <$> addresses) a = if bool_decide (a ∈ addresses) then Some (answer_of a) else None.
Proof.
  unfold answer_for. induction addresses as [|b l IH]; [done|]. rewrite fmap_cons. cbn [find aa_address answer_of].
  destruct (decide (b = a)) as [->|Hne].
  - rewrite bool_decide_eq_true_2 by done. by rewrite bool_decide_eq_true_2 by left.
  - rewrite bool_decide_eq_false_2 by done. rewrite IH.
    assert (bool_decide (a ∈ l) = bool_decide (a ∈ b :: l)) as ->; [|done].
    apply bool_decide_ext. rewrite elem_of_cons. naive_solver.
Qed.

End Mirror.

(** The node lists the first coins of an account up to the limit. *)
Class PagedNode (N : AccountNode) (chain : string → list (string * string)) (height_of : string → Z) : Prop :=
  first_page a n : queryAllBalances a n = Ok (take n (chain a), height_of a).

Section Limit.
Context {N : AccountNode} {O : Settling} (chain : string → list (string * string)) (height_of : string → Z).
Context `{!PagedNode N chain height_of}.

(** The balance job asks for one page of 200 coins.  The native balance of
    a coin after the first 200 of an account is set to zero by every run,
    whatever the account holds. *)
Theorem coins_beyond_page_zeroed d x i denom amount b :
  accounts_unique d → cache_sound (ibc_denom d) → x ∈ account d →
  NoDup (chain (a_address x)).*1 → traceable (chain (a_address x)) →
  chain (a_address x) !! i = Some (denom, amount) → (balances_limit <= i)%nat →
  account_balance d !! (a_id x, denom) = Some b → b_type b = TYPE.NATIVE →
  ∃ d' b', handleJobAccountBalances [a_address x] d = (d', Ok tt) ∧
    account_balance d' !! (a_id x, denom) = Some b' ∧ b_amount b' = "0" ∧
    b_last_updated_height b' = height_of (a_address x).
Proof.
  intros Hu Hs Hx Hnd Htr Hi Hlim Hb Hty.
  set (answer := λ a, (take balances_limit (chain a), height_of a)).
  assert (answered answer [a_address x]) as Hans.
  { intros a ->%list_elem_of_singleton. split; [apply first_page|]. split.
    - unfold answer. cbn [fst]. rewrite fmap_take. eapply sublist_NoDup; [exact Hnd|apply sublist_take].
    - intros c Hc. apply Htr. apply elem_of_take in Hc as (j & Hj & _). by eapply list_elem_of_lookup_2. }
  rewrite (balances_run answer [a_address x] d ltac:(done) Hans Hs). set (d1 := set_ibc_denom _ d).
  assert (accounts_unique d1) as Hu1 by (destruct Hu; by split).
  destruct (answers_keys answer [a_address x] (NoDup_singleton _) Hans) as [H1 H2].
  destruct (write_balances_spec d1 Hu1 (answer_of answer <$> [a_address x]) H1 H2) as (t & Hw & Ht).
  { exists (answer_of answer (a_address x)). split; [by left|]. exact (list_elem_of_fmap_2 a_address _ _ Hx). }
  specialize (Ht x denom Hx). rewrite answer_for_address, bool_decide_eq_true_2 in Ht by by left.
  assert (coin_of denom (aa_balances (answer_of answer (a_address x))) = None) as Hno.
  { unfold coin_of. apply find_None, Forall_forall. intros c Hc. apply bool_decide_eq_false. intros <-.
    simpl in Hc. unfold chain_coins in Hc. apply list_elem_of_fmap in Hc as (c' & -> & Hc). cbn [c_denom] in Hi.
    apply elem_of_take in Hc as (j & Hj & Hlt). assert (j = i) as ->; [|lia].
    eapply (NoDup_lookup _ _ _ c'.1 Hnd); rewrite list_lookup_fmap; [by rewrite Hj|by rewrite Hi]. }
  rewrite Hno in Ht. change (account_balance d1) with (account_balance d) in Ht. rewrite Hb in Ht. simpl in Ht.
  rewrite bool_decide_eq_true_2 in Ht by done.
  eexists _, _. split; [unfold logged; by rewrite Hw|]. split; [exact Ht|]. done.
Qed.
End Limit.

(** ** What an account can spend *)
Section Spendable.
Context {N : AccountNode} {O : Settling} (answer : string → list (string * string)).

Definition with_spendable (l : list Coin) (a : Account) : Account := {|
  a_id := a_id a; a_address := a_address a; a_evm_address := a_evm_address a; a_balances := a_balances a;
  a_spendable_balances := l; a_type := a_type a; a_pubkey := a_pubkey a;
  a_account_number := a_account_number a; a_sequence := a_sequence a; a_code_hash := a_code_hash a |}.
Definition spendable_answered (addresses : list string) : Prop :=
  ∀ a, a ∈ addresses → querySpendableBalances a balances_limit = Ok (answer a) ∧ traceable (answer a).

Lemma spend_nothing (f : Account → Account) (l : list Account) :
  (λ x, if bool_decide (a_address x ∈ @nil string) then f x else x) <$> l = l.
Proof. induction l as [|x l IH]; [done|]. by rewrite fmap_cons, IH. Qed.

Lemma set_spendable_all addresses l :
  foldl (λ l (x : string * list Coin), set_spendable x.1 x.2 l) l
    (zip addresses ((λ a, chain_coins (answer a)) <$> addresses)) =
  (λ x, if bool_decide (a_address x ∈ addresses) then with_spendable (chain_coins (answer (a_address x))) x else x) <$> l.
Proof.
  revert l. induction addresses as [|a addresses IH]; intros l.
  { by rewrite spend_nothing. }
  rewrite fmap_cons. cbn [zip zip_with foldl fst snd]. rewrite IH. unfold set_spendable. rewrite <-list_fmap_compose.
  apply list_fmap_ext. intros _ x _. unfold compose. destruct (decide (a_address x = a)) as [Ha|Ha].
  - rewrite (bool_decide_eq_true_2 (a_address x = a)) by done. cbn [a_address].
    rewrite (bool_decide_eq_true_2 (a_address x ∈ a :: addresses)) by (rewrite Ha; by left).
    case_bool_decide; [done|]. by rewrite <-Ha.
  - rewrite (bool_decide_eq_false_2 (a_address x = a)) by done.
    rewrite (bool_decide_ext (a_address x ∈ a :: addresses) (a_address x ∈ addresses)); [done|].
    rewrite elem_of_cons. naive_solver.
Qed.

Lemma base_denoms_sound cache l :
  cache_sound cache → traceable l → base_denoms cache (coins l) = Ok (chain_coins l).
Proof.
  intros Hs Ht. pose proof (account_answer_sound cache "" l 0 Hs Ht) as Ha. unfold account_answer in Ha.
  apply bind_Ok in Ha as (b & Hb & [= <-]). exact Hb.
Qed.

(** A run refreshes what the accounts can spend. *)
Lemma spendable_refreshed addresses d :
  spendable_answered addresses → cache_sound (ibc_denom d) →
  ∃ d', handleJobAccountSpendableBalances addresses d = (d', Ok tt) ∧
    account d' = (λ x, if bool_decide (a_address x ∈ addresses)
                       then with_spendable (chain_coins (answer (a_address x))) x else x) <$> account d.
Proof.
  intros Hans Hs. unfold handleJobAccountSpendableBalances. case_bool_decide as Hnil.
  { subst addresses. exists d. by rewrite spend_nothing. }
  assert (mapR (λ a, querySpendableBalances a balances_limit) addresses = Ok (answer <$> addresses)) as ->.
  { rewrite <-mapR_pure. apply mapR_ext. intros a Ha. by destruct (Hans a Ha) as [-> _]. }
  erewrite io_step by done. erewrite io_step by done. erewrite io_step by done.
  assert (mapR (λ l, base_denoms (ibc_denom d) (coins l)) (answer <$> addresses)
          = Ok ((λ a, chain_coins (answer a)) <$> addresses)) as ->.
  { assert ((λ a, chain_coins (answer a)) <$> addresses = chain_coins <$> (answer <$> addresses)) as ->
      by exact (list_fmap_compose answer chain_coins addresses).
    rewrite <-mapR_pure. apply mapR_ext.
    intros l (a & -> & Ha)%list_elem_of_fmap. apply base_denoms_sound; [done|]. by apply Hans. }
  erewrite io_step by done. eexists. split; [done|]. cbn [account set_account]. apply set_spendable_all.
Qed.
End Spendable.

(** ** Vesting accounts *)
Lemma vesting_pages_all fuel page l :
  (length l - page * 1000 < fuel)%nat → vesting_pages fuel page l = Some (drop (page * 1000) l).
Proof.
  revert page. induction fuel as [|fuel IH]; intros page Hl; [lia|]. cbn [vesting_pages].
  unfold page_of. destruct (take 1000 (drop (page * 1000) l)) as [|x k] eqn:Hp.
  - destruct (drop (page * 1000) l); [done|]. done.
  - assert (page * 1000 < length l)%nat as Hlt.
    { destruct (decide (page * 1000 < length l)%nat); [done|]. rewrite drop_ge in Hp by lia. by rewrite take_nil in Hp. }
    rewrite IH by lia. change (Some ((x :: k) ++ drop (S page * 1000) l) = Some (drop (page * 1000) l)). rewrite <-Hp. replace (S page * 1000)%nat with (page * 1000 + 1000)%nat by lia.
    rewrite <-drop_drop. by rewrite take_drop.
Qed.

Section Vesting.
Context {N : AccountNode} {O : Settling} (answer : string → list (string * string)).

(** Runs at most a minute apart; the first is not after [T], the last not
    before it. *)
Definition every_minute (times : list Z) : Prop :=
  ∀ i t t', times !! i = Some t → times !! S i = Some t' → t' - t <= 60.

Lemma run_in_minute times t0 T t1 :
  every_minute times → head times = Some t0 → t0 <= T → last times = Some t1 → T <= t1 →
  ∃ t, t ∈ times ∧ T <= t < T + 60.
Proof.
  revert t0. induction times as [|t times IH]; intros t0 Hgap Hh H0 Hl H1; [done|]. injection Hh as ->.
  destruct (decide (t0 = T)) as [->|Hne]; [exists T; split; [by left|lia]|].
  destruct times as [|t2 times].
  { injection Hl as ->. exists t1. split; [by left|lia]. }
  pose proof (Hgap 0%nat t0 t2 eq_refl eq_refl) as Hg. destruct (decide (t2 <= T)) as [Hle|Hgt].
  - destruct (IH t2) as (t & Ht & Hr); [|done..|].
    + intros i. apply (Hgap (S i)).
    + exists t. split; [by right|done].
  - exists t2. split; [by right; left|lia].
Qed.

(** While the vesting job runs at least once a minute and the node
    answers, the spendable balances of every vesting account are read again in
    the minute after its vesting ends, whatever happened before. *)
Theorem vesting_ends_seen times t0 T t1 :
  every_minute times → head times = Some t0 → t0 <= T → last times = Some t1 → T <= t1 →
  ∃ t, t ∈ times ∧ T <= t < T + 60 ∧
    ∀ d x v, x ∈ account d → is_vesting (a_type x) = true → account_vesting d !! a_id x = Some v → v_end_time v = T →
      spendable_answered answer (vesting_addresses t d) → cache_sound (ibc_denom d) →
      ∃ d', handleVestingAccounts t d = (d', Ok tt) ∧
        with_spendable (chain_coins (answer (a_address x))) x ∈ account d'.
Proof.
  intros Hgap Hh H0 Hl H1. destruct (run_in_minute times t0 T t1 Hgap Hh H0 Hl H1) as (t & Ht & Hr).
  exists t. split; [done|]. split; [done|]. intros d x v Hx Hty Hv HT Hans Hs.
  destruct (spendable_refreshed answer (vesting_addresses t d) d Hans Hs) as (d' & Hrun & Hd').
  exists d'. unfold handleVestingAccounts. erewrite io_step by done. cbv beta zeta.
  rewrite vesting_pages_all by lia. split; [exact Hrun|]. rewrite Hd'.
  apply list_elem_of_fmap. exists x. split; [|done]. rewrite bool_decide_eq_true_2; [done|].
  unfold vesting_addresses. apply list_elem_of_omap. exists x. split; [done|]. rewrite Hv. simpl.
  assert (just_ended t (a_type x) v = true) as ->; [|by rewrite orb_true_r].
  unfold just_ended. rewrite Hty. simpl. lia.
Qed.
End Vesting.

(** ** Authentication data *)
Section Auth.
Context {N : AccountNode}.

(** An answer that describes the account and fits its columns. *)
Definition describes_account (x : Account) (auth : Auth) (p : AccountPatch) : Prop :=
  ∃ base n q, base_account auth = Ok base ∧ ba_address base = a_address x ∧
    parseInt (ba_account_number base) = Some n ∧ parseInt (ba_sequence base) = Some q ∧ int4 n = true ∧ int4 q = true ∧
    p = {| p_id := a_id x; p_type := au_type auth; p_pubkey := ba_pub_key base; p_account_number := n; p_sequence := q;
           p_code_hash := au_code_hash auth |}.

(** The vesting schedule of an answer. *)
Definition schedule (x : Account) (auth : Auth) (v : option AccountVesting) : Prop :=
  vesting_row (a_id x) auth = Ok ((λ v, (a_id x, v)) <$> v) ∧ default true (vesting_fits <$> v) = true.

Lemma account_patch_of d (addresses : list string) x auth p :
  accounts_unique d → x ∈ account d → a_address x ∈ addresses → describes_account x auth p →
  account_patch (filter (λ a, a_address a ∈ addresses) (account d)) auth = Ok p ∧ patch_fits p = true.
Proof.
  intros Hu Hx Ha (base & n & q & Hb & Hba & Hn & Hq & Hfn & Hfq & ->). unfold account_patch. rewrite Hb. simpl.
  destruct (find _ _) as [y|] eqn:Hf.
  - apply find_by_key in Hf as [Hy Hya]. apply list_elem_of_filter in Hy as [_ Hy]. rewrite Hba in Hya.
    pose proof (NoDup_fmap_key a_address _ x y (unique_addresses d Hu) Hx Hy (eq_sym Hya)) as <-.
    simpl. unfold parse_column. rewrite Hn, Hq. simpl. split; [done|]. unfold patch_fits. simpl. by rewrite Hfn, Hfq.
  - apply find_by_key_None in Hf. exfalso. apply Hf. rewrite Hba. apply list_elem_of_fmap_2. by apply list_elem_of_filter.
Qed.

(** Patches with different ids act on different rows. *)
Lemma patches_all (ps : list AccountPatch) (l : list Account) :
  foldl (λ l p, patch_account p <$> l) l ps = (λ a, foldl (λ a p, patch_account p a) a ps) <$> l.
Proof.
  revert l. induction ps as [|p ps IH]; intros l; simpl; [by rewrite list_fmap_id|].
  by rewrite IH, <-list_fmap_compose.
Qed.

Lemma auth_patch_other p a : a_id a ≠ p_id p → patch_account p a = a.
Proof. intros Hne. unfold patch_account. by rewrite bool_decide_eq_false_2. Qed.

Lemma patch_id p a : a_id (patch_account p a) = a_id a.
Proof. unfold patch_account. by case_bool_decide. Qed.

Lemma patches_one (ps : list AccountPatch) p a :
  NoDup (p_id <$> ps) → p ∈ ps → p_id p = a_id a → foldl (λ a p, patch_account p a) a ps = patch_account p a.
Proof.
  assert (∀ ps a, (∀ p, p ∈ ps → p_id p ≠ a_id a) → foldl (λ a p, patch_account p a) a ps = a) as Hno.
  { clear. induction ps as [|p ps IH]; intros a Hp; [done|]. simpl. rewrite auth_patch_other by (apply not_eq_sym, Hp; by left).
    apply IH. intros q Hq. apply Hp. by right. }
  revert a. induction ps as [|q ps IH]; intros a Hnd Hp Hid; [by apply not_elem_of_nil in Hp|].
  apply NoDup_cons in Hnd as [Hq Hnd]. simpl. apply elem_of_cons in Hp as [->|Hp].
  - apply Hno. intros r Hr Heq. apply Hq. rewrite Hid, <-(patch_id q a), <-Heq. by apply list_elem_of_fmap_2.
  - rewrite auth_patch_other; [by apply IH|]. rewrite <-Hid. intros Heq. apply Hq. rewrite <-Heq. by apply list_elem_of_fmap_2.
Qed.

Lemma patches_none (ps : list AccountPatch) a : (a_id a ∉ p_id <$> ps) → foldl (λ a p, patch_account p a) a ps = a.
Proof.
  revert a. induction ps as [|p ps IH]; intros a Hp; [done|]. rewrite fmap_cons in Hp. apply not_elem_of_cons in Hp as [Hp Hps].
  simpl. rewrite auth_patch_other by done. by apply IH.
Qed.

(** The accounts of a batch with their answers. *)
Definition answered_accounts (addresses : list string) (d : Db) : list (Account * Auth) :=
  omap (λ x, match queryAccount (a_address x) with Ok (Some auth) => Some (x, auth) | _ => None end)
    (filter (λ a, a_address a ∈ addresses) (account d)).

Lemma elem_of_answered addresses d x auth :
  (x, auth) ∈ answered_accounts addresses d ↔
  x ∈ account d ∧ a_address x ∈ addresses ∧ queryAccount (a_address x) = Ok (Some auth).
Proof.
  unfold answered_accounts. rewrite list_elem_of_omap. split.
  - intros (y & Hy & Hq). destruct (queryAccount (a_address y)) as [[a|]|] eqn:Ha; [|done..]. injection Hq as -> ->.
    apply list_elem_of_filter in Hy as [? ?]. done.
  - intros (Hx & Ha & Hq). exists x. split; [by apply list_elem_of_filter|]. by rewrite Hq.
Qed.

Lemma answers_of addresses d :
  (∀ x, x ∈ account d → a_address x ∈ addresses → is_ok (queryAccount (a_address x)) = true) →
  ∃ answers, mapR (λ a, queryAccount (a_address a)) (filter (λ a, a_address a ∈ addresses) (account d)) = Ok answers ∧
    omap id answers = snd <$> answered_accounts addresses d.
Proof.
  intros Hok. unfold answered_accounts.
  assert (∀ x, x ∈ filter (λ a, a_address a ∈ addresses) (account d) → is_ok (queryAccount (a_address x)) = true) as Hok'.
  { intros x [Ha Hx]%list_elem_of_filter. by apply Hok. }
  induction (filter (λ a, a_address a ∈ addresses) (account d)) as [|x l IH]; [by exists []|].
  destruct IH as (answers & Hans & Heq); [intros; apply Hok'; by right|]. specialize (Hok' x ltac:(by left)).
  destruct (queryAccount (a_address x)) as [o|] eqn:Hq; [|done]. exists (o :: answers). cbn [mapR]. rewrite Hq. simpl.
  rewrite Hans. split; [done|]. destruct o as [auth|]; simpl; rewrite Hq; [|exact Heq]. simpl. f_equal. exact Heq.
Qed.
End Auth.

Section AuthJob.
Context {N : AccountNode}.

Definition auth_answer (addresses : list string) (x : Account) : option Auth :=
  if bool_decide (a_address x ∈ addresses) then
    match queryAccount (a_address x) with Ok (Some auth) => Some auth | _ => None end
  else None.

Lemma auth_answer_Some addresses d x auth :
  x ∈ account d → auth_answer addresses x = Some auth ↔ (x, auth) ∈ answered_accounts addresses d.
Proof.
  intros Hx. rewrite elem_of_answered. unfold auth_answer. case_bool_decide as Ha; [|naive_solver].
  destruct (queryAccount _) as [[a|]|]; naive_solver.
Qed.

Lemma answered_ids addresses d : NoDup (a_id <$> account d) → NoDup (a_id <$> (answered_accounts addresses d).*1).
Proof.
  unfold answered_accounts. induction (account d) as [|x l IH]; intros Hnd; [constructor|].
  rewrite fmap_cons in Hnd. apply NoDup_cons in Hnd as [Hx Hnd]. rewrite filter_cons. case_decide; [|by apply IH].
  simpl. destruct (queryAccount (a_address x)) as [[auth|]|]; [|by apply IH..]. rewrite !fmap_cons. constructor; [|by apply IH].
  intros (y & Hy & Hin)%list_elem_of_fmap. apply Hx. cbn [fst] in Hy. rewrite Hy. apply list_elem_of_fmap_2.
  apply list_elem_of_fmap in Hin as ([z a] & -> & Hin). apply list_elem_of_omap in Hin as (w & Hw & Hz).
  destruct (queryAccount (a_address w)) as [[?|]|]; [|done..]. injection Hz as -> _. by apply list_elem_of_filter in Hw as [_ ?].
Qed.

(** What the rows of a batch are, for any list of its accounts. *)
Lemma batch_rows d addresses l :
  accounts_unique d → (∀ r, r ∈ l → r ∈ answered_accounts addresses d) →
  (∀ x auth, (x, auth) ∈ answered_accounts addresses d → ∃ p v, describes_account x auth p ∧ schedule x auth v) →
  ∃ patches vs,
    mapR (account_patch (filter (λ a, a_address a ∈ addresses) (account d))) l.*2 = Ok patches ∧
    mapR (λ r : AccountPatch * Auth, vesting_row (p_id r.1) r.2) (zip patches l.*2) = Ok vs ∧
    Forall2 (λ r p, describes_account r.1 r.2 p ∧ patch_fits p = true) l patches ∧
    Forall2 (λ r o, ∃ v, schedule r.1 r.2 v ∧ o = (λ v, (a_id r.1, v)) <$> v) l vs.
Proof.
  intros Hu Hl Hans. induction l as [|[x auth] l IH]; [exists [], []; by repeat constructor|].
  destruct IH as (ps & vs & Hps & Hvs & H1 & H2); [intros; apply Hl; by right|].
  destruct (Hans x auth (Hl _ ltac:(by left))) as (p & v & Hp & Hv).
  pose proof (Hl _ (list_elem_of_here _ _)) as (Hx & Ha & _)%elem_of_answered.
  destruct (account_patch_of d addresses x auth p Hu Hx Ha Hp) as [Hpatch Hfit].
  exists (p :: ps), (((λ v, (a_id x, v)) <$> v) :: vs). rewrite !fmap_cons. cbn [mapR snd zip zip_with fst].
  rewrite Hpatch. simpl. rewrite Hps. split; [done|].
  assert (p_id p = a_id x) as -> by (by destruct Hp as (? & ? & ? & _ & _ & _ & _ & _ & _ & ->)).
  destruct Hv as [Hrow Hfv]. rewrite Hrow. simpl. rewrite Hvs. split; [done|]. split; constructor; try done.
  by exists v.
Qed.

Lemma insert_schedules (vs : list (Z * AccountVesting)) (t : gmap Z AccountVesting) :
  NoDup vs.*1 →
  (∀ v, v ∈ vs → foldl (λ (t : gmap Z AccountVesting) v, <[v.1 := v.2]> t) t vs !! v.1 = Some v.2) ∧
  (∀ i, i ∉ vs.*1 → foldl (λ (t : gmap Z AccountVesting) v, <[v.1 := v.2]> t) t vs !! i = t !! i).
Proof. exact (foldl_upsert_lookup fst (λ _ v, v.2) vs t). Qed.

Lemma schedules_of (l : list (Account * Auth)) vs :
  NoDup (a_id <$> l.*1) →
  Forall2 (λ r o, ∃ v, schedule r.1 r.2 v ∧ o = (λ v, (a_id r.1, v)) <$> v) l vs →
  NoDup (omap id vs).*1 ∧ (∀ i, i ∈ (omap id vs).*1 → i ∈ a_id <$> l.*1) ∧
  Forall (λ v, vesting_fits v.2 = true) (omap id vs) ∧
  ∀ r, r ∈ l → ∃ v, schedule r.1 r.2 v ∧
    match v with Some v => (a_id r.1, v) ∈ omap id vs | None => a_id r.1 ∉ (omap id vs).*1 end.
Proof.
  intros Hnd Hall. induction Hall as [|r o l vs (v & Hv & ->) _ IH].
  { split_and!; [constructor|by intros i ?%not_elem_of_nil|constructor|by intros r ?%not_elem_of_nil]. }
  rewrite !fmap_cons in Hnd. apply NoDup_cons in Hnd as [Hr Hnd]. destruct (IH Hnd) as (H1 & H2 & H3 & H4). clear IH.
  assert (a_id r.1 ∉ (omap id vs).*1) as Hnew by (intros Hin; by apply Hr, H2).
  destruct v as [v|]; simpl.
  - split_and!.
    + by constructor.
    + intros i [->|Hi]%elem_of_cons; [by left|right; by apply H2].
    + constructor; [|done]. by destruct Hv as [_ Hv].
    + intros r' [->|Hr']%elem_of_cons; [exists (Some v); split; [done|by left]|].
      destruct (H4 r' Hr') as (v' & Hv' & Hin). exists v'. split; [done|]. destruct v'; [by right|].
      apply not_elem_of_cons. split; [|done]. simpl. intros Heq. apply Hr. rewrite <-Heq.
      by do 2 apply list_elem_of_fmap_2.
  - split_and!; [done| |done|].
    + intros i Hi. right. by apply H2.
    + intros r' [->|Hr']%elem_of_cons; [by exists None|by apply H4].
Qed.

Lemma patches_of (l : list (Account * Auth)) patches :
  NoDup (a_id <$> l.*1) → Forall2 (λ r p, describes_account r.1 r.2 p ∧ patch_fits p = true) l patches →
  p_id <$> patches = a_id <$> l.*1 ∧ forallb patch_fits patches = true ∧
  ∀ r, r ∈ l → ∃ p, describes_account r.1 r.2 p ∧ foldl (λ a p, patch_account p a) r.1 patches = patch_account p r.1.
Proof.
  intros Hnd Hall.
  assert (p_id <$> patches = a_id <$> l.*1 ∧ forallb patch_fits patches = true) as [Hids Hfit].
  { clear Hnd. induction Hall as [|r p l patches [Hp Hf] _ [IH1 IH2]]; [done|]. rewrite !fmap_cons, IH1. simpl.
    rewrite Hf, IH2. destruct Hp as (? & ? & ? & _ & _ & _ & _ & _ & _ & ->). done. }
  split; [done|]. split; [done|]. intros r Hr. apply list_elem_of_lookup in Hr as [i Hi].
  destruct (Forall2_lookup_l _ _ _ _ _ Hall Hi) as (p & Hp & Hdesc & _). exists p. split; [done|].
  apply patches_one; [by rewrite Hids|by eapply list_elem_of_lookup_2|].
  by destruct Hdesc as (? & ? & ? & _ & _ & _ & _ & _ & _ & ->).
Qed.

(** When the node describes the accounts of a batch and the numbers fit
    their columns, the run copies type, key, number, sequence and code hash of
    every account that has an answer, and the vesting schedule of the vesting
    accounts; it leaves all other accounts and schedules as they were. *)
Theorem auth_updated addresses d :
  accounts_unique d →
  (∀ x, x ∈ account d → a_address x ∈ addresses → is_ok (queryAccount (a_address x)) = true) →
  (∀ x auth, (x, auth) ∈ answered_accounts addresses d → ∃ p v, describes_account x auth p ∧ schedule x auth v) →
  ∃ d', handleJobAccountAuth addresses d = (d', Ok tt) ∧
    Forall2 (λ x x', match auth_answer addresses x with
                     | Some auth => ∃ p, describes_account x auth p ∧ x' = patch_account p x
                     | None => x' = x
                     end) (account d) (account d') ∧
    ∀ x, x ∈ account d →
      match auth_answer addresses x with
      | Some auth => ∃ v, schedule x auth v ∧
          account_vesting d' !! a_id x = match v with Some v => Some v | None => account_vesting d !! a_id x end
      | None => account_vesting d' !! a_id x = account_vesting d !! a_id x
      end.
Proof.
  intros Hu Hok Hans. unfold handleJobAccountAuth. case_bool_decide as Hnil.
  { subst addresses. exists d. split; [done|]. split; [|done]. by apply Forall_Forall2_diag, Forall_forall. }
  destruct (answers_of addresses d Hok) as (answers & Hq & Hid).
  pose proof (answered_ids addresses d (unique_ids d Hu)) as Hnd.
  destruct (batch_rows d addresses (answered_accounts addresses d) Hu ltac:(done) Hans) as (ps & vs & Hps & Hvs & H1 & H2).
  destruct (patches_of _ _ Hnd H1) as (Hids & Hfit & Hpatch).
  destruct (schedules_of _ _ Hnd H2) as (Hnv & Hsub & Hfv & Hsch).
  erewrite io_step by done. cbv beta. rewrite Hq. erewrite io_step by done. cbv beta zeta. rewrite Hid, Hps.
  erewrite io_step by done. rewrite Hvs. erewrite io_step by done. unfold logged, write_auth.
  assert (forallb (λ v : Z * AccountVesting, vesting_fits v.2) (omap id vs) = true) as Hfits.
  { apply forallb_forall. intros v Hv. rewrite Forall_forall in Hfv. by apply Hfv, list_elem_of_In. }
  rewrite Hfit, Hfits. simpl. rewrite bool_decide_eq_true_2 by done. simpl.
  eexists. split; [done|]. cbn [account set_vesting set_account account_vesting]. rewrite patches_all.
  destruct (insert_schedules (omap id vs) (account_vesting d) Hnv) as [Hin Hout]. split.
  - apply Forall2_fmap_r, Forall_Forall2_diag, Forall_forall. intros x Hx.
    destruct (auth_answer addresses x) as [auth|] eqn:Ha.
    + apply (auth_answer_Some _ d) in Ha; [|done]. exact (Hpatch (x, auth) Ha).
    + apply patches_none. rewrite Hids. intros (y & Hy & Hin')%list_elem_of_fmap.
      apply list_elem_of_fmap in Hin' as ([z auth] & -> & Hin').
      pose proof (proj1 (elem_of_answered _ _ _ _) Hin') as (Hz & _).
      pose proof (account_of_id d x z Hu Hx Hz Hy) as <-. apply (auth_answer_Some _ d) in Hin'; [|done]. congruence.
  - intros x Hx. destruct (auth_answer addresses x) as [auth|] eqn:Ha.
    + apply (auth_answer_Some _ d) in Ha; [|done]. destruct (Hsch (x, auth) Ha) as (v & Hv & Hvin).
      exists v. split; [done|]. destruct v as [v|]; [exact (Hin _ Hvin)|by apply Hout].
    + apply Hout. intros (y & Hy & Hin')%Hsub%list_elem_of_fmap.
      apply list_elem_of_fmap in Hin' as ([z auth] & -> & Hin').
      pose proof (proj1 (elem_of_answered _ _ _ _) Hin') as (Hz & _).
      pose proof (account_of_id d x z Hu Hx Hz Hy) as <-. apply (auth_answer_Some _ d) in Hin'; [|done]. congruence.
Qed.
End AuthJob.

(** A vesting account whose vesting ends after the 32-bit integers do: the
    transaction is aborted while its errors are logged, so no account of the
    batch is updated. *)
Theorem late_vesting_loses_batch {N : AccountNode} addresses d x auth bv z :
  x ∈ account d → a_address x ∈ addresses → queryAccount (a_address x) = Ok (Some auth) →
  is_vesting (au_type auth) = true → au_base_vesting_account auth = Some bv →
  coerce_number (bv_end_time bv) = Ok z → 2 ^ 31 <= z →
  (handleJobAccountAuth addresses d).1 = d.
Proof.
  intros Hx Ha Hq Hty Hbv Hz Hlate. unfold handleJobAccountAuth. case_bool_decide; [done|].
  erewrite io_step by done. cbv beta.
  destruct (mapR _ (filter _ _)) as [answers|] eqn:Hans; [|done]. erewrite io_step by done. cbv beta zeta.
  destruct (mapR _ (omap id answers)) as [ps|] eqn:Hps; [|done]. erewrite io_step by done. cbv beta.
  destruct (mapR _ (zip ps (omap id answers))) as [vs|] eqn:Hvs; [|done]. erewrite io_step by done.
  unfold logged, write_auth.
  assert (forallb (λ v : Z * AccountVesting, vesting_fits v.2) (omap id vs) = false) as ->; [|by rewrite andb_false_r].
  apply mapR_Ok in Hans, Hps, Hvs.
  assert (Some auth ∈ answers) as Hin.
  { assert (x ∈ filter (λ a, a_address a ∈ addresses) (account d)) as Hx' by (by apply list_elem_of_filter).
    apply list_elem_of_lookup in Hx' as [i Hi]. destruct (Forall2_lookup_l _ _ _ _ _ Hans Hi) as (o & Ho & Hqo).
    rewrite Hq in Hqo. injection Hqo as <-. by eapply list_elem_of_lookup_2. }
  assert (auth ∈ omap id answers) as Hauth by (apply list_elem_of_omap; by exists (Some auth)).
  apply list_elem_of_lookup in Hauth as [i Hi]. destruct (Forall2_lookup_l _ _ _ _ _ Hps Hi) as (p & Hp & _).
  assert (zip ps (omap id answers) !! i = Some (p, auth)) as Hzip by (apply lookup_zip_Some; done).
  destruct (Forall2_lookup_l _ _ _ _ _ Hvs Hzip) as (o & Ho & Hrow).
  unfold vesting_row in Hrow. cbn [fst snd] in Hrow. rewrite Hty, Hbv in Hrow. simpl in Hrow.
  apply bind_Ok in Hrow as (start & _ & Hrow). rewrite Hz in Hrow. injection Hrow as <-.
  apply not_true_iff_false. intros Hall. rewrite forallb_forall in Hall.
  specialize (Hall _ (proj1 (list_elem_of_In _ _) (proj2 (list_elem_of_omap id vs _)
    (ex_intro _ _ (conj (list_elem_of_lookup_2 _ _ _ Ho) eq_refl))))).
  unfold vesting_fits, int4 in Hall. simpl in Hall. apply andb_prop in Hall as [_ Hall]. lia.
Qed.

(** ** The job *)
#[export] Instance handleAddress_frames {C : AddressCodec} np :
  HandlerFrames (prepareAddresses np) (λ _ _ (w : list string * list Account) d, Ok (insert_accounts w.2 d)).
Proof.
  constructor.
  - intros s e. unfold prepareAddresses. eauto with frames.
  - intros s e w d d' [= <-]. unfold insert_accounts. by case_bool_decide.
Qed.
#[export] Instance handleAddress_job {C : AddressCodec} np cfg : CheckpointJob cfg HANDLE_ADDRESS (handleAddress np cfg).
Proof. apply checkpoint_handler_then_job; [apply _|]. by intros w d. Qed.

(** ** Witnesses *)
Module DemoAccounts.
(** 0x addresses with two letters per byte. *)
Fixpoint letters (s : string) : string :=
  match s with
  | EmptyString => ""
  | String c s => String (Z_ascii (97 + ascii_Z c / 16)) (String (Z_ascii (97 + ascii_Z c mod 16)) (letters s))
  end.
Fixpoint from_letters (s : string) : res string :=
  match s with
  | EmptyString => Ok ""
  | String a (String b s) => t ← from_letters s; Ok (String (Z_ascii ((ascii_Z a - 97) * 16 + (ascii_Z b - 97))) t)
  | _ => Throw "odd"
  end.
Definition codec : AddressCodec := {|
  toBech32 := key2; fromBech32 := DemoCodec.split_at_underscore;
  ETH_encoder d := ("0x" +:+ letters d)%string;
  ETH_decoder s := match s with
    | String "0"%char (String "x"%char d) => from_letters d
    | _ => Throw "Unrecognized address format" end |}.

Lemma from_letters_inverse d : from_letters (toLowerCase (letters d)) = Ok d ∧ from_letters (letters d) = Ok d.
Proof.
  induction d as [|c d [IH1 IH2]]; [done|]. cbn [letters toLowerCase].
  destruct c as [[] [] [] [] [] [] [] []]; split; cbn -[from_letters toLowerCase letters]; cbn [from_letters];
    rewrite ?IH1, ?IH2; reflexivity.
Qed.
#[export] Instance codec_laws : AddressCodecLaws codec "aura".
Proof.
  constructor; simpl.
  - done.
  - intros s p d. apply DemoCodec.split_key2_inv.
  - intros d. apply from_letters_inverse.
Qed.
#[export] Instance codec_lower : LowerCaseCodec codec.
Proof. intros d. simpl. apply from_letters_inverse. Qed.
End DemoAccounts.

Definition demo_user (c : string) : string := ("aura_" +:+ "aaaaaaaaaaaaaaaaaaa" +:+ c)%string.
Definition demo_row (i : Z) (a : string) (ty : string) : Account := {|
  a_id := i; a_address := a; a_evm_address := ("0x" +:+ DemoAccounts.letters (String.substring 5 20 a))%string; a_balances := []; a_spendable_balances := [];
  a_type := ty; a_pubkey := "{}"; a_account_number := 0; a_sequence := 0; a_code_hash := None |}.
Definition demo_native (amount : string) : AccountBalance := {|
  b_amount := amount; b_base_denom := None; b_last_updated_height := 1; b_type := TYPE.NATIVE |}.
Definition demo_vesting (t : Z) : AccountVesting := {|
  v_original_vesting := []; v_delegated_free := []; v_delegated_vesting := []; v_start_time := None; v_end_time := t |}.
Definition demo_accounts_db : Db := {|
  account := [demo_row 1 (demo_user "a") AccountType.DELAYED_VESTING]; next_account_id := 2;
  account_vesting := <[1 := demo_vesting 1000]> ∅;
  account_balance := <[(1, "uold") := demo_native "3"]> (<[(1, "d200") := demo_native "4"]> ∅);
  event_attribute := [(demo_user "a", 4860001); (demo_user "b", 4860001); ("aura_short", 4860002); (demo_user "b", 4860002)];
  ibc_denom := ∅; account_jobs := []; block_checkpoint := <["handle:transaction" := 4860002]> ∅ |}.

(** A node on which every account holds the coins [chain]. *)
Definition demo_account_node (chain : list (string * string)) : AccountNode := {|
  queryAccount a := Ok (Some {| au_type := AccountType.DELAYED_VESTING; au_code_hash := None; au_start_time := None;
    au_base_vesting_account := Some {| bv_base_account := {| ba_address := a; ba_pub_key := Some "key"; ba_account_number := "7"; ba_sequence := "3" |};
      bv_original_vesting := []; bv_delegated_free := []; bv_delegated_vesting := []; bv_end_time := "4102444800" |};
    au_base_account := None; au_self := None |});
  queryAllBalances a n := Ok (take n chain, 10);
  querySpendableBalances a n := Ok (take n chain);
  denomTrace h := Ok ("u" +:+ h)%string |}.
Definition demo_coins : list (string * string) := [("uaura", "5"); ("ibc/atom", "7")].
Definition many_coins : list (string * string) := (λ i, (("d" +:+ toString (Z.of_nat i))%string, "1")) <$> seq 0 201.
#[export] Instance demo_account_node_paged chain : PagedNode (demo_account_node chain) (λ _, chain) (λ _, 10).
Proof. by intros a n. Qed.

Lemma demo_accounts_unique : accounts_unique demo_accounts_db.
Proof. split; apply (bool_decide_eq_true_1 _); by vm_compute. Qed.
Lemma demo_cache_sound chain : cache_sound (N := demo_account_node chain) ∅.
Proof. by intros denom base. Qed.

Lemma addresses_registered_witness :
  ∃ d' rows, handleAddress (C := DemoAccounts.codec) "aura" Config.json demo_accounts_db = (d', Ok tt) ∧
    account d' = account demo_accounts_db ++ rows ∧ demo_user "b" ∈ a_address <$> rows ∧ demo_user "a" ∉ a_address <$> rows.
Proof.
  destruct (addresses_registered (C := DemoAccounts.codec) (L := DemoAccounts.codec_laws) (LC := DemoAccounts.codec_lower) "aura" Config.json demo_accounts_db 4860000 4860002
    {| job_name := "handle:address"; height := 4860000 |}) as (d' & rows & Hrun & Hacc & Hrows & _).
  - vm_compute. reflexivity.
  - lia.
  - split.
    + repeat constructor. eexists. split; [vm_compute; reflexivity|]. vm_compute. reflexivity.
    + apply (bool_decide_eq_true_1 _). by vm_compute.
    + apply (bool_decide_eq_true_1 _). by vm_compute.
    + by repeat constructor.
  - exists d', rows. split; [exact Hrun|]. split; [exact Hacc|]. split.
    + apply Hrows. split; [|apply (bool_decide_eq_true_1 _); by vm_compute]. split_and!; [by vm_compute..|].
      exists 4860001. split; [by right; left|lia].
    + intros [_ Hno]%Hrows. apply Hno. by left.
Defined.


Lemma coins_beyond_page_zeroed_witness :
  ∃ d' b', handleJobAccountBalances (N := demo_account_node many_coins) (O := in_order) [demo_user "a"] demo_accounts_db = (d', Ok tt) ∧
    account_balance d' !! (1, "d200") = Some b' ∧ b_amount b' = "0".
Proof.
  destruct (coins_beyond_page_zeroed (N := demo_account_node many_coins) (O := in_order) (λ _, many_coins) (λ _, 10)
    demo_accounts_db (demo_row 1 (demo_user "a") AccountType.DELAYED_VESTING) 200 "d200" "1" (demo_native "4"))
    as (d' & b' & Hrun & Hb & Ha & _).
  - apply demo_accounts_unique.
  - apply demo_cache_sound.
  - by left.
  - apply (bool_decide_eq_true_1 _). by vm_compute.
  - done.
  - by vm_compute.
  - unfold balances_limit. lia.
  - by vm_compute.
  - done.
  - exists d', b'. exact (conj Hrun (conj Hb Ha)).
Defined.

Lemma vesting_ends_seen_witness :
  ∃ t d', t ∈ [980; 1010; 1040] ∧
    handleVestingAccounts (N := demo_account_node demo_coins) (O := in_order) t demo_accounts_db = (d', Ok tt) ∧
    demo_user "a" ∈ a_address <$> account d'.
Proof.
  destruct (vesting_ends_seen (N := demo_account_node demo_coins) (O := in_order) (λ _, demo_coins) [980; 1010; 1040] 980 1000 1040)
    as (t & Ht & _ & H).
  - intros [|[|[|i]]] a b Ha Hb; simpl in *; simplify_eq; lia.
  - done.
  - lia.
  - done.
  - lia.
  - destruct (H demo_accounts_db (demo_row 1 (demo_user "a") AccountType.DELAYED_VESTING) (demo_vesting 1000)) as (d' & Hrun & Hin).
    + by left.
    + by vm_compute.
    + by vm_compute.
    + done.
    + intros a _. split; [by rewrite <-(take_ge demo_coins balances_limit) by (unfold balances_limit; simpl; lia)|done].
    + apply demo_cache_sound.
    + exists t, d'. split; [exact Ht|]. split; [exact Hrun|]. apply list_elem_of_fmap. eexists. split; [|exact Hin]. reflexivity.
Defined.

Lemma late_vesting_loses_batch_witness :
  (handleJobAccountAuth (N := demo_account_node []) [demo_user "a"] demo_accounts_db).1 = demo_accounts_db.
Proof.
  eapply (late_vesting_loses_batch (N := demo_account_node []) _ _ (demo_row 1 (demo_user "a") AccountType.DELAYED_VESTING) _ _ 4102444800).
  - by left.
  - by left.
  - reflexivity.
  - by vm_compute.
  - reflexivity.
  - by vm_compute.
  - lia.
Defined.

(** A node that describes the account as a plain one. *)
Definition demo_auth_node : AccountNode := {|
  queryAccount a := Ok (Some {| au_type := "/cosmos.auth.v1beta1.BaseAccount"; au_code_hash := None; au_start_time := None;
    au_base_vesting_account := None; au_base_account := None;
    au_self := Some {| ba_address := a; ba_pub_key := Some "key"; ba_account_number := "7"; ba_sequence := "3" |} |});
  queryAllBalances a n := Ok ([], 10); querySpendableBalances a n := Ok []; denomTrace h := Ok h |}.

Lemma auth_updated_witness :
  ∃ d', handleJobAccountAuth (N := demo_auth_node) [demo_user "a"] demo_accounts_db = (d', Ok tt) ∧
    (λ x, (a_account_number x, a_sequence x, a_pubkey x)) <$> account d' = [(7, 3, "key")].
Proof.
  destruct (auth_updated (N := demo_auth_node) [demo_user "a"] demo_accounts_db) as (d' & Hrun & Hall & _).
  - apply demo_accounts_unique.
  - done.
  - intros x auth Hin. apply elem_of_answered in Hin as (Hx & _ & Hq). apply list_elem_of_singleton in Hx as ->.
    injection Hq as <-. eexists _, None. split; [|split; [by vm_compute|done]].
    eexists _, 7, 3. split_and!; by vm_compute.
  - exists d'. split; [exact Hrun|]. inversion Hall as [|x x' l l' Hx Hl Heq Hd]; subst. inversion Hl; subst.
    unfold auth_answer in Hx. rewrite bool_decide_eq_true_2 in Hx by by left. simpl in Hx.
    destruct Hx as (p & (base & n & q & Hb & _ & Hn & Hq & _ & _ & ->) & ->). injection Hb as <-.
    vm_compute in Hn, Hq. injection Hn as <-. injection Hq as <-. reflexivity.
Defined.
