(* ===== verification/Proposals.v ===== *)
(** * Proposals

    [services/crawl-proposal/crawl_proposal.service.ts] stores the governance
    proposals the events mention and follows those whose deposit or voting
    period ends; [services/crawl-proposal/crawl_tally_proposal.service.ts]
    keeps their tallies and turnouts; [models/proposal.ts] builds the rows.
    The chain's answers and the comparison of versions are a class.  The
    invariant of the statuses is over a step relation in which the jobs and
    the chain take turns. *)
From S2P Require Import Prelude JsNum Checkpoint.

(** ** Data *)
Record Coin := { c_denom : string; c_amount : string }.
Record ITally := { yes : string; no : string; abstain : string; no_with_veto : string }.

(** The column [content]: the content of a legacy proposal, or the messages of
    a proposal of gov v1, of which the code reads the types. *)
Inductive Content :=
| Legacy (at_type title description : option string)
| Messages (types : list string).

(** A Number of millionths; [None] is [Infinity]. *)
Definition Turnout : Type := option Z.

(** Times are in milliseconds. *)
Record Proposal := {
  p_proposal_id : Z; p_proposer_address : option string;
  p_voting_start_time : option Z; p_voting_end_time : option Z; p_submit_time : Z; p_deposit_end_time : Z;
  p_type : string; p_title : string; p_description : string; p_content : Content;
  p_status : string; p_tally : ITally; p_initial_deposit : list Coin; p_total_deposit : list Coin;
  p_turnout : option Turnout; p_count_vote : option string; p_vote_counted : bool }.

Module STATUS.
Definition PROPOSAL_STATUS_DEPOSIT_PERIOD := "PROPOSAL_STATUS_DEPOSIT_PERIOD".
Definition PROPOSAL_STATUS_VOTING_PERIOD := "PROPOSAL_STATUS_VOTING_PERIOD".
Definition PROPOSAL_STATUS_PASSED := "PROPOSAL_STATUS_PASSED".
Definition PROPOSAL_STATUS_REJECTED := "PROPOSAL_STATUS_REJECTED".
Definition PROPOSAL_STATUS_FAILED := "PROPOSAL_STATUS_FAILED".
Definition PROPOSAL_STATUS_NOT_ENOUGH_DEPOSIT := "PROPOSAL_STATUS_NOT_ENOUGH_DEPOSIT".
End STATUS.
Import STATUS.

(** The messages that submit a proposal, and the events of their
    transactions. *)
Record Message := {
  m_tx_id : Z; m_index : Z; m_type : string; m_proposer : option string; m_initial_deposit : option (list Coin) }.
Record Event := { e_tx_id : Z; e_type : string; e_tx_msg_index : option Z; e_attributes : list (string * string) }.

(** The tables.  [event_attribute] holds key, value and height. *)
Record Db := {
  proposal : gmap Z Proposal;
  event_attribute : list (string * string * Z);
  transaction : list (Z * Z);                    (* id, code *)
  transaction_message : list Message;
  event : list Event;
  block_checkpoint : gmap string Z
}.
Definition set_proposal (t : gmap Z Proposal) (d : Db) : Db := {|
  proposal := t; event_attribute := event_attribute d; transaction := transaction d;
  transaction_message := transaction_message d; event := event d; block_checkpoint := block_checkpoint d |}.
#[export] Instance Db_checkpoints : HasCheckpoints Db := block_checkpoint.
#[export] Program Instance Db_set_checkpoints : SetCheckpoints Db := {|
  set_checkpoints t d := {|
    proposal := proposal d; event_attribute := event_attribute d; transaction := transaction d;
    transaction_message := transaction_message d; event := event d; block_checkpoint := t |}
|}.
Next Obligation. done. Qed.

(** ** Answers of the chain *)

(** [gov.v1beta1.proposal] *)
Record ProposalV1beta1 := {
  b_proposal_id : string; b_content : option string * option string * option string;   (* type, title, description *)
  b_status : string; b_final_tally_result : ITally; b_submit_time : Z; b_deposit_end_time : Z;
  b_voting_start_time : option Z; b_voting_end_time : option Z; b_total_deposit : list Coin }.
(** [gov.v1.proposal] *)
Record ProposalV1 := {
  v_id : string; v_messages : list string; v_title : option string; v_summary : option string;
  v_proposer : option string; v_status : string; v_yes_count : string; v_abstain_count : string;
  v_no_count : string; v_no_with_veto_count : string; v_submit_time : Z; v_deposit_end_time : Z;
  v_voting_start_time : option Z; v_voting_end_time : option Z; v_total_deposit : list Coin }.
(** The answer to [abci_query]: its status is a number. *)
Record ProposalAbci := {
  a_id : Z; a_status : Z; a_total_deposit : option (list Coin); a_final_tally_result : option ITally }.

Class GovNode := {
  getNodeInfo : res (option string);
  (** [None]: an error with code 5, not found *)
  proposal_v1beta1 : Z → res (option ProposalV1beta1);
  proposal_v1 : Z → res (option ProposalV1);
  (** [None]: the response has no value *)
  abci_proposal : Z → res (option ProposalAbci);
  abci_tally : Z → res (option ITally);
  (** the bonded tokens *)
  staking_pool : res (option string);
  (** [new SemVer(a).compare(b)] *)
  compareVersion : string → string → res Z;
  (** the name of a number in [cosmos.gov.v1.ProposalStatus] *)
  ProposalStatus : Z → option string
}.

(** The fields of [proposal.proposal] the code uses, of either answer. *)
Record ChainProposal := {
  cp_proposal_id : string; cp_content : Content; cp_messages : option (list string);
  cp_title : option string; cp_description : option string;
  cp_status : string; cp_final_tally_result : ITally; cp_submit_time : Z; cp_deposit_end_time : Z;
  cp_voting_start_time : option Z; cp_voting_end_time : option Z; cp_total_deposit : list Coin }.

Definition of_v1beta1 (p : ProposalV1beta1) : ChainProposal := {|
  cp_proposal_id := b_proposal_id p; cp_content := let '(ty, ti, de) := b_content p in Legacy ty ti de;
  cp_messages := None; cp_title := None; cp_description := None;
  cp_status := b_status p; cp_final_tally_result := b_final_tally_result p;
  cp_submit_time := b_submit_time p; cp_deposit_end_time := b_deposit_end_time p;
  cp_voting_start_time := b_voting_start_time p; cp_voting_end_time := b_voting_end_time p;
  cp_total_deposit := b_total_deposit p |}.
(** [proposal.proposal = { ...proposal.proposal, proposal_id: ..., ... }] *)
Definition of_v1 (p : ProposalV1) : ChainProposal := {|
  cp_proposal_id := v_id p; cp_content := Messages (v_messages p);
  cp_messages := Some (v_messages p); cp_title := v_title p; cp_description := v_summary p;
  cp_status := v_status p;
  cp_final_tally_result := {| yes := v_yes_count p; abstain := v_abstain_count p; no := v_no_count p;
                              no_with_veto := v_no_with_veto_count p |};
  cp_submit_time := v_submit_time p; cp_deposit_end_time := v_deposit_end_time p;
  cp_voting_start_time := v_voting_start_time p; cp_voting_end_time := v_voting_end_time p;
  cp_total_deposit := v_total_deposit p |}.

(** ** models/proposal.ts *)
Definition MSG_SUBMIT_PROPOSAL := "/cosmos.gov.v1beta1.MsgSubmitProposal".
Definition MSG_SUBMIT_PROPOSAL_V1 := "/cosmos.gov.v1.MsgSubmitProposal".

Fixpoint join_comma (l : list string) : string :=
  match l with
  | [] => ""
  | [x] => x
  | x :: l => x +:+ "," +:+ join_comma l
  end.

Definition content_type (c : Content) : option string := match c with Legacy ty _ _ => ty | Messages _ => None end.
Definition content_title (c : Content) : option string := match c with Legacy _ ti _ => ti | Messages _ => None end.
Definition content_description (c : Content) : option string := match c with Legacy _ _ de => de | Messages _ => None end.

(** [proposal.content['@type'] ?? proposal.messages.map(...).join(',')] *)
Definition proposal_type (p : ChainProposal) : res string :=
  match content_type (cp_content p) with
  | Some ty => Ok ty
  | None => match cp_messages p with
            | Some types => Ok (join_comma types)
            | None => Throw "TypeError: undefined is not an object"
            end
  end.
Definition first_defined (a b : option string) : string := default (default "" b) a.

(** [proposal.proposer_address] is a field neither answer has. *)
Definition createNewProposal (p : ChainProposal) (proposerAddress : option string)
    (initialDeposit : option (list Coin)) : res Proposal :=
  ty ← proposal_type p;
  id ← coerce_number (cp_proposal_id p);
  Ok {| p_proposal_id := id; p_proposer_address := proposerAddress;
        p_voting_start_time := cp_voting_start_time p; p_voting_end_time := cp_voting_end_time p;
        p_submit_time := cp_submit_time p; p_deposit_end_time := cp_deposit_end_time p;
        p_type := ty;
        p_title := first_defined (content_title (cp_content p)) (cp_title p);
        p_description := first_defined (content_description (cp_content p)) (cp_description p);
        p_content := cp_content p; p_status := cp_status p; p_tally := cp_final_tally_result p;
        p_initial_deposit := default [] initialDeposit; p_total_deposit := cp_total_deposit p;
        p_turnout := None; p_count_vote := None; p_vote_counted := false |}.

(** The rows the joins of [getProposerBySearchTx] select. *)
Definition submits (d : Db) (proposalId : string) (m : Message) : bool :=
  bool_decide (m_type m ∈ [MSG_SUBMIT_PROPOSAL; MSG_SUBMIT_PROPOSAL_V1]) &&
  bool_decide ((m_tx_id m, 0) ∈ transaction d) &&
  existsb (λ e, (e_tx_id e =? m_tx_id m) && bool_decide (e_type e = "submit_proposal") &&
    bool_decide (e_tx_msg_index e = Some (m_index m)) &&
    bool_decide (("proposal_id", proposalId) ∈ e_attributes e)) (event d).
Definition getProposerBySearchTx (d : Db) (proposalId : string) : option string * option (list Coin) :=
  match find (submits d proposalId) (transaction_message d) with
  | Some m => (m_proposer m, m_initial_deposit m)
  | None => (None, None)
  end.

(** ** crawl_proposal.service.ts *)
Section Crawl.
Context {N : GovNode} {O : Settling}.

(** [parseInt] of the values; [None] is [NaN]. *)
Definition proposalIds (startHeight endHeight : Z) (d : Db) : list (option Z) :=
  uniq ((λ a : string * string * Z, parseInt a.1.2) <$>
    filter (λ a : string * string * Z, startHeight < a.2 <= endHeight ∧ a.1.1 = "proposal_id") (event_attribute d)).

(** Integer columns have 32 bits; a query with another value is refused. *)
Definition id_param (o : option Z) : res Z :=
  match o with
  | Some z => if (- 2 ^ 31 <=? z) && (z <? 2 ^ 31) then Ok z else Throw "value out of range for type integer"
  | None => Throw "invalid input syntax for type integer"
  end.

Definition fetchProposal (cosmosSdkVersion : string) (proposalId : Z) : res (option ChainProposal) :=
  c ← compareVersion cosmosSdkVersion "v0.45.99";
  if c =? -1 then p ← proposal_v1beta1 proposalId; Ok (fmap (M := option) of_v1beta1 p)
  else p ← proposal_v1 proposalId; Ok (fmap (M := option) of_v1 p).

(** [proposalEntity = foundProposal] with the fields that change. *)
Definition refresh (foundProposal : Proposal) (p : ChainProposal) : Proposal := {|
  p_proposal_id := p_proposal_id foundProposal; p_proposer_address := p_proposer_address foundProposal;
  p_voting_start_time := cp_voting_start_time p; p_voting_end_time := cp_voting_end_time p;
  p_submit_time := p_submit_time foundProposal; p_deposit_end_time := p_deposit_end_time foundProposal;
  p_type := p_type foundProposal; p_title := p_title foundProposal; p_description := p_description foundProposal;
  p_content := p_content foundProposal; p_status := cp_status p; p_tally := p_tally foundProposal;
  p_initial_deposit := p_initial_deposit foundProposal; p_total_deposit := cp_total_deposit p;
  p_turnout := p_turnout foundProposal; p_count_vote := p_count_vote foundProposal;
  p_vote_counted := p_vote_counted foundProposal |}.

Definition proposalEntity (d : Db) (proposalId : Z) (p : ChainProposal) : res Proposal :=
  match proposal d !! proposalId with
  | None => let '(proposer, deposit) := getProposerBySearchTx d (cp_proposal_id p) in
            createNewProposal p proposer deposit
  | Some foundProposal => Ok (refresh foundProposal p)
  end.

(** The callback of one id. *)
Definition crawl_one (d : Db) (version : string) (proposalId : Z) : res (option Proposal) :=
  p ← fetchProposal version proposalId;
  match p with Some p => e ← proposalEntity d proposalId p; Ok (Some e) | None => Ok None end.

Definition listProposals (d : Db) (ids : list Z) : res (list Proposal) :=
  info ← getNodeInfo;
  l ← mapR (crawl_one d (default "v0.45.99" info)) ids;
  Ok (omap id (settled l)).

Definition prepareProposals (startHeight endHeight : Z) : io Db (list Proposal) :=
  ids ← query (proposalIds startHeight endHeight);
  if bool_decide (ids = []) then mret [] else
  ids ← lift (mapR id_param ids);
  l ← query (λ d, listProposals d ids);
  lift l.

(** The columns: integer, varchar(255). *)
Definition proposal_fits (p : Proposal) : bool :=
  is_ok (id_param (Some (p_proposal_id p))) && (String.length (p_type p) <=? 255)%nat &&
  (String.length (p_title p) <=? 255)%nat.

(** [insert(listProposals).onConflict('proposal_id').merge()] *)
Definition upsert_proposals (l : list Proposal) (d : Db) : res Db :=
  if bool_decide (NoDup (p_proposal_id <$> l)) && forallb proposal_fits l
  then Ok (set_proposal (foldl (λ (t : gmap Z Proposal) p, <[p_proposal_id p := p]> t) (proposal d) l) d)
  else Throw "the database refuses the proposals".

Definition handleCrawlProposals (cfg : Config.t) : io Db () :=
  checkpoint_handler cfg CRAWL_PROPOSAL prepareProposals (λ _ _ l, upsert_proposals l).

(** ** Proposals that end *)

(** [new Date(Date.now() - 10)] *)
Definition current10SecsAgo (now : Z) : Z := now - 10.
Definition rows (d : Db) : list Proposal := (map_to_list (proposal d)).*2.
(** SQL's comparison with a time that can be null. *)
Definition until (t : Z) (o : option Z) : bool := match o with Some e => e <=? t | None => false end.

Definition endedProposals (now : Z) (d : Db) : list Proposal :=
  filter (λ p, p_status p = PROPOSAL_STATUS_VOTING_PERIOD ∧ until (current10SecsAgo now) (p_voting_end_time p) = true)
    (rows d).
Definition depositProposals (now : Z) (d : Db) : list Proposal :=
  filter (λ p, p_status p = PROPOSAL_STATUS_DEPOSIT_PERIOD ∧ p_deposit_end_time p <= current10SecsAgo now) (rows d).

(** [resultProposals.find(pro => pro?.proposal?.id.equals(...))] *)
Definition is_answer (proposalId : Z) (o : option ProposalAbci) : bool :=
  match o with Some a => a_id a =? proposalId | None => false end.
Definition onchainPro (resultProposals : list (option ProposalAbci)) (proposalId : Z) : option ProposalAbci :=
  mjoin (find (is_answer proposalId) resultProposals).

Definition zero_tally : ITally := {| yes := "0"; no := "0"; abstain := "0"; no_with_veto := "0" |}.
Definition patch_ended (a : ProposalAbci) (p : Proposal) : Proposal := {|
  p_proposal_id := p_proposal_id p; p_proposer_address := p_proposer_address p;
  p_voting_start_time := p_voting_start_time p; p_voting_end_time := p_voting_end_time p;
  p_submit_time := p_submit_time p; p_deposit_end_time := p_deposit_end_time p;
  p_type := p_type p; p_title := p_title p; p_description := p_description p; p_content := p_content p;
  p_status := default "" (ProposalStatus (a_status a));
  p_tally := default zero_tally (a_final_tally_result a);
  p_initial_deposit := p_initial_deposit p; p_total_deposit := default [] (a_total_deposit a);
  p_turnout := p_turnout p; p_count_vote := p_count_vote p; p_vote_counted := p_vote_counted p |}.
Definition patch_status (s : string) (p : Proposal) : Proposal := {|
  p_proposal_id := p_proposal_id p; p_proposer_address := p_proposer_address p;
  p_voting_start_time := p_voting_start_time p; p_voting_end_time := p_voting_end_time p;
  p_submit_time := p_submit_time p; p_deposit_end_time := p_deposit_end_time p;
  p_type := p_type p; p_title := p_title p; p_description := p_description p; p_content := p_content p;
  p_status := s; p_tally := p_tally p;
  p_initial_deposit := p_initial_deposit p; p_total_deposit := p_total_deposit p;
  p_turnout := p_turnout p; p_count_vote := p_count_vote p; p_vote_counted := p_vote_counted p |}.

(** [Proposal.query().where('proposal_id', id).patch(...)] for every entry. *)
Definition patch_all (l : list (Z * (Proposal → Proposal))) (d : Db) : Db :=
  set_proposal (foldl (λ (t : gmap Z Proposal) x, alter x.2 x.1 t) (proposal d) l) d.

Definition handleEndedProposals (now : Z) : io Db () :=
  ended ← query (endedProposals now);
  resultProposals ← lift (mapR (λ p, abci_proposal (p_proposal_id p)) ended);
  update (patch_all (omap (λ p, match onchainPro resultProposals (p_proposal_id p) with
                                | Some a => Some (p_proposal_id p, patch_ended a)
                                | None => None
                                end) ended)).

Definition handleNotEnoughDepositProposals (now : Z) : io Db () :=
  deposits ← query (depositProposals now);
  resultProposals ← lift (mapR (λ p, abci_proposal (p_proposal_id p)) deposits);
  update (patch_all (omap (λ p, match onchainPro resultProposals (p_proposal_id p) with
                                | Some _ => None
                                | None => Some (p_proposal_id p, patch_status PROPOSAL_STATUS_NOT_ENOUGH_DEPOSIT)
                                end) deposits)).

(** ** crawl_tally_proposal.service.ts *)

(** [config.crawlTallyProposal]: a run every 10 seconds. *)
Definition millisecondCrawl : Z := 10000.
Definition just_completed (now : Z) (p : Proposal) : bool :=
  bool_decide (p_status p ∈ [PROPOSAL_STATUS_FAILED; PROPOSAL_STATUS_PASSED; PROPOSAL_STATUS_REJECTED]) &&
  until (now - 10) (p_voting_end_time p) && negb (until (now - 30) (p_voting_end_time p)).
Definition needs_tally (now : Z) (p : Proposal) : bool :=
  bool_decide (p_status p = PROPOSAL_STATUS_VOTING_PERIOD) || just_completed now p || bool_decide (p_turnout p = None).
Definition votingProposals (now : Z) (d : Db) : list Proposal := filter (λ p, needs_tally now p = true) (rows d).

(** [Number(sum * BigInt(100000000) / BigInt(bonded)) / 1000000]: the Number in
    millionths. *)
Definition turnout_of (pool : option string) (t : ITally) : res Turnout :=
  match pool with
  | None => Ok (Some 0)
  | Some bonded_tokens =>
      y ← BigInt (yes t); n ← BigInt (no t); a ← BigInt (abstain t); v ← BigInt (no_with_veto t);
      bonded ← BigInt bonded_tokens;
      if bonded =? 0 then Throw "RangeError: Division by zero" else
      Ok (to_double (Z.quot ((y + n + a + v) * 100000000) bonded))
  end.
Definition patch_tally (t : ITally) (turnout : Turnout) (p : Proposal) : Proposal := {|
  p_proposal_id := p_proposal_id p; p_proposer_address := p_proposer_address p;
  p_voting_start_time := p_voting_start_time p; p_voting_end_time := p_voting_end_time p;
  p_submit_time := p_submit_time p; p_deposit_end_time := p_deposit_end_time p;
  p_type := p_type p; p_title := p_title p; p_description := p_description p; p_content := p_content p;
  p_status := p_status p; p_tally := t;
  p_initial_deposit := p_initial_deposit p; p_total_deposit := p_total_deposit p;
  p_turnout := Some turnout; p_count_vote := p_count_vote p; p_vote_counted := p_vote_counted p |}.
Definition tally_patch (pool : option string) (x : Proposal * option ITally)
    : res (option (Z * (Proposal → Proposal))) :=
  match x.2 with
  | Some t => turnout ← turnout_of pool t; Ok (Some (p_proposal_id x.1, patch_tally t turnout))
  | None => Ok None
  end.

Definition handleTally (now : Z) : io Db () :=
  voting ← query (votingProposals now);
  pool ← lift staking_pool;
  proposalTally ← lift (mapR (λ p, abci_tally (p_proposal_id p)) voting);
  patches ← lift (mapR (tally_patch pool) (zip voting proposalTally));
  update (patch_all (omap id patches)).
End Crawl.

(** ** The table *)

(** The key of a row is its id. *)
Definition keyed (d : Db) : Prop := map_Forall (λ i p, p_proposal_id p = i) (proposal d).

Lemma elem_of_proposal_rows d p : keyed d → p ∈ rows d ↔ proposal d !! p_proposal_id p = Some p.
Proof.
  intros Hk. unfold rows. rewrite list_elem_of_fmap. split.
  - intros ([i q] & -> & Hi%elem_of_map_to_list). simpl. by rewrite (Hk i q Hi).
  - intros Hp. exists (p_proposal_id p, p). split; [done|]. by apply elem_of_map_to_list.
Qed.

Lemma rows_keys d : keyed d → NoDup (p_proposal_id <$> rows d).
Proof.
  intros Hk. unfold rows. rewrite <-list_fmap_compose.
  rewrite (Forall_fmap_ext_1 _ fst); [apply NoDup_fst_map_to_list|].
  apply Forall_forall. intros [i p] Hi%elem_of_map_to_list. apply (Hk i p Hi).
Qed.

Lemma foldl_alter_lookup `{Countable K} {A} (l : list (K * (A → A))) (t : gmap K A) :
  NoDup l.*1 →
  (∀ x, x ∈ l → foldl (λ (t : gmap K A) x, alter x.2 x.1 t) t l !! x.1 = x.2 <$> t !! x.1) ∧
  (∀ k, k ∉ l.*1 → foldl (λ (t : gmap K A) x, alter x.2 x.1 t) t l !! k = t !! k).
Proof.
  revert t. induction l as [|y l IH]; intros t Hnd; simpl.
  { split; [by intros x ?%not_elem_of_nil|done]. }
  rewrite fmap_cons in Hnd. apply NoDup_cons in Hnd as [Hy Hnd]. destruct (IH (alter y.2 y.1 t) Hnd) as [IH1 IH2]. split.
  - intros x [->|Hx]%elem_of_cons; [by rewrite IH2, lookup_alter_eq|].
    rewrite IH1 by done. rewrite lookup_alter_ne; [done|]. intros Heq. apply Hy. rewrite Heq. by apply list_elem_of_fmap_2.
  - intros k [Hk Hk']%not_elem_of_cons. rewrite IH2, lookup_alter_ne by done. done.
Qed.

(** Patches of some of the rows, chosen row by row. *)
Lemma patch_rows_lookup (choose : Proposal → option (Proposal → Proposal)) (P : Proposal → Prop)
    `{!∀ p, Decision (P p)} d i :
  keyed d →
  proposal (patch_all (omap (λ p, pair (p_proposal_id p) <$> choose p) (filter P (rows d))) d) !! i =
  (λ p, if bool_decide (P p) then default id (choose p) p else p) <$> proposal d !! i.
Proof.
  intros Hk. set (l := omap _ _). pose proof (rows_keys d Hk) as Hnd.
  assert (l.*1 `sublist_of` (p_proposal_id <$> rows d)) as Hsub.
  { subst l. clear. induction (rows d) as [|p r IH]; [done|]. rewrite filter_cons, fmap_cons. case_decide.
    - simpl. destruct (choose p); simpl; [by apply sublist_skip|by apply sublist_cons].
    - by apply sublist_cons. }
  destruct (foldl_alter_lookup l (proposal d) (sublist_NoDup _ _ Hnd Hsub)) as [Hin Hout].
  unfold patch_all. cbn [proposal set_proposal]. destruct (proposal d !! i) as [p|] eqn:Hp; cycle 1.
  { rewrite Hout, Hp; [done|]. intros Hi. apply (sublist_subseteq _ _ Hsub) in Hi.
    apply list_elem_of_fmap in Hi as (q & -> & Hq%elem_of_proposal_rows); [by rewrite Hq in Hp|done]. }
  pose proof (Hk i p Hp) as Hpi. simpl in Hpi. subst i. simpl.
  assert (∀ x, x ∈ l → x.1 = p_proposal_id p → P p ∧ pair (p_proposal_id p) <$> choose p = Some x) as Hl.
  { intros x (q & [HP Hq]%list_elem_of_filter & Hx)%list_elem_of_omap Heq.
    apply elem_of_proposal_rows in Hq; [|done]. assert (p_proposal_id q = p_proposal_id p) as Hqp.
    { by apply fmap_Some in Hx as (f & _ & ->). }
    rewrite Hqp, Hp in Hq. by simplify_eq. }
  destruct (decide (p_proposal_id p ∈ l.*1)) as [Hi|Hi].
  - apply list_elem_of_fmap in Hi as (x & Hx & Hxl). symmetry in Hx. destruct (Hl x Hxl Hx) as [HP Hc].
    apply fmap_Some in Hc as (f & Hc & ->). pose proof (Hin _ Hxl) as Hf. cbn [fst snd] in Hf. rewrite Hf, Hp. simpl.
    by rewrite bool_decide_eq_true_2, Hc by done.
  - rewrite Hout, Hp by done. case_bool_decide as HP; [|done].
    destruct (choose p) as [f|] eqn:Hc; [|done]. destruct Hi. apply list_elem_of_fmap.
    exists (p_proposal_id p, f). split; [done|]. subst l. apply list_elem_of_omap. exists p.
    split; [|by rewrite Hc]. apply list_elem_of_filter. split; [done|]. by apply elem_of_proposal_rows.
Qed.

Lemma patch_rows_keyed (choose : Proposal → option (Proposal → Proposal)) (P : Proposal → Prop)
    `{!∀ p, Decision (P p)} d :
  (∀ p f, choose p = Some f → p_proposal_id (f p) = p_proposal_id p) → keyed d →
  keyed (patch_all (omap (λ p, pair (p_proposal_id p) <$> choose p) (filter P (rows d))) d).
Proof.
  intros Hc Hk i p. rewrite patch_rows_lookup by done. intros (q & Hq & ->)%fmap_Some.
  case_bool_decide; [|by apply Hk]. destruct (choose q) as [f|] eqn:Hf; simpl; [|by apply Hk].
  rewrite (Hc _ _ Hf). by apply Hk.
Qed.

(** ** Proposals that end *)
Section Ended.
Context {N : GovNode}.

(** What the answers give for a row, when every answer is about the proposal
    that was asked for. *)
Lemma onchainPro_own (l : list Proposal) answers p :
  NoDup (p_proposal_id <$> l) → mapR (λ p, abci_proposal (p_proposal_id p)) l = Ok answers →
  (∀ q a, q ∈ l → abci_proposal (p_proposal_id q) = Ok (Some a) → a_id a = p_proposal_id q) → p ∈ l →
  abci_proposal (p_proposal_id p) = Ok (onchainPro answers (p_proposal_id p)).
Proof.
  intros Hnd Hm Hid Hp. apply mapR_Ok in Hm. unfold onchainPro.
  induction Hm as [|q o l answers Hq Hm IH]; [by apply not_elem_of_nil in Hp|].
  rewrite fmap_cons in Hnd. apply NoDup_cons in Hnd as [Hql Hnd]. cbn [find].
  assert (∀ q a, q ∈ l → abci_proposal (p_proposal_id q) = Ok (Some a) → a_id a = p_proposal_id q) as Hid'
    by (intros; apply Hid; [by right|done]).
  assert (∀ a, o = Some a → a_id a = p_proposal_id q) as Ho.
  { intros a ->. apply Hid; [by left|done]. }
  assert (∀ r, match find (is_answer r) answers with
               | Some (Some _) => ∃ q', q' ∈ l ∧ p_proposal_id q' = r | _ => True end) as Hfind.
  { intros r. destruct (find (is_answer r) answers) as [[a|]|] eqn:Hf; [|done..]. apply find_Some in Hf as [Hin Ha].
    apply list_elem_of_lookup in Hin as [i Hi]. destruct (Forall2_lookup_r _ _ _ _ _ Hm Hi) as (q' & Hq' & Hans).
    exists q'. split; [by eapply list_elem_of_lookup_2|]. simpl in Ha. rewrite <-(Hid' q' a); [lia| |done].
    by eapply list_elem_of_lookup_2. }
  apply elem_of_cons in Hp as [->|Hp].
  - destruct o as [a|]; simpl.
    + rewrite (proj2 (Z.eqb_eq _ _) (Ho a eq_refl)). done.
    + specialize (Hfind (p_proposal_id q)). destruct (find (is_answer _) answers) as [[a|]|]; [|done..].
      destruct Hfind as (q' & Hq' & Heq). destruct Hql. rewrite <-Heq. by apply list_elem_of_fmap_2.
  - assert (is_answer (p_proposal_id p) o = false) as ->; [|by apply IH].
    destruct o as [a|]; [|done]. simpl. rewrite (Ho a eq_refl). apply Z.eqb_neq. intros Heq. apply Hql. rewrite Heq.
    by apply list_elem_of_fmap_2.
Qed.

Definition own_answers : Prop := ∀ i a, abci_proposal i = Ok (Some a) → a_id a = i.

(** A run over the rows that satisfy [P], whose answers choose the patches. *)
Lemma answered_patches (P : Proposal → Prop) `{!∀ p, Decision (P p)}
    (f : Proposal → option ProposalAbci → option (Proposal → Proposal)) d :
  keyed d → own_answers → (∀ p, p ∈ rows d → P p → is_ok (abci_proposal (p_proposal_id p)) = true) →
  ∃ answers, mapR (λ p, abci_proposal (p_proposal_id p)) (filter P (rows d)) = Ok answers ∧
    ∀ i, proposal (patch_all (omap (λ p, pair (p_proposal_id p) <$> f p (onchainPro answers (p_proposal_id p)))
                               (filter P (rows d))) d) !! i =
      (λ p, if bool_decide (P p)
            then match abci_proposal i with Ok o => default id (f p o) p | Throw _ => p end else p) <$> proposal d !! i.
Proof.
  intros Hk Hown Hok. destruct (mapR_total (λ p, abci_proposal (p_proposal_id p)) (filter P (rows d))) as [answers Ha].
  { intros p [HP Hp]%list_elem_of_filter. specialize (Hok p Hp HP).
    destruct (abci_proposal (p_proposal_id p)) as [o|]; [by exists o|done]. }
  exists answers. split; [done|]. intros i. rewrite patch_rows_lookup by done.
  destruct (proposal d !! i) as [p|] eqn:Hp; [|done]. simpl. f_equal. case_bool_decide as HP; [|done].
  pose proof (Hk i p Hp) as Hpi. simpl in Hpi. subst i.
  rewrite (onchainPro_own (filter P (rows d)) answers p); try done.
  - apply (sublist_NoDup _ _ (rows_keys d Hk)). clear. induction (rows d) as [|q r IH]; [done|].
    rewrite filter_cons, fmap_cons. case_decide; [rewrite fmap_cons; by apply sublist_skip|by apply sublist_cons].
  - intros q a _. apply Hown.
  - apply list_elem_of_filter. split; [done|]. by apply elem_of_proposal_rows.
Qed.

(** When the node answers, a run of the job at [now] gives every proposal
    in its voting period that ended 10 milliseconds ago the status, deposit and
    tally of the chain; proposals the chain does not answer for and all others
    stay as they were. *)
Theorem ended_proposals_settle now d :
  keyed d → own_answers →
  (∀ p, p ∈ endedProposals now d → is_ok (abci_proposal (p_proposal_id p)) = true) →
  ∃ d', handleEndedProposals now d = (d', Ok tt) ∧ keyed d' ∧
    ∀ i p, proposal d !! i = Some p →
      proposal d' !! i = Some
        (if bool_decide (p_status p = PROPOSAL_STATUS_VOTING_PERIOD) && until (now - 10) (p_voting_end_time p)
         then match abci_proposal i with Ok (Some a) => patch_ended a p | _ => p end else p).
Proof.
  intros Hk Hown Hok.
  destruct (answered_patches (λ p, p_status p = PROPOSAL_STATUS_VOTING_PERIOD ∧
      until (current10SecsAgo now) (p_voting_end_time p) = true)
    (λ p o, patch_ended <$> o) d Hk Hown) as (answers & Ha & Hl).
  { intros p Hp HP. apply Hok. by apply list_elem_of_filter. }
  unfold handleEndedProposals. eexists. split.
  { erewrite io_step by done. cbv beta. unfold endedProposals. rewrite Ha. erewrite io_step by done. cbv beta.
    unfold update. reflexivity. }
  assert (∀ l : list Proposal, omap (λ p, match onchainPro answers (p_proposal_id p) with
                          | Some a => Some (p_proposal_id p, patch_ended a) | None => None end) l =
    omap (λ p, pair (p_proposal_id p) <$> (patch_ended <$> onchainPro answers (p_proposal_id p))) l) as Heq.
  { intros l. apply list_omap_ext, Forall_Forall2_diag, Forall_forall. intros p _. by destruct (onchainPro _ _). }
  rewrite Heq. split.
  - apply (patch_rows_keyed (λ p, patch_ended <$> onchainPro answers (p_proposal_id p))); [|done].
    intros p f (a & _ & ->)%fmap_Some. done.
  - intros i p Hp. rewrite Hl, Hp. simpl. f_equal. unfold current10SecsAgo.
    destruct (decide (p_status p = PROPOSAL_STATUS_VOTING_PERIOD)) as [Hs|Hs], (until (now - 10) _) eqn:Hu;
      [|rewrite (bool_decide_eq_false_2 (_ ∧ _)) by naive_solver; by rewrite andb_false_r
       |rewrite (bool_decide_eq_false_2 (_ ∧ _)) by naive_solver; by rewrite bool_decide_eq_false_2
       |rewrite (bool_decide_eq_false_2 (_ ∧ _)) by naive_solver; by rewrite bool_decide_eq_false_2].
    rewrite !bool_decide_eq_true_2 by done. simpl. by destruct (abci_proposal i) as [[a|]|].
Qed.

(** A run of the job gives every proposal in its deposit period, whose
    deposit ended 10 milliseconds ago and which the node does not answer for,
    the status NOT_ENOUGH_DEPOSIT, and leaves all others as they were. *)
Theorem unfunded_proposals_marked now d :
  keyed d → own_answers →
  (∀ p, p ∈ depositProposals now d → is_ok (abci_proposal (p_proposal_id p)) = true) →
  ∃ d', handleNotEnoughDepositProposals now d = (d', Ok tt) ∧ keyed d' ∧
    ∀ i p, proposal d !! i = Some p →
      proposal d' !! i = Some
        (if bool_decide (p_status p = PROPOSAL_STATUS_DEPOSIT_PERIOD) && (p_deposit_end_time p <=? now - 10)
         then match abci_proposal i with
              | Ok None => patch_status PROPOSAL_STATUS_NOT_ENOUGH_DEPOSIT p | _ => p end else p).
Proof.
  intros Hk Hown Hok.
  set (f := λ (p : Proposal) (o : option ProposalAbci),
    match o with Some _ => None | None => Some (patch_status PROPOSAL_STATUS_NOT_ENOUGH_DEPOSIT) end).
  destruct (answered_patches (λ p, p_status p = PROPOSAL_STATUS_DEPOSIT_PERIOD ∧
      p_deposit_end_time p <= current10SecsAgo now) f d Hk Hown) as (answers & Ha & Hl).
  { intros p Hp HP. apply Hok. by apply list_elem_of_filter. }
  unfold handleNotEnoughDepositProposals. eexists. split.
  { erewrite io_step by done. cbv beta. unfold depositProposals. rewrite Ha. erewrite io_step by done. cbv beta.
    unfold update. reflexivity. }
  assert (∀ l : list Proposal, omap (λ p, match onchainPro answers (p_proposal_id p) with
      | Some _ => None | None => Some (p_proposal_id p, patch_status PROPOSAL_STATUS_NOT_ENOUGH_DEPOSIT) end) l =
    omap (λ p, pair (p_proposal_id p) <$> f p (onchainPro answers (p_proposal_id p))) l) as Heq.
  { intros l. apply list_omap_ext, Forall_Forall2_diag, Forall_forall. intros p _. by destruct (onchainPro _ _). }
  rewrite Heq. split.
  - apply (patch_rows_keyed (λ p, f p (onchainPro answers (p_proposal_id p)))); [|done].
    intros p g. unfold f. destruct (onchainPro _ _); [done|]. by intros [= <-].
  - intros i p Hp. rewrite Hl, Hp. simpl. f_equal. unfold current10SecsAgo.
    destruct (decide (p_status p = PROPOSAL_STATUS_DEPOSIT_PERIOD)) as [Hs|Hs],
      (Z.leb_spec (p_deposit_end_time p) (now - 10)) as [Hu|Hu];
      [|rewrite (bool_decide_eq_false_2 (_ ∧ _)) by lia; by rewrite andb_false_r
       |rewrite (bool_decide_eq_false_2 (_ ∧ _)) by naive_solver; by rewrite bool_decide_eq_false_2
       |rewrite (bool_decide_eq_false_2 (_ ∧ _)) by naive_solver; by rewrite bool_decide_eq_false_2].
    rewrite !bool_decide_eq_true_2 by done. simpl. by destruct (abci_proposal i) as [[a|]|].
Qed.
End Ended.

(** ** The proposals of a range *)
Section Crawled.
Context {N : GovNode} {O : Settling}.

Lemma elem_of_proposalIds s e d o :
  o ∈ proposalIds s e d ↔ ∃ v h, ("proposal_id", v, h) ∈ event_attribute d ∧ s < h <= e ∧ parseInt v = o.
Proof.
  unfold proposalIds. rewrite elem_of_uniq, list_elem_of_fmap. split.
  - intros ([[k v] h] & -> & [[Hh Hk] Hin]%list_elem_of_filter). simpl in *. subst k. eauto 10.
  - intros (v & h & Hin & Hh & Ho). exists ("proposal_id", v, h). split; [done|]. by apply list_elem_of_filter.
Qed.

Lemma id_param_Ok o z : id_param o = Ok z → o = Some z.
Proof. destruct o as [y|]; simpl; [|done]. destruct (_ && _); [by intros [= ->]|done]. Qed.

Lemma ids_of_params (l : list (option Z)) ids : mapR id_param l = Ok ids → l = Some <$> ids.
Proof.
  intros H%mapR_Ok. induction H as [|o z l ids Ho _ IH]; [done|]. rewrite fmap_cons. f_equal; [by apply id_param_Ok|done].
Qed.

(** The rows of a list are written under their ids. *)
Lemma upserted_rows (l : list Proposal) (t : gmap Z Proposal) :
  NoDup (p_proposal_id <$> l) →
  (∀ p, p ∈ l → foldl (λ (t : gmap Z Proposal) p, <[p_proposal_id p := p]> t) t l !! p_proposal_id p = Some p) ∧
  (∀ i, i ∉ p_proposal_id <$> l → foldl (λ (t : gmap Z Proposal) p, <[p_proposal_id p := p]> t) t l !! i = t !! i).
Proof. apply (foldl_upsert_lookup p_proposal_id (λ _ p, p)). Qed.

Context (d : Db) (version : string).

(** The node answers for a proposal, and its row fits the table. *)
Definition answers_for (i : Z) : Prop :=
  ∃ o, fetchProposal version i = Ok o ∧
    ∀ p, o = Some p → cp_proposal_id p = toString i ∧
      ∃ row, proposalEntity d i p = Ok row ∧ proposal_fits row = true.

Lemma entity_id i p row : keyed d → cp_proposal_id p = toString i → proposalEntity d i p = Ok row → p_proposal_id row = i.
Proof.
  intros Hk Hp. unfold proposalEntity. destruct (proposal d !! i) as [q|] eqn:Hq.
  - intros [= <-]. simpl. apply (Hk i q Hq).
  - destruct (getProposerBySearchTx _ _) as [a b]. unfold createNewProposal. rewrite bind_Ok. intros (ty & _ & H).
    rewrite Hp, coerce_toString in H. by injection H as <-.
Qed.

(** The row of an id, when the chain has the proposal. *)
Definition crawled (i : Z) : option Proposal := match crawl_one d version i with Ok o => o | Throw _ => None end.

Lemma crawled_spec ids :
  keyed d → NoDup ids → (∀ i, i ∈ ids → answers_for i) →
  mapR (crawl_one d version) ids = Ok (crawled <$> ids) ∧
  NoDup (p_proposal_id <$> omap id (crawled <$> ids)) ∧
  forallb proposal_fits (omap id (crawled <$> ids)) = true ∧
  ∀ i row, i ∈ ids → crawled i = Some row → p_proposal_id row = i.
Proof.
  intros Hk Hnd Hans.
  assert (∀ i, i ∈ ids → crawl_one d version i = Ok (crawled i) ∧
    ∀ row, crawled i = Some row → p_proposal_id row = i ∧ proposal_fits row = true) as Hone.
  { intros i Hi. destruct (Hans i Hi) as ([p|] & Hf & Hp).
    - destruct (Hp p eq_refl) as (Hid & row & Hrow & Hfit). unfold crawled, crawl_one. rewrite Hf. simpl. rewrite Hrow.
      simpl. split; [done|]. intros row' [= <-]. split; [by apply (entity_id i p)|done].
    - unfold crawled, crawl_one. rewrite Hf. simpl. by split. }
  split_and!.
  - rewrite <-mapR_pure. apply mapR_ext. intros i Hi. apply (Hone i Hi).
  - clear Hans. induction ids as [|i ids IH]; [constructor|]. apply NoDup_cons in Hnd as [Hi Hnd].
    rewrite fmap_cons. simpl. destruct (crawled i) as [row|] eqn:Hr; [|by apply IH; [|intros; apply Hone; right]].
    simpl. constructor; [|by apply IH; [|intros; apply Hone; right]].
    intros (row' & Heq & Hin)%list_elem_of_fmap. apply list_elem_of_omap in Hin as (o & Hin & Ho). simpl in Ho. subst o.
    apply list_elem_of_fmap in Hin as (j & Hj & Hjin). symmetry in Hj.
    apply Hi. rewrite <-(proj1 (proj2 (Hone i ltac:(by left)) row Hr)), Heq.
    by rewrite (proj1 (proj2 (Hone j ltac:(by right)) row' Hj)).
  - apply forallb_forall. intros row (o & Hin & Ho)%list_elem_of_In%list_elem_of_omap. simpl in Ho. subst o.
    apply list_elem_of_fmap in Hin as (j & Hj & Hjin). symmetry in Hj. apply (proj2 (Hone j Hjin) row Hj).
  - intros i row Hi Hr. apply (proj2 (Hone i Hi) row Hr).
Qed.
End Crawled.

Section Crawl_job.
Context {N : GovNode} {O : Settling}.

(** When the ids of the range are numbers and the node answers for them, a
    run of the job stores every proposal the range mentions and the chain has:
    a new row with the proposer and deposit found in the transactions, or the
    stored row with the status, deposit and voting times of the chain.  All
    other rows stay, and the checkpoint is stored. *)
Theorem proposals_crawled `{!SettlingLaws O} cfg d s e u ids info :
  jobCheckpoint cfg CRAWL_PROPOSAL (checkpoints_of d) = Ok (s, e, u) → s < e → keyed d →
  mapR id_param (proposalIds s e d) = Ok ids → getNodeInfo = Ok info →
  (∀ i, i ∈ ids → answers_for d (default "v0.45.99" info) i) →
  ∃ d', handleCrawlProposals cfg d = (d', Ok tt) ∧ keyed d' ∧
    checkpoints_of d' = saveCheckpoint u e (checkpoints_of d) ∧
    ∀ i, match (if bool_decide (i ∈ ids) then fetchProposal (default "v0.45.99" info) i else Ok None) with
         | Ok (Some p) => ∃ row, proposalEntity d i p = Ok row ∧ proposal d' !! i = Some row
         | _ => proposal d' !! i = proposal d !! i
         end.
Proof.
  intros Hj Hse Hk Hids Hinfo Hans. set (v := default "v0.45.99" info) in *.
  assert (NoDup ids) as Hnd.
  { apply (NoDup_fmap_1 Some). rewrite <-(ids_of_params _ _ Hids). apply NoDup_uniq. }
  destruct (crawled_spec d v ids Hk Hnd Hans) as (Hmap & Hkeys & Hfit & Hkey).
  set (l := omap id (settled (crawled d v <$> ids))).
  assert (l ≡ₚ omap id (crawled d v <$> ids)) as Hl by (unfold l; by rewrite settled_perm).
  assert (prepareProposals s e d = (d, Ok l)) as Hprep.
  { unfold prepareProposals. erewrite io_step by done. cbv beta. case_bool_decide as Hnil.
    - rewrite Hnil in Hids. injection Hids as <-. unfold l. assert (settled (crawled d v <$> []) = []) as ->; [|done].
      apply Permutation_nil_r. by rewrite settled_perm.
    - rewrite Hids. erewrite io_step by done. cbv beta. erewrite io_step by done. cbv beta.
      unfold listProposals. rewrite Hinfo. simpl. fold v. by rewrite Hmap. }
  assert (NoDup (p_proposal_id <$> l)) as Hkeys' by by rewrite Hl.
  pose (d2 := set_proposal (foldl (λ (t : gmap Z Proposal) p, <[p_proposal_id p := p]> t) (proposal d) l) d).
  assert (upsert_proposals l d = Ok d2) as Hup.
  { unfold upsert_proposals. rewrite bool_decide_eq_true_2 by done.
    assert (forallb proposal_fits l = true) as ->; [|done]. rewrite forallb_forall in Hfit |- *.
    intros x Hx. apply Hfit. apply list_elem_of_In. rewrite <-Hl. by apply list_elem_of_In. }
  destruct (upserted_rows l (proposal d) Hkeys') as [Hin Hout].
  eexists. split; [|split; [|split]].
  - apply (checkpoint_handler_run cfg CRAWL_PROPOSAL prepareProposals (λ _ _ l, upsert_proposals l) d s e u d l d2 Hj);
      [simpl; lia|done|exact Hup].
  - intros i p. cbn [proposal set_checkpoints Db_set_checkpoints set_proposal].
    destruct (decide (i ∈ p_proposal_id <$> l)) as [Hi|Hi]; [|rewrite Hout by done; apply Hk].
    apply list_elem_of_fmap in Hi as (row & -> & Hrow). rewrite Hin by done. by intros [= <-].
  - by rewrite checkpoints_set.
  - intros i. cbn [proposal set_checkpoints Db_set_checkpoints set_proposal].
    assert (∀ row, row ∈ l → p_proposal_id row = i → i ∈ ids ∧ crawled d v i = Some row) as Hrows.
    { intros row Hrow Heq. rewrite Hl in Hrow. apply list_elem_of_omap in Hrow as (o & Hrow & Ho). simpl in Ho. subst o.
      apply list_elem_of_fmap in Hrow as (j & Hj' & Hjin). symmetry in Hj'. rewrite (Hkey j row Hjin Hj') in Heq.
      by subst j. }
    case_bool_decide as Hi; cycle 1.
    { apply Hout. intros (row & Heq & Hrow)%list_elem_of_fmap. by destruct (Hrows row Hrow (eq_sym Heq)). }
    destruct (Hans i Hi) as (o & Hf & Ho). rewrite Hf. destruct o as [p|].
    + destruct (Ho p eq_refl) as (_ & row & Hrow & _). exists row. split; [done|].
      assert (crawled d v i = Some row) as Hc by (unfold crawled, crawl_one; rewrite Hf; simpl; by rewrite Hrow).
      rewrite <-(Hkey i row Hi Hc). apply Hin. rewrite Hl. apply list_elem_of_omap. exists (Some row).
      split; [|done]. rewrite <-Hc. by apply list_elem_of_fmap_2.
    + apply Hout. intros (row & Heq & Hrow)%list_elem_of_fmap. destruct (Hrows row Hrow (eq_sym Heq)) as [_ Hc].
      unfold crawled, crawl_one in Hc. rewrite Hf in Hc. done.
Qed.

(** The attribute [proposal_id] is read from the events of every type.  A
    single value that is not a number, which any contract can emit, is taken
    for NaN, the query is refused and the job stops at the range. *)
Theorem foreign_id_stops_job cfg d s e u v h :
  jobCheckpoint cfg CRAWL_PROPOSAL (checkpoints_of d) = Ok (s, e, u) →
  ("proposal_id", v, h) ∈ event_attribute d → s < h <= e → parseInt v = None →
  ∃ msg, handleCrawlProposals cfg d = (d, Throw msg).
Proof.
  intros Hj Hin Hh Hv. assert (None ∈ proposalIds s e d) as Hids.
  { apply elem_of_proposalIds. by exists v, h. }
  assert (∃ msg, prepareProposals s e d = (d, Throw msg)) as [msg Hp].
  { unfold prepareProposals. erewrite io_step by done. cbv beta. rewrite bool_decide_eq_false_2.
    2:{ intros Hnil. rewrite Hnil in Hids. by apply not_elem_of_nil in Hids. }
    destruct (mapR id_param (proposalIds s e d)) as [ids|msg] eqn:Hm; [|by exists msg].
    apply ids_of_params in Hm. rewrite Hm in Hids. by apply list_elem_of_fmap in Hids as (? & ? & _). }
  exists msg. unfold handleCrawlProposals, checkpoint_handler, readCheckpoint. erewrite io_step by (by rewrite Hj).
  cbv beta iota. assert (stops (jd_guard CRAWL_PROPOSAL) s e = false) as -> by (simpl; lia).
  unfold mbind at 1, io_bind at 1. by rewrite Hp.
Qed.

(** The types of the messages of a gov v1 proposal are joined into a
    varchar(255): a proposal with enough messages cannot be stored, and the job
    stops at its range. *)
Theorem long_type_stops_job `{!SettlingLaws O} cfg d s e u ids v p :
  jobCheckpoint cfg CRAWL_PROPOSAL (checkpoints_of d) = Ok (s, e, u) → s < e →
  mapR id_param (proposalIds s e d) = Ok ids → getNodeInfo = Ok (Some v) → compareVersion v "v0.45.99" = Ok 1 →
  ∀ i, i ∈ ids → proposal d !! i = None → proposal_v1 i = Ok (Some p) → v_id p = toString i →
  (255 < String.length (join_comma (v_messages p)))%nat →
  ∃ msg, handleCrawlProposals cfg d = (d, Throw msg).
Proof.
  intros Hj Hse Hids Hinfo Hver i Hi Hnew Hp Hid Hlong.
  assert (∃ row, crawl_one d v i = Ok (Some row) ∧ proposal_fits row = false) as (row & Hrow & Hfit).
  { unfold crawl_one, fetchProposal. rewrite Hver. simpl. rewrite Hp. simpl. unfold proposalEntity. rewrite Hnew.
    destruct (getProposerBySearchTx _ _) as [a b]. unfold createNewProposal. simpl. rewrite Hid, coerce_toString.
    simpl. eexists. split; [done|]. unfold proposal_fits. cbn [p_type p_title p_proposal_id].
    apply andb_false_intro1, andb_false_intro2. apply Nat.leb_gt. lia. }
  assert (proposalIds s e d ≠ []) as Hne.
  { intros Hnil. rewrite Hnil in Hids. injection Hids as <-. by apply not_elem_of_nil in Hi. }
  assert (∀ l, listProposals d ids = Ok l → row ∈ l) as Hl.
  { intros l. unfold listProposals. rewrite Hinfo. simpl. destruct (mapR _ ids) as [rows|] eqn:Hm; [|done].
    simpl. intros [= <-]. apply mapR_Ok in Hm. apply list_elem_of_lookup in Hi as [k Hk].
    destruct (Forall2_lookup_l _ _ _ _ _ Hm Hk) as (o & Ho & Hone). rewrite Hrow in Hone. injection Hone as <-.
    apply list_elem_of_omap. exists (Some row). split; [|done]. rewrite settled_perm. by eapply list_elem_of_lookup_2. }
  assert (prepareProposals s e d = (d, listProposals d ids)) as Hprep.
  { unfold prepareProposals. erewrite io_step by done. cbv beta. rewrite bool_decide_eq_false_2 by done.
    rewrite Hids. erewrite io_step by done. cbv beta. by erewrite io_step by done. }
  unfold handleCrawlProposals, checkpoint_handler, readCheckpoint. erewrite io_step by (by rewrite Hj).
  cbv beta iota. assert (stops (jd_guard CRAWL_PROPOSAL) s e = false) as -> by (simpl; lia).
  unfold mbind at 1, io_bind at 1. rewrite Hprep. destruct (listProposals d ids) as [l|msg] eqn:Hlist; [|by exists msg].
  eexists. unfold commit, upsert_proposals. assert (forallb proposal_fits l = false) as ->.
  { apply not_true_iff_false. rewrite forallb_forall. intros Hall.
    rewrite (Hall row) in Hfit; [done|]. apply list_elem_of_In. by apply Hl. }
  by rewrite andb_false_r.
Qed.
End Crawl_job.

#[export] Instance handleCrawlProposals_frames {N : GovNode} {O : Settling} :
  HandlerFrames prepareProposals (λ _ _ l, upsert_proposals l).
Proof.
  constructor.
  - intros s e d. unfold prepareProposals, query, lift, mbind, io_bind. case_bool_decide; [done|].
    by destruct (mapR id_param _).
  - intros s e l d d'. unfold upsert_proposals. destruct (_ && _); [by intros [= <-]|done].
Qed.
#[export] Instance handleCrawlProposals_job {N : GovNode} {O : Settling} cfg :
  CheckpointJob cfg CRAWL_PROPOSAL (handleCrawlProposals cfg).
Proof. apply (checkpoint_handler_job _ _ _ _). Qed.

(** ** Tallies *)
Section Tallied.
Context {N : GovNode}.

Definition votes_sum (t : ITally) : res Z :=
  y ← BigInt (yes t); n ← BigInt (no t); a ← BigInt (abstain t); v ← BigInt (no_with_veto t); Ok (y + n + a + v).

Lemma turnout_of_votes b bonded t votes :
  BigInt b = Ok bonded → bonded ≠ 0 → votes_sum t = Ok votes →
  turnout_of (Some b) t = Ok (to_double (Z.quot (votes * 100000000) bonded)).
Proof.
  intros Hb Hne Hv. unfold votes_sum in Hv. unfold turnout_of.
  apply bind_Ok in Hv as (y & -> & Hv). apply bind_Ok in Hv as (n & -> & Hv). apply bind_Ok in Hv as (a & -> & Hv).
  apply bind_Ok in Hv as (w & -> & Hv). injection Hv as <-. simpl. rewrite Hb. simpl.
  by rewrite (proj2 (Z.eqb_neq _ _) Hne).
Qed.

(** As long as no more votes than bonded tokens are cast, the turnout is
    the percentage of the votes cut after six digits: it lies between 0 and 100
    and no digit of it is lost. *)
Theorem turnout_exact b bonded t votes :
  BigInt b = Ok bonded → 0 < bonded → votes_sum t = Ok votes → 0 <= votes <= bonded →
  ∃ q, turnout_of (Some b) t = Ok (Some q) ∧ 0 <= q <= 100 * 1000000 ∧
    q * bonded <= votes * 100 * 1000000 < (q + 1) * bonded.
Proof.
  intros Hb Hpos Hv Hle. exists (votes * 100000000 / bonded).
  rewrite (turnout_of_votes b bonded t votes Hb ltac:(lia) Hv). rewrite Z.quot_div_nonneg by lia.
  pose proof (Z.div_mod (votes * 100000000) bonded ltac:(lia)) as Hdm.
  pose proof (Z.mod_pos_bound (votes * 100000000) bonded Hpos) as Hmod.
  assert (votes * 100000000 / bonded <= 100000000) as Hq.
  { apply Z.div_le_upper_bound; [done|]. nia. }
  pose proof (Z.div_pos (votes * 100000000) bonded ltac:(lia) Hpos) as Hq0.
  split; [|split; [lia|nia]]. by rewrite to_double_exact by (transitivity 100000000; [done|by compute]).
Qed.

(** The answers of the node for the proposals a run selects. *)
Lemma tally_patches now d b bonded (answer : Z → ITally) :
  keyed d → BigInt b = Ok bonded → bonded ≠ 0 →
  (∀ p, p ∈ votingProposals now d → abci_tally (p_proposal_id p) = Ok (Some (answer (p_proposal_id p))) ∧
     is_ok (votes_sum (answer (p_proposal_id p))) = true) →
  ∃ turnout : Z → Turnout,
    mapR (λ p, abci_tally (p_proposal_id p)) (votingProposals now d) =
      Ok ((λ p, Some (answer (p_proposal_id p))) <$> votingProposals now d) ∧
    mapR (tally_patch (Some b)) (zip (votingProposals now d) ((λ p, Some (answer (p_proposal_id p))) <$> votingProposals now d)) =
      Ok ((λ p, Some (p_proposal_id p, patch_tally (answer (p_proposal_id p)) (turnout (p_proposal_id p)))) <$> votingProposals now d) ∧
    ∀ i votes, votes_sum (answer i) = Ok votes → turnout i = to_double (Z.quot (votes * 100000000) bonded).
Proof.
  intros Hk Hb Hne Hans.
  exists (λ i, match votes_sum (answer i) with Ok votes => to_double (Z.quot (votes * 100000000) bonded) | Throw _ => None end).
  split_and!.
  - rewrite <-mapR_pure. apply mapR_ext. intros p Hp. by apply Hans.
  - induction (votingProposals now d) as [|p l IH]; [done|]. rewrite !fmap_cons. cbn [zip zip_with mapR].
    destruct (Hans p ltac:(by left)) as [_ Hok]. rewrite IH by (intros q Hq; apply Hans; by right).
    destruct (votes_sum (answer (p_proposal_id p))) as [votes|] eqn:Hv; [|done].
    assert (tally_patch (Some b) (p, Some (answer (p_proposal_id p))) = Ok (Some (p_proposal_id p,
      patch_tally (answer (p_proposal_id p)) (to_double (Z.quot (votes * 100000000) bonded))))) as Hone.
    { unfold tally_patch. cbn [fst snd]. by rewrite (turnout_of_votes b bonded _ votes Hb Hne Hv). }
    by rewrite Hone.
  - by intros i votes ->.
Qed.

(** When the node answers, a run of the tally job at [now] gives every
    proposal it selects the tally of the chain and the turnout among the bonded
    tokens, and leaves all others as they were.  It selects the proposals in
    their voting period, those without a turnout, and the completed ones whose
    voting ended between 30 and 10 milliseconds before [now]. *)
Theorem tallies_mirrored now d b bonded (answer : Z → ITally) :
  keyed d → staking_pool = Ok (Some b) → BigInt b = Ok bonded → bonded ≠ 0 →
  (∀ p, p ∈ votingProposals now d → abci_tally (p_proposal_id p) = Ok (Some (answer (p_proposal_id p))) ∧
     is_ok (votes_sum (answer (p_proposal_id p))) = true) →
  ∃ d', handleTally now d = (d', Ok tt) ∧ keyed d' ∧
    ∀ i p, proposal d !! i = Some p →
      if needs_tally now p
      then ∃ votes, votes_sum (answer i) = Ok votes ∧
        proposal d' !! i = Some (patch_tally (answer i) (to_double (Z.quot (votes * 100000000) bonded)) p)
      else proposal d' !! i = Some p.
Proof.
  intros Hk Hpool Hb Hne Hans.
  destruct (tally_patches now d b bonded answer Hk Hb Hne Hans) as (turnout & Hm1 & Hm2 & Hturn).
  set (choose := λ p, Some (patch_tally (answer (p_proposal_id p)) (turnout (p_proposal_id p)))).
  exists (patch_all (omap (λ p, pair (p_proposal_id p) <$> choose p) (votingProposals now d)) d). split; [|split].
  - unfold handleTally. erewrite io_step by done. cbv beta. rewrite Hpool. erewrite io_step by done. cbv beta.
    rewrite Hm1. erewrite io_step by done. cbv beta. rewrite Hm2. erewrite io_step by done. cbv beta.
    unfold update. f_equal. f_equal. clear. induction (votingProposals now d) as [|p l IH]; [done|].
    rewrite fmap_cons. cbn. f_equal. apply IH.
  - apply (patch_rows_keyed choose (λ p, needs_tally now p = true)); [|done]. by intros p f [= <-].
  - intros i p Hp. pose proof (Hk i p Hp) as Hpi. simpl in Hpi.
    unfold votingProposals. rewrite (patch_rows_lookup choose (λ p, needs_tally now p = true)), Hp by done. simpl.
    destruct (needs_tally now p) eqn:Hn; [|done]. unfold choose. simpl. rewrite Hpi.
    destruct (Hans p) as [_ Hok]; [apply list_elem_of_filter; split; [done|]; apply elem_of_proposal_rows; [done|by rewrite Hpi]|].
    rewrite Hpi in Hok. destruct (votes_sum (answer i)) as [votes|] eqn:Hv; [|done]. exists votes. split; [done|].
    by rewrite (Hturn i votes Hv).
Qed.

(** A selected proposal whose tally the node cannot give, as one that is no
    longer on the chain, stops the job for all proposals. *)
Theorem missing_tally_stops_job now d p msg :
  keyed d → is_ok staking_pool = true → proposal d !! p_proposal_id p = Some p → needs_tally now p = true →
  abci_tally (p_proposal_id p) = Throw msg → ∃ msg', handleTally now d = (d, Throw msg').
Proof.
  intros Hk Hpool Hp Hn Hans. unfold handleTally. erewrite io_step by done. cbv beta.
  destruct staking_pool as [pool|]; [|done]. erewrite io_step by done. cbv beta.
  destruct (mapR (λ p, abci_tally (p_proposal_id p)) (votingProposals now d)) as [l|msg'] eqn:Hm; [|by exists msg'].
  apply mapR_Ok in Hm. assert (p ∈ votingProposals now d) as Hin.
  { apply list_elem_of_filter. split; [done|]. by apply elem_of_proposal_rows. }
  apply list_elem_of_lookup in Hin as [i Hi]. destruct (Forall2_lookup_l _ _ _ _ _ Hm Hi) as (o & _ & Ho). congruence.
Qed.

(** A run leaves the rows it does not select, whatever it answers. *)
Lemma unselected_kept now d i p :
  keyed d → proposal d !! i = Some p → needs_tally now p = false → proposal (handleTally now d).1 !! i = Some p.
Proof.
  intros Hk Hp Hn. unfold handleTally. erewrite io_step by done. cbv beta.
  destruct staking_pool as [pool|]; [|done]. erewrite io_step by done. cbv beta.
  destruct (mapR _ (votingProposals now d)) as [l|] eqn:Hm; [|done]. erewrite io_step by done. cbv beta.
  destruct (mapR _ (zip _ _)) as [ps|] eqn:Hps; [|done]. erewrite io_step by done. cbv beta.
  unfold update. cbn [fst]. unfold patch_all. cbn [proposal set_proposal].
  assert (∀ x, x ∈ omap id ps → x.1 ≠ i) as Hx.
  { intros x (o & Ho & Hid)%list_elem_of_omap. simpl in Hid. subst o. apply mapR_Ok in Hps.
    apply list_elem_of_lookup in Ho as [k Ho]. destruct (Forall2_lookup_r _ _ _ _ _ Hps Ho) as ([q t] & Hq & Hpatch).
    apply lookup_zip_Some in Hq as [Hq _]. apply list_elem_of_lookup_2, list_elem_of_filter in Hq as [Hsel Hq].
    apply elem_of_proposal_rows in Hq; [|done]. unfold tally_patch in Hpatch. cbn [fst snd] in Hpatch.
    destruct t as [t|]; [|done]. apply bind_Ok in Hpatch as (u & _ & [= <-]). simpl.
    intros Heq. rewrite Heq, Hp in Hq. injection Hq as <-. cbn beta in Hsel. congruence. }
  revert Hx. generalize (omap id ps). generalize (proposal d) Hp. clear. intros t Ht l. revert t Ht.
  induction l as [|x l IH]; intros t Ht Hx; [done|]. simpl. apply IH; [|intros y Hy; apply Hx; by right].
  rewrite lookup_alter_ne; [done|]. apply Hx. by left.
Qed.

(** The tally job is meant to read the tally of a proposal once more after
    its voting ended, but its window is 20 milliseconds wide.  When it runs
    every 10 seconds, a completed proposal keeps the turnout of the last run
    before its end, unless a run happens to fall into that window. *)
Theorem turnout_not_final start d i p T :
  keyed d → proposal d !! i = Some p → p_voting_end_time p = Some T → p_turnout p ≠ None →
  p_status p ≠ PROPOSAL_STATUS_VOTING_PERIOD →
  ¬ 10 <= (start - T) `mod` millisecondCrawl < 30 →
  ∀ k, proposal (handleTally (start + millisecondCrawl * k) d).1 !! i = Some p.
Proof.
  unfold millisecondCrawl. intros Hk Hp HT Ht Hs Hwin k. apply unselected_kept; [done..|]. unfold needs_tally.
  rewrite !bool_decide_eq_false_2 by done. rewrite orb_false_l, orb_false_r. unfold just_completed, until. rewrite HT.
  apply not_true_iff_false. intros [[_ H1]%andb_prop H2]%andb_prop.
  apply Z.leb_le in H1. apply negb_true_iff, Z.leb_gt in H2. apply Hwin.
  rewrite <-(Z.mod_add (start - T) k 10000) by done.
  rewrite Z.mod_small; lia.
Qed.
End Tallied.

(** ** The statuses and the chain

    A proposal on the chain: not submitted, active with a status, or removed. *)
Inductive ChainState := NotYet | Active (s : string) | Removed.
Inductive lifecycle : ChainState → ChainState → Prop :=
| life_stays c : lifecycle c c
| life_submit : lifecycle NotYet (Active PROPOSAL_STATUS_DEPOSIT_PERIOD)
| life_submit_funded : lifecycle NotYet (Active PROPOSAL_STATUS_VOTING_PERIOD)
| life_activate : lifecycle (Active PROPOSAL_STATUS_DEPOSIT_PERIOD) (Active PROPOSAL_STATUS_VOTING_PERIOD)
| life_end s : s ∈ [PROPOSAL_STATUS_PASSED; PROPOSAL_STATUS_REJECTED; PROPOSAL_STATUS_FAILED] →
    lifecycle (Active PROPOSAL_STATUS_VOTING_PERIOD) (Active s)
| life_unfunded : lifecycle (Active PROPOSAL_STATUS_DEPOSIT_PERIOD) Removed.

(** How far a status is. *)
Definition phase (s : string) : nat :=
  if bool_decide (s = PROPOSAL_STATUS_DEPOSIT_PERIOD) then 1%nat
  else if bool_decide (s = PROPOSAL_STATUS_VOTING_PERIOD) then 2%nat else 3%nat.
Definition chain_phase (c : ChainState) : nat :=
  match c with NotYet => 0%nat | Active s => phase s | Removed => 3%nat end.

Lemma lifecycle_phase c c' : lifecycle c c' → (chain_phase c <= chain_phase c')%nat.
Proof.
  destruct 1 as [c| | | |s Hs|]; try (vm_compute; lia).
  repeat (apply elem_of_cons in Hs as [->|Hs]; [vm_compute; lia|]). by apply not_elem_of_nil in Hs.
Qed.

(** What the table may show of a proposal. *)
Definition shows (c : ChainState) (s : string) : Prop :=
  c = Active s ∨ (c = Removed ∧ s = PROPOSAL_STATUS_NOT_ENOUGH_DEPOSIT).

Lemma shows_phase c s : shows c s → phase s = chain_phase c.
Proof. by intros [->|[-> ->]]. Qed.

(** The answers of a node that knows the chain; it may refuse to answer. *)
Class ChainSays (N : GovNode) (chain : Z → ChainState) : Prop := {
  says_v1beta1 i o : proposal_v1beta1 i = Ok o →
    ∀ p, o = Some p → b_proposal_id p = toString i ∧ chain i = Active (b_status p);
  says_v1 i o : proposal_v1 i = Ok o → ∀ p, o = Some p → v_id p = toString i ∧ chain i = Active (v_status p);
  says_abci i o : abci_proposal i = Ok o →
    match o with
    | Some a => a_id a = i ∧ chain i = Active (default "" (ProposalStatus (a_status a)))
    | None => chain i = NotYet ∨ chain i = Removed
    end
}.

Section Fetched.
Context {N : GovNode} {O : Settling} (chain : Z → ChainState) {C : ChainSays N chain}.

Lemma fetched_status v i p : fetchProposal v i = Ok (Some p) → cp_proposal_id p = toString i ∧ chain i = Active (cp_status p).
Proof using C.
  unfold fetchProposal. rewrite bind_Ok. intros (c & _ & H). destruct (c =? -1).
  - apply bind_Ok in H as (o & Ho & [= Hp]). destruct o as [b|]; [|done]. injection Hp as <-.
    by apply (says_v1beta1 i (Some b) Ho b).
  - apply bind_Ok in H as (o & Ho & [= Hp]). destruct o as [b|]; [|done]. injection Hp as <-.
    by apply (says_v1 i (Some b) Ho b).
Qed.

Lemma crawled_row_status d v i row :
  keyed d → crawl_one d v i = Ok (Some row) → p_proposal_id row = i ∧ chain i = Active (p_status row).
Proof using C.
  intros Hk H. unfold crawl_one in H. apply bind_Ok in H as ([p|] & Hp & H); [|done].
  apply bind_Ok in H as (r & Hr & [= <-]). destruct (fetched_status v i p Hp) as [Hid Hs].
  split; [by apply (entity_id d i p)|]. rewrite Hs. f_equal. unfold proposalEntity in Hr.
  destruct (proposal d !! i); [by injection Hr as <-|]. destruct (getProposerBySearchTx _ _) as [a b].
  unfold createNewProposal in Hr. apply bind_Ok in Hr as (ty & _ & Hr). apply bind_Ok in Hr as (z & _ & [= <-]). done.
Qed.

Lemma upserted_cases (l : list Proposal) (t : gmap Z Proposal) i p :
  foldl (λ (t : gmap Z Proposal) p, <[p_proposal_id p := p]> t) t l !! i = Some p →
  (p ∈ l ∧ p_proposal_id p = i) ∨ t !! i = Some p.
Proof.
  revert t. induction l as [|q l IH]; intros t; simpl; [by right|]. intros [[Hp Hi]|H]%IH; [left; split; [by right|done]|].
  destruct (decide (p_proposal_id q = i)) as [<-|Hne].
  - rewrite lookup_insert_eq in H. injection H as <-. left. split; [by left|done].
  - rewrite lookup_insert_ne in H by done. by right.
Qed.

Lemma upserted_some (l : list Proposal) (t : gmap Z Proposal) i :
  is_Some (t !! i) → is_Some (foldl (λ (t : gmap Z Proposal) p, <[p_proposal_id p := p]> t) t l !! i).
Proof.
  revert t. induction l as [|q l IH]; intros t Ht; [done|]. simpl. apply IH, lookup_insert_is_Some'. by right.
Qed.

(** The status a row has after a step: the one it had, or one of the chain. *)
Definition stepped (d d' : Db) : Prop :=
  keyed d' ∧ (∀ i p, proposal d !! i = Some p → is_Some (proposal d' !! i)) ∧
  ∀ i p', proposal d' !! i = Some p' →
    (∃ p, proposal d !! i = Some p ∧ p_status p' = p_status p) ∨ shows (chain i) (p_status p').

Lemma statuses_stepped_refl d : keyed d → stepped d d.
Proof. intros Hk. split; [done|]. split; [by eauto|]. intros i p Hp. left. by exists p. Qed.

Lemma crawl_stepped `{!SettlingLaws O} cfg d : keyed d → stepped d (handleCrawlProposals cfg d).1.
Proof using C.
  intros Hk. unfold handleCrawlProposals. destruct (checkpoint_handler _ _ _ _ _) as [d' o] eqn:Hrun. simpl.
  assert (∀ s e, (prepareProposals s e d).1 = d) as Hprep.
  { intros s e. unfold prepareProposals, query, lift, mbind, io_bind. case_bool_decide; [done|]. by destruct (mapR _ _). }
  apply checkpoint_handler_cases in Hrun as [(-> & _)|[(msg & _ & [->|(s & e & ->)])|
    (s & e & u & l & d1 & d2 & _ & _ & Hp & Hw & -> & _)]].
  - by apply statuses_stepped_refl.
  - by apply statuses_stepped_refl.
  - rewrite Hprep. by apply statuses_stepped_refl.
  - pose proof (Hprep s e) as Hd1. rewrite Hp in Hd1. simpl in Hd1. subst d1.
    unfold upsert_proposals in Hw. destruct (_ && _); [|done]. injection Hw as <-.
    assert (∀ row, row ∈ l → ∃ i v, crawl_one d v i = Ok (Some row)) as Hl.
    { intros row Hrow. unfold prepareProposals in Hp. erewrite io_step in Hp by done. cbv beta in Hp.
      case_bool_decide; [injection Hp as <-; by apply not_elem_of_nil in Hrow|].
      destruct (mapR id_param _) as [ids|]; [|done]. erewrite io_step in Hp by done. cbv beta in Hp.
      erewrite io_step in Hp by done. cbv beta in Hp. unfold lift, listProposals in Hp.
      destruct getNodeInfo as [info|]; [|done]. simpl in Hp.
      destruct (mapR (crawl_one d _) ids) as [rows|] eqn:Hm; [|done]. injection Hp as <-.
      apply list_elem_of_omap in Hrow as (o' & Hrow & Ho). simpl in Ho. subst o'. rewrite settled_perm in Hrow.
      apply mapR_Ok in Hm. apply list_elem_of_lookup in Hrow as [k Hk'].
      destruct (Forall2_lookup_r _ _ _ _ _ Hm Hk') as (i & _ & Hone). by eexists _, _. }
    split_and!.
    + intros i p [[_ Hi]|H]%upserted_cases; [done|by apply Hk].
    + intros i p Hi. apply upserted_some. by exists p.
    + intros i p' [[Hin Hi]|H]%upserted_cases; [|left; by exists p'].
      right. left. destruct (Hl p' Hin) as (j & v & Hone). destruct (crawled_row_status d v j p' Hk Hone) as [Hj Hs].
      rewrite <-Hi, Hj. exact Hs.
Qed.
(** Patches that choose a status. *)
Lemma patch_all_stepped d (l : list (Z * (Proposal → Proposal))) :
  keyed d → (∀ x, x ∈ l → ∀ p, p_proposal_id (x.2 p) = p_proposal_id p) →
  (∀ x, x ∈ l → ∀ p p', proposal d !! x.1 = Some p → p_status p' = p_status p ∨ shows (chain x.1) (p_status p') →
     p_status (x.2 p') = p_status p' ∨ shows (chain x.1) (p_status (x.2 p'))) →
  stepped d (patch_all l d).
Proof.
  intros Hk Hid Hst. unfold patch_all. split_and!; cbn [proposal set_proposal].
  - revert Hk Hid. unfold keyed. cbn [proposal set_proposal]. clear. generalize (proposal d) as m.
    induction l as [|x l IH]; intros m Hk Hid; [done|]. simpl. apply IH; [|intros; apply Hid; by right].
    intros i p. rewrite lookup_alter. case_decide as Hi; [|apply Hk]. subst i.
    intros (q & Hq & ->)%fmap_Some. rewrite Hid by (by left). by apply Hk.
  - intros i p Hp. assert (is_Some (proposal d !! i)) as H by (by exists p). clear Hp. revert H. clear.
    generalize (proposal d) as m. induction l as [|x l IH]; intros m H; [done|]. simpl. apply IH.
    rewrite lookup_alter. case_decide; [|done]. subst. by rewrite fmap_is_Some.
  - assert (∀ m : gmap Z Proposal,
      (∀ i p', m !! i = Some p' → ∃ p, proposal d !! i = Some p ∧ (p_status p' = p_status p ∨ shows (chain i) (p_status p'))) →
      ∀ i p', foldl (λ (t : gmap Z Proposal) x, alter x.2 x.1 t) m l !! i = Some p' →
      ∃ p, proposal d !! i = Some p ∧ (p_status p' = p_status p ∨ shows (chain i) (p_status p'))) as Hall.
    { clear Hid Hk. induction l as [|x l IH]; intros m Hm; [done|]. simpl. apply IH; [intros; eapply Hst; [by right|..]; done|].
      intros i p'. rewrite lookup_alter. case_decide as Hi; [|apply Hm]. subst i. intros (q & Hq & ->)%fmap_Some.
      destruct (Hm _ _ Hq) as (p & Hp & Hs). exists p. split; [done|].
      destruct (Hst x ltac:(by left) p q Hp Hs) as [->|H]; [done|by right]. }
    intros i p' Hp'. destruct (Hall (proposal d) (λ i p' H, ex_intro _ p' (conj H (or_introl eq_refl))) i p' Hp')
      as (p & Hp & [Hs|Hs]); [left; by exists p|by right].
Qed.

Lemma answer_status answers (l : list Proposal) i a :
  mapR (λ p, abci_proposal (p_proposal_id p)) l = Ok answers → onchainPro answers i = Some a →
  shows (chain i) (default "" (ProposalStatus (a_status a))).
Proof using C.
  intros Hm%mapR_Ok Ha. unfold onchainPro in Ha. destruct (find (is_answer i) answers) as [o|] eqn:Hf; [|done].
  simpl in Ha. subst o. apply find_Some in Hf as [Hin Hi]. simpl in Hi. apply Z.eqb_eq in Hi.
  apply list_elem_of_lookup in Hin as [k Hk]. destruct (Forall2_lookup_r _ _ _ _ _ Hm Hk) as (p & _ & Hans).
  destruct (says_abci _ _ Hans) as [Hid Hs]. left. rewrite <-Hs. congruence.
Qed.

Lemma no_answer_removed answers (l : list Proposal) p :
  mapR (λ p, abci_proposal (p_proposal_id p)) l = Ok answers → p ∈ l → onchainPro answers (p_proposal_id p) = None →
  chain (p_proposal_id p) = NotYet ∨ chain (p_proposal_id p) = Removed.
Proof using C.
  intros Hm%mapR_Ok Hp Ho. apply list_elem_of_lookup in Hp as [k Hk].
  destruct (Forall2_lookup_l _ _ _ _ _ Hm Hk) as (o & Hko & Hans). pose proof (says_abci _ _ Hans) as Hs.
  destruct o as [a|]; [|done]. exfalso. destruct Hs as [Hid _].
  unfold onchainPro in Ho. destruct (find (is_answer (p_proposal_id p)) answers) as [[b|]|] eqn:Hf; [done| |].
  - by apply find_Some in Hf as [_ Hf].
  - apply find_None in Hf. rewrite Forall_forall in Hf.
    specialize (Hf (Some a) (list_elem_of_lookup_2 _ _ _ Hko)). simpl in Hf. lia.
Qed.

Lemma ended_stepped now d : keyed d → stepped d (handleEndedProposals now d).1.
Proof using C.
  intros Hk. unfold handleEndedProposals. erewrite io_step by done. cbv beta.
  destruct (mapR _ (endedProposals now d)) as [answers|] eqn:Hm; [|by apply statuses_stepped_refl].
  erewrite io_step by done. cbv beta. apply patch_all_stepped; [done| |].
  - intros x (p & _ & Hx)%list_elem_of_omap q. destruct (onchainPro _ _); [by injection Hx as <-|done].
  - intros x (p & _ & Hx)%list_elem_of_omap q q' _ _. destruct (onchainPro _ _) as [a|] eqn:Ha; [|done].
    injection Hx as <-. right. by apply (answer_status answers (endedProposals now d)).
Qed.

Lemma deposit_stepped now d :
  keyed d → (∀ i p, proposal d !! i = Some p → chain i ≠ NotYet) →
  stepped d (handleNotEnoughDepositProposals now d).1.
Proof using C.
  intros Hk Hseen. unfold handleNotEnoughDepositProposals. erewrite io_step by done. cbv beta.
  destruct (mapR _ (depositProposals now d)) as [answers|] eqn:Hm; [|by apply statuses_stepped_refl].
  erewrite io_step by done. cbv beta. apply patch_all_stepped; [done| |].
  - intros x (p & _ & Hx)%list_elem_of_omap q. destruct (onchainPro _ _); [done|by injection Hx as <-].
  - intros x (p & Hp & Hx)%list_elem_of_omap q q' Hq _. destruct (onchainPro _ _) as [a|] eqn:Ha; [done|].
    injection Hx as <-. right. right. split; [|done]. cbn [fst].
    destruct (no_answer_removed answers _ p Hm Hp Ha) as [H|H]; [|done]. by destruct (Hseen _ _ Hq).
Qed.

Lemma tally_stepped now d : keyed d → stepped d (handleTally now d).1.
Proof using Type.
  intros Hk. unfold handleTally. erewrite io_step by done. cbv beta. destruct staking_pool as [pool|]; [|by apply statuses_stepped_refl].
  erewrite io_step by done. cbv beta. destruct (mapR _ (votingProposals now d)) as [l|]; [|by apply statuses_stepped_refl].
  erewrite io_step by done. cbv beta. destruct (mapR _ (zip _ _)) as [ps|] eqn:Hps; [|by apply statuses_stepped_refl].
  erewrite io_step by done. cbv beta.
  assert (∀ x, x ∈ omap id ps → ∃ t u, x.2 = patch_tally t u) as Hx.
  { intros x (o & Ho & Hid)%list_elem_of_omap. simpl in Hid. subst o. apply mapR_Ok in Hps.
    apply list_elem_of_lookup in Ho as [k Ho]. destruct (Forall2_lookup_r _ _ _ _ _ Hps Ho) as ([q t] & _ & Hpatch).
    unfold tally_patch in Hpatch. cbn [fst snd] in Hpatch. destruct t as [t|]; [|done].
    apply bind_Ok in Hpatch as (u & _ & [= <-]). by exists t, u. }
  apply patch_all_stepped; [done| |].
  - intros x (t & u & ->)%Hx q. done.
  - intros x (t & u & ->)%Hx q q' _ _. by left.
Qed.
End Fetched.

Section Lifecycle.
Context (nodes : nat → GovNode) (chain : nat → Z → ChainState) (O : Settling) `{!SettlingLaws O}.
Context (HC : ∀ t, ChainSays (nodes t) (chain t)).
Context (Hlife : ∀ t i, lifecycle (chain t i) (chain (1 + t)%nat i)).

Lemma chain_phase_le t t' i : (t <= t')%nat → (chain_phase (chain t i) <= chain_phase (chain t' i))%nat.
Proof using Hlife.
  induction 1 as [|t' _ IH]; [done|]. etrans; [exact IH|]. apply lifecycle_phase, Hlife.
Qed.

Lemma chain_removed t t' i : (t <= t')%nat → chain t i = Removed → chain t' i = Removed.
Proof using Hlife.
  induction 1 as [|t' _ IH]; [done|]. intros H%IH. specialize (Hlife t' i). rewrite H in Hlife. by inversion Hlife.
Qed.

(** A run of a job at time [t] of the chain, or a change by another job that
    leaves the statuses alone. *)
Inductive runs (t : nat) : Db → Db → Prop :=
| run_crawl cfg d : runs t d (handleCrawlProposals (N := nodes t) cfg d).1
| run_ended now d : runs t d (handleEndedProposals (N := nodes t) now d).1
| run_deposit now d : runs t d (handleNotEnoughDepositProposals (N := nodes t) now d).1
| run_tally now d : runs t d (handleTally (N := nodes t) now d).1
| run_other d d' : keyed d' → p_status <$> proposal d' = p_status <$> proposal d → runs t d d'.

Inductive reachable : nat → Db → Prop :=
| reach_empty t d : proposal d = ∅ → reachable t d
| reach_tick t d : reachable t d → reachable (1 + t)%nat d
| reach_run t d d' : reachable t d → runs t d d' → reachable t d'.

Definition followed (t : nat) (d : Db) : Prop :=
  keyed d ∧ ∀ i p, proposal d !! i = Some p → ∃ t', (t' <= t)%nat ∧ shows (chain t' i) (p_status p).

Lemma followed_submitted t d i p : followed t d → proposal d !! i = Some p → chain t i ≠ NotYet.
Proof using Hlife.
  intros [_ Hf] Hp Hn. destruct (Hf i p Hp) as (t' & Ht & Hs%shows_phase).
  pose proof (chain_phase_le t' t i Ht) as Hle. rewrite Hn, <-Hs in Hle. simpl in Hle.
  unfold phase in Hle. repeat case_bool_decide; lia.
Qed.

Lemma runs_stepped t d d' : followed t d → runs t d d' → stepped (chain t) d d'.
Proof using All.
  intros Hf Hrun. pose proof Hf as [Hk _]. destruct Hrun as [cfg d|now d|now d|now d|d d' Hk' Hst].
  - by apply crawl_stepped.
  - by apply ended_stepped.
  - apply deposit_stepped; [apply HC|done|]. intros i p. by apply followed_submitted.
  - by apply tally_stepped.
  - assert (∀ i, p_status <$> proposal d' !! i = p_status <$> proposal d !! i) as Hi.
    { intros i. by rewrite <-!lookup_fmap, Hst. }
    split_and!; [done| |].
    + intros i p Hp. specialize (Hi i). rewrite Hp in Hi. by apply fmap_Some in Hi as (q & -> & _).
    + intros i p' Hp'. specialize (Hi i). rewrite Hp' in Hi. symmetry in Hi. left.
      apply fmap_Some in Hi as (q & -> & Hq). by exists q.
Qed.

Lemma reachable_followed t d : reachable t d → followed t d.
Proof using All.
  induction 1 as [t d He|t d _ [Hk IH]|t d d' _ IH Hrun].
  - split; intros i p; rewrite He; [by rewrite lookup_empty|by rewrite lookup_empty].
  - split; [done|]. intros i p Hp. destruct (IH i p Hp) as (t' & Ht & Hs). exists t'. split; [lia|done].
  - destruct (runs_stepped t d d' IH Hrun) as (Hk' & _ & Hst). split; [done|]. intros i p' Hp'.
    destruct (Hst i p' Hp') as [(p & Hp & ->)|Hs]; [by apply IH|by exists t].
Qed.

(** C23: whatever order the jobs run in, every status in the table is one the
    chain gave the proposal at some moment before, or NOT_ENOUGH_DEPOSIT for a
    proposal the chain has removed. *)
Theorem statuses_follow_chain t d i p :
  reachable t d → proposal d !! i = Some p → ∃ t', (t' <= t)%nat ∧ shows (chain t' i) (p_status p).
Proof using All. intros [_ H]%reachable_followed. apply H. Qed.

(** A run never moves a proposal back in its life and never deletes one:
    deposit, voting, then its end. *)
Theorem status_never_back t d d' i p :
  reachable t d → runs t d d' → proposal d !! i = Some p →
  ∃ p', proposal d' !! i = Some p' ∧ (phase (p_status p) <= phase (p_status p'))%nat.
Proof using All.
  intros Hr Hrun Hp. pose proof (reachable_followed t d Hr) as Hf.
  destruct (runs_stepped t d d' Hf Hrun) as (_ & Hsome & Hst). destruct (Hsome i p Hp) as [p' Hp']. exists p'.
  split; [done|]. destruct (Hst i p' Hp') as [(q & Hq & ->)|Hs]; [by simplify_eq|].
  destruct Hf as [_ Hf]. destruct (Hf i p Hp) as (t' & Ht & Hs').
  rewrite (shows_phase _ _ Hs), (shows_phase _ _ Hs'). by apply chain_phase_le.
Qed.
End Lifecycle.

(** The run that stores the proposals of a range reads them, and the chain,
    before it writes.  What another job wrote in between is overwritten: the
    rows are those that were prepared. *)
Lemma stale_crawl_overwrites {N : GovNode} {O : Settling} s e d l d1 d2 p :
  prepareProposals s e d = (d, Ok l) → upsert_proposals l d1 = Ok d2 → p ∈ l → proposal d2 !! p_proposal_id p = Some p.
Proof.
  intros _ Hup Hp. unfold upsert_proposals in Hup. case_bool_decide as Hnd; [|done]. simpl in Hup.
  destruct (forallb _ l); [|done]. injection Hup as <-. by apply (upserted_rows l (proposal d1) Hnd).
Qed.

(** ** Witnesses *)
Definition demo_tally : ITally := {| yes := "600"; no := "100"; abstain := "50"; no_with_veto := "0" |}.
Definition demo_v1 (status : string) : ProposalV1 := {|
  v_id := "1"; v_messages := ["/cosmos.gov.v1.MsgUpdateParams"]; v_title := Some "Parameters"; v_summary := Some "";
  v_proposer := Some "aura1p"; v_status := status; v_yes_count := "0"; v_abstain_count := "0"; v_no_count := "0";
  v_no_with_veto_count := "0"; v_submit_time := 0; v_deposit_end_time := 500;
  v_voting_start_time := Some 100; v_voting_end_time := Some 1000; v_total_deposit := [] |}.
Definition demo_names (z : Z) : option string :=
  if z =? 2 then Some PROPOSAL_STATUS_VOTING_PERIOD else if z =? 3 then Some PROPOSAL_STATUS_PASSED else None.
(** A chain with one proposal, in its voting period or passed. *)
Definition demo_gov (ended : bool) : GovNode := {|
  getNodeInfo := Ok (Some "v0.47.4");
  proposal_v1beta1 i := Ok None;
  proposal_v1 i := Ok (if i =? 1 then Some (demo_v1 (if ended then PROPOSAL_STATUS_PASSED else PROPOSAL_STATUS_VOTING_PERIOD))
                       else None);
  abci_proposal i := Ok (if i =? 1 then Some {| a_id := 1; a_status := if ended then 3 else 2; a_total_deposit := None;
                                                a_final_tally_result := Some demo_tally |} else None);
  abci_tally i := Ok (Some demo_tally);
  staking_pool := Ok (Some "1000");
  compareVersion _ _ := Ok 1;
  ProposalStatus := demo_names |}.
Definition demo_chain (t : nat) (i : Z) : ChainState :=
  if i =? 1 then Active (if (1 <=? t)%nat then PROPOSAL_STATUS_PASSED else PROPOSAL_STATUS_VOTING_PERIOD) else NotYet.
Definition demo_nodes (t : nat) : GovNode := demo_gov (1 <=? t)%nat.

Lemma demo_says t : ChainSays (demo_nodes t) (demo_chain t).
Proof.
  split; unfold demo_nodes, demo_chain; simpl.
  - by intros i o [= <-].
  - intros i o [= <-] p. destruct (Z.eqb_spec i 1) as [->|]; [|done]. intros [= <-]. simpl. by destruct t.
  - intros i o [= <-]. destruct (Z.eqb_spec i 1) as [->|]; [|by left]. simpl. by destruct t.
Qed.
Lemma demo_life t i : lifecycle (demo_chain t i) (demo_chain (1 + t)%nat i).
Proof.
  unfold demo_chain. destruct (i =? 1); [|constructor]. destruct t; simpl; [|constructor]. constructor. by left.
Qed.

Definition demo_proposals_db (values : list string) : Db := {|
  proposal := ∅; event_attribute := (λ v, ("proposal_id", v, 4860001)) <$> values;
  transaction := [(7, 0)];
  transaction_message := [{| m_tx_id := 7; m_index := 0; m_type := MSG_SUBMIT_PROPOSAL_V1; m_proposer := Some "aura1q";
                             m_initial_deposit := Some [{| c_denom := "uaura"; c_amount := "5" |}] |}];
  event := [{| e_tx_id := 7; e_type := "submit_proposal"; e_tx_msg_index := Some 0; e_attributes := [("proposal_id", "1")] |}];
  block_checkpoint := {["handle:transaction" := 4860001]} |}.
(** The database after a run of the crawler during the voting period. *)
Definition demo_voting_db : Db := (handleCrawlProposals (N := demo_gov false) (O := in_order) Config.json (demo_proposals_db ["1"])).1.

Lemma proposals_crawled_witness :
  ∃ d', handleCrawlProposals (N := demo_gov false) (O := in_order) Config.json (demo_proposals_db ["1"]) = (d', Ok tt) ∧
    (λ p, (p_proposer_address p, p_type p, p_status p)) <$> proposal d' !! 1 =
      Some (Some "aura1q", "/cosmos.gov.v1.MsgUpdateParams", PROPOSAL_STATUS_VOTING_PERIOD).
Proof.
  destruct (proposals_crawled (N := demo_gov false) (O := in_order) Config.json (demo_proposals_db ["1"]) 4860000 4860001
    {| job_name := "crawl:proposal"; height := 4860000 |} [1] (Some "v0.47.4")) as (d' & Hrun & _ & _ & Hp).
  - by vm_compute.
  - lia.
  - by intros i p.
  - by vm_compute.
  - done.
  - intros i ->%list_elem_of_singleton. eexists. split; [by vm_compute|]. intros p [= <-]. split; [done|].
    eexists. split; [vm_compute; reflexivity|]. vm_compute. reflexivity.
  - exists d'. split; [exact Hrun|]. specialize (Hp 1). rewrite bool_decide_eq_true_2 in Hp by by left.
    destruct Hp as (row & Hrow & ->). vm_compute in Hrow. injection Hrow as <-. by vm_compute.
Defined.

Lemma foreign_id_stops_job_witness :
  ∃ msg, handleCrawlProposals (N := demo_gov false) (O := in_order) Config.json (demo_proposals_db ["A1"]) =
    (demo_proposals_db ["A1"], Throw msg).
Proof.
  apply (foreign_id_stops_job Config.json (demo_proposals_db ["A1"]) 4860000 4860001
    {| job_name := "crawl:proposal"; height := 4860000 |} "A1" 4860001); [by vm_compute|by left|lia|by vm_compute].
Defined.

Lemma demo_voting_reachable : reachable demo_nodes in_order 0 demo_voting_db.
Proof.
  apply (reach_run demo_nodes in_order 0 (demo_proposals_db ["1"])); [by apply reach_empty|].
  apply (run_crawl demo_nodes in_order 0).
Qed.
Lemma demo_passed_reachable : reachable demo_nodes in_order 1 (handleEndedProposals (N := demo_nodes 1) 2000 demo_voting_db).1.
Proof.
  apply (reach_run demo_nodes in_order 1 demo_voting_db); [apply (reach_tick _ _ 0), demo_voting_reachable|].
  apply (run_ended demo_nodes in_order 1).
Qed.

Lemma statuses_follow_chain_witness :
  ∃ p t', proposal (handleEndedProposals (N := demo_nodes 1) 2000 demo_voting_db).1 !! 1 = Some p ∧
    p_status p = PROPOSAL_STATUS_PASSED ∧ (t' <= 1)%nat ∧ shows (demo_chain t' 1) (p_status p).
Proof.
  destruct (proposal (handleEndedProposals (N := demo_nodes 1) 2000 demo_voting_db).1 !! 1) as [p|] eqn:Hp; cycle 1.
  { vm_compute in Hp. done. }
  destruct (statuses_follow_chain demo_nodes demo_chain in_order demo_says demo_life 1 _ 1 p demo_passed_reachable Hp)
    as (t' & Ht & Hs).
  exists p, t'. split; [done|]. split; [|done]. vm_compute in Hp. by injection Hp as <-.
Defined.

Lemma status_never_back_witness :
  ∃ p p', proposal demo_voting_db !! 1 = Some p ∧
    proposal (handleEndedProposals (N := demo_nodes 1) 2000 demo_voting_db).1 !! 1 = Some p' ∧
    (phase (p_status p) <= phase (p_status p'))%nat.
Proof.
  destruct (proposal demo_voting_db !! 1) as [p|] eqn:Hp; [|vm_compute in Hp; done].
  destruct (status_never_back demo_nodes demo_chain in_order demo_says demo_life 1 demo_voting_db _ 1 p
    (reach_tick _ _ 0 _ demo_voting_reachable) (run_ended _ _ 1 2000 _) Hp) as (p' & Hp' & Hle).
  by exists p, p'.
Defined.

Lemma turnout_exact_witness :
  ∃ q, turnout_of (Some "3") {| yes := "1"; no := "1"; abstain := "0"; no_with_veto := "0" |} = Ok (Some q) ∧
    0 <= q <= 100 * 1000000 ∧ q * 3 <= 2 * 100 * 1000000 < (q + 1) * 3.
Proof. apply (turnout_exact "3" 3 _ 2); [done|lia|done|lia]. Defined.

Lemma demo_voting_keyed : keyed demo_voting_db.
Proof. apply (reachable_followed demo_nodes demo_chain in_order demo_says demo_life 0), demo_voting_reachable. Qed.

Lemma ended_proposals_settle_witness :
  ∃ d', handleEndedProposals (N := demo_gov true) 2000 demo_voting_db = (d', Ok tt) ∧
    (λ p, (p_status p, p_tally p)) <$> proposal d' !! 1 = Some (PROPOSAL_STATUS_PASSED, demo_tally).
Proof.
  destruct (ended_proposals_settle (N := demo_gov true) 2000 demo_voting_db) as (d' & Hrun & _ & Hp).
  - apply demo_voting_keyed.
  - intros i a. simpl. destruct (Z.eqb_spec i 1) as [->|]; [|done]. by intros [= <-].
  - done.
  - exists d'. split; [exact Hrun|].
    destruct (proposal demo_voting_db !! 1) as [p|] eqn:H1; [|vm_compute in H1; done].
    rewrite (Hp 1 p H1). vm_compute in H1. injection H1 as <-. by vm_compute.
Defined.

(** A vote that ended 5 seconds after a run. *)
Lemma turnout_not_final_witness :
  ∃ p, (∀ k, proposal (handleTally (N := demo_gov true) (0 + millisecondCrawl * k)
    (set_proposal {[1 := p]} (demo_proposals_db [])) ).1 !! 1 = Some p) ∧ p_turnout p = Some (Some 1).
Proof.
  exists {| p_proposal_id := 1; p_proposer_address := None; p_voting_start_time := Some 0; p_voting_end_time := Some 5000;
    p_submit_time := 0; p_deposit_end_time := 0; p_type := ""; p_title := ""; p_description := ""; p_content := Messages [];
    p_status := PROPOSAL_STATUS_PASSED; p_tally := zero_tally; p_initial_deposit := []; p_total_deposit := [];
    p_turnout := Some (Some 1); p_count_vote := None; p_vote_counted := false |}.
  split; [|done]. apply (turnout_not_final (N := demo_gov true) 0 _ 1 _ 5000); try done.
  - by apply map_Forall_singleton.
  - intros H. vm_compute in H. by destruct H as [_ H].
Defined.
