(* ===== verification/EvmTx.v ===== *)
(** * EVM transactions, logs and internal transactions

    [services/evm/handle_tx_evm.service.ts]: every [MsgEthereumTx] becomes a
    row of [evm_transaction]; [services/evm/crawl_evm_event.service.ts]: every
    [txLog] attribute becomes a row of [evm_event];
    [services/evm/evm_crawl_internal_tx.service.ts]: the calls of the trace of
    a transaction become rows of [evm_internal_transaction].

    The EVM node, base64 and [JSON.parse] of a log are parameters.  The three
    tables are lists in the order of their ids; the checks of their columns
    (64 bits, 255 characters) are part of the insertion. *)
From Stdlib Require Import Ascii.
From S2P Require Import Prelude JsNum Checkpoint Address Registry.

(** ** Data *)
Record Transaction := { t_id : Z; t_height : Z; t_index : Z }.

(** The JSON of a [MsgEthereumTx] and of its [data]; numbers as text. *)
Record TxData := {
  td_to : option string; td_gas : option string; td_gas_fee_cap : option string; td_gas_tip_cap : option string;
  td_data : option string; td_nonce : option string; td_value : option string }.
Record Content := {
  ct_hash : option string; ct_size : option string; ct_from : option string; ct_data : option TxData }.

Record TransactionMessage := {
  m_id : Z; m_tx_id : Z; m_type : string; m_sender : option string; m_content : Content }.
Definition MSG_ETHEREUM_TX := "/ethermint.evm.v1.MsgEthereumTx".

Record EventAttribute := {
  ea_event_id : Z; ea_tx_id : option Z; ea_block_height : Z;
  ea_composite_key : string; ea_key : string; ea_value : option string }.
Definition ETHEREUM_TX_ETHEREUM_TX_FAILED := "ethereum_tx.ethereumTxFailed".

Record EVMTransaction := {
  et_id : Z; et_height : Z; et_tx_id : Z; et_tx_msg_id : Z; et_hash : string; et_size : option string;
  et_from : option string; et_to : option string;
  et_gas : option Z; et_gas_fee_cap : option Z; et_gas_tip_cap : option Z;
  et_data : option string; et_nonce : option Z; et_value : option Z;
  et_index : Z; et_status : Z; et_reason : option string; et_contract_address : option string }.

Record EvmEvent := {
  ev_evm_tx_id : Z; ev_tx_id : Z; ev_address : string;
  ev_topic0 : option string; ev_topic1 : option string; ev_topic2 : option string; ev_topic3 : option string;
  ev_data : option bytes; ev_block_height : Z;
  ev_tx_hash : string; ev_block_hash : string; ev_tx_index : Z }.

Record EvmInternalTransaction := {
  it_evm_tx_id : Z; it_type_trace_address : string; it_type : string;
  it_from : option string; it_to : option string; it_value : Z; it_input : string;
  it_gas : Z; it_gas_used : Z; it_error : option string }.

Record Db := {
  transaction : list Transaction;
  transaction_message : list TransactionMessage;
  event_attribute : list EventAttribute;
  evm_transaction : list EVMTransaction;
  next_evm_tx_id : Z;
  evm_event : list EvmEvent;
  evm_internal_transaction : list EvmInternalTransaction;
  block_checkpoint : gmap string Z
}.

Definition set_evm_transactions (l : list EVMTransaction) (next : Z) (d : Db) : Db := {|
  transaction := transaction d; transaction_message := transaction_message d; event_attribute := event_attribute d;
  evm_transaction := l; next_evm_tx_id := next; evm_event := evm_event d;
  evm_internal_transaction := evm_internal_transaction d; block_checkpoint := block_checkpoint d |}.
Definition set_evm_events (l : list EvmEvent) (d : Db) : Db := {|
  transaction := transaction d; transaction_message := transaction_message d; event_attribute := event_attribute d;
  evm_transaction := evm_transaction d; next_evm_tx_id := next_evm_tx_id d; evm_event := l;
  evm_internal_transaction := evm_internal_transaction d; block_checkpoint := block_checkpoint d |}.
Definition set_internal (l : list EvmInternalTransaction) (d : Db) : Db := {|
  transaction := transaction d; transaction_message := transaction_message d; event_attribute := event_attribute d;
  evm_transaction := evm_transaction d; next_evm_tx_id := next_evm_tx_id d; evm_event := evm_event d;
  evm_internal_transaction := l; block_checkpoint := block_checkpoint d |}.

#[export] Instance Db_checkpoints : HasCheckpoints Db := block_checkpoint.
#[export] Program Instance Db_set_checkpoints : SetCheckpoints Db := {|
  set_checkpoints t d := {|
    transaction := transaction d; transaction_message := transaction_message d;
    event_attribute := event_attribute d; evm_transaction := evm_transaction d;
    next_evm_tx_id := next_evm_tx_id d; evm_event := evm_event d;
    evm_internal_transaction := evm_internal_transaction d; block_checkpoint := t |}
|}.
Next Obligation. done. Qed.

(** A log as [JSON.parse] of the value of a [txLog] attribute gives it. *)
Record Log := {
  lg_address : option string; lg_topics : option (list string); lg_data : option string;
  lg_transactionHash : option string; lg_blockHash : option string; lg_transactionIndex : option Z }.

(** A call of the [callTracer]; a call without [calls] has none. *)
#[warnings="-register-all"]
Inductive Call := mkCall {
  c_type : string; c_from : option string; c_to : option string; c_value : option string;
  c_input : option string; c_gas : option string; c_gasUsed : option string; c_error : option string;
  c_calls : list Call }.

Class EvmNode := {
  (** [getTransactionReceipt({hash})].contractAddress; it throws when there is no receipt *)
  getTransactionReceipt : string → res (option string);
  (** [debug_traceTransaction(hash, {tracer: 'callTracer'})].result, absent
      when the answer is an error *)
  debug_traceTransaction : string → res (option Call)
}.
Class EvmCodec := {
  toHex : bytes → string;
  JSON_parse_log : string → res Log
}.

(** ** Columns *)

(** A [bigint] column. *)
Definition bigint_fits (z : Z) : bool := (- 2 ^ 63 <=? z) && (z <? 2 ^ 63).
Definition bigint_fits_opt (o : option Z) : bool := match o with Some z => bigint_fits z | None => true end.
(** A [varchar(255)] column. *)
Definition varchar (s : string) : bool := (String.length s <=? 255)%nat.
Definition varchar_opt (o : option string) : bool := match o with Some s => varchar s | None => true end.

(** [Utils.getBigIntIfNotNull] *)
Definition getBigIntIfNotNull (o : option string) : res (option Z) :=
  match o with None => Ok None | Some s => z ← BigInt s; Ok (Some z) end.

Section Service.
Context {N : EvmNode} {V : EvmCodec} {C : AddressCodec} {E : Encoding}.

(** ** handle_tx_evm.service.ts *)

(** A message joined with its transaction. *)
Abbreviation TxMsg := (TransactionMessage * Transaction)%type.

Definition join_tx (d : Db) (m : TransactionMessage) : option TxMsg :=
  t ← find (λ t, bool_decide (t_id t = m_tx_id m)) (transaction d); Some (m, t).

Definition is_ethereum_tx (startBlock endBlock : Z) (r : TxMsg) : Prop :=
  m_type r.1 = MSG_ETHEREUM_TX ∧ startBlock < t_height r.2 <= endBlock.
#[export] Instance is_ethereum_tx_dec s e r : Decision (is_ethereum_tx s e r).
Proof. apply _. Defined.

(** [orderBy('height').orderBy('transaction.id')] *)
Definition txMsgs (startBlock endBlock : Z) (d : Db) : list TxMsg :=
  sortBy (λ r : TxMsg, t_height r.2) (sortBy (λ r : TxMsg, t_id r.2)
    (filter (is_ethereum_tx startBlock endBlock) (omap (join_tx d) (transaction_message d)))).

Definition failedTxIds (startBlock endBlock : Z) (d : Db) : list EventAttribute :=
  filter (λ a, startBlock < ea_block_height a <= endBlock ∧
               ea_composite_key a = ETHEREUM_TX_ETHEREUM_TX_FAILED) (event_attribute d).

Definition evm_sender (networkPrefixAddress : string) (from sender : option string) : res (option string) :=
  match if_text from toLowerCase with
  | Some f => Ok (Some f)
  | None =>
      match sender with
      | Some s => if bool_decide (s = "") then Ok sender
                  else a ← convertBech32AddressToEthAddress networkPrefixAddress s; Ok (Some (toLowerCase a))
      | None => Ok None
      end
  end.

Definition input_data (o : option string) : res (option string) :=
  match if_text o id with
  | Some b => bytes ← fromBase64 b; Ok (Some (toHex bytes))
  | None => Ok None
  end.

(** The row of a message, before the receipt; its id comes with the insertion. *)
Definition evm_tx_row (networkPrefixAddress : string) (failed : list EventAttribute) (r : TxMsg)
  : res EVMTransaction :=
  let '(m, t) := r in
  let failedTx := find (λ a, bool_decide (ea_tx_id a = Some (t_id t))) failed in
  let content := m_content m in
  let field f := ct_data content ≫= f in
  sender ← evm_sender networkPrefixAddress (ct_from content) (m_sender m);
  gas ← getBigIntIfNotNull (field td_gas);
  gas_fee_cap ← getBigIntIfNotNull (field td_gas_fee_cap);
  gas_tip_cap ← getBigIntIfNotNull (field td_gas_tip_cap);
  data ← input_data (field td_data);
  nonce ← getBigIntIfNotNull (field td_nonce);
  value ← getBigIntIfNotNull (field td_value);
  hash ← required (ct_hash content);
  Ok {| et_id := 0; et_height := t_height t; et_tx_id := t_id t; et_tx_msg_id := m_id m; et_hash := hash;
        et_size := ct_size content; et_from := sender; et_to := if_text (field td_to) toLowerCase;
        et_gas := gas; et_gas_fee_cap := gas_fee_cap; et_gas_tip_cap := gas_tip_cap; et_data := data;
        et_nonce := nonce; et_value := value; et_index := t_index t;
        et_status := match failedTx with Some _ => 0 | None => 1 end;
        et_reason := failedTx ≫= ea_value; et_contract_address := None |}.

Definition set_contract_address (a : option string) (r : EVMTransaction) : EVMTransaction := {|
  et_id := et_id r; et_height := et_height r; et_tx_id := et_tx_id r; et_tx_msg_id := et_tx_msg_id r;
  et_hash := et_hash r; et_size := et_size r; et_from := et_from r; et_to := et_to r; et_gas := et_gas r;
  et_gas_fee_cap := et_gas_fee_cap r; et_gas_tip_cap := et_gas_tip_cap r; et_data := et_data r;
  et_nonce := et_nonce r; et_value := et_value r; et_index := et_index r; et_status := et_status r;
  et_reason := et_reason r; et_contract_address := a |}.

(** The receipt of a transaction without a receiver names the new contract. *)
Definition with_receipt (r : EVMTransaction) : res EVMTransaction :=
  match et_to r with
  | Some _ => Ok r
  | None => a ← getTransactionReceipt (et_hash r); Ok (set_contract_address (if_text a toLowerCase) r)
  end.

Definition prepareEvmTxs (networkPrefixAddress : string) (startBlock endBlock : Z) : io Db (list EVMTransaction) :=
  msgs ← query (txMsgs startBlock endBlock);
  failed ← query (failedTxIds startBlock endBlock);
  evmTxs ← lift (mapR (evm_tx_row networkPrefixAddress failed) msgs);
  lift (mapR with_receipt evmTxs).

Definition set_id (i : Z) (r : EVMTransaction) : EVMTransaction := {|
  et_id := i; et_height := et_height r; et_tx_id := et_tx_id r; et_tx_msg_id := et_tx_msg_id r;
  et_hash := et_hash r; et_size := et_size r; et_from := et_from r; et_to := et_to r; et_gas := et_gas r;
  et_gas_fee_cap := et_gas_fee_cap r; et_gas_tip_cap := et_gas_tip_cap r; et_data := et_data r;
  et_nonce := et_nonce r; et_value := et_value r; et_index := et_index r; et_status := et_status r;
  et_reason := et_reason r; et_contract_address := et_contract_address r |}.

(** The columns of [evm_transaction] that can refuse a value. *)
Definition evm_tx_fits (r : EVMTransaction) : bool :=
  bigint_fits_opt (et_gas r) && bigint_fits_opt (et_gas_fee_cap r) && bigint_fits_opt (et_gas_tip_cap r) &&
  bigint_fits_opt (et_nonce r) && varchar (et_hash r) && varchar_opt (et_size r) &&
  varchar_opt (et_from r) && varchar_opt (et_to r) && varchar_opt (et_contract_address r) &&
  varchar_opt (toString <$> et_value r).

Definition insert_evm_txs (rows : list EVMTransaction) (d : Db) : res Db :=
  if forallb evm_tx_fits rows
  then Ok (set_evm_transactions (evm_transaction d ++ serial set_id (next_evm_tx_id d) rows)
             (next_evm_tx_id d + Z.of_nat (length rows)) d)
  else Throw "value out of range for type bigint, or too long for type character varying(255)".

Definition handleTransactionEVM (cfg : Config.t) (networkPrefixAddress : string) : io Db () :=
  checkpoint_handler cfg HANDLE_TRANSACTION_EVM (prepareEvmTxs networkPrefixAddress) (λ _ _, insert_evm_txs).

(** ** crawl_evm_event.service.ts *)
Definition evmEventAttr (startBlock endBlock : Z) (d : Db) : list EventAttribute :=
  sortBy ea_event_id
    (filter (λ a, startBlock < ea_block_height a <= endBlock ∧ ea_key a = "txLog") (event_attribute d)).

(** [_.mapValues(_.keyBy(evmTransactions, 'tx_id'), 'id')] *)
Definition mappingEvmTxId (startBlock endBlock : Z) (d : Db) : gmap string Z :=
  et_id <$> keyBy (λ r, toString (et_tx_id r))
    (filter (λ r, startBlock < et_height r <= endBlock) (evm_transaction d)).

Definition topic (i : nat) (topics : list string) : option string := topics !! i.

Definition required_field {A} (o : option A) : res A :=
  match o with Some x => Ok x | None => Throw "ValidationError: must have required property" end.

Definition evm_event_row (mapping : gmap string Z) (a : EventAttribute) : res EvmEvent :=
  valueParse ← match ea_value a with
               | Some v => JSON_parse_log v
               | None => Throw "TypeError: Cannot read properties of null (reading 'address')"
               end;
  address ← match lg_address valueParse with
            | Some x => Ok (toLowerCase x)
            | None => Throw "TypeError: Cannot read properties of undefined (reading 'toLowerCase')"
            end;
  topics ← match lg_topics valueParse with
           | Some l => Ok l
           | None => Throw "TypeError: Cannot read properties of undefined (reading '0')"
           end;
  data ← match if_text (lg_data valueParse) id with
         | Some b => x ← fromBase64 b; Ok (Some x)
         | None => Ok None
         end;
  tx_id ← required_field (ea_tx_id a);
  evm_tx_id ← required_field (mapping !! toString tx_id);
  tx_hash ← required (lg_transactionHash valueParse);
  block_hash ← required (lg_blockHash valueParse);
  tx_index ← required_field (lg_transactionIndex valueParse);
  Ok {| ev_evm_tx_id := evm_tx_id; ev_tx_id := tx_id; ev_address := address;
        ev_topic0 := topic 0 topics; ev_topic1 := topic 1 topics;
        ev_topic2 := topic 2 topics; ev_topic3 := topic 3 topics;
        ev_data := data; ev_block_height := ea_block_height a;
        ev_tx_hash := tx_hash; ev_block_hash := block_hash; ev_tx_index := tx_index |}.

Definition prepareEvmEvents (startBlock endBlock : Z) : io Db (list EvmEvent) :=
  attrs ← query (evmEventAttr startBlock endBlock);
  mapping ← query (mappingEvmTxId startBlock endBlock);
  lift (mapR (evm_event_row mapping) attrs).

(** [topic0] to [topic3] are [varchar(66)]. *)
Definition topic_fits (o : option string) : bool :=
  match o with Some s => (String.length s <=? 66)%nat | None => true end.
Definition evm_event_fits (r : EvmEvent) : bool :=
  varchar (ev_address r) && topic_fits (ev_topic0 r) && topic_fits (ev_topic1 r) && topic_fits (ev_topic2 r) &&
  topic_fits (ev_topic3 r) && varchar (ev_tx_hash r) && varchar (ev_block_hash r).

Definition insert_evm_events (rows : list EvmEvent) (d : Db) : res Db :=
  if forallb evm_event_fits rows then Ok (set_evm_events (evm_event d ++ rows) d)
  else Throw "value too long for type character varying(255)".

Definition crawlEvmEventHandler (cfg : Config.t) : io Db () :=
  checkpoint_handler cfg JOB_CRAWL_EVM_EVENT prepareEvmEvents (λ _ _, insert_evm_events).

(** ** evm_crawl_internal_tx.service.ts *)

(** [`${currentTypeTraceAddress}_${parentType}[${stackTraceIndex}]`] *)
Definition typeTraceAddress (currentTypeTraceAddress : option string) (parentType : string) (i : Z) : string :=
  (match if_text currentTypeTraceAddress id with Some a => a +:+ "_" | None => "" end
   +:+ parentType +:+ "[" +:+ toString i +:+ "]")%string.

(** The Number of a hexadecimal field, which the schema wants finite. *)
Definition hex_number (o : option string) : res Z :=
  match parseInt16 (default "undefined" o) ≫= to_double with
  | Some z => Ok z
  | None => Throw "ValidationError: must be number"
  end.

(** The numbers are written to the table as their text. *)
Definition internal_row (tracerId : Z) (address : string) (call : Call) : res EvmInternalTransaction :=
  value ← hex_number (Some (default "0" (c_value call)));
  gas ← hex_number (c_gas call);
  gas_used ← hex_number (c_gasUsed call);
  input ← required (c_input call);
  Ok {| it_evm_tx_id := tracerId; it_type_trace_address := (address +:+ "_" +:+ c_type call)%string;
        it_type := c_type call; it_from := c_from call; it_to := c_to call;
        it_value := Number_decimal value; it_input := input;
        it_gas := Number_decimal gas; it_gas_used := Number_decimal gas_used; it_error := c_error call |}.

(** One iteration of [buildEvmInternalTx] over [calls], with the recursive call. *)
Fixpoint build_call (tracerId : Z) (address : string) (call : Call) : res (list EvmInternalTransaction) :=
  row ← internal_row tracerId address call;
  rows ← (fix calls (i : Z) (l : list Call) : res (list EvmInternalTransaction) :=
            match l with
            | [] => Ok []
            | c :: l =>
                a ← build_call tracerId (typeTraceAddress (Some address) (c_type call) i) c;
                b ← calls (i + 1) l;
                Ok (a ++ b)
            end) 0 (c_calls call);
  Ok (row :: rows).

Fixpoint build_calls (tracerId : Z) (address : option string) (parentType : string) (i : Z) (l : list Call)
  : res (list EvmInternalTransaction) :=
  match l with
  | [] => Ok []
  | c :: l =>
      a ← build_call tracerId (typeTraceAddress address parentType i) c;
      b ← build_calls tracerId address parentType (i + 1) l;
      Ok (a ++ b)
  end.

Definition buildEvmInternalTransaction (tracerResult : Call) (tracerId : Z) : res (list EvmInternalTransaction) :=
  build_calls tracerId None (c_type tracerResult) 0 (c_calls tracerResult).

Definition evm_txs_between (startBlock endBlock : Z) (d : Db) : list EVMTransaction :=
  filter (λ r, startBlock < et_height r <= endBlock) (evm_transaction d).

(** The answer to the request with the id of the transaction. *)
Definition internal_txs_of (trace : EVMTransaction * option Call) : res (list EvmInternalTransaction) :=
  match trace.2 with
  | Some result => buildEvmInternalTransaction result (et_id trace.1)
  | None => Ok []
  end.

Definition trace_of (r : EVMTransaction) : res (EVMTransaction * option Call) :=
  result ← debug_traceTransaction (et_hash r); Ok (r, result).

Definition prepareInternalTxs (startBlock endBlock : Z) : io Db (list EvmInternalTransaction) :=
  evmTxs ← query (evm_txs_between startBlock endBlock);
  response ← lift (mapR trace_of evmTxs);
  rows ← lift (mapR internal_txs_of response);
  mret (concat rows).

Definition internal_fits (r : EvmInternalTransaction) : bool :=
  varchar (it_type_trace_address r) && varchar (it_type r) && varchar_opt (it_from r) && varchar_opt (it_to r) &&
  varchar_opt (it_error r) && bigint_fits (it_gas r) && bigint_fits (it_gas_used r) && (it_value r <? 10 ^ 80).

Definition insert_internal (rows : list EvmInternalTransaction) (d : Db) : res Db :=
  if forallb internal_fits rows then Ok (set_internal (evm_internal_transaction d ++ rows) d)
  else Throw "value too long for type character varying(255)".

Definition crawlInternalTx (cfg : Config.t) : io Db () :=
  checkpoint_handler cfg EVM_CRAWL_INTERNAL_TX prepareInternalTxs (λ _ _, insert_internal).
End Service.

(** ** Traces

    [Call_ind] says nothing about the calls of a call; this one does. *)
Section CallInd.
Context (P : Call → Prop).
Context (step : ∀ c, Forall P (c_calls c) → P c).

Fixpoint call_ind' (c : Call) : P c :=
  step c ((fix calls (l : list Call) : Forall P l :=
             match l with
             | [] => @List.Forall_nil Call P
             | x :: l => @List.Forall_cons Call P x l (call_ind' x) (calls l)
             end) (c_calls c)).
End CallInd.

(** The calls of a trace in the order of the traversal, with their
    addresses and with their positions: the index among the calls of each
    ancestor. *)
Fixpoint visit (address : string) (call : Call) : list (string * Call) :=
  (address, call) ::
  (fix calls (i : Z) (l : list Call) : list (string * Call) :=
     match l with
     | [] => []
     | c :: l => visit (typeTraceAddress (Some address) (c_type call) i) c ++ calls (i + 1) l
     end) 0 (c_calls call).

Fixpoint visits (address : option string) (parentType : string) (i : Z) (l : list Call) : list (string * Call) :=
  match l with
  | [] => []
  | c :: l => visit (typeTraceAddress address parentType i) c ++ visits address parentType (i + 1) l
  end.

Fixpoint positions (p : list Z) (call : Call) : list (list Z * Call) :=
  (p, call) ::
  (fix calls (i : Z) (l : list Call) : list (list Z * Call) :=
     match l with
     | [] => []
     | c :: l => positions (p ++ [i]) c ++ calls (i + 1) l
     end) 0 (c_calls call).

Fixpoint positions_of (p : list Z) (i : Z) (l : list Call) : list (list Z * Call) :=
  match l with
  | [] => []
  | c :: l => positions (p ++ [i]) c ++ positions_of p (i + 1) l
  end.

Lemma visit_eq address c :
  visit address c = (address, c) :: visits (Some address) (c_type c) 0 (c_calls c).
Proof.
  destruct c as [ty f t v i g gu e l]. cbn [visit c_calls c_type]. f_equal.
  generalize 0. induction l as [|c l IH]; intros n; [done|]. cbn [visits]. by rewrite IH.
Qed.

Lemma positions_eq p c : positions p c = (p, c) :: positions_of p 0 (c_calls c).
Proof.
  destruct c as [ty f t v i g gu e l]. cbn [positions c_calls]. f_equal.
  generalize 0. induction l as [|c l IH]; intros n; [done|]. cbn [positions_of]. by rewrite IH.
Qed.

Lemma build_call_eq tracerId address c :
  build_call tracerId address c =
  (row ← internal_row tracerId address c;
   rows ← build_calls tracerId (Some address) (c_type c) 0 (c_calls c);
   Ok (row :: rows)).
Proof.
  destruct c as [ty f t v i g gu e l]. cbn [build_call c_calls c_type].
  destruct (internal_row tracerId address _) as [row|]; [|done]. cbn [mbind res_bind]. f_equal.
  generalize 0. induction l as [|c l IH]; intros n; [done|]. cbn [build_calls].
  destruct (build_call _ _ c); [|done]. cbn [mbind res_bind]. by rewrite IH.
Qed.

(** The traversal of the code writes one row per call it visits. *)
Lemma build_call_visit tracerId c : ∀ address,
  build_call tracerId address c = mapR (λ n, internal_row tracerId n.1 n.2) (visit address c).
Proof.
  induction c as [c IH] using call_ind'. intros address.
  rewrite build_call_eq, visit_eq. cbn [mapR fst snd].
  destruct (internal_row tracerId address c) as [row|]; [|done]. cbn [mbind res_bind].
  assert (∀ i, build_calls tracerId (Some address) (c_type c) i (c_calls c) =
               mapR (λ n, internal_row tracerId n.1 n.2) (visits (Some address) (c_type c) i (c_calls c))) as ->; [|done].
  induction IH as [|x l Hx _ IHl]; intros i; [done|]. cbn [build_calls visits].
  rewrite Hx, mapR_app, IHl. done.
Qed.

Lemma build_calls_visits tracerId address parentType i l :
  build_calls tracerId address parentType i l =
  mapR (λ n, internal_row tracerId n.1 n.2) (visits address parentType i l).
Proof.
  revert i. induction l as [|x l IH]; intros i; [done|]. cbn [build_calls visits].
  by rewrite build_call_visit, mapR_app, IH.
Qed.

(** *** Addresses

    The numbers in the brackets of an address. *)
Fixpoint scan (cur : option Z) (s : string) : list Z :=
  match s with
  | EmptyString => []
  | String c s =>
      match cur with
      | None => if bool_decide (c = "["%char) then scan (Some 0) s else scan None s
      | Some n => if bool_decide (c = "]"%char) then n :: scan None s else scan (Some (n * 10 + digit_val c)) s
      end
  end.
Definition trace_indices : string → list Z := scan None.

Fixpoint no_bracket (s : string) : bool :=
  match s with
  | EmptyString => true
  | String c s => negb (bool_decide (c = "["%char)) && no_bracket s
  end.

(** Every bracket of [a] is closed. *)
Definition closed (a : string) : Prop := ∀ s, trace_indices (a +:+ s) = trace_indices a ++ trace_indices s.

Lemma scan_no_bracket t s : no_bracket t = true → scan None (t +:+ s) = scan None s.
Proof.
  induction t as [|c t IH]; [done|]. rewrite string_app_cons. cbn [no_bracket scan]. intros [Hc Ht]%andb_prop.
  apply negb_true_iff in Hc. rewrite Hc. by apply IH.
Qed.

Lemma scan_digits t s a v :
  all_digits t = true → read_digits 10 a t = Some v → scan (Some a) (t +:+ String "]" s) = v :: scan None s.
Proof.
  revert a. induction t as [|c t IH]; intros a; rewrite ?string_app_cons; cbn [all_digits scan read_digits].
  - by intros _ [= ->].
  - intros [Hc Ht]%andb_prop. apply is_digit_inv in Hc as (x & Hx & ->).
    rewrite digit_val_char by done. destruct (Z.ltb_spec x 10); [|lia]. intros Hr.
    rewrite bool_decide_false by (digit_cases x; done). by apply IH.
Qed.

Lemma scan_index i s : 0 <= i → scan (Some 0) (toString i +:+ String "]" s) = i :: scan None s.
Proof.
  intros Hi. unfold toString, print_nat. destruct (Z.ltb_spec i 0); [lia|].
  apply scan_digits; [by apply print_digits_all|].
  rewrite read_print_digits; [done|]. split; [done|]. by apply print_fuel_enough.
Qed.

Lemma typeTraceAddress_indices address ty i :
  match if_text address id with Some a => closed a | None => True end → no_bracket ty = true → 0 <= i →
  trace_indices (typeTraceAddress address ty i) =
    match if_text address id with Some a => trace_indices a | None => [] end ++ [i] ∧
  closed (typeTraceAddress address ty i).
Proof.
  intros Ha Hty Hi.
  assert (∀ s, trace_indices (typeTraceAddress address ty i +:+ s) =
     match if_text address id with Some a => trace_indices a | None => [] end ++ i :: trace_indices s) as Hgen.
  { intros s. unfold typeTraceAddress. rewrite !string_app_assoc.
    assert (trace_indices (ty +:+ "[" +:+ toString i +:+ "]" +:+ s) = i :: trace_indices s) as Htail.
    { unfold trace_indices. rewrite scan_no_bracket by done. rewrite string_app_cons. cbn [scan].
      rewrite bool_decide_true by done. by apply scan_index. }
    destruct (if_text address id) as [a|]; [|exact Htail].
    rewrite string_app_assoc, Ha. f_equal. exact Htail. }
  assert (trace_indices (typeTraceAddress address ty i) =
     match if_text address id with Some a => trace_indices a | None => [] end ++ [i]) as Heq.
  { rewrite <-(string_app_nil (typeTraceAddress address ty i)). apply Hgen. }
  split; [done|]. intros s. rewrite Hgen, Heq, <-app_assoc. done.
Qed.

Lemma typeTraceAddress_nonempty address ty i : typeTraceAddress address ty i ≠ "".
Proof.
  unfold typeTraceAddress. destruct (if_text address id) as [[|]|]; [done..|]. by destruct ty.
Qed.

(** All types of the calls of a trace satisfy [p]. *)
Section Types.
Context (p : string → bool).
Fixpoint all_types (c : Call) : bool :=
  p (c_type c) &&
  (fix calls (l : list Call) : bool := match l with [] => true | c :: l => all_types c && calls l end) (c_calls c).

Lemma all_types_eq c : all_types c = p (c_type c) && forallb all_types (c_calls c).
Proof. by destruct c. Qed.
End Types.

Definition plain_types : Call → bool := all_types no_bracket.

(** The address of a call tells its position. *)
Lemma visit_indices c : plain_types c = true → ∀ address p,
  address ≠ "" → closed address → trace_indices address = p →
  (λ n : string * Call, (trace_indices n.1, n.2)) <$> visit address c = positions p c ∧
  Forall (λ n : string * Call, closed n.1 ∧ no_bracket (c_type n.2) = true) (visit address c).
Proof.
  induction c as [c IH] using call_ind'. unfold plain_types at 1. rewrite all_types_eq. intros [Hty Hpl]%andb_prop address p Hne Hcl Hp.
  rewrite visit_eq, positions_eq, fmap_cons, Forall_cons. cbn [fst snd]. rewrite Hp.
  assert (∀ i, 0 <= i →
    (λ n : string * Call, (trace_indices n.1, n.2)) <$> visits (Some address) (c_type c) i (c_calls c)
    = positions_of p i (c_calls c) ∧
    Forall (λ n : string * Call, closed n.1 ∧ no_bracket (c_type n.2) = true) (visits (Some address) (c_type c) i (c_calls c))) as Hgen; cycle 1.
  { destruct (Hgen 0) as [-> ?]; [lia|done]. }
  revert Hpl. induction IH as [|x l Hx _ IHl]; intros Hpl i Hi; [done|].
  cbn [forallb] in Hpl. apply andb_prop in Hpl as [Hx' Hl]. cbn [visits positions_of].
  assert (if_text (Some address) id = Some address) as Hif by (unfold if_text; by rewrite bool_decide_false).
  destruct (typeTraceAddress_indices (Some address) (c_type c) i) as [Hind Hcl']; [by rewrite Hif|done..|].
  rewrite Hif, Hp in Hind.
  destruct (Hx Hx' _ (p ++ [i]) (typeTraceAddress_nonempty _ _ _) Hcl' Hind) as [Hv Hc].
  destruct (IHl Hl (i + 1)) as [Hv' Hc']; [lia|].
  rewrite fmap_app, Hv, Hv', Forall_app. done.
Qed.

Lemma visits_indices ty l : no_bracket ty = true → forallb plain_types l = true → ∀ i, 0 <= i →
  (λ n : string * Call, (trace_indices n.1, n.2)) <$> visits None ty i l = positions_of [] i l ∧
  Forall (λ n : string * Call, closed n.1 ∧ no_bracket (c_type n.2) = true) (visits None ty i l).
Proof.
  intros Hty. induction l as [|x l IH]; intros Hpl i Hi; [done|].
  cbn [forallb] in Hpl. apply andb_prop in Hpl as [Hx Hl]. cbn [visits positions_of].
  destruct (typeTraceAddress_indices None ty i) as [Hind Hcl]; [done..|].
  destruct (visit_indices x Hx _ ([] ++ [i]) (typeTraceAddress_nonempty _ _ _) Hcl Hind) as [Hv Hc].
  destruct (IH Hl (i + 1)) as [Hv' Hc']; [lia|].
  rewrite fmap_app, Hv, Hv', Forall_app. done.
Qed.

(** Positions are different. *)
Lemma positions_prefix c : ∀ p q x, (q, x) ∈ positions p c → ∃ r, q = p ++ r.
Proof.
  induction c as [c IH] using call_ind'. intros p q x. rewrite positions_eq, elem_of_cons.
  intros [[= -> _]|Hin]; [exists []; by rewrite app_nil_r|].
  revert Hin. generalize 0. induction IH as [|y l Hy _ IHl]; intros i; [by intros ?%not_elem_of_nil|].
  cbn [positions_of]. intros [Hin|Hin]%elem_of_app; [|by eapply IHl].
  destruct (Hy _ _ _ Hin) as [r ->]. exists ([i] ++ r). by rewrite app_assoc.
Qed.

Lemma positions_of_prefix p i l q x :
  (q, x) ∈ positions_of p i l → ∃ j r, i <= j ∧ q = p ++ j :: r.
Proof.
  revert i. induction l as [|y l IH]; intros i; [by intros ?%not_elem_of_nil|].
  cbn [positions_of]. intros [Hin|Hin]%elem_of_app.
  - apply positions_prefix in Hin as [r ->]. exists i, r. split; [lia|]. by rewrite <-app_assoc.
  - destruct (IH _ Hin) as (j & r & Hj & ->). exists j, r. split; [lia|done].
Qed.

Lemma positions_disjoint p i c l q : q ∈ (positions (p ++ [i]) c).*1 → q ∉ (positions_of p (i + 1) l).*1.
Proof.
  intros ([q1 x1] & -> & (r1 & Hr1)%positions_prefix)%list_elem_of_fmap
    ([q2 x2] & Hq & (j & r2 & Hj & Hr2)%positions_of_prefix)%list_elem_of_fmap.
  cbn [fst] in Hq. rewrite Hr1, Hr2, <-app_assoc in Hq. apply app_inv_head in Hq. injection Hq as Hq _. lia.
Qed.

Lemma NoDup_positions c : ∀ p, NoDup (positions p c).*1.
Proof.
  induction c as [c IH] using call_ind'. intros p. rewrite positions_eq, fmap_cons, NoDup_cons. split.
  - intros ([q x] & Hp & (j & r & _ & Hq)%positions_of_prefix)%list_elem_of_fmap. cbn [fst] in Hp. subst q.
    apply (f_equal length) in Hq. rewrite length_app, length_cons in Hq. lia.
  - generalize 0. induction IH as [|y l Hy _ IHl]; intros i; [constructor|].
    cbn [positions_of]. rewrite fmap_app, NoDup_app. split; [apply Hy|]. split; [|apply IHl].
    apply positions_disjoint.
Qed.

Lemma NoDup_positions_of p i l : NoDup (positions_of p i l).*1.
Proof.
  revert i. induction l as [|y l IH]; intros i; [constructor|].
  cbn [positions_of]. rewrite fmap_app, NoDup_app. split; [apply NoDup_positions|]. split; [|apply IH].
  apply positions_disjoint.
Qed.

(** *** Lengths

    An address grows by at least eight characters per level. *)
Lemma toString_length_pos i : (1 <= String.length (toString i))%nat.
Proof. destruct (toString i) eqn:H; [by apply toString_nonempty in H|simpl; lia]. Qed.

Lemma typeTraceAddress_length address ty i :
  (4 <= String.length ty)%nat →
  (String.length (typeTraceAddress address ty i) >=
   match if_text address id with Some a => String.length a + 8 | None => 7 end)%nat.
Proof.
  intros Hty. unfold typeTraceAddress. pose proof (toString_length_pos i).
  destruct (if_text address id) as [a|]; rewrite !string_length_app; simpl; lia.
Qed.

Definition long_type (ty : string) : bool := (4 <=? String.length ty)%nat.
Definition deep (n : string * Call) (q : list Z * Call) : Prop :=
  n.2 = q.2 ∧ long_type (c_type n.2) = true ∧ (8 * length q.1 <= String.length n.1 + 1)%nat.

Lemma visit_deep c : all_types long_type c = true → ∀ address p,
  address ≠ "" → (8 * length p <= String.length address + 1)%nat →
  Forall2 deep (visit address c) (positions p c).
Proof.
  induction c as [c IH] using call_ind'. rewrite all_types_eq. intros [Hty Hl]%andb_prop address p Hne Hp.
  rewrite visit_eq, positions_eq. constructor; [done|]. revert Hl. generalize 0.
  induction IH as [|x l Hx _ IHl]; intros i Hl; [constructor|].
  cbn [forallb] in Hl. apply andb_prop in Hl as [Hx' Hl]. cbn [visits positions_of].
  apply Forall2_app; [|by apply IHl]. apply Hx; [done|apply typeTraceAddress_nonempty|].
  pose proof (typeTraceAddress_length (Some address) (c_type c) i) as Hlen.
  unfold if_text in Hlen. rewrite bool_decide_false in Hlen by done. unfold long_type in Hty.
  apply Nat.leb_le in Hty. specialize (Hlen Hty). rewrite length_app. unfold id in Hlen. simpl. lia.
Qed.

Lemma visits_deep ty l i :
  long_type ty = true → forallb (all_types long_type) l = true →
  Forall2 deep (visits None ty i l) (positions_of [] i l).
Proof.
  intros Hty. revert i. induction l as [|x l IH]; intros i Hl; [constructor|].
  cbn [forallb] in Hl. apply andb_prop in Hl as [Hx Hl]. cbn [visits positions_of].
  apply Forall2_app; [|by apply IH]. apply visit_deep; [done|apply typeTraceAddress_nonempty|].
  unfold long_type in Hty. apply Nat.leb_le in Hty.
  pose proof (typeTraceAddress_length None ty i Hty) as Hlen. simpl in *. lia.
Qed.

(** ** The rows of a trace *)
Lemma internal_row_Ok tracerId address c r :
  internal_row tracerId address c = Ok r →
  ∃ v g gu, parseInt16 (default "0" (c_value c)) ≫= to_double = Some v ∧
    parseInt16 (default "undefined" (c_gas c)) ≫= to_double = Some g ∧
    parseInt16 (default "undefined" (c_gasUsed c)) ≫= to_double = Some gu ∧
    c_input c = Some (it_input r) ∧
    it_evm_tx_id r = tracerId ∧ it_type_trace_address r = (address +:+ "_" +:+ c_type c)%string ∧
    it_type r = c_type c ∧ it_from r = c_from c ∧ it_to r = c_to c ∧ it_error r = c_error c ∧
    it_value r = Number_decimal v ∧ it_gas r = Number_decimal g ∧ it_gas_used r = Number_decimal gu.
Proof.
  unfold internal_row. intros H. inv_ok H. injection H as <-. unfold hex_number in *.
  apply required_Ok in Ha2.
  repeat match goal with H : match ?o with _ => _ end = Ok _ |- _ => destruct o eqn:?; simplify_eq end.
  eexists _, _, _. split_and!; done.
Qed.

(** What the row of the call at a position holds. *)
Definition row_of_call (tracerId : Z) (q : list Z * Call) (r : EvmInternalTransaction) : Prop :=
  trace_indices (it_type_trace_address r) = q.1 ∧ it_evm_tx_id r = tracerId ∧
  it_type r = c_type q.2 ∧ it_from r = c_from q.2 ∧ it_to r = c_to q.2 ∧ it_error r = c_error q.2 ∧
  c_input q.2 = Some (it_input r) ∧
  ∃ v, parseInt16 (default "0" (c_value q.2)) ≫= to_double = Some v ∧ it_value r = Number_decimal v.

Lemma trace_rows tracerResult tracerId rows :
  plain_types tracerResult = true → buildEvmInternalTransaction tracerResult tracerId = Ok rows →
  Forall2 (row_of_call tracerId) (positions_of [] 0 (c_calls tracerResult)) rows.
Proof.
  unfold plain_types. rewrite all_types_eq. intros [Hty Hpl]%andb_prop. unfold buildEvmInternalTransaction.
  rewrite build_calls_visits. intros Hrows%mapR_Ok.
  destruct (visits_indices (c_type tracerResult) (c_calls tracerResult) Hty Hpl 0) as [<- Hcl]; [lia|].
  rewrite Forall2_fmap_l. apply (Forall2_impl_l _ _ _ _ _ Hrows Hcl). intros [address c] r [Hc Hb] Hr. cbn [fst snd] in *.
  apply internal_row_Ok in Hr as (v & g & gu & Hv & _ & _ & Hin & Hid & Haddr & ? & ? & ? & ? & ? & _).
  unfold row_of_call. cbn [fst snd]. split_and!; try done; [|by eauto].
  rewrite Haddr, Hc. change (trace_indices ("_" +:+ c_type c)) with (scan None (c_type c)).
  rewrite <-(string_app_nil (c_type c)), scan_no_bracket by done. apply app_nil_r.
Qed.

(** ** Internal transactions *)
Section InternalJob.
Context {N : EvmNode}.

Definition between (s e h : Z) : Prop := s < h <= e.

(** The rows of one transaction of a range. *)
Definition traced (r : EVMTransaction) (rows : list EvmInternalTransaction) : Prop :=
  (debug_traceTransaction (et_hash r) = Ok None ∧ rows = []) ∨
  ∃ result, debug_traceTransaction (et_hash r) = Ok (Some result) ∧
    (plain_types result = true → Forall2 (row_of_call (et_id r)) (positions_of [] 0 (c_calls result)) rows).

Lemma prepareInternalTxs_state s e d : (prepareInternalTxs s e d).1 = d.
Proof.
  unfold prepareInternalTxs, query, lift, mbind, io_bind. destruct (mapR trace_of _) as [l|]; [|done].
  by destruct (mapR internal_txs_of l).
Qed.

Lemma crawlInternalTx_committed cfg d d' s e u :
  jobCheckpoint cfg EVM_CRAWL_INTERNAL_TX (checkpoints_of d) = Ok (s, e, u) → s < e →
  crawlInternalTx cfg d = (d', Ok tt) →
  ∃ response rows, mapR trace_of (evm_txs_between s e d) = Ok response ∧
    mapR internal_txs_of response = Ok rows ∧ forallb internal_fits (concat rows) = true ∧
    evm_internal_transaction d' = evm_internal_transaction d ++ concat rows ∧
    evm_transaction d' = evm_transaction d ∧
    checkpoints_of d' = saveCheckpoint u e (checkpoints_of d).
Proof.
  intros Hj Hse Hrun. apply checkpoint_handler_cases in Hrun as [(_ & _ & s' & e' & u' & Hj' & Hs)|
    [(msg & [=] & _)|(s' & e' & u' & w & d1 & d2 & Hj' & _ & Hp & Hw & -> & _)]].
  { rewrite Hj in Hj'. simplify_eq. simpl in Hs. lia. }
  rewrite Hj in Hj'. simplify_eq. unfold prepareInternalTxs in Hp. inv_io Hp.
  injection Ha as <- <-. injection Ha0 as <- Hresp. injection Ha1 as <- Hrows. injection Hp as <- <-.
  unfold insert_internal in Hw. destruct (forallb _ _) eqn:Hfit; [|done]. injection Hw as <-.
  by eexists _, _.
Qed.

(** A run of the internal transaction job stores one row per call of the
    traces of its range, in the order of the traversal and with the id of the
    transaction; the indices in [type_trace_address] are the position of the
    call.  A transaction whose trace is answered with an error gets no row,
    and the checkpoint passes it all the same. *)
Theorem internal_txs_stored cfg d d' s e u :
  jobCheckpoint cfg EVM_CRAWL_INTERNAL_TX (checkpoints_of d) = Ok (s, e, u) → s < e →
  crawlInternalTx cfg d = (d', Ok tt) →
  checkpoints_of d' = saveCheckpoint u e (checkpoints_of d) ∧
  ∃ rows, evm_internal_transaction d' = evm_internal_transaction d ++ concat rows ∧
    Forall2 traced (filter (λ r, between s e (et_height r)) (evm_transaction d)) rows.
Proof.
  intros Hj Hse Hrun.
  destruct (crawlInternalTx_committed _ _ _ _ _ _ Hj Hse Hrun) as (response & rows & Hresp & Hrows & _ & Hd & _ & Hc).
  split; [done|]. exists rows. split; [done|].
  apply mapR_Ok in Hresp, Hrows. eapply Forall2_compose; [|exact Hresp|exact Hrows].
  intros r [r' result] rs Hr Hrs. unfold trace_of in Hr. apply bind_Ok in Hr as (result' & Htr & [= <- <-]).
  unfold internal_txs_of in Hrs. cbn [fst snd] in Hrs.
  destruct result' as [result|]; [|injection Hrs as <-; by left].
  right. exists result. split; [done|]. intros Hpl. by apply trace_rows.
Qed.

(** C40: the address of an internal transaction identifies it among the
    internal transactions of its EVM transaction. *)
Theorem trace_addresses_unique tracerResult tracerId rows :
  plain_types tracerResult = true → buildEvmInternalTransaction tracerResult tracerId = Ok rows →
  (λ r, trace_indices (it_type_trace_address r)) <$> rows = (positions_of [] 0 (c_calls tracerResult)).*1 ∧
  NoDup (it_type_trace_address <$> rows).
Proof.
  intros Hpl Hrows. pose proof (trace_rows _ _ _ Hpl Hrows) as Hall.
  assert ((λ r, trace_indices (it_type_trace_address r)) <$> rows
          = (positions_of [] 0 (c_calls tracerResult)).*1) as Heq.
  { clear Hrows. induction Hall as [|q r l k Hq _ IH]; [done|].
    rewrite !fmap_cons, IH. f_equal. by destruct Hq as [-> _]. }
  split; [done|]. apply (NoDup_fmap_1 trace_indices).
  rewrite <-list_fmap_compose. change (NoDup ((λ r, trace_indices (it_type_trace_address r)) <$> rows)).
  rewrite Heq. apply NoDup_positions_of.
Qed.

(** A call more than 31 levels below the transaction has an address of more
    than 255 characters. *)
Lemma deep_rows_do_not_fit tracerResult tracerId rows q :
  all_types long_type tracerResult = true → q ∈ positions_of [] 0 (c_calls tracerResult) →
  (32 <= length q.1)%nat → buildEvmInternalTransaction tracerResult tracerId = Ok rows →
  forallb internal_fits rows = false.
Proof.
  rewrite all_types_eq. intros [Hty Hl]%andb_prop Hq Hlen. unfold buildEvmInternalTransaction.
  rewrite build_calls_visits. intros Hrows%mapR_Ok.
  pose proof (visits_deep _ _ 0 Hty Hl) as Hdeep.
  apply list_elem_of_lookup in Hq as [i Hq].
  destruct (Forall2_lookup_r _ _ _ _ _ Hdeep Hq) as ([address c] & Hn & _ & Hlong & Hlen').
  destruct (Forall2_lookup_l _ _ _ _ _ Hrows Hn) as (r & Hr & Hrow). cbn [fst snd] in *.
  apply internal_row_Ok in Hrow as (_ & _ & _ & _ & _ & _ & _ & _ & Haddr & _).
  apply not_true_is_false. intros Hall. rewrite forallb_forall in Hall.
  specialize (Hall r). rewrite <-list_elem_of_In in Hall. specialize (Hall (list_elem_of_lookup_2 _ _ _ Hr)).
  unfold internal_fits, varchar in Hall. rewrite Haddr, !string_length_app in Hall.
  unfold long_type in Hlong. apply Nat.leb_le in Hlong. rewrite !andb_true_iff in Hall.
  destruct Hall as [[[[[[[H _] _] _] _] _] _] _]. apply Nat.leb_le in H. simpl in H. lia.
Qed.

(** A transaction whose trace nests calls more than 31 levels deep stops
    the internal transaction job: the address of the innermost call is longer
    than its column, so every run throws and changes nothing. *)
Theorem deep_trace_stops_job cfg d s e u r tracerResult q :
  jobCheckpoint cfg EVM_CRAWL_INTERNAL_TX (checkpoints_of d) = Ok (s, e, u) → s < e →
  r ∈ evm_transaction d → s < et_height r <= e → debug_traceTransaction (et_hash r) = Ok (Some tracerResult) →
  all_types long_type tracerResult = true →
  q ∈ positions_of [] 0 (c_calls tracerResult) → (32 <= length q.1)%nat →
  ∃ msg, crawlInternalTx cfg d = (d, Throw msg).
Proof.
  intros Hj Hse Hr Hh Htr Hty Hq Hlen. destruct (crawlInternalTx cfg d) as [d' [[]|msg]] eqn:Hrun.
  - destruct (crawlInternalTx_committed _ _ _ _ _ _ Hj Hse Hrun) as (response & rows & Hresp & Hrows & Hfit & _).
    apply mapR_Ok in Hresp, Hrows.
    assert (r ∈ evm_txs_between s e d) as [i Hi]%list_elem_of_lookup by (by apply list_elem_of_filter).
    destruct (Forall2_lookup_l _ _ _ _ _ Hresp Hi) as ([r' o] & Hi' & Ho).
    unfold trace_of in Ho. rewrite Htr in Ho. injection Ho as <- <-.
    destruct (Forall2_lookup_l _ _ _ _ _ Hrows Hi') as (rs & Hi'' & Hrs).
    pose proof (deep_rows_do_not_fit _ _ _ _ Hty Hq Hlen Hrs) as Hno.
    exfalso. apply not_true_iff_false in Hno. apply Hno. apply forallb_forall. intros x Hx.
    rewrite forallb_forall in Hfit. apply Hfit, in_concat. exists rs.
    split; [|done]. apply list_elem_of_In. by eapply list_elem_of_lookup_2.
  - exists msg. apply checkpoint_handler_cases in Hrun as [(-> & [=] & _)|[(msg' & [= <-] & [->|(s' & e' & ->)])|
      (s' & e' & u' & w & d1 & d2 & _ & _ & _ & _ & _ & [=])]]; [done|].
    by rewrite prepareInternalTxs_state.
Qed.

End InternalJob.

(** Internal values are kept as Numbers: up to 2^53 the table holds the
    value of the call, above it digits are lost, already for amounts below
    one hundredth of a coin with 18 decimals. *)
Theorem internal_value_bounds :
  (∀ tracerId address c r n, internal_row tracerId address c = Ok r →
     parseInt16 (default "0" (c_value c)) = Some n → n <= 2 ^ 53 → it_value r = n) ∧
  ∃ c r n, internal_row 1 "CALL[0]" c = Ok r ∧ parseInt16 (default "0" (c_value c)) = Some n ∧
    n = 9007199254740993 ∧ it_value r = 9007199254740992.
Proof.
  split.
  - intros tracerId address c r n (v & g & gu & Hv & _ & _ & _ & _ & _ & _ & _ & _ & _ & Hval & _)%internal_row_Ok Hn Hle.
    rewrite Hn in Hv. simpl in Hv. rewrite to_double_exact in Hv by done. injection Hv as <-.
    by rewrite Hval, Number_decimal_exact.
  - exists (mkCall "CALL" (Some "0xa") (Some "0xb") (Some "0x20000000000001") (Some "0x") (Some "0x5208")
              (Some "0x5208") None []).
    eexists _, 9007199254740993. split_and!; [vm_compute; reflexivity|reflexivity..].
Qed.

(** ** Transactions *)
Section TxJob.
Context {N : EvmNode} {V : EvmCodec} {C : AddressCodec} {E : Encoding} (prefix : string).

Definition field (m : TransactionMessage) (f : TxData → option string) : option string :=
  ct_data (m_content m) ≫= f.

(** A message whose texts the codecs accept and whose values the columns hold. *)
Record convertible (r : TransactionMessage * Transaction) : Prop := {
  cv_hash : ∃ h, ct_hash (m_content r.1) = Some h ∧ varchar h = true;
  cv_numbers f s : f ∈ [td_gas; td_gas_fee_cap; td_gas_tip_cap; td_nonce] → field r.1 f = Some s →
    ∃ z, BigInt s = Ok z ∧ bigint_fits z = true;
  cv_value s : field r.1 td_value = Some s → ∃ z, BigInt s = Ok z ∧ varchar (toString z) = true;
  cv_data s : field r.1 td_data = Some s → ∃ b, fromBase64 s = Ok b;
  cv_sender : ∃ a, evm_sender prefix (ct_from (m_content r.1)) (m_sender r.1) = Ok a ∧ varchar_opt a = true;
  cv_texts : varchar_opt (ct_size (m_content r.1)) = true ∧ varchar_opt (if_text (field r.1 td_to) toLowerCase) = true;
  cv_receipt h : if_text (field r.1 td_to) toLowerCase = None → ct_hash (m_content r.1) = Some h →
    ∃ a, getTransactionReceipt h = Ok a ∧ varchar_opt (if_text a toLowerCase) = true
}.

(** The first attribute that says that the transaction failed. *)
Definition failure (s e : Z) (d : Db) (t : Transaction) : option EventAttribute :=
  find (λ a, bool_decide (ea_tx_id a = Some (t_id t))) (failedTxIds s e d).

Abbreviation same_number := (option_Forall2 (λ s z, BigInt s = Ok z)).

Record evm_row (s e : Z) (d : Db) (r : TransactionMessage * Transaction) (x : EVMTransaction) : Prop := {
  er_keys : et_tx_msg_id x = m_id r.1 ∧ et_tx_id x = t_id r.2 ∧ et_height x = t_height r.2 ∧ et_index x = t_index r.2;
  er_hash : ct_hash (m_content r.1) = Some (et_hash x) ∧ et_size x = ct_size (m_content r.1);
  er_from : evm_sender prefix (ct_from (m_content r.1)) (m_sender r.1) = Ok (et_from x);
  er_to : et_to x = if_text (field r.1 td_to) toLowerCase;
  er_numbers : same_number (field r.1 td_gas) (et_gas x) ∧ same_number (field r.1 td_gas_fee_cap) (et_gas_fee_cap x) ∧
    same_number (field r.1 td_gas_tip_cap) (et_gas_tip_cap x) ∧ same_number (field r.1 td_nonce) (et_nonce x) ∧
    same_number (field r.1 td_value) (et_value x);
  er_data : et_data x = None ∧ if_text (field r.1 td_data) id = None ∨
    ∃ b bytes, if_text (field r.1 td_data) id = Some b ∧ fromBase64 b = Ok bytes ∧ et_data x = Some (toHex bytes);
  er_status : et_status x = match failure s e d r.2 with Some _ => 0 | None => 1 end ∧
    et_reason x = failure s e d r.2 ≫= ea_value;
  er_contract : match et_to x with
                | Some _ => et_contract_address x = None
                | None => ∃ a, getTransactionReceipt (et_hash x) = Ok a ∧ et_contract_address x = if_text a toLowerCase
                end
}.

Lemma getBigInt_total (P : Z → bool) o :
  (∀ s, o = Some s → ∃ z, BigInt s = Ok z ∧ P z = true) →
  ∃ oz, getBigIntIfNotNull o = Ok oz ∧ same_number o oz ∧ match oz with Some z => P z | None => true end = true.
Proof.
  intros H. destruct o as [s|]; [|exists None; split_and!; [done|constructor|done]].
  destruct (H s) as (z & Hz & HP); [done|]. exists (Some z). simpl. rewrite Hz. simpl.
  split_and!; [done|by constructor|done].
Qed.

Lemma input_data_total o : (∀ s, o = Some s → ∃ b, fromBase64 s = Ok b) →
  ∃ x, input_data o = Ok x ∧
    (x = None ∧ if_text o id = None ∨
     ∃ b bytes, if_text o id = Some b ∧ fromBase64 b = Ok bytes ∧ x = Some (toHex bytes)).
Proof.
  intros H. unfold input_data. destruct o as [s|]; simpl; [|by eauto]. case_bool_decide; [by eauto|].
  destruct (H s eq_refl) as [b Hb]. unfold id. rewrite Hb. simpl. eexists. split; [done|]. right. eauto.
Qed.

(** A convertible message gets its row. *)
Lemma evm_tx_row_total s e d r :
  convertible r → ∃ x y, evm_tx_row prefix (failedTxIds s e d) r = Ok x ∧ with_receipt x = Ok y ∧
    evm_tx_fits y = true ∧ evm_row s e d r y.
Proof.
  intros [(h & Hh & Hvh) Hnum Hval Hdat (a & Ha & Hva) [Hsize Hto] Hrec]. destruct r as [m t]. cbn [fst snd] in *.
  assert (∀ f, f ∈ [td_gas; td_gas_fee_cap; td_gas_tip_cap; td_nonce] →
    ∃ oz, getBigIntIfNotNull (field m f) = Ok oz ∧ same_number (field m f) oz ∧ bigint_fits_opt oz = true) as Hn.
  { intros f Hf. apply (getBigInt_total bigint_fits). intros str Hs. by eapply Hnum. }
  destruct (Hn td_gas) as (g & Hg & Hg1 & Hg2); [set_solver|].
  destruct (Hn td_gas_fee_cap) as (fc & Hfc & Hfc1 & Hfc2); [set_solver|].
  destruct (Hn td_gas_tip_cap) as (tc & Htc & Htc1 & Htc2); [set_solver|].
  destruct (Hn td_nonce) as (nc & Hnc & Hnc1 & Hnc2); [set_solver|].
  destruct (getBigInt_total (λ z, varchar (toString z)) (field m td_value)) as (v & Hv & Hv1 & Hv2); [done|].
  destruct (input_data_total (field m td_data)) as (b & Hb & Hb1); [done|].
  unfold evm_tx_row. cbv zeta. cbv beta iota. fold (field m td_gas) (field m td_gas_fee_cap) (field m td_gas_tip_cap)
    (field m td_data) (field m td_nonce) (field m td_value) (field m td_to).
  rewrite Ha, Hg, Hfc, Htc, Hb, Hnc, Hv, Hh. cbn [mbind res_bind required].
  assert (varchar_opt (toString <$> v) = true) as Hv3 by (by destruct v).
  destruct (if_text (field m td_to) toLowerCase) as [to|] eqn:Hto'.
  - eexists _, _. split; [reflexivity|]. split; [unfold with_receipt; reflexivity|]. split.
    + simpl in Hto. unfold evm_tx_fits. simpl. by rewrite Hg2, Hfc2, Htc2, Hnc2, Hvh, Hsize, Hva, Hto, Hv3.
    + constructor; simpl; done.
  - destruct (Hrec h eq_refl Hh) as (c & Hc & Hvc).
    eexists _, _. split; [reflexivity|]. split; [unfold with_receipt; cbn [et_to et_hash]; rewrite Hc; reflexivity|]. split.
    + unfold evm_tx_fits. simpl. by rewrite Hg2, Hfc2, Htc2, Hnc2, Hvh, Hsize, Hva, Hvc, Hv3.
    + constructor; simpl; try done; eauto.
Qed.

Lemma set_id_row s e d r i x : evm_row s e d r x → evm_row s e d r (set_id i x).
Proof. by intros []. Qed.
Lemma set_id_id i x : et_id (set_id i x) = i.
Proof. done. Qed.

Lemma prepareEvmTxs_state s e d : (prepareEvmTxs prefix s e d).1 = d.
Proof.
  unfold prepareEvmTxs, query, lift, mbind, io_bind. by destruct (mapR (evm_tx_row _ _) _).
Qed.

Lemma prepareEvmTxs_total s e d :
  (∀ r, r ∈ txMsgs s e d → convertible r) →
  ∃ rows, prepareEvmTxs prefix s e d = (d, Ok rows) ∧ forallb evm_tx_fits rows = true ∧
    Forall2 (evm_row s e d) (txMsgs s e d) rows.
Proof.
  intros Hconv. unfold prepareEvmTxs, query, lift, mbind, io_bind.
  assert (∀ l, (∀ r, r ∈ l → convertible r) → ∃ xs ys, mapR (evm_tx_row prefix (failedTxIds s e d)) l = Ok xs ∧
    mapR with_receipt xs = Ok ys ∧ forallb evm_tx_fits ys = true ∧ Forall2 (evm_row s e d) l ys) as Hgen.
  { induction l as [|r l IH]; intros Hl; [exists [], []; by repeat constructor|].
    destruct (evm_tx_row_total s e d r) as (x & y & Hx & Hy & Hfit & Hrow); [apply Hl; by left|].
    destruct IH as (xs & ys & Hxs & Hys & Hfits & Hrows); [intros r' Hr'; apply Hl; by right|].
    exists (x :: xs), (y :: ys). cbn [mapR forallb]. rewrite Hx, Hxs, Hfit, Hfits. cbn [mbind res_bind mapR].
    rewrite Hy, Hys. split_and!; try done. by constructor. }
  destruct (Hgen _ Hconv) as (xs & ys & -> & -> & Hfit & Hrows). eauto.
Qed.

(** C32: when the messages of its range can be converted, the EVM transaction
    job stores exactly one row per [MsgEthereumTx], in the order of height and
    transaction, with fresh ids: parties, amounts and data of the message, the
    status and reason of the transaction's failure, the address of the new
    contract where there is no receiver; and its checkpoint. *)
Theorem evm_txs_stored cfg d s e u :
  jobCheckpoint cfg HANDLE_TRANSACTION_EVM (checkpoints_of d) = Ok (s, e, u) → s < e →
  (∀ r, r ∈ txMsgs s e d → convertible r) →
  ∃ d' rows, handleTransactionEVM cfg prefix d = (d', Ok tt) ∧
    evm_transaction d' = evm_transaction d ++ rows ∧ Forall2 (evm_row s e d) (txMsgs s e d) rows ∧
    et_id <$> rows = seqZ (next_evm_tx_id d) (Z.of_nat (length (txMsgs s e d))) ∧
    checkpoints_of d' = saveCheckpoint u e (checkpoints_of d).
Proof.
  intros Hj Hse Hconv. destruct (prepareEvmTxs_total s e d Hconv) as (rows & Hp & Hfit & Hrows).
  eexists _, (serial set_id (next_evm_tx_id d) rows). split; [|split; [|split; [|split]]].
  - unfold handleTransactionEVM. eapply checkpoint_handler_run; [exact Hj|simpl; lia|exact Hp|].
    unfold insert_evm_txs. by rewrite Hfit.
  - done.
  - eapply Forall2_compose; [|exact Hrows|exact (serial_rows set_id et_id set_id_id (next_evm_tx_id d) rows)].
    intros r x y Hx ->. by apply set_id_row.
  - rewrite (serial_ids set_id et_id set_id_id). by rewrite (Forall2_length _ _ _ Hrows).
  - by rewrite checkpoints_set.
Qed.

Lemma handleTransactionEVM_committed cfg d d' s e u :
  jobCheckpoint cfg HANDLE_TRANSACTION_EVM (checkpoints_of d) = Ok (s, e, u) → s < e →
  handleTransactionEVM cfg prefix d = (d', Ok tt) →
  ∃ xs ys, mapR (evm_tx_row prefix (failedTxIds s e d)) (txMsgs s e d) = Ok xs ∧ mapR with_receipt xs = Ok ys ∧
    forallb evm_tx_fits ys = true ∧
    d' = set_checkpoints (saveCheckpoint u e (checkpoints_of d))
           (set_evm_transactions (evm_transaction d ++ serial set_id (next_evm_tx_id d) ys)
              (next_evm_tx_id d + Z.of_nat (length ys)) d).
Proof.
  intros Hj Hse Hrun. apply checkpoint_handler_cases in Hrun as [(_ & _ & s' & e' & u' & Hj' & Hs)|
    [(msg & [=] & _)|(s' & e' & u' & w & d1 & d2 & Hj' & _ & Hp & Hw & -> & _)]].
  { rewrite Hj in Hj'. simplify_eq. simpl in Hs. lia. }
  rewrite Hj in Hj'. simplify_eq. unfold prepareEvmTxs in Hp. inv_io Hp.
  injection Ha as <- <-. injection Ha0 as <- <-. injection Ha1 as <- Hxs. injection Hp as <- Hys.
  unfold insert_evm_txs in Hw. destruct (forallb _ _) eqn:Hfit; [|done]. injection Hw as <-.
  by eexists _, _.
Qed.

Lemma handleTransactionEVM_throws cfg d d' msg :
  handleTransactionEVM cfg prefix d = (d', Throw msg) → d' = d.
Proof.
  intros Hrun. apply checkpoint_handler_cases in Hrun as [(-> & [=] & _)|[(msg' & _ & [->|(s' & e' & ->)])|
    (s' & e' & u' & w & d1 & d2 & _ & _ & _ & _ & _ & [=])]]; [done|].
  by rewrite prepareEvmTxs_state.
Qed.

(** What a row that was built keeps of its message. *)
Lemma evm_tx_row_keys failed r x y :
  evm_tx_row prefix failed r = Ok x → with_receipt x = Ok y →
  et_tx_id y = t_id r.2 ∧ et_height y = t_height r.2 ∧ et_tx_msg_id y = m_id r.1 ∧
  getBigIntIfNotNull (field r.1 td_gas_fee_cap) = Ok (et_gas_fee_cap y) ∧
  et_status y = match find (λ a, bool_decide (ea_tx_id a = Some (t_id r.2))) failed with Some _ => 0 | None => 1 end ∧
  et_reason y = find (λ a, bool_decide (ea_tx_id a = Some (t_id r.2))) failed ≫= ea_value.
Proof.
  destruct r as [m t]. unfold evm_tx_row. intros H Hy. inv_ok H. injection H as <-.
  unfold with_receipt in Hy. cbn [et_to] in Hy.
  destruct (if_text _ toLowerCase) as [to|]; [injection Hy as <-|apply bind_Ok in Hy as (c & _ & [= <-])];
    split_and!; done.
Qed.

(** A transaction whose fee cap needs more than 63 bits stops the EVM
    transaction job, and with it all EVM jobs: the column is a bigint, so
    every run that has the transaction in its range throws and changes
    nothing. *)
Theorem large_fee_stops_job cfg d s e u r str z :
  jobCheckpoint cfg HANDLE_TRANSACTION_EVM (checkpoints_of d) = Ok (s, e, u) → s < e →
  r ∈ txMsgs s e d → field r.1 td_gas_fee_cap = Some str → BigInt str = Ok z → 2 ^ 63 <= z →
  ∃ msg, handleTransactionEVM cfg prefix d = (d, Throw msg).
Proof.
  intros Hj Hse Hr Hf Hz Hbig. destruct (handleTransactionEVM cfg prefix d) as [d' [[]|msg]] eqn:Hrun.
  - destruct (handleTransactionEVM_committed _ _ _ _ _ _ Hj Hse Hrun) as (xs & ys & Hxs & Hys & Hfit & _).
    apply mapR_Ok in Hxs, Hys. apply list_elem_of_lookup in Hr as [i Hi].
    destruct (Forall2_lookup_l _ _ _ _ _ Hxs Hi) as (x & Hi' & Hx).
    destruct (Forall2_lookup_l _ _ _ _ _ Hys Hi') as (y & Hi'' & Hy).
    destruct (evm_tx_row_keys _ _ _ _ Hx Hy) as (_ & _ & _ & Hfee & _).
    rewrite Hf in Hfee. simpl in Hfee. rewrite Hz in Hfee. injection Hfee as Hfee.
    rewrite forallb_forall in Hfit. specialize (Hfit y).
    rewrite <-list_elem_of_In in Hfit. specialize (Hfit (list_elem_of_lookup_2 _ _ _ Hi'')).
    unfold evm_tx_fits, bigint_fits_opt, bigint_fits in Hfit. rewrite <-Hfee in Hfit.
    rewrite !andb_true_iff in Hfit. lia.
  - exists msg. by rewrite (handleTransactionEVM_throws _ _ _ _ Hrun).
Qed.

(** The failure is looked up by the Cosmos transaction: when one EVM
    transaction of several in a Cosmos transaction failed, all of them are
    stored as failed, with the same reason. *)
Theorem failure_shared cfg d d' s e u a r :
  jobCheckpoint cfg HANDLE_TRANSACTION_EVM (checkpoints_of d) = Ok (s, e, u) → s < e →
  handleTransactionEVM cfg prefix d = (d', Ok tt) →
  failure s e d r.2 = Some a → r ∈ txMsgs s e d →
  ∃ y, y ∈ evm_transaction d' ∧ et_tx_msg_id y = m_id r.1 ∧ et_status y = 0 ∧ et_reason y = ea_value a.
Proof.
  intros Hj Hse Hrun Hfail Hr.
  destruct (handleTransactionEVM_committed _ _ _ _ _ _ Hj Hse Hrun) as (xs & ys & Hxs & Hys & _ & ->).
  apply mapR_Ok in Hxs, Hys. apply list_elem_of_lookup in Hr as [i Hi].
  destruct (Forall2_lookup_l _ _ _ _ _ Hxs Hi) as (x & Hi' & Hx).
  destruct (Forall2_lookup_l _ _ _ _ _ Hys Hi') as (y & Hi'' & Hy).
  destruct (evm_tx_row_keys _ _ _ _ Hx Hy) as (_ & _ & Hid & _ & Hst & Hre).
  unfold failure in Hfail. rewrite Hfail in Hst, Hre.
  destruct (Forall2_lookup_l _ _ _ _ _ (serial_rows set_id et_id set_id_id (next_evm_tx_id d) ys) Hi'')
    as (y' & Hy' & Heq).
  exists y'. split; [apply elem_of_app; right; by eapply list_elem_of_lookup_2|]. by rewrite Heq.
Qed.
End TxJob.

(** ** Logs *)
Section EventJob.
Context {V : EvmCodec} {E : Encoding}.

(** A log whose JSON has the fields the row needs. *)
Definition log_of (a : EventAttribute) : option Log :=
  match ea_value a with Some v => match JSON_parse_log v with Ok lg => Some lg | Throw _ => None end | None => None end.

Definition row_of_log (a : EventAttribute) (evm_tx_id : Z) (x : EvmEvent) : Prop :=
  ∃ lg address topics tx_hash block_hash tx_index,
    log_of a = Some lg ∧ lg_address lg = Some address ∧ lg_topics lg = Some topics ∧
    lg_transactionHash lg = Some tx_hash ∧ lg_blockHash lg = Some block_hash ∧
    lg_transactionIndex lg = Some tx_index ∧ ea_tx_id a = Some (ev_tx_id x) ∧
    ev_evm_tx_id x = evm_tx_id ∧ ev_address x = toLowerCase address ∧
    ev_topic0 x = topics !! 0%nat ∧ ev_topic1 x = topics !! 1%nat ∧
    ev_topic2 x = topics !! 2%nat ∧ ev_topic3 x = topics !! 3%nat ∧
    match if_text (lg_data lg) id with
    | Some b => ∃ bytes, fromBase64 b = Ok bytes ∧ ev_data x = Some bytes
    | None => ev_data x = None
    end ∧
    ev_block_height x = ea_block_height a ∧
    ev_tx_hash x = tx_hash ∧ ev_block_hash x = block_hash ∧ ev_tx_index x = tx_index.

(** The log has everything but the EVM transaction, and its columns fit. *)
Definition complete_log (a : EventAttribute) : Prop :=
  ∀ evm_tx_id, ∃ x, row_of_log a evm_tx_id x ∧ evm_event_fits x = true.

Lemma evm_event_row_spec mapping a x evm_tx_id :
  row_of_log a evm_tx_id x → mapping !! toString (ev_tx_id x) = Some evm_tx_id → evm_event_row mapping a = Ok x.
Proof.
  intros (lg & ad & tp & th & bh & ti & Hlg & Had & Htp & Hth & Hbh & Hti & Htx & Hid & Hxa & H0 & H1 & H2 & H3 &
    Hdata & Hh & Hxt & Hxb & Hxi) Hm. unfold log_of in Hlg. unfold evm_event_row.
  destruct (ea_value a) as [v|]; [|done]. destruct (JSON_parse_log v) as [lg'|]; [|done]. injection Hlg as ->.
  cbn [mbind res_bind]. rewrite Had, Htp, Hth, Hbh, Hti, Htx. cbn [mbind res_bind required required_field].
  rewrite Hm. destruct x. simpl in *. subst.
  destruct (if_text (lg_data lg) id) as [b|]; [destruct Hdata as (bytes & -> & ->)|rewrite Hdata]; done.
Qed.

(** The EVM transaction a log is given: the last one of its Cosmos transaction. *)
Definition last_evm_tx (s e : Z) (d : Db) (tx_id : Z) : option EVMTransaction :=
  last (filter (λ r, et_tx_id r = tx_id) (filter (λ r, s < et_height r <= e) (evm_transaction d))).

Lemma mapping_lookup s e d tx_id : mappingEvmTxId s e d !! toString tx_id = et_id <$> last_evm_tx s e d tx_id.
Proof.
  unfold mappingEvmTxId, last_evm_tx. rewrite lookup_fmap, keyBy_last. do 2 f_equal.
  apply list_filter_iff. intros r. split; [apply toString_inj|by intros ->].
Qed.

(** When the logs of its range are complete and each belongs to a Cosmos
    transaction with an EVM transaction, the log job stores one row per
    [txLog] attribute, in the order of the events, with address, topics and
    data decoded, and with the id of the last EVM transaction of the Cosmos
    transaction; and its checkpoint. *)
Theorem evm_events_stored cfg d s e u :
  jobCheckpoint cfg JOB_CRAWL_EVM_EVENT (checkpoints_of d) = Ok (s, e, u) →
  (∀ a, a ∈ evmEventAttr s e d → complete_log a ∧
     ∃ tx_id, ea_tx_id a = Some tx_id ∧ is_Some (last_evm_tx s e d tx_id)) →
  ∃ d' rows, crawlEvmEventHandler cfg d = (d', Ok tt) ∧ evm_event d' = evm_event d ++ rows ∧
    Forall2 (λ a x, ∃ r, last_evm_tx s e d (ev_tx_id x) = Some r ∧ row_of_log a (et_id r) x)
      (evmEventAttr s e d) rows ∧
    checkpoints_of d' = saveCheckpoint u e (checkpoints_of d).
Proof.
  intros Hj Hlogs.
  assert (∀ l, (∀ a, a ∈ l → complete_log a ∧ ∃ tx_id, ea_tx_id a = Some tx_id ∧ is_Some (last_evm_tx s e d tx_id)) →
    ∃ rows, mapR (evm_event_row (mappingEvmTxId s e d)) l = Ok rows ∧ forallb evm_event_fits rows = true ∧
      Forall2 (λ a x, ∃ r, last_evm_tx s e d (ev_tx_id x) = Some r ∧ row_of_log a (et_id r) x) l rows) as Hgen.
  { induction l as [|a l IH]; intros Hl; [exists []; by repeat constructor|].
    destruct IH as (rows & Hrows & Hfits & Hall); [intros a' Ha'; apply Hl; by right|].
    destruct (Hl a) as (Hcomplete & tx_id & Htx & r & Hr); [by left|].
    destruct (Hcomplete (et_id r)) as (x & Hx & Hfit). exists (x :: rows).
    assert (ev_tx_id x = tx_id) as Heq.
    { destruct Hx as (? & ? & ? & ? & ? & ? & _ & _ & _ & _ & _ & _ & Htx' & _). congruence. }
    cbn [mapR forallb]. rewrite (evm_event_row_spec _ a x (et_id r)), Hrows, Hfit; [|done|].
    - split_and!; [done|done|]. constructor; [|done]. exists r. by rewrite Heq.
    - by rewrite mapping_lookup, Heq, Hr. }
  destruct (Hgen _ Hlogs) as (rows & Hrows & Hfits & Hall).
  eexists _, rows. split; [|split; [|split]].
  - unfold crawlEvmEventHandler. eapply checkpoint_handler_run with (w := rows) (d1 := d); [exact Hj|done| |].
    + unfold prepareEvmEvents, query, lift, mbind, io_bind. by rewrite Hrows.
    + unfold insert_evm_events. by rewrite Hfits.
  - done.
  - done.
  - by rewrite checkpoints_set.
Qed.
End EventJob.

(** ** The three jobs together *)
Section Pipeline.
Context {N : EvmNode} {V : EvmCodec} {C : AddressCodec} {E : Encoding} (prefix : string) (cfg : Config.t).

(** The height up to which transactions are handled. *)
Definition handled_to (d : Db) : Z := default (Config.startBlock cfg) (block_checkpoint d !! "handle:transaction-evm").

Definition ethereum_msgs (d : Db) : list (TransactionMessage * Transaction) :=
  filter (λ r, m_type r.1 = MSG_ETHEREUM_TX) (omap (join_tx d) (transaction_message d)).

(** What the chain guarantees: the logs of a transaction come with an EVM
    message of that transaction, and nothing lies below the first block. *)
Definition logs_ok (d : Db) : Prop :=
  ∀ a, a ∈ event_attribute d → ea_key a = "txLog" →
    Config.startBlock cfg < ea_block_height a ∧
    ∃ r, r ∈ ethereum_msgs d ∧ ea_tx_id a = Some (t_id r.2) ∧ t_height r.2 = ea_block_height a.

(** Runs of the jobs; other jobs add transactions above the handled height. *)
Inductive evm_step : Db → Db → Prop :=
| step_tx d : evm_step d (handleTransactionEVM cfg prefix d).1
| step_event d : evm_step d (crawlEvmEventHandler cfg d).1
| step_internal d : evm_step d (crawlInternalTx cfg d).1
| step_other d d' :
    evm_transaction d' = evm_transaction d →
    block_checkpoint d' !! "handle:transaction-evm" = block_checkpoint d !! "handle:transaction-evm" →
    (∀ r, r ∈ ethereum_msgs d' → t_height r.2 <= handled_to d → r ∈ ethereum_msgs d) →
    logs_ok d' → evm_step d d'.

(** Every EVM message up to the handled height has its row. *)
Definition all_handled (d : Db) : Prop :=
  ∀ r, r ∈ ethereum_msgs d → Config.startBlock cfg < t_height r.2 <= handled_to d →
    ∃ x, x ∈ evm_transaction d ∧ et_tx_id x = t_id r.2 ∧ et_height x = t_height r.2.

Definition evm_inv (d : Db) : Prop := logs_ok d ∧ all_handled d ∧ Config.startBlock cfg <= handled_to d.

Lemma elem_of_txMsgs s e d r : r ∈ txMsgs s e d ↔ r ∈ ethereum_msgs d ∧ s < t_height r.2 <= e.
Proof.
  unfold txMsgs, ethereum_msgs, is_ethereum_tx. rewrite !sortBy_perm, !list_elem_of_filter. tauto.
Qed.

Lemma handleTransactionEVM_inv d : evm_inv d → evm_inv (handleTransactionEVM cfg prefix d).1.
Proof.
  intros (Hlogs & Hall & Hstart). destruct (handleTransactionEVM cfg prefix d) as [d' o] eqn:Hrun. simpl.
  pose proof Hrun as Hcases. apply checkpoint_handler_cases in Hcases as [(-> & _)|[(msg & -> & _)|
    (s & e & u & w & d1 & d2 & Hj & Hs & _ & _ & _ & ->)]]; [done| |].
  { by rewrite (handleTransactionEVM_throws _ _ _ _ _ Hrun). }
  change (Z.leb e s = false) in Hs. assert (s < e) as Hse by lia.
  destruct (handleTransactionEVM_committed _ _ _ _ _ _ _ Hj Hse Hrun) as (xs & ys & Hxs & Hys & _ & ->).
  apply getCheckpoint_Ok in Hj as (Hs' & -> & _). change (s = handled_to d) in Hs'. subst s.
  match goal with |- evm_inv ?D => assert (handled_to D = e) as Hto end.
  { unfold handled_to, saveCheckpoint. simpl. by rewrite lookup_insert_eq. }
  split; [done|]. split; [|rewrite Hto; lia].
  intros r Hr Hh. rewrite Hto in Hh. destruct (decide (t_height r.2 <= handled_to d)) as [Hle|Hgt].
  - destruct (Hall r Hr) as (x & Hx & ?); [lia|]. exists x. split; [|done]. apply elem_of_app. by left.
  - assert (r ∈ txMsgs (handled_to d) e d) as [i Hi]%list_elem_of_lookup by (apply elem_of_txMsgs; split; [done|lia]).
    apply mapR_Ok in Hxs, Hys.
    destruct (Forall2_lookup_l _ _ _ _ _ Hxs Hi) as (x & Hi' & Hx).
    destruct (Forall2_lookup_l _ _ _ _ _ Hys Hi') as (y & Hi'' & Hy).
    destruct (evm_tx_row_keys _ _ _ _ _ Hx Hy) as (Hid & Hht & _).
    destruct (Forall2_lookup_l _ _ _ _ _ (serial_rows set_id et_id set_id_id (next_evm_tx_id d) ys) Hi'')
      as (y' & Hy' & Heq).
    exists y'. rewrite Heq. split; [apply elem_of_app; right; rewrite <-Heq; by eapply list_elem_of_lookup_2|done].
Qed.

(** The other two jobs touch nothing the invariant is about. *)
Lemma evm_inv_same d d' :
  transaction d' = transaction d → transaction_message d' = transaction_message d →
  event_attribute d' = event_attribute d → evm_transaction d' = evm_transaction d →
  block_checkpoint d' !! "handle:transaction-evm" = block_checkpoint d !! "handle:transaction-evm" →
  evm_inv d → evm_inv d'.
Proof.
  intros Ht Hm Ha He Hc. unfold evm_inv, logs_ok, all_handled, ethereum_msgs, join_tx, handled_to.
  by rewrite Ht, Hm, Ha, He, Hc.
Qed.

Lemma crawlEvmEvent_inv d : evm_inv d → evm_inv (crawlEvmEventHandler cfg d).1.
Proof.
  destruct (crawlEvmEventHandler cfg d) as [d' o] eqn:Hrun. simpl.
  apply checkpoint_handler_cases in Hrun as [(-> & _)|[(msg & _ & [->|(s & e & ->)])|
    (s & e & u & w & d1 & d2 & Hj & _ & Hp & Hw & -> & _)]]; [done..| |].
  - unfold prepareEvmEvents, query, lift, mbind, io_bind. by destruct (mapR _ _).
  - unfold prepareEvmEvents in Hp. inv_io Hp. injection Ha as <- <-. injection Ha0 as <- <-. injection Hp as <- _.
    unfold insert_evm_events in Hw. destruct (forallb _ _); [|done]. injection Hw as <-.
    apply getCheckpoint_Ok in Hj as (_ & -> & _). apply evm_inv_same; try done.
    unfold saveCheckpoint. simpl. by rewrite lookup_insert_ne.
Qed.

Lemma crawlInternalTx_inv d : evm_inv d → evm_inv (crawlInternalTx cfg d).1.
Proof.
  destruct (crawlInternalTx cfg d) as [d' o] eqn:Hrun. simpl.
  apply checkpoint_handler_cases in Hrun as [(-> & _)|[(msg & _ & [->|(s & e & ->)])|
    (s & e & u & w & d1 & d2 & Hj & _ & Hp & Hw & -> & _)]]; [done..| |].
  - by rewrite prepareInternalTxs_state.
  - pose proof (prepareInternalTxs_state s e d) as Hst. rewrite Hp in Hst. simpl in Hst. subst d1.
    unfold insert_internal in Hw. destruct (forallb _ _); [|done]. injection Hw as <-.
    apply getCheckpoint_Ok in Hj as (_ & -> & _). apply evm_inv_same; try done.
    unfold saveCheckpoint. simpl. by rewrite lookup_insert_ne.
Qed.

Lemma evm_step_inv d d' : evm_step d d' → evm_inv d → evm_inv d'.
Proof.
  intros [d1|d1|d1|d1 d2 He Hc Hm Hl];
    [apply handleTransactionEVM_inv|apply crawlEvmEvent_inv|apply crawlInternalTx_inv|].
  intros (Hlogs & Hall & Hstart).
  assert (handled_to d2 = handled_to d1) as Hto by (unfold handled_to; by rewrite Hc).
  split; [done|]. split; [|by rewrite Hto]. intros r Hr Hh. rewrite Hto in Hh. rewrite He.
  apply Hall; [|done]. apply Hm; [done|lia].
Qed.

Lemma evm_steps_inv d d' : rtc evm_step d d' → evm_inv d → evm_inv d'.
Proof. induction 1 as [|d1 d2 d3 Hstep _ IH]; [done|]. intros H. by eapply IH, evm_step_inv. Qed.

(** C33: the log job never outruns the transaction job: whatever the jobs do,
    every log of its next range finds an EVM transaction of its Cosmos
    transaction, so no log is refused for want of one. *)
Theorem logs_find_their_tx d d' s e u a :
  evm_inv d → rtc evm_step d d' →
  jobCheckpoint cfg JOB_CRAWL_EVM_EVENT (checkpoints_of d') = Ok (s, e, u) → 0 <= Config.startBlock cfg →
  a ∈ evmEventAttr s e d' →
  ∃ tx_id x, ea_tx_id a = Some tx_id ∧ last_evm_tx s e d' tx_id = Some x ∧ et_tx_id x = tx_id.
Proof.
  intros Hinv Hsteps Hj H0 Ha. apply (evm_steps_inv _ _ Hsteps) in Hinv as (Hlogs & Hall & Hstart).
  unfold evmEventAttr in Ha. rewrite sortBy_perm, list_elem_of_filter in Ha. destruct Ha as ([Hh Hkey] & Ha).
  destruct (Hlogs a Ha Hkey) as (Hlow & r & Hr & Htx & Hrh).
  assert (e <= handled_to d') as He.
  { apply getCheckpoint_Ok in Hj as (_ & _ & [(_ & ->)|(m & Hm & Hem)]); [lia|].
    apply lastHeightCheckpoint_Some in Hm as [(n & ->%list_elem_of_singleton & Hn) _].
    unfold handled_to. change (checkpoints_of d') with (block_checkpoint d') in Hn.
    change (jd_name HANDLE_TRANSACTION_EVM) with "handle:transaction-evm" in Hn. by rewrite Hn. }
  destruct (Hall r Hr) as (x & Hx & Hxid & Hxh); [lia|].
  exists (t_id r.2). destruct (last_evm_tx s e d' (t_id r.2)) as [y|] eqn:Hy.
  - exists y. split_and!; [done|done|]. unfold last_evm_tx in Hy. apply last_Some_elem_of in Hy.
    by apply list_elem_of_filter in Hy as [? _].
  - unfold last_evm_tx in Hy. apply last_None in Hy.
    assert (x ∈ filter (λ r', et_tx_id r' = t_id r.2) (filter (λ r', s < et_height r' <= e) (evm_transaction d'))) as Hin.
    { rewrite !list_elem_of_filter. split_and!; [done|lia..|done]. }
    rewrite Hy in Hin. by apply not_elem_of_nil in Hin.
Qed.
End Pipeline.

(** ** The handlers are checkpoint jobs *)
Section Jobs.
Context {N : EvmNode} {V : EvmCodec} {C : AddressCodec} {E : Encoding}.

#[export] Instance handleTransactionEVM_frames prefix : HandlerFrames (prepareEvmTxs prefix) (λ _ _, insert_evm_txs).
Proof.
  constructor; [intros s e d; by rewrite prepareEvmTxs_state|].
  intros _ _ w d d'. unfold insert_evm_txs. destruct (forallb _ _); [|done]. by intros [= <-].
Qed.
#[export] Instance handleTransactionEVM_job cfg prefix :
  CheckpointJob cfg HANDLE_TRANSACTION_EVM (handleTransactionEVM cfg prefix).
Proof. eapply checkpoint_handler_job, _. Qed.

#[export] Instance crawlEvmEvent_frames : HandlerFrames prepareEvmEvents (λ _ _, insert_evm_events).
Proof.
  constructor; [intros s e; unfold prepareEvmEvents; auto with frames|].
  intros _ _ w d d'. unfold insert_evm_events. destruct (forallb _ _); [|done]. by intros [= <-].
Qed.
#[export] Instance crawlEvmEvent_job cfg : CheckpointJob cfg JOB_CRAWL_EVM_EVENT (crawlEvmEventHandler cfg).
Proof. eapply checkpoint_handler_job, _. Qed.

#[export] Instance crawlInternalTx_frames : HandlerFrames prepareInternalTxs (λ _ _, insert_internal).
Proof.
  constructor; [intros s e d; by rewrite prepareInternalTxs_state|].
  intros _ _ w d d'. unfold insert_internal. destruct (forallb _ _); [|done]. by intros [= <-].
Qed.
#[export] Instance crawlInternalTx_job cfg : CheckpointJob cfg EVM_CRAWL_INTERNAL_TX (crawlInternalTx cfg).
Proof. eapply checkpoint_handler_job, _. Qed.
End Jobs.

(** ** Witnesses *)
Definition demo_call (ty : string) (calls : list Call) : Call :=
  mkCall ty (Some "0xa") (Some "0xb") (Some "0xde0b6b3a7640000") (Some "0x") (Some "0x5208") (Some "0x5208") None calls.
Definition demo_trace : Call :=
  demo_call "CALL" [demo_call "DELEGATECALL" [demo_call "CREATE" []; demo_call "CALL" []]; demo_call "STATICCALL" []].
Fixpoint nested (n : nat) : Call :=
  match n with O => demo_call "CALL" [] | S n => demo_call "CALL" [nested n] end.

Definition demo_evm_node (trace : Call) : EvmNode := {|
  getTransactionReceipt hash := if bool_decide (hash = "0x02") then Ok (Some "0xC0DE") else Throw "no receipt";
  debug_traceTransaction hash := Ok (if bool_decide (hash = "0x01") then Some trace else None) |}.
Definition demo_evm_codec : EvmCodec := {|
  toHex b := b;
  JSON_parse_log s := Ok {| lg_address := Some "0xCA"; lg_topics := Some [s; "t1"]; lg_data := None;
                            lg_transactionHash := Some "0x02"; lg_blockHash := Some "0xb1";
                            lg_transactionIndex := Some 0 |} |}.
Definition demo_msg (id tx : Z) (hash : string) (to fee : option string) : TransactionMessage := {|
  m_id := id; m_tx_id := tx; m_type := MSG_ETHEREUM_TX; m_sender := Some "aura_alice";
  m_content := {| ct_hash := Some hash; ct_size := Some "120"; ct_from := Some "0xAA";
                  ct_data := Some {| td_to := to; td_gas := Some "21000"; td_gas_fee_cap := fee;
                                     td_gas_tip_cap := None; td_data := None; td_nonce := Some "7";
                                     td_value := Some "1000000000000000000" |} |} |}.
Definition demo_attr (event tx : Z) (composite_key key value : string) : EventAttribute := {|
  ea_event_id := event; ea_tx_id := Some tx; ea_block_height := 4860001;
  ea_composite_key := composite_key; ea_key := key; ea_value := Some value |}.
Definition demo_evm_db (fee : option string) : Db := {|
  transaction := [ {| t_id := 1; t_height := 4860001; t_index := 0 |} ];
  transaction_message := [ demo_msg 10 1 "0x01" (Some "0xBB") fee; demo_msg 11 1 "0x02" None None ];
  event_attribute := [ demo_attr 5 1 ETHEREUM_TX_ETHEREUM_TX_FAILED "ethereumTxFailed" "out of gas";
                       demo_attr 6 1 "tx_log.txLog" "txLog" "topic" ];
  evm_transaction := []; next_evm_tx_id := 1; evm_event := []; evm_internal_transaction := [];
  block_checkpoint := <["handle:transaction" := 4860002]> ∅ |}.

Definition demo_tx_job (fee : option string) (d : Db) : Db * res () :=
  handleTransactionEVM (N := demo_evm_node demo_trace) (V := demo_evm_codec) (C := DemoCodec.codec)
    (E := DemoEncoding.encoding) Config.json "aura" d.
Definition demo_handled : Db := (demo_tx_job None (demo_evm_db None)).1.

Example demo_rows :
  (λ x, (et_id x, et_tx_msg_id x, et_from x, et_to x, et_contract_address x, et_status x, et_reason x))
    <$> evm_transaction demo_handled
  = [ (1, 10, Some "0xaa", Some "0xbb", None, 0, Some "out of gas");
      (2, 11, Some "0xaa", None, Some "0xc0de", 0, Some "out of gas") ].
Proof. vm_compute. reflexivity. Qed.

Example demo_log :
  (λ x, (ev_evm_tx_id x, ev_address x, ev_topic0 x, ev_topic2 x))
    <$> evm_event (crawlEvmEventHandler (V := demo_evm_codec) (E := DemoEncoding.encoding) Config.json demo_handled).1
  = [ (2, "0xca", Some "topic", None) ].
Proof. vm_compute. reflexivity. Qed.

Example demo_internal :
  (λ x, (it_type_trace_address x, it_value x))
    <$> evm_internal_transaction (crawlInternalTx (N := demo_evm_node demo_trace) Config.json demo_handled).1
  = [ ("CALL[0]_DELEGATECALL", 1000000000000000000); ("CALL[0]_DELEGATECALL[0]_CREATE", 1000000000000000000);
      ("CALL[0]_DELEGATECALL[1]_CALL", 1000000000000000000); ("CALL[1]_STATICCALL", 1000000000000000000) ].
Proof. vm_compute. reflexivity. Qed.

Lemma evm_txs_stored_witness :
  ∃ d' rows, demo_tx_job (Some "1000000000") (demo_evm_db (Some "1000000000")) = (d', Ok tt) ∧
    evm_transaction d' = [] ++ rows ∧ et_id <$> rows = [1; 2].
Proof.
  pose proof (evm_txs_stored (N := demo_evm_node demo_trace) (V := demo_evm_codec) (C := DemoCodec.codec)
    (E := DemoEncoding.encoding) "aura" Config.json (demo_evm_db (Some "1000000000")) 4860000 4860002
    {| job_name := "handle:transaction-evm"; height := 4860000 |}) as H.
  destruct H as (d' & rows & Hrun & Hrows & _ & Hids & _); [reflexivity|lia| |].
  - intros r Hr. vm_compute in Hr.
    assert (r = (demo_msg 10 1 "0x01" (Some "0xBB") (Some "1000000000"), {| t_id := 1; t_height := 4860001; t_index := 0 |})
      ∨ r = (demo_msg 11 1 "0x02" None None, {| t_id := 1; t_height := 4860001; t_index := 0 |})) as [->| ->].
    { apply elem_of_cons in Hr as [->|Hr]; [by left|]. apply list_elem_of_singleton in Hr as ->. by right. }
    + constructor; cbn [fst snd].
      * eexists. split; reflexivity.
      * intros f str. rewrite !elem_of_cons, elem_of_nil.
        intros Hf Hs; destruct_or! Hf; try done; subst f; vm_compute in Hs; first [discriminate Hs|injection Hs as <-];
          (eexists; split; [vm_compute; reflexivity|vm_compute; reflexivity]).
      * intros str Hs. vm_compute in Hs. injection Hs as <-. eexists. split; [vm_compute; reflexivity|vm_compute; reflexivity].
      * intros str Hs. vm_compute in Hs. discriminate Hs.
      * eexists. split; [vm_compute; reflexivity|vm_compute; reflexivity].
      * split; [vm_compute; reflexivity|vm_compute; reflexivity].
      * intros h Hs. vm_compute in Hs. discriminate Hs.
    + constructor; cbn [fst snd].
      * eexists. split; reflexivity.
      * intros f str. rewrite !elem_of_cons, elem_of_nil.
        intros Hf Hs; destruct_or! Hf; try done; subst f; vm_compute in Hs; first [discriminate Hs|injection Hs as <-];
          (eexists; split; [vm_compute; reflexivity|vm_compute; reflexivity]).
      * intros str Hs. vm_compute in Hs. injection Hs as <-. eexists. split; [vm_compute; reflexivity|vm_compute; reflexivity].
      * intros str Hs. vm_compute in Hs. discriminate Hs.
      * eexists. split; [vm_compute; reflexivity|vm_compute; reflexivity].
      * split; [vm_compute; reflexivity|vm_compute; reflexivity].
      * intros h _ [= <-]. eexists. split; [vm_compute; reflexivity|vm_compute; reflexivity].
  - exists d', rows. split; [exact Hrun|]. split; [exact Hrows|]. rewrite Hids. reflexivity.
Defined.

Lemma large_fee_stops_job_witness :
  ∃ msg, demo_tx_job (Some "9223372036854775808") (demo_evm_db (Some "9223372036854775808"))
         = (demo_evm_db (Some "9223372036854775808"), Throw msg).
Proof.
  apply (large_fee_stops_job (N := demo_evm_node demo_trace) (V := demo_evm_codec) (C := DemoCodec.codec)
    (E := DemoEncoding.encoding) "aura" Config.json (demo_evm_db (Some "9223372036854775808")) 4860000 4860002
    {| job_name := "handle:transaction-evm"; height := 4860000 |}
    (demo_msg 10 1 "0x01" (Some "0xBB") (Some "9223372036854775808"), {| t_id := 1; t_height := 4860001; t_index := 0 |})
    "9223372036854775808" (2 ^ 63)); [reflexivity|lia| |reflexivity..|lia].
  vm_compute. left.
Defined.

Lemma failure_shared_witness :
  ∃ y, y ∈ evm_transaction demo_handled ∧ et_tx_msg_id y = 11 ∧ et_status y = 0 ∧ et_reason y = Some "out of gas".
Proof.
  apply (failure_shared (N := demo_evm_node demo_trace) (V := demo_evm_codec) (C := DemoCodec.codec)
    (E := DemoEncoding.encoding) "aura" Config.json (demo_evm_db None) demo_handled 4860000 4860002
    {| job_name := "handle:transaction-evm"; height := 4860000 |}
    (demo_attr 5 1 ETHEREUM_TX_ETHEREUM_TX_FAILED "ethereumTxFailed" "out of gas")
    (demo_msg 11 1 "0x02" None None, {| t_id := 1; t_height := 4860001; t_index := 0 |}));
    [reflexivity|lia|vm_compute; reflexivity|vm_compute; reflexivity|].
  vm_compute. right. left.
Defined.

Lemma demo_log_complete : complete_log (V := demo_evm_codec) (E := DemoEncoding.encoding)
  (demo_attr 6 1 "tx_log.txLog" "txLog" "topic").
Proof.
  intros i. exists {| ev_evm_tx_id := i; ev_tx_id := 1; ev_address := "0xca"; ev_topic0 := Some "topic";
    ev_topic1 := Some "t1"; ev_topic2 := None; ev_topic3 := None; ev_data := None; ev_block_height := 4860001;
    ev_tx_hash := "0x02"; ev_block_hash := "0xb1"; ev_tx_index := 0 |}.
  split; [|reflexivity]. by exists {| lg_address := Some "0xCA"; lg_topics := Some ["topic"; "t1"]; lg_data := None;
    lg_transactionHash := Some "0x02"; lg_blockHash := Some "0xb1"; lg_transactionIndex := Some 0 |},
    "0xCA", ["topic"; "t1"], "0x02", "0xb1", 0.
Qed.

Lemma evm_events_stored_witness :
  ∃ d' rows, crawlEvmEventHandler (V := demo_evm_codec) (E := DemoEncoding.encoding) Config.json demo_handled = (d', Ok tt) ∧
    evm_event d' = [] ++ rows ∧ length rows = 1%nat.
Proof.
  destruct (evm_events_stored (V := demo_evm_codec) (E := DemoEncoding.encoding) Config.json demo_handled 4860000 4860002
    {| job_name := "job:crawl-evm-event"; height := 4860000 |}) as (d' & rows & Hrun & Hrows & Hall & _); [reflexivity| |].
  - intros a Ha. assert (a = demo_attr 6 1 "tx_log.txLog" "txLog" "topic") as ->.
    { vm_compute in Ha. by apply list_elem_of_singleton in Ha. }
    split; [apply demo_log_complete|]. exists 1. split; [reflexivity|]. vm_compute. by eexists.
  - exists d', rows. split; [exact Hrun|]. split; [exact Hrows|]. symmetry. exact (Forall2_length _ _ _ Hall).
Defined.

Lemma demo_evm_inv : evm_inv Config.json (demo_evm_db None).
Proof.
  split; [|split].
  - intros a Ha Hkey. unfold demo_evm_db in Ha. cbn [event_attribute] in Ha.
    apply elem_of_cons in Ha as [->|Ha%list_elem_of_singleton]; [done|]. subst a. split; [done|].
    exists (demo_msg 10 1 "0x01" (Some "0xBB") None, {| t_id := 1; t_height := 4860001; t_index := 0 |}).
    split; [vm_compute; left|done].
  - intros r _ Hh. change (handled_to Config.json (demo_evm_db None)) with 4860000 in Hh. simpl in Hh. lia.
  - vm_compute. done.
Qed.

Lemma logs_find_their_tx_witness :
  ∃ tx_id x, Some 1 = Some tx_id ∧ last_evm_tx 4860000 4860002 demo_handled tx_id = Some x ∧ et_tx_id x = tx_id.
Proof.
  apply (logs_find_their_tx (N := demo_evm_node demo_trace) (V := demo_evm_codec) (C := DemoCodec.codec)
    (E := DemoEncoding.encoding) "aura" Config.json (demo_evm_db None) demo_handled 4860000 4860002
    {| job_name := "job:crawl-evm-event"; height := 4860000 |} (demo_attr 6 1 "tx_log.txLog" "txLog" "topic")).
  - exact demo_evm_inv.
  - apply rtc_once. constructor.
  - reflexivity.
  - vm_compute. done.
  - vm_compute. left.
Defined.

Lemma internal_txs_stored_witness :
  ∃ rows, evm_internal_transaction (crawlInternalTx (N := demo_evm_node demo_trace) Config.json demo_handled).1
          = [] ++ concat rows ∧ length rows = 2%nat.
Proof.
  destruct (internal_txs_stored (N := demo_evm_node demo_trace) Config.json demo_handled
    (crawlInternalTx (N := demo_evm_node demo_trace) Config.json demo_handled).1 4860000 4860002
    {| job_name := "crawl:crawl-internal-tx"; height := 4860000 |}) as (_ & rows & Hrows & Hall);
    [reflexivity|lia|vm_compute; reflexivity|].
  exists rows. split; [exact Hrows|]. symmetry. exact (Forall2_length _ _ _ Hall).
Defined.

Lemma trace_addresses_unique_witness :
  ∃ rows, buildEvmInternalTransaction demo_trace 1 = Ok rows ∧
    (λ r, trace_indices (it_type_trace_address r)) <$> rows = [[0]; [0; 0]; [0; 1]; [1]].
Proof.
  eexists. split; [vm_compute; reflexivity|].
  apply (trace_addresses_unique demo_trace 1); vm_compute; reflexivity.
Defined.

Lemma deep_trace_stops_job_witness :
  ∃ msg, crawlInternalTx (N := demo_evm_node (nested 32)) Config.json demo_handled = (demo_handled, Throw msg).
Proof.
  apply (deep_trace_stops_job (N := demo_evm_node (nested 32)) Config.json demo_handled 4860000 4860002
    {| job_name := "crawl:crawl-internal-tx"; height := 4860000 |}
    (hd (set_id 0 (hd (set_id 0 (Build_EVMTransaction 0 0 0 0 "" None None None None None None None None None 0 0 None None)) []))
        (evm_transaction demo_handled))
    (nested 32) (repeat 0 32, demo_call "CALL" [])); [reflexivity|lia|vm_compute; left|vm_compute; split; done|
      reflexivity|reflexivity| |vm_compute; lia].
  apply list_elem_of_In. apply (List.nth_error_In _ 31). vm_compute. reflexivity.
Defined.
