(* ===== verification/EvmContracts.v ===== *)
(** * EVM contracts

    [services/evm/helpers/contract_helper.ts]: how a proxy is told from its
    code and storage; [services/evm/crawl_contract_evm.service.ts]: the
    contracts that the transactions of a range mention get a row in
    [evm_smart_contract].

    The code and storage of a contract, the selectors found in its code and
    keccak256 are parameters; the rows come in the order in which the requests
    to the node settle. *)
From Stdlib Require Import Ascii.
From S2P Require Import Prelude JsNum Checkpoint EvmTx.

(** ** Data *)
Record EVMSmartContract := {
  sc_id : Z; sc_address : string; sc_creator : option string; sc_created_height : option Z;
  sc_created_hash : option string; sc_type : option string; sc_code_hash : option string }.

Module TYPES.
Definition ERC20 := "ERC20".
Definition ERC721 := "ERC721".
Definition ERC1155 := "ERC1155".
Definition PROXY_EIP_1967 := "PROXY_EIP_1967".
Definition PROXY_EIP_1822 := "PROXY_EIP_1822".
Definition PROXY_OPEN_ZEPPELIN_IMPLEMENTATION := "PROXY_OPEN_ZEPPELIN_IMPLEMENTATION".
End TYPES.

Record EvmProxyHistory := {
  ph_id : Z; ph_proxy_contract : string; ph_implementation_contract : option string;
  ph_block_height : option Z; ph_tx_hash : string; ph_last_updated_height : option Z }.

Record Db := {
  evm_transaction : list EVMTransaction;
  evm_event : list EvmEvent;
  evm_internal_transaction : list EvmInternalTransaction;
  evm_smart_contract : list EVMSmartContract;
  next_contract_id : Z;
  verify_jobs : list string;
  evm_proxy_history : list EvmProxyHistory;
  next_history_id : Z;
  (** the id and the address of the contracts registered as tokens *)
  erc20_contract : list (Z * string);
  erc721_contract : list (Z * string);
  block_checkpoint : gmap string Z
}.

Definition set_contracts (l : list EVMSmartContract) (next : Z) (d : Db) : Db := {|
  evm_transaction := evm_transaction d; evm_event := evm_event d;
  evm_internal_transaction := evm_internal_transaction d; evm_smart_contract := l; next_contract_id := next;
  verify_jobs := verify_jobs d; evm_proxy_history := evm_proxy_history d; next_history_id := next_history_id d;
  erc20_contract := erc20_contract d; erc721_contract := erc721_contract d; block_checkpoint := block_checkpoint d |}.
Definition set_verify_jobs (l : list string) (d : Db) : Db := {|
  evm_transaction := evm_transaction d; evm_event := evm_event d;
  evm_internal_transaction := evm_internal_transaction d; evm_smart_contract := evm_smart_contract d;
  next_contract_id := next_contract_id d; verify_jobs := l;
  evm_proxy_history := evm_proxy_history d; next_history_id := next_history_id d;
  erc20_contract := erc20_contract d; erc721_contract := erc721_contract d; block_checkpoint := block_checkpoint d |}.
Definition set_histories (l : list EvmProxyHistory) (next : Z) (d : Db) : Db := {|
  evm_transaction := evm_transaction d; evm_event := evm_event d;
  evm_internal_transaction := evm_internal_transaction d; evm_smart_contract := evm_smart_contract d;
  next_contract_id := next_contract_id d; verify_jobs := verify_jobs d;
  evm_proxy_history := l; next_history_id := next;
  erc20_contract := erc20_contract d; erc721_contract := erc721_contract d; block_checkpoint := block_checkpoint d |}.
Definition set_tokens (l20 l721 : list (Z * string)) (d : Db) : Db := {|
  evm_transaction := evm_transaction d; evm_event := evm_event d;
  evm_internal_transaction := evm_internal_transaction d; evm_smart_contract := evm_smart_contract d;
  next_contract_id := next_contract_id d; verify_jobs := verify_jobs d;
  evm_proxy_history := evm_proxy_history d; next_history_id := next_history_id d;
  erc20_contract := l20; erc721_contract := l721; block_checkpoint := block_checkpoint d |}.

#[export] Instance Db_checkpoints : HasCheckpoints Db := block_checkpoint.
#[export] Program Instance Db_set_checkpoints : SetCheckpoints Db := {|
  set_checkpoints t d := {|
    evm_transaction := evm_transaction d; evm_event := evm_event d;
    evm_internal_transaction := evm_internal_transaction d; evm_smart_contract := evm_smart_contract d;
    next_contract_id := next_contract_id d; verify_jobs := verify_jobs d;
    evm_proxy_history := evm_proxy_history d; next_history_id := next_history_id d;
    erc20_contract := erc20_contract d; erc721_contract := erc721_contract d; block_checkpoint := t |}
|}.
Next Obligation. done. Qed.

(** An address of an internal transaction can be missing, so requests are made
    with addresses that may be [null]. *)
Class ContractNode := {
  getBytecode : option string → res (option string);
  (** address, slot, block number *)
  getStorageAt : option string → string → option Z → res (option string);
  getBlockNumber : res Z
}.
Class CodeTools := {
  selectorsFromBytecode : string → list string;
  (** of the bytes of a text, and of the bytes a hexadecimal text stands for *)
  keccak256_text : string → string;
  keccak256_hex : string → string
}.

(** ** Text *)

(** [s.includes(sub)], [s.startsWith(p)], [s.slice(2, 10)] and [s.slice(-40)] *)
Definition includes (s sub : string) : bool := match String.index 0 sub s with Some _ => true | None => false end.
Definition startsWith (s p : string) : bool := String.prefix p s.
Definition slice_2_10 (s : string) : string := String.substring 2 8 s.
Definition slice_last_40 (s : string) : string :=
  String.substring (String.length s - 40) 40 s.

(** ** contract_helper.ts *)
Definition NULL_BYTE_CODE := "0x0000000000000000000000000000000000000000000000000000000000000000".
Definition ZERO_ADDRESS := "0x0000000000000000000000000000000000000000".
Definition EVM_PREFIX := "0x".
Definition EVM_DEFAULT_SLOT_BYTE_CODE_LENGTH : nat := 66.

(** Slot and type of the proxies that are supported. *)
Definition EIP_1967_IMPLEMENTATION :=
  ("360894a13ba1a3210667c828492db98dca3e2076cc3735a920a3ca505d382bbc", TYPES.PROXY_EIP_1967).
Definition EIP_1822_IMPLEMENTATION :=
  ("c5f16f0fcc639fa48a6947836d9850f504798523bf8c9a3a87d5876cf622bcf7", TYPES.PROXY_EIP_1822).
Definition OPEN_ZEPPELIN_IMPLEMENTATION :=
  ("7050c9e0f4ca769c69bd3a8ef740bc37934f8e2c036e5a723fd8ee048ed3f8c3", TYPES.PROXY_OPEN_ZEPPELIN_IMPLEMENTATION).
Definition EIPProxyContractSupportByteCode : list (string * string) :=
  [EIP_1967_IMPLEMENTATION; EIP_1822_IMPLEMENTATION; OPEN_ZEPPELIN_IMPLEMENTATION].

Record DetectEVMProxyContract := { logicContractAddress : string; EIP : option string }.

Section Helper.
Context {N : ContractNode}.

(** [blockHeight ? BigInt(blockHeight) : undefined] *)
Definition block_number (blockHeight : option string) : res (option Z) :=
  match if_text blockHeight id with
  | Some s => z ← BigInt s; Ok (Some z)
  | None => Ok None
  end.

Definition detectProxyContractByByteCode (contractAddress : option string) (byteCode byteCodeSlot : string)
    (blockHeight : option string) : res DetectEVMProxyContract :=
  if negb (includes byteCode byteCodeSlot) then Throw "Not proxy contract!" else
  blockNumber ← block_number blockHeight;
  storageSlotValue ← getStorageAt contractAddress (EVM_PREFIX +:+ byteCodeSlot)%string blockNumber;
  match storageSlotValue with
  | None => Throw "Invalid contract address!"
  | Some v =>
      if bool_decide (v = "0x") || bool_decide (v = NULL_BYTE_CODE) then Throw "Invalid contract address!" else
      let logicAddress :=
        if bool_decide (String.length v = EVM_DEFAULT_SLOT_BYTE_CODE_LENGTH)
        then (EVM_PREFIX +:+ slice_last_40 v)%string else v in
      if bool_decide (logicAddress = ZERO_ADDRESS) then Throw "Zero contract detected!" else
      Ok {| logicContractAddress := logicAddress;
            EIP := snd <$> find (λ val : string * string, bool_decide (val.1 = byteCodeSlot))
                             EIPProxyContractSupportByteCode |}
  end.

Definition fulfilled {A} (m : res A) : option A := match m with Ok a => Some a | Throw _ => None end.

(** [Promise.any]: the first one to be fulfilled. *)
Definition Promise_any {S : Settling} {A} (l : list (res A)) : option A := head (omap fulfilled (settled l)).

Definition isContractProxy {S : Settling} (contractAddress : option string)
    (blockHeight byteCodeSlot : option string) : res (option DetectEVMProxyContract) :=
  byteCode ← getBytecode contractAddress;
  match if_text byteCode id with
  | None => Ok None
  | Some byteCode =>
      match if_text byteCodeSlot id with
      | Some slot => Ok (fulfilled (detectProxyContractByByteCode contractAddress byteCode slot blockHeight))
      | None =>
          Ok (Promise_any ((λ val : string * string,
                              detectProxyContractByByteCode contractAddress byteCode val.1 blockHeight)
                           <$> EIPProxyContractSupportByteCode))
      end
  end.
End Helper.

(** ** crawl_contract_evm.service.ts *)
Definition ABI_CHECK_INTERFACE_ERC_721 := [
  "balanceOf(address)"; "ownerOf(uint256)"; "safeTransferFrom(address,address,uint256)";
  "transferFrom(address,address,uint256)"; "approve(address,uint256)"; "getApproved(uint256)";
  "setApprovalForAll(address,bool)"; "isApprovedForAll(address,address)";
  "safeTransferFrom(address,address,uint256,bytes)" ].
Definition ABI_CHECK_INTERFACE_ERC_20 := [
  "totalSupply()"; "balanceOf(address)"; "transfer(address,uint256)"; "allowance(address,address)";
  "approve(address,uint256)"; "transferFrom(address,address,uint256)" ].
Definition ABI_CHECK_INTERFACE_ERC_1155 := [
  "safeTransferFrom(address,address,uint256,uint256,bytes)";
  "safeBatchTransferFrom(address,address,uint256[],uint256[],bytes)";
  "balanceOf(address,uint256)"; "balanceOfBatch(address[],uint256[])";
  "setApprovalForAll(address,bool)"; "isApprovedForAll(address,address)" ].
Definition CREATE_CONTRACT := "60806040".

Section Service.
Context {N : ContractNode} {K : CodeTools} {S : Settling}.

Definition implements (selectors interface : list string) : bool :=
  forallb (λ method, bool_decide (slice_2_10 (keccak256_text method) ∈ selectors)) interface.

Definition detectContractTypeByCode (code : string) : option string :=
  let selectors := slice_2_10 <$> selectorsFromBytecode code in
  if implements selectors ABI_CHECK_INTERFACE_ERC_20 then Some TYPES.ERC20
  else if implements selectors ABI_CHECK_INTERFACE_ERC_721 then Some TYPES.ERC721
  else if implements selectors ABI_CHECK_INTERFACE_ERC_1155 then Some TYPES.ERC1155
  else None.

(** The transactions of a range, and the addresses one of them mentions. *)
Definition evmTxs (startBlock endBlock : Z) (d : Db) : list EVMTransaction :=
  sortBy et_id (filter (λ t, startBlock < et_height t <= endBlock) (evm_transaction d)).

Definition party_addresses (t : EVMTransaction) : list (option string) :=
  omap (λ o, match o with
             | Some s => if startsWith s "0x" then Some (Some s) else None
             | None => None
             end) [et_from t; et_to t; et_contract_address t].
Definition event_addresses (d : Db) (t : EVMTransaction) : list (option string) :=
  (λ x, Some (ev_address x)) <$> filter (λ x, ev_evm_tx_id x = et_id t) (evm_event d).
Definition creations (d : Db) (t : EVMTransaction) : list (option string) :=
  it_to <$> filter (λ x, it_evm_tx_id x = et_id t ∧ (it_type x = "CREATE" ∨ it_type x = "CREATE2"))
              (evm_internal_transaction d).

Definition currentAddresses (d : Db) (t : EVMTransaction) : list (option string) :=
  uniq (party_addresses t ++ event_addresses d t ++ creations d t).

(** A property name of an object: [null] becomes a text. *)
Definition property_key (a : option string) : string := default "null" a.

Definition addressesWithTx (d : Db) (txs : list EVMTransaction) : gmap string (list (option string)) :=
  foldl (λ m t, <[et_hash t := currentAddresses d t]> m) ∅ txs.
Definition isCreationInternalContracts (d : Db) (txs : list EVMTransaction) : gset string :=
  list_to_set (property_key <$> (txs ≫= creations d)).

Definition known_contract (d : Db) (a : option string) : bool :=
  match a with Some s => bool_decide (s ∈ sc_address <$> evm_smart_contract d) | None => false end.

(** Whether the code takes the transaction for the one that created [address]. *)
Definition creates (internal : gset string) (t : EVMTransaction) (address : option string) : bool :=
  match if_text (et_data t) id with
  | Some data => startsWith data CREATE_CONTRACT || truthy_str (et_contract_address t) ||
                 bool_decide (property_key address ∈ internal)
  | None => false
  end.

(** The schema of the table coerces an address that is [null] to a text. *)
Definition contract_of (internal : gset string) (t : EVMTransaction) (address : option string)
  : res (option EVMSmartContract) :=
  code ← getBytecode address;
  match if_text code id with
  | None => Ok None
  | Some code =>
      implementContractInfo ← isContractProxy address None None;
      let ty := match implementContractInfo with
                | Some info => EIP info
                | None => detectContractTypeByCode code
                end in
      let created := creates internal t address in
      Ok (Some {| sc_id := 0; sc_address := default "" address;
                  sc_creator := if created then et_from t else None;
                  sc_created_height := if created then Some (et_height t) else None;
                  sc_created_hash := if created then Some (et_hash t) else None;
                  sc_type := ty; sc_code_hash := Some (keccak256_hex code) |})
  end.

(** The requests: one per transaction and address it mentions that is not
    known. *)
Definition requests (d : Db) (txs : list EVMTransaction) : list (EVMTransaction * option string) :=
  txs ≫= λ t, (λ a, (t, a)) <$>
    filter (λ a, known_contract d a = false) (default [] (addressesWithTx d txs !! et_hash t)).

Definition prepareContracts (startBlock endBlock : Z) : io Db (list EVMSmartContract) :=
  txs ← query (evmTxs startBlock endBlock);
  reqs ← query (λ d, requests d txs);
  internal ← query (λ d, isCreationInternalContracts d txs);
  contracts ← lift (mapR (λ r : EVMTransaction * option string, contract_of internal r.1 r.2) reqs);
  mret (uniqBy sc_address (omap id (settled contracts))).

Definition set_contract_id (i : Z) (c : EVMSmartContract) : EVMSmartContract := {|
  sc_id := i; sc_address := sc_address c; sc_creator := sc_creator c; sc_created_height := sc_created_height c;
  sc_created_hash := sc_created_hash c; sc_type := sc_type c; sc_code_hash := sc_code_hash c |}.

(** The address is a unique column. *)
Definition insert_contracts (newEvmContracts : list EVMSmartContract) (d : Db) : res Db :=
  if forallb (λ c, negb (bool_decide (sc_address c ∈ sc_address <$> evm_smart_contract d))) newEvmContracts
  then Ok (set_contracts (evm_smart_contract d ++ serial set_contract_id (next_contract_id d) newEvmContracts)
             (next_contract_id d + Z.of_nat (length newEvmContracts)) d)
  else Throw "duplicate key value violates unique constraint".

(** The verification job of a code; a job that waits under the id stays. *)
Definition add_verify_job (jobs : list string) (codehash : option string) : list string :=
  match codehash with
  | Some h => if bool_decide (h ∈ jobs) then jobs else jobs ++ [h]
  | None => jobs
  end.
Definition request_verification (newEvmContracts : list EVMSmartContract) : io Db () :=
  update (λ d, set_verify_jobs (foldl add_verify_job (verify_jobs d) (sc_code_hash <$> newEvmContracts)) d).

Definition crawlContracts (cfg : Config.t) : io Db () :=
  checkpoint_handler_then cfg CRAWL_SMART_CONTRACT_EVM prepareContracts (λ _ _, insert_contracts)
    request_verification.
End Service.

(** ** What proxy detection promises *)

(** The address a slot holds. *)
Definition logic_of (v : string) : string :=
  if bool_decide (String.length v = EVM_DEFAULT_SLOT_BYTE_CODE_LENGTH)
  then (EVM_PREFIX +:+ slice_last_40 v)%string else v.
Definition empty_slot (v : string) : Prop :=
  v = "0x" ∨ v = NULL_BYTE_CODE ∨ logic_of v = ZERO_ADDRESS.


Lemma elem_of_omap_fulfilled {A} (l : list (res A)) a : a ∈ omap fulfilled l ↔ Ok a ∈ l.
Proof.
  rewrite list_elem_of_omap. split.
  - intros ([x|msg] & Hx & Ha); [|done]. by injection Ha as ->.
  - intros Hx. by exists (Ok a).
Qed.

Section Detection.
Context {N : ContractNode}.

(** The slot occurs in the code and holds an implementation. *)
Definition slot_holds (a : option string) (code slot : string) (n : option Z) (v : string) : Prop :=
  includes code slot = true ∧ getStorageAt a (EVM_PREFIX +:+ slot)%string n = Ok (Some v) ∧ ¬ empty_slot v.

Lemma detect_Ok a code slot h info :
  detectProxyContractByByteCode a code slot h = Ok info ↔
  ∃ n v, block_number h = Ok n ∧ slot_holds a code slot n v ∧
    info = {| logicContractAddress := logic_of v;
              EIP := snd <$> find (λ val : string * string, bool_decide (val.1 = slot))
                               EIPProxyContractSupportByteCode |}.
Proof.
  unfold detectProxyContractByByteCode, slot_holds, empty_slot.
  destruct (includes code slot); cbn [negb]; [|split; [done|by intros (? & ? & _ & [? _] & _)]].
  destruct (block_number h) as [n|msg]; cbn [mbind res_bind]; [|split; [done|by intros (? & ? & ? & _)]].
  destruct (getStorageAt a _ n) as [[v|]|msg] eqn:Hv; cbn [mbind res_bind];
    [|split; [done|by intros (? & ? & [= <-] & (_ & ? & _) & _); congruence]..].
  fold (logic_of v). split.
  - destruct (bool_decide (v = "0x") || bool_decide (v = NULL_BYTE_CODE)) eqn:He; [done|].
    destruct (bool_decide (logic_of v = ZERO_ADDRESS)) eqn:Hz; [done|]. intros [= <-].
    apply orb_false_iff in He as [?%bool_decide_eq_false ?%bool_decide_eq_false].
    apply bool_decide_eq_false in Hz. exists n, v. rewrite Hv. naive_solver.
  - intros (n' & v' & [= <-] & (_ & Hv' & Hne) & ->). rewrite Hv in Hv'. injection Hv' as <-.
    rewrite (bool_decide_eq_false_2 (v = "0x")), (bool_decide_eq_false_2 (v = NULL_BYTE_CODE)),
      (bool_decide_eq_false_2 (logic_of v = ZERO_ADDRESS)) by naive_solver. done.
Qed.

Lemma Promise_any_Some {S : Settling} `{!SettlingLaws S} {A} (l : list (res A)) a :
  Promise_any l = Some a → Ok a ∈ l.
Proof.
  intros Ha. apply head_Some_elem_of, elem_of_omap_fulfilled in Ha. by rewrite settled_perm in Ha.
Qed.

Lemma Promise_any_None {S : Settling} `{!SettlingLaws S} {A} (l : list (res A)) :
  Promise_any l = None ↔ ∀ a, Ok a ∉ l.
Proof.
  unfold Promise_any. rewrite head_None. split.
  - intros Hn a Ha. rewrite <-(settled_perm l), <-elem_of_omap_fulfilled, Hn in Ha. by apply not_elem_of_nil in Ha.
  - intros Hn. apply elem_of_nil_inv. intros a Ha%elem_of_omap_fulfilled. rewrite settled_perm in Ha. by eapply Hn.
Qed.

(** When the node answers, a contract with code is a proxy exactly when one
    of the supported slots occurs in its code and holds an implementation; the
    answer is the address and the type of such a slot.  When one slot alone
    qualifies the answer does not depend on the order in which the requests
    settle. *)
Theorem proxy_detected {S : Settling} `{!SettlingLaws S} (a : option string) code :
  getBytecode a = Ok (Some code) → code ≠ "" →
  ∃ r, isContractProxy a None None = Ok r ∧
    match r with
    | Some info => ∃ slot ty v, (slot, ty) ∈ EIPProxyContractSupportByteCode ∧ slot_holds a code slot None v ∧
                     info = {| logicContractAddress := logic_of v; EIP := Some ty |}
    | None => ∀ slot ty v, (slot, ty) ∈ EIPProxyContractSupportByteCode → ¬ slot_holds a code slot None v
    end ∧
    (∀ slot ty v, (slot, ty) ∈ EIPProxyContractSupportByteCode → slot_holds a code slot None v →
       (∀ slot' ty' v', (slot', ty') ∈ EIPProxyContractSupportByteCode → slot_holds a code slot' None v' → slot' = slot) →
       r = Some {| logicContractAddress := logic_of v; EIP := Some ty |}).
Proof.
  intros Hcode Hne. unfold isContractProxy. rewrite Hcode. cbn [mbind res_bind].
  rewrite if_text_Some by done. eexists. split; [done|].
  assert (∀ slot ty, (slot, ty) ∈ EIPProxyContractSupportByteCode →
    snd <$> find (λ val : string * string, bool_decide (val.1 = slot)) EIPProxyContractSupportByteCode = Some ty) as Hfind.
  { intros slot ty Hin. repeat (apply elem_of_cons in Hin as [[= -> ->]|Hin]; [done|]). by apply not_elem_of_nil in Hin. }
  set (l := _ <$> EIPProxyContractSupportByteCode).
  assert (∀ info, Ok info ∈ l ↔ ∃ slot ty v, (slot, ty) ∈ EIPProxyContractSupportByteCode ∧ slot_holds a code slot None v ∧
                     info = {| logicContractAddress := logic_of v; EIP := Some ty |}) as Hl.
  { intros info. unfold l. rewrite list_elem_of_fmap. split.
    - intros ([slot ty] & Hd%symmetry & Hin). apply detect_Ok in Hd as (n & v & [= <-] & Hs & ->).
      cbn [fst] in *. rewrite (Hfind _ _ Hin). eauto 10.
    - intros (slot & ty & v & Hin & Hs & ->). exists (slot, ty). split; [|done].
      cbn [fst]. symmetry. apply detect_Ok. exists None, v. by rewrite (Hfind _ _ Hin). }
  destruct (Promise_any l) as [info|] eqn:Hp; split.
  - by apply Hl, Promise_any_Some.
  - intros slot ty v Hin Hs Huniq.
    apply Promise_any_Some, Hl in Hp as (slot' & ty' & v' & Hin' & Hs' & ->).
    pose proof (Huniq _ _ _ Hin' Hs') as ->. pose proof (Hfind _ _ Hin) as H1. rewrite (Hfind _ _ Hin') in H1.
    destruct Hs as (_ & Hv & _), Hs' as (_ & Hv' & _). congruence.
  - intros slot ty v Hin Hs. rewrite Promise_any_None in Hp. apply (Hp _ (proj2 (Hl _) ltac:(eauto 10))).
  - intros slot ty v Hin Hs _. rewrite Promise_any_None in Hp.
    destruct (Hp _ (proj2 (Hl _) ltac:(eauto 10))).
Qed.
End Detection.

(** ** What the contract job promises *)
Section Recorded.
Context {N : ContractNode} {K : CodeTools} {S : Settling}.

Lemma known_contract_Some d a :
  known_contract d (Some a) = false ↔ a ∉ sc_address <$> evm_smart_contract d.
Proof. simpl. by rewrite bool_decide_eq_false. Qed.

Lemma elem_of_evmTxs s e d t : t ∈ evmTxs s e d ↔ t ∈ evm_transaction d ∧ between s e (et_height t).
Proof. unfold evmTxs. rewrite sortBy_perm, list_elem_of_filter. unfold between. tauto. Qed.

Lemma addressesWithTx_lookup d txs t :
  NoDup (et_hash <$> txs) → t ∈ txs → addressesWithTx d txs !! et_hash t = Some (currentAddresses d t).
Proof.
  unfold addressesWithTx. induction txs as [|t' txs IH] using rev_ind; [by intros _ ?%not_elem_of_nil|].
  rewrite fmap_app, NoDup_app, elem_of_app, list_elem_of_singleton, foldl_app. simpl.
  intros (Hnd & Hdis & _) [Ht| ->]; [|by rewrite lookup_insert_eq].
  rewrite lookup_insert_ne; [by apply IH|]. intros Heq.
  apply (Hdis (et_hash t)); [by apply list_elem_of_fmap_2|]. rewrite Heq. by apply list_elem_of_singleton.
Qed.

Lemma elem_of_requests d txs t a :
  NoDup (et_hash <$> txs) →
  (t, a) ∈ requests d txs ↔ t ∈ txs ∧ a ∈ currentAddresses d t ∧ known_contract d a = false.
Proof.
  intros Hnd. unfold requests. rewrite list_elem_of_bind. split.
  - intros (t' & Hin & Ht'). apply list_elem_of_fmap in Hin as (a' & [= <- <-] & Ha).
    rewrite (addressesWithTx_lookup _ _ _ Hnd Ht') in Ha. apply list_elem_of_filter in Ha as [? ?]. done.
  - intros (Ht & Ha & Hk). exists t. split; [|done]. apply list_elem_of_fmap. exists a. split; [done|].
    rewrite (addressesWithTx_lookup _ _ _ Hnd Ht). by apply list_elem_of_filter.
Qed.

(** The row of a contract, as a transaction that mentions it describes it. *)
Definition describes (internal : gset string) (t : EVMTransaction) (c : EVMSmartContract) : Prop :=
  let a := Some (sc_address c) in
  ∃ code, getBytecode a = Ok (Some code) ∧ code ≠ "" ∧ sc_code_hash c = Some (keccak256_hex code) ∧
    sc_type c = match isContractProxy a None None with
                | Ok (Some info) => EIP info
                | _ => detectContractTypeByCode code
                end ∧
    (sc_creator c, sc_created_height c, sc_created_hash c)
    = (if creates internal t a then (et_from t, Some (et_height t), Some (et_hash t)) else (None, None, None)).

Lemma contract_of_Some internal t a c :
  a ≠ None → contract_of internal t a = Ok (Some c) → a = Some (sc_address c) ∧ describes internal t c.
Proof.
  unfold contract_of. intros Ha Hc. apply bind_Ok in Hc as (code & Hcode & Hc).
  destruct code as [code|]; [|done]. destruct (decide (code = "")) as [->|Hne]; [done|].
  rewrite if_text_Some in Hc by done. apply bind_Ok in Hc as (info & Hinfo & Hc).
  destruct a as [a|]; [|done]. injection Hc as <-. split; [done|]. exists code. cbn [sc_address sc_code_hash sc_type].
  split_and!; try done; [by rewrite Hinfo; destruct info|]. by destruct (creates internal t (Some a)).
Qed.

Lemma contract_of_total internal t a :
  (∀ a, ∃ r, getBytecode a = Ok r) → ∃ r, contract_of internal t (Some a) = Ok r ∧
    (r = None ↔ ¬ ∃ code, getBytecode (Some a) = Ok (Some code) ∧ code ≠ "").
Proof.
  intros Htot. destruct (Htot (Some a)) as [code Hcode]. unfold contract_of. rewrite Hcode. cbn [mbind res_bind].
  destruct code as [code|]; [|simpl; exists None; naive_solver].
  destruct (decide (code = "")) as [->|Hne]; [exists None; naive_solver|]. rewrite if_text_Some by done.
  assert (∃ i, isContractProxy (Some a) None None = Ok i) as [i ->].
  { unfold isContractProxy. rewrite Hcode. cbn [mbind res_bind]. rewrite if_text_Some by done. eauto. }
  cbn [mbind res_bind]. eexists. split; [done|]. split; [done|]. intros Hn. destruct Hn. eauto.
Qed.

Definition new_contract (s e : Z) (d : Db) (a : string) : Prop :=
  a ∉ (sc_address <$> evm_smart_contract d) ∧
  (∃ t, t ∈ evmTxs s e d ∧ Some a ∈ currentAddresses d t) ∧
  ∃ code, getBytecode (Some a) = Ok (Some code) ∧ code ≠ "".

Lemma prepareContracts_state s e d : (prepareContracts s e d).1 = d.
Proof.
  unfold prepareContracts, query, mbind, io_bind, lift. cbn [fst snd].
  by destruct (mapR _ _).
Qed.

(** What the requests of the range answer. *)
Definition answers (s e : Z) (d : Db) (cs : list (option EVMSmartContract)) : Prop :=
  Forall2 (λ (r : EVMTransaction * option string) c,
             contract_of (isCreationInternalContracts d (evmTxs s e d)) r.1 r.2 = Ok c)
    (requests d (evmTxs s e d)) cs.
Definition new_rows (cs : list (option EVMSmartContract)) : list EVMSmartContract :=
  uniqBy sc_address (omap id (settled cs)).

(** The node answers every request, and the addresses of a range are texts. *)
Definition answered (s e : Z) (d : Db) : Prop :=
  (∀ a, ∃ r, getBytecode a = Ok r) ∧ NoDup (et_hash <$> evmTxs s e d) ∧
  ∀ t, t ∈ evmTxs s e d → None ∉ currentAddresses d t.

Lemma prepareContracts_runs s e d :
  answered s e d → ∃ cs, answers s e d cs ∧ prepareContracts s e d = (d, Ok (new_rows cs)).
Proof.
  intros (Htot & Hnd & Hnone). unfold prepareContracts, query, mbind, io_bind, lift, answers.
  set (txs := evmTxs s e d). set (internal := isCreationInternalContracts d txs).
  destruct (mapR_total (λ r : EVMTransaction * option string, contract_of internal r.1 r.2) (requests d txs))
    as [cs Hcs].
  { intros [t [a|]] Hr.
    - destruct (contract_of_total internal t a Htot) as (r & Hr' & _). eauto.
    - apply (elem_of_requests _ _ _ _ Hnd) in Hr as (Ht & Hn & _). by destruct (Hnone _ Ht). }
  rewrite Hcs. exists cs. split; [by apply mapR_Ok|done].
Qed.

Lemma elem_of_answers `{!SettlingLaws S} s e d cs c :
  answers s e d cs →
  (c ∈ omap id (settled cs)) ↔ ∃ t a, (t, a) ∈ requests d (evmTxs s e d) ∧
    contract_of (isCreationInternalContracts d (evmTxs s e d)) t a = Ok (Some c).
Proof.
  intros Hcs. rewrite list_elem_of_omap. setoid_rewrite settled_perm. split.
  - intros (x & Hx & [= ->]). apply list_elem_of_lookup in Hx as [i Hi].
    destruct (Forall2_lookup_r _ _ _ _ _ Hcs Hi) as ([t a] & Ht & Hc). exists t, a.
    split; [by eapply list_elem_of_lookup_2|done].
  - intros (t & a & Hr & Hc). exists (Some c). split; [|done]. apply list_elem_of_lookup in Hr as [i Hi].
    destruct (Forall2_lookup_l _ _ _ _ _ Hcs Hi) as (x & Hx & Hc'). cbn [fst snd] in Hc'.
    rewrite Hc in Hc'. injection Hc' as <-. by eapply list_elem_of_lookup_2.
Qed.

Lemma new_rows_spec `{!SettlingLaws S} s e d cs :
  answered s e d → answers s e d cs →
  (∀ a, a ∈ sc_address <$> new_rows cs ↔ new_contract s e d a) ∧
  ∀ c, c ∈ new_rows cs → ∃ t, t ∈ evmTxs s e d ∧ Some (sc_address c) ∈ currentAddresses d t ∧
    describes (isCreationInternalContracts d (evmTxs s e d)) t c.
Proof.
  intros (Htot & Hnd & Hnone) Hcs. unfold new_rows. split.
  - intros a. rewrite uniqBy_keys, list_elem_of_fmap. setoid_rewrite (elem_of_answers _ _ _ _ _ Hcs). split.
    + intros (c & -> & t & a' & Hr & Hc). apply (elem_of_requests _ _ _ _ Hnd) in Hr as (Ht & Ha & Hk).
      apply contract_of_Some in Hc as [-> (code & Hcode & Hne & _)]; [|by intros ->; eapply Hnone].
      apply known_contract_Some in Hk. split; [done|]. split; [by exists t|]. eauto.
    + intros (Hk & (t & Ht & Ha) & Hcode). apply known_contract_Some in Hk.
      destruct (contract_of_total (isCreationInternalContracts d (evmTxs s e d)) t a Htot) as ([c|] & Hc & Hr);
        [|by destruct (proj1 Hr eq_refl)].
      exists c. split; [by apply contract_of_Some in Hc as [[= ->] _]|]. exists t, (Some a).
      split; [by apply elem_of_requests|done].
  - intros c Hc%uniqBy_sub. apply (elem_of_answers _ _ _ _ _ Hcs) in Hc as (t & a & Hr & Hc).
    apply (elem_of_requests _ _ _ _ Hnd) in Hr as (Ht & Ha & _). apply contract_of_Some in Hc as [-> Hd]; [eauto|].
    by intros ->; eapply Hnone.
Qed.

Lemma add_verify_jobs_elem l jobs h :
  h ∈ foldl add_verify_job jobs l ↔ h ∈ jobs ∨ Some h ∈ l.
Proof.
  revert jobs. induction l as [|o l IH]; intros jobs; simpl.
  - split; [by left|]. intros [?|?%not_elem_of_nil]; done.
  - rewrite IH, elem_of_cons. destruct o as [x|]; simpl; [|naive_solver].
    case_bool_decide; [naive_solver|]. rewrite elem_of_app, list_elem_of_singleton. naive_solver.
Qed.

Lemma serial_addresses next (l : list EVMSmartContract) :
  sc_address <$> serial set_contract_id next l = sc_address <$> l.
Proof. revert next. induction l as [|c l IH]; intros next; [done|]. by rewrite serial_cons, !fmap_cons, IH. Qed.

Lemma serial_code_hashes next (l : list EVMSmartContract) :
  sc_code_hash <$> serial set_contract_id next l = sc_code_hash <$> l.
Proof. revert next. induction l as [|c l IH]; intros next; [done|]. by rewrite serial_cons, !fmap_cons, IH. Qed.

(** A run of the job, given the answers. *)
Lemma crawlContracts_runs `{!SettlingLaws S} cfg d s e u :
  jobCheckpoint cfg CRAWL_SMART_CONTRACT_EVM (checkpoints_of d) = Ok (s, e, u) → s < e → answered s e d →
  ∃ d' cs, crawlContracts cfg d = (d', Ok tt) ∧ answers s e d cs ∧
    evm_smart_contract d' = evm_smart_contract d ++ serial set_contract_id (next_contract_id d) (new_rows cs) ∧
    checkpoints_of d' = saveCheckpoint u e (checkpoints_of d) ∧
    verify_jobs d' = foldl add_verify_job (verify_jobs d) (sc_code_hash <$> new_rows cs).
Proof.
  intros Hj Hse Hans. destruct (prepareContracts_runs s e d Hans) as (cs & Hcs & Hp).
  assert (insert_contracts (new_rows cs) d
    = Ok (set_contracts (evm_smart_contract d ++ serial set_contract_id (next_contract_id d) (new_rows cs))
             (next_contract_id d + Z.of_nat (length (new_rows cs))) d)) as Hw.
  { unfold insert_contracts. rewrite (proj2 (forallb_forall _ _)); [done|]. intros c Hc%list_elem_of_In.
    apply negb_true_iff, bool_decide_eq_false. apply (proj1 (new_rows_spec s e d cs Hans Hcs) (sc_address c)).
    by apply list_elem_of_fmap_2. }
  eexists _, cs. split.
  { unfold crawlContracts. assert (stops (jd_guard CRAWL_SMART_CONTRACT_EVM) s e = false) as Hgo by (simpl; lia).
    rewrite (checkpoint_handler_then_run _ _ _ (λ _ _, insert_contracts) request_verification _ _ _ _ _ _ _ Hj Hgo Hp Hw).
    reflexivity. }
  done.
Qed.

(** A stored row is a new row under its id. *)
Lemma elem_of_serial_rows next (l : list EVMSmartContract) c :
  c ∈ serial set_contract_id next l → ∃ c0, c0 ∈ l ∧ c = set_contract_id (sc_id c) c0.
Proof.
  intros Hc. apply list_elem_of_lookup in Hc as [i Hi].
  destruct (Forall2_lookup_r _ _ _ _ _ (serial_rows set_contract_id sc_id (λ _ _, eq_refl) next l) Hi)
    as (c0 & Hc0 & Heq). exists c0. split; [by eapply list_elem_of_lookup_2|done].
Qed.
Lemma serial_rows_elem next (l : list EVMSmartContract) c0 :
  c0 ∈ l → ∃ i, set_contract_id i c0 ∈ serial set_contract_id next l.
Proof.
  intros Hc. apply list_elem_of_lookup in Hc as [i Hi].
  destruct (Forall2_lookup_l _ _ _ _ _ (serial_rows set_contract_id sc_id (λ _ _, eq_refl) next l) Hi)
    as (c & Hc & Heq). exists (sc_id c). rewrite <-Heq. by eapply list_elem_of_lookup_2.
Qed.

(** Whatever the order in which the node answers, a run of the contract job
    gives one row to every address that a transaction of the range, one of its
    logs or one of its creations mentions, that has code and that is not yet
    known, and to no other address; the row is the description of the contract
    by a transaction that mentions it.  The checkpoint passes the range and the
    verification of every new code is requested. *)
Theorem contracts_recorded `{!SettlingLaws S} cfg d s e u :
  jobCheckpoint cfg CRAWL_SMART_CONTRACT_EVM (checkpoints_of d) = Ok (s, e, u) → s < e → answered s e d →
  ∃ d' rows, crawlContracts cfg d = (d', Ok tt) ∧
    evm_smart_contract d' = evm_smart_contract d ++ rows ∧ NoDup (sc_address <$> rows) ∧
    (∀ a, a ∈ sc_address <$> rows ↔ new_contract s e d a) ∧
    (∀ c, c ∈ rows → ∃ t, t ∈ evmTxs s e d ∧ Some (sc_address c) ∈ currentAddresses d t ∧
       describes (isCreationInternalContracts d (evmTxs s e d)) t c) ∧
    checkpoints_of d' = saveCheckpoint u e (checkpoints_of d) ∧
    (∀ h, h ∈ verify_jobs d' ↔ h ∈ verify_jobs d ∨ Some h ∈ sc_code_hash <$> rows).
Proof.
  intros Hj Hse Hans.
  destruct (crawlContracts_runs cfg d s e u Hj Hse Hans) as (d' & cs & Hrun & Hcs & Hd' & Hc & Hv).
  destruct (new_rows_spec s e d cs Hans Hcs) as [Hnew Hdesc].
  exists d', (serial set_contract_id (next_contract_id d) (new_rows cs)).
  rewrite serial_addresses, serial_code_hashes. split_and!; try done.
  - apply NoDup_uniqBy.
  - intros c Hin. apply elem_of_serial_rows in Hin as (c0 & Hc0 & Heq). revert Heq.
    generalize (sc_id c). intros i ->. by apply (Hdesc c0).
  - intros h. rewrite Hv. apply add_verify_jobs_elem.
Qed.

(** An internal creation that failed has no address in the trace; when the
    node rejects a request for the code of no address, the first such creation
    of a range stops the contract job: every run throws and changes nothing. *)
Theorem failed_creation_stops_job cfg d s e u t x msg :
  jobCheckpoint cfg CRAWL_SMART_CONTRACT_EVM (checkpoints_of d) = Ok (s, e, u) → s < e →
  t ∈ evm_transaction d → s < et_height t <= e → NoDup (et_hash <$> evmTxs s e d) →
  x ∈ evm_internal_transaction d → it_evm_tx_id x = et_id t → it_type x = "CREATE" ∨ it_type x = "CREATE2" →
  it_to x = None → getBytecode None = Throw msg →
  ∃ msg', crawlContracts cfg d = (d, Throw msg').
Proof.
  intros Hj Hse Ht Hin Hnd Hx Hid Hty Hto Hcode.
  assert (∃ msg', prepareContracts s e d = (d, Throw msg')) as [msg' Hp].
  { unfold prepareContracts, query, mbind, io_bind, lift.
    destruct (mapR _ (requests d (evmTxs s e d))) as [cs|msg'] eqn:Hm; [|by exists msg'].
    apply mapR_Ok in Hm. assert ((t, None) ∈ requests d (evmTxs s e d)) as Hr.
    { apply elem_of_requests; [done|]. split; [by apply elem_of_evmTxs|]. split; [|done].
      unfold currentAddresses. apply elem_of_uniq, elem_of_app. right. apply elem_of_app. right.
      apply list_elem_of_fmap. exists x. split; [done|]. by apply list_elem_of_filter. }
    apply list_elem_of_lookup in Hr as [i Hi].
    destruct (Forall2_lookup_l _ _ _ _ _ Hm Hi) as (c & _ & Hc). unfold contract_of in Hc. cbn [fst snd] in Hc.
    by rewrite Hcode in Hc. }
  exists msg'. eapply checkpoint_handler_then_throws; [exact Hj|simpl; lia|exact Hp].
Qed.

#[export] Instance crawlContracts_frames : HandlerFrames prepareContracts (λ _ _, insert_contracts).
Proof.
  constructor.
  - intros s e d. by rewrite prepareContracts_state.
  - intros s e w d d'. unfold insert_contracts. destruct (forallb _ _); [|done]. by intros [= <-].
Qed.
#[export] Instance crawlContracts_job cfg : CheckpointJob cfg CRAWL_SMART_CONTRACT_EVM (crawlContracts cfg).
Proof. apply checkpoint_handler_then_job; [apply _|]. by intros w d. Qed.
End Recorded.

(** ** Who is recorded as the creator *)

(** The order in which call [i] settles first. *)
Definition settles_first (i : nat) : Settling := λ n,
  if bool_decide (i < n)%nat then i :: filter (λ j, j ≠ i) (seq 0 n) else seq 0 n.
#[export] Instance settles_first_laws i : SettlingLaws (settles_first i).
Proof.
  intros n. unfold settle_order, settles_first. case_bool_decide as Hi; [|done].
  apply NoDup_Permutation; [|apply NoDup_seq|].
  - constructor; [by intros [? _]%list_elem_of_filter|]. apply NoDup_filter, NoDup_seq.
  - intros j. rewrite elem_of_cons, list_elem_of_filter, elem_of_seq. lia.
Qed.

Lemma settles_first_head {A} (l : list A) i x :
  l !! i = Some x → ∃ k, settled (S := settles_first i) l = x :: k.
Proof.
  intros Hx. unfold settled, settle_order, settles_first. rewrite bool_decide_eq_true_2 by (by eapply lookup_lt_Some).
  simpl. rewrite Hx. eauto.
Qed.

Lemma uniqBy_head {A} (k : A → string) x l : x ∈ uniqBy k (x :: l).
Proof.
  induction l as [|y l IH] using rev_ind; [by left|]. rewrite app_comm_cons, uniqBy_snoc.
  case_bool_decide; [done|]. apply elem_of_app. by left.
Qed.

(** A contract that several transactions of a range mention is described by
    the one whose requests settle first, and each of them can be the first: a
    call of the contract that is answered before its creation leaves the
    contract without creator for good. *)
Theorem any_mention_describes {N : ContractNode} {K : CodeTools} cfg d s e u t a :
  jobCheckpoint cfg CRAWL_SMART_CONTRACT_EVM (checkpoints_of d) = Ok (s, e, u) → s < e → answered s e d →
  new_contract s e d a → t ∈ evmTxs s e d → Some a ∈ currentAddresses d t →
  ∃ S : Settling, SettlingLaws S ∧ ∃ d' c, crawlContracts cfg d = (d', Ok tt) ∧
    c ∈ evm_smart_contract d' ∧ sc_address c = a ∧
    describes (isCreationInternalContracts d (evmTxs s e d)) t c.
Proof.
  intros Hj Hse Hans (Hk & _ & Hcode) Ht Ha. apply known_contract_Some in Hk.
  assert ((t, Some a) ∈ requests d (evmTxs s e d)) as Hr by (apply elem_of_requests; [apply Hans|done]).
  apply list_elem_of_lookup in Hr as [i Hi].
  exists (settles_first i). split; [apply _|].
  destruct (crawlContracts_runs (S := settles_first i) cfg d s e u Hj Hse Hans) as (d' & cs & Hrun & Hcs & Hd' & _).
  destruct (Forall2_lookup_l _ _ _ _ _ Hcs Hi) as (x & Hx & Hc). cbn [fst snd] in Hc.
  destruct (contract_of_total (S := settles_first i) (isCreationInternalContracts d (evmTxs s e d)) t a (proj1 Hans))
    as ([c|] & Hc' & Hnone'); [|by destruct (proj1 Hnone' eq_refl)].
  rewrite Hc in Hc'. injection Hc' as ->. apply contract_of_Some in Hc as Hd; [|done]. destruct Hd as [[= Haddr] Hdesc].
  destruct (settles_first_head _ _ _ Hx) as [k Hset].
  assert (c ∈ new_rows (S := settles_first i) cs) as Hin.
  { unfold new_rows. rewrite Hset. simpl. apply uniqBy_head. }
  destruct (serial_rows_elem (next_contract_id d) _ _ Hin) as [n Hn].
  exists d', (set_contract_id n c). split_and!; [done| |done|done].
  rewrite Hd', elem_of_app. by right.
Qed.

(** ** Witnesses *)
Definition demo_slot_word : string := ("0x000000000000000000000000" +:+ "00000000000000000000000000000000000000ee")%string.
Definition demo_proxy_code : string := ("6080" +:+ EIP_1967_IMPLEMENTATION.1 +:+ "00")%string.
(** A proxy, a contract with the functions of a token, and an account. *)
Definition demo_contract_node : ContractNode := {|
  getBytecode a := Ok (if bool_decide (a = Some "0xc0de") then Some demo_proxy_code
                       else if bool_decide (a = Some "0xca") then Some "6001" else None);
  getStorageAt a slot n :=
    Ok (Some (if bool_decide (a = Some "0xc0de") then demo_slot_word else NULL_BYTE_CODE));
  getBlockNumber := Ok 100 |}.
Definition demo_code_tools : CodeTools := {|
  selectorsFromBytecode code := if bool_decide (code = "6001") then ["0xselector"] else [];
  keccak256_text _ := "0xselector..."; keccak256_hex code := ("0x" +:+ code)%string |}.

Definition demo_evm_tx (i : Z) (hash : string) (to ca data : option string) : EVMTransaction := {|
  et_id := i; et_height := 4860001; et_tx_id := 1; et_tx_msg_id := 10 + i; et_hash := hash; et_size := None;
  et_from := Some "0xaa"; et_to := to; et_gas := None; et_gas_fee_cap := None; et_gas_tip_cap := None;
  et_data := data; et_nonce := None; et_value := None; et_index := 0; et_status := 1; et_reason := None;
  et_contract_address := ca |}.
Definition demo_caller : EVMTransaction := demo_evm_tx 2 "0x02" (Some "0xc0de") None (Some "a9059cbb").
(** The creation of the proxy, and a call of it that also emits a log of the token. *)
Definition demo_contracts_db : Db := {|
  evm_transaction := [ demo_evm_tx 1 "0x01" None (Some "0xc0de") (Some "6080604052");
                       demo_caller ];
  evm_event := [ {| ev_evm_tx_id := 2; ev_tx_id := 1; ev_address := "0xca"; ev_topic0 := None; ev_topic1 := None;
                    ev_topic2 := None; ev_topic3 := None; ev_data := None; ev_block_height := 4860001;
                    ev_tx_hash := "0x02"; ev_block_hash := "0xb"; ev_tx_index := 0 |} ];
  evm_internal_transaction := []; evm_smart_contract := []; next_contract_id := 1; verify_jobs := [];
  evm_proxy_history := []; next_history_id := 1; erc20_contract := []; erc721_contract := [];
  block_checkpoint := <["job:crawl-evm-event" := 4860002]> (<["crawl:crawl-internal-tx" := 4860002]> ∅) |}.

Definition demo_crawl (S : Settling) : Db * res () :=
  crawlContracts (N := demo_contract_node) (K := demo_code_tools) (S := S) Config.json demo_contracts_db.

Example demo_contract_rows :
  (λ c, (sc_id c, sc_address c, sc_creator c, sc_created_height c, sc_type c))
    <$> evm_smart_contract (demo_crawl in_order).1
  = [ (1, "0xc0de", Some "0xaa", Some 4860001, Some TYPES.PROXY_EIP_1967); (2, "0xca", None, None, Some TYPES.ERC20) ].
Proof. vm_compute. reflexivity. Qed.

Example demo_contract_rows_reversed :
  (λ c, (sc_id c, sc_address c, sc_creator c)) <$> evm_smart_contract (demo_crawl last_first).1
  = [ (1, "0xca", None); (2, "0xc0de", None) ].
Proof. vm_compute. reflexivity. Qed.

Lemma demo_answered : answered (N := demo_contract_node) 4860000 4860002 demo_contracts_db.
Proof.
  split; [|split].
  - intros a. by eexists.
  - apply (bool_decide_eq_true_1 _). by vm_compute.
  - intros t Ht. apply elem_of_evmTxs in Ht as [Ht _].
    repeat (apply elem_of_cons in Ht as [->|Ht]; [apply (bool_decide_eq_true_1 _); by vm_compute|]).
    by apply not_elem_of_nil in Ht.
Qed.

Lemma demo_caller_in : demo_caller ∈ evmTxs 4860000 4860002 demo_contracts_db.
Proof. apply elem_of_evmTxs. split; [by right; left|done]. Qed.

Lemma contracts_recorded_witness :
  ∃ d' rows, demo_crawl last_first = (d', Ok tt) ∧ evm_smart_contract d' = [] ++ rows ∧
    ("0xca" ∈ sc_address <$> rows) ∧ ("0xaa" ∉ sc_address <$> rows).
Proof.
  destruct (contracts_recorded (N := demo_contract_node) (K := demo_code_tools) (S := last_first) Config.json
    demo_contracts_db 4860000 4860002 {| job_name := "crawl:smart-contract-evm"; height := 4860000 |})
    as (d' & rows & Hrun & Hd' & _ & Hnew & _).
  - vm_compute. reflexivity.
  - lia.
  - apply demo_answered.
  - exists d', rows. split; [exact Hrun|]. split; [exact Hd'|]. split.
    + apply Hnew. split; [|split].
      * apply (bool_decide_eq_true_1 _). by vm_compute.
      * exists demo_caller. split; [apply demo_caller_in|apply (bool_decide_eq_true_1 _); by vm_compute].
      * by exists "6001".
    + by intros (_ & _ & code & [=] & _)%Hnew.
Defined.

Lemma any_mention_describes_witness :
  ∃ S : Settling, SettlingLaws S ∧ ∃ d' c, demo_crawl S = (d', Ok tt) ∧ c ∈ evm_smart_contract d' ∧
    sc_address c = "0xc0de" ∧ sc_creator c = None.
Proof.
  destruct (any_mention_describes (N := demo_contract_node) (K := demo_code_tools) Config.json
    demo_contracts_db 4860000 4860002 {| job_name := "crawl:smart-contract-evm"; height := 4860000 |}
    demo_caller "0xc0de")
    as (S & HS & d' & c & Hrun & Hc & Ha & (code & _ & _ & _ & _ & Hcreated)).
  - vm_compute. reflexivity.
  - lia.
  - apply demo_answered.
  - split; [|split].
    + apply (bool_decide_eq_true_1 _). by vm_compute.
    + exists demo_caller. split; [apply demo_caller_in|apply (bool_decide_eq_true_1 _); by vm_compute].
    + by exists demo_proxy_code.
  - apply demo_caller_in.
  - apply (bool_decide_eq_true_1 _); by vm_compute.
  - exists S. split; [done|]. exists d', c. rewrite Ha in Hcreated. split_and!; try done.
    assert (creates (isCreationInternalContracts demo_contracts_db (evmTxs 4860000 4860002 demo_contracts_db))
      demo_caller (Some "0xc0de") = false) as Hno
      by (vm_compute; reflexivity).
    rewrite Hno in Hcreated. by injection Hcreated.
Defined.

Lemma proxy_detected_witness :
  isContractProxy (N := demo_contract_node) (S := last_first) (Some "0xc0de") None None
  = Ok (Some {| logicContractAddress := "0x00000000000000000000000000000000000000ee"; EIP := Some TYPES.PROXY_EIP_1967 |}).
Proof.
  destruct (proxy_detected (N := demo_contract_node) (S := last_first) (Some "0xc0de") demo_proxy_code)
    as (r & -> & _ & Hone); [done|done|].
  f_equal. rewrite (Hone EIP_1967_IMPLEMENTATION.1 TYPES.PROXY_EIP_1967 demo_slot_word).
  - vm_compute. reflexivity.
  - by left.
  - split; [by vm_compute|]. split; [by vm_compute|]. unfold empty_slot. intros Hs.
    assert (bool_decide (demo_slot_word = "0x" ∨ demo_slot_word = NULL_BYTE_CODE ∨
              logic_of demo_slot_word = ZERO_ADDRESS) = false) as Hno by (vm_compute; reflexivity).
    by apply bool_decide_eq_false in Hno.
  - intros slot ty v Hin (Hincl & _). repeat (apply elem_of_cons in Hin as [[= -> ->]|Hin]; [by vm_compute in Hincl|]).
    by apply not_elem_of_nil in Hin.
Defined.

(** A creation inside the first transaction that failed. *)
Definition demo_failed_creation : EvmInternalTransaction := {|
  it_evm_tx_id := 1; it_type_trace_address := "CREATE[0]_CREATE"; it_type := "CREATE"; it_from := Some "0xc0de";
  it_to := None; it_value := 0; it_input := "60"; it_gas := 0; it_gas_used := 0; it_error := Some "reverted" |}.
Definition demo_failed_db : Db := {|
  evm_transaction := evm_transaction demo_contracts_db; evm_event := [];
  evm_internal_transaction := [demo_failed_creation]; evm_smart_contract := []; next_contract_id := 1;
  verify_jobs := []; evm_proxy_history := []; next_history_id := 1; erc20_contract := []; erc721_contract := [];
  block_checkpoint := block_checkpoint demo_contracts_db |}.
Definition demo_strict_node : ContractNode := {|
  getBytecode a := match a with Some _ => Ok None | None => Throw "missing value for required argument 0" end;
  getStorageAt _ _ _ := Ok None; getBlockNumber := Ok 100 |}.

Lemma failed_creation_stops_job_witness :
  ∃ msg, crawlContracts (N := demo_strict_node) (K := demo_code_tools) (S := in_order) Config.json demo_failed_db
         = (demo_failed_db, Throw msg).
Proof.
  apply (failed_creation_stops_job (N := demo_strict_node) (K := demo_code_tools) (S := in_order) Config.json
    demo_failed_db 4860000 4860002 {| job_name := "crawl:smart-contract-evm"; height := 4860000 |}
    (demo_evm_tx 1 "0x01" None (Some "0xc0de") (Some "6080604052")) demo_failed_creation
    "missing value for required argument 0").
  - vm_compute. reflexivity.
  - lia.
  - by left.
  - done.
  - apply (bool_decide_eq_true_1 _). by vm_compute.
  - by left.
  - done.
  - by left.
  - done.
  - done.
Defined.
