(* ===== verification/EvmProxy.v ===== *)
(** * Proxy contracts

    [services/evm/crawl_evm_proxy_history.service.ts]: the implementations that
    the logs of a range give to proxies; [services/evm/evm_proxy.service.ts]:
    the request to look at one proxy.

    The services that register tokens are reached through an interface, and the
    ABI decoding of an address is a parameter. *)
From S2P Require Import Prelude JsNum Checkpoint EvmTx EvmContracts.

Class AbiAddress := decode_address : option string → res string.

(** The actions of the token services that the proxy job calls: they register
    the contracts given by id and address and leave the other tables alone. *)
Class TokenServices := {
  insertNewErc20Contracts : list (Z * string) → io Db ();
  insertNewErc721Contracts : list (Z * string) → io Db ()
}.
Definition same_but_tokens (d d' : Db) : Prop :=
  d' = set_tokens (erc20_contract d') (erc721_contract d') d.
Class TokenServicesLaws (T : TokenServices) : Prop := {
  erc20_frame l d : same_but_tokens d (insertNewErc20Contracts l d).1;
  erc721_frame l d : same_but_tokens d (insertNewErc721Contracts l d).1
}.

Section Service.
Context {N : ContractNode} {K : CodeTools} {S : Settling} {A : AbiAddress} {T : TokenServices}.

Definition upgraded : string := keccak256_text "Upgraded(address)".

Definition proxy_types : list string :=
  [TYPES.PROXY_EIP_1967; TYPES.PROXY_EIP_1822; TYPES.PROXY_OPEN_ZEPPELIN_IMPLEMENTATION].
Definition proxyContractDb (d : Db) : list EVMSmartContract :=
  filter (λ c, default "" (sc_type c) ∈ proxy_types) (evm_smart_contract d).

Definition anyProxyHistory (d : Db) (address : string) : list EvmProxyHistory :=
  filter (λ h, ph_proxy_contract h = toLowerCase address ∧ ph_last_updated_height h ≠ None) (evm_proxy_history d).

(** [_.toLower(x) || null] *)
Definition lower_or_null (x : option string) : option string :=
  match x with Some s => if bool_decide (toLowerCase s = "") then None else Some (toLowerCase s) | None => None end.

(** The slot of a type of proxy. *)
Definition slot_of (ty : option string) : option string :=
  fst <$> find (λ v : string * string, bool_decide (Some v.2 = ty)) EIPProxyContractSupportByteCode.

(** The slot is passed where [isContractProxy] expects a height. *)
Definition implementation_of (d : Db) (e : EvmEvent) : res (option string * option Z) :=
  let evmEventProxy := find (λ c, bool_decide (sc_address c = ev_address e)) (proxyContractDb d) in
  if bool_decide (ev_topic0 e = Some upgraded) then
    implementationAddress ← decode_address (ev_topic1 e);
    Ok (Some implementationAddress, None)
  else match evmEventProxy with
  | Some proxy =>
      if bool_decide (anyProxyHistory d (ev_address e) = []) then
        info ← isContractProxy (Some (ev_address e)) (slot_of (sc_type proxy)) None;
        last_updated_height ← getBlockNumber;
        Ok (match info with Some _ => Some "[object Object]" | None => None end, Some last_updated_height)
      else Ok (None, None)
  | None => Ok (None, None)
  end.

Definition proxy_history (d : Db) (e : EvmEvent) : res EvmProxyHistory :=
  '(implementationAddress, last_updated_height) ← implementation_of d e;
  Ok {| ph_id := 0; ph_proxy_contract := toLowerCase (ev_address e);
        ph_implementation_contract := lower_or_null implementationAddress;
        ph_block_height := Some (ev_block_height e); ph_tx_hash := ev_tx_hash e;
        ph_last_updated_height := last_updated_height |}.

Definition saved (d : Db) (h : EvmProxyHistory) : Prop :=
  is_Some (ph_implementation_contract h) ∧ ph_proxy_contract h ∈ sc_address <$> evm_smart_contract d.
#[export] Instance saved_dec d h : Decision (saved d h).
Proof. unfold saved. apply _. Defined.

(** [_.mergeWith({}, ...group, keep what null would overwrite)] *)
Definition merge_history (x y : EvmProxyHistory) : EvmProxyHistory := {|
  ph_id := 0; ph_proxy_contract := ph_proxy_contract y;
  ph_implementation_contract :=
    match ph_implementation_contract y with Some s => Some s | None => ph_implementation_contract x end;
  ph_block_height := match ph_block_height y with Some s => Some s | None => ph_block_height x end;
  ph_tx_hash := ph_tx_hash y;
  ph_last_updated_height :=
    match ph_last_updated_height y with Some s => Some s | None => ph_last_updated_height x end |}.

(** [proxy.proxy_contract + proxy.block_height] *)
Definition history_key (h : EvmProxyHistory) : string :=
  (ph_proxy_contract h +:+ match ph_block_height h with Some z => toString z | None => "null" end)%string.

(** [_.groupBy] and the merge of each group, in the order of the first
    elements. *)
Definition merged (l : list EvmProxyHistory) : list EvmProxyHistory :=
  omap (λ k, match filter (λ h, history_key h = k) l with
             | [] => None
             | h :: t => Some (foldl merge_history h t)
             end) (uniq (history_key <$> l)).

Definition events_between (startBlock endBlock : Z) (d : Db) : list EvmEvent :=
  filter (λ e, startBlock < ev_block_height e <= endBlock) (evm_event d).

Definition prepareHistories (startBlock endBlock : Z) : io Db (list EvmProxyHistory) :=
  answers ← query (λ d, mapR (proxy_history d) (events_between startBlock endBlock d));
  newProxyHistories ← lift answers;
  query (λ d, merged (filter (saved d) newProxyHistories)).

(** [insert(rows).onConflict(['proxy_contract', 'block_height']).merge()]: a
    height that is null conflicts with nothing; a column no row has a value for
    is not part of the statement. *)
Definition same_history (h x : EvmProxyHistory) : Prop :=
  ph_proxy_contract x = ph_proxy_contract h ∧ is_Some (ph_block_height h) ∧ ph_block_height x = ph_block_height h.
#[export] Instance same_history_dec h x : Decision (same_history h x).
Proof. unfold same_history. apply _. Defined.

Definition set_history_id (i : Z) (h : EvmProxyHistory) : EvmProxyHistory := {|
  ph_id := i; ph_proxy_contract := ph_proxy_contract h; ph_implementation_contract := ph_implementation_contract h;
  ph_block_height := ph_block_height h; ph_tx_hash := ph_tx_hash h; ph_last_updated_height := ph_last_updated_height h |}.
Definition overwrite (has_height : bool) (h x : EvmProxyHistory) : EvmProxyHistory := {|
  ph_id := ph_id x; ph_proxy_contract := ph_proxy_contract h; ph_implementation_contract := ph_implementation_contract h;
  ph_block_height := ph_block_height h; ph_tx_hash := ph_tx_hash h;
  ph_last_updated_height := if has_height then ph_last_updated_height h else ph_last_updated_height x |}.

Definition upsert_history (has_height : bool) (d : Db) (h : EvmProxyHistory) : Db :=
  if existsb (λ x, bool_decide (same_history h x)) (evm_proxy_history d)
  then set_histories ((λ x, if bool_decide (same_history h x) then overwrite has_height h x else x) <$> evm_proxy_history d)
         (next_history_id d) d
  else set_histories (evm_proxy_history d ++ [set_history_id (next_history_id d) h]) (next_history_id d + 1) d.

Definition insert_histories (rows : list EvmProxyHistory) (d : Db) : res Db :=
  let has_height := existsb (λ h, bool_decide (is_Some (ph_last_updated_height h))) rows in
  Ok (foldl (upsert_history has_height) d rows).

(** The proxies among the rows just written whose implementation has the type:
    the id of the proxy and its address. *)
Definition proxies_of_type (ty : string) (rows : list EvmProxyHistory) (d : Db) : list (Z * string) :=
  let written := filter (λ x, existsb (λ h, bool_decide (same_history h x)) rows = true) (evm_proxy_history d) in
  omap (λ x,
    implementation ← find (λ c, bool_decide (Some (sc_address c) = ph_implementation_contract x)) (evm_smart_contract d);
    proxy ← find (λ c, bool_decide (sc_address c = ph_proxy_contract x)) (evm_smart_contract d);
    if bool_decide (sc_type implementation = Some ty) then Some (sc_id proxy, ph_proxy_contract x) else None) written.

Definition handleErc20ProxyContracts (rows : list EvmProxyHistory) : io Db () :=
  l ← query (proxies_of_type TYPES.ERC20 rows);
  insertNewErc20Contracts l.
Definition handleErc721ProxyContracts (rows : list EvmProxyHistory) : io Db () :=
  l ← query (proxies_of_type TYPES.ERC721 rows);
  insertNewErc721Contracts l.
Definition handleTypeProxyContracts (rows : list EvmProxyHistory) : io Db () :=
  handleErc20ProxyContracts rows;;
  handleErc721ProxyContracts rows.

Definition crawlProxyHistory (cfg : Config.t) : io Db () :=
  checkpoint_handler_then cfg HANDLE_EVM_PROXY_HISTORY prepareHistories (λ _ _, insert_histories)
    handleTypeProxyContracts.

(** ** The action [detectEvmProxy] *)
Definition patch_type (a : string) (ty : option string) (d : Db) : Db :=
  set_contracts ((λ c, if bool_decide (sc_address c = a) then
      {| sc_id := sc_id c; sc_address := sc_address c; sc_creator := sc_creator c; sc_created_height := sc_created_height c;
         sc_created_hash := sc_created_hash c; sc_type := ty; sc_code_hash := sc_code_hash c |} else c)
    <$> evm_smart_contract d) (next_contract_id d) d.

Definition detectEvmProxy (contractAddress : string) : io Db (option EvmProxyHistory) :=
  rpc ← lift (isContractProxy (Some contractAddress) None None);
  match rpc with
  | None => throw "Not a proxy contract."
  | Some proxyContractRPC =>
      proxyContract ← query (λ d, find (λ c, bool_decide (sc_address c = contractAddress)) (evm_smart_contract d));
      match proxyContract with
      | None => mret None
      | Some proxyContract =>
          (if truthy_str (sc_type proxyContract) then mret () else update (patch_type contractAddress (EIP proxyContractRPC)));;
          evmProxyHistory ← query (λ d, find (λ h,
            bool_decide (ph_proxy_contract h = contractAddress) &&
            bool_decide (ph_implementation_contract h = Some (logicContractAddress proxyContractRPC))) (rev (evm_proxy_history d)));
          match evmProxyHistory with
          | Some h => mret (Some h)
          | None =>
              currentBlock ← lift getBlockNumber;
              i ← query next_history_id;
              let h := {| ph_id := i; ph_proxy_contract := contractAddress;
                          ph_implementation_contract := Some (logicContractAddress proxyContractRPC);
                          ph_block_height := None; ph_tx_hash := ""; ph_last_updated_height := Some currentBlock |} in
              update (λ d, set_histories (evm_proxy_history d ++ [h]) (i + 1) d);;
              mret (Some h)
          end
      end
  end.
End Service.

(** ** A slot is not a height *)
Lemma slots_are_not_numbers ty : ty ∈ proxy_types → ∃ slot, slot_of (Some ty) = Some slot ∧ slot ≠ "" ∧ is_ok (BigInt slot) = false.
Proof.
  intros Hty. repeat (apply elem_of_cons in Hty as [->|Hty]; [eexists; split; [vm_compute; reflexivity|by split; [|vm_compute]]|]).
  by apply not_elem_of_nil in Hty.
Qed.

Lemma settled_sub {S : Settling} {X} (l : list X) x : x ∈ settled l → x ∈ l.
Proof. unfold settled. intros (i & _ & Hi)%list_elem_of_omap. by eapply list_elem_of_lookup_2. Qed.

Section Facts.
Context {N : ContractNode} {K : CodeTools} {S : Settling} {A : AbiAddress} {T : TokenServices}.

(** With a slot in place of the height the detection never finds anything. *)
Lemma slot_finds_nothing a ty info :
  ty ∈ proxy_types → isContractProxy a (slot_of (Some ty)) None = Ok info → info = None.
Proof.
  intros Hty. destruct (slots_are_not_numbers ty Hty) as (slot & -> & Hne & Hslot). unfold isContractProxy.
  intros Hi. apply bind_Ok in Hi as (code & _ & Hi). destruct code as [code|]; [|by injection Hi as <-].
  destruct (decide (code = "")) as [->|Hc]; [by injection Hi as <-|]. rewrite if_text_Some in Hi by done.
  cbn [if_text] in Hi. injection Hi as <-. unfold Promise_any.
  destruct (head _) as [r|] eqn:Hh; [exfalso|done]. apply head_Some_elem_of, elem_of_omap_fulfilled, settled_sub in Hh.
  assert (∀ sl, Ok r ≠ detectProxyContractByByteCode a code sl (Some slot)) as Hno.
  { intros sl Hv%symmetry. apply detect_Ok in Hv as (n & v' & Hn & _).
    unfold block_number in Hn. rewrite if_text_Some in Hn by done. cbn [id] in Hn. by destruct (BigInt slot). }
  repeat (apply elem_of_cons in Hh as [Hv|Hh]; [by apply Hno in Hv|]). by apply not_elem_of_nil in Hh.
Qed.

(** The row of an upgrade. *)
Definition upgrade_row (u : EvmEvent * string) : EvmProxyHistory := {|
  ph_id := 0; ph_proxy_contract := toLowerCase (ev_address u.1); ph_implementation_contract := Some (toLowerCase u.2);
  ph_block_height := Some (ev_block_height u.1); ph_tx_hash := ev_tx_hash u.1; ph_last_updated_height := None |}.

(** The upgrades of known contracts in a range, with the implementation. *)
Definition upgrade_of (d : Db) (e : EvmEvent) : option (EvmEvent * string) :=
  if bool_decide (ev_topic0 e = Some upgraded ∧ toLowerCase (ev_address e) ∈ (sc_address <$> evm_smart_contract d)) then
    match decode_address (ev_topic1 e) with
    | Ok impl => if bool_decide (toLowerCase impl = "") then None else Some (e, impl)
    | Throw _ => None
    end
  else None.
Definition upgrades (s e : Z) (d : Db) : list (EvmEvent * string) := omap (upgrade_of d) (events_between s e d).

Lemma implementation_of_other d e impl h :
  ev_topic0 e ≠ Some upgraded → implementation_of d e = Ok (impl, h) → impl = None.
Proof.
  intros Hne. unfold implementation_of. rewrite bool_decide_eq_false_2 by done.
  destruct (find _ (proxyContractDb d)) as [proxy|] eqn:Hf; [|by intros [= <- _]].
  case_bool_decide; [|by intros [= <- _]]. intros Hi. apply bind_Ok in Hi as (info & Hinfo & Hi).
  apply bind_Ok in Hi as (h' & _ & [= <- _]). apply find_Some in Hf as [Hin _].
  unfold proxyContractDb in Hin. apply list_elem_of_filter in Hin as [Hty _].
  destruct (sc_type proxy) as [ty|]; [|by vm_compute in Hty; repeat (apply elem_of_cons in Hty as [?|Hty]; [done|]);
    apply not_elem_of_nil in Hty].
  by rewrite (slot_finds_nothing _ ty info Hty Hinfo).
Qed.

Lemma saved_rows s e d hs :
  mapR (proxy_history d) (events_between s e d) = Ok hs → filter (saved d) hs = upgrade_row <$> upgrades s e d.
Proof.
  unfold upgrades. intros Hm%mapR_Ok. induction Hm as [|ev h l hs Hev _ IH]; [done|].
  rewrite filter_cons, IH. cbn [omap list_omap]. unfold proxy_history in Hev. apply bind_Ok in Hev as ([impl lu] & Hi & [= <-]).
  unfold saved. cbn [ph_implementation_contract ph_proxy_contract]. unfold upgrade_of.
  destruct (decide (ev_topic0 ev = Some upgraded)) as [Htop|Htop]; cycle 1.
  { rewrite (implementation_of_other _ _ _ _ Htop Hi), decide_False by (by intros [[? ?] _]).
    by rewrite bool_decide_eq_false_2 by (by intros [? _]). }
  unfold implementation_of in Hi. rewrite bool_decide_eq_true_2 in Hi by done.
  apply bind_Ok in Hi as (impl' & -> & [= <- <-]). cbn [lower_or_null].
  destruct (decide (toLowerCase (ev_address ev) ∈ sc_address <$> evm_smart_contract d)) as [Hk|Hk]; cycle 1.
  { rewrite decide_False by (by intros [_ ?]). by rewrite bool_decide_eq_false_2 by (by intros [_ ?]). }
  rewrite (bool_decide_eq_true_2 (_ ∧ _)) by done. case_bool_decide as He.
  - by rewrite decide_False by (by intros [[? ?] _]).
  - rewrite decide_True by (split; [by eexists|done]). done.
Qed.

(** ** Groups *)
Lemma foldl_merge_rows (u : EvmEvent * string) us :
  foldl merge_history (upgrade_row u) (upgrade_row <$> us) = upgrade_row (default u (last us)).
Proof.
  revert u. induction us as [|u' us IH]; intros u; [done|]. rewrite fmap_cons. cbn [foldl].
  change (merge_history (upgrade_row u) (upgrade_row u')) with (upgrade_row u'). rewrite IH, last_cons.
  by destruct (last us).
Qed.

Definition upgrade_key (u : EvmEvent * string) : string := history_key (upgrade_row u).

Lemma group_rows us k :
  match filter (λ h, history_key h = k) (upgrade_row <$> us) with
  | [] => None
  | h :: t => Some (foldl merge_history h t)
  end = upgrade_row <$> last (filter (λ u, upgrade_key u = k) us).
Proof.
  assert (filter (λ h, history_key h = k) (upgrade_row <$> us) = upgrade_row <$> filter (λ u, upgrade_key u = k) us) as ->.
  { induction us as [|u us IH]; [done|]. rewrite fmap_cons, !filter_cons, IH. unfold upgrade_key. by case_decide. }
  destruct (filter (λ u, upgrade_key u = k) us) as [|u l]; [done|]. rewrite fmap_cons, foldl_merge_rows, last_cons.
  by destruct (last l).
Qed.

Lemma elem_of_merged us r :
  r ∈ merged (upgrade_row <$> us) ↔
  ∃ u, r = upgrade_row u ∧ last (filter (λ v, upgrade_key v = upgrade_key u) us) = Some u.
Proof.
  unfold merged. rewrite list_elem_of_omap. split.
  - intros (k & _ & Hk). rewrite group_rows in Hk. destruct (last _) as [u|] eqn:Hl; [|done]. injection Hk as <-.
    exists u. split; [done|]. apply last_Some_elem_of in Hl as Hin. apply list_elem_of_filter in Hin as [<- _]. done.
  - intros (u & -> & Hu). exists (upgrade_key u). rewrite group_rows, Hu. split; [|done].
    apply elem_of_uniq. apply last_Some_elem_of in Hu. apply list_elem_of_filter in Hu as [_ Hu].
    rewrite <-list_fmap_compose. apply list_elem_of_fmap. by exists u.
Qed.

Lemma merged_keys us : NoDup (history_key <$> merged (upgrade_row <$> us)).
Proof.
  unfold merged. pose proof (NoDup_uniq (history_key <$> (upgrade_row <$> us))) as Hnd. revert Hnd.
  generalize (uniq (history_key <$> (upgrade_row <$> us))) as ks. induction ks as [|k ks IH]; intros Hnd; [constructor|].
  apply NoDup_cons in Hnd as [Hk Hnd]. cbn [omap list_omap]. rewrite group_rows.
  destruct (last (filter (λ u, upgrade_key u = k) us)) as [u|] eqn:Hu; cbn [fmap option_fmap option_map]; [|by apply IH].
  assert (upgrade_key u = k) as Huk by (by apply last_Some_elem_of, list_elem_of_filter in Hu as [? _]).
  rewrite fmap_cons. constructor; [|by apply IH]. intros Hin. apply Hk. clear IH.
  apply list_elem_of_fmap in Hin as (r & Hr & Hin). apply list_elem_of_omap in Hin as (k' & Hk' & Hg).
  rewrite group_rows in Hg.
  destruct (last (filter (λ u, upgrade_key u = k') us)) as [u'|] eqn:Hu'; [|done]. injection Hg as <-.
  assert (upgrade_key u' = k') as Huk' by (by apply last_Some_elem_of, list_elem_of_filter in Hu' as [? _]).
  change (history_key (upgrade_row u)) with (upgrade_key u) in Hr.
  change (history_key (upgrade_row u')) with (upgrade_key u') in Hr. congruence.
Qed.
End Facts.

(** ** The rows of a proxy at a height *)
Definition at_key (p : string) (h : Z) (l : list EvmProxyHistory) : list EvmProxyHistory :=
  filter (λ x, ph_proxy_contract x = p ∧ ph_block_height x = Some h) l.

(** Equal but for the id and the height of the last update. *)
Definition written_as (r x : EvmProxyHistory) : Prop :=
  ph_proxy_contract x = ph_proxy_contract r ∧ ph_implementation_contract x = ph_implementation_contract r ∧
  ph_block_height x = ph_block_height r ∧ ph_tx_hash x = ph_tx_hash r.

Lemma at_key_map p h (f : EvmProxyHistory → EvmProxyHistory) l :
  (∀ x, ph_proxy_contract (f x) = ph_proxy_contract x ∧ ph_block_height (f x) = ph_block_height x) →
  at_key p h (f <$> l) = f <$> at_key p h l.
Proof.
  intros Hf. unfold at_key. induction l as [|x l IH]; [done|]. rewrite fmap_cons, !filter_cons, IH.
  destruct (Hf x) as [H1 H2]. destruct (decide (ph_proxy_contract x = p ∧ ph_block_height x = Some h)) as [Hx|Hx].
  - by rewrite decide_True by (by rewrite H1, H2).
  - by rewrite decide_False by (by rewrite H1, H2).
Qed.

Lemma upsert_at_key has d r hr p h :
  ph_block_height r = Some hr →
  (p = ph_proxy_contract r ∧ h = hr →
     at_key p h (evm_proxy_history (upsert_history has d r)) ≠ [] ∧
     Forall (written_as r) (at_key p h (evm_proxy_history (upsert_history has d r)))) ∧
  (¬ (p = ph_proxy_contract r ∧ h = hr) →
     at_key p h (evm_proxy_history (upsert_history has d r)) = at_key p h (evm_proxy_history d)).
Proof.
  intros Hr. unfold upsert_history. destruct (existsb _ _) eqn:Hex; cbn [evm_proxy_history set_histories].
  - set (f := λ x, if bool_decide (same_history r x) then overwrite has r x else x).
    assert (∀ x, ph_proxy_contract (f x) = ph_proxy_contract x ∧ ph_block_height (f x) = ph_block_height x) as Hf.
    { intros x. unfold f. case_bool_decide as Hs; [|done]. destruct Hs as (H1 & _ & H2). by rewrite H1, H2. }
    rewrite (at_key_map p h f _ Hf). split.
    + intros [-> ->]. apply existsb_exists in Hex as (x & Hx & Hs%bool_decide_eq_true). apply list_elem_of_In in Hx.
      assert (x ∈ at_key (ph_proxy_contract r) hr (evm_proxy_history d)) as Hin.
      { apply list_elem_of_filter. split; [|done]. destruct Hs as (-> & _ & ->). done. }
      split; [intros Hnil; apply fmap_nil_inv in Hnil; rewrite Hnil in Hin; by apply not_elem_of_nil in Hin|].
      apply Forall_fmap, Forall_forall. intros y Hy. apply list_elem_of_filter in Hy as [[Hy1 Hy2] _]. unfold compose, f.
      rewrite bool_decide_eq_true_2; [done|]. split; [done|]. rewrite Hr. split; [by eexists|done].
    + intros Hne. clear Hex. unfold at_key. induction (evm_proxy_history d) as [|x l IH]; [done|]. rewrite filter_cons.
      case_decide as Hx; [|done]. rewrite fmap_cons, IH. f_equal. unfold f. rewrite bool_decide_eq_false_2; [done|].
      intros (H1 & _ & H2). apply Hne. destruct Hx as [<- Hx]. split; [done|]. rewrite Hr in H2. congruence.
  - unfold at_key at 1 2 3. rewrite filter_app, filter_cons, filter_nil. cbn [ph_proxy_contract ph_block_height set_history_id].
    rewrite Hr. split.
    + intros [-> ->]. rewrite decide_True by done. split; [by destruct (filter _ _)|].
      apply Forall_app. split; [|by constructor]. apply Forall_forall. intros x Hx.
      apply list_elem_of_filter in Hx as [[H1 H2] Hx]. exfalso.
      rewrite <-not_true_iff_false in Hex. apply Hex, existsb_exists. exists x. split; [by apply list_elem_of_In|].
      apply bool_decide_eq_true. split; [done|]. rewrite Hr. split; [by eexists|done].
    + intros Hne. rewrite decide_False; [by rewrite app_nil_r|]. intros [<- [= <-]]. by apply Hne.
Qed.

Lemma upserts_at_key has rows d p h :
  (∀ r, r ∈ rows → is_Some (ph_block_height r)) →
  NoDup ((λ r, (ph_proxy_contract r, ph_block_height r)) <$> rows) →
  let d' := foldl (upsert_history has) d rows in
  (∀ r, r ∈ rows → ph_proxy_contract r = p → ph_block_height r = Some h →
     at_key p h (evm_proxy_history d') ≠ [] ∧ Forall (written_as r) (at_key p h (evm_proxy_history d'))) ∧
  ((∀ r, r ∈ rows → ¬ (ph_proxy_contract r = p ∧ ph_block_height r = Some h)) →
     at_key p h (evm_proxy_history d') = at_key p h (evm_proxy_history d)).
Proof.
  revert d. induction rows as [|r rows IH]; intros d Hh Hnd; cbv zeta; cbn [foldl].
  { split; [by intros r ?%not_elem_of_nil|done]. }
  apply NoDup_cons in Hnd as [Hr Hnd]. destruct (Hh r ltac:(by left)) as [hr Hhr].
  destruct (IH (upsert_history has d r) (λ r' Hr', Hh r' (list_elem_of_further _ _ _ Hr')) Hnd) as [IH1 IH2].
  destruct (upsert_at_key has d r hr p h Hhr) as [Hu1 Hu2]. split.
  - intros r' [->|Hr']%elem_of_cons Hp Hh'; [|by apply IH1]. rewrite Hhr in Hh'. injection Hh' as ->.
    rewrite IH2; [by apply Hu1|]. intros r' Hr' [H1 H2]. apply Hr. apply list_elem_of_fmap. exists r'.
    split; [|done]. by rewrite H1, H2, Hp, Hhr.
  - intros Hno. rewrite IH2; [|intros r' Hr'; apply Hno; by right]. apply Hu2. intros [-> ->].
    by apply (Hno r); [left|].
Qed.


(** ** The keys of the groups *)
Lemma toLowerCase_length s : String.length (toLowerCase s) = String.length s.
Proof. induction s as [|c s IH]; [done|]. simpl. by rewrite IH. Qed.

Lemma append_same_length s1 s2 t1 t2 :
  String.length s1 = String.length s2 → (s1 +:+ t1 = s2 +:+ t2)%string → s1 = s2 ∧ t1 = t2.
Proof.
  revert s2. induction s1 as [|c s1 IH]; intros [|d s2]; simpl; try done.
  intros [= Hlen]. rewrite !string_app_cons. intros [= -> Heq].
  destruct (IH _ Hlen Heq) as [-> ->]. done.
Qed.

Section Theorems.
Context {N : ContractNode} {K : CodeTools} {S : Settling} {A : AbiAddress} {T : TokenServices}.

(** The address column holds addresses of 20 bytes in hexadecimal. *)
Definition addresses_ok (d : Db) : Prop := ∀ ev, ev ∈ evm_event d → String.length (ev_address ev) = 42%nat.

Lemma upgrades_elem s e d u : u ∈ upgrades s e d → u.1 ∈ evm_event d ∧ s < ev_block_height u.1 <= e.
Proof.
  unfold upgrades, events_between. rewrite list_elem_of_omap. intros (ev & Hev & Hu).
  apply list_elem_of_filter in Hev as [Hh Hev]. unfold upgrade_of in Hu. case_bool_decide; [|done].
  destruct (decode_address _) as [impl|]; [|done]. case_bool_decide; [done|]. by injection Hu as <-.
Qed.

Lemma upgrade_key_inj d s e u v :
  addresses_ok d → u ∈ upgrades s e d → v ∈ upgrades s e d →
  upgrade_key u = upgrade_key v ↔
  ph_proxy_contract (upgrade_row u) = ph_proxy_contract (upgrade_row v) ∧
  ph_block_height (upgrade_row u) = ph_block_height (upgrade_row v).
Proof.
  intros Hlen [Hu _]%upgrades_elem [Hv _]%upgrades_elem. unfold upgrade_key, history_key.
  cbn [upgrade_row ph_proxy_contract ph_block_height]. split; [|by intros [-> [= ->]]].
  intros Heq. apply append_same_length in Heq as [Ha Hh%toString_inj]; [by rewrite Ha, Hh|].
  by rewrite !toLowerCase_length, !Hlen.
Qed.

(** The last upgrade of a proxy at a height. *)
Definition last_upgrade (s e : Z) (d : Db) (p : string) (h : Z) : option (EvmEvent * string) :=
  last (filter (λ u, toLowerCase (ev_address u.1) = p ∧ ev_block_height u.1 = h) (upgrades s e d)).

Lemma merged_row s e d r :
  addresses_ok d →
  r ∈ merged (upgrade_row <$> upgrades s e d) ↔
  ∃ u, r = upgrade_row u ∧ last_upgrade s e d (ph_proxy_contract r) (ev_block_height u.1) = Some u.
Proof.
  intros Hlen. rewrite elem_of_merged. split; intros (u & -> & Hu); exists u; (split; [done|]).
  - etransitivity; [|exact Hu]. unfold last_upgrade. f_equal. apply filter_ext_in. intros v Hv.
    apply last_Some_elem_of in Hu. apply list_elem_of_filter in Hu as [_ Hu].
    rewrite (upgrade_key_inj d s e v u Hlen Hv Hu). cbn [upgrade_row ph_proxy_contract ph_block_height].
    split; [by intros [-> ->]|by intros [-> [= ->]]].
  - etransitivity; [|exact Hu]. unfold last_upgrade in *. f_equal. apply filter_ext_in. intros v Hv.
    apply last_Some_elem_of in Hu. apply list_elem_of_filter in Hu as [_ Hu].
    rewrite (upgrade_key_inj d s e v u Hlen Hv Hu). cbn [upgrade_row ph_proxy_contract ph_block_height].
    split; [by intros [-> [= ->]]|by intros [-> ->]].
Qed.

Lemma insert_merged s e d d' rows p h :
  addresses_ok d → rows = merged (upgrade_row <$> upgrades s e d) → insert_histories rows d = Ok d' →
  match last_upgrade s e d p h with
  | Some u => at_key p h (evm_proxy_history d') ≠ [] ∧
              Forall (written_as (upgrade_row u)) (at_key p h (evm_proxy_history d'))
  | None => at_key p h (evm_proxy_history d') = at_key p h (evm_proxy_history d)
  end.
Proof.
  intros Hlen Hrows [= <-].
  assert (∀ r, r ∈ rows ↔ ∃ u, r = upgrade_row u ∧ last_upgrade s e d (ph_proxy_contract r) (ev_block_height u.1) = Some u)
    as Hin by (intros r; rewrite Hrows; by apply merged_row).
  edestruct (upserts_at_key (existsb (λ h, bool_decide (is_Some (ph_last_updated_height h))) rows) rows d p h) as [H1 H2].
  { intros r (u & -> & _)%Hin. by eexists. }
  { apply (NoDup_fmap_1 (λ k : string * option Z, (k.1 +:+ match k.2 with Some z => toString z | None => "null" end)%string)).
    rewrite <-list_fmap_compose. rewrite Hrows. apply merged_keys. }
  destruct (last_upgrade s e d p h) as [u|] eqn:Hu.
  - assert (toLowerCase (ev_address u.1) = p ∧ ev_block_height u.1 = h) as [Hp Hh].
    { by apply last_Some_elem_of, list_elem_of_filter in Hu as [? _]. }
    apply H1; cbn [upgrade_row ph_proxy_contract ph_block_height]; [|done|by rewrite Hh].
    apply Hin. exists u. split; [done|]. cbn [upgrade_row ph_proxy_contract]. by rewrite Hp, Hh.
  - apply H2. intros r (u & -> & Hr)%Hin [Hp Hh]. cbn [upgrade_row ph_proxy_contract ph_block_height] in *.
    injection Hh as Hh. rewrite Hp, Hh in Hr. congruence.
Qed.

Lemma isContractProxy_answers a n slot :
  is_ok (getBytecode a) = true → ∃ info, isContractProxy a n slot = Ok info.
Proof.
  unfold isContractProxy. destruct (getBytecode a) as [code|]; [intros _|done]. simpl.
  destruct (if_text code id); [|by eexists]. destruct (if_text slot id); by eexists.
Qed.

(** The node answers and the logs of upgrades name an address. *)
Definition decodable (s e : Z) (d : Db) : Prop :=
  (∀ a, is_ok (getBytecode a) = true) ∧ is_ok getBlockNumber = true ∧
  ∀ ev, ev ∈ events_between s e d → ev_topic0 ev = Some upgraded → is_ok (decode_address (ev_topic1 ev)) = true.

Lemma proxy_history_total s e d ev :
  decodable s e d → ev ∈ events_between s e d → ∃ h, proxy_history d ev = Ok h.
Proof.
  intros (Hcode & Hnum & Htop) Hev. unfold proxy_history, implementation_of. case_bool_decide as Hu.
  - specialize (Htop ev Hev Hu). destruct (decode_address _); [by eexists|done].
  - destruct (find _ _) as [proxy|]; [|by eexists]. case_bool_decide; [|by eexists].
    destruct (isContractProxy_answers (Some (ev_address ev)) (slot_of (sc_type proxy)) None (Hcode _)) as [info ->].
    destruct getBlockNumber; [by eexists|done].
Qed.

Lemma after_histories rows d :
  TokenServicesLaws T → evm_proxy_history (handleTypeProxyContracts rows d).1 = evm_proxy_history d ∧
  checkpoints_of (handleTypeProxyContracts rows d).1 = checkpoints_of d.
Proof.
  intros HT. unfold handleTypeProxyContracts, handleErc20ProxyContracts, handleErc721ProxyContracts.
  unfold mbind, io_bind, query.
  assert (∀ l x, let x' := (insertNewErc20Contracts l x).1 in
    evm_proxy_history x' = evm_proxy_history x ∧ checkpoints_of x' = checkpoints_of x) as H20.
  { intros l x. cbv zeta. pose proof (erc20_frame l x) as ->. done. }
  assert (∀ l x, let x' := (insertNewErc721Contracts l x).1 in
    evm_proxy_history x' = evm_proxy_history x ∧ checkpoints_of x' = checkpoints_of x) as H721.
  { intros l x. cbv zeta. pose proof (erc721_frame l x) as ->. done. }
  specialize (H20 (proxies_of_type TYPES.ERC20 rows d) d).
  destruct (insertNewErc20Contracts _ d) as [d1 [[]|]]; cbn [fst] in *; [|done].
  destruct H20 as [<- <-]. apply H721.
Qed.

(** A run stores, for every proxy and height of its range, the
    implementation that the last [Upgraded] log of that height gives, in lower
    case, over what was stored for that height; the rows of the other proxies
    and heights stay as they were. In particular the look at the slot of a proxy
    without history adds nothing: the slot is passed as the height to read at. *)
Theorem upgrades_stored cfg d s e u :
  TokenServicesLaws T →
  jobCheckpoint cfg HANDLE_EVM_PROXY_HISTORY (checkpoints_of d) = Ok (s, e, u) →
  addresses_ok d → decodable s e d →
  let d' := (crawlProxyHistory cfg d).1 in
  checkpoints_of d' = saveCheckpoint u e (checkpoints_of d) ∧
  ∀ p h, match last_upgrade s e d p h with
         | Some v => at_key p h (evm_proxy_history d') ≠ [] ∧
                     Forall (written_as (upgrade_row v)) (at_key p h (evm_proxy_history d'))
         | None => at_key p h (evm_proxy_history d') = at_key p h (evm_proxy_history d)
         end.
Proof.
  intros HT Hj Hlen Hdec. cbv zeta.
  destruct (mapR_total (proxy_history d) (events_between s e d)) as [hs Hhs];
    [intros; by eapply proxy_history_total|].
  assert (prepareHistories s e d = (d, Ok (merged (upgrade_row <$> upgrades s e d)))) as Hp.
  { unfold prepareHistories, query, lift, mbind, io_bind. rewrite Hhs. by rewrite (saved_rows s e d hs Hhs). }
  destruct (insert_histories (merged (upgrade_row <$> upgrades s e d)) d) as [d2|] eqn:Hw; [|done].
  unfold crawlProxyHistory.
  rewrite (checkpoint_handler_then_run _ _ _ (λ _ _, insert_histories) handleTypeProxyContracts _ _ _ _ _ _ _ Hj eq_refl Hp Hw).
  destruct (after_histories (merged (upgrade_row <$> upgrades s e d))
    (set_checkpoints (saveCheckpoint u e (checkpoints_of d2)) d2) HT) as [-> ->].
  split; [|intros p h; by apply (insert_merged s e d d2 _ p h Hlen eq_refl Hw)].
  rewrite checkpoints_set. f_equal. unfold insert_histories in Hw. injection Hw as <-.
  generalize (existsb (λ h, bool_decide (is_Some (ph_last_updated_height h))) (merged (upgrade_row <$> upgrades s e d))) as b.
  intros b. generalize (merged (upgrade_row <$> upgrades s e d)) as rows. clear.
  intros rows. revert d. induction rows as [|r rows IH]; intros d; [done|]. cbn [foldl]. rewrite IH.
  unfold upsert_history. by destruct (existsb _ _).
Qed.
End Theorems.

Section Behaviour.
Context {N : ContractNode} {K : CodeTools} {S : Settling} {A : AbiAddress} {T : TokenServices}.

(** An [Upgraded] log whose topic is not an address (an event that does not
    index the implementation has no such topic) stops the job: the run changes
    nothing and throws, whatever the other logs of the range say. *)
Theorem malformed_upgrade_stops_job cfg d s e u ev :
  jobCheckpoint cfg HANDLE_EVM_PROXY_HISTORY (checkpoints_of d) = Ok (s, e, u) →
  ev ∈ evm_event d → s < ev_block_height ev <= e → ev_topic0 ev = Some upgraded →
  is_ok (decode_address (ev_topic1 ev)) = false →
  ∃ msg, crawlProxyHistory cfg d = (d, Throw msg).
Proof.
  intros Hj Hev Hh Htop Hdec.
  destruct (mapR (proxy_history d) (events_between s e d)) as [hs|msg] eqn:Hm.
  - exfalso. apply mapR_Ok in Hm. assert (ev ∈ events_between s e d) as Hin by (by apply list_elem_of_filter).
    apply list_elem_of_lookup in Hin as [i Hi]. destruct (Forall2_lookup_l _ _ _ _ _ Hm Hi) as (x & _ & Hx).
    unfold proxy_history, implementation_of in Hx. rewrite bool_decide_eq_true_2 in Hx by done.
    by destruct (decode_address _).
  - exists msg. eapply checkpoint_handler_then_throws; [exact Hj|done|].
    unfold prepareHistories, query, lift, mbind, io_bind. by rewrite Hm.
Qed.

Lemma find_patched a ty l :
  find (λ c, bool_decide (sc_address c = a)) ((λ c, if bool_decide (sc_address c = a) then
      {| sc_id := sc_id c; sc_address := sc_address c; sc_creator := sc_creator c; sc_created_height := sc_created_height c;
         sc_created_hash := sc_created_hash c; sc_type := ty; sc_code_hash := sc_code_hash c |} else c) <$> l) =
  (λ c, {| sc_id := sc_id c; sc_address := sc_address c; sc_creator := sc_creator c; sc_created_height := sc_created_height c;
         sc_created_hash := sc_created_hash c; sc_type := ty; sc_code_hash := sc_code_hash c |})
    <$> find (λ c, bool_decide (sc_address c = a)) l.
Proof.
  induction l as [|c l IH]; [done|]. rewrite fmap_cons. simpl. destruct (decide (sc_address c = a)) as [Hc|Hc].
  - by rewrite !(bool_decide_eq_true_2 (sc_address c = a)) by done.
  - by rewrite !(bool_decide_eq_false_2 (sc_address c = a)) by done.
Qed.

Lemma patch_type_twice a ty d : patch_type a ty (patch_type a ty d) = patch_type a ty d.
Proof.
  unfold patch_type, set_contracts. simpl. f_equal. rewrite <-list_fmap_compose. apply list_fmap_ext. intros _ c _.
  unfold compose. destruct (decide (sc_address c = a)) as [Hc|Hc].
  - by rewrite !(bool_decide_eq_true_2 (sc_address c = a)) by done.
  - by rewrite !(bool_decide_eq_false_2 (sc_address c = a)) by done.
Qed.

Definition known_history (a l : string) (hs : list EvmProxyHistory) : option EvmProxyHistory :=
  find (λ h, bool_decide (ph_proxy_contract h = a) && bool_decide (ph_implementation_contract h = Some l)) (rev hs).
Definition typed_contract (a : string) (rpc : DetectEVMProxyContract) (c : EVMSmartContract) (d : Db) : Db :=
  if truthy_str (sc_type c) then d else patch_type a (EIP rpc) d.

(** The request about a contract that is stored and is a proxy. *)
Lemma detect_known a d rpc c :
  isContractProxy (Some a) None None = Ok (Some rpc) →
  find (λ c, bool_decide (sc_address c = a)) (evm_smart_contract d) = Some c →
  detectEvmProxy a d =
    let d0 := typed_contract a rpc c d in
    match known_history a (logicContractAddress rpc) (evm_proxy_history d) with
    | Some h => (d0, Ok (Some h))
    | None => match getBlockNumber with
              | Throw msg => (d0, Throw msg)
              | Ok n =>
                  let h := {| ph_id := next_history_id d; ph_proxy_contract := a;
                              ph_implementation_contract := Some (logicContractAddress rpc);
                              ph_block_height := None; ph_tx_hash := ""; ph_last_updated_height := Some n |} in
                  (set_histories (evm_proxy_history d ++ [h]) (next_history_id d + 1) d0, Ok (Some h))
              end
    end.
Proof.
  intros Hrpc Hc. unfold detectEvmProxy. rewrite Hrpc. cbv zeta. erewrite io_step by done. cbv beta iota.
  erewrite io_step by done. rewrite Hc. clear Hc. cbv beta iota. unfold typed_contract, known_history.
  destruct (truthy_str (sc_type c)); (erewrite io_step by done); (erewrite io_step by done).
  - destruct (find _ _) as [h|]; [done|]. by destruct getBlockNumber.
  - cbn [patch_type set_contracts evm_proxy_history]. destruct (find _ _) as [h|]; [done|]. by destruct getBlockNumber.
Qed.

Lemma typed_again a rpc c d d0 :
  find (λ c, bool_decide (sc_address c = a)) (evm_smart_contract d) = Some c → d0 = typed_contract a rpc c d →
  ∃ c', find (λ c, bool_decide (sc_address c = a)) (evm_smart_contract d0) = Some c' ∧ typed_contract a rpc c' d0 = d0.
Proof.
  intros Hc ->. unfold typed_contract at 1. destruct (truthy_str (sc_type c)) eqn:Ht.
  - exists c. split; [done|]. unfold typed_contract. by rewrite Ht.
  - eexists. split; [unfold patch_type; cbn [evm_smart_contract set_contracts]; rewrite find_patched, Hc; done|].
    unfold typed_contract. rewrite Ht. cbn [sc_type]. destruct (truthy_str (EIP rpc)); [done|]. apply patch_type_twice.
Qed.

(** Asking again about a proxy changes nothing and gives the same history:
    the row the first request found or inserted. *)
Theorem detect_twice a d d1 h :
  detectEvmProxy a d = (d1, Ok h) → detectEvmProxy a d1 = (d1, Ok h).
Proof.
  destruct (isContractProxy (Some a) None None) as [[rpc|]|] eqn:Hrpc;
    [|unfold detectEvmProxy; rewrite Hrpc; by intros [=]..].
  destruct (find (λ c, bool_decide (sc_address c = a)) (evm_smart_contract d)) as [c|] eqn:Hc; cycle 1.
  { unfold detectEvmProxy. rewrite Hrpc. erewrite io_step by done. cbv beta iota. erewrite io_step by done. rewrite Hc.
    intros [= <- <-]. erewrite io_step by done. cbv beta iota. erewrite io_step by done. by rewrite Hc. }
  destruct (typed_again a rpc c d _ Hc eq_refl) as (c' & Hc' & Ht).
  rewrite (detect_known a d rpc c Hrpc Hc). cbv zeta.
  assert (evm_proxy_history (typed_contract a rpc c d) = evm_proxy_history d) as Hhist
    by (unfold typed_contract; by destruct (truthy_str _)).
  destruct (known_history a (logicContractAddress rpc) (evm_proxy_history d)) as [h'|] eqn:Hk.
  - intros [= <- <-]. rewrite (detect_known a _ rpc c' Hrpc Hc'). cbv zeta. by rewrite Hhist, Hk, Ht.
  - destruct getBlockNumber as [n|] eqn:Hn; [|done]. intros [= <- <-].
    rewrite (detect_known a _ rpc c' Hrpc) by exact Hc'. cbv zeta. cbn [evm_proxy_history set_histories].
    unfold known_history. rewrite rev_app_distr. simpl. rewrite !bool_decide_eq_true_2 by done. simpl.
    f_equal. rewrite <-Ht at 2. unfold typed_contract at 1 3. by destruct (truthy_str (sc_type c')).
Qed.
End Behaviour.

(** ** The job *)
#[export] Instance proxyHistory_frames {N : ContractNode} {K : CodeTools} {S : Settling} {A : AbiAddress} :
  HandlerFrames prepareHistories (λ _ _, insert_histories).
Proof.
  constructor.
  - intros s e. unfold prepareHistories. eauto with frames.
  - intros s e rows d d' [= <-].
    generalize (existsb (λ h, bool_decide (is_Some (ph_last_updated_height h))) rows) as b. intros b. revert d.
    induction rows as [|r rows IH]; intros d; [done|]. cbn [foldl]. rewrite IH. unfold upsert_history.
    by destruct (existsb _ _).
Qed.
#[export] Instance crawlProxyHistory_job {N : ContractNode} {K : CodeTools} {S : Settling} {A : AbiAddress}
  {T : TokenServices} {HT : TokenServicesLaws T} cfg : CheckpointJob cfg HANDLE_EVM_PROXY_HISTORY (crawlProxyHistory cfg).
Proof. apply checkpoint_handler_then_job; [apply _|]. intros w d. by apply after_histories. Qed.

(** ** Witnesses *)
(** An address is the last 20 bytes of its topic. *)
Definition demo_abi_address : AbiAddress := λ topic,
  match topic with
  | Some t => Ok ("0x" +:+ slice_last_40 t)%string
  | None => Throw "AbiDecodingZeroDataError"
  end.
(** Services that register the contracts they are given. *)
Definition demo_token_services : TokenServices := {|
  insertNewErc20Contracts l := update (λ d, set_tokens (erc20_contract d ++ l) (erc721_contract d) d);
  insertNewErc721Contracts l := update (λ d, set_tokens (erc20_contract d) (erc721_contract d ++ l) d) |}.
#[export] Instance demo_token_services_laws : TokenServicesLaws demo_token_services.
Proof. by split; intros l d. Qed.

Definition demo_proxy_address : string := ("0x" +:+ "C0DE000000000000000000000000000000000001")%string.
Definition demo_log (topic0 topic1 : option string) (hash : string) : EvmEvent := {|
  ev_evm_tx_id := 2; ev_tx_id := 1; ev_address := demo_proxy_address; ev_topic0 := topic0; ev_topic1 := topic1;
  ev_topic2 := None; ev_topic3 := None; ev_data := None; ev_block_height := 4860001; ev_tx_hash := hash;
  ev_block_hash := "0xb"; ev_tx_index := 0 |}.
Definition demo_impl (n : string) : string := ("000000000000000000000000" +:+ "00000000000000000000000000000000000000A" +:+ n)%string.
Definition demo_event_signature : option string := Some "0xselector...".
Definition demo_contract (i : Z) (a : string) (ty : option string) : EVMSmartContract := {|
  sc_id := i; sc_address := a; sc_creator := None; sc_created_height := None; sc_created_hash := None;
  sc_type := ty; sc_code_hash := None |}.
(** A proxy that is upgraded twice in one block. *)
Definition demo_proxy_db (last_topic : option string) : Db := {|
  evm_transaction := [];
  evm_event := [demo_log demo_event_signature (Some (demo_impl "1")) "0x01"; demo_log (Some "0xother") None "0x02";
                demo_log demo_event_signature last_topic "0x03"];
  evm_internal_transaction := [];
  evm_smart_contract := [demo_contract 1 (toLowerCase demo_proxy_address) (Some TYPES.PROXY_EIP_1967);
                         demo_contract 2 (toLowerCase ("0x" +:+ "00000000000000000000000000000000000000A2")) (Some TYPES.ERC20)];
  next_contract_id := 3; verify_jobs := []; evm_proxy_history := []; next_history_id := 1;
  erc20_contract := []; erc721_contract := [];
  block_checkpoint := <["crawl:smart-contract-evm" := 4860002]> ∅ |}.

Definition demo_crawl_proxies (d : Db) : Db * res () :=
  crawlProxyHistory (N := demo_contract_node) (K := demo_code_tools) (S := in_order) (A := demo_abi_address)
    (T := demo_token_services) Config.json d.

Example demo_proxy_rows :
  let d := (demo_crawl_proxies (demo_proxy_db (Some (demo_impl "2")))).1 in
  ((λ h, (ph_id h, ph_tx_hash h)) <$> evm_proxy_history d, erc20_contract d) =
  ([(1, "0x03")], [(1, toLowerCase demo_proxy_address)]).
Proof. vm_compute. reflexivity. Qed.

Lemma demo_logs_ok t : addresses_ok (demo_proxy_db t).
Proof.
  intros ev Hev. repeat (apply elem_of_cons in Hev as [->|Hev]; [done|]). by apply not_elem_of_nil in Hev.
Qed.

Lemma upgrades_stored_witness :
  let d' := (demo_crawl_proxies (demo_proxy_db (Some (demo_impl "2")))).1 in
  let rows := at_key (toLowerCase demo_proxy_address) 4860001 (evm_proxy_history d') in
  rows ≠ [] ∧ Forall (λ x, ph_implementation_contract x = Some (toLowerCase ("0x" +:+ "00000000000000000000000000000000000000A2"))) rows.
Proof.
  cbv zeta.
  destruct (upgrades_stored (N := demo_contract_node) (K := demo_code_tools) (S := in_order) (A := demo_abi_address)
    (T := demo_token_services) Config.json (demo_proxy_db (Some (demo_impl "2"))) 4860000 4860002
    {| job_name := "handle:evm-proxy-history"; height := 4860000 |}) as [_ H].
  - apply _.
  - vm_compute. reflexivity.
  - apply demo_logs_ok.
  - split; [|split].
    + intros a. done.
    + done.
    + intros ev Hev. apply list_elem_of_filter in Hev as [_ Hev].
      repeat (apply elem_of_cons in Hev as [->|Hev]; [done|]). by apply not_elem_of_nil in Hev.
  - specialize (H (toLowerCase demo_proxy_address) 4860001).
    destruct (last_upgrade _ _ _ _ _) as [u|] eqn:Hu; [|by vm_compute in Hu].
    destruct H as [Hne Hall]. split; [exact Hne|]. eapply Forall_impl; [exact Hall|].
    intros x (_ & -> & _). vm_compute in Hu. injection Hu as <-. vm_compute. reflexivity.
Defined.

Lemma malformed_upgrade_stops_job_witness :
  ∃ msg, demo_crawl_proxies (demo_proxy_db None) = (demo_proxy_db None, Throw msg).
Proof.
  apply (malformed_upgrade_stops_job (N := demo_contract_node) (K := demo_code_tools) (S := in_order)
    (A := demo_abi_address) (T := demo_token_services) Config.json (demo_proxy_db None) 4860000 4860002
    {| job_name := "handle:evm-proxy-history"; height := 4860000 |} (demo_log demo_event_signature None "0x03")).
  - vm_compute. reflexivity.
  - by do 2 right; left.
  - simpl. lia.
  - done.
  - done.
Defined.

(** A contract whose type is not known yet. *)
Definition demo_unknown_db : Db := set_contracts [demo_contract 1 "0xc0de" None] 2 (demo_proxy_db None).
Definition demo_detect (d : Db) : Db * res (option EvmProxyHistory) :=
  detectEvmProxy (N := demo_contract_node) (S := in_order) "0xc0de" d.

Lemma detect_twice_witness :
  ∃ h d1, demo_detect demo_unknown_db = (d1, Ok (Some h)) ∧ demo_detect d1 = (d1, Ok (Some h)) ∧
    evm_proxy_history d1 = [h] ∧ (sc_type <$> evm_smart_contract d1) = [Some TYPES.PROXY_EIP_1967].
Proof.
  destruct (demo_detect demo_unknown_db) as [d1 [[h|]|]] eqn:Hd; [|by vm_compute in Hd..].
  exists h, d1. split; [done|]. split; [by apply (detect_twice _ demo_unknown_db)|].
  vm_compute in Hd. by injection Hd as <- <-.
Defined.
