(* ===== verification/Media.v ===== *)
(** * Media of tokens

    [services/cw721/cw721-media.service.ts], and for ERC-721 the two media jobs
    of [services/evm/erc721.service.ts] with
    [services/evm/erc721_media_handler.ts].  A filter job takes the next tokens
    without media by id, asks the chain where their metadata is and queues one
    job per token; that job downloads the metadata, copies the image and the
    animation to S3 and stores the links.

    The web, the parsing of URIs, the recognition of IPFS URLs and of file types
    and what the contracts answer are parameters; the bucket is part of the
    state. *)
From Stdlib Require Import Ascii.
From S2P Require Import Prelude JsNum.

(** ** Data *)

(** What the handlers tell apart: errors of axios, of [JSON.parse], others. *)
Inductive MediaError := AxiosError | SyntaxError | OtherError (msg : string).

Record Uri := { protocol : string; host : string; path : string }.
Record Metadata := { image : option string; animation_url : option string }.
Record Offchain := { url : option string; content_type : option string; file_path : option string }.
Definition no_file : Offchain := {| url := None; content_type := None; file_path := None |}.

Record ITokenMediaInfo := {
  tm_id : Z; tm_address : string; tm_token_id : string;
  tm_token_uri : option string; tm_extension : option Metadata; tm_metadata : option Metadata;
  tm_image : Offchain; tm_animation : Offchain }.
(** The column [media_info]. *)
Record MediaInfo := {
  mi_token_uri : option string; mi_metadata : option Metadata; mi_image : Offchain; mi_animation : Offchain }.
(** A row of [cw721_token] or [erc721_token] with the address of its contract. *)
Record MediaToken := {
  mt_id : Z; mt_address : string; mt_token_id : string; mt_burned : bool; mt_media_info : option MediaInfo }.

(** The content types of the objects of the bucket, by key. *)
Abbreviation Bucket := (gmap string string).

Record Db := {
  bucket : Bucket;
  tokens : list MediaToken;
  queue : list (string * ITokenMediaInfo);
  block_checkpoint : gmap string Z }.
Definition set_bucket (b : Bucket) (d : Db) : Db :=
  {| bucket := b; tokens := tokens d; queue := queue d; block_checkpoint := block_checkpoint d |}.
Definition set_tokens (l : list MediaToken) (d : Db) : Db :=
  {| bucket := bucket d; tokens := l; queue := queue d; block_checkpoint := block_checkpoint d |}.
Definition set_queue (l : list (string * ITokenMediaInfo)) (d : Db) : Db :=
  {| bucket := bucket d; tokens := tokens d; queue := l; block_checkpoint := block_checkpoint d |}.
Definition set_checkpoint (name : string) (h : Z) (d : Db) : Db :=
  {| bucket := bucket d; tokens := tokens d; queue := queue d; block_checkpoint := <[name := h]> (block_checkpoint d) |}.

(** ** Programs on the bucket that can fail *)
Inductive outcome (A : Type) := Done (a : A) | Failed (e : MediaError).
Arguments Done {_} a.
Arguments Failed {_} e.
Definition s3 (A : Type) := Bucket → Bucket * outcome A.
#[export] Instance s3_ret : MRet s3 := λ A a b, (b, Done a).
#[export] Instance s3_bind : MBind s3 := λ A B k m b,
  match m b with (b', Done a) => k a b' | (b', Failed e) => (b', Failed e) end.
Definition from_outcome {A} (o : outcome A) : s3 A := λ b, (b, o).
Definition fail {A} (e : MediaError) : s3 A := λ b, (b, Failed e).
(** [try { m } catch (error) { h(error) }] *)
Definition try_catch {A} (m : s3 A) (h : MediaError → s3 A) : s3 A := λ b,
  match m b with (b', Done a) => (b', Done a) | (b', Failed e) => h e b' end.

Class Web := {
  download : string → outcome string;
  parse : string → Uri;
  ipfsUrl : string → bool;
  ipfsSubdomain : string → bool;
  fileTypeFromBuffer : string → option string;
  JSON_parse_metadata : string → outcome (option Metadata);
  (** Requests that S3 refuses for another reason than a missing object. *)
  head_refused : string → bool;
  upload_refused : string → bool;
  (** The content type S3 gives to an object uploaded without one. *)
  default_type : string
}.

Definition IPFS_PREFIX := "ipfs".
Definition HTTP_PREFIX := "http".
Definition HTTPS_PREFIX := "https".

(** [s.slice(n)] and [s ? ... : ...] of a text *)
Definition slice_from (n : nat) (s : string) : string := String.substring n (String.length s - n) s.
Definition truthy (s : string) : bool := negb (bool_decide (s = "")).

Section Handler.
Context {W : Web}.
Context (IPFS_GATEWAY S3_GATEWAY : string).

Definition parseIPFSUri (uri : string) : string :=
  let formatUri :=
    if bool_decide (String.substring 0 5 uri = "/ipfs") then ("ipfs:/" +:+ slice_from 5 uri)%string else uri in
  let parsed := parse formatUri in
  if bool_decide (protocol parsed = IPFS_PREFIX) then
    let url := (IPFS_GATEWAY +:+ host parsed)%string in
    if truthy (path parsed) then (url +:+ path parsed)%string else url
  else uri.

Definition parseFilename (media_uri : string) : option string :=
  let parsed := parse media_uri in
  let rest := if String.prefix "/ipfs/" media_uri then Some (slice_from 1 media_uri) else None in
  if bool_decide (protocol parsed = IPFS_PREFIX) then
    if truthy (path parsed) then Some ("ipfs/" +:+ host parsed +:+ path parsed)%string
    else Some ("ipfs/" +:+ host parsed)%string
  else if bool_decide (protocol parsed = HTTP_PREFIX) || bool_decide (protocol parsed = HTTPS_PREFIX) then
    if ipfsUrl media_uri then
      if ipfsSubdomain media_uri then Some (host parsed +:+ path parsed)%string
      else Some (slice_from 1 (path parsed))
    else rest
  else rest.

Definition downloadAttachment (url : string) : s3 string := from_outcome (download url).

Record Uploaded := { linkS3 : string; contentType : option string; key : string }.

Definition uploadAttachmentToS3 (fileName : string) (type : option string) : s3 Uploaded := λ b,
  if upload_refused fileName then (b, Failed (OtherError "upload"))
  else (<[fileName := default default_type type]> b,
        Done {| linkS3 := (S3_GATEWAY +:+ fileName)%string; contentType := type; key := fileName |}).

Definition uploadMediaToS3 (media_uri : option string) : s3 (option Uploaded) := λ b,
  match media_uri with
  | None => (b, Done None)
  | Some media_uri =>
      if negb (truthy media_uri) then (b, Done None) else
      match parseFilename media_uri with
      | None => (b, Done None)
      | Some fileName =>
          if negb (truthy fileName) then (b, Done None) else
          if head_refused fileName then (b, Failed (OtherError "headObject")) else
          match b !! fileName with
          | Some type =>
              (b, Done (Some {| linkS3 := (S3_GATEWAY +:+ fileName)%string; contentType := Some type; key := fileName |}))
          | None =>
              (mediaBuffer ← downloadAttachment (parseIPFSUri media_uri);
               let type := match fileTypeFromBuffer mediaBuffer with
                           | Some t => Some (if bool_decide (t = "application/xml") then "image/svg+xml" else t)
                           | None => None
                           end in
               u ← uploadAttachmentToS3 fileName type;
               mret (Some u)) b
          end
      end
  end.

Definition offchain_of (u : option Uploaded) : Offchain := {|
  url := linkS3 <$> u; content_type := u ≫= contentType; file_path := key <$> u |}.

(** One of the two blocks of [updateMediaS3]: what axios cannot download is
    left empty. *)
Definition offchain_media (media_uri : option string) : s3 Offchain :=
  try_catch (u ← uploadMediaToS3 media_uri; mret (offchain_of u))
    (λ e, match e with AxiosError => mret no_file | _ => fail e end).

Definition updateMediaS3 (tm : ITokenMediaInfo) : s3 ITokenMediaInfo :=
  i ← offchain_media (tm_metadata tm ≫= image);
  a ← offchain_media (tm_metadata tm ≫= animation_url);
  mret {| tm_id := tm_id tm; tm_address := tm_address tm; tm_token_id := tm_token_id tm;
          tm_token_uri := tm_token_uri tm; tm_extension := tm_extension tm; tm_metadata := tm_metadata tm;
          tm_image := i; tm_animation := a |}.

Definition getMetadata (token_uri : string) : s3 (option Metadata) :=
  metadata ← downloadAttachment (parseIPFSUri token_uri);
  from_outcome (JSON_parse_metadata metadata).

Definition with_metadata (m : option Metadata) (tm : ITokenMediaInfo) : ITokenMediaInfo := {|
  tm_id := tm_id tm; tm_address := tm_address tm; tm_token_id := tm_token_id tm;
  tm_token_uri := tm_token_uri tm; tm_extension := tm_extension tm; tm_metadata := m;
  tm_image := tm_image tm; tm_animation := tm_animation tm |}.

(** CW721: what cannot be downloaded or read is replaced by the extension. *)
Definition cw721_metadata (tm : ITokenMediaInfo) : s3 (option Metadata) :=
  match tm_token_uri tm with
  | Some token_uri =>
      if truthy token_uri then
        try_catch (getMetadata token_uri)
          (λ e, match e with AxiosError | SyntaxError => mret (tm_extension tm) | _ => fail e end)
      else mret (tm_extension tm)
  | None => mret (tm_extension tm)
  end.
(** ERC-721: every error is thrown again. *)
Definition erc721_metadata (tm : ITokenMediaInfo) : s3 (option Metadata) :=
  match tm_token_uri tm with
  | Some token_uri => if truthy token_uri then getMetadata token_uri else mret (tm_metadata tm)
  | None => mret (tm_metadata tm)
  end.

Definition patch_media (tm : ITokenMediaInfo) (l : list MediaToken) : list MediaToken :=
  (λ t, if bool_decide (mt_id t = tm_id tm)
        then {| mt_id := mt_id t; mt_address := mt_address t; mt_token_id := mt_token_id t; mt_burned := mt_burned t;
                mt_media_info := Some {| mi_token_uri := tm_token_uri tm; mi_metadata := tm_metadata tm;
                                         mi_image := tm_image tm; mi_animation := tm_animation tm |} |}
        else t) <$> l.

(** [jobHandlerTokenMedia]: uploads stay when the job fails later. *)
Definition jobHandlerTokenMedia (metadata : ITokenMediaInfo → s3 (option Metadata)) (tm : ITokenMediaInfo) (d : Db)
  : Db * outcome () :=
  match (m ← metadata tm; updateMediaS3 (with_metadata m tm)) (bucket d) with
  | (b, Done tm') => (set_tokens (patch_media tm' (tokens d)) (set_bucket b d), Done tt)
  | (b, Failed e) => (set_bucket b d, Failed e)
  end.
Definition cw721_token_media := jobHandlerTokenMedia cw721_metadata.
Definition erc721_token_media := jobHandlerTokenMedia erc721_metadata.
End Handler.

(** ** The jobs that choose the tokens *)
Section Filter.

(** [createJob] with a job id: a job that waits under the id stays. *)
Definition add_job (id : string) (tm : ITokenMediaInfo) (q : list (string * ITokenMediaInfo)) :=
  if bool_decide (id ∈ q.*1) then q else q ++ [(id, tm)].

(** What the two services differ in. *)
Class MediaKind := {
  k_job : string;
  k_limit : nat;
  k_eligible : MediaToken → bool;
  k_info : MediaToken → res ITokenMediaInfo;
  k_jobId : ITokenMediaInfo → string
}.
Context {K : MediaKind}.

Definition idTokenCheckpoint (d : Db) : Z := default 0 (block_checkpoint d !! k_job).

Definition tokensUnprocess (d : Db) : list MediaToken :=
  take k_limit (sortBy mt_id
    (filter (λ t, mt_media_info t = None ∧ k_eligible t = true ∧ idTokenCheckpoint d < mt_id t) (tokens d))).

Definition jobHandlerFilter : io Db () :=
  l ← query tokensUnprocess;
  match last l with
  | None => mret ()
  | Some final =>
      infos ← lift (mapR k_info l);
      update (λ d, set_queue (foldl (λ q tm, add_job (k_jobId tm) tm q) (queue d) infos) d);;
      update (set_checkpoint k_job (mt_id final))
  end.
End Filter.

(** CW721: the contract is asked for [all_nft_info]. *)
Record NftInfo := { ni_token_uri : option string; ni_extension : option Metadata }.
Record AllNftInfo := { top : NftInfo; nested_info : option NftInfo }.
Class Cw721Chain := {
  (** the base64 value of the response *)
  querySmartContractState : string → string → res (option string);
  (** [JSON.parse(fromUtf8(decode(fromBase64(value)).data))] *)
  decode_response : option string → res AllNftInfo
}.
Definition quoted (s : string) : string := String "034" (s +:+ String "034" "").
Definition all_nft_info_query (token_id : string) : string :=
  ("{" +:+ quoted "all_nft_info" +:+ ":{" +:+ quoted "token_id" +:+ ": " +:+ quoted token_id +:+ "}}")%string.
Definition or_else {A} (a b : option A) : option A := match a with Some x => Some x | None => b end.

Definition getTokensMediaInfo {N : Cw721Chain} (t : MediaToken) : res ITokenMediaInfo :=
  value ← querySmartContractState (mt_address t) (all_nft_info_query (mt_token_id t));
  let tokenInfo := match decode_response value with
                   | Ok i => i
                   | Throw _ => {| top := {| ni_token_uri := None; ni_extension := None |}; nested_info := None |}
                   end in
  Ok {| tm_id := mt_id t; tm_address := mt_address t; tm_token_id := mt_token_id t;
        tm_token_uri := or_else (ni_token_uri (top tokenInfo)) (nested_info tokenInfo ≫= ni_token_uri);
        tm_extension := or_else (ni_extension (top tokenInfo)) (nested_info tokenInfo ≫= ni_extension);
        tm_metadata := Some {| image := None; animation_url := None |};
        tm_image := no_file; tm_animation := no_file |}.

Definition cw721_media {N : Cw721Chain} (mediaPerBatch : nat) : MediaKind := {|
  k_job := "filter:cw721-token-media-unprocess"; k_limit := mediaPerBatch; k_eligible t := negb (mt_burned t);
  k_info := getTokensMediaInfo; k_jobId tm := key2 (tm_address tm) (tm_token_id tm) |}.

(** ERC-721: the contract is asked for [tokenURI]. *)
Class Erc721Chain := { read_tokenURI : string → Z → res string }.

Definition getTokensUri {N : Erc721Chain} (t : MediaToken) : res ITokenMediaInfo :=
  token_id ← BigInt (mt_token_id t);
  Ok {| tm_id := mt_id t; tm_address := mt_address t; tm_token_id := mt_token_id t;
        tm_token_uri := match read_tokenURI (mt_address t) token_id with Ok u => Some u | Throw _ => None end;
        tm_extension := None; tm_metadata := Some {| image := None; animation_url := None |};
        tm_image := no_file; tm_animation := no_file |}.

Definition erc721_media {N : Erc721Chain} (mediaPerBatch : nat) : MediaKind := {|
  k_job := "handle:erc721-media"; k_limit := mediaPerBatch; k_eligible _ := true;
  k_info := getTokensUri; k_jobId tm := key2 (tm_address tm) (toString (tm_id tm)) |}.

(** ** The bucket *)

(** A program that only adds objects. *)
Class Grows {A} (m : s3 A) : Prop := grows b : b ⊆ (m b).1.

#[export] Instance grows_ret {A} (a : A) : Grows (mret a).
Proof. by intros b. Qed.
#[export] Instance grows_fail {A} e : Grows (@fail A e).
Proof. by intros b. Qed.
#[export] Instance grows_outcome {A} (o : outcome A) : Grows (from_outcome o).
Proof. by intros b. Qed.
#[export] Instance grows_bind {A B} (m : s3 A) (k : A → s3 B) : Grows m → (∀ a, Grows (k a)) → Grows (m ≫= k).
Proof.
  intros Hm Hk b. unfold mbind, s3_bind. pose proof (Hm b) as Hb. destruct (m b) as [b1 [a|e]]; [|done].
  etrans; [exact Hb|]. apply Hk.
Qed.
#[export] Instance grows_try {A} (m : s3 A) h : Grows m → (∀ e, Grows (h e)) → Grows (try_catch m h).
Proof.
  intros Hm Hk b. unfold try_catch. pose proof (Hm b) as Hb. destruct (m b) as [b1 [a|e]]; [done|].
  etrans; [exact Hb|]. apply Hk.
Qed.

Lemma bind_Done {A B} (m : s3 A) (k : A → s3 B) b b' r :
  (m ≫= k) b = (b', Done r) → ∃ b1 a, m b = (b1, Done a) ∧ k a b1 = (b', Done r).
Proof. unfold mbind, s3_bind. destruct (m b) as [b1 [a|e]]; [eauto|done]. Qed.

Section Links.
Context {W : Web}.
Context (IPFS_GATEWAY S3_GATEWAY : string).

#[local] Abbreviation upload := (uploadMediaToS3 IPFS_GATEWAY S3_GATEWAY).

(** An upload finds its object in the bucket or puts it there. *)
Lemma upload_cases uri b b' o :
  upload uri b = (b', o) →
  (b' = b ∧ (o = Done None ∨ (∃ e, o = Failed e) ∨
     ∃ f t, b !! f = Some t ∧ o = Done (Some {| linkS3 := S3_GATEWAY +:+ f; contentType := Some t; key := f |}))) ∨
  ∃ f t, b !! f = None ∧ b' = <[f := default default_type t]> b ∧
    o = Done (Some {| linkS3 := S3_GATEWAY +:+ f; contentType := t; key := f |}).
Proof.
  unfold uploadMediaToS3. destruct uri as [uri|]; [|intros [= <- <-]; left; eauto].
  destruct (negb _); [intros [= <- <-]; left; eauto|]. destruct (parseFilename uri) as [f|]; [|intros [= <- <-]; left; eauto].
  destruct (negb _); [intros [= <- <-]; left; eauto|]. destruct (head_refused f); [intros [= <- <-]; left; eauto 6|].
  destruct (b !! f) as [t|] eqn:Hf; [intros [= <- <-]; left; eauto 10|].
  unfold mbind, s3_bind, downloadAttachment, from_outcome. destruct (download _) as [buffer|e]; [|intros [= <- <-]; left; eauto 6].
  unfold uploadAttachmentToS3. destruct (upload_refused f); [intros [= <- <-]; left; eauto 6|].
  intros [= <- <-]. right. eauto.
Qed.

#[export] Instance grows_upload uri : Grows (upload uri).
Proof.
  intros b. destruct (upload uri b) as [b' o] eqn:Hu.
  apply upload_cases in Hu as [[-> _]|(f & t & Hf & -> & _)]; [done|]. by apply insert_subseteq.
Qed.
#[export] Instance grows_offchain uri : Grows (offchain_media IPFS_GATEWAY S3_GATEWAY uri).
Proof. unfold offchain_media. apply grows_try; [apply _|]. intros []; apply _. Qed.
#[export] Instance grows_updateMediaS3 tm : Grows (updateMediaS3 IPFS_GATEWAY S3_GATEWAY tm).
Proof. unfold updateMediaS3. apply _. Qed.
#[export] Instance grows_getMetadata uri : Grows (getMetadata IPFS_GATEWAY uri).
Proof. unfold getMetadata, downloadAttachment. apply _. Qed.
#[export] Instance grows_cw721_metadata tm : Grows (cw721_metadata IPFS_GATEWAY tm).
Proof.
  unfold cw721_metadata. destruct (tm_token_uri tm); [|apply _]. destruct (truthy _); [|apply _].
  apply grows_try; [apply _|]. intros []; apply _.
Qed.
#[export] Instance grows_erc721_metadata tm : Grows (erc721_metadata IPFS_GATEWAY tm).
Proof. unfold erc721_metadata. destruct (tm_token_uri tm); [|apply _]. destruct (truthy _); apply _. Qed.

(** A stored link leads to an object of the bucket, of the stored type or, when
    none was recognised, of the type S3 gives. *)
Definition link_ok (b : Bucket) (o : Offchain) : Prop :=
  ∀ l, url o = Some l → ∃ k t, file_path o = Some k ∧ l = (S3_GATEWAY +:+ k)%string ∧ b !! k = Some t ∧
    default default_type (content_type o) = t.
Definition info_ok (b : Bucket) (i : MediaInfo) : Prop := link_ok b (mi_image i) ∧ link_ok b (mi_animation i).
Definition links_ok (d : Db) : Prop :=
  ∀ t i, t ∈ tokens d → mt_media_info t = Some i → info_ok (bucket d) i.

Lemma link_ok_grows b b' o : b ⊆ b' → link_ok b o → link_ok b' o.
Proof.
  intros Hb Ho l Hl. destruct (Ho l Hl) as (k & t & Hk & Hlk & Hbk & Ht). exists k, t. do 2 (split; [done|]).
  split; [by eapply lookup_weaken|done].
Qed.

Lemma offchain_link_ok uri b b' o :
  offchain_media IPFS_GATEWAY S3_GATEWAY uri b = (b', Done o) → link_ok b' o.
Proof.
  unfold offchain_media, try_catch, mbind, s3_bind.
  destruct (upload uri b) as [b1 [u|e]] eqn:Hu; [intros [= <- <-]|by destruct e; intros [= <- <-]].
  apply upload_cases in Hu as [[-> [[= ->]|[[e [=]]|(f & t & Hf & [= ->])]]]|(f & t & Hf & -> & [= ->])].
  - by intros l.
  - intros l [= <-]. by exists f, t.
  - intros l [= <-]. exists f, (default default_type t). do 2 (split; [done|]). split; [apply lookup_insert_eq|done].
Qed.

Lemma updateMediaS3_ok tm b b' tm' :
  updateMediaS3 IPFS_GATEWAY S3_GATEWAY tm b = (b', Done tm') →
  tm_id tm' = tm_id tm ∧ tm_metadata tm' = tm_metadata tm ∧ tm_token_uri tm' = tm_token_uri tm ∧
  link_ok b' (tm_image tm') ∧ link_ok b' (tm_animation tm').
Proof.
  intros Hu. apply bind_Done in Hu as (b1 & i & Hi & Hu). apply bind_Done in Hu as (b2 & a & Ha & Hu).
  injection Hu as <- <-. cbn [tm_image tm_animation]. do 3 (split; [done|]).
  split; [|by eapply offchain_link_ok]. apply (link_ok_grows b1); [|by eapply offchain_link_ok].
  pose proof (grows_offchain (tm_metadata tm ≫= animation_url) b1) as Hg. by rewrite Ha in Hg.
Qed.

(** What a token job leaves. *)
Lemma token_media_cases metadata `{!∀ tm, Grows (metadata tm)} tm d d' o :
  jobHandlerTokenMedia IPFS_GATEWAY S3_GATEWAY metadata tm d = (d', o) →
  bucket d ⊆ bucket d' ∧ queue d' = queue d ∧ block_checkpoint d' = block_checkpoint d ∧
  (tokens d' = tokens d ∨
   ∃ tm', tokens d' = patch_media tm' (tokens d) ∧ tm_id tm' = tm_id tm ∧
     link_ok (bucket d') (tm_image tm') ∧ link_ok (bucket d') (tm_animation tm')).
Proof.
  unfold jobHandlerTokenMedia. intros Hrun.
  assert (Grows (m ← metadata tm; updateMediaS3 IPFS_GATEWAY S3_GATEWAY (with_metadata m tm))) as Hg by apply _.
  specialize (Hg (bucket d)).
  destruct ((m ← metadata tm; updateMediaS3 IPFS_GATEWAY S3_GATEWAY (with_metadata m tm)) (bucket d)) as [b [tm'|e]] eqn:Hm;
    injection Hrun as <- <-; (split; [done|]); (split; [done|]); (split; [done|]); [right|by left].
  apply bind_Done in Hm as (b1 & m & _ & Hm). apply updateMediaS3_ok in Hm as (Hid & _ & _ & Hi & Ha).
  exists tm'. done.
Qed.
End Links.

(** ** Runs of the two jobs of a service *)
Section Runs.
Context {W : Web} {K : MediaKind}.
Context (IPFS_GATEWAY S3_GATEWAY : string) (metadata : ITokenMediaInfo → s3 (option Metadata)).

(** The filter runs; a queued job runs, with success or not, and leaves the
    queue; the jobs of other services add tokens and change columns that are
    not about media. *)
Inductive media_step : Db → Db → Prop :=
| step_filter d : media_step d (jobHandlerFilter d).1
| step_media d q1 id tm q2 :
    queue d = q1 ++ (id, tm) :: q2 →
    media_step d (jobHandlerTokenMedia IPFS_GATEWAY S3_GATEWAY metadata tm (set_queue (q1 ++ q2) d)).1
| step_token d t : mt_media_info t = None → media_step d (set_tokens (tokens d ++ [t]) d)
| step_column d l :
    Forall2 (λ t t', mt_id t' = mt_id t ∧ mt_media_info t' = mt_media_info t) (tokens d) l →
    media_step d (set_tokens l d).

(** A run of the filter. *)
Lemma filter_cases d d' o :
  jobHandlerFilter d = (d', o) →
  tokens d' = tokens d ∧ bucket d' = bucket d ∧
  (d' = d ∨
   ∃ final infos, last (tokensUnprocess d) = Some final ∧ mapR k_info (tokensUnprocess d) = Ok infos ∧
     queue d' = foldl (λ q tm, add_job (k_jobId tm) tm q) (queue d) infos ∧
     block_checkpoint d' = <[k_job := mt_id final]> (block_checkpoint d) ∧ o = Ok tt).
Proof.
  unfold jobHandlerFilter, query, mbind, io_bind, lift, update.
  destruct (last (tokensUnprocess d)) as [final|] eqn:Hl; [|intros [= <- <-]; eauto].
  destruct (mapR k_info (tokensUnprocess d)) as [infos|msg] eqn:Hi; intros [= <- <-]; [|eauto].
  split; [done|]. split; [done|]. right. by exists final, infos.
Qed.

Lemma tokensUnprocess_elem d t :
  t ∈ tokensUnprocess d → t ∈ tokens d ∧ mt_media_info t = None ∧ k_eligible t = true ∧ idTokenCheckpoint d < mt_id t.
Proof.
  unfold tokensUnprocess. intros Ht. apply list_elem_of_lookup in Ht as [i Ht].
  apply lookup_take_Some in Ht as [Ht _]. apply list_elem_of_lookup_2 in Ht.
  rewrite sortBy_perm, list_elem_of_filter in Ht. tauto.
Qed.

(** C37: every link stored as the media of a token leads to an object that is in
    the bucket, with the stored key and content type, whatever jobs ran, failed
    or ran again. *)
Theorem stored_links_exist `{!∀ tm, Grows (metadata tm)} d d' :
  rtc media_step d d' → links_ok S3_GATEWAY d → links_ok S3_GATEWAY d'.
Proof.
  induction 1 as [|d d1 d' Hstep _ IH]; [done|]. intros Hok. apply IH. clear IH. destruct Hstep as [d|d q1 id tm q2 Hq|d t Ht|d l Hl].
  - destruct (jobHandlerFilter d) as [d1 o] eqn:Hrun. apply filter_cases in Hrun as (Ht & Hb & _).
    unfold links_ok. cbn [fst]. by rewrite Ht, Hb.
  - destruct (jobHandlerTokenMedia _ _ _ tm _) as [d1 o] eqn:Hrun.
    apply (token_media_cases IPFS_GATEWAY S3_GATEWAY metadata) in Hrun as (Hb & _ & _ & Hcase). cbn [fst].
    cbn [bucket tokens set_queue] in *. intros t i Ht Hi.
    assert (t ∈ tokens d → info_ok S3_GATEWAY (bucket d1) i) as Hold.
    { intros Hin. destruct (Hok t i Hin Hi) as [H1 H2]. by split; eapply link_ok_grows. }
    destruct Hcase as [Heq|(tm' & Heq & _ & Himg & Hani)]; [rewrite Heq in Ht; by apply Hold|].
    rewrite Heq in Ht. unfold patch_media in Ht. apply list_elem_of_fmap in Ht as (t0 & -> & Ht0).
    case_bool_decide; [|by apply Hold]. injection Hi as <-. by split.
  - intros t' i [Hin|Heq%list_elem_of_singleton]%elem_of_app; [by apply Hok|]. by rewrite Heq, Ht.
  - intros t i Hin Hi. apply list_elem_of_lookup in Hin as [n Hn].
    destruct (Forall2_lookup_r _ _ _ _ _ Hl Hn) as (t0 & Ht0 & _ & Hm). apply (Hok t0); [by eapply list_elem_of_lookup_2|].
    by rewrite <-Hm.
Qed.

(** What the filter asks of its service. *)
Class MediaKindLaws : Prop := {
  info_id t m : k_info t = Ok m → tm_id m = mt_id t
}.

Lemma elem_of_add_jobs infos q j m :
  (j, m) ∈ foldl (λ q tm, add_job (k_jobId tm) tm q) q infos → (j, m) ∈ q ∨ m ∈ infos.
Proof.
  revert q. induction infos as [|m' infos IH]; intros q; [by left|]. simpl. intros Hin.
  apply IH in Hin as [Hin|Hin]; [|right; by right]. unfold add_job in Hin. case_bool_decide; [by left|].
  apply elem_of_app in Hin as [?|Heq%list_elem_of_singleton]; [by left|]. injection Heq as -> ->. right. by left.
Qed.

Lemma filter_checkpoint d d' o `{!MediaKindLaws} :
  jobHandlerFilter d = (d', o) → idTokenCheckpoint d <= idTokenCheckpoint d' ∧
  ∀ j m, (j, m) ∈ queue d' → (j, m) ∈ queue d ∨ idTokenCheckpoint d < tm_id m.
Proof.
  intros Hrun. apply filter_cases in Hrun as (_ & _ & [->|(final & infos & Hf & Hi & Hq & Hc & _)]); [split; [lia|auto]|].
  split.
  - unfold idTokenCheckpoint at 2. rewrite Hc, lookup_insert_eq. apply last_Some_elem_of, tokensUnprocess_elem in Hf.
    simpl. lia.
  - intros j m Hin. rewrite Hq in Hin. apply elem_of_add_jobs in Hin as [?|Hin]; [by left|right].
    apply mapR_Ok in Hi. apply list_elem_of_lookup in Hin as [n Hn].
    destruct (Forall2_lookup_r _ _ _ _ _ Hi Hn) as (t & Ht & Hm). rewrite (info_id _ _ Hm).
    apply list_elem_of_lookup_2, tokensUnprocess_elem in Ht. lia.
Qed.

(** The filter only moves forward.  Once its checkpoint has passed the id of
    a token, no job for the token is queued again; a token whose media job
    failed, or that was not eligible at the time, stays without media. *)
Theorem passed_tokens_not_queued `{!MediaKindLaws} `{!∀ tm, Grows (metadata tm)} d d' j m :
  rtc media_step d d' → (j, m) ∈ queue d' → tm_id m <= idTokenCheckpoint d → (j, m) ∈ queue d.
Proof.
  assert (∀ d d', media_step d d' → idTokenCheckpoint d <= idTokenCheckpoint d' ∧
    ((j, m) ∈ queue d' → tm_id m <= idTokenCheckpoint d → (j, m) ∈ queue d)) as Hone.
  { clear d d'. intros d d' [d0|d0 q1 id tm q2 Hq|d0 t Ht|d0 l Hl].
    - destruct (jobHandlerFilter d0) as [d1 o] eqn:Hrun. apply filter_checkpoint in Hrun as [Hc Hqu]; [|done].
      cbn [fst]. split; [done|]. intros Hin Hle. destruct (Hqu _ _ Hin); [done|lia].
    - destruct (jobHandlerTokenMedia _ _ _ tm _) as [d1 o] eqn:Hrun.
      apply (token_media_cases IPFS_GATEWAY S3_GATEWAY metadata) in Hrun as (_ & Hqu & Hc & _). cbn [fst].
      unfold idTokenCheckpoint. rewrite Hc, Hqu. split; [done|]. cbn [queue set_queue]. intros Hin _. rewrite Hq.
      rewrite elem_of_app in Hin. rewrite elem_of_app, elem_of_cons. tauto.
    - done.
    - done. }
  induction 1 as [|d d1 d' Hstep _ IH]; [done|]. intros Hin Hle. destruct (Hone _ _ Hstep) as [Hc Hq].
  apply Hq; [|done]. apply IH; [done|lia].
Qed.

(** ** All tokens are reached *)
Definition remaining (d : Db) : list MediaToken :=
  filter (λ t, mt_media_info t = None ∧ k_eligible t = true ∧ idTokenCheckpoint d < mt_id t) (tokens d).

(** Distinct tokens have distinct jobs. *)
Definition distinct_jobs (d : Db) : Prop :=
  ∀ t t' m m', t ∈ tokens d → t' ∈ tokens d → k_info t = Ok m → k_info t' = Ok m' →
    k_jobId m = k_jobId m' → t = t'.

(** The tokens between [c] and the checkpoint are queued, and only they. *)
Record queued_from (c : Z) (d : Db) : Prop := {
  queued_all t : t ∈ tokens d → mt_media_info t = None → k_eligible t = true → c < mt_id t <= idTokenCheckpoint d →
    ∃ m, k_info t = Ok m ∧ (k_jobId m, m) ∈ queue d;
  queued_only j : j ∈ (queue d).*1 → ∃ t m, t ∈ tokens d ∧ k_info t = Ok m ∧ j = k_jobId m ∧ mt_id t <= idTokenCheckpoint d
}.

Lemma sorted_take_mem (l : list MediaToken) n f t :
  Sorted (λ a b, mt_id a <= mt_id b) l → NoDup (mt_id <$> l) → last (take n l) = Some f →
  t ∈ l → mt_id t <= mt_id f → t ∈ take n l.
Proof.
  intros Hs%Sorted_StronglySorted Hnd Hf Ht Hle; [|by intros ???; lia].
  rewrite <-(take_drop n l) in Ht. apply elem_of_app in Ht as [Ht|Ht]; [done|].
  apply last_Some_elem_of in Hf as Hfin.
  assert (mt_id f <= mt_id t) as Hge.
  { rewrite <-(take_drop n l) in Hs. clear -Hs Hfin Ht. induction (take n l) as [|x k IH]; [by apply not_elem_of_nil in Hfin|].
    simpl in Hs. apply StronglySorted_inv in Hs as [Hs Hall]. apply elem_of_cons in Hfin as [->|Hfin]; [|by apply IH].
    rewrite Forall_forall in Hall. apply Hall, elem_of_app. by right. }
  rewrite (NoDup_fmap_key mt_id l t f Hnd); [done| | |lia].
  - rewrite <-(take_drop n l). apply elem_of_app. by right.
  - rewrite <-(take_drop n l). apply elem_of_app. by left.
Qed.
End Runs.

Section Liveness.
Context {K : MediaKind} `{!MediaKindLaws}.

Lemma add_jobs_fresh infos q :
  NoDup (k_jobId <$> infos) → (∀ m, m ∈ infos → k_jobId m ∉ q.*1) →
  foldl (λ q tm, add_job (k_jobId tm) tm q) q infos = q ++ ((λ m, (k_jobId m, m)) <$> infos).
Proof.
  revert q. induction infos as [|m infos IH]; intros q Hnd Hq; [by rewrite app_nil_r|].
  apply NoDup_cons in Hnd as [Hm Hnd]. simpl. unfold add_job at 2. rewrite bool_decide_eq_false_2 by (apply Hq; by left).
  rewrite IH; [by rewrite <-app_assoc|done|].
  intros m' Hm'. rewrite fmap_app, not_elem_of_app. split; [apply Hq; by right|].
  intros Heq%list_elem_of_singleton. cbn [fst] in Heq. apply Hm. rewrite <-Heq. by apply list_elem_of_fmap_2.
Qed.

(** Everything the filter needs is there. *)
Record filter_ready (d : Db) : Prop := {
  ready_limit : (0 < k_limit)%nat;
  ready_ids : NoDup (mt_id <$> tokens d);
  ready_infos t : t ∈ tokens d → ∃ m, k_info t = Ok m;
  ready_jobs : distinct_jobs d
}.

(** The last of the first tokens has the largest id among them. *)
Lemma sorted_take_max (l : list MediaToken) n f t :
  Sorted (λ a b, mt_id a <= mt_id b) l → last (take n l) = Some f → t ∈ take n l → mt_id t <= mt_id f.
Proof.
  intros Hs%Sorted_StronglySorted Hf Ht; [|by intros ???; lia].
  assert (StronglySorted (λ a b, mt_id a <= mt_id b) (take n l)) as Hst.
  { clear -Hs. revert n. induction l as [|x k IH]; intros [|n]; [constructor..|].
    apply StronglySorted_inv in Hs as [Hs Hx]. constructor; [by apply IH|by apply Forall_take]. }
  apply last_Some in Hf as [k Hk]. rewrite Hk in *. clear -Hst Ht. induction k as [|x k IH]; simpl in *.
  { apply list_elem_of_singleton in Ht as ->. lia. }
  apply StronglySorted_inv in Hst as [Hst Hx]. rewrite Forall_forall in Hx.
  apply elem_of_cons in Ht as [->|Ht]; [|by apply IH]. apply Hx, elem_of_app. right. by left.
Qed.

(** The jobs of distinct tokens have distinct ids. *)
Lemma jobs_NoDup d l infos :
  distinct_jobs d → NoDup (mt_id <$> l) → (∀ t, t ∈ l → t ∈ tokens d) →
  Forall2 (λ t m, k_info t = Ok m) l infos → NoDup (k_jobId <$> infos).
Proof.
  intros Hjobs Hnt Hsub Hi2. induction Hi2 as [|t m l infos Hm Hi2 IH]; [constructor|].
  rewrite !fmap_cons in *. apply NoDup_cons in Hnt as [Ht Hnt]. constructor; [|apply IH; [done|by intros; apply Hsub; right]].
  intros Hin. apply list_elem_of_fmap in Hin as (m' & Heq & Hin). apply list_elem_of_lookup in Hin as [n Hn].
  destruct (Forall2_lookup_r _ _ _ _ _ Hi2 Hn) as (t' & Ht' & Hm'). apply list_elem_of_lookup_2 in Ht'.
  apply Ht. rewrite (Hjobs t t' m m'); [|apply Hsub; by left|apply Hsub; by right|done..].
  by apply list_elem_of_fmap_2.
Qed.

(** Moving the checkpoint to a remaining token leaves fewer. *)
Lemma remaining_shrinks d d' f :
  tokens d' = tokens d → idTokenCheckpoint d' = mt_id f → f ∈ remaining d →
  (length (remaining d') < length (remaining d))%nat.
Proof.
  intros Ht Hcp Hf. unfold remaining at 1. rewrite Ht, Hcp.
  set (l' := filter _ (tokens d)). apply list_elem_of_filter in Hf as Hft. destruct Hft as [(_ & _ & Hgt) _].
  assert (l' `sublist_of` remaining d) as Hsub.
  { unfold remaining, l'. clear -Hgt. induction (tokens d) as [|t l IH]; [constructor|]. rewrite !filter_cons.
    case_decide as H1; case_decide as H2; [by constructor| |by constructor|done]. exfalso. apply H2.
    destruct H1 as (? & ? & ?). split_and!; [done|done|lia]. }
  pose proof (sublist_length _ _ Hsub). destruct (decide (length l' = length (remaining d))) as [Heq|]; [exfalso|lia].
  assert (l' ≡ₚ remaining d) as Hl by (apply submseteq_length_Permutation; [by apply sublist_submseteq|lia]).
  rewrite <-Hl in Hf. apply list_elem_of_filter in Hf as [(_ & _ & ?) _]. lia.
Qed.

(** A run of the filter while tokens remain. *)
Lemma filter_runs d :
  filter_ready d → remaining d ≠ [] → (∀ j, j ∈ (queue d).*1 → ∃ t m, t ∈ tokens d ∧ k_info t = Ok m ∧ j = k_jobId m ∧
     mt_id t <= idTokenCheckpoint d) →
  ∃ d' f infos, jobHandlerFilter d = (d', Ok tt) ∧ tokens d' = tokens d ∧ idTokenCheckpoint d' = mt_id f ∧
    f ∈ remaining d ∧ last (tokensUnprocess d) = Some f ∧
    Forall2 (λ t m, k_info t = Ok m) (tokensUnprocess d) infos ∧
    queue d' = queue d ++ ((λ m, (k_jobId m, m)) <$> infos).
Proof.
  intros [Hlim Hids Hinfos Hjobs] Hrem Honly.
  destruct (last (tokensUnprocess d)) as [f|] eqn:Hf; cycle 1.
  { exfalso. apply last_None in Hf. change (take k_limit (sortBy mt_id (remaining d)) = []) in Hf.
    assert (sortBy mt_id (remaining d) = []) as Hs.
    { destruct (sortBy mt_id (remaining d)); [done|]. destruct k_limit; [lia|done]. }
    apply Hrem, elem_of_nil_inv. intros t Ht. rewrite <-(sortBy_perm mt_id), Hs in Ht. by apply not_elem_of_nil in Ht. }
  destruct (mapR_total k_info (tokensUnprocess d)) as [infos Hi].
  { intros t Ht. apply tokensUnprocess_elem in Ht as [Ht _]. by apply Hinfos. }
  pose proof (proj1 (mapR_Ok _ _ _) Hi) as Hi2. pose proof (tokensUnprocess_elem d f (last_Some_elem_of _ _ Hf)) as Hft.
  exists (set_checkpoint k_job (mt_id f) (set_queue (foldl (λ q tm, add_job (k_jobId tm) tm q) (queue d) infos) d)), f, infos.
  split; [|split; [done|split; [|split; [|split; [done|split; [done|]]]]]].
  - unfold jobHandlerFilter, query, mbind, io_bind, lift, update. by rewrite Hf, Hi.
  - unfold idTokenCheckpoint, set_checkpoint. cbn. by rewrite lookup_insert_eq.
  - unfold remaining. apply list_elem_of_filter. tauto.
  - cbn [queue set_queue set_checkpoint]. apply add_jobs_fresh.
    + apply (jobs_NoDup d (tokensUnprocess d)); [done| |by intros t Ht; apply tokensUnprocess_elem in Ht as [? _]|done].
      assert (NoDup (mt_id <$> sortBy mt_id (remaining d))) as Hnd.
      { rewrite sortBy_perm. eapply sublist_NoDup; [exact Hids|]. apply fmap_sublist, sublist_filter. }
      eapply sublist_NoDup; [exact Hnd|]. apply fmap_sublist, sublist_take.
    + intros m Hm Hin. apply list_elem_of_lookup in Hm as [n Hn].
      destruct (Forall2_lookup_r _ _ _ _ _ Hi2 Hn) as (t & Ht & Hmt).
      apply list_elem_of_lookup_2, tokensUnprocess_elem in Ht as (Htt & _ & _ & Hgt).
      destruct (Honly _ Hin) as (t' & m' & Ht' & Hm' & Heq & Hle). rewrite (Hjobs t t' m m') in Hgt by done. lia.
Qed.

(** A run queues the next tokens. *)
Lemma filter_advances c d :
  filter_ready d → queued_from c d → remaining d ≠ [] →
  ∃ d', jobHandlerFilter d = (d', Ok tt) ∧ tokens d' = tokens d ∧ queued_from c d' ∧
    (length (remaining d') < length (remaining d))%nat.
Proof.
  intros Hready [Hall Honly] Hrem.
  destruct (filter_runs d Hready Hrem Honly) as (d' & f & infos & Hrun & Ht & Hcp & Hfr & Hf & Hi2 & Hq).
  exists d'. split; [done|]. split; [done|]. split; [|by eapply remaining_shrinks].
  assert (tokensUnprocess d = take k_limit (sortBy mt_id (remaining d))) as Hl by done.
  constructor; rewrite Ht, Hq, Hcp.
  - intros t Hin Hm He Hrange. destruct (decide (mt_id t <= idTokenCheckpoint d)) as [Hle|Hgt].
    { destruct (Hall t Hin Hm He) as (m & Hmi & Hjob); [lia|]. exists m. split; [done|]. apply elem_of_app. by left. }
    assert (t ∈ tokensUnprocess d) as Htu.
    { rewrite Hl. apply (sorted_take_mem _ k_limit f t); [apply sortBy_sorted| |by rewrite <-Hl| |lia].
      - rewrite sortBy_perm. eapply sublist_NoDup; [apply Hready|]. apply fmap_sublist, sublist_filter.
      - rewrite sortBy_perm. apply list_elem_of_filter. split; [|done]. split_and!; [done|done|lia]. }
    apply list_elem_of_lookup in Htu as [n Hn]. destruct (Forall2_lookup_l _ _ _ _ _ Hi2 Hn) as (m & Hm2 & Hmi).
    exists m. split; [done|]. apply elem_of_app. right. apply list_elem_of_fmap. exists m.
    split; [done|by eapply list_elem_of_lookup_2].
  - intros j Hj. rewrite fmap_app in Hj. apply elem_of_app in Hj as [Hj|Hj].
    + destruct (Honly j Hj) as (t & m & Hin & Hm & Hjm & Hle). exists t, m. split_and!; try done.
      apply list_elem_of_filter in Hfr as [(_ & _ & ?) _]. lia.
    + apply list_elem_of_fmap in Hj as ([j' m] & -> & Hj). apply list_elem_of_fmap in Hj as (m' & [= -> ->] & Hm).
      apply list_elem_of_lookup in Hm as [n Hn]. destruct (Forall2_lookup_r _ _ _ _ _ Hi2 Hn) as (t & Htn & Hmt).
      apply list_elem_of_lookup_2 in Htn. exists t, m'. split_and!; [by destruct (tokensUnprocess_elem d t Htn)|done|done|].
      rewrite Hl in Htn, Hf. eapply sorted_take_max; [apply sortBy_sorted|exact Hf|exact Htn].
Qed.

(** Repeated runs of the filter reach every token without media: after as
    many runs as there are such tokens, or fewer, each has its job in the
    queue. *)
Theorem all_media_queued d :
  filter_ready d → queue d = [] →
  ∃ n d', (n <= length (remaining d))%nat ∧ Nat.iter n (λ d, (jobHandlerFilter d).1) d = d' ∧ remaining d' = [] ∧
    ∀ t, t ∈ remaining d → ∃ m, k_info t = Ok m ∧ (k_jobId m, m) ∈ queue d'.
Proof.
  intros Hready Hq. set (c := idTokenCheckpoint d).
  assert (∀ k d1, (length (remaining d1) <= k)%nat → filter_ready d1 → queued_from c d1 →
    ∃ n, (n <= length (remaining d1))%nat ∧ let d' := Nat.iter n (λ d, (jobHandlerFilter d).1) d1 in
      tokens d' = tokens d1 ∧ queued_from c d' ∧ remaining d' = []) as Hind.
  { induction k as [|k IH]; intros d1 Hk Hr Hqf.
    { exists 0%nat. split; [lia|]. split; [done|]. split; [done|].
      change (remaining d1 = []). apply length_zero_iff_nil. lia. }
    destruct (decide (remaining d1 = [])) as [He|He]; [exists 0%nat; split; [lia|done]|].
    destruct (filter_advances c d1 Hr Hqf He) as (d2 & Hrun & Ht & Hqf2 & Hlt).
    destruct (IH d2) as (n & Hn & Htk & Hqn & Hrn); [lia| |done|].
    { destruct Hr as [H1 H2 H3 H4]. constructor; unfold distinct_jobs in *; rewrite ?Ht; done. }
    exists (S n). split; [lia|]. cbv zeta. rewrite Nat.iter_succ_r, Hrun. cbn [fst]. split; [by rewrite Htk|done]. }
  destruct (Hind _ d (le_n _) Hready) as (n & Hn & Ht & [Hall _] & Hrem).
  { constructor; rewrite ?Hq; [intros; lia|by intros j ?%not_elem_of_nil]. }
  eexists n, _. split; [done|]. split; [done|]. split; [done|]. intros t Hin. unfold remaining in Hin.
  apply list_elem_of_filter in Hin as [(Hm & He & Hgt) Hin]. apply Hall; [by rewrite Ht|done|done|].
  split; [done|]. destruct (decide (mt_id t <= idTokenCheckpoint (Nat.iter n (λ d, (jobHandlerFilter d).1) d))); [done|exfalso].
  assert (t ∈ remaining (Nat.iter n (λ d, (jobHandlerFilter d).1) d)) as Hr.
  { unfold remaining. apply list_elem_of_filter. rewrite Ht. split; [|done]. split_and!; [done|done|lia]. }
  rewrite Hrem in Hr. by apply not_elem_of_nil in Hr.
Qed.
End Liveness.

(** ** What one token job does *)
Section TokenJob.
Context {W : Web}.
Context (IPFS_GATEWAY S3_GATEWAY : string).

#[local] Abbreviation upload := (uploadMediaToS3 IPFS_GATEWAY S3_GATEWAY).

(** An upload that succeeded is found by the next one, which downloads
    nothing, changes nothing and answers the same link: a job that runs again
    is harmless. *)
Theorem upload_idempotent uri b b' u :
  upload uri b = (b', Done (Some u)) →
  ∃ t, b' !! key u = Some t ∧ linkS3 u = (S3_GATEWAY +:+ key u)%string ∧
    upload uri b' = (b', Done (Some {| linkS3 := linkS3 u; contentType := Some t; key := key u |})).
Proof.
  unfold uploadMediaToS3. destruct uri as [uri|]; [|done]. destruct (negb _); [done|].
  destruct (parseFilename uri) as [f|]; [|done]. destruct (negb _); [done|]. destruct (head_refused f); [done|].
  destruct (b !! f) as [t|] eqn:Hf.
  { intros [= <- <-]. exists t. cbn [key linkS3]. by rewrite Hf. }
  unfold mbind, s3_bind, downloadAttachment, from_outcome. destruct (download _) as [buffer|e]; [|done].
  unfold uploadAttachmentToS3. destruct (upload_refused f); [done|]. intros [= <- <-].
  eexists. cbn [key linkS3]. rewrite lookup_insert_eq. done.
Qed.

(** Names without the characters that separate the parts of a URI. *)
Fixpoint no_chars (bad : list ascii) (s : string) : bool :=
  match s with
  | "" => true
  | String c s => negb (bool_decide (c ∈ bad)) && no_chars bad s
  end.
Definition plain_path := no_chars ["?"; "#"; "@"; ":"]%char.
Definition plain := no_chars ["/"; "?"; "#"; "@"; ":"]%char.

(** How parse-uri reads the URIs of IPFS and of gateways. *)
Class UriLaws : Prop := {
  parse_ipfs cid p : plain cid = true → plain_path p = true →
    parse ("ipfs://" +:+ cid +:+ ("/" +:+ p)) = {| protocol := IPFS_PREFIX; host := cid; path := ("/" +:+ p)%string |};
  parse_https h p : plain h = true → plain_path p = true →
    parse ("https://" +:+ h +:+ ("/" +:+ p)) = {| protocol := HTTPS_PREFIX; host := h; path := ("/" +:+ p)%string |};
  parse_relative p : plain_path p = true → protocol (parse ("/" +:+ p)) = ""
}.

Lemma no_chars_app bad a b : no_chars bad (a +:+ b) = no_chars bad a && no_chars bad b.
Proof. induction a as [|c a IH]; [done|]. rewrite string_app_cons. simpl. by rewrite IH, andb_assoc. Qed.

Lemma plain_plain_path s : plain s = true → plain_path s = true.
Proof.
  unfold plain, plain_path. induction s as [|c s IH]; [done|]. cbn [no_chars].
  intros [Hc Hs]%andb_prop. rewrite (IH Hs), andb_true_r. apply negb_true_iff, bool_decide_eq_false in Hc.
  apply negb_true_iff, bool_decide_eq_false. intros Hn. apply Hc. by right.
Qed.

Lemma substring_full b : String.substring 0 (String.length b) b = b.
Proof. induction b as [|c b IH]; [done|]. simpl. by rewrite IH. Qed.

Lemma slice_from_app a b : slice_from (String.length a) (a +:+ b) = b.
Proof.
  unfold slice_from. rewrite string_length_app. replace (String.length a + String.length b - String.length a)%nat
    with (String.length b) by lia.
  induction a as [|c a IH]; [exact (substring_full b)|exact IH].
Qed.

Lemma slice_from_1 b : slice_from 1 ("/" +:+ b) = b.
Proof. exact (slice_from_app "/" b). Qed.
Lemma slice_from_5 b : slice_from 5 ("/ipfs" +:+ b) = b.
Proof. exact (slice_from_app "/ipfs" b). Qed.

Lemma prefix_app a b : String.prefix a (a +:+ b) = true.
Proof. induction a as [|c a IH]; [by destruct b|]. rewrite string_app_cons. simpl. by destruct (ascii_dec c c). Qed.

(** C39: the three ways to name a file of IPFS, [ipfs://], a path [/ipfs/] and a
    gateway, give the same key in the bucket, so the file is stored once; the
    first two are downloaded from the configured gateway. *)
Theorem ipfs_names_agree `{!UriLaws} cid p h :
  let file := ("ipfs/" +:+ (cid +:+ ("/" +:+ p)))%string in
  let gateway_url := ("https://" +:+ h +:+ ("/" +:+ file))%string in
  plain cid = true → plain_path p = true → plain h = true →
  ipfsUrl gateway_url = true → ipfsSubdomain gateway_url = false →
  parseFilename ("ipfs://" +:+ cid +:+ ("/" +:+ p)) = Some file ∧
  parseFilename ("/" +:+ file) = Some file ∧
  parseFilename gateway_url = Some file ∧
  parseIPFSUri IPFS_GATEWAY ("/" +:+ file) = (IPFS_GATEWAY +:+ cid +:+ ("/" +:+ p))%string ∧
  parseIPFSUri IPFS_GATEWAY ("ipfs://" +:+ cid +:+ ("/" +:+ p)) = (IPFS_GATEWAY +:+ cid +:+ ("/" +:+ p))%string.
Proof.
  intros file gateway_url Hcid Hp Hh Hurl Hsub.
  assert (plain_path file = true) as Hfile.
  { unfold file, plain_path. rewrite !no_chars_app. fold plain_path.
    rewrite Hp, (plain_plain_path cid Hcid). vm_compute. done. }
  assert (parseIPFSUri IPFS_GATEWAY ("ipfs://" +:+ cid +:+ ("/" +:+ p)) = (IPFS_GATEWAY +:+ cid +:+ ("/" +:+ p))%string) as Hipfs.
  { unfold parseIPFSUri. rewrite (bool_decide_eq_false_2 (String.substring 0 5 _ = _)) by done. cbv zeta.
    rewrite parse_ipfs by done. cbn [protocol path host]. rewrite bool_decide_eq_true_2 by done. cbn [truthy].
    by rewrite string_app_assoc. }
  split_and!; [| | | |done].
  - unfold parseFilename. rewrite parse_ipfs by done. cbn [protocol path host]. by rewrite bool_decide_eq_true_2.
  - unfold parseFilename. rewrite parse_relative, slice_from_1 by done.
    change ("/" +:+ file)%string with ("/ipfs/" +:+ (cid +:+ ("/" +:+ p)))%string.
    by rewrite prefix_app, !bool_decide_eq_false_2.
  - assert (parse gateway_url = {| protocol := HTTPS_PREFIX; host := h; path := ("/" +:+ file)%string |}) as Hparse
      by (by apply parse_https).
    unfold parseFilename. rewrite Hparse. cbn [protocol path].
    rewrite (bool_decide_eq_false_2 (HTTPS_PREFIX = IPFS_PREFIX)), (bool_decide_eq_true_2 (HTTPS_PREFIX = HTTPS_PREFIX)) by done.
    by rewrite orb_true_r, Hurl, Hsub, slice_from_1.
  - rewrite <-Hipfs. unfold parseIPFSUri at 1. rewrite (bool_decide_eq_true_2 (String.substring 0 5 _ = _)) by done.
    change ("/" +:+ file)%string with ("/ipfs" +:+ ("/" +:+ (cid +:+ ("/" +:+ p))))%string.
    rewrite slice_from_5.
    change ("ipfs:/" +:+ ("/" +:+ (cid +:+ ("/" +:+ p))))%string with ("ipfs://" +:+ cid +:+ ("/" +:+ p))%string.
    unfold parseIPFSUri. rewrite (bool_decide_eq_false_2 (String.substring 0 5 _ = _)) by done. cbv zeta.
    rewrite parse_ipfs by done. cbn [protocol]. by rewrite bool_decide_eq_true_2.
Qed.

(** Metadata that cannot be downloaded.  The CW721 job goes on with the
    extension of the token; when there is none it stores empty media, and the
    token is never looked at again.  The ERC-721 job fails and stores nothing. *)
Theorem unreachable_metadata tm d uri :
  tm_token_uri tm = Some uri → uri ≠ "" → download (parseIPFSUri IPFS_GATEWAY uri) = Failed AxiosError →
  (tm_extension tm = None → ∃ d', cw721_token_media IPFS_GATEWAY S3_GATEWAY tm d = (d', Done tt) ∧
     ∀ t, t ∈ tokens d' → mt_id t = tm_id tm →
       mt_media_info t = Some {| mi_token_uri := Some uri; mi_metadata := None; mi_image := no_file; mi_animation := no_file |}) ∧
  erc721_token_media IPFS_GATEWAY S3_GATEWAY tm d = (d, Failed AxiosError).
Proof.
  intros Huri Hne Hdown.
  assert (truthy uri = true) as Ht by (unfold truthy; by rewrite bool_decide_eq_false_2). split.
  - intros Hext. eexists. split.
    + unfold cw721_token_media, jobHandlerTokenMedia, cw721_metadata. rewrite Huri, Ht. unfold mbind at 1, s3_bind at 1.
      unfold try_catch, getMetadata, downloadAttachment, from_outcome, mbind at 1, s3_bind at 1. rewrite Hdown, Hext. reflexivity.
    + intros t Hin Hid. cbn [tokens set_tokens set_bucket] in Hin. unfold patch_media in Hin.
      apply list_elem_of_fmap in Hin as (t0 & -> & Hin). cbn [tm_id with_metadata tm_token_uri tm_metadata tm_image tm_animation] in *.
      case_bool_decide as Hd; [by rewrite Huri|done].
  - unfold erc721_token_media, jobHandlerTokenMedia, erc721_metadata. rewrite Huri, Ht. unfold mbind, s3_bind.
    unfold getMetadata, downloadAttachment, from_outcome, mbind, s3_bind. rewrite Hdown. by destruct d.
Qed.
End TokenJob.

#[export] Instance cw721_media_laws {N : Cw721Chain} n : MediaKindLaws (K := cw721_media n).
Proof.
  constructor. intros t m. cbn [k_info cw721_media]. unfold getTokensMediaInfo.
  intros Hm. by apply bind_Ok in Hm as (v & _ & [= <-]).
Qed.
#[export] Instance erc721_media_laws {N : Erc721Chain} n : MediaKindLaws (K := erc721_media n).
Proof.
  constructor. intros t m. cbn [k_info erc721_media]. unfold getTokensUri.
  intros Hm. by apply bind_Ok in Hm as (v & _ & [= <-]).
Qed.

(** ** Witnesses *)
Fixpoint split_slash (s : string) : string * string :=
  match s with
  | "" => ("", "")
  | String c r => if bool_decide (c = "/"%char) then ("", s) else let '(a, b) := split_slash r in (String c a, b)
  end.
Definition demo_parse (s : string) : Uri :=
  if String.prefix "ipfs://" s then
    let '(h, p) := split_slash (slice_from 7 s) in {| protocol := IPFS_PREFIX; host := h; path := p |}
  else if String.prefix "https://" s then
    let '(h, p) := split_slash (slice_from 8 s) in {| protocol := HTTPS_PREFIX; host := h; path := p |}
  else {| protocol := ""; host := ""; path := s |}.

Definition demo_web : Web := {|
  download u := if bool_decide (u = "gw:Qm1/1.json") then Done "json" else
                if bool_decide (u = "gw:Qm1/1.png") then Done "png" else Failed AxiosError;
  parse := demo_parse; ipfsUrl _ := true; ipfsSubdomain _ := false;
  fileTypeFromBuffer _ := Some "image/png";
  JSON_parse_metadata _ := Done (Some {| image := Some "ipfs://Qm1/1.png"; animation_url := Some "ipfs://Qm1/gone" |});
  head_refused _ := false; upload_refused _ := false; default_type := "binary/octet-stream" |}.

Lemma split_slash_plain a p : plain a = true → split_slash (a +:+ ("/" +:+ p)) = (a, ("/" +:+ p)%string).
Proof.
  induction a as [|c a IH]; [done|]. unfold plain. cbn [no_chars]. intros [Hc Ha]%andb_prop.
  rewrite string_app_cons. cbn [split_slash]. rewrite (IH Ha).
  apply negb_true_iff, bool_decide_eq_false in Hc. rewrite bool_decide_eq_false_2; [done|]. intros ->. apply Hc. by left.
Qed.
Lemma demo_uri_laws : UriLaws (W := demo_web).
Proof.
  constructor.
  - intros cid p Hcid _. cbn [parse demo_web]. unfold demo_parse. rewrite prefix_app.
    change (slice_from 7) with (slice_from (String.length "ipfs://")). rewrite slice_from_app.
    by rewrite split_slash_plain.
  - intros h p Hh _. cbn [parse demo_web]. unfold demo_parse.
    change (String.prefix "ipfs://" ("https://" +:+ h +:+ ("/" +:+ p))) with false. rewrite prefix_app.
    change (slice_from 8) with (slice_from (String.length "https://")). rewrite slice_from_app.
    by rewrite split_slash_plain.
  - done.
Qed.

Lemma ipfs_names_agree_witness :
  parseFilename (W := demo_web) "https://ipfs.io/ipfs/Qm1/1.png" = Some "ipfs/Qm1/1.png" ∧
  parseIPFSUri (W := demo_web) "gw:" "/ipfs/Qm1/1.png" = "gw:Qm1/1.png".
Proof.
  destruct (ipfs_names_agree (W := demo_web) "gw:" (H := demo_uri_laws) "Qm1" "1.png" "ipfs.io")
    as (_ & _ & Hgw & Huri & _); [by vm_compute..|]. split; [exact Hgw|exact Huri].
Defined.

Lemma upload_idempotent_witness :
  let '(b, o) := uploadMediaToS3 (W := demo_web) "gw:" "s3:" (Some "ipfs://Qm1/1.png") ∅ in
  uploadMediaToS3 (W := demo_web) "gw:" "s3:" (Some "ipfs://Qm1/1.png") b = (b, o).
Proof.
  destruct (uploadMediaToS3 (W := demo_web) "gw:" "s3:" (Some "ipfs://Qm1/1.png") ∅) as [b o] eqn:Hrun.
  assert (o = Done (Some {| linkS3 := "s3:ipfs/Qm1/1.png"; contentType := Some "image/png"; key := "ipfs/Qm1/1.png" |})) as ->.
  { replace o with (uploadMediaToS3 (W := demo_web) "gw:" "s3:" (Some "ipfs://Qm1/1.png") ∅).2 by (by rewrite Hrun).
    vm_compute. reflexivity. }
  destruct (upload_idempotent (W := demo_web) "gw:" "s3:" _ _ _ _ Hrun) as (t & Ht & _ & ->).
  assert (b = <["ipfs/Qm1/1.png" := "image/png"]> ∅) as ->.
  { replace b with (uploadMediaToS3 (W := demo_web) "gw:" "s3:" (Some "ipfs://Qm1/1.png") ∅).1 by (by rewrite Hrun).
    vm_compute. reflexivity. }
  rewrite lookup_insert_eq in Ht. by injection Ht as <-.
Defined.

Definition demo_media_token (i : Z) (token_id : string) : MediaToken := {|
  mt_id := i; mt_address := "0xnft"; mt_token_id := token_id; mt_burned := false; mt_media_info := None |}.
Definition demo_chain : Erc721Chain := {|
  read_tokenURI _ id := if bool_decide (id = 3) then Throw "no token" else Ok "ipfs://Qm1/1.json" |}.
Definition demo_media_db : Db := {|
  bucket := ∅; tokens := [demo_media_token 2 "7"; demo_media_token 1 "5"; demo_media_token 4 "3"]; queue := [];
  block_checkpoint := ∅ |}.
Definition demo_filter (d : Db) : Db := (jobHandlerFilter (K := erc721_media (N := demo_chain) 2) d).1.

Example demo_filter_once :
  (queue (demo_filter demo_media_db)).*1 = ["0xnft_1"; "0xnft_2"] ∧
  (queue (demo_filter (demo_filter demo_media_db))).*1 = ["0xnft_1"; "0xnft_2"; "0xnft_4"].
Proof. vm_compute. done. Qed.

Lemma demo_ready : filter_ready (K := erc721_media (N := demo_chain) 2) demo_media_db.
Proof.
  constructor.
  - simpl. lia.
  - apply (bool_decide_eq_true_1 _). by vm_compute.
  - intros t Ht. repeat (apply elem_of_cons in Ht as [->|Ht]; [by eexists; vm_compute|]). by apply not_elem_of_nil in Ht.
  - intros t t' m m' Ht Ht' Hm Hm' Hj.
    repeat (apply elem_of_cons in Ht as [->|Ht]; [vm_compute in Hm; injection Hm as <-;
      repeat (apply elem_of_cons in Ht' as [->|Ht']; [vm_compute in Hm'; injection Hm' as <-; by vm_compute in Hj|]);
      by apply not_elem_of_nil in Ht'|]).
    by apply not_elem_of_nil in Ht.
Qed.

Lemma all_media_queued_witness :
  ∃ n d', (n <= 3)%nat ∧ Nat.iter n demo_filter demo_media_db = d' ∧
    ∃ m, (("0xnft_4", m) ∈ queue d').
Proof.
  destruct (all_media_queued (K := erc721_media (N := demo_chain) 2) demo_media_db demo_ready eq_refl)
    as (n & d' & Hn & Hd' & _ & Hall).
  exists n, d'. split; [exact Hn|]. split; [exact Hd'|].
  destruct (Hall (demo_media_token 4 "3")) as (m & Hm & Hin).
  - apply list_elem_of_filter. split; [by vm_compute|]. right. right. by left.
  - exists m. vm_compute in Hm. by injection Hm as <-.
Defined.

Definition demo_run_media (d : Db) : Db :=
  match queue d with
  | (id, tm) :: q => (erc721_token_media (W := demo_web) "gw:" "s3:" tm (set_queue q d)).1
  | [] => d
  end.
Definition demo_after : Db := demo_run_media (demo_filter demo_media_db).

Example demo_media :
  mt_media_info <$> tokens demo_after
  = [None;
     Some {| mi_token_uri := Some "ipfs://Qm1/1.json";
             mi_metadata := Some {| image := Some "ipfs://Qm1/1.png"; animation_url := Some "ipfs://Qm1/gone" |};
             mi_image := {| url := Some "s3:ipfs/Qm1/1.png"; content_type := Some "image/png"; file_path := Some "ipfs/Qm1/1.png" |};
             mi_animation := no_file |}; None].
Proof. vm_compute. reflexivity. Qed.

Lemma demo_steps :
  rtc (media_step (W := demo_web) (K := erc721_media (N := demo_chain) 2) "gw:" "s3:" (erc721_metadata (W := demo_web) "gw:"))
    demo_media_db demo_after.
Proof.
  eapply rtc_l; [apply step_filter|]. eapply rtc_l; [|apply rtc_refl].
  unfold demo_after, demo_run_media. destruct (queue (demo_filter demo_media_db)) as [|[id tm] q] eqn:Hq; [by vm_compute in Hq|].
  apply (step_media _ _ _ _ [] id tm q). exact Hq.
Qed.

Lemma stored_links_exist_witness : links_ok "s3:" (W := demo_web) demo_after.
Proof.
  apply (stored_links_exist (W := demo_web) (K := erc721_media (N := demo_chain) 2) "gw:" "s3:"
    (erc721_metadata (W := demo_web) "gw:") demo_media_db demo_after demo_steps).
  intros t i Ht Hi. repeat (apply elem_of_cons in Ht as [->|Ht]; [done|]). by apply not_elem_of_nil in Ht.
Defined.

(** The checkpoint has passed token 2, whose job waits; the next run of the
    filter does not queue it again. *)
Definition demo_first : Db := demo_filter demo_media_db.
Definition demo_second : Db := demo_filter (demo_run_media demo_first).
Lemma demo_more_steps :
  rtc (media_step (W := demo_web) (K := erc721_media (N := demo_chain) 2) "gw:" "s3:" (erc721_metadata (W := demo_web) "gw:"))
    demo_first demo_second.
Proof.
  eapply rtc_l; [|eapply rtc_l; [apply step_filter|apply rtc_refl]].
  unfold demo_run_media. destruct (queue demo_first) as [|[id tm] q] eqn:Hq; [by vm_compute in Hq|].
  apply (step_media _ _ _ _ [] id tm q). exact Hq.
Qed.
Lemma passed_tokens_not_queued_witness :
  ∀ m, head (queue demo_second) = Some ("0xnft_2", m) → ("0xnft_2", m) ∈ queue demo_first.
Proof.
  intros m Hm. apply (passed_tokens_not_queued (W := demo_web) (K := erc721_media (N := demo_chain) 2) "gw:" "s3:"
    (erc721_metadata (W := demo_web) "gw:") demo_first demo_second _ m demo_more_steps).
  - by apply head_Some_elem_of.
  - assert (idTokenCheckpoint (K := erc721_media (N := demo_chain) 2) demo_first = 2) as -> by (vm_compute; reflexivity).
    vm_compute in Hm. by injection Hm as <-.
Defined.

Definition demo_job : ITokenMediaInfo := {|
  tm_id := 1; tm_address := "0xnft"; tm_token_id := "5"; tm_token_uri := Some "ipfs://lost"; tm_extension := None;
  tm_metadata := None; tm_image := no_file; tm_animation := no_file |}.
Lemma unreachable_metadata_witness :
  (∃ d', cw721_token_media (W := demo_web) "gw:" "s3:" demo_job demo_media_db = (d', Done tt)) ∧
  erc721_token_media (W := demo_web) "gw:" "s3:" demo_job demo_media_db = (demo_media_db, Failed AxiosError).
Proof.
  destruct (unreachable_metadata (W := demo_web) "gw:" "s3:" demo_job demo_media_db "ipfs://lost") as [Hcw Herc];
    [done|done|by vm_compute|]. split; [|exact Herc]. destruct (Hcw eq_refl) as (d' & Hrun & _). by exists d'.
Defined.
