(* ===== verification/Validators.v ===== *)
(** * Validators

    [services/crawl-validator/crawl_validator.service.ts] mirrors the
    validators of the chain in a table, [crawl_signing_info.service.ts] fills
    in their signing data, and [handle_stake_event.service.ts] turns the stake
    events of a range into power events that refer to them.  The node, the
    hash of a public key and [parseCoins] are parameters.

    The theorems: a run of the mirror keeps one row per operator with the data
    of the chain and marks the others; a validator that comes back stops the
    job when rows refer to it; counts that change while the job runs are
    overwritten; every stake event gets its power event. *)
From S2P Require Import Prelude JsNum Checkpoint Address Registry.

(** ** Data *)

(** A row of [event_attribute], and an event with its transaction (id and
    timestamp) and its attributes in the order of [index]. *)
Record EventAttribute := { ea_key : string; ea_value : string; ea_index : Z }.
Record Event := {
  ev_id : Z;
  ev_type : string;
  ev_block_height : Z;
  ev_transaction : option (Z * string);
  ev_attributes : list EventAttribute
}.

(** The columns of [validator]: the keys and addresses, what the staking
    module says, what the slashing module says, and the rest.
    [vs_delegator_shares] is the text of a decimal; percentages count
    millionths of a percent.  The id is kept beside the record, the image is
    left out. *)
Record ValidatorKeys := {
  vk_operator_address : string;
  vk_account_address : string;
  vk_consensus_address : string;
  vk_consensus_hex_address : string;
  vk_consensus_pubkey : string * string        (** type, key *)
}.
Record ValidatorStaking := {
  vs_jailed : bool;
  vs_status : string;
  vs_tokens : string;
  vs_delegator_shares : string;
  vs_description : string;
  vs_unbonding_height : Z;
  vs_unbonding_time : string;
  vs_commission : string
}.
Record ValidatorSigning := {
  vg_start_height : Z;
  vg_index_offset : Z;
  vg_jailed_until : string;
  vg_tombstoned : bool;
  vg_missed_blocks_counter : Z;
  vg_uptime : Z
}.
Record Validator := {
  v_keys : ValidatorKeys;
  v_staking : ValidatorStaking;
  v_signing : ValidatorSigning;
  v_min_self_delegation : string;
  v_self_delegation_balance : string;
  v_percent_voting_power : Z;
  v_delegators_count : Z;
  v_delegators_last_height : Z
}.
Abbreviation operator v := (vk_operator_address (v_keys v)).
Definition UNRECOGNIZED := "UNRECOGNIZED".

Record PowerEvent := {
  pe_tx_id : Z;
  pe_height : Z;
  pe_type : string;
  pe_validator_src_id : option Z;
  pe_validator_dst_id : option Z;
  pe_amount : string;
  pe_time : string
}.

Record Delegator := {
  dg_id : Z;
  dg_validator_id : Z;
  dg_delegator_address : string;
  dg_amount : Z
}.

(** A transaction (id, height, code) and a message: the content is what the
    staking messages have, [None] where a field is missing. *)
Record Transaction := { tx_id : Z; tx_height : Z; tx_code : Z }.
Record Content := {
  ct_delegator_address : string;
  ct_validator_address : string;
  ct_validator_src_address : string;
  ct_validator_dst_address : string;
  ct_amount : Z
}.
Record TransactionMessage := { tm_id : Z; tm_tx_id : Z; tm_type : string; tm_content : Content }.

(** The jobs that crawl the delegators of a validator wait in a queue. *)
Record IValidatorDelegators := { vd_id : Z; vd_address : string; vd_height : Z }.

Record Db := {
  event : list Event;
  transaction : list Transaction;
  transaction_message : list TransactionMessage;
  validator : list (Z * Validator);
  next_validator_id : Z;
  power_event : list PowerEvent;
  delegator : list Delegator;
  next_delegator_id : Z;
  delegator_jobs : list IValidatorDelegators;
  block_checkpoint : gmap string Z
}.
Definition set_validators v n d := {|
  event := event d; transaction := transaction d; transaction_message := transaction_message d;
  validator := v; next_validator_id := n; power_event := power_event d; delegator := delegator d;
  next_delegator_id := next_delegator_id d; delegator_jobs := delegator_jobs d;
  block_checkpoint := block_checkpoint d |}.
Definition set_power_events p d := {|
  event := event d; transaction := transaction d; transaction_message := transaction_message d;
  validator := validator d; next_validator_id := next_validator_id d; power_event := p;
  delegator := delegator d; next_delegator_id := next_delegator_id d;
  delegator_jobs := delegator_jobs d; block_checkpoint := block_checkpoint d |}.
Definition set_delegators l n d := {|
  event := event d; transaction := transaction d; transaction_message := transaction_message d;
  validator := validator d; next_validator_id := next_validator_id d; power_event := power_event d;
  delegator := l; next_delegator_id := n; delegator_jobs := delegator_jobs d;
  block_checkpoint := block_checkpoint d |}.
Definition set_delegator_jobs q d := {|
  event := event d; transaction := transaction d; transaction_message := transaction_message d;
  validator := validator d; next_validator_id := next_validator_id d; power_event := power_event d;
  delegator := delegator d; next_delegator_id := next_delegator_id d; delegator_jobs := q;
  block_checkpoint := block_checkpoint d |}.
#[export] Instance Db_checkpoints : HasCheckpoints Db := block_checkpoint.
#[export] Program Instance Db_set_checkpoints : SetCheckpoints Db := {|
  set_checkpoints c d := {|
    event := event d; transaction := transaction d; transaction_message := transaction_message d;
    validator := validator d; next_validator_id := next_validator_id d; power_event := power_event d;
    delegator := delegator d; next_delegator_id := next_delegator_id d;
    delegator_jobs := delegator_jobs d; block_checkpoint := c |} |}.
Next Obligation. done. Qed.

(** ** The node and the libraries *)

(** A validator as the staking module lists it: numbers are decimal texts. *)
Record OnchainValidator := {
  oc_operator_address : string;
  oc_pubkey_type : string;
  oc_pubkey_key : string;
  oc_jailed : bool;
  oc_status : string;
  oc_tokens : string;
  oc_delegator_shares : string;
  oc_description : string;
  oc_unbonding_height : string;
  oc_unbonding_time : string;
  oc_commission : string;
  oc_min_self_delegation : string
}.
Record SigningInfo := {
  si_address : string;
  si_start_height : string;
  si_index_offset : string;
  si_jailed_until : string;
  si_tombstoned : bool;
  si_missed_blocks_counter : string
}.

(** A page of a listing has its items and the key of the next page in base64;
    a delegation is the validator's address and the amount. *)
Class StakingNode := {
  validators_page : option bytes → res (list OnchainValidator * option string);
  bonded_tokens : res string;
  delegation : string → string → res (option (string * string));
  signed_blocks_window : res (option string);
  signing_infos_page : option bytes → res (list SigningInfo * option string)
}.
(** @cosmjs/tendermint-rpc, @cosmjs/encoding and @cosmjs/proto-signing *)
Class StakingCodec := {
  pubkeyToRawAddress : bytes → res bytes;
  toHex : bytes → string;
  parseCoins : string → res (list (string * string))     (* amount, denom *)
}.

(** A validator with the id of its row, if it has one. *)
Abbreviation entity := (option Z * Validator)%type.

Section Services.
Context {N : StakingNode} {K : StakingCodec} {A : AddressCodec} {E : Encoding}.

(** ** [models/validator.ts] *)
Definition networkPrefixAddress := "aura".
Definition consensusPrefixAddress := "valcons".

Definition createNewValidator (v : OnchainValidator) : res Validator :=
  pubkey ← fromBase64 (oc_pubkey_key v);
  raw ← pubkeyToRawAddress pubkey;
  '(_, data) ← fromBech32 (oc_operator_address v);
  unbonding_height ← parse_number (oc_unbonding_height v);
  Ok {| v_keys := {|
          vk_operator_address := oc_operator_address v;
          vk_account_address := toBech32 networkPrefixAddress data;
          vk_consensus_address := toBech32 (networkPrefixAddress +:+ consensusPrefixAddress) raw;
          vk_consensus_hex_address := toUpperCase (toHex raw);
          vk_consensus_pubkey := (oc_pubkey_type v, oc_pubkey_key v) |};
        v_staking := {|
          vs_jailed := oc_jailed v; vs_status := oc_status v;
          vs_tokens := parse_number_text (oc_tokens v);
          vs_delegator_shares := parse_number_text (oc_delegator_shares v);
          vs_description := oc_description v; vs_unbonding_height := unbonding_height;
          vs_unbonding_time := oc_unbonding_time v; vs_commission := oc_commission v |};
        v_signing := {|
          vg_start_height := 0; vg_index_offset := 0; vg_jailed_until := "1970-01-01T00:00:00.000Z";
          vg_tombstoned := false; vg_missed_blocks_counter := 0; vg_uptime := 0 |};
        v_min_self_delegation := parse_number_text (oc_min_self_delegation v);
        v_self_delegation_balance := "0"; v_percent_voting_power := 0;
        v_delegators_count := 0; v_delegators_last_height := 0 |}.

(** ** [crawl_validator.service.ts] *)

(** The assignments to a validator that is in the table.  The field of a model
    instance is not checked, so an [unbonding_height] that is no number fails
    when the row is written, like here. *)
Definition update_validator (o : OnchainValidator) (v : Validator) : res Validator :=
  unbonding_height ← parse_number (oc_unbonding_height o);
  Ok {| v_keys := v_keys v;
        v_staking := {|
          vs_jailed := oc_jailed o; vs_status := oc_status o; vs_tokens := oc_tokens o;
          vs_delegator_shares := oc_delegator_shares o; vs_description := oc_description o;
          vs_unbonding_height := unbonding_height; vs_unbonding_time := oc_unbonding_time o;
          vs_commission := oc_commission o |};
        v_signing := v_signing v; v_min_self_delegation := v_min_self_delegation v;
        v_self_delegation_balance := v_self_delegation_balance v;
        v_percent_voting_power := v_percent_voting_power v;
        v_delegators_count := v_delegators_count v;
        v_delegators_last_height := v_delegators_last_height v |}.

Definition validator_entity (validatorInDB : list (Z * Validator)) (o : OnchainValidator) : res entity :=
  match find (λ r, bool_decide (operator r.2 = oc_operator_address o)) validatorInDB with
  | None => v ← createNewValidator o; Ok (None, v)
  | Some (id, v) => v ← update_validator o v; Ok (Some id, v)
  end.

Definition set_custom (balance : string) (percent : Z) (v : Validator) : Validator := {|
  v_keys := v_keys v; v_staking := v_staking v; v_signing := v_signing v;
  v_min_self_delegation := v_min_self_delegation v; v_self_delegation_balance := balance;
  v_percent_voting_power := percent; v_delegators_count := v_delegators_count v;
  v_delegators_last_height := v_delegators_last_height v |}.

(** [a / b] of big integers. *)
Definition bigint_div (a b : Z) : res Z :=
  if b =? 0 then Throw "RangeError: Division by zero" else Ok (a ÷ b).

Definition custom_info (pool : string) (delegations : list (option (string * string))) (e : entity) : res entity :=
  let found := find (λ d : option (string * string), bool_decide (fst <$> d = Some (operator e.2))) delegations in
  let balance := match found with Some (Some (_, amount)) => amount | _ => "0" end in
  tokens ← BigInt (vs_tokens (v_staking e.2));
  bonded ← BigInt pool;
  percent ← bigint_div (tokens * 100000000) bonded;
  Ok (e.1, set_custom balance percent e.2).

Definition loadCustomInfo (validators : list entity) : res (list entity) :=
  pool ← bonded_tokens;
  delegations ← mapR (λ e : entity, delegation (vk_account_address (v_keys e.2)) (operator e.2)) validators;
  mapR (custom_info pool delegations) validators.

Definition unrecognized (v : Validator) : Validator := {|
  v_keys := v_keys v;
  v_staking := {|
    vs_jailed := vs_jailed (v_staking v); vs_status := UNRECOGNIZED; vs_tokens := "0";
    vs_delegator_shares := "0"; vs_description := vs_description (v_staking v);
    vs_unbonding_height := vs_unbonding_height (v_staking v);
    vs_unbonding_time := vs_unbonding_time (v_staking v); vs_commission := vs_commission (v_staking v) |};
  v_signing := v_signing v; v_min_self_delegation := v_min_self_delegation v;
  v_self_delegation_balance := v_self_delegation_balance v; v_percent_voting_power := 0;
  v_delegators_count := v_delegators_count v; v_delegators_last_height := v_delegators_last_height v |}.

(** The pages of a listing; the key of a page is sent back as bytes. *)
Definition by_key {T} (page : option bytes → res (list T * option string)) (key : option bytes)
  : res (list T * option bytes) :=
  '(items, next) ← page key;
  match next with
  | None => Ok (items, None)
  | Some k => k ← fromBase64 k; Ok (items, Some k)
  end.

(** The entities of the run, from the rows it reads. *)
Definition mirror (validatorInDB : list (Z * Validator)) (validators : list OnchainValidator)
  : res (list entity) :=
  updateValidators ← mapR (validator_entity validatorInDB) validators;
  updateValidators ← loadCustomInfo updateValidators;
  Ok (updateValidators ++
      ((λ r : Z * Validator, (Some r.1, unrecognized r.2)) <$>
        filter (λ r : Z * Validator, operator r.2 ∉ oc_operator_address <$> validators) validatorInDB)).

(** [whereNot('status', UNRECOGNIZED)] *)
Definition recognized (d : Db) : list (Z * Validator) :=
  filter (λ r : Z * Validator, vs_status (v_staking r.2) ≠ UNRECOGNIZED) (validator d).

Definition getFullInfoValidators (fuel : nat) : io Db (list entity) :=
  validators ← lift (pages (by_key validators_page) fuel None);
  validatorInDB ← query recognized;
  lift (mirror validatorInDB validators).

(** The unique columns, and the rows that refer to a validator. *)
Definition clashes (v w : Validator) : bool :=
  bool_decide (vk_account_address (v_keys v) = vk_account_address (v_keys w) ∨
               vk_consensus_address (v_keys v) = vk_consensus_address (v_keys w) ∨
               vk_consensus_hex_address (v_keys v) = vk_consensus_hex_address (v_keys w)).

Definition referenced (d : Db) (id : Z) : bool :=
  existsb (λ p, bool_decide (pe_validator_src_id p = Some id ∨ pe_validator_dst_id p = Some id)) (power_event d)
  || existsb (λ g, bool_decide (dg_validator_id g = id)) (delegator d).

(** [insert(...).onConflict('operator_address').merge()] of one entity with
    the id it takes.  The statement has an [id] column when an entity of it has
    an id; then a row that is merged takes the id of the entity too. *)
Definition upsert_validator (has_id : bool) (refs : Z → bool) (rows : list (Z * Validator)) (r : Z * Validator)
  : res (list (Z * Validator)) :=
  let others := filter (λ x : Z * Validator, operator x.2 ≠ operator r.2) rows in
  if existsb (λ x : Z * Validator, clashes r.2 x.2) others
  then Throw "duplicate key value violates unique constraint" else
  match find (λ x : Z * Validator, bool_decide (operator x.2 = operator r.2)) rows with
  | None =>
      if bool_decide (r.1 ∈ others.*1) then Throw "duplicate key value violates unique constraint validator_pkey"
      else Ok (rows ++ [r])
  | Some (old, _) =>
      let id := if has_id then r.1 else old in
      if bool_decide (id ∈ others.*1) then Throw "duplicate key value violates unique constraint validator_pkey"
      else if negb (id =? old) && refs old then Throw "update violates foreign key constraint"
      else Ok ((λ x : Z * Validator, if bool_decide (operator x.2 = operator r.2) then (id, r.2) else x) <$> rows)
  end.

(** The ids of the entities: their own, or the next of the sequence. *)
Fixpoint assign_ids (next : Z) (l : list entity) : list (Z * Validator) :=
  match l with
  | [] => []
  | (Some id, v) :: l => (id, v) :: assign_ids next l
  | (None, v) :: l => (next, v) :: assign_ids (next + 1) l
  end.
Definition without_id (l : list entity) : list entity := filter (λ e : entity, e.1 = None) l.

Definition writeValidators (w : option (list entity)) (d : Db) : res Db :=
  match w with
  | None | Some [] => Ok d
  | Some l =>
      if bool_decide (NoDup ((λ e : entity, operator e.2) <$> l)) then
        rows ← forEachM (upsert_validator (existsb (λ e : entity, bool_decide (is_Some e.1)) l) (referenced d)) (validator d)
                 (assign_ids (next_validator_id d) l);
        Ok (set_validators rows (next_validator_id d + Z.of_nat (length (without_id l))) d)
      else Throw "ON CONFLICT DO UPDATE command cannot affect row a second time"
  end.

Definition VALIDATOR_KEYS := ["validator"; "source_validator"; "destination_validator"; "edit_validator"].

(** An attribute of the range names a validator. *)
Definition touches_validator (startHeight endHeight : Z) (d : Db) : bool :=
  existsb (λ e, (startHeight <? ev_block_height e) && (ev_block_height e <=? endHeight) &&
                existsb (λ a, bool_decide (ea_key a ∈ VALIDATOR_KEYS)) (ev_attributes e)) (event d).

Definition prepareValidators (fuel : nat) (startHeight endHeight : Z) : io Db (option (list entity)) :=
  touched ← query (touches_validator startHeight endHeight);
  if touched : bool then l ← getFullInfoValidators fuel; mret (Some l) else mret None.

Definition handleCrawlAllValidator (cfg : Config.t) (fuel : nat) : io Db () :=
  checkpoint_handler cfg CRAWL_VALIDATOR (prepareValidators fuel) (λ _ _, writeValidators).

(** ** [crawl_signing_info.service.ts] *)

(** The values of an update; a text that is no number makes the statement
    fail. *)
Definition signing_row (uptime : Z) (s : SigningInfo) : res ValidatorSigning :=
  start_height ← parse_number (si_start_height s);
  index_offset ← parse_number (si_index_offset s);
  missed ← parse_number (si_missed_blocks_counter s);
  Ok {| vg_start_height := start_height; vg_index_offset := index_offset;
        vg_jailed_until := si_jailed_until s; vg_tombstoned := si_tombstoned s;
        vg_missed_blocks_counter := missed; vg_uptime := uptime |}.

Definition signing_uptime (window : option string) (s : SigningInfo) : res Z :=
  match window with
  | None => Ok 0
  | Some w => w ← BigInt w; missed ← BigInt (si_missed_blocks_counter s);
              bigint_div ((w - missed) * 100000000) w
  end.

(** A validator without signing info is left out; one whose uptime throws is
    logged and left out. *)
Definition signing_update (window : option string) (infos : list SigningInfo) (r : Z * Validator)
  : option (Z * res ValidatorSigning) :=
  s ← find (λ s, bool_decide (si_address s = vk_consensus_address (v_keys r.2))) infos;
  match signing_uptime window s with
  | Ok uptime => Some (r.1, signing_row uptime s)
  | Throw _ => None
  end.

Definition set_signing (g : ValidatorSigning) (v : Validator) : Validator := {|
  v_keys := v_keys v; v_staking := v_staking v; v_signing := g;
  v_min_self_delegation := v_min_self_delegation v;
  v_self_delegation_balance := v_self_delegation_balance v;
  v_percent_voting_power := v_percent_voting_power v; v_delegators_count := v_delegators_count v;
  v_delegators_last_height := v_delegators_last_height v |}.

(** The [update ... from (VALUES ...)] by id. *)
Definition write_signing (updates : list (Z * res ValidatorSigning)) (d : Db) : res Db :=
  l ← mapR (λ u : Z * res ValidatorSigning, g ← u.2; Ok (u.1, g)) updates;
  Ok (set_validators
        ((λ r : Z * Validator, match find (λ u : Z * ValidatorSigning, u.1 =? r.1) l with
                               | Some u => (r.1, set_signing u.2 r.2) | None => r end) <$> validator d)
        (next_validator_id d) d).

Definition handleSigningInfo (fuel : nat) : io Db () :=
  foundValidators ← query validator;
  if bool_decide (length foundValidators = 0%nat) then mret tt else
  window ← lift signed_blocks_window;
  infos ← lift (pages (by_key signing_infos_page) fuel None);
  let listUpdates := omap (signing_update window infos) foundValidators in
  if bool_decide (length listUpdates = 0%nat) then mret tt else commit (write_signing listUpdates).

(** ** [handle_stake_event.service.ts] *)
Definition DELEGATE := "delegate".
Definition REDELEGATE := "redelegate".
Definition UNBOND := "unbond".
Definition CREATE_VALIDATOR := "create_validator".
Definition eventStakes := [DELEGATE; REDELEGATE; UNBOND; CREATE_VALIDATOR].

(** [mapIndexAmountWithEventStakes]: where the amount stands after the first
    validator, by the version of the SDK. *)
Definition indexRule (before_0_47_8 : bool) (action : string) : Z :=
  if bool_decide (action = DELEGATE) then if before_0_47_8 then 1 else 2
  else if bool_decide (action = REDELEGATE) then 2 else 1.

Definition getRawAmountByFirstIndex (cosmosSdkVersion : string) (attributes : list EventAttribute)
    (action : string) (firstIndex : Z) : res (option EventAttribute) :=
  c ← semver_compare cosmosSdkVersion "0.47.8";
  Ok (find (λ a, bool_decide (ea_key a = "amount" ∧ ea_index a = firstIndex + indexRule (c =? -1) action)) attributes).

(** [validatorKeys[address].id] *)
Definition validator_id (validators : list (Z * Validator)) (address : string) : res Z :=
  match keyBy (λ r : Z * Validator, operator r.2) validators !! address with
  | Some r => Ok r.1
  | None => Throw "TypeError: Cannot read properties of undefined (reading 'id')"
  end.

Definition firstValidator (e : Event) : option EventAttribute :=
  find (λ a, bool_decide (ea_key a = "validator" ∨ ea_key a = "source_validator")) (ev_attributes e).
Definition destValidator (e : Event) : option EventAttribute :=
  find (λ a, bool_decide (ea_key a = "destination_validator")) (ev_attributes e).

(** The source and the destination of an event; [None] when the event is
    skipped. *)
Definition source_destination (validators : list (Z * Validator)) (e : Event) (first : EventAttribute)
  : res (option (option Z * option Z)) :=
  id ← validator_id validators (ea_value first);
  if bool_decide (ev_type e = REDELEGATE) then
    match destValidator e with
    | None => Ok None
    | Some dest => dst ← validator_id validators (ea_value dest); Ok (Some (Some id, Some dst))
    end
  else if bool_decide (ev_type e = UNBOND) then Ok (Some (Some id, None))
  else Ok (Some (None, Some id)).

(** [parseCoins(amountRaw.value)[0].amount], a required field. *)
Definition event_amount (amountRaw : option EventAttribute) : res string :=
  match amountRaw with
  | None => Throw "ValidationError: must have required property 'amount'"
  | Some a =>
      coins ← parseCoins (ea_value a);
      match coins with
      | [] => Throw "TypeError: Cannot read properties of undefined (reading 'amount')"
      | (amount, _) :: _ => Ok amount
      end
  end.

Definition powerEvent (sdk : string) (validators : list (Z * Validator)) (e : Event) : res (option PowerEvent) :=
  match firstValidator e with
  | None => Ok None
  | Some first =>
      ids ← source_destination validators e first;
      match ids with
      | None => Ok None
      | Some (src, dst) =>
          amountRaw ← getRawAmountByFirstIndex sdk (ev_attributes e) (ev_type e) (ea_index first);
          amount ← event_amount amountRaw;
          match ev_transaction e with
          | None => Throw "TypeError: Cannot read properties of null (reading 'id')"
          | Some (tx, time) =>
              Ok (Some {| pe_tx_id := tx; pe_height := ev_block_height e; pe_type := ev_type e;
                          pe_validator_src_id := src; pe_validator_dst_id := dst;
                          pe_amount := amount; pe_time := time |})
          end
      end
  end.

Definition powerEvents (sdk : string) (validators : list (Z * Validator)) (resultEvents : list Event)
  : res (list PowerEvent) :=
  l ← mapR (powerEvent sdk validators) resultEvents; Ok (omap (M:=list) id l).

Definition stake_events (startHeight endHeight : Z) (d : Db) : list Event :=
  filter (λ e, ev_type e ∈ eventStakes ∧ startHeight < ev_block_height e <= endHeight) (event d).

Definition preparePowerEvents (sdk : string) (startHeight endHeight : Z) : io Db (list PowerEvent) :=
  resultEvents ← query (stake_events startHeight endHeight);
  validators ← query validator;
  lift (powerEvents sdk validators resultEvents).

(** The foreign keys of the table. *)
Definition known_validator (d : Db) (o : option Z) : bool :=
  match o with None => true | Some i => bool_decide (i ∈ (validator d).*1) end.

Definition writePowerEvents (powerEvents : list PowerEvent) (d : Db) : res Db :=
  if forallb (λ p, known_validator d (pe_validator_src_id p) && known_validator d (pe_validator_dst_id p)) powerEvents
  then Ok (set_power_events (power_event d ++ powerEvents) d)
  else Throw "insert violates foreign key constraint".

Definition handleStakeEvents (cfg : Config.t) (sdk : string) : io Db () :=
  checkpoint_handler cfg HANDLE_STAKE_EVENT (preparePowerEvents sdk) (λ _ _, writePowerEvents).
End Services.

(** ** The rows by operator *)
Definition row_of (rows : list (Z * Validator)) (op : string) : option (Z * Validator) :=
  find (λ r : Z * Validator, bool_decide (operator r.2 = op)) rows.

Lemma row_of_operator rows op id v : row_of rows op = Some (id, v) → (id, v) ∈ rows ∧ operator v = op.
Proof. intros [? ?%bool_decide_eq_true]%find_Some. done. Qed.

Lemma row_of_elem rows id v :
  NoDup ((λ r : Z * Validator, operator r.2) <$> rows) → (id, v) ∈ rows → row_of rows (operator v) = Some (id, v).
Proof.
  intros Hnd Hin. destruct (row_of rows (operator v)) as [[id' v']|] eqn:H.
  - apply row_of_operator in H as [Hin' Hop].
    f_equal. by apply (NoDup_fmap_key (λ r : Z * Validator, operator r.2) rows).
  - apply find_None in H. rewrite Forall_forall in H. specialize (H _ Hin).
    by apply bool_decide_eq_false in H.
Qed.

Lemma row_of_None rows op : row_of rows op = None ↔ op ∉ (λ r : Z * Validator, operator r.2) <$> rows.
Proof.
  unfold row_of. rewrite find_None, Forall_forall, list_elem_of_fmap. split.
  - intros H (r & -> & Hr). specialize (H r Hr). by apply bool_decide_eq_false in H.
  - intros H r Hr. apply bool_decide_eq_false. intros <-. apply H. eauto.
Qed.

Lemma row_of_cons r l op : row_of (r :: l) op = if bool_decide (operator r.2 = op) then Some r else row_of l op.
Proof. done. Qed.

Lemma row_of_app l1 l2 op : row_of (l1 ++ l2) op = match row_of l1 op with Some r => Some r | None => row_of l2 op end.
Proof. unfold row_of. induction l1 as [|x l1 IH]; simpl; [done|]. by case_bool_decide. Qed.

Lemma row_of_replace rows id v op :
  row_of ((λ x : Z * Validator, if bool_decide (operator x.2 = operator v) then (id, v) else x) <$> rows) op =
  if bool_decide (op = operator v) then (λ _, (id, v)) <$> row_of rows op else row_of rows op.
Proof.
  unfold row_of. induction rows as [|x rows IH]; cbn [fmap list_fmap find]; [by case_bool_decide|].
  destruct (bool_decide_reflect (operator x.2 = operator v)) as [Hx|Hx]; cbn [snd].
  - rewrite Hx. destruct (decide (op = operator v)) as [Hop|Hop].
    + by rewrite Hop, !bool_decide_true.
    + rewrite IH, !bool_decide_false by congruence. done.
  - destruct (decide (operator x.2 = op)) as [Hop|Hop].
    + by rewrite (bool_decide_true _ Hop), bool_decide_false by congruence.
    + by rewrite (bool_decide_false _ Hop), IH.
Qed.

(** What an upsert does to the rows, seen by operator. *)
Lemma upsert_lookup has refs rows r rows' op :
  upsert_validator has refs rows r = Ok rows' →
  row_of rows' op =
  if bool_decide (op = operator r.2) then
    Some (if has then r.1 else from_option fst r.1 (row_of rows op), r.2)
  else row_of rows op.
Proof.
  unfold upsert_validator. destruct (existsb _ _); [done|]. fold (row_of rows (operator r.2)).
  destruct (row_of rows (operator r.2)) as [[old v]|] eqn:Hf.
  - case_bool_decide; [done|]. destruct (_ && _); [done|]. intros [= <-].
    rewrite row_of_replace. case_bool_decide as Hop; [|done]. subst. rewrite Hf. by destruct has.
  - case_bool_decide; [done|]. intros [= <-]. rewrite row_of_app.
    destruct (decide (op = operator r.2)) as [Hop|Hop].
    + rewrite Hop, Hf, (bool_decide_true (_ = _)) by done. unfold row_of. simpl. rewrite bool_decide_true by done. destruct r. by destruct has.
    + rewrite (bool_decide_false _ Hop). unfold row_of. simpl.
      rewrite bool_decide_false by congruence. by destruct (find _ rows).
Qed.

(** ** Well-formed rows: keys and ids are unique, ids below the sequence. *)
Record rows_wf (next : Z) (rows : list (Z * Validator)) : Prop := {
  rw_operators : NoDup ((λ r : Z * Validator, operator r.2) <$> rows);
  rw_ids : NoDup rows.*1;
  rw_next id : id ∈ rows.*1 → id < next
}.

Lemma replace_operators (rows : list (Z * Validator)) id v :
  (λ r : Z * Validator, operator r.2) <$>
    ((λ x : Z * Validator, if bool_decide (operator x.2 = operator v) then (id, v) else x) <$> rows)
  = (λ r : Z * Validator, operator r.2) <$> rows.
Proof.
  rewrite <-list_fmap_compose. apply list_fmap_ext. intros i x _. simpl. by case_bool_decide.
Qed.

Lemma replace_ids (rows : list (Z * Validator)) id v :
  NoDup ((λ r : Z * Validator, operator r.2) <$> rows) → NoDup rows.*1 →
  id ∉ (filter (λ x : Z * Validator, operator x.2 ≠ operator v) rows).*1 →
  NoDup (((λ x : Z * Validator, if bool_decide (operator x.2 = operator v) then (id, v) else x) <$> rows).*1).
Proof.
  induction rows as [|x rows IH]; intros Hops Hids Hid; [constructor|].
  rewrite fmap_cons, NoDup_cons in Hops. rewrite fmap_cons, NoDup_cons in Hids. destruct Hops as [Hop Hops], Hids as [Hx Hids].
  rewrite filter_cons in Hid. rewrite !fmap_cons.
  destruct (decide (operator x.2 = operator v)) as [Heq|Hne].
  - rewrite decide_False in Hid by tauto. rewrite bool_decide_true by done.
    assert ((λ y : Z * Validator, if bool_decide (operator y.2 = operator v) then (id, v) else y) <$> rows = rows)
      as ->.
    { rewrite <-(list_fmap_id rows) at 2. apply list_fmap_ext. intros i y Hy. cbn beta.
      rewrite bool_decide_false; [done|]. intros Hyv. apply Hop, list_elem_of_fmap. exists y.
      split; [congruence|by eapply list_elem_of_lookup_2]. }
    apply NoDup_cons. split; [|done]. simpl. intros Hin. apply Hid.
    rewrite filter_all; [done|]. intros y Hy Hyv. apply Hop, list_elem_of_fmap. exists y. split; [congruence|done].
  - rewrite decide_True in Hid by done. rewrite fmap_cons in Hid. apply not_elem_of_cons in Hid as [Hid1 Hid].
    rewrite bool_decide_false by done. apply NoDup_cons. split; [|by apply IH].
    rewrite list_elem_of_fmap. intros (y & Hy & Hin). apply list_elem_of_fmap in Hin as (z & -> & Hz).
    case_bool_decide; simpl in Hy; [congruence|]. apply Hx, list_elem_of_fmap. eauto.
Qed.

Lemma upsert_wf has refs next rows r rows' :
  rows_wf next rows → r.1 < next → upsert_validator has refs rows r = Ok rows' → rows_wf next rows'.
Proof.
  intros [Hops Hids Hnext] Hr. unfold upsert_validator. destruct (existsb _ _); [done|].
  fold (row_of rows (operator r.2)). destruct (row_of rows (operator r.2)) as [[old v]|] eqn:Hf.
  - set (id := if has then r.1 else old). case_bool_decide as Hid; [done|]. destruct (_ && _); [done|].
    intros [= <-]. split.
    + by rewrite replace_operators.
    + by apply replace_ids.
    + intros i Hi. apply list_elem_of_fmap in Hi as (x & -> & Hx). apply list_elem_of_fmap in Hx as (y & -> & Hy).
      apply row_of_operator in Hf as [Hold _]. case_bool_decide; simpl.
      * unfold id. destruct has; [done|]. apply Hnext, list_elem_of_fmap. by exists (old, v).
      * apply Hnext, list_elem_of_fmap. eauto.
  - case_bool_decide as Hid; [done|]. intros [= <-]. apply row_of_None in Hf. rewrite filter_all in Hid.
    2:{ intros x Hx Hop. apply Hf, list_elem_of_fmap. eauto. }
    split; rewrite fmap_app; [apply NoDup_app; split; [done|]; split..|].
    + intros x Hx Hi%list_elem_of_singleton. congruence.
    + apply NoDup_singleton.
    + intros x Hx Hi%list_elem_of_singleton. congruence.
    + apply NoDup_singleton.
    + intros i. rewrite elem_of_app. intros [Hi|Hi]; [by apply Hnext|].
      apply list_elem_of_singleton in Hi. by rewrite Hi.
Qed.

(** The upserts of a statement, seen by operator. *)
Lemma upsert_rows_lookup has refs (l rows rows' : list (Z * Validator)) op :
  NoDup ((λ r : Z * Validator, operator r.2) <$> l) →
  forEachM (upsert_validator has refs) rows l = Ok rows' →
  row_of rows' op =
  match row_of l op with
  | Some r => Some (if has then r.1 else from_option fst r.1 (row_of rows op), r.2)
  | None => row_of rows op
  end.
Proof.
  revert rows. induction l as [|r l IH]; intros rows Hnd; cbn [forEachM]; [by intros [= <-]|].
  rewrite fmap_cons, NoDup_cons in Hnd. destruct Hnd as [Hr Hnd]. intros (rows1 & H1 & H2)%bind_Ok.
  rewrite (IH _ Hnd H2), (upsert_lookup _ _ _ _ _ op H1), row_of_cons.
  destruct (decide (operator r.2 = op)) as [Hop|Hop].
  - rewrite (bool_decide_true _ Hop), bool_decide_true by congruence.
    apply row_of_None in Hr. by rewrite <-Hop, Hr.
  - by rewrite (bool_decide_false _ Hop), bool_decide_false by congruence.
Qed.

Lemma upserts_wf has refs next (l rows rows' : list (Z * Validator)) :
  rows_wf next rows → Forall (λ r : Z * Validator, r.1 < next) l →
  forEachM (upsert_validator has refs) rows l = Ok rows' → rows_wf next rows'.
Proof.
  intros Hwf Hl H. revert rows Hwf H. induction Hl as [|r l Hr Hl IH]; intros rows Hwf; cbn [forEachM].
  - by intros [= <-].
  - intros (rows1 & H1 & H2)%bind_Ok. eapply IH; [|done]. by eapply upsert_wf.
Qed.

(** ** Ids and entities *)
Lemma assign_ids_rows next l :
  Forall2 (λ e r, r.2 = e.2 ∧ match e.1 with
                              | Some id => r.1 = id
                              | None => next <= r.1 < next + Z.of_nat (length (without_id l))
                              end) l (assign_ids next l).
Proof.
  revert next. induction l as [|[[id|] v] l IH]; intros next; cbn [assign_ids]; [constructor|..].
  - constructor; [done|]. unfold without_id. rewrite filter_cons_False by done. apply IH.
  - assert (length (without_id ((None, v) :: l)) = S (length (without_id l))) as ->.
    { unfold without_id. by rewrite filter_cons_True. }
    constructor; [split; [done|]; cbn [fst]; lia|].
    eapply Forall2_impl; [apply IH|]. intros [[id|] w] r [? Hr]; split; try done. cbn [fst] in *. lia.
Qed.

Lemma assign_ids_operators next (l : list entity) :
  (λ r : Z * Validator, operator r.2) <$> assign_ids next l = (λ e : entity, operator e.2) <$> l.
Proof.
  pose proof (assign_ids_rows next l) as H. revert H. generalize (assign_ids next l) at 1 2.
  generalize (length (without_id l)). intros n rows H.
  induction H as [|e r l rows [Hr _] H IH]; [done|]. rewrite !fmap_cons, IH. by rewrite Hr.
Qed.

(** An entity that is written gets a row with its own id, or a new one. *)
Lemma assign_ids_row next (l : list entity) e :
  NoDup ((λ e : entity, operator e.2) <$> l) → e ∈ l →
  ∃ id, row_of (assign_ids next l) (operator e.2) = Some (id, e.2) ∧
        match e.1 with Some i => id = i | None => next <= id end.
Proof.
  intros Hnd [i Hi]%list_elem_of_lookup. rewrite <-(assign_ids_operators next) in Hnd.
  destruct (Forall2_lookup_l _ _ _ _ _ (assign_ids_rows next l) Hi) as ([id v] & Hr & Hv & Hid). simpl in Hv. subst v.
  exists id. split; [|by destruct e.1; [|destruct Hid]].
  apply list_elem_of_lookup_2 in Hr. by apply (row_of_elem _ id (e.2)) in Hr.
Qed.

Lemma assign_ids_bound next (l : list entity) next' :
  next + Z.of_nat (length (without_id l)) <= next' →
  (∀ e id, e ∈ l → e.1 = Some id → id < next') →
  Forall (λ r : Z * Validator, r.1 < next') (assign_ids next l).
Proof.
  intros Hn Hl. apply Forall_forall. intros r [i Hi]%list_elem_of_lookup.
  destruct (Forall2_lookup_r _ _ _ _ _ (assign_ids_rows next l) Hi) as (e & He & _ & Hid).
  destruct e.1 as [id|] eqn:H1; [|lia]. rewrite Hid.
  by eapply Hl; [eapply list_elem_of_lookup_2|].
Qed.

(** What the chain says of a validator, up to the digits of its amounts. *)
Definition on_chain (o : OnchainValidator) (v : Validator) : Prop :=
  operator v = oc_operator_address o ∧ vs_jailed (v_staking v) = oc_jailed o ∧
  vs_status (v_staking v) = oc_status o ∧ vs_description (v_staking v) = oc_description o ∧
  vs_unbonding_time (v_staking v) = oc_unbonding_time o ∧ vs_commission (v_staking v) = oc_commission o ∧
  vs_tokens (v_staking v) ∈ [oc_tokens o; parse_number_text (oc_tokens o)].

(** What the mirror keeps of a row. *)
Definition kept (old new : Validator) : Prop :=
  v_keys new = v_keys old ∧ v_signing new = v_signing old ∧
  v_min_self_delegation new = v_min_self_delegation old ∧
  v_delegators_count new = v_delegators_count old ∧
  v_delegators_last_height new = v_delegators_last_height old.

Section Mirror.
Context {N : StakingNode} {K : StakingCodec} {A : AddressCodec} {E : Encoding}.

Definition mirrors (db : list (Z * Validator)) (o : OnchainValidator) (e : entity) : Prop :=
  on_chain o e.2 ∧
  match row_of db (oc_operator_address o) with
  | Some (id, v) => e.1 = Some id ∧ kept v e.2 ∧ vs_tokens (v_staking e.2) = oc_tokens o
  | None => e.1 = None
  end.

Lemma validator_entity_mirrors db o e : validator_entity db o = Ok e → mirrors db o e.
Proof.
  unfold validator_entity, mirrors. fold (row_of db (oc_operator_address o)).
  destruct (row_of db (oc_operator_address o)) as [[id v]|] eqn:Hf.
  - intros (v' & H & [= <-])%bind_Ok. apply row_of_operator in Hf as [_ Hop].
    apply bind_Ok in H as (h & _ & [= <-]).
    repeat split; [done|apply elem_of_cons; by left].
  - intros (v' & H & [= <-])%bind_Ok. unfold createNewValidator in H.
    repeat (apply bind_Ok in H as (? & _ & H); try case_match). injection H as <-.
    repeat split. simpl. rewrite !elem_of_cons. tauto.
Qed.

Lemma custom_info_mirrors db pool ds o e e' : mirrors db o e → custom_info pool ds e = Ok e' → mirrors db o e'.
Proof.
  intros Hm H. unfold custom_info in H. repeat (apply bind_Ok in H as (? & _ & H)). injection H as <-.
  exact Hm.
Qed.

Lemma mirror_spec db l ents :
  mirror db l = Ok ents →
  ∃ ups, Forall2 (mirrors db) l ups ∧
    ents = ups ++ ((λ r : Z * Validator, (Some r.1, unrecognized r.2)) <$>
                    filter (λ r : Z * Validator, operator r.2 ∉ oc_operator_address <$> l) db).
Proof.
  unfold mirror, loadCustomInfo. intros (l1 & H1 & H)%bind_Ok. apply bind_Ok in H as (ups & H2 & [= <-]).
  apply bind_Ok in H2 as (pool & _ & H2). apply bind_Ok in H2 as (ds & _ & H2).
  exists ups. split; [|done]. apply mapR_Ok in H1, H2.
  eapply (Forall2_compose (λ o e, validator_entity db o = Ok e) (λ e e', custom_info pool ds e = Ok e')); [|done..].
  intros o e e' Ho He. eapply custom_info_mirrors; [|done]. by apply validator_entity_mirrors.
Qed.
End Mirror.

(** ** The write of a run *)
Lemma writeValidators_spec ents d d' :
  rows_wf (next_validator_id d) (validator d) →
  (∀ e id, e ∈ ents → e.1 = Some id → id < next_validator_id d) →
  writeValidators (Some ents) d = Ok d' →
  rows_wf (next_validator_id d') (validator d') ∧
  NoDup ((λ e : entity, operator e.2) <$> ents) ∧ checkpoints_of d' = checkpoints_of d ∧
  (∀ e, e ∈ ents → ∃ id, row_of (validator d') (operator e.2) = Some (id, e.2) ∧
     ∀ i, e.1 = Some i → id = i) ∧
  ∀ op, op ∉ (λ e : entity, operator e.2) <$> ents → row_of (validator d') op = row_of (validator d) op.
Proof.
  intros Hwf Hids. unfold writeValidators. destruct ents as [|e0 ents'] eqn:Hents.
  { intros [= <-]. split; [done|]. split; [constructor|]. split; [done|]. split; [|done].
    intros e He. by apply elem_of_nil in He. }
  rewrite <-Hents in *. clear Hents e0 ents'. case_bool_decide as Hnd; [|done].
  intros (rows & Hrows & [= <-])%bind_Ok. cbn [validator next_validator_id set_validators].
  set (has := existsb _ _) in Hrows. set (next := next_validator_id d) in *.
  assert (NoDup ((λ r : Z * Validator, operator r.2) <$> assign_ids next ents)) as Hnd'
    by by rewrite assign_ids_operators.
  split.
  { eapply upserts_wf; [|by apply assign_ids_bound; [|intros e id He Hid; specialize (Hids e id He Hid); lia]|done].
    destruct Hwf as [? ? Hn]. split; [done..|]. intros id Hid. specialize (Hn id Hid). lia. }
  split; [done|]. split; [done|]. split.
  - intros e He. destruct (assign_ids_row next ents e Hnd He) as (id & Hrow & Hid).
    rewrite (upsert_rows_lookup _ _ _ _ _ _ Hnd' Hrows), Hrow. simpl. eexists. split; [done|].
    intros i Hi. rewrite Hi in Hid. subst. assert (has = true) as ->; [|done].
    apply existsb_exists. exists e. split; [by apply list_elem_of_In|]. rewrite Hi. by apply bool_decide_eq_true.
  - intros op Hop. rewrite (upsert_rows_lookup _ _ _ _ _ _ Hnd' Hrows).
    rewrite <-(assign_ids_operators next) in Hop. apply row_of_None in Hop. by rewrite Hop.
Qed.

Lemma row_of_recognized d op id v :
  NoDup ((λ r : Z * Validator, operator r.2) <$> validator d) →
  row_of (recognized d) op = Some (id, v) ↔
  row_of (validator d) op = Some (id, v) ∧ vs_status (v_staking v) ≠ UNRECOGNIZED.
Proof.
  intros Hnd. split.
  - intros [Hin <-]%row_of_operator. apply list_elem_of_filter in Hin as [Hst Hin].
    split; [by apply row_of_elem|done].
  - intros [[Hin <-]%row_of_operator Hst]. apply row_of_elem; [|by apply list_elem_of_filter].
    apply (NoDup_fmap_filter _ _ (λ _, True)); [done|]. by rewrite filter_all.
Qed.

Lemma row_of_lt d op id v :
  rows_wf (next_validator_id d) (validator d) → row_of (validator d) op = Some (id, v) → id < next_validator_id d.
Proof. intros [_ _ Hn] [Hin _]%row_of_operator. apply Hn, list_elem_of_fmap. by exists (id, v). Qed.

Section Runs.
Context {N : StakingNode} {K : StakingCodec} {A : AddressCodec} {E : Encoding}.

(** The entities of a run carry the ids of the rows it read. *)
Lemma mirror_ids d l ents e i :
  rows_wf (next_validator_id d) (validator d) → mirror (recognized d) l = Ok ents → e ∈ ents → e.1 = Some i →
  ∃ v, row_of (validator d) (operator e.2) = Some (i, v) ∧ vs_status (v_staking v) ≠ UNRECOGNIZED.
Proof.
  intros Hwf (ups & Hups & ->)%mirror_spec He Hi. pose proof (rw_operators _ _ Hwf) as Hnd.
  apply elem_of_app in He as [He|He].
  - apply list_elem_of_lookup in He as [j Hj].
    destruct (Forall2_lookup_r _ _ _ _ _ Hups Hj) as (o & _ & [Hop _] & Hrow). rewrite Hop.
    destruct (row_of (recognized d) (oc_operator_address o)) as [[id v]|] eqn:Hf; [|congruence].
    apply row_of_recognized in Hf as [Hf Hst]; [|done]. destruct Hrow as [Heq _]. rewrite Hi in Heq.
    injection Heq as ->. eauto.
  - apply list_elem_of_fmap in He as ([id v] & -> & He). apply list_elem_of_filter in He as [_ He].
    apply list_elem_of_filter in He as [Hst He]. injection Hi as <-. exists v. split; [|done].
    by apply (row_of_elem _ id v).
Qed.

(** A run that finds validators in its range and returns. *)
Lemma crawl_run cfg fuel d d' s e u l n :
  jobCheckpoint cfg CRAWL_VALIDATOR (checkpoints_of d) = Ok (s, e, u) → s < e →
  touches_validator s e d = true → paged (by_key validators_page) None l n → (n <= fuel)%nat →
  handleCrawlAllValidator cfg fuel d = (d', Ok tt) →
  ∃ ents d1, mirror (recognized d) l = Ok ents ∧ writeValidators (Some ents) d = Ok d1 ∧
    d' = set_checkpoints (saveCheckpoint u e (checkpoints_of d1)) d1.
Proof.
  intros Hj Hse Ht Hp Hn Hrun. pose proof (pages_complete _ _ _ _ _ Hp Hn) as Hpages.
  assert (prepareValidators fuel s e d = (d, l ← mirror (recognized d) l; Ok (Some l))) as Hprep.
  { unfold prepareValidators, getFullInfoValidators. rewrite (io_step _ _ d d true) by (by unfold query; rewrite Ht).
    cbv iota. unfold lift, query, mbind at 1, io_bind at 1. rewrite Hpages. unfold mbind at 1, io_bind at 1.
    unfold mbind, io_bind. by destruct (mirror _ l). }
  apply checkpoint_handler_cases in Hrun as [(_ & _ & s' & e' & u' & Hj' & Hst)|[(msg & Hmsg & _)|
    (s' & e' & u' & w & d1 & d2 & Hj' & Hst & Hprep' & Hw & -> & _)]]; [|done|].
  - rewrite Hj in Hj'. injection Hj' as <- <- <-. simpl in Hst. lia.
  - rewrite Hj in Hj'. injection Hj' as <- <- <-. rewrite Hprep in Hprep'.
    injection Hprep' as <- Hm. apply bind_Ok in Hm as (ents & Hm & [= <-]). eauto.
Qed.
End Runs.

(** ** The mirror *)

(** C16: a run of the validator job that finds a validator in its range and
    returns leaves the table a mirror of the chain: one row per operator, with
    what the chain says of it; a row that was known keeps its id, keys, signing
    data and counts; a known validator the chain no longer lists becomes
    UNRECOGNIZED, a row that was UNRECOGNIZED stays. *)
Theorem validators_mirrored {N : StakingNode} {K : StakingCodec} {A : AddressCodec} {E : Encoding}
    cfg fuel d d' s e u l n :
  rows_wf (next_validator_id d) (validator d) →
  jobCheckpoint cfg CRAWL_VALIDATOR (checkpoints_of d) = Ok (s, e, u) → s < e →
  touches_validator s e d = true → paged (by_key validators_page) None l n → (n <= fuel)%nat →
  handleCrawlAllValidator cfg fuel d = (d', Ok tt) →
  rows_wf (next_validator_id d') (validator d') ∧
  checkpoints_of d' = saveCheckpoint u e (checkpoints_of d) ∧
  (∀ o, o ∈ l → ∃ id v', row_of (validator d') (oc_operator_address o) = Some (id, v') ∧ on_chain o v' ∧
     ∀ id0 v, row_of (validator d) (oc_operator_address o) = Some (id0, v) →
       vs_status (v_staking v) ≠ UNRECOGNIZED →
       id = id0 ∧ kept v v' ∧ vs_tokens (v_staking v') = oc_tokens o) ∧
  (∀ id v, row_of (validator d) (operator v) = Some (id, v) → operator v ∉ oc_operator_address <$> l →
     row_of (validator d') (operator v) =
     Some (id, if decide (vs_status (v_staking v) = UNRECOGNIZED) then v else unrecognized v)).
Proof.
  intros Hwf Hj Hse Ht Hp Hn Hrun. pose proof (rw_operators _ _ Hwf) as Hnd.
  destruct (crawl_run _ _ _ _ _ _ _ _ _ Hj Hse Ht Hp Hn Hrun) as (ents & d1 & Hm & Hw & ->).
  assert (∀ e i, e ∈ ents → e.1 = Some i → i < next_validator_id d) as Hids.
  { intros en i He Hi. destruct (mirror_ids d l ents en i Hwf Hm He Hi) as (v & Hrow & _). by eapply row_of_lt. }
  destruct (writeValidators_spec ents d d1 Hwf Hids Hw) as (Hwf1 & Hnde & Hcp & Hin & Hout).
  apply mirror_spec in Hm as (ups & Hups & ->).
  split; [done|]. split; [by rewrite checkpoints_set, Hcp|]. split.
  - intros o [i Ho]%list_elem_of_lookup.
    destruct (Forall2_lookup_l _ _ _ _ _ Hups Ho) as (en & Hen & Hon & Hrow).
    destruct (Hin en) as (id & Hid & Hi).
    { apply elem_of_app. left. by eapply list_elem_of_lookup_2. }
    destruct Hon as [Hop Hon]. rewrite Hop in Hid. exists id, en.2. split; [done|]. split; [done|].
    intros id0 v Hv Hst. assert (row_of (recognized d) (oc_operator_address o) = Some (id0, v)) as Hf
      by by apply row_of_recognized.
    rewrite Hf in Hrow. destruct Hrow as (H1 & ? & ?). by split; [apply Hi|].
  - intros id v Hv Hop. case_decide as Hst.
    + rewrite <-Hv. apply Hout. rewrite fmap_app, elem_of_app. intros [Hin'|Hin'].
      * apply list_elem_of_fmap in Hin' as (en & Heq & Hen). apply list_elem_of_lookup in Hen as [i Hen].
        destruct (Forall2_lookup_r _ _ _ _ _ Hups Hen) as (o & Ho & [Hoo _] & _). apply Hop.
        rewrite Heq, Hoo. apply list_elem_of_fmap. exists o. split; [done|by eapply list_elem_of_lookup_2].
      * apply list_elem_of_fmap in Hin' as (en & Heq & Hen). apply list_elem_of_fmap in Hen as ([i w] & -> & Hen).
        apply list_elem_of_filter in Hen as [_ Hen]. apply list_elem_of_filter in Hen as [Hsw Hen].
        apply row_of_elem in Hen; [|done]. simpl in Heq. change (operator (unrecognized w)) with (operator w) in Heq.
        rewrite <-Heq, Hv in Hen. by injection Hen as <- <-.
    + destruct (Hin (Some id, unrecognized v)) as (i & Hi & Hid).
      * apply elem_of_app. right. apply list_elem_of_fmap. exists (id, v). split; [done|].
        apply list_elem_of_filter. split; [done|]. apply list_elem_of_filter. split; [done|].
        by apply row_of_operator in Hv as [? _].
      * etrans; [exact Hi|]. by rewrite (Hid id eq_refl).
Qed.

Section Returning.
Context {N : StakingNode} {K : StakingCodec} {A : AddressCodec} {E : Encoding}.

Lemma prepareValidators_state fuel s e d : (prepareValidators fuel s e d).1 = d.
Proof.
  unfold prepareValidators, getFullInfoValidators, query, lift. unfold mbind at 1, io_bind at 1.
  destruct (touches_validator s e d); [|done]. unfold mbind, io_bind.
  destruct (pages _ _ _); [|done]. by destruct (mirror _ _).
Qed.

(** A row that exists, comes with a new id and is referred to, is refused. *)
Lemma upsert_moved refs rows r id v :
  row_of rows (operator r.2) = Some (id, v) → r.1 ≠ id → refs id = true →
  ∃ msg, upsert_validator true refs rows r = Throw msg.
Proof.
  intros Hf Hne Href. unfold upsert_validator. destruct (existsb _ _); [by eexists|].
  fold (row_of rows (operator r.2)). rewrite Hf. case_bool_decide; [by eexists|].
  rewrite Href. destruct (Z.eqb_spec r.1 id); [done|by eexists].
Qed.

Lemma upserts_moved refs l rows rows' r id v :
  NoDup ((λ r : Z * Validator, operator r.2) <$> l) → r ∈ l →
  row_of rows (operator r.2) = Some (id, v) → r.1 ≠ id → refs id = true →
  forEachM (upsert_validator true refs) rows l = Ok rows' → False.
Proof.
  intros Hnd (pre & post & ->)%list_elem_of_split Hf Hne Href. rewrite forEachM_app.
  intros (rows1 & H1 & H2)%bind_Ok. cbn [forEachM] in H2. apply bind_Ok in H2 as (rows2 & H2 & _).
  rewrite fmap_app in Hnd. apply NoDup_app in Hnd as (Hnd & Hdis & _).
  destruct (upsert_moved refs rows1 r id v) as [msg Hmsg]; [|done..|congruence].
  rewrite (upsert_rows_lookup _ _ _ _ _ _ Hnd H1).
  assert (row_of pre (operator r.2) = None) as ->; [|done].
  apply row_of_None. intros Hin. apply (Hdis _ Hin). rewrite fmap_cons. left.
Qed.

Lemma write_returning d d1 l ents o id v :
  rows_wf (next_validator_id d) (validator d) → mirror (recognized d) l = Ok ents →
  writeValidators (Some ents) d = Ok d1 →
  o ∈ l → row_of (validator d) (oc_operator_address o) = Some (id, v) →
  vs_status (v_staking v) = UNRECOGNIZED → referenced d id = true → recognized d ≠ [] → False.
Proof.
  intros Hwf Hm Hw Ho Hv Hst Href Hrec. pose proof (rw_operators _ _ Hwf) as Hnd.
  pose proof (row_of_lt _ _ _ _ Hwf Hv) as Hlt. apply mirror_spec in Hm as (ups & Hups & Hents).
  apply list_elem_of_lookup in Ho as [i Ho].
  destruct (Forall2_lookup_l _ _ _ _ _ Hups Ho) as (en & Hen & [Hop _] & Hrow).
  assert (row_of (recognized d) (oc_operator_address o) = None) as Hnone.
  { destruct (row_of (recognized d) _) as [[i' v']|] eqn:Hf; [|done].
    apply row_of_recognized in Hf as [Hf ?]; [|done]. congruence. }
  rewrite Hnone in Hrow. apply list_elem_of_lookup_2 in Hen.
  assert (en ∈ ents) as Hin by (rewrite Hents, elem_of_app; by left).
  assert (∃ e, e ∈ ents ∧ is_Some e.1) as Hsome.
  { destruct (recognized d) as [|[i0 v0] rs] eqn:Hr; [done|].
    destruct (decide (operator v0 ∈ oc_operator_address <$> l)) as [Hl|Hl].
    - apply list_elem_of_fmap in Hl as (o' & Heq & Ho'). apply list_elem_of_lookup in Ho' as [j Ho'].
      destruct (Forall2_lookup_l _ _ _ _ _ Hups Ho') as (e' & He' & _ & Hrow').
      rewrite <-Heq, row_of_cons, bool_decide_true in Hrow' by done. exists e'.
      split; [|by destruct Hrow' as [-> _]]. rewrite Hents, elem_of_app. left. by eapply list_elem_of_lookup_2.
    - exists (Some i0, unrecognized v0). split; [|by eexists].
      rewrite Hents, elem_of_app. right. apply list_elem_of_fmap.
      exists (i0, v0). split; [done|]. apply list_elem_of_filter. split; [done|left]. }
  unfold writeValidators in Hw. destruct ents as [|e0 es] eqn:He; [by apply elem_of_nil in Hin|].
  rewrite <-He in *. clear He. case_bool_decide as Hnde; [|done]. apply bind_Ok in Hw as (rows & Hw & _).
  assert (existsb (λ e : entity, bool_decide (is_Some e.1)) ents = true) as Hhas.
  { apply existsb_exists. destruct Hsome as (e & ? & ?). exists e. split; [by apply list_elem_of_In|].
    by apply bool_decide_eq_true. }
  rewrite Hhas in Hw. destruct (assign_ids_row (next_validator_id d) ents en Hnde Hin) as (id' & Hid' & Hge).
  rewrite Hrow in Hge. apply row_of_operator in Hid' as [Hid' _].
  eapply (upserts_moved _ _ _ _ (id', en.2) id v); [|exact Hid'| | |exact Href|exact Hw].
  - by rewrite assign_ids_operators.
  - simpl. by rewrite Hop.
  - simpl. lia.
Qed.
End Returning.

(** A validator that comes back stops the job: while another validator is
    known, the statement has an [id] column, and merging the row would move it
    to a new id although power events or delegators refer to it.  Every run
    throws and changes nothing. *)
Theorem returning_validator_stops {N : StakingNode} {K : StakingCodec} {A : AddressCodec} {E : Encoding}
    cfg fuel d s e u l n o id v :
  rows_wf (next_validator_id d) (validator d) →
  jobCheckpoint cfg CRAWL_VALIDATOR (checkpoints_of d) = Ok (s, e, u) → s < e →
  touches_validator s e d = true → paged (by_key validators_page) None l n → (n <= fuel)%nat →
  o ∈ l → row_of (validator d) (oc_operator_address o) = Some (id, v) →
  vs_status (v_staking v) = UNRECOGNIZED → referenced d id = true →
  recognized d ≠ [] →
  ∃ msg, handleCrawlAllValidator cfg fuel d = (d, Throw msg).
Proof.
  intros Hwf Hj Hse Ht Hp Hn Ho Hv Hst Href Hrec.
  destruct (handleCrawlAllValidator cfg fuel d) as [d' [[]|msg]] eqn:Hrun; [exfalso|exists msg; f_equal].
  - destruct (crawl_run _ _ _ _ _ _ _ _ _ Hj Hse Ht Hp Hn Hrun) as (ents & d1 & Hm & Hw & _).
    eapply write_returning; [exact Hwf|exact Hm|exact Hw|done..].
  - apply checkpoint_handler_cases in Hrun as [(-> & _)|[(msg' & _ & [->|(s' & e' & ->)])|
      (s' & e' & u' & w & d1 & d2 & _ & _ & _ & _ & _ & ?)]]; [done|done| |done].
    by rewrite prepareValidators_state.
Qed.

(** ** Power events *)
Section Power.
Context {N : StakingNode} {K : StakingCodec} {A : AddressCodec} {E : Encoding}.
Context (sdk : string) (d : Db).

(** The row with an id is that of the operator. *)
Definition is_validator (i : Z) (address : string) : Prop := ∃ v, (i, v) ∈ validator d ∧ operator v = address.
Definition known_operator (address : string) : Prop := ∃ i, is_validator i address.

(** An event names a validator, and a redelegation a second one; the others
    are skipped. *)
Definition recordable (e : Event) : Prop :=
  is_Some (firstValidator e) ∧ (ev_type e = REDELEGATE → is_Some (destValidator e)).
#[export] Instance recordable_dec e : Decision (recordable e).
Proof. unfold recordable. apply _. Defined.

(** The amount of an event: the first coin of the attribute [amount] that
    stands where the SDK puts it. *)
Definition amount_is (e : Event) (first : EventAttribute) (amount : string) : Prop :=
  ∃ a coin coins, getRawAmountByFirstIndex sdk (ev_attributes e) (ev_type e) (ea_index first) = Ok (Some a) ∧
    parseCoins (ea_value a) = Ok (coin :: coins) ∧ coin.1 = amount.

(** What the job needs of an event with a validator. *)
Definition resolvable (e : Event) : Prop := ∀ first, firstValidator e = Some first →
  known_operator (ea_value first) ∧
  (ev_type e = REDELEGATE → ∀ dest, destValidator e = Some dest → known_operator (ea_value dest)) ∧
  (∃ amount, amount_is e first amount) ∧ is_Some (ev_transaction e).

Definition recorded (e : Event) (p : PowerEvent) : Prop :=
  ev_transaction e = Some (pe_tx_id p, pe_time p) ∧ pe_height p = ev_block_height e ∧ pe_type p = ev_type e ∧
  ∃ first i, firstValidator e = Some first ∧ is_validator i (ea_value first) ∧ amount_is e first (pe_amount p) ∧
    if decide (ev_type e = REDELEGATE) then
      pe_validator_src_id p = Some i ∧
      ∃ dest j, destValidator e = Some dest ∧ is_validator j (ea_value dest) ∧ pe_validator_dst_id p = Some j
    else if decide (ev_type e = UNBOND) then pe_validator_src_id p = Some i ∧ pe_validator_dst_id p = None
    else pe_validator_src_id p = None ∧ pe_validator_dst_id p = Some i.

Lemma validator_id_known address :
  known_operator address → ∃ i, validator_id (validator d) address = Ok i ∧ is_validator i address.
Proof.
  intros (i & v & Hin & <-). unfold validator_id.
  destruct (keyBy _ (validator d) !! operator v) as [[j w]|] eqn:Hk.
  - apply keyBy_Some in Hk as [? ?]. exists j. split; [done|]. by exists w.
  - rewrite keyBy_None, Forall_forall in Hk. exfalso. by apply (Hk (i, v)).
Qed.

Lemma powerEvent_total e :
  resolvable e → ∃ o, powerEvent sdk (validator d) e = Ok o ∧
    match o with Some p => recordable e ∧ recorded e p | None => ¬ recordable e end.
Proof.
  intros Hres. unfold powerEvent. destruct (firstValidator e) as [first|] eqn:Hf.
  2:{ exists None. split; [done|]. intros [[? ?] _]. congruence. }
  destruct (Hres first Hf) as (Hk & Hd & (amount & Ham) & [[tx time] Htx]).
  destruct (validator_id_known _ Hk) as (i & Hi & Hvi).
  pose proof Ham as (a & [amount' denom] & coins & Hraw & Hcoins & Hcoin). simpl in Hcoin. subst amount'.
  unfold source_destination. rewrite Hi. cbn [mbind res_bind].
  assert (∀ src dst,
    (amountRaw ← getRawAmountByFirstIndex sdk (ev_attributes e) (ev_type e) (ea_index first);
     amount ← event_amount amountRaw;
     match ev_transaction e with
     | None => Throw "TypeError: Cannot read properties of null (reading 'id')"
     | Some (tx, time) =>
         Ok (Some {| pe_tx_id := tx; pe_height := ev_block_height e; pe_type := ev_type e;
                     pe_validator_src_id := src; pe_validator_dst_id := dst;
                     pe_amount := amount; pe_time := time |})
     end) = Ok (Some {| pe_tx_id := tx; pe_height := ev_block_height e; pe_type := ev_type e;
                        pe_validator_src_id := src; pe_validator_dst_id := dst;
                        pe_amount := amount; pe_time := time |})) as Hrest.
  { intros src dst. rewrite Hraw. cbn [mbind res_bind event_amount]. rewrite Hcoins. cbn [mbind res_bind].
    by rewrite Htx. }
  assert (∀ P src dst, recordable e → 
    (if decide (ev_type e = REDELEGATE) then
       src = Some i ∧ ∃ dest j, destValidator e = Some dest ∧ is_validator j (ea_value dest) ∧ dst = Some j
     else if decide (ev_type e = UNBOND) then src = Some i ∧ dst = None else src = None ∧ dst = Some i) →
    P = {| pe_tx_id := tx; pe_height := ev_block_height e; pe_type := ev_type e; pe_validator_src_id := src;
           pe_validator_dst_id := dst; pe_amount := amount; pe_time := time |} →
    recordable e ∧ recorded e P) as Hrec.
  { intros P src dst Hr Hids ->. split; [done|]. split; [done|]. split; [done|]. split; [done|].
    exists first, i. by split_and!. }
  case_bool_decide as Hre.
  - destruct (destValidator e) as [dest|] eqn:Hde; cbn [mbind res_bind].
    + destruct (validator_id_known _ (Hd Hre dest eq_refl)) as (j & Hj & Hvj). rewrite Hj. cbn [mbind res_bind].
      rewrite Hrest. eexists. split; [done|]. eapply Hrec; [by split; [|eauto]| |done].
      rewrite decide_True by done. eauto 10.
    + exists None. split; [done|]. intros [_ H]. destruct (H Hre). congruence.
  - case_bool_decide as Hun; cbn [mbind res_bind]; rewrite Hrest; (eexists; split; [done|]);
      (eapply Hrec; [by split; [rewrite Hf|]| |done]); rewrite decide_False by done.
    + by rewrite decide_True by done.
    + by rewrite decide_False by done.
Qed.
End Power.

Section Recorded.
Context {N : StakingNode} {K : StakingCodec} {A : AddressCodec} {E : Encoding}.

Lemma powerEvents_total sdk d es :
  (∀ e, e ∈ es → resolvable sdk d e) →
  ∃ ps, powerEvents sdk (validator d) es = Ok ps ∧ Forall2 (recorded sdk d) (filter recordable es) ps.
Proof.
  intros H. unfold powerEvents. destruct (mapR_total (powerEvent sdk (validator d)) es) as [os Hos].
  { intros e He. destruct (powerEvent_total sdk d e (H e He)) as (o & Ho & _). eauto. }
  rewrite Hos. exists (omap (M:=list) id os). split; [done|]. apply mapR_Ok in Hos.
  induction Hos as [|e o es os Ho Hos IH]; [constructor|].
  destruct (powerEvent_total sdk d e) as (o' & Ho' & Hrec); [apply H; left|].
  rewrite Ho in Ho'. injection Ho' as <-. rewrite filter_cons. cbn [omap list_omap].
  assert (Forall2 (recorded sdk d) (filter recordable es) (omap (M:=list) id os)) as IH'
    by (apply IH; intros ??; apply H; by right).
  destruct o as [p|]; cbn [id].
  - destruct Hrec as [Hr Hp]. rewrite decide_True by done. by constructor.
  - by rewrite decide_False by done.
Qed.

Lemma recorded_known sdk d e p :
  recorded sdk d e p →
  known_validator d (pe_validator_src_id p) && known_validator d (pe_validator_dst_id p) = true.
Proof.
  intros (_ & _ & _ & first & i & _ & (v & Hv & _) & _ & Hids).
  assert (∀ i v, (i, v) ∈ validator d → known_validator d (Some i) = true) as Hk.
  { intros j w Hw. apply bool_decide_eq_true, list_elem_of_fmap. by exists (j, w). }
  apply andb_true_intro. repeat case_decide.
  - destruct Hids as (-> & dest & j & _ & (w & Hw & _) & ->). eauto.
  - destruct Hids as [-> ->]. eauto.
  - destruct Hids as [-> ->]. eauto.
Qed.
End Recorded.

(** When the validators of its stake events are known and the events have
    their transaction and amount, the job succeeds: it appends one power event
    per event that names a validator, in order, from the source to the
    destination the type says, with the first coin of the amount the version
    of the SDK puts beside the validator, and stores its checkpoint. *)
Theorem stake_events_recorded {K : StakingCodec} {E : Encoding} cfg sdk d s e u :
  jobCheckpoint cfg HANDLE_STAKE_EVENT (checkpoints_of d) = Ok (s, e, u) → s < e →
  (∀ ev, ev ∈ stake_events s e d → resolvable sdk d ev) →
  ∃ d' rows, handleStakeEvents cfg sdk d = (d', Ok tt) ∧
    power_event d' = power_event d ++ rows ∧
    Forall2 (recorded sdk d) (filter recordable (stake_events s e d)) rows ∧
    checkpoints_of d' = saveCheckpoint u e (checkpoints_of d).
Proof.
  intros Hj Hse Hres. destruct (powerEvents_total sdk d _ Hres) as (ps & Hps & Hrec).
  assert (writePowerEvents ps d = Ok (set_power_events (power_event d ++ ps) d)) as Hw.
  { unfold writePowerEvents. replace (forallb _ ps) with true; [done|]. symmetry. apply forallb_forall.
    intros p Hp%list_elem_of_In. apply list_elem_of_lookup in Hp as [i Hp].
    destruct (Forall2_lookup_r _ _ _ _ _ Hrec Hp) as (ev & _ & Hev). by eapply recorded_known. }
  eexists _, ps. split; [|split; [|split]].
  - unfold handleStakeEvents. eapply checkpoint_handler_run; [exact Hj|simpl; lia| |exact Hw].
    unfold preparePowerEvents. rewrite (io_step _ _ d d (stake_events s e d)) by done.
    rewrite (io_step _ _ d d (validator d)) by done. unfold lift. by rewrite Hps.
  - done.
  - done.
  - by rewrite checkpoints_set.
Qed.

(** ** The handlers are checkpoint jobs *)
Section Jobs.
Context {N : StakingNode} {K : StakingCodec} {A : AddressCodec} {E : Encoding}.

Lemma writeValidators_frames w d d' : writeValidators w d = Ok d' → checkpoints_of d' = checkpoints_of d.
Proof.
  unfold writeValidators. destruct w as [[|e l]|]; try (by intros [= <-]).
  destruct (bool_decide _); [|done]. by intros (rows & _ & [= <-])%bind_Ok.
Qed.

#[export] Instance handleCrawlAllValidator_frames fuel :
  HandlerFrames (prepareValidators fuel) (λ _ _, writeValidators).
Proof.
  constructor; [|intros _ _; apply writeValidators_frames].
  intros s e d. by rewrite prepareValidators_state.
Qed.
#[export] Instance handleCrawlAllValidator_job cfg fuel :
  CheckpointJob cfg CRAWL_VALIDATOR (handleCrawlAllValidator cfg fuel).
Proof. eapply checkpoint_handler_job, _. Qed.

#[export] Instance handleStakeEvents_frames sdk : HandlerFrames (preparePowerEvents sdk) (λ _ _, writePowerEvents).
Proof.
  constructor.
  - intros s e. unfold preparePowerEvents. auto with frames.
  - intros _ _ w d d'. unfold writePowerEvents. destruct (forallb _ _); [|done]. by intros [= <-].
Qed.
#[export] Instance handleStakeEvents_job cfg sdk : CheckpointJob cfg HANDLE_STAKE_EVENT (handleStakeEvents cfg sdk).
Proof. eapply checkpoint_handler_job, _. Qed.
End Jobs.

(** ** Witnesses *)
Definition demo_oc (op tokens : string) : OnchainValidator := {|
  oc_operator_address := op; oc_pubkey_type := "ed25519"; oc_pubkey_key := "AAAA"; oc_jailed := false;
  oc_status := "BOND_STATUS_BONDED"; oc_tokens := tokens; oc_delegator_shares := "7.5";
  oc_description := "a validator"; oc_unbonding_height := "0"; oc_unbonding_time := "1970-01-01T00:00:00Z";
  oc_commission := "0.05"; oc_min_self_delegation := "1" |}.
(** Two pages of one validator each. *)
Definition demo_staking_node (second : OnchainValidator) : StakingNode := {|
  validators_page key := match key with
                         | None => Ok ([demo_oc "auravaloper_a" "9007199254740993"], Some "AAAA")
                         | Some _ => Ok ([second], None)
                         end;
  bonded_tokens := Ok "20000000000000000";
  delegation account op := Ok (Some (op, "5"));
  signed_blocks_window := Ok (Some "100");
  signing_infos_page _ := Ok ([], None) |}.
Definition demo_staking_codec : StakingCodec := {|
  pubkeyToRawAddress key := Ok key; toHex bytes := bytes;
  parseCoins s := match s with
                  | "" => Ok []
                  | String c _ => Ok [(String c "", "utaura")]
                  end |}.
Definition demo_validator (op account consensus status : string) : Validator := {|
  v_keys := {| vk_operator_address := op; vk_account_address := account; vk_consensus_address := consensus;
               vk_consensus_hex_address := consensus; vk_consensus_pubkey := ("ed25519", "AAAA") |};
  v_staking := {| vs_jailed := false; vs_status := status; vs_tokens := "1"; vs_delegator_shares := "1";
                  vs_description := "old"; vs_unbonding_height := 0;
                  vs_unbonding_time := "1970-01-01T00:00:00Z"; vs_commission := "0.1" |};
  v_signing := {| vg_start_height := 5; vg_index_offset := 6; vg_jailed_until := "1970-01-01T00:00:00.000Z";
                  vg_tombstoned := false; vg_missed_blocks_counter := 7; vg_uptime := 99000000 |};
  v_min_self_delegation := "1"; v_self_delegation_balance := "1"; v_percent_voting_power := 1;
  v_delegators_count := 3; v_delegators_last_height := 0 |}.
Definition demo_stake_event (id : Z) (ty : string) (l : list (string * string)) : Event := {|
  ev_id := id; ev_type := ty; ev_block_height := 4860002; ev_transaction := Some (1, "2024-05-01T00:00:00Z");
  ev_attributes := imap (λ i kv, {| ea_key := kv.1; ea_value := kv.2; ea_index := Z.of_nat i |}) l |}.

Definition demo_staking_db : Db := {|
  event := [ demo_stake_event 1 DELEGATE [("validator", "auravaloper_a"); ("delegator", "aura_z"); ("amount", "5utaura")];
             demo_stake_event 2 REDELEGATE [("source_validator", "auravaloper_a"); ("destination_validator", "auravaloper_b");
                                            ("amount", "3utaura")];
             demo_stake_event 3 UNBOND [("amount", "1utaura")];
             demo_stake_event 4 UNBOND [("validator", "auravaloper_c"); ("amount", "2utaura")] ];
  transaction := []; transaction_message := [];
  validator := [ (1, demo_validator "auravaloper_a" "aura_a" "ca" "BOND_STATUS_BONDED");
                 (2, demo_validator "auravaloper_b" "aura_b" "cb" UNRECOGNIZED);
                 (3, demo_validator "auravaloper_c" "aura_c" "cc" "BOND_STATUS_UNBONDED") ];
  next_validator_id := 4; power_event := [];
  delegator := [ {| dg_id := 1; dg_validator_id := 2; dg_delegator_address := "aura_z"; dg_amount := 10 |} ];
  next_delegator_id := 2; delegator_jobs := [];
  block_checkpoint := <["handle:transaction" := 4860010]> (<["crawl:validator" := 4860001]>
                        (<["handle:stake-event" := 4860001]> ∅)) |}.
Definition demo_codec := DemoCodec.codec.
Definition demo_encoding := DemoEncoding.encoding.

Definition demo_crawl (second : OnchainValidator) (d : Db) : Db * res () :=
  handleCrawlAllValidator (N := demo_staking_node second) (K := demo_staking_codec) (A := demo_codec)
    (E := demo_encoding) Config.json 2 d.

Example demo_crawl_rows :
  (λ r : Z * Validator, (r.1, operator r.2, vs_status (v_staking r.2), vs_tokens (v_staking r.2),
                         v_percent_voting_power r.2, v_delegators_count r.2))
    <$> validator (demo_crawl (demo_oc "auravaloper_d" "9007199254740993") demo_staking_db).1 =
  [ (1, "auravaloper_a", "BOND_STATUS_BONDED", "9007199254740993", 45035996, 3);
    (2, "auravaloper_b", UNRECOGNIZED, "1", 1, 3);
    (3, "auravaloper_c", UNRECOGNIZED, "0", 0, 3);
    (4, "auravaloper_d", "BOND_STATUS_BONDED", "9007199254740992", 45035996, 0) ].
Proof. vm_compute. reflexivity. Qed.

Lemma demo_rows_wf : rows_wf (next_validator_id demo_staking_db) (validator demo_staking_db).
Proof.
  split.
  - by apply (bool_decide_unpack _).
  - by apply (bool_decide_unpack _).
  - intros id Hid. simpl in *. rewrite !elem_of_cons, elem_of_nil in Hid. lia.
Qed.

Lemma demo_paged second :
  paged (by_key (E := demo_encoding) (validators_page (StakingNode := demo_staking_node second))) None
    [demo_oc "auravaloper_a" "9007199254740993"; second] 2.
Proof.
  eapply (paged_more _ _ [_] _ [_] 1); [vm_compute; reflexivity|]. constructor. vm_compute. reflexivity.
Qed.

Lemma validators_mirrored_witness :
  let second := demo_oc "auravaloper_d" "9007199254740993" in
  let d' := (demo_crawl second demo_staking_db).1 in
  ∃ v', row_of (validator d') "auravaloper_a" = Some (1, v') ∧ v_delegators_count v' = 3 ∧
        vs_tokens (v_staking v') = "9007199254740993".
Proof.
  intros second d'.
  assert (demo_crawl second demo_staking_db = (d', Ok tt)) as Hrun by (vm_compute; reflexivity).
  destruct (validators_mirrored (N := demo_staking_node second) (K := demo_staking_codec) (A := demo_codec)
    (E := demo_encoding) Config.json 2 demo_staking_db d' 4860001 4860010
    {| job_name := "crawl:validator"; height := 4860001 |}
    [demo_oc "auravaloper_a" "9007199254740993"; second] 2 demo_rows_wf) as (_ & _ & Hon & _);
    [by vm_compute|lia|by vm_compute|apply demo_paged|lia|exact Hrun|].
  destruct (Hon (demo_oc "auravaloper_a" "9007199254740993")) as (id & v' & Hrow & _ & Hkept); [left|].
  destruct (Hkept 1 (demo_validator "auravaloper_a" "aura_a" "ca" "BOND_STATUS_BONDED")) as (-> & Hk & Ht);
    [by vm_compute|done|]. exists v'. split; [exact Hrow|]. split; [apply Hk|exact Ht].
Defined.

Lemma returning_validator_stops_witness :
  ∃ msg, demo_crawl (demo_oc "auravaloper_b" "7") demo_staking_db = (demo_staking_db, Throw msg).
Proof.
  eapply (returning_validator_stops (N := demo_staking_node (demo_oc "auravaloper_b" "7")) (K := demo_staking_codec)
    (A := demo_codec) (E := demo_encoding) Config.json 2 demo_staking_db 4860001 4860010
    {| job_name := "crawl:validator"; height := 4860001 |}
    [demo_oc "auravaloper_a" "9007199254740993"; demo_oc "auravaloper_b" "7"] 2
    (demo_oc "auravaloper_b" "7") 2 (demo_validator "auravaloper_b" "aura_b" "cb" UNRECOGNIZED));
    [apply demo_rows_wf|by vm_compute|lia|by vm_compute|apply demo_paged|lia|right; left|by vm_compute|done|by vm_compute|done].
Defined.

Definition demo_stake_db : Db :=
  set_checkpoints (<["crawl:validator" := 4860010]> (block_checkpoint demo_staking_db)) demo_staking_db.

Lemma demo_known op i v :
  (i, v) ∈ validator demo_stake_db → operator v = op → known_operator demo_stake_db op.
Proof. intros Hin <-. exists i, v. done. Qed.

Lemma demo_resolvable ev :
  ev ∈ stake_events 4860001 4860010 demo_stake_db →
  resolvable (K := demo_staking_codec) (E := demo_encoding) "v0.45.16" demo_stake_db ev.
Proof.
  intros Hin. change (ev ∈ event demo_stake_db) in Hin.
  repeat (apply elem_of_cons in Hin as [->|Hin]; [|]); [..|by apply elem_of_nil in Hin];
    intros first Hf; vm_compute in Hf; try done; injection Hf as <-.
  - split; [eapply demo_known; [left|done]|]. split; [done|]. split; [|by eexists].
    exists "5". eexists _, _, []. split; [vm_compute; reflexivity|]. split; [vm_compute; reflexivity|done].
  - split; [eapply demo_known; [left|done]|]. split.
    { intros _ dest Hd. vm_compute in Hd. injection Hd as <-. eapply demo_known; [right; left|done]. }
    split; [|by eexists].
    exists "3". eexists _, _, []. split; [vm_compute; reflexivity|]. split; [vm_compute; reflexivity|done].
  - split; [eapply demo_known; [right; right; left|done]|]. split; [done|]. split; [|by eexists].
    exists "2". eexists _, _, []. split; [vm_compute; reflexivity|]. split; [vm_compute; reflexivity|done].
Qed.

(** The third event names no validator. *)
Lemma stake_events_recorded_witness :
  ∃ d' rows, handleStakeEvents (K := demo_staking_codec) (E := demo_encoding) Config.json "v0.45.16" demo_stake_db
             = (d', Ok tt) ∧ power_event d' = rows ∧ length rows = 3%nat.
Proof.
  destruct (stake_events_recorded (K := demo_staking_codec) (E := demo_encoding) Config.json "v0.45.16"
    demo_stake_db 4860001 4860010 {| job_name := "handle:stake-event"; height := 4860001 |})
    as (d' & rows & Hr & Hp & Hf & _); [by vm_compute|lia|apply demo_resolvable|].
  exists d', rows. split; [exact Hr|]. split; [exact Hp|]. by apply Forall2_length in Hf.
Defined.
