(* ===== verification/Delegators.v ===== *)
(** * Delegators

    [services/crawl-validator/crawl_delegators.service.ts] keeps the amount of
    every delegation and the number of delegators of a validator: it applies
    the staking messages page by page, one transaction per message, and has an
    action that reads all delegations from the node.

    The theorems: a run applies its page of messages to a ledger of amounts,
    except those whose amounts the column refuses, and keeps the counts right;
    it does so whatever the codes of the transactions, so failed messages
    count; a page of refused messages stops the job; a message that is stored
    late is skipped for good; the action leaves the checkpoint where it was; the
    mirror of the validators writes old counts. *)
From S2P Require Import Prelude JsNum Checkpoint Address Registry Validators.

Definition MSG_DELEGATE := "/cosmos.staking.v1beta1.MsgDelegate".
Definition MSG_REDELEGATE := "/cosmos.staking.v1beta1.MsgBeginRedelegate".
Definition MSG_UNDELEGATE := "/cosmos.staking.v1beta1.MsgUndelegate".
Definition MSG_CANCEL_UNDELEGATE := "/cosmos.staking.v1beta1.MsgCancelUnbondingDelegation".
Definition CHECKPOINT_UPDATE_DELEGATOR := "job:checkpoint_update_delegator".
Definition txMsgPageLimit : nat := 100.

(** ** Rows *)

(** [Delegator.query().findOne({ delegator_address, validator_id })] *)
Definition find_delegator (d : Db) (validator_id : Z) (address : string) : option Delegator :=
  find (λ g, bool_decide (dg_delegator_address g = address ∧ dg_validator_id g = validator_id)) (delegator d).

(** The column [amount] is decimal(30,0). *)
Definition amount_fits (amount : Z) : bool := (- 10 ^ 30 <? amount) && (amount <? 10 ^ 30).
Definition overflow : string := "numeric field overflow".

(** [trx('delegator').insert(...)]: the amount and the address must fit their
    columns, the pair of validator and address is unique, and the validator
    must exist. *)
Definition insert_delegator (validator_id : Z) (address : string) (amount : Z) (d : Db) : res Db :=
  match find_delegator d validator_id address with
  | Some _ => Throw "duplicate key value violates unique constraint"
  | None =>
      if negb (amount_fits amount) then Throw overflow
      else if negb (varchar255 address) then Throw too_long
      else if bool_decide (validator_id ∈ (validator d).*1) then
        Ok (set_delegators
              (delegator d ++ [{| dg_id := next_delegator_id d; dg_validator_id := validator_id;
                                  dg_delegator_address := address; dg_amount := amount |}])
              (next_delegator_id d + 1) d)
      else Throw "insert violates foreign key constraint"
  end.

Definition set_amount (amount : Z) (g : Delegator) : Delegator := {|
  dg_id := dg_id g; dg_validator_id := dg_validator_id g;
  dg_delegator_address := dg_delegator_address g; dg_amount := amount |}.

(** [trx('delegator').update({ amount }).where({ id })] of a row that was read *)
Definition update_amount (id amount : Z) (d : Db) : res Db :=
  if amount_fits amount then
    Ok (set_delegators ((λ g, if dg_id g =? id then set_amount amount g else g) <$> delegator d)
          (next_delegator_id d) d)
  else Throw overflow.

(** [trx('delegator').delete().where({ id })] *)
Definition delete_delegator (id : Z) (d : Db) : Db :=
  set_delegators (filter (λ g, dg_id g ≠ id) (delegator d)) (next_delegator_id d) d.

Definition set_counts (count height : Z) (v : Validator) : Validator := {|
  v_keys := v_keys v; v_staking := v_staking v; v_signing := v_signing v;
  v_min_self_delegation := v_min_self_delegation v;
  v_self_delegation_balance := v_self_delegation_balance v;
  v_percent_voting_power := v_percent_voting_power v; v_delegators_count := count;
  v_delegators_last_height := height |}.

(** [trx('validator').update({ delegators_count }).where({ id })] *)
Definition update_count (id count : Z) (d : Db) : Db :=
  set_validators ((λ r : Z * Validator, if r.1 =? id then (r.1, set_counts count (v_delegators_last_height r.2) r.2)
                                        else r) <$> validator d) (next_validator_id d) d.

(** ** Messages

    The rows are read before anything is written. *)
Definition handleDelegateTxMsg (delegateTxMsg : TransactionMessage) (d : Db) : res Db :=
  let c := tm_content delegateTxMsg in
  match row_of (validator d) (ct_validator_address c) with
  | None => Ok d
  | Some (id, v) =>
      match find_delegator d id (ct_delegator_address c) with
      | None =>
          d ← insert_delegator id (ct_delegator_address c) (ct_amount c) d;
          Ok (update_count id (v_delegators_count v + 1) d)
      | Some g => update_amount (dg_id g) (dg_amount g + ct_amount c) d
      end
  end.

(** A delegator gives up an amount: the row is updated, or deleted when
    nothing remains. *)
Definition take_amount (id : Z) (v : Validator) (g : Delegator) (amount : Z) (d : Db) : res Db :=
  if 0 <? dg_amount g - amount then update_amount (dg_id g) (dg_amount g - amount) d
  else Ok (update_count id (v_delegators_count v - 1) (delete_delegator (dg_id g) d)).

Definition handleReDelegateTxMsg (reDelegateTxMsg : TransactionMessage) (d : Db) : res Db :=
  let c := tm_content reDelegateTxMsg in
  match row_of (validator d) (ct_validator_src_address c), row_of (validator d) (ct_validator_dst_address c) with
  | Some (src, vsrc), Some (dst, vdst) =>
      let delegatorSrc := find_delegator d src (ct_delegator_address c) in
      let delegatorDst := find_delegator d dst (ct_delegator_address c) in
      d ← (match delegatorSrc with Some g => take_amount src vsrc g (ct_amount c) d | None => Ok d end);
      match delegatorDst with
      | None =>
          d ← insert_delegator dst (ct_delegator_address c) (ct_amount c) d;
          Ok (update_count dst (v_delegators_count vdst + 1) d)
      | Some g => update_amount (dg_id g) (dg_amount g + ct_amount c) d
      end
  | _, _ => Ok d
  end.

Definition handleUnDelegateTxMsg (unDelegateTxMsg : TransactionMessage) (d : Db) : res Db :=
  let c := tm_content unDelegateTxMsg in
  match row_of (validator d) (ct_validator_address c) with
  | None => Ok d
  | Some (id, v) =>
      match find_delegator d id (ct_delegator_address c) with
      | None => Ok d
      | Some g => take_amount id v g (ct_amount c) d
      end
  end.

(** The [switch] of the job. *)
Definition handleTxMsg (msg : TransactionMessage) (d : Db) : res Db :=
  if bool_decide (tm_type msg = MSG_DELEGATE) then handleDelegateTxMsg msg d
  else if bool_decide (tm_type msg = MSG_REDELEGATE) then handleReDelegateTxMsg msg d
  else if bool_decide (tm_type msg = MSG_UNDELEGATE) then handleUnDelegateTxMsg msg d
  else if bool_decide (tm_type msg = MSG_CANCEL_UNDELEGATE) then handleDelegateTxMsg msg d
  else Ok d.

(** ** The job *)
Definition store_checkpoint (height : Z) (d : Db) : Db :=
  set_checkpoints (<[CHECKPOINT_UPDATE_DELEGATOR := height]> (block_checkpoint d)) d.

Definition getCheckpointUpdateDelegator : io Db Z :=
  checkpointDelegator ← query (λ d, block_checkpoint d !! CHECKPOINT_UPDATE_DELEGATOR);
  match checkpointDelegator with
  | Some h => mret h
  | None =>
      oldest ← query (λ d, head (sortBy tm_id (transaction_message d)));
      match oldest with
      | None => throw "No transaction message found."
      | Some m => _ ← update (store_checkpoint (tm_id m - 1)); mret (tm_id m - 1)
      end
  end.

Definition oldest_transaction (height : Z) (d : Db) : option Transaction :=
  head (sortBy tx_id (filter (λ t, tx_height t = height) (transaction d))).

Definition is_delegation (m : TransactionMessage) : bool :=
  bool_decide (tm_type m ∈ [MSG_DELEGATE; MSG_REDELEGATE; MSG_UNDELEGATE; MSG_CANCEL_UNDELEGATE]).

(** The messages above the checkpoint, of the transactions below [bound]. *)
Definition txMsg (checkpoint bound : Z) (d : Db) : list TransactionMessage :=
  take txMsgPageLimit (sortBy tm_id
    (filter (λ m, checkpoint < tm_id m ∧ tm_tx_id m < bound ∧ is_delegation m = true) (transaction_message d))).

(** One message: a transaction with the checkpoint; an error is logged, rolled
    back, and the loop goes on. *)
Definition handle_message (msg : TransactionMessage) : io Db () :=
  logged (λ d, d ← handleTxMsg msg d;
    Ok (match block_checkpoint d !! CHECKPOINT_UPDATE_DELEGATOR with
        | Some _ => store_checkpoint (tm_id msg) d | None => d end)).

Definition handleJob : io Db () :=
  latest ← query (λ d, block_checkpoint d !! jd_name CRAWL_VALIDATOR);
  match latest with
  | None => mret tt
  | Some height =>
      oldest ← query (oldest_transaction height);
      match oldest with
      | None => mret tt
      | Some t =>
          checkpoint ← getCheckpointUpdateDelegator;
          msgs ← query (txMsg checkpoint (tx_id t));
          each handle_message msgs
      end
  end.

(** ** The action that reads the delegations from the node *)

(** A page of the delegations of a validator at a height: [None] for an answer
    with an error code, which ends the listing. *)
Class DelegationsNode := {
  delegations_page : string → Z → option bytes → res (option (list (string * Z) * option bytes))
}.

Section Sync.
Context {N : DelegationsNode}.

Definition delegation_pages (address : string) (height : Z) (key : option bytes)
  : res (list (string * Z) * option bytes) :=
  answer ← delegations_page address height key;
  match answer with
  | None => Ok ([], None)
  | Some (items, Some k) => Ok (items, if bool_decide (k = "") then None else Some k)
  | Some (items, None) => Ok (items, None)
  end.

Definition getValidatorDelegations (fuel : nat) (address : string) (height : Z) : res (list (string * Z)) :=
  pages (delegation_pages address height) fuel None.

Definition write_delegations (p : IValidatorDelegators) (delegators : list (string * Z)) (d : Db) : res Db :=
  d ← forEachM (λ d (x : string * Z), insert_delegator (vd_id p) x.1 x.2 d) d delegators;
  Ok (set_validators
        ((λ r : Z * Validator, if r.1 =? vd_id p
                               then (r.1, set_counts (Z.of_nat (length delegators)) (vd_height p) r.2) else r)
           <$> validator d) (next_validator_id d) d).

Definition handleJobCrawlValidatorDelegators (fuel : nat) (p : IValidatorDelegators) : io Db () :=
  delegators ← lift (getValidatorDelegations fuel (vd_address p) (vd_height p));
  commit (write_delegations p delegators).

(** [TRUNCATE TABLE delegator RESTART IDENTITY CASCADE] *)
Definition truncate (d : Db) : Db := set_delegators [] 1 d.

Definition latest_transaction (height : Z) (d : Db) : option Transaction :=
  last (sortBy tx_id (filter (λ t, tx_height t = height) (transaction d))).

(** Storing the checkpoint: an [insert] checks the required fields, and so
    does [update] in objection, which is given the height alone. *)
Definition write_checkpoint (latest : option TransactionMessage) (d : Db) : res Db :=
  match block_checkpoint d !! CHECKPOINT_UPDATE_DELEGATOR, latest with
  | None, Some m => Ok (store_checkpoint (tm_id m) d)
  | None, None => Throw "ValidationError: height: must have required property 'height'"
  | Some _, _ => Throw "ValidationError: job_name: must have required property 'job_name'"
  end.

Definition updateAllValidator (height : Z) : io Db () :=
  _ ← update truncate;
  latest ← query (latest_transaction height);
  match latest with
  | None => mret tt
  | Some t =>
      _ ← update (λ d, set_delegator_jobs (delegator_jobs d ++
            ((λ r : Z * Validator, {| vd_id := r.1; vd_address := vk_operator_address (v_keys r.2);
                                      vd_height := height |}) <$> validator d)) d);
      latestMessage ← query (λ d, last (sortBy tm_id (filter (λ m, tm_tx_id m = tx_id t) (transaction_message d))));
      commit (write_checkpoint latestMessage)
  end.
End Sync.

(** ** The ledger

    The amounts by validator and delegator, and what the rows must satisfy. *)
Definition dg_key (g : Delegator) : Z * string := (dg_validator_id g, dg_delegator_address g).
Definition ledger_of (l : list Delegator) : gmap (Z * string) Z := list_to_map ((λ g, (dg_key g, dg_amount g)) <$> l).
Abbreviation ledger d := (ledger_of (delegator d)).
Definition count_of (l : list Delegator) (id : Z) : Z := Z.of_nat (length (filter (λ g, dg_validator_id g = id) l)).

Record delegators_wf (d : Db) : Prop := {
  dw_rows : rows_wf (next_validator_id d) (validator d);
  dw_keys : NoDup (dg_key <$> delegator d);
  dw_ids : NoDup (dg_id <$> delegator d);
  dw_next g : g ∈ delegator d → dg_id g < next_delegator_id d;
  dw_validator g : g ∈ delegator d → dg_validator_id g ∈ (validator d).*1
}.

(** The count of every validator is the number of its delegators. *)
Definition counts_ok (d : Db) : Prop :=
  ∀ id v, (id, v) ∈ validator d → v_delegators_count v = count_of (delegator d) id.

Lemma ledger_lookup l k x :
  NoDup (dg_key <$> l) → ledger_of l !! k = Some x ↔ ∃ g, g ∈ l ∧ dg_key g = k ∧ dg_amount g = x.
Proof.
  intros Hnd. unfold ledger_of. rewrite <-elem_of_list_to_map.
  - rewrite list_elem_of_fmap. split.
    + intros (g & [= -> ->] & Hg). eauto.
    + intros (g & Hg & <- & <-). eauto.
  - rewrite <-list_fmap_compose. erewrite list_fmap_ext; [exact Hnd|done].
Qed.

Lemma find_delegator_spec d id a g :
  delegators_wf d → find_delegator d id a = Some g ↔ g ∈ delegator d ∧ dg_key g = (id, a).
Proof.
  intros Hwf. unfold find_delegator. split.
  - intros [Hg [<- <-]%bool_decide_eq_true]%find_Some. done.
  - intros [Hg Hk]. destruct (find _ (delegator d)) as [g'|] eqn:Hf.
    + apply find_Some in Hf as [Hg' [Ha Hi]%bool_decide_eq_true]. f_equal.
      apply (NoDup_fmap_key dg_key (delegator d)); [apply Hwf|done..|]. rewrite Hk. unfold dg_key. congruence.
    + apply find_None in Hf. rewrite Forall_forall in Hf. specialize (Hf g Hg).
      apply bool_decide_eq_false in Hf. injection Hk as <- <-. by destruct Hf.
Qed.

Lemma find_delegator_ledger d id a :
  delegators_wf d → ledger d !! (id, a) = dg_amount <$> find_delegator d id a.
Proof.
  intros Hwf. apply option_eq. intros x. rewrite ledger_lookup by apply Hwf. split.
  - intros (g & Hg & Hk & <-). assert (find_delegator d id a = Some g) as -> by by apply find_delegator_spec. done.
  - intros (g & Hf & Hx)%fmap_Some. apply find_delegator_spec in Hf as [? ?]; [|done]. eauto.
Qed.

(** *** The writes *)
Lemma ledger_snoc l g : NoDup (dg_key <$> (l ++ [g])) → ledger_of (l ++ [g]) = <[dg_key g := dg_amount g]> (ledger_of l).
Proof.
  intros Hnd. apply map_eq. intros k. apply option_eq. intros x. rewrite ledger_lookup by done.
  rewrite lookup_insert_Some, ledger_lookup.
  2:{ rewrite fmap_app in Hnd. by apply NoDup_app in Hnd as [? _]. }
  rewrite fmap_app, NoDup_app in Hnd. destruct Hnd as (_ & Hdis & _). split.
  - intros (g' & Hg' & Hk & Hx). apply elem_of_app in Hg' as [Hg'| ->%list_elem_of_singleton]; [|by left].
    right. split; [|by exists g']. intros <-. apply (Hdis (dg_key g')).
    + apply list_elem_of_fmap. eauto.
    + rewrite Hk. left.
  - intros [[<- <-]|(Hne & g' & Hg' & Hk & Hx)]; [exists g|exists g'];
      (split; [rewrite elem_of_app, list_elem_of_singleton; tauto|done]).
Qed.

Lemma update_keys i y (l : list Delegator) :
  dg_key <$> ((λ g, if dg_id g =? i then set_amount y g else g) <$> l) = dg_key <$> l.
Proof. rewrite <-list_fmap_compose. apply list_fmap_ext. intros j g _. simpl. by destruct (dg_id g =? i). Qed.

Lemma update_ids i y (l : list Delegator) :
  dg_id <$> ((λ g, if dg_id g =? i then set_amount y g else g) <$> l) = dg_id <$> l.
Proof. rewrite <-list_fmap_compose. apply list_fmap_ext. intros j g _. simpl. by destruct (dg_id g =? i). Qed.

Lemma update_counts i y (l : list Delegator) id :
  count_of ((λ g, if dg_id g =? i then set_amount y g else g) <$> l) id = count_of l id.
Proof.
  unfold count_of. induction l as [|g l IH]; [done|]. rewrite fmap_cons, !filter_cons.
  assert (dg_validator_id (if dg_id g =? i then set_amount y g else g) = dg_validator_id g) as ->
    by by destruct (dg_id g =? i).
  case_decide; simpl; lia.
Qed.

(** The row with an id is the one with a key. *)
Definition same_row (l : list Delegator) (i : Z) (k : Z * string) : Prop :=
  ∀ g, g ∈ l → dg_id g = i ↔ dg_key g = k.

Lemma ledger_update l i k y :
  NoDup (dg_key <$> l) → same_row l i k →
  ledger_of ((λ g, if dg_id g =? i then set_amount y g else g) <$> l) = alter (λ _, y) k (ledger_of l).
Proof.
  intros Hnd Hs. apply map_eq. intros k'. apply option_eq. intros x.
  rewrite ledger_lookup by by rewrite update_keys. split.
  - intros (g' & Hg' & Hk & Hx). apply list_elem_of_fmap in Hg' as (g & -> & Hg).
    destruct (Z.eqb_spec (dg_id g) i) as [Hi|Hi].
    + apply Hs in Hi; [|done]. assert (k' = k) as -> by by rewrite <-Hk, <-Hi. rewrite lookup_alter_eq.
      assert (ledger_of l !! k = Some (dg_amount g)) as -> by (apply ledger_lookup; eauto). by rewrite <-Hx.
    + rewrite lookup_alter_ne; [apply ledger_lookup; eauto|]. intros <-. apply Hi, Hs; done.
  - rewrite lookup_alter_Some. intros [(-> & z & Hz & ->)|[Hne Hx]].
    + apply ledger_lookup in Hz as (g & Hg & Hk & <-); [|done]. exists (set_amount y g).
      split; [|done]. apply list_elem_of_fmap. exists g. split; [|done].
      destruct (Z.eqb_spec (dg_id g) i) as [|Hi]; [done|]. by destruct Hi; apply Hs.
    + apply ledger_lookup in Hx as (g & Hg & Hk & <-); [|done]. exists g. split; [|done].
      apply list_elem_of_fmap. exists g. split; [|done].
      destruct (Z.eqb_spec (dg_id g) i) as [Hi|]; [|done]. apply Hs in Hi; [congruence|done].
Qed.

Lemma ledger_delete l i k :
  NoDup (dg_key <$> l) → same_row l i k → ledger_of (filter (λ g, dg_id g ≠ i) l) = delete k (ledger_of l).
Proof.
  intros Hnd Hs. apply map_eq. intros k'. apply option_eq. intros x.
  rewrite ledger_lookup by (apply (NoDup_fmap_filter _ _ (λ _, True)); [done|by rewrite filter_all]).
  rewrite lookup_delete_Some, ledger_lookup by done. split.
  - intros (g & [Hi Hg]%list_elem_of_filter & <- & <-). split; [|eauto]. intros Hk. apply Hi, Hs; done.
  - intros (Hne & g & Hg & <- & <-). exists g. split; [|done]. apply list_elem_of_filter. split; [|done].
    intros Hi. apply Hs in Hi; [congruence|done].
Qed.

Lemma count_delete l g id :
  NoDup (dg_id <$> l) → g ∈ l →
  count_of (filter (λ g', dg_id g' ≠ dg_id g) l) id = count_of l id - (if decide (dg_validator_id g = id) then 1 else 0).
Proof.
  unfold count_of. induction l as [|g' l IH]; intros Hnd Hg; [by apply elem_of_nil in Hg|].
  rewrite fmap_cons, NoDup_cons in Hnd. destruct Hnd as [Hni Hnd]. rewrite !(filter_cons _ g').
  apply elem_of_cons in Hg as [->|Hg].
  - rewrite (decide_False (P := dg_id g' ≠ dg_id g')) by tauto.
    rewrite (filter_all (λ x, dg_id x ≠ dg_id g')).
    2:{ intros x Hx Heq. apply Hni, list_elem_of_fmap. eauto. }
    case_decide; simpl; lia.
  - rewrite (decide_True (P := dg_id g' ≠ dg_id g)).
    2:{ intros Heq. apply Hni. rewrite Heq. apply list_elem_of_fmap. eauto. }
    rewrite filter_cons. specialize (IH Hnd Hg). do 2 case_decide; simpl; lia.
Qed.

Lemma same_row_key l g : NoDup (dg_id <$> l) → NoDup (dg_key <$> l) → g ∈ l → same_row l (dg_id g) (dg_key g).
Proof.
  intros Hi Hk Hg g' Hg'. split; intros Heq.
  - by rewrite (NoDup_fmap_key dg_id _ _ _ Hi Hg' Hg Heq).
  - by rewrite (NoDup_fmap_key dg_key _ _ _ Hk Hg' Hg Heq).
Qed.

(** *** One statement or two *)
Record stepped (d d' : Db) (L : gmap (Z * string) Z) : Prop := {
  st_wf : delegators_wf d';
  st_ledger : ledger d' = L;
  st_operators op : fst <$> row_of (validator d') op = fst <$> row_of (validator d) op;
  st_counts : counts_ok d → counts_ok d';
  st_checkpoints : block_checkpoint d' = block_checkpoint d;
  st_next : next_validator_id d' = next_validator_id d
}.

Lemma stepped_refl d : delegators_wf d → stepped d d (ledger d).
Proof. by split. Qed.

Lemma update_count_operator id n (rows : list (Z * Validator)) op :
  fst <$> row_of ((λ r : Z * Validator, if r.1 =? id then (r.1, set_counts n (v_delegators_last_height r.2) r.2)
                                        else r) <$> rows) op = fst <$> row_of rows op.
Proof.
  induction rows as [|r rows IH]; [done|]. rewrite fmap_cons, !row_of_cons.
  assert (operator (if r.1 =? id then (r.1, set_counts n (v_delegators_last_height r.2) r.2) else r).2 = operator r.2)
    as -> by by destruct (r.1 =? id).
  case_bool_decide; [|done]. by destruct (r.1 =? id).
Qed.

Lemma update_count_wf id n next rows :
  rows_wf next rows →
  rows_wf next ((λ r : Z * Validator, if r.1 =? id then (r.1, set_counts n (v_delegators_last_height r.2) r.2)
                                      else r) <$> rows).
Proof.
  intros [Hop Hid Hn].
  assert (∀ B (f : Z * Validator → B), (∀ i v w, v_keys v = v_keys w → f (i, v) = f (i, w)) →
    f <$> ((λ r : Z * Validator, if r.1 =? id then (r.1, set_counts n (v_delegators_last_height r.2) r.2)
                                 else r) <$> rows) = f <$> rows) as Hf.
  { intros B f Hf. rewrite <-list_fmap_compose. apply list_fmap_ext. intros i [j v] _. simpl.
    destruct (j =? id); [|done]. by apply Hf. }
  split.
  - rewrite (Hf _ (λ r : Z * Validator, operator r.2)); [done|]. intros i v w H. simpl. by rewrite H.
  - by rewrite (Hf _ fst).
  - intros i. rewrite (Hf _ fst) by done. apply Hn.
Qed.

Lemma update_count_ids id n d : (validator (update_count id n d)).*1 = (validator d).*1.
Proof.
  unfold update_count. simpl. rewrite <-list_fmap_compose. apply list_fmap_ext. intros i r _. simpl.
  by destruct (r.1 =? id).
Qed.

(** A count that is adjusted with the rows stays right. *)
Lemma counts_update d d1 id v δ :
  delegators_wf d → (id, v) ∈ validator d → validator d1 = validator d →
  (∀ i, count_of (delegator d1) i = count_of (delegator d) i + if decide (id = i) then δ else 0) →
  counts_ok d → counts_ok (update_count id (v_delegators_count v + δ) d1).
Proof.
  intros Hwf Hv Hval Hcount Hok i w Hw. unfold update_count in *. simpl in *. rewrite Hval in Hw.
  apply list_elem_of_fmap in Hw as ([j w'] & Heq & Hw). simpl in Heq. rewrite Hcount.
  destruct (Z.eqb_spec j id) as [->|Hne]; injection Heq as -> ->.
  - rewrite decide_True by done.
    assert ((id, w') = (id, v)) as [= ->]
      by (apply (NoDup_fmap_key fst (validator d)); [apply Hwf|done..]).
    simpl. by rewrite (Hok id v Hv).
  - rewrite decide_False by done. rewrite (Hok j w' Hw). lia.
Qed.

(** A statement moves the ledger to [L], or is refused when there is none. *)
Definition outcome (d : Db) (m : res Db) (o : option (gmap (Z * string) Z)) : Prop :=
  match o with
  | Some L => ∃ d', m = Ok d' ∧ stepped d d' L
  | None => ∃ e, m = Throw e
  end.

Lemma outcome_refl d : delegators_wf d → outcome d (Ok d) (Some (ledger d)).
Proof. intros Hwf. eexists. split; [done|by apply stepped_refl]. Qed.

(** Putting an amount in the place of another, and adding a row. *)
Definition spec_set (k : Z * string) (y : Z) (L : gmap (Z * string) Z) : option (gmap (Z * string) Z) :=
  if amount_fits y then Some (alter (λ _, y) k L) else None.
Definition spec_new (k : Z * string) (y : Z) (L : gmap (Z * string) Z) : option (gmap (Z * string) Z) :=
  if amount_fits y && varchar255 k.2 then Some (<[k := y]> L) else None.

Lemma update_amount_stepped d i k y :
  delegators_wf d → same_row (delegator d) i k → outcome d (update_amount i y d) (spec_set k y (ledger d)).
Proof.
  intros Hwf Hs. unfold update_amount, spec_set. destruct (amount_fits y); [|by eexists].
  eexists. split; [done|]. destruct Hwf as [Hrows Hkeys Hids Hnext Hfk]. split; simpl.
  - split; simpl; [done|by rewrite update_keys|by rewrite update_ids|..];
      intros g' (g & -> & Hg)%list_elem_of_fmap; specialize (Hnext g Hg); specialize (Hfk g Hg);
      by destruct (dg_id g =? i).
  - by apply ledger_update.
  - done.
  - intros Hok id v Hv. simpl. rewrite update_counts. by apply Hok.
  - done.
  - done.
Qed.

Lemma add_delegation d id v a x :
  delegators_wf d → (id, v) ∈ validator d → find_delegator d id a = None →
  outcome d (d ← insert_delegator id a x d; Ok (update_count id (v_delegators_count v + 1) d))
    (spec_new (id, a) x (ledger d)).
Proof.
  intros Hwf Hv Hf. assert (id ∈ (validator d).*1) as Hid by (apply list_elem_of_fmap; by exists (id, v)).
  unfold insert_delegator, spec_new. rewrite Hf, bool_decide_true by done. simpl snd.
  destruct (amount_fits x); [|by eexists]. destruct (varchar255 a); [|by eexists].
  cbn [mbind res_bind negb andb]. eexists. split; [done|].
  set (g := {| dg_id := next_delegator_id d; dg_validator_id := id; dg_delegator_address := a; dg_amount := x |}).
  set (d1 := set_delegators _ _ d).
  assert (NoDup (dg_key <$> (delegator d ++ [g]))) as Hk.
  { rewrite fmap_app. apply NoDup_app. split; [apply Hwf|]. split; [|apply NoDup_singleton].
    intros k (g' & -> & Hg')%list_elem_of_fmap Heq%list_elem_of_singleton.
    assert (find_delegator d id a = Some g') by by apply find_delegator_spec. congruence. }
  split.
  - destruct Hwf as [Hrows Hkeys Hids Hnext Hfk]. split.
    + by apply update_count_wf.
    + done.
    + simpl. rewrite fmap_app. apply NoDup_app. split; [done|]. split; [|apply NoDup_singleton].
      intros i (g' & -> & Hg')%list_elem_of_fmap Heq%list_elem_of_singleton.
      specialize (Hnext g' Hg'). simpl in Heq. lia.
    + simpl. intros g' [Hg'| ->%list_elem_of_singleton]%elem_of_app; [specialize (Hnext g' Hg')|]; simpl; lia.
    + intros g' Hg'. rewrite update_count_ids. simpl in Hg'.
      apply elem_of_app in Hg' as [Hg'| ->%list_elem_of_singleton]; [by apply Hfk|done].
  - by apply ledger_snoc.
  - intros op. apply update_count_operator.
  - apply counts_update; [done..|]. intros i. simpl. unfold count_of. rewrite filter_app, length_app.
    rewrite filter_cons. simpl. case_decide; simpl; lia.
  - done.
  - done.
Qed.

(** ** The specification of the messages *)
Definition spec_add (k : Z * string) (x : Z) (L : gmap (Z * string) Z) : option (gmap (Z * string) Z) :=
  match L !! k with None => spec_new k x L | Some y => spec_set k (y + x) L end.
Definition spec_take (k : Z * string) (x : Z) (L : gmap (Z * string) Z) : option (gmap (Z * string) Z) :=
  match L !! k with
  | None => Some L
  | Some y => if 0 <? y - x then spec_set k (y - x) L else Some (delete k L)
  end.

Lemma take_amount_stepped d id v g x :
  delegators_wf d → (id, v) ∈ validator d → g ∈ delegator d → dg_validator_id g = id →
  outcome d (take_amount id v g x d) (spec_take (dg_key g) x (ledger d)).
Proof.
  intros Hwf Hv Hg Hid. assert (same_row (delegator d) (dg_id g) (dg_key g)) as Hs
    by by apply same_row_key; [apply Hwf..|].
  assert (ledger d !! dg_key g = Some (dg_amount g)) as HL by (apply ledger_lookup; [apply Hwf|eauto]).
  unfold take_amount, spec_take. rewrite HL. destruct (0 <? dg_amount g - x).
  { by apply update_amount_stepped. }
  destruct Hwf as [Hrows Hkeys Hids Hnext Hfk] eqn:Hw. eexists. split; [done|]. split.
  - split.
    + by apply update_count_wf.
    + simpl. apply (NoDup_fmap_filter _ _ (λ _, True)); [done|by rewrite filter_all].
    + simpl. apply (NoDup_fmap_filter _ _ (λ _, True)); [done|by rewrite filter_all].
    + intros g' [_ Hg']%list_elem_of_filter. by apply Hnext.
    + intros g' [_ Hg']%list_elem_of_filter. rewrite update_count_ids. by apply Hfk.
  - by apply ledger_delete.
  - intros op. apply update_count_operator.
  - replace (v_delegators_count v - 1) with (v_delegators_count v + -1) by lia.
    apply counts_update; [done..|]. intros i. simpl. rewrite count_delete by done. rewrite Hid. case_decide; lia.
  - done.
  - done.
Qed.

Lemma stepped_trans d d1 d2 L1 L2 : stepped d d1 L1 → stepped d1 d2 L2 → stepped d d2 L2.
Proof.
  intros [W1 E1 O1 C1 K1 N1] [W2 E2 O2 C2 K2 N2].
  split; [done|done|intros op; by rewrite O2|auto|by rewrite K2|by rewrite N2].
Qed.

(** A refused second step refuses both. *)
Lemma outcome_trans d m (k : Db → res Db) o f :
  outcome d m o → (∀ d1, m = Ok d1 → stepped d d1 (ledger d1) → outcome d1 (k d1) (f (ledger d1))) →
  outcome d (m ≫= k) (o ≫= f).
Proof.
  intros Hm Hk. destruct o as [L|]; [|by destruct Hm as [e ->]; exists e].
  destruct Hm as (d1 & -> & Hs). pose proof (st_ledger _ _ _ Hs) as <-. specialize (Hk d1 eq_refl Hs). simpl.
  destruct (f (ledger d1)) as [L2|]; [|exact Hk]. destruct Hk as (d2 & Hd2 & Hs2).
  exists d2. split; [exact Hd2|by eapply stepped_trans].
Qed.

Lemma take_amount_rows id v g x d d1 g1 :
  take_amount id v g x d = Ok d1 → g1 ∈ delegator d1 →
  ∃ g0, g0 ∈ delegator d ∧ dg_id g1 = dg_id g0 ∧ dg_key g1 = dg_key g0.
Proof.
  unfold take_amount, update_amount. destruct (0 <? _); [destruct (amount_fits _); [|done]|];
    intros [= <-]; simpl.
  - intros (g0 & -> & Hg)%list_elem_of_fmap. exists g0. by destruct (dg_id g0 =? dg_id g).
  - intros [_ Hg]%list_elem_of_filter. eauto.
Qed.

Lemma take_amount_validator id v g x d d1 i w :
  take_amount id v g x d = Ok d1 → (i, w) ∈ validator d → i ≠ id → (i, w) ∈ validator d1.
Proof.
  unfold take_amount, update_amount. destruct (0 <? _); [destruct (amount_fits _); [|done]|];
    intros [= <-] Hin Hne; [done|]. simpl. apply list_elem_of_fmap.
  exists (i, w). split; [|done]. simpl. by destruct (Z.eqb_spec i id).
Qed.

(** A message moves amounts by operator address and delegator; messages of
    unknown validators do nothing.  A redelegation takes first, and puts on
    top of what the destination held before.  [None]: an amount or an address
    does not fit its column. *)
Definition spec_msg (operators : string → option Z) (m : TransactionMessage) (L : gmap (Z * string) Z)
  : option (gmap (Z * string) Z) :=
  let c := tm_content m in
  let a := ct_delegator_address c in
  let x := ct_amount c in
  if bool_decide (tm_type m = MSG_REDELEGATE) then
    match operators (ct_validator_src_address c), operators (ct_validator_dst_address c) with
    | Some src, Some dst =>
        L1 ← spec_take (src, a) x L;
        match L !! (dst, a) with
        | None => spec_new (dst, a) x L1
        | Some y => spec_set (dst, a) (y + x) L1
        end
    | _, _ => Some L
    end
  else
    match operators (ct_validator_address c) with
    | None => Some L
    | Some id =>
        if bool_decide (tm_type m = MSG_UNDELEGATE) then spec_take (id, a) x L
        else if bool_decide (tm_type m = MSG_DELEGATE ∨ tm_type m = MSG_CANCEL_UNDELEGATE) then spec_add (id, a) x L
        else Some L
    end.
Definition operators_of (d : Db) (op : string) : option Z := fst <$> row_of (validator d) op.

Lemma handleDelegate_stepped d m :
  delegators_wf d →
  outcome d (handleDelegateTxMsg m d)
    (match operators_of d (ct_validator_address (tm_content m)) with
     | None => Some (ledger d)
     | Some id => spec_add (id, ct_delegator_address (tm_content m)) (ct_amount (tm_content m)) (ledger d)
     end).
Proof.
  intros Hwf. unfold handleDelegateTxMsg, operators_of. set (c := tm_content m).
  destruct (row_of (validator d) (ct_validator_address c)) as [[id v]|] eqn:Hr; cbn [fmap option_fmap option_map fst];
    [|by apply outcome_refl].
  apply row_of_operator in Hr as [Hv _]. unfold spec_add. rewrite find_delegator_ledger by done.
  destruct (find_delegator d id (ct_delegator_address c)) as [g|] eqn:Hf; cbn [fmap option_fmap option_map].
  - apply find_delegator_spec in Hf as [Hg Hk]; [|done]. rewrite <-Hk.
    apply update_amount_stepped; [done|]. by apply same_row_key; [apply Hwf..|].
  - by apply add_delegation.
Qed.

Lemma handleUnDelegate_stepped d m :
  delegators_wf d →
  outcome d (handleUnDelegateTxMsg m d)
    (match operators_of d (ct_validator_address (tm_content m)) with
     | None => Some (ledger d)
     | Some id => spec_take (id, ct_delegator_address (tm_content m)) (ct_amount (tm_content m)) (ledger d)
     end).
Proof.
  intros Hwf. unfold handleUnDelegateTxMsg, operators_of. set (c := tm_content m).
  destruct (row_of (validator d) (ct_validator_address c)) as [[id v]|] eqn:Hr; cbn [fmap option_fmap option_map fst];
    [|by apply outcome_refl].
  apply row_of_operator in Hr as [Hv _].
  destruct (find_delegator d id (ct_delegator_address c)) as [g|] eqn:Hf.
  - apply find_delegator_spec in Hf as [Hg Hk]; [|done]. rewrite <-Hk.
    apply take_amount_stepped; [done..|]. by injection Hk.
  - unfold spec_take. rewrite find_delegator_ledger, Hf by done. by apply outcome_refl.
Qed.

Lemma spec_take_None k k' x L L' : spec_take k' x L = Some L' → L !! k = None → L' !! k = None.
Proof.
  unfold spec_take, spec_set. intros Hs H. destruct (L !! k'); [|by injection Hs as <-].
  destruct (0 <? _); [destruct (amount_fits _); [|done]|]; injection Hs as <-.
  - by apply lookup_alter_None.
  - by apply lookup_delete_None; right.
Qed.

(** The first half of a redelegation. *)
Lemma redelegate_take d src vsrc a x :
  delegators_wf d → (src, vsrc) ∈ validator d →
  let m1 := match find_delegator d src a with Some g => take_amount src vsrc g x d | None => Ok d end in
  outcome d m1 (spec_take (src, a) x (ledger d)) ∧
  ∀ d1, m1 = Ok d1 →
    (∀ g1, g1 ∈ delegator d1 → ∃ g0, g0 ∈ delegator d ∧ dg_id g1 = dg_id g0 ∧ dg_key g1 = dg_key g0) ∧
    (∀ i w, (i, w) ∈ validator d → find_delegator d i a = None → (i, w) ∈ validator d1).
Proof.
  intros Hwf Hv m1. unfold m1. destruct (find_delegator d src a) as [g|] eqn:Hf.
  - apply find_delegator_spec in Hf as [Hg Hk]; [|done]. split; [|intros d1 Hd1; split].
    + rewrite <-Hk. apply take_amount_stepped; [done..|]. by injection Hk.
    + intros g1. by eapply take_amount_rows.
    + intros i w Hin Hnone. eapply take_amount_validator; [done..|]. intros ->.
      assert (find_delegator d src a = Some g) by by apply find_delegator_spec. congruence.
  - split; [|intros d1 [= <-]; by eauto]. unfold spec_take. rewrite find_delegator_ledger, Hf by done.
    by apply outcome_refl.
Qed.

Lemma handleReDelegate_stepped d m :
  delegators_wf d → tm_type m = MSG_REDELEGATE →
  outcome d (handleReDelegateTxMsg m d) (spec_msg (operators_of d) m (ledger d)).
Proof.
  intros Hwf Hty. unfold handleReDelegateTxMsg, spec_msg, operators_of. rewrite bool_decide_true by done.
  set (c := tm_content m). set (a := ct_delegator_address c). set (x := ct_amount c).
  destruct (row_of (validator d) (ct_validator_src_address c)) as [[src vsrc]|] eqn:Hs;
    cbn [fmap option_fmap option_map fst]; [|by apply outcome_refl].
  destruct (row_of (validator d) (ct_validator_dst_address c)) as [[dst vdst]|] eqn:Ht;
    cbn [fmap option_fmap option_map fst]; [|by apply outcome_refl].
  apply row_of_operator in Hs as [Hs _], Ht as [Ht _].
  destruct (redelegate_take d src vsrc a x Hwf Hs) as (H1 & Hrest). cbv zeta in *.
  set (m1 := match find_delegator d src a with Some g => _ | None => _ end) in *.
  rewrite (find_delegator_ledger d dst a Hwf). pose proof H1 as Hsrc.
  apply outcome_trans; [done|]. intros d1 Hd1 Hst. destruct (Hrest d1 Hd1) as [Hrows Hval].
  destruct (find_delegator d dst a) as [g|] eqn:Hf; cbn [fmap option_fmap option_map].
  - apply find_delegator_spec in Hf as [Hg Hk]; [|done]. rewrite <-Hk.
    apply update_amount_stepped; [apply Hst|]. intros g1 (g0 & Hg0 & -> & ->)%Hrows.
    by apply (same_row_key (delegator d)); [apply Hwf..| |].
  - apply add_delegation; [apply Hst|by apply Hval|].
    unfold outcome in Hsrc. destruct (spec_take _ _ _) as [L|] eqn:HL; [|by destruct Hsrc; congruence].
    destruct Hsrc as (d1' & Heq & Hst'). rewrite Hd1 in Heq. injection Heq as <-.
    assert (ledger d1 !! (dst, a) = None) as Hnone.
    { rewrite (st_ledger _ _ _ Hst'). eapply spec_take_None; [done|]. by rewrite find_delegator_ledger, Hf by done. }
    rewrite find_delegator_ledger in Hnone by apply Hst. by destruct (find_delegator d1 dst a).
Qed.

Lemma handleTxMsg_stepped d m :
  delegators_wf d → outcome d (handleTxMsg m d) (spec_msg (operators_of d) m (ledger d)).
Proof.
  intros Hwf. unfold handleTxMsg.
  destruct (bool_decide_reflect (tm_type m = MSG_DELEGATE)) as [H1|H1].
  { pose proof (handleDelegate_stepped d m Hwf) as Ho. unfold spec_msg. by rewrite H1. }
  destruct (bool_decide_reflect (tm_type m = MSG_REDELEGATE)) as [H2|H2].
  { by apply handleReDelegate_stepped. }
  destruct (bool_decide_reflect (tm_type m = MSG_UNDELEGATE)) as [H3|H3].
  { pose proof (handleUnDelegate_stepped d m Hwf) as Ho. unfold spec_msg. by rewrite H3. }
  unfold spec_msg. rewrite (bool_decide_false _ H2), (bool_decide_false _ H3).
  destruct (bool_decide_reflect (tm_type m = MSG_CANCEL_UNDELEGATE)) as [H4|H4].
  - pose proof (handleDelegate_stepped d m Hwf) as Ho. by rewrite bool_decide_true by by right.
  - rewrite bool_decide_false by by intros [|]. destruct (operators_of d _); by apply outcome_refl.
Qed.

(** ** A page of messages

    A message that is refused is rolled back and skipped: it changes neither the
    ledger nor the checkpoint. *)
Definition page_step (operators : string → option Z) (x : Z * gmap (Z * string) Z) (m : TransactionMessage)
  : Z * gmap (Z * string) Z :=
  match spec_msg operators m x.2 with Some L => (tm_id m, L) | None => x end.
Definition page_run (operators : string → option Z) (msgs : list TransactionMessage) (h : Z)
    (L : gmap (Z * string) Z) : Z * gmap (Z * string) Z := foldl (page_step operators) (h, L) msgs.

Lemma spec_msg_ext f g m L : (∀ op, f op = g op) → spec_msg f m L = spec_msg g m L.
Proof. intros H. unfold spec_msg. by rewrite !H. Qed.

Lemma page_run_ext f g msgs h L : (∀ op, f op = g op) → page_run f msgs h L = page_run g msgs h L.
Proof.
  intros H. unfold page_run. generalize (h, L). induction msgs as [|m msgs IH]; intros x; [done|]. simpl.
  unfold page_step at 2 4. by rewrite (spec_msg_ext f g).
Qed.

Lemma store_checkpoint_stepped d d1 L h :
  stepped d d1 L →
  delegators_wf (store_checkpoint h d1) ∧ ledger (store_checkpoint h d1) = L ∧
  (∀ op, operators_of (store_checkpoint h d1) op = operators_of d op) ∧
  (counts_ok d → counts_ok (store_checkpoint h d1)) ∧
  next_validator_id (store_checkpoint h d1) = next_validator_id d.
Proof. intros [[] ? ? ? ? ?]. done. Qed.

Lemma handle_messages d msgs h :
  delegators_wf d → block_checkpoint d !! CHECKPOINT_UPDATE_DELEGATOR = Some h →
  ∃ d', each handle_message msgs d = (d', Ok tt) ∧ delegators_wf d' ∧
    ledger d' = (page_run (operators_of d) msgs h (ledger d)).2 ∧ (counts_ok d → counts_ok d') ∧
    next_validator_id d' = next_validator_id d ∧
    block_checkpoint d' =
      <[CHECKPOINT_UPDATE_DELEGATOR := (page_run (operators_of d) msgs h (ledger d)).1]> (block_checkpoint d).
Proof.
  revert d h. induction msgs as [|m msgs IH]; intros d h Hwf Hh.
  { exists d. split_and!; try done. simpl. by rewrite insert_id. }
  pose proof (handleTxMsg_stepped d m Hwf) as Ho. unfold page_run in *. cbn [foldl]. unfold page_step at 2 4.
  cbn [snd]. unfold outcome in Ho. destruct (spec_msg (operators_of d) m (ledger d)) as [L|]; cycle 1.
  { destruct Ho as [e He]. destruct (IH d h Hwf Hh) as (d' & Hrun & H). exists d'. split; [|exact H].
    cbn [each]. unfold handle_message at 1, logged. by rewrite He. }
  destruct Ho as (d1 & H1 & Hs).
  assert (handle_message m d = (store_checkpoint (tm_id m) d1, Ok tt)) as Hm.
  { unfold handle_message, logged. rewrite H1. cbn [mbind res_bind]. by rewrite (st_checkpoints _ _ _ Hs), Hh. }
  destruct (store_checkpoint_stepped _ _ _ (tm_id m) Hs) as (W & EL & O & C & NX).
  destruct (IH (store_checkpoint (tm_id m) d1) (tm_id m) W) as (d' & Hrun & W' & EL' & C' & NX' & K').
  { simpl. apply lookup_insert_eq. }
  pose proof (page_run_ext _ _ msgs (tm_id m) L O) as Hext. unfold page_run in Hext.
  rewrite EL, Hext in EL', K'.
  exists d'. split; [cbn [each]; by rewrite Hm|]. split; [done|]. split; [done|split; [auto|split; [by rewrite NX'|]]].
  rewrite K'. simpl. by rewrite (st_checkpoints _ _ _ Hs), insert_insert_eq.
Qed.

(** Where a run starts. *)
Definition first_checkpoint (d : Db) : option Z :=
  match block_checkpoint d !! CHECKPOINT_UPDATE_DELEGATOR with
  | Some h => Some h
  | None => (λ m, tm_id m - 1) <$> head (sortBy tm_id (transaction_message d))
  end.

Lemma handleJob_page d height t cp :
  block_checkpoint d !! "crawl:validator" = Some height → oldest_transaction height d = Some t →
  first_checkpoint d = Some cp →
  let d0 := match block_checkpoint d !! CHECKPOINT_UPDATE_DELEGATOR with
            | Some _ => d | None => store_checkpoint cp d end in
  handleJob d = each handle_message (txMsg cp (tx_id t) d) d0 ∧
  block_checkpoint d0 = <[CHECKPOINT_UPDATE_DELEGATOR := cp]> (block_checkpoint d).
Proof.
  intros Hh Ht Hcp. unfold handleJob, first_checkpoint, getCheckpointUpdateDelegator in *.
  rewrite (io_step _ _ d d (Some height)) by (unfold query; do 2 f_equal; exact Hh). cbv iota.
  rewrite (io_step _ _ d d (Some t)) by (unfold query; by rewrite Ht). cbv iota.
  unfold mbind at 1, io_bind at 1. unfold query, mbind at 1, io_bind at 1.
  destruct (block_checkpoint d !! CHECKPOINT_UPDATE_DELEGATOR) as [h|] eqn:H.
  - injection Hcp as ->. split; [done|]. by rewrite insert_id.
  - unfold mbind, io_bind, update, mret, io_ret. destruct (head _) as [m|]; [|done]. by injection Hcp as <-.
Qed.

(** C17: a run of the delegators job applies its page to the ledger, message by
    message in the order of the ids: the amounts by validator and delegator
    become what the messages make of them, except that a message whose amount
    does not fit decimal(30,0) (or whose new address has more than 255
    characters) changes nothing; the rows stay well formed, the number of
    delegators of every validator stays right, and the checkpoint is the last
    message that was applied, or where it was when none was. *)
Theorem delegators_job_correct d height t cp :
  delegators_wf d → counts_ok d →
  block_checkpoint d !! "crawl:validator" = Some height → oldest_transaction height d = Some t →
  first_checkpoint d = Some cp →
  let '(checkpoint, L) := page_run (operators_of d) (txMsg cp (tx_id t) d) cp (ledger d) in
  ∃ d', handleJob d = (d', Ok tt) ∧
    ledger d' = L ∧ delegators_wf d' ∧ counts_ok d' ∧
    block_checkpoint d' = <[CHECKPOINT_UPDATE_DELEGATOR := checkpoint]> (block_checkpoint d).
Proof.
  intros Hwf Hc Hh Ht Hcp. set (msgs := txMsg cp (tx_id t) d).
  destruct (handleJob_page d height t cp Hh Ht Hcp) as [Hrun Hcp0].
  set (d0 := match block_checkpoint d !! _ with Some _ => d | None => _ end) in *.
  assert (delegators_wf d0 ∧ ledger d0 = ledger d ∧ counts_ok d0 ∧ ∀ op, operators_of d0 op = operators_of d op)
    as (W & EL & C & O).
  { unfold d0. destruct (block_checkpoint d !! CHECKPOINT_UPDATE_DELEGATOR); [auto|].
    destruct (store_checkpoint_stepped d d (ledger d) cp (stepped_refl d Hwf)) as (? & ? & ? & ? & _). auto. }
  destruct (handle_messages d0 msgs cp W) as (d' & Hd' & W' & EL' & C' & _ & K').
  { rewrite Hcp0. apply lookup_insert_eq. }
  rewrite EL, (page_run_ext _ _ msgs cp _ O) in EL', K'.
  destruct (page_run (operators_of d) msgs cp (ledger d)) as [h L]. simpl in *.
  exists d'. rewrite Hrun. split; [done|]. split; [done|]. split; [done|]. split; [auto|].
  by rewrite K', Hcp0, insert_insert_eq.
Qed.

(** A page of messages that are all refused stops the job: the checkpoint stays
    where it was, so the next run reads the same page.  A failed transaction
    with a hundred delegations of 10^30 makes such a page. *)
Theorem refused_page_stops_job d height t cp :
  delegators_wf d →
  block_checkpoint d !! "crawl:validator" = Some height → oldest_transaction height d = Some t →
  block_checkpoint d !! CHECKPOINT_UPDATE_DELEGATOR = Some cp →
  Forall (λ m, spec_msg (operators_of d) m (ledger d) = None) (txMsg cp (tx_id t) d) →
  handleJob d = (d, Ok tt).
Proof.
  intros Hwf Hh Ht Hcp Hall. destruct (handleJob_page d height t cp Hh Ht) as [Hrun _].
  { unfold first_checkpoint. by rewrite Hcp. }
  rewrite Hrun, Hcp. clear Hrun. induction Hall as [|m msgs Hm _ IH]; [done|]. cbn [each].
  pose proof (handleTxMsg_stepped d m Hwf) as Ho. unfold outcome in Ho. rewrite Hm in Ho. destruct Ho as [e He].
  unfold handle_message at 1, logged. by rewrite He.
Qed.

(** ** Codes, late messages, counts *)

(** The database with other codes at its transactions. *)
Definition set_codes (f : Transaction → Z) (d : Db) : Db := {|
  event := event d;
  transaction := (λ t, {| tx_id := tx_id t; tx_height := tx_height t; tx_code := f t |}) <$> transaction d;
  transaction_message := transaction_message d; validator := validator d;
  next_validator_id := next_validator_id d; power_event := power_event d; delegator := delegator d;
  next_delegator_id := next_delegator_id d; delegator_jobs := delegator_jobs d;
  block_checkpoint := block_checkpoint d |}.

Section Codes.
Context (f : Transaction → Z).

Lemma insert_delegator_codes id a x d :
  insert_delegator id a x (set_codes f d) = set_codes f <$> insert_delegator id a x d.
Proof.
  unfold insert_delegator. change (find_delegator (set_codes f d) id a) with (find_delegator d id a).
  destruct (find_delegator d id a); [done|]. change (validator (set_codes f d)) with (validator d).
  destruct (negb _); [done|]. destruct (negb _); [done|]. by destruct (bool_decide _).
Qed.

Lemma add_codes id a x id' n d :
  (d ← insert_delegator id a x (set_codes f d); Ok (update_count id' n d)) =
  set_codes f <$> (d ← insert_delegator id a x d; Ok (update_count id' n d)).
Proof. rewrite insert_delegator_codes. by destruct (insert_delegator id a x d). Qed.

Lemma update_amount_codes i y d : update_amount i y (set_codes f d) = set_codes f <$> update_amount i y d.
Proof. unfold update_amount. by destruct (amount_fits y). Qed.

Lemma take_amount_codes id v g x d : take_amount id v g x (set_codes f d) = set_codes f <$> take_amount id v g x d.
Proof. unfold take_amount. destruct (0 <? _); [apply update_amount_codes|done]. Qed.

Lemma handleDelegate_codes m d : handleDelegateTxMsg m (set_codes f d) = set_codes f <$> handleDelegateTxMsg m d.
Proof.
  unfold handleDelegateTxMsg. change (validator (set_codes f d)) with (validator d).
  destruct (row_of (validator d) _) as [[id v]|]; [|done].
  change (find_delegator (set_codes f d)) with (find_delegator d).
  destruct (find_delegator d _ _); [apply update_amount_codes|apply add_codes].
Qed.

Lemma handleTxMsg_codes m d : handleTxMsg m (set_codes f d) = set_codes f <$> handleTxMsg m d.
Proof.
  unfold handleTxMsg. case_bool_decide; [apply handleDelegate_codes|]. case_bool_decide.
  { unfold handleReDelegateTxMsg. change (validator (set_codes f d)) with (validator d).
    change (find_delegator (set_codes f d)) with (find_delegator d).
    destruct (row_of (validator d) _) as [[src vsrc]|]; [|done].
    destruct (row_of (validator d) _) as [[dst vdst]|]; [|done].
    assert (∀ d1, match find_delegator d dst (ct_delegator_address (tm_content m)) with
        | Some g => update_amount (dg_id g) (dg_amount g + ct_amount (tm_content m)) (set_codes f d1)
        | None => d2 ← insert_delegator dst (ct_delegator_address (tm_content m)) (ct_amount (tm_content m)) (set_codes f d1);
                  Ok (update_count dst (v_delegators_count vdst + 1) d2)
        end = set_codes f <$> match find_delegator d dst (ct_delegator_address (tm_content m)) with
        | Some g => update_amount (dg_id g) (dg_amount g + ct_amount (tm_content m)) d1
        | None => d2 ← insert_delegator dst (ct_delegator_address (tm_content m)) (ct_amount (tm_content m)) d1;
                  Ok (update_count dst (v_delegators_count vdst + 1) d2)
        end) as Hput.
    { intros d1. destruct (find_delegator d dst _); [apply update_amount_codes|apply add_codes]. }
    destruct (find_delegator d src _) as [g|]; [rewrite take_amount_codes|apply Hput].
    destruct (take_amount _ _ _ _ d) as [d1|]; [apply Hput|done]. }
  case_bool_decide; [|case_bool_decide; [apply handleDelegate_codes|done]].
  unfold handleUnDelegateTxMsg. change (validator (set_codes f d)) with (validator d).
  destruct (row_of (validator d) _) as [[id v]|]; [|done].
  change (find_delegator (set_codes f d)) with (find_delegator d). destruct (find_delegator d _ _); [|done].
  apply take_amount_codes.
Qed.

Lemma handle_messages_codes msgs d :
  each handle_message msgs (set_codes f d) =
  (set_codes f (each handle_message msgs d).1, (each handle_message msgs d).2).
Proof.
  revert d. induction msgs as [|m msgs IH]; intros d; [done|]. cbn [each]. unfold handle_message, logged.
  rewrite handleTxMsg_codes. destruct (handleTxMsg m d) as [d1|e]; cbn [mbind res_bind fmap res_fmap]; [|apply IH].
  change (block_checkpoint (set_codes f d1)) with (block_checkpoint d1).
  by destruct (block_checkpoint d1 !! _); rewrite <-IH.
Qed.

Lemma oldest_transaction_codes height d :
  tx_id <$> oldest_transaction height (set_codes f d) = tx_id <$> oldest_transaction height d.
Proof.
  unfold oldest_transaction. simpl. set (g := λ t, {| tx_id := tx_id t; tx_height := tx_height t; tx_code := f t |}).
  assert (filter (λ t, tx_height t = height) (g <$> transaction d)
          = g <$> filter (λ t, tx_height t = height) (transaction d)) as ->.
  { induction (transaction d) as [|t l IH]; [done|]. rewrite fmap_cons, !filter_cons. simpl.
    case_decide; [|done]. by rewrite IH. }
  rewrite (sortBy_fmap tx_id tx_id g) by done. by destruct (sortBy tx_id _).
Qed.
End Codes.

(** The code of a transaction never matters to the delegators job: with
    any other codes, a run does the same.  So a failed delegation is counted
    like a successful one. *)
Theorem failed_delegations_counted f d :
  handleJob (set_codes f d) = (set_codes f (handleJob d).1, (handleJob d).2).
Proof.
  unfold handleJob, query, mbind, io_bind.
  change (block_checkpoint (set_codes f d)) with (block_checkpoint d).
  destruct (block_checkpoint d !! jd_name CRAWL_VALIDATOR) as [height|]; [|done].
  pose proof (oldest_transaction_codes f height d) as Ho.
  destruct (oldest_transaction height (set_codes f d)) as [t|], (oldest_transaction height d) as [t'|];
    try done. injection Ho as Ho.
  unfold getCheckpointUpdateDelegator, query, update, throw, lift, mret, io_ret, mbind, io_bind.
  change (block_checkpoint (set_codes f d)) with (block_checkpoint d).
  destruct (block_checkpoint d !! CHECKPOINT_UPDATE_DELEGATOR) as [h|].
  - rewrite Ho. apply handle_messages_codes.
  - cbv beta. change (transaction_message (set_codes f d)) with (transaction_message d). destruct (head (sortBy tm_id (transaction_message d))) as [m|]; [|done].
    rewrite Ho. apply (handle_messages_codes f _ (store_checkpoint (tm_id m - 1) d)).
Qed.

(** *** Messages below the checkpoint *)

(** Runs of the job, and any other work that leaves its checkpoint alone. *)
Inductive delegator_step (d : Db) : Db → Prop :=
| step_run : delegator_step d (handleJob d).1
| step_other d' :
    block_checkpoint d' !! CHECKPOINT_UPDATE_DELEGATOR = block_checkpoint d !! CHECKPOINT_UPDATE_DELEGATOR →
    delegator_step d d'.

Lemma handleTxMsg_checkpoints m d d' : handleTxMsg m d = Ok d' → block_checkpoint d' = block_checkpoint d.
Proof.
  assert (∀ i y d d', update_amount i y d = Ok d' → block_checkpoint d' = block_checkpoint d) as Hu.
  { intros i y d0 d1. unfold update_amount. destruct (amount_fits y); [|done]. by intros [= <-]. }
  assert (∀ id v g x d d', take_amount id v g x d = Ok d' → block_checkpoint d' = block_checkpoint d) as Ht.
  { intros id v g x d0 d1. unfold take_amount. destruct (0 <? _); [apply Hu|]. by intros [= <-]. }
  assert (∀ id a x n id' d d', (d ← insert_delegator id a x d; Ok (update_count id' n d)) = Ok d' →
    block_checkpoint d' = block_checkpoint d) as Hi.
  { intros id a x n id' d0 d1 (d2 & H & [= <-])%bind_Ok. unfold insert_delegator in H.
    destruct (find_delegator _ _ _); [done|]. destruct (negb _); [done|]. destruct (negb _); [done|].
    destruct (bool_decide _); [|done]. by injection H as <-. }
  assert (handleDelegateTxMsg m d = Ok d' → block_checkpoint d' = block_checkpoint d) as Hd.
  { unfold handleDelegateTxMsg. repeat case_match; [by eapply Hu|by eapply Hi|by intros [= <-]]. }
  unfold handleTxMsg. case_bool_decide; [done|]. case_bool_decide; [|case_bool_decide; [|case_bool_decide; [done|]]].
  - unfold handleReDelegateTxMsg. repeat case_match; try by intros [= <-].
    all: intros (dx & Hx & Hy)%bind_Ok.
    all: assert (block_checkpoint dx = block_checkpoint d) as <- by
      (exact (Ht _ _ _ _ _ _ Hx) || by injection Hx as <-).
    all: exact (Hu _ _ _ _ Hy) || by eapply Hi.
  - unfold handleUnDelegateTxMsg. repeat case_match; [by eapply Ht|by intros [= <-]..].
  - by intros [= <-].
Qed.

(** The checkpoint is at least [h]. *)
Definition checkpoint_from (h : Z) (d : Db) : Prop :=
  ∃ h', block_checkpoint d !! CHECKPOINT_UPDATE_DELEGATOR = Some h' ∧ h <= h'.

Lemma elem_of_txMsg cp bound d m : m ∈ txMsg cp bound d → cp < tm_id m ∧ tm_tx_id m < bound.
Proof.
  unfold txMsg. intros Hin. apply elem_of_take in Hin as (i & Hin & _). apply list_elem_of_lookup_2 in Hin.
  rewrite sortBy_perm in Hin. by apply list_elem_of_filter in Hin as [(? & ? & _) _].
Qed.

Lemma handle_message_from h m : h <= tm_id m → keeps (checkpoint_from h) (handle_message m).
Proof.
  intros Hm. apply keeps_logged. intros d d' (h' & Hh & Hle) (d1 & H1 & [= <-])%bind_Ok.
  apply handleTxMsg_checkpoints in H1. rewrite H1, Hh. exists (tm_id m).
  split; [apply lookup_insert_eq|done].
Qed.

Lemma handle_messages_from h msgs :
  (∀ m, m ∈ msgs → h <= tm_id m) → keeps (checkpoint_from h) (each handle_message msgs).
Proof.
  induction msgs as [|m msgs IH]; intros Hms; [by intros d Hd|]. intros d Hd. cbn [each].
  pose proof (handle_message_from h m (Hms m (list_elem_of_here _ _)) d Hd) as Hm.
  destruct (handle_message m d) as [d' [[]|e]]; [|done]. apply IH; [|done]. intros ??. apply Hms. by right.
Qed.

Lemma delegator_step_from h d d' : delegator_step d d' → checkpoint_from h d → checkpoint_from h d'.
Proof.
  intros [|d2 Heq] Hd; [|by unfold checkpoint_from; rewrite Heq].
  unfold handleJob, query, mbind, io_bind. destruct (block_checkpoint d !! jd_name _); [|done].
  destruct (oldest_transaction _ d) as [t|]; [|done]. unfold getCheckpointUpdateDelegator, query, mbind, io_bind.
  pose proof Hd as (h' & Hh & Hle). rewrite Hh. unfold mret, io_ret. cbv beta iota.
  apply handle_messages_from; [|done]. intros m Hm. apply elem_of_txMsg in Hm. lia.
Qed.

(** A staking message that is stored, or whose block is reached, after a
    message with a higher id was applied is never applied: the checkpoint is
    the id of the last message, and no later run of the job, whatever the
    other jobs do, selects a message below it.  The messages a [MsgExec]
    contains get their ids later than the blocks after it, and a message that
    was refused comes before the ones applied after it. *)
Theorem late_message_skipped d d' m h :
  block_checkpoint (handleJob d).1 !! CHECKPOINT_UPDATE_DELEGATOR = Some h → tm_id m <= h →
  rtc delegator_step (handleJob d).1 d' →
  ∃ h', block_checkpoint d' !! CHECKPOINT_UPDATE_DELEGATOR = Some h' ∧ ∀ bound, m ∉ txMsg h' bound d'.
Proof.
  intros Hh Hle Hsteps. assert (checkpoint_from h (handleJob d).1) as Hfrom by by exists h.
  assert (checkpoint_from h d') as (h' & Hh' & Hle').
  { clear -Hsteps Hfrom. induction Hsteps; [done|]. apply IHHsteps. by eapply delegator_step_from. }
  exists h'. split; [done|]. intros bound [Hm _]%elem_of_txMsg. lia.
Qed.

(** The action that reads the delegations from the node fails when the job
    has run before: it empties the table and creates the jobs that fill it, but
    then throws, since the update of the checkpoint is checked like a whole
    row.  The messages above the old checkpoint stay to be applied, on top of
    the amounts the node reports for a later height. *)
Theorem resync_keeps_checkpoint {N : DelegationsNode} height d h t :
  block_checkpoint d !! CHECKPOINT_UPDATE_DELEGATOR = Some h → latest_transaction height d = Some t →
  ∃ d1 msg, updateAllValidator height d = (d1, Throw msg) ∧
    delegator d1 = [] ∧ length (delegator_jobs d1) = (length (delegator_jobs d) + length (validator d))%nat ∧
    block_checkpoint d1 = block_checkpoint d ∧ ∀ bound, txMsg h bound d1 = txMsg h bound d.
Proof.
  intros Hh Ht. eexists _, _. split.
  - unfold updateAllValidator, update, query, mbind, io_bind.
    change (latest_transaction height (truncate d)) with (latest_transaction height d). rewrite Ht.
    unfold commit, write_checkpoint. simpl. rewrite Hh. done.
  - simpl. split; [done|]. split; [by rewrite length_app, length_fmap|done].
Qed.

(** The mirror of the validators overwrites the counts: it writes whole
    rows that it read before it asked the node, so a run of the delegators job
    in between is lost for [delegators_count], while its rows stay. *)
Theorem counts_overwritten {N : StakingNode} {K : StakingCodec} {A : AddressCodec} {E : Encoding}
    d l ents d2 id v height t cp :
  delegators_wf d →
  block_checkpoint d !! "crawl:validator" = Some height → oldest_transaction height d = Some t →
  first_checkpoint d = Some cp →
  mirror (recognized d) l = Ok ents → writeValidators (Some ents) (handleJob d).1 = Ok d2 →
  row_of (validator d) (operator v) = Some (id, v) → vs_status (v_staking v) ≠ UNRECOGNIZED →
  delegator d2 = delegator (handleJob d).1 ∧
  ∃ v', row_of (validator d2) (operator v) = Some (id, v') ∧ v_delegators_count v' = v_delegators_count v.
Proof.
  intros Hwf Hh Ht Hcp Hm Hw Hv Hst. pose proof (rw_operators _ _ (dw_rows _ Hwf)) as Hnd.
  destruct (handleJob_page d height t cp Hh Ht Hcp) as [Hrun Hcp0]. rewrite Hrun in Hw |- *.
  set (d0 := match block_checkpoint d !! _ with Some _ => d | None => _ end) in *.
  assert (delegators_wf d0 ∧ next_validator_id d0 = next_validator_id d) as [W0 N0].
  { unfold d0. destruct (block_checkpoint d !! CHECKPOINT_UPDATE_DELEGATOR); [done|].
    by destruct (store_checkpoint_stepped d d (ledger d) cp (stepped_refl d Hwf)) as (? & _ & _ & _ & ?). }
  destruct (handle_messages d0 (txMsg cp (tx_id t) d) cp W0) as (d1 & Hd1 & W1 & _ & _ & N1 & _).
  { rewrite Hcp0. apply lookup_insert_eq. }
  rewrite Hd1 in Hw |- *. cbn [fst] in *.
  destruct (writeValidators_spec ents d1 d2) as (_ & _ & _ & Hin & _); [apply W1| |exact Hw|].
  { intros e i He Hi. destruct (mirror_ids d l ents e i (dw_rows _ Hwf) Hm He Hi) as (w & Hrow & _).
    rewrite N1, N0. by eapply row_of_lt; [apply Hwf|]. }
  split.
  { clear -Hw. unfold writeValidators in Hw. destruct ents; [by injection Hw as <-|].
    destruct (bool_decide _); [|done]. by apply bind_Ok in Hw as (rows & _ & [= <-]). }
  assert (row_of (recognized d) (operator v) = Some (id, v)) as Hrec by by apply row_of_recognized.
  apply mirror_spec in Hm as (ups & Hups & ->).
  assert (∃ e, e ∈ ups ++ ((λ r : Z * Validator, (Some r.1, unrecognized r.2)) <$>
                filter (λ r : Z * Validator, operator r.2 ∉ oc_operator_address <$> l) (recognized d)) ∧
    e.1 = Some id ∧ operator e.2 = operator v ∧ v_delegators_count e.2 = v_delegators_count v)
    as (e & He & Hid & Hop & Hcount).
  { destruct (decide (operator v ∈ oc_operator_address <$> l)) as [Hl|Hl].
    - apply list_elem_of_fmap in Hl as (o & Heq & Ho). apply list_elem_of_lookup in Ho as [i Ho].
      destruct (Forall2_lookup_l _ _ _ _ _ Hups Ho) as (e & He & [Hon _] & Hrow).
      rewrite <-Heq, Hrec in Hrow. destruct Hrow as (? & Hk & _). exists e.
      split; [apply elem_of_app; left; by eapply list_elem_of_lookup_2|]. split; [done|].
      split; [congruence|by apply Hk].
    - exists (Some id, unrecognized v). split; [|done]. apply elem_of_app. right. apply list_elem_of_fmap.
      exists (id, v). split; [done|]. apply list_elem_of_filter. split; [done|].
      by apply row_of_operator in Hrec as [? _]. }
  destruct (Hin e He) as (i & Hrow & Hi). rewrite Hop, (Hi id Hid) in Hrow. eauto.
Qed.

(** ** Witnesses *)
Definition demo_tm (id tx : Z) (ty v src dst : string) (x : Z) : TransactionMessage := {|
  tm_id := id; tm_tx_id := tx; tm_type := ty;
  tm_content := {| ct_delegator_address := "aura_z"; ct_validator_address := v;
                   ct_validator_src_address := src; ct_validator_dst_address := dst; ct_amount := x |} |}.

(** Message 12 is of a failed transaction; 20 is contained in a [MsgExec] of
    the first transaction and was stored after 14, whose block is ahead of the
    validator job. *)
Definition demo_late : TransactionMessage := demo_tm 14 3 MSG_DELEGATE "auravaloper_a" "" "" 100.
Definition demo_delegators : Db := {|
  event := []; transaction := [ {| tx_id := 1; tx_height := 4860002; tx_code := 0 |};
                                {| tx_id := 2; tx_height := 4860003; tx_code := 5 |};
                                {| tx_id := 3; tx_height := 4860010; tx_code := 0 |} ];
  transaction_message := [ demo_tm 11 1 MSG_REDELEGATE "" "auravaloper_a" "auravaloper_b" 10;
                           demo_tm 12 2 MSG_DELEGATE "auravaloper_a" "" "" 7;
                           demo_late; demo_tm 20 1 MSG_UNDELEGATE "auravaloper_b" "" "" 4 ];
  validator := [ (1, set_counts 1 0 (demo_validator "auravaloper_a" "aura_a" "ca" "BOND_STATUS_BONDED"));
                 (2, set_counts 0 0 (demo_validator "auravaloper_b" "aura_b" "cb" "BOND_STATUS_BONDED")) ];
  next_validator_id := 3; power_event := [];
  delegator := [ {| dg_id := 1; dg_validator_id := 1; dg_delegator_address := "aura_z"; dg_amount := 10 |} ];
  next_delegator_id := 2; delegator_jobs := [];
  block_checkpoint := <["crawl:validator" := 4860010]> ∅ |}.

Example demo_delegators_run :
  delegator (handleJob demo_delegators).1 =
  [ {| dg_id := 2; dg_validator_id := 2; dg_delegator_address := "aura_z"; dg_amount := 6 |};
    {| dg_id := 3; dg_validator_id := 1; dg_delegator_address := "aura_z"; dg_amount := 7 |} ] ∧
  block_checkpoint (handleJob demo_delegators).1 !! CHECKPOINT_UPDATE_DELEGATOR = Some 20.
Proof. vm_compute. done. Qed.

Lemma demo_delegators_wf : delegators_wf demo_delegators ∧ counts_ok demo_delegators.
Proof.
  split; [split|].
  - split; [by apply (bool_decide_unpack _)..|]. intros id Hid. simpl in Hid.
    rewrite !elem_of_cons, elem_of_nil in Hid. simpl. lia.
  - by apply (bool_decide_unpack _).
  - by apply (bool_decide_unpack _).
  - intros g ->%list_elem_of_singleton. done.
  - intros g ->%list_elem_of_singleton. left.
  - intros id v Hv. simpl in Hv. rewrite !elem_of_cons, elem_of_nil in Hv.
    destruct Hv as [[= -> ->]|[[= -> ->]|[]]]; by vm_compute.
Qed.

Lemma delegators_job_correct_witness :
  page_run (operators_of demo_delegators) (txMsg 10 3 demo_delegators) 10 (ledger demo_delegators)
    = (20, <[(2, "aura_z") := 6]> (<[(1, "aura_z") := 7]> ∅)) ∧
  ∃ d', handleJob demo_delegators = (d', Ok tt) ∧ counts_ok d' ∧
    ledger d' = (page_run (operators_of demo_delegators) (txMsg 10 3 demo_delegators) 10 (ledger demo_delegators)).2.
Proof.
  split; [apply (bool_decide_unpack _); by vm_compute|].
  pose proof (delegators_job_correct demo_delegators 4860010 {| tx_id := 3; tx_height := 4860010; tx_code := 0 |} 10
    (proj1 demo_delegators_wf) (proj2 demo_delegators_wf) ltac:(by vm_compute) ltac:(by vm_compute)
    ltac:(by vm_compute)) as H. cbn [tx_id] in H.
  destruct (page_run (operators_of demo_delegators) (txMsg 10 3 demo_delegators) 10 (ledger demo_delegators)) as [h L].
  destruct H as (d' & Hrun & HL & _ & Hc & _). exists d'. split; [exact Hrun|]. split; [exact Hc|exact HL].
Defined.

(** A delegation of 10^30 in a failed transaction is refused and skipped. *)
Definition demo_refused : Db := {|
  event := []; transaction := transaction demo_delegators;
  transaction_message := [ demo_tm 12 2 MSG_DELEGATE "auravaloper_a" "" "" (10 ^ 30) ];
  validator := validator demo_delegators; next_validator_id := 3; power_event := [];
  delegator := delegator demo_delegators; next_delegator_id := 2; delegator_jobs := [];
  block_checkpoint := <[CHECKPOINT_UPDATE_DELEGATOR := 11]> (block_checkpoint demo_delegators) |}.

Lemma refused_page_stops_job_witness : handleJob demo_refused = (demo_refused, Ok tt).
Proof.
  apply (refused_page_stops_job demo_refused 4860010 {| tx_id := 3; tx_height := 4860010; tx_code := 0 |} 11);
    [|by vm_compute|by vm_compute|by vm_compute|by repeat constructor].
  destruct demo_delegators_wf as [[H1 H2 H3 H4 H5] _]. split; [exact H1|exact H2|exact H3|exact H4|exact H5].
Defined.

Lemma late_message_skipped_witness :
  ∃ h', block_checkpoint (handleJob (handleJob demo_delegators).1).1 !! CHECKPOINT_UPDATE_DELEGATOR = Some h' ∧
    ∀ bound, demo_late ∉ txMsg h' bound (handleJob (handleJob demo_delegators).1).1.
Proof.
  eapply (late_message_skipped demo_delegators _ demo_late 20); [by vm_compute|done|].
  apply rtc_once, step_run.
Defined.

Definition demo_resync : Db := store_checkpoint 10 demo_delegators.
Definition demo_delegations : DelegationsNode := {| delegations_page _ _ _ := Ok (Some ([("aura_z", 6)], None)) |}.

Lemma resync_keeps_checkpoint_witness :
  ∃ d1 msg, updateAllValidator 4860010 demo_resync = (d1, Throw msg) ∧ delegator d1 = [] ∧
    ∀ bound, txMsg 10 bound d1 = txMsg 10 bound demo_resync.
Proof.
  destruct (resync_keeps_checkpoint (N := demo_delegations) 4860010 demo_resync 10
    {| tx_id := 3; tx_height := 4860010; tx_code := 0 |}) as (d1 & msg & H1 & H2 & _ & _ & H3);
    [by vm_compute|by vm_compute|]. exists d1, msg. split; [exact H1|]. split; [exact H2|exact H3].
Defined.

(** After the resync the jobs store what the node reports, and the old
    messages are applied again. *)
Example demo_resync_doubles :
  let d1 := (updateAllValidator 4860010 demo_resync).1 in
  let d2 := (each (handleJobCrawlValidatorDelegators (N := demo_delegations) 2) (delegator_jobs d1) d1).1 in
  ledger d2 !! (1, "aura_z") = Some 6 ∧ ledger (handleJob d2).1 !! (1, "aura_z") = Some 7.
Proof. vm_compute. done. Qed.

Definition demo_mirror_ents : list entity :=
  match mirror (N := demo_staking_node (demo_oc "auravaloper_b" "5")) (K := demo_staking_codec)
          (A := demo_codec) (E := demo_encoding) (recognized demo_delegators)
          [demo_oc "auravaloper_a" "5"; demo_oc "auravaloper_b" "5"] with
  | Ok l => l | Throw _ => [] end.
Definition demo_overwritten : Db :=
  match writeValidators (Some demo_mirror_ents) (handleJob demo_delegators).1 with
  | Ok d => d | Throw _ => demo_delegators end.

(** The job counted a delegator of the second validator, the mirror writes 0. *)
Lemma counts_overwritten_witness :
  count_of (delegator demo_overwritten) 2 = 1 ∧
  ∃ v', row_of (validator demo_overwritten) "auravaloper_b" = Some (2, v') ∧ v_delegators_count v' = 0.
Proof.
  split; [by vm_compute|].
  destruct (counts_overwritten (N := demo_staking_node (demo_oc "auravaloper_b" "5")) (K := demo_staking_codec)
    (A := demo_codec) (E := demo_encoding) demo_delegators
    [demo_oc "auravaloper_a" "5"; demo_oc "auravaloper_b" "5"] demo_mirror_ents demo_overwritten 2
    (set_counts 0 0 (demo_validator "auravaloper_b" "aura_b" "cb" "BOND_STATUS_BONDED"))
    4860010 {| tx_id := 3; tx_height := 4860010; tx_code := 0 |} 10) as (_ & v' & Hrow & Hcount);
    [apply demo_delegators_wf|by vm_compute|by vm_compute|by vm_compute|by vm_compute|by vm_compute|by vm_compute|done|].
  exists v'. split; [exact Hrow|exact Hcount].
Defined.
