(* ===== verification/Images.v ===== *)
(** * Pictures of validators

    [services/crawl-validator/crawl_validator_image.service.ts]: the job asks
    keybase for the picture of each validator in turn; when a request fails the
    rest is put into a job for later.  Keybase is a parameter. *)
From S2P Require Import Prelude JsNum Json.

Record Validator := { v_id : Z; v_jailed : bool; v_identity : option string; v_image_url : option string }.
(** A validator as a job has it: its id and [description?.identity]. *)
Definition IUpdateImageValidator : Type := Z * option string.
(** [jobs]: the payloads of the retry jobs. *)
Record Db := { validator : list Validator; jobs : list (list IUpdateImageValidator) }.

Definition defaultValidatorImage := "validator-default.svg".
Definition set_image (id : Z) (url : string) (v : Validator) : Validator :=
  if v_id v =? id then {| v_id := v_id v; v_jailed := v_jailed v; v_identity := v_identity v; v_image_url := Some url |} else v.
(** image_url is a varchar(255). *)
Definition patch_image (id : Z) (url : string) (d : Db) : res Db :=
  if (255 <? Z.of_nat (String.length url)) && existsb (λ v, v_id v =? id) (validator d) then Throw "value too long for type character varying(255)"
  else Ok {| validator := set_image id url <$> validator d; jobs := jobs d |}.
Definition createJobRetry (validators : list IUpdateImageValidator) (d : Db) : Db := {|
  validator := validator d; jobs := jobs d ++ [validators] |}.

Section Job.
Context (keybase : string → res Json).                (* response.data by the suffix of the key *)

(** [them[0]] *)
Definition first_of (them : option Json) : res (option Json) :=
  match them with
  | None | Some JNull => Throw "TypeError: Cannot read properties of undefined (reading '0')"
  | Some (JArr l) => Ok (head l)
  | Some (JStr (String c _)) => Ok (Some (JStr (String c "")))
  | Some v => Ok (opt_get (Some v) "0")
  end.
Definition getImgFromKeybase (suffix : option string) : res string :=
  match suffix with
  | None | Some "" => Ok defaultValidatorImage
  | Some suffix =>
      data ← keybase suffix;
      them ← json_get (Some data) "them";
      first ← first_of them;
      match opt_get (opt_get (opt_get first "pictures") "primary") "url" with
      | Some u => Ok (if json_truthy u then json_string u else defaultValidatorImage)
      | None => Ok defaultValidatorImage
      end
  end.
Definition update_image (v : IUpdateImageValidator) : io Db () :=
  imageUrl ← lift (getImgFromKeybase v.2);
  commit (patch_image v.1 imageUrl).
(** The loop; the validators from the failing one on are left to a retry. *)
Fixpoint update_images (validators : list IUpdateImageValidator) : io Db () := λ d,
  match validators with
  | [] => (d, Ok tt)
  | v :: rest =>
      match update_image v d with
      | (d, Ok _) => update_images rest d
      | (d, Throw e) => (createJobRetry validators d, Throw e)
      end
  end.
Definition active (d : Db) : list IUpdateImageValidator :=
  (λ v, (v_id v, v_identity v)) <$> sortBy v_id (filter (λ v, v_jailed v = false) (validator d)).
Definition handleCrawlImg (payload : list IUpdateImageValidator) : io Db () :=
  validators ← match payload with [] => query active | _ => mret payload end;
  update_images validators.
End Job.

(** ** Facts *)
Lemma filter_jailed_fmap (l : list Validator) (f : Validator → Validator) : (∀ v, v_jailed (f v) = v_jailed v) →
  filter (λ v, v_jailed v = false) (f <$> l) = f <$> filter (λ v, v_jailed v = false) l.
Proof.
  intros Hf. induction l as [|v l IH]; [done|]. rewrite fmap_cons, !filter_cons, IH, Hf. by case_decide.
Qed.

Section Facts.
Context (keybase : string → res Json).

(** A validator whose picture can be stored. *)
Definition picture (v : IUpdateImageValidator) (url : string) : Prop :=
  getImgFromKeybase keybase v.2 = Ok url ∧ (String.length url <= 255)%nat.
Definition with_pictures (l : list (IUpdateImageValidator * string)) (v : Validator) : Validator :=
  foldl (λ v x, set_image x.1.1 x.2 v) v l.

Lemma with_pictures_cons x l v : with_pictures (x :: l) v = with_pictures l (set_image x.1.1 x.2 v).
Proof. done. Qed.
Lemma set_image_same i u v : v_id (set_image i u v) = v_id v ∧ v_jailed (set_image i u v) = v_jailed v ∧ v_identity (set_image i u v) = v_identity v.
Proof. unfold set_image. by destruct (_ =? _). Qed.
Lemma with_pictures_same l v :
  v_id (with_pictures l v) = v_id v ∧ v_jailed (with_pictures l v) = v_jailed v ∧ v_identity (with_pictures l v) = v_identity v.
Proof.
  revert v. induction l as [|x l IH]; intros v; [done|]. rewrite with_pictures_cons. destruct (IH (set_image x.1.1 x.2 v)) as (-> & -> & ->).
  apply set_image_same.
Qed.
Lemma set_image_other i u v : v_id v ≠ i → set_image i u v = v.
Proof. intros Hi. unfold set_image. by rewrite (proj2 (Z.eqb_neq _ _)). Qed.
Lemma with_pictures_other l v : v_id v ∉ fst <$> l.*1 → with_pictures l v = v.
Proof.
  revert v. induction l as [|x l IH]; intros v Hv; [done|]. rewrite with_pictures_cons. rewrite !fmap_cons in Hv.
  apply not_elem_of_cons in Hv as [Hx Hv]. rewrite set_image_other by done. by apply IH.
Qed.
Lemma with_pictures_own l v url : NoDup (fst <$> l.*1) → Forall (λ x, picture x.1 x.2) l →
  getImgFromKeybase keybase (v_identity v) = Ok url → (v_id v, v_identity v) ∈ l.*1 → v_image_url (with_pictures l v) = Some url.
Proof.
  intros Hnd Hp Hurl. revert v Hurl. induction l as [|[[i o] u] l IH]; intros v Hurl Hin; [by apply not_elem_of_nil in Hin|].
  apply Forall_cons in Hp as [[Hpv _] Hp]. rewrite !fmap_cons in Hnd, Hin. cbn [fst] in *. apply NoDup_cons in Hnd as [Hni Hnd].
  rewrite with_pictures_cons. cbn [fst snd]. apply elem_of_cons in Hin as [[= <- <-]|Hin].
  - rewrite with_pictures_other by (by rewrite (proj1 (set_image_same _ _ _))). unfold set_image. rewrite Z.eqb_refl.
    cbn in Hpv |- *. rewrite Hpv in Hurl. by injection Hurl as ->.
  - rewrite set_image_other; [by apply IH|]. intros <-. apply Hni. by apply (list_elem_of_fmap_2 fst) in Hin.
Qed.

Lemma update_images_run l rest d : Forall (λ x, picture x.1 x.2) l →
  update_images keybase (l.*1 ++ rest) d =
    match update_images keybase rest {| validator := with_pictures l <$> validator d; jobs := jobs d |} with
    | r => r end.
Proof.
  intros Hl. revert d. induction Hl as [|[v url] l [Hv Hlen] _ IH]; intros d.
  - cbn [fmap list_fmap app with_pictures foldl]. rewrite list_fmap_id. by destruct d.
  - cbn [fmap list_fmap fst app update_images]. unfold update_image. cbn in Hv, Hlen. rewrite Hv.
    unfold mbind, io_bind, lift, commit, patch_image. rewrite (proj2 (Z.ltb_ge _ _)) by lia. cbn [andb].
    rewrite IH. cbn [validator jobs]. by rewrite <-list_fmap_compose.
Qed.

(** When every picture is found, each validator has its own afterwards. *)
Theorem images_updated d pictures :
  NoDup (v_id <$> validator d) → pictures.*1 = active d → Forall (λ x, picture x.1 x.2) pictures →
  handleCrawlImg keybase [] d = ({| validator := with_pictures pictures <$> validator d; jobs := jobs d |}, Ok tt) ∧
  (∀ v url, v ∈ validator d → v_jailed v = false → getImgFromKeybase keybase (v_identity v) = Ok url →
     v_image_url (with_pictures pictures v) = Some url) ∧
  (∀ v, v ∈ validator d → v_jailed v = true → with_pictures pictures v = v).
Proof.
  intros Hnd Hact Hp.
  assert (∀ v, v ∈ validator d → (v_id v ∈ fst <$> active d) → v_jailed v = false) as Hjail.
  { intros v Hv Hin. unfold active in Hin. rewrite <-list_fmap_compose in Hin. apply list_elem_of_fmap in Hin as (u & Hu & Hin). cbn in Hu.
    rewrite sortBy_perm in Hin. apply list_elem_of_filter in Hin as [Hj Hin].
    by rewrite (NoDup_fmap_key v_id _ v u Hnd Hv Hin Hu). }
  split; [|split].
  - unfold handleCrawlImg. rewrite bind_query, <-Hact, <-(app_nil_r pictures.*1). by rewrite update_images_run.
  - intros v url Hv Hj Hurl.
    assert ((v_id v, v_identity v) ∈ pictures.*1) as Hin.
    { rewrite Hact. unfold active. apply list_elem_of_fmap. exists v. split; [done|]. rewrite sortBy_perm. by apply list_elem_of_filter. }
    assert (NoDup (fst <$> pictures.*1)) as Hndp.
    { rewrite Hact. unfold active. rewrite <-list_fmap_compose. cbn. change (NoDup (v_id <$> sortBy v_id (filter (λ v, v_jailed v = false) (validator d)))).
      rewrite sortBy_perm. eapply sublist_NoDup; [exact Hnd|]. apply fmap_sublist, sublist_filter. }
    by apply with_pictures_own.
  - intros v Hv Hj. apply with_pictures_other. intros Hin. rewrite Hact in Hin. by rewrite (Hjail v Hv Hin) in Hj.
Qed.

(** A validator whose picture fails blocks the ones after it: the job throws, and
    the retry begins with the same validator, so that as long as it fails a retry
    changes no picture and only asks for the next retry. *)
Theorem failing_picture_blocks l v rest d e :
  Forall (λ x, picture x.1 x.2) l → getImgFromKeybase keybase v.2 = Throw e →
  update_images keybase (l.*1 ++ v :: rest) d =
    ({| validator := with_pictures l <$> validator d; jobs := jobs d ++ [v :: rest] |}, Throw e) ∧
  (∀ d0, handleCrawlImg keybase (v :: rest) d0 = (createJobRetry (v :: rest) d0, Throw e)).
Proof.
  intros Hl Hv. split.
  - rewrite update_images_run by done. cbn [update_images]. unfold update_image. by rewrite Hv.
  - intros d0. unfold handleCrawlImg. rewrite (io_step (mret (v :: rest)) _ d0 d0 (v :: rest)) by done.
    cbn [update_images]. unfold update_image. by rewrite Hv.
Qed.

(** Every scheduled run that meets the failing validator adds a retry of its own. *)
Theorem retries_pile_up n l v rest d e :
  active d = l.*1 ++ v :: rest → Forall (λ x, picture x.1 x.2) l → getImgFromKeybase keybase v.2 = Throw e →
  jobs (Nat.iter n (λ d, (handleCrawlImg keybase [] d).1) d) = jobs d ++ replicate n (v :: rest).
Proof.
  intros Ha Hl Hv.
  assert (∀ d, active d = l.*1 ++ v :: rest →
    (handleCrawlImg keybase [] d).1 = {| validator := with_pictures l <$> validator d; jobs := jobs d ++ [v :: rest] |}) as Hrun.
  { intros d0 H0. unfold handleCrawlImg. rewrite bind_query, H0.
    exact (f_equal fst (proj1 (failing_picture_blocks l v rest d0 e Hl Hv))). }
  assert (active (Nat.iter n (λ d, (handleCrawlImg keybase [] d).1) d) = l.*1 ++ v :: rest ∧
    jobs (Nat.iter n (λ d, (handleCrawlImg keybase [] d).1) d) = jobs d ++ replicate n (v :: rest)) as [_ H]; [|exact H].
  induction n as [|n [IHa IHj]]; [by rewrite app_nil_r|]. rewrite Nat.iter_succ. set (d1 := Nat.iter n _ d) in *.
  rewrite Hrun by done. cbn [jobs]. split.
  - rewrite <-IHa. unfold active. cbn [validator]. rewrite filter_jailed_fmap, (sortBy_fmap v_id v_id) by apply with_pictures_same.
    rewrite <-list_fmap_compose. apply list_fmap_ext. intros i u _. cbn. destruct (with_pictures_same l u) as (-> & _ & ->). done.
  - rewrite IHj, <-app_assoc. f_equal. symmetry. exact (replicate_cons_app _ _).
Qed.
End Facts.

(** ** An example: the second of three keys is one keybase refuses. *)
Definition demo_keybase (suffix : string) : res Json :=
  if bool_decide (suffix = "BAD") then Ok (JObj [("status", JObj [("code", JNum 100)])])
  else Ok (JObj [("them", JArr [JObj [("pictures", JObj [("primary", JObj [("url", JStr ("https://s3/" +:+ suffix))])])]])]).
Definition demo_validator (i : Z) (identity : string) : Validator :=
  {| v_id := i; v_jailed := false; v_identity := Some identity; v_image_url := None |}.
Definition demo_db : Db := {| validator := [demo_validator 1 "A1"; demo_validator 2 "BAD"; demo_validator 3 "C3"; demo_validator 4 ""]; jobs := [] |}.

Example demo_blocked :
  let d := Nat.iter 3 (λ d, (handleCrawlImg demo_keybase [] d).1) demo_db in
  (v_image_url <$> validator d, jobs d) =
  ([Some "https://s3/A1"; None; None; None], replicate 3 [(2, Some "BAD"); (3, Some "C3"); (4, Some "")]).
Proof. vm_compute. reflexivity. Qed.

Lemma failing_picture_blocks_witness :
  handleCrawlImg demo_keybase [(2, Some "BAD"); (3, Some "C3")] demo_db =
    (createJobRetry [(2, Some "BAD"); (3, Some "C3")] demo_db, Throw "TypeError: Cannot read properties of undefined (reading '0')").
Proof. refine (proj2 (failing_picture_blocks demo_keybase [] (2, Some "BAD") [(3, Some "C3")] demo_db _ (Forall_nil_2 _) _) demo_db). reflexivity. Defined.
