(* ===== verification/CrawlBlock.v ===== *)
(** * The block crawler

    [services/crawl-block/crawl_block.service.ts]: a run reads the blocks
    above the checkpoint of [crawl:block] from the node, inserts the ones the
    table [block] does not hold with their signatures and events in one
    transaction, and then moves the checkpoint, in a second statement: a
    process killed between the two reads the same blocks again. *)
From S2P Require Import Prelude JsNum Checkpoint Pipeline Registry.

(** ** Responses of the node *)
Record Signature := {
  block_id_flag : Z;
  validator_address : string;
  sig_timestamp : string
}.

(** The result of the query [block]. *)
Record BlockPart := {
  bp_height : option string;         (* block.header.height *)
  bp_hash : string;                  (* block_id.hash *)
  bp_time : string;                  (* block.header.time *)
  bp_proposer_address : string;      (* block.header.proposer_address *)
  bp_txs : option (list string);     (* block.data.txs *)
  bp_signatures : option (list Signature)   (* block.last_commit.signatures *)
}.

(** The result of the query [block_results]. *)
Record ResultPart := {
  begin_block_events : option (list RawEvent);
  end_block_events : option (list RawEvent)
}.

Record BlockResponse := { block : BlockPart; block_result : ResultPart }.

Record BlockNode := {
  cosmos_sdk_version : option string;
  latest_height : option string;
  rpc_block : Z → res BlockPart;
  rpc_block_results : Z → res ResultPart
}.

(** ** Tables *)
Record Block := {
  bl_height : Z;
  bl_hash : string;
  bl_time : string;
  bl_proposer_address : string;
  bl_data : option BlockResponse;
  bl_tx_count : Z
}.

(** The tables the crawler writes and the fields of the service. *)
Record Svc := {
  t_block : gmap Z Block;
  t_block_signature : list (Z * Signature);
  t_event : list EventRow;
  t_block_checkpoint : gmap string Z;
  _registry : ChainRegistry;
  _currentBlock : Z
}.
#[export] Instance Svc_checkpoints : HasCheckpoints Svc := t_block_checkpoint.

Definition set_registry (r : ChainRegistry) (s : Svc) : Svc :=
  {| t_block := t_block s; t_block_signature := t_block_signature s; t_event := t_event s;
     t_block_checkpoint := t_block_checkpoint s; _registry := r;
     _currentBlock := _currentBlock s |}.
Definition set_currentBlock (h : Z) (s : Svc) : Svc :=
  {| t_block := t_block s; t_block_signature := t_block_signature s; t_event := t_event s;
     t_block_checkpoint := t_block_checkpoint s; _registry := _registry s;
     _currentBlock := h |}.
Definition set_checkpoint (h : Z) (s : Svc) : Svc :=
  {| t_block := t_block s; t_block_signature := t_block_signature s; t_event := t_event s;
     t_block_checkpoint := <[CRAWL_BLOCK := h]> (t_block_checkpoint s);
     _registry := _registry s; _currentBlock := _currentBlock s |}.

(** A block with the rows of its relations. *)
Record Graph := {
  g_block : Block;
  g_signatures : list Signature;
  g_events : list EventRow
}.

(** [insertGraph]: the key of [block] is its height. *)
Definition insertGraph (s : Svc) (g : Graph) : res Svc :=
  match t_block s !! bl_height (g_block g) with
  | Some _ => Throw "duplicate key value violates unique constraint block_pkey"
  | None => Ok
      {| t_block := <[bl_height (g_block g) := g_block g]> (t_block s);
         t_block_signature :=
           t_block_signature s ++ (pair (bl_height (g_block g)) <$> g_signatures g);
         t_event := t_event s ++ g_events g;
         t_block_checkpoint := t_block_checkpoint s;
         _registry := _registry s; _currentBlock := _currentBlock s |}
  end.

(** ** Building the rows of a block *)
Definition BLOCK_BLOOM := "block_bloom".
Definition BLOOM := "bloom".

(** [attrBloom[0].value = ''] for the first attribute with the key. *)
Fixpoint blank_first_bloom (l : list RawAttribute) : list RawAttribute :=
  match l with
  | [] => []
  | a :: l => if bool_decide (ra_key a = Some BLOOM)
              then {| ra_key := ra_key a; ra_value := Some "" |} :: l
              else a :: blank_first_bloom l
  end.

Definition blank_bloom (e : RawEvent) : RawEvent :=
  if bool_decide (re_type e = BLOCK_BLOOM)
  then {| re_type := re_type e; re_attributes := blank_first_bloom (re_attributes e) |}
  else e.

(** The loop over the end block events changes the response in place, so the
    [data] of the block is the response after it. *)
Definition blank_blooms (b : BlockResponse) : BlockResponse :=
  {| block := block b;
     block_result := {| begin_block_events := begin_block_events (block_result b);
                        end_block_events := option_map (map blank_bloom) (end_block_events (block_result b)) |} |}.

Definition event_row (r : ChainRegistry) `{Encoding} (height : Z) (e : RawEvent * string)
  : res EventRow :=
  attrs ← attribute_rows r (re_type e.1) height (re_attributes e.1);
  Ok {| ev_tx_id := None; ev_tx_msg_index := None; ev_type := re_type e.1;
        ev_attributes := attrs; ev_block_height := height; ev_source := e.2 |}.

Section Crawler.
Context (cfg : Config.t) (saveRawLog : bool) (blocksPerCall : Z) {E : Encoding}.

Definition build (r : ChainRegistry) (hd : string) (b : BlockResponse) : res Graph :=
  let b' := blank_blooms b in
  let events :=
    ((λ e, (e, BEGIN_BLOCK_EVENT)) <$> default [] (begin_block_events (block_result b')))
    ++ ((λ e, (e, END_BLOCK_EVENT)) <$> default [] (end_block_events (block_result b'))) in
  height ← coerce_number hd;
  rows ← mapR (event_row r height) events;
  Ok {| g_block :=
          {| bl_height := height; bl_hash := bp_hash (block b'); bl_time := bp_time (block b');
             bl_proposer_address := bp_proposer_address (block b');
             bl_data := if saveRawLog then Some b' else None;
             bl_tx_count := Z.of_nat (length (default [] (bp_txs (block b')))) |};
        g_signatures := default [] (bp_signatures (block b'));
        g_events := rows |}.

(** [parseInt(height, 10)]; a [NaN] makes the query on [block] fail. *)
Definition parse_height (s : string) : res Z :=
  match parseInt s with
  | Some h => Ok h
  | None => Throw "invalid input syntax for type integer: NaN"
  end.

#[global] Arguments parse_height : simpl never.

Lemma parse_height_toString h : 0 <= h → parse_height (toString h) = Ok h.
Proof. intros Hh. unfold parse_height. by rewrite parseInt_toString. Qed.

(** The blocks of the list with a height, with it. *)
Definition with_height (b : BlockResponse) : list (string * BlockResponse) :=
  match bp_height (block b) with
  | Some h => if decide (h = "") then [] else [(h, b)]
  | None => []
  end.

(** [mapExistedBlock[parseInt(height, 10)]] *)
Definition is_existed (existed : list Z) (hb : string * BlockResponse) : bool :=
  match parseInt hb.1 with Some h => bool_decide (h ∈ existed) | None => false end.

Definition handleListBlock (listBlock : list BlockResponse) : io Svc () :=
  let listed := listBlock ≫= with_height in
  listBlockHeight ← lift (mapR (λ hb, parse_height hb.1) listed);
  existed ← query (λ s, filter (λ h, is_Some (t_block s !! h)) listBlockHeight);
  r ← query _registry;
  listBlockModel ←
    lift (mapR (λ hb, build r hb.1 hb.2)
      (filter (λ hb, is_existed existed hb = false) listed));
  if bool_decide (length listBlockModel = 0%nat) then mret ()
  else commit (λ s, forEachM insertGraph s listBlockModel).
(** ** The job *)

Definition setCosmosSdkVersion (node : BlockNode) : io Svc () :=
  match cosmos_sdk_version node with
  | Some v => if decide (v = "") then mret ()
              else r ← lift (setCosmosSdkVersionByString v);
                   update (set_registry r)
  | None => mret ()
  end.

Definition initCurrentBlock : io Svc () :=
  crawled ← query (λ s, t_block_checkpoint s !! CRAWL_BLOCK);
  match crawled with
  | Some h => update (set_currentBlock h)
  | None => update (set_checkpoint (Config.startBlock cfg));;
            update (set_currentBlock (Config.startBlock cfg))
  end.

Definition initEnv (node : BlockNode) : io Svc () :=
  setCosmosSdkVersion node;; initCurrentBlock.

Definition fetchBlock (node : BlockNode) (i : Z) : res BlockResponse :=
  b ← rpc_block node i; r ← rpc_block_results node i;
  Ok {| block := b; block_result := r |}.

(** The end of the range of a run; the comparison with [NaN] is false. *)
Definition endBlock (node : BlockNode) (current : Z) : Z :=
  let startBlock := current + 1 in
  let last := startBlock + blocksPerCall - 1 in
  let latest := match latest_height node with
                | Some h => if decide (h = "") then "0" else h
                | None => "0" end in
  match parseInt latest with
  | Some l => if l <? last then l else last
  | None => last
  end.

(** The blocks from [startBlock] to [endBlock], and their insertion. *)
Definition crawlRange (node : BlockNode) : io Svc () :=
  current ← query _currentBlock;
  let startBlock := current + 1 in
  blocks ← lift (mapR (fetchBlock node)
                   (seqZ startBlock (endBlock node current - startBlock + 1)));
  handleListBlock blocks.

(** [BlockCheckpoint.query().update(...).where(...)] *)
Definition updateCrawled (node : BlockNode) : io Svc () :=
  current ← query _currentBlock;
  let e := endBlock node current in
  if current <? e then
    update (λ s, match t_block_checkpoint s !! CRAWL_BLOCK with
                 | Some _ => set_checkpoint e s
                 | None => s
                 end);;
    update (set_currentBlock e)
  else mret ().

Definition handleJobCrawlBlock (node : BlockNode) : io Svc () :=
  rethrow "cannot crawl block" (crawlRange node;; updateCrawled node).

Definition jobHandler (node : BlockNode) : io Svc () :=
  initEnv node;; handleJobCrawlBlock node.

(** What a process killed after the insertion has done. *)
Definition jobHandler_killed (node : BlockNode) : io Svc () :=
  initEnv node;; crawlRange node.
End Crawler.

(** ** What the tables hold

    [content i] is block [i] of the chain; an honest node answers with it. *)
Section Correctness.
Context (cfg : Config.t) (saveRawLog : bool) (blocksPerCall : Z) {E : Encoding}.
Context (content : Z → BlockResponse).

Definition honest (node : BlockNode) : Prop :=
  ∀ i b, fetchBlock node i = Ok b → b = content i.

(** Every block of the chain carries its height. *)
Definition heights_ok : Prop :=
  ∀ i, 0 <= i → bp_height (block (content i)) = Some (toString i).

Definition events_of (s : Svc) (b : Z) : list EventRow :=
  filter (λ e, ev_block_height e = b) (t_event s).
Definition signatures_of (s : Svc) (b : Z) : list (Z * Signature) :=
  filter (λ x, x.1 = b) (t_block_signature s).

(** Block [b] is stored: its row, its events and its signatures are the ones
    built from it, once. *)
Definition stored (s : Svc) (b : Z) : Prop :=
  ∃ r g, build saveRawLog r (toString b) (content b) = Ok g ∧
    t_block s !! b = Some (g_block g) ∧
    events_of s b = g_events g ∧
    signatures_of s b = pair b <$> g_signatures g.

Definition absent (s : Svc) (b : Z) : Prop :=
  t_block s !! b = None ∧ events_of s b = [] ∧ signatures_of s b = [].

(** Every height is stored or absent. *)
Definition clean (s : Svc) : Prop := ∀ b, stored s b ∨ absent s b.

(** No gap below the checkpoint. *)
Definition covered (s : Svc) : Prop :=
  ∀ c b, t_block_checkpoint s !! CRAWL_BLOCK = Some c →
    Config.startBlock cfg < b <= c → is_Some (t_block s !! b).

Lemma build_Ok r hd x g :
  build saveRawLog r hd x = Ok g →
  coerce_number hd = Ok (bl_height (g_block g)) ∧
  Forall (λ e, ev_block_height e = bl_height (g_block g)) (g_events g).
Proof.
  unfold build. intros H. apply bind_Ok in H as (h & Hh & H).
  apply bind_Ok in H as (rows & Hrows & [= <-]). simpl. split; [done|].
  apply mapR_Ok in Hrows. induction Hrows as [|e row l rows He _ IH]; constructor; [|done].
  unfold event_row in He. by apply bind_Ok in He as (? & _ & [= <-]).
Qed.

Lemma event_row_total r h e : initialised r → ∃ row, event_row r h e = Ok row.
Proof.
  intros Hr. unfold event_row.
  destruct (attribute_rows_total r (re_type e.1) h (re_attributes e.1) Hr) as [rows ->].
  simpl. eauto.
Qed.

Lemma build_total r h x : initialised r → ∃ g, build saveRawLog r (toString h) x = Ok g.
Proof.
  intros Hr. unfold build. rewrite coerce_toString. simpl.
  match goal with |- context [mapR ?f ?l] =>
    destruct (mapR_total f l) as [rows ->]; [|simpl; eauto] end.
  intros e _. by apply event_row_total.
Qed.

Lemma filter_pair {A} (b b' : Z) (l : list A) :
  filter (λ x : Z * A, x.1 = b') (pair b <$> l) = if decide (b = b') then pair b <$> l else [].
Proof.
  induction l as [|x l IH]; [by case_decide|].
  rewrite fmap_cons, filter_cons, IH. simpl. by case_decide.
Qed.

Lemma filter_events b b' l :
  Forall (λ e, ev_block_height e = b) l →
  filter (λ e, ev_block_height e = b') l = if decide (b = b') then l else [].
Proof.
  induction 1 as [|e l He _ IH]; [by case_decide|].
  rewrite filter_cons, IH. rewrite He. by case_decide.
Qed.

Lemma insertGraph_Ok s g s' :
  insertGraph s g = Ok s' →
  t_block s !! bl_height (g_block g) = None ∧
  t_block s' = <[bl_height (g_block g) := g_block g]> (t_block s) ∧
  t_event s' = t_event s ++ g_events g ∧
  t_block_signature s' = t_block_signature s ++ (pair (bl_height (g_block g)) <$> g_signatures g) ∧
  t_block_checkpoint s' = t_block_checkpoint s ∧ _currentBlock s' = _currentBlock s.
Proof. unfold insertGraph. destruct (t_block s !! _); [done|]. by intros [= <-]. Qed.

Lemma insertGraph_clean s r b g s' :
  clean s → build saveRawLog r (toString b) (content b) = Ok g →
  insertGraph s g = Ok s' → clean s'.
Proof.
  intros Hc Hg Hs. destruct (build_Ok _ _ _ _ Hg) as [Hh Hev].
  rewrite coerce_toString in Hh. injection Hh as Hb. rewrite <-Hb in Hev.
  apply insertGraph_Ok in Hs as (Hnone & Ht & He & Hsig & _). rewrite <-Hb in *.
  intros b'. unfold stored, absent, events_of, signatures_of.
  rewrite Ht, He, Hsig, !filter_app, (filter_events b _ (g_events g)) by done. rewrite (filter_pair b), lookup_insert.
  case_decide as Hbb.
  - subst b'. left. exists r, g. split; [done|]. split; [done|].
    destruct (Hc b) as [(? & ? & _ & ? & _)|(_ & Hev0 & Hsig0)]; [congruence|].
    unfold events_of, signatures_of in *. by rewrite Hev0, Hsig0.
  - rewrite !app_nil_r. exact (Hc b').
Qed.

(** The rows are inserted one by one; heights already in the table stay. *)
Lemma insertGraphs_spec r bs gs s :
  Forall2 (λ b g, build saveRawLog r (toString b) (content b) = Ok g) bs gs →
  clean s → NoDup bs → Forall (λ b, t_block s !! b = None) bs →
  ∃ s', forEachM insertGraph s gs = Ok s' ∧ clean s' ∧
    (∀ b, is_Some (t_block s' !! b) ↔ b ∈ bs ∨ is_Some (t_block s !! b)) ∧
    t_block_checkpoint s' = t_block_checkpoint s ∧ _currentBlock s' = _currentBlock s.
Proof.
  intros Hbuild. revert s. induction Hbuild as [|b g bs gs Hg _ IH]; intros s Hc Hnd Hnone.
  { exists s. do 2 (split; [done|]). split; [set_solver|done]. }
  apply NoDup_cons in Hnd as [Hb Hnd]. apply Forall_cons in Hnone as [Hbn Hnone].
  pose proof (build_Ok _ _ _ _ Hg) as [Hh _]. rewrite coerce_toString in Hh. injection Hh as Hh.
  assert (∃ s1, insertGraph s g = Ok s1) as [s1 Hs1].
  { unfold insertGraph. rewrite <-Hh, Hbn. eauto. }
  pose proof (insertGraph_clean _ _ _ _ _ Hc Hg Hs1) as Hc1.
  apply insertGraph_Ok in Hs1 as H1. destruct H1 as (_ & Ht & _ & _ & Hcp & Hcur). rewrite <-Hh in Ht.
  destruct (IH s1) as (s' & Hs' & Hc' & Hin & Hcp' & Hcur'); [done|done| |].
  { rewrite Forall_forall in Hnone |- *. intros b' Hb'. rewrite Ht, lookup_insert_ne by set_solver.
    by apply Hnone. }
  exists s'. simpl. rewrite Hs1. simpl. do 2 (split; [done|]).
  split; [|by split; congruence].
  intros b'. rewrite Hin, Ht, lookup_insert_is_Some, elem_of_cons.
  destruct (decide (b = b')) as [->|]; naive_solver.
Qed.

Definition keyed (hs : list Z) : list (string * BlockResponse) :=
  (λ h, (toString h, content h)) <$> hs.

Lemma with_height_content hs :
  heights_ok → Forall (λ h, 0 <= h) hs → (content <$> hs) ≫= with_height = keyed hs.
Proof.
  intros Hok. induction 1 as [|h hs Hh _ IH]; [done|].
  rewrite fmap_cons, bind_cons, IH. unfold with_height at 1. rewrite (Hok h Hh).
  by rewrite decide_False by apply toString_nonempty.
Qed.

Lemma parse_keyed hs :
  Forall (λ h, 0 <= h) hs → mapR (λ hb, parse_height hb.1) (keyed hs) = Ok hs.
Proof.
  induction 1 as [|h hs Hh _ IH]; [done|]. simpl.
  rewrite parse_height_toString by done. simpl. by rewrite IH.
Qed.

Lemma existed_keyed existed hs :
  Forall (λ h, 0 <= h) hs →
  filter (λ hb, is_existed existed hb = false) (keyed hs) = keyed (filter (λ h, h ∉ existed) hs).
Proof.
  induction 1 as [|h hs Hh _ IH]; [done|].
  unfold keyed in *. rewrite fmap_cons, !filter_cons, IH. unfold is_existed. simpl.
  rewrite parseInt_toString by done. repeat case_decide; repeat case_bool_decide; done.
Qed.

(** Parts of the state [handleListBlock] leaves alone. *)
Definition same_env (s s' : Svc) : Prop :=
  t_block_checkpoint s' = t_block_checkpoint s ∧ _currentBlock s' = _currentBlock s.

Lemma handleListBlock_spec hs s :
  heights_ok → Forall (λ h, 0 <= h) hs → NoDup hs → clean s →
  let '(s', o) := handleListBlock saveRawLog (content <$> hs) s in
  clean s' ∧ same_env s s' ∧ (∀ b, is_Some (t_block s !! b) → is_Some (t_block s' !! b)) ∧
  (o = Ok tt → ∀ b, b ∈ hs → is_Some (t_block s' !! b)) ∧
  (initialised (_registry s) → o = Ok tt).
Proof.
  intros Hok Hpos Hnd Hc. unfold handleListBlock, lift, query.
  rewrite with_height_content, parse_keyed by done. unfold mbind, io_bind. simpl.
  set (existed := filter (λ h, is_Some (t_block s !! h)) hs).
  rewrite existed_keyed by done. set (new := filter (λ h, h ∉ existed) hs).
  assert (∀ b, b ∈ new ↔ b ∈ hs ∧ t_block s !! b = None) as Hnew.
  { intros b. unfold new, existed. rewrite !list_elem_of_filter.
    destruct (t_block s !! b); naive_solver. }
  destruct (mapR _ (keyed new)) as [gs|msg] eqn:Hgs; simpl; cycle 1.
  { do 4 (split; [done|]). intros Hr. exfalso.
    destruct (mapR_total (λ hb, build saveRawLog (_registry s) hb.1 hb.2) (keyed new))
      as [gs Hgs']; [|congruence].
    intros hb (h & -> & _)%list_elem_of_fmap. by apply build_total. }
  apply mapR_Ok in Hgs.
  destruct (insertGraphs_spec (_registry s) new gs s) as (s' & Hs' & Hc' & Hin & Henv); [|done|..].
  { unfold keyed in Hgs. by apply Forall2_fmap_l in Hgs. }
  { by apply NoDup_filter. }
  { apply Forall_forall. intros b Hb. by apply Hnew in Hb as [_ ?]. }
  assert (∀ b, b ∈ hs → is_Some (t_block s' !! b)) as Hall.
  { intros b Hb. apply Hin. destruct (t_block s !! b) eqn:Hbs; [eauto|].
    left. by apply Hnew. }
  case_bool_decide as Hlen.
  - destruct gs; [|done]. simpl in Hs'. injection Hs' as <-. simpl. by split_and!.
  - unfold commit. rewrite Hs'. split; [done|]. split; [done|]. split; [|done].
    intros b Hb. apply Hin. by right.
Qed.

Lemma fetch_honest node l bs :
  honest node → mapR (fetchBlock node) l = Ok bs → bs = content <$> l.
Proof.
  intros Hn H. apply mapR_Ok in H. induction H as [|i b l bs Hb _ IH]; [done|].
  simpl. by rewrite (Hn _ _ Hb), IH.
Qed.

(** The state between [initEnv] and the crawling of the range. *)
Definition ready (s : Svc) : Prop :=
  clean s ∧ covered s ∧ t_block_checkpoint s !! CRAWL_BLOCK = Some (_currentBlock s) ∧
  Config.startBlock cfg <= _currentBlock s.

Definition inv (s : Svc) : Prop :=
  clean s ∧ covered s ∧
  ∀ c, t_block_checkpoint s !! CRAWL_BLOCK = Some c → Config.startBlock cfg <= c.

Lemma ready_inv s : ready s → inv s.
Proof. intros (Hc & Hcov & Hcp & Hle). split; [done|]. split; [done|]. naive_solver. Qed.

Lemma initCurrentBlock_spec s :
  inv s → (initCurrentBlock cfg s).2 = Ok tt ∧ ready (initCurrentBlock cfg s).1.
Proof.
  intros (Hc & Hcov & Hle). unfold initCurrentBlock, query, update, mbind, io_bind.
  destruct (t_block_checkpoint s !! CRAWL_BLOCK) as [h|] eqn:Hh; simpl; (split; [done|]).
  - split; [done|]. split; [done|]. split; [done|]. by apply Hle.
  - split; [done|]. split; [|split; simpl; [by rewrite lookup_insert_eq|lia]].
    intros c b Hcb Hbc. simpl in *. rewrite lookup_insert_eq in Hcb. simplify_eq. lia.
Qed.

Lemma setCosmosSdkVersion_spec node s :
  let s' := (setCosmosSdkVersion node s).1 in
  t_block s' = t_block s ∧ t_event s' = t_event s ∧ t_block_signature s' = t_block_signature s ∧
  t_block_checkpoint s' = t_block_checkpoint s.
Proof.
  unfold setCosmosSdkVersion. destruct (cosmos_sdk_version node) as [v|]; [|done].
  case_decide; [done|]. unfold lift, update, mbind, io_bind.
  by destruct (setCosmosSdkVersionByString v).
Qed.

Lemma setCosmosSdkVersion_inv node : keeps inv (setCosmosSdkVersion node).
Proof.
  intros s Hs. destruct (setCosmosSdkVersion_spec node s) as (H1 & H2 & H3 & H4).
  unfold inv, clean, covered, stored, absent, events_of, signatures_of in *.
  by rewrite H1, H2, H3, H4.
Qed.

Lemma initEnv_spec node s s' o :
  inv s → initEnv cfg node s = (s', o) → inv s' ∧ (o = Ok tt → ready s').
Proof.
  intros Hs. unfold initEnv, mbind, io_bind.
  pose proof (setCosmosSdkVersion_inv node s Hs) as H1.
  destruct (setCosmosSdkVersion node s) as [s1 [[]|msg]]; simpl in *; [|by intros [= <- <-]].
  destruct (initCurrentBlock_spec s1 H1) as [Ho Hr]. intros Heq. rewrite Heq in *. simpl in *.
  split; [by apply ready_inv|done].
Qed.

Lemma crawlRange_spec node s s' o :
  heights_ok → 0 <= Config.startBlock cfg → honest node → ready s →
  crawlRange saveRawLog blocksPerCall node s = (s', o) →
  ready s' ∧ same_env s s' ∧
  (o = Ok tt → ∀ b, _currentBlock s < b <= endBlock blocksPerCall node (_currentBlock s) →
                is_Some (t_block s' !! b)).
Proof.
  intros Hok H0 Hn (Hc & Hcov & Hcp & Hle). unfold crawlRange, query, lift.
  unfold mbind, io_bind. set (cur := _currentBlock s) in *.
  set (hs := seqZ (cur + 1) _).
  destruct (mapR (fetchBlock node) hs) as [bs|msg] eqn:Hf; cycle 1.
  { intros [= <- <-]. split; [done|]. by split. }
  rewrite (fetch_honest node hs bs Hn Hf). intros Hrun.
  pose proof (handleListBlock_spec hs s Hok) as Hspec. rewrite Hrun in Hspec.
  destruct Hspec as (Hc' & [He1 He2] & Hmono & Hall & _); [|apply NoDup_seqZ|done|].
  { apply Forall_forall. intros b Hb%elem_of_seqZ. lia. }
  split.
  - split; [done|]. split; [|by rewrite He1, He2].
    intros c b. rewrite He1. intros Hcc Hb. apply Hmono. by eapply Hcov.
  - split; [done|]. intros Ho b Hb. apply (Hall Ho), elem_of_seqZ. lia.
Qed.

Lemma updateCrawled_spec node s :
  ready s →
  (∀ b, _currentBlock s < b <= endBlock blocksPerCall node (_currentBlock s) →
        is_Some (t_block s !! b)) →
  ∃ s', updateCrawled blocksPerCall node s = (s', Ok tt) ∧ inv s' ∧
    t_block_checkpoint s' =
      <[CRAWL_BLOCK := Z.max (_currentBlock s) (endBlock blocksPerCall node (_currentBlock s))]>
        (t_block_checkpoint s).
Proof.
  intros Hr Hall. pose proof (ready_inv _ Hr) as Hinv. destruct Hr as (Hc & Hcov & Hcp & Hle).
  unfold updateCrawled, query, update, mbind, io_bind.
  set (cur := _currentBlock s) in *. set (e := endBlock blocksPerCall node cur) in *.
  destruct (Z.ltb_spec cur e).
  - simpl. rewrite Hcp. eexists. split; [done|].
    rewrite Z.max_r by lia. split; [|done]. split; [done|]. split.
    + intros c b. simpl. rewrite lookup_insert_eq. intros [= <-] Hb.
      destruct (decide (b <= cur)); [|apply Hall; lia]. eapply Hcov; [exact Hcp|lia].
    + intros c. simpl. rewrite lookup_insert_eq. intros [= <-]. lia.
  - exists s. split; [done|]. split; [done|]. rewrite Z.max_l by lia. by rewrite insert_id.
Qed.

(** A run of the job; the process can die after the first commit. *)
Inductive run : Svc → Svc → Prop :=
| run_job node s : honest node → run s (jobHandler cfg saveRawLog blocksPerCall node s).1
| run_killed node s :
    honest node → run s (jobHandler_killed cfg saveRawLog blocksPerCall node s).1.

Lemma killed_spec node s :
  heights_ok → 0 <= Config.startBlock cfg → honest node → inv s →
  inv (jobHandler_killed cfg saveRawLog blocksPerCall node s).1.
Proof.
  intros Hok H0 Hn Hs. unfold jobHandler_killed, mbind, io_bind.
  destruct (initEnv cfg node s) as [s1 o1] eqn:H1.
  destruct (initEnv_spec node s s1 o1 Hs H1) as [Hi Hr]. destruct o1 as [[]|]; [|done].
  destruct (crawlRange saveRawLog blocksPerCall node s1) as [s2 o2] eqn:H2.
  destruct (crawlRange_spec node s1 s2 o2 Hok H0 Hn (Hr eq_refl) H2) as [Hr2 _].
  by apply ready_inv.
Qed.

(** What a whole run does to the checkpoint. *)
Lemma jobHandler_spec node s :
  heights_ok → 0 <= Config.startBlock cfg → honest node → inv s →
  let '(s', o) := jobHandler cfg saveRawLog blocksPerCall node s in
  inv s' ∧
  (o = Ok tt →
   let h := default (Config.startBlock cfg) (t_block_checkpoint s !! CRAWL_BLOCK) in
   t_block_checkpoint s' !! CRAWL_BLOCK = Some (Z.max h (endBlock blocksPerCall node h))).
Proof.
  intros Hok H0 Hn Hs. unfold jobHandler, mbind, io_bind.
  destruct (initEnv cfg node s) as [s1 o1] eqn:H1.
  destruct (initEnv_spec node s s1 o1 Hs H1) as [Hi Hr].
  destruct o1 as [[]|msg]; [|by split]. specialize (Hr eq_refl).
  assert (_currentBlock s1 = default (Config.startBlock cfg) (t_block_checkpoint s !! CRAWL_BLOCK))
    as Hcur.
  { clear -H1. unfold initEnv, mbind, io_bind in H1.
    destruct (setCosmosSdkVersion_spec node s) as (_ & _ & _ & Hcp).
    destruct (setCosmosSdkVersion node s) as [s0 [[]|]]; [|done]. simpl in *. rewrite <-Hcp.
    unfold initCurrentBlock, query, update, mbind, io_bind in H1.
    by destruct (t_block_checkpoint s0 !! CRAWL_BLOCK); injection H1 as <-. }
  unfold handleJobCrawlBlock, rethrow, mbind, io_bind.
  destruct (crawlRange saveRawLog blocksPerCall node s1) as [s2 o2] eqn:H2.
  destruct (crawlRange_spec node s1 s2 o2 Hok H0 Hn Hr H2) as (Hr2 & [He1 He2] & Hall).
  destruct o2 as [[]|msg]; [|by split; [apply ready_inv|]].
  destruct (updateCrawled_spec node s2 Hr2) as (s3 & -> & Hi3 & Hcp).
  { rewrite He2. by apply Hall. }
  split; [done|]. intros _. by rewrite Hcp, He2, lookup_insert_eq, Hcur.
Qed.
End Correctness.

(** The tables before the first run. *)
Definition init_svc : Svc :=
  {| t_block := ∅; t_block_signature := []; t_event := []; t_block_checkpoint := ∅;
     _registry := new_ChainRegistry; _currentBlock := 0 |}.

Lemma inv_init cfg raw `{E : Encoding} content : inv cfg raw content init_svc.
Proof.
  split; [|by split]. intros b. right. by split.
Qed.

Lemma run_inv cfg raw bpc `{E : Encoding} content s s' :
  heights_ok content → 0 <= Config.startBlock cfg →
  run cfg raw bpc content s s' → inv cfg raw content s → inv cfg raw content s'.
Proof.
  intros Hok H0 Hrun Hs. destruct Hrun as [node s Hn|node s Hn].
  - pose proof (jobHandler_spec cfg raw bpc content node s Hok H0 Hn Hs) as H.
    destruct (jobHandler cfg raw bpc node s). by destruct H.
  - by eapply killed_spec.
Qed.

Lemma runs_inv cfg raw bpc `{E : Encoding} content s :
  heights_ok content → 0 <= Config.startBlock cfg →
  rtc (run cfg raw bpc content) init_svc s → inv cfg raw content s.
Proof.
  intros Hok H0. revert s. apply rtc_ind_r; [apply inv_init|].
  intros s s' _ Hrun Hs. by eapply run_inv.
Qed.

(** ** The checkpoints of a run *)
Definition advances (cfg : Config.t) (l : list (string * (Z * Z))) (s s' : Svc) : Prop :=
  rtc (Pipeline.step cfg) {| tbl := t_block_checkpoint s; log := l |}
                          {| tbl := t_block_checkpoint s'; log := l |}.

Lemma initEnv_advances cfg `{E : Encoding} node l s s1 o1 :
  initEnv cfg node s = (s1, o1) → advances cfg l s s1.
Proof.
  unfold initEnv, mbind, io_bind, advances.
  destruct (setCosmosSdkVersion_spec node s) as (_ & _ & _ & Hcp).
  destruct (setCosmosSdkVersion node s) as [s0 [[]|]]; simpl in *;
    [|by intros [= <- <-]; rewrite Hcp].
  unfold initCurrentBlock, query, update, mbind, io_bind. rewrite <-Hcp.
  destruct (t_block_checkpoint s0 !! CRAWL_BLOCK) eqn:Hb; intros [= <- <-]; simpl; [done|].
  apply rtc_once. exact (step_block_init cfg {| tbl := t_block_checkpoint s0; log := l |} Hb).
Qed.

Lemma jobHandler_advances cfg raw bpc `{E : Encoding} content node l s :
  heights_ok content → 0 <= Config.startBlock cfg → honest content node → inv cfg raw content s →
  advances cfg l s (jobHandler cfg raw bpc node s).1.
Proof.
  intros Hok H0 Hn Hs. unfold jobHandler, handleJobCrawlBlock, rethrow, mbind, io_bind.
  destruct (initEnv cfg node s) as [s1 o1] eqn:H1. unfold advances.
  etrans; [by eapply initEnv_advances|].
  destruct (initEnv_spec cfg raw content node s s1 o1 Hs H1) as [_ Hr].
  destruct o1 as [[]|]; [|done]. specialize (Hr eq_refl).
  destruct (crawlRange raw bpc node s1) as [s2 o2] eqn:H2.
  destruct (crawlRange_spec cfg raw bpc content node s1 s2 o2 Hok H0 Hn Hr H2)
    as (Hr2 & [He1 He2] & Hall).
  rewrite <-He1. destruct o2 as [[]|]; [|done].
  destruct (updateCrawled_spec cfg raw bpc content node s2 Hr2) as (s3 & -> & _ & Hcp);
    [rewrite He2; by apply Hall|].
  simpl. rewrite Hcp. destruct Hr2 as (_ & _ & Hcur & _).
  set (e := endBlock bpc node (_currentBlock s2)).
  destruct (decide (_currentBlock s2 < e)).
  - rewrite Z.max_r by lia. apply rtc_once. by eapply step_block.
  - rewrite Z.max_l by lia. by rewrite insert_id.
Qed.

(** ** Properties *)

(** C1: crawling is crash safe.  After any sequence of runs of the block job
    against honest nodes, where any run may fail or be killed between its two
    commits, every height up to the checkpoint is in the table [block], and
    every block that is there has exactly the row, the signatures and the
    events built from that block of the chain, once; no other height has any
    row. *)
Theorem crawl_exactly_once cfg raw bpc `{E : Encoding} content s b :
  heights_ok content → 0 <= Config.startBlock cfg →
  rtc (run cfg raw bpc content) init_svc s →
  (∀ c, t_block_checkpoint s !! CRAWL_BLOCK = Some c →
     Config.startBlock cfg < b <= c → stored raw content s b) ∧
  (stored raw content s b ∨ absent s b).
Proof.
  intros Hok H0 Hrun. destruct (runs_inv _ _ _ _ _ Hok H0 Hrun) as (Hc & Hcov & _).
  split; [|done]. intros c Hcp Hb. destruct (Hcov c b Hcp Hb) as [row Hrow].
  destruct (Hc b) as [Hst|[Hn _]]; [done|congruence].
Qed.

(** A run that returns moves the checkpoint of the block job to the end of
    its range and never down; when the node has newer blocks it moves by at
    least one and by at most [blocksPerCall]. *)
Theorem crawl_progress cfg raw bpc `{E : Encoding} content node s s' latest :
  heights_ok content → 0 <= Config.startBlock cfg → 0 < bpc → 0 <= latest →
  rtc (run cfg raw bpc content) init_svc s → honest content node →
  latest_height node = Some (toString latest) →
  jobHandler cfg raw bpc node s = (s', Ok tt) →
  let h := default (Config.startBlock cfg) (t_block_checkpoint s !! CRAWL_BLOCK) in
  t_block_checkpoint s' !! CRAWL_BLOCK = Some (Z.max h (Z.min (h + bpc) latest)).
Proof.
  intros Hok H0 Hbpc Hlat Hrun Hn Hl Hjob h.
  pose proof (jobHandler_spec cfg raw bpc content node s Hok H0 Hn (runs_inv _ _ _ _ _ Hok H0 Hrun)) as H.
  rewrite Hjob in H. destruct H as [_ H]. rewrite (H eq_refl). fold h. f_equal. f_equal.
  unfold endBlock. rewrite Hl, decide_False by apply toString_nonempty.
  rewrite parseInt_toString by done. destruct (Z.ltb_spec latest (h + 1 + bpc - 1)); lia.
Qed.

(** C7: the block job is the block crawler of the pipeline: what a run, also
    a failed or killed one, does to the checkpoints is at most one
    initialisation and one advance of [crawl:block]. *)
Theorem crawl_refines_pipeline cfg raw bpc `{E : Encoding} content s s' l :
  heights_ok content → 0 <= Config.startBlock cfg →
  rtc (run cfg raw bpc content) init_svc s → run cfg raw bpc content s s' →
  rtc (Pipeline.step cfg) {| tbl := t_block_checkpoint s; log := l |}
                          {| tbl := t_block_checkpoint s'; log := l |}.
Proof.
  intros Hok H0 Hreach Hrun. pose proof (runs_inv _ _ _ _ _ Hok H0 Hreach) as Hs.
  destruct Hrun as [node s Hn|node s Hn].
  - by apply (jobHandler_advances cfg raw bpc content).
  - unfold jobHandler_killed, mbind, io_bind.
    destruct (initEnv cfg node s) as [s1 o1] eqn:H1.
    etrans; [by eapply initEnv_advances|].
    destruct (initEnv_spec cfg raw content node s s1 o1 Hs H1) as [_ Hr].
    destruct o1 as [[]|]; [|done].
    destruct (crawlRange raw bpc node s1) as [s2 o2] eqn:H2.
    destruct (crawlRange_spec cfg raw bpc content node s1 s2 o2 Hok H0 Hn (Hr eq_refl) H2)
      as (_ & [He _] & _). simpl. by rewrite He.
Qed.

(** ** A chain for the witnesses

    Every block has one event of each kind; a node of this chain. *)
Definition demo_content (i : Z) : BlockResponse := {|
  block := {| bp_height := Some (toString i); bp_hash := "H" +:+ toString i; bp_time := "t";
              bp_proposer_address := "p"; bp_txs := Some ["tx"];
              bp_signatures := Some [{| block_id_flag := 2; validator_address := "v"; sig_timestamp := "t" |}] |};
  block_result := {|
    begin_block_events := Some [{| re_type := "mint"; re_attributes :=
      [{| ra_key := Some "YW1vdW50"; ra_value := Some "MTQwMHVhdXJh" |}] |}];
    end_block_events := Some [{| re_type := BLOCK_BLOOM; re_attributes :=
      [{| ra_key := Some BLOOM; ra_value := Some "AAAA" |}] |}] |} |}.

Definition demo_node (latest : Z) : BlockNode := {|
  cosmos_sdk_version := Some "v0.45.16"; latest_height := Some (toString latest);
  rpc_block := λ i, Ok (block (demo_content i));
  rpc_block_results := λ i, Ok (block_result (demo_content i)) |}.

Lemma demo_heights : heights_ok demo_content.
Proof. done. Qed.

Lemma demo_honest latest : honest demo_content (demo_node latest).
Proof. intros i b [= <-]. done. Qed.

Abbreviation demo_job := (jobHandler Config.json true 2 (E := DemoEncoding.encoding)).
Abbreviation demo_killed := (jobHandler_killed Config.json true 2 (E := DemoEncoding.encoding)).
Abbreviation demo_run := (run Config.json true 2 (E := DemoEncoding.encoding) demo_content).

(** One run is killed between the commits, the next two complete. *)
Definition demo_s1 : Svc := (demo_killed (demo_node 4860003) init_svc).1.
Definition demo_s2 : Svc := (demo_job (demo_node 4860003) demo_s1).1.
Definition demo_s3 : Svc := (demo_job (demo_node 4860003) demo_s2).1.

Lemma demo_reach2 : rtc demo_run init_svc demo_s2.
Proof.
  eapply rtc_l; [apply (run_killed _ _ _ _ _ _ (demo_honest 4860003))|].
  apply rtc_once. apply (run_job _ _ _ _ _ _ (demo_honest 4860003)).
Qed.

Lemma crawl_exactly_once_witness :
  t_block_checkpoint demo_s3 !! CRAWL_BLOCK = Some 4860003 ∧
  length (t_event demo_s3) = 6%nat ∧
  stored true demo_content demo_s3 4860002 (E := DemoEncoding.encoding) ∧
  (stored true demo_content demo_s3 4860004 (E := DemoEncoding.encoding) ∨ absent demo_s3 4860004).
Proof.
  assert (rtc demo_run init_svc demo_s3) as Hreach.
  { eapply rtc_r; [exact demo_reach2|]. apply (run_job _ _ _ _ _ _ (demo_honest 4860003)). }
  split; [vm_compute; reflexivity|]. split; [vm_compute; reflexivity|]. split.
  - refine (proj1 (crawl_exactly_once Config.json true 2 demo_content demo_s3 4860002
      demo_heights _ Hreach) 4860003 _ _); [done|vm_compute; reflexivity|done].
  - refine (proj2 (crawl_exactly_once Config.json true 2 demo_content demo_s3 4860004
      demo_heights _ Hreach)). done.
Defined.

Lemma crawl_progress_witness :
  t_block_checkpoint demo_s2 !! CRAWL_BLOCK = Some 4860002 ∧
  t_block_checkpoint demo_s3 !! CRAWL_BLOCK = Some (Z.max 4860002 (Z.min (4860002 + 2) 4860003)).
Proof.
  split; [vm_compute; reflexivity|].
  refine (crawl_progress Config.json true 2 demo_content (demo_node 4860003) demo_s2 demo_s3 4860003
    demo_heights _ _ _ demo_reach2 (demo_honest 4860003) _ _); try done.
Defined.

Lemma crawl_refines_pipeline_witness :
  rtc (Pipeline.step Config.json) {| tbl := t_block_checkpoint demo_s2; log := [] |}
                                  {| tbl := t_block_checkpoint demo_s3; log := [] |}.
Proof.
  refine (crawl_refines_pipeline Config.json true 2 demo_content demo_s2 demo_s3 []
    demo_heights _ demo_reach2 _); [done|].
  apply (run_job _ _ _ _ _ _ (demo_honest 4860003)).
Defined.
