(* ===== verification/CrawlTx.v ===== *)
(** * Transactions

    [services/crawl-tx/crawl_tx.service.ts].  The job [crawl:transaction]
    reads the transactions of the crawled blocks from the node, page by page,
    decodes them and stores them in [transaction]; the job
    [handle:transaction] turns the stored ones into rows of [event],
    [event_attribute] and [transaction_message]. *)
From S2P Require Import Prelude JsNum Checkpoint Registry.

(** ** Data *)

(** A transaction as the node returns it. *)
Record TxResult := {
  codespace : option string;
  code : option Z;
  log : string;
  gas_wanted : option string;
  gas_used : option string;
  res_events : list RawEvent
}.
Record RawTx := {
  hash : string;
  index : Z;
  raw : string;             (* tx, in base64 *)
  tx_result : TxResult
}.

(** A message: its [@type] and its content. *)
Record Message := { msg_type : string; msg_content : string }.

(** What [decodeTxRaw] and [decodeMsg] give. *)
Record DecodedTx := {
  messages : list Message;
  memo : string;
  fee_amount : string;
  gas_limit : option string
}.

(** An entry of the JSON in the log of a successful transaction. *)
Abbreviation Log := (list RawEvent).

(** [parsedTx], with the fields the services read. *)
Record ParsedTx := {
  tx : DecodedTx;
  txhash : string;
  tx_response : TxResult;
  tx_index : Z;
  events : list RawEvent;
  logs : option (list Log)
}.

Record Transaction := {
  t_id : Z;
  t_index : Z;
  t_height : Z;
  t_hash : string;
  t_codespace : string;
  t_code : Z;
  t_gas_used : string;
  t_gas_wanted : string;
  t_gas_limit : string;
  t_fee : string;
  t_timestamp : string;
  t_data : ParsedTx;
  t_memo : string
}.

Record TransactionMessage := {
  m_tx_id : Z;
  m_sender : string;
  m_index : Z;
  m_type : string;
  m_content : string
}.

Record BlockInfo := { b_height : Z; b_time : string; b_tx_count : Z }.

Record Db := {
  block : list BlockInfo;
  transaction : list Transaction;
  next_tx_id : Z;
  event : list EventRow;
  transaction_message : list TransactionMessage;
  block_checkpoint : gmap string Z
}.
#[export] Instance Db_checkpoints : HasCheckpoints Db := block_checkpoint.

#[export] Program Instance Db_set_checkpoints : SetCheckpoints Db := {|
  set_checkpoints c d :=
    {| block := block d; transaction := transaction d; next_tx_id := next_tx_id d;
       event := event d; transaction_message := transaction_message d; block_checkpoint := c |}
|}.
Next Obligation. done. Qed.

(** The payload of one block. *)
Record Payload (A : Type) := { listTx : list A; p_height : Z; p_timestamp : string }.
Arguments listTx {A} p.
Arguments p_height {A} p.
Arguments p_timestamp {A} p.

(** ** Reading the transactions of the blocks *)

(** [.where('height', '>', s).andWhere('height', '<=', e).orderBy('height', 'asc')] *)
Definition blocks_between (s e : Z) (d : Db) : list BlockInfo :=
  sortBy b_height (filter (λ b, s < b_height b ∧ b_height b <= e) (block d)).

(** [Math.ceil(n / per)] *)
Definition totalPages (n per : Z) : Z := (n + per - 1) / per.

Section ListRawTx.
Context (tx_search : Z → Z → Z → res (list RawTx)) (txsPerCall : Z).

(** The calls of the block, one per page. *)
Definition page_requests (b : BlockInfo) : list (Z * Z) :=
  if 0 <? b_tx_count b
  then (λ i, (b_height b, i + 1)) <$> seqZ 0 (totalPages (b_tx_count b) txsPerCall)
  else [].

Definition getBlockInfo (request : Z * Z) : res (Z * list RawTx) :=
  txs ← tx_search request.1 request.2 txsPerCall; Ok (request.1, txs).

Definition block_payload (resultPromises : list (Z * list RawTx)) (b : BlockInfo)
  : res (list (Payload RawTx)) :=
  if 0 <? b_tx_count b then
    let listTxs := concat (filter (λ r : Z * list RawTx, r.1 = b_height b) resultPromises).*2 in
    if decide (Z.of_nat (length listTxs) = b_tx_count b)
    then Ok [{| listTx := listTxs; p_height := b_height b; p_timestamp := b_time b |}]
    else Throw ("Error in block " +:+ toString (b_height b) +:+ ": "
                +:+ toString (Z.of_nat (length listTxs)) +:+ " txs found, "
                +:+ toString (b_tx_count b) +:+ " txs expected")
  else Ok [].

Definition getListRawTx (blocks : list BlockInfo) : res (list (Payload RawTx)) :=
  resultPromises ← mapR getBlockInfo (blocks ≫= page_requests);
  l ← mapR (block_payload resultPromises) blocks;
  Ok (concat l).
End ListRawTx.

(** ** Decoding *)
Section Decode.
(** [decodeTxRaw], [decodeMsg] and [camelizeKeys]; [JSON.parse] of the log. *)
Context (decode_tx : string → res DecodedTx) (parse_log : string → option (list Log)).

Definition parse_tx (t : RawTx) : res ParsedTx :=
  decodedTx ← decode_tx (raw t);
  Ok {| tx := decodedTx; txhash := hash t; tx_response := tx_result t; tx_index := index t;
        events := res_events (tx_result t); logs := parse_log (log (tx_result t)) |}.

Definition decode_payload (transactions : list Transaction) (p : Payload RawTx)
  : res (Payload ParsedTx) :=
  let listTxExisted := filter (λ t, t_hash t ∈ hash <$> listTx p) transactions in
  listHandleTx ← mapR parse_tx (filter (λ t, hash t ∉ t_hash <$> listTxExisted) (listTx p));
  Ok {| listTx := listHandleTx; p_height := p_height p; p_timestamp := p_timestamp p |}.

Definition decodeListRawTx (l : list (Payload RawTx)) (transactions : list Transaction)
  : res (list (Payload ParsedTx)) := mapR (decode_payload transactions) l.
End Decode.

(** ** Storing the transactions *)
Definition tx_row (height : Z) (timestamp : string) (t : ParsedTx) (id : Z) : Transaction := {|
  t_id := id;
  t_index := tx_index t;
  t_height := height;
  t_hash := txhash t;
  t_codespace := default "" (codespace (tx_response t));
  t_code := default 0 (code (tx_response t));
  t_gas_used := default "0" (gas_used (tx_response t));
  t_gas_wanted := default "0" (gas_wanted (tx_response t));
  t_gas_limit := default "0" (gas_limit (tx t));
  t_fee := fee_amount (tx t);
  t_timestamp := timestamp;
  t_data := t;
  t_memo := memo (tx t)
|}.

Definition txs_of (l : list (Payload ParsedTx)) : list (Z → Transaction) :=
  l ≫= λ p, tx_row (p_height p) (p_timestamp p) <$> listTx p.

(** The sequence of [transaction.id] numbers the rows. *)
Fixpoint number_rows (id : Z) (l : list (Z → Transaction)) : list Transaction :=
  match l with [] => [] | row :: l => row id :: number_rows (id + 1) l end.

Definition insertTxDecoded (l : list (Payload ParsedTx)) (d : Db) : Db :=
  let listTxModel := txs_of l in
  {| block := block d;
     transaction := transaction d ++ number_rows (next_tx_id d) listTxModel;
     next_tx_id := next_tx_id d + Z.of_nat (length listTxModel);
     event := event d; transaction_message := transaction_message d;
     block_checkpoint := block_checkpoint d |}.

(** ** The tables of events and messages

    The columns type, key and composite_key and the sender and type of a
    message are varchar(255), the value is text.  Whether the partitions and
    their checks accept a row besides that is a parameter here (Catalog.v,
    Partitions.v and Constraints.v are about it). *)
Class EventTables := {
  takes_event : EventRow → bool;
  takes_message : TransactionMessage → bool
}.

Definition attribute_fits (a : EventAttribute) : bool :=
  varchar255 (att_key a) && varchar255 (att_composite_key a) && no_nul (att_value a).

(** ** Events and messages of a transaction *)

(** An event with the [msg_index] [createListEventWithMsgIndex] adds. *)
Record IndexedEvent := { ie_event : RawEvent; msg_index : option Z }.

Section Related.
Context (lastEventsTypeTx : list string) {E : Encoding}.

(** The loop over [tx_response.events]: everything up to the events of the
    types in [lastEventsTypeTx], and these. *)
Fixpoint tx_events (reachLastEventTypeTx : bool) (l : list RawEvent) : list RawEvent :=
  match l with
  | [] => []
  | e :: l =>
      let is_last := bool_decide (re_type e ∈ lastEventsTypeTx) in
      let reach := reachLastEventTypeTx || is_last in
      if reach && negb is_last then [] else e :: tx_events reach l
  end.

Fixpoint index_logs (index : Z) (l : list Log) : list IndexedEvent :=
  match l with
  | [] => []
  | log :: l => ((λ e, {| ie_event := e; msg_index := Some index |}) <$> log)
                ++ index_logs (index + 1) l
  end.

Definition createListEventWithMsgIndex (t : ParsedTx) : list IndexedEvent :=
  match logs t with
  | None => []
  | Some logs =>
      ((λ e, {| ie_event := e; msg_index := None |}) <$> tx_events false (events t))
      ++ index_logs 0 logs
  end.

(** [_findAttribute], which throws when nothing or an empty value is found. *)
Definition _findAttribute (events : list RawEvent) (eventType attributeKey : string) : res string :=
  let has_key (a : RawAttribute) := bool_decide (ra_key a = Some attributeKey) in
  let result :=
    match find (λ e, bool_decide (re_type e = eventType) && existsb has_key (re_attributes e)) events with
    | Some foundEvent =>
        match find has_key (re_attributes foundEvent) with
        | Some a => ra_value a
        | None => Some ""
        end
    | None => Some ""
    end in
  match result with
  | None => Throw "TypeError: Cannot read properties of null (reading 'length')"
  | Some s => if decide (s = "")
              then Throw ("Could not find attribute " +:+ attributeKey
                          +:+ " in event type " +:+ eventType)
              else Ok s
  end.

(** The sender of the messages, [''] when there is none. *)
Definition tx_sender (r : ChainRegistry) (t : ParsedTx) : string :=
  match (key ← encodeAttribute r "sender";
         v ← _findAttribute (events t) "message" key; decodeAttribute r v) with
  | Ok s => s
  | Throw _ => ""
  end.

Definition eventInsert (r : ChainRegistry) (t : Transaction) (e : IndexedEvent) : res EventRow :=
  attrs ← attribute_rows r (re_type (ie_event e)) (t_height t) (re_attributes (ie_event e));
  Ok {| ev_tx_id := Some (t_id t); ev_tx_msg_index := msg_index e;
        ev_type := re_type (ie_event e); ev_attributes := attrs;
        ev_block_height := t_height t; ev_source := TX_EVENT |}.

Fixpoint msgInsert_from (t : Transaction) (sender : string) (index : Z) (l : list Message)
  : list TransactionMessage :=
  match l with
  | [] => []
  | m :: l => {| m_tx_id := t_id t; m_sender := sender; m_index := index;
                 m_type := msg_type m; m_content := msg_content m |}
              :: msgInsert_from t sender (index + 1) l
  end.

Definition msgInsert (r : ChainRegistry) (t : Transaction) : list TransactionMessage :=
  msgInsert_from t (tx_sender r (t_data t)) 0 (messages (tx (t_data t))).

(** ** The check of the mapping, which only logs *)
Definition flat (index ty key value : string) : string :=
  (index +:+ "-" +:+ ty +:+ "-" +:+ key +:+ "-" +:+ value)%string.

Definition flattenLog (logs : list Log) : list string :=
  concat (imap (λ i log, log ≫= λ e,
    (λ a, flat (toString (Z.of_nat i)) (re_type e) (default "undefined" (ra_key a))
            (default "null" (ra_value a))) <$> re_attributes e) logs).

Definition flattenEventEncoded (r : ChainRegistry) (l : list IndexedEvent) : res (list string) :=
  l' ← mapR (λ e, match msg_index e with
                  | None => Ok []
                  | Some i => mapR (λ a,
                      key ← decode_or_null r (ra_key a);
                      value ← decode_or_null r (ra_value a);
                      Ok (flat (toString i) (re_type (ie_event e)) (default "null" key)
                            (default "null" value))) (re_attributes (ie_event e))
                  end) l;
  Ok (concat l').

(** [Array.sort] on strings. *)
Fixpoint insert_string (x : string) (l : list string) : list string :=
  match l with
  | [] => [x]
  | y :: l' => if String.leb x y then x :: l else y :: insert_string x l'
  end.
Definition sort_strings (l : list string) : list string := foldr insert_string [] l.

(** [a.every((item, index) => item === b[index])] *)
Fixpoint every_equal (a b : list string) : bool :=
  match a, b with
  | [], _ => true
  | x :: a, y :: b => bool_decide (x = y) && every_equal a b
  | _ :: _, [] => false
  end.

(** The warnings of the check: lengths differ, and mapping wrong. *)
Definition checkMappingEventToLog (r : ChainRegistry) (t : ParsedTx) (returnEvents : list IndexedEvent)
  : res (bool * bool) :=
  let log := flattenLog (default [] (logs t)) in
  encoded ← flattenEventEncoded r returnEvents;
  Ok (negb (Nat.eqb (length log) (length encoded)),
      negb (every_equal (sort_strings log) (sort_strings encoded))).

(** ** The rows of a transaction *)
Definition related_events (r : ChainRegistry) (t : Transaction) : res (list EventRow) :=
  let listEventWithMsgIndex := createListEventWithMsgIndex (t_data t) in
  _ ← (match logs (t_data t) with
       | Some _ => checkMappingEventToLog r (t_data t) listEventWithMsgIndex
       | None => Ok (false, false)
       end);
  mapR (eventInsert r t) listEventWithMsgIndex.

Context {T : EventTables}.

Definition event_storable (row : EventRow) : bool :=
  varchar255 (ev_type row) && forallb attribute_fits (ev_attributes row) && takes_event row.
Definition message_storable (m : TransactionMessage) : bool :=
  varchar255 (m_sender m) && varchar255 (m_type m) && takes_message m.

(** The two insertions; a row the database refuses ends the transaction. *)
Definition insertRelatedTx (r : ChainRegistry) (listDecodedTx : list Transaction) (d : Db)
  : res Db :=
  listEventModel ← mapR (related_events r) listDecodedTx;
  let listMsgModel := listDecodedTx ≫= msgInsert r in
  if negb (forallb event_storable (concat listEventModel)) then Throw "event: row refused"
  else if negb (forallb message_storable listMsgModel) then Throw "transaction_message: row refused"
  else
    Ok {| block := block d; transaction := transaction d; next_tx_id := next_tx_id d;
          event := event d ++ concat listEventModel;
          transaction_message := transaction_message d ++ listMsgModel;
          block_checkpoint := block_checkpoint d |}.

End Related.

(** ** The jobs *)
Section Jobs.
Context (cfg : Config.t) {E : Encoding}.
Context (tx_search : Z → Z → Z → res (list RawTx)) (txsPerCall : Z).
Context (decode_tx : string → res DecodedTx) (parse_log : string → option (list Log)).
Context (lastEventsTypeTx : list string) (r : ChainRegistry) {T : EventTables}.

Definition jobCrawlTx : io Db () :=
  checkpoint_handler cfg CRAWL_TRANSACTION
    (λ startBlock endBlock,
      blocks ← query (blocks_between startBlock endBlock);
      listTxRaw ← lift (getListRawTx tx_search txsPerCall blocks);
      existed ← query transaction;
      lift (decodeListRawTx decode_tx parse_log listTxRaw existed))
    (λ _ _ listdecodedTx d, Ok (insertTxDecoded listdecodedTx d)).

(** [.orderBy('height', 'asc').orderBy('index', 'asc')] *)
Definition transactions_between (s e : Z) (d : Db) : list Transaction :=
  sortBy t_height (sortBy t_index (filter (λ t, s < t_height t ∧ t_height t <= e) (transaction d))).

Definition jobHandlerCrawlTx : io Db () :=
  checkpoint_handler cfg HANDLE_TRANSACTION
    (λ startBlock endBlock, query (transactions_between startBlock endBlock))
    (λ _ _ listTxRaw d, insertRelatedTx lastEventsTypeTx r listTxRaw d).

#[export] Instance jobCrawlTx_job : CheckpointJob cfg CRAWL_TRANSACTION jobCrawlTx.
Proof.
  apply checkpoint_handler_job. constructor; [auto 10 with frames|].
  by intros s e w d d' [= <-].
Qed.

#[export] Instance jobHandlerCrawlTx_job : CheckpointJob cfg HANDLE_TRANSACTION jobHandlerCrawlTx.
Proof.
  apply checkpoint_handler_job. constructor; [auto with frames|].
  intros s e w d d' H. unfold insertRelatedTx in H. apply bind_Ok in H as (? & _ & H).
  destruct (negb _); [done|]. destruct (negb _); [done|]. by injection H as <-.
Qed.
End Jobs.

(** ** Pages *)

(** A node that pages through the transactions [txs h] of every block. *)
Definition paginates (tx_search : Z → Z → Z → res (list RawTx)) (txs : Z → list RawTx) : Prop :=
  ∀ h p per, tx_search h p per =
    Ok (take (Z.to_nat per) (drop (Z.to_nat ((p - 1) * per)) (txs h))).

(** [n] consecutive pages are the first [n * per] elements. *)
Lemma pages_concat {A} (l : list A) (per n : nat) :
  concat ((λ i, take per (drop (i * per) l)) <$> seq 0 n) = take (n * per) l.
Proof.
  induction n as [|n IH]; [done|].
  rewrite seq_S, fmap_app, concat_app, IH. simpl. rewrite app_nil_r.
  by rewrite take_take_drop, Nat.add_comm.
Qed.

Lemma totalPages_enough n per : 0 < per → 0 <= n → n <= totalPages n per * per.
Proof. intros Hp Hn. unfold totalPages. pose proof (Z.div_mod (n + per - 1) per).
  pose proof (Z.mod_pos_bound (n + per - 1) per). lia. Qed.

Section Pages.
Context (tx_search : Z → Z → Z → res (list RawTx)) (txs : Z → list RawTx) (per : Z).
Context (Hper : 0 < per) (Hnode : paginates tx_search txs).

Definition page_result (request : Z * Z) : Z * list RawTx :=
  (request.1, take (Z.to_nat per) (drop (Z.to_nat ((request.2 - 1) * per)) (txs request.1))).

Lemma getBlockInfo_pages l : mapR (getBlockInfo tx_search per) l = Ok (page_result <$> l).
Proof using Hnode.
  rewrite <-mapR_pure. apply mapR_ext. intros q _. unfold getBlockInfo. by rewrite Hnode.
Qed.

(** The pages of one block, concatenated. *)
Lemma block_pages b :
  0 < b_tx_count b → Z.of_nat (length (txs (b_height b))) <= b_tx_count b →
  concat (page_result <$> page_requests per b).*2 = txs (b_height b).
Proof using Hper.
  intros Hc Hlen. unfold page_requests. destruct (Z.ltb_spec 0 (b_tx_count b)); [|lia].
  set (l := txs (b_height b)) in *. set (n := Z.to_nat (totalPages (b_tx_count b) per)).
  assert ((page_result <$> ((λ i, (b_height b, i + 1)) <$> seqZ 0 (totalPages (b_tx_count b) per))).*2
          = (λ i, take (Z.to_nat per) (drop (i * Z.to_nat per) l)) <$> seq 0 n) as ->.
  { unfold seqZ. rewrite <-!list_fmap_compose. apply list_fmap_ext. intros i x Hx.
    unfold page_result. simpl. fold l. do 2 f_equal. lia. }
  rewrite pages_concat. apply take_ge.
  pose proof (totalPages_enough (b_tx_count b) per Hper). lia.
Qed.

Lemma filter_pages b bs :
  filter (λ r : Z * list RawTx, r.1 = b_height b) (page_result <$> (bs ≫= page_requests per))
  = page_result <$> (filter (λ b', b_height b' = b_height b) bs ≫= page_requests per).
Proof.
  induction bs as [|b' bs IH]; [done|].
  rewrite bind_cons, fmap_app, filter_app, IH, filter_cons.
  assert (Forall (λ r, r.1 = b_height b') (page_result <$> page_requests per b')) as Hall.
  { unfold page_requests. destruct (0 <? b_tx_count b'); [|constructor].
    by apply Forall_fmap, Forall_fmap, Forall_forall. }
  rewrite Forall_forall in Hall. case_decide as Hb.
  - rewrite bind_cons, fmap_app, filter_all; [done|]. intros r Hr. by rewrite (Hall r Hr).
  - rewrite filter_none; [done|]. intros r Hr. by rewrite (Hall r Hr).
Qed.
End Pages.

(** ** What [getListRawTx] returns *)
Definition payload_of {A} (f : Z → list A) (b : BlockInfo) : list (Payload A) :=
  if 0 <? b_tx_count b
  then [{| listTx := f (b_height b); p_height := b_height b; p_timestamp := b_time b |}] else [].

Lemma filter_height_unique b bs :
  NoDup (b_height <$> bs) → b ∈ bs → filter (λ b', b_height b' = b_height b) bs = [b].
Proof.
  induction bs as [|b' bs IH]; [by intros _ ?%not_elem_of_nil|].
  rewrite fmap_cons, NoDup_cons, filter_cons. intros [Hb' Hnd] [->|Hb]%elem_of_cons.
  - rewrite decide_True by done. f_equal. apply filter_none.
    intros x Hx Heq. apply Hb', list_elem_of_fmap. eauto.
  - rewrite decide_False; [by apply IH|]. intros Heq. apply Hb', list_elem_of_fmap. eauto.
Qed.

Lemma getListRawTx_pages tx_search txs per blocks :
  0 < per → paginates tx_search txs → NoDup (b_height <$> blocks) →
  (∀ b, b ∈ blocks → b_tx_count b = Z.of_nat (length (txs (b_height b)))) →
  getListRawTx tx_search per blocks = Ok (blocks ≫= payload_of txs).
Proof.
  intros Hper Hnode Hnd Hcount. unfold getListRawTx.
  rewrite (getBlockInfo_pages tx_search txs per Hnode). cbn [mbind res_bind].
  rewrite (mapR_ext _ (λ b, Ok (payload_of txs b))); 
    [rewrite mapR_pure; simpl; by rewrite concat_fmap|].
  intros b Hb. unfold block_payload, payload_of.
  destruct (Z.ltb_spec 0 (b_tx_count b)); [|done].
  rewrite filter_pages, (filter_height_unique b) by done. rewrite bind_cons, app_nil_r.
  rewrite block_pages by (try done; rewrite Hcount by done; lia).
  by rewrite decide_True by (by rewrite Hcount).
Qed.

(** Whatever the node answers, no transaction is lost silently. *)
Lemma getListRawTx_counts tx_search per blocks l :
  getListRawTx tx_search per blocks = Ok l →
  (λ p, (p_height p, Z.of_nat (length (listTx p)))) <$> l
  = (λ b, (b_height b, b_tx_count b)) <$> filter (λ b, 0 < b_tx_count b) blocks.
Proof.
  unfold getListRawTx. intros H. apply bind_Ok in H as (rs & _ & H).
  apply bind_Ok in H as (ll & Hl & [= <-]). apply mapR_Ok in Hl.
  induction Hl as [|b ps bs ll Hb _ IH]; [done|].
  cbn [concat]. rewrite fmap_app, IH, filter_cons. unfold block_payload in Hb.
  destruct (Z.ltb_spec 0 (b_tx_count b)).
  - destruct (decide _) as [Hlen|]; [|done]. injection Hb as <-.
    rewrite decide_True by done. simpl. f_equal. f_equal. exact Hlen.
  - injection Hb as <-. by rewrite decide_False by lia.
Qed.

(** ** The stored transactions *)
Lemma number_rows_hash l id :
  t_hash <$> number_rows id (txs_of l) = l ≫= λ p, txhash <$> listTx p.
Proof.
  unfold txs_of. revert id. induction l as [|p l IH]; intros id; [done|].
  rewrite !bind_cons. generalize (listTx p) as txs. intros txs. revert id.
  induction txs as [|x txs IHx]; intros id; simpl; [by apply IH|]. f_equal. apply IHx.
Qed.

Lemma number_rows_ids l id : t_id <$> number_rows id (txs_of l) = seqZ id (Z.of_nat (length (txs_of l))).
Proof.
  assert (Forall (λ row : Z → Transaction, ∀ i, t_id (row i) = i) (txs_of l)) as Hall.
  { apply Forall_forall. intros row (p & Hrow & _)%list_elem_of_bind.
    by apply list_elem_of_fmap in Hrow as (x & -> & _). }
  revert id. induction Hall as [|row rows Hrow _ IH]; intros id; [done|].
  cbn [number_rows length]. rewrite fmap_cons, Hrow, IH.
  rewrite Nat2Z.inj_succ, (seqZ_cons id (Z.succ _)) by lia. do 2 f_equal; lia.
Qed.

Section Decoded.
Context (decode_tx : string → res DecodedTx) (parse_log : string → option (list Log)).

Lemma parse_tx_hash t x : parse_tx decode_tx parse_log t = Ok x → txhash x = hash t.
Proof. unfold parse_tx. intros H. by apply bind_Ok in H as (? & _ & [= <-]). Qed.

Lemma decode_payload_hash transactions p q :
  decode_payload decode_tx parse_log transactions p = Ok q →
  txhash <$> listTx q = filter (λ h, h ∉ t_hash <$> transactions) (hash <$> listTx p).
Proof.
  unfold decode_payload. set (ex := t_hash <$> filter _ transactions).
  intros H. apply bind_Ok in H as (l & Hl & [= <-]). simpl. apply mapR_Ok in Hl.
  assert (∀ h, h ∈ hash <$> listTx p → h ∈ ex ↔ h ∈ t_hash <$> transactions) as Hex.
  { intros h Hh. unfold ex. rewrite !list_elem_of_fmap. setoid_rewrite list_elem_of_filter.
    split; [naive_solver|]. intros (t & -> & Ht). eauto. }
  clearbody ex. revert l Hl Hex. generalize (listTx p) as txs.
  induction txs as [|t txs IH]; intros l Hl Hex; [by inversion Hl|].
  rewrite filter_cons in Hl. rewrite fmap_cons, filter_cons. assert (hash t ∈ ex ↔ hash t ∈ t_hash <$> transactions) as Ht.
  { apply Hex. by left. }
  assert (∀ h, h ∈ hash <$> txs → h ∈ ex ↔ h ∈ t_hash <$> transactions) as Hex'.
  { intros h Hh. apply Hex. by right. }
  destruct (decide (hash t ∉ ex)) as [H1|H1].
  - inversion Hl as [|? x ? l' Hx Hl']; subst. rewrite decide_True by tauto.
    rewrite fmap_cons, (IH l' Hl' Hex'). f_equal. by apply parse_tx_hash.
  - rewrite decide_False by tauto. by apply IH.
Qed.

Lemma decodeListRawTx_hash transactions l l' :
  decodeListRawTx decode_tx parse_log l transactions = Ok l' →
  (l' ≫= λ q, txhash <$> listTx q)
  = filter (λ h, h ∉ t_hash <$> transactions) (l ≫= λ p, hash <$> listTx p).
Proof.
  intros H. apply mapR_Ok in H. induction H as [|p q l l' Hq _ IH]; [done|].
  by rewrite !bind_cons, filter_app, IH, (decode_payload_hash _ _ _ Hq).
Qed.
End Decoded.

Lemma bind_filter_sublist {A B} (P : A → Prop) `{!∀ x, Decision (P x)} (f : A → list B) (l : list A) :
  (filter P l ≫= f) `sublist_of` (l ≫= f).
Proof.
  induction l as [|x l IH]; [done|]. rewrite filter_cons, bind_cons.
  case_decide; [rewrite bind_cons; by apply sublist_app|by apply sublist_inserts_l].
Qed.

(** The crawled blocks agree with the chain. *)
Record chain_ok (d : Db) (txs : Z → list RawTx) : Prop := {
  heights_nodup : NoDup (b_height <$> block d);
  counts_ok b : b ∈ block d → b_tx_count b = Z.of_nat (length (txs (b_height b)));
  hashes_nodup : NoDup (block d ≫= λ b, hash <$> txs (b_height b))
}.

Section Range.
Context (d : Db) (txs : Z → list RawTx) (Hchain : chain_ok d txs) (s e : Z).

Lemma blocks_between_elem b : b ∈ blocks_between s e d ↔ b ∈ block d ∧ s < b_height b <= e.
Proof.
  unfold blocks_between. rewrite sortBy_perm, list_elem_of_filter. naive_solver.
Qed.

Lemma blocks_between_nodup : NoDup (b_height <$> blocks_between s e d).
Proof using Hchain.
  unfold blocks_between. rewrite sortBy_perm.
  eapply sublist_NoDup; [apply (heights_nodup _ _ Hchain)|].
  apply fmap_sublist, sublist_filter.
Qed.

(** The hashes of the payloads of the range. *)
Lemma range_hashes :
  (blocks_between s e d ≫= payload_of txs) ≫= (λ p, hash <$> listTx p)
  = blocks_between s e d ≫= λ b, hash <$> txs (b_height b).
Proof using Hchain.
  assert (∀ b, b ∈ blocks_between s e d → b ∈ block d) as Hin
    by (intros b Hb; by apply blocks_between_elem in Hb as [? _]).
  revert Hin. generalize (blocks_between s e d) as bs. induction bs as [|b bs IH]; intros Hin; [done|].
  rewrite !bind_cons, bind_app, IH by (intros b' Hb'; apply Hin; by right). f_equal.
  assert (b_tx_count b = Z.of_nat (length (txs (b_height b)))) as Hc.
  { apply (counts_ok _ _ Hchain), Hin. by left. }
  unfold payload_of. destruct (Z.ltb_spec 0 (b_tx_count b)).
  - rewrite bind_cons. simpl. by rewrite app_nil_r.
  - destruct (txs (b_height b)); [done|]. simpl in Hc. lia.
Qed.

Lemma range_hashes_nodup : NoDup (blocks_between s e d ≫= λ b, hash <$> txs (b_height b)).
Proof using Hchain.
  unfold blocks_between. rewrite sortBy_perm.
  eapply sublist_NoDup; [apply (hashes_nodup _ _ Hchain)|]. apply bind_filter_sublist.
Qed.
End Range.

Lemma lift_Ok {D A} (m : res A) (d d' : D) (a : A) : lift m d = (d', Ok a) → d' = d ∧ m = Ok a.
Proof. unfold lift. by intros [= -> ->]. Qed.

Lemma query_Ok {D A} (f : D → A) (d d' : D) (a : A) : query f d = (d', Ok a) → d' = d ∧ a = f d.
Proof. unfold query. by intros [= -> ->]. Qed.

(** The rows a run of [crawl:transaction] that commits adds. *)
Lemma jobCrawlTx_Ok cfg tx_search txs per decode_tx parse_log d d' :
  0 < per → paginates tx_search txs → chain_ok d txs →
  jobCrawlTx cfg tx_search per decode_tx parse_log d = (d', Ok tt) →
  ∃ s e u, jobCheckpoint cfg CRAWL_TRANSACTION (block_checkpoint d) = Ok (s, e, u) ∧
    (e <= s ∧ d' = d ∨
     s < e ∧ ∃ new, transaction d' = transaction d ++ new ∧
       t_hash <$> new = filter (λ h, h ∉ t_hash <$> transaction d)
                          (blocks_between s e d ≫= λ b, hash <$> txs (b_height b)) ∧
       t_id <$> new = seqZ (next_tx_id d) (Z.of_nat (length new)) ∧
       block_checkpoint d' = <["crawl:transaction" := e]> (block_checkpoint d)).
Proof.
  intros Hper Hnode Hchain Hrun.
  apply checkpoint_handler_cases in Hrun as [(-> & _ & s & e & u & Hj & Hs)|[(msg & [=] & _)|
    (s & e & u & w & d1 & d2 & Hj & Hs & Hp & [= <-] & -> & _)]]; exists s, e, u; (split; [done|]).
  { left. simpl in Hs. split; [lia|done]. }
  right. simpl in Hs. split; [lia|]. inv_io Hp.
  apply query_Ok in Ha as [-> ->]. apply lift_Ok in Ha0 as [-> Hraw].
  apply query_Ok in Ha1 as [-> ->]. apply lift_Ok in Hp as [-> Hdec].
  rewrite (getListRawTx_pages _ txs) in Hraw; [|done|done|by eapply blocks_between_nodup|
    intros b Hb; apply (counts_ok _ _ Hchain); by apply blocks_between_elem in Hb as [? _]].
  injection Hraw as <-. eexists. split; [done|]. split; [|split].
  - rewrite number_rows_hash, (decodeListRawTx_hash _ _ _ _ _ Hdec).
    by rewrite (range_hashes d txs Hchain).
  - rewrite number_rows_ids. f_equal. clear.
    generalize (next_tx_id d) as i. induction (txs_of w) as [|x l IH]; intros i; simpl; [done|].
    rewrite (Nat2Z.inj_succ (length (number_rows _ _))), <-IH. lia.
  - apply getCheckpoint_Ok in Hj as (_ & -> & _). done.
Qed.

(** ** The events of a transaction *)
Section Events.
Context (last : list string).

Definition is_last (e : RawEvent) : Prop := re_type e ∈ last.

Lemma tx_events_reached l :
  ∃ lasts rest, l = lasts ++ rest ∧ Forall is_last lasts ∧
    (∀ e, head rest = Some e → ¬ is_last e) ∧ tx_events last true l = lasts.
Proof.
  induction l as [|e l IH]; [by exists [], []|]. simpl. case_bool_decide as He; simpl.
  - destruct IH as (lasts & rest & -> & Hl & Hr & ->). exists (e :: lasts), rest.
    split; [done|]. split; [by constructor|done].
  - exists [], (e :: l). split; [done|]. split; [constructor|]. split; [|done].
    by intros e' [= <-].
Qed.

Lemma tx_events_spec l :
  ∃ pre lasts rest, l = pre ++ lasts ++ rest ∧ Forall (λ e, ¬ is_last e) pre ∧
    Forall is_last lasts ∧ (∀ e, head rest = Some e → ¬ is_last e) ∧
    (lasts = [] → rest = []) ∧ tx_events last false l = pre ++ lasts.
Proof.
  induction l as [|e l IH]; [by exists [], [], []|]. simpl. case_bool_decide as He; simpl.
  - destruct (tx_events_reached l) as (lasts & rest & -> & Hl & Hr & Heq).
    exists [], (e :: lasts), rest. split_and!; try done; [by constructor|]. by rewrite Heq.
  - destruct IH as (pre & lasts & rest & -> & Hp & Hl & Hr & Hn & ->).
    exists (e :: pre), lasts, rest. split_and!; try done. by constructor.
Qed.

Lemma index_logs_filter ls i k log :
  ls !! i = Some log →
  filter (λ x, msg_index x = Some (k + Z.of_nat i)) (index_logs k ls)
  = (λ e, {| ie_event := e; msg_index := Some (k + Z.of_nat i) |}) <$> log.
Proof.
  assert (∀ ls k j, j < k → filter (λ x, msg_index x = Some j) (index_logs k ls) = []) as Hnone.
  { clear. induction ls as [|l ls IH]; intros k j Hj; [done|]. simpl. rewrite filter_app, IH by lia.
    rewrite filter_none; [done|]. intros x (e & -> & _)%list_elem_of_fmap. simpl. naive_solver lia. }
  revert i k. induction ls as [|l ls IH]; intros [|i] k; simpl; try done; rewrite filter_app.
  - intros [= ->]. replace (k + Z.of_nat 0) with k by lia. rewrite Hnone by lia.
    rewrite app_nil_r, filter_all; [done|]. by intros x (e & -> & _)%list_elem_of_fmap.
  - intros Hi. rewrite filter_none.
    + replace (k + Z.of_nat (S i)) with (k + 1 + Z.of_nat i) by lia. by apply IH.
    + intros x (e & -> & _)%list_elem_of_fmap. simpl. naive_solver lia.
Qed.
End Events.

Lemma eventInsert_total `{E : Encoding} r t e : initialised r → ∃ row, eventInsert r t e = Ok row.
Proof.
  intros Hr. unfold eventInsert.
  destruct (attribute_rows_total r (re_type (ie_event e)) (t_height t) (re_attributes (ie_event e)) Hr)
    as [rows ->]. simpl. eauto.
Qed.

Lemma check_total `{E : Encoding} r t l : initialised r → ∃ w, checkMappingEventToLog r t l = Ok w.
Proof.
  intros Hr. unfold checkMappingEventToLog, flattenEventEncoded.
  match goal with |- context [mapR ?f l] => destruct (mapR_total f l) as [l' ->]; [|simpl; eauto] end.
  intros [e [i|]] _; [|eauto]. apply mapR_total. intros a _.
  destruct (decode_or_null_total r (ra_key a) Hr) as [k ->].
  destruct (decode_or_null_total r (ra_value a) Hr) as [v ->]. simpl. eauto.
Qed.

Lemma related_events_total `{E : Encoding} last r t :
  initialised r → ∃ rows, related_events last r t = Ok rows.
Proof.
  intros Hr. unfold related_events.
  destruct (check_total r (t_data t) (createListEventWithMsgIndex last (t_data t)) Hr) as [w Hw].
  destruct (logs (t_data t)); [rewrite Hw|]; simpl; apply mapR_total; intros e _;
    by apply eventInsert_total.
Qed.

(** The row of an event of a transaction. *)
Record event_row_of `{E : Encoding} (r : ChainRegistry) (t : Transaction) (e : IndexedEvent) (row : EventRow) : Prop := {
  row_type : ev_type row = re_type (ie_event e);
  row_msg_index : ev_tx_msg_index row = msg_index e;
  row_tx : ev_tx_id row = Some (t_id t);
  row_height : ev_block_height row = t_height t;
  row_source : ev_source row = TX_EVENT;
  row_attributes : Forall2 (decoded_attribute r (re_type (ie_event e)) (t_height t))
    (re_attributes (ie_event e)) (ev_attributes row);
  row_numbers : att_index <$> ev_attributes row = Z.of_nat <$> seq 0 (length (re_attributes (ie_event e)))
}.

(** The rows built for a transaction: one per event, in order. *)
Definition rows_of `{E : Encoding} (last : list string) (r : ChainRegistry) (t : Transaction)
    (rows : list EventRow) : Prop :=
  Forall2 (event_row_of r t) (createListEventWithMsgIndex last (t_data t)) rows.

Lemma related_events_rows `{E : Encoding} last r t rows :
  related_events last r t = Ok rows → rows_of last r t rows.
Proof.
  unfold related_events. intros H. apply bind_Ok in H as (_ & _ & H). apply mapR_Ok in H.
  eapply Forall2_impl; [exact H|]. intros e row He. unfold eventInsert in He.
  apply bind_Ok in He as (attrs & Hattrs & [= <-]). split; try done; simpl.
  - by apply attribute_rows_decoded.
  - by eapply attribute_rows_index.
Qed.

Lemma msgInsert_index `{E : Encoding} r t :
  m_index <$> msgInsert r t = seqZ 0 (Z.of_nat (length (messages (tx (t_data t))))).
Proof.
  unfold msgInsert. generalize 0 as i. induction (messages (tx (t_data t))) as [|m l IH]; intros i; [done|].
  cbn [msgInsert_from length]. rewrite fmap_cons, IH, Nat2Z.inj_succ, (seqZ_cons i (Z.succ _)) by lia.
  simpl. do 2 f_equal; lia.
Qed.

(** ** Properties *)

(** C5: every transaction once.  When the node pages through the transactions
    of the chain, a run of [crawl:transaction] that returns keeps the hashes of
    the table [transaction] distinct, only appends, and stores every
    transaction of every crawled block of its range; this also holds when a
    part of them was stored before. *)
Theorem crawl_tx_exactly_once cfg tx_search txs per decode_tx parse_log d d' :
  0 < per → paginates tx_search txs → chain_ok d txs → NoDup (t_hash <$> transaction d) →
  jobCrawlTx cfg tx_search per decode_tx parse_log d = (d', Ok tt) →
  NoDup (t_hash <$> transaction d') ∧ transaction d `prefix_of` transaction d' ∧
  ∀ s e u b t, jobCheckpoint cfg CRAWL_TRANSACTION (block_checkpoint d) = Ok (s, e, u) →
    b ∈ block d → s < b_height b <= e → t ∈ txs (b_height b) →
    hash t ∈ t_hash <$> transaction d'.
Proof.
  intros Hper Hnode Hchain Hnd Hrun.
  destruct (jobCrawlTx_Ok _ _ _ _ _ _ _ _ Hper Hnode Hchain Hrun)
    as (s & e & u & Hj & [[Hle ->]|(Hlt & new & Ht & Hh & _)]).
  { split; [done|]. split; [done|]. intros s' e' u' b t Hj'. rewrite Hj in Hj'. simplify_eq. lia. }
  rewrite Ht, fmap_app, Hh. split; [|split; [by apply prefix_app_r|]].
  - apply NoDup_app. split; [done|]. split; [|by apply NoDup_filter, range_hashes_nodup].
    intros h Hh1 [Hh2 _]%list_elem_of_filter. done.
  - intros s' e' u' b t Hj' Hb Hsb Hin. rewrite Hj in Hj'. simplify_eq.
    rewrite elem_of_app. destruct (decide (hash t ∈ t_hash <$> transaction d)); [by left|right].
    apply list_elem_of_filter. split; [done|]. apply list_elem_of_bind. exists b. split.
    + apply list_elem_of_fmap. eauto.
    + by apply blocks_between_elem.
Qed.

(** Whatever the node answers, [getListRawTx] either throws or returns, for
    every block of the list with transactions and in the order of the list, as
    many transactions as the block has. *)
Theorem getListRawTx_complete tx_search per blocks l :
  getListRawTx tx_search per blocks = Ok l →
  (λ p, (p_height p, Z.of_nat (length (listTx p)))) <$> l
  = (λ b, (b_height b, b_tx_count b)) <$> filter (λ b, 0 < b_tx_count b) blocks.
Proof. apply getListRawTx_counts. Qed.

(** The events of a successful transaction.  The list is a prefix of the
    events of the node, up to and including the first run of events of a last
    type, without message index, followed by the events of the log; those with
    message index [i] are the events of entry [i] of the log, in order.  A
    failed transaction has no events. *)
Theorem createListEventWithMsgIndex_spec last t :
  match logs t with
  | None => createListEventWithMsgIndex last t = []
  | Some ls => ∃ pre lasts rest,
      events t = pre ++ lasts ++ rest ∧ Forall (λ e, ¬ is_last last e) pre ∧
      Forall (is_last last) lasts ∧ (∀ e, head rest = Some e → ¬ is_last last e) ∧
      (lasts = [] → rest = []) ∧
      filter (λ x, msg_index x = None) (createListEventWithMsgIndex last t)
        = (λ e, {| ie_event := e; msg_index := None |}) <$> (pre ++ lasts) ∧
      ∀ i log, ls !! i = Some log →
        filter (λ x, msg_index x = Some (Z.of_nat i)) (createListEventWithMsgIndex last t)
        = (λ e, {| ie_event := e; msg_index := Some (Z.of_nat i) |}) <$> log
  end.
Proof.
  unfold createListEventWithMsgIndex. destruct (logs t) as [ls|]; [|done].
  destruct (tx_events_spec last (events t)) as (pre & lasts & rest & H1 & H2 & H3 & H4 & H5 & ->).
  exists pre, lasts, rest. do 5 (split; [done|]). split.
  - rewrite filter_app, filter_all, filter_none; [by rewrite app_nil_r| |].
    + generalize 0 as k. clear. induction ls as [|l ls IH]; intros k x; simpl;
        [by intros ?%not_elem_of_nil|].
      intros [(e & -> & _)%list_elem_of_fmap|Hx]%elem_of_app; [done|by apply (IH (k + 1))].
    + by intros x (e & -> & _)%list_elem_of_fmap.
  - intros i log Hi. rewrite filter_app, filter_none.
    + exact (index_logs_filter ls i 0 log Hi).
    + by intros x (e & -> & _)%list_elem_of_fmap.
Qed.

(** C6: the job [handle:transaction], once the version of the chain is set,
    builds for the transactions of its range, in the order of height and index,
    one message row per message, numbered from 0, and one event row per event,
    with the id and the height of the transaction and one decoded attribute per
    attribute, numbered from 0.  When the tables take these rows (a type, key,
    composite key or sender has at most 255 characters, no text holds a NUL, and
    the partitions accept the row) the job appends them and moves its checkpoint
    to the end of the range; when they refuse one, the run throws and nothing
    changes. *)
Theorem handle_transaction_correct cfg `{E : Encoding} `{T : EventTables} last r d s e u :
  initialised r →
  jobCheckpoint cfg HANDLE_TRANSACTION (block_checkpoint d) = Ok (s, e, u) → s < e →
  (∀ t, m_index <$> msgInsert r t = seqZ 0 (Z.of_nat (length (messages (tx (t_data t)))))) ∧
  ∃ rows, Forall2 (rows_of last r) (transactions_between s e d) rows ∧
    let msgs := transactions_between s e d ≫= msgInsert r in
    if forallb event_storable (concat rows) && forallb message_storable msgs then
      ∃ d', jobHandlerCrawlTx cfg last r d = (d', Ok tt) ∧
        block_checkpoint d' = <["handle:transaction" := e]> (block_checkpoint d) ∧
        transaction_message d' = transaction_message d ++ msgs ∧
        event d' = event d ++ concat rows
    else ∃ msg, jobHandlerCrawlTx cfg last r d = (d, Throw msg).
Proof.
  intros Hr Hj Hlt. split; [apply msgInsert_index|].
  destruct (mapR_total (related_events last r) (transactions_between s e d)) as [rows Hrows].
  { intros t _. by apply related_events_total. }
  exists rows. split.
  { apply mapR_Ok in Hrows. eapply Forall2_impl; [exact Hrows|]. apply related_events_rows. }
  cbv zeta. unfold jobHandlerCrawlTx, checkpoint_handler, readCheckpoint, query, commit, mbind, io_bind.
  unfold checkpoints_of, Db_checkpoints. rewrite Hj. simpl.
  destruct (Z.leb_spec e s); [lia|]. unfold insertRelatedTx. rewrite Hrows. simpl.
  destruct (forallb event_storable _); [|simpl; eauto].
  destruct (forallb message_storable _); [|simpl; eauto]. simpl.
  eexists. split; [done|]. apply getCheckpoint_Ok in Hj as (_ & -> & _). done.
Qed.

(** the attributes of the log are decoded a second time.  On a chain whose
    events are in base64, the entries of the log are plain text already, but
    go through [decodeAttribute] like the others: a value of the log that
    happens to be the base64 of a text is stored as that text. *)
Theorem log_value_redecoded `{E : Encoding} r t e row j key v b s :
  base64_attributes r = Some true → eventInsert r t e = Ok row →
  re_attributes (ie_event e) !! j = Some {| ra_key := key; ra_value := Some v |} →
  v ≠ "" → fromBase64 v = Ok b → fromUtf8 b = Ok s →
  ∃ a, ev_attributes row !! j = Some a ∧ att_value a = s.
Proof.
  intros Hr (attrs & Hattrs & [= <-])%bind_Ok Hj Hv Hb Hs. simpl.
  apply attribute_rows_decoded in Hattrs.
  destruct (Forall2_lookup_l _ _ _ _ _ Hattrs Hj) as (a & Ha & _ & value & _ & Hd & _ & Hval & _).
  exists a. split; [done|]. rewrite Hval. revert Hd. simpl. rewrite decide_False by done.
  unfold decodeAttribute. rewrite Hr, decide_False by done. rewrite Hb. simpl. rewrite Hs. simpl.
  by intros [= <-].
Qed.

(** ** A chain for the witnesses

    Two blocks; block 4860001 has three transactions, of which the first is
    stored already, and pages hold two transactions. *)
Definition demo_raw (h : string) : RawTx := {|
  hash := h; index := 0; raw := "raw";
  tx_result := {| codespace := None; code := Some 0; log := "[]"; gas_wanted := Some "10";
                  gas_used := Some "7"; res_events := [{| re_type := "tx"; re_attributes := [] |};
                                                       {| re_type := "message"; re_attributes := [] |}] |} |}.
Definition demo_txs (h : Z) : list RawTx :=
  if h =? 4860001 then demo_raw <$> ["A"; "B"; "C"] else [].
Definition demo_search (h p per : Z) : res (list RawTx) :=
  Ok (take (Z.to_nat per) (drop (Z.to_nat ((p - 1) * per)) (demo_txs h))).
Definition demo_decode (s : string) : res DecodedTx :=
  Ok {| messages := [{| msg_type := "/m"; msg_content := "{}" |}]; memo := ""; fee_amount := "[]";
        gas_limit := None |}.
Definition demo_log (token : string) : list Log :=
  [[{| re_type := "wasm"; re_attributes := [{| ra_key := Some "token_id"; ra_value := Some token |}] |}]].
Definition demo_parse (s : string) : option (list Log) := Some (demo_log "1400").

Definition demo_stored : ParsedTx := {|
  tx := {| messages := []; memo := ""; fee_amount := "[]"; gas_limit := None |};
  txhash := "A"; tx_response := tx_result (demo_raw "A"); tx_index := 0; events := []; logs := None |}.

Definition demo_db : Db := {|
  block := [{| b_height := 4860002; b_time := "t"; b_tx_count := 0 |};
            {| b_height := 4860001; b_time := "t"; b_tx_count := 3 |}];
  transaction := [tx_row 4860001 "t" demo_stored 1]; next_tx_id := 2;
  event := []; transaction_message := [];
  block_checkpoint := {[ "crawl:block" := 4860002 ]} |}.

Definition demo_run : Db * res () := jobCrawlTx Config.json demo_search 2 demo_decode demo_parse demo_db.
(** Partitions that take every row. *)
Definition demo_tables : EventTables := {| takes_event _ := true; takes_message _ := true |}.
Definition demo_run2 : Db * res () :=
  jobHandlerCrawlTx Config.json ["tx"; "ethereum_tx"] DemoEncoding.registry
    (E := DemoEncoding.encoding) (T := demo_tables) demo_run.1.

Lemma demo_chain_ok : chain_ok demo_db demo_txs.
Proof.
  constructor; [by_compute| |by_compute].
  intros b Hb. repeat (apply elem_of_cons in Hb as [->|Hb]; [reflexivity|]).
  by apply not_elem_of_nil in Hb.
Qed.

Lemma crawl_tx_exactly_once_witness :
  t_hash <$> transaction demo_run.1 = ["A"; "B"; "C"] ∧
  NoDup (t_hash <$> transaction demo_run.1) ∧ hash (demo_raw "C") ∈ t_hash <$> transaction demo_run.1.
Proof.
  split; [vm_compute; reflexivity|].
  assert (demo_run = (demo_run.1, Ok tt)) as Hrun by (vm_compute; reflexivity).
  destruct (crawl_tx_exactly_once Config.json demo_search demo_txs 2 demo_decode demo_parse demo_db demo_run.1)
    as (Hnd & _ & Hall); [done|done|exact demo_chain_ok|by_compute|exact Hrun|].
  split; [exact Hnd|].
  refine (Hall 4860000 4860002 _ {| b_height := 4860001; b_time := "t"; b_tx_count := 3 |} (demo_raw "C") _ _ _ _).
  - vm_compute. reflexivity.
  - right. left.
  - done.
  - right. right. left.
Defined.

Lemma getListRawTx_complete_witness :
  is_ok (getListRawTx demo_search 2 (block demo_db)) = true ∧
  ∃ l, getListRawTx demo_search 2 (block demo_db) = Ok l ∧
    (λ p, (p_height p, Z.of_nat (length (listTx p)))) <$> l = [(4860001, 3)].
Proof.
  split; [vm_compute; reflexivity|].
  destruct (getListRawTx demo_search 2 (block demo_db)) as [l|] eqn:Hl; [|vm_compute in Hl; discriminate].
  exists l. split; [reflexivity|]. exact (getListRawTx_complete demo_search 2 (block demo_db) l Hl).
Defined.

Lemma handle_transaction_correct_witness :
  length (event demo_run2.1) = 4%nat ∧ demo_run2.2 = Ok tt ∧
  ∃ rows, Forall2 (rows_of (E := DemoEncoding.encoding) ["tx"; "ethereum_tx"] DemoEncoding.registry)
    (transactions_between 4860000 4860002 demo_run.1) rows.
Proof.
  split; [vm_compute; reflexivity|]. split; [vm_compute; reflexivity|].
  destruct (handle_transaction_correct Config.json (E := DemoEncoding.encoding) (T := demo_tables)
    ["tx"; "ethereum_tx"] DemoEncoding.registry demo_run.1 4860000 4860002
    {| job_name := "handle:transaction"; height := 4860000 |}) as (_ & rows & H & _).
  - vm_compute. eauto.
  - vm_compute. reflexivity.
  - done.
  - exists rows. exact H.
Defined.

(** The token id 1400 of the log is stored as another text. *)
(** An event of the log of a transaction whose token id is 1400. *)
Definition demo_log_event : IndexedEvent := {|
  ie_event := {| re_type := "wasm"; re_attributes := [{| ra_key := None; ra_value := Some "1400" |}] |};
  msg_index := Some 0 |}.

Lemma log_value_redecoded_witness :
  ∃ t row a, eventInsert (E := DemoEncoding.encoding) DemoEncoding.registry t demo_log_event = Ok row ∧
    ev_attributes row !! 0%nat = Some a ∧
    att_value a = String (ascii_of_nat 215) (String (ascii_of_nat 141) "4").
Proof.
  destruct (transaction demo_run2.1) as [|t l] eqn:Ht; [vm_compute in Ht; discriminate|].
  destruct (eventInsert (E := DemoEncoding.encoding) DemoEncoding.registry t demo_log_event) as [row|msg] eqn:Hrow;
    [|vm_compute in Hrow; discriminate].
  destruct (log_value_redecoded (E := DemoEncoding.encoding) DemoEncoding.registry t demo_log_event row 0 None "1400"
    (String (ascii_of_nat 215) (String (ascii_of_nat 141) "4"))
    (String (ascii_of_nat 215) (String (ascii_of_nat 141) "4"))) as (a & Ha & Hv);
    [reflexivity|exact Hrow|reflexivity|discriminate|vm_compute; reflexivity|vm_compute; reflexivity|].
  exists t, row, a. exact (conj Hrow (conj Ha Hv)).
Defined.
