(* ===== verification/CoinTransfer.v ===== *)
(** * Coin transfers

    [services/crawl-tx/coin_transfer.service.ts]: the [transfer] events of the
    messages of a range of blocks become rows of [coin_transfer]. *)
From S2P Require Import Prelude JsNum Checkpoint.

(** ** Amounts *)

(** [s.match(/(\d+)/)?.[0]]: the first run of digits. *)
Fixpoint take_digits (s : string) : string :=
  match s with
  | String c s' => if is_digit c then String c (take_digits s') else ""
  | EmptyString => ""
  end.
Fixpoint match_digits (s : string) : option string :=
  match s with
  | String c s' => if is_digit c then Some (take_digits s) else match_digits s'
  | EmptyString => None
  end.

Fixpoint drop_string (n : nat) (s : string) : string :=
  match n, s with S n, String _ s => drop_string n s | _, _ => s end.

(** [s.replace(pat, '')]: the first occurrence of the string [pat]. *)
Fixpoint remove_first (pat s : string) : string :=
  if String.prefix pat s then drop_string (String.length pat) s
  else match s with String c s' => String c (remove_first pat s') | EmptyString => "" end.

(** The amount is a Number: [None] is [Infinity] (or [NaN], which does not
    happen on digits). *)
Definition extractAmount (rawAmount : option string) : option Z * string :=
  let amount := default "0" (rawAmount ≫= match_digits) in
  let denom := default "" (remove_first amount <$> rawAmount) in
  (parseInt amount ≫= to_double, denom).

(** ** Data *)
Record Event := {
  tx_msg_index : option Z;
  ev_type : string;
  attributes : list attribute
}.
Record Message := { msg_id : Z; msg_type : string }.
(** A transaction with its messages and the events that have a message index. *)
Record Tx := {
  tx_id : Z;
  tx_height : Z;
  tx_timestamp : string;
  messages : list Message;
  events : list Event
}.

Record CoinTransfer := {
  ct_block_height : Z;
  ct_tx_id : Z;
  ct_tx_msg_id : Z;
  ct_from : string;
  ct_to : string;
  ct_amount : option Z;
  ct_denom : string;
  ct_timestamp : string
}.

Definition MSG_MULTI_SEND := "/cosmos.bank.v1beta1.MsgMultiSend".

(** [event.attributes.map((attr) => attr.key).includes('authz_msg_index')] *)
Definition has_authz_index (e : Event) : bool :=
  bool_decide ("authz_msg_index" ∈ attr_key <$> attributes e).

(** One sender, one recipient and one amount. *)
Definition is_single (e : Event) : bool :=
  Nat.eqb (length (attributes e)) 3
  || (Nat.eqb (length (attributes e)) 4 && has_authz_index e).

(** [CoinTransfer.fromJson]: the validation gives a missing sender its default
    null, and turns null into the empty text. *)
Definition transfer (t : Tx) (m : Message) (from to raw : option string) : CoinTransfer :=
  let '(amount, denom) := extractAmount raw in
  {| ct_block_height := tx_height t; ct_tx_id := tx_id t; ct_tx_msg_id := msg_id m;
     ct_from := default "" from; ct_to := default "" to; ct_amount := amount; ct_denom := denom;
     ct_timestamp := tx_timestamp t |}.

(** The value of the first attribute with the key: null, or missing. *)
Definition attribute_value (key : string) (l : list attribute) : option (option string) :=
  attr_value <$> find (λ a, bool_decide (attr_key a = key)) l.
(** The one column that is required and has no default. *)
Definition to_required : string := "ValidationError: to: must have required property 'to'".
Definition type_error : string := "TypeError: Cannot read properties of undefined".

(** The loop over recipient1, amount1, recipient2, amount2, ...; it stops at a
    pair with invalid keys and keeps what it pushed before. *)
Fixpoint multi_send (mk : option string → option string → CoinTransfer) (l : list attribute)
  : res (list CoinTransfer) :=
  match l with
  | [] => Ok []
  | [a] => Throw type_error
  | a :: b :: l =>
      if negb (bool_decide (attr_key a = "recipient")) && negb (bool_decide (attr_key b = "amount"))
      then Ok []
      else rest ← multi_send mk l; Ok (mk (attr_value a) (attr_value b) :: rest)
  end.

Definition handle_event (t : Tx) (e : Event) : res (list CoinTransfer) :=
  match tx_msg_index e with
  | None => Ok []
  | Some i =>
      if negb (bool_decide (ev_type e = "transfer")) then Ok [] else
      match at_index (messages t) i with
      | None => Throw type_error
      | Some m =>
          if negb (is_single e) && negb (bool_decide (msg_type m = MSG_MULTI_SEND)) then Ok []
          else if is_single e then
            match attribute_value "recipient" (attributes e) with
            | None => Throw to_required
            | Some to =>
                Ok [transfer t m (getAttributeFrom (attributes e) "sender") to
                      (getAttributeFrom (attributes e) "amount")]
            end
          else
            let coinSpentEvent :=
              find (λ e', bool_decide (ev_type e' = "coin_spent")
                          && bool_decide (tx_msg_index e' = tx_msg_index e)) (events t) in
            let from := coinSpentEvent ≫= λ e', getAttributeFrom (attributes e') "spender" in
            multi_send (transfer t m from) (attributes e)
      end
  end.

Definition handle_tx (t : Tx) : res (list CoinTransfer) :=
  l ← mapR (handle_event t) (events t); Ok (concat l).

(** What the columns of [coin_transfer] take: three varchar(255), and a
    decimal(80,0). *)
Definition row_fits (c : CoinTransfer) : bool :=
  varchar255 (ct_from c) && varchar255 (ct_to c) && varchar255 (ct_denom c)
  && match ct_amount c with Some n => n <? 10 ^ 80 | None => false end.

(** ** The job *)

(** The tables: transactions with their messages, in [id] order, and the events
    with the id of their transaction. *)
Record Db := {
  transaction : list (Z * (Z * string * list Message));   (* id, (height, timestamp, messages) *)
  event : list (Z * Event);                               (* tx_id, event *)
  coin_transfer : list CoinTransfer;
  block_checkpoint : gmap string Z
}.
#[export] Instance Db_checkpoints : HasCheckpoints Db := block_checkpoint.
#[export] Program Instance Db_set_checkpoints : SetCheckpoints Db := {|
  set_checkpoints c d := {| transaction := transaction d; event := event d;
                            coin_transfer := coin_transfer d; block_checkpoint := c |} |}.
Next Obligation. done. Qed.

Abbreviation TxRow := (Z * (Z * string * list Message))%type.
Definition row_height (t : TxRow) : Z := t.2.1.1.

(** The events whose transaction lies between the first and the last one are
    pushed to it; one that is not among the transactions throws. *)
Definition with_events (rows : list TxRow) (evs : list (Z * Event)) : res (list Tx) :=
  match head rows, last rows with
  | Some first, Some last =>
      let events := filter (λ e : Z * Event, first.1 <= e.1 ∧ e.1 <= last.1 ∧ tx_msg_index e.2 ≠ None) evs in
      if forallb (λ e, bool_decide (e.1 ∈ rows.*1)) events then
        Ok ((λ t : TxRow,
          {| tx_id := t.1; tx_height := row_height t; tx_timestamp := t.2.1.2; messages := t.2.2;
             events := (filter (λ e : Z * Event, e.1 = t.1) events).*2 |}) <$> rows)
      else Throw type_error
  | _, _ => Ok []
  end.

Definition fetchTransactionCTByHeight (fromHeight toHeight : Z) (d : Db) : res (list Tx) :=
  with_events
    (sortBy fst (filter (λ t, fromHeight < row_height t ∧ row_height t <= toHeight) (transaction d)))
    (event d).

Section Job.
Context (cfg : Config.t).

Definition jobHandleTxCoinTransfer : io Db () :=
  checkpoint_handler cfg HANDLE_COIN_TRANSFER
    (λ fromBlock toBlock,
      transactions ← query (fetchTransactionCTByHeight fromBlock toBlock);
      transactions ← lift transactions;
      coinTransfers ← lift (mapR handle_tx transactions);
      mret (concat coinTransfers))
    (λ _ _ coinTransfers d,
      if negb (forallb row_fits coinTransfers) then Throw too_long else
      Ok {| transaction := transaction d; event := event d;
            coin_transfer := coin_transfer d ++ coinTransfers;
            block_checkpoint := block_checkpoint d |}).

#[export] Instance jobHandleTxCoinTransfer_job :
  CheckpointJob cfg HANDLE_COIN_TRANSFER jobHandleTxCoinTransfer.
Proof.
  apply checkpoint_handler_job. constructor; [auto 10 with frames|].
  intros s e w d d' Hw. cbn in Hw. destruct (forallb row_fits w); [|done]. by injection Hw as <-.
Qed.
End Job.

(** ** Amounts are split right *)
Definition starts_with_digit (s : string) : bool :=
  match s with String c _ => is_digit c | EmptyString => false end.

Lemma take_digits_app a b :
  all_digits a = true → starts_with_digit b = false → take_digits (a +:+ b) = a.
Proof.
  induction a as [|c a IH]; simpl.
  - destruct b as [|c b]; simpl; [done|]. by intros _ ->.
  - intros [-> Ha]%andb_prop Hb. by rewrite IH.
Qed.

Lemma match_digits_app a b :
  all_digits a = true → a ≠ "" → starts_with_digit b = false → match_digits (a +:+ b) = Some a.
Proof.
  destruct a as [|c a]; [done|]. intros Hall _ Hb. pose proof Hall as Hc.
  simpl in Hc. apply andb_prop in Hc as [Hc _].
  change (match_digits (String c a +:+ b)) with
    (if is_digit c then Some (take_digits (String c a +:+ b)) else match_digits (a +:+ b)).
  by rewrite Hc, take_digits_app.
Qed.

Lemma remove_first_app a b : remove_first a (a +:+ b) = b.
Proof.
  assert (String.prefix a (a +:+ b) = true) as Hp.
  { induction a as [|c a IH]; simpl; [by destruct b|]. by destruct (ascii_dec c c). }
  assert (drop_string (String.length a) (a +:+ b) = b) as Hd by (clear Hp; induction a as [|c a IH]; [by destruct b|exact IH]).
  destruct (a +:+ b) as [|c s] eqn:Hs; cbn [remove_first]; rewrite Hp; exact Hd.
Qed.

Lemma extractAmount_digits n denom :
  0 <= n → starts_with_digit denom = false →
  extractAmount (Some (toString n +:+ denom)) = (to_double n, denom).
Proof.
  intros Hn Hd. unfold extractAmount. simpl.
  assert (all_digits (toString n) = true) as Hall.
  { unfold toString. destruct (Z.ltb_spec n 0); [lia|]. by apply print_digits_all. }
  rewrite match_digits_app by (done || apply toString_nonempty). simpl.
  rewrite parseInt_toString by done. simpl. f_equal. apply remove_first_app.
Qed.

(** ** Sorted rows lie between the first and the last *)
Lemma sorted_bounds {A} (k : A → Z) l x a b :
  Sorted (λ x y, k x <= k y) l → x ∈ l → head l = Some a → last l = Some b → k a <= k x <= k b.
Proof.
  intros Hs%Sorted_StronglySorted Hx; [|intros ? ? ?; lia]. revert a.
  induction Hs as [|y l Hs IH Hall]; intros a Ha Hb; [done|]. simpl in Ha. simplify_eq.
  rewrite Forall_forall in Hall. apply elem_of_cons in Hx as [->|Hx].
  - split; [lia|]. destruct l as [|z l]; [simpl in Hb; simplify_eq; lia|].
    rewrite last_cons_cons in Hb. apply last_Some_elem_of in Hb. by apply Hall.
  - destruct l as [|z l]; [by apply not_elem_of_nil in Hx|].
    rewrite last_cons_cons in Hb. destruct (IH Hx z eq_refl Hb) as [_ ?]. split; [by apply Hall|done].
Qed.

Lemma with_events_spec (rows : list TxRow) evs txs (row : TxRow) :
  Sorted (λ x y : TxRow, x.1 <= y.1) rows → with_events rows evs = Ok txs → row ∈ rows →
  {| tx_id := row.1; tx_height := row_height row; tx_timestamp := row.2.1.2; messages := row.2.2;
     events := (filter (λ e : Z * Event, e.1 = row.1 ∧ tx_msg_index e.2 ≠ None) evs).*2 |} ∈ txs.
Proof.
  intros Hs Hw Hrow. unfold with_events in Hw.
  destruct (head rows) as [a|] eqn:Ha; [|destruct rows; [by apply not_elem_of_nil in Hrow|done]].
  destruct (last rows) as [b|] eqn:Hb; [|by apply last_None in Hb as ->].
  pose proof (sorted_bounds (fst : TxRow → Z) rows row a b Hs Hrow Ha Hb) as Hbounds.
  destruct (forallb _ _); [|done]. injection Hw as <-.
  apply list_elem_of_fmap. exists row. split; [|done]. f_equal. f_equal.
  rewrite list_filter_filter. apply list_filter_iff. intros e. naive_solver lia.
Qed.

Lemma with_events_rows (rows : list TxRow) evs txs t :
  with_events rows evs = Ok txs → t ∈ txs → ∃ row, row ∈ rows ∧ tx_height t = row_height row.
Proof.
  unfold with_events. destruct (head rows), (last rows); try (intros [= <-] ?%not_elem_of_nil; done).
  destruct (forallb _ _); [|done]. intros [= <-] (row & -> & Hrow)%list_elem_of_fmap. eauto.
Qed.

(** ** The transfers of an event *)
Lemma multi_send_height t m from l cts :
  multi_send (transfer t m from) l = Ok cts → Forall (λ c, ct_block_height c = tx_height t) cts.
Proof.
  assert (∀ n l cts, (length l <= n)%nat → multi_send (transfer t m from) l = Ok cts →
    Forall (λ c, ct_block_height c = tx_height t) cts) as H; [|by eapply H].
  clear l cts. induction n as [|n IH]; intros [|a [|b l]] cts Hn; simpl in *; try done;
    try (intros [= <-]; constructor); try lia.
  destruct (_ && _); [intros [= <-]; constructor|].
  intros (rest & Hrest & [= <-])%bind_Ok. constructor; [|by eapply IH; [|exact Hrest]; lia].
  unfold transfer. by destruct (extractAmount (attr_value b)).
Qed.

Lemma handle_tx_height t cts :
  handle_tx t = Ok cts → Forall (λ c, ct_block_height c = tx_height t) cts.
Proof.
  unfold handle_tx. intros (l & Hl & [= <-])%bind_Ok. apply mapR_Ok in Hl.
  apply Forall_concat. induction Hl as [|e cs evs l He _ IH]; constructor; [|done].
  unfold handle_event in He. destruct (tx_msg_index e); [|injection He as <-; constructor].
  destruct (negb _); [injection He as <-; constructor|].
  destruct (at_index _ _) as [m|]; [|done].
  destruct (_ && _); [injection He as <-; constructor|].
  destruct (is_single e); [|by eapply multi_send_height].
  destruct (attribute_value _ _); [|done]. injection He as <-. constructor; [|constructor]. unfold transfer. by destruct (extractAmount _).
Qed.

Lemma multi_send_pairs mk (pairs : list (string * string)) :
  multi_send mk (pairs ≫= λ p, [Attribute "recipient" (Some p.1); Attribute "amount" (Some p.2)])
  = Ok ((λ p, mk (Some p.1) (Some p.2)) <$> pairs).
Proof. induction pairs as [|p l IH]; [done|]. rewrite bind_cons. simpl. by rewrite IH. Qed.

Lemma pairs_length (pairs : list (string * string)) :
  length (pairs ≫= λ p, [Attribute "recipient" (Some p.1); Attribute "amount" (Some p.2)])
  = (2 * length pairs)%nat.
Proof. induction pairs as [|p l IH]; [done|]. rewrite bind_cons. simpl in *. lia. Qed.

Lemma pairs_not_single i ty (pairs : list (string * string)) :
  is_single {| tx_msg_index := i; ev_type := ty;
               attributes := pairs ≫= λ p, [Attribute "recipient" (Some p.1); Attribute "amount" (Some p.2)] |}
  = false.
Proof.
  unfold is_single, has_authz_index. simpl. rewrite pairs_length. apply orb_false_iff. split.
  - apply Nat.eqb_neq. lia.
  - apply andb_false_iff. right. apply bool_decide_eq_false.
    intros (a & Ha & (p & Hp & _)%list_elem_of_bind)%list_elem_of_fmap.
    repeat (apply elem_of_cons in Hp as [->|Hp]; [done|]). by apply not_elem_of_nil in Hp.
Qed.

(** ** Properties *)

(** C20: the coin transfer job.  A run that returns either has nothing to do or
    moves the checkpoint to the end of its range and appends the transfers of
    the transactions of the range, transaction by transaction; every stored
    transaction of the range is among them with all its events that have a
    message index, and every new row is at a height of the range. *)
Theorem coin_transfer_correct cfg d d' :
  jobHandleTxCoinTransfer cfg d = (d', Ok tt) →
  ∃ s e u, jobCheckpoint cfg HANDLE_COIN_TRANSFER (block_checkpoint d) = Ok (s, e, u) ∧
    (e <= s ∧ d' = d ∨
     s < e ∧ ∃ txs cts,
       Forall2 (λ t l, handle_tx t = Ok l) txs cts ∧
       coin_transfer d' = coin_transfer d ++ concat cts ∧
       Forall (λ c, s < ct_block_height c <= e) (concat cts) ∧
       (∀ row : TxRow, row ∈ transaction d → s < row_height row <= e →
          {| tx_id := row.1; tx_height := row_height row; tx_timestamp := row.2.1.2;
             messages := row.2.2;
             events := (filter (λ ev : Z * Event, ev.1 = row.1 ∧ tx_msg_index ev.2 ≠ None) (event d)).*2 |} ∈ txs) ∧
       block_checkpoint d' = <["handle:coin_transfer" := e]> (block_checkpoint d)).
Proof.
  intros Hrun. apply checkpoint_handler_cases in Hrun as [(-> & _ & s & e & u & Hj & Hs)|[(msg & [=] & _)|
    (s & e & u & w & d1 & d2 & Hj & Hs & Hp & Hw & -> & _)]]; exists s, e, u; (split; [done|]).
  { left. simpl in Hs. split; [lia|done]. }
  right. simpl in Hs. split; [lia|]. destruct (forallb row_fits w); cbn [negb] in Hw; [|done]. injection Hw as <-. inv_io Hp.
  injection Ha as <- <-. injection Ha0 as <- Hf. injection Ha1 as <- Hl. injection Hp as <- <-.
  rename a0 into txs, a1 into cts. apply mapR_Ok in Hl. exists txs, cts. split; [done|]. split; [done|].
  split; [|split].
  - apply Forall_concat. apply Forall_forall. intros l Hin.
    apply list_elem_of_lookup in Hin as [i Hi].
    destruct (Forall2_lookup_r _ _ _ _ _ Hl Hi) as (t & Ht & Hl').
    apply list_elem_of_lookup_2 in Ht.
    destruct (with_events_rows _ _ _ _ Hf Ht) as (row & Hrow & Hh).
    rewrite sortBy_perm, list_elem_of_filter in Hrow. destruct Hrow as [Hrow _].
    eapply Forall_impl; [by apply handle_tx_height|]. intros c. simpl. by rewrite Hh; intros ->.
  - intros row Hrow Hh. eapply with_events_spec; [apply sortBy_sorted|exact Hf|].
    rewrite sortBy_perm, list_elem_of_filter. tauto.
  - apply getCheckpoint_Ok in Hj as (_ & -> & _). done.
Qed.

(** Splitting an amount.  The text of a non-negative integer followed by a
    denomination that does not start with a digit is split there, and the
    amount is exact up to 2^53. *)
Theorem extractAmount_exact n denom :
  0 <= n <= 2 ^ 53 → starts_with_digit denom = false →
  extractAmount (Some (toString n +:+ denom)) = (Some n, denom).
Proof.
  intros Hn Hd. rewrite extractAmount_digits by (done || lia). by rewrite to_double_exact by lia.
Qed.

(** the limits of the splitting: an amount above 2^53 is rounded, of an
    amount in several coins only the first number is read and the rest ends up
    in the denomination, and a text without digits keeps its denomination
    although the documentation promises an empty one. *)
Theorem extractAmount_limits :
  extractAmount (Some "9007199254740993aevmos") = (Some 9007199254740992, "aevmos") ∧
  extractAmount (Some "10uaura,5uatom") = (Some 10, "uaura,5uatom") ∧
  extractAmount (Some "uaura") = (Some 0, "uaura") ∧
  extractAmount None = (Some 0, "").
Proof. by vm_compute. Qed.

(** A [MsgMultiSend].  Its transfer event lists recipients and amounts in
    pairs; every pair becomes one transfer from the spender of the [coin_spent]
    event of the same message. *)
Theorem multi_send_transfers t i m (pairs : list (string * string)) :
  at_index (messages t) i = Some m → msg_type m = MSG_MULTI_SEND →
  handle_event t {| tx_msg_index := Some i; ev_type := "transfer";
    attributes := pairs ≫= λ p, [Attribute "recipient" (Some p.1); Attribute "amount" (Some p.2)] |}
  = let spent := find (λ e, bool_decide (ev_type e = "coin_spent")
                            && bool_decide (tx_msg_index e = Some i)) (events t) in
    let from := spent ≫= λ e, getAttributeFrom (attributes e) "spender" in
    Ok ((λ p, transfer t m from (Some p.1) (Some p.2)) <$> pairs).
Proof.
  intros Hm Hty. unfold handle_event. cbn [tx_msg_index ev_type]. rewrite Hm, pairs_not_single, Hty.
  rewrite !bool_decide_true by done. apply multi_send_pairs.
Qed.

(** ** Witnesses *)
Definition demo_transfer (i : Z) : Event := {|
  tx_msg_index := Some i; ev_type := "transfer";
  attributes := [Attribute "recipient" (Some "bob"); Attribute "sender" (Some "alice");
                 Attribute "amount" (Some "25uaura")] |}.
Definition demo_spent : Event := {|
  tx_msg_index := Some 0; ev_type := "coin_spent";
  attributes := [Attribute "spender" (Some "alice"); Attribute "amount" (Some "12uaura")] |}.
Definition demo_multi : Event := {|
  tx_msg_index := Some 0; ev_type := "transfer";
  attributes := [Attribute "recipient" (Some "bob"); Attribute "amount" (Some "5uaura");
                 Attribute "recipient" (Some "carol"); Attribute "amount" (Some "7uaura")] |}.
Definition demo_tx : Tx := {|
  tx_id := 9; tx_height := 4860002; tx_timestamp := "t";
  messages := [{| msg_id := 5; msg_type := MSG_MULTI_SEND |}]; events := [demo_spent; demo_multi] |}.

Definition demo_db : Db := {|
  transaction := [(9, (4860002, "t", [{| msg_id := 5; msg_type := MSG_MULTI_SEND |}]));
                  (8, (4860001, "t", [{| msg_id := 4; msg_type := "/cosmos.bank.v1beta1.MsgSend" |}]))];
  event := [(8, demo_transfer 0); (9, demo_spent); (9, demo_multi)];
  coin_transfer := []; block_checkpoint := {[ "handle:transaction" := 4860010 ]} |}.

Definition demo_run : Db * res () := jobHandleTxCoinTransfer Config.json demo_db.

Lemma coin_transfer_correct_witness :
  ((λ c, (ct_to c, ct_amount c)) <$> coin_transfer demo_run.1
   = [("bob", Some 25); ("bob", Some 5); ("carol", Some 7)]) ∧
  ∃ s e u, jobCheckpoint Config.json HANDLE_COIN_TRANSFER (block_checkpoint demo_db) = Ok (s, e, u) ∧
    (e <= s ∨ s < e ∧ block_checkpoint demo_run.1 = <["handle:coin_transfer" := e]> (block_checkpoint demo_db)).
Proof.
  split; [vm_compute; reflexivity|].
  destruct (coin_transfer_correct Config.json demo_db demo_run.1)
    as (s & e & u & Hj & H); [vm_compute; reflexivity|].
  exists s, e, u. split; [exact Hj|].
  destruct H as [[H _]|(H & txs & cts & _ & _ & _ & _ & Hc)]; [left; exact H|right; exact (conj H Hc)].
Defined.

Lemma extractAmount_exact_witness :
  extractAmount (Some ("9007199254740992" +:+ "uaura")) = (Some 9007199254740992, "uaura").
Proof. apply (extractAmount_exact 9007199254740992 "uaura"); [lia|reflexivity]. Defined.

Lemma multi_send_transfers_witness :
  handle_event demo_tx demo_multi
  = Ok [transfer demo_tx {| msg_id := 5; msg_type := MSG_MULTI_SEND |} (Some "alice") (Some "bob") (Some "5uaura");
        transfer demo_tx {| msg_id := 5; msg_type := MSG_MULTI_SEND |} (Some "alice") (Some "carol") (Some "7uaura")].
Proof.
  apply (multi_send_transfers demo_tx 0 {| msg_id := 5; msg_type := MSG_MULTI_SEND |}
    [("bob", "5uaura"); ("carol", "7uaura")]); reflexivity.
Defined.

(** An amount in four tokens that came over IBC: all but the first number is
    the denomination, which the column refuses.  The run throws, and so does
    every later one over the range. *)
Definition ibc_coin (c : ascii) : string :=
  "5ibc/" +:+ String.string_of_list_ascii (repeat c 64).
Definition demo_many : Event := {|
  tx_msg_index := Some 0; ev_type := "transfer";
  attributes := [Attribute "recipient" (Some "bob"); Attribute "sender" (Some "alice");
                 Attribute "amount" (Some (String.concat "," (ibc_coin <$> ["A"; "B"; "C"; "D"]%char)))] |}.
Definition demo_many_db : Db := {|
  transaction := transaction demo_db; event := [(8, demo_many)];
  coin_transfer := []; block_checkpoint := block_checkpoint demo_db |}.

Example long_denomination_stops_job :
  jobHandleTxCoinTransfer Config.json demo_many_db = (demo_many_db, Throw too_long).
Proof. vm_compute. reflexivity. Qed.

(** A transfer event without a recipient stops the job as well; one without a
    sender is stored with an empty one. *)
Example recipient_required :
  handle_event demo_tx {| tx_msg_index := Some 0; ev_type := "transfer";
    attributes := [Attribute "sender" (Some "alice"); Attribute "amount" (Some "1uaura"); Attribute "x" None] |}
  = Throw to_required.
Proof. reflexivity. Qed.
