(* ===== verification/Feegrant.v ===== *)
(** * Fee grants

    [services/feegrant/feegrant.service.ts] turns the feegrant events of a
    range of blocks into rows of [feegrant] and [feegrant_history], and
    [services/feegrant/update_feegrant.service.ts] applies the histories that
    are not processed yet to the grants: their spend limit and status. *)
From S2P Require Import Prelude JsNum Checkpoint.

Inductive FEEGRANT_ACTION := CREATE | REVOKE | USE | USE_UP.
#[export] Instance FEEGRANT_ACTION_eq_dec : EqDecision FEEGRANT_ACTION.
Proof. solve_decision. Defined.

Module FEEGRANT_STATUS.
Definition AVAILABLE := "Available".
Definition USE_UP := "Use up".
Definition REVOKED := "Revoked".
Definition FAIL := "Fail".
End FEEGRANT_STATUS.

Definition BASIC_ALLOWANCE := "/cosmos.feegrant.v1beta1.BasicAllowance".
Definition PERIODIC_ALLOWANCE := "/cosmos.feegrant.v1beta1.PeriodicAllowance".

(** ** Data *)

(** The JSON of an allowance: the part a basic allowance has, the [basic] part
    of a periodic one and the [allowance] inside a restricted one. *)
Record BasicPart := {
  spend_limit : option (list (string * string));     (* amount, denom *)
  expiration : option string
}.
Inductive Allowance :=
| NoAllowance     (** [undefined] *)
| AllowanceOf (type_ : option string) (own : BasicPart) (basic : option BasicPart)
    (allowance : Allowance).

Record Feegrant := {
  fg_id : Z;
  fg_init_tx_id : option Z;
  fg_revoke_tx_id : option Z;
  fg_granter : option string;
  fg_grantee : option string;
  fg_type : string;
  fg_expiration : option string;
  fg_status : string;
  fg_spend_limit : option string;
  fg_denom : option string
}.

Record FeegrantHistory := {
  fh_id : Z;
  fh_tx_id : Z;
  fh_feegrant_id : option Z;
  fh_action : FEEGRANT_ACTION;
  fh_amount : option string;
  fh_granter : option string;
  fh_grantee : option string;
  fh_denom : option string;
  fh_processed : bool
}.

Inductive event_type := USE_FEEGRANT | SET_FEEGRANT | REVOKE_FEEGRANT.
#[export] Instance event_type_eq_dec : EqDecision event_type.
Proof. solve_decision. Defined.

(** A feegrant event with its transaction and the allowance of its message. *)
Record FeegrantEvent := {
  fe_type : event_type;
  fe_attributes : list attribute;
  fe_tx_id : Z;
  fe_height : Z;
  fe_fee : option (list (string * string));          (* amount, denom *)
  fe_tx_msg_index : option Z;
  fe_message : option Allowance
}.

(** ** Reading the events *)
Definition type_error : string := "TypeError: Cannot read properties of undefined".

Definition granter (e : FeegrantEvent) : option string := getAttributeFrom (fe_attributes e) "granter".
Definition grantee (e : FeegrantEvent) : option string := getAttributeFrom (fe_attributes e) "grantee".

Definition history (e : FeegrantEvent) (action : FEEGRANT_ACTION) (amount denom : option string)
  : FeegrantHistory :=
  {| fh_id := 0; fh_tx_id := fe_tx_id e; fh_feegrant_id := None; fh_action := action;
     fh_amount := amount; fh_granter := granter e; fh_grantee := grantee e; fh_denom := denom;
     fh_processed := false |}.

(** The first loop: every use of a grant pays the first coin of the fee. *)
Definition use_history (e : FeegrantEvent) : res (list FeegrantHistory) :=
  match fe_type e with
  | USE_FEEGRANT =>
      match fe_fee e with
      | Some ((amount, denom) :: _) => Ok [history e USE (Some amount) (Some denom)]
      | Some [] => Throw type_error
      | None => Throw ("Transaction " +:+ toString (fe_tx_id e) +:+ " not found fee")
      end
  | _ => Ok []
  end.

Record FeegrantInfo := {
  fi_type : string;
  fi_spend_limit : option string;
  fi_denom : option string;
  fi_expiration : option string
}.

Definition basic_info (ty : string) (b : option BasicPart) : FeegrantInfo :=
  let first : option (string * string) := (b ≫= spend_limit) ≫= head in
  {| fi_type := ty; fi_spend_limit := fst <$> first; fi_denom := snd <$> first;
     fi_expiration := s ← b ≫= expiration; if decide (s = "") then None else Some s |}.

(** The loop walks to the basic or periodic allowance inside. *)
Fixpoint getCreateFeegrantInfo (a : Allowance) : res FeegrantInfo :=
  match a with
  | NoAllowance => Throw type_error
  | AllowanceOf type_ own basic allowance =>
      if bool_decide (type_ = Some BASIC_ALLOWANCE) then Ok (basic_info BASIC_ALLOWANCE (Some own))
      else if bool_decide (type_ = Some PERIODIC_ALLOWANCE) then Ok (basic_info PERIODIC_ALLOWANCE basic)
      else getCreateFeegrantInfo allowance
  end.

(** The grants and the histories built so far. *)
Abbreviation Acc := (list Feegrant * list FeegrantHistory)%type.

Definition is_used_by (e : FeegrantEvent) (h : FeegrantHistory) : bool :=
  bool_decide (fh_action h = USE) && bool_decide (fh_tx_id h = fe_tx_id e)
  && bool_decide (fh_granter h = granter e) && bool_decide (fh_grantee h = grantee e).

Definition set_use_up (h : FeegrantHistory) : FeegrantHistory :=
  {| fh_id := fh_id h; fh_tx_id := fh_tx_id h; fh_feegrant_id := fh_feegrant_id h;
     fh_action := USE_UP; fh_amount := fh_amount h; fh_granter := fh_granter h;
     fh_grantee := fh_grantee h; fh_denom := fh_denom h; fh_processed := fh_processed h |}.

(** The second loop. *)
Definition set_or_revoke (acc : Acc) (e : FeegrantEvent) : res Acc :=
  let '(newFeegrants, newHistories) := acc in
  match fe_type e with
  | USE_FEEGRANT => Ok acc
  | SET_FEEGRANT =>
      match fe_message e with
      | None => Ok acc
      | Some message =>
          info ← getCreateFeegrantInfo message;
          Ok (newFeegrants ++
                [{| fg_id := 0; fg_init_tx_id := Some (fe_tx_id e); fg_revoke_tx_id := None;
                    fg_granter := granter e; fg_grantee := grantee e; fg_type := fi_type info;
                    fg_expiration := fi_expiration info; fg_status := FEEGRANT_STATUS.AVAILABLE;
                    fg_spend_limit := fi_spend_limit info; fg_denom := fi_denom info |}],
              newHistories ++ [history e CREATE (fi_spend_limit info) (fi_denom info)])
      end
  | REVOKE_FEEGRANT =>
      match fe_tx_msg_index e with
      | Some _ => Ok (newFeegrants, newHistories ++ [history e REVOKE None None])
      | None =>
          (* the grant was used up by the fee of this transaction *)
          match findIndex (is_used_by e) newHistories with
          | Some i => Ok (newFeegrants, alter set_use_up i newHistories)
          | None => Throw "TypeError: Cannot set properties of undefined (setting 'action')"
          end
      end
  end.

Definition getFeegrantEvents (feegrantEvents : list FeegrantEvent) : res Acc :=
  uses ← mapR use_history feegrantEvents;
  '(newFeegrants, newHistories) ← forEachM set_or_revoke ([], concat uses) feegrantEvents;
  Ok (newFeegrants, sortBy fh_tx_id newHistories).

(** ** Tables *)
Record Db := {
  events : list FeegrantEvent;
  feegrant : list Feegrant;
  next_feegrant_id : Z;
  feegrant_history : list FeegrantHistory;
  next_history_id : Z;
  block_checkpoint : gmap string Z
}.
#[export] Instance Db_checkpoints : HasCheckpoints Db := block_checkpoint.
#[export] Program Instance Db_set_checkpoints : SetCheckpoints Db := {|
  set_checkpoints c d :=
    {| events := events d; feegrant := feegrant d; next_feegrant_id := next_feegrant_id d;
       feegrant_history := feegrant_history d; next_history_id := next_history_id d;
       block_checkpoint := c |} |}.
Next Obligation. done. Qed.

Definition set_grant_id (id : Z) (g : Feegrant) : Feegrant :=
  {| fg_id := id; fg_init_tx_id := fg_init_tx_id g; fg_revoke_tx_id := fg_revoke_tx_id g;
     fg_granter := fg_granter g; fg_grantee := fg_grantee g; fg_type := fg_type g;
     fg_expiration := fg_expiration g; fg_status := fg_status g;
     fg_spend_limit := fg_spend_limit g; fg_denom := fg_denom g |}.
Definition set_history_id (id : Z) (h : FeegrantHistory) : FeegrantHistory :=
  {| fh_id := id; fh_tx_id := fh_tx_id h; fh_feegrant_id := fh_feegrant_id h;
     fh_action := fh_action h; fh_amount := fh_amount h; fh_granter := fh_granter h;
     fh_grantee := fh_grantee h; fh_denom := fh_denom h; fh_processed := fh_processed h |}.

(** The rows get the next ids of the sequence. *)
Definition number {A} (set_id : Z → A → A) (id : Z) (l : list A) : list A :=
  imap (λ i x, set_id (id + Z.of_nat i) x) l.

Definition insertFeegrants (acc : Acc) (d : Db) : Db :=
  {| events := events d;
     feegrant := feegrant d ++ number set_grant_id (next_feegrant_id d) acc.1;
     next_feegrant_id := next_feegrant_id d + Z.of_nat (length acc.1);
     feegrant_history := feegrant_history d ++ number set_history_id (next_history_id d) acc.2;
     next_history_id := next_history_id d + Z.of_nat (length acc.2);
     block_checkpoint := block_checkpoint d |}.

Definition jobHandler (cfg : Config.t) : io Db () :=
  checkpoint_handler cfg HANDLE_FEEGRANT
    (λ startBlock endBlock,
      feegrantEvents ← query (λ d,
        filter (λ e, startBlock < fe_height e ∧ fe_height e <= endBlock) (events d));
      lift (getFeegrantEvents feegrantEvents))
    (λ _ _ acc d, Ok (insertFeegrants acc d)).

#[export] Instance jobHandler_job cfg : CheckpointJob cfg HANDLE_FEEGRANT (jobHandler cfg).
Proof.
  apply checkpoint_handler_job. constructor; [auto with frames|]. by intros s e w d d' [= <-].
Qed.

(** ** Applying the histories *)

(** The last grant, with the greatest [init_tx_id] up to the transaction of the
    history, among the available grants of the pair. *)
Definition suspicious (h : FeegrantHistory) (originals : list Feegrant) : list Feegrant :=
  filter (λ x, fg_grantee x = fh_grantee h ∧ fg_granter x = fh_granter h ∧
               default 0 (fg_init_tx_id x) <= fh_tx_id h) originals.

Definition later (prev current : Feegrant) : Feegrant :=
  if default 0 (fg_init_tx_id current) <? default 0 (fg_init_tx_id prev) then prev else current.

Definition originalFeegrant (h : FeegrantHistory) (originals : list Feegrant) : option Feegrant :=
  match suspicious h originals with
  | [] => None
  | x :: l => Some (foldl later x l)
  end.

Definition set_feegrant_id (o : option Z) (h : FeegrantHistory) : FeegrantHistory :=
  {| fh_id := fh_id h; fh_tx_id := fh_tx_id h;
     fh_feegrant_id := match o with Some _ => o | None => fh_feegrant_id h end;
     fh_action := fh_action h; fh_amount := fh_amount h; fh_granter := fh_granter h;
     fh_grantee := fh_grantee h; fh_denom := fh_denom h; fh_processed := true |}.

(** The patch of a history: [processed], and the grant when there is one. *)
Definition processed_history (originals : list Feegrant) (h : FeegrantHistory) : FeegrantHistory :=
  set_feegrant_id (fg_id <$> originalFeegrant h originals) h.

(** ** [updateFeegrant] *)

(** What is to be changed of a grant; the amount is kept as a number, the code
    prints it and reads it back. *)
Record IUpdateFeegrant := { iu_amount : Z; iu_status : string }.

Definition init_update (m : gmap Z IUpdateFeegrant) (h : FeegrantHistory) : gmap Z IUpdateFeegrant :=
  if bool_decide (fh_action h = CREATE) then m
  else match fh_feegrant_id h with
       | Some id => <[id := {| iu_amount := 0; iu_status := FEEGRANT_STATUS.AVAILABLE |}]> m
       | None => m
       end.

(** The amount of a use; a missing or empty one throws. *)
Definition used_amount (h : FeegrantHistory) (msg : string) : res Z :=
  match fh_amount h with
  | Some s => if decide (s = "") then Throw msg else BigInt s
  | None => Throw msg
  end.

Definition apply_history (m : gmap Z IUpdateFeegrant) (h : FeegrantHistory)
  : res (gmap Z IUpdateFeegrant) :=
  match fh_action h with
  | CREATE => Ok m
  | action =>
      match fh_feegrant_id h with
      | None => Throw "not found in mapUpdate"
      | Some id =>
          match m !! id with
          | None => Throw (toString id +:+ " not found in mapUpdate")
          | Some current =>
              match action with
              | USE => a ← used_amount h "Use feegrant but not found fee";
                  Ok (<[id := {| iu_amount := iu_amount current + a; iu_status := iu_status current |}]> m)
              | REVOKE =>
                  Ok (<[id := {| iu_amount := iu_amount current; iu_status := FEEGRANT_STATUS.REVOKED |}]> m)
              | _ => a ← used_amount h "Use up feegrant but not found fee";
                  Ok (<[id := {| iu_amount := iu_amount current + a; iu_status := FEEGRANT_STATUS.USE_UP |}]> m)
              end
          end
      end
  end.

Definition listRevoke (hs : list FeegrantHistory) : list FeegrantHistory :=
  filter (λ h, fh_action h = REVOKE ∨ fh_action h = USE_UP) hs.

Definition set_limit_status (limit : option string) (status : string) (g : Feegrant) : Feegrant :=
  {| fg_id := fg_id g; fg_init_tx_id := fg_init_tx_id g; fg_revoke_tx_id := fg_revoke_tx_id g;
     fg_granter := fg_granter g; fg_grantee := fg_grantee g; fg_type := fg_type g;
     fg_expiration := fg_expiration g; fg_status := status; fg_spend_limit := limit;
     fg_denom := fg_denom g |}.
Definition set_revoke_tx (tx : Z) (g : Feegrant) : Feegrant :=
  {| fg_id := fg_id g; fg_init_tx_id := fg_init_tx_id g; fg_revoke_tx_id := Some tx;
     fg_granter := fg_granter g; fg_grantee := fg_grantee g; fg_type := fg_type g;
     fg_expiration := fg_expiration g; fg_status := fg_status g; fg_spend_limit := fg_spend_limit g;
     fg_denom := fg_denom g |}.

(** The patch of spend limit and status of a grant. *)
Definition update_grant (m : gmap Z IUpdateFeegrant) (g : Feegrant) : res Feegrant :=
  match m !! fg_id g with
  | None => Ok g
  | Some u =>
      if truthy_str (fg_spend_limit g) then
        old ← BigInt_opt (fg_spend_limit g);
        Ok (set_limit_status (Some (toString (old - iu_amount u))) (iu_status u) g)
      else Ok (set_limit_status (fg_spend_limit g) (iu_status u) g)
  end.

Definition revoke_grant (gs : list Feegrant) (h : FeegrantHistory) : list Feegrant :=
  (λ g, if bool_decide (fh_feegrant_id h = Some (fg_id g)) then set_revoke_tx (fh_tx_id h) g else g) <$> gs.

Definition updateFeegrant (hs : list FeegrantHistory) (gs : list Feegrant) : res (list Feegrant) :=
  m ← forEachM apply_history (foldl init_update ∅ hs) hs;
  gs ← mapR (update_grant m) gs;
  Ok (foldl revoke_grant gs (listRevoke hs)).

(** ** The job *)
Definition unprocessed (limit : nat) (d : Db) : list FeegrantHistory :=
  take limit (filter (λ h, fh_processed h = false) (feegrant_history d)).

Definition originals_of (hs : list FeegrantHistory) (d : Db) : list Feegrant :=
  filter (λ g, (fg_granter g, fg_grantee g) ∈ (λ h, (fh_granter h, fh_grantee h)) <$> hs ∧
               fg_status g = FEEGRANT_STATUS.AVAILABLE) (feegrant d).

(** [.where({ id }).patch(...)] for the histories of the batch. *)
Definition patch_histories (patched : list FeegrantHistory) (l : list FeegrantHistory)
  : list FeegrantHistory :=
  (λ h, default h (find (λ p, fh_id p =? fh_id h) patched)) <$> l.

Definition updateJobHandler (limitPerCall : nat) : io Db () :=
  hs ← query (unprocessed limitPerCall);
  if bool_decide (hs = []) then mret () else
  originalFeegrants ← query (originals_of hs);
  commit (λ d,
    let patched := processed_history originalFeegrants <$> hs in
    gs ← updateFeegrant (filter (λ h, is_Some (originalFeegrant h originalFeegrants)) patched) (feegrant d);
    Ok {| events := events d; feegrant := gs; next_feegrant_id := next_feegrant_id d;
          feegrant_history := patch_histories patched (feegrant_history d);
          next_history_id := next_history_id d; block_checkpoint := block_checkpoint d |}).

(** ** What a batch does to a grant *)

(** The histories of the batch about the grant, creations apart. *)
Definition about (id : Z) (hs : list FeegrantHistory) : list FeegrantHistory :=
  filter (λ h, fh_action h ≠ CREATE ∧ fh_feegrant_id h = Some id) hs.

Definition used (h : FeegrantHistory) : Z :=
  match fh_action h with
  | USE | USE_UP => match BigInt_opt (fh_amount h) with Ok z => z | Throw _ => 0 end
  | _ => 0
  end.

Definition status_step (s : string) (h : FeegrantHistory) : string :=
  match fh_action h with
  | REVOKE => FEEGRANT_STATUS.REVOKED
  | USE_UP => FEEGRANT_STATUS.USE_UP
  | _ => s
  end.

Definition status_after (hs : list FeegrantHistory) : string :=
  foldl status_step FEEGRANT_STATUS.AVAILABLE hs.

Lemma init_lookup hs id :
  foldl init_update ∅ hs !! id =
    match about id hs with
    | [] => None
    | _ => Some {| iu_amount := 0; iu_status := FEEGRANT_STATUS.AVAILABLE |}
    end.
Proof.
  unfold about. induction hs as [|h hs IH] using rev_ind; [done|].
  rewrite foldl_app, filter_app. simpl. unfold init_update at 1.
  case_bool_decide as Hc.
  - rewrite (filter_none _ [h]); [by rewrite app_nil_r|].
    intros x ->%list_elem_of_singleton [? _]. done.
  - destruct (fh_feegrant_id h) as [i|] eqn:Hi; rewrite filter_cons.
    + rewrite lookup_insert. destruct (decide (i = id)) as [->|Hne].
      * rewrite decide_True by done. by destruct (filter _ hs).
      * rewrite decide_False by naive_solver. by rewrite app_nil_r.
    + rewrite decide_False by naive_solver. by rewrite app_nil_r.
Qed.

Lemma used_amount_Ok h msg a : used_amount h msg = Ok a → BigInt_opt (fh_amount h) = Ok a.
Proof. unfold used_amount. destruct (fh_amount h); [|done]. by case_decide. Qed.

Lemma apply_history_lookup m h m' id :
  apply_history m h = Ok m' →
  m' !! id = if decide (fh_action h ≠ CREATE ∧ fh_feegrant_id h = Some id)
             then (λ u, {| iu_amount := iu_amount u + used h;
                           iu_status := status_step (iu_status u) h |}) <$> m !! id
             else m !! id.
Proof.
  unfold apply_history, used, status_step. destruct (fh_action h) eqn:Ha;
    [intros [= <-]; by rewrite decide_False by naive_solver|..];
    (destruct (fh_feegrant_id h) as [i|]; [|done]);
    (destruct (m !! i) as [u|] eqn:Hu; [|done]);
    try (intros (a & Ham%used_amount_Ok & [= <-])%bind_Ok; rewrite Ham);
    try (intros [= <-]); rewrite lookup_insert; (case_decide as Hi; [subst i|]);
    try (rewrite decide_True by done; rewrite Hu; simpl; try rewrite Z.add_0_r; done);
    rewrite decide_False by naive_solver; done.
Qed.

Lemma apply_histories_lookup m hs m' id :
  forEachM apply_history m hs = Ok m' →
  m' !! id = (λ u, {| iu_amount := iu_amount u + sum_of used (about id hs);
                      iu_status := foldl status_step (iu_status u) (about id hs) |}) <$> m !! id.
Proof.
  revert m. induction hs as [|h hs IH]; intros m; simpl.
  { intros [= <-]. destruct (m !! id) as [[a s]|]; [|done]. simpl. by rewrite Z.add_0_r. }
  intros (m1 & H1 & H2)%bind_Ok. rewrite (IH _ H2), (apply_history_lookup _ _ _ id H1).
  unfold about. rewrite filter_cons. case_decide; [|done].
  destruct (m !! id) as [[a s]|]; [|done]. simpl. do 2 f_equal. lia.
Qed.

Definition batch_update (id : Z) (hs : list FeegrantHistory) : option IUpdateFeegrant :=
  match about id hs with
  | [] => None
  | l => Some {| iu_amount := sum_of used l; iu_status := status_after l |}
  end.

Lemma batch_lookup hs m id :
  forEachM apply_history (foldl init_update ∅ hs) hs = Ok m → m !! id = batch_update id hs.
Proof.
  intros H. rewrite (apply_histories_lookup _ _ _ id H), init_lookup.
  unfold batch_update. by destruct (about id hs).
Qed.

(** [g'] is [g] after the batch, the transaction of the revocation apart. *)
Definition updated (hs : list FeegrantHistory) (g g' : Feegrant) : Prop :=
  fg_id g' = fg_id g ∧
  match about (fg_id g) hs with
  | [] => fg_status g' = fg_status g ∧ fg_spend_limit g' = fg_spend_limit g
  | l => fg_status g' = status_after l ∧
         (truthy_str (fg_spend_limit g) = false → fg_spend_limit g' = fg_spend_limit g) ∧
         (truthy_str (fg_spend_limit g) = true → ∃ old, BigInt_opt (fg_spend_limit g) = Ok old ∧
            fg_spend_limit g' = Some (toString (old - sum_of used l)))
  end.

Lemma update_grant_updated hs m g g' :
  (∀ id, m !! id = batch_update id hs) → update_grant m g = Ok g' → updated hs g g'.
Proof.
  intros Hm. unfold update_grant. rewrite Hm. unfold updated, batch_update.
  destruct (about (fg_id g) hs) as [|h l]; [by intros [= <-]|].
  destruct (truthy_str (fg_spend_limit g)).
  - intros (old & Hold & [= <-])%bind_Ok. split; [done|]. split; [done|]. split; [done|]. eauto.
  - intros [= <-]. done.
Qed.

Definition same_grant (g g' : Feegrant) : Prop :=
  fg_id g' = fg_id g ∧ fg_status g' = fg_status g ∧ fg_spend_limit g' = fg_spend_limit g.

Lemma revokes_frame l gs : Forall2 same_grant gs (foldl revoke_grant gs l).
Proof.
  revert gs. induction l as [|h l IH]; intros gs; simpl.
  - apply Forall_Forall2_diag, Forall_forall. by intros g _.
  - eapply (Forall2_compose same_grant); [| |apply IH].
    + intros g1 g2 g3 (? & ? & ?) (? & ? & ?). split_and!; congruence.
    + unfold revoke_grant. apply Forall2_fmap_r, Forall_Forall2_diag, Forall_forall.
      intros g _. simpl. by case_bool_decide.
Qed.

Lemma updateFeegrant_updated hs gs gs' :
  updateFeegrant hs gs = Ok gs' → Forall2 (updated hs) gs gs'.
Proof.
  unfold updateFeegrant. intros (m & Hm & (gs1 & H1 & [= <-])%bind_Ok)%bind_Ok.
  apply mapR_Ok in H1. eapply Forall2_compose; [|exact H1|apply revokes_frame].
  intros g g1 g2 H (Hid & Hst & Hl). simpl in *.
  apply (update_grant_updated hs) in H; [|intros id; by apply batch_lookup].
  unfold updated in *. by rewrite Hid, Hst, Hl.
Qed.

(** ** Counting the rows *)
Definition num {A} (P : A → Prop) `{!∀ x, Decision (P x)} (l : list A) : nat := length (filter P l).

Lemma num_app {A} (P : A → Prop) `{!∀ x, Decision (P x)} (l k : list A) :
  num P (l ++ k) = (num P l + num P k)%nat.
Proof. unfold num. by rewrite filter_app, length_app. Qed.

Lemma num_cons {A} (P : A → Prop) `{!∀ x, Decision (P x)} (x : A) l :
  num P (x :: l) = ((if decide (P x) then 1 else 0) + num P l)%nat.
Proof. unfold num. rewrite filter_cons. by case_decide. Qed.

Definition is_use (e : FeegrantEvent) : Prop := fe_type e = USE_FEEGRANT.
Definition is_create (e : FeegrantEvent) : Prop := fe_type e = SET_FEEGRANT ∧ fe_message e ≠ None.
Definition is_revoke (e : FeegrantEvent) : Prop := fe_type e = REVOKE_FEEGRANT ∧ fe_tx_msg_index e ≠ None.
Definition is_use_up (e : FeegrantEvent) : Prop := fe_type e = REVOKE_FEEGRANT ∧ fe_tx_msg_index e = None.

#[export] Instance is_create_dec e : Decision (is_create e).
Proof.
  unfold is_create. destruct (fe_message e); [|right; naive_solver].
  destruct (decide (fe_type e = SET_FEEGRANT)); [by left|right; naive_solver].
Defined.
#[export] Instance is_use_dec e : Decision (is_use e).
Proof. unfold is_use. apply _. Defined.
#[export] Instance is_revoke_dec e : Decision (is_revoke e).
Proof. unfold is_revoke. apply _. Defined.
#[export] Instance is_use_up_dec e : Decision (is_use_up e).
Proof. unfold is_use_up. apply _. Defined.

Definition used_up (h : FeegrantHistory) : Prop := fh_action h = USE_UP.
#[export] Instance used_up_dec h : Decision (used_up h).
Proof. unfold used_up. apply _. Defined.

Lemma uses_count evs us :
  mapR use_history evs = Ok us →
  length (concat us) = num is_use evs ∧ num used_up (concat us) = 0%nat.
Proof.
  intros H. apply mapR_Ok in H. induction H as [|e u evs us Hu _ [IH1 IH2]]; [done|].
  simpl. rewrite length_app, num_app, num_cons, IH1, IH2. unfold use_history in Hu.
  destruct (fe_type e) eqn:Ht;
    [|injection Hu as <-; rewrite decide_False by (unfold is_use; congruence); done..].
  rewrite decide_True by done. destruct (fe_fee e) as [[|[a dn] l]|]; try done. by injection Hu as <-.
Qed.

Lemma alter_use_up e l i :
  findIndex (is_used_by e) l = Some i → num used_up (alter set_use_up i l) = S (num used_up l).
Proof.
  intros (h & Hi & Hu)%findIndex_Some. unfold is_used_by in Hu.
  repeat (apply andb_prop in Hu as [Hu _]). apply bool_decide_eq_true in Hu.
  rewrite <-(take_drop_middle l i h Hi) at 1.
  assert (length (take i l) = i) as Hlen.
  { apply length_take_le. apply lookup_lt_Some in Hi. lia. }
  rewrite alter_app_r_alt by lia. rewrite Hlen, Nat.sub_diag. simpl.
  rewrite <-(take_drop_middle l i h Hi) at 3.
  rewrite !num_app, !num_cons, decide_True, decide_False; [lia| |done].
  unfold used_up. by rewrite Hu.
Qed.

Lemma num_true {A} (P : A → Prop) `{!∀ x, Decision (P x)} (x : A) : P x → num P [x] = 1%nat.
Proof. intros Hx. rewrite num_cons. by rewrite decide_True. Qed.

Lemma num_false {A} (P : A → Prop) `{!∀ x, Decision (P x)} (x : A) : ¬ P x → num P [x] = 0%nat.
Proof. intros Hx. rewrite num_cons. by rewrite decide_False. Qed.

Ltac kind := unfold is_create, is_revoke, is_use_up; intuition congruence.

(** Decide which kind of event [e] is, from its type. *)
Ltac event_kind e :=
  first [rewrite (@num_true _ is_create is_create_dec e) by kind | rewrite (@num_false _ is_create is_create_dec e) by kind];
  try first [rewrite (@num_true _ is_revoke is_revoke_dec e) by kind | rewrite (@num_false _ is_revoke is_revoke_dec e) by kind];
  first [rewrite (@num_true _ is_use_up is_use_up_dec e) by kind | rewrite (@num_false _ is_use_up is_use_up_dec e) by kind];
  simpl; lia.

Lemma set_or_revoke_count acc e acc' :
  set_or_revoke acc e = Ok acc' →
  length acc'.1 = (length acc.1 + num is_create [e])%nat ∧
  length acc'.2 = (length acc.2 + num is_create [e] + num is_revoke [e])%nat ∧
  num used_up acc'.2 = (num used_up acc.2 + num is_use_up [e])%nat.
Proof.
  destruct acc as [gs hs]. unfold set_or_revoke. destruct (fe_type e) eqn:Ht.
  - intros [= <-]. event_kind e.
  - destruct (fe_message e) as [m|] eqn:Hm.
    + intros (info & _ & [= <-])%bind_Ok. simpl. rewrite !length_app, num_app, (@num_false _ used_up used_up_dec (history e _ _ _)) by (by unfold used_up). event_kind e.
    + intros [= <-]. event_kind e.
  - destruct (fe_tx_msg_index e) as [i|] eqn:Hx.
    + intros [= <-]. simpl. rewrite length_app, num_app, (@num_false _ used_up used_up_dec (history e _ _ _)) by (by unfold used_up). event_kind e.
    + destruct (findIndex (is_used_by e) hs) as [i|] eqn:Hi; [|done]. intros [= <-]. simpl.
      rewrite length_alter, (alter_use_up e) by done. event_kind e.
Qed.

Lemma events_count acc evs acc' :
  forEachM set_or_revoke acc evs = Ok acc' →
  length acc'.1 = (length acc.1 + num is_create evs)%nat ∧
  length acc'.2 = (length acc.2 + num is_create evs + num is_revoke evs)%nat ∧
  num used_up acc'.2 = (num used_up acc.2 + num is_use_up evs)%nat.
Proof.
  revert acc. induction evs as [|e evs IH]; intros acc; simpl.
  { intros [= <-]. unfold num. simpl. lia. }
  intros (acc1 & H1 & H2)%bind_Ok. apply set_or_revoke_count in H1. apply IH in H2.
  change (e :: evs) with ([e] ++ evs). rewrite !num_app. lia.
Qed.

(** ** Each history is processed once *)
Lemma patch_other patched l :
  (∀ h, h ∈ l → fh_id h ∉ fh_id <$> patched) → patch_histories patched l = l.
Proof.
  intros H. unfold patch_histories. rewrite <-(list_fmap_id l) at 2. apply list_fmap_ext.
  intros i h Hi. apply list_elem_of_lookup_2 in Hi.
  destruct (find _ patched) as [p|] eqn:Hf; [|done].
  apply find_Some in Hf as [Hp Heq]. exfalso. apply (H h Hi). apply list_elem_of_fmap.
  exists p. split; [lia|done].
Qed.

Lemma patched_unprocessed patched l :
  Forall (λ h, fh_processed h = true) patched →
  filter (λ h, fh_processed h = false) (patch_histories patched l)
  = filter (λ h, fh_id h ∉ fh_id <$> patched) (filter (λ h, fh_processed h = false) l).
Proof.
  intros Hp. rewrite Forall_forall in Hp. induction l as [|h l IH]; [done|].
  unfold patch_histories in *. rewrite fmap_cons, !filter_cons, IH.
  destruct (find (λ p, fh_id p =? fh_id h) patched) as [p|] eqn:Hf; simpl.
  - apply find_Some in Hf as [Hin Heq]. rewrite decide_False by (by rewrite (Hp p Hin)).
    case_decide; [|done]. rewrite filter_cons, decide_False; [done|]. intros Hn. apply Hn.
    apply list_elem_of_fmap. exists p. split; [lia|done].
  - case_decide; [|done]. rewrite filter_cons, decide_True; [done|].
    intros (p & Heq & Hin)%list_elem_of_fmap.
    apply find_None in Hf. rewrite Forall_forall in Hf. specialize (Hf p Hin). simpl in Hf. lia.
Qed.

Lemma processed_ids originals (hs : list FeegrantHistory) :
  fh_id <$> (processed_history originals <$> hs) = fh_id <$> hs.
Proof. rewrite <-list_fmap_compose. by apply list_fmap_ext. Qed.

(** Ids are unique, so dropping the ids of a prefix drops the prefix. *)
Lemma filter_not_taken limit (un : list FeegrantHistory) :
  NoDup (fh_id <$> un) →
  filter (λ h, fh_id h ∉ fh_id <$> take limit un) un = drop limit un.
Proof.
  intros Hun. rewrite <-(take_drop limit un), fmap_app, NoDup_app in Hun.
  destruct Hun as (_ & Hdisj & _).
  transitivity (filter (λ h, fh_id h ∉ fh_id <$> take limit un) (take limit un ++ drop limit un));
    [by rewrite take_drop|].
  rewrite filter_app, (filter_none _ (take limit un)), (filter_all _ (drop limit un)); [done| |].
  - intros h Hh Hin. apply (Hdisj (fh_id h) Hin). apply list_elem_of_fmap. eauto.
  - intros h Hh Hn. apply Hn, list_elem_of_fmap. eauto.
Qed.

(** ** Properties *)

(** C19: what a batch of histories does to the grants.  When [updateFeegrant]
    returns, a grant without uses or revocations in the batch keeps its limit
    and status; any other gets the status of its last revocation or use-up
    (available without one), and its spend limit, if it has one, goes down by
    exactly the sum of the amounts used. *)
Theorem updateFeegrant_correct hs gs gs' :
  updateFeegrant hs gs = Ok gs' → Forall2 (updated hs) gs gs'.
Proof. apply updateFeegrant_updated. Qed.

(** One history per event.  From the events of a range, [getFeegrantEvents]
    builds one grant per creation and one history per use, creation and
    revocation by a message; every revocation without message index turns one
    use into a use-up; the histories are sorted by transaction. *)
Theorem feegrant_events_counted evs gs hs :
  getFeegrantEvents evs = Ok (gs, hs) →
  length gs = num is_create evs ∧
  length hs = (num is_use evs + num is_create evs + num is_revoke evs)%nat ∧
  num used_up hs = num is_use_up evs ∧
  Sorted (λ a b, fh_tx_id a <= fh_tx_id b) hs.
Proof.
  unfold getFeegrantEvents. intros (us & Hus & ([gs' hs'] & H & [= <- <-])%bind_Ok)%bind_Ok.
  destruct (uses_count _ _ Hus) as [Hu1 Hu2]. apply events_count in H as (H1 & H2 & H3). simpl in *.
  rewrite Hu1 in H2. rewrite Hu2 in H3. split; [done|].
  rewrite (Permutation_length (sortBy_perm fh_tx_id hs')). split; [done|].
  split; [|apply sortBy_sorted]. unfold num in *. by rewrite sortBy_perm.
Qed.

(** Every history is applied once.  A run of the update job that returns
    leaves unprocessed exactly the unprocessed histories after the first
    [limitPerCall] ones, in their order, so with no new histories the job ends
    up with none after finitely many runs. *)
Theorem update_job_processes limit d d' :
  NoDup (fh_id <$> feegrant_history d) →
  updateJobHandler limit d = (d', Ok tt) →
  filter (λ h, fh_processed h = false) (feegrant_history d')
  = drop limit (filter (λ h, fh_processed h = false) (feegrant_history d)).
Proof.
  intros Hnd. unfold updateJobHandler, query, commit, mbind, io_bind.
  set (un := filter (λ h, fh_processed h = false) (feegrant_history d)).
  change (unprocessed limit d) with (take limit un).
  assert (NoDup (fh_id <$> un)) as Hun.
  { eapply sublist_NoDup; [exact Hnd|]. apply fmap_sublist, sublist_filter. }
  case_bool_decide as Hhs.
  { intros [= <-]. fold un. rewrite <-(take_drop limit un) at 1. by rewrite Hhs. }
  destruct (updateFeegrant _ _) as [gs|]; [|done]. simpl. intros [= <-]. simpl.
  rewrite patched_unprocessed by (by apply Forall_fmap, Forall_forall). fold un.
  rewrite processed_ids. by apply filter_not_taken.
Qed.

(** ** Witnesses: grant 1 is used in one transaction and used up in the next. *)
Definition demo_grant : Feegrant := {|
  fg_id := 1; fg_init_tx_id := Some 5; fg_revoke_tx_id := None; fg_granter := Some "a";
  fg_grantee := Some "b"; fg_type := BASIC_ALLOWANCE; fg_expiration := None;
  fg_status := FEEGRANT_STATUS.AVAILABLE; fg_spend_limit := Some "100"; fg_denom := Some "uaura" |}.

Definition demo_event (ty : event_type) (tx : Z) (i : option Z) : FeegrantEvent := {|
  fe_type := ty; fe_attributes := [Attribute "granter" (Some "a"); Attribute "grantee" (Some "b")];
  fe_tx_id := tx; fe_height := 4860001; fe_fee := Some [("40", "uaura")]; fe_tx_msg_index := i;
  fe_message := None |}.
Definition demo_events : list FeegrantEvent :=
  [demo_event USE_FEEGRANT 9 None; demo_event USE_FEEGRANT 8 None; demo_event REVOKE_FEEGRANT 9 None].

Definition demo_db : Db := {|
  events := demo_events; feegrant := [demo_grant]; next_feegrant_id := 2; feegrant_history := [];
  next_history_id := 1; block_checkpoint := {[ "handle:transaction" := 4860050 ]} |}.
Definition demo_run : Db * res () := jobHandler Config.json demo_db.
Definition demo_run2 : Db * res () := updateJobHandler 10 demo_run.1.

Lemma feegrant_events_counted_witness :
  ∃ gs hs, getFeegrantEvents demo_events = Ok (gs, hs) ∧ length hs = 2%nat ∧ num used_up hs = 1%nat.
Proof.
  destruct (getFeegrantEvents demo_events) as [[gs hs]|msg] eqn:H; [|vm_compute in H; discriminate].
  exists gs, hs. split; [reflexivity|].
  destruct (feegrant_events_counted demo_events gs hs H) as (_ & H1 & H2 & _).
  rewrite H1, H2. vm_compute. split; reflexivity.
Defined.

Lemma update_job_processes_witness :
  (λ g, (fg_status g, fg_spend_limit g, fg_revoke_tx_id g)) <$> feegrant demo_run2.1
    = [("Use up", Some "20", Some 9)] ∧
  filter (λ h, fh_processed h = false) (feegrant_history demo_run2.1)
  = drop 10 (filter (λ h, fh_processed h = false) (feegrant_history demo_run.1)).
Proof.
  split; [vm_compute; reflexivity|].
  apply (update_job_processes 10 demo_run.1 demo_run2.1); [by_compute|vm_compute; reflexivity].
Defined.

Lemma updateFeegrant_correct_witness :
  ∃ gs', updateFeegrant (processed_history [demo_grant] <$> feegrant_history demo_run.1) [demo_grant] = Ok gs' ∧
    Forall2 (updated (processed_history [demo_grant] <$> feegrant_history demo_run.1)) [demo_grant] gs'.
Proof.
  destruct (updateFeegrant (processed_history [demo_grant] <$> feegrant_history demo_run.1) [demo_grant])
    as [gs'|msg] eqn:H; [|vm_compute in H; discriminate].
  exists gs'. split; [reflexivity|]. exact (updateFeegrant_correct _ _ _ H).
Defined.
