(* ===== verification/Votes.v ===== *)
(** * Authz messages and votes

    [services/crawl-tx/handle_authz_tx.service.ts] inserts the messages inside
    a [MsgExec] as messages of their own; [services/handle-vote/handle_vote_tx.service.ts]
    keeps the last vote of every voter on every proposal;
    [services/crawl-proposal/count_vote_proposal.service.ts] counts them. *)
From S2P Require Import Prelude Checkpoint.

(** ** Data *)

(** The JSON of a message: its type and the fields the jobs read. *)
#[warnings="-register-all"]
Inductive Content :=
| ContentOf (at_type : string) (voter : option string) (proposal_id : option Z)
    (option_ : option string) (msgs : list Content).

Definition c_type (c : Content) : string := let '(ContentOf ty _ _ _ _) := c in ty.
Definition c_voter (c : Content) : option string := let '(ContentOf _ v _ _ _) := c in v.
Definition c_proposal_id (c : Content) : option Z := let '(ContentOf _ _ p _ _) := c in p.
Definition c_option (c : Content) : option string := let '(ContentOf _ _ _ o _) := c in o.
Definition c_msgs (c : Content) : list Content := let '(ContentOf _ _ _ _ l) := c in l.

Record Transaction := {
  t_id : Z;
  t_index : Z;
  t_hash : string;
  t_height : Z;
  t_code : Z
}.

Record TransactionMessage := {
  m_id : Z;
  m_tx_id : Z;
  m_index : Z;
  m_type : string;
  m_sender : string;
  m_content : Content;
  m_parent_id : option Z
}.

Record Vote := {
  v_voter : string;
  v_txhash : string;
  v_vote_option : string;
  v_proposal_id : Z;
  v_height : Z;
  v_tx_id : Z
}.

Record ICountVote := { yes : nat; no : nat; abstain : nat; no_with_veto : nat; unspecified : nat }.

Record Proposal := {
  p_proposal_id : Z;
  p_status : string;
  p_voting_end_time : option Z;     (* in milliseconds *)
  p_count_vote : option ICountVote;
  p_vote_counted : bool
}.

Definition MSG_AUTHZ_EXEC := "/cosmos.authz.v1beta1.MsgExec".
Definition MSG_VOTE := "/cosmos.gov.v1beta1.MsgVote".
Definition MSG_VOTE_V1 := "/cosmos.gov.v1.MsgVote".

(** The tables; [vote] is unique in proposal and voter. *)
Record Db := {
  transaction : list Transaction;
  transaction_message : list TransactionMessage;
  next_message_id : Z;
  vote : gmap (Z * string) Vote;
  proposal : list Proposal;
  block : list (Z * Z);             (* height, time *)
  block_checkpoint : gmap string Z
}.
#[export] Instance Db_checkpoints : HasCheckpoints Db := block_checkpoint.
#[export] Program Instance Db_set_checkpoints : SetCheckpoints Db := {|
  set_checkpoints c d :=
    {| transaction := transaction d; transaction_message := transaction_message d;
       next_message_id := next_message_id d; vote := vote d; proposal := proposal d;
       block := block d; block_checkpoint := c |} |}.
Next Obligation. done. Qed.

(** [.joinRelated('transaction')] *)
Abbreviation Row := (Transaction * TransactionMessage)%type.
Definition joined (d : Db) : list Row :=
  transaction_message d ≫= λ m, (λ t, (t, m)) <$> filter (λ t, t_id t = m_tx_id m) (transaction d).

(** ** Authz *)

(** The messages of a range that are a [MsgExec] and are not in one. *)
Definition listTxMsgs (startBlock endBlock : Z) (d : Db) : list TransactionMessage :=
  (filter (λ r : Row, startBlock < t_height r.1 ∧ t_height r.1 <= endBlock ∧
                      m_type r.2 = MSG_AUTHZ_EXEC ∧ m_parent_id r.2 = None) (joined d)).*2.

Definition subTx (txMsg : TransactionMessage) : list TransactionMessage :=
  imap (λ index msg,
    {| m_id := 0; m_tx_id := m_tx_id txMsg; m_index := Z.of_nat index; m_type := c_type msg;
       m_sender := m_sender txMsg; m_content := msg; m_parent_id := Some (m_id txMsg) |})
    (c_msgs (m_content txMsg)).

Definition set_message_id (id : Z) (m : TransactionMessage) : TransactionMessage :=
  {| m_id := id; m_tx_id := m_tx_id m; m_index := m_index m; m_type := m_type m;
     m_sender := m_sender m; m_content := m_content m; m_parent_id := m_parent_id m |}.

(** The rows get the next ids of the sequence. *)
Definition insertMessages (l : list TransactionMessage) (d : Db) : Db :=
  {| transaction := transaction d;
     transaction_message :=
       transaction_message d ++ imap (λ i m, set_message_id (next_message_id d + Z.of_nat i) m) l;
     next_message_id := next_message_id d + Z.of_nat (length l);
     vote := vote d; proposal := proposal d; block := block d;
     block_checkpoint := block_checkpoint d |}.

Definition handleAuthz (cfg : Config.t) : io Db () :=
  checkpoint_handler cfg HANDLE_AUTHZ_TX
    (λ startBlock endBlock,
      txMsgs ← query (listTxMsgs startBlock endBlock); mret (txMsgs ≫= subTx))
    (λ _ _ listSubTxAuthz d, Ok (insertMessages listSubTxAuthz d)).

#[export] Instance handleAuthz_job cfg : CheckpointJob cfg HANDLE_AUTHZ_TX (handleAuthz cfg).
Proof.
  apply checkpoint_handler_job. constructor; [auto with frames|]. by intros s e w d d' [= <-].
Qed.

(** ** Votes *)
Definition is_vote (s e : Z) (r : Row) : Prop :=
  s < t_height r.1 ∧ t_height r.1 <= e ∧ m_type r.2 ∈ [MSG_VOTE; MSG_VOTE_V1] ∧ t_code r.1 = 0.
#[export] Instance is_vote_dec s e r : Decision (is_vote s e r).
Proof. unfold is_vote. apply _. Defined.

(** Ordered by height, then by the index of the message in its transaction. *)
Definition txMsgs (startBlock endBlock : Z) (d : Db) : list Row :=
  sortBy (λ r, t_height r.1) (sortBy (λ r, m_index r.2) (filter (is_vote startBlock endBlock) (joined d))).

(** [Vote.fromJson]: voter, option and proposal are required. *)
Definition vote_of (r : Row) : res Vote :=
  let '(txn, txMsg) := r in
  let content := m_content txMsg in
  match c_voter content, c_proposal_id content, c_option content with
  | Some voter, Some proposal_id, Some option_ =>
      Ok {| v_voter := voter; v_txhash := t_hash txn; v_vote_option := option_;
            v_proposal_id := proposal_id; v_height := t_height txn; v_tx_id := m_tx_id txMsg |}
  | _, _, _ => Throw "ValidationError"
  end.

Definition vote_key (v : Vote) : Z * string := (v_proposal_id v, v_voter v).

(** [.onConflict(['proposal_id', 'voter']).merge(...).where('vote.height', '<=', vote.height)] *)
Definition insert_vote (votes : gmap (Z * string) Vote) (v : Vote) : gmap (Z * string) Vote :=
  match votes !! vote_key v with
  | Some old => if v_height old <=? v_height v then <[vote_key v := v]> votes else votes
  | None => <[vote_key v := v]> votes
  end.

Definition set_votes (votes : gmap (Z * string) Vote) (d : Db) : Db :=
  {| transaction := transaction d; transaction_message := transaction_message d;
     next_message_id := next_message_id d; vote := votes; proposal := proposal d;
     block := block d; block_checkpoint := block_checkpoint d |}.

Definition handleVote (cfg : Config.t) : io Db () :=
  checkpoint_handler cfg HANDLE_VOTE_TX
    (λ startBlock endBlock,
      l ← query (txMsgs startBlock endBlock); lift (mapR vote_of l))
    (λ _ _ votesInsert d, Ok (set_votes (foldl insert_vote (vote d) votesInsert) d)).

#[export] Instance handleVote_job cfg : CheckpointJob cfg HANDLE_VOTE_TX (handleVote cfg).
Proof.
  apply checkpoint_handler_job. constructor; [auto with frames|]. by intros s e w d d' [= <-].
Qed.

(** ** Counting *)
Module VOTE_OPTION.
Definition UNSPECIFIED := "VOTE_OPTION_UNSPECIFIED".
Definition YES := "VOTE_OPTION_YES".
Definition ABSTAIN := "VOTE_OPTION_ABSTAIN".
Definition NO := "VOTE_OPTION_NO".
Definition NO_WITH_VETO := "VOTE_OPTION_NO_WITH_VETO".
Definition all : list string := [YES; NO; NO_WITH_VETO; ABSTAIN; UNSPECIFIED].
End VOTE_OPTION.

Definition VOTING_PERIOD := "PROPOSAL_STATUS_VOTING_PERIOD".
Definition ended_status : list string :=
  ["PROPOSAL_STATUS_FAILED"; "PROPOSAL_STATUS_PASSED"; "PROPOSAL_STATUS_REJECTED"].

(** The time of the block the vote job has reached, or 10 ms ago. *)
Definition latestCheckpointTime (now : Z) (d : Db) : Z :=
  match filter (λ b : Z * Z, block_checkpoint d !! "handle:vote-tx" = Some b.1) (block d) with
  | (_, time) :: _ => time
  | [] => now - 10
  end.

(** A missing end time is not compared by the database. *)
Definition is_counted (latest : Z) (p : Proposal) : bool :=
  bool_decide (p_status p = VOTING_PERIOD)
  || bool_decide (p_status p ∈ ended_status)
     && match p_voting_end_time p with Some t => t <=? latest | None => false end
     && negb (p_vote_counted p).

Definition votes_for (proposalId : Z) (option_ : string) (votes : gmap (Z * string) Vote) : nat :=
  length (filter (λ v, v_proposal_id v = proposalId ∧ v_vote_option v = option_) (map_to_list votes).*2).

(** [new Date(null)] is the epoch. *)
Definition count_proposal (latest : Z) (votes : gmap (Z * string) Vote) (p : Proposal) : Proposal :=
  let n option_ := votes_for (p_proposal_id p) option_ votes in
  {| p_proposal_id := p_proposal_id p; p_status := p_status p;
     p_voting_end_time := p_voting_end_time p;
     p_count_vote := Some {| yes := n VOTE_OPTION.YES; no := n VOTE_OPTION.NO;
       abstain := n VOTE_OPTION.ABSTAIN; no_with_veto := n VOTE_OPTION.NO_WITH_VETO;
       unspecified := n VOTE_OPTION.UNSPECIFIED |};
     p_vote_counted := default 0 (p_voting_end_time p) <=? latest |}.

(** [proposal_id] is the primary key, so every patch changes one row. *)
Definition countVote (now : Z) : io Db () :=
  latest ← query (latestCheckpointTime now);
  commit (λ d, Ok
    {| transaction := transaction d; transaction_message := transaction_message d;
       next_message_id := next_message_id d; vote := vote d;
       proposal := (λ p, if is_counted latest p then count_proposal latest (vote d) p else p) <$> proposal d;
       block := block d; block_checkpoint := block_checkpoint d |}).

(** ** The last vote *)

(** The vote the table should hold for a key, of the votes in order. *)
Definition latest (k : Z * string) (l : list Vote) : option Vote :=
  last (filter (λ v, vote_key v = k) l).

Lemma latest_snoc k l v :
  latest k (l ++ [v]) = if decide (vote_key v = k) then Some v else latest k l.
Proof.
  unfold latest. rewrite filter_app, filter_cons, filter_nil. case_decide; [by rewrite last_snoc|].
  by rewrite app_nil_r.
Qed.

Lemma latest_app k l1 l2 :
  latest k (l1 ++ l2) = match latest k l2 with Some v => Some v | None => latest k l1 end.
Proof.
  induction l2 as [|v l2 IH] using rev_ind; [by rewrite app_nil_r|].
  rewrite app_assoc, !latest_snoc, IH. by case_decide.
Qed.

Lemma latest_elem k l v : latest k l = Some v → v ∈ l ∧ vote_key v = k.
Proof. intros H%last_Some_elem_of. apply list_elem_of_filter in H. tauto. Qed.

(** Votes that come in the order of their heights, above those in the table,
    all replace what they find. *)
Lemma insert_votes_latest m l k :
  Sorted (λ a b, v_height a <= v_height b) l →
  (∀ k' old w, m !! k' = Some old → w ∈ l → v_height old <= v_height w) →
  foldl insert_vote m l !! k = match latest k l with Some v => Some v | None => m !! k end.
Proof.
  intros Hs%Sorted_StronglySorted; [|intros ? ? ?; lia]. revert k.
  induction l as [|v l IH] using rev_ind; intros k Hm; [done|].
  apply StronglySorted_app in Hs as (Hall & Hl & _).
  assert (∀ k', foldl insert_vote m l !! k' = match latest k' l with Some v => Some v | None => m !! k' end)
    as IH' by (intros k'; apply IH; [done|set_solver]).
  rewrite foldl_app, latest_snoc. simpl. unfold insert_vote at 1. rewrite IH'.
  assert (<[vote_key v := v]> (foldl insert_vote m l) !! k
    = match (if decide (vote_key v = k) then Some v else latest k l) with Some w => Some w | None => m !! k end)
    as Hins.
  { rewrite lookup_insert. case_decide; [done|]. apply IH'. }
  destruct (latest (vote_key v) l) as [old|] eqn:Hlat.
  - apply latest_elem in Hlat as [Hin _].
    specialize (Hall old v Hin). rewrite (proj2 (Z.leb_le _ _)) by (apply Hall; set_solver). done.
  - destruct (m !! vote_key v) as [old|] eqn:Hold; [|done].
    rewrite (proj2 (Z.leb_le _ _)) by (eapply Hm; [done|set_solver]). done.
Qed.

Lemma vote_of_height r v : vote_of r = Ok v → v_height v = t_height r.1.
Proof.
  destruct r as [t m]. unfold vote_of.
  destruct (c_voter (m_content m)), (c_proposal_id (m_content m)), (c_option (m_content m)); try done.
  by intros [= <-].
Qed.

Lemma txMsgs_heights s e d l :
  mapR vote_of (txMsgs s e d) = Ok l →
  Sorted (λ a b, v_height a <= v_height b) l ∧ Forall (λ v, s < v_height v <= e) l.
Proof.
  intros Hl%mapR_Ok. split.
  - assert (Sorted (λ a b : Row, t_height a.1 <= t_height b.1) (txMsgs s e d)) as Hs
      by apply sortBy_sorted.
    induction Hl as [|r v rs vs Hr Hl IH]; [constructor|]. inversion Hs; subst.
    constructor; [by apply IH|]. destruct Hl as [|r' v' ? ? Hr' _]; constructor.
    apply vote_of_height in Hr, Hr'. rewrite Hr, Hr'. by inversion H2.
  - assert (∀ r, r ∈ txMsgs s e d → s < t_height r.1 <= e) as Hin.
    { intros r. unfold txMsgs. rewrite !sortBy_perm, list_elem_of_filter. unfold is_vote. tauto. }
    induction Hl as [|r v rs vs Hr Hl IH]; constructor.
    + rewrite (vote_of_height _ _ Hr). apply Hin. by left.
    + apply IH. intros. apply Hin. by right.
Qed.

(** The votes of a range are those of its first part, then those of its second. *)
Lemma txMsgs_split s0 s e d :
  s0 <= s <= e → txMsgs s0 e d = txMsgs s0 s d ++ txMsgs s e d.
Proof.
  intros Hse. rewrite (sorted_split (λ r : Row, t_height r.1) s (txMsgs s0 e d)) by apply sortBy_sorted.
  unfold txMsgs. rewrite !sortBy_filter, !list_filter_filter.
  f_equal; do 2 f_equal; apply list_filter_iff; intros r; unfold is_vote; naive_solver lia.
Qed.

(** The table holds the last vote of every voter on every proposal, among the
    votes of the blocks (s0, s]. *)
Definition Latest (s0 s : Z) (d : Db) : Prop :=
  ∃ l, mapR vote_of (txMsgs s0 s d) = Ok l ∧ ∀ k, vote d !! k = latest k l.

Lemma Latest_extend s0 s e d l :
  s0 <= s <= e → Latest s0 s d → mapR vote_of (txMsgs s e d) = Ok l →
  Latest s0 e (set_votes (foldl insert_vote (vote d) l) d).
Proof.
  intros Hse (l0 & Hl0 & Hv) Hl. exists (l0 ++ l). split.
  - change (txMsgs s0 e (set_votes _ d)) with (txMsgs s0 e d).
    rewrite (txMsgs_split s0 s e) by done. rewrite mapR_app, Hl0. simpl. by rewrite Hl.
  - intros k. destruct (txMsgs_heights _ _ _ _ Hl) as [Hs Hh]. simpl.
    rewrite insert_votes_latest, latest_app, Hv; [done|done|].
    intros k' old w Hold Hw. rewrite Hv in Hold. apply latest_elem in Hold as [Hold _].
    destruct (txMsgs_heights _ _ _ _ Hl0) as [_ Hh0].
    rewrite Forall_forall in Hh, Hh0. specialize (Hh w Hw). specialize (Hh0 old Hold). lia.
Qed.

(** ** Runs

    The vote job runs, and the other jobs add transactions and messages above
    its checkpoint. *)
Definition voted_up_to (cfg : Config.t) (d : Db) : Z :=
  default (Config.startBlock cfg) (block_checkpoint d !! "handle:vote-tx").

Inductive step (cfg : Config.t) : Db → Db → Prop :=
| step_vote d : step cfg d (handleVote cfg d).1
| step_other d d' :
    vote d' = vote d →
    block_checkpoint d' !! "handle:vote-tx" = block_checkpoint d !! "handle:vote-tx" →
    filter (λ r : Row, t_height r.1 <= voted_up_to cfg d) (joined d')
    = filter (λ r : Row, t_height r.1 <= voted_up_to cfg d) (joined d) →
    step cfg d d'.

Lemma txMsgs_joined s0 s d d' :
  filter (λ r : Row, t_height r.1 <= s) (joined d') = filter (λ r : Row, t_height r.1 <= s) (joined d) →
  txMsgs s0 s d' = txMsgs s0 s d.
Proof.
  intros H. unfold txMsgs. do 2 f_equal.
  transitivity (filter (is_vote s0 s) (filter (λ r : Row, t_height r.1 <= s) (joined d')));
    [|rewrite H]; rewrite list_filter_filter; apply list_filter_iff; intros r; unfold is_vote; tauto.
Qed.

Lemma handleVote_Latest cfg s0 d :
  s0 <= voted_up_to cfg d → Latest s0 (voted_up_to cfg d) d →
  s0 <= voted_up_to cfg (handleVote cfg d).1 ∧
  Latest s0 (voted_up_to cfg (handleVote cfg d).1) (handleVote cfg d).1.
Proof.
  intros Hs0 Hlat. destruct (handleVote cfg d) as [d' o] eqn:Hrun. simpl.
  apply checkpoint_handler_cases in Hrun as [(-> & _)|[(msg & _ & [->|(s & e & ->)])|
    (s & e & u & l & d1 & d2 & Hj & Hs & Hp & [= <-] & -> & _)]]; try done.
  inv_io Hp. injection Ha as <- <-. injection Hp as <- Hl.
  apply getCheckpoint_Ok in Hj as (Hstart & -> & _). fold (voted_up_to cfg d) in Hstart. subst s.
  change (Z.ltb e (voted_up_to cfg d) = false) in Hs. assert (voted_up_to cfg d <= e) as He by lia.
  match goal with |- _ <= voted_up_to cfg ?D ∧ _ => assert (voted_up_to cfg D = e) as -> end.
  { unfold voted_up_to at 1, saveCheckpoint. simpl. by rewrite lookup_insert_eq. }
  split; [lia|].
  destruct (Latest_extend s0 (voted_up_to cfg d) e d l) as (l' & Hl' & Hv); [lia|done..|].
  exists l'. split; [exact Hl'|exact Hv].
Qed.

Lemma step_Latest cfg s0 d d' :
  step cfg d d' → s0 <= voted_up_to cfg d ∧ Latest s0 (voted_up_to cfg d) d →
  s0 <= voted_up_to cfg d' ∧ Latest s0 (voted_up_to cfg d') d'.
Proof.
  intros [d1|d1 d2 Hv Hc Hj] [Hs0 Hlat]; [by apply handleVote_Latest|].
  assert (voted_up_to cfg d2 = voted_up_to cfg d1) as -> by (unfold voted_up_to; by rewrite Hc).
  split; [done|]. destruct Hlat as (l & Hl & Hk). exists l.
  by rewrite (txMsgs_joined _ _ _ _ Hj), Hv.
Qed.

Lemma steps_Latest cfg s0 d d' :
  rtc (step cfg) d d' → s0 <= voted_up_to cfg d ∧ Latest s0 (voted_up_to cfg d) d →
  s0 <= voted_up_to cfg d' ∧ Latest s0 (voted_up_to cfg d') d'.
Proof. induction 1 as [|d1 d2 d3 Hstep _ IH]; [done|]. intros H. by eapply IH, step_Latest. Qed.

(** ** The messages inside a [MsgExec] *)

(** The contents of the messages whose parent is the message [id]. *)
Definition children (id : Z) (l : list TransactionMessage) : list Content :=
  m_content <$> filter (λ m, m_parent_id m = Some id) l.

Lemma children_app id l1 l2 : children id (l1 ++ l2) = children id l1 ++ children id l2.
Proof. unfold children. by rewrite filter_app, fmap_app. Qed.

Lemma children_imap id (f : nat → TransactionMessage → TransactionMessage) l :
  (∀ i m, m_parent_id (f i m) = m_parent_id m ∧ m_content (f i m) = m_content m) →
  children id (imap f l) = children id l.
Proof.
  unfold children. revert f. induction l as [|m l IH]; intros f Hf; [done|].
  rewrite imap_cons, !filter_cons. destruct (Hf 0%nat m) as [-> ?].
  specialize (IH (f ∘ S) (λ i, Hf (S i))). case_decide; [|done]. rewrite !fmap_cons. by f_equal.
Qed.

Lemma children_of_parent id parent (f : nat → Content → TransactionMessage) cs :
  (∀ i c, m_parent_id (f i c) = Some parent ∧ m_content (f i c) = c) →
  children id (imap f cs) = if decide (parent = id) then cs else [].
Proof.
  unfold children. revert f. induction cs as [|c cs IH]; intros f Hf; [by case_decide|].
  rewrite imap_cons, filter_cons. destruct (Hf 0%nat c) as [-> Hc].
  specialize (IH (f ∘ S) (λ i, Hf (S i))). case_decide as H1; case_decide as H2; try congruence.
  rewrite fmap_cons. by f_equal.
Qed.

Lemma children_subTx id l :
  children id (l ≫= subTx) = l ≫= λ m, if decide (m_id m = id) then c_msgs (m_content m) else [].
Proof.
  induction l as [|m l IH]; [done|]. rewrite !bind_cons, children_app, IH. f_equal.
  by apply children_of_parent.
Qed.

(** The one message with the id. *)
Lemma bind_by_id (l : list TransactionMessage) m :
  NoDup (m_id <$> l) → m ∈ l →
  (l ≫= λ x, if decide (m_id x = m_id m) then c_msgs (m_content x) else []) = c_msgs (m_content m).
Proof.
  induction l as [|x l IH]; intros Hnd Hm; [by apply not_elem_of_nil in Hm|].
  rewrite fmap_cons, NoDup_cons in Hnd. destruct Hnd as [Hx Hnd]. rewrite bind_cons.
  apply elem_of_cons in Hm as [->|Hm].
  - rewrite decide_True by done. replace (l ≫= _) with (@nil Content); [apply app_nil_r|].
    symmetry. clear IH Hnd. induction l as [|y l IH]; [done|]. rewrite bind_cons.
    rewrite fmap_cons, not_elem_of_cons in Hx. destruct Hx as [Hne Hx].
    rewrite decide_False by congruence. by apply IH.
  - rewrite decide_False; [by apply IH|]. intros Heq. apply Hx. rewrite Heq.
    by apply list_elem_of_fmap_2.
Qed.

Lemma bind_no_id (l : list TransactionMessage) id :
  (∀ x, x ∈ l → m_id x ≠ id) →
  (l ≫= λ x, if decide (m_id x = id) then c_msgs (m_content x) else []) = [].
Proof.
  induction l as [|x l IH]; intros Hl; [done|]. rewrite bind_cons, decide_False by (apply Hl; by left).
  apply IH. intros y Hy. apply Hl. by right.
Qed.

Lemma joined_elem d (r : Row) :
  r ∈ joined d ↔ r.1 ∈ transaction d ∧ r.2 ∈ transaction_message d ∧ t_id r.1 = m_tx_id r.2.
Proof.
  unfold joined. rewrite list_elem_of_bind. split.
  - intros (m & (t & -> & Ht)%list_elem_of_fmap & Hm). apply list_elem_of_filter in Ht as [? ?]. auto.
  - intros (Ht & Hm & Hid). exists (r.2). split; [|done]. apply list_elem_of_fmap. exists (r.1).
    destruct r. split; [done|]. by apply list_elem_of_filter.
Qed.

(** A message has one transaction. *)
Lemma joined_messages d :
  NoDup (t_id <$> transaction d) → (joined d).*2 `sublist_of` transaction_message d.
Proof.
  intros Hnd. unfold joined. induction (transaction_message d) as [|m l IH]; [constructor|].
  rewrite bind_cons, fmap_app.
  assert (length (filter (λ t, t_id t = m_tx_id m) (transaction d)) <= 1)%nat as Hlen.
  { clear IH. induction (transaction d) as [|t ts IH]; [simpl; lia|].
    rewrite fmap_cons, NoDup_cons in Hnd. destruct Hnd as [Ht Hnd]. rewrite filter_cons.
    case_decide as Htm; [|by apply IH]. rewrite filter_none; [done|].
    intros t' Ht' Heq. apply Ht. rewrite Htm, <-Heq. by apply list_elem_of_fmap_2. }
  destruct (filter _ _) as [|t [|t' ts]]; simpl in *; [by constructor| |lia].
  by apply sublist_skip.
Qed.

Lemma listTxMsgs_NoDup s e d :
  NoDup (t_id <$> transaction d) → NoDup (m_id <$> transaction_message d) →
  NoDup (m_id <$> listTxMsgs s e d).
Proof.
  intros Ht Hm. eapply sublist_NoDup; [exact Hm|]. apply fmap_sublist.
  unfold listTxMsgs. etransitivity; [|by apply joined_messages].
  apply fmap_sublist, sublist_filter.
Qed.

(** [m] is a [MsgExec] of a transaction of the blocks (s, e], not inside one. *)
Definition to_expand (s e : Z) (d : Db) (m : TransactionMessage) : Prop :=
  m_type m = MSG_AUTHZ_EXEC ∧ m_parent_id m = None ∧
  ∃ t, t ∈ transaction d ∧ t_id t = m_tx_id m ∧ s < t_height t <= e.

Lemma listTxMsgs_elem s e d m :
  m ∈ listTxMsgs s e d ↔ m ∈ transaction_message d ∧ to_expand s e d m.
Proof.
  unfold listTxMsgs, to_expand. rewrite list_elem_of_fmap. split.
  - intros (r & -> & Hr). rewrite list_elem_of_filter, joined_elem in Hr. naive_solver.
  - intros (Hm & Hty & Hp & t & Ht & Hid & Hh). exists (t, m). split; [done|].
    rewrite list_elem_of_filter, joined_elem. naive_solver.
Qed.

(** ** Counting votes *)
Definition votes_on (proposalId : Z) (votes : gmap (Z * string) Vote) : list Vote :=
  filter (λ v, v_proposal_id v = proposalId) (map_to_list votes).*2.

Definition count_total (c : ICountVote) : nat :=
  (yes c + no c + abstain c + no_with_veto c + unspecified c)%nat.

Lemma votes_total pid votes :
  Forall (λ v, v_vote_option v ∈ VOTE_OPTION.all) (votes_on pid votes) →
  (sum_list_with (λ o, votes_for pid o votes) VOTE_OPTION.all = length (votes_on pid votes))%nat.
Proof.
  unfold votes_for, votes_on. induction (map_to_list votes).*2 as [|v l IH]; [done|].
  rewrite !filter_cons. intros Hall. simpl. rewrite !filter_cons.
  destruct (decide (v_proposal_id v = pid)) as [Hp|Hp].
  - apply Forall_cons in Hall as [Hv Hall]. specialize (IH Hall). simpl in IH |- *.
    unfold VOTE_OPTION.all in Hv. rewrite !elem_of_cons, elem_of_nil in Hv.
    destruct Hv as [Hv|[Hv|[Hv|[Hv|[Hv|[]]]]]]; rewrite Hv;
      repeat (first [rewrite decide_True by done | rewrite decide_False by (intros [_ [=]])]); simpl; lia.
  - specialize (IH Hall). rewrite !decide_False by tauto. exact IH.
Qed.

(** ** Properties *)

(** C15: the vote table.  From an empty table, after any number of runs of the
    vote job and of steps of other jobs that add messages above its checkpoint,
    the table holds for every proposal and voter the last vote among the
    successful vote messages of the blocks from the start block to the
    checkpoint, in the order of the query, and nothing else: how the blocks
    were divided into runs and which runs failed makes no difference. *)
Theorem votes_latest cfg d d' :
  rtc (step cfg) d d' → vote d = ∅ → block_checkpoint d !! "handle:vote-tx" = None →
  Latest (Config.startBlock cfg) (voted_up_to cfg d') d'.
Proof.
  intros Hrun Hv Hc. eapply steps_Latest; [exact Hrun|].
  unfold voted_up_to. rewrite Hc. simpl. split; [lia|]. exists []. split; [|by rewrite Hv].
  unfold txMsgs. rewrite filter_none; [done|]. intros r _. unfold is_vote. lia.
Qed.

(** Expanding authz.  A run that returns either has nothing to do or moves
    the checkpoint, keeps the messages there are, and adds to every [MsgExec]
    of its range that is not inside one exactly the messages it contains, in
    their order; no other message gets one, so a [MsgExec] inside a [MsgExec]
    is never expanded. *)
Theorem authz_expands cfg d d' :
  NoDup (t_id <$> transaction d) → NoDup (m_id <$> transaction_message d) →
  handleAuthz cfg d = (d', Ok tt) →
  ∃ s e u, jobCheckpoint cfg HANDLE_AUTHZ_TX (block_checkpoint d) = Ok (s, e, u) ∧
    (e < s ∧ d' = d ∨
     s <= e ∧ block_checkpoint d' = <["handle:authz-tx" := e]> (block_checkpoint d) ∧
     (∃ new, transaction_message d' = transaction_message d ++ new) ∧
     ∀ m, m ∈ transaction_message d →
       (to_expand s e d m →
          children (m_id m) (transaction_message d')
          = children (m_id m) (transaction_message d) ++ c_msgs (m_content m)) ∧
       (¬ to_expand s e d m →
          children (m_id m) (transaction_message d') = children (m_id m) (transaction_message d))).
Proof.
  intros Ht Hm Hrun. apply checkpoint_handler_cases in Hrun as [(-> & _ & s & e & u & Hj & Hs)|[(msg & [=] & _)|
    (s & e & u & w & d1 & d2 & Hj & Hs & Hp & [= <-] & -> & _)]]; exists s, e, u; (split; [done|]).
  { left. change (Z.ltb e s = true) in Hs. split; [lia|done]. }
  right. change (Z.ltb e s = false) in Hs. inv_io Hp. injection Ha as <- <-. injection Hp as <- <-.
  split; [lia|]. split; [by apply getCheckpoint_Ok in Hj as (_ & -> & _)|]. split; [by eexists|].
  intros m Hin. simpl. rewrite children_app, children_imap, children_subTx by done.
  split; intros Hexp.
  - rewrite bind_by_id; [done|by apply listTxMsgs_NoDup|by apply listTxMsgs_elem].
  - rewrite bind_no_id, app_nil_r; [done|]. intros x [Hx Hxe]%listTxMsgs_elem Heq.
    apply Hexp. replace m with x; [done|]. apply list_elem_of_lookup in Hin as [i Hi], Hx as [j Hx].
    assert (i = j) as ->; [|congruence].
    apply (NoDup_lookup _ _ _ (m_id m) Hm); rewrite list_lookup_fmap; [by rewrite Hi|].
    rewrite Hx. simpl. by rewrite Heq.
Qed.

(** Counting.  The job counts the proposals in their voting period and the
    ended ones that were not counted after their end; a proposal that is
    counted gets the number of votes in the table for each option, which add
    up to the number of its votes when all options are known, and is marked
    as finally counted exactly when its voting ended before the block the
    votes have reached.  No other proposal changes. *)
Theorem count_votes_correct now d :
  let latest := latestCheckpointTime now d in
  (countVote now d).2 = Ok tt ∧
  Forall2 (λ p p',
    if is_counted latest p then
      p_proposal_id p' = p_proposal_id p ∧ p_status p' = p_status p ∧
      (∃ c, p_count_vote p' = Some c ∧
         yes c = votes_for (p_proposal_id p) VOTE_OPTION.YES (vote d) ∧
         no c = votes_for (p_proposal_id p) VOTE_OPTION.NO (vote d) ∧
         (Forall (λ v, v_vote_option v ∈ VOTE_OPTION.all) (votes_on (p_proposal_id p) (vote d)) →
          count_total c = length (votes_on (p_proposal_id p) (vote d)))) ∧
      (p_vote_counted p' = true ↔ default 0 (p_voting_end_time p) <= latest)
    else p' = p) (proposal d) (proposal (countVote now d).1).
Proof.
  intros latest. split; [done|].
  change (proposal (countVote now d).1)
    with ((λ p, if is_counted latest p then count_proposal latest (vote d) p else p) <$> proposal d).
  apply Forall2_fmap_r, Forall_Forall2_diag, Forall_forall.
  intros p _. cbn. destruct (is_counted latest p) eqn:Hc; [|done].
  split; [done|]. split; [done|]. split; [|simpl; lia].
  eexists. split; [reflexivity|]. split; [reflexivity|]. split; [reflexivity|]. intros Hall.
  rewrite <-votes_total by done. unfold count_total. simpl. lia.
Qed.

(** ** Witnesses: block 4860001 has the transactions 7 and 8; the first votes No
    in its second message, the second votes Yes. *)
Definition demo_vote (o : string) : Content := ContentOf MSG_VOTE (Some "alice") (Some 3) (Some o) [].
Definition demo_message (id tx i : Z) (c : Content) : TransactionMessage := {|
  m_id := id; m_tx_id := tx; m_index := i; m_type := c_type c; m_sender := "alice"; m_content := c;
  m_parent_id := None |}.
Definition demo_exec : Content :=
  ContentOf MSG_AUTHZ_EXEC None None None
    [demo_vote VOTE_OPTION.ABSTAIN; ContentOf MSG_AUTHZ_EXEC None None None [demo_vote VOTE_OPTION.YES]].
Definition demo_db : Db := {|
  transaction := [{| t_id := 7; t_index := 0; t_hash := "A"; t_height := 4860001; t_code := 0 |};
                  {| t_id := 8; t_index := 1; t_hash := "B"; t_height := 4860001; t_code := 0 |};
                  {| t_id := 9; t_index := 0; t_hash := "C"; t_height := 4860002; t_code := 0 |}];
  transaction_message :=
    [demo_message 20 7 0 (ContentOf "/cosmos.bank.v1beta1.MsgSend" None None None []);
     demo_message 21 7 1 (demo_vote VOTE_OPTION.NO); demo_message 22 8 0 (demo_vote VOTE_OPTION.YES);
     demo_message 23 9 0 demo_exec];
  next_message_id := 24; vote := ∅;
  proposal := [{| p_proposal_id := 3; p_status := VOTING_PERIOD; p_voting_end_time := Some 100;
                  p_count_vote := None; p_vote_counted := false |}];
  block := [(4860001, 90); (4860101, 200)];
  block_checkpoint := {[ "handle:transaction" := 4860001; "handle:authz-tx" := 4860001 ]} |}.

(** votes in one block.  The query orders the votes of a block by the index
    of the message in its transaction and not by the transaction, so when a
    voter votes No in the second message of a transaction and Yes in the first
    message of a later transaction of the block, the table holds the No. *)
Theorem same_block_vote_order :
  ∃ d v, Forall (λ t, t_code t = 0) (transaction d) ∧
    (handleVote Config.json d).2 = Ok tt ∧
    vote (handleVote Config.json d).1 !! (3, "alice") = Some v ∧
    v_vote_option v = VOTE_OPTION.NO ∧
    ∃ t t' m', t ∈ transaction d ∧ t' ∈ transaction d ∧ m' ∈ transaction_message d ∧
      t_id t = v_tx_id v ∧ t_height t = t_height t' ∧ t_index t < t_index t' ∧
      m_tx_id m' = t_id t' ∧ m_content m' = demo_vote VOTE_OPTION.YES.
Proof.
  exists demo_db. eexists. split; [repeat constructor|]. split; [vm_compute; reflexivity|].
  split; [vm_compute; reflexivity|]. split; [reflexivity|].
  exists {| t_id := 7; t_index := 0; t_hash := "A"; t_height := 4860001; t_code := 0 |},
    {| t_id := 8; t_index := 1; t_hash := "B"; t_height := 4860001; t_code := 0 |},
    (demo_message 22 8 0 (demo_vote VOTE_OPTION.YES)).
  simpl. set_solver by lia.
Qed.

(** The authz and vote jobs run after the messages of another block came in. *)
Definition demo_up (authz : Z) (d : Db) : Db :=
  set_checkpoints (<["handle:transaction" := authz]> (<["handle:authz-tx" := authz]> (block_checkpoint d))) d.
Definition demo_voted : Db := (handleVote Config.json demo_db).1.
Definition demo_up_db : Db := demo_up 4860101 demo_voted.
Definition demo_voted2 : Db := (handleVote Config.json demo_up_db).1.

Lemma votes_latest_witness :
  voted_up_to Config.json demo_voted2 = 4860101 ∧ Latest 4860000 4860101 demo_voted2.
Proof.
  split; [vm_compute; reflexivity|].
  apply (votes_latest Config.json demo_db demo_voted2); [|reflexivity|vm_compute; reflexivity].
  apply (rtc_l _ _ demo_voted); [apply step_vote|].
  apply (rtc_l _ _ demo_up_db); [|apply rtc_once, step_vote].
  apply step_other; [vm_compute; reflexivity|vm_compute; reflexivity|].
  reflexivity.
Defined.

Definition demo_authz_db : Db :=
  set_checkpoints (<["handle:transaction" := 4860101]> (block_checkpoint demo_db)) demo_db.
Definition demo_authz : Db := (handleAuthz Config.json demo_authz_db).1.

Lemma authz_expands_witness :
  children 23 (transaction_message demo_authz)
    = [demo_vote VOTE_OPTION.ABSTAIN; ContentOf MSG_AUTHZ_EXEC None None None [demo_vote VOTE_OPTION.YES]] ∧
  ∃ s e u, jobCheckpoint Config.json HANDLE_AUTHZ_TX (block_checkpoint demo_authz_db) = Ok (s, e, u) ∧
    (e < s ∨ s <= e ∧ ∃ new,
       transaction_message demo_authz = transaction_message demo_authz_db ++ new).
Proof.
  split; [vm_compute; reflexivity|].
  destruct (authz_expands Config.json demo_authz_db demo_authz) as (s & e & u & Hj & H);
    [by_compute|by_compute|reflexivity|].
  exists s, e, u. split; [exact Hj|].
  destruct H as [[H _]|(H & _ & Hnew & _)]; [left; exact H|right; exact (conj H Hnew)].
Defined.

Lemma count_votes_correct_example :
  p_count_vote <$> proposal (countVote 0 demo_voted).1
  = [Some {| yes := 0; no := 1; abstain := 0; no_with_veto := 0; unspecified := 0 |}].
Proof. vm_compute. reflexivity. Qed.
