(* ===== verification/IbcTao.v ===== *)
(** * IBC clients, connections and channels

    [services/ibc/crawl_ibc_tao.service.ts]: the events of a range of blocks
    about clients, connections and channels become rows of [ibc_client],
    [ibc_connection] and [ibc_channel], which refer to each other by id. *)
From S2P Require Import Prelude Checkpoint.

Inductive event_type :=
| CREATE_CLIENT | CONNECTION_OPEN_ACK | CONNECTION_OPEN_CONFIRM | CHANNEL_OPEN_ACK
| CHANNEL_OPEN_CONFIRM | CHANNEL_CLOSE_INIT | CHANNEL_CLOSE_CONFIRM | CHANNEL_CLOSE.
#[export] Instance event_type_eq_dec : EqDecision event_type.
Proof. solve_decision. Defined.

(** The JSON of a client state: the chain id and the text of the whole. *)
Record ClientState := { cs_chain_id : option string; cs_json : string }.

(** An event of one of these types, with the content of its message. *)
Record Event := {
  e_id : Z;
  e_type : event_type;
  e_attributes : list attribute;
  e_height : Z;
  e_client_state : option ClientState;
  e_consensus_state : option string
}.

Record IbcClient := {
  cl_id : Z;
  cl_client_id : string;
  cl_counterparty_chain_id : string;
  cl_client_state : string;
  cl_consensus_state : string;
  cl_client_type : string
}.
Record IbcConnection := {
  co_id : Z;
  co_ibc_client_id : Z;
  co_connection_id : string;
  co_counterparty_client_id : string;
  co_counterparty_connection_id : string
}.
Record IbcChannel := {
  ch_id : Z;
  ch_ibc_connection_id : Z;
  ch_channel_id : string;
  ch_port_id : string;
  ch_counterparty_port_id : string;
  ch_counterparty_channel_id : string;
  ch_state : string
}.
Definition OPEN := "OPEN".
Definition CLOSE := "CLOSE".

(** [client_id], [connection_id] and [channel_id] are unique. *)
Record Db := {
  event : list Event;
  ibc_client : list IbcClient;
  next_client_id : Z;
  ibc_connection : list IbcConnection;
  next_connection_id : Z;
  ibc_channel : list IbcChannel;
  next_channel_id : Z;
  block_checkpoint : gmap string Z
}.
#[export] Instance Db_checkpoints : HasCheckpoints Db := block_checkpoint.
#[export] Program Instance Db_set_checkpoints : SetCheckpoints Db := {|
  set_checkpoints c d :=
    {| event := event d; ibc_client := ibc_client d; next_client_id := next_client_id d;
       ibc_connection := ibc_connection d; next_connection_id := next_connection_id d;
       ibc_channel := ibc_channel d; next_channel_id := next_channel_id d; block_checkpoint := c |} |}.
Next Obligation. done. Qed.

(** ** Attributes *)
Definition attr (e : Event) (key : string) : option string := getAttributeFrom (e_attributes e) key.

(** The values of a [whereIn]. *)
Definition binding (o : option string) : res string :=
  match o with Some s => Ok s | None => Throw "Undefined binding(s) detected when compiling SELECT" end.

Definition type_error : string := "TypeError: Cannot read properties of undefined".

(** [insert] into a table with a unique column. *)
Definition insert_unique {A} (key : A → string) (rows table : list A) : res (list A) :=
  if bool_decide (NoDup (key <$> table ++ rows)) then Ok (table ++ rows)
  else Throw "duplicate key value violates unique constraint".

(** The rows get the next ids of the sequence. *)
Fixpoint number {A} (mk : Z → Event → res A) (id : Z) (l : list Event) : res (list A) :=
  match l with
  | [] => Ok []
  | e :: l => row ← mk id e; rows ← number mk (id + 1) l; Ok (row :: rows)
  end.

(** ** Clients *)
Definition newClient (id : Z) (e : Event) : res IbcClient :=
  match e_client_state e with
  | None => Throw type_error
  | Some state =>
      client_id ← required (attr e "client_id");
      chain_id ← required (cs_chain_id state);
      consensus_state ← required (e_consensus_state e);
      client_type ← required (attr e "client_type");
      Ok {| cl_id := id; cl_client_id := client_id; cl_counterparty_chain_id := chain_id;
            cl_client_state := cs_json state; cl_consensus_state := consensus_state;
            cl_client_type := client_type |}
  end.

Definition handleNewIbcClient (events : list Event) (d : Db) : res Db :=
  match events with
  | [] => Ok d
  | _ =>
      rows ← number newClient (next_client_id d) events;
      table ← insert_unique cl_client_id rows (ibc_client d);
      Ok {| event := event d; ibc_client := table;
            next_client_id := next_client_id d + Z.of_nat (length rows);
            ibc_connection := ibc_connection d; next_connection_id := next_connection_id d;
            ibc_channel := ibc_channel d; next_channel_id := next_channel_id d;
            block_checkpoint := block_checkpoint d |}
  end.

(** ** Connections *)
Definition newConnection (clients : gmap string IbcClient) (id : Z) (e : Event) : res IbcConnection :=
  match attr e "client_id" ≫= λ k, clients !! k with
  | None => Throw type_error
  | Some client =>
      connection_id ← required (attr e "connection_id");
      counterparty_client_id ← required (attr e "counterparty_client_id");
      counterparty_connection_id ← required (attr e "counterparty_connection_id");
      Ok {| co_id := id; co_ibc_client_id := cl_id client; co_connection_id := connection_id;
            co_counterparty_client_id := counterparty_client_id;
            co_counterparty_connection_id := counterparty_connection_id |}
  end.

Definition handleNewIbcConnection (events : list Event) (d : Db) : res Db :=
  match events with
  | [] => Ok d
  | _ =>
      ids ← mapR (λ e, binding (attr e "client_id")) events;
      let clients := keyBy cl_client_id (filter (λ c, cl_client_id c ∈ ids) (ibc_client d)) in
      rows ← number (newConnection clients) (next_connection_id d) events;
      table ← insert_unique co_connection_id rows (ibc_connection d);
      Ok {| event := event d; ibc_client := ibc_client d; next_client_id := next_client_id d;
            ibc_connection := table;
            next_connection_id := next_connection_id d + Z.of_nat (length rows);
            ibc_channel := ibc_channel d; next_channel_id := next_channel_id d;
            block_checkpoint := block_checkpoint d |}
  end.

(** ** Channels *)
Definition newChannel (connections : gmap string IbcConnection) (id : Z) (e : Event) : res IbcChannel :=
  match attr e "connection_id" ≫= λ k, connections !! k with
  | None => Throw type_error
  | Some connection =>
      channel_id ← required (attr e "channel_id");
      port_id ← required (attr e "port_id");
      counterparty_port_id ← required (attr e "counterparty_port_id");
      counterparty_channel_id ← required (attr e "counterparty_channel_id");
      Ok {| ch_id := id; ch_ibc_connection_id := co_id connection; ch_channel_id := channel_id;
            ch_port_id := port_id; ch_counterparty_port_id := counterparty_port_id;
            ch_counterparty_channel_id := counterparty_channel_id; ch_state := OPEN |}
  end.

Definition handleNewIbcChannel (events : list Event) (d : Db) : res Db :=
  match events with
  | [] => Ok d
  | _ =>
      ids ← mapR (λ e, binding (attr e "connection_id")) events;
      let connections := keyBy co_connection_id (filter (λ c, co_connection_id c ∈ ids) (ibc_connection d)) in
      rows ← number (newChannel connections) (next_channel_id d) events;
      table ← insert_unique ch_channel_id rows (ibc_channel d);
      Ok {| event := event d; ibc_client := ibc_client d; next_client_id := next_client_id d;
            ibc_connection := ibc_connection d; next_connection_id := next_connection_id d;
            ibc_channel := table;
            next_channel_id := next_channel_id d + Z.of_nat (length rows);
            block_checkpoint := block_checkpoint d |}
  end.

Definition set_channels (table : list IbcChannel) (d : Db) : Db :=
  {| event := event d; ibc_client := ibc_client d; next_client_id := next_client_id d;
     ibc_connection := ibc_connection d; next_connection_id := next_connection_id d;
     ibc_channel := table; next_channel_id := next_channel_id d;
     block_checkpoint := block_checkpoint d |}.

(** [.patch({ state: CLOSE }).where({ channel_id })] *)
Definition close_channel (channelId : string) (ch : IbcChannel) : IbcChannel :=
  if decide (ch_channel_id ch = channelId) then
    {| ch_id := ch_id ch; ch_ibc_connection_id := ch_ibc_connection_id ch;
       ch_channel_id := ch_channel_id ch; ch_port_id := ch_port_id ch;
       ch_counterparty_port_id := ch_counterparty_port_id ch;
       ch_counterparty_channel_id := ch_counterparty_channel_id ch; ch_state := CLOSE |}
  else ch.

Definition closedChannel (e : Event) : res string :=
  if truthy_str (attr e "channel_id") then Ok (default "" (attr e "channel_id"))
  else Throw "Event close channel not found channelId".

Definition handleCloseIbcChannel (events : list Event) (d : Db) : res Db :=
  ids ← mapR closedChannel events;
  Ok (set_channels (foldl (λ table id, close_channel id <$> table) (ibc_channel d) ids) d).

(** ** The job *)
Definition of_types (types : list event_type) (events : list Event) : list Event :=
  filter (λ e, e_type e ∈ types) events.

Definition range_events (startHeight endHeight : Z) (d : Db) : list Event :=
  sortBy e_id (filter (λ e, startHeight < e_height e ∧ e_height e <= endHeight) (event d)).

Definition handle_events (events : list Event) (d : Db) : res Db :=
  d ← handleNewIbcClient (of_types [CREATE_CLIENT] events) d;
  d ← handleNewIbcConnection (of_types [CONNECTION_OPEN_CONFIRM; CONNECTION_OPEN_ACK] events) d;
  d ← handleNewIbcChannel (of_types [CHANNEL_OPEN_ACK; CHANNEL_OPEN_CONFIRM] events) d;
  handleCloseIbcChannel (of_types [CHANNEL_CLOSE; CHANNEL_CLOSE_CONFIRM; CHANNEL_CLOSE_INIT] events) d.

Definition crawlIbcTao (cfg : Config.t) : io Db () :=
  checkpoint_handler cfg CRAWL_IBC_TAO
    (λ startHeight endHeight, query (range_events startHeight endHeight))
    (λ _ _ events d, handle_events events d).

(** ** Rows and their events *)
Lemma number_Ok {A} (mk : Z → Event → res A) (R : Event → A → Prop) id l rows :
  (∀ i e row, mk i e = Ok row → R e row) → number mk id l = Ok rows → Forall2 R l rows.
Proof.
  intros HR. revert id rows. induction l as [|e l IH]; intros id rows; simpl; [intros [= <-]; constructor|].
  intros (row & Hrow & (rows' & Hrows & [= <-])%bind_Ok)%bind_Ok. constructor; eauto.
Qed.

Lemma insert_unique_Ok {A} (key : A → string) rows table table' :
  insert_unique key rows table = Ok table' → table' = table ++ rows ∧ NoDup (key <$> table').
Proof. unfold insert_unique. case_bool_decide; [|done]. by intros [= <-]. Qed.

(** The row of [ibc_client] an event creates. *)
Definition client_of (e : Event) (c : IbcClient) : Prop :=
  attr e "client_id" = Some (cl_client_id c) ∧
  (e_client_state e ≫= cs_chain_id) = Some (cl_counterparty_chain_id c) ∧
  attr e "client_type" = Some (cl_client_type c).

(** The row of [ibc_connection] an event creates: it refers to the client the
    event names. *)
Definition connection_of (clients : list IbcClient) (e : Event) (c : IbcConnection) : Prop :=
  attr e "connection_id" = Some (co_connection_id c) ∧
  ∃ client, client ∈ clients ∧ attr e "client_id" = Some (cl_client_id client) ∧
            co_ibc_client_id c = cl_id client.

(** The row of [ibc_channel] an event creates, up to its state. *)
Definition channel_of (connections : list IbcConnection) (e : Event) (ch : IbcChannel) : Prop :=
  attr e "channel_id" = Some (ch_channel_id ch) ∧ attr e "port_id" = Some (ch_port_id ch) ∧
  ∃ connection, connection ∈ connections ∧
    attr e "connection_id" = Some (co_connection_id connection) ∧
    ch_ibc_connection_id ch = co_id connection.

Lemma newClient_of i e c : newClient i e = Ok c → client_of e c.
Proof.
  unfold newClient, client_of. destruct (e_client_state e) as [st|]; [|done].
  intros (? & H1%required_Ok & (? & H2%required_Ok & (? & _ & (? & H3%required_Ok & [= <-])%bind_Ok)%bind_Ok)%bind_Ok)%bind_Ok.
  simpl. auto.
Qed.

Lemma newConnection_of (ids : list string) (table : list IbcClient) i e c :
  newConnection (keyBy cl_client_id (filter (λ c, cl_client_id c ∈ ids) table)) i e = Ok c →
  connection_of table e c.
Proof.
  unfold newConnection, connection_of.
  destruct (attr e "client_id") as [k|]; simpl; [|done].
  destruct (keyBy _ _ !! k) as [client|] eqn:Hk; [|done].
  intros (? & H1%required_Ok & (? & _ & (? & _ & [= <-])%bind_Ok)%bind_Ok)%bind_Ok. simpl.
  split; [done|]. apply keyBy_Some in Hk as [Hin <-]. apply list_elem_of_filter in Hin as [_ Hin].
  eauto.
Qed.

Lemma newChannel_of (ids : list string) (table : list IbcConnection) i e c :
  newChannel (keyBy co_connection_id (filter (λ c, co_connection_id c ∈ ids) table)) i e = Ok c →
  channel_of table e c ∧ ch_state c = OPEN.
Proof.
  unfold newChannel, channel_of.
  destruct (attr e "connection_id") as [k|]; simpl; [|done].
  destruct (keyBy _ _ !! k) as [connection|] eqn:Hk; [|done].
  intros (? & H1%required_Ok & (? & H2%required_Ok & (? & _ & (? & _ & [= <-])%bind_Ok)%bind_Ok)%bind_Ok)%bind_Ok.
  simpl. split; [|done]. split; [done|]. split; [done|].
  apply keyBy_Some in Hk as [Hin <-]. apply list_elem_of_filter in Hin as [_ Hin]. eauto.
Qed.

(** ** The steps of a run *)
Lemma handleNewIbcClient_spec evs d d' :
  handleNewIbcClient evs d = Ok d' →
  (∃ new, ibc_client d' = ibc_client d ++ new ∧ Forall2 client_of evs new) ∧
  ibc_connection d' = ibc_connection d ∧ ibc_channel d' = ibc_channel d ∧
  event d' = event d ∧ block_checkpoint d' = block_checkpoint d.
Proof.
  unfold handleNewIbcClient. destruct evs as [|e evs].
  { intros [= <-]. split; [|done]. exists []. by rewrite app_nil_r. }
  intros (rows & Hrows & (table & Ht & [= <-])%bind_Ok)%bind_Ok. simpl.
  apply insert_unique_Ok in Ht as [-> _]. split; [|done]. exists rows. split; [done|].
  by eapply number_Ok; [apply newClient_of|].
Qed.

Lemma handleNewIbcConnection_spec evs d d' :
  handleNewIbcConnection evs d = Ok d' →
  (∃ new, ibc_connection d' = ibc_connection d ++ new ∧ Forall2 (connection_of (ibc_client d')) evs new) ∧
  ibc_client d' = ibc_client d ∧ ibc_channel d' = ibc_channel d ∧
  event d' = event d ∧ block_checkpoint d' = block_checkpoint d.
Proof.
  unfold handleNewIbcConnection. destruct evs as [|e evs].
  { intros [= <-]. split; [|done]. exists []. by rewrite app_nil_r. }
  intros (ids & _ & (rows & Hrows & (table & Ht & [= <-])%bind_Ok)%bind_Ok)%bind_Ok. simpl.
  apply insert_unique_Ok in Ht as [-> _]. split; [|done]. exists rows. split; [done|].
  by eapply number_Ok; [apply newConnection_of|].
Qed.

Lemma handleNewIbcChannel_spec evs d d' :
  handleNewIbcChannel evs d = Ok d' →
  (∃ new, ibc_channel d' = ibc_channel d ++ new ∧
     Forall2 (λ e ch, channel_of (ibc_connection d') e ch ∧ ch_state ch = OPEN) evs new) ∧
  ibc_client d' = ibc_client d ∧ ibc_connection d' = ibc_connection d ∧
  event d' = event d ∧ block_checkpoint d' = block_checkpoint d.
Proof.
  unfold handleNewIbcChannel. destruct evs as [|e evs].
  { intros [= <-]. split; [|done]. exists []. by rewrite app_nil_r. }
  intros (ids & _ & (rows & Hrows & (table & Ht & [= <-])%bind_Ok)%bind_Ok)%bind_Ok. simpl.
  apply insert_unique_Ok in Ht as [-> _]. split; [|done]. exists rows. split; [done|].
  by eapply number_Ok; [apply newChannel_of|].
Qed.

(** A channel after the close events: nothing but its state changes. *)
Definition with_state (state : string) (ch : IbcChannel) : IbcChannel :=
  {| ch_id := ch_id ch; ch_ibc_connection_id := ch_ibc_connection_id ch;
     ch_channel_id := ch_channel_id ch; ch_port_id := ch_port_id ch;
     ch_counterparty_port_id := ch_counterparty_port_id ch;
     ch_counterparty_channel_id := ch_counterparty_channel_id ch; ch_state := state |}.
Definition close_if (ids : list string) (ch : IbcChannel) : IbcChannel :=
  if decide (ch_channel_id ch ∈ ids) then with_state "CLOSE" ch else ch.

Lemma close_fold ids table :
  foldl (λ (table : list IbcChannel) id, close_channel id <$> table) table ids = close_if ids <$> table.
Proof.
  revert table. induction ids as [|id ids IH]; intros table; simpl.
  - rewrite <-(list_fmap_id table) at 1. apply list_fmap_ext. intros i ch _. unfold close_if.
    by rewrite decide_False by apply not_elem_of_nil.
  - rewrite IH, <-list_fmap_compose. apply list_fmap_ext. intros i ch _. simpl.
    unfold close_if, close_channel, with_state. destruct ch as [i0 con cid p cp cc st]. simpl.
    destruct (decide (cid = id)) as [->|Hne]; simpl.
    + rewrite (decide_True (P := id ∈ id :: ids)) by left. by case_decide.
    + do 2 case_decide; (done || set_solver).
Qed.

Lemma handleCloseIbcChannel_spec evs d d' :
  handleCloseIbcChannel evs d = Ok d' →
  ∃ ids, Forall2 (λ e id, attr e "channel_id" = Some id) evs ids ∧
    d' = set_channels (close_if ids <$> ibc_channel d) d.
Proof.
  unfold handleCloseIbcChannel. intros (ids & Hids & [= <-])%bind_Ok. exists ids.
  split; [|by rewrite close_fold]. apply mapR_Ok in Hids. eapply Forall2_impl; [exact Hids|].
  intros e id. unfold closedChannel, truthy_str. destruct (attr e "channel_id"); [|done].
  destruct (negb _); by intros [= <-].
Qed.

Lemma handle_events_frame evs d d' :
  handle_events evs d = Ok d' → block_checkpoint d' = block_checkpoint d.
Proof.
  unfold handle_events. intros (d1 & H1 & (d2 & H2 & (d3 & H3 & H4)%bind_Ok)%bind_Ok)%bind_Ok.
  apply handleNewIbcClient_spec in H1 as (_ & _ & _ & _ & E1).
  apply handleNewIbcConnection_spec in H2 as (_ & _ & _ & _ & E2).
  apply handleNewIbcChannel_spec in H3 as (_ & _ & _ & _ & E3).
  apply handleCloseIbcChannel_spec in H4 as (ids & _ & ->). simpl. congruence.
Qed.

#[export] Instance crawlIbcTao_job cfg : CheckpointJob cfg CRAWL_IBC_TAO (crawlIbcTao cfg).
Proof.
  apply checkpoint_handler_job. constructor; [auto with frames|].
  intros s e w d d'. apply handle_events_frame.
Qed.

(** What the events of a run do to the tables. *)
Record handled (evs : list Event) (d d' : Db) : Prop := {
  handled_clients : ∃ new, ibc_client d' = ibc_client d ++ new ∧
    Forall2 client_of (of_types [CREATE_CLIENT] evs) new;
  handled_connections : ∃ new, ibc_connection d' = ibc_connection d ++ new ∧
    Forall2 (connection_of (ibc_client d'))
      (of_types [CONNECTION_OPEN_CONFIRM; CONNECTION_OPEN_ACK] evs) new;
  handled_channels : ∃ new closed,
    Forall2 (λ e ch, channel_of (ibc_connection d') e ch ∧ ch_state ch = OPEN)
      (of_types [CHANNEL_OPEN_ACK; CHANNEL_OPEN_CONFIRM] evs) new ∧
    Forall2 (λ e id, attr e "channel_id" = Some id)
      (of_types [CHANNEL_CLOSE; CHANNEL_CLOSE_CONFIRM; CHANNEL_CLOSE_INIT] evs) closed ∧
    ibc_channel d' = close_if closed <$> (ibc_channel d ++ new)
}.

Lemma handle_events_handled evs d d' : handle_events evs d = Ok d' → handled evs d d'.
Proof.
  unfold handle_events. intros (d1 & H1 & (d2 & H2 & (d3 & H3 & H4)%bind_Ok)%bind_Ok)%bind_Ok.
  apply handleNewIbcClient_spec in H1 as ((n1 & Hc1 & Hn1) & Hk1 & Hh1 & _).
  apply handleNewIbcConnection_spec in H2 as ((n2 & Hk2 & Hn2) & Hc2 & Hh2 & _).
  apply handleNewIbcChannel_spec in H3 as ((n3 & Hh3 & Hn3) & Hc3 & Hk3 & _).
  apply handleCloseIbcChannel_spec in H4 as (ids & Hids & ->).
  constructor; simpl.
  - exists n1. by rewrite Hc3, Hc2.
  - exists n2. rewrite Hk3, Hk2, Hk1, Hc3. auto.
  - exists n3, ids. rewrite Hh3, Hh2, Hh1. auto.
Qed.

(** Every connection refers to a client and every channel to a connection. *)
Definition references (d : Db) : Prop :=
  (∀ c, c ∈ ibc_connection d → ∃ client, client ∈ ibc_client d ∧ cl_id client = co_ibc_client_id c) ∧
  (∀ ch, ch ∈ ibc_channel d → ∃ c, c ∈ ibc_connection d ∧ co_id c = ch_ibc_connection_id ch).

Lemma Forall2_elem_r {A B} (R : A → B → Prop) l k y : Forall2 R l k → y ∈ k → ∃ x, R x y.
Proof.
  intros H [i Hi]%list_elem_of_lookup. destruct (Forall2_lookup_r _ _ _ _ _ H Hi) as (x & _ & Hx). eauto.
Qed.

Lemma handled_references evs d d' : handled evs d d' → references d → references d'.
Proof.
  intros [(n1 & Hc & Hn1) (n2 & Hk & Hn2) (n3 & ids & Hn3 & _ & Hh)] [Hr1 Hr2]. split.
  - intros c. rewrite Hk, elem_of_app. intros [Hin|Hin].
    + destruct (Hr1 c Hin) as (client & Hcl & Heq). exists client. rewrite Hc, elem_of_app. auto.
    + destruct (Forall2_elem_r _ _ _ _ Hn2 Hin) as (e & _ & client & Hcl & _ & Heq). eauto.
  - intros ch. rewrite Hh. intros (ch0 & -> & Hin)%list_elem_of_fmap.
    assert (ch_ibc_connection_id (close_if ids ch0) = ch_ibc_connection_id ch0) as ->.
    { unfold close_if. by case_decide. }
    apply elem_of_app in Hin as [Hin|Hin].
    + destruct (Hr2 ch0 Hin) as (c & Hc0 & Heq). exists c. rewrite Hk, elem_of_app. auto.
    + destruct (Forall2_elem_r _ _ _ _ Hn3 Hin) as (e & (_ & _ & c & Hc0 & _ & Heq) & _). eauto.
Qed.

(** ** Properties *)

(** C22: clients, connections and channels.  A run that returns either has
    nothing to do, or moves the checkpoint to the end of its range and adds one
    client, connection or channel for each of the opening events of the range,
    in their order; each refers to the client or connection its event names,
    also to one of the same range, and the channels named by the closing
    events, and no others, become closed.  References that were valid stay
    valid. *)
Theorem tao_correct cfg d d' :
  crawlIbcTao cfg d = (d', Ok tt) →
  ∃ s e u, jobCheckpoint cfg CRAWL_IBC_TAO (block_checkpoint d) = Ok (s, e, u) ∧
    (e < s ∧ d' = d ∨
     s <= e ∧ block_checkpoint d' = <["crawl:ibc-tao" := e]> (block_checkpoint d) ∧
     handled (range_events s e d) d d' ∧ (references d → references d')).
Proof.
  intros Hrun. apply checkpoint_handler_cases in Hrun as [(-> & _ & s & e & u & Hj & Hs)|[(msg & [=] & _)|
    (s & e & u & w & d1 & d2 & Hj & Hs & Hp & Hw & -> & _)]]; exists s, e, u; (split; [done|]).
  { left. change (Z.ltb e s = true) in Hs. split; [lia|done]. }
  right. change (Z.ltb e s = false) in Hs. injection Hp as <- <-. split; [lia|].
  apply getCheckpoint_Ok in Hj as (_ & -> & _).
  pose proof (handle_events_frame _ _ _ Hw) as Hf. unfold checkpoints_of, Db_checkpoints. rewrite Hf.
  split; [done|]. apply handle_events_handled in Hw as Hh.
  split; [destruct Hh; by constructor|]. intros Hr. by apply (handled_references _ _ _ Hh).
Qed.

(** ** Witness: a client, its connection and a channel in one range; the
    channel is closed again. *)
Definition demo_event (id : Z) (ty : event_type) (attrs : list attribute) : Event := {|
  e_id := id; e_type := ty; e_attributes := attrs; e_height := 4860001;
  e_client_state := Some {| cs_chain_id := Some "chain"; cs_json := "{}" |};
  e_consensus_state := Some "{}" |}.
Definition demo_db : Db := {|
  event := [
    demo_event 4 CHANNEL_CLOSE_INIT [Attribute "channel_id" (Some "channel-0")];
    demo_event 3 CHANNEL_OPEN_ACK [Attribute "channel_id" (Some "channel-0");
      Attribute "connection_id" (Some "connection-0"); Attribute "port_id" (Some "transfer");
      Attribute "counterparty_port_id" (Some "transfer");
      Attribute "counterparty_channel_id" (Some "channel-7")];
    demo_event 2 CONNECTION_OPEN_ACK [Attribute "client_id" (Some "07-tendermint-0");
      Attribute "connection_id" (Some "connection-0");
      Attribute "counterparty_client_id" (Some "07-tendermint-5");
      Attribute "counterparty_connection_id" (Some "connection-9")];
    demo_event 1 CREATE_CLIENT [Attribute "client_id" (Some "07-tendermint-0");
      Attribute "client_type" (Some "07-tendermint")]];
  ibc_client := []; next_client_id := 1; ibc_connection := []; next_connection_id := 1;
  ibc_channel := []; next_channel_id := 1;
  block_checkpoint := {[ "handle:transaction" := 4860010 ]} |}.
Definition demo_run : Db * res () := crawlIbcTao Config.json demo_db.

Lemma tao_correct_witness :
  ((λ ch, (ch_channel_id ch, ch_ibc_connection_id ch, ch_state ch)) <$> ibc_channel demo_run.1)
    = [("channel-0", 1, CLOSE)] ∧
  ∃ s e u, jobCheckpoint Config.json CRAWL_IBC_TAO (block_checkpoint demo_db) = Ok (s, e, u) ∧
    (e < s ∨ s <= e ∧ handled (range_events s e demo_db) demo_db demo_run.1).
Proof.
  split; [vm_compute; reflexivity|].
  destruct (tao_correct Config.json demo_db demo_run.1) as (s & e & u & Hj & H); [vm_compute; reflexivity|].
  exists s, e, u. split; [exact Hj|].
  destruct H as [[H _]|(H & _ & Hh & _)]; [left; exact H|right; exact (conj H Hh)].
Defined.
