(* ===== verification/Ics20.v ===== *)
(** * IBC packets and ICS-20 transfers

    [services/ibc/crawl_ibc_app.service.ts] stores the packets sent, received,
    acknowledged and timed out as rows of [ibc_message];
    [services/ibc/crawl_ibc_ics20.service.ts] turns those of the transfer port
    into rows of [ibc_ics20] and gives a transfer that was sent its final
    status when its acknowledgement or timeout comes. *)
From S2P Require Import Prelude JsNum Checkpoint.

(** ** Data *)

(** The JSON of a packet: the fields of a fungible token packet. *)
Record PacketData := {
  pd_sender : option string;
  pd_receiver : option string;
  pd_amount : option string;
  pd_denom : option string;
  pd_memo : option string
}.

(** [fromUtf8(fromHex(s))] of @cosmjs/encoding and the reading of a JSON text
    by the database. *)
Class PacketCodec := {
  fromHexUtf8 : string → res string;
  parseJson : string → res PacketData
}.

Definition SEND_PACKET := "send_packet".
Definition RECV_PACKET := "recv_packet".
Definition ACKNOWLEDGE_PACKET := "acknowledge_packet".
Definition TIMEOUT_PACKET := "timeout_packet".
Definition ICS20_PORT := "transfer".

Definition FUNGIBLE_TOKEN_PACKET := "fungible_token_packet".
Definition DENOM_TRACE := "denomination_trace".

Module STATUS_TYPE.
Definition TIMEOUT := "timeout".
Definition ACK_ERROR := "ack_error".
Definition ACK_SUCCESS := "ack_success".
Definition ONGOING := "ongoing".
End STATUS_TYPE.

Record Event := {
  e_id : Z;
  e_type : string;
  e_attributes : list attribute;
  e_block_height : Z;
  e_tx_id : Z;
  e_tx_msg_index : option Z
}.

(** A message with its transaction. *)
Record Message := {
  m_id : Z;
  m_tx_id : Z;
  m_index : Z;
  m_tx_hash : string;
  m_height : Z;
  m_timestamp : string
}.

(** The relation of [event] and [transaction_message]: the pair of the
    transaction and the index, which the messages inside an authz execution
    can have in common with others. *)
Definition belongs (e : Event) (m : Message) : Prop :=
  e_tx_id e = m_tx_id m ∧ e_tx_msg_index e = Some (m_index m).
#[export] Instance belongs_dec e m : Decision (belongs e m).
Proof. unfold belongs. apply _. Defined.

Record IbcMessage := {
  im_id : Z;
  im_transaction_message_id : Z;
  im_src_channel_id : string;
  im_src_port_id : string;
  im_dst_channel_id : string;
  im_dst_port_id : string;
  im_type : string;
  im_sequence : Z;
  im_sequence_key : string;
  im_data : option PacketData;
  im_tx_hash : string
}.

Record IbcIcs20 := {
  i_id : Z;
  i_ibc_message_id : Z;
  i_sender : option string;
  i_receiver : string;
  i_amount : string;
  i_denom : string;
  i_status : string;
  i_channel_id : string;
  i_sequence_key : string;
  i_type : string;
  i_memo : option string;
  i_start_time : option string;
  i_finish_time : option string
}.

Record Db := {
  event : list Event;
  message : list Message;
  ibc_message : list IbcMessage;
  next_ibc_message_id : Z;
  ibc_ics20 : list IbcIcs20;
  next_ics20_id : Z;
  block_checkpoint : gmap string Z
}.
#[export] Instance Db_checkpoints : HasCheckpoints Db := block_checkpoint.
#[export] Program Instance Db_set_checkpoints : SetCheckpoints Db := {|
  set_checkpoints c d :=
    {| event := event d; message := message d; ibc_message := ibc_message d;
       next_ibc_message_id := next_ibc_message_id d; ibc_ics20 := ibc_ics20 d;
       next_ics20_id := next_ics20_id d; block_checkpoint := c |} |}.
Next Obligation. done. Qed.

(** ** Packets *)
Section App.
Context {C : PacketCodec}.

(** [`${srcChannel}.${srcPort}.${dstChannel}.${dstPort}.${sequence}`] *)
Definition sequence_key (srcChannel srcPort dstChannel dstPort sequence : string) : string :=
  (srcChannel +:+ "." +:+ srcPort +:+ "." +:+ dstChannel +:+ "." +:+ dstPort +:+ "." +:+ sequence)%string.

(** [dataHex ? fromUtf8(fromHex(dataHex)) : null], read as JSON. *)
Definition packet_data (dataHex : option string) : res (option PacketData) :=
  match dataHex with
  | None => Ok None
  | Some s => if decide (s = "") then Ok None else t ← fromHexUtf8 s; p ← parseJson t; Ok (Some p)
  end.

Definition ibcMessage (id : Z) (r : Event * Message) : res IbcMessage :=
  let '(event, msg) := r in
  let attr := getAttributeFrom (e_attributes event) in
  srcChannel ← required (attr "packet_src_channel");
  srcPort ← required (attr "packet_src_port");
  dstChannel ← required (attr "packet_dst_channel");
  dstPort ← required (attr "packet_dst_port");
  sequence ← required (attr "packet_sequence");
  sequence_number ← coerce_number sequence;
  data ← packet_data (attr "packet_data_hex");
  Ok {| im_id := id; im_transaction_message_id := m_id msg; im_src_channel_id := srcChannel;
        im_src_port_id := srcPort; im_dst_channel_id := dstChannel; im_dst_port_id := dstPort;
        im_type := e_type event; im_sequence := sequence_number;
        im_sequence_key := sequence_key srcChannel srcPort dstChannel dstPort sequence;
        im_data := data; im_tx_hash := m_tx_hash msg |}.

Fixpoint ibcMessages (id : Z) (l : list (Event * Message)) : res (list IbcMessage) :=
  match l with
  | [] => Ok []
  | r :: l => row ← ibcMessage id r; rows ← ibcMessages (id + 1) l; Ok (row :: rows)
  end.

(** [.joinRelated('message.transaction')], ordered by the id of the event. *)
Definition app_events (startHeight endHeight : Z) (d : Db) : list (Event * Message) :=
  sortBy (λ r, e_id r.1)
    (event d ≫= λ e, pair e <$>
       filter (λ m, belongs e m ∧
         e_type e ∈ [ACKNOWLEDGE_PACKET; RECV_PACKET; SEND_PACKET; TIMEOUT_PACKET] ∧
         startHeight < e_block_height e ∧ e_block_height e <= endHeight) (message d)).

Definition handleIbcMessage (events : list (Event * Message)) (d : Db) : res Db :=
  rows ← ibcMessages (next_ibc_message_id d) events;
  Ok {| event := event d; message := message d; ibc_message := ibc_message d ++ rows;
        next_ibc_message_id := next_ibc_message_id d + Z.of_nat (length rows);
        ibc_ics20 := ibc_ics20 d; next_ics20_id := next_ics20_id d;
        block_checkpoint := block_checkpoint d |}.

Definition crawlIbcApp (cfg : Config.t) : io Db () :=
  checkpoint_handler cfg CRAWL_IBC_APP
    (λ startHeight endHeight, query (app_events startHeight endHeight))
    (λ _ _ events d, handleIbcMessage events d).
End App.

(** ** Transfers *)

(** The packets of one type of a range with their messages, in the order of
    the messages. *)
Definition packets (type_ : string) (port : IbcMessage → string) (startHeight endHeight : Z) (d : Db)
  : list (IbcMessage * Message) :=
  sortBy (λ r, m_id r.2)
    (ibc_message d ≫= λ msg, pair msg <$>
       filter (λ m, m_id m = im_transaction_message_id msg ∧ port msg = ICS20_PORT ∧
         im_type msg = type_ ∧ startHeight < m_height m ∧ m_height m <= endHeight) (message d)).

(** [message.events(selectIcs20Event)] *)
Definition events_of (m : Message) (types : list string) (d : Db) : list Event :=
  filter (λ e, belongs e m ∧ e_type e ∈ types) (event d).

Definition send_row (r : IbcMessage * Message) : res IbcIcs20 :=
  let '(msg, m) := r in
  let pick (f : PacketData → option string) := im_data msg ≫= f in
  receiver ← required (pick pd_receiver);
  amount ← required (pick pd_amount);
  denom ← required (pick pd_denom);
  Ok {| i_id := 0; i_ibc_message_id := im_id msg; i_sender := pick pd_sender;
        i_receiver := receiver; i_amount := amount; i_denom := denom;
        i_status := STATUS_TYPE.ONGOING; i_channel_id := im_src_channel_id msg;
        i_sequence_key := im_sequence_key msg; i_type := im_type msg; i_memo := pick pd_memo;
        i_start_time := Some (m_timestamp m); i_finish_time := None |}.

(** [s.split('/')] and [l.join('/')] *)
Fixpoint split (s : string) : list string :=
  match s with
  | EmptyString => [""]
  | String c s =>
      if decide (c = "/"%char) then "" :: split s
      else match split s with x :: l => String c x :: l | [] => [String c ""] end
  end.
Fixpoint join (l : list string) : string :=
  match l with
  | [] => ""
  | [x] => x
  | x :: l => (x +:+ "/" +:+ join l)%string
  end.

Definition parseDenom (denom : string) (isSource : bool) (dstPort dstChannel : string) : string :=
  if isSource then join (drop 2 (split denom))
  else (dstPort +:+ "/" +:+ dstChannel +:+ "/" +:+ denom)%string.

Definition is_type (ty : string) (e : Event) : bool := bool_decide (e_type e = ty).

Definition recv_row (events : list Event) (r : IbcMessage * Message) : res IbcIcs20 :=
  let '(msg, m) := r in
  match find (is_type FUNGIBLE_TOKEN_PACKET) events with
  | None => Throw ("Recv ibc hasn't emmitted events: " +:+ toString (im_id msg))
  | Some recvEvent =>
      let attr := getAttributeFrom (e_attributes recvEvent) in
      match attr "denom" with
      | None => Throw ("Recv ibc hasn't emit denom: " +:+ toString (im_id msg))
      | Some originalDenom =>
          let isSource := bool_decide (find (is_type DENOM_TRACE) events = None) in
          let denom := parseDenom originalDenom isSource (im_dst_port_id msg) (im_dst_channel_id msg) in
          receiver ← required (attr "receiver");
          amount ← required (attr "amount");
          Ok {| i_id := 0; i_ibc_message_id := im_id msg; i_sender := attr "sender";
                i_receiver := receiver; i_amount := amount; i_denom := denom;
                i_status := if bool_decide (attr "success" = Some "true") then STATUS_TYPE.ACK_SUCCESS
                            else STATUS_TYPE.ACK_ERROR;
                i_channel_id := im_dst_channel_id msg; i_sequence_key := im_sequence_key msg;
                i_type := im_type msg; i_memo := attr "memo"; i_start_time := None;
                i_finish_time := Some (m_timestamp m) |}
      end
  end.

Definition set_id (id : Z) (r : IbcIcs20) : IbcIcs20 :=
  {| i_id := id; i_ibc_message_id := i_ibc_message_id r; i_sender := i_sender r;
     i_receiver := i_receiver r; i_amount := i_amount r; i_denom := i_denom r;
     i_status := i_status r; i_channel_id := i_channel_id r; i_sequence_key := i_sequence_key r;
     i_type := i_type r; i_memo := i_memo r; i_start_time := i_start_time r;
     i_finish_time := i_finish_time r |}.

Definition set_rows (rows : list IbcIcs20) (next : Z) (d : Db) : Db :=
  {| event := event d; message := message d; ibc_message := ibc_message d;
     next_ibc_message_id := next_ibc_message_id d; ibc_ics20 := rows; next_ics20_id := next;
     block_checkpoint := block_checkpoint d |}.

(** The rows get the next ids of the sequence. *)
Definition insert_rows (rows : list IbcIcs20) (d : Db) : Db :=
  set_rows (ibc_ics20 d ++ imap (λ i r, set_id (next_ics20_id d + Z.of_nat i) r) rows)
    (next_ics20_id d + Z.of_nat (length rows)) d.

Definition handleIcs20Send (startHeight endHeight : Z) (d : Db) : res Db :=
  rows ← mapR send_row (packets SEND_PACKET im_src_port_id startHeight endHeight d);
  Ok (insert_rows rows d).

Definition handleIcs20Recv (startHeight endHeight : Z) (d : Db) : res Db :=
  rows ← mapR (λ r : IbcMessage * Message,
                 recv_row (events_of r.2 [FUNGIBLE_TOKEN_PACKET; DENOM_TRACE] d) r)
           (packets RECV_PACKET im_dst_port_id startHeight endHeight d);
  Ok (insert_rows rows d).

(** ** The status of a transfer that was sent *)
Definition set_status (type_ finish_time : string) (r : IbcIcs20) : IbcIcs20 :=
  {| i_id := i_id r; i_ibc_message_id := i_ibc_message_id r; i_sender := i_sender r;
     i_receiver := i_receiver r; i_amount := i_amount r; i_denom := i_denom r;
     i_status := type_; i_channel_id := i_channel_id r; i_sequence_key := i_sequence_key r;
     i_type := i_type r; i_memo := i_memo r; i_start_time := i_start_time r;
     i_finish_time := Some finish_time |}.

Definition update_send (type_ : string) (byKey : gmap string IbcIcs20) (msg : IbcMessage * Message)
  : res (gmap string IbcIcs20) :=
  match byKey !! im_sequence_key msg.1 with
  | None => Throw "TypeError: Cannot set properties of undefined (setting 'finish_time')"
  | Some r => Ok (<[im_sequence_key msg.1 := set_status type_ (m_timestamp msg.2) r]> byKey)
  end.

(** [.insert(rows).onConflict('id').merge()] for rows that are in the table. *)
Definition merge_rows (objs : list IbcIcs20) (table : list IbcIcs20) : list IbcIcs20 :=
  (λ r, default r (find (λ o, i_id o =? i_id r) objs)) <$> table.

Definition updateOriginSendStatus (msgs : list (IbcMessage * Message)) (type_ : string) (d : Db) : res Db :=
  let byKey := keyBy i_sequence_key
    (filter (λ r, i_sequence_key r ∈ (λ m : IbcMessage * Message, im_sequence_key m.1) <$> msgs ∧
                  i_type r = SEND_PACKET) (ibc_ics20 d)) in
  byKey ← forEachM (update_send type_) byKey msgs;
  Ok (set_rows (merge_rows (map_to_list byKey).*2 (ibc_ics20 d)) (next_ics20_id d) d).

(** [success !== undefined] for the attribute of the second event. *)
Definition ack_success (d : Db) (r : IbcMessage * Message) : res bool :=
  match events_of r.2 [FUNGIBLE_TOKEN_PACKET] d with
  | [_; e] => Ok (bool_decide (is_Some (find (λ a, bool_decide (attr_key a = "success")) (e_attributes e))))
  | _ => Throw ("Ack ibc hasn't emmitted enough events: " +:+ toString (im_id r.1))
  end.

(** [acks.filter(...)] with a test that may throw. *)
Definition acks_with (b : bool) (d : Db) (acks : list (IbcMessage * Message))
  : res (list (IbcMessage * Message)) :=
  l ← mapR (λ r, ok ← ack_success d r; Ok (if bool_decide (ok = b) then [r] else [])) acks;
  Ok (concat l).

Definition handleIcs20Ack (startHeight endHeight : Z) (d : Db) : res Db :=
  let acks := packets ACKNOWLEDGE_PACKET im_src_port_id startHeight endHeight d in
  acksSuccess ← acks_with true d acks;
  d ← updateOriginSendStatus acksSuccess STATUS_TYPE.ACK_SUCCESS d;
  acksError ← acks_with false d acks;
  updateOriginSendStatus acksError STATUS_TYPE.ACK_ERROR d.

Definition handleIcs20Timeout (startHeight endHeight : Z) (d : Db) : res Db :=
  updateOriginSendStatus (packets TIMEOUT_PACKET im_src_port_id startHeight endHeight d)
    STATUS_TYPE.TIMEOUT d.

Definition handle_range (startHeight endHeight : Z) (d : Db) : res Db :=
  d ← handleIcs20Send startHeight endHeight d;
  d ← handleIcs20Recv startHeight endHeight d;
  d ← handleIcs20Ack startHeight endHeight d;
  handleIcs20Timeout startHeight endHeight d.

Definition crawlIbcIcs20 (cfg : Config.t) : io Db () :=
  checkpoint_handler cfg CRAWL_IBC_ICS20 (λ _ _, mret ())
    (λ startHeight endHeight _ d, handle_range startHeight endHeight d).

#[export] Instance crawlIbcApp_job `{PacketCodec} cfg : CheckpointJob cfg CRAWL_IBC_APP (crawlIbcApp cfg).
Proof.
  apply checkpoint_handler_job. constructor; [auto with frames|].
  intros s e w d d'. unfold handleIbcMessage. by intros (rows & _ & [= <-])%bind_Ok.
Qed.

(** ** What an acknowledgement or timeout does to a row *)
Definition keys (msgs : list (IbcMessage * Message)) : list string :=
  (λ m : IbcMessage * Message, im_sequence_key m.1) <$> msgs.

(** The last of the messages about the packet of a row. *)
Definition answer (msgs : list (IbcMessage * Message)) (r : IbcIcs20) : option (IbcMessage * Message) :=
  last (filter (λ m : IbcMessage * Message, im_sequence_key m.1 = i_sequence_key r) msgs).

Definition resolve (type_ : string) (msgs : list (IbcMessage * Message)) (r : IbcIcs20) : IbcIcs20 :=
  if decide (i_type r = SEND_PACKET) then
    match answer msgs r with Some m => set_status type_ (m_timestamp m.2) r | None => r end
  else r.

Lemma resolve_id ty msgs r : i_id (resolve ty msgs r) = i_id r.
Proof. unfold resolve. case_decide; [|done]. by destruct (answer msgs r). Qed.

Lemma answer_None msgs r : i_sequence_key r ∉ keys msgs → answer msgs r = None.
Proof.
  intros Hk. unfold answer. rewrite filter_none; [done|]. intros m Hm Heq. apply Hk. rewrite <-Heq.
  apply list_elem_of_fmap. eauto.
Qed.

Lemma answer_Some msgs r : i_sequence_key r ∈ keys msgs → ∃ m, answer msgs r = Some m.
Proof.
  intros (m & Heq & Hm)%list_elem_of_fmap. unfold answer.
  destruct (last _) as [m'|] eqn:Hl; [eauto|]. apply last_None in Hl. exfalso.
  apply (not_elem_of_nil (A := IbcMessage * Message) m). rewrite <-Hl. by apply list_elem_of_filter.
Qed.

Lemma resolve_snoc ty msgs m r :
  i_type r = SEND_PACKET →
  resolve ty (msgs ++ [m]) r
  = if decide (im_sequence_key m.1 = i_sequence_key r)
    then set_status ty (m_timestamp m.2) (resolve ty msgs r) else resolve ty msgs r.
Proof.
  intros Hr. unfold resolve, answer. destruct (decide (i_type r = SEND_PACKET)); [|done].
  rewrite filter_app, filter_cons, filter_nil. case_decide; [|by rewrite app_nil_r].
  rewrite last_snoc. by destruct (last _).
Qed.

Lemma update_sends ty msgs m0 m :
  (∀ k r, m0 !! k = Some r → i_sequence_key r = k ∧ i_type r = SEND_PACKET) →
  forEachM (update_send ty) m0 msgs = Ok m →
  (∀ k, m !! k = resolve ty msgs <$> m0 !! k) ∧ ∀ x, x ∈ msgs → is_Some (m0 !! im_sequence_key x.1).
Proof.
  intros Hm0. revert m. induction msgs as [|x msgs IH] using rev_ind; intros m; simpl.
  { intros [= <-]. split; [|by intros x ?%not_elem_of_nil]. intros k.
    destruct (m0 !! k) as [r|]; [|done]. simpl. unfold resolve, answer. rewrite filter_nil.
    by case_decide. }
  rewrite forEachM_app. intros (m1 & H1 & (m2 & H2 & [= <-])%bind_Ok)%bind_Ok.
  destruct (IH _ H1) as [Hk Hin]. unfold update_send in H2.
  rewrite Hk in H2. destruct (m0 !! im_sequence_key x.1) as [r|] eqn:Hx; [|done].
  destruct (Hm0 _ _ Hx) as [Hrk Hrt]. injection H2 as <-. split.
  - intros k. rewrite lookup_insert. case_decide as Hkx.
    + subst k. rewrite Hx. simpl. rewrite resolve_snoc by done. by rewrite decide_True.
    + rewrite Hk. destruct (m0 !! k) as [r'|] eqn:Hr'; [|done]. simpl.
      destruct (Hm0 _ _ Hr') as [Hrk' Hrt']. rewrite resolve_snoc by done.
      by rewrite decide_False by congruence.
  - intros y [Hy| ->%list_elem_of_singleton]%elem_of_app; [by apply Hin|]. by rewrite Hx.
Qed.

(** The packets of the transfers that were sent. *)
Definition sends (l : list IbcIcs20) : list string :=
  i_sequence_key <$> filter (λ r, i_type r = SEND_PACKET) l.

(** Rows with their own ids, and one row per packet that was sent. *)
Definition distinct (table : list IbcIcs20) : Prop :=
  NoDup (i_id <$> table) ∧ NoDup (sends table).

Lemma fmap_inj {A B} (f : A → B) (l : list A) x y :
  NoDup (f <$> l) → x ∈ l → y ∈ l → f x = f y → x = y.
Proof.
  intros Hnd [i Hi]%list_elem_of_lookup [j Hj]%list_elem_of_lookup Heq.
  assert (i = j) as ->; [|congruence].
  apply (NoDup_lookup _ _ _ (f x) Hnd); rewrite list_lookup_fmap; [by rewrite Hi|].
  rewrite Hj. simpl. by rewrite Heq.
Qed.

Lemma updateOriginSendStatus_spec msgs ty d d' :
  distinct (ibc_ics20 d) → updateOriginSendStatus msgs ty d = Ok d' →
  d' = set_rows (resolve ty msgs <$> ibc_ics20 d) (next_ics20_id d) d ∧
  ∀ x, x ∈ msgs → ∃ r, r ∈ ibc_ics20 d ∧ i_type r = SEND_PACKET ∧ i_sequence_key r = im_sequence_key x.1.
Proof.
  intros [Hids Hkeys]. unfold updateOriginSendStatus. fold (keys msgs).
  set (F := filter (λ r, i_sequence_key r ∈ keys msgs ∧ i_type r = SEND_PACKET) (ibc_ics20 d)).
  assert (∀ r, r ∈ F ↔ (i_sequence_key r ∈ keys msgs ∧ i_type r = SEND_PACKET) ∧ r ∈ ibc_ics20 d) as HF
    by (intros r; unfold F; by rewrite list_elem_of_filter).
  assert (∀ k r, keyBy i_sequence_key F !! k = Some r → (i_sequence_key r = k ∧ i_type r = SEND_PACKET) ∧ r ∈ F)
    as Hm0 by (intros k r [Hr Hk]%keyBy_Some; apply HF in Hr as Hr'; tauto).
  intros (m & Hm & [= <-])%bind_Ok.
  destruct (update_sends ty msgs _ _ (λ k r H, proj1 (Hm0 k r H)) Hm) as [Hk Hin]. split.
  - f_equal. unfold merge_rows. apply list_fmap_ext. intros i r Hr%list_elem_of_lookup_2.
    assert (∀ o, o ∈ (map_to_list m).*2 → i_id o = i_id r → o = resolve ty msgs r ∧ r ∈ F) as Ho.
    { intros o ((k & o') & -> & Hko)%list_elem_of_fmap Hid. apply elem_of_map_to_list in Hko.
      rewrite Hk in Hko. simpl in *. destruct (keyBy i_sequence_key F !! k) as [r0|] eqn:Hr0; [|done].
      injection Hko as <-. rewrite resolve_id in Hid. apply Hm0 in Hr0 as [_ Hr0].
      apply HF in Hr0 as Hr0'. by rewrite <-(fmap_inj i_id (ibc_ics20 d) r0 r) by tauto. }
    destruct (find _ _) as [o|] eqn:Hf; simpl.
    + apply find_Some in Hf as [Hf Heq]. apply Ho; [done|]. lia.
    + rewrite find_None, Forall_forall in Hf. destruct (decide (i_sequence_key r ∈ keys msgs ∧ i_type r = SEND_PACKET)) as [HrF|HrF].
      * exfalso. assert (keyBy i_sequence_key F !! i_sequence_key r = Some r) as Hkr.
        { apply keyBy_elem; [by apply HF|]. intros y Hy%HF Heq.
          eapply (fmap_inj i_sequence_key); [exact Hkeys|..|exact Heq];
            apply list_elem_of_filter; tauto. }
        specialize (Hf (resolve ty msgs r)). simpl in Hf. rewrite resolve_id, Z.eqb_refl in Hf.
        discriminate Hf. apply list_elem_of_fmap. exists (i_sequence_key r, resolve ty msgs r).
        split; [done|]. apply elem_of_map_to_list. by rewrite Hk, Hkr.
      * unfold resolve. case_decide; [|done]. rewrite answer_None; [done|]. intros Hin'. apply HrF. tauto.
  - intros x Hx. destruct (Hin x Hx) as [r Hr]. apply Hm0 in Hr as [[? ?] Hr]. apply HF in Hr. exists r. tauto.
Qed.

(** ** Acknowledgements *)
Definition acks_of (b : bool) (d : Db) (acks : list (IbcMessage * Message)) : list (IbcMessage * Message) :=
  filter (λ r, ack_success d r = Ok b) acks.

Lemma acks_with_of b d acks l : acks_with b d acks = Ok l → l = acks_of b d acks.
Proof.
  unfold acks_with, acks_of. intros (ls & Hls & [= <-])%bind_Ok. apply mapR_Ok in Hls.
  induction Hls as [|r rs acks ls Hr _ IH]; [done|].
  apply bind_Ok in Hr as (ok & Hok & [= <-]). rewrite filter_cons, Hok. simpl. rewrite IH.
  case_bool_decide; [by rewrite decide_True by congruence|by rewrite decide_False by congruence].
Qed.

(** The answers a range has for the transfers that were sent. *)
Definition acknowledged (b : bool) (s e : Z) (d : Db) : list (IbcMessage * Message) :=
  acks_of b d (packets ACKNOWLEDGE_PACKET im_src_port_id s e d).
Definition timed_out (s e : Z) (d : Db) : list (IbcMessage * Message) :=
  packets TIMEOUT_PACKET im_src_port_id s e d.

Definition settle (s e : Z) (d : Db) (r : IbcIcs20) : IbcIcs20 :=
  resolve STATUS_TYPE.TIMEOUT (timed_out s e d)
    (resolve STATUS_TYPE.ACK_ERROR (acknowledged false s e d)
      (resolve STATUS_TYPE.ACK_SUCCESS (acknowledged true s e d) r)).

Lemma resolve_type ty msgs r : i_type (resolve ty msgs r) = i_type r.
Proof. unfold resolve. case_decide; [|done]. by destruct (answer msgs r). Qed.

Lemma resolve_key ty msgs r : i_sequence_key (resolve ty msgs r) = i_sequence_key r.
Proof. unfold resolve. case_decide; [|done]. by destruct (answer msgs r). Qed.

Lemma sends_resolve ty msgs (table : list IbcIcs20) : sends (resolve ty msgs <$> table) = sends table.
Proof.
  unfold sends. induction table as [|r table IH]; [done|].
  rewrite fmap_cons, !filter_cons, resolve_type. case_decide; [|done].
  rewrite !fmap_cons, resolve_key. by f_equal.
Qed.

Lemma ids_resolve ty msgs (table : list IbcIcs20) : i_id <$> (resolve ty msgs <$> table) = i_id <$> table.
Proof. rewrite <-list_fmap_compose. apply list_fmap_ext. intros i r _. apply resolve_id. Qed.

Lemma distinct_resolve ty msgs table : distinct table → distinct (resolve ty msgs <$> table).
Proof. intros [Hids Hkeys]. split; [by rewrite ids_resolve|by rewrite sends_resolve]. Qed.

(** The tables a status update leaves alone. *)
Definition same_tables (d d' : Db) : Prop :=
  event d' = event d ∧ message d' = message d ∧ ibc_message d' = ibc_message d ∧
  block_checkpoint d' = block_checkpoint d.

Lemma packets_same ty port s e d d' : same_tables d d' → packets ty port s e d' = packets ty port s e d.
Proof. intros (_ & Hm & Hi & _). unfold packets. by rewrite Hm, Hi. Qed.

Lemma acks_of_same b d d' acks : same_tables d d' → acks_of b d' acks = acks_of b d acks.
Proof.
  intros (He & _). unfold acks_of. apply list_filter_iff. intros r. unfold ack_success, events_of.
  by rewrite He.
Qed.

Lemma same_set_rows rows next d : same_tables d (set_rows rows next d).
Proof. by repeat split. Qed.

Lemma same_trans d1 d2 d3 : same_tables d1 d2 → same_tables d2 d3 → same_tables d1 d3.
Proof. intros (? & ? & ? & ?) (? & ? & ? & ?). repeat split; congruence. Qed.

(** The acknowledgements and timeouts of a range, after its sends. *)
Lemma answers_spec s e d d1 d' :
  distinct (ibc_ics20 d) →
  handleIcs20Ack s e d = Ok d1 → handleIcs20Timeout s e d1 = Ok d' →
  d' = set_rows (settle s e d <$> ibc_ics20 d) (next_ics20_id d) d ∧
  ∀ x, x ∈ acknowledged true s e d ++ acknowledged false s e d ++ timed_out s e d →
    ∃ r, r ∈ ibc_ics20 d ∧ i_type r = SEND_PACKET ∧ i_sequence_key r = im_sequence_key x.1.
Proof.
  intros Hd. unfold handleIcs20Ack, handleIcs20Timeout.
  intros (l1 & ->%acks_with_of & (d2 & H2 & (l2 & ->%acks_with_of & H3)%bind_Ok)%bind_Ok)%bind_Ok H4.
  apply updateOriginSendStatus_spec in H2 as [E2 K2]; [|done].
  assert (same_tables d d2) as S2 by (rewrite E2; apply same_set_rows).
  assert (distinct (ibc_ics20 d2)) as D2 by (rewrite E2; by apply distinct_resolve).
  apply updateOriginSendStatus_spec in H3 as [E3 K3]; [|done].
  assert (same_tables d d1) as S3.
  { eapply same_trans; [exact S2|]. rewrite E3. apply same_set_rows. }
  assert (distinct (ibc_ics20 d1)) as D3 by (rewrite E3; by apply distinct_resolve).
  apply updateOriginSendStatus_spec in H4 as [E4 K4]; [|done].
  rewrite (acks_of_same _ d d2) in E3, K3 by done.
  rewrite (packets_same _ _ _ _ d d1) in E4, K4 by done.
  fold (acknowledged true s e d) in E2, K2. fold (acknowledged false s e d) in E3, K3.
  fold (timed_out s e d) in E4, K4. split.
  - rewrite E4, E3, E2. simpl. by rewrite <-!list_fmap_compose.
  - assert (∀ ty msgs (table : list IbcIcs20) x,
      (∃ r, r ∈ resolve ty msgs <$> table ∧ i_type r = SEND_PACKET ∧ i_sequence_key r = im_sequence_key x) →
      ∃ r, r ∈ table ∧ i_type r = SEND_PACKET ∧ i_sequence_key r = im_sequence_key x) as Hback.
    { intros ty msgs table x (r & (r0 & -> & Hin)%list_elem_of_fmap & Ht & Hk).
      rewrite resolve_type in Ht. rewrite resolve_key in Hk. eauto. }
    intros x. rewrite !elem_of_app. intros [Hx|[Hx|Hx]].
    + by apply K2.
    + apply K3 in Hx. rewrite E2 in Hx. by apply Hback in Hx.
    + apply K4 in Hx. rewrite E3 in Hx. apply Hback in Hx. rewrite E2 in Hx. by apply Hback in Hx.
Qed.

(** ** New rows *)
Definition ids_ok (d : Db) : Prop :=
  NoDup (i_id <$> ibc_ics20 d) ∧ ∀ r, r ∈ ibc_ics20 d → i_id r < next_ics20_id d.

Lemma insert_rows_elem rows d r :
  r ∈ imap (λ i r, set_id (next_ics20_id d + Z.of_nat i) r) rows →
  ∃ i r0, rows !! i = Some r0 ∧ r = set_id (next_ics20_id d + Z.of_nat i) r0.
Proof. intros (i & r0 & -> & Hi)%elem_of_lookup_imap_1. eauto. Qed.

Lemma insert_rows_ids rows d : ids_ok d → ids_ok (insert_rows rows d).
Proof.
  intros [Hnd Hlt]. unfold insert_rows, ids_ok. simpl. split.
  - rewrite fmap_app. apply NoDup_app. split; [done|]. split.
    + intros x (r & -> & Hr)%list_elem_of_fmap (r' & Heq & Hr')%list_elem_of_fmap.
      apply insert_rows_elem in Hr' as (i & r0 & _ & ->). specialize (Hlt r Hr). simpl in Heq. lia.
    + apply NoDup_alt. intros i j x. rewrite fmap_imap, !list_lookup_imap.
      destruct (rows !! i), (rows !! j); try done. simpl. intros [= <-] [= ?]. lia.
  - intros r [Hr|Hr]%elem_of_app; [specialize (Hlt r Hr); lia|].
    apply insert_rows_elem in Hr as (i & r0 & Hi & ->). apply lookup_lt_Some in Hi. simpl. lia.
Qed.

Lemma sends_app l1 l2 : sends (l1 ++ l2) = sends l1 ++ sends l2.
Proof. unfold sends. by rewrite filter_app, fmap_app. Qed.

Lemma sends_imap (f : nat → Z) rows : sends (imap (λ i r, set_id (f i) r) rows) = sends rows.
Proof.
  unfold sends. revert f. induction rows as [|r rows IH]; intros f; [done|].
  rewrite imap_cons, !filter_cons. simpl. specialize (IH (f ∘ S)). unfold compose in *.
  case_decide; [rewrite !fmap_cons; simpl; by f_equal|done].
Qed.

Lemma packets_elem ty port s e d (r : IbcMessage * Message) :
  r ∈ packets ty port s e d →
  r.1 ∈ ibc_message d ∧ r.2 ∈ message d ∧ m_id r.2 = im_transaction_message_id r.1 ∧
  port r.1 = ICS20_PORT ∧ im_type r.1 = ty ∧ s < m_height r.2 <= e.
Proof.
  unfold packets. rewrite sortBy_perm, list_elem_of_bind.
  intros (msg & (m & -> & Hm)%list_elem_of_fmap & Hmsg). apply list_elem_of_filter in Hm as [? ?].
  simpl. tauto.
Qed.

Lemma send_row_Ok r row :
  send_row r = Ok row → i_sequence_key row = im_sequence_key r.1 ∧ i_type row = im_type r.1 ∧
    i_status row = STATUS_TYPE.ONGOING.
Proof.
  destruct r as [msg m]. unfold send_row.
  by intros (? & _ & (? & _ & (? & _ & [= <-])%bind_Ok)%bind_Ok)%bind_Ok.
Qed.

Lemma recv_row_Ok events r row : recv_row events r = Ok row → i_type row = im_type r.1.
Proof.
  destruct r as [msg m]. unfold recv_row. destruct (find _ _) as [ev|]; [|done].
  destruct (getAttributeFrom _ _); [|done].
  by intros (? & _ & (? & _ & [= <-])%bind_Ok)%bind_Ok.
Qed.

Lemma send_rows_keys s e d rows :
  mapR send_row (packets SEND_PACKET im_src_port_id s e d) = Ok rows →
  sends rows = keys (packets SEND_PACKET im_src_port_id s e d).
Proof.
  assert (∀ r, r ∈ packets SEND_PACKET im_src_port_id s e d → im_type r.1 = SEND_PACKET) as Hty
    by (intros r Hr%packets_elem; tauto).
  intros H%mapR_Ok. induction H as [|r row l rows Hr _ IH]; [done|].
  apply send_row_Ok in Hr as (Hk & Ht & _). unfold sends, keys in *. rewrite filter_cons, fmap_cons.
  rewrite decide_True by (rewrite Ht; apply Hty; by left). rewrite fmap_cons, Hk. f_equal.
  apply IH. intros r' Hr'. apply Hty. by right.
Qed.

Lemma recv_rows_keys s e d (f : IbcMessage * Message → list Event) rows :
  mapR (λ r, recv_row (f r) r) (packets RECV_PACKET im_dst_port_id s e d) = Ok rows → sends rows = [].
Proof.
  assert (∀ r, r ∈ packets RECV_PACKET im_dst_port_id s e d → im_type r.1 = RECV_PACKET) as Hty
    by (intros r Hr%packets_elem; tauto).
  intros H%mapR_Ok. induction H as [|r row l rows Hr _ IH]; [done|].
  apply recv_row_Ok in Hr. unfold sends in *. rewrite filter_cons, decide_False; [|].
  - apply IH. intros r' Hr'. apply Hty. by right.
  - rewrite Hr, Hty by (by left). done.
Qed.

(** Every packet is sent once. *)
Definition sent_once (s e : Z) (d : Db) : Prop :=
  NoDup (sends (ibc_ics20 d) ++ keys (packets SEND_PACKET im_src_port_id s e d)).

(** The new rows of a range, before the statuses are updated. *)
Definition new_rows (s e : Z) (d : Db) (sent received : list IbcIcs20) : Prop :=
  mapR send_row (packets SEND_PACKET im_src_port_id s e d) = Ok sent ∧
  mapR (λ r : IbcMessage * Message, recv_row (events_of r.2 [FUNGIBLE_TOKEN_PACKET; DENOM_TRACE] d) r)
    (packets RECV_PACKET im_dst_port_id s e d) = Ok received.

Lemma new_rows_sends s e d sent received :
  new_rows s e d sent received →
  sends (ibc_ics20 (insert_rows received (insert_rows sent d)))
  = sends (ibc_ics20 d) ++ keys (packets SEND_PACKET im_src_port_id s e d).
Proof.
  intros [Hsent Hrecv]. unfold insert_rows. simpl. rewrite !sends_app, !sends_imap.
  rewrite (send_rows_keys _ _ _ _ Hsent), (recv_rows_keys _ _ _ _ _ Hrecv). by rewrite app_nil_r.
Qed.

Lemma ics20_range_spec s e d d' :
  ids_ok d → sent_once s e d → handle_range s e d = Ok d' →
  ∃ sent received, new_rows s e d sent received ∧
    let d1 := insert_rows received (insert_rows sent d) in
    ids_ok d1 ∧ d' = set_rows (settle s e d <$> ibc_ics20 d1) (next_ics20_id d1) d ∧
    ∀ x, x ∈ acknowledged true s e d ++ acknowledged false s e d ++ timed_out s e d →
      im_sequence_key x.1 ∈ sends (ibc_ics20 d1).
Proof.
  intros Hids Honce. unfold handle_range, handleIcs20Send, handleIcs20Recv.
  intros (d1 & (sent & Hsent & [= <-])%bind_Ok & (d2 & (received & Hrecv & [= <-])%bind_Ok &
    (d3 & Hack & Hto)%bind_Ok)%bind_Ok)%bind_Ok.
  change (packets RECV_PACKET im_dst_port_id s e (insert_rows sent d))
    with (packets RECV_PACKET im_dst_port_id s e d) in Hrecv.
  assert (new_rows s e d sent received) as Hnew by (split; [done|exact Hrecv]).
  exists sent, received. split; [done|]. pose proof (new_rows_sends _ _ _ _ _ Hnew) as Hsends.
  set (d1 := insert_rows received (insert_rows sent d)) in *.
  assert (ids_ok d1) as Hids1 by (by do 2 apply insert_rows_ids).
  destruct (answers_spec s e d1 d3 d') as [-> Hin]; [|exact Hack|exact Hto|]; cycle 1.
  - split; [done|]. split; [done|].
    change (acknowledged ?b s e d1) with (acknowledged b s e d) in Hin.
    intros x Hx. destruct (Hin x Hx) as (r & Hr & Ht & <-). unfold sends.
    apply list_elem_of_fmap_2, list_elem_of_filter. done.
  - split; [apply Hids1|]. rewrite Hsends. exact Honce.
Qed.

(** When a run gets through, every acknowledgement and timeout was answered. *)
Lemma ack_answered s e d d' x :
  handle_range s e d = Ok d' →
  x ∈ packets ACKNOWLEDGE_PACKET im_src_port_id s e d ++ packets TIMEOUT_PACKET im_src_port_id s e d →
  x ∈ acknowledged true s e d ++ acknowledged false s e d ++ timed_out s e d.
Proof.
  unfold handle_range, handleIcs20Send, handleIcs20Recv.
  intros (d1 & (sent & _ & [= <-])%bind_Ok & (d2 & (received & _ & [= <-])%bind_Ok &
    (d3 & Hack & _)%bind_Ok)%bind_Ok)%bind_Ok.
  rewrite !elem_of_app. intros [Hx|Hx]; [|by right; right].
  unfold handleIcs20Ack in Hack. apply bind_Ok in Hack as (l & Hl & _). unfold acks_with in Hl.
  apply bind_Ok in Hl as (ls & Hls%mapR_Ok & _). apply list_elem_of_lookup in Hx as [i Hi].
  destruct (Forall2_lookup_l _ _ _ _ _ Hls Hi) as (y & _ & Hy).
  apply bind_Ok in Hy as (b & Hb & _). apply list_elem_of_lookup_2 in Hi.
  unfold acknowledged, acks_of. rewrite !list_elem_of_filter. destruct b; [left|right; left]; done.
Qed.

(** The status of a transfer that was sent, after the answers of a range. *)
Definition outcome (s e : Z) (d : Db) (r : IbcIcs20) : string :=
  if decide (i_sequence_key r ∈ keys (timed_out s e d)) then STATUS_TYPE.TIMEOUT
  else if decide (i_sequence_key r ∈ keys (acknowledged false s e d)) then STATUS_TYPE.ACK_ERROR
  else if decide (i_sequence_key r ∈ keys (acknowledged true s e d)) then STATUS_TYPE.ACK_SUCCESS
  else i_status r.

Definition with_status (status : string) (finish_time : option string) (r : IbcIcs20) : IbcIcs20 :=
  {| i_id := i_id r; i_ibc_message_id := i_ibc_message_id r; i_sender := i_sender r;
     i_receiver := i_receiver r; i_amount := i_amount r; i_denom := i_denom r; i_status := status;
     i_channel_id := i_channel_id r; i_sequence_key := i_sequence_key r; i_type := i_type r;
     i_memo := i_memo r; i_start_time := i_start_time r; i_finish_time := finish_time |}.

(** [r'] is [r] up to its status and finish time, which only answers to a
    transfer that was sent change. *)
Definition settled (s e : Z) (d : Db) (r r' : IbcIcs20) : Prop :=
  (i_type r ≠ SEND_PACKET → r' = r) ∧
  (i_type r = SEND_PACKET → ∃ finish_time, r' = with_status (outcome s e d r) finish_time r).

Lemma resolve_send ty msgs r :
  i_type r = SEND_PACKET →
  ∃ ft, resolve ty msgs r
    = with_status (if decide (i_sequence_key r ∈ keys msgs) then ty else i_status r) ft r.
Proof.
  intros Hr. unfold resolve. rewrite decide_True by done. case_decide as Hk.
  - destruct (answer_Some _ _ Hk) as [m ->]. by eexists.
  - rewrite (answer_None _ _ Hk). exists (i_finish_time r). by destruct r.
Qed.

Lemma resolve_other ty msgs r : i_type r ≠ SEND_PACKET → resolve ty msgs r = r.
Proof. intros Hr. unfold resolve. by rewrite decide_False. Qed.

Lemma settle_settled s e d r : settled s e d r (settle s e d r).
Proof.
  unfold settle. split; intros Hr; [by do 3 rewrite (resolve_other _ _ r) by done|].
  destruct (resolve_send STATUS_TYPE.ACK_SUCCESS (acknowledged true s e d) r Hr) as [t1 ->].
  edestruct (resolve_send STATUS_TYPE.ACK_ERROR (acknowledged false s e d)) as [t2 ->]; [exact Hr|].
  edestruct (resolve_send STATUS_TYPE.TIMEOUT (timed_out s e d)) as [t3 ->]; [exact Hr|].
  exists t3. done.
Qed.

Lemma settle_rows s e d (table : list IbcIcs20) :
  i_id <$> (settle s e d <$> table) = i_id <$> table ∧ sends (settle s e d <$> table) = sends table.
Proof.
  assert (settle s e d <$> table
    = resolve STATUS_TYPE.TIMEOUT (timed_out s e d) <$>
        (resolve STATUS_TYPE.ACK_ERROR (acknowledged false s e d) <$>
          (resolve STATUS_TYPE.ACK_SUCCESS (acknowledged true s e d) <$> table))) as ->
    by (by rewrite <-!list_fmap_compose).
  by rewrite !ids_resolve, !sends_resolve.
Qed.

(** ** Denominations and keys *)
Fixpoint no_char (a : Ascii.ascii) (s : string) : bool :=
  match s with
  | EmptyString => true
  | String c s => negb (bool_decide (c = a)) && no_char a s
  end.

Lemma split_head p s : no_char "/" p = true → split (p +:+ "/" +:+ s) = p :: split s.
Proof.
  induction p as [|c p IH]; intros Hp; [done|]. simpl in Hp. apply andb_prop in Hp as [Hc Hp].
  change (String c p +:+ "/" +:+ s)%string with (String c (p +:+ "/" +:+ s)). simpl.
  rewrite decide_False by (apply negb_true_iff, bool_decide_eq_false in Hc; done).
  simpl in IH. by rewrite IH.
Qed.

Lemma split_none s : no_char "/" s = true → split s = [s].
Proof.
  induction s as [|c s IH]; intros Hs; [done|]. simpl in *. apply andb_prop in Hs as [Hc Hs].
  rewrite decide_False by (apply negb_true_iff, bool_decide_eq_false in Hc; done). by rewrite IH.
Qed.

Lemma split_nonempty s : split s ≠ [].
Proof. destruct s as [|c s]; simpl; [done|]. case_decide; [done|]. by destruct (split s). Qed.

Lemma join_cons x l : l ≠ [] → join (x :: l) = (x +:+ "/" +:+ join l)%string.
Proof. by destruct l. Qed.

Lemma join_split s : join (split s) = s.
Proof.
  induction s as [|c s IH]; [done|]. simpl. case_decide as Hc.
  - rewrite join_cons by apply split_nonempty. by rewrite IH, Hc.
  - pose proof (split_nonempty s). destruct (split s) as [|x l]; [done|].
    destruct l as [|y l]; simpl in *; by rewrite <-IH.
Qed.

(** The part of a key before the first dot. *)
Lemma dot_inj a a' b b' :
  no_char "." a = true → no_char "." a' = true →
  (a +:+ "." +:+ b)%string = (a' +:+ "." +:+ b')%string → a = a' ∧ b = b'.
Proof.
  revert a'. induction a as [|c a IH]; intros [|c' a'] Ha Ha' H; simpl in *.
  - by injection H as H.
  - by injection H as <- H.
  - by injection H as -> H.
  - apply andb_prop in Ha as [_ Ha], Ha' as [_ Ha']. injection H as -> H.
    by destruct (IH a' Ha Ha' H) as [-> ->].
Qed.

(** ** Packets and events *)
Lemma ibcMessages_Ok `{PacketCodec} id l rows :
  ibcMessages id l = Ok rows → Forall2 (λ r row, ∃ i, ibcMessage i r = Ok row) l rows.
Proof.
  revert id rows. induction l as [|r l IH]; intros id rows; simpl; [intros [= <-]; constructor|].
  intros (row & Hrow & (rows' & Hrows & [= <-])%bind_Ok)%bind_Ok. constructor; eauto.
Qed.

(** The row of [ibc_message] an event creates. *)
Definition packet_of (r : Event * Message) (msg : IbcMessage) : Prop :=
  let attr := getAttributeFrom (e_attributes r.1) in
  im_type msg = e_type r.1 ∧ im_transaction_message_id msg = m_id r.2 ∧
  attr "packet_src_channel" = Some (im_src_channel_id msg) ∧
  attr "packet_src_port" = Some (im_src_port_id msg) ∧
  attr "packet_dst_channel" = Some (im_dst_channel_id msg) ∧
  attr "packet_dst_port" = Some (im_dst_port_id msg) ∧
  ∃ sequence, attr "packet_sequence" = Some sequence ∧
    im_sequence_key msg = sequence_key (im_src_channel_id msg) (im_src_port_id msg)
      (im_dst_channel_id msg) (im_dst_port_id msg) sequence.

Lemma ibcMessage_of `{PacketCodec} i r msg : ibcMessage i r = Ok msg → packet_of r msg.
Proof.
  destruct r as [e m]. unfold ibcMessage, packet_of.
  intros (? & H1%required_Ok & (? & H2%required_Ok & (? & H3%required_Ok & (? & H4%required_Ok &
    (? & H5%required_Ok & (? & _ & (? & _ & [= <-])%bind_Ok)%bind_Ok)%bind_Ok)%bind_Ok)%bind_Ok)%bind_Ok)%bind_Ok.
  simpl. repeat split; eauto.
Qed.

(** ** Properties *)

(** C18: the life of an ICS-20 transfer.  When every packet is sent once, a run
    over the blocks (s, e] that returns adds one row for every transfer that
    was sent (ongoing) or received in the range, and then settles the rows of
    transfers that were sent, new or old: one with a timeout in the range
    becomes timed out, one with an error acknowledgement failed, one with a
    successful acknowledgement successful, any other keeps its status; nothing
    else changes, ids stay distinct, and every answer belongs to a transfer
    that was sent. *)
Theorem ics20_status cfg s e u d d' :
  jobCheckpoint cfg CRAWL_IBC_ICS20 (block_checkpoint d) = Ok (s, e, u) → s <= e →
  ids_ok d → sent_once s e d → crawlIbcIcs20 cfg d = (d', Ok tt) →
  block_checkpoint d' = <["crawl:ibc-ics20" := e]> (block_checkpoint d) ∧ ids_ok d' ∧
  (∀ x, x ∈ acknowledged true s e d ++ acknowledged false s e d ++ timed_out s e d →
     im_sequence_key x.1 ∈ sends (ibc_ics20 d')) ∧
  ∃ sent received, new_rows s e d sent received ∧
    Forall (λ r, i_status r = STATUS_TYPE.ONGOING) sent ∧
    Forall2 (settled s e d) (ibc_ics20 (insert_rows received (insert_rows sent d))) (ibc_ics20 d').
Proof.
  intros Hj Hse Hids Honce Hrun. apply checkpoint_handler_cases in Hrun as [(_ & _ & s' & e' & u' & Hj' & Hs)|[(msg & [=] & _)|
    (s' & e' & u' & [] & d1 & d2 & Hj' & _ & [= <-] & Hw & -> & _)]];
    unfold checkpoints_of, Db_checkpoints in *; rewrite Hj in Hj'; injection Hj' as <- <- <-.
  { change (Z.ltb e s = true) in Hs. lia. }
  destruct (ics20_range_spec s e d d2) as (sent & received & Hnew & [Hnd Hlt] & -> & Hin); [done..|].
  apply getCheckpoint_Ok in Hj as (_ & -> & _). simpl. split; [done|].
  set (d1 := insert_rows received (insert_rows sent d)) in *.
  destruct (settle_rows s e d (ibc_ics20 d1)) as [Hrows Hsends]. split; [split; simpl|split].
  - change (NoDup (i_id <$> (settle s e d <$> ibc_ics20 d1))). by rewrite Hrows.
  - intros r (r0 & -> & Hr)%list_elem_of_fmap. unfold settle. rewrite !resolve_id. by apply Hlt.
  - change (∀ x, x ∈ acknowledged true s e d ++ acknowledged false s e d ++ timed_out s e d →
      im_sequence_key x.1 ∈ sends (settle s e d <$> ibc_ics20 d1)). by rewrite Hsends.
  - exists sent, received. split; [done|]. split.
    + destruct Hnew as [Hsent%mapR_Ok _]. apply Forall_forall. intros r [i Hi]%list_elem_of_lookup.
      destruct (Forall2_lookup_r _ _ _ _ _ Hsent Hi) as (x & _ & Hx). apply send_row_Ok in Hx. tauto.
    + apply Forall2_fmap_r, Forall_Forall2_diag, Forall_forall. intros r _. apply settle_settled.
Qed.

(** An answer without a transfer.  When an acknowledgement or a timeout of
    the range is about a packet of the transfer port that no row of the table
    and no sending of the range has (a packet sent before the start block), the
    run throws and changes nothing, so the job never gets past that block. *)
Theorem ack_without_send cfg s e u d x :
  jobCheckpoint cfg CRAWL_IBC_ICS20 (block_checkpoint d) = Ok (s, e, u) → s <= e →
  ids_ok d → sent_once s e d →
  x ∈ packets ACKNOWLEDGE_PACKET im_src_port_id s e d ++ packets TIMEOUT_PACKET im_src_port_id s e d →
  im_sequence_key x.1 ∉ sends (ibc_ics20 d) ++ keys (packets SEND_PACKET im_src_port_id s e d) →
  ∃ msg, crawlIbcIcs20 cfg d = (d, Throw msg).
Proof.
  intros Hj Hse Hids Honce Hx Hnone.
  unfold crawlIbcIcs20, checkpoint_handler, readCheckpoint, mbind, io_bind, commit, mret, io_ret.
  unfold checkpoints_of, Db_checkpoints. rewrite Hj. simpl.
  rewrite (proj2 (Z.ltb_ge _ _)) by done.
  destruct (handle_range s e d) as [d'|msg] eqn:Hw; [|simpl; eauto]. exfalso.
  destruct (ics20_range_spec s e d d') as (sent & received & Hnew & _ & _ & Hin); [done..|].
  apply Hnone. rewrite <-(new_rows_sends _ _ _ _ _ Hnew). by eapply Hin, ack_answered.
Qed.

(** Denominations.  A token that was received and is sent back gets the
    denomination it had; but a token that is received without a
    [denomination_trace] event, which is also the case of every transfer that
    failed, loses its name when it has no path. *)
Theorem ics20_denoms :
  (∀ denom port channel port' channel',
     no_char "/" port = true → no_char "/" channel = true →
     parseDenom (parseDenom denom false port channel) true port' channel' = denom) ∧
  (∀ events r row denom,
     recv_row events r = Ok row → find (is_type DENOM_TRACE) events = None →
     (find (is_type FUNGIBLE_TOKEN_PACKET) events ≫= λ e, getAttributeFrom (e_attributes e) "denom") = Some denom →
     no_char "/" denom = true → i_denom row = "").
Proof.
  split.
  - intros denom port channel port' channel' Hp Hc. unfold parseDenom.
    rewrite split_head by done. rewrite split_head by done. simpl. apply join_split.
  - intros events [msg m] row denom. unfold recv_row.
    destruct (find (is_type FUNGIBLE_TOKEN_PACKET) events) as [e|]; [|done]. simpl.
    intros Hrow Htrace Hdenom Hn. rewrite Hdenom, Htrace, bool_decide_true in Hrow by done.
    revert Hrow. intros (? & _ & (? & _ & [= <-])%bind_Ok)%bind_Ok. simpl.
    unfold parseDenom. by rewrite split_none.
Qed.

(** Packets.  A run of the packet job that returns either has nothing to do
    or moves the checkpoint and adds one packet per event of the range, in the
    order of the events; and when channels, ports and sequences have no dot,
    two packets have the same key only if they are the same packet. *)
Theorem app_packets `{PacketCodec} cfg d d' :
  crawlIbcApp cfg d = (d', Ok tt) →
  ∃ s e u, jobCheckpoint cfg CRAWL_IBC_APP (block_checkpoint d) = Ok (s, e, u) ∧
    (e < s ∧ d' = d ∨
     s <= e ∧ block_checkpoint d' = <["crawl:ibc-app" := e]> (block_checkpoint d) ∧
     ∃ new, ibc_message d' = ibc_message d ++ new ∧ Forall2 packet_of (app_events s e d) new) ∧
  ∀ c p c2 p2 n c' p' c2' p2' n',
    Forall (λ x, no_char "." x = true) [c; p; c2; p2; c'; p'; c2'; p2'] →
    sequence_key c p c2 p2 n = sequence_key c' p' c2' p2' n' →
    (c, p, c2, p2, n) = (c', p', c2', p2', n').
Proof.
  intros Hrun. apply checkpoint_handler_cases in Hrun as [(-> & _ & s & e & u & Hj & Hs)|[(msg & [=] & _)|
    (s & e & u & w & d1 & d2 & Hj & Hs & [= <- <-] & Hw & -> & _)]]; exists s, e, u; (split; [done|]); (split; [|]).
  all: try (intros c p c2 p2 n c' p' c2' p2' n' Hall Hkey; repeat (apply Forall_cons in Hall as [? Hall]);
    unfold sequence_key in Hkey; do 4 (apply dot_inj in Hkey as [-> Hkey]; [|done..]); by subst).
  { left. change (Z.ltb e s = true) in Hs. split; [lia|done]. }
  right. change (Z.ltb e s = false) in Hs. split; [lia|]. apply getCheckpoint_Ok in Hj as (_ & -> & _).
  unfold handleIbcMessage in Hw. apply bind_Ok in Hw as (rows & Hrows & [= <-]). simpl.
  split; [done|]. exists rows. split; [done|]. apply ibcMessages_Ok in Hrows.
  eapply Forall2_impl; [exact Hrows|]. intros r row [i Hr]. by eapply ibcMessage_of.
Qed.

(** ** Witnesses: packet 5 is sent and acknowledged, a packet of another chain
    is received and fails. *)
#[local] Instance demo_codec : PacketCodec := {
  fromHexUtf8 s := Ok s;
  parseJson s := if decide (s = "") then Throw "invalid input syntax for type json"
    else Ok {| pd_sender := Some "alice"; pd_receiver := Some "bob"; pd_amount := Some "7";
               pd_denom := Some s; pd_memo := None |} }.

Definition demo_packet (id : Z) (ty : string) (sequence : string) (msg : Z) : Event := {|
  e_id := id; e_type := ty; e_block_height := 4860001; e_tx_id := msg; e_tx_msg_index := Some 0;
  e_attributes := [Attribute "packet_src_channel" (Some "channel-0"); Attribute "packet_src_port" (Some "transfer");
    Attribute "packet_dst_channel" (Some "channel-7"); Attribute "packet_dst_port" (Some "transfer");
    Attribute "packet_sequence" (Some sequence); Attribute "packet_data_hex" (Some "uaura")] |}.
Definition demo_ft (id : Z) (msg : Z) (attrs : list attribute) : Event := {|
  e_id := id; e_type := FUNGIBLE_TOKEN_PACKET; e_block_height := 4860001; e_tx_id := msg; e_tx_msg_index := Some 0;
  e_attributes := attrs |}.
Definition demo_message (id : Z) : Message := {|
  m_id := id; m_tx_id := id; m_index := 0; m_tx_hash := "H"; m_height := 4860001; m_timestamp := "2023" |}.
Definition demo_db : Db := {|
  event := [demo_packet 11 SEND_PACKET "5" 1; demo_packet 12 ACKNOWLEDGE_PACKET "5" 2;
            demo_ft 13 2 []; demo_ft 14 2 [Attribute "success" (Some "x")];
            demo_packet 15 RECV_PACKET "9" 3;
            demo_ft 16 3 [Attribute "receiver" (Some "carol"); Attribute "amount" (Some "4");
                          Attribute "denom" (Some "uatom"); Attribute "success" (Some "false")]];
  message := demo_message <$> [1; 2; 3]; ibc_message := []; next_ibc_message_id := 1;
  ibc_ics20 := []; next_ics20_id := 1;
  block_checkpoint := {[ "crawl:ibc-tao" := 4860002 ]} |}.
Definition demo_app : Db := (crawlIbcApp Config.json demo_db).1.
Definition demo_ics20 : Db := (crawlIbcIcs20 Config.json demo_app).1.

Lemma app_packets_witness :
  (im_sequence_key <$> ibc_message demo_app)
    = ["channel-0.transfer.channel-7.transfer.5"; "channel-0.transfer.channel-7.transfer.5";
       "channel-0.transfer.channel-7.transfer.9"] ∧
  ∃ s e u, jobCheckpoint Config.json CRAWL_IBC_APP (block_checkpoint demo_db) = Ok (s, e, u) ∧
    (e < s ∨ s <= e ∧ ∃ new, ibc_message demo_app = [] ++ new ∧ Forall2 packet_of (app_events s e demo_db) new).
Proof.
  split; [vm_compute; reflexivity|].
  destruct (app_packets Config.json demo_db demo_app) as (s & e & u & Hj & H & _); [vm_compute; reflexivity|].
  exists s, e, u. split; [exact Hj|].
  destruct H as [[H _]|(H & _ & Hnew)]; [left; exact H|right; exact (conj H Hnew)].
Defined.

Definition demo_checkpoint : BlockCheckpoint := {| job_name := "crawl:ibc-ics20"; height := 4860000 |}.

Lemma ics20_status_witness :
  ((λ r, (i_denom r, i_status r)) <$> ibc_ics20 demo_ics20)
    = [("uaura", STATUS_TYPE.ACK_SUCCESS); ("", STATUS_TYPE.ACK_ERROR)] ∧
  ids_ok demo_ics20 ∧
  ∃ sent received, new_rows 4860000 4860002 demo_app sent received ∧
    Forall2 (settled 4860000 4860002 demo_app)
      (ibc_ics20 (insert_rows received (insert_rows sent demo_app))) (ibc_ics20 demo_ics20).
Proof.
  split; [vm_compute; reflexivity|].
  destruct (ics20_status Config.json 4860000 4860002 demo_checkpoint demo_app demo_ics20)
    as (_ & Hids & _ & sent & received & Hnew & _ & Hset);
    [vm_compute; reflexivity|lia| | |vm_compute; reflexivity|].
  - split; [vm_compute; constructor|]. intros r Hr. vm_compute in Hr. inversion Hr.
  - by_compute.
  - split; [exact Hids|]. exists sent, received. exact (conj Hnew Hset).
Defined.

(** The same acknowledgement without its sending. *)
Definition demo_late : Db := {|
  event := event demo_app; message := message demo_app;
  ibc_message := drop 1 (ibc_message demo_app); next_ibc_message_id := 4;
  ibc_ics20 := []; next_ics20_id := 1; block_checkpoint := block_checkpoint demo_app |}.

Lemma ack_without_send_witness : ∃ msg, crawlIbcIcs20 Config.json demo_late = (demo_late, Throw msg).
Proof.
  destruct (packets ACKNOWLEDGE_PACKET im_src_port_id 4860000 4860002 demo_late) as [|x l] eqn:Hx;
    [vm_compute in Hx; discriminate|].
  apply (ack_without_send Config.json 4860000 4860002 demo_checkpoint demo_late x);
    [vm_compute; reflexivity|lia| |by_compute|rewrite Hx; left|].
  - split; [vm_compute; constructor|]. intros r Hr. vm_compute in Hr. inversion Hr.
  - vm_compute in Hx. injection Hx as <- _. by_compute.
Defined.
