(* ===== verification/Erc20.v ===== *)
(** * ERC-20 activities and balances

    [services/evm/erc20_handler.ts]: EVM logs and Cosmos conversion events
    become rows of [erc20_activity]; the handler folds the activities of a
    block range, in order, over the account balances and the total supply of
    the contracts.  Amounts are decimal strings and all arithmetic is on
    big integers. *)
From S2P Require Import Prelude JsNum.

Definition ZERO_ADDRESS := "0x0000000000000000000000000000000000000000".

Module ERC20_ACTION.
Definition TRANSFER := "transfer".
Definition APPROVAL := "approval".
Definition DEPOSIT := "deposit".
Definition WITHDRAWAL := "withdrawal".
End ERC20_ACTION.

(** A row of [erc20_activity]; [from_account_id] and [to_account_id] are the
    columns [getErc20Activities] joins from [account], null when there is no
    account with the address. *)
Record Erc20Activity := {
  ea_sender : option string;
  ea_action : string;
  ea_contract : string;          (* erc20_contract_address *)
  ea_amount : option string;
  ea_from : option string;
  ea_to : option string;
  ea_height : Z;
  ea_tx_hash : string;
  ea_cosmos_tx_id : Z;
  ea_evm_event_id : option Z;
  ea_cosmos_event_id : option Z;
  ea_from_account_id : option Z;
  ea_to_account_id : option Z
}.

Record AccountBalance := {
  ab_account_id : option Z;
  ab_denom : string;
  ab_amount : option string;
  ab_last_updated_height : option Z;
  ab_type : string
}.
Definition ERC20_TOKEN := "ERC20_TOKEN".

Record Erc20Contract := {
  ec_address : string;
  ec_total_supply : option string;
  ec_last_updated_height : option Z;
  ec_track : bool;
  ec_evm_smart_contract_id : Z;
  ec_symbol : option string;
  ec_decimal : option string;
  ec_name : option string
}.

Record Erc20Handler := {
  accountBalances : gmap string AccountBalance;
  erc20Contracts : gmap string Erc20Contract
}.

Definition set_balance (k : string) (b : AccountBalance) (h : Erc20Handler) : Erc20Handler :=
  {| accountBalances := <[k := b]> (accountBalances h); erc20Contracts := erc20Contracts h |}.

Definition set_contract (k : string) (c : Erc20Contract) (h : Erc20Handler) : Erc20Handler :=
  {| accountBalances := accountBalances h; erc20Contracts := <[k := c]> (erc20Contracts h) |}.

(** [`${accountId}_${erc20ContractAddress}`] *)
Definition balance_key (id : option Z) (addr : string) : string := key2 (show_id id) addr.

(** ** The handler *)

(** [erc20Activity.height < balance.last_updated_height], null being 0. *)
Definition stale (height : Z) (b : option AccountBalance) : bool :=
  match b with
  | Some b => height <? default 0 (ab_last_updated_height b)
  | None => false
  end.

(** Replaces the balance of an account by [op old amount]. *)
Definition write_balance (a : Erc20Activity) (id : option Z) (op : Z → Z → Z)
    (who : string) (h : Erc20Handler) : res Erc20Handler :=
  let key := balance_key id (ea_contract a) in
  let bal := accountBalances h !! key in
  if stale (ea_height a) bal then
    Throw ("Process erc20 balance: " +:+ who +:+ " was updated")
  else
    old ← BigInt_or_0 (bal ≫= ab_amount);
    amt ← BigInt_opt (ea_amount a);
    Ok (set_balance key {|
      ab_denom := ea_contract a;
      ab_amount := Some (toString (op old amt));
      ab_last_updated_height := Some (ea_height a);
      ab_account_id := id;
      ab_type := ERC20_TOKEN |} h).

(** Replaces the total supply of a contract by [op old amount], unless it is
    null.  The contract is the object of the dictionary, mutated in place. *)
Definition write_supply (a : Erc20Activity) (op : Z → Z → Z) (h : Erc20Handler)
  : res Erc20Handler :=
  match erc20Contracts h !! ea_contract a with
  | None => Ok h
  | Some c =>
      match ec_total_supply c with
      | None => Ok h
      | Some s =>
          old ← BigInt s;
          amt ← BigInt_opt (ea_amount a);
          Ok (set_contract (ea_contract a) {|
            ec_address := ec_address c;
            ec_total_supply := Some (toString (op old amt));
            ec_last_updated_height := Some (ea_height a);
            ec_track := ec_track c;
            ec_evm_smart_contract_id := ec_evm_smart_contract_id c;
            ec_symbol := ec_symbol c; ec_decimal := ec_decimal c; ec_name := ec_name c |} h)
      end
  end.

Definition not_zero (o : option string) : bool := negb (bool_decide (o = Some ZERO_ADDRESS)).

(** The sender: its balance goes down, or tokens are minted. *)
Definition from_half (h : Erc20Handler) (a : Erc20Activity) : res Erc20Handler :=
  if not_zero (ea_from a)
  then write_balance a (ea_from_account_id a) Z.sub
         ("fromAccountBalance " +:+ default "null" (ea_from a)) h
  else write_supply a Z.add h.

(** The receiver: its balance goes up, or tokens are burned. *)
Definition to_half (h : Erc20Handler) (a : Erc20Activity) : res Erc20Handler :=
  if not_zero (ea_to a)
  then write_balance a (ea_to_account_id a) Z.add
         ("toAccountBalance " +:+ default "null" (ea_to a)) h
  else write_supply a Z.sub h.

Definition handlerErc20Transfer (h : Erc20Handler) (a : Erc20Activity) : res Erc20Handler :=
  match erc20Contracts h !! ea_contract a with
  | None => Throw ("Erc20 contract not found:" +:+ ea_contract a)
  | Some _ => h1 ← from_half h a; to_half h1 a
  end.

Definition is_transfer (a : Erc20Activity) : bool :=
  bool_decide (ea_action a ∈ [ERC20_ACTION.TRANSFER; ERC20_ACTION.DEPOSIT; ERC20_ACTION.WITHDRAWAL]).

Definition process_one (h : Erc20Handler) (a : Erc20Activity) : res Erc20Handler :=
  if is_transfer a then handlerErc20Transfer h a else Ok h.

Definition process (h : Erc20Handler) (acts : list Erc20Activity) : res Erc20Handler :=
  forEachM process_one h acts.

(** ** Specification: the ledger

    The amount a balance stands for, the supply of a contract, and what an
    activity moves. *)
Definition int_or_0 (r : res Z) : Z := match r with Ok z => z | Throw _ => 0 end.

Definition amount_of (b : option AccountBalance) : Z := int_or_0 (BigInt_or_0 (b ≫= ab_amount)).
Definition bal (h : Erc20Handler) (k : string) : Z := amount_of (accountBalances h !! k).
Definition act_amount (a : Erc20Activity) : Z := int_or_0 (BigInt_opt (ea_amount a)).

Definition has_supply (h : Erc20Handler) (addr : string) : bool :=
  match erc20Contracts h !! addr with
  | Some c => match ec_total_supply c with Some _ => true | None => false end
  | None => false
  end.
Definition supply (h : Erc20Handler) (addr : string) : Z :=
  match erc20Contracts h !! addr with
  | Some c => match ec_total_supply c with Some s => int_or_0 (BigInt s) | None => 0 end
  | None => 0
  end.

(** What the activity adds to the balance with key [k]. *)
Definition flow (k : string) (a : Erc20Activity) : Z :=
  if is_transfer a then
    (if not_zero (ea_to a) && bool_decide (balance_key (ea_to_account_id a) (ea_contract a) = k)
     then act_amount a else 0)
    - (if not_zero (ea_from a) && bool_decide (balance_key (ea_from_account_id a) (ea_contract a) = k)
       then act_amount a else 0)
  else 0.

(** What it adds to the supply of [addr]: the amount minted less the amount
    burned. *)
Definition minted (addr : string) (a : Erc20Activity) : Z :=
  if is_transfer a && bool_decide (ea_contract a = addr) then
    (if not_zero (ea_from a) then 0 else act_amount a)
    - (if not_zero (ea_to a) then 0 else act_amount a)
  else 0.

(** ** Lemmas *)
Lemma write_balance_Ok a id op who h h' :
  write_balance a id op who h = Ok h' →
  let k := balance_key id (ea_contract a) in
  erc20Contracts h' = erc20Contracts h ∧
  stale (ea_height a) (accountBalances h !! k) = false ∧
  ∃ b, accountBalances h' = <[k := b]> (accountBalances h) ∧
       ab_account_id b = id ∧ ab_denom b = ea_contract a ∧
       ab_last_updated_height b = Some (ea_height a) ∧
       amount_of (Some b) = op (bal h k) (act_amount a).
Proof.
  unfold write_balance. intros H. simpl. set (k := balance_key _ _) in *.
  destruct (stale _ _) eqn:Hst; [done|]. inv_ok H. simplify_eq/=.
  split; [done|]. split; [done|]. eexists. split; [done|]. repeat (split; [done|]).
  unfold amount_of, bal, act_amount. simpl.
  rewrite decide_False by apply toString_nonempty. rewrite BigInt_toString.
  unfold amount_of. by rewrite Ha, Ha0.
Qed.

Lemma write_balance_bal a id op who h h' k :
  write_balance a id op who h = Ok h' →
  bal h' k = if bool_decide (balance_key id (ea_contract a) = k)
             then op (bal h k) (act_amount a) else bal h k.
Proof.
  intros (_ & _ & b & Hb & _ & _ & _ & Ham)%write_balance_Ok.
  unfold bal in *. rewrite Hb, lookup_insert.
  destruct (decide (balance_key id (ea_contract a) = k)) as [<-|Hne].
  - by rewrite bool_decide_eq_true_2.
  - by rewrite bool_decide_eq_false_2.
Qed.

Lemma write_balance_supply a id op who h h' addr :
  write_balance a id op who h = Ok h' → supply h' addr = supply h addr ∧ has_supply h' addr = has_supply h addr.
Proof.
  intros (Hc & _)%write_balance_Ok. unfold supply, has_supply. by rewrite Hc.
Qed.

Lemma write_supply_Ok a op h h' :
  write_supply a op h = Ok h' →
  accountBalances h' = accountBalances h ∧
  ∀ addr, has_supply h' addr = has_supply h addr ∧
    supply h' addr =
      if bool_decide (ea_contract a = addr) && has_supply h addr
      then op (supply h addr) (act_amount a) else supply h addr.
Proof.
  unfold write_supply, supply, has_supply, act_amount. intros H.
  destruct (erc20Contracts h !! ea_contract a) as [c|] eqn:Hc; simplify_eq.
  - destruct (ec_total_supply c) as [s|] eqn:Hs; simplify_eq.
    + inv_ok H. simplify_eq/=. split; [done|]. intros addr. rewrite lookup_insert.
      destruct (decide (ea_contract a = addr)) as [<-|Hne].
      * rewrite bool_decide_eq_true_2, Hc by done. simpl. rewrite Hs. simpl.
        by rewrite BigInt_toString, Ha, Ha0.
      * by rewrite bool_decide_eq_false_2.
    + split; [done|]. intros addr. split; [done|]. case_bool_decide; simplify_eq/=; [|done].
      by rewrite Hc, Hs.
  - split; [done|]. intros addr. split; [done|]. case_bool_decide; simplify_eq/=; [|done].
    by rewrite Hc.
Qed.

Lemma write_supply_bal a op h h' k : write_supply a op h = Ok h' → bal h' k = bal h k.
Proof. intros [Hb _]%write_supply_Ok. unfold bal. by rewrite Hb. Qed.

Lemma handlerErc20Transfer_Ok h a h' :
  handlerErc20Transfer h a = Ok h' →
  ∃ h1, from_half h a = Ok h1 ∧ to_half h1 a = Ok h'.
Proof.
  unfold handlerErc20Transfer. destruct (_ !! _); [|done].
  intros H. inv_ok H. eauto.
Qed.

Lemma process_one_bal h a h' k :
  process_one h a = Ok h' → bal h' k = bal h k + flow k a.
Proof.
  unfold process_one, flow. destruct (is_transfer a); [|intros [= <-]; lia].
  intros (h1 & H1 & H2)%handlerErc20Transfer_Ok. unfold from_half, to_half in *.
  destruct (not_zero (ea_from a)); [apply (write_balance_bal _ _ _ _ _ _ k) in H1
                                   |apply (write_supply_bal _ _ _ _ k) in H1];
  destruct (not_zero (ea_to a)); [apply (write_balance_bal _ _ _ _ _ _ k) in H2
                                 |apply (write_supply_bal _ _ _ _ k) in H2
                                 |apply (write_balance_bal _ _ _ _ _ _ k) in H2
                                 |apply (write_supply_bal _ _ _ _ k) in H2];
  rewrite H2, H1; repeat case_bool_decide; simpl; lia.
Qed.

Lemma process_one_supply h a h' addr :
  process_one h a = Ok h' →
  has_supply h' addr = has_supply h addr ∧
  supply h' addr = supply h addr + (if has_supply h addr then minted addr a else 0).
Proof.
  unfold process_one, minted. destruct (is_transfer a); [|intros [= <-]; simpl; destruct (has_supply h addr); split; lia || done].
  intros (h1 & H1 & H2)%handlerErc20Transfer_Ok. unfold from_half, to_half in *.
  assert (has_supply h1 addr = has_supply h addr ∧
          supply h1 addr = supply h addr +
            (if has_supply h addr && bool_decide (ea_contract a = addr) && negb (not_zero (ea_from a))
             then act_amount a else 0)) as [Hh1 Hs1].
  { destruct (not_zero (ea_from a)).
    - apply (write_balance_supply _ _ _ _ _ _ addr) in H1 as [-> ->].
      rewrite andb_false_r. split; [done|lia].
    - apply write_supply_Ok in H1 as [_ H1]. destruct (H1 addr) as [-> ->].
      split; [done|]. repeat case_bool_decide; destruct (has_supply h addr); simpl; lia. }
  assert (has_supply h' addr = has_supply h1 addr ∧
          supply h' addr = supply h1 addr -
            (if has_supply h1 addr && bool_decide (ea_contract a = addr) && negb (not_zero (ea_to a))
             then act_amount a else 0)) as [Hh2 Hs2].
  { destruct (not_zero (ea_to a)).
    - apply (write_balance_supply _ _ _ _ _ _ addr) in H2 as [-> ->].
      rewrite andb_false_r. split; [done|lia].
    - apply write_supply_Ok in H2 as [_ H2]. destruct (H2 addr) as [-> ->].
      split; [done|]. repeat case_bool_decide; destruct (has_supply h1 addr); simpl; lia. }
  rewrite Hh2, Hh1, Hs2, Hs1, Hh1. split; [done|].
  repeat case_bool_decide; destruct (has_supply h addr), (not_zero (ea_from a)), (not_zero (ea_to a));
    simpl; lia.
Qed.

(** ** Conservation *)

(** Every balance is stored under its own key. *)
Definition keyed (h : Erc20Handler) : Prop :=
  ∀ k b, accountBalances h !! k = Some b → k = balance_key (ab_account_id b) (ab_denom b).

Lemma balance_key_inj i i' d d' :
  balance_key i d = balance_key i' d' → i = i' ∧ d = d'.
Proof. intros [?%show_id_inj ?]%key2_inj; auto. Qed.

(** The sum of the balances in the contract's token. *)
Definition holdings (addr : string) (h : Erc20Handler) : Z :=
  map_sum (λ b, if bool_decide (ab_denom b = addr) then amount_of (Some b) else 0)
          (accountBalances h).

Lemma write_balance_keyed a id op who h h' :
  write_balance a id op who h = Ok h' → keyed h → keyed h'.
Proof.
  intros (_ & _ & b & Hb & Hid & Hd & _)%write_balance_Ok Hk k b'. rewrite Hb, lookup_insert.
  case_decide as Heq; [|apply Hk]. intros [= <-]. subst. by rewrite Hd.
Qed.

Lemma write_balance_holdings a id op who h h' addr :
  write_balance a id op who h = Ok h' → keyed h →
  holdings addr h' = holdings addr h +
    (if bool_decide (ea_contract a = addr)
     then op (bal h (balance_key id (ea_contract a))) (act_amount a)
          - bal h (balance_key id (ea_contract a)) else 0).
Proof.
  intros (_ & _ & b & Hb & Hid & Hd & _ & Ham)%write_balance_Ok Hk.
  unfold holdings. rewrite Hb, map_sum_insert, Hd, Ham.
  set (k := balance_key id (ea_contract a)) in *.
  unfold bal. destruct (accountBalances h !! k) as [b0|] eqn:Hb0.
  - simpl. apply Hk in Hb0 as Hkey. apply balance_key_inj in Hkey as [_ <-].
    case_bool_decide; lia.
  - simpl. change (amount_of None) with 0. case_bool_decide; lia.
Qed.

Lemma write_supply_holdings a op h h' addr :
  write_supply a op h = Ok h' → holdings addr h' = holdings addr h ∧ (keyed h → keyed h').
Proof.
  intros [Hb _]%write_supply_Ok. unfold holdings, keyed. by rewrite Hb.
Qed.

(** What is minted is held: the supply less the holdings does not change. *)
Lemma process_one_holdings h a h' addr :
  process_one h a = Ok h' → keyed h →
  keyed h' ∧ holdings addr h' = holdings addr h + minted addr a.
Proof.
  unfold process_one, minted. destruct (is_transfer a); [|intros [= <-] ?; simpl; split; [done|lia]].
  intros (h1 & H1 & H2)%handlerErc20Transfer_Ok Hk. unfold from_half, to_half in *.
  assert (keyed h1 ∧ holdings addr h1 = holdings addr h -
    (if bool_decide (ea_contract a = addr) && not_zero (ea_from a) then act_amount a else 0))
    as [Hk1 Hh1].
  { destruct (not_zero (ea_from a)).
    - split; [by eapply write_balance_keyed|].
      rewrite (write_balance_holdings _ _ _ _ _ _ addr H1 Hk).
      case_bool_decide; simpl; lia.
    - destruct (write_supply_holdings _ _ _ _ addr H1) as [-> ?].
      rewrite andb_false_r. split; [auto|lia]. }
  assert (keyed h' ∧ holdings addr h' = holdings addr h1 +
    (if bool_decide (ea_contract a = addr) && not_zero (ea_to a) then act_amount a else 0))
    as [Hk2 Hh2].
  { destruct (not_zero (ea_to a)).
    - split; [by eapply write_balance_keyed|].
      rewrite (write_balance_holdings _ _ _ _ _ _ addr H2 Hk1).
      case_bool_decide; simpl; lia.
    - destruct (write_supply_holdings _ _ _ _ addr H2) as [-> ?].
      rewrite andb_false_r. split; [auto|lia]. }
  split; [done|]. rewrite Hh2, Hh1.
  case_bool_decide; destruct (not_zero (ea_from a)), (not_zero (ea_to a)); simpl; lia.
Qed.

(** ** Heights *)
Definition updated_height (h : Erc20Handler) (k : string) : Z :=
  match accountBalances h !! k with Some b => default 0 (ab_last_updated_height b) | None => 0 end.

Lemma write_balance_heights a id op who h h' k :
  0 <= ea_height a → write_balance a id op who h = Ok h' →
  updated_height h k <= updated_height h' k.
Proof.
  intros H0 (_ & Hst & b & Hb & _ & _ & Hh & _)%write_balance_Ok.
  unfold updated_height. rewrite Hb, lookup_insert. case_decide as Heq; [|lia].
  subst k. rewrite Hh. simpl. unfold stale in Hst.
  destruct (accountBalances h !! _); simpl in *; lia.
Qed.

Lemma process_one_heights h a h' k :
  0 <= ea_height a → process_one h a = Ok h' → updated_height h k <= updated_height h' k.
Proof.
  intros H0. unfold process_one. destruct (is_transfer a); [|intros [= <-]; lia].
  intros (h1 & H1 & H2)%handlerErc20Transfer_Ok. unfold from_half, to_half in *.
  transitivity (updated_height h1 k).
  - destruct (not_zero (ea_from a)); [by eapply write_balance_heights|].
    apply write_supply_Ok in H1 as [Hb _]. unfold updated_height. by rewrite Hb.
  - destruct (not_zero (ea_to a)); [by eapply write_balance_heights|].
    apply write_supply_Ok in H2 as [Hb _]. unfold updated_height. by rewrite Hb.
Qed.

Lemma process_bal h acts h' k :
  process h acts = Ok h' → bal h' k = bal h k + sum_of (flow k) acts.
Proof.
  intros H. by apply (forEachM_sum process_one (λ _, True) (λ h, bal h k) (flow k) h acts h'
    ltac:(intros; split; [done|by apply process_one_bal]) I) in H as [_ ?].
Qed.

Lemma process_supply h acts h' addr :
  process h acts = Ok h' →
  has_supply h' addr = has_supply h addr ∧
  supply h' addr = supply h addr + (if has_supply h addr then sum_of (minted addr) acts else 0).
Proof.
  unfold process. revert h. induction acts as [|a acts IH]; intros h; simpl.
  - intros [= <-]. split; [done|]. destruct (has_supply h addr); lia.
  - intros H. inv_ok H. destruct (process_one_supply _ _ _ addr Ha) as [Hh Hs].
    destruct (IH _ H) as [-> ->]. rewrite Hh, Hs. split; [done|].
    destruct (has_supply h addr); lia.
Qed.

Lemma process_holdings h acts h' addr :
  process h acts = Ok h' → keyed h →
  keyed h' ∧ holdings addr h' = holdings addr h + sum_of (minted addr) acts.
Proof.
  intros H Hk. apply (forEachM_sum process_one keyed (holdings addr) (minted addr) h acts h'); try done.
  intros s x s' Hs Hx. by apply process_one_holdings.
Qed.

(** ** Success

    [forEach] throws when one of its activities does.  These conditions are
    enough for the whole batch to go through. *)
Definition balance_ready (H : Z) (b : AccountBalance) : Prop :=
  is_ok (BigInt_or_0 (ab_amount b)) ∧ default 0 (ab_last_updated_height b) <= H.
Definition supply_ready (c : Erc20Contract) : Prop :=
  match ec_total_supply c with Some s => is_ok (BigInt s) | None => True end.

#[export] Instance balance_ready_dec H b : Decision (balance_ready H b).
Proof. unfold balance_ready. apply _. Defined.
#[export] Instance supply_ready_dec c : Decision (supply_ready c).
Proof. unfold supply_ready. destruct (ec_total_supply c); apply _. Defined.

Record ready (H : Z) (h : Erc20Handler) : Prop := {
  ready_balances : map_Forall (λ _, balance_ready H) (accountBalances h);
  ready_supplies : map_Forall (λ _, supply_ready) (erc20Contracts h)
}.

Definition act_ready (h : Erc20Handler) (a : Erc20Activity) : Prop :=
  is_Some (erc20Contracts h !! ea_contract a) ∧ is_ok (BigInt_opt (ea_amount a)).

Lemma is_ok_inv {A} (m : res A) : is_ok m → ∃ a, m = Ok a.
Proof. destruct m; [eauto|done]. Qed.

Lemma write_balance_ready H a id op who h :
  ready H h → act_ready h a → H <= ea_height a →
  ∃ h', write_balance a id op who h = Ok h' ∧ ready (ea_height a) h' ∧
        erc20Contracts h' = erc20Contracts h.
Proof.
  intros [Hb Hs] [Hc (amt & Ha)%is_ok_inv] HH. unfold write_balance.
  set (k := balance_key id (ea_contract a)).
  assert (∃ old, BigInt_or_0 (accountBalances h !! k ≫= ab_amount) = Ok old) as [old Hold].
  { destruct (accountBalances h !! k) as [b|] eqn:Hk; [|by exists 0].
    apply is_ok_inv. by apply (Hb k b Hk). }
  assert (stale (ea_height a) (accountBalances h !! k) = false) as ->.
  { destruct (accountBalances h !! k) as [b|] eqn:Hk; [|done]. simpl.
    destruct (Hb k b Hk) as [_ ?]. lia. }
  rewrite Hold, Ha. simpl. eexists. split; [done|]. split; [|done]. constructor; [|done]. simpl.
  apply map_Forall_insert_2.
  - split; simpl; [|lia]. rewrite decide_False by apply toString_nonempty.
    by rewrite BigInt_toString.
  - eapply map_Forall_impl; [exact Hb|]. intros ? b [? ?]. split; [done|lia].
Qed.

Lemma write_supply_ready H a op h :
  ready H h → act_ready h a → H <= ea_height a →
  ∃ h', write_supply a op h = Ok h' ∧ ready (ea_height a) h' ∧
        ∀ addr, is_Some (erc20Contracts h' !! addr) ↔ is_Some (erc20Contracts h !! addr).
Proof.
  intros [Hb Hs] [[c Hc] (amt & Ha)%is_ok_inv] HH. unfold write_supply.
  assert (map_Forall (λ _, balance_ready (ea_height a)) (accountBalances h)) as Hb'.
  { eapply map_Forall_impl; [exact Hb|]. intros ? b [? ?]. split; [done|lia]. }
  rewrite Hc. destruct (ec_total_supply c) as [s|] eqn:Hsup; [|by eexists].
  assert (is_ok (BigInt s)) as (old & ->)%is_ok_inv.
  { specialize (Hs _ _ Hc). unfold supply_ready in Hs. by rewrite Hsup in Hs. }
  rewrite Ha. simpl. eexists. split; [done|]. split.
  - constructor; simpl; [done|]. apply map_Forall_insert_2; [|done].
    unfold supply_ready. simpl. by rewrite BigInt_toString.
  - intros addr. simpl. rewrite lookup_insert_is_Some. destruct (decide (ea_contract a = addr)) as [<-|?];
      naive_solver.
Qed.

Lemma process_one_ready H a h :
  ready H h → act_ready h a → H <= ea_height a →
  ∃ h', process_one h a = Ok h' ∧ ready (ea_height a) h' ∧
        ∀ addr, is_Some (erc20Contracts h' !! addr) ↔ is_Some (erc20Contracts h !! addr).
Proof.
  intros Hr Ha HH. unfold process_one. destruct (is_transfer a); cycle 1.
  { exists h. split; [done|]. split; [|done]. destruct Hr as [Hb Hs]. constructor; [|done].
    eapply map_Forall_impl; [exact Hb|]. intros ? b [? ?]. split; [done|lia]. }
  unfold handlerErc20Transfer. destruct (proj1 Ha) as [c Hc]. rewrite Hc.
  assert (∃ h1, from_half h a = Ok h1 ∧ ready (ea_height a) h1 ∧
    ∀ addr, is_Some (erc20Contracts h1 !! addr) ↔ is_Some (erc20Contracts h !! addr))
    as (h1 & -> & Hr1 & Hc1).
  { unfold from_half. destruct (not_zero _).
    - destruct (write_balance_ready H a (ea_from_account_id a) Z.sub
                  ("fromAccountBalance " +:+ default "null" (ea_from a)) h)
        as (h1 & ? & ? & He); [done..|]. exists h1. by rewrite He.
    - by apply (write_supply_ready H). }
  simpl. assert (act_ready h1 a) as Ha1 by (split; [by apply Hc1; exists c|by apply Ha]).
  unfold to_half. destruct (not_zero _).
  - destruct (write_balance_ready (ea_height a) a (ea_to_account_id a) Z.add
                  ("toAccountBalance " +:+ default "null" (ea_to a)) h1)
      as (h2 & ? & ? & He); [done|done|lia|]. exists h2. by rewrite He.
  - destruct (write_supply_ready (ea_height a) a Z.sub h1) as (h2 & ? & ? & He); [done|done|lia|].
    exists h2. split; [done|]. split; [done|]. intros addr. by rewrite He, Hc1.
Qed.

(** Heights in the order of the rows, starting at [H]. *)
Fixpoint ascending (H : Z) (acts : list Erc20Activity) : Prop :=
  match acts with
  | [] => True
  | a :: acts => H <= ea_height a ∧ ascending (ea_height a) acts
  end.

Lemma process_ready H h acts :
  ready H h → Forall (act_ready h) acts → ascending H acts →
  ∃ h', process h acts = Ok h'.
Proof.
  unfold process. revert H h. induction acts as [|a acts IH]; intros H h Hr Hacts Has; simpl.
  { by exists h. }
  apply Forall_cons in Hacts as [Ha Hacts]. destruct Has as [HH Has].
  destruct (process_one_ready H a h Hr Ha HH) as (h1 & -> & Hr1 & Hc1). simpl.
  apply (IH (ea_height a)); [done| |done].
  eapply Forall_impl; [exact Hacts|]. intros x [? ?]. split; [by apply Hc1|done].
Qed.

(** ** Keys: the loop adds the keys of the activities and removes none *)
Definition act_keys (a : Erc20Activity) : list string :=
  [balance_key (ea_from_account_id a) (ea_contract a);
   balance_key (ea_to_account_id a) (ea_contract a)].

Definition has_key (h : Erc20Handler) (k : string) : Prop := is_Some (accountBalances h !! k).

Lemma write_balance_keys a id op who h h' k :
  write_balance a id op who h = Ok h' →
  has_key h' k ↔ has_key h k ∨ balance_key id (ea_contract a) = k.
Proof.
  intros (_ & _ & b & Hb & _)%write_balance_Ok. unfold has_key. rewrite Hb, lookup_insert_is_Some.
  destruct (decide (balance_key id (ea_contract a) = k)); naive_solver.
Qed.

Lemma process_one_keys h a h' k :
  process_one h a = Ok h' →
  (has_key h k → has_key h' k) ∧ (has_key h' k → has_key h k ∨ k ∈ act_keys a).
Proof.
  unfold process_one. destruct (is_transfer a); [|intros [= <-]; auto].
  intros (h1 & H1 & H2)%handlerErc20Transfer_Ok. unfold from_half, to_half, act_keys in *.
  assert ((has_key h k → has_key h1 k) ∧ (has_key h1 k → has_key h k ∨ k ∈ act_keys a)) as [Ha Hb].
  { destruct (not_zero (ea_from a)).
    - apply (write_balance_keys _ _ _ _ _ _ k) in H1 as [Hx Hy]. split; [auto|].
      intros [?| <-]%Hx; [auto|]. right. apply list_elem_of_here.
    - apply write_supply_Ok in H1 as [Hx _]. unfold has_key. rewrite Hx. auto. }
  destruct (not_zero (ea_to a)).
  - apply (write_balance_keys _ _ _ _ _ _ k) in H2 as [Hx Hy]. split; [auto|].
    intros [?| <-]%Hx; [auto|]. right. apply list_elem_of_further, list_elem_of_here.
  - apply write_supply_Ok in H2 as [Hx _]. unfold has_key in *. rewrite Hx. auto.
Qed.

Lemma process_keys h acts h' k :
  process h acts = Ok h' →
  (has_key h k → has_key h' k) ∧
  (has_key h' k → has_key h k ∨ ∃ a, a ∈ acts ∧ k ∈ act_keys a).
Proof.
  unfold process. revert h. induction acts as [|a acts IH]; intros h; simpl.
  { intros [= <-]. auto. }
  intros H. inv_ok H. destruct (process_one_keys _ _ _ k Ha) as [H1 H2].
  destruct (IH _ H) as [H3 H4]. split; [auto|].
  intros [[?|?]%H2|(x & Hx & ?)]%H4; [auto| |].
  - right. exists a. split; [apply list_elem_of_here|done].
  - right. exists x. split; [by apply list_elem_of_further|done].
Qed.

(** ** Properties *)

(** C3: token conservation.  When a batch of activities goes through, the
    total supply of a contract (if it is tracked, i.e. not null) less the sum
    of all balances held in its token is what it was before: transfers move
    tokens, mints and burns change supply and balances together. *)
Theorem process_conserves h acts h' addr :
  keyed h → has_supply h addr = true → process h acts = Ok h' →
  supply h' addr - holdings addr h' = supply h addr - holdings addr h.
Proof.
  intros Hk Hs Hp.
  destruct (process_supply _ _ _ addr Hp) as [_ ->].
  destruct (process_holdings _ _ _ addr Hp Hk) as [_ ->].
  rewrite Hs. lia.
Qed.

(** Ledger semantics.  After a batch, the balance under a key is the old
    one plus what the activities of the batch moved in, less what they moved
    out; and the supply is the old one plus what was minted less what was
    burned. *)
Theorem process_ledger h acts h' k addr :
  process h acts = Ok h' →
  bal h' k = bal h k + sum_of (flow k) acts ∧
  supply h' addr = supply h addr + (if has_supply h addr then sum_of (minted addr) acts else 0).
Proof. intros Hp. split; [by apply process_bal|by apply process_supply]. Qed.

(** A batch goes through.  When every activity names a known contract and
    has a decimal amount, the stored amounts are decimal and the heights
    ascend from the last height at which a balance was updated, no activity
    throws. *)
Theorem process_succeeds H h acts :
  ready H h → Forall (act_ready h) acts → ascending H acts →
  ∃ h', process h acts = Ok h'.
Proof. apply process_ready. Qed.

(** an activity older than the balance of its sender makes the batch fail
    with the message of the handler, so a range is not applied twice. *)
Theorem stale_activity_throws h a b :
  is_transfer a = true → not_zero (ea_from a) = true →
  is_Some (erc20Contracts h !! ea_contract a) →
  accountBalances h !! balance_key (ea_from_account_id a) (ea_contract a) = Some b →
  ea_height a < default 0 (ab_last_updated_height b) →
  process h [a] = Throw ("Process erc20 balance: "
    +:+ ("fromAccountBalance " +:+ default "null" (ea_from a)) +:+ " was updated").
Proof.
  intros Ht Hf [c Hc] Hb Hlt. unfold process. simpl. unfold process_one, handlerErc20Transfer, from_half.
  rewrite Ht, Hc, Hf. unfold write_balance. rewrite Hb. simpl.
  destruct (Z.ltb_spec (ea_height a) (default 0 (ab_last_updated_height b))); [done|lia].
Qed.

(** A batch for the witnesses: a mint, a transfer, a transfer to oneself and
    a burn. *)
Definition demo_activity (from to : option string) (fid tid : option Z) (amount : string) (height : Z)
  : Erc20Activity :=
  {| ea_sender := from; ea_action := ERC20_ACTION.TRANSFER; ea_contract := "0xc";
     ea_amount := Some amount; ea_from := from; ea_to := to; ea_height := height;
     ea_tx_hash := "h"; ea_cosmos_tx_id := 1; ea_evm_event_id := Some 1;
     ea_cosmos_event_id := None; ea_from_account_id := fid; ea_to_account_id := tid |}.

Definition demo_batch : list Erc20Activity := [
  demo_activity (Some ZERO_ADDRESS) (Some "0xa") None (Some 1) "5" 11;
  demo_activity (Some "0xa") (Some "0xb") (Some 1) (Some 2) "25" 11;
  demo_activity (Some "0xb") (Some "0xb") (Some 2) (Some 2) "7" 12;
  demo_activity (Some "0xb") (Some ZERO_ADDRESS) (Some 2) None "3" 13 ].

Definition demo_balance (id : Z) (amount : string) : AccountBalance :=
  {| ab_account_id := Some id; ab_denom := "0xc"; ab_amount := Some amount;
     ab_last_updated_height := Some 10; ab_type := ERC20_TOKEN |}.

Definition demo_handler : Erc20Handler := {|
  accountBalances := {[ "1_0xc" := demo_balance 1 "60"; "2_0xc" := demo_balance 2 "40" ]};
  erc20Contracts := {[ "0xc" := {| ec_address := "0xc"; ec_total_supply := Some "100";
                                   ec_last_updated_height := Some 10; ec_track := true;
                                   ec_evm_smart_contract_id := 1; ec_symbol := Some "C";
                                   ec_decimal := Some "18"; ec_name := None |} ]} |}.

Definition demo_result : Erc20Handler :=
  match process demo_handler demo_batch with Ok h => h | Throw _ => demo_handler end.

Lemma demo_process : process demo_handler demo_batch = Ok demo_result.
Proof. by vm_compute. Qed.

Lemma demo_keyed : keyed demo_handler.
Proof.
  change (map_Forall (λ k b, k = balance_key (ab_account_id b) (ab_denom b))
            (accountBalances demo_handler)).
  by_compute.
Qed.

Lemma process_conserves_witness :
  has_supply demo_handler "0xc" = true ∧
  supply demo_result "0xc" - holdings "0xc" demo_result = 0.
Proof.
  split; [reflexivity|].
  rewrite (process_conserves demo_handler demo_batch demo_result "0xc" demo_keyed eq_refl demo_process).
  vm_compute. reflexivity.
Defined.

Lemma process_ledger_witness :
  bal demo_result "2_0xc" = 40 + sum_of (flow "2_0xc") demo_batch ∧ bal demo_result "2_0xc" = 62.
Proof.
  split; [|vm_compute; reflexivity].
  exact (proj1 (process_ledger demo_handler demo_batch demo_result "2_0xc" "0xc" demo_process)).
Defined.

Lemma process_succeeds_witness :
  ascending 10 demo_batch ∧ ∃ h', process demo_handler demo_batch = Ok h'.
Proof.
  assert (ascending 10 demo_batch) as Has by (vm_compute; repeat split; discriminate).
  split; [exact Has|]. apply (process_succeeds 10); [| |exact Has].
  - constructor; by_compute.
  - repeat constructor; vm_compute; eauto.
Defined.

Lemma stale_activity_throws_witness :
  process demo_handler [demo_activity (Some "0xa") (Some "0xb") (Some 1) (Some 2) "1" 9]
  = Throw "Process erc20 balance: fromAccountBalance 0xa was updated".
Proof.
  apply (stale_activity_throws demo_handler
           (demo_activity (Some "0xa") (Some "0xb") (Some 1) (Some 2) "1" 9)
           (demo_balance 1 "60")).
  - reflexivity.
  - reflexivity.
  - vm_compute. eauto.
  - vm_compute. reflexivity.
  - reflexivity.
Defined.
