(* ===== verification/Erc20Service.v ===== *)
(** * The ERC-20 jobs and their tables

    [services/evm/erc20_handler.ts] (building activities, queries, writing
    balances) and [services/evm/erc20.service.ts] (the balance job).  The
    tables are [account] (by its unique [evm_address]), [account_balance] (by
    its unique key ([account_id], [denom])), [erc20_contract] (by its unique
    [address]) and [erc20_activity] (in [id] order). *)
From S2P Require Import Prelude JsNum Checkpoint Address Erc20.

Record Db := {
  account : gmap string Z;
  account_balance : gmap (Z * string) AccountBalance;
  erc20_contract : gmap string Erc20Contract;
  erc20_activity : list Erc20Activity;
  block_checkpoint : gmap string Z
}.
#[export] Instance Db_checkpoints : HasCheckpoints Db := block_checkpoint.

Definition set_block_checkpoint (t : gmap string Z) (db : Db) : Db :=
  {| account := account db; account_balance := account_balance db;
     erc20_contract := erc20_contract db; erc20_activity := erc20_activity db;
     block_checkpoint := t |}.

(** ** Reading the activities of a range *)

(** [leftJoin account on erc20_activity.from = account.evm_address] *)
Definition join_account (accounts : gmap string Z) (addr : option string) : option Z :=
  addr ≫= λ a, accounts !! a.

Definition with_account_ids (accounts : gmap string Z) (a : Erc20Activity) : Erc20Activity :=
  {| ea_sender := ea_sender a; ea_action := ea_action a; ea_contract := ea_contract a;
     ea_amount := ea_amount a; ea_from := ea_from a; ea_to := ea_to a;
     ea_height := ea_height a; ea_tx_hash := ea_tx_hash a;
     ea_cosmos_tx_id := ea_cosmos_tx_id a; ea_evm_event_id := ea_evm_event_id a;
     ea_cosmos_event_id := ea_cosmos_event_id a;
     ea_from_account_id := join_account accounts (ea_from a);
     ea_to_account_id := join_account accounts (ea_to a) |}.

Definition tracked (db : Db) (addr : string) : bool :=
  match erc20_contract db !! addr with Some c => ec_track c | None => false end.

(** [if (addresses) builder.whereIn('erc20_contract.address', addresses)] *)
Definition in_addresses (addresses : option (list string)) (addr : string) : bool :=
  match addresses with Some l => bool_decide (addr ∈ l) | None => true end.

Definition getErc20Activities (startBlock endBlock : Z) (addresses : option (list string))
    (db : Db) : list Erc20Activity :=
  with_account_ids (account db) <$>
  filter (λ a, startBlock < ea_height a ∧ ea_height a <= endBlock ∧
               tracked db (ea_contract a) = true ∧
               in_addresses addresses (ea_contract a) = true)
         (erc20_activity db).

(** ** Writing the balances *)

(** [.whereIn(['account.evm_address', 'denom'], [...from pairs, ...to pairs])] *)
Definition touches (accounts : gmap string Z) (id : Z) (denom : string) (a : Erc20Activity) : bool :=
  bool_decide (ea_contract a = denom) &&
  (bool_decide (join_account accounts (ea_from a) = Some id)
   || bool_decide (join_account accounts (ea_to a) = Some id)).

Definition fetchBalances (db : Db) (acts : list Erc20Activity) : gmap string AccountBalance :=
  keyBy (λ b, balance_key (ab_account_id b) (ab_denom b))
    (snd <$> filter (λ r : (Z * string) * AccountBalance,
                       existsb (touches (account db) r.1.1 r.1.2) acts = true)
                    (map_to_list (account_balance db))).

Definition fetchContracts (db : Db) (acts : list Erc20Activity) : gmap string Erc20Contract :=
  filter (λ r, r.1 ∈ (ea_contract <$> acts)) (erc20_contract db).

(** [.insert(balance).onConflict(['account_id', 'denom']).merge()];
    [account_id] is not nullable. *)
Definition upsert_balance (t : gmap (Z * string) AccountBalance) (b : AccountBalance)
  : res (gmap (Z * string) AccountBalance) :=
  match ab_account_id b with
  | Some id => Ok (<[(id, ab_denom b) := b]> t)
  | None => Throw "null value in column account_id violates not-null constraint"
  end.

Definition updateErc20AccountsBalance (acts : list Erc20Activity) (db : Db) : res Db :=
  match acts with
  | [] => Ok db
  | _ =>
      h ← process {| accountBalances := fetchBalances db acts;
                     erc20Contracts := fetchContracts db acts |} acts;
      balances ← forEachM upsert_balance (account_balance db)
                   ((map_to_list (accountBalances h)).*2);
      Ok {| account := account db;
            account_balance := balances;
            erc20_contract := erc20Contracts h ∪ erc20_contract db;
            erc20_activity := erc20_activity db;
            block_checkpoint := block_checkpoint db |}
  end.

(** ** Well-formed tables *)
Record db_ok (db : Db) : Prop := {
  (** a row is stored under its unique key *)
  balances_keyed : ∀ id d b, account_balance db !! (id, d) = Some b →
                     ab_account_id b = Some id ∧ ab_denom b = d
}.

(** The rows [getErc20Activities] returns. *)
Definition joined (accounts : gmap string Z) (a : Erc20Activity) : Prop :=
  ea_from_account_id a = join_account accounts (ea_from a) ∧
  ea_to_account_id a = join_account accounts (ea_to a).

Lemma getErc20Activities_joined s e addrs db :
  Forall (joined (account db)) (getErc20Activities s e addrs db).
Proof.
  unfold getErc20Activities. apply Forall_fmap, Forall_forall. intros a _. by split.
Qed.

Lemma fetchBalances_Some db acts k b :
  db_ok db → fetchBalances db acts !! k = Some b →
  ∃ id d, k = balance_key (Some id) d ∧ ab_account_id b = Some id ∧ ab_denom b = d ∧
          account_balance db !! (id, d) = Some b.
Proof.
  intros [Hok] Hb. unfold fetchBalances in Hb. apply keyBy_Some in Hb as [Hin <-].
  apply list_elem_of_fmap in Hin as ([[id d] b'] & -> & Hin).
  apply list_elem_of_filter in Hin as [_ Hin%elem_of_map_to_list]. simpl in *.
  destruct (Hok _ _ _ Hin) as [-> <-]. eauto 10.
Qed.

Lemma fetchBalances_touched db acts id d :
  db_ok db → existsb (touches (account db) id d) acts = true →
  fetchBalances db acts !! balance_key (Some id) d = account_balance db !! (id, d).
Proof.
  intros Hok Ht. destruct (account_balance db !! (id, d)) as [b|] eqn:Hb.
  - destruct (balances_keyed _ Hok _ _ _ Hb) as [Hid Hd]. unfold fetchBalances.
    replace (balance_key (Some id) d) with (balance_key (ab_account_id b) (ab_denom b))
      by (by rewrite Hid, Hd).
    apply (keyBy_elem (λ b, balance_key (ab_account_id b) (ab_denom b))).
    + apply list_elem_of_fmap. exists ((id, d), b). split; [done|].
      apply list_elem_of_filter. split; [done|]. by apply elem_of_map_to_list.
    + intros y Hy Heq. apply list_elem_of_fmap in Hy as ([[id' d'] y'] & -> & Hy).
      apply list_elem_of_filter in Hy as [_ Hy%elem_of_map_to_list]. simpl in *.
      destruct (balances_keyed _ Hok _ _ _ Hy) as [Hid' Hd'].
      apply balance_key_inj in Heq as [Hii Hdd]. congruence.
  - destruct (fetchBalances db acts !! _) as [b|] eqn:Hf; [|done].
    apply fetchBalances_Some in Hf as (id' & d' & Hk & _ & _ & Hb'); [|done].
    apply balance_key_inj in Hk as [[= <-] <-]. congruence.
Qed.

Lemma fetchBalances_keyed db acts c : db_ok db →
  keyed {| accountBalances := fetchBalances db acts; erc20Contracts := c |}.
Proof.
  intros Hok k b Hb. apply fetchBalances_Some in Hb as (id & d & -> & -> & -> & _); done.
Qed.

Lemma process_keyed h acts h' : process h acts = Ok h' → keyed h → keyed h'.
Proof. intros H Hk. by destruct (process_holdings h acts h' "" H Hk). Qed.

(** The table after the upserts. *)
Lemma upserts_lookup l t t' id d :
  forEachM upsert_balance t l = Ok t' →
  (t' !! (id, d) = t !! (id, d) ∧
   ∀ b, b ∈ l → ab_account_id b = Some id → ab_denom b ≠ d) ∨
  (∃ b, b ∈ l ∧ ab_account_id b = Some id ∧ ab_denom b = d ∧ t' !! (id, d) = Some b).
Proof.
  revert t. induction l as [|b l IH]; intros t; simpl.
  { intros [= <-]. left. split; [done|]. intros b Hb. by apply not_elem_of_nil in Hb. }
  intros H. inv_ok H. rename a into t1, Ha into H1, H into H2. unfold upsert_balance in H1.
  destruct (ab_account_id b) as [idb|] eqn:Hidb; simplify_eq.
  destruct (IH _ H2) as [[Heq Hno]|(b' & Hin & ? & ? & ?)].
  - rewrite Heq, lookup_insert. case_decide as Hk; simplify_eq.
    + right. exists b. rewrite elem_of_cons. auto.
    + left. split; [done|]. intros b2 [->|Hb2]%elem_of_cons ? ?; [congruence|by eapply Hno].
  - right. exists b'. rewrite elem_of_cons. auto.
Qed.

(** A balance no activity touches has no flow. *)
Lemma untouched_flow accounts id d acts :
  Forall (joined accounts) acts → existsb (touches accounts id d) acts = false →
  sum_of (flow (balance_key (Some id) d)) acts = 0.
Proof.
  induction 1 as [|a acts [Hf Ht] Hacts IH]; simpl; [done|].
  intros [Ha Hrest]%orb_false_iff. rewrite (IH Hrest).
  unfold flow. destruct (is_transfer a); [|lia].
  unfold touches in Ha.
  assert (∀ i, i = join_account accounts (ea_from a) ∨ i = join_account accounts (ea_to a) →
               bool_decide (balance_key i (ea_contract a) = balance_key (Some id) d) = false) as Hb.
  { intros i Hi. apply bool_decide_eq_false_2. intros [-> <-]%balance_key_inj.
    rewrite bool_decide_eq_true_2 in Ha by done. simpl in Ha.
    apply orb_false_iff in Ha as [?%bool_decide_eq_false ?%bool_decide_eq_false].
    destruct Hi; congruence. }
  rewrite !Hb by (rewrite ?Hf, ?Ht; auto). rewrite !andb_false_r. lia.
Qed.

(** What the handler starts from, for the balance of account [id] in [d]. *)
Lemma fetchBalances_untouched db acts id d :
  db_ok db → existsb (touches (account db) id d) acts = false →
  fetchBalances db acts !! balance_key (Some id) d = None.
Proof.
  intros Hok Ht. destruct (fetchBalances db acts !! _) as [b|] eqn:Hf; [|done].
  unfold fetchBalances in Hf. apply keyBy_Some in Hf as [Hin Hk].
  apply list_elem_of_fmap in Hin as ([[id' d'] b'] & -> & Hin).
  apply list_elem_of_filter in Hin as [Ht' Hin%elem_of_map_to_list]. simpl in *.
  destruct (balances_keyed _ Hok _ _ _ Hin) as [Hid Hd]. rewrite Hid, Hd in Hk.
  apply balance_key_inj in Hk as [[= ->] ->]. congruence.
Qed.

Lemma touches_key accounts id d a :
  joined accounts a → balance_key (Some id) d ∈ act_keys a → touches accounts id d a = true.
Proof.
  intros [Hf Ht] Hk. unfold touches.
  apply elem_of_cons in Hk as [Hk|Hk%list_elem_of_singleton]; symmetry in Hk;
    apply balance_key_inj in Hk as [Hi <-]; rewrite (bool_decide_eq_true_2 (_ = _)) by done.
  - rewrite <-Hf, Hi, bool_decide_eq_true_2 by done. done.
  - rewrite <-Ht, Hi, (bool_decide_eq_true_2 (Some id = Some id)) by done. apply orb_true_r.
Qed.

(** The handler holds the final balance exactly of the touched accounts. *)
Lemma process_touched db acts c h id d :
  db_ok db → Forall (joined (account db)) acts →
  process {| accountBalances := fetchBalances db acts; erc20Contracts := c |} acts = Ok h →
  existsb (touches (account db) id d) acts = false →
  accountBalances h !! balance_key (Some id) d = None.
Proof.
  intros Hok Hj Hp Ht.
  destruct (accountBalances h !! balance_key (Some id) d) as [b|] eqn:Hb; [|done]. exfalso.
  destruct (process_keys _ _ _ (balance_key (Some id) d) Hp) as [_ Hkeys].
  destruct Hkeys as [[b' Hf]|(a & Ha & Hk)]; [by exists b| |].
  - simpl in Hf. by rewrite fetchBalances_untouched in Hf.
  - rewrite Forall_forall in Hj. specialize (Hj a Ha). apply (touches_key _ _ _ _ Hj) in Hk.
    assert (existsb (touches (account db) id d) acts = true); [|congruence].
    apply existsb_exists. exists a. split; [by apply list_elem_of_In|done].
Qed.

Lemma upserted_value h t t' id d :
  keyed h → forEachM upsert_balance t ((map_to_list (accountBalances h)).*2) = Ok t' →
  t' !! (id, d) = match accountBalances h !! balance_key (Some id) d with
                  | Some b => Some b | None => t !! (id, d) end.
Proof.
  intros Hkeyed Ht. set (k := balance_key (Some id) d).
  assert (∀ b, b ∈ (map_to_list (accountBalances h)).*2 → ab_account_id b = Some id →
               ab_denom b = d → accountBalances h !! k = Some b) as Hval.
  { intros b Hin Hid Hd. apply list_elem_of_fmap in Hin as ([k' b'] & -> & Hin%elem_of_map_to_list).
    simpl in *. apply Hkeyed in Hin as Hk'. rewrite Hid, Hd in Hk'. by subst. }
  destruct (upserts_lookup _ _ _ id d Ht) as [[Heq Hno]|(b & Hin & Hid & Hd & Heq)]; rewrite Heq.
  - destruct (accountBalances h !! k) as [b|] eqn:Hb; [|done]. exfalso.
    apply Hkeyed in Hb as Hk'. apply balance_key_inj in Hk' as [Hid Hd].
    eapply Hno; [|symmetry; exact Hid|by symmetry]. apply list_elem_of_fmap. exists (k, b).
    split; [done|]. by apply elem_of_map_to_list.
  - by rewrite (Hval b Hin Hid Hd).
Qed.

Lemma updateErc20AccountsBalance_amount db acts db' id d :
  db_ok db → Forall (joined (account db)) acts →
  updateErc20AccountsBalance acts db = Ok db' →
  amount_of (account_balance db' !! (id, d)) =
    amount_of (account_balance db !! (id, d)) + sum_of (flow (balance_key (Some id) d)) acts.
Proof.
  intros Hok Hj. unfold updateErc20AccountsBalance.
  destruct acts as [|a0 acts0]; [intros [= <-]; simpl; lia|].
  set (acts := a0 :: acts0) in *. clearbody acts. intros H.
  apply bind_Ok in H as (h & Hp & H). apply bind_Ok in H as (t & Ht & H).
  simplify_eq/=.
  pose proof (process_keyed _ _ _ Hp (fetchBalances_keyed _ _ _ Hok)) as Hkeyed.
  rewrite (upserted_value _ _ _ id d Hkeyed Ht).
  destruct (existsb (touches (account db) id d) acts) eqn:Htouch.
  - pose proof (process_bal _ _ _ (balance_key (Some id) d) Hp) as Hbal.
    unfold bal in Hbal. simpl in Hbal. rewrite fetchBalances_touched in Hbal by done.
    destruct (accountBalances h !! balance_key (Some id) d) as [b|] eqn:Hb; [done|].
    destruct (process_keys _ _ _ (balance_key (Some id) d) Hp) as [Hkeys _].
    destruct (account_balance db !! (id, d)) as [b0|] eqn:Hb0; [|done].
    exfalso. destruct Hkeys as [b' Hb'].
    + exists b0. simpl. by rewrite fetchBalances_touched.
    + congruence.
  - rewrite (process_touched _ _ _ _ _ _ Hok Hj Hp Htouch).
    rewrite (untouched_flow (account db)); [lia|done|done].
Qed.

(** ** The balance job *)

(** The action [CrawlNewAccountApi] of the address service, as seen by this
    job: it may add accounts and changes nothing else. *)
Class AccountCrawler := crawlNewAccountApi : list string → io Db ().

Class AccountCrawlerLaws (K : AccountCrawler) : Prop :=
  crawl_frame l db :
    let db' := (crawlNewAccountApi l db).1 in
    account db ⊆ account db' ∧
    account_balance db' = account_balance db ∧
    erc20_contract db' = erc20_contract db ∧
    erc20_activity db' = erc20_activity db ∧
    block_checkpoint db' = block_checkpoint db.

Section BalanceJob.
Context (cfg : Config.t) {C : AddressCodec} {K : AccountCrawler}.
Context (networkPrefixAddress : string).

(** [!id] for a number that can be null *)
Definition falsy_id (o : option Z) : bool :=
  match o with Some z => z =? 0 | None => true end.

Definition missingAddresses (acts : list Erc20Activity) : list (option string) :=
  (ea_from <$> filter (λ a, falsy_id (ea_from_account_id a) = true) acts)
  ++ (ea_to <$> filter (λ a, falsy_id (ea_to_account_id a) = true) acts).

Definition missingAccountsAddress (acts : list Erc20Activity) : res (list string) :=
  l ← mapR (λ o, match o with
                 | Some e => convertEthAddressToBech32Address networkPrefixAddress e
                 | None => Throw "TypeError: cannot decode null"
                 end) (missingAddresses acts);
  Ok (uniq l).

Definition handleErc20Balance : io Db () :=
  '(startBlock, endBlock, updateBlockCheckpoint) ← readCheckpoint cfg HANDLE_ERC20_BALANCE;
  erc20Activities ← query (getErc20Activities startBlock endBlock None);
  missing ← lift (missingAccountsAddress erc20Activities);
  erc20Activities ←
    (if bool_decide (missing = []) then mret erc20Activities
     else crawlNewAccountApi missing;; query (getErc20Activities startBlock endBlock None));
  commit (λ db,
    db ← updateErc20AccountsBalance erc20Activities db;
    Ok (set_block_checkpoint
          (saveCheckpoint updateBlockCheckpoint endBlock (block_checkpoint db)) db)).

Lemma updateErc20AccountsBalance_frame acts db db' :
  updateErc20AccountsBalance acts db = Ok db' →
  block_checkpoint db' = block_checkpoint db ∧ erc20_activity db' = erc20_activity db.
Proof.
  unfold updateErc20AccountsBalance. destruct acts; [by intros [= <-]|].
  intros H. apply bind_Ok in H as (h & _ & H). apply bind_Ok in H as (t & _ & [= <-]). done.
Qed.

(** The steps of a run up to its transaction: the first state is the one the
    activities are read in. *)
Lemma handleErc20Balance_steps `{!AccountCrawlerLaws K} db db' o :
  handleErc20Balance db = (db', o) →
  block_checkpoint db' = block_checkpoint db ∧ (∃ msg, o = Throw msg) ∨
  ∃ s e u db1 db2,
    jobCheckpoint cfg HANDLE_ERC20_BALANCE (block_checkpoint db) = Ok (s, e, u) ∧
    (db1 = db ∨ ∃ l, db1 = (crawlNewAccountApi l db).1) ∧
    updateErc20AccountsBalance (getErc20Activities s e None db1) db1 = Ok db2 ∧
    db' = set_block_checkpoint (saveCheckpoint u e (block_checkpoint db2)) db2 ∧ o = Ok tt.
Proof.
  unfold handleErc20Balance, readCheckpoint, lift, query, commit, checkpoints_of, Db_checkpoints.
  unfold mbind, io_bind, mret, io_ret. intros H.
  destruct (jobCheckpoint cfg HANDLE_ERC20_BALANCE (block_checkpoint db))
    as [[[s e] u]|] eqn:Hj; [|left; naive_solver].
  destruct (missingAccountsAddress _) as [missing|]; [|left; naive_solver].
  set (crawled := if bool_decide (missing = []) then db else (crawlNewAccountApi missing db).1).
  assert (block_checkpoint crawled = block_checkpoint db) as Hb.
  { unfold crawled. case_bool_decide; [done|]. by destruct (crawl_frame missing db) as (_&_&_&_&?). }
  assert (crawled = db ∨ ∃ l, crawled = (crawlNewAccountApi l db).1) as Hc.
  { unfold crawled. case_bool_decide; eauto. }
  unfold crawled in *. clear crawled. case_bool_decide as Hm.
  2: destruct (crawlNewAccountApi missing db) as [db1 [[]|msg]] eqn:Hk;
     [|injection H as <- <-; left; split; [done|by eexists]].
  all: simpl in *;
    match goal with H : context [updateErc20AccountsBalance ?a ?d] |- _ =>
      destruct (updateErc20AccountsBalance a d) as [db2|msg] eqn:Hu
    end; simpl in *; simplify_eq;
    [right; do 5 eexists; split_and!; eauto|left; split; [done|by eexists]].
Qed.

#[export] Instance handleErc20Balance_job `{!AccountCrawlerLaws K} :
  CheckpointJob cfg HANDLE_ERC20_BALANCE handleErc20Balance.
Proof.
  intros db. destruct (handleErc20Balance db) as [db' o] eqn:Hrun. simpl.
  apply handleErc20Balance_steps in Hrun
    as [[Hb _]|(s & e & u & db1 & db2 & Hj & Hdb1 & Hu & -> & _)];
    [by apply job_run_idle|].
  apply updateErc20AccountsBalance_frame in Hu as [Hb _].
  assert (block_checkpoint db1 = block_checkpoint db) as Hb1.
  { destruct Hdb1 as [->|[l ->]]; [done|]. by destruct (crawl_frame l db) as (_&_&_&_&?). }
  unfold checkpoints_of, Db_checkpoints, set_block_checkpoint. simpl. rewrite Hb, Hb1.
  exact (job_run_guarded cfg HANDLE_ERC20_BALANCE _ _ _ _ Hj).
Qed.
End BalanceJob.

(** ** Properties *)

(** The balance table is a ledger.  A call of [updateErc20AccountsBalance]
    that returns leaves, for every account and token, the old amount plus what
    the activities moved in less what they moved out, whether or not the
    account had a row before. *)
Theorem updateErc20AccountsBalance_ledger db acts db' id d :
  db_ok db → Forall (joined (account db)) acts →
  updateErc20AccountsBalance acts db = Ok db' →
  amount_of (account_balance db' !! (id, d)) =
    amount_of (account_balance db !! (id, d)) + sum_of (flow (balance_key (Some id) d)) acts.
Proof. apply updateErc20AccountsBalance_amount. Qed.

(** C4: the balance job.  A run that returns moves the checkpoint of the job
    to the end of its range and adds to every balance exactly the flows of the
    tracked activities of the range, read after the missing accounts were
    created. *)
Theorem handleErc20Balance_correct cfg `{C : AddressCodec} `{K : AccountCrawler}
    `{!AccountCrawlerLaws K} prefix db db' id d :
  db_ok db → handleErc20Balance cfg prefix db = (db', Ok tt) →
  ∃ s e u db1,
    jobCheckpoint cfg HANDLE_ERC20_BALANCE (block_checkpoint db) = Ok (s, e, u) ∧
    block_checkpoint db' !! jd_name HANDLE_ERC20_BALANCE = Some e ∧
    account db ⊆ account db1 ∧
    erc20_activity db1 = erc20_activity db ∧ erc20_contract db1 = erc20_contract db ∧
    amount_of (account_balance db' !! (id, d)) =
      amount_of (account_balance db !! (id, d))
      + sum_of (flow (balance_key (Some id) d)) (getErc20Activities s e None db1).
Proof.
  intros Hok Hrun.
  destruct (handleErc20Balance_steps cfg prefix db db' _ Hrun)
    as [[_ [? [=]]]|(s & e & u & db1 & db2 & Hj & Hdb1 & Hu & -> & _)].
  assert (account db ⊆ account db1 ∧ account_balance db1 = account_balance db ∧
          erc20_contract db1 = erc20_contract db ∧ erc20_activity db1 = erc20_activity db)
    as (Hsub & Hbal & Hc & Hact).
  { destruct Hdb1 as [->|[l ->]]; [done|]. by destruct (crawl_frame l db) as (? & ? & ? & ? & _). }
  assert (db_ok db1) as Hok1 by (destruct Hok as [H]; constructor; by rewrite Hbal).
  exists s, e, u, db1. split; [done|]. split.
  - apply getCheckpoint_Ok in Hj as (_ & -> & _). unfold set_block_checkpoint. simpl.
    by rewrite <-(saveCheckpoint_lookup {| job_name := jd_name HANDLE_ERC20_BALANCE; height := s |} e (block_checkpoint db2)).
  - do 3 (split; [done|]). simpl. rewrite <-Hbal.
    apply updateErc20AccountsBalance_amount; [done|apply getErc20Activities_joined|done].
Qed.

(** A database for the witnesses: two accounts, one balance, a tracked
    contract, three activities of which one is outside the range. *)
Definition demo_db : Db := {|
  account := {[ "0xa" := 1; "0xb" := 2 ]};
  account_balance := {[ (1, "0xc") := demo_balance 1 "60" ]};
  erc20_contract := {[ "0xc" := {| ec_address := "0xc"; ec_total_supply := Some "60";
                                   ec_last_updated_height := Some 10; ec_track := true;
                                   ec_evm_smart_contract_id := 1; ec_symbol := Some "C";
                                   ec_decimal := Some "18"; ec_name := None |} ]};
  erc20_activity := [ demo_activity (Some "0xa") (Some "0xb") None None "25" 4860011;
                      demo_activity (Some ZERO_ADDRESS) (Some "0xb") None None "5" 4860012;
                      demo_activity (Some "0xa") (Some "0xb") None None "9" 4860200 ];
  block_checkpoint := {[ "handle:erc20-activity" := 4860200 ]} |}.

Definition demo_crawler : AccountCrawler := λ l db,
  ({| account := foldr (λ a m, match m !! a with Some _ => m | None => <[a := 3]> m end)
                         (account db) (String.append "0x" <$> l);
        account_balance := account_balance db; erc20_contract := erc20_contract db;
        erc20_activity := erc20_activity db; block_checkpoint := block_checkpoint db |}, Ok tt).

Lemma demo_crawler_laws : AccountCrawlerLaws demo_crawler.
Proof.
  intros l db. simpl. split; [|done].
  induction (String.append "0x" <$> l) as [|a l' IH]; simpl; [done|].
  destruct (foldr _ _ l' !! a) eqn:Ha; [done|].
  by etrans; [exact IH|apply insert_subseteq].
Qed.

Lemma demo_db_ok : db_ok demo_db.
Proof.
  constructor. intros id d b Hb.
  assert (map_Forall (λ k b, ab_account_id b = Some k.1 ∧ ab_denom b = k.2)
            (account_balance demo_db)) as H by by_compute.
  exact (H (id, d) b Hb).
Qed.

Definition demo_activities := getErc20Activities 4860000 4860100 None demo_db.

Definition ok_or {A} (d : A) (m : res A) : A := match m with Ok a => a | Throw _ => d end.

Definition demo_db_updated : Db := ok_or demo_db (updateErc20AccountsBalance demo_activities demo_db).

Lemma updateErc20AccountsBalance_ledger_witness :
  amount_of (account_balance demo_db_updated !! (2, "0xc")) = 30 ∧
  amount_of (account_balance demo_db_updated !! (2, "0xc"))
    = 0 + sum_of (flow (balance_key (Some 2) "0xc")) demo_activities.
Proof.
  split; [vm_compute; reflexivity|].
  apply (updateErc20AccountsBalance_ledger demo_db demo_activities demo_db_updated).
  - exact demo_db_ok.
  - apply getErc20Activities_joined.
  - vm_compute. reflexivity.
Defined.

(** The mint comes from the zero address, which has no account: it is crawled. *)
Definition demo_run : Db * res () :=
  handleErc20Balance (C := DemoCodec.codec) (K := demo_crawler) Config.json "aura" demo_db.

Lemma handleErc20Balance_correct_witness :
  is_ok demo_run.2 = true ∧
  block_checkpoint demo_run.1 !! "handle:erc20-balance" = Some 4860100 ∧
  ∃ s e u db1,
    jobCheckpoint Config.json HANDLE_ERC20_BALANCE (block_checkpoint demo_db) = Ok (s, e, u) ∧
    block_checkpoint demo_run.1 !! jd_name HANDLE_ERC20_BALANCE = Some e ∧
    account demo_db ⊆ account db1 ∧
    erc20_activity db1 = erc20_activity demo_db ∧ erc20_contract db1 = erc20_contract demo_db ∧
    amount_of (account_balance demo_run.1 !! (1, "0xc")) =
      amount_of (account_balance demo_db !! (1, "0xc"))
      + sum_of (flow (balance_key (Some 1) "0xc")) (getErc20Activities s e None db1).
Proof.
  split; [vm_compute; reflexivity|]. split; [vm_compute; reflexivity|].
  apply (@handleErc20Balance_correct Config.json DemoCodec.codec demo_crawler
           demo_crawler_laws "aura" demo_db).
  - exact demo_db_ok.
  - vm_compute. reflexivity.
Defined.
