(* ===== verification/Erc20Events.v ===== *)
(** * Building ERC-20 activities from events

    [Erc20Handler.build*] of [services/evm/erc20_handler.ts]: the EVM logs
    (Transfer, Approval and the Deposit and Withdrawal of the wrap extension
    contracts) and the Cosmos [convert_coin] / [convert_erc20] events of a
    block range become activities.  ABI decoding, hexadecimal encoding and
    keccak256 (viem) are parameters. *)
From S2P Require Import Prelude JsNum Address Erc20.

Inductive AbiValue :=
| AbiAddress (s : string)
| AbiUint (z : Z)
| AbiBool (b : bool).

Class Viem := {
  (** [decodeAbiParameters(params, data)], the parameters by name and type *)
  decodeAbiParameters : list (string * string) → string → res (list AbiValue);
  toHex : option bytes → res string;
  keccak256 : string → string
}.

Record EvmEvent := {
  ev_id : Z;
  ev_address : string;
  ev_topic0 : option string;
  ev_topic1 : option string;
  ev_topic2 : option string;
  ev_topic3 : option string;
  ev_data : option bytes;
  ev_block_height : Z;
  ev_tx_hash : string;
  ev_evm_tx_id : option Z;
  ev_tx_id : Z;
  ev_sender : option string
}.

(** An [event] row with its attributes and the hash of its transaction (none
    for a block event). *)
Record Event := {
  e_id : Z;
  e_type : string;
  e_block_height : Z;
  e_tx_id : Z;
  e_tx_hash : option string;
  e_attributes : list attribute
}.
Definition CONVERT_COIN := "convert_coin".
Definition CONVERT_ERC20 := "convert_erc20".

Module ABI_TRANSFER_PARAMS.
Definition FROM := ("from", "address").
Definition TO := ("to", "address").
Definition VALUE := ("value", "uint256").
End ABI_TRANSFER_PARAMS.
Module ABI_APPROVAL_PARAMS.
Definition OWNER := ("owner", "address").
Definition SPENDER := ("spender", "address").
Definition VALUE := ("value", "uint256").
End ABI_APPROVAL_PARAMS.

(** [try { return v } catch (e) { logger.error(e); return undefined }] *)
Definition try_undefined {A} (m : res A) : option A :=
  match m with Ok a => Some a | Throw _ => None end.

(** [s.slice(2)] *)
Fixpoint slice_chars (n : nat) (s : string) : string :=
  match n, s with
  | S n, String _ s => slice_chars n s
  | _, _ => s
  end.
Definition slice2 : string → string := slice_chars 2.

(** A string operand of [+]: null prints as [null]. *)
Definition concat_str (o : option string) : string := default "null" o.
Definition slice2_opt (o : option string) : res string :=
  match o with Some s => Ok (slice2 s) | None => Throw "TypeError: Cannot read properties of null" end.

Section Build.
Context {V : Viem} {C : AddressCodec}.
Context (networkPrefixAddress : string) (evmOnly : bool) (wrapExtensionContract : list string).

(** [keccak256(toHex(signature))]; hashing a string does not throw. *)
Definition topic_of (signature : string) : string :=
  match toHex (Some signature) with Ok h => keccak256 h | Throw _ => "" end.
Definition TRANSFER_TOPIC := topic_of "Transfer(address,address,uint256)".
Definition APPROVAL_TOPIC := topic_of "Approval(address,address,uint256)".
Definition DEPOSIT_TOPIC := topic_of "Deposit(address,uint256)".
Definition WITHDRAWAL_TOPIC := topic_of "Withdrawal(address,uint256)".

Definition evm_activity (e : EvmEvent) (action : string) (from to : string) (amount : Z)
  : Erc20Activity :=
  {| ea_sender := ev_sender e; ea_action := action; ea_contract := ev_address e;
     ea_amount := Some (toString amount); ea_from := Some from; ea_to := Some to;
     ea_height := ev_block_height e; ea_tx_hash := ev_tx_hash e;
     ea_cosmos_tx_id := ev_tx_id e; ea_evm_event_id := Some (ev_id e);
     ea_cosmos_event_id := None; ea_from_account_id := None; ea_to_account_id := None |}.

(** Two addresses in the topics and an amount in the data. *)
Definition decode_two (p1 p2 : string * string) (e : EvmEvent) : res (string * string * Z) :=
  t2 ← slice2_opt (ev_topic2 e);
  d ← toHex (ev_data e);
  vs ← decodeAbiParameters [p1; p2; ABI_TRANSFER_PARAMS.VALUE]
         (concat_str (ev_topic1 e) +:+ t2 +:+ slice2 d);
  match vs with
  | [AbiAddress a; AbiAddress b; AbiUint z] => Ok (toLowerCase a, toLowerCase b, z)
  | _ => Throw "TypeError: toLowerCase is not a function"
  end.

(** One address in a topic and an amount in the data. *)
Definition decode_one (p : string * string) (e : EvmEvent) : res (string * Z) :=
  d ← toHex (ev_data e);
  vs ← decodeAbiParameters [p; ABI_APPROVAL_PARAMS.VALUE]
         (concat_str (ev_topic1 e) +:+ slice2 d);
  match vs with
  | [AbiAddress a; AbiUint z] => Ok (toLowerCase a, z)
  | _ => Throw "TypeError: toLowerCase is not a function"
  end.

Definition buildTransferActivity (e : EvmEvent) : option Erc20Activity :=
  try_undefined
    ('(from, to, amount) ← decode_two ABI_TRANSFER_PARAMS.FROM ABI_TRANSFER_PARAMS.TO e;
     Ok (evm_activity e ERC20_ACTION.TRANSFER from to amount)).

Definition buildApprovalActivity (e : EvmEvent) : option Erc20Activity :=
  try_undefined
    ('(from, to, amount) ← decode_two ABI_APPROVAL_PARAMS.OWNER ABI_APPROVAL_PARAMS.SPENDER e;
     Ok (evm_activity e ERC20_ACTION.APPROVAL from to amount)).

Definition buildWrapDepositActivity (e : EvmEvent) : option Erc20Activity :=
  try_undefined
    ('(to, amount) ← decode_one ABI_TRANSFER_PARAMS.TO e;
     Ok (evm_activity e ERC20_ACTION.DEPOSIT ZERO_ADDRESS to amount)).

Definition buildWrapWithdrawalActivity (e : EvmEvent) : option Erc20Activity :=
  try_undefined
    ('(from, amount) ← decode_one ABI_TRANSFER_PARAMS.FROM e;
     Ok (evm_activity e ERC20_ACTION.WITHDRAWAL from ZERO_ADDRESS amount)).

Definition buildWrapExtensionActivity (e : EvmEvent) : option Erc20Activity :=
  if bool_decide (ev_topic0 e = Some DEPOSIT_TOPIC) then buildWrapDepositActivity e
  else if bool_decide (ev_topic0 e = Some WITHDRAWAL_TOPIC) then buildWrapWithdrawalActivity e
  else None.

(** [s.startsWith(p)] *)
Definition startsWith (p s : string) : bool := String.prefix p s.

Definition getAddressFromAttrAndConvert0x (attrs : list attribute) (key : string)
  : res (option string) :=
  match find (λ a, bool_decide (attr_key a = key)) attrs with
  | None => Ok None
  | Some a =>
      match attr_value a with
      | None => Throw "TypeError: Cannot read properties of null (reading 'startsWith')"
      | Some value =>
          value ← (if startsWith "0x" value then Ok value
                   else convertBech32AddressToEthAddress networkPrefixAddress value);
          Ok (Some (toLowerCase value))
      end
  end.

Definition buildTransferActivityByCosmos (e : Event) : option Erc20Activity :=
  try_undefined
    (from ← getAddressFromAttrAndConvert0x (e_attributes e) "sender";
     to ← getAddressFromAttrAndConvert0x (e_attributes e) "receiver";
     let sender := from in
     let '(from, to) :=
       if bool_decide (e_type e = CONVERT_COIN) then (Some ZERO_ADDRESS, to)
       else if bool_decide (e_type e = CONVERT_ERC20) then (from, Some ZERO_ADDRESS)
       else (from, to) in
     let amount := getAttributeFrom (e_attributes e) "amount" in
     address ← getAddressFromAttrAndConvert0x (e_attributes e) "erc20_token";
     match address, e_tx_hash e with
     | Some address, Some hash =>
         Ok {| ea_sender := sender; ea_action := ERC20_ACTION.TRANSFER;
               ea_contract := address; ea_amount := amount; ea_from := from; ea_to := to;
               ea_height := e_block_height e; ea_tx_hash := hash;
               ea_cosmos_tx_id := e_tx_id e; ea_evm_event_id := None;
               ea_cosmos_event_id := Some (e_id e);
               ea_from_account_id := None; ea_to_account_id := None |}
     | None, _ => Throw "ValidationError: must have required property 'erc20_contract_address'"
     | _, None => Throw "TypeError: Cannot read properties of undefined (reading 'hash')"
     end).

(** What an EVM log contributes. *)
Definition evm_event_activity (e : EvmEvent) : option Erc20Activity :=
  if bool_decide (ev_topic0 e = Some TRANSFER_TOPIC) then buildTransferActivity e
  else if bool_decide (ev_topic0 e = Some APPROVAL_TOPIC) then buildApprovalActivity e
  else if bool_decide (ev_address e ∈ wrapExtensionContract) then buildWrapExtensionActivity e
  else None.

(** The query for the EVM logs of ERC-20 contracts; [erc20_contracts] are
    the addresses of the inner join with the contracts, and [evm_event] the
    rows of the one with evm_transaction, which adds the sender. *)
Definition erc20EvmEvents (startBlock endBlock : Z) (addresses : option (list string))
    (erc20_contracts : list string) (evm_event : list EvmEvent) : list EvmEvent :=
  sortBy ev_id
    (filter (λ e, ev_address e ∈ erc20_contracts ∧
                  match addresses with Some l => bool_decide (ev_address e ∈ l) | None => true end = true ∧
                  startBlock < ev_block_height e ∧ ev_block_height e <= endBlock) evm_event).

(** The join with [attributes]: one row per attribute that names one of the
    addresses. *)
Definition attribute_matches (l : list string) (e : Event) : list Event :=
  (λ _, e) <$> filter (λ a, attr_key a = "erc20_token" ∧
                            default "" (toLowerCase <$> attr_value a) ∈ l) (e_attributes e).

Definition erc20CosmosEvents (startBlock endBlock : Z) (addresses : option (list string))
    (event : list Event) : list Event :=
  if evmOnly then []
  else
    let rows := filter (λ e, startBlock < e_block_height e ∧ e_block_height e <= endBlock ∧
                             e_type e ∈ [CONVERT_COIN; CONVERT_ERC20]) event in
    sortBy e_id
      (match addresses with Some l => concat (attribute_matches l <$> rows) | None => rows end).

Definition buildErc20Activities (startBlock endBlock : Z) (addresses : option (list string))
    (erc20_contracts : list string) (evm_event : list EvmEvent) (event : list Event)
  : list Erc20Activity :=
  sortBy ea_cosmos_tx_id
    (omap evm_event_activity
       (erc20EvmEvents startBlock endBlock addresses erc20_contracts evm_event)
     ++ omap buildTransferActivityByCosmos
          (erc20CosmosEvents startBlock endBlock addresses event)).

(** ** Lemmas *)
Lemma try_undefined_Some {A} (m : res A) a : try_undefined m = Some a ↔ m = Ok a.
Proof. destruct m; simpl; split; congruence. Qed.

Lemma act_amount_evm e action from to amount :
  act_amount (evm_activity e action from to amount) = amount.
Proof. unfold act_amount. simpl. by rewrite BigInt_toString. Qed.

(** A deposit is a mint and a withdrawal is a burn, of the decoded amount. *)
Lemma deposit_minted e a to amount :
  decode_one ABI_TRANSFER_PARAMS.TO e = Ok (to, amount) → to ≠ ZERO_ADDRESS →
  buildWrapDepositActivity e = Some a → minted (ev_address e) a = amount.
Proof.
  intros Hd Hto. unfold buildWrapDepositActivity. rewrite Hd. simpl. intros [= <-].
  unfold minted, not_zero. simpl. rewrite !bool_decide_eq_true_2 by done.
  rewrite (bool_decide_eq_false_2 (Some to = _)) by congruence. simpl.
  rewrite act_amount_evm. lia.
Qed.

Lemma withdrawal_minted e a from amount :
  decode_one ABI_TRANSFER_PARAMS.FROM e = Ok (from, amount) → from ≠ ZERO_ADDRESS →
  buildWrapWithdrawalActivity e = Some a → minted (ev_address e) a = - amount.
Proof.
  intros Hd Hto. unfold buildWrapWithdrawalActivity. rewrite Hd. simpl. intros [= <-].
  unfold minted, not_zero. simpl. rewrite !bool_decide_eq_true_2 by done.
  rewrite (bool_decide_eq_false_2 (Some from = _)) by congruence. simpl.
  rewrite act_amount_evm. lia.
Qed.

Lemma buildTransferActivityByCosmos_Some e a :
  buildTransferActivityByCosmos e = Some a →
  ea_height a = e_block_height e ∧ ea_cosmos_tx_id a = e_tx_id e ∧
  ea_amount a = getAttributeFrom (e_attributes e) "amount" ∧
  (e_type e = CONVERT_COIN → ea_from a = Some ZERO_ADDRESS) ∧
  (e_type e = CONVERT_ERC20 → ea_to a = Some ZERO_ADDRESS).
Proof.
  unfold buildTransferActivityByCosmos. rewrite try_undefined_Some. intros H.
  apply bind_Ok in H as (from & _ & H). apply bind_Ok in H as (to & _ & H).
  destruct (bool_decide (e_type e = CONVERT_COIN)) eqn:Hc;
    [|destruct (bool_decide (e_type e = CONVERT_ERC20)) eqn:He];
    apply bind_Ok in H as (addr & _ & H);
    destruct addr, (e_tx_hash e); simplify_eq; simpl;
    rewrite ?bool_decide_eq_true, ?bool_decide_eq_false in *; by rewrite ?Hc, ?He.
Qed.
End Build.

(** ** Properties *)

(** The activities of a range come out in the order of their Cosmos
    transactions; they are exactly the ones built from the events of the
    range, and those of one transaction keep their order (EVM logs by id, then
    Cosmos events by id). *)
Theorem buildErc20Activities_order `{V : Viem} `{C : AddressCodec}
    prefix evmOnly wrap s e addresses contracts evs cevs tx :
  let l := omap (evm_event_activity wrap) (erc20EvmEvents s e addresses contracts evs)
           ++ omap (buildTransferActivityByCosmos prefix) (erc20CosmosEvents evmOnly s e addresses cevs) in
  let r := buildErc20Activities prefix evmOnly wrap s e addresses contracts evs cevs in
  r ≡ₚ l ∧ Sorted (λ a b, ea_cosmos_tx_id a <= ea_cosmos_tx_id b) r ∧
  filter (λ a, ea_cosmos_tx_id a = tx) r = filter (λ a, ea_cosmos_tx_id a = tx) l.
Proof.
  simpl. split; [apply sortBy_perm|]. split; [apply sortBy_sorted|apply sortBy_stable].
Qed.

(** Bridging mints and burns.  An activity built from a [convert_coin]
    event is a mint of the attribute [amount] to the receiver, and one built
    from [convert_erc20] is a burn from the sender, unless the other side is
    the zero address too. *)
Theorem cosmos_conversion_minted `{V : Viem} `{C : AddressCodec} prefix e a :
  buildTransferActivityByCosmos prefix e = Some a →
  (e_type e = CONVERT_COIN → not_zero (ea_to a) = true →
     minted (ea_contract a) a = act_amount a) ∧
  (e_type e = CONVERT_ERC20 → not_zero (ea_from a) = true →
     minted (ea_contract a) a = - act_amount a) ∧
  ea_amount a = getAttributeFrom (e_attributes e) "amount".
Proof.
  intros Ha. apply buildTransferActivityByCosmos_Some in Ha as Hs.
  destruct Hs as (_ & _ & Ham & Hc & He).
  assert (is_transfer a = true) as Ht.
  { unfold buildTransferActivityByCosmos in Ha. apply try_undefined_Some in Ha.
    apply bind_Ok in Ha as (from & _ & Ha). apply bind_Ok in Ha as (to & _ & Ha).
    destruct (bool_decide (e_type e = CONVERT_COIN)), (bool_decide (e_type e = CONVERT_ERC20));
      apply bind_Ok in Ha as (addr & _ & Ha); destruct addr, (e_tx_hash e); by simplify_eq. }
  unfold minted. rewrite Ht, bool_decide_eq_true_2 by done. simpl.
  split; [|split; [|done]].
  - intros ->%Hc ->. simpl. lia.
  - intros ->%He Hf. rewrite Hf. simpl. lia.
Qed.

(** A viem for the witnesses: the data of a log is [value] in decimal after
    two topics of eight characters. *)
Definition demo_viem : Viem := {|
  decodeAbiParameters := λ _ s, z ← BigInt s; Ok [AbiUint z];
  toHex := λ o, match o with Some s => Ok s | None => Throw "null" end;
  keccak256 := λ s, s
|}.

Definition demo_convert : Event := {|
  e_id := 7; e_type := CONVERT_COIN; e_block_height := 12; e_tx_id := 3;
  e_tx_hash := Some "HASH";
  e_attributes := [ Attribute "sender" (Some "aura_X"); Attribute "receiver" (Some "0xA");
                    Attribute "amount" (Some "15"); Attribute "erc20_token" (Some "0xC") ] |}.

Definition demo_converted : Erc20Activity :=
  default (demo_activity None None None None "0" 0)
    (buildTransferActivityByCosmos (C := DemoCodec.codec) "aura" demo_convert).

Lemma cosmos_conversion_minted_witness :
  minted "0xc" demo_converted = 15 ∧
  ea_amount demo_converted = getAttributeFrom (e_attributes demo_convert) "amount".
Proof.
  assert (buildTransferActivityByCosmos (C := DemoCodec.codec) "aura" demo_convert
          = Some demo_converted) as H by (vm_compute; reflexivity).
  destruct (@cosmos_conversion_minted demo_viem DemoCodec.codec "aura" demo_convert demo_converted H)
    as (Hc & _ & Ham).
  split; [|exact Ham].
  rewrite <-(eq_refl : ea_contract demo_converted = "0xc").
  rewrite Hc; vm_compute; reflexivity.
Defined.
