(* ===== verification/Erc20Index.v ===== *)
(** * Indexing ERC-20 contracts

    The rest of [services/evm/erc20.service.ts]: the job that registers the
    ERC-20 contracts of a range, the job that stores their activities, the
    action that registers the contracts behind proxies; and
    [services/evm/erc20_reindex.ts], which drops what is stored of a contract
    and rebuilds it from the events.

    What a contract answers to [name], [symbol], [decimals] and [totalSupply]
    and the height of the node are parameters. *)
From S2P Require Import Prelude JsNum Checkpoint Address EvmContracts Erc20 Erc20Service Erc20Events.

(** The tables of Erc20Service.v with those the contracts and their events are
    read from; an event carries the sender of its transaction. *)
Record Index := {
  ledger : Erc20Service.Db;
  smart_contracts : list EVMSmartContract;
  evm_events : list EvmEvent;
  events : list Event
}.
Definition set_ledger (f : Erc20Service.Db) (x : Index) : Index := {|
  ledger := f; smart_contracts := smart_contracts x; evm_events := evm_events x; events := events x |}.

#[export] Instance Index_checkpoints : HasCheckpoints Index := λ x, block_checkpoint (ledger x).
#[export] Program Instance Index_set_checkpoints : SetCheckpoints Index := {|
  set_checkpoints t x := set_ledger (set_block_checkpoint t (ledger x)) x
|}.
Next Obligation. done. Qed.

Definition set_erc20_contract (t : gmap string Erc20Contract) (db : Erc20Service.Db) : Erc20Service.Db := {|
  account := account db; account_balance := account_balance db; erc20_contract := t;
  erc20_activity := erc20_activity db; block_checkpoint := block_checkpoint db |}.
Definition set_erc20_activity (l : list Erc20Activity) (db : Erc20Service.Db) : Erc20Service.Db := {|
  account := account db; account_balance := account_balance db; erc20_contract := erc20_contract db;
  erc20_activity := l; block_checkpoint := block_checkpoint db |}.
Definition set_account_balance (t : gmap (Z * string) AccountBalance) (db : Erc20Service.Db) : Erc20Service.Db := {|
  account := account db; account_balance := t; erc20_contract := erc20_contract db;
  erc20_activity := erc20_activity db; block_checkpoint := block_checkpoint db |}.

(** The contract, as the node answers for it. *)
Class TokenNode := {
  read_name : string → res string;
  read_symbol : string → res string;
  read_decimals : string → res Z;
  read_totalSupply : string → res Z;
  node_height : res Z
}.

(** ** What a batch of requests answers *)
Inductive Answer := AText (s : string) | ANumber (z : Z) | AUndefined.

(** [.catch(() => Promise.resolve(undefined))] *)
Definition caught {A} (f : A → Answer) (m : res A) : Answer :=
  match m with Ok a => f a | Throw _ => AUndefined end.
(** A text column, to which the schema coerces a number. *)
Definition text_column (a : Answer) : option string :=
  match a with AText s => Some s | ANumber z => Some (toString z) | AUndefined => None end.

Record TokenInfo := {
  ti_address : string; ti_name : option string; ti_symbol : option string;
  ti_decimals : option string; ti_totalSupply : option string }.

Section Service.
Context {T : TokenNode}.

Definition batchReqs (address : string) : list Answer :=
  [ caught AText (read_name address); caught AText (read_symbol address);
    caught ANumber (read_decimals address); caught ANumber (read_totalSupply address) ].

(** [results[4 * index + i]] *)
Definition result_at (results : list Answer) (index i : nat) : option string :=
  results !! (4 * index + i)%nat ≫= text_column.

Definition getBatchErc20Info (addresses : list string) : list TokenInfo :=
  let results := addresses ≫= batchReqs in
  imap (λ index address,
    {| ti_address := address; ti_name := result_at results index 0; ti_symbol := result_at results index 1;
       ti_decimals := result_at results index 2; ti_totalSupply := result_at results index 3 |}) addresses.

(** The row of a contract. *)
Definition erc20_row (id : Z) (address : string) (info : TokenInfo) (track : bool) (height : option Z)
  : Erc20Contract := {|
  ec_address := address; ec_total_supply := ti_totalSupply info; ec_last_updated_height := height;
  ec_track := track; ec_evm_smart_contract_id := id; ec_symbol := ti_symbol info;
  ec_decimal := ti_decimals info; ec_name := ti_name info |}.

Definition getErc20Instances (evmSmartContracts : list EVMSmartContract) : list Erc20Contract :=
  zip_with (λ c info, erc20_row (sc_id c) (sc_address c) info true (sc_created_height c))
    evmSmartContracts (getBatchErc20Info (sc_address <$> evmSmartContracts)).

(** ** Writing [erc20_contract] *)

(** [symbol] and [name] are varchar(255), [total_supply] has 80 digits. *)
Definition short_text (o : option string) : bool := varchar255_opt o.
Definition erc20_fits (c : Erc20Contract) : bool := short_text (ec_symbol c) && short_text (ec_name c).

(** [insert(rows).onConflict(['address']).merge()]: a column none of the rows
    has a value for is not part of the statement. *)
Definition in_batch (f : Erc20Contract → option string) (rows : list Erc20Contract) : bool :=
  existsb (λ r, bool_decide (is_Some (f r))) rows.
Definition merged_column (rows : list Erc20Contract) (f : Erc20Contract → option string) (old new : Erc20Contract)
  : option string := if in_batch f rows then f new else f old.
Definition merge_erc20 (rows : list Erc20Contract) (old : option Erc20Contract) (new : Erc20Contract) : Erc20Contract :=
  match old with
  | None => new
  | Some old => {|
      ec_address := ec_address new; ec_total_supply := merged_column rows ec_total_supply old new;
      ec_last_updated_height := ec_last_updated_height new; ec_track := ec_track new;
      ec_evm_smart_contract_id := ec_evm_smart_contract_id new; ec_symbol := merged_column rows ec_symbol old new;
      ec_decimal := merged_column rows ec_decimal old new; ec_name := merged_column rows ec_name old new |}
  end.
Definition upsert_erc20 (rows : list Erc20Contract) (t : gmap string Erc20Contract) : res (gmap string Erc20Contract) :=
  if negb (forallb erc20_fits rows) then Throw "value too long for type character varying(255)" else
  if bool_decide (NoDup (ec_address <$> rows))
  then Ok (foldl (λ t r, <[ec_address r := merge_erc20 rows (t !! ec_address r) r]> t) t rows)
  else Throw "ON CONFLICT DO UPDATE command cannot affect row a second time".

(** [insert(rows)]: the address is unique. *)
Definition insert_erc20 (rows : list Erc20Contract) (t : gmap string Erc20Contract) : res (gmap string Erc20Contract) :=
  if negb (forallb erc20_fits rows) then Throw "value too long for type character varying(255)" else
  forEachM (λ t r, match t !! ec_address r with
                   | None => Ok (<[ec_address r := r]> t)
                   | Some _ => Throw "duplicate key value violates unique constraint"
                   end) t rows.

(** ** The contract job *)
Definition created_between (startBlock endBlock : Z) (c : EVMSmartContract) : bool :=
  match sc_created_height c with Some h => (startBlock <? h) && (h <=? endBlock) | None => false end.
Definition erc20SmartContracts (startBlock endBlock : Z) (x : Index) : list EVMSmartContract :=
  sortBy sc_id (filter (λ c, created_between startBlock endBlock c = true ∧ sc_type c = Some TYPES.ERC20)
                  (smart_contracts x)).

Definition prepareErc20Contracts (startBlock endBlock : Z) : io Index (list Erc20Contract) :=
  cs ← query (erc20SmartContracts startBlock endBlock);
  mret (getErc20Instances cs).
Definition writeErc20Contracts (rows : list Erc20Contract) (x : Index) : res Index :=
  t ← upsert_erc20 rows (erc20_contract (ledger x));
  Ok (set_ledger (set_erc20_contract t (ledger x)) x).
Definition handleErc20Contract (cfg : Config.t) : io Index () :=
  checkpoint_handler cfg HANDLE_ERC20_CONTRACT prepareErc20Contracts (λ _ _, writeErc20Contracts).

(** The action that registers the contracts behind new proxies. *)
Definition insertNewErc20Contracts (evmSmartContracts : list (Z * string)) : io Index () :=
  if bool_decide (evmSmartContracts = []) then mret () else
  currentHeight ← lift node_height;
  let instances := getErc20Instances ((λ e : Z * string,
    {| sc_id := e.1; sc_address := e.2; sc_creator := None; sc_created_height := Some currentHeight;
       sc_created_hash := None; sc_type := None; sc_code_hash := None |}) <$> evmSmartContracts) in
  commit (writeErc20Contracts instances).

(** ** The activity job *)
Section Activity.
Context {V : Viem} {C : AddressCodec}.
Context (networkPrefixAddress : string) (evmOnly : bool) (wrapExtensionContract : list string).

(** The addresses of the two inner joins of the query for the events. *)
Definition joined_contracts (x : Index) (t : gmap string Erc20Contract) : list string :=
  filter (λ a, a ∈ sc_address <$> smart_contracts x) ((map_to_list t).*1).

Definition activities_between (startBlock endBlock : Z) (addresses : option (list string)) (x : Index)
  : list Erc20Activity :=
  buildErc20Activities networkPrefixAddress evmOnly wrapExtensionContract startBlock endBlock addresses
    (joined_contracts x (erc20_contract (ledger x))) (evm_events x) (events x).

Definition missingErc20ContractsAddress (acts : list Erc20Activity) (x : Index) : list string :=
  filter (λ a, erc20_contract (ledger x) !! a = None) (uniq (ea_contract <$> acts)).

(** [evmSmartContracts[addr].id] *)
Definition smart_contract_id (x : Index) (addr : string) : res Z :=
  match keyBy sc_address (smart_contracts x) !! addr with
  | Some c => Ok (sc_id c)
  | None => Throw "TypeError: Cannot read properties of undefined (reading 'id')"
  end.

Definition missing_rows (acts : list Erc20Activity) (x : Index) : res (list Erc20Contract) :=
  let missing := missingErc20ContractsAddress acts x in
  let infos := getBatchErc20Info missing in
  mapR (λ r : string * TokenInfo, id ← smart_contract_id x r.1; Ok (erc20_row id r.1 r.2 false (Some (-1))))
    (zip missing infos).

(** [erc20_contract_address] references [erc20_contract]. *)
Definition insert_activities (acts : list Erc20Activity) (db : Erc20Service.Db) : res Erc20Service.Db :=
  if forallb (λ a, bool_decide (is_Some (erc20_contract db !! ea_contract a))) acts
  then Ok (set_erc20_activity (erc20_activity db ++ acts) db)
  else Throw "insert or update on table erc20_activity violates foreign key constraint".

Definition prepareErc20Activities (startBlock endBlock : Z) : io Index (list Erc20Activity * list Erc20Contract) :=
  acts ← query (activities_between startBlock endBlock None);
  answers ← query (missing_rows acts);
  rows ← lift answers;
  mret (acts, rows).
Definition writeErc20Activities (w : list Erc20Activity * list Erc20Contract) (x : Index) : res Index :=
  t ← insert_erc20 w.2 (erc20_contract (ledger x));
  db ← insert_activities w.1 (set_erc20_contract t (ledger x));
  Ok (set_ledger db x).
Definition handleErc20Activity (cfg : Config.t) : io Index () :=
  checkpoint_handler cfg HANDLE_ERC20_ACTIVITY prepareErc20Activities (λ _ _, writeErc20Activities).

(** ** Reindexing *)
Definition untrack (address : string) (x : Index) : Index :=
  set_ledger (set_erc20_contract
    (alter (λ c, {| ec_address := ec_address c; ec_total_supply := ec_total_supply c;
                    ec_last_updated_height := ec_last_updated_height c; ec_track := false;
                    ec_evm_smart_contract_id := ec_evm_smart_contract_id c; ec_symbol := ec_symbol c;
                    ec_decimal := ec_decimal c; ec_name := ec_name c |}) address (erc20_contract (ledger x)))
    (ledger x)) x.

(** The join with [evm_smart_contract]. *)
Definition reindexed_id (address : string) (x : Index) : res Z :=
  match erc20_contract (ledger x) !! address with
  | Some c => if bool_decide (ec_evm_smart_contract_id c ∈ sc_id <$> smart_contracts x)
              then Ok (ec_evm_smart_contract_id c) else Throw "NotFoundError"
  | None => Throw "NotFoundError"
  end.

(** What the three deletions leave. *)
Definition forget (address : string) (db : Erc20Service.Db) : Erc20Service.Db := {|
  account := account db;
  account_balance := filter (λ r : (Z * string) * AccountBalance, r.1.2 ≠ address) (account_balance db);
  erc20_contract := delete address (erc20_contract db);
  erc20_activity := filter (λ a, ea_contract a ≠ address) (erc20_activity db);
  block_checkpoint := block_checkpoint db |}.

Definition fresh_row (id : Z) (address : string) (blockHeight : Z) : Erc20Contract := {|
  ec_address := address; ec_total_supply := Some "0"; ec_last_updated_height := Some blockHeight; ec_track := true;
  ec_evm_smart_contract_id := id; ec_symbol := text_column (caught AText (read_symbol address));
  ec_decimal := text_column (caught ANumber (read_decimals address));
  ec_name := text_column (caught AText (read_name address)) |}.

(** The transaction of [Erc20Reindexer.reindex]. *)
Definition rebuild (address : string) (x : Index) : res Index :=
  id ← reindexed_id address x;
  let db := forget address (ledger x) in
  blockHeight ← node_height;
  t ← insert_erc20 [fresh_row id address blockHeight] (erc20_contract db);
  let x := set_ledger (set_erc20_contract t db) x in
  db ← insert_activities (activities_between 0 blockHeight (Some [address]) x) (ledger x);
  let erc20ActivitiesInDb := getErc20Activities 0 blockHeight (Some [address]) db in
  missing ← missingAccountsAddress networkPrefixAddress erc20ActivitiesInDb;
  if negb (bool_decide (missing = [])) then Throw "Missing accounts. You should reindex them" else
  db ← updateErc20AccountsBalance erc20ActivitiesInDb db;
  Ok (set_ledger db x).

Definition reindex (address : string) : io Index () :=
  update (untrack address);;
  commit (rebuild address).

Definition reindexErc20 (address : string) : io Index () := reindex (toLowerCase address).

(** The action: one job per address, unless one waits under its id. *)
Definition reindexing (addresses : list string) (jobs : list string) : list string :=
  foldl (λ jobs a, if bool_decide (a ∈ jobs) then jobs else jobs ++ [a]) jobs addresses.
End Activity.
End Service.

(** ** The batch of requests *)
Section Facts.
Context {T : TokenNode}.

(** What one contract answers. *)
Definition info_of (a : string) : TokenInfo := {|
  ti_address := a; ti_name := text_column (caught AText (read_name a));
  ti_symbol := text_column (caught AText (read_symbol a));
  ti_decimals := text_column (caught ANumber (read_decimals a));
  ti_totalSupply := text_column (caught ANumber (read_totalSupply a)) |}.

Lemma lookup_chunks {A B} (f : A → list B) n (l : list A) i j :
  (∀ a, length (f a) = n) → (j < n)%nat → (l ≫= f) !! (n * i + j)%nat = l !! i ≫= λ a, f a !! j.
Proof.
  intros Hn Hj. revert i. induction l as [|a l IH]; intros i; [done|].
  change ((a :: l) ≫= f) with (f a ++ (l ≫= f)). destruct i as [|i].
  - rewrite Nat.mul_0_r, lookup_app_l by (rewrite Hn; lia). done.
  - rewrite lookup_app_r by (rewrite Hn; lia). rewrite Hn.
    replace (n * S i + j - n)%nat with (n * i + j)%nat by lia. apply IH.
Qed.

(** The requests of all contracts are sent as one flat list and the answers
    picked out of it by index; every contract gets its own answers, and a
    request that fails leaves its column empty. *)
Theorem getBatchErc20Info_each addresses : getBatchErc20Info addresses = info_of <$> addresses.
Proof.
  apply list_eq. intros i. unfold getBatchErc20Info. rewrite list_lookup_imap, list_lookup_fmap.
  destruct (addresses !! i) as [a|] eqn:Ha; [|done]. cbn [fmap option_fmap option_map]. f_equal. unfold info_of, result_at.
  rewrite !(lookup_chunks batchReqs 4) by (done || lia). by rewrite Ha.
Qed.

Lemma getErc20Instances_each cs :
  getErc20Instances cs
  = (λ c, erc20_row (sc_id c) (sc_address c) (info_of (sc_address c)) true (sc_created_height c)) <$> cs.
Proof.
  unfold getErc20Instances. rewrite getBatchErc20Info_each, <-list_fmap_compose.
  induction cs as [|c cs IH]; [done|]. simpl. f_equal. apply IH.
Qed.

Lemma instances_addresses cs : ec_address <$> getErc20Instances cs = sc_address <$> cs.
Proof. rewrite getErc20Instances_each, <-list_fmap_compose. by apply list_fmap_ext. Qed.

(** ** Upserts *)
Lemma upsert_fold_lookup rows all (t : gmap string Erc20Contract) a :
  NoDup (ec_address <$> rows) →
  foldl (λ t r, <[ec_address r := merge_erc20 all (t !! ec_address r) r]> t) t rows !! a
  = match find (λ r, bool_decide (ec_address r = a)) rows with
    | Some r => Some (merge_erc20 all (t !! a) r)
    | None => t !! a
    end.
Proof.
  revert t. induction rows as [|r rows IH]; intros t Hnd; [done|].
  apply NoDup_cons in Hnd as [Hr Hnd]. simpl. rewrite (IH _ Hnd). case_bool_decide as Ha.
  - subst a. destruct (find _ rows) as [r'|] eqn:Hf; [|by rewrite lookup_insert_eq].
    apply find_Some in Hf as [Hin Heq%bool_decide_eq_true]. destruct Hr. rewrite <-Heq.
    by apply list_elem_of_fmap_2.
  - by rewrite lookup_insert_ne.
Qed.

Lemma upsert_erc20_Ok rows t :
  Forall (λ r, erc20_fits r = true) rows → NoDup (ec_address <$> rows) →
  ∃ t', upsert_erc20 rows t = Ok t' ∧
    (∀ r, r ∈ rows → t' !! ec_address r = Some (merge_erc20 rows (t !! ec_address r) r)) ∧
    (∀ a, a ∉ ec_address <$> rows → t' !! a = t !! a).
Proof.
  intros Hfit Hnd. unfold upsert_erc20.
  rewrite (proj2 (forallb_forall _ _)); cycle 1.
  { intros r Hr%list_elem_of_In. by apply (proj1 (Forall_forall _ _) Hfit). }
  cbn [negb]. rewrite bool_decide_eq_true_2 by done. eexists. split; [done|]. split.
  - intros r Hr. rewrite upsert_fold_lookup by done.
    destruct (find _ rows) as [r'|] eqn:Hf.
    + apply find_Some in Hf as [Hin Heq%bool_decide_eq_true].
      by rewrite (NoDup_fmap_key ec_address rows r' r Hnd Hin Hr Heq).
    + rewrite find_None, Forall_forall in Hf. specialize (Hf r Hr). by rewrite bool_decide_eq_true_2 in Hf.
  - intros a Ha. rewrite upsert_fold_lookup by done. destruct (find _ rows) as [r|] eqn:Hf; [|done].
    apply find_Some in Hf as [Hin Heq%bool_decide_eq_true]. destruct Ha. rewrite <-Heq.
    by apply list_elem_of_fmap_2.
Qed.

(** ** The contract job *)
Lemma elem_of_erc20SmartContracts s e x c :
  c ∈ erc20SmartContracts s e x ↔
  c ∈ smart_contracts x ∧ created_between s e c = true ∧ sc_type c = Some TYPES.ERC20.
Proof. unfold erc20SmartContracts. rewrite sortBy_perm, list_elem_of_filter. tauto. Qed.

Lemma erc20SmartContracts_NoDup s e x :
  NoDup (sc_address <$> smart_contracts x) → NoDup (sc_address <$> erc20SmartContracts s e x).
Proof.
  intros Hnd. unfold erc20SmartContracts. rewrite sortBy_perm.
  eapply sublist_NoDup; [exact Hnd|]. apply fmap_sublist, sublist_filter.
Qed.

(** The texts a contract answers fit their columns. *)
Definition short_answers (a : string) : Prop :=
  short_text (ti_name (info_of a)) = true ∧ short_text (ti_symbol (info_of a)) = true.

Lemma erc20_row_fits id a track h : erc20_fits (erc20_row id a (info_of a) track h) = true ↔ short_answers a.
Proof. unfold erc20_fits, short_answers, erc20_row. cbn [ec_symbol ec_name]. rewrite andb_true_iff. tauto. Qed.

Lemma stops_NoGuard s e : stops NoGuard s e = false.
Proof. done. Qed.

(** A run of the contract job registers the ERC-20 contracts created in its
    range as tracked, each with what it answered, in place of what was stored
    under its address; it changes no other contract and no balance or activity,
    and its checkpoint passes the range. *)
Theorem erc20_contracts_registered cfg x s e u :
  jobCheckpoint cfg HANDLE_ERC20_CONTRACT (checkpoints_of x) = Ok (s, e, u) →
  NoDup (sc_address <$> smart_contracts x) →
  (∀ c, c ∈ erc20SmartContracts s e x → short_answers (sc_address c)) →
  ∃ x', handleErc20Contract cfg x = (x', Ok tt) ∧
    checkpoints_of x' = saveCheckpoint u e (checkpoints_of x) ∧
    account_balance (ledger x') = account_balance (ledger x) ∧
    erc20_activity (ledger x') = erc20_activity (ledger x) ∧
    (∀ c, c ∈ erc20SmartContracts s e x → ∃ r, erc20_contract (ledger x') !! sc_address c = Some r ∧
       ec_track r = true ∧ ec_last_updated_height r = sc_created_height c ∧ ec_evm_smart_contract_id r = sc_id c ∧
       (∀ z, read_totalSupply (sc_address c) = Ok z → ec_total_supply r = Some (toString z)) ∧
       (erc20_contract (ledger x) !! sc_address c = None →
          r = erc20_row (sc_id c) (sc_address c) (info_of (sc_address c)) true (sc_created_height c))) ∧
    (∀ a, a ∉ sc_address <$> erc20SmartContracts s e x →
       erc20_contract (ledger x') !! a = erc20_contract (ledger x) !! a).
Proof.
  intros Hj Hnd Hshort. set (cs := erc20SmartContracts s e x) in *.
  pose proof (erc20SmartContracts_NoDup s e x Hnd) as Hnd'.
  destruct (upsert_erc20_Ok (getErc20Instances cs) (erc20_contract (ledger x))) as (t & Ht & Hrows & Hother).
  { rewrite getErc20Instances_each. apply Forall_fmap, Forall_forall. intros c Hc. by apply erc20_row_fits, Hshort. }
  { by rewrite instances_addresses. }
  eexists. split.
  { apply (checkpoint_handler_run cfg HANDLE_ERC20_CONTRACT prepareErc20Contracts (λ _ _, writeErc20Contracts)
             x s e u x (getErc20Instances cs) (set_ledger (set_erc20_contract t (ledger x)) x));
      [done|done|done|unfold writeErc20Contracts; by rewrite Ht]. }
  split; [done|]. split; [done|]. split; [done|]. rewrite instances_addresses in Hother. split; [|done].
  intros c Hc. set (row := erc20_row (sc_id c) (sc_address c) (info_of (sc_address c)) true (sc_created_height c)).
  assert (row ∈ getErc20Instances cs) as Hin.
  { rewrite getErc20Instances_each. apply list_elem_of_fmap. by exists c. }
  exists (merge_erc20 (getErc20Instances cs) (erc20_contract (ledger x) !! sc_address c) row).
  split; [exact (Hrows _ Hin)|].
  assert (∀ z, read_totalSupply (sc_address c) = Ok z → ec_total_supply row = Some (toString z)) as Hz.
  { intros z Hz. unfold row. simpl. by rewrite Hz. }
  destruct (erc20_contract (ledger x) !! _) as [old|] eqn:Hold; [|done].
  split_and!; try done. intros z Hsup. cbn [merge_erc20 ec_total_supply]. unfold merged_column, in_batch.
  rewrite (proj2 (existsb_exists _ _)); [by apply Hz|]. exists row. split; [by apply list_elem_of_In|].
  apply bool_decide_eq_true. rewrite (Hz z Hsup). by eexists.
Qed.

(** A contract of the range that answers a name or a symbol of more than
    255 characters stops the contract job: every run throws and stores none of
    the contracts of the range. *)
Theorem long_name_stops_job cfg x s e u c :
  jobCheckpoint cfg HANDLE_ERC20_CONTRACT (checkpoints_of x) = Ok (s, e, u) →
  c ∈ erc20SmartContracts s e x → ¬ short_answers (sc_address c) →
  handleErc20Contract cfg x = (x, Throw "value too long for type character varying(255)").
Proof.
  intros Hj Hc Hlong.
  apply (checkpoint_handler_fails cfg HANDLE_ERC20_CONTRACT prepareErc20Contracts (λ _ _, writeErc20Contracts)
           x s e u x (getErc20Instances (erc20SmartContracts s e x))); [done|done|done|].
  unfold writeErc20Contracts, upsert_erc20. destruct (forallb erc20_fits _) eqn:Hfit; [|done]. exfalso.
  rewrite forallb_forall in Hfit. apply Hlong. rewrite <-(erc20_row_fits (sc_id c) _ true (sc_created_height c)). apply Hfit.
  apply list_elem_of_In. rewrite getErc20Instances_each. apply list_elem_of_fmap. eauto.
Qed.
End Facts.

(** ** The activity job *)
Section ActivityFacts.
Context {T : TokenNode} {V : Viem} {C : AddressCodec}.
Context (networkPrefixAddress : string) (evmOnly : bool) (wrapExtensionContract : list string).

#[local] Abbreviation activities := (activities_between networkPrefixAddress evmOnly wrapExtensionContract).
#[local] Abbreviation activityJob := (handleErc20Activity networkPrefixAddress evmOnly wrapExtensionContract).

Lemma insert_erc20_Ok rows (t : gmap string Erc20Contract) :
  Forall (λ r, erc20_fits r = true) rows → NoDup (ec_address <$> rows) →
  (∀ r, r ∈ rows → t !! ec_address r = None) →
  ∃ t', insert_erc20 rows t = Ok t' ∧ (∀ r, r ∈ rows → t' !! ec_address r = Some r) ∧
    (∀ a, a ∉ ec_address <$> rows → t' !! a = t !! a).
Proof.
  intros Hfit Hnd Hnew. unfold insert_erc20.
  rewrite (proj2 (forallb_forall _ _)); cycle 1.
  { intros r Hr%list_elem_of_In. by apply (proj1 (Forall_forall _ _) Hfit). }
  cbn [negb]. clear Hfit. revert t Hnew. induction rows as [|r rows IH]; intros t Hnew.
  { exists t. split; [done|]. split; [by intros r ?%not_elem_of_nil|done]. }
  apply NoDup_cons in Hnd as [Hr Hnd]. cbn [forEachM]. rewrite (Hnew r) by (by left). cbn [mbind res_bind].
  destruct (IH Hnd (<[ec_address r := r]> t)) as (t' & Ht & Hrows & Hother).
  { intros r' Hr'. rewrite lookup_insert_ne; [by apply Hnew; right|]. intros Heq. apply Hr. rewrite Heq.
    by apply list_elem_of_fmap_2. }
  exists t'. split; [done|]. split.
  - intros r' [->|Hr']%elem_of_cons; [|by apply Hrows]. by rewrite Hother, lookup_insert_eq.
  - intros a Ha. rewrite fmap_cons, not_elem_of_cons in Ha. destruct Ha as [Hne Ha].
    rewrite Hother by done. by rewrite lookup_insert_ne.
Qed.

(** A contract without a row gets one that is not tracked. *)
Definition untracked_row (id : Z) (a : string) : Erc20Contract := erc20_row id a (info_of a) false (Some (-1)).

Lemma mapR_zip {A B D} (f : A → B) (g : A * B → res D) l : mapR g (zip l (f <$> l)) = mapR (λ a, g (a, f a)) l.
Proof. induction l as [|a l IH]; [done|]. rewrite fmap_cons. cbn [zip_with mapR]. by rewrite <-IH. Qed.

Lemma missing_rows_each acts x :
  missing_rows acts x
  = mapR (λ a, id ← smart_contract_id x a; Ok (untracked_row id a)) (missingErc20ContractsAddress acts x).
Proof. unfold missing_rows. cbv zeta. rewrite getBatchErc20Info_each. etrans; [apply (mapR_zip info_of)|done]. Qed.

Lemma missing_rows_Ok acts x :
  (∀ a, a ∈ missingErc20ContractsAddress acts x → a ∈ sc_address <$> smart_contracts x) →
  ∃ rows, missing_rows acts x = Ok rows ∧
    Forall2 (λ a r, ∃ id, smart_contract_id x a = Ok id ∧ r = untracked_row id a)
      (missingErc20ContractsAddress acts x) rows.
Proof.
  intros Hknown. rewrite missing_rows_each.
  destruct (mapR_total (λ a, id ← smart_contract_id x a; Ok (untracked_row id a))
              (missingErc20ContractsAddress acts x)) as [rows Hrows].
  { intros a Ha. specialize (Hknown a Ha). apply keyBy_is_Some in Hknown as [c Hc]. unfold smart_contract_id.
    rewrite Hc. by eexists. }
  exists rows. split; [done|]. apply mapR_Ok in Hrows. eapply Forall2_impl; [exact Hrows|].
  intros a r Hr. apply bind_Ok in Hr as (id & Hid & [= <-]). eauto.
Qed.

Lemma missing_rows_addresses l rows x :
  Forall2 (λ a r, ∃ id, smart_contract_id x a = Ok id ∧ r = untracked_row id a) l rows → ec_address <$> rows = l.
Proof. induction 1 as [|a r l rows (id & _ & ->) _ IH]; [done|]. by rewrite fmap_cons, IH. Qed.

Lemma elem_of_missing_tokens acts x a :
  a ∈ missingErc20ContractsAddress acts x ↔ a ∈ (ea_contract <$> acts) ∧ erc20_contract (ledger x) !! a = None.
Proof. unfold missingErc20ContractsAddress. rewrite list_elem_of_filter, elem_of_uniq. tauto. Qed.

(** When every contract its activities name is in [evm_smart_contract], a
    run of the activity job appends the activities of its range, once and in
    order; contracts that had no row get one that is not tracked, so every
    stored activity refers to a row; no other contract changes, and the
    checkpoint passes the range. *)
Theorem erc20_activities_stored cfg x s e u :
  jobCheckpoint cfg HANDLE_ERC20_ACTIVITY (checkpoints_of x) = Ok (s, e, u) →
  (∀ a, a ∈ missingErc20ContractsAddress (activities s e None x) x →
     a ∈ sc_address <$> smart_contracts x ∧ short_answers a) →
  ∃ x', activityJob cfg x = (x', Ok tt) ∧
    checkpoints_of x' = saveCheckpoint u e (checkpoints_of x) ∧
    erc20_activity (ledger x') = erc20_activity (ledger x) ++ activities s e None x ∧
    account_balance (ledger x') = account_balance (ledger x) ∧ account (ledger x') = account (ledger x) ∧
    (∀ a, a ∈ activities s e None x → is_Some (erc20_contract (ledger x') !! ea_contract a)) ∧
    (∀ addr r, erc20_contract (ledger x) !! addr = Some r → erc20_contract (ledger x') !! addr = Some r) ∧
    (∀ addr r, erc20_contract (ledger x) !! addr = None → erc20_contract (ledger x') !! addr = Some r →
       ec_track r = false).
Proof.
  intros Hj Hmiss. set (acts := activities s e None x) in *.
  destruct (missing_rows_Ok acts x) as (rows & Hrows & Hall); [by intros a Ha; apply Hmiss|].
  pose proof (missing_rows_addresses _ _ _ Hall) as Haddr.
  assert (∀ r, r ∈ rows → ec_address r ∈ missingErc20ContractsAddress acts x ∧ ec_track r = false ∧
            erc20_fits r = true) as Hr.
  { intros r Hr. apply list_elem_of_lookup in Hr as [i Hi].
    destruct (Forall2_lookup_r _ _ _ _ _ Hall Hi) as (a & Ha & id & _ & ->).
    apply list_elem_of_lookup_2 in Ha. split_and!; [done|done|]. by apply erc20_row_fits, Hmiss. }
  destruct (insert_erc20_Ok rows (erc20_contract (ledger x))) as (t & Ht & Hnew & Hold).
  { apply Forall_forall. intros r Hin. by apply Hr. }
  { rewrite Haddr. apply NoDup_filter, NoDup_uniq. }
  { intros r Hin. apply Hr in Hin as (Hin & _). by apply elem_of_missing_tokens in Hin as [_ ?]. }
  assert (∀ addr r, erc20_contract (ledger x) !! addr = Some r → t !! addr = Some r) as Hkeep.
  { intros addr r Hsome. rewrite Hold; [done|]. rewrite Haddr, elem_of_missing_tokens. intros [_ ?]. congruence. }
  assert (∀ a, a ∈ acts → is_Some (t !! ea_contract a)) as Href.
  { intros a Ha. destruct (erc20_contract (ledger x) !! ea_contract a) as [r|] eqn:Hc; [by rewrite (Hkeep _ _ Hc)|].
    assert (ea_contract a ∈ ec_address <$> rows) as Hin.
    { rewrite Haddr, elem_of_missing_tokens. split; [by apply list_elem_of_fmap_2|done]. }
    apply list_elem_of_fmap in Hin as (r & -> & Hin). by rewrite (Hnew _ Hin). }
  assert (writeErc20Activities (acts, rows) x
    = Ok (set_ledger (set_erc20_activity (erc20_activity (ledger x) ++ acts) (set_erc20_contract t (ledger x))) x)) as Hw.
  { unfold writeErc20Activities, insert_activities. cbn [fst snd]. rewrite Ht. cbn [mbind res_bind].
    rewrite (proj2 (forallb_forall _ _)); [done|]. intros a Ha%list_elem_of_In. by apply bool_decide_eq_true, Href. }
  eexists. split.
  { apply (checkpoint_handler_run cfg HANDLE_ERC20_ACTIVITY _ (λ _ _, writeErc20Activities) x s e u x (acts, rows));
      [done|done| |exact Hw].
    unfold prepareErc20Activities, query, lift, mbind, io_bind. fold acts. by rewrite Hrows. }
  split_and!; try done.
  intros addr r Hnone Hsome. cbn in Hsome. destruct (decide (addr ∈ ec_address <$> rows)) as [Hin|Hin].
  - apply list_elem_of_fmap in Hin as (r' & -> & Hin). rewrite (Hnew _ Hin) in Hsome. injection Hsome as <-. by apply Hr.
  - rewrite Hold in Hsome by done. congruence.
Qed.

(** A conversion event that names a contract neither [erc20_contract] nor
    [evm_smart_contract] knows stops the activity job: every run throws and
    stores nothing. *)
Theorem unknown_token_stops_job cfg x s e u a :
  jobCheckpoint cfg HANDLE_ERC20_ACTIVITY (checkpoints_of x) = Ok (s, e, u) →
  a ∈ activities s e None x → erc20_contract (ledger x) !! ea_contract a = None →
  ea_contract a ∉ sc_address <$> smart_contracts x →
  activityJob cfg x = (x, Throw "TypeError: Cannot read properties of undefined (reading 'id')").
Proof.
  intros Hj Ha Hnone Hunknown. set (acts := activities s e None x) in *.
  assert (missing_rows acts x = Throw "TypeError: Cannot read properties of undefined (reading 'id')") as Hm.
  { assert (ea_contract a ∈ missingErc20ContractsAddress acts x) as Hin
      by (apply elem_of_missing_tokens; split; [by apply list_elem_of_fmap_2|done]).
    rewrite missing_rows_each.
    induction (missingErc20ContractsAddress acts x) as [|b l IH]; [by apply not_elem_of_nil in Hin|].
    assert (smart_contract_id x b = Throw "TypeError: Cannot read properties of undefined (reading 'id')"
            ∨ ∃ id, smart_contract_id x b = Ok id ∧ b ∈ sc_address <$> smart_contracts x) as [Hb|(id & Hb & Hin')].
    { unfold smart_contract_id. destruct (keyBy sc_address (smart_contracts x) !! b) as [c|] eqn:Hb; [|by left].
      right. exists (sc_id c). split; [done|]. apply keyBy_is_Some. by rewrite Hb. }
    - simpl. by rewrite Hb.
    - apply elem_of_cons in Hin as [<-|Hin]; [done|]. specialize (IH Hin). simpl. by rewrite Hb, IH. }
  unfold handleErc20Activity, checkpoint_handler, readCheckpoint.
  erewrite io_step by (by rewrite Hj). cbv beta iota. rewrite stops_NoGuard.
  unfold mbind at 1, io_bind at 1, prepareErc20Activities, query, lift, mbind, io_bind. fold acts. by rewrite Hm.
Qed.
End ActivityFacts.

(** ** The supply of a contract in the table *)
Definition contract_supply (db : Erc20Service.Db) (addr : string) : Z :=
  supply {| accountBalances := ∅; erc20Contracts := erc20_contract db |} addr.
Definition counts_supply (db : Erc20Service.Db) (addr : string) : bool :=
  has_supply {| accountBalances := ∅; erc20Contracts := erc20_contract db |} addr.

Lemma supply_contracts h h' addr :
  erc20Contracts h !! addr = erc20Contracts h' !! addr → supply h addr = supply h' addr ∧ has_supply h addr = has_supply h' addr.
Proof. intros Heq. unfold supply, has_supply. by rewrite Heq. Qed.

Lemma write_supply_track a op h h' addr :
  write_supply a op h = Ok h' → ec_track <$> erc20Contracts h' !! addr = ec_track <$> erc20Contracts h !! addr.
Proof.
  unfold write_supply. destruct (erc20Contracts h !! ea_contract a) as [c|] eqn:Hc; [|by intros [= <-]].
  destruct (ec_total_supply c); [|by intros [= <-]]. intros Hw. inv_ok Hw. injection Hw as <-. simpl.
  destruct (decide (ea_contract a = addr)) as [<-|Hne]; [by rewrite lookup_insert_eq, Hc|by rewrite lookup_insert_ne].
Qed.

Lemma process_track h acts h' addr :
  process h acts = Ok h' → ec_track <$> erc20Contracts h' !! addr = ec_track <$> erc20Contracts h !! addr.
Proof.
  unfold process. revert h. induction acts as [|a acts IH]; intros h; [by intros [= <-]|].
  cbn [forEachM]. intros Hp. apply bind_Ok in Hp as (h1 & H1 & Hp). rewrite (IH _ Hp). clear IH Hp.
  unfold process_one in H1. destruct (is_transfer a); [|by injection H1 as <-].
  apply handlerErc20Transfer_Ok in H1 as (h2 & Hf & Ht).
  assert (ec_track <$> erc20Contracts h2 !! addr = ec_track <$> erc20Contracts h !! addr) as <-.
  { unfold from_half in Hf. destruct (not_zero (ea_from a)); [|by eapply write_supply_track].
    by apply write_balance_Ok in Hf as [-> _]. }
  unfold to_half in Ht. destruct (not_zero (ea_to a)); [|by eapply write_supply_track].
  by apply write_balance_Ok in Ht as [-> _].
Qed.

(** What writing the balances of a batch does to [erc20_contract]. *)
Lemma updateErc20AccountsBalance_contracts acts db db' addr :
  updateErc20AccountsBalance acts db = Ok db' →
  account db' = account db ∧ tracked db' addr = tracked db addr ∧
  counts_supply db' addr = counts_supply db addr ∧
  contract_supply db' addr = contract_supply db addr
    + (if counts_supply db addr then sum_of (minted addr) acts else 0) ∧
  (addr ∉ ea_contract <$> acts → erc20_contract db' !! addr = erc20_contract db !! addr).
Proof.
  unfold updateErc20AccountsBalance. destruct acts as [|a0 acts0].
  { intros [= <-]. simpl. split_and!; try done. destruct (counts_supply db addr); lia. }
  set (acts := a0 :: acts0). clearbody acts. intros Hu.
  apply bind_Ok in Hu as (h & Hp & Hu). apply bind_Ok in Hu as (t & _ & [= <-]).
  set (h0 := {| accountBalances := fetchBalances db acts; erc20Contracts := fetchContracts db acts |}) in *.
  unfold contract_supply, counts_supply, tracked. cbn [erc20_contract account].
  pose proof (process_supply _ _ _ addr Hp) as [Hhas Hsup]. pose proof (process_track _ _ _ addr Hp) as Htr.
  destruct (decide (addr ∈ ea_contract <$> acts)) as [Hin|Hout].
  - assert (erc20Contracts h0 !! addr = erc20_contract db !! addr) as Hf.
    { unfold h0, fetchContracts. cbn [erc20Contracts].
      destruct (erc20_contract db !! addr) as [c|] eqn:Hc; [by apply map_lookup_filter_Some|].
      apply map_lookup_filter_None. by left. }
    destruct (supply_contracts h0 {| accountBalances := ∅; erc20Contracts := erc20_contract db |} addr Hf) as [Hs1 Hs2].
    assert ((erc20Contracts h ∪ erc20_contract db) !! addr = erc20Contracts h !! addr) as Hun.
    { rewrite lookup_union. destruct (erc20Contracts h !! addr) eqn:Hh; [by rewrite union_Some_l|].
      rewrite Hf in Htr. by destruct (erc20_contract db !! addr). }
    destruct (supply_contracts {| accountBalances := ∅; erc20Contracts := erc20Contracts h ∪ erc20_contract db |} h addr Hun)
      as [Hs3 Hs4].
    rewrite Hs3, Hs4, Hhas, Hsup, Hs1, Hs2, Hun. split_and!; try done. rewrite <-Hf.
    destruct (erc20Contracts h !! addr), (erc20Contracts h0 !! addr); by simplify_eq/=.
  - assert (erc20Contracts h0 !! addr = None) as Hf.
    { unfold h0, fetchContracts. cbn [erc20Contracts]. apply map_lookup_filter_None. right. by intros c _. }
    rewrite Hf in Htr. assert (erc20Contracts h !! addr = None) as Hh by (by destruct (erc20Contracts h !! addr)).
    assert ((erc20Contracts h ∪ erc20_contract db) !! addr = erc20_contract db !! addr) as Hun.
    { rewrite lookup_union, Hh. by destruct (erc20_contract db !! addr). }
    destruct (supply_contracts {| accountBalances := ∅; erc20Contracts := erc20Contracts h ∪ erc20_contract db |}
      {| accountBalances := ∅; erc20Contracts := erc20_contract db |} addr Hun) as [Hs3 Hs4].
    rewrite Hs3, Hs4, Hun. split_and!; try done.
    assert (sum_of (minted addr) acts = 0) as ->; [|match goal with |- context [if ?b then _ else _] => destruct b end; lia].
    clear -Hout. induction acts as [|a acts IH]; [done|]. simpl. rewrite fmap_cons, not_elem_of_cons in Hout.
    destruct Hout as [Hne Hout]. rewrite (IH Hout). unfold minted.
    by rewrite (bool_decide_eq_false_2 (ea_contract a = addr)), andb_false_r by done.
Qed.

(** ** Reindexing *)
Section ReindexFacts.
Context {T : TokenNode} {V : Viem} {C : AddressCodec}.
Context (networkPrefixAddress : string) (evmOnly : bool) (wrapExtensionContract : list string).

#[local] Abbreviation activities := (activities_between networkPrefixAddress evmOnly wrapExtensionContract).
#[local] Abbreviation activityJob := (handleErc20Activity networkPrefixAddress evmOnly wrapExtensionContract).
#[local] Abbreviation reindexContract := (reindex networkPrefixAddress evmOnly wrapExtensionContract).

(** An event of the contract, or a conversion that names it, gives the
    activity. *)
Definition built (s e : Z) (address : string) (x : Index) (a : Erc20Activity) : Prop :=
  (∃ ev, ev ∈ evm_events x ∧ ev_address ev = address ∧ s < ev_block_height ev <= e ∧
     evm_event_activity wrapExtensionContract ev = Some a) ∨
  ∃ ev, ev ∈ erc20CosmosEvents evmOnly s e (Some [address]) (events x) ∧
     buildTransferActivityByCosmos networkPrefixAddress ev = Some a.

Lemma elem_of_joined x t a : a ∈ joined_contracts x t ↔ a ∈ (sc_address <$> smart_contracts x) ∧ is_Some (t !! a).
Proof.
  unfold joined_contracts. rewrite list_elem_of_filter. split; (intros [Ha Hc]; split; [done|]).
  - apply list_elem_of_fmap in Hc as ([a' c] & -> & Hc%elem_of_map_to_list). by eexists.
  - destruct Hc as [c Hc]. apply list_elem_of_fmap. exists (a, c). split; [done|]. by apply elem_of_map_to_list.
Qed.

Lemma elem_of_erc20EvmEvents s e addresses contracts l ev :
  ev ∈ erc20EvmEvents s e addresses contracts l ↔
  ev ∈ l ∧ ev_address ev ∈ contracts ∧ match addresses with Some l => ev_address ev ∈ l | None => True end ∧
  s < ev_block_height ev <= e.
Proof.
  unfold erc20EvmEvents. rewrite sortBy_perm, list_elem_of_filter.
  destruct addresses; rewrite ?bool_decide_eq_true; naive_solver.
Qed.

Lemma elem_of_erc20_activities s e addresses x a :
  a ∈ activities s e addresses x ↔
  (∃ ev, ev ∈ evm_events x ∧ ev_address ev ∈ joined_contracts x (erc20_contract (ledger x)) ∧
     match addresses with Some l => ev_address ev ∈ l | None => True end ∧
     s < ev_block_height ev <= e ∧ evm_event_activity wrapExtensionContract ev = Some a) ∨
  ∃ ev, ev ∈ erc20CosmosEvents evmOnly s e addresses (events x) ∧
     buildTransferActivityByCosmos networkPrefixAddress ev = Some a.
Proof.
  unfold activities_between, buildErc20Activities. rewrite sortBy_perm, elem_of_app, !list_elem_of_omap.
  setoid_rewrite elem_of_erc20EvmEvents. naive_solver.
Qed.

(** The stored activities of the contract up to [H], with the accounts of
    their parties, account for all its balances and for its supply. *)
Record agrees (address : string) (H : Z) (db : Erc20Service.Db) : Prop := {
  agrees_tracked : tracked db address = true;
  agrees_balances id : amount_of (account_balance db !! (id, address))
    = sum_of (flow (balance_key (Some id) address)) (getErc20Activities 0 H (Some [address]) db);
  agrees_supply : contract_supply db address
    = sum_of (minted address) (getErc20Activities 0 H (Some [address]) db)
}.

Lemma activities_of_contract s e address db a :
  a ∈ getErc20Activities s e (Some [address]) db → ea_contract a = address.
Proof.
  unfold getErc20Activities. intros (b & -> & Hb)%list_elem_of_fmap.
  apply list_elem_of_filter in Hb as [(_ & _ & _ & Hin) _]. simpl in Hin.
  apply bool_decide_eq_true in Hin. by apply list_elem_of_singleton in Hin.
Qed.

Lemma other_flow acts address id d :
  (∀ a, a ∈ acts → ea_contract a = address) → d ≠ address → sum_of (flow (balance_key (Some id) d)) acts = 0.
Proof.
  intros Hacts Hne. induction acts as [|a acts IH]; [done|]. simpl. rewrite IH by (intros; apply Hacts; by right).
  unfold flow. destruct (is_transfer a); [|done].
  assert (∀ i, bool_decide (balance_key i (ea_contract a) = balance_key (Some id) d) = false) as Hk.
  { intros i. apply bool_decide_eq_false. intros [_ Hd]%balance_key_inj. apply Hne.
    rewrite <-Hd. apply Hacts. by left. }
  by rewrite !Hk, !andb_false_r.
Qed.

Lemma getErc20Activities_same s e address db db' :
  account db' = account db → erc20_activity db' = erc20_activity db → tracked db' address = tracked db address →
  getErc20Activities s e (Some [address]) db' = getErc20Activities s e (Some [address]) db.
Proof.
  intros Ha Hact Ht. unfold getErc20Activities. rewrite Ha, Hact. f_equal. apply filter_ext_in. intros a _. simpl.
  destruct (decide (ea_contract a = address)) as [->|Hne]; [by rewrite Ht|].
  assert (bool_decide (ea_contract a ∈ [address]) = false) as ->; [|naive_solver].
  apply bool_decide_eq_false. by intros ?%list_elem_of_singleton.
Qed.

Lemma forget_ok address db : db_ok db → db_ok (forget address db).
Proof. intros [Hok]. constructor. intros id d b [Hb _]%map_lookup_filter_Some. by apply (Hok id d). Qed.

(** What a transaction that commits went through. *)
Lemma rebuild_steps address x x' :
  rebuild networkPrefixAddress evmOnly wrapExtensionContract address x = Ok x' →
  ∃ id H t db2, reindexed_id address x = Ok id ∧ node_height = Ok H ∧
    let db0 := forget address (ledger x) in
    let x1 := set_ledger (set_erc20_contract t db0) x in
    t = <[address := fresh_row id address H]> (erc20_contract db0) ∧
    db2 = set_erc20_activity (erc20_activity db0 ++ activities 0 H (Some [address]) x1) (ledger x1) ∧
    ∃ db3, updateErc20AccountsBalance (getErc20Activities 0 H (Some [address]) db2) db2 = Ok db3 ∧
      x' = set_ledger db3 x1.
Proof.
  unfold rebuild. intros Hr. apply bind_Ok in Hr as (id & Hid & Hr). apply bind_Ok in Hr as (H & HH & Hr).
  apply bind_Ok in Hr as (t & Ht & Hr). apply bind_Ok in Hr as (db2 & Hdb2 & Hr).
  apply bind_Ok in Hr as (missing & Hm & Hr). destruct (negb _); [done|].
  apply bind_Ok in Hr as (db3 & Hu & [= <-]). exists id, H, t, db2. split; [done|]. split; [done|].
  split; [|split; [|by exists db3]].
  - unfold insert_erc20 in Ht. destruct (negb _); [done|]. cbn [forEachM fresh_row ec_address mbind res_bind] in Ht.
    unfold forget in Ht. cbn [erc20_contract] in Ht. rewrite lookup_delete_eq in Ht. by injection Ht as <-.
  - unfold insert_activities in Hdb2. destruct (forallb _ _); [|done]. by injection Hdb2 as <-.
Qed.

(** C36: a run of the reindexer that returns leaves exactly the activities that
    the events of the contract up to the height of the node give, the contract
    tracked, and its balances and its supply equal to what those activities
    add up to; no other token and no checkpoint changes. *)
Theorem reindex_rebuilds address x x' :
  db_ok (ledger x) → reindexContract address x = (x', Ok tt) →
  ∃ H, node_height = Ok H ∧ agrees address H (ledger x') ∧
    (∃ acts, erc20_activity (ledger x') = filter (λ a, ea_contract a ≠ address) (erc20_activity (ledger x)) ++ acts ∧
       (address ∈ sc_address <$> smart_contracts x → ∀ a, a ∈ acts ↔ built 0 H address x a)) ∧
    (∀ id d, d ≠ address →
       amount_of (account_balance (ledger x') !! (id, d)) = amount_of (account_balance (ledger x) !! (id, d))) ∧
    (∀ d, d ≠ address → erc20_contract (ledger x') !! d = erc20_contract (ledger x) !! d) ∧
    checkpoints_of x' = checkpoints_of x.
Proof.
  intros Hok. unfold reindex, update, commit, mbind, io_bind.
  destruct (rebuild _ _ _ _ _) as [x1|msg] eqn:Hr; [|done]. intros [= <-].
  apply rebuild_steps in Hr as (id & H & t & db2 & _ & HH & Ht & Hdb2 & db3 & Hu & ->).
  set (db0 := forget address (ledger (untrack address x))) in *.
  assert (account_balance db2 = account_balance db0) as Hbal0 by (by rewrite Hdb2).
  assert (db_ok db2) as Hok2.
  { constructor. intros i d b. rewrite Hbal0. apply (forget_ok address (ledger (untrack address x))). by destruct Hok. }
  assert (∀ d, erc20_contract db2 !! d
    = if decide (d = address) then Some (fresh_row id address H) else erc20_contract (ledger x) !! d) as Hc2.
  { intros d. rewrite Hdb2. cbn [erc20_contract set_erc20_activity ledger set_ledger set_erc20_contract]. rewrite Ht.
    case_decide as Hd; [by subst; rewrite lookup_insert_eq|]. rewrite lookup_insert_ne by done.
    unfold db0, forget, untrack. cbn [erc20_contract ledger set_ledger set_erc20_contract].
    by rewrite lookup_delete_ne, lookup_alter_ne by done. }
  set (acts := getErc20Activities 0 H (Some [address]) db2) in *.
  assert (∀ a, a ∈ acts → ea_contract a = address) as Hacts by (intros a; apply activities_of_contract).
  pose proof (updateErc20AccountsBalance_contracts _ _ _ address Hu) as (Hacc & Htr & _ & Hsup & _).
  pose proof (updateErc20AccountsBalance_frame _ _ _ Hu) as [Hcp Hact].
  assert (tracked db2 address = true ∧ counts_supply db2 address = true ∧ contract_supply db2 address = 0)
    as (Htr2 & Hcs2 & Hs2).
  { unfold tracked, counts_supply, contract_supply, has_supply, supply. cbn [erc20Contracts]. rewrite Hc2.
    by rewrite decide_True. }
  assert (getErc20Activities 0 H (Some [address]) db3 = acts) as Hsame by (by apply getErc20Activities_same).
  assert (∀ i d, amount_of (account_balance db3 !! (i, d))
    = amount_of (account_balance db2 !! (i, d)) + sum_of (flow (balance_key (Some i) d)) acts) as Ham.
  { intros i d. apply updateErc20AccountsBalance_amount; [done|apply getErc20Activities_joined|done]. }
  exists H. cbn [ledger set_ledger]. split; [done|]. split; [|split; [|split; [|split]]].
  - constructor.
    + by rewrite Htr.
    + intros i. rewrite Hsame, Ham, Hbal0. unfold db0, forget. cbn [account_balance].
      rewrite (proj2 (map_lookup_filter_None _ _ _)); [done|]. right. intros b _ Hn. by apply Hn.
    + rewrite Hsame, Hsup, Hcs2, Hs2. lia.
  - exists (activities 0 H (Some [address]) (set_ledger (set_erc20_contract t db0) (untrack address x))).
    split; [by rewrite Hact, Hdb2|]. intros Haddr a. rewrite elem_of_erc20_activities. unfold built.
    cbn [evm_events events set_ledger untrack ledger erc20_contract set_erc20_contract]. setoid_rewrite elem_of_joined.
    cbn [smart_contracts set_ledger]. split.
    + intros [(ev & Hin & _ & Hs%list_elem_of_singleton & Hh & Hev)|Hc]; [left; by exists ev|by right].
    + intros [(ev & Hin & Hadr & Hh & Hev)|Hc]; [left|by right]. exists ev. rewrite Hadr.
      split; [done|]. split; [|split; [by left|split; [exact Hh|exact Hev]]]. split; [exact Haddr|]. rewrite Ht, lookup_insert_eq. by eexists.
  - intros i d Hne. rewrite Ham, (other_flow acts address) by done. rewrite Hbal0, Z.add_0_r. unfold db0, forget, untrack.
    cbn [account_balance ledger set_ledger set_erc20_contract]. f_equal.
    destruct (account_balance (ledger x) !! (i, d)) as [b|] eqn:Hb; [by apply map_lookup_filter_Some|].
    apply map_lookup_filter_None. by left.
  - intros d Hne. destruct (updateErc20AccountsBalance_contracts _ _ _ d Hu) as (_ & _ & _ & _ & Hd).
    rewrite Hd; [by rewrite Hc2, decide_False|]. intros (a & -> & Ha)%list_elem_of_fmap. by apply Hne, Hacts.
  - unfold checkpoints_of, Index_checkpoints. cbn [ledger set_ledger]. by rewrite Hcp, Hdb2.
Qed.
End ReindexFacts.

Section ReindexSafety.
Context {T : TokenNode} {V : Viem} {C : AddressCodec}.
Context (networkPrefixAddress : string) (evmOnly : bool) (wrapExtensionContract : list string).

#[local] Abbreviation activities := (activities_between networkPrefixAddress evmOnly wrapExtensionContract).
#[local] Abbreviation activityJob := (handleErc20Activity networkPrefixAddress evmOnly wrapExtensionContract).
#[local] Abbreviation reindexContract := (reindex networkPrefixAddress evmOnly wrapExtensionContract).

(** A run of the reindexer that fails stores nothing and deletes nothing,
    but leaves the contract untracked: the balance job then skips all its
    activities. *)
Theorem failed_reindex_untracks address x x' msg :
  reindexContract address x = (x', Throw msg) →
  x' = untrack address x ∧ account_balance (ledger x') = account_balance (ledger x) ∧
  erc20_activity (ledger x') = erc20_activity (ledger x) ∧
  ∀ s e a, a ∈ getErc20Activities s e None (ledger x') → ea_contract a ≠ address.
Proof.
  unfold reindex, update, commit, mbind, io_bind. destruct (rebuild _ _ _ _ _) as [x1|msg1]; [done|]. intros [= <- <-].
  do 3 (split; [done|]). intros s e a Ha. unfold getErc20Activities in Ha.
  apply list_elem_of_fmap in Ha as (b & -> & Hb). apply list_elem_of_filter in Hb as [(_ & _ & Ht & _) _].
  cbn [ea_contract with_account_ids]. intros Heq. unfold tracked, untrack in Ht. rewrite Heq in Ht.
  cbn [erc20_contract ledger set_ledger set_erc20_contract] in Ht. rewrite lookup_alter_eq in Ht.
  by destruct (erc20_contract (ledger x) !! address).
Qed.

(** The reindexer rebuilds the activities up to the height of the node and
    leaves the checkpoint of the activity job where it is: the events of the
    contract between the two are stored again by the next runs of the job, and
    their amounts counted twice. *)
Theorem reindexed_events_stored_twice address x x1 x2 cfg s e u H ev a :
  db_ok (ledger x) → reindexContract address x = (x1, Ok tt) → node_height = Ok H →
  jobCheckpoint cfg HANDLE_ERC20_ACTIVITY (checkpoints_of x1) = Ok (s, e, u) → 0 <= s →
  activityJob cfg x1 = (x2, Ok tt) →
  address ∈ sc_address <$> smart_contracts x → ev ∈ evm_events x → ev_address ev = address →
  s < ev_block_height ev <= e → ev_block_height ev <= H → evm_event_activity wrapExtensionContract ev = Some a →
  ∃ l1 l2, erc20_activity (ledger x2) = l1 ++ l2 ∧ a ∈ l1 ∧ a ∈ l2.
Proof.
  intros Hok Hre HH Hj Hs Hrun Haddr Hev Hadr Hrange HevH Hact.
  pose proof (reindex_rebuilds _ _ _ _ _ _ Hok Hre) as (H' & HH' & Hag & (acts & Hacts & Hbuilt) & _).
  rewrite HH in HH'. injection HH' as <-.
  assert (smart_contracts x1 = smart_contracts x ∧ evm_events x1 = evm_events x) as [Hsc Hevs].
  { revert Hre. unfold reindex, update, commit, mbind, io_bind. destruct (rebuild _ _ _ _ _) as [x1'|] eqn:Hr; [|done].
    intros [= <-]. apply rebuild_steps in Hr as (id & H' & t & db2 & _ & _ & _ & _ & db3 & _ & ->). done. }
  apply checkpoint_handler_cases in Hrun as [(_ & _ & s' & e' & u' & _ & Hst)|[(msg & [=] & _)|
    (s' & e' & u' & w & d1 & d2 & Hj' & _ & Hp & Hw & -> & _)]]; [done|].
  rewrite Hj in Hj'. injection Hj' as <- <- <-. unfold prepareErc20Activities in Hp. inv_io Hp.
  injection Ha as <- <-. injection Ha0 as <- <-. unfold lift in Ha1. injection Ha1 as <- Hm. injection Hp as <- <-.
  unfold writeErc20Activities in Hw. cbn [fst snd] in Hw.
  apply bind_Ok in Hw as (t & _ & Hw). apply bind_Ok in Hw as (db & Hins & [= <-]).
  unfold insert_activities in Hins. destruct (forallb _ _); [|done]. injection Hins as <-.
  exists (erc20_activity (ledger x1)), (activities s e None x1). split; [done|]. split.
  - rewrite Hacts. apply elem_of_app. right. apply Hbuilt; [done|]. left. exists ev. split_and!; try done; lia.
  - apply elem_of_erc20_activities. left. exists ev. rewrite Hevs, Hadr. split; [done|]. split; [|done].
    apply elem_of_joined. rewrite Hsc. split; [done|]. destruct Hag as [Htr _ _]. unfold tracked in Htr.
    by destruct (erc20_contract (ledger x1) !! address).
Qed.

(** The contract job stores the supply that the contract answers when the
    job runs, and the balance job adds every mint of its range to it: mints
    that the answer already includes are counted twice. *)
Theorem supply_added_to_snapshot {K : AccountCrawler} `{!AccountCrawlerLaws K} cfg x x1 s e u c z x2 db3 :
  jobCheckpoint cfg HANDLE_ERC20_CONTRACT (checkpoints_of x) = Ok (s, e, u) →
  NoDup (sc_address <$> smart_contracts x) →
  (∀ c, c ∈ erc20SmartContracts s e x → short_answers (sc_address c)) →
  c ∈ erc20SmartContracts s e x → read_totalSupply (sc_address c) = Ok z →
  handleErc20Contract cfg x = (x1, Ok tt) →
  erc20_contract (ledger x2) !! sc_address c = erc20_contract (ledger x1) !! sc_address c →
  handleErc20Balance cfg networkPrefixAddress (ledger x2) = (db3, Ok tt) →
  ∃ s3 e3 u3 db, jobCheckpoint cfg HANDLE_ERC20_BALANCE (checkpoints_of x2) = Ok (s3, e3, u3) ∧
    erc20_activity db = erc20_activity (ledger x2) ∧ account (ledger x2) ⊆ account db ∧
    contract_supply db3 (sc_address c) = z + sum_of (minted (sc_address c)) (getErc20Activities s3 e3 None db).
Proof.
  intros Hj Hnd Hshort Hc Hz Hrun Hsame Hbal.
  destruct (erc20_contracts_registered cfg x s e u Hj Hnd Hshort) as (x1' & Hrun' & _ & _ & _ & Hrows & _).
  rewrite Hrun in Hrun'. injection Hrun' as <-. destruct (Hrows c Hc) as (r & Hr & _ & _ & _ & Hsup & _).
  destruct (handleErc20Balance_steps cfg networkPrefixAddress _ _ _ Hbal)
    as [[_ [? [=]]]|(s3 & e3 & u3 & db1 & db2 & Hj3 & Hdb1 & Hu & -> & _)].
  assert (account (ledger x2) ⊆ account db1 ∧ erc20_contract db1 = erc20_contract (ledger x2) ∧
          erc20_activity db1 = erc20_activity (ledger x2)) as (Hsub & Hcon & Hact).
  { destruct Hdb1 as [->|[l ->]]; [done|]. by destruct (crawl_frame l (ledger x2)) as (? & _ & ? & ? & _). }
  exists s3, e3, u3, db1. do 3 (split; [done|]).
  pose proof (updateErc20AccountsBalance_contracts _ _ _ (sc_address c) Hu) as (_ & _ & _ & Hs & _).
  change (contract_supply db2 (sc_address c) = z + sum_of (minted (sc_address c)) (getErc20Activities s3 e3 None db1)).
  rewrite Hs. unfold counts_supply, contract_supply, has_supply, supply. cbn [erc20Contracts].
  rewrite Hcon, Hsame, Hr, (Hsup z Hz), BigInt_toString. done.
Qed.
End ReindexSafety.

#[export] Instance erc20Contract_job {T : TokenNode} cfg :
  CheckpointJob cfg HANDLE_ERC20_CONTRACT (handleErc20Contract cfg).
Proof.
  apply checkpoint_handler_job. constructor; [done|]. intros s e w x x' Hw. unfold writeErc20Contracts in Hw.
  by apply bind_Ok in Hw as (t & _ & [= <-]).
Qed.
#[export] Instance erc20Activity_job {T : TokenNode} {V : Viem} {C : AddressCodec} prefix evmOnly wrap cfg :
  CheckpointJob cfg HANDLE_ERC20_ACTIVITY (handleErc20Activity prefix evmOnly wrap cfg).
Proof.
  apply checkpoint_handler_job. constructor.
  - intros s e x. unfold prepareErc20Activities, query, lift, mbind, io_bind. by destruct (missing_rows _ _).
  - intros s e w x x' Hw. unfold writeErc20Activities in Hw. apply bind_Ok in Hw as (t & _ & Hw).
    apply bind_Ok in Hw as (db & Hins & [= <-]). unfold insert_activities in Hins.
    destruct (forallb _ _); [|done]. by injection Hins as <-.
Qed.

(** ** Witnesses *)
Definition demo_token_node : TokenNode := {|
  read_name _ := Ok "Token"; read_symbol _ := Throw "reverted"; read_decimals _ := Ok 18;
  read_totalSupply _ := Ok 5; node_height := Ok 4860020 |}.
Definition demo_long_node : TokenNode := {|
  read_name _ := Ok (String.concat "" (replicate 32 "long name")); read_symbol _ := Ok "L"; read_decimals _ := Ok 18;
  read_totalSupply _ := Throw "reverted"; node_height := Ok 4860020 |}.
(** Every transfer is a mint of 5 to 0xb. *)
Definition demo_mint_viem : Viem := {|
  decodeAbiParameters ps _ := if bool_decide (length ps = 3%nat)
    then Ok [AbiAddress ZERO_ADDRESS; AbiAddress "0xB"; AbiUint 5] else Throw "decode";
  toHex o := match o with Some s => Ok s | None => Throw "null" end;
  Erc20Events.keccak256 s := s |}.

Definition demo_token : EVMSmartContract := {|
  sc_id := 4; sc_address := "0xc"; sc_creator := Some "0xaa"; sc_created_height := Some 4860005;
  sc_created_hash := Some "h"; sc_type := Some TYPES.ERC20; sc_code_hash := None |}.
Definition demo_mint : EvmEvent := {|
  ev_id := 1; ev_address := "0xc"; ev_topic0 := Some "Transfer(address,address,uint256)"; ev_topic1 := Some "t1";
  ev_topic2 := Some "0xt2"; ev_topic3 := None; ev_data := Some "0xdata"; ev_block_height := 4860010; ev_tx_hash := "h";
  ev_evm_tx_id := Some 1; ev_tx_id := 1; ev_sender := Some "0xaa" |}.
Definition demo_index (t : gmap string Erc20Contract) (checkpoints : gmap string Z) : Index := {|
  ledger := {| account := {[ "0xb" := 2; ZERO_ADDRESS := 9 ]}; account_balance := ∅; erc20_contract := t;
               erc20_activity := []; block_checkpoint := checkpoints |};
  smart_contracts := [demo_token]; evm_events := [demo_mint]; events := [] |}.
Definition demo_checkpoints : gmap string Z :=
  <["crawl:smart-contract-evm" := 4860015]> (<["handle:evm-proxy-history" := 4860015]> ∅).

Definition demo_activity_job (x : Index) : Index * res () :=
  handleErc20Activity (T := demo_token_node) (V := demo_mint_viem) (C := DemoCodec.codec) "aura" true [] Config.json x.
Definition demo_reindex (x : Index) : Index * res () :=
  reindex (T := demo_token_node) (V := demo_mint_viem) (C := DemoCodec.codec) "aura" true [] "0xc" x.
Definition demo_registered : Index :=
  (handleErc20Contract (T := demo_token_node) Config.json (demo_index ∅ demo_checkpoints)).1.
Definition demo_stored : Index := (demo_activity_job demo_registered).1.
Definition demo_balanced : Erc20Service.Db * res () :=
  handleErc20Balance (C := DemoCodec.codec) (K := demo_crawler) Config.json "aura" (ledger demo_stored).

(** The contract answers a supply of 5, the only mint; the table ends with 10. *)
Example demo_supply_twice :
  demo_balanced.2 = Ok tt ∧ contract_supply demo_balanced.1 "0xc" = 10.
Proof. vm_compute. done. Qed.

Lemma demo_contracts : erc20SmartContracts 4860000 4860015 (demo_index ∅ demo_checkpoints) = [demo_token].
Proof. by vm_compute. Qed.

Lemma demo_short_answers c : short_answers (T := demo_token_node) (sc_address c).
Proof. by split; vm_compute. Qed.

Lemma erc20_contracts_registered_witness :
  ∃ r, erc20_contract (ledger demo_registered) !! "0xc" = Some r ∧ ec_track r = true ∧ ec_total_supply r = Some "5".
Proof.
  destruct (erc20_contracts_registered (T := demo_token_node) Config.json (demo_index ∅ demo_checkpoints) 4860000 4860015
    {| job_name := "handle:erc20-contract"; height := 4860000 |}) as (x' & Hrun & _ & _ & _ & Hrows & _).
  - vm_compute. reflexivity.
  - by apply NoDup_singleton.
  - intros c _. apply demo_short_answers.
  - destruct (Hrows demo_token) as (r & Hr & Ht & _ & _ & Hs & _); [rewrite demo_contracts; by left|].
    exists r. unfold demo_registered. rewrite Hrun. split; [exact Hr|]. split; [done|]. by apply (Hs 5).
Defined.

Lemma long_name_stops_job_witness :
  handleErc20Contract (T := demo_long_node) Config.json (demo_index ∅ demo_checkpoints)
  = (demo_index ∅ demo_checkpoints, Throw "value too long for type character varying(255)").
Proof.
  apply (long_name_stops_job (T := demo_long_node) Config.json (demo_index ∅ demo_checkpoints) 4860000 4860015
    {| job_name := "handle:erc20-contract"; height := 4860000 |} demo_token).
  - vm_compute. reflexivity.
  - rewrite demo_contracts. by left.
  - intros [Hn _]. by vm_compute in Hn.
Defined.

Lemma erc20_activities_stored_witness :
  ∃ x', demo_activity_job demo_registered = (x', Ok tt) ∧ length (erc20_activity (ledger x')) = 1%nat.
Proof.
  destruct (erc20_activities_stored (T := demo_token_node) (V := demo_mint_viem) (C := DemoCodec.codec) "aura" true []
    Config.json demo_registered 4860000 4860015 {| job_name := "handle:erc20-activity"; height := 4860000 |})
    as (x' & Hrun & _ & Hact & _).
  - vm_compute. reflexivity.
  - assert (missingErc20ContractsAddress (activities_between (V := demo_mint_viem) (C := DemoCodec.codec) "aura" true []
      4860000 4860015 None demo_registered) demo_registered = []) as -> by (vm_compute; reflexivity).
    intros a Ha. by apply not_elem_of_nil in Ha.
  - exists x'. split; [exact Hrun|]. rewrite Hact. vm_compute. reflexivity.
Defined.

(** A conversion of a token the tables do not know. *)
Definition demo_unknown : Index := {|
  ledger := ledger (demo_index ∅ (<["handle:erc20-contract" := 4860015]> demo_checkpoints));
  smart_contracts := []; evm_events := [];
  events := [ {| e_id := 7; e_type := CONVERT_COIN; e_block_height := 4860012; e_tx_id := 3; e_tx_hash := Some "HASH";
                 e_attributes := e_attributes demo_convert |} ] |}.
Definition demo_unknown_activity : Erc20Activity :=
  default demo_converted (head (activities_between (V := demo_mint_viem) (C := DemoCodec.codec) "aura" false []
    4860000 4860015 None demo_unknown)).
Lemma unknown_token_stops_job_witness :
  ∃ msg, handleErc20Activity (T := demo_token_node) (V := demo_mint_viem) (C := DemoCodec.codec) "aura" false [] Config.json
           demo_unknown = (demo_unknown, Throw msg).
Proof.
  eexists. apply (unknown_token_stops_job (T := demo_token_node) (V := demo_mint_viem) (C := DemoCodec.codec) "aura" false []
    Config.json demo_unknown 4860000 4860015 {| job_name := "handle:erc20-activity"; height := 4860000 |}
    demo_unknown_activity).
  - vm_compute. reflexivity.
  - assert (activities_between (V := demo_mint_viem) (C := DemoCodec.codec) "aura" false [] 4860000 4860015 None demo_unknown
      = [demo_unknown_activity]) as -> by (vm_compute; reflexivity). by left.
  - vm_compute. reflexivity.
  - apply not_elem_of_nil.
Defined.

Lemma demo_index_ok t c : db_ok (ledger (demo_index t c)).
Proof. constructor. intros id d b Hb. cbn [demo_index ledger account_balance] in Hb. by rewrite lookup_empty in Hb. Qed.

(** A contract without activities, tracked before they were stored. *)
Definition demo_before : Index :=
  demo_index (erc20_contract (ledger demo_registered)) (<["handle:erc20-contract" := 4860015]> demo_checkpoints).

Lemma demo_reindexed :
  demo_reindex demo_before = ((demo_reindex demo_before).1, Ok tt) ∧
  amount_of (account_balance (ledger (demo_reindex demo_before).1) !! (2, "0xc")) = 5.
Proof.
  assert ((demo_reindex demo_before).2 = Ok tt) as Ho by (vm_compute; reflexivity).
  split; [|vm_compute; reflexivity]. rewrite <-Ho. by destruct (demo_reindex demo_before).
Qed.

Lemma reindex_rebuilds_witness :
  ∃ x', demo_reindex demo_before = (x', Ok tt) ∧ agrees "0xc" 4860020 (ledger x') ∧
    amount_of (account_balance (ledger x') !! (2, "0xc")) = 5.
Proof.
  destruct demo_reindexed as [Hrun Ham]. exists (demo_reindex demo_before).1. split; [done|]. split; [|done].
  destruct (reindex_rebuilds (T := demo_token_node) (V := demo_mint_viem) (C := DemoCodec.codec) "aura" true []
    "0xc" demo_before _ (demo_index_ok _ _) Hrun) as (H & [= <-] & Hag & _). exact Hag.
Defined.

Lemma failed_reindex_untracks_witness :
  ∃ x' msg, reindex (T := demo_long_node) (V := demo_mint_viem) (C := DemoCodec.codec) "aura" true [] "0xc" demo_before
            = (x', Throw msg) ∧ x' = untrack "0xc" demo_before.
Proof.
  destruct (reindex (T := demo_long_node) (V := demo_mint_viem) (C := DemoCodec.codec) "aura" true [] "0xc" demo_before)
    as [x' o] eqn:Hrun.
  assert (is_ok o = false) as Ho.
  { replace o with (reindex (T := demo_long_node) (V := demo_mint_viem) (C := DemoCodec.codec) "aura" true [] "0xc"
      demo_before).2 by (by rewrite Hrun). vm_compute. reflexivity. }
  destruct o as [?|msg]; [done|]. exists x', msg. split; [done|].
  by destruct (failed_reindex_untracks (T := demo_long_node) (V := demo_mint_viem) (C := DemoCodec.codec) "aura" true []
    "0xc" demo_before x' msg Hrun) as [-> _].
Defined.

Lemma reindexed_events_stored_twice_witness :
  ∃ x1 x2 a l1 l2, demo_reindex demo_before = (x1, Ok tt) ∧ demo_activity_job x1 = (x2, Ok tt) ∧
    erc20_activity (ledger x2) = l1 ++ l2 ∧ a ∈ l1 ∧ a ∈ l2.
Proof.
  destruct demo_reindexed as [Hre _].
  assert (jobCheckpoint Config.json HANDLE_ERC20_ACTIVITY (checkpoints_of (demo_reindex demo_before).1)
      = Ok (4860000, 4860015, {| job_name := "handle:erc20-activity"; height := 4860000 |})) as Hj
    by (vm_compute; reflexivity).
  assert ((demo_activity_job (demo_reindex demo_before).1).2 = Ok tt) as Ho by (vm_compute; reflexivity).
  revert Hre Hj Ho. generalize (demo_reindex demo_before).1. intros x1 Hre Hj Ho.
  destruct (demo_activity_job x1) as [x2 o] eqn:Hrun. simpl in Ho. subst o.
  destruct (reindexed_events_stored_twice (T := demo_token_node) (V := demo_mint_viem) (C := DemoCodec.codec) "aura" true []
    "0xc" demo_before x1 x2 Config.json 4860000 4860015 {| job_name := "handle:erc20-activity"; height := 4860000 |}
    4860020 demo_mint (evm_activity demo_mint ERC20_ACTION.TRANSFER ZERO_ADDRESS "0xb" 5)) as (l1 & l2 & H).
  - apply demo_index_ok.
  - exact Hre.
  - done.
  - exact Hj.
  - lia.
  - exact Hrun.
  - by left.
  - by left.
  - done.
  - simpl. lia.
  - simpl. lia.
  - vm_compute. reflexivity.
  - exists x1, x2. eexists _, l1, l2. split; [done|]. split; [done|exact H].
Defined.

Lemma supply_added_to_snapshot_witness :
  ∃ s3 e3 db, contract_supply demo_balanced.1 "0xc"
    = 5 + sum_of (minted "0xc") (getErc20Activities s3 e3 None db) ∧ contract_supply demo_balanced.1 "0xc" = 10.
Proof.
  destruct demo_balanced as [db3 o] eqn:Hbal.
  assert (o = Ok tt) as -> by (replace o with demo_balanced.2 by (by rewrite Hbal); vm_compute; reflexivity).
  destruct (handleErc20Contract (T := demo_token_node) Config.json (demo_index ∅ demo_checkpoints)) as [x1 o] eqn:Hrun.
  assert (x1 = demo_registered) as -> by (unfold demo_registered; by rewrite Hrun).
  assert (o = Ok tt) as ->.
  { replace o with (handleErc20Contract (T := demo_token_node) Config.json (demo_index ∅ demo_checkpoints)).2
      by (by rewrite Hrun). vm_compute. reflexivity. }
  destruct (supply_added_to_snapshot (T := demo_token_node) (C := DemoCodec.codec) "aura"
    (K := demo_crawler) (AccountCrawlerLaws0 := demo_crawler_laws) Config.json (demo_index ∅ demo_checkpoints) demo_registered
    4860000 4860015 {| job_name := "handle:erc20-contract"; height := 4860000 |} demo_token 5 demo_stored db3)
    as (s3 & e3 & u3 & db & _ & _ & _ & Hs).
  - vm_compute. reflexivity.
  - by apply NoDup_singleton.
  - intros c _. apply demo_short_answers.
  - rewrite demo_contracts. by left.
  - done.
  - exact Hrun.
  - vm_compute. reflexivity.
  - exact Hbal.
  - exists s3, e3, db. split; [exact Hs|]. replace db3 with demo_balanced.1 by (by rewrite Hbal). vm_compute. reflexivity.
Defined.
