(* ===== verification/Erc721.v ===== *)
(** * ERC-721 tokens

    [services/evm/erc721_handler.ts] and the activity job of
    [services/evm/erc721.service.ts]: the logs of the ERC-721 contracts of a
    block range become activities; transfers change the owner of a token or
    mint it; tokens and activities are stored in one transaction. *)
From S2P Require Import Prelude JsNum Checkpoint Address Erc20 Erc20Events.

Module ERC721_ACTION.
Definition TRANSFER := "transfer".
Definition APPROVAL := "approval".
Definition APPROVAL_FOR_ALL := "approval_for_all".
End ERC721_ACTION.

Record Erc721Activity := {
  na_evm_event_id : Z;
  na_sender : option string;
  na_action : string;
  na_contract : string;             (* erc721_contract_address *)
  na_from : string;
  na_to : string;
  na_height : Z;
  na_tx_hash : string;
  na_evm_tx_id : option Z;
  na_token_id : option string;
  na_erc721_token_id : option Z
}.

Record Erc721Token := {
  tk_contract : string;
  tk_token_id : string;
  tk_owner : string;
  tk_last_updated_height : Z
}.

(** ** The handler *)

(** [`${contract}_${token_id}`]; an absent token id prints as [undefined]. *)
Definition token_key (contract : string) (token_id : option string) : string :=
  key2 contract (default "undefined" token_id).

Definition activity_key (a : Erc721Activity) : string := token_key (na_contract a) (na_token_id a).

Definition handlerErc721Transfer (toks : gmap string Erc721Token) (a : Erc721Activity)
  : res (gmap string Erc721Token) :=
  match toks !! activity_key a with
  | Some token => Ok (<[activity_key a :=
      {| tk_contract := tk_contract token; tk_token_id := tk_token_id token;
         tk_owner := na_to a; tk_last_updated_height := na_height a |}]> toks)
  | None =>
      if bool_decide (na_from a = ZERO_ADDRESS) then
        Ok (<[activity_key a :=
          {| tk_contract := na_contract a; tk_token_id := default "" (na_token_id a);
             tk_owner := na_to a; tk_last_updated_height := na_height a |}]> toks)
      else Throw "Handle erc721 tranfer error"
  end.

Definition is_nft_transfer (a : Erc721Activity) : bool :=
  bool_decide (na_action a = ERC721_ACTION.TRANSFER).

Definition process_one (toks : gmap string Erc721Token) (a : Erc721Activity)
  : res (gmap string Erc721Token) :=
  if is_nft_transfer a then handlerErc721Transfer toks a else Ok toks.

Definition process (toks : gmap string Erc721Token) (acts : list Erc721Activity)
  : res (gmap string Erc721Token) := forEachM process_one toks acts.

(** ** Activities from logs *)
Section Build.
Context {V : Viem}.

Definition ERC721_APPROVAL_FOR_ALL_TOPIC := topic_of "ApprovalForAll(address,address,bool)".

Definition nft_activity (e : EvmEvent) (action from to : string) (token_id : option string)
  : Erc721Activity :=
  {| na_evm_event_id := ev_id e; na_sender := ev_sender e; na_action := action;
     na_contract := ev_address e; na_from := toLowerCase from; na_to := toLowerCase to;
     na_height := ev_block_height e; na_tx_hash := ev_tx_hash e; na_evm_tx_id := ev_evm_tx_id e;
     na_token_id := token_id; na_erc721_token_id := None |}.

(** Two addresses and a token id in the topics. *)
Definition decode_token_event (params : list (string * string)) (e : EvmEvent)
  : res (string * string * Z) :=
  t2 ← slice2_opt (ev_topic2 e);
  t3 ← slice2_opt (ev_topic3 e);
  vs ← decodeAbiParameters params (concat_str (ev_topic1 e) +:+ t2 +:+ t3);
  match vs with
  | [AbiAddress a; AbiAddress b; AbiUint z] => Ok (a, b, z)
  | _ => Throw "TypeError: toLowerCase is not a function"
  end.

Definition ABI_TRANSFER_PARAMS := [("from", "address"); ("to", "address"); ("tokenId", "uint256")].
Definition ABI_APPROVAL_PARAMS := [("owner", "address"); ("approved", "address"); ("tokenId", "uint256")].
Definition ABI_APPROVAL_ALL_PARAMS := [("owner", "address"); ("approved", "address")].

Definition buildTransferActivity (e : EvmEvent) : option Erc721Activity :=
  try_undefined ('(from, to, tokenId) ← decode_token_event ABI_TRANSFER_PARAMS e;
                 Ok (nft_activity e ERC721_ACTION.TRANSFER from to (Some (toString tokenId)))).

Definition buildApprovalActivity (e : EvmEvent) : option Erc721Activity :=
  try_undefined ('(from, to, tokenId) ← decode_token_event ABI_APPROVAL_PARAMS e;
                 Ok (nft_activity e ERC721_ACTION.APPROVAL from to (Some (toString tokenId)))).

Definition buildApprovalForAllActivity (e : EvmEvent) : option Erc721Activity :=
  try_undefined
    (t2 ← slice2_opt (ev_topic2 e);
     vs ← decodeAbiParameters ABI_APPROVAL_ALL_PARAMS (concat_str (ev_topic1 e) +:+ t2);
     match vs with
     | [AbiAddress from; AbiAddress to] =>
         Ok (nft_activity e ERC721_ACTION.APPROVAL_FOR_ALL from to None)
     | _ => Throw "TypeError: toLowerCase is not a function"
     end).

Definition build_activity (e : EvmEvent) : option Erc721Activity :=
  if bool_decide (ev_topic0 e = Some TRANSFER_TOPIC) then buildTransferActivity e
  else if bool_decide (ev_topic0 e = Some APPROVAL_TOPIC) then buildApprovalActivity e
  else if bool_decide (ev_topic0 e = Some ERC721_APPROVAL_FOR_ALL_TOPIC)
  then buildApprovalForAllActivity e
  else None.
End Build.

(** ** Tables *)
Record Erc721Contract := { nc_evm_smart_contract_id : Z; nc_track : bool }.

(** [evm_event] in [id] order; [evm_smart_contract] by address, with its id;
    [erc721_token] by its unique key, with its id. *)
Record Db := {
  evm_event : list EvmEvent;
  evm_smart_contract : gmap string Z;
  erc721_contract : gmap string Erc721Contract;
  erc721_token : gmap (string * string) (Z * Erc721Token);
  next_token_id : Z;
  erc721_activity : list Erc721Activity;
  block_checkpoint : gmap string Z
}.
#[export] Instance Db_checkpoints : HasCheckpoints Db := block_checkpoint.
#[export] Program Instance Db_set_checkpoints : SetCheckpoints Db := {|
  set_checkpoints c d :=
    {| evm_event := evm_event d; evm_smart_contract := evm_smart_contract d;
         erc721_contract := erc721_contract d;
       erc721_token := erc721_token d; next_token_id := next_token_id d;
       erc721_activity := erc721_activity d; block_checkpoint := c |} |}.
Next Obligation. done. Qed.

(** The events of the range that have a transaction in [evm_transaction]
    ([ev_evm_tx_id]) and whose address is a contract and an ERC-721 contract
    (the three joins are inner), with its [track]. *)
Definition erc721Events (startBlock endBlock : Z) (d : Db) : list (EvmEvent * bool) :=
  omap (λ e, _ ← ev_evm_tx_id e;
             _ ← evm_smart_contract d !! ev_address e;
             c ← erc721_contract d !! ev_address e; Some (e, nc_track c))
    (filter (λ e, startBlock < ev_block_height e ∧ ev_block_height e <= endBlock) (evm_event d)).

(** [handleMissingErc721Contract]: the addresses without a contract. *)
Definition missingErc721ContractsAddress (events : list (EvmEvent * bool)) (d : Db) : list string :=
  filter (λ a, erc721_contract d !! a = None) (uniq (ev_address ∘ fst <$> events)).

Definition handleMissingErc721Contract (events : list (EvmEvent * bool)) (d : Db) : Db :=
  {| evm_event := evm_event d; evm_smart_contract := evm_smart_contract d;
     erc721_contract := foldl (λ m a, <[a := {| nc_evm_smart_contract_id := default 0 (evm_smart_contract d !! a);
                                              nc_track := false |}]> m)
       (erc721_contract d) (missingErc721ContractsAddress events d);
     erc721_token := erc721_token d; next_token_id := next_token_id d;
     erc721_activity := erc721_activity d; block_checkpoint := block_checkpoint d |}.

(** [_.keyBy(tokens of the pairs of the activities, contract_token)] *)
Definition fetchTokens (acts : list Erc721Activity) (d : Db) : gmap string Erc721Token :=
  keyBy (λ t, token_key (tk_contract t) (Some (tk_token_id t)))
    ((λ r : (string * string) * (Z * Erc721Token), r.2.2) <$>
     filter (λ r : (string * string) * (Z * Erc721Token),
               (r.1.1, Some r.1.2) ∈ (λ a, (na_contract a, na_token_id a)) <$> acts)
            (map_to_list (erc721_token d))).

(** [.insert(token).onConflict(['token_id', 'erc721_contract_address']).merge()] *)
Definition upsert_token (d : Db) (t : Erc721Token) : Db :=
  let k := (tk_contract t, tk_token_id t) in
  match erc721_token d !! k with
  | Some (id, _) =>
      {| evm_event := evm_event d; evm_smart_contract := evm_smart_contract d;
         erc721_contract := erc721_contract d;
         erc721_token := <[k := (id, t)]> (erc721_token d); next_token_id := next_token_id d;
         erc721_activity := erc721_activity d; block_checkpoint := block_checkpoint d |}
  | None =>
      {| evm_event := evm_event d; evm_smart_contract := evm_smart_contract d;
         erc721_contract := erc721_contract d;
         erc721_token := <[k := (next_token_id d, t)]> (erc721_token d);
         next_token_id := next_token_id d + 1;
         erc721_activity := erc721_activity d; block_checkpoint := block_checkpoint d |}
  end.

(** The id of the upserted token an activity is about. *)
Definition with_token_id (updated : gmap string Erc721Token) (d : Db) (a : Erc721Activity)
  : Erc721Activity :=
  {| na_evm_event_id := na_evm_event_id a; na_sender := na_sender a; na_action := na_action a;
     na_contract := na_contract a; na_from := na_from a; na_to := na_to a;
     na_height := na_height a; na_tx_hash := na_tx_hash a; na_evm_tx_id := na_evm_tx_id a;
     na_token_id := na_token_id a;
     na_erc721_token_id :=
       t ← updated !! activity_key a;
       r ← erc721_token d !! (tk_contract t, tk_token_id t);
       Some r.1 |}.

Definition updateErc721 (acts : list Erc721Activity) (toks : gmap string Erc721Token) (d : Db) : Db :=
  let d1 := foldl upsert_token d (map_to_list toks).*2 in
  {| evm_event := evm_event d1; evm_smart_contract := evm_smart_contract d1;
     erc721_contract := erc721_contract d1;
     erc721_token := erc721_token d1; next_token_id := next_token_id d1;
     erc721_activity := erc721_activity d1 ++ (with_token_id toks d1 <$> acts);
     block_checkpoint := block_checkpoint d1 |}.

Section Job.
Context (cfg : Config.t) {V : Viem}.

Definition erc721_activities (startBlock endBlock : Z) (d : Db) : list Erc721Activity :=
  omap (build_activity ∘ fst) (filter (λ e, e.2 = true) (erc721Events startBlock endBlock d)).

Definition handle_range (startBlock endBlock : Z) (d : Db) : res Db :=
  let d1 := handleMissingErc721Contract (erc721Events startBlock endBlock d) d in
  match erc721_activities startBlock endBlock d with
  | [] => Ok d1
  | acts => toks ← process (fetchTokens acts d1) acts; Ok (updateErc721 acts toks d1)
  end.

Definition handleErc721Activity : io Db () :=
  checkpoint_handler cfg HANDLE_ERC721_ACTIVITY (λ _ _, mret ()) (λ s e _ d, handle_range s e d).
End Job.

(** ** The owner of a token *)

(** The transfers of the token under key [k]. *)
Definition transfers (k : string) (acts : list Erc721Activity) : list Erc721Activity :=
  filter (λ a, is_nft_transfer a = true ∧ activity_key a = k) acts.

Lemma process_one_lookup toks a toks' k :
  process_one toks a = Ok toks' →
  tk_owner <$> toks' !! k =
    if bool_decide (is_nft_transfer a = true ∧ activity_key a = k) then Some (na_to a)
    else tk_owner <$> toks !! k.
Proof.
  unfold process_one. destruct (is_nft_transfer a); [|intros [= <-]; by rewrite bool_decide_false by naive_solver].
  unfold handlerErc721Transfer. destruct (decide (activity_key a = k)) as [Hk|Hk].
  - rewrite (bool_decide_true (_ ∧ _)) by done. rewrite Hk.
    destruct (toks !! k); [intros [= <-]; by rewrite lookup_insert_eq|].
    case_bool_decide; [|done]. intros [= <-]. by rewrite lookup_insert_eq.
  - rewrite (bool_decide_false (_ ∧ _)) by naive_solver.
    destruct (toks !! activity_key a); [intros [= <-]; by rewrite lookup_insert_ne|].
    case_bool_decide; [|done]. intros [= <-]. by rewrite lookup_insert_ne.
Qed.

Lemma process_lookup toks acts toks' k :
  process toks acts = Ok toks' →
  tk_owner <$> toks' !! k =
    match last (transfers k acts) with Some a => Some (na_to a) | None => tk_owner <$> toks !! k end.
Proof.
  unfold process, transfers. revert toks. induction acts as [|a acts IH]; intros toks; simpl.
  { by intros [= <-]. }
  intros (toks1 & H1 & H2)%bind_Ok. rewrite (IH _ H2), (process_one_lookup _ _ _ k H1), filter_cons.
  case_decide as Ha.
  - rewrite bool_decide_true by done. rewrite last_cons. by destruct (last _).
  - by rewrite bool_decide_false.
Qed.

(** A transfer that the handler can apply to the tokens known so far. *)
Definition applicable (known : string → Prop) (a : Erc721Activity) : Prop :=
  is_nft_transfer a = true → known (activity_key a) ∨ na_from a = ZERO_ADDRESS.

Lemma process_one_known toks a :
  (∃ toks', process_one toks a = Ok toks' ∧
     ∀ k, is_Some (toks' !! k) ↔ is_Some (toks !! k) ∨ is_nft_transfer a = true ∧ activity_key a = k)
  ∧ applicable (λ k, is_Some (toks !! k)) a ∨
  process_one toks a = Throw "Handle erc721 tranfer error"
  ∧ ¬ applicable (λ k, is_Some (toks !! k)) a.
Proof.
  unfold process_one, applicable. destruct (is_nft_transfer a); [|left; naive_solver].
  unfold handlerErc721Transfer. destruct (toks !! activity_key a) as [t|] eqn:Ht.
  - left. split; [|naive_solver]. eexists. split; [done|]. intros k.
    rewrite lookup_insert_is_Some. destruct (decide (activity_key a = k)) as [<-|]; naive_solver.
  - case_bool_decide as Hz; [left|right].
    + split; [|auto]. eexists. split; [done|]. intros k. rewrite lookup_insert_is_Some.
      destruct (decide (activity_key a = k)) as [<-|]; naive_solver.
    + split; [done|]. intros Ha. destruct (Ha eq_refl) as [[? ?]|]; congruence.
Qed.

Lemma process_fails toks acts :
  (∃ msg, process toks acts = Throw msg) ↔
  ∃ pre a post, acts = pre ++ a :: post ∧
    ¬ applicable (λ k, is_Some (toks !! k) ∨ transfers k pre ≠ []) a.
Proof.
  unfold process. revert toks. induction acts as [|a acts IH]; intros toks.
  { split; [by intros [? ?]|]. intros ([|? ?] & ? & ? & ? & _); done. }
  simpl. destruct (process_one_known toks a) as [[(toks1 & -> & Hk) Ha]|[-> Ha]]; simpl.
  - rewrite IH. split.
    + intros (pre & b & post & -> & Hb). exists (a :: pre), b, post. split; [done|].
      intros Hb'. apply Hb. intros Ht. destruct (Hb' Ht) as [[H|H]|H]; [left; left|left|by right].
      * apply Hk. by left.
      * unfold transfers in H. rewrite filter_cons in H. case_decide as Hd; [|by right].
        left. apply Hk. by right.
    + intros ([|a' pre] & b & post & [= <- Hacts] & Hb).
      * exfalso. apply Hb. intros Ht. destruct (Ha Ht); [by left; left|by right].
      * exists pre, b, post. split; [done|]. intros Hb'. apply Hb. intros Ht.
        destruct (Hb' Ht) as [[H|H]|H]; [|left|by right].
        -- apply Hk in H as [H|[H1 H2]]; left; [by left|right].
           unfold transfers. by rewrite filter_cons, decide_True.
        -- right. unfold transfers. rewrite filter_cons. by case_decide.
  - split; [|eauto]. intros _. exists [], a, acts. split; [done|]. intros Hb. apply Ha. intros Ht.
    destruct (Hb Ht) as [[?|?]|?]; [by left|done|by right].
Qed.

(** ** The tables after a run *)
Record tables_ok (d : Db) : Prop := {
  tokens_keyed c t id tok : erc721_token d !! (c, t) = Some (id, tok) →
    tk_contract tok = c ∧ tk_token_id tok = t ∧ no_underscore c = true;
  contracts_ok c : is_Some (erc721_contract d !! c) → no_underscore c = true
}.

(** What the activities built from logs satisfy. *)
Definition act_ok (a : Erc721Activity) : Prop :=
  no_underscore (na_contract a) = true ∧ (is_nft_transfer a = true → is_Some (na_token_id a)).

(** A dictionary of tokens under their own keys. *)
Definition toks_ok (toks : gmap string Erc721Token) : Prop :=
  ∀ k tok, toks !! k = Some tok →
    k = token_key (tk_contract tok) (Some (tk_token_id tok)) ∧ no_underscore (tk_contract tok) = true.

Lemma build_activity_ok `{V : Viem} e a :
  build_activity e = Some a → na_contract a = ev_address e ∧ (is_nft_transfer a = true → is_Some (na_token_id a)).
Proof.
  unfold build_activity.
  repeat case_bool_decide; try done; intros Ha%try_undefined_Some;
    repeat (apply bind_Ok in Ha as ([] & _ & Ha) || apply bind_Ok in Ha as (? & _ & Ha));
    repeat case_match; simplify_eq; simpl; split; try done; eauto.
Qed.

Lemma erc721_activities_ok `{V : Viem} s e d :
  tables_ok d → Forall act_ok (erc721_activities s e d).
Proof.
  intros Hd. apply Forall_forall. intros a Ha. unfold erc721_activities in Ha.
  apply list_elem_of_omap in Ha as ([ev tr] & [_ Hin]%list_elem_of_filter & Hb).
  destruct (build_activity_ok _ _ Hb) as [Hc Ht]. split; [|done]. rewrite Hc. simpl.
  unfold erc721Events in Hin. apply list_elem_of_omap in Hin as (ev' & _ & Hin).
  destruct (ev_evm_tx_id ev'); [|done]. simpl in Hin.
  destruct (evm_smart_contract d !! ev_address ev'); [|done]. simpl in Hin.
  destruct (erc721_contract d !! ev_address ev') eqn:Hev; [|done]. simpl in Hin. simplify_eq.
  eapply contracts_ok; [exact Hd|]. eauto.
Qed.

Lemma process_ok toks acts toks' :
  toks_ok toks → Forall act_ok acts → process toks acts = Ok toks' → toks_ok toks'.
Proof.
  intros Hok Hacts. rewrite Forall_forall in Hacts.
  apply forEachM_inv; [|done]. clear toks Hok toks'. intros toks a toks' Hok [Hc Ht]%Hacts.
  unfold process_one. destruct (is_nft_transfer a); [|by intros [= <-]].
  unfold handlerErc721Transfer. destruct (toks !! activity_key a) as [tok|] eqn:Hk.
  - intros [= <-] k tok'. rewrite lookup_insert. case_decide as Hkk; [|by apply Hok].
    intros [= <-]. simpl. rewrite <-Hkk. by apply Hok.
  - case_bool_decide; [|done]. intros [= <-] k tok'. rewrite lookup_insert.
    case_decide as Hkk; [|by apply Hok]. intros [= <-]. simpl. rewrite <-Hkk.
    destruct (Ht eq_refl) as [t Htok]. unfold activity_key. by rewrite Htok.
Qed.

Lemma fetchTokens_lookup acts d c t :
  tables_ok d → no_underscore c = true →
  fetchTokens acts d !! token_key c (Some t) =
    if bool_decide ((c, Some t) ∈ (λ a, (na_contract a, na_token_id a)) <$> acts)
    then snd <$> erc721_token d !! (c, t) else None.
Proof.
  intros Hd Hc. unfold fetchTokens.
  set (rows := filter _ _). set (toks := (λ r : (string * string) * (Z * Erc721Token), r.2.2) <$> rows).
  assert (∀ tok, tok ∈ toks ↔ ∃ id, erc721_token d !! (tk_contract tok, tk_token_id tok) = Some (id, tok) ∧
    (tk_contract tok, Some (tk_token_id tok)) ∈ (λ a, (na_contract a, na_token_id a)) <$> acts) as Htoks.
  { intros tok. unfold toks, rows. rewrite list_elem_of_fmap. setoid_rewrite list_elem_of_filter.
    split.
    - intros ([[c' t'] [id tok']] & -> & Hin & Hrow%elem_of_map_to_list). simpl in *.
      destruct (tokens_keyed d Hd _ _ _ _ Hrow) as (<- & <- & _). eauto.
    - intros (id & Hrow & Hin). exists ((tk_contract tok, tk_token_id tok), (id, tok)).
      rewrite elem_of_map_to_list. done. }
  assert (∀ tok, tok ∈ toks → token_key (tk_contract tok) (Some (tk_token_id tok)) = token_key c (Some t) →
    tk_contract tok = c ∧ tk_token_id tok = t) as Hinj.
  { intros tok (id & Hrow & _)%Htoks Heq. destruct (tokens_keyed d Hd _ _ _ _ Hrow) as (_ & _ & Hu).
    by apply key2_inj in Heq. }
  destruct (keyBy _ toks !! token_key c (Some t)) as [tok|] eqn:Hk.
  - apply keyBy_Some in Hk as [Hin Heq]. destruct (Hinj tok Hin Heq) as [<- <-].
    apply Htoks in Hin as (id & Hrow & Hin). by rewrite bool_decide_true, Hrow.
  - rewrite keyBy_None, Forall_forall in Hk. case_bool_decide as Hin; [|done].
    destruct (erc721_token d !! (c, t)) as [[id tok]|] eqn:Hrow; [|done].
    destruct (tokens_keyed d Hd _ _ _ _ Hrow) as (<- & <- & _).
    exfalso. apply (Hk tok); [|done]. apply Htoks. eauto.
Qed.

Lemma fetchTokens_ok acts d : tables_ok d → toks_ok (fetchTokens acts d).
Proof.
  intros Hd k tok Hk. unfold fetchTokens in Hk. apply keyBy_Some in Hk as [Hin <-]. split; [done|].
  apply list_elem_of_fmap in Hin as ([[c t] [id tok']] & -> & [_ Hrow%elem_of_map_to_list]%list_elem_of_filter).
  simpl in *. destruct (tokens_keyed d Hd _ _ _ _ Hrow) as (-> & _ & ?). done.
Qed.

Lemma upsert_tokens_lookup l d c t :
  snd <$> erc721_token (foldl upsert_token d l) !! (c, t) =
    match last (filter (λ tok, tk_contract tok = c ∧ tk_token_id tok = t) l) with
    | Some tok => Some tok
    | None => snd <$> erc721_token d !! (c, t)
    end.
Proof.
  revert d. induction l as [|tok l IH]; intros d; [done|]. simpl. rewrite IH, filter_cons.
  assert (snd <$> erc721_token (upsert_token d tok) !! (c, t) =
    if decide (tk_contract tok = c ∧ tk_token_id tok = t) then Some tok
    else snd <$> erc721_token d !! (c, t)) as ->.
  { unfold upsert_token. case_decide as Hk.
    - destruct Hk as [<- <-].
      destruct (erc721_token d !! (tk_contract tok, tk_token_id tok)) as [[id old]|]; simpl;
        by rewrite lookup_insert_eq.
    - destruct (erc721_token d !! (tk_contract tok, tk_token_id tok)) as [[id old]|]; simpl;
        rewrite lookup_insert_ne; naive_solver. }
  case_decide; [|done]. rewrite last_cons. by destruct (last _).
Qed.

(** Storing a dictionary of tokens. *)
Lemma updateErc721_lookup acts toks d c t :
  toks_ok toks → no_underscore c = true →
  snd <$> erc721_token (updateErc721 acts toks d) !! (c, t) =
    match toks !! token_key c (Some t) with
    | Some tok => Some tok
    | None => snd <$> erc721_token d !! (c, t)
    end.
Proof.
  intros Hok Hc. unfold updateErc721. simpl. rewrite upsert_tokens_lookup.
  set (l := filter _ _).
  assert (∀ tok, tok ∈ l → toks !! token_key c (Some t) = Some tok) as Hl.
  { unfold l. intros tok [[<- <-] ([k tok'] & -> & Hin%elem_of_map_to_list)%list_elem_of_fmap]%list_elem_of_filter.
    simpl in *. by destruct (Hok k tok' Hin) as [-> _]. }
  destruct (last l) as [tok|] eqn:Hlast.
  - apply last_Some_elem_of in Hlast. by rewrite (Hl tok).
  - apply last_None in Hlast. destruct (toks !! _) as [tok|] eqn:Hk; [|done].
    exfalso. destruct (Hok _ _ Hk) as [Heq Hu]. apply key2_inj in Heq as [-> Ht]; [|done..].
    simpl in Ht. subst t. apply (not_elem_of_nil tok). rewrite <-Hlast. apply list_elem_of_filter.
    split; [done|]. apply list_elem_of_fmap. exists (token_key (tk_contract tok) (Some (tk_token_id tok)), tok).
    split; [done|]. by apply elem_of_map_to_list.
Qed.

(** The transfers of token [t] of contract [c]. *)
Definition token_transfers (c t : string) (acts : list Erc721Activity) : list Erc721Activity :=
  filter (λ a, is_nft_transfer a = true ∧ na_contract a = c ∧ na_token_id a = Some t) acts.

Lemma transfers_token acts c t :
  Forall act_ok acts → no_underscore c = true →
  transfers (token_key c (Some t)) acts = token_transfers c t acts.
Proof.
  intros Hacts Hc. unfold transfers, token_transfers.
  induction Hacts as [|a acts [Ha Ht] _ IH]; [done|]. rewrite !filter_cons, IH.
  destruct (decide (is_nft_transfer a = true ∧ na_contract a = c ∧ na_token_id a = Some t)) as [(H1 & <- & H2)|Hn].
  - rewrite decide_True; [done|]. split; [done|]. unfold activity_key. by rewrite H2.
  - rewrite decide_False; [done|]. intros [H1 H2]. apply Hn. split; [done|].
    destruct (Ht H1) as [t' Ht']. unfold activity_key in H2. rewrite Ht' in H2.
    apply key2_inj in H2 as [-> H2]; [|done..]. simpl in H2. by subst.
Qed.

Lemma handleMissing_token events d :
  erc721_token (handleMissingErc721Contract events d) = erc721_token d ∧
  erc721_activity (handleMissingErc721Contract events d) = erc721_activity d ∧
  block_checkpoint (handleMissingErc721Contract events d) = block_checkpoint d.
Proof. done. Qed.

(** The contracts of the events are those of an inner join with
    [erc721_contract]: none can be missing. *)
Lemma missing_none s e d : missingErc721ContractsAddress (erc721Events s e d) d = [].
Proof.
  apply filter_none. intros c Hc Hnone. rewrite elem_of_uniq in Hc.
  apply list_elem_of_fmap in Hc as ([ev tr] & -> & Hin). simpl in Hnone.
  apply list_elem_of_omap in Hin as (ev' & _ & Hin).
  destruct (ev_evm_tx_id ev'); [|done]. simpl in Hin.
  destruct (evm_smart_contract d !! ev_address ev'); [|done]. simpl in Hin.
  destruct (erc721_contract d !! ev_address ev') eqn:Hev; [|done]. simpl in Hin. by simplify_eq.
Qed.

Lemma handleMissing_id s e d : handleMissingErc721Contract (erc721Events s e d) d = d.
Proof. unfold handleMissingErc721Contract. rewrite missing_none. by destruct d. Qed.

Lemma upserts_frame l d :
  erc721_activity (foldl upsert_token d l) = erc721_activity d ∧
  block_checkpoint (foldl upsert_token d l) = block_checkpoint d.
Proof.
  revert d. induction l as [|t l IH]; intros d; [done|]. simpl. destruct (IH (upsert_token d t)) as [-> ->].
  unfold upsert_token. by destruct (erc721_token d !! _) as [[]|].
Qed.

Lemma handle_range_spec `{V : Viem} s e d d' :
  tables_ok d → handle_range s e d = Ok d' →
  (∀ c t, no_underscore c = true →
     (λ r, tk_owner r.2) <$> erc721_token d' !! (c, t) =
       match last (token_transfers c t (erc721_activities s e d)) with
       | Some a => Some (na_to a)
       | None => (λ r, tk_owner r.2) <$> erc721_token d !! (c, t)
       end) ∧
  (∃ new, erc721_activity d' = erc721_activity d ++ new ∧
     na_evm_event_id <$> new = na_evm_event_id <$> erc721_activities s e d) ∧
  block_checkpoint d' = block_checkpoint d.
Proof.
  intros Hd. unfold handle_range. rewrite handleMissing_id.
  pose proof (erc721_activities_ok s e d Hd) as Hacts.
  destruct (erc721_activities s e d) as [|a acts] eqn:Hl.
  { intros [= <-]. split; [done|]. split; [|done]. exists []. by rewrite app_nil_r. }
  rewrite <-Hl in *. clear Hl a acts. set (acts := erc721_activities s e d) in *.
  intros (toks & Hp & [= <-])%bind_Ok.
  pose proof (process_ok _ _ _ (fetchTokens_ok acts d Hd) Hacts Hp) as Htoks. split; [|split].
  - intros c t Hc.
    assert (∀ x : option (Z * Erc721Token), (λ r, tk_owner r.2) <$> x = tk_owner <$> (snd <$> x)) as Hcomp
      by by intros [[]|].
    rewrite !Hcomp, (updateErc721_lookup acts toks d c t Htoks Hc).
    pose proof (process_lookup _ _ _ (token_key c (Some t)) Hp) as Hown.
    rewrite (transfers_token acts c t Hacts Hc), fetchTokens_lookup in Hown by done.
    destruct (last (token_transfers c t acts)) as [a|] eqn:Hlast.
    + destruct (toks !! token_key c (Some t)) as [tok|]; [exact Hown|done].
    + case_bool_decide as Hin.
      * destruct (toks !! token_key c (Some t)) as [tok|]; [exact Hown|done].
      * by destruct (toks !! token_key c (Some t)).
  - unfold updateErc721. simpl. destruct (upserts_frame (map_to_list toks).*2 d) as [-> _].
    eexists. split; [done|]. rewrite <-list_fmap_compose. done.
  - unfold updateErc721. simpl. apply upserts_frame.
Qed.

Lemma handle_range_checkpoint `{V : Viem} s e d d' :
  handle_range s e d = Ok d' → block_checkpoint d' = block_checkpoint d.
Proof.
  unfold handle_range. rewrite handleMissing_id. destruct (erc721_activities s e d).
  - by intros [= <-].
  - intros (toks & _ & [= <-])%bind_Ok. unfold updateErc721. simpl. apply upserts_frame.
Qed.

#[export] Instance handleErc721Activity_job cfg `{V : Viem} :
  CheckpointJob cfg HANDLE_ERC721_ACTIVITY (handleErc721Activity cfg).
Proof.
  apply checkpoint_handler_job. constructor; [auto with frames|].
  intros s e w d d'. apply handle_range_checkpoint.
Qed.

(** ** Properties *)

(** C8: ownership.  A run of the ERC-721 activity job that returns moves its
    checkpoint to the end of the range, appends one activity per decoded log of
    a tracked contract in log order, and leaves every token with the receiver
    of its last transfer in the range, or with its old owner when there is
    none. *)
Theorem erc721_owner cfg `{V : Viem} d d' :
  tables_ok d → handleErc721Activity cfg d = (d', Ok tt) →
  ∃ s e u, jobCheckpoint cfg HANDLE_ERC721_ACTIVITY (block_checkpoint d) = Ok (s, e, u) ∧
    block_checkpoint d' !! "handle:erc721-activity" = Some e ∧
    (∃ new, erc721_activity d' = erc721_activity d ++ new ∧
       na_evm_event_id <$> new = na_evm_event_id <$> erc721_activities s e d) ∧
    ∀ c t, no_underscore c = true →
      (λ r, tk_owner r.2) <$> erc721_token d' !! (c, t) =
        match last (token_transfers c t (erc721_activities s e d)) with
        | Some a => Some (na_to a)
        | None => (λ r, tk_owner r.2) <$> erc721_token d !! (c, t)
        end.
Proof.
  intros Hd Hrun. apply checkpoint_handler_cases in Hrun as [(_ & _ & s & e & u & _ & [=])|[(msg & [=] & _)|
    (s & e & u & w & d1 & d2 & Hj & _ & [= <- <-] & Hw & -> & _)]].
  destruct (handle_range_spec s e d d2 Hd Hw) as (Hown & Hact & Hcp).
  exists s, e, u. split; [done|]. split; [|done].
  apply getCheckpoint_Ok in Hj as (_ & -> & _). apply lookup_insert_eq.
Qed.

(** When the handler fails.  [process] throws exactly when some transfer is
    about a token that is neither known, nor transferred earlier in the batch,
    nor minted by the transfer itself (sender the zero address). *)
Theorem erc721_process_fails toks acts :
  (∃ msg, process toks acts = Throw msg) ↔
  ∃ pre a post, acts = pre ++ a :: post ∧ is_nft_transfer a = true ∧ na_from a ≠ ZERO_ADDRESS ∧
    toks !! activity_key a = None ∧ transfers (activity_key a) pre = [].
Proof.
  rewrite process_fails. split; intros (pre & a & post & -> & H); exists pre, a, post; (split; [done|]).
  - unfold applicable in H.
    destruct (is_nft_transfer a); [|exfalso; by apply H].
    split; [done|]. split; [intros Hz; apply H; auto|].
    split; [destruct (toks !! activity_key a) eqn:Hk; [|done]; exfalso; apply H; eauto|].
    destruct (transfers (activity_key a) pre) eqn:Ht; [done|]. exfalso. apply H. intros _. left. right.
    intros Hn. congruence.
  - destruct H as (Ht & Hz & Hk & Hp). intros Ha. destruct (Ha Ht) as [[[? ?]|?]|?]; congruence.
Qed.

(** [handleMissingErc721Contract] never finds a missing contract, since the
    events it is given come from an inner join with [erc721_contract]: it
    leaves the tables as they are. *)
Theorem no_missing_erc721_contracts s e d :
  handleMissingErc721Contract (erc721Events s e d) d = d.
Proof. apply handleMissing_id. Qed.

(** ** Witnesses: token 7 is minted to 0xa and sent to 0xb. *)
Definition demo_viem721 : Viem := {|
  decodeAbiParameters := λ _ s,
    if decide (s = "mint") then Ok [AbiAddress ZERO_ADDRESS; AbiAddress "0xA"; AbiUint 7]
    else Ok [AbiAddress "0xA"; AbiAddress "0xB"; AbiUint 7];
  toHex := λ o, match o with Some s => Ok s | None => Throw "null" end;
  keccak256 := λ s, s |}.

Definition demo_log (id : Z) (what : string) : EvmEvent := {|
  ev_id := id; ev_address := "0xc"; ev_topic0 := Some "Transfer(address,address,uint256)";
  ev_topic1 := Some what; ev_topic2 := Some "0x"; ev_topic3 := Some "0x"; ev_data := None;
  ev_block_height := 4860010; ev_tx_hash := "h"; ev_evm_tx_id := Some 1; ev_tx_id := 1;
  ev_sender := Some "0xa" |}.

Definition demo_db : Db := {|
  evm_event := [demo_log 1 "mint"; demo_log 2 "send"];
  evm_smart_contract := {[ "0xc" := 3 ]};
  erc721_contract := {[ "0xc" := {| nc_evm_smart_contract_id := 3; nc_track := true |} ]};
  erc721_token := ∅; next_token_id := 1; erc721_activity := [];
  block_checkpoint := {[ "handle:erc721-contract" := 4860050; "handle:evm-proxy-history" := 4860050 ]} |}.

Definition demo_run : Db * res () := handleErc721Activity Config.json (V := demo_viem721) demo_db.

Lemma demo_tables_ok : tables_ok demo_db.
Proof.
  constructor; [done|]. intros c [x Hc]. unfold demo_db in Hc. simpl in Hc. apply lookup_singleton_Some in Hc as [<- _]. reflexivity.
Qed.

Lemma erc721_owner_witness :
  tables_ok demo_db ∧
  (λ r, tk_owner r.2) <$> erc721_token demo_run.1 !! ("0xc", "7") = Some "0xb" ∧
  ∃ s e u, jobCheckpoint Config.json HANDLE_ERC721_ACTIVITY (block_checkpoint demo_db) = Ok (s, e, u) ∧
    block_checkpoint demo_run.1 !! "handle:erc721-activity" = Some e.
Proof.
  split; [exact demo_tables_ok|]. split; [vm_compute; reflexivity|].
  destruct (erc721_owner Config.json (V := demo_viem721) demo_db demo_run.1) as (s & e & u & Hj & Hc & _);
    [exact demo_tables_ok|vm_compute; reflexivity|].
  exists s, e, u. exact (conj Hj Hc).
Defined.
