(* ===== verification/Erc721Index.v ===== *)
(** * Indexing ERC-721 contracts

    The rest of [services/evm/erc721.service.ts]: the job that registers the
    ERC-721 contracts of a range, the action that registers contracts, and the
    job that refreshes the statistics of the contracts.  What a contract answers
    is the class of Erc20Index.v. *)
From S2P Require Import Prelude JsNum Checkpoint EvmContracts Erc20Index Erc721.

(** ** Tables *)
Record Erc721Row := {
  er_id : Z; er_evm_smart_contract_id : Z; er_address : string; er_symbol : option string; er_name : option string;
  er_track : bool; er_last_updated_height : option Z }.
Record Erc721Stats := { es_erc721_contract_id : Z; es_total_activity : Z; es_transfer_24h : Z }.
Record Db := {
  smart_contracts : list EVMSmartContract;
  contracts : list Erc721Row; next_id : Z;
  activities : list Erc721Activity;
  blocks : list (Z * Z);                    (* height, time in milliseconds *)
  stats : gmap Z (Z * Z);                   (* by contract: total_activity, transfer_24h *)
  block_checkpoint : gmap string Z
}.
Definition set_contracts (l : list Erc721Row) (next : Z) (d : Db) : Db := {|
  smart_contracts := smart_contracts d; contracts := l; next_id := next; activities := activities d; blocks := blocks d;
  stats := stats d; block_checkpoint := block_checkpoint d |}.
Definition set_stats (s : gmap Z (Z * Z)) (d : Db) : Db := {|
  smart_contracts := smart_contracts d; contracts := contracts d; next_id := next_id d; activities := activities d;
  blocks := blocks d; stats := s; block_checkpoint := block_checkpoint d |}.
#[export] Instance Db_checkpoints : HasCheckpoints Db := block_checkpoint.
#[export] Program Instance Db_set_checkpoints : SetCheckpoints Db := {|
  set_checkpoints t d := {|
    smart_contracts := smart_contracts d; contracts := contracts d; next_id := next_id d; activities := activities d;
    blocks := blocks d; stats := stats d; block_checkpoint := t |}
|}.
Next Obligation. done. Qed.

Section Jobs.
Context {T : TokenNode}.

(** ** Contracts *)
Record Info := { in_address : string; in_name : option string; in_symbol : option string }.
Definition batchReqs (address : string) : list Answer :=
  [ caught AText (read_name address); caught AText (read_symbol address) ].
Definition getBatchErc721Info (addresses : list string) : list Info :=
  let results := addresses ≫= batchReqs in
  imap (λ index address,
    {| in_address := address; in_name := results !! (2 * index)%nat ≫= text_column;
       in_symbol := results !! (2 * index + 1)%nat ≫= text_column |}) addresses.
(** The id comes from the insert. *)
Definition erc721_row (c : EVMSmartContract) (info : Info) : Erc721Row := {|
  er_id := 0; er_evm_smart_contract_id := sc_id c; er_address := sc_address c; er_symbol := in_symbol info;
  er_name := in_name info; er_track := true; er_last_updated_height := sc_created_height c |}.
Definition getErc721Instances (evmSmartContracts : list EVMSmartContract) : list Erc721Row :=
  zip_with erc721_row evmSmartContracts (getBatchErc721Info (sc_address <$> evmSmartContracts)).

Definition set_er_id (i : Z) (r : Erc721Row) : Erc721Row := {|
  er_id := i; er_evm_smart_contract_id := er_evm_smart_contract_id r; er_address := er_address r; er_symbol := er_symbol r;
  er_name := er_name r; er_track := er_track r; er_last_updated_height := er_last_updated_height r |}.
Definition fits_row (r : Erc721Row) : bool := short_text (er_symbol r) && short_text (er_name r).
(** The address and the contract are unique; the row refers to its contract. *)
Definition write_contracts (l : list Erc721Row) (n : Z) (d : Db) : res Db :=
  if negb (forallb fits_row l) then Throw "value too long for type character varying(255)" else
  if negb (bool_decide (NoDup (er_address <$> l) ∧ NoDup (er_evm_smart_contract_id <$> l)))
  then Throw "duplicate key value violates unique constraint" else
  if forallb (λ r, bool_decide (er_evm_smart_contract_id r ∈ sc_id <$> smart_contracts d)) l
  then Ok (set_contracts l (next_id d + n) d) else Throw "insert violates foreign key constraint".
Definition insert_contracts (rows : list Erc721Row) (d : Db) : res Db :=
  write_contracts (contracts d ++ serial set_er_id (next_id d) rows) (Z.of_nat (length rows)) d.

Definition erc721SmartContracts (startBlock endBlock : Z) (d : Db) : list EVMSmartContract :=
  sortBy sc_id (filter (λ c, created_between startBlock endBlock c = true ∧ sc_type c = Some TYPES.ERC721) (smart_contracts d)).
Definition prepareErc721Contracts (startBlock endBlock : Z) : io Db (list Erc721Row) :=
  cs ← query (erc721SmartContracts startBlock endBlock);
  mret (getErc721Instances cs).
Definition handleErc721Contract (cfg : Config.t) : io Db () :=
  checkpoint_handler cfg HANDLE_ERC721_CONTRACT prepareErc721Contracts (λ _ _, insert_contracts).

(** The action: rows of known addresses are merged, where a column none of the
    rows has a value for is not part of the statement. *)
Definition merge_row (rows : list Erc721Row) (old new : Erc721Row) : Erc721Row := {|
  er_id := er_id old; er_evm_smart_contract_id := er_evm_smart_contract_id new; er_address := er_address new;
  er_symbol := if existsb (λ r, bool_decide (is_Some (er_symbol r))) rows then er_symbol new else er_symbol old;
  er_name := if existsb (λ r, bool_decide (is_Some (er_name r))) rows then er_name new else er_name old;
  er_track := er_track new; er_last_updated_height := er_last_updated_height new |}.
Definition find_row (address : string) (l : list Erc721Row) : option Erc721Row :=
  find (λ r, bool_decide (er_address r = address)) l.
Definition upsert_contracts (rows : list Erc721Row) (d : Db) : res Db :=
  if bool_decide (NoDup (er_address <$> rows)) then
    let merged := (λ old, match find_row (er_address old) rows with Some new => merge_row rows old new | None => old end) <$> contracts d in
    let new := filter (λ r, find_row (er_address r) (contracts d) = None) (serial set_er_id (next_id d) rows) in
    write_contracts (merged ++ new) (Z.of_nat (length rows)) d
  else Throw "ON CONFLICT DO UPDATE command cannot affect row a second time".
Definition new_smart_contract (currentHeight : Z) (x : Z * string) : EVMSmartContract := {|
  sc_id := x.1; sc_address := x.2; sc_creator := None; sc_created_height := Some currentHeight; sc_created_hash := None;
  sc_type := None; sc_code_hash := None |}.
Definition insertNewErc721Contracts (evmSmartContracts : list (Z * string)) : io Db () :=
  if bool_decide (evmSmartContracts = []) then mret () else
  currentHeight ← lift node_height;
  commit (upsert_contracts (getErc721Instances (new_smart_contract currentHeight <$> evmSmartContracts))).
End Jobs.

(** ** Statistics *)
Definition day_ms : Z := 86400000.
(** The highest block of 24 hours ago or before. *)
Definition blockSince24hAgo (now : Z) (d : Db) : option Z :=
  foldr (λ b acc, if b.2 <=? now - day_ms then Some (match acc with Some h => Z.max b.1 h | None => b.1 end) else acc) None (blocks d).
Definition activities_of (r : Erc721Row) (d : Db) : list Erc721Activity :=
  filter (λ a, na_contract a = er_address r) (activities d).
Definition transfers_since (h : Z) (l : list Erc721Activity) : Z :=
  Z.of_nat (length (filter (λ a, h <= na_height a ∧ na_action a = ERC721_ACTION.TRANSFER) l)).
Definition calErc721Stats (now : Z) (d : Db) : res (list Erc721Stats) :=
  match blockSince24hAgo now d with
  | None => Throw "the statement has a parameter without a value"
  | Some h =>
      Ok ((λ r, {| es_erc721_contract_id := er_id r; es_total_activity := Z.of_nat (length (activities_of r d));
                   es_transfer_24h := transfers_since h (activities_of r d) |})
            <$> filter (λ r, er_track r = true ∧ activities_of r d ≠ []) (contracts d))
  end.
Definition jobHandlerRefresh (now : Z) : io Db () :=
  answer ← query (calErc721Stats now);
  erc721Stats ← lift answer;
  update (λ d, set_stats (foldl (λ s r, <[es_erc721_contract_id r := (es_total_activity r, es_transfer_24h r)]> s) (stats d) erc721Stats) d).

(** ** What the jobs write *)
Section Facts.
Context {T : TokenNode}.

Definition info721 (a : string) : Info := {|
  in_address := a; in_name := text_column (caught AText (read_name a)); in_symbol := text_column (caught AText (read_symbol a)) |}.
Theorem getBatchErc721Info_each addresses : getBatchErc721Info addresses = info721 <$> addresses.
Proof.
  apply list_eq. intros i. unfold getBatchErc721Info. rewrite list_lookup_imap, list_lookup_fmap.
  destruct (addresses !! i) as [a|] eqn:Ha; [|done]. cbn [fmap option_fmap option_map]. f_equal. unfold info721.
  pose proof (lookup_chunks batchReqs 2 addresses i 0 ltac:(done) ltac:(lia)) as H0. rewrite Nat.add_0_r in H0.
  rewrite H0, (lookup_chunks batchReqs 2) by (done || lia). by rewrite Ha.
Qed.

Definition row721 (c : EVMSmartContract) : Erc721Row := erc721_row c (info721 (sc_address c)).
Lemma getErc721Instances_each cs : getErc721Instances cs = row721 <$> cs.
Proof.
  unfold getErc721Instances. rewrite getBatchErc721Info_each, <-list_fmap_compose.
  induction cs as [|c cs IH]; [done|]. simpl. f_equal. apply IH.
Qed.

(** Rows as the contract job may find them. *)
Record rows_ok (d : Db) : Prop := {
  ro_address : NoDup (er_address <$> contracts d);
  ro_contract : NoDup (er_evm_smart_contract_id <$> contracts d);
  ro_ref r : r ∈ contracts d → er_evm_smart_contract_id r ∈ sc_id <$> smart_contracts d;
  ro_fits r : r ∈ contracts d → fits_row r = true
}.

Lemma serial_column {A} (f : Erc721Row → A) next l :
  (∀ i r, f (set_er_id i r) = f r) → f <$> serial set_er_id next l = f <$> l.
Proof using Type.
  intros Hf. unfold serial. rewrite fmap_imap. rewrite <-imap_const. apply imap_ext. intros i r _. apply Hf.
Qed.

Lemma elem_of_serial next l r : r ∈ serial set_er_id next l → ∃ i r', r = set_er_id i r' ∧ r' ∈ l.
Proof using Type.
  unfold serial. intros (i & x & -> & Hx)%elem_of_lookup_imap. eexists _, x. split; [done|]. by eapply list_elem_of_lookup_2.
Qed.

Lemma appended_column {A} (f : Erc721Row → A) (g : EVMSmartContract → A) next old cs :
  (∀ i r, f (set_er_id i r) = f r) → NoDup (f <$> old) → NoDup (g <$> cs) → (∀ c, f (row721 c) = g c) →
  (∀ c r, c ∈ cs → r ∈ old → f r ≠ g c) → NoDup (f <$> old ++ serial set_er_id next (row721 <$> cs)).
Proof using Type.
  intros Hf Hold Hcs Hg Hnew. rewrite fmap_app, serial_column, <-list_fmap_compose by done.
  assert (f ∘ row721 <$> cs = g <$> cs) as -> by (apply list_fmap_ext; intros ? ? _; apply Hg).
  apply NoDup_app. split_and!; [done| |done].
  intros a (r & -> & Hr)%list_elem_of_fmap (c & Heq & Hc)%list_elem_of_fmap. by apply (Hnew c r Hc Hr).
Qed.

Lemma write_contracts_Ok l n d : rows_ok (set_contracts l 0 d) → 
  write_contracts l n d = Ok (set_contracts l (next_id d + n) d) ∧ rows_ok (set_contracts l (next_id d + n) d).
Proof using Type.
  intros [Ha Hc Hr Hf]. split; [|by split]. unfold write_contracts.
  rewrite (proj2 (forallb_forall _ _)) by (intros r Hin; by apply Hf, list_elem_of_In). cbn [negb].
  rewrite bool_decide_true by done. cbn [negb].
  by rewrite (proj2 (forallb_forall _ _)) by (intros r Hin; by apply bool_decide_eq_true, Hr, list_elem_of_In).
Qed.

Lemma erc721SmartContracts_columns s e d :
  NoDup (sc_address <$> smart_contracts d) → NoDup (sc_id <$> smart_contracts d) →
  NoDup (sc_address <$> erc721SmartContracts s e d) ∧ NoDup (sc_id <$> erc721SmartContracts s e d).
Proof using Type.
  intros Ha Hi. unfold erc721SmartContracts. rewrite !sortBy_perm.
  split; (eapply sublist_NoDup; [done|]; apply fmap_sublist, sublist_filter).
Qed.

(** A run of the contract job adds a tracked row for every ERC-721 contract
    created in its range, unless one of them has a row already. *)
Theorem erc721_contracts_registered cfg d s e u :
  jobCheckpoint cfg HANDLE_ERC721_CONTRACT (checkpoints_of d) = Ok (s, e, u) →
  rows_ok d → NoDup (sc_address <$> smart_contracts d) → NoDup (sc_id <$> smart_contracts d) →
  (∀ c, c ∈ erc721SmartContracts s e d → short_text (in_name (info721 (sc_address c))) = true ∧ short_text (in_symbol (info721 (sc_address c))) = true) →
  (∀ c r, c ∈ erc721SmartContracts s e d → r ∈ contracts d → er_address r ≠ sc_address c ∧ er_evm_smart_contract_id r ≠ sc_id c) →
  ∃ d', handleErc721Contract cfg d = (d', Ok tt) ∧ checkpoints_of d' = saveCheckpoint u e (checkpoints_of d) ∧
    contracts d' = contracts d ++ serial set_er_id (next_id d) (row721 <$> erc721SmartContracts s e d) ∧ rows_ok d'.
Proof.
  intros Hj Hok Haddr Hid Hshort Hfresh. set (cs := erc721SmartContracts s e d) in *.
  assert (∀ c, c ∈ cs → c ∈ smart_contracts d) as Hin.
  { intros c. unfold cs, erc721SmartContracts. rewrite sortBy_perm, list_elem_of_filter. tauto. }
  assert (Hcols := erc721SmartContracts_columns s e d). fold cs in Hcols.
  destruct (write_contracts_Ok (contracts d ++ serial set_er_id (next_id d) (row721 <$> cs)) (Z.of_nat (length (row721 <$> cs))) d)
    as [Hw Hok'].
  { split; cbn [contracts set_contracts smart_contracts].
    - apply (appended_column er_address sc_address); [done|apply Hok|by apply Hcols|done|]. intros c r Hc Hr. by apply Hfresh.
    - apply (appended_column er_evm_smart_contract_id sc_id); [done|apply Hok|by apply Hcols|done|]. intros c r Hc Hr. by apply Hfresh.
    - intros r [Hr|(i & r' & -> & (c & -> & Hc)%list_elem_of_fmap)%elem_of_serial]%elem_of_app; [by apply Hok|].
      apply list_elem_of_fmap. exists c. split; [done|by apply Hin].
    - intros r [Hr|(i & r' & -> & (c & -> & Hc)%list_elem_of_fmap)%elem_of_serial]%elem_of_app; [by apply Hok|].
      destruct (Hshort c Hc) as [Hn Hs]. apply andb_true_iff. by split. }
  eexists. split.
  { eapply (checkpoint_handler_run cfg HANDLE_ERC721_CONTRACT prepareErc721Contracts (λ _ _, insert_contracts)
             d s e u d (row721 <$> cs)); [done|done| |exact Hw].
    unfold prepareErc721Contracts. by rewrite <-getErc721Instances_each. }
  split; [done|]. split; [done|]. destruct Hok'. by split.
Qed.

(** A contract of the range that has a row already, by the recovery of missing
    contracts or by the action, stops the job: the insert has no conflict
    clause, so every run of the range throws and stores nothing. *)
Theorem known_erc721_stops_job cfg d s e u c r :
  jobCheckpoint cfg HANDLE_ERC721_CONTRACT (checkpoints_of d) = Ok (s, e, u) →
  c ∈ erc721SmartContracts s e d → r ∈ contracts d → er_address r = sc_address c →
  ∃ msg, handleErc721Contract cfg d = (d, Throw msg).
Proof.
  intros Hj Hc Hr Ha. set (cs := erc721SmartContracts s e d) in *.
  assert (∃ msg, insert_contracts (row721 <$> cs) d = Throw msg) as [msg Hmsg].
  { unfold insert_contracts, write_contracts. destruct (negb _); [by eexists|].
    rewrite bool_decide_false; [by eexists|]. intros [Hnd _]. rewrite fmap_app, serial_column, <-list_fmap_compose in Hnd by done.
    apply NoDup_app in Hnd as (_ & Hd & _). apply (Hd (er_address r)); apply list_elem_of_fmap; [by exists r|by exists c]. }
  exists msg. eapply (checkpoint_handler_fails cfg HANDLE_ERC721_CONTRACT prepareErc721Contracts (λ _ _, insert_contracts)
    d s e u d (row721 <$> cs)); [done|done| |done].
  unfold prepareErc721Contracts. by rewrite <-getErc721Instances_each.
Qed.
End Facts.

(** ** The statistics *)
(** The refresh counts, for every tracked contract with an activity, its
    activities and its transfers since the highest block of 24 hours ago; the
    statistics of the other contracts stay, also of those no longer tracked. *)
Theorem erc721_stats_refreshed now d h :
  NoDup (er_id <$> contracts d) → blockSince24hAgo now d = Some h →
  ∃ d', jobHandlerRefresh now d = (d', Ok tt) ∧ contracts d' = contracts d ∧ activities d' = activities d ∧
    (∀ r, r ∈ contracts d → er_track r = true → activities_of r d ≠ [] →
       stats d' !! er_id r = Some (Z.of_nat (length (activities_of r d)), transfers_since h (activities_of r d))) ∧
    (∀ i, (∀ r, r ∈ contracts d → er_id r = i → er_track r = false ∨ activities_of r d = []) → stats d' !! i = stats d !! i).
Proof.
  intros Hnd Hh. eexists. split.
  { unfold jobHandlerRefresh. erewrite io_step by done. unfold calErc721Stats. rewrite Hh. by erewrite io_step by done. }
  split; [done|]. split; [done|]. cbn [stats set_stats]. set (f := λ r, _ : Erc721Stats).
  set (rows := filter _ (contracts d)).
  assert (NoDup (es_erc721_contract_id <$> (f <$> rows))) as Hids.
  { rewrite <-list_fmap_compose. eapply sublist_NoDup; [exact Hnd|]. apply (fmap_sublist er_id), sublist_filter. }
  destruct (foldl_upsert_lookup es_erc721_contract_id (λ _ r, (es_total_activity r, es_transfer_24h r)) (f <$> rows) (stats d) Hids)
    as [Hnew Hold].
  split; [intros r Hr Ht Ha|intros i Hi].
  - apply (Hnew (f r)), list_elem_of_fmap_2, list_elem_of_filter. done.
  - apply Hold. intros (x & -> & (r & -> & [[Ht Ha] Hr]%list_elem_of_filter)%list_elem_of_fmap)%list_elem_of_fmap.
    destruct (Hi r Hr eq_refl); congruence.
Qed.

(** Before there is a block of 24 hours ago the refresh throws: the height of
    the missing block is a parameter of the statement. *)
Theorem young_chain_no_stats now d :
  (∀ b, b ∈ blocks d → now - day_ms < b.2) → ∃ msg, jobHandlerRefresh now d = (d, Throw msg).
Proof.
  intros Hb. assert (blockSince24hAgo now d = None) as Hn.
  { unfold blockSince24hAgo. induction (blocks d) as [|b l IH]; [done|]. simpl. rewrite (proj2 (Z.leb_gt _ _)) by (apply Hb; left).
    apply IH. intros b' Hb'. apply Hb. by right. }
  eexists. unfold jobHandlerRefresh. erewrite io_step by done. unfold calErc721Stats. rewrite Hn. reflexivity.
Qed.

(** ** An example: a range with one contract, the refresh a day later, and the
    same range when the contract was recovered before. *)
Definition demo_token_node : TokenNode := {|
  read_name _ := Ok "Apes"; read_symbol _ := Throw "reverted"; read_decimals _ := Throw "reverted";
  read_totalSupply _ := Throw "reverted"; node_height := Ok 4860020 |}.
Definition demo_nft : EVMSmartContract := {|
  sc_id := 4; sc_address := "0xc"; sc_creator := Some "0xaa"; sc_created_height := Some 4860005;
  sc_created_hash := Some "h"; sc_type := Some TYPES.ERC721; sc_code_hash := None |}.
Definition demo_transfer : Erc721Activity := {|
  na_evm_event_id := 1; na_sender := None; na_action := ERC721_ACTION.TRANSFER; na_contract := "0xc"; na_from := "0xa"; na_to := "0xb";
  na_height := 4860010; na_tx_hash := "h"; na_evm_tx_id := None; na_token_id := Some "1"; na_erc721_token_id := Some 1 |}.
Definition demo_row (symbol : option string) (track : bool) (height : Z) : Erc721Row := {|
  er_id := 7; er_evm_smart_contract_id := 4; er_address := "0xc"; er_symbol := symbol; er_name := Some "Apes"; er_track := track;
  er_last_updated_height := Some height |}.
Definition demo_db (rows : list Erc721Row) : Db := {|
  smart_contracts := [demo_nft]; contracts := rows; next_id := 7; activities := [demo_transfer];
  blocks := [(4860000, 0); (4860020, 1000)]; stats := ∅; block_checkpoint := <["crawl:smart-contract-evm" := 4860015]> ∅ |}.

Example demo_registered :
  let d := (handleErc721Contract (T := demo_token_node) Config.json (demo_db [])).1 in
  contracts d = [demo_row None true 4860005] ∧
  stats (jobHandlerRefresh day_ms d).1 !! 7 = Some (1, 1) ∧
  (jobHandlerRefresh (day_ms - 1) d).2 = Throw "the statement has a parameter without a value".
Proof. split; [vm_compute; reflexivity|]. split; vm_compute; reflexivity. Qed.

Example demo_recovered_before :
  let d := demo_db [demo_row None false (-1)] in
  handleErc721Contract (T := demo_token_node) Config.json d = (d, Throw "duplicate key value violates unique constraint").
Proof. vm_compute. reflexivity. Qed.

(** [erc721_contracts_registered] there. *)
Example demo_applies : ∃ d', handleErc721Contract (T := demo_token_node) Config.json (demo_db []) = (d', Ok tt) ∧
  contracts d' = [demo_row None true 4860005].
Proof.
  assert (erc721SmartContracts 4860000 4860015 (demo_db []) = [demo_nft]) as Hcs by (vm_compute; reflexivity).
  destruct (erc721_contracts_registered (T := demo_token_node) Config.json (demo_db []) 4860000 4860015
    {| job_name := "handle:erc721-contract"; height := 4860000 |}) as (d' & Hrun & _ & Hrows & _).
  - vm_compute. reflexivity.
  - split; simpl; [by constructor..| |]; by intros r ?%not_elem_of_nil.
  - by apply NoDup_singleton.
  - by apply NoDup_singleton.
  - by intros c _.
  - by intros c r _ ?%not_elem_of_nil.
  - exists d'. split; [exact Hrun|]. rewrite Hrows, Hcs. reflexivity.
Qed.
