(* ===== verification/Assets.v ===== *)
(** * Assets

    [services/job/update_assets.service.ts] and
    [services/evm/update_assets.service.ts]: the table of assets follows the
    supply of the chain, the CW20 and the ERC-20 contracts.  The answers of the
    bank and transfer modules are a class. *)
From S2P Require Import Prelude JsNum Erc20.
From S2P Require Ics20.

(** ** Tables *)
Module TYPE.
Definition CW20_TOKEN := "CW20_TOKEN".
Definition NATIVE := "NATIVE".
Definition IBC_TOKEN := "IBC_TOKEN".
Definition FACTORY_TOKEN := "FACTORY_TOKEN".
Definition ERC20_TOKEN := "ERC20_TOKEN".
End TYPE.
Module PREFIX.
Definition IBC := "ibc/".
Definition FACTORY := "factory/".
End PREFIX.

(** The denom is the key; total_supply is a decimal. *)
Record Asset := {
  as_type : string; as_decimal : option string; as_name : option string; as_price : option Z; as_total_supply : option Z;
  as_origin_id : option string; as_updated_at : Z }.
(** A row of cw20_contract with the address of its smart contract. *)
Record Cw20Asset := {
  cw_address : string; cw_total_supply : option string; cw_id : Z; cw_decimal : option string; cw_name : option string }.
Record Db := { asset : gmap string Asset; cw20_contract : list Cw20Asset; erc20_contracts : list Erc20Contract }.
Definition set_assets (t : gmap string Asset) (d : Db) : Db := {|
  asset := t; cw20_contract := cw20_contract d; erc20_contracts := erc20_contracts d |}.

(** A row of the insert: a column is [None] when its key is undefined. *)
Record NewAsset := {
  na_denom : string; na_type : string; na_decimal : option (option string); na_name : option (option string);
  na_total_supply : option string; na_origin_id : option (option string) }.
Definition has_key {A} (f : NewAsset → option A) (rows : list NewAsset) : bool := existsb (λ r, bool_decide (is_Some (f r))) rows.
(** [onConflict('denom').merge()]: the columns of the statement are those any
    row has; a row without the key gets the default. *)
Definition column {A} (f : NewAsset → option (option A)) (rows : list NewAsset) (r : NewAsset) (old : option A) : option A :=
  if has_key f rows then default None (f r) else old.
Definition total_supply (r : NewAsset) : res (option Z) :=
  match na_total_supply r with Some s => z ← BigInt s; Ok (Some z) | None => Ok None end.
Definition merge_asset (now : Z) (rows : list NewAsset) (r : NewAsset) (supply : option Z) (old : option Asset) : Asset := {|
  as_type := na_type r; as_decimal := column na_decimal rows r (old ≫= as_decimal); as_name := column na_name rows r (old ≫= as_name);
  as_price := old ≫= as_price; as_total_supply := supply; as_origin_id := column na_origin_id rows r (old ≫= as_origin_id);
  as_updated_at := now |}.
Definition upsert_asset (now : Z) (rows : list NewAsset) (t : gmap string Asset) (r : NewAsset) : res (gmap string Asset) :=
  supply ← total_supply r;
  Ok (<[na_denom r := merge_asset now rows r supply (t !! na_denom r)]> t).
Definition upsert_assets (now : Z) (rows : list NewAsset) (d : Db) : res Db :=
  if bool_decide (NoDup (na_denom <$> rows)) then
    t ← forEachM (upsert_asset now rows) (asset d) rows;
    Ok (set_assets t d)
  else Throw "ON CONFLICT DO UPDATE command cannot affect row a second time".

(** ** The supply of the chain *)
Record Coin := { c_denom : string; c_amount : string }.
Class Bank := {
  count_total : res string;                            (* pagination.total *)
  total_supply_page : Z → Z → res (list Coin);         (* by limit and offset *)
  supply_of : string → res Coin;
  denom_trace : string → res (option (option string))  (* by hash: no value, no trace, or its path *)
}.
Definition lcdRecordGet : Z := 5.

Section Job.
Context {B : Bank}.

(** [index < Math.ceil(countTotal / lcdRecordGet)] *)
Definition page_count (countTotal : option Z) : nat :=
  match countTotal with Some n => Z.to_nat (- (- n / lcdRecordGet)) | None => 0 end.
Definition missingDenomAssets (assets : list Coin) (d : Db) : list string :=
  fst <$> filter (λ x, as_type x.2 ∈ [TYPE.IBC_TOKEN; TYPE.FACTORY_TOKEN; TYPE.NATIVE] ∧
                       as_total_supply x.2 ≠ None ∧ as_total_supply x.2 ≠ Some 0 ∧ x.1 ∉ c_denom <$> assets) (map_to_list (asset d)).
Definition queryRpcAssets : io Db (list Coin) :=
  total ← lift count_total;
  pages ← lift (mapR (λ index, total_supply_page lcdRecordGet (Z.of_nat index * lcdRecordGet)) (seq 0 (page_count (parseInt total))));
  let assets := concat pages in
  missing ← query (missingDenomAssets assets);
  others ← lift (mapR supply_of missing);
  mret (assets ++ others).
(** [path?.split('/')[1]] of the trace of a denom. *)
Definition origin_of (trace : option (option string)) : option string :=
  match trace with Some (Some path) => Ics20.split path !! 1%nat | _ => None end.
Definition queryRpcOriginAssets (coinAssets : list Coin) : res (list (Coin * option string)) :=
  mapR (λ c, trace ← denom_trace (String.substring 4 (String.length (c_denom c) - 4) (c_denom c)); Ok (c, origin_of trace)) coinAssets.
Definition coin_type (denom : string) : string :=
  if String.prefix PREFIX.IBC denom then TYPE.IBC_TOKEN
  else if String.prefix PREFIX.FACTORY denom then TYPE.FACTORY_TOKEN else TYPE.NATIVE.
Definition coin_asset (x : Coin * option string) : NewAsset := {|
  na_denom := c_denom x.1; na_type := coin_type (c_denom x.1); na_decimal := None; na_name := None;
  na_total_supply := Some (c_amount x.1); na_origin_id := Some <$> x.2 |}.
Definition cw20_asset (c : Cw20Asset) : NewAsset := {|
  na_denom := cw_address c; na_type := TYPE.CW20_TOKEN; na_decimal := Some (cw_decimal c); na_name := Some (cw_name c);
  na_total_supply := cw_total_supply c; na_origin_id := Some (Some (toString (cw_id c))) |}.
Definition jobUpdateAssets (now : Z) : io Db () :=
  coinAssets ← queryRpcAssets;
  originAssets ← lift (queryRpcOriginAssets coinAssets);
  cw20Assets ← query cw20_contract;
  let assets := (coin_asset <$> originAssets) ++ (cw20_asset <$> cw20Assets) in
  if bool_decide (0 < length assets)%nat then commit (upsert_assets now assets) else mret ().
End Job.

(** ** The ERC-20 contracts *)
Definition erc20_asset (c : Erc20Contract) : NewAsset := {|
  na_denom := ec_address c; na_type := TYPE.ERC20_TOKEN; na_decimal := Some (ec_decimal c); na_name := Some (ec_name c);
  na_total_supply := ec_total_supply c; na_origin_id := Some (Some (toString (ec_evm_smart_contract_id c))) |}.
Definition jobUpdateEvmAssets (now : Z) : io Db () :=
  erc20Assets ← query erc20_contracts;
  let assets := erc20_asset <$> erc20Assets in
  if bool_decide (0 < length assets)%nat then commit (upsert_assets now assets) else mret ().

(** ** Upserts *)
Lemma upsert_rows now all rows t :
  NoDup (na_denom <$> rows) → (∀ r, r ∈ rows → ∃ s, total_supply r = Ok s) →
  ∃ t', forEachM (upsert_asset now all) t rows = Ok t' ∧
    (∀ r s, r ∈ rows → total_supply r = Ok s → t' !! na_denom r = Some (merge_asset now all r s (t !! na_denom r))) ∧
    (∀ k, k ∉ na_denom <$> rows → t' !! k = t !! k).
Proof.
  revert t. induction rows as [|r rows IH]; intros t Hnd Hok.
  { exists t. split; [done|]. split; [by intros ? ? ?%not_elem_of_nil|done]. }
  rewrite fmap_cons in Hnd. apply NoDup_cons in Hnd as [Hr Hnd]. destruct (Hok r ltac:(by left)) as [s Hs].
  cbn [forEachM].
  assert (upsert_asset now all t r = Ok (<[na_denom r := merge_asset now all r s (t !! na_denom r)]> t)) as ->
    by (unfold upsert_asset; by rewrite Hs).
  cbn [mbind res_bind].
  destruct (IH (<[na_denom r := merge_asset now all r s (t !! na_denom r)]> t) Hnd) as (t' & Hrun & Hnew & Hold).
  { intros r' Hr'. apply Hok. by right. }
  exists t'. split; [exact Hrun|]. split.
  - intros r' s' [->|Hr']%elem_of_cons Hs'.
    + rewrite Hold, lookup_insert_eq by done. rewrite Hs in Hs'. by injection Hs' as <-.
    + rewrite (Hnew r' s' Hr' Hs'), lookup_insert_ne; [done|]. intros Heq. apply Hr. rewrite Heq. by apply list_elem_of_fmap_2.
  - intros k [Hk Hk']%not_elem_of_cons. by rewrite Hold, lookup_insert_ne.
Qed.

Lemma upsert_assets_Ok now rows d :
  NoDup (na_denom <$> rows) → (∀ r, r ∈ rows → ∃ s, total_supply r = Ok s) →
  ∃ t', upsert_assets now rows d = Ok (set_assets t' d) ∧
    (∀ r s, r ∈ rows → total_supply r = Ok s → t' !! na_denom r = Some (merge_asset now rows r s (asset d !! na_denom r))) ∧
    (∀ k, k ∉ na_denom <$> rows → t' !! k = asset d !! k).
Proof.
  intros Hnd Hok. destruct (upsert_rows now rows rows (asset d) Hnd Hok) as (t' & Hrun & H). exists t'. split; [|exact H].
  unfold upsert_assets. rewrite bool_decide_true by done. by rewrite Hrun.
Qed.

(** ** What the chain says *)
Definition coin (x : string * Z) : Coin := {| c_denom := x.1; c_amount := toString x.2 |}.
(** The supply of a denom, zero when the bank has none. *)
Definition supply_at (supply : list (string * Z)) (denom : string) : Z :=
  default 0 (snd <$> find (λ x, bool_decide (x.1 = denom)) supply).
Class BankSays (B : Bank) (supply : list (string * Z)) : Prop := {
  says_once : NoDup supply.*1;
  says_total : count_total = Ok (toString (Z.of_nat (length supply)));
  says_page limit offset : 0 <= limit → 0 <= offset →
    total_supply_page limit offset = Ok (coin <$> take (Z.to_nat limit) (drop (Z.to_nat offset) supply));
  says_of denom : supply_of denom = Ok (coin (denom, supply_at supply denom));
  says_trace hash : ∃ t, denom_trace hash = Ok t
}.

Lemma concat_pages {A} (l : list A) n k m :
  concat ((λ i, take m (drop (i * m) l)) <$> seq k n) = take (n * m) (drop (k * m) l).
Proof.
  revert k. induction n as [|n IH]; intros k; [done|]. rewrite <-cons_seq, fmap_cons. cbn [concat].
  rewrite IH. replace (S n * m)%nat with (m + n * m)%nat by lia. rewrite <-take_take_drop, drop_drop. do 3 f_equal. lia.
Qed.

Section Facts.
Context {B : Bank} (supply : list (string * Z)) `{!BankSays B supply}.

(** The pages are the whole supply, whatever its length. *)
Lemma pages_supply :
  mapR (λ index, total_supply_page lcdRecordGet (Z.of_nat index * lcdRecordGet)) (seq 0 (page_count (Some (Z.of_nat (length supply))))) =
  Ok ((λ i, coin <$> take 5 (drop (i * 5) supply)) <$> seq 0 (page_count (Some (Z.of_nat (length supply))))).
Proof.
  rewrite <-mapR_pure. apply mapR_ext. intros i _. unfold lcdRecordGet. rewrite (says_page (supply := supply)) by lia.
  do 3 f_equal. f_equal. lia.
Qed.

Lemma all_pages : concat ((λ i, coin <$> take 5 (drop (i * 5) supply)) <$> seq 0 (page_count (Some (Z.of_nat (length supply))))) = coin <$> supply.
Proof.
  assert (∀ l : list nat, concat ((λ i, coin <$> take 5 (drop (i * 5) supply)) <$> l) = coin <$> concat ((λ i, take 5 (drop (i * 5) supply)) <$> l)) as Hmap.
  { induction l as [|i l IH]; [done|]. rewrite !fmap_cons. cbn [concat]. by rewrite IH, fmap_app. }
  rewrite Hmap, concat_pages, take_ge; [done|]. rewrite Nat.mul_0_l, drop_0. unfold page_count, lcdRecordGet.
  pose proof (Z.div_mod (- Z.of_nat (length supply)) 5 ltac:(done)). pose proof (Z.mod_pos_bound (- Z.of_nat (length supply)) 5 ltac:(done)).
  lia.
Qed.

(** The coins a run asks for: the supply, then the denoms of the table that are
    no longer part of it. *)
Lemma queryRpcAssets_spec d :
  queryRpcAssets d = (d, Ok ((coin <$> supply) ++ ((λ denom, coin (denom, supply_at supply denom)) <$> missingDenomAssets (coin <$> supply) d))).
Proof.
  unfold queryRpcAssets. rewrite (io_step _ _ d d (toString (Z.of_nat (length supply)))) by (unfold lift; by rewrite (says_total (supply := supply))).
  rewrite parseInt_toString by lia. rewrite pages_supply. erewrite io_step by done. rewrite all_pages. erewrite io_step by done.
  rewrite (mapR_ext _ (λ denom, Ok (coin (denom, supply_at supply denom)))) by (intros x _; apply says_of).
  by rewrite mapR_pure.
Qed.

Lemma queryRpcOriginAssets_total coins : ∃ l, queryRpcOriginAssets coins = Ok l ∧ l.*1 = coins.
Proof.
  induction coins as [|c coins (l & Hl & Hfst)]; [by exists []|].
  destruct (says_trace (supply := supply) (String.substring 4 (String.length (c_denom c) - 4) (c_denom c))) as [t Ht].
  exists ((c, origin_of t) :: l). split; [|simpl; by f_equal]. unfold queryRpcOriginAssets in *. cbn [mapR]. rewrite Ht. cbn. by rewrite Hl.
Qed.
End Facts.

Definition is_coin (a : Asset) : Prop := as_type a ∈ [TYPE.IBC_TOKEN; TYPE.FACTORY_TOKEN; TYPE.NATIVE].

Section Mirror.
Context {B : Bank} (supply : list (string * Z)) `{!BankSays B supply}.

Definition missing (d : Db) : list string := missingDenomAssets (coin <$> supply) d.
Lemma elem_of_missing_denom d denom :
  denom ∈ missing d ↔ ∃ a, asset d !! denom = Some a ∧ is_coin a ∧ as_total_supply a ≠ None ∧ as_total_supply a ≠ Some 0 ∧ denom ∉ supply.*1.
Proof.
  unfold missing, missingDenomAssets. rewrite list_elem_of_fmap. rewrite <-list_fmap_compose.
  assert (c_denom ∘ coin <$> supply = supply.*1) as -> by (by apply list_fmap_ext). split.
  - intros ([k a] & -> & [(Ht & Hn & H0 & Hs) Hin%elem_of_map_to_list]%list_elem_of_filter). by exists a.
  - intros (a & Ha & Ht & Hn & H0 & Hs). exists (denom, a). split; [done|]. apply list_elem_of_filter.
    split; [done|]. by apply elem_of_map_to_list.
Qed.

Lemma NoDup_missing d : NoDup (missing d).
Proof.
  unfold missing, missingDenomAssets. eapply sublist_NoDup; [apply (NoDup_fst_map_to_list (asset d))|].
  apply fmap_sublist, sublist_filter.
Qed.

Lemma supply_at_spec denom n : (denom, n) ∈ supply → supply_at supply denom = n.
Proof.
  intros Hin. unfold supply_at. destruct (find _ supply) as [[k m]|] eqn:Hf.
  - apply find_Some in Hf as [Hm Hk%bool_decide_eq_true]. cbn in Hk |- *. subst k. assert ((denom, m) = (denom, n)) as Heq; [|by injection Heq].
    by apply (NoDup_fmap_key fst supply); [apply (says_once (supply := supply))|..].
  - apply find_None in Hf. rewrite Forall_forall in Hf. specialize (Hf _ Hin). by apply bool_decide_eq_false in Hf.
Qed.
Lemma supply_at_none denom : denom ∉ supply.*1 → supply_at supply denom = 0.
Proof.
  intros Hn. unfold supply_at. destruct (find _ supply) as [[k m]|] eqn:Hf; [|done].
  apply find_Some in Hf as [Hm Hk%bool_decide_eq_true]. cbn in Hk. subst k. destruct Hn. by apply (list_elem_of_fmap_2 fst) in Hm.
Qed.

(** The contracts a run can store beside the coins. *)
Record cw20_ok (d : Db) : Prop := {
  co_once : NoDup (cw_address <$> cw20_contract d);
  co_coin c : c ∈ cw20_contract d → cw_address c ∉ supply.*1;
  co_type c a : c ∈ cw20_contract d → asset d !! cw_address c = Some a → as_type a = TYPE.CW20_TOKEN;
  co_supply c : c ∈ cw20_contract d → ∃ s, total_supply (cw20_asset c) = Ok s
}.

Lemma cw20_not_missing d c : cw20_ok d → c ∈ cw20_contract d → cw_address c ∉ missing d.
Proof.
  intros Hok Hc (a & Ha & Ht & _)%elem_of_missing_denom. unfold is_coin in Ht. rewrite (co_type d Hok c a Hc Ha) in Ht. set_solver.
Qed.

(** The rows of a run. *)
Lemma job_rows now d : cw20_ok d → ∃ coins t',
  jobUpdateAssets now d = (set_assets t' d, Ok tt) ∧
  c_denom <$> coins.*1 = supply.*1 ++ missing d ∧
  (∀ c o, (c, o) ∈ coins → c_amount c = toString (supply_at supply (c_denom c))) ∧
  (∀ r s, r ∈ (coin_asset <$> coins) ++ (cw20_asset <$> cw20_contract d) → total_supply r = Ok s →
     t' !! na_denom r = Some (merge_asset now ((coin_asset <$> coins) ++ (cw20_asset <$> cw20_contract d)) r s (asset d !! na_denom r))) ∧
  (∀ k, k ∉ supply.*1 → k ∉ missing d → k ∉ cw_address <$> cw20_contract d → t' !! k = asset d !! k).
Proof.
  intros Hok. set (cs := (coin <$> supply) ++ ((λ denom, coin (denom, supply_at supply denom)) <$> missing d)).
  destruct (queryRpcOriginAssets_total supply cs) as (coins & Horigin & Hcs).
  assert (c_denom <$> cs = supply.*1 ++ missing d) as Hdenoms.
  { unfold cs. rewrite fmap_app, <-!list_fmap_compose. f_equal. rewrite <-(list_fmap_id (missing d)) at 2. by apply list_fmap_ext. }
  set (rows := (coin_asset <$> coins) ++ (cw20_asset <$> cw20_contract d)).
  assert (na_denom <$> rows = (supply.*1 ++ missing d) ++ (cw_address <$> cw20_contract d)) as Hrows.
  { unfold rows. rewrite fmap_app, <-!list_fmap_compose. f_equal. by rewrite <-Hdenoms, <-Hcs, <-list_fmap_compose. }
  assert (∀ c o, (c, o) ∈ coins → c_amount c = toString (supply_at supply (c_denom c))) as Hamount.
  { intros c o Hc. apply (list_elem_of_fmap_2 fst) in Hc. rewrite Hcs in Hc. cbn in Hc. unfold cs in Hc.
    apply elem_of_app in Hc as [([k n] & -> & Hin)%list_elem_of_fmap|(k & -> & _)%list_elem_of_fmap]; [|done].
    cbn. by rewrite (supply_at_spec k n). }
  destruct (upsert_assets_Ok now rows d) as (t' & Hup & Hnew & Hold).
  { rewrite Hrows. apply NoDup_app. split_and!; [|intros k Hk Hk'; apply list_elem_of_fmap in Hk' as (c & -> & Hc); apply elem_of_app in Hk as [Hk|Hk]|apply Hok].
    - apply NoDup_app. split_and!; [apply (says_once (supply := supply))| |apply NoDup_missing].
      intros k Hk Hm. by apply elem_of_missing_denom in Hm as (a & _ & _ & _ & _ & Hn).
    - by apply (co_coin d Hok c).
    - by apply (cw20_not_missing d c). }
  { intros r [([c o] & -> & Hc)%list_elem_of_fmap|(c & -> & Hc)%list_elem_of_fmap]%elem_of_app; [|by apply (co_supply d Hok)].
    exists (Some (supply_at supply (c_denom c))). unfold total_supply. cbn. by rewrite (Hamount c o Hc), BigInt_toString. }
  exists coins, t'. split; [|split; [by rewrite Hcs|split; [done|split; [done|]]]].
  - unfold jobUpdateAssets. rewrite (io_step _ _ _ _ _ (queryRpcAssets_spec supply d)). fold (missing d). fold cs.
    rewrite Horigin. erewrite io_step by done. erewrite io_step by done. cbv zeta. fold rows.
    case_bool_decide as Hlen.
    + unfold commit. by rewrite Hup.
    + assert (rows = []) as Hnil by (destruct rows; [done|simpl in Hlen; lia]). unfold upsert_assets in Hup. rewrite Hnil in Hup.
      injection Hup as <-. by destruct d.
  - intros k H1 H2 H3. apply Hold. rewrite Hrows, !elem_of_app. tauto.
Qed.
End Mirror.

Section MirrorFacts.
Context {B : Bank} (supply : list (string * Z)) `{!BankSays B supply}.

Lemma coin_row d coins denom :
  c_denom <$> coins.*1 = supply.*1 ++ missing supply d →
  (∀ c o, (c, o) ∈ coins → c_amount c = toString (supply_at supply (c_denom c))) →
  denom ∈ supply.*1 ++ missing supply d → ∃ o,
  coin_asset ({| c_denom := denom; c_amount := toString (supply_at supply denom) |}, o) ∈
    (coin_asset <$> coins) ++ (cw20_asset <$> cw20_contract d).
Proof.
  intros Hd Ha Hin. rewrite <-Hd, <-list_fmap_compose in Hin. apply list_elem_of_fmap in Hin as ([c o] & -> & Hc). exists o. cbn.
  apply elem_of_app. left. apply list_elem_of_fmap. exists (c, o). split; [|done]. rewrite <-(Ha c o Hc). by destruct c.
Qed.

(** C26: After a run the coins of the table have the supply of the chain, those that
    are no longer in circulation included, whose supply is zero; the CW20 assets
    are those of the contracts; prices and all other assets stay. *)
Theorem assets_mirror_supply now d :
  cw20_ok supply d →
  ∃ d', jobUpdateAssets now d = (d', Ok tt) ∧
    (∀ denom n, (denom, n) ∈ supply → ∃ a, asset d' !! denom = Some a ∧ as_total_supply a = Some n ∧
       as_type a = coin_type denom ∧ as_price a = (asset d !! denom ≫= as_price)) ∧
    (∀ denom a, asset d !! denom = Some a → is_coin a → denom ∉ supply.*1 → as_total_supply a ≠ None →
       ∃ a', asset d' !! denom = Some a' ∧ as_total_supply a' = Some 0) ∧
    (∀ c s, c ∈ cw20_contract d → total_supply (cw20_asset c) = Ok s → ∃ a, asset d' !! cw_address c = Some a ∧
       as_type a = TYPE.CW20_TOKEN ∧ as_total_supply a = s ∧ as_decimal a = cw_decimal c ∧ as_name a = cw_name c) ∧
    (∀ k, k ∉ supply.*1 → (∀ a, asset d !! k = Some a → ¬ is_coin a) → k ∉ cw_address <$> cw20_contract d →
       asset d' !! k = asset d !! k).
Proof.
  intros Hok. destruct (job_rows supply now d Hok) as (coins & t' & Hrun & Hdenoms & Hamount & Hnew & Hold).
  exists (set_assets t' d). split; [exact Hrun|]. cbn [asset set_assets]. split; [|split; [|split]].
  - intros denom n Hin. destruct (coin_row d coins denom Hdenoms Hamount) as [o Ho].
    { apply elem_of_app. left. by apply (list_elem_of_fmap_2 fst) in Hin. }
    eexists. split; [apply (Hnew _ (Some n) Ho); unfold total_supply; cbn; by rewrite (supply_at_spec supply denom n Hin), BigInt_toString|done].
  - intros denom a Hd Hc Hn Hs. destruct (decide (as_total_supply a = Some 0)) as [H0|Hne].
    + exists a. split; [|done]. rewrite Hold; [done|done|by intros (a' & ? & _ & _ & ? & _)%elem_of_missing_denom; simplify_eq|].
      intros (c & -> & Hin)%list_elem_of_fmap. unfold is_coin in Hc. rewrite (co_type supply d Hok c a Hin Hd) in Hc. set_solver.
    + destruct (coin_row d coins denom Hdenoms Hamount) as [o Ho].
      { apply elem_of_app. right. apply elem_of_missing_denom. by exists a. }
      eexists. split; [apply (Hnew _ (Some 0) Ho); unfold total_supply; cbn; by rewrite (supply_at_none supply denom Hn)|done].
  - intros c s Hc Hs. assert (cw20_asset c ∈ (coin_asset <$> coins) ++ (cw20_asset <$> cw20_contract d)) as Hin
      by (apply elem_of_app; right; by apply list_elem_of_fmap_2).
    eexists. split; [exact (Hnew _ s Hin Hs)|]. cbn [merge_asset as_type as_total_supply as_decimal as_name]. split_and!; try done.
    + unfold column, has_key. rewrite (proj2 (existsb_exists _ _)); [done|]. exists (cw20_asset c). split; [by apply list_elem_of_In|done].
    + unfold column, has_key. rewrite (proj2 (existsb_exists _ _)); [done|]. exists (cw20_asset c). split; [by apply list_elem_of_In|done].
  - intros k Hs Hk Hc. apply Hold; [done| |done]. intros (a & Ha & Ht & _)%elem_of_missing_denom. by apply (Hk a Ha).
Qed.

(** When there is a CW20 contract the statement has the columns decimal and
    name, which the coins have no value for: every run empties them. *)
Theorem coin_names_cleared now d denom n :
  cw20_ok supply d → cw20_contract d ≠ [] → (denom, n) ∈ supply →
  ∃ a, asset (jobUpdateAssets now d).1 !! denom = Some a ∧ as_decimal a = None ∧ as_name a = None.
Proof.
  intros Hok Hne Hin. destruct (job_rows supply now d Hok) as (coins & t' & Hrun & Hdenoms & Hamount & Hnew & _).
  rewrite Hrun. cbn [fst asset set_assets]. destruct (coin_row d coins denom Hdenoms Hamount) as [o Ho].
  { apply elem_of_app. left. by apply (list_elem_of_fmap_2 fst) in Hin. }
  eexists. split; [apply (Hnew _ (Some n) Ho); unfold total_supply; cbn; by rewrite (supply_at_spec supply denom n Hin), BigInt_toString|].
  destruct (cw20_contract d) as [|c l] eqn:Hc; [done|].
  assert (∀ f, is_Some (f (cw20_asset c)) → has_key (A := option string) f ((coin_asset <$> coins) ++ (cw20_asset <$> c :: l)) = true) as Hkey.
  { intros f Hf. apply existsb_exists. exists (cw20_asset c). split; [|by apply bool_decide_eq_true].
    apply list_elem_of_In, elem_of_app. right. left. }
  cbn [merge_asset as_decimal as_name]. unfold column. by rewrite !Hkey by (by eexists).
Qed.
End MirrorFacts.

(** Two contracts with one address, or a contract named like a denom, stop the
    job: a row would be written twice by one statement. *)
Theorem repeated_asset_stops_job {B : Bank} now d coins :
  queryRpcAssets d = (d, Ok coins) → (∃ l, queryRpcOriginAssets coins = Ok l ∧ l.*1 = coins) →
  ¬ NoDup ((c_denom <$> coins) ++ (cw_address <$> cw20_contract d)) →
  ∃ msg, jobUpdateAssets now d = (d, Throw msg).
Proof.
  intros Hq (l & Hl & Hfst) Hnd. eexists. unfold jobUpdateAssets. rewrite (io_step _ _ _ _ _ Hq), Hl.
  erewrite io_step by done. erewrite io_step by done. cbv zeta.
  assert (na_denom <$> (coin_asset <$> l) ++ (cw20_asset <$> cw20_contract d) = (c_denom <$> coins) ++ (cw_address <$> cw20_contract d)) as Hd.
  { rewrite fmap_app, <-!list_fmap_compose. f_equal. by rewrite <-Hfst, <-list_fmap_compose. }
  case_bool_decide as Hlen.
  - unfold commit, upsert_assets. rewrite bool_decide_false by (by rewrite Hd). reflexivity.
  - destruct Hnd. rewrite <-Hd. destruct ((coin_asset <$> l) ++ (cw20_asset <$> cw20_contract d)); [constructor|simpl in Hlen; lia].
Qed.

(** The ERC-20 assets are those of the contracts. *)
Theorem erc20_assets_stored now d :
  NoDup (ec_address <$> erc20_contracts d) → (∀ c, c ∈ erc20_contracts d → ∃ s, total_supply (erc20_asset c) = Ok s) →
  ∃ d', jobUpdateEvmAssets now d = (d', Ok tt) ∧
    (∀ c s, c ∈ erc20_contracts d → total_supply (erc20_asset c) = Ok s → ∃ a, asset d' !! ec_address c = Some a ∧
       as_type a = TYPE.ERC20_TOKEN ∧ as_total_supply a = s) ∧
    (∀ k, k ∉ ec_address <$> erc20_contracts d → asset d' !! k = asset d !! k).
Proof.
  intros Hnd Hok. set (rows := erc20_asset <$> erc20_contracts d).
  assert (na_denom <$> rows = ec_address <$> erc20_contracts d) as Hrows by (unfold rows; by rewrite <-list_fmap_compose).
  destruct (upsert_assets_Ok now rows d) as (t' & Hup & Hnew & Hold).
  { by rewrite Hrows. }
  { intros r (c & -> & Hc)%list_elem_of_fmap. by apply Hok. }
  unfold jobUpdateEvmAssets. rewrite (io_step _ _ d d (erc20_contracts d)) by done. cbv zeta. fold rows. case_bool_decide as Hlen.
  - exists (set_assets t' d). split; [unfold commit; by rewrite Hup|]. cbn. split.
    + intros c s Hc Hs. eexists. split; [apply (Hnew (erc20_asset c) s); [by apply list_elem_of_fmap_2|done]|done].
    + intros k Hk. apply Hold. by rewrite Hrows.
  - exists d. split; [done|]. split; [|done]. intros c s Hc. assert (rows = []) as Hnil by (destruct rows; [done|simpl in Hlen; lia]).
    unfold rows in Hnil. apply fmap_nil_inv in Hnil. rewrite Hnil in Hc. by apply not_elem_of_nil in Hc.
Qed.

(** ** An example: two pages of coins, a coin that is gone, a CW20 token. *)
Definition demo_supply : list (string * Z) :=
  [("uaura", 100); ("ibc/A", 5); ("ibc/B", 6); ("factory/aura1/x", 7); ("ibc/C", 8); ("ibc/D", 9)].
#[local] Instance demo_bank : Bank := {|
  count_total := Ok (toString (Z.of_nat (length demo_supply)));
  total_supply_page limit offset := Ok (coin <$> take (Z.to_nat limit) (drop (Z.to_nat offset) demo_supply));
  supply_of denom := Ok (coin (denom, supply_at demo_supply denom));
  denom_trace hash := Ok (if bool_decide (hash = "A") then Some (Some "transfer/channel-7/transfer/channel-1") else None)
|}.
#[local] Instance demo_bank_says : BankSays demo_bank demo_supply.
Proof.
  split; try done.
  - apply (bool_decide_unpack _). vm_compute. exact I.
  - intros hash. by eexists.
Qed.
Definition demo_asset (type : string) (supply : Z) : Asset := {|
  as_type := type; as_decimal := Some "6"; as_name := Some "name"; as_price := Some 3; as_total_supply := Some supply;
  as_origin_id := None; as_updated_at := 0 |}.
Definition demo_db : Db := {|
  asset := list_to_map [("uaura", demo_asset TYPE.NATIVE 99); ("ibc/E", demo_asset TYPE.IBC_TOKEN 4);
                        ("0xc", demo_asset TYPE.ERC20_TOKEN 1)];
  cw20_contract := [ {| cw_address := "aura1c"; cw_total_supply := Some "50"; cw_id := 3; cw_decimal := Some "6"; cw_name := Some "token" |} ];
  erc20_contracts := [] |}.

Example demo_run :
  let t := asset (jobUpdateAssets 1 demo_db).1 in
  (λ k, t !! k ≫= as_total_supply) <$> ["uaura"; "ibc/A"; "ibc/D"; "ibc/E"; "aura1c"; "0xc"]
  = [Some 100; Some 5; Some 9; Some 0; Some 50; Some 1] ∧
  (λ k, t !! k ≫= as_origin_id) <$> ["ibc/A"; "aura1c"] = [Some "channel-7"; Some "3"] ∧
  (λ k, t !! k ≫= as_name) <$> ["uaura"; "aura1c"; "0xc"] = [None; Some "token"; Some "name"].
Proof. split; [vm_compute; reflexivity|]. split; vm_compute; reflexivity. Qed.

Lemma demo_cw20_ok : cw20_ok demo_supply demo_db.
Proof.
  split.
  - apply NoDup_singleton.
  - intros c ->%list_elem_of_singleton. apply (bool_decide_unpack _). vm_compute. exact I.
  - intros c a ->%list_elem_of_singleton Ha. vm_compute in Ha. done.
  - intros c ->%list_elem_of_singleton. exists (Some 50). reflexivity.
Qed.

Lemma assets_mirror_supply_witness :
  ∃ d', jobUpdateAssets 1 demo_db = (d', Ok tt) ∧
    (∃ a, asset d' !! "uaura" = Some a ∧ as_total_supply a = Some 100 ∧ as_price a = Some 3) ∧
    (∃ a, asset d' !! "ibc/E" = Some a ∧ as_total_supply a = Some 0).
Proof.
  destruct (assets_mirror_supply demo_supply 1 demo_db demo_cw20_ok) as (d' & Hrun & Hcoins & Hgone & _).
  exists d'. split; [exact Hrun|]. split.
  - destruct (Hcoins "uaura" 100) as (a & Ha & Hs & _ & Hp); [by left|]. exists a. split; [exact Ha|]. split; [exact Hs|].
    rewrite Hp. vm_compute. reflexivity.
  - apply (Hgone "ibc/E" (demo_asset TYPE.IBC_TOKEN 4)).
    + vm_compute. reflexivity.
    + apply (bool_decide_unpack _). vm_compute. exact I.
    + apply (bool_decide_unpack _). vm_compute. exact I.
    + done.
Defined.
