(* ===== verification/Verify.v ===== *)
(** * Verification of EVM contracts

    [services/evm/verify_contract_evm.service.ts]: the files of a request are
    split into metadata and sources, the sources a contract needs are found by
    their hash, and a contract that matches the code on the chain is recorded.
    [job/insert_verify_by_codehash.service.ts] copies a verification to the
    contracts with the same code, [job/sync_sourcify.service.ts] those of
    Sourcify, and [evm_signature_mapping.service.ts] stores the signatures of
    a verified ABI.  Sourcify's library, ethers and viem are classes; texts
    are their UTF-8 bytes. *)
From Stdlib Require Import Ascii.
From S2P Require Import Prelude JsNum IdPages Checkpoint EvmContracts Json.

(** ** Files *)
Record PathBuffer := { pb_path : string; pb_buffer : string }.      (* the bytes *)
Record PathContent := { pc_path : string; pc_content : string }.
Record MissingSource := { ms_keccak256 : option Json; ms_urls : option Json }.
Record InvalidSource := { is_expectedHash : option Json; is_calculatedHash : string }.
Record Recompiled := { rc_metadata : string; rc_runtimeBytecode : string }.

(** [@ethereum-sourcify/lib-sourcify]; [None] as a match is [null]. *)
Class Sourcify := {
  Checked : Type;
  unzipFiles : list PathBuffer → res (list PathBuffer);
  extractHardhatMetadataAndSources : PathContent → res (list Json * list PathContent);
  storeByHash : list PathContent → gmap string PathContent;
  newCheckedContract : Json → gmap string Json → gmap string MissingSource → gmap string InvalidSource → res Checked;
  isValid : Checked → bool;
  fetchMissing : Checked → Checked;                 (* what it changes, also when it throws *)
  isEmpty {A} : gmap string A → bool;
  c_missing : Checked → gmap string MissingSource;
  c_invalid : Checked → gmap string InvalidSource;
  c_name : Checked → string;
  c_compilerVersion : Checked → option string;
  c_metadata_version : Checked → option string;     (* contract.metadata.compiler.version *)
  c_metadata_settings : Checked → option Json;
  set_compilerVersion : option string → Checked → res Checked;    (* and metadata.compiler.version *)
  verifyDeployed : Checked → string → res (option string);        (* the runtimeMatch *)
  recompile : bool → Checked → res Recompiled
}.
(** [JSON.parse], [Buffer.toString], keccak256 of viem and [lt] of semver. *)
Class Tools := {
  parse_json : string → res Json;
  buffer_text : string → string;
  source_hash : Json → res string;                  (* keccak256(toBytes(content)) *)
  bytecode_hash : string → res string;
  before_0_4_10 : option string → res bool
}.

(** ** Regular expressions *)
Definition quote : string := String "034"%char "".
Fixpoint contains (p s : string) : bool :=
  String.prefix p s || match s with EmptyString => false | String _ s => contains p s end.
Definition HARDHAT_OUTPUT_FORMAT : string := quote +:+ "hh-sol-build-info-1" +:+ quote.
(** The rest of a text starts with a line terminator, U+2028 and U+2029 included. *)
Definition line_end (s : string) : bool :=
  String.prefix (String "010"%char "") s || String.prefix (String "013"%char "") s ||
  String.prefix (String "226"%char (String "128"%char (String "168"%char ""))) s ||
  String.prefix (String "226"%char (String "128"%char (String "169"%char ""))) s.
(** [.*?stop] at the start of a text. *)
Fixpoint lazily (stop s : string) : option string :=
  if String.prefix stop s then Some stop else
  match s with
  | EmptyString => None
  | String c s' => if line_end s then None else String c <$> lazily stop s'
  end.
Definition NESTED_START : string :=
  quote +:+ "{\" +:+ quote +:+ "compiler\" +:+ quote +:+ ":{\" +:+ quote +:+ "version\" +:+ quote.
Definition NESTED_END : string := "},\" +:+ quote +:+ "version\" +:+ quote +:+ ":1}" +:+ quote.
Definition drop_text (n : nat) (s : string) : string := String.substring n (String.length s - n) s.
(** The leftmost match of NESTED_METADATA_REGEX. *)
Fixpoint nested_metadata (s : string) : option string :=
  match (if String.prefix NESTED_START s then lazily NESTED_END (drop_text (String.length NESTED_START) s) else None) with
  | Some m => Some (NESTED_START +:+ m)
  | None => match s with EmptyString => None | String _ s => nested_metadata s end
  end.

(** ** Splitting the files *)
Definition isMetadata (obj : Json) : bool :=
  let o := Some obj in
  match opt_get o "language" with Some (JStr s) => bool_decide (s = "Solidity") | _ => false end &&
  is_truthy (opt_get (opt_get o "settings") "compilationTarget") && is_truthy (opt_get o "version") &&
  is_truthy (opt_get (opt_get o "output") "abi") && is_truthy (opt_get (opt_get o "output") "userdoc") &&
  is_truthy (opt_get (opt_get o "output") "devdoc") && is_truthy (opt_get o "sources").
Definition isZip (file : string) : bool :=
  let at_byte n := Z.of_N ∘ N_of_ascii <$> String.get n file in
  bool_decide (at_byte 0%nat = Some 80) && bool_decide (at_byte 1%nat = Some 75) &&
  bool_decide (at_byte 2%nat ∈ [Some 3; Some 5; Some 7]) && bool_decide (at_byte 3%nat ∈ [Some 4; Some 6; Some 8]).
(** The error [assertObjectSize] throws. *)
Definition assertObjectSize (object : option Json) (expectedSize : nat) : res () :=
  match object with
  | Some v => if json_truthy v then
                if bool_decide (length (json_entries v) = expectedSize) then Ok tt
                else Throw "Error in size assertion!"
              else Throw "Cannot assert"
  | None => Throw "Cannot assert"
  end.

Section Files.
Context {S : Sourcify} {T : Tools}.

Definition isJson (file : string) : bool := is_ok (parse_json (buffer_text file)).
Definition extractMetadataFromString (file : string) : option Json :=
  match parse_json file with
  | Throw _ => None
  | Ok obj =>
      if isMetadata obj then Some obj else
      match parse_json (json_string obj) with
      | Ok obj => if isMetadata obj then Some obj else None
      | Throw _ => None
      end
  end.

Record Split := { sp_metadata : list Json; sp_sources : list PathContent; sp_malformed : list string }.
Definition metadata_of (file : PathContent) : option Json :=
  match extractMetadataFromString (pc_content file) with
  | Some m => Some m
  | None => nested_metadata (pc_content file) ≫= extractMetadataFromString
  end.
Definition split_file (st : Split) (file : PathContent) : res Split :=
  if contains HARDHAT_OUTPUT_FORMAT (pc_content file) then
    '(metadata, sources) ← extractHardhatMetadataAndSources file;
    Ok {| sp_metadata := sp_metadata st ++ metadata; sp_sources := sp_sources st ++ sources; sp_malformed := sp_malformed st |}
  else
    match metadata_of file with
    | Some metadata =>
        if is_ok (assertObjectSize (opt_get (opt_get (Some metadata) "settings") "compilationTarget") 1) then
          Ok {| sp_metadata := sp_metadata st ++ [metadata]; sp_sources := sp_sources st; sp_malformed := sp_malformed st |}
        else
          Ok {| sp_metadata := sp_metadata st; sp_sources := sp_sources st; sp_malformed := sp_malformed st ++ [pc_path file] |}
    | None => Ok {| sp_metadata := sp_metadata st; sp_sources := sp_sources st ++ [file]; sp_malformed := sp_malformed st |}
    end.
Definition malformed_message (malformed : list string) : string :=
  "Couldn't parse metadata files or they are malformed. Can't find settings.compilationTarget or multiple compilationTargets in: " +:+
  (if forallb (λ p, negb (bool_decide (p = ""))) malformed then String.concat ", " malformed
   else toString (Z.of_nat (length malformed)) +:+ " metadata files").
Definition splitFiles (files : list PathContent) : res (list Json * list PathContent) :=
  st ← forEachM split_file {| sp_metadata := []; sp_sources := []; sp_malformed := [] |} files;
  if negb (bool_decide (sp_malformed st = [])) then Throw (malformed_message (sp_malformed st)) else
  if bool_decide (sp_metadata st = []) then Throw ("Metadata file not found. Did you include " +:+ quote +:+ "metadata.json" +:+ quote +:+ "?") else
  Ok (sp_metadata st, sp_sources st).
End Files.

(** ** Finding the sources *)
Record Rearranged := {
  foundSources : gmap string Json; missingSources : gmap string MissingSource; invalidSources : gmap string InvalidSource;
  metadata2provided : gmap string string }.
Definition rearranged_empty : Rearranged := {|
  foundSources := ∅; missingSources := ∅; invalidSources := ∅; metadata2provided := ∅ |}.
Definition add_found p c r : Rearranged := {|
  foundSources := <[p := c]> (foundSources r); missingSources := missingSources r; invalidSources := invalidSources r;
  metadata2provided := metadata2provided r |}.
Definition add_missing p m r : Rearranged := {|
  foundSources := foundSources r; missingSources := <[p := m]> (missingSources r); invalidSources := invalidSources r;
  metadata2provided := metadata2provided r |}.
Definition add_invalid p i r : Rearranged := {|
  foundSources := foundSources r; missingSources := missingSources r; invalidSources := <[p := i]> (invalidSources r);
  metadata2provided := metadata2provided r |}.
Definition add_provided p f r : Rearranged := {|
  foundSources := foundSources r; missingSources := missingSources r; invalidSources := invalidSources r;
  metadata2provided := <[p := f]> (metadata2provided r) |}.

Section Sources.
Context {S : Sourcify} {T : Tools}.

(** [contentHash === expectedHash] *)
Definition is_hash (h : string) (o : option Json) : bool :=
  match o with Some (JStr s) => bool_decide (s = h) | _ => false end.
Definition missing_of (info expectedHash : option Json) : MissingSource := {|
  ms_keccak256 := expectedHash; ms_urls := opt_get info "urls" |}.
(** The source of a path is among the given files, by its hash. *)
Definition provided_step (byHash : gmap string PathContent) (sourcePath : string) (info expectedHash : option Json)
    (r : Rearranged) : Rearranged :=
  match match expectedHash with Some (JStr h) => byHash !! h | _ => None end with
  | Some pathContent =>
      let r := add_provided sourcePath (pc_path pathContent) r in
      if bool_decide (pc_content pathContent = "") then add_missing sourcePath (missing_of info expectedHash) r
      else add_found sourcePath (JStr (pc_content pathContent)) r
  | None => add_missing sourcePath (missing_of info expectedHash) r
  end.
Definition source_step (byHash : gmap string PathContent) (r : Rearranged) (entry : string * option Json) : res Rearranged :=
  let '(sourcePath, info) := entry in
  expectedHash ← json_get info "keccak256";
  content ← json_get info "content";
  if is_truthy content then
    contentHash ← source_hash (default JNull content);
    if is_hash contentHash expectedHash then Ok (add_found sourcePath (default JNull content) r)
    else Ok (add_invalid sourcePath {| is_expectedHash := expectedHash; is_calculatedHash := contentHash |} r)
  else Ok (provided_step byHash sourcePath info expectedHash r).
(** [for (const sourcePath in metadata.sources)]: nothing is listed of [null]
    and [undefined]. *)
Definition rearrangeSources (metadata : Json) (byHash : gmap string PathContent) : res Rearranged :=
  sources ← json_get (Some metadata) "sources";
  forEachM (source_step byHash) rearranged_empty (from_option json_entries [] sources).

Definition extractUnused (inputFiles : list PathContent) (usedFiles : list string) : list string :=
  filter (λ path, path ∉ usedFiles) (pc_path <$> inputFiles).
Definition check_metadata (byHash : gmap string PathContent) (metadata : Json) : res (Checked * list string) :=
  r ← rearrangeSources metadata byHash;
  c ← newCheckedContract metadata (foundSources r) (missingSources r) (invalidSources r);
  Ok (c, (map_to_list (metadata2provided r)).*2).
(** The contracts, and the paths of the files that none of them uses. *)
Definition checkFiles (files : list PathBuffer) : res (list Checked * list string) :=
  files ← unzipFiles files;
  '(metadataFiles, sourceFiles) ← splitFiles ((λ f, {| pc_path := pb_path f; pc_content := buffer_text (pb_buffer f) |}) <$> files);
  checked ← mapR (check_metadata (storeByHash sourceFiles)) metadataFiles;
  Ok (checked.*1, extractUnused sourceFiles (checked ≫= snd)).

(** ** Verifying a request *)
Definition checkAndFetchMissing (contract : Checked) : Checked := if isValid contract then contract else fetchMissing contract.
Definition isVerifiable (contract : Checked) : bool := isEmpty (c_missing contract) && isEmpty (c_invalid contract).
End Sources.

Inductive VERIFICATION_STATUS := PENDING | FAIL | SUCCESS.
#[export] Instance VERIFICATION_STATUS_eq_dec : EqDecision VERIFICATION_STATUS.
Proof. solve_decision. Defined.

(** An element of the column compile_detail. *)
Inductive CompileDetail :=
| Tried (name : string) (missing : gmap string MissingSource) (invalid : gmap string InvalidSource)
    (error : option string) (runtimeMatch : option (option string))
| InvalidFileType
| Failed (error : string)
| SyncedFrom (id : Z)
| SourcifySync.

Record EVMContractVerification := {
  cv_id : Z; cv_contract_address : string; cv_files : option string; cv_creator_tx_hash : option string;
  cv_status : VERIFICATION_STATUS; cv_abi : option Json; cv_code_hash : option string;
  cv_compile_detail : option (list CompileDetail); cv_compiler_version : option string; cv_contract_name : option string;
  cv_compiler_setting : option Json }.

(** The columns a patch sets; [None] leaves a column that is not set. *)
Inductive Patch :=
| Verified (abi : option Json) (code_hash : string) (compile_detail : list CompileDetail) (compiler_version : option string)
    (contract_name : string) (compiler_setting : option Json)
| Rejected (compile_detail : list CompileDetail) (code_hash : option string).

(** The variables of a request that its contracts share. *)
Record Attempt := { at_codeHash : option string; at_details : list CompileDetail }.
Definition push_detail (c : CompileDetail) (a : Attempt) : Attempt := {|
  at_codeHash := at_codeHash a; at_details := at_details a ++ [c] |}.
Definition set_codeHash (h : string) (a : Attempt) : Attempt := {| at_codeHash := Some h; at_details := at_details a |}.

Section Request.
Context {S : Sourcify} {T : Tools}.

Definition is_match (runtimeMatch : option string) : bool :=
  match runtimeMatch with Some m => bool_decide (m ∈ ["perfect"; "partial"]) | None => false end.
Definition tried (contract : Checked) : option string → option (option string) → CompileDetail :=
  Tried (c_name contract) (c_missing contract) (c_invalid contract).
(** One contract of the files: its patch when it is the one deployed. *)
Definition tryContract (r : EVMContractVerification) (contract : Checked) : io Attempt (option Patch) :=
  contract ← (if truthy_str (c_compilerVersion contract) then mret contract
              else lift (set_compilerVersion (cv_compiler_version r) contract));
  let contract := checkAndFetchMissing contract in
  if negb (isVerifiable contract) then update (push_detail (tried contract None None));; mret None else
  match verifyDeployed contract (cv_contract_address r) with
  | Throw e => update (push_detail (tried contract (Some e) None));; mret None
  | Ok runtimeMatch =>
      old ← lift (before_0_4_10 (c_metadata_version contract));
      let useEmscripten := old || contains "nightly" (default "" (c_metadata_version contract)) in
      recompiled ← lift (recompile useEmscripten contract);
      metadata ← lift (parse_json (rc_metadata recompiled));
      output ← lift (json_get (Some metadata) "output");
      abi ← lift (json_get output "abi");
      codeHash ← lift (bytecode_hash (rc_runtimeBytecode recompiled));
      update (set_codeHash codeHash);;
      update (push_detail (tried contract None (Some runtimeMatch)));;
      a ← query id;
      mret (if is_match runtimeMatch
            then Some (Verified abi codeHash (at_details a) (c_compilerVersion contract) (c_name contract) (c_metadata_settings contract))
            else None)
  end.
Fixpoint tryContracts (r : EVMContractVerification) (contracts : list Checked) : io Attempt (option Patch) :=
  match contracts with
  | [] => mret None
  | contract :: contracts =>
      p ← tryContract r contract;
      match p with Some p => mret (Some p) | None => tryContracts r contracts end
  end.
Definition verifyFiles (r : EVMContractVerification) : io Attempt (option Patch) :=
  match cv_files r with
  | None => throw "TypeError: Cannot read properties of null"
  | Some files =>
      if isZip files || isJson files then
        '(contracts, _) ← lift (checkFiles [{| pb_path := toString (cv_id r); pb_buffer := files |}]);
        tryContracts r contracts
      else update (push_detail InvalidFileType);; throw "this is not zip/json file"
  end.
(** The patch of a verified request, or that of a rejected one. *)
Definition verifyRequest (r : EVMContractVerification) : Patch :=
  match verifyFiles r {| at_codeHash := None; at_details := [] |} with
  | (_, Ok (Some p)) => p
  | (a, Ok None) => Rejected (at_details a) (at_codeHash a)
  | (a, Throw e) => Rejected (at_details a ++ [Failed e]) (at_codeHash a)
  end.
End Request.

(** ** The job *)
Definition VERIFY_CONTRACT_EVM := "verify:contract-evm".
Definition jobVerifyContractEVM_recordsPerCall : nat := 100.

Record SourcifyMatch := {
  sm_id : Z; sm_runtime_match : option string; sm_chain_id : string; sm_address : option string;
  sm_transaction_hash : option string; sm_version : option string; sm_name : option string; sm_runtime_code_hash : option string;
  sm_compilation_artifacts : Json; sm_compiler_settings : Json; sm_sources : Json }.
Record EvmSignatureMapping := { topic_hash : string; human_readable_topic : string; function_id : option string }.

Record Db := {
  verifications : list EVMContractVerification; next_verification : Z;
  smart_contracts : list EVMSmartContract;
  signature_jobs : list string;             (* handle:evm-signature-mapping, by contract_address *)
  signatures : gmap string EvmSignatureMapping;
  sourcify_matches : list SourcifyMatch;    (* of the database of Sourcify, by id *)
  block_checkpoint : gmap string Z
}.
Definition set_verifications (l : list EVMContractVerification) (next : Z) (d : Db) : Db := {|
  verifications := l; next_verification := next; smart_contracts := smart_contracts d; signature_jobs := signature_jobs d;
  signatures := signatures d; sourcify_matches := sourcify_matches d; block_checkpoint := block_checkpoint d |}.
Definition set_signature_jobs (l : list string) (d : Db) : Db := {|
  verifications := verifications d; next_verification := next_verification d; smart_contracts := smart_contracts d;
  signature_jobs := l; signatures := signatures d; sourcify_matches := sourcify_matches d; block_checkpoint := block_checkpoint d |}.
Definition set_signatures (s : gmap string EvmSignatureMapping) (d : Db) : Db := {|
  verifications := verifications d; next_verification := next_verification d; smart_contracts := smart_contracts d;
  signature_jobs := signature_jobs d; signatures := s; sourcify_matches := sourcify_matches d; block_checkpoint := block_checkpoint d |}.
#[export] Instance Db_checkpoints : HasCheckpoints Db := block_checkpoint.
#[export] Program Instance Db_set_checkpoints : SetCheckpoints Db := {|
  set_checkpoints t d := {|
    verifications := verifications d; next_verification := next_verification d; smart_contracts := smart_contracts d;
    signature_jobs := signature_jobs d; signatures := signatures d; sourcify_matches := sourcify_matches d; block_checkpoint := t |}
|}.
Next Obligation. done. Qed.
Definition set_checkpoint (job : string) (h : Z) (d : Db) : Db := set_checkpoints (<[job := h]> (block_checkpoint d)) d.

Definition set_column {A} (new old : option A) : option A := match new with Some _ => new | None => old end.
Definition apply_patch (p : Patch) (r : EVMContractVerification) : EVMContractVerification :=
  match p with
  | Verified abi code_hash details version name setting => {|
      cv_id := cv_id r; cv_contract_address := cv_contract_address r; cv_files := cv_files r;
      cv_creator_tx_hash := cv_creator_tx_hash r; cv_status := SUCCESS; cv_abi := set_column abi (cv_abi r);
      cv_code_hash := Some code_hash; cv_compile_detail := Some details; cv_compiler_version := version;
      cv_contract_name := Some name; cv_compiler_setting := set_column setting (cv_compiler_setting r) |}
  | Rejected details code_hash => {|
      cv_id := cv_id r; cv_contract_address := cv_contract_address r; cv_files := None;
      cv_creator_tx_hash := cv_creator_tx_hash r; cv_status := FAIL; cv_abi := cv_abi r;
      cv_code_hash := set_column code_hash (cv_code_hash r); cv_compile_detail := Some details;
      cv_compiler_version := cv_compiler_version r; cv_contract_name := cv_contract_name r;
      cv_compiler_setting := cv_compiler_setting r |}
  end.
Definition short_column (s : option string) : bool := varchar255_opt s.
(** The columns of type varchar(255) take the patch. *)
Definition patch_fits (p : Patch) : bool :=
  match p with
  | Verified _ code_hash _ version name _ => short_column (Some code_hash) && short_column version && short_column (Some name)
  | Rejected _ code_hash => short_column code_hash
  end.
Definition patch_row (x : Z * Patch) (d : Db) : res Db :=
  if patch_fits x.2 then
    Ok (set_verifications ((λ r, if cv_id r =? x.1 then apply_patch x.2 r else r) <$> verifications d) (next_verification d) d)
  else Throw "value too long for type character varying(255)".

(** The variables of a run. *)
Record Batch := { ba_listPromise : list (Z * Patch); ba_listTrigger : list string }.

Section Job.
Context {S : Sourcify} {T : Tools}.

Definition listRequestVerify (d : Db) : list EVMContractVerification :=
  take jobVerifyContractEVM_recordsPerCall (sortBy cv_id (filter (λ r, cv_status r = PENDING) (verifications d))).
(** The list of promises is that of the whole batch. *)
Definition batch_step (b : Batch) (r : EVMContractVerification) : Batch :=
  match verifyRequest r with
  | Verified _ _ _ _ _ _ as p =>
      {| ba_listPromise := ba_listPromise b ++ [(cv_id r, p)]; ba_listTrigger := ba_listTrigger b ++ [cv_contract_address r] |}
  | Rejected _ _ as p =>
      if bool_decide (length (ba_listPromise b) = 0%nat)
      then {| ba_listPromise := [(cv_id r, p)]; ba_listTrigger := ba_listTrigger b |} else b
  end.
Definition verifyBatch (l : list EVMContractVerification) : Batch :=
  foldl batch_step {| ba_listPromise := []; ba_listTrigger := [] |} l.
Definition createSignatureJobs (contracts : list string) : io Db () :=
  update (λ d, set_signature_jobs (signature_jobs d ++ contracts) d).
Definition verifyContractEVM : io Db () :=
  requests ← query listRequestVerify;
  match last requests with
  | None => mret ()
  | Some lastRequest =>
      let b := verifyBatch requests in
      commit (λ d, d ← forEachM (λ d x, patch_row x d) d (ba_listPromise b);
                   Ok (set_checkpoint VERIFY_CONTRACT_EVM (cv_id lastRequest) d));;
      createSignatureJobs (ba_listTrigger b)
  end.

(** The action: a request waits for the job. *)
Definition actionCreateJob (contract_address : string) (creator_tx_hash : option string) (files : string)
    (compiler_version : option string) : io Db () :=
  commit (λ d,
    if short_column (Some contract_address) && short_column creator_tx_hash && short_column compiler_version then
      Ok (set_verifications (verifications d ++ [ {|
        cv_id := next_verification d; cv_contract_address := contract_address; cv_files := Some files;
        cv_creator_tx_hash := creator_tx_hash; cv_status := PENDING; cv_abi := None; cv_code_hash := None;
        cv_compile_detail := None; cv_compiler_version := compiler_version; cv_contract_name := None;
        cv_compiler_setting := None |} ]) (next_verification d + 1) d)
    else Throw "value too long for type character varying(255)").
End Job.

(** ** The sources of a contract *)
Class SourcifyLaws (S : Sourcify) {T : Tools} : Prop := {
  storeByHash_hash files h f : storeByHash files !! h = Some f → source_hash (JStr (pc_content f)) = Ok h;
  isEmpty_spec {A} (m : gmap string A) : isEmpty m = true ↔ m = ∅
}.

Section SourceFacts.
Context {S : Sourcify} {T : Tools} (byHash : gmap string PathContent).
Context (Hby : ∀ h f, byHash !! h = Some f → source_hash (JStr (pc_content f)) = Ok h).

(** A content with the hash the metadata names. *)
Definition good_source (info : option Json) (c : Json) : Prop :=
  ∃ h, opt_get info "keccak256" = Some (JStr h) ∧ source_hash c = Ok h.
(** What is known of a path: it is in one of the three objects. *)
Definition placed (r : Rearranged) (p : string) (info : option Json) : Prop :=
  (∃ c, foundSources r !! p = Some c ∧ missingSources r !! p = None ∧ invalidSources r !! p = None ∧ good_source info c) ∨
  (foundSources r !! p = None ∧ missingSources r !! p = Some (missing_of info (opt_get info "keccak256")) ∧ invalidSources r !! p = None) ∨
  (∃ i, foundSources r !! p = None ∧ missingSources r !! p = None ∧ invalidSources r !! p = Some i ∧
     is_hash (is_calculatedHash i) (opt_get info "keccak256") = false).
Definition unplaced (r : Rearranged) (p : string) : Prop :=
  foundSources r !! p = None ∧ missingSources r !! p = None ∧ invalidSources r !! p = None.

Lemma is_hash_spec h o : is_hash h o = true → o = Some (JStr h).
Proof. destruct o as [[]|]; simpl; try done. by intros ->%bool_decide_eq_true. Qed.

Lemma source_step_spec r p info r' :
  source_step byHash r (p, info) = Ok r' → unplaced r p →
  placed r' p info ∧ ∀ q, q ≠ p → foundSources r' !! q = foundSources r !! q ∧
    missingSources r' !! q = missingSources r !! q ∧ invalidSources r' !! q = invalidSources r !! q.
Proof using Hby.
  unfold source_step. intros (eh & ->%json_get_Ok & (c & _ & H)%bind_Ok)%bind_Ok (Hf & Hm & Hi).
  destruct (is_truthy c).
  - apply bind_Ok in H as (h & Hh & H). destruct (is_hash h _) eqn:Heq; injection H as <-; simpl.
    + split; [|intros q Hq; by rewrite lookup_insert_ne].
      left. eexists. simpl. rewrite lookup_insert_eq. split_and!; try done. exists h. by apply is_hash_spec in Heq.
    + split; [|intros q Hq; by rewrite lookup_insert_ne].
      right. right. eexists. simpl. by rewrite lookup_insert_eq.
  - injection H as <-. unfold provided_step.
    destruct (match opt_get info "keccak256" with Some (JStr h) => byHash !! h | _ => None end) as [f|] eqn:Hb.
    + cbv zeta. case_bool_decide as Hc; simpl; (split; [|intros q Hq; by rewrite lookup_insert_ne]).
      * right. left. simpl. by rewrite lookup_insert_eq.
      * left. eexists. simpl. rewrite lookup_insert_eq. split_and!; try done.
        unfold good_source. destruct (opt_get info "keccak256") as [[]|]; try done. eexists. split; [done|by apply Hby].
    + simpl. split; [|intros q Hq; by rewrite lookup_insert_ne]. right. left. simpl. by rewrite lookup_insert_eq.
Qed.

Lemma source_steps_spec l r r' :
  forEachM (source_step byHash) r l = Ok r' → NoDup l.*1 → (∀ p, p ∈ l.*1 → unplaced r p) →
  (∀ p info, (p, info) ∈ l → placed r' p info) ∧
  ∀ q, q ∉ l.*1 → foundSources r' !! q = foundSources r !! q ∧
    missingSources r' !! q = missingSources r !! q ∧ invalidSources r' !! q = invalidSources r !! q.
Proof using Hby.
  revert r. induction l as [|[p info] l IH]; intros r.
  { intros [= <-] _ _. split; [by intros ? ? ?%not_elem_of_nil|done]. }
  cbn [forEachM]. intros (r1 & H1 & H2)%bind_Ok [Hp Hnd]%NoDup_cons Hun.
  destruct (source_step_spec _ _ _ _ H1 (Hun p ltac:(by left))) as [Hplaced Hother].
  destruct (IH r1 H2 Hnd) as [IHp IHo].
  { intros q Hq. assert (q ≠ p) as Hne by (intros ->; done). unfold unplaced. destruct (Hother q Hne) as (-> & -> & ->).
    apply Hun. by right. }
  split.
  - intros q i [[= -> ->]|Hq]%elem_of_cons; [|by apply IHp].
    destruct (IHo p Hp) as (Ef & Em & Ei). unfold placed. by rewrite Ef, Em, Ei.
  - intros q [Hne Hq]%not_elem_of_cons. simpl in Hne.
    destruct (IHo q Hq) as (-> & -> & ->). by apply Hother.
Qed.
End SourceFacts.

(** Every source the metadata names is found with its hash, missing, or has
    another hash than the one named: it is in exactly one of the objects.  So
    a contract that is verified is compiled from sources with those hashes. *)
Theorem sources_by_hash {S : Sourcify} {T : Tools} `{!SourcifyLaws S} metadata files r sources :
  rearrangeSources metadata (storeByHash files) = Ok r → opt_get (Some metadata) "sources" = Some sources →
  NoDup (json_entries sources).*1 →
  (∀ p info, (p, info) ∈ json_entries sources → placed r p info) ∧
  (isEmpty (missingSources r) && isEmpty (invalidSources r) = true →
   ∀ p info, (p, info) ∈ json_entries sources → ∃ c, foundSources r !! p = Some c ∧ good_source info c) ∧
  (∀ p, is_Some (foundSources r !! p) → p ∈ (json_entries sources).*1).
Proof.
  unfold rearrangeSources. intros (s & ->%json_get_Ok & H)%bind_Ok Hs Hnd. rewrite Hs in H. cbn [from_option] in H.
  destruct (source_steps_spec _ (storeByHash_hash files) _ _ _ H Hnd) as [Hp Ho]; [by intros p _|].
  split; [done|]. split.
  - intros [Hm%isEmpty_spec Hi%isEmpty_spec]%andb_true_iff p info Hin.
    destruct (Hp p info Hin) as [(c & Hc & _ & _ & Hg)|[(_ & Hx & _)|(i & _ & _ & Hx & _)]]; [by exists c|..].
    + by rewrite Hm, lookup_empty in Hx.
    + by rewrite Hi, lookup_empty in Hx.
  - intros p Hsome. destruct (decide (p ∈ (json_entries sources).*1)) as [|Hn]; [done|].
    destruct (Ho p Hn) as (Hf & _). rewrite Hf in Hsome. by destruct Hsome.
Qed.

(** ** The requests *)
Section JobFacts.
Context {S : Sourcify} {T : Tools}.

Definition accepted (r : EVMContractVerification) : bool :=
  match verifyRequest r with Verified _ _ _ _ _ _ => true | Rejected _ _ => false end.
Definition settled_row (r : EVMContractVerification) : EVMContractVerification := apply_patch (verifyRequest r) r.

Lemma settled_row_id r : cv_id (settled_row r) = cv_id r.
Proof. unfold settled_row. by destruct (verifyRequest r). Qed.
Lemma settled_row_status r : cv_status (settled_row r) = if accepted r then SUCCESS else FAIL.
Proof. unfold settled_row, accepted. by destruct (verifyRequest r). Qed.

Lemma batch_steps b l :
  ba_listPromise b ≠ [] →
  foldl batch_step b l = {| ba_listPromise := ba_listPromise b ++ ((λ r, (cv_id r, verifyRequest r)) <$> filter (λ r, accepted r = true) l);
                            ba_listTrigger := ba_listTrigger b ++ (cv_contract_address <$> filter (λ r, accepted r = true) l) |}.
Proof.
  revert b. induction l as [|r l IH]; intros b Hb; simpl.
  { rewrite !app_nil_r. by destruct b. }
  assert (batch_step b r = if accepted r then {| ba_listPromise := ba_listPromise b ++ [(cv_id r, verifyRequest r)];
    ba_listTrigger := ba_listTrigger b ++ [cv_contract_address r] |} else b) as ->.
  { unfold batch_step, accepted. destruct (verifyRequest r); [done|]. by destruct (ba_listPromise b). }
  rewrite filter_cons. destruct (accepted r) eqn:Ha; rewrite IH; simpl; try done; rewrite <-?app_assoc; [done|].
  by destruct (ba_listPromise b).
Qed.

(** The requests of a batch that a run settles: the first one, and those of the
    others that are verified. *)
Definition settles (l : list EVMContractVerification) : list EVMContractVerification :=
  match l with [] => [] | r :: l => r :: filter (λ r, accepted r = true) l end.

Lemma verifyBatch_spec l :
  verifyBatch l = {| ba_listPromise := (λ r, (cv_id r, verifyRequest r)) <$> settles l;
                     ba_listTrigger := cv_contract_address <$> filter (λ r, accepted r = true) l |}.
Proof.
  destruct l as [|r l]; [done|]. unfold verifyBatch. cbn [foldl].
  assert (batch_step {| ba_listPromise := []; ba_listTrigger := [] |} r = {| ba_listPromise := [(cv_id r, verifyRequest r)];
    ba_listTrigger := if accepted r then [cv_contract_address r] else [] |}) as ->.
  { unfold batch_step, accepted. by destruct (verifyRequest r). }
  rewrite batch_steps by done. cbn [ba_listPromise ba_listTrigger settles]. rewrite filter_cons. f_equal.
  by destruct (accepted r).
Qed.

Lemma patch_row_fits i p d : patch_fits p = true →
  patch_row (i, p) d =
  Ok (set_verifications ((λ r, if cv_id r =? i then apply_patch p r else r) <$> verifications d) (next_verification d) d).
Proof. unfold patch_row. cbn [fst snd]. by intros ->. Qed.

(** The patches of requests that are rows of the table. *)
Lemma patch_rows l d :
  Forall (λ r, patch_fits (verifyRequest r) = true) l → NoDup (cv_id <$> l) →
  (∀ r r', r ∈ l → r' ∈ verifications d → cv_id r = cv_id r' → r' = r) →
  forEachM (λ d x, patch_row x d) d ((λ r, (cv_id r, verifyRequest r)) <$> l) =
  Ok (set_verifications ((λ r, if bool_decide (cv_id r ∈ cv_id <$> l) then settled_row r else r) <$> verifications d)
        (next_verification d) d).
Proof.
  revert d. induction l as [|r l IH]; intros d Hfit Hnd Hkey.
  { cbn. f_equal. destruct d as [vs ? ? ? ? ? ?]. unfold set_verifications. cbn. f_equal. symmetry. apply list_fmap_id. }
  apply Forall_cons in Hfit as [Hr Hfit]. rewrite fmap_cons in Hnd. apply NoDup_cons in Hnd as [Hnew Hnd].
  rewrite !fmap_cons. cbn [forEachM]. rewrite patch_row_fits by done. cbn [mbind res_bind]. rewrite IH; [|done|done|].
  - f_equal. unfold set_verifications. cbn. f_equal. rewrite <-list_fmap_compose. apply list_fmap_ext. intros i r' Hi. cbn.
    apply list_elem_of_lookup_2 in Hi. destruct (Z.eqb_spec (cv_id r') (cv_id r)) as [Heq|Hne].
    + assert (r' = r) as -> by (apply (Hkey r r'); [left|done|done]).
      rewrite (bool_decide_eq_true_2 (cv_id r ∈ cv_id r :: _)) by left.
      rewrite bool_decide_eq_false_2; [done|]. fold (settled_row r). by rewrite settled_row_id.
    + case_bool_decide as H1; case_bool_decide as H2; try done.
      * destruct H2. by right.
      * apply elem_of_cons in H2 as [|]; done.
  - intros r1 r2 H1 (r3 & -> & H3)%list_elem_of_fmap Heq. cbn in Heq.
    destruct (Z.eqb_spec (cv_id r3) (cv_id r)) as [He|Hne].
    + exfalso. fold (settled_row r3) in Heq. assert (r3 = r) as -> by (apply (Hkey r r3); [left|done|done]).
      fold (settled_row r) in Heq. rewrite settled_row_id in Heq. apply Hnew. rewrite <-Heq. by apply list_elem_of_fmap_2.
    + apply Hkey; [by right|done|done].
Qed.
End JobFacts.

Section RunFacts.
Context {S : Sourcify} {T : Tools}.

Definition pending (d : Db) : list EVMContractVerification := filter (λ r, cv_status r = PENDING) (verifications d).

Lemma elem_of_listRequestVerify d r : r ∈ listRequestVerify d → r ∈ verifications d ∧ cv_status r = PENDING.
Proof.
  intros Hr. unfold listRequestVerify in Hr. apply elem_of_take in Hr as (i & Hi & _). apply list_elem_of_lookup_2 in Hi.
  rewrite sortBy_perm, list_elem_of_filter in Hi. tauto.
Qed.

Lemma listRequestVerify_ids d : NoDup (cv_id <$> verifications d) → NoDup (cv_id <$> listRequestVerify d).
Proof.
  intros Hnd. unfold listRequestVerify. eapply sublist_NoDup; [|apply fmap_sublist, sublist_take].
  rewrite sortBy_perm. eapply sublist_NoDup; [exact Hnd|]. apply fmap_sublist, sublist_filter.
Qed.

Lemma settles_sublist l : settles l `sublist_of` l.
Proof. destruct l as [|r l]; [done|]. apply sublist_skip, sublist_filter. Qed.

(** Requests whose patch is too long for a column. *)
Definition patches_fit (d : Db) : Prop := ∀ r, r ∈ pending d → patch_fits (verifyRequest r) = true.

(** What a run leaves of a row: the requests of the batch that it settles. *)
Definition after_run (d : Db) (r : EVMContractVerification) : EVMContractVerification :=
  if bool_decide (cv_id r ∈ cv_id <$> settles (listRequestVerify d)) then settled_row r else r.

Lemma settles_rows d r r' :
  NoDup (cv_id <$> verifications d) → r ∈ settles (listRequestVerify d) → r' ∈ verifications d → cv_id r = cv_id r' → r' = r.
Proof.
  intros Hnd Hr Hr' Heq. apply (NoDup_fmap_key cv_id (verifications d)); try done.
  eapply elem_of_listRequestVerify, sublist_subseteq; [apply settles_sublist|done].
Qed.

Lemma patches_fit_settles d : patches_fit d → Forall (λ r, patch_fits (verifyRequest r) = true) (settles (listRequestVerify d)).
Proof.
  intros Hfit. apply Forall_forall. intros r Hr. apply Hfit, list_elem_of_filter.
  assert (r ∈ listRequestVerify d) as Hin by (eapply sublist_subseteq; [apply settles_sublist|done]).
  apply elem_of_listRequestVerify in Hin. tauto.
Qed.

Lemma verify_run_rows d :
  NoDup (cv_id <$> verifications d) → Forall (λ r, patch_fits (verifyRequest r) = true) (settles (listRequestVerify d)) →
  ∃ d', verifyContractEVM d = (d', Ok tt) ∧ verifications d' = after_run d <$> verifications d ∧
    signature_jobs d' = signature_jobs d ++ (cv_contract_address <$> filter (λ r, accepted r = true) (listRequestVerify d)).
Proof.
  intros Hnd Hfit. set (l := listRequestVerify d).
  assert (forEachM (λ d x, patch_row x d) d (ba_listPromise (verifyBatch l)) =
    Ok (set_verifications (after_run d <$> verifications d) (next_verification d) d)) as Hp.
  { rewrite verifyBatch_spec. cbn [ba_listPromise]. apply patch_rows; [done| |].
    - eapply sublist_NoDup; [apply (listRequestVerify_ids d Hnd)|]. apply fmap_sublist, settles_sublist.
    - intros r r' Hr. by apply settles_rows. }
  assert (ba_listTrigger (verifyBatch l) = cv_contract_address <$> filter (λ r, accepted r = true) l) as Ht
    by (by rewrite verifyBatch_spec).
  unfold verifyContractEVM. rewrite (io_step _ _ d d l) by done.
  generalize dependent (verifyBatch l). intros b Hp Ht. destruct (last l) as [r|] eqn:Hlast.
  - eexists. split.
    { rewrite (io_step _ _ d (set_checkpoint VERIFY_CONTRACT_EVM (cv_id r)
        (set_verifications (after_run d <$> verifications d) (next_verification d) d)) tt); [reflexivity|].
      unfold commit. by rewrite Hp. }
    split; [done|]. by rewrite <-Ht.
  - apply last_None in Hlast. exists d. split; [done|]. subst l. unfold after_run. rewrite Hlast. split.
    + symmetry. rewrite <-(list_fmap_id (verifications d)) at 2. apply list_fmap_ext. intros i r _. by rewrite bool_decide_eq_false_2 by apply not_elem_of_nil.
    + by rewrite app_nil_r.
Qed.

(** A run settles the request it has waited for longest. *)
Lemma first_settled d r l : listRequestVerify d = r :: l → r ∈ settles (listRequestVerify d).
Proof. intros ->. by left. Qed.

Definition final_row (r : EVMContractVerification) : EVMContractVerification :=
  if bool_decide (cv_status r = PENDING) then settled_row r else r.

Lemma final_after_run d r : final_row (after_run d r) = if bool_decide (cv_id r ∈ cv_id <$> settles (listRequestVerify d)) then settled_row r else final_row r.
Proof.
  unfold after_run. case_bool_decide; [|done]. unfold final_row. rewrite bool_decide_eq_false_2; [done|].
  rewrite settled_row_status. by destruct (accepted r).
Qed.

Lemma after_run_final d r : NoDup (cv_id <$> verifications d) → r ∈ verifications d → final_row (after_run d r) = final_row r.
Proof.
  intros Hnd Hr. rewrite final_after_run. case_bool_decide as Hin; [|done].
  apply list_elem_of_fmap in Hin as (r' & Heq & Hr'). pose proof (settles_rows d r' r Hnd Hr' Hr (eq_sym Heq)) as <-.
  unfold final_row. rewrite bool_decide_eq_true_2; [done|].
  eapply elem_of_listRequestVerify, sublist_subseteq; [apply settles_sublist|done].
Qed.

Lemma pending_after_run d d' :
  verifications d' = after_run d <$> verifications d →
  pending d' = filter (λ r, cv_id r ∉ cv_id <$> settles (listRequestVerify d)) (pending d).
Proof.
  intros Hd'. unfold pending. rewrite Hd'. clear Hd'. induction (verifications d) as [|r l IH]; [done|].
  rewrite fmap_cons, !filter_cons, IH.
  destruct (decide (cv_id r ∈ cv_id <$> settles (listRequestVerify d))) as [Hin|Hn].
  - assert (after_run d r = settled_row r) as -> by (unfold after_run; by rewrite bool_decide_true).
    rewrite decide_False by (rewrite settled_row_status; by destruct (accepted r)).
    destruct (decide (cv_status r = PENDING)); [|done]. by rewrite filter_cons, decide_False by (intros H; by apply H).
  - assert (after_run d r = r) as -> by (unfold after_run; by rewrite bool_decide_false).
    destruct (decide (cv_status r = PENDING)); [|done]. by rewrite filter_cons, decide_True by done.
Qed.

Lemma fewer_pending d d' :
  verifications d' = after_run d <$> verifications d →
  pending d ≠ [] → (length (pending d') < length (pending d))%nat.
Proof.
  intros Hd' Hp. rewrite (pending_after_run _ _ Hd').
  destruct (listRequestVerify d) as [|r l] eqn:Hl.
  { destruct Hp. unfold listRequestVerify in Hl. fold (pending d) in Hl. apply (f_equal length) in Hl.
    rewrite length_take in Hl. unfold jobVerifyContractEVM_recordsPerCall in Hl.
    rewrite (Permutation_length (sortBy_perm cv_id (pending d))) in Hl. simpl in Hl.
    destruct (pending d); [done|]. simpl in Hl. lia. }
  apply (length_filter_lt _ _ r).
  - assert (r ∈ listRequestVerify d) as [Hin Hs]%elem_of_listRequestVerify by (rewrite Hl; by left).
    by apply list_elem_of_filter.
  - intros Hn. apply Hn. cbn [settles]. apply list_elem_of_fmap_2. by left.
Qed.

Definition runs (n : nat) (d : Db) : Db := Nat.iter n (λ d, (verifyContractEVM d).1) d.

End RunFacts.

(** ** What verified means *)
Section Matches.
Context {S : Sourcify} {T : Tools}.

(** The contract of the request's files that is compared with the chain, after
    the version of the request and the fetched sources were filled in. *)
Definition prepared (r : EVMContractVerification) (contract : Checked) : res Checked :=
  checkAndFetchMissing <$> (if truthy_str (c_compilerVersion contract) then Ok contract
                            else set_compilerVersion (cv_compiler_version r) contract).
(** The evidence for a verification. *)
Definition matches (r : EVMContractVerification) (abi : option Json) (code_hash : string) (contract_name : string) : Prop :=
  ∃ files contracts unused contract c emscripten recompiled metadata,
    cv_files r = Some files ∧ checkFiles [{| pb_path := toString (cv_id r); pb_buffer := files |}] = Ok (contracts, unused) ∧
    contract ∈ contracts ∧ prepared r contract = Ok c ∧
    isVerifiable c = true ∧ (∃ m, verifyDeployed c (cv_contract_address r) = Ok (Some m) ∧ (m = "perfect" ∨ m = "partial")) ∧
    recompile emscripten c = Ok recompiled ∧ bytecode_hash (rc_runtimeBytecode recompiled) = Ok code_hash ∧
    parse_json (rc_metadata recompiled) = Ok metadata ∧ abi = opt_get (opt_get (Some metadata) "output") "abi" ∧
    contract_name = c_name c.

Lemma lift_Ok_inv {D A} (m : res A) (d d' : D) a : lift m d = (d', Ok a) → d' = d ∧ m = Ok a.
Proof. unfold lift. by intros [= -> ->]. Qed.

(** What a successful [tryContract] found. *)
Definition contract_matches (r : EVMContractVerification) (contract : Checked) (p : Patch) : Prop :=
  ∃ abi code_hash details version name setting c emscripten recompiled metadata,
    p = Verified abi code_hash details version name setting ∧ prepared r contract = Ok c ∧ isVerifiable c = true ∧
    (∃ m, verifyDeployed c (cv_contract_address r) = Ok (Some m) ∧ (m = "perfect" ∨ m = "partial")) ∧
    recompile emscripten c = Ok recompiled ∧ bytecode_hash (rc_runtimeBytecode recompiled) = Ok code_hash ∧
    parse_json (rc_metadata recompiled) = Ok metadata ∧ abi = opt_get (opt_get (Some metadata) "output") "abi" ∧ name = c_name c.

Lemma tryContract_spec r contract a a' p : tryContract r contract a = (a', Ok (Some p)) → contract_matches r contract p.
Proof.
  unfold tryContract. intros (a1 & c0 & Hc & H)%io_bind_Ok.
  set (c := checkAndFetchMissing c0) in *. assert (prepared r contract = Ok c) as Hprep.
  { unfold prepared. destruct (truthy_str _); [by injection Hc as <- <-|]. apply lift_Ok_inv in Hc as [_ ->]. done. }
  destruct (isVerifiable c) eqn:Hv; cbn [negb] in H; [|by inv_io H].
  destruct (verifyDeployed c _) as [m|e] eqn:Hm; [|by inv_io H].
  apply io_bind_Ok in H as (? & old & _ & H). apply io_bind_Ok in H as (? & rc & [_ Hrc]%lift_Ok_inv & H).
  apply io_bind_Ok in H as (? & md & [_ Hmd]%lift_Ok_inv & H).
  apply io_bind_Ok in H as (? & out & [_ ->%json_get_Ok]%lift_Ok_inv & H).
  apply io_bind_Ok in H as (? & abi & [_ ->%json_get_Ok]%lift_Ok_inv & H).
  apply io_bind_Ok in H as (? & h & [_ Hh]%lift_Ok_inv & H). inv_io H.
  destruct (is_match m) eqn:Him; [|done]. injection H as _ <-.
  destruct m as [m|]; [|done]. cbn in Him. apply bool_decide_eq_true in Him.
  do 6 eexists. exists c. eexists _, rc, md. split_and!; try done.
  exists m. split; [done|]. set_solver.
Qed.

Lemma tryContracts_spec r l a a' p : tryContracts r l a = (a', Ok (Some p)) → ∃ contract, contract ∈ l ∧ contract_matches r contract p.
Proof.
  revert a. induction l as [|c l IH]; intros a; cbn [tryContracts]; [done|].
  intros (a1 & [q|] & Hc & H)%io_bind_Ok.
  - injection H as _ <-. exists c. split; [left|by eapply tryContract_spec].
  - destruct (IH _ H) as (x & Hx & Hm). exists x. split; [by right|done].
Qed.

Lemma verifyRequest_matches r abi code_hash details version name setting :
  verifyRequest r = Verified abi code_hash details version name setting → matches r abi code_hash name.
Proof.
  unfold verifyRequest. destruct (verifyFiles r _) as [a [[p|]|e]] eqn:Hv; intros [= ->].
  unfold verifyFiles in Hv. destruct (cv_files r) as [files|] eqn:Hf; [|done].
  destruct (isZip files || isJson files); [|by inv_io Hv].
  apply io_bind_Ok in Hv as (a1 & [contracts unused] & [_ Hcheck]%lift_Ok_inv & H).
  apply tryContracts_spec in H as (contract & Hin & abi' & h & ? & ? & ? & ? & c & em & rc & md & [= -> -> <- <- -> <-] & H).
  exists files, contracts, unused, contract, c, em, rc, md. naive_solver.
Qed.

Lemma patch_rows_fit l d d' :
  forEachM (λ d x, patch_row x d) d ((λ r, (cv_id r, verifyRequest r)) <$> l) = Ok d' →
  Forall (λ r, patch_fits (verifyRequest r) = true) l.
Proof.
  revert d. induction l as [|r l IH]; intros d; [constructor|]. rewrite fmap_cons. cbn [forEachM].
  intros (d1 & H1 & H2)%bind_Ok. constructor; [|by eapply IH].
  unfold patch_row in H1. cbn [fst snd] in H1. by destruct (patch_fits (verifyRequest r)).
Qed.

(** A run throws and changes nothing, or all its patches fit. *)
Lemma run_commits d :
  NoDup (cv_id <$> verifications d) →
  (∃ msg, verifyContractEVM d = (d, Throw msg)) ∨ Forall (λ r, patch_fits (verifyRequest r) = true) (settles (listRequestVerify d)).
Proof.
  intros Hnd. destruct (decide (Forall (λ r, patch_fits (verifyRequest r) = true) (settles (listRequestVerify d)))) as [|Hn]; [by right|].
  left. unfold verifyContractEVM. rewrite (io_step _ _ d d (listRequestVerify d)) by done.
  destruct (last (listRequestVerify d)) eqn:Hlast.
  - destruct (forEachM (λ d x, patch_row x d) d (ba_listPromise (verifyBatch (listRequestVerify d)))) as [d1|msg] eqn:Hf.
    + destruct Hn. rewrite verifyBatch_spec in Hf. cbn [ba_listPromise] in Hf. by eapply patch_rows_fit.
    + exists msg. unfold mbind, io_bind, commit. by rewrite Hf.
  - apply last_None in Hlast. destruct Hn. rewrite Hlast. constructor.
Qed.

(** C29: A contract is recorded as verified only if a contract of the files of a
    request for its address has all its sources and matches the code deployed
    there; the ABI and the code hash are those of its recompilation.  This
    holds whatever else is in the batch and whatever fails. *)
Theorem verified_matches d d' o r' :
  NoDup (cv_id <$> verifications d) →
  verifyContractEVM d = (d', o) → r' ∈ verifications d' → cv_status r' = SUCCESS →
  r' ∈ verifications d ∨
  ∃ r abi code_hash name, r ∈ verifications d ∧ cv_status r = PENDING ∧ cv_id r' = cv_id r ∧
    cv_contract_address r' = cv_contract_address r ∧ matches r abi code_hash name ∧
    cv_abi r' = set_column abi (cv_abi r) ∧ cv_code_hash r' = Some code_hash ∧ cv_contract_name r' = Some name.
Proof.
  intros Hnd Hrun Hr' Hs. destruct (run_commits d Hnd) as [[msg Hthrow]|Hfit].
  { rewrite Hthrow in Hrun. injection Hrun as <- _. by left. }
  destruct (verify_run_rows d Hnd Hfit) as (d1 & Hrun1 & Hd1 & _). rewrite Hrun1 in Hrun. injection Hrun as <- _.
  rewrite Hd1 in Hr'. apply list_elem_of_fmap in Hr' as (r & -> & Hr). revert Hs. unfold after_run.
  case_bool_decide as Hin; [|by left]. intros Hs. right.
  apply list_elem_of_fmap in Hin as (r0 & Heq & Hr0). pose proof (settles_rows d r0 r Hnd Hr0 Hr (eq_sym Heq)) as <-.
  assert (r ∈ listRequestVerify d) as [_ Hp]%elem_of_listRequestVerify by (eapply sublist_subseteq; [apply settles_sublist|done]).
  unfold settled_row in *. destruct (verifyRequest r) as [abi h ? ? name ?|] eqn:Hv; [|done].
  exists r, abi, h, name. split_and!; try done. by eapply verifyRequest_matches.
Qed.
End Matches.

(** ** What goes wrong *)
Section Limits.
Context {S : Sourcify} {T : Tools}.

(** When every value the requests store fits its column, all are settled. *)
Lemma fitting_requests_settled d n :
  NoDup (cv_id <$> verifications d) → patches_fit d → (length (pending d) <= n)%nat →
  verifications (runs n d) = final_row <$> verifications d ∧ pending (runs n d) = [].
Proof.
  intros Hnd Hfit Hn. cut (verifications (runs n d) = final_row <$> verifications d).
  { intros Heq. split; [done|]. unfold pending. rewrite Heq. apply elem_of_nil_inv.
    intros r' [Hs (r & -> & _)%list_elem_of_fmap]%list_elem_of_filter. revert Hs.
    unfold final_row. case_bool_decide; [|done]. rewrite settled_row_status. by destruct (accepted r). }
  - revert d Hnd Hfit Hn. induction n as [|n IH]; intros d Hnd Hfit Hn.
    + unfold runs. cbn. symmetry. rewrite <-(list_fmap_id (verifications d)) at 2. apply list_fmap_ext.
      intros i r Hr%list_elem_of_lookup_2. unfold final_row. rewrite bool_decide_eq_false_2; [done|]. intros Hs.
      assert (r ∈ pending d) as Hp by (by apply list_elem_of_filter). destruct (pending d); [by apply not_elem_of_nil in Hp|simpl in Hn; lia].
    + unfold runs. rewrite Nat.iter_succ_r. fold (runs n (verifyContractEVM d).1).
      destruct (verify_run_rows d Hnd (patches_fit_settles d Hfit)) as (d' & Hrun & Hd' & _). rewrite Hrun. cbn [fst].
      assert (pending d' ⊆ pending d) as Hsub.
      { rewrite (pending_after_run _ _ Hd'). apply sublist_subseteq, sublist_filter. }
      rewrite IH.
      * rewrite Hd', <-list_fmap_compose. apply list_fmap_ext. intros i r Hr%list_elem_of_lookup_2. by apply after_run_final.
      * rewrite Hd', <-list_fmap_compose. erewrite list_fmap_ext; [exact Hnd|]. intros i r _. unfold compose, after_run.
        case_bool_decide; [apply settled_row_id|done].
      * intros r Hr. by apply Hfit, Hsub.
      * destruct (decide (pending d = [])) as [He|Hne].
        -- assert (pending d' = []) as -> by (rewrite He in Hsub; by apply list_nil_subseteq in Hsub). simpl. lia.
        -- pose proof (fewer_pending _ _ Hd' Hne). lia.
Qed.

(** C24: However many requests wait, and whatever is wrong with their files, each
    is settled with its own verdict after at most as many runs, when the values
    they store fit their columns (compiler version, name of the contract and
    code hash are varchar(255)): a run settles the first request of its batch
    and every one that is verified.  When a request that a run would settle has
    a value that does not fit, no number of runs settles anything. *)
Theorem all_requests_settled d n :
  NoDup (cv_id <$> verifications d) →
  (patches_fit d → (length (pending d) <= n)%nat →
   verifications (runs n d) = final_row <$> verifications d ∧ pending (runs n d) = []) ∧
  (¬ Forall (λ r, patch_fits (verifyRequest r) = true) (settles (listRequestVerify d)) → runs n d = d).
Proof.
  intros Hnd. split; [by apply fitting_requests_settled|]. intros Hlong.
  assert ((verifyContractEVM d).1 = d) as Hd by (by destruct (run_commits d Hnd) as [[msg ->]|?]).
  unfold runs. induction n as [|n IH]; [done|]. rewrite Nat.iter_succ, IH. exact Hd.
Qed.

(** A matching contract whose name is longer than the column stops the job:
    the transaction of the batch fails in every run, and nothing of the batch
    is settled. *)
Theorem long_name_stops_verification d r abi code_hash details version name setting n :
  NoDup (cv_id <$> verifications d) → r ∈ listRequestVerify d →
  verifyRequest r = Verified abi code_hash details version name setting → varchar255 name = false →
  runs n d = d.
Proof.
  intros Hnd Hr Hv Hlong. assert ((verifyContractEVM d).1 = d) as Hd.
  { destruct (run_commits d Hnd) as [[msg ->]|Hfit]; [done|]. exfalso.
    assert (r ∈ settles (listRequestVerify d)) as Hin.
    { destruct (listRequestVerify d) as [|r0 l]; [by apply not_elem_of_nil in Hr|].
      apply elem_of_cons in Hr as [->|Hr]; [left|right]. apply list_elem_of_filter. unfold accepted. by rewrite Hv. }
    rewrite Forall_forall in Hfit. specialize (Hfit r Hin). rewrite Hv in Hfit. cbn in Hfit.
    apply andb_true_iff in Hfit as [_ Hl]. congruence. }
  unfold runs. induction n as [|n IH]; [done|]. rewrite Nat.iter_succ, IH. exact Hd.
Qed.

(** A request that is not the first of its batch and is not verified stays as
    it is, and is verified again by the next run: the list of promises, whose
    length decides whether it failed, is that of the batch. *)
Theorem rejected_request_waits d r0 l r :
  NoDup (cv_id <$> verifications d) → Forall (λ r, patch_fits (verifyRequest r) = true) (settles (listRequestVerify d)) →
  listRequestVerify d = r0 :: l → r ∈ l → accepted r = false →
  r ∈ verifications (verifyContractEVM d).1 ∧ cv_status r = PENDING.
Proof.
  intros Hnd Hfit Hl Hr Ha. destruct (verify_run_rows d Hnd Hfit) as (d' & Hrun & Hd' & _). rewrite Hrun. cbn [fst].
  assert (r ∈ listRequestVerify d) as Hin by (rewrite Hl; by right).
  pose proof (elem_of_listRequestVerify _ _ Hin) as [Hv Hp]. split; [|done].
  rewrite Hd'. apply list_elem_of_fmap. exists r. split; [|done]. unfold after_run. rewrite bool_decide_false; [done|].
  rewrite Hl. cbn [settles]. intros (x & Heq & [->|[Hax Hx]%list_elem_of_filter]%elem_of_cons)%list_elem_of_fmap.
  - pose proof (listRequestVerify_ids d Hnd) as Hids. rewrite Hl, fmap_cons, NoDup_cons in Hids. destruct Hids as [Hn _].
    apply Hn. rewrite <-Heq. by apply list_elem_of_fmap_2.
  - assert (x ∈ listRequestVerify d) as Hxin by (rewrite Hl; by right).
    assert (x = r) as ->; [|congruence]. apply (NoDup_fmap_key cv_id (listRequestVerify d)); try done. by apply listRequestVerify_ids.
Qed.
End Limits.

(** ** Contracts with the code of a verified one *)
Definition limitRecordGet : nat := 100.
Definition set_cv_id (i : Z) (r : EVMContractVerification) : EVMContractVerification := {|
  cv_id := i; cv_contract_address := cv_contract_address r; cv_files := cv_files r; cv_creator_tx_hash := cv_creator_tx_hash r;
  cv_status := cv_status r; cv_abi := cv_abi r; cv_code_hash := cv_code_hash r; cv_compile_detail := cv_compile_detail r;
  cv_compiler_version := cv_compiler_version r; cv_contract_name := cv_contract_name r;
  cv_compiler_setting := cv_compiler_setting r |}.
Definition insert_verifications (rows : list EVMContractVerification) (d : Db) : Db :=
  set_verifications (verifications d ++ serial set_cv_id (next_verification d) rows)
    (next_verification d + Z.of_nat (length rows)) d.

Definition successVerified (codehash : string) (d : Db) : option EVMContractVerification :=
  last (sortBy cv_id (filter (λ r, cv_code_hash r = Some codehash ∧ cv_status r = SUCCESS) (verifications d))).
(** The relation evm_contract_verifications of a contract, those of status SUCCESS. *)
Definition is_verified (address : string) (d : Db) : bool :=
  existsb (λ r, bool_decide (cv_contract_address r = address) && bool_decide (cv_status r = SUCCESS)) (verifications d).
Definition copy_verification (v : EVMContractVerification) (contract : EVMSmartContract) : EVMContractVerification := {|
  cv_id := 0; cv_contract_address := sc_address contract; cv_files := None; cv_creator_tx_hash := None; cv_status := SUCCESS;
  cv_abi := Some (default JNull (cv_abi v)); cv_code_hash := sc_code_hash contract; cv_compile_detail := Some [SyncedFrom (cv_id v)];
  cv_compiler_version := cv_compiler_version v; cv_contract_name := cv_contract_name v; cv_compiler_setting := None |}.
Definition same_code (codehash : string) (d : Db) : list EVMSmartContract :=
  filter (λ c, sc_code_hash c = Some codehash) (smart_contracts d).
Definition insertVerifyByCodeHash (codehash : string) : io Db () :=
  v ← query (successVerified codehash);
  match v with
  | None => mret ()
  | Some v =>
      answer ← query (λ d, id_pages sc_id limitRecordGet (same_code codehash d) (length (smart_contracts d) + 1) 0);
      contracts ← lift answer;
      unverified ← query (λ d, filter (λ c, is_verified (sc_address c) d = false) contracts);
      update (insert_verifications (copy_verification v <$> unverified))
  end.

(** ** The verifications of Sourcify *)
Definition SYNC_SOURCIFY := "sync:sourcify".
Definition jobSyncSourcify_recordsPerCall : nat := 100.
(** [JSON.stringify], [buf.toString('hex')]. *)
Class Texts := { stringify : Json → string; buffer_hex : string → string }.

Section Sync.
Context {X : Texts}.

Definition toHexString (buf : option string) : option string := (λ b, "0x" +:+ buffer_hex b) <$> buf.
Definition sourcify_row (m : SourcifyMatch) : res EVMContractVerification :=
  abi ← json_get (Some (sm_compilation_artifacts m)) "abi";
  Ok {| cv_id := 0; cv_contract_address := default "" (toHexString (sm_address m)); cv_files := Some (stringify (sm_sources m));
        cv_creator_tx_hash := toHexString (sm_transaction_hash m); cv_status := SUCCESS; cv_abi := abi;
        cv_code_hash := toHexString (sm_runtime_code_hash m); cv_compile_detail := Some [SourcifySync];
        cv_compiler_version := sm_version m; cv_contract_name := sm_name m; cv_compiler_setting := Some (sm_compiler_settings m) |}.
Definition to_sync (EVMchainId : string) (m : SourcifyMatch) : bool :=
  bool_decide (sm_chain_id m = EVMchainId) && is_match (sm_runtime_match m).
Definition sync_height (d : Db) : Z := default 0 (block_checkpoint d !! SYNC_SOURCIFY).
Definition sourcifyMatches (d : Db) : list SourcifyMatch :=
  take jobSyncSourcify_recordsPerCall (sortBy sm_id (filter (λ m, sync_height d < sm_id m) (sourcify_matches d))).
Definition row_fits (r : EVMContractVerification) : bool :=
  short_column (Some (cv_contract_address r)) && short_column (cv_creator_tx_hash r) && short_column (cv_code_hash r) &&
  short_column (cv_compiler_version r) && short_column (cv_contract_name r).
(** The insert does not take part in the transaction around it. *)
Definition insert_synced (rows : list EVMContractVerification) (d : Db) : res Db :=
  if forallb row_fits rows then Ok (insert_verifications rows d) else Throw "value too long for type character varying(255)".
Definition ensure_checkpoint (d : Db) : Db :=
  match block_checkpoint d !! SYNC_SOURCIFY with Some _ => d | None => set_checkpoint SYNC_SOURCIFY 0 d end.
Definition syncSourcify (EVMchainId : option string) : io Db () :=
  match EVMchainId with
  | None => mret ()
  | Some chain =>
      update ensure_checkpoint;;
      found ← query sourcifyMatches;
      match last found with
      | None => mret ()
      | Some lastMatch =>
          rows ← lift (mapR sourcify_row (filter (λ m, to_sync chain m = true) found));
          commit (insert_synced rows);;
          update (set_checkpoint SYNC_SOURCIFY (sm_id lastMatch));;
          createSignatureJobs (cv_contract_address <$> rows)
      end
  end.
End Sync.

(** ** Signatures *)
Record Fragment := { f_type : string; f_full : string; f_sighash : string; f_minimal : string }.
(** [new ethers.Interface(ABI)] with its fragments in three formats, and [ethers.id]. *)
Class Ethers := { interface_fragments : option Json → res (list Fragment); ethers_id : string → string }.

Section Signatures.
Context {E : Ethers}.

Definition signature_row (f : Fragment) : EvmSignatureMapping :=
  let topicHash := ethers_id (if bool_decide (f_type f = "constructor") then f_minimal f else f_sighash f) in
  {| topic_hash := topicHash; human_readable_topic := f_full f;
     function_id := if bool_decide (f_type f = "function") then Some (String.substring 2 8 topicHash) else None |}.
Definition mappingContractTopic (ABI : option Json) : io Db () :=
  fragments ← lift (interface_fragments ABI);
  let rows := signature_row <$> fragments in
  commit (λ d, if bool_decide (NoDup (topic_hash <$> rows))
               then Ok (set_signatures (foldl (λ s r, <[topic_hash r := r]> s) (signatures d) rows) d)
               else Throw "ON CONFLICT DO UPDATE command cannot affect row a second time").
Definition contractVerified (contract_address : string) (d : Db) : option EVMContractVerification :=
  last (sortBy cv_id (filter (λ r, cv_contract_address r = contract_address ∧ cv_status r = SUCCESS) (verifications d))).
Definition signature_handler (contract_address : string) : io Db () :=
  v ← query (contractVerified contract_address);
  match v with None => mret () | Some v => mappingContractTopic (cv_abi v) end.
End Signatures.

(** ** What the services store *)
Lemma is_verified_spec a d : is_verified a d = true ↔ ∃ r, r ∈ verifications d ∧ cv_contract_address r = a ∧ cv_status r = SUCCESS.
Proof.
  unfold is_verified. rewrite existsb_exists. split.
  - intros (r & Hr%list_elem_of_In & [Ha%bool_decide_eq_true Hs%bool_decide_eq_true]%andb_true_iff). eauto.
  - intros (r & Hr%list_elem_of_In & Ha & Hs). exists r. split; [done|]. by rewrite !bool_decide_true.
Qed.

(** When a contract with a code is verified, the job adds one verification, a
    copy of the latest, for every contract with this code that has none, and
    no other row: afterwards all of them are verified. *)
Theorem same_code_verified codehash d v :
  NoDup (sc_id <$> smart_contracts d) → (∀ c, c ∈ smart_contracts d → 0 < sc_id c) → successVerified codehash d = Some v →
  ∃ d', insertVerifyByCodeHash codehash d = (d', Ok tt) ∧
    verifications d' = verifications d ++ serial set_cv_id (next_verification d)
      (copy_verification v <$> filter (λ c, is_verified (sc_address c) d = false) (sortBy sc_id (same_code codehash d))) ∧
    ∀ c, c ∈ smart_contracts d → sc_code_hash c = Some codehash → is_verified (sc_address c) d' = true.
Proof.
  intros Hnd Hpos Hv. eexists. split; [|split].
  - unfold insertVerifyByCodeHash. erewrite io_step by done. rewrite Hv. erewrite io_step by done.
    rewrite id_pages_all; [|unfold limitRecordGet; lia| |]; cycle 1.
    { eapply sublist_NoDup; [exact Hnd|]. apply fmap_sublist, sublist_filter. }
    { pose proof (sublist_length _ _ (sublist_filter (λ x, 0 < sc_id x) (same_code codehash d))).
      pose proof (sublist_length _ _ (sublist_filter (λ c, sc_code_hash c = Some codehash) (smart_contracts d))).
      unfold same_code in *. lia. }
    rewrite filter_all by (intros c [_ Hc]%list_elem_of_filter; by apply Hpos).
    erewrite io_step by done. erewrite io_step by done. reflexivity.
  - reflexivity.
  - intros c Hc Hh. apply is_verified_spec. destruct (is_verified (sc_address c) d) eqn:Hver.
    + apply is_verified_spec in Hver as (r & Hr & ?). exists r. split; [|done]. cbn. apply elem_of_app. by left.
    + assert (copy_verification v c ∈ copy_verification v <$> filter (λ c, is_verified (sc_address c) d = false)
        (sortBy sc_id (same_code codehash d))) as Hin.
      { apply list_elem_of_fmap_2, list_elem_of_filter. split; [done|]. rewrite sortBy_perm. by apply list_elem_of_filter. }
      apply list_elem_of_lookup in Hin as [i Hi]. exists (set_cv_id (next_verification d + Z.of_nat i) (copy_verification v c)).
      split; [|done]. cbn. apply elem_of_app. right. unfold serial. apply elem_of_lookup_imap. by exists i, (copy_verification v c).
Qed.

(** The signatures of a verified contract are all in the table, under their
    hashes; the others stay. *)
Theorem signatures_stored {E : Ethers} a d v fragments :
  contractVerified a d = Some v → interface_fragments (cv_abi v) = Ok fragments → NoDup (topic_hash <$> (signature_row <$> fragments)) →
  ∃ d', signature_handler a d = (d', Ok tt) ∧
    (∀ f, f ∈ fragments → signatures d' !! topic_hash (signature_row f) = Some (signature_row f)) ∧
    (∀ t, t ∉ topic_hash <$> (signature_row <$> fragments) → signatures d' !! t = signatures d !! t).
Proof.
  intros Hv Hf Hnd. eexists. split.
  { unfold signature_handler. erewrite io_step by done. rewrite Hv. unfold mappingContractTopic. rewrite Hf.
    erewrite io_step by done. unfold commit. by rewrite bool_decide_true. }
  cbn [signatures set_signatures].
  destruct (foldl_upsert_lookup topic_hash (λ _ r, r) (signature_row <$> fragments) (signatures d) Hnd) as [Hnew Hold].
  split; [|done]. intros f Hin. by apply Hnew, list_elem_of_fmap_2.
Qed.

(** An ABI that has a fragment twice, as with an event of a library the
    contract emits too, stores nothing: every attempt throws. *)
Theorem repeated_signature_throws {E : Ethers} a d v fragments :
  contractVerified a d = Some v → interface_fragments (cv_abi v) = Ok fragments → ¬ NoDup (topic_hash <$> (signature_row <$> fragments)) →
  ∃ msg, signature_handler a d = (d, Throw msg).
Proof.
  intros Hv Hf Hnd. eexists. unfold signature_handler. erewrite io_step by done. rewrite Hv. unfold mappingContractTopic.
  rewrite Hf. erewrite io_step by done. unfold commit. by rewrite bool_decide_false.
Qed.

(** ** Syncing from Sourcify *)
Lemma serial_app {A} (with_id : Z → A → A) next l1 l2 :
  serial with_id next (l1 ++ l2) = serial with_id next l1 ++ serial with_id (next + Z.of_nat (length l1)) l2.
Proof.
  revert next. induction l1 as [|x l1 IH]; intros next; [simpl; by rewrite Z.add_0_r|].
  rewrite <-app_comm_cons, !serial_cons, IH, <-app_comm_cons. do 3 f_equal. simpl. lia.
Qed.

Section SyncFacts.
Context {X : Texts} (chain : string).

Definition unsynced (d : Db) : list SourcifyMatch := sortBy sm_id (filter (λ m, sync_height d < sm_id m) (sourcify_matches d)).
(** The rows of a list of matches. *)
Definition synced_rows (l : list SourcifyMatch) : res (list EVMContractVerification) :=
  mapR sourcify_row (filter (λ m, to_sync chain m = true) l).
Definition sync_runs (n : nat) (d : Db) : Db := Nat.iter n (λ d, (syncSourcify (Some chain) d).1) d.

Lemma unsynced_next d d' m :
  NoDup (sm_id <$> sourcify_matches d) → last (sourcifyMatches d) = Some m →
  sourcify_matches d' = sourcify_matches d → sync_height d' = sm_id m → unsynced d' = drop jobSyncSourcify_recordsPerCall (unsynced d).
Proof.
  intros Hnd Hlast Hm Hh. unfold unsynced. rewrite Hm, Hh. by apply (next_id_page sm_id).
Qed.

Lemma ensure_checkpoint_fields d :
  sourcifyMatches (ensure_checkpoint d) = sourcifyMatches d ∧ verifications (ensure_checkpoint d) = verifications d ∧
  next_verification (ensure_checkpoint d) = next_verification d ∧ sourcify_matches (ensure_checkpoint d) = sourcify_matches d ∧
  signature_jobs (ensure_checkpoint d) = signature_jobs d.
Proof.
  unfold ensure_checkpoint. destruct (block_checkpoint d !! SYNC_SOURCIFY) as [h|] eqn:Hc; [done|]. split_and!; try done.
  unfold sourcifyMatches. f_equal. f_equal. apply list_filter_iff. intros y. unfold sync_height. rewrite Hc. cbn. by rewrite lookup_insert_eq.
Qed.

Lemma nothing_unsynced d : last (sourcifyMatches d) = None → unsynced d = [].
Proof. intros Hl%last_None. unfold sourcifyMatches in Hl. fold (unsynced d) in Hl. by destruct (unsynced d). Qed.

(** One run: the matches of a page, or none. *)
Lemma sync_idle d : last (sourcifyMatches d) = None → syncSourcify (Some chain) d = (ensure_checkpoint d, Ok tt).
Proof.
  intros Hl. destruct (ensure_checkpoint_fields d) as (Hs & _). unfold syncSourcify. do 2 erewrite io_step by done. by rewrite Hs, Hl.
Qed.

Lemma sync_run d rows m :
  last (sourcifyMatches d) = Some m → synced_rows (sourcifyMatches d) = Ok rows → forallb row_fits rows = true →
  ∃ d', syncSourcify (Some chain) d = (d', Ok tt) ∧ verifications d' = verifications d ++ serial set_cv_id (next_verification d) rows ∧
    next_verification d' = next_verification d + Z.of_nat (length rows) ∧ sourcify_matches d' = sourcify_matches d ∧
    sync_height d' = sm_id m ∧ signature_jobs d' = signature_jobs d ++ (cv_contract_address <$> rows).
Proof.
  intros Hlast Hrows Hfit. unfold syncSourcify. erewrite io_step by done.
  destruct (ensure_checkpoint_fields d) as (Hs & Hv & Hn & Hm & Hj). set (d0 := ensure_checkpoint d) in *.
  erewrite io_step by done. rewrite Hs, Hlast. unfold synced_rows in Hrows. rewrite Hrows. erewrite io_step by done.
  rewrite (io_step _ _ d0 (insert_verifications rows d0) tt) by (unfold commit, insert_synced; by rewrite Hfit).
  erewrite io_step by done. eexists. split; [reflexivity|]. cbn. rewrite Hv, Hn, Hm, Hj. split_and!; try done.
  unfold sync_height. cbn. by rewrite lookup_insert_eq.
Qed.

(** The runs take the matches page after page: after as many runs as there are
    matches, every match of this chain since the checkpoint has exactly one
    row, in the order of the ids. *)
Theorem sourcify_synced d n rows :
  NoDup (sm_id <$> sourcify_matches d) → synced_rows (unsynced d) = Ok rows → forallb row_fits rows = true →
  (length (unsynced d) <= n)%nat →
  verifications (sync_runs n d) = verifications d ++ serial set_cv_id (next_verification d) rows ∧ unsynced (sync_runs n d) = [].
Proof.
  intros Hnd. revert d rows Hnd. induction n as [|n IH]; intros d rows Hnd Hrows Hfit Hn.
  { destruct (unsynced d) as [|] eqn:Hu; [|simpl in Hn; lia]. injection Hrows as <-. cbn. rewrite app_nil_r. split; [done|exact Hu]. }
  unfold sync_runs. rewrite Nat.iter_succ_r. fold (sync_runs n (syncSourcify (Some chain) d).1).
  destruct (last (sourcifyMatches d)) as [m|] eqn:Hlast; cycle 1.
  { rewrite (nothing_unsynced d Hlast) in Hrows. injection Hrows as <-. rewrite (sync_idle d Hlast). cbn [fst].
    destruct (ensure_checkpoint_fields d) as (Hs & Hv & _ & Hm & _).
    pose proof (nothing_unsynced (ensure_checkpoint d) ltac:(by rewrite Hs)) as Hu0.
    destruct (IH (ensure_checkpoint d) []) as [H1 H2]; [by rewrite Hm|by rewrite Hu0|done|rewrite Hu0; simpl; lia|].
    split; [by rewrite H1, Hv|done]. }
  assert (unsynced d = sourcifyMatches d ++ drop jobSyncSourcify_recordsPerCall (unsynced d)) as Hsplit
    by (symmetry; apply take_drop).
  unfold synced_rows in Hrows. rewrite Hsplit, filter_app, mapR_app in Hrows.
  apply bind_Ok in Hrows as (rows1 & H1 & (rows2 & H2 & [= <-])%bind_Ok). rewrite forallb_app in Hfit. apply andb_true_iff in Hfit as [F1 F2].
  destruct (sync_run d rows1 m Hlast H1 F1) as (d' & -> & Hv & Hnx & Hm & Hh & _). cbn [fst].
  pose proof (unsynced_next d d' m Hnd Hlast Hm Hh) as Hu.
  destruct (IH d' rows2) as [IH1 IH2]; [by rewrite Hm|by rewrite Hu|done| |].
  - rewrite Hu, length_drop. assert (unsynced d ≠ []); [|destruct (unsynced d); [done|simpl in *; unfold jobSyncSourcify_recordsPerCall; lia]].
    intros He. unfold sourcifyMatches in Hlast. fold (unsynced d) in Hlast. rewrite He in Hlast. by rewrite take_nil in Hlast.
  - split; [|done]. by rewrite IH1, Hv, Hnx, serial_app, app_assoc.
Qed.

(** A process that is killed between the insert and the checkpoint: the rows
    are committed, and the next run inserts them again. *)
Theorem killed_sync_inserts_twice d rows m :
  last (sourcifyMatches d) = Some m → synced_rows (sourcifyMatches d) = Ok rows → forallb row_fits rows = true →
  let killed := insert_verifications rows d in
  verifications (syncSourcify (Some chain) killed).1 =
  verifications d ++ serial set_cv_id (next_verification d) rows ++
    serial set_cv_id (next_verification d + Z.of_nat (length rows)) rows.
Proof.
  intros Hlast Hrows Hfit killed. destruct (sync_run killed rows m) as (d' & -> & Hv & _); [done..|].
  cbn [fst]. rewrite Hv. subst killed. cbn. by rewrite <-app_assoc.
Qed.
End SyncFacts.

(** ** Examples

    A library whose archives are named by their bytes: the archive [good] has
    the metadata and its source, [bare] the metadata alone. *)
Definition zip (s : string) : string := String "080"%char (String "075"%char (String "003"%char (String "004"%char s))).
Definition demo_metadata : Json := JObj [
  ("language", JStr "Solidity"); ("version", JNum 1); ("compiler", JObj [("version", JStr "0.8.17")]);
  ("settings", JObj [("compilationTarget", JObj [("A.sol", JStr "A")])]);
  ("output", JObj [("abi", JArr []); ("userdoc", JObj []); ("devdoc", JObj [])]);
  ("sources", JObj [("A.sol", JObj [("keccak256", JStr "#contract A")])]) ].
Record DemoChecked := { dc_missing : gmap string MissingSource; dc_invalid : gmap string InvalidSource }.
#[local] Instance demo_sourcify : Sourcify := {|
  Checked := DemoChecked;
  unzipFiles l := Ok (l ≫= λ f,
    if bool_decide (pb_buffer f = zip "good")
    then [ {| pb_path := "metadata.json"; pb_buffer := "metadata" |}; {| pb_path := "A.sol"; pb_buffer := "contract A" |} ]
    else if bool_decide (pb_buffer f = zip "bare") then [ {| pb_path := "metadata.json"; pb_buffer := "metadata" |} ] else [f]);
  extractHardhatMetadataAndSources _ := Ok ([], []);
  storeByHash l := foldl (λ m f, <["#" +:+ pc_content f := f]> m) ∅ l;
  newCheckedContract _ _ missing invalid := Ok {| dc_missing := missing; dc_invalid := invalid |};
  isValid c := bool_decide (dom (dc_missing c) = ∅) && bool_decide (dom (dc_invalid c) = ∅);
  fetchMissing c := c;
  isEmpty A m := bool_decide (dom m = (∅ : gset string));
  c_missing := dc_missing; c_invalid := dc_invalid; c_name _ := "A"; c_compilerVersion _ := Some "0.8.17";
  c_metadata_version _ := Some "0.8.17"; c_metadata_settings _ := None; set_compilerVersion _ c := Ok c;
  verifyDeployed _ address := Ok (if bool_decide (address = "0xa") then Some "perfect" else None);
  recompile _ _ := Ok {| rc_metadata := "metadata"; rc_runtimeBytecode := "6080" |}
|}.
#[local] Instance demo_tools : Tools := {|
  parse_json s := if bool_decide (s = "metadata") then Ok demo_metadata else Throw "SyntaxError";
  buffer_text s := s;
  source_hash v := match v with JStr s => Ok ("#" +:+ s) | _ => Throw "TypeError" end;
  bytecode_hash s := Ok ("0x" +:+ s);
  before_0_4_10 v := match v with Some _ => Ok false | None => Throw "Invalid Version" end
|}.
#[local] Instance demo_sourcify_laws : SourcifyLaws demo_sourcify.
Proof.
  split.
  - intros files h f. cbn. assert (∀ m : gmap string PathContent, (∀ h f, m !! h = Some f → h = "#" +:+ pc_content f) →
      foldl (λ m f, <["#" +:+ pc_content f := f]> m) m files !! h = Some f → h = "#" +:+ pc_content f) as Hfold.
    { induction files as [|g files IH]; intros m Hm; cbn [foldl]; [by apply Hm|]. apply IH. intros h' f'.
      destruct (decide (h' = "#" +:+ pc_content g)) as [->|Hne]; [rewrite lookup_insert_eq|rewrite lookup_insert_ne by done; by apply Hm].
      by intros [= <-]. }
    intros Hl. rewrite (Hfold ∅); [done| |done]. by intros ? ? ?%lookup_empty_Some.
  - intros A m. cbn. rewrite bool_decide_eq_true. split; [apply dom_empty_inv_L|]. intros ->. by rewrite dom_empty_L.
Qed.

Definition demo_request (i : Z) (address files : string) : EVMContractVerification := {|
  cv_id := i; cv_contract_address := address; cv_files := Some files; cv_creator_tx_hash := None; cv_status := PENDING; cv_abi := None;
  cv_code_hash := None; cv_compile_detail := None; cv_compiler_version := None; cv_contract_name := None; cv_compiler_setting := None |}.
(** An archive without its source, a good one, and one of another contract. *)
Definition demo_requests : Db := {|
  verifications := [demo_request 1 "0xa" (zip "bare"); demo_request 2 "0xa" (zip "good"); demo_request 3 "0xb" (zip "good")];
  next_verification := 4; smart_contracts := []; signature_jobs := []; signatures := ∅; sourcify_matches := []; block_checkpoint := ∅ |}.

Example demo_runs :
  cv_status <$> verifications (runs 1 demo_requests) = [FAIL; SUCCESS; PENDING] ∧
  cv_status <$> verifications (runs 2 demo_requests) = [FAIL; SUCCESS; FAIL] ∧
  signature_jobs (runs 2 demo_requests) = ["0xa"] ∧
  cv_code_hash <$> verifications (runs 2 demo_requests) = [None; Some "0x6080"; Some "0x6080"].
Proof. split; [vm_compute; reflexivity|]. split; [vm_compute; reflexivity|]. split; vm_compute; reflexivity. Qed.

Lemma demo_ids : NoDup (cv_id <$> verifications demo_requests).
Proof. apply (bool_decide_unpack _); vm_compute; exact I. Qed.
Lemma demo_fits : patches_fit demo_requests.
Proof.
  assert (forallb (λ r, patch_fits (verifyRequest r)) (pending demo_requests) = true) as H by (vm_compute; reflexivity).
  intros r Hr%list_elem_of_In. rewrite forallb_forall in H. by apply H.
Qed.

Lemma all_requests_settled_witness :
  cv_status <$> verifications (runs 3 demo_requests) = [FAIL; SUCCESS; FAIL] ∧ pending (runs 3 demo_requests) = [].
Proof.
  destruct (proj1 (all_requests_settled demo_requests 3 demo_ids) demo_fits) as [Hv Hp]; [vm_compute; lia|].
  split; [rewrite Hv; vm_compute; reflexivity|exact Hp].
Defined.

Lemma verified_matches_witness :
  ∃ r abi code_hash name, r ∈ verifications demo_requests ∧ cv_status r = PENDING ∧ cv_id r = 2 ∧
    matches r abi code_hash name ∧ name = "A".
Proof.
  assert (∃ r', r' ∈ verifications (runs 1 demo_requests) ∧ cv_status r' = SUCCESS ∧ cv_id r' = 2 ∧ cv_contract_name r' = Some "A")
    as (r' & Hin & Hs & Hi' & Hn').
  { exists (nth 1 (verifications (runs 1 demo_requests)) (demo_request 0 "" "")).
    split; [apply list_elem_of_In, nth_In; vm_compute; lia|]. split; [vm_compute; reflexivity|]. split; vm_compute; reflexivity. }
  destruct (verified_matches demo_requests (runs 1 demo_requests) (Ok tt) r' demo_ids)
    as [Hold|(r & abi & h & name & Hr & Hp & Hi & _ & Hm & _ & _ & Hn)]; [vm_compute; reflexivity|exact Hin|exact Hs|..].
  - exfalso. apply (list_elem_of_fmap_2 cv_status) in Hold. rewrite Hs in Hold.
    assert (SUCCESS ∉ cv_status <$> verifications demo_requests) as Hno by (apply (bool_decide_unpack _); vm_compute; exact I).
    by apply Hno.
  - exists r, abi, h, name. split; [exact Hr|]. split; [exact Hp|]. split; [congruence|]. split; [exact Hm|]. congruence.
Defined.

Lemma sources_by_hash_witness :
  ∃ r c, rearrangeSources demo_metadata (storeByHash [ {| pc_path := "A.sol"; pc_content := "contract A" |} ]) = Ok r ∧
    foundSources r !! "A.sol" = Some c ∧ good_source (Some (JObj [("keccak256", JStr "#contract A")])) c.
Proof.
  destruct (rearrangeSources demo_metadata (storeByHash [ {| pc_path := "A.sol"; pc_content := "contract A" |} ])) as [r|] eqn:Hr;
    [|by vm_compute in Hr].
  destruct (sources_by_hash demo_metadata [ {| pc_path := "A.sol"; pc_content := "contract A" |} ] r
    (JObj [("A.sol", JObj [("keccak256", JStr "#contract A")])]) Hr) as (_ & Hall & _).
  - reflexivity.
  - apply NoDup_singleton.
  - destruct (Hall) with (p := "A.sol") (info := Some (JObj [("keccak256", JStr "#contract A")])) as (c & Hc & Hg).
    + injection Hr as <-. vm_compute. reflexivity.
    + by left.
    + exists r, c. done.
Defined.
