(* ===== verification/Compiler.v ===== *)
(** * The Solidity compilers

    [services/evm/solidity_compiler.ts]: the compiler of a version is found in a
    directory or downloaded, and run.  The file system is the state; the
    network, the processes and [semver] are a class. *)
From S2P Require Import Prelude JsNum Json.
From S2P Require Catalog Ics20.
From Stdlib Require Import Ascii.

(** A child process: the error of [exec], if any, and its output. *)
Record ExecResult := { ex_error : option (string * string); ex_stdout : string; ex_stderr : string }.   (* code, message *)
Class Host := {
  platform : string;
  arch : string;
  fetch : string → res (Z * string);                    (* status and body; throws when aborted *)
  runs : string → bool;                                 (* a file that ends with 0 when called with --version *)
  shell : gmap string string → string → string → ExecResult;   (* files, command line, standard input *)
  soljson : string → res (string → res (option string));       (* [import] of a file: its [compile] *)
  encodeURIComponent : string → string;
  coerced_before_0_4_0 : string → res bool;             (* [semver.lt(semver.coerce(new SemVer(v)), '0.4.0')] *)
  parse_json : string → res Json
}.
(** The files by their absolute paths. *)
Record Db := { fs : gmap string string }.

(** ** Paths *)

(** The components of [path.join] for an absolute path. *)
Definition path_step (acc : list string) (c : string) : list string :=
  if bool_decide (c = "" ∨ c = ".") then acc else if bool_decide (c = "..") then removelast acc else acc ++ [c].
Definition components (s : string) : list string := foldl path_step [] (Ics20.split s).
Definition normalize (s : string) : string := "/" +:+ Ics20.join (components s).
(** [path.join(dir, name)] for an absolute directory; a final slash is kept. *)
Definition path_join (dir name : string) : string :=
  let p := normalize (dir +:+ "/" +:+ name) in
  if bool_decide (last (Ics20.split name) = Some "") && negb (bool_decide (p = "/")) then p +:+ "/" else p.
(** [path.resolve(dir, name)] for a name that does not start with a slash. *)
Definition path_resolve (dir name : string) : string := normalize (dir +:+ "/" +:+ name).

(** ** Texts *)
Fixpoint replace_first (p q s : string) : string :=
  if String.prefix p s then q +:+ String.substring (String.length p) (String.length s - String.length p) s
  else match s with EmptyString => "" | String c s => String c (replace_first p q s) end.
Definition trim (s : string) : string := trim_end (trim_start s).
Definition is_digit (c : ascii) : bool := let n := Z.of_N (N_of_ascii c) in (48 <=? n) && (n <=? 57).
Definition is_hex (c : ascii) : bool :=
  let n := Z.of_N (N_of_ascii c) in is_digit c || ((65 <=? n) && (n <=? 70)) || ((97 <=? n) && (n <=? 102)).
Definition is_word_or_dash (c : ascii) : bool :=
  let n := Z.of_N (N_of_ascii c) in
  is_digit c || ((65 <=? n) && (n <=? 90)) || ((97 <=? n) && (n <=? 122)) || (n =? 95) || (n =? 45).
Definition is_newline (c : ascii) : bool := let n := Z.of_N (N_of_ascii c) in (n =? 10) || (n =? 13).
Fixpoint all_chars (p : ascii → bool) (s : string) : bool :=
  match s with EmptyString => true | String c s => p c && all_chars p s end.
(** What is left of a text after a nonempty run of digits. *)
Fixpoint digits (s : string) : option string :=
  match s with
  | String c s' => if is_digit c then Some (default s' (digits s')) else None
  | EmptyString => None
  end.
Definition literal (p s : string) : option string :=
  if String.prefix p s then Some (String.substring (String.length p) (String.length s - String.length p) s) else None.
(** [-v(\d+\.\d+\.\d+)\+commit\.([a-fA-F0-9]+).*$] at the start of a text *)
Definition link_tail (s : string) : bool :=
  match (s ← literal "-v" s; s ← digits s; s ← literal "." s; s ← digits s; s ← literal "." s; s ← digits s; literal "+commit." s) with
  | Some (String c rest) => is_hex c && all_chars (λ c, negb (is_newline c)) rest
  | _ => false
  end.
(** [^([\w-]+)], with every way to end it *)
Fixpoint is_link_from (s : string) : bool :=
  match s with
  | EmptyString => false
  | String c s => is_word_or_dash c && (link_tail s || is_link_from s)
  end.
Definition is_link (s : string) : bool := is_link_from s.

(** ** Finding a compiler *)
Definition HOST_SOLC_REPO := " https://binaries.soliditylang.org/".

Section Compiler.
Context {H : Host} (solcRepo : option string).        (* config.jobVerifyContractEVM.solcRepo *)

Definition findSolcPlatform : option string :=
  if bool_decide (platform = "darwin" ∧ arch = "x64") then Some "macosx-amd64"
  else if bool_decide (platform = "linux" ∧ arch = "x64") then Some "linux-amd64"
  else if bool_decide (platform = "win32" ∧ arch = "x64") then Some "windows-amd64"
  else None.
Definition existsSync (path : string) (d : Db) : bool := bool_decide (is_Some (fs d !! path)).
Definition writeFileSync (path content : string) (d : Db) : Db := {| fs := <[path := content]> (fs d) |}.
Definition validateSolcPath (solcPath : string) (d : Db) : bool := from_option runs false (fs d !! solcPath).
(** The body of the answer, or of the file a short answer names. *)
Definition download (platform version fileName : string) : res (option string) :=
  r ← fetch (HOST_SOLC_REPO +:+ platform +:+ "/" +:+ encodeURIComponent fileName);
  if r.1 =? 200 then
    if is_link r.2 then
      r' ← fetch (HOST_SOLC_REPO +:+ platform +:+ "/" +:+ r.2);
      Ok (if r'.1 =? 200 then Some r'.2 else None)
    else Ok (Some r.2)
  else Ok None.
Definition fetchAndSaveSolc (platform solcPath version fileName : string) : io Db bool :=
  buffer ← lift (download platform version fileName);
  match buffer with
  | Some b => _ ← update (writeFileSync solcPath b); mret true
  | None => mret false
  end.
Definition repo (name : string) : string :=
  match solcRepo with Some s => if bool_decide (s = "") then "/tmp/" +:+ name else s | None => "/tmp/" +:+ name end.
Definition getSolcExecutable (platform version : string) : io Db (option string) :=
  let fileName := "solc-" +:+ platform +:+ "-v" +:+ version in
  let solcPath := path_join (repo "solc-repo") fileName in
  found ← query (λ d, existsSync solcPath d && validateSolcPath solcPath d);
  if (found : bool) then mret (Some solcPath) else
  success ← fetchAndSaveSolc platform solcPath version fileName;
  valid ← query (validateSolcPath solcPath);
  if success && negb valid then mret None else mret (if (success : bool) then Some solcPath else None).
Definition js_version (version : string) : string :=
  let v := trim version in if negb (bool_decide (v = "latest")) && negb (String.prefix "v" v) then "v" +:+ v else v.
Definition getSolcJs (version : string) : io Db (option (string → res (option string))) :=
  let version := js_version version in
  let fileName := "soljson-" +:+ version +:+ ".js" in
  let soljsonPath := path_resolve (repo "soljson-repo") fileName in
  found ← query (existsSync soljsonPath);
  ready ← if (found : bool) then mret true else fetchAndSaveSolc "bin" soljsonPath version fileName;
  if negb ready then mret None else
  content ← query (λ d, fs d !! soljsonPath);
  m ← lift (match content with Some c => soljson c | None => Throw "Cannot find module" end);
  mret (Some m).

(** ** Compiling *)
Definition asyncExecSolc (d : Db) (inputStringified solcPath : string) : res string :=
  _ ← parse_json inputStringified;
  let r := shell (fs d) (solcPath +:+ " --standard-json") inputStringified in
  match ex_error r with
  | Some (code, message) =>
      Throw (if bool_decide (code = "ENOBUFS") then "Compilation output size too large" else message)
  | None => if bool_decide (ex_stderr r = "") then Ok (ex_stdout r) else Throw ("Compiler process returned with errors: " +:+ ex_stderr r)
  end.
(** [require] is not defined in a module. *)
Definition importWorker : res (option string) := Throw "ReferenceError: require is not defined".
Definition compile_js (m : string → res (option string)) (version inputStringified : string) : res (option string) :=
  old ← coerced_before_0_4_0 version;
  if (old : bool) then importWorker else m inputStringified.
Definition is_error (severity : option Json) : bool := match severity with Some (JStr s) => bool_decide (s = "error") | _ => false end.
(** [compiledJSON?.errors?.filter((e) => e.severity === 'error')] *)
Definition error_messages (compiledJSON : Json) : res (list Json) :=
  match opt_get (Some compiledJSON) "errors" with
  | None | Some JNull => Ok []
  | Some (JArr l) =>
      severities ← mapR (λ e, json_get (Some e) "severity") l;
      Ok (fst <$> filter (λ x, is_error x.2 = true) (zip l severities))
  | Some _ => Throw "TypeError: compiledJSON?.errors?.filter is not a function"
  end.
Definition check_output (compiled : option string) : res Json :=
  match compiled with
  | None | Some "" => Throw "Compilation failed. No output from the compiler."
  | Some text =>
      v ← parse_json text;
      errors ← error_messages v;
      match errors with [] => Ok v | _ => Throw "Compiler error" end
  end.
Definition useCompiler (version inputStringified : string) (forceEmscripten : bool) : io Db Json :=
  let version := replace_first "-ci." "-nightly." version in
  solcPath ← match findSolcPlatform with
             | Some p => if forceEmscripten then mret None else getSolcExecutable p version
             | None => mret None
             end;
  compiled ← match solcPath with
             | Some path => λ d, (d, Some <$> asyncExecSolc d inputStringified path)
             | None =>
                 solJson ← getSolcJs version;
                 match solJson with
                 | Some m => lift (compile_js m version inputStringified)
                 | None => mret None
                 end
             end;
  lift (check_output compiled).
Definition compile (version solcJsonInput : string) (forceEmscripten : bool) : io Db Json := useCompiler version solcJsonInput forceEmscripten.
End Compiler.

(** ** Paths *)
Lemma split_app a b : Ics20.split (a +:+ "/" +:+ b) = Ics20.split a ++ Ics20.split b.
Proof.
  induction a as [|c a IH]; [done|]. rewrite Catalog.append_cons. cbn [Ics20.split]. rewrite IH.
  destruct (decide (c = "/"%char)); [done|]. pose proof (Ics20.split_nonempty a). by destruct (Ics20.split a).
Qed.

Definition normal (c : string) : Prop := c ≠ "" ∧ c ≠ "." ∧ c ≠ "..".
Lemma path_step_normal acc c : normal c → path_step acc c = acc ++ [c].
Proof. intros (H1 & H2 & H3). unfold path_step. rewrite bool_decide_false by tauto. by rewrite bool_decide_false. Qed.
Lemma path_step_up acc c : path_step (acc ++ [c]) ".." = acc.
Proof. unfold path_step. rewrite bool_decide_false by (intros [|]; done). by rewrite bool_decide_true, removelast_last. Qed.
Lemma components_app dir name : components (dir +:+ "/" +:+ name) = foldl path_step (components dir) (Ics20.split name).
Proof. unfold components. by rewrite split_app, foldl_app. Qed.
Lemma foldl_normal acc cs : Forall normal cs → foldl path_step acc cs = acc ++ cs.
Proof.
  intros Hcs. revert acc. induction Hcs as [|c cs Hc _ IH]; intros acc; [by rewrite app_nil_r|].
  cbn [foldl]. rewrite path_step_normal, IH by done. by rewrite <-app_assoc.
Qed.

(** A name without a slash stays in the directory. *)
Lemma path_join_file dir name : Ics20.no_char "/" name = true → normal name →
  path_join dir name = "/" +:+ Ics20.join (components dir ++ [name]).
Proof.
  intros Hn Hname. unfold path_join, normalize. rewrite components_app, Ics20.split_none by done. cbn [foldl last].
  rewrite path_step_normal by done. rewrite bool_decide_false; [done|]. intros [= ->]. by destruct Hname.
Qed.

Section Facts.
Context {H : Host} (solcRepo : option string).
Abbreviation exec_path p v := (path_join (repo solcRepo "solc-repo") ("solc-" +:+ p +:+ "-v" +:+ v)).

(** ** The executable *)

(** What [getSolcExecutable] answers is a file that runs, at the path of the
    version; it is there already, or it is what was downloaded; no other file is
    touched. *)
Theorem executable_runs p v d d' path :
  getSolcExecutable solcRepo p v d = (d', Ok (Some path)) →
  path = exec_path p v ∧ validateSolcPath path d' = true ∧ (∀ k, k ≠ path → fs d' !! k = fs d !! k) ∧
  (d' = d ∨ ∃ b, download p v ("solc-" +:+ p +:+ "-v" +:+ v) = Ok (Some b) ∧ fs d' !! path = Some b).
Proof.
  unfold getSolcExecutable. rewrite bind_query.
  destruct (existsSync (exec_path p v) d && validateSolcPath (exec_path p v) d) eqn:Hf.
  - intros [= <- <-]. apply andb_true_iff in Hf as [_ Hv]. split_and!; [done..|by left].
  - unfold fetchAndSaveSolc. destruct (download p v _) as [[b|]|e] eqn:Hd; unfold mbind, io_bind, lift, update, query, mret, io_ret; cbn.
    + destruct (validateSolcPath (exec_path p v) (writeFileSync (exec_path p v) b d)) eqn:Hv; [|done]. intros [= <- <-]. split_and!; [done|exact Hv| |].
      * intros k Hk. cbn. by rewrite lookup_insert_ne.
      * right. exists b. split; [done|]. cbn. by rewrite lookup_insert_eq.
    + done.
    + done.
Qed.

(** Once it is there it is used without the network. *)
Theorem executable_cached p v d d' path :
  getSolcExecutable solcRepo p v d = (d', Ok (Some path)) → getSolcExecutable solcRepo p v d' = (d', Ok (Some path)).
Proof.
  intros Hrun. apply executable_runs in Hrun as (-> & Hv & _). unfold getSolcExecutable. rewrite bind_query.
  assert (existsSync (exec_path p v) d' = true) as ->.
  { unfold existsSync. apply bool_decide_eq_true. unfold validateSolcPath in Hv. destruct (fs d' !! exec_path p v); [by eexists|done]. }
  by rewrite Hv.
Qed.

Lemma no_char_app a s1 s2 : Ics20.no_char a (s1 +:+ s2) = Ics20.no_char a s1 && Ics20.no_char a s2.
Proof. induction s1 as [|c s IH]; [done|]. rewrite Catalog.append_cons. cbn. by rewrite IH, andb_assoc. Qed.

(** A version without a slash names a file of the directory ... *)
Theorem executable_in_repo p v : findSolcPlatform = Some p → Ics20.no_char "/" v = true →
  exec_path p v = "/" +:+ Ics20.join (components (repo solcRepo "solc-repo") ++ ["solc-" +:+ p +:+ "-v" +:+ v]).
Proof.
  intros Hp Hv. apply path_join_file; [|by repeat split].
  rewrite !no_char_app, Hv. unfold findSolcPlatform in Hp. repeat case_bool_decide; simplify_eq; reflexivity.
Qed.
End Facts.

(** ... but a version with slashes can name any file: what it is run with is up
    to the caller, who must have checked the version. *)
Theorem version_leaves_repo {H : Host} p cs : findSolcPlatform = Some p → Forall normal cs → Forall (λ c, Ics20.no_char "/" c = true) cs → cs ≠ [] →
  path_join (repo None "solc-repo") ("solc-" +:+ p +:+ "-v" +:+ "/../../../" +:+ Ics20.join cs) = "/" +:+ Ics20.join cs.
Proof.
  intros Hp Hcs Hslash Hne.
  assert (Ics20.split (Ics20.join cs) = cs) as Hsplit.
  { clear Hcs. induction cs as [|c cs IH]; [done|]. apply Forall_cons in Hslash as [Hc Hslash]. destruct cs as [|c' cs].
    - cbn. by apply Ics20.split_none.
    - rewrite Ics20.join_cons, split_app, IH by done. by rewrite Ics20.split_none. }
  set (name := "solc-" +:+ p +:+ "-v").
  assert (Ics20.no_char "/" name = true ∧ normal name) as [Hname Hnn].
  { split; [|by repeat split]. unfold name, findSolcPlatform in *. repeat case_bool_decide; simplify_eq; reflexivity. }
  assert ("solc-" +:+ p +:+ "-v" +:+ "/../../../" +:+ Ics20.join cs = name +:+ "/" +:+ ".." +:+ "/" +:+ ".." +:+ "/" +:+ ".." +:+ "/" +:+ Ics20.join cs) as ->.
  { unfold name. by rewrite !Catalog.append_assoc. }
  unfold path_join, normalize. rewrite components_app, !split_app, Hsplit, Ics20.split_none by done.
  change (Ics20.split "..") with [".."]. cbn [app foldl].
  change (components (repo None "solc-repo")) with ([] ++ ["tmp"] ++ ["solc-repo"]). rewrite app_assoc.
  rewrite (path_step_normal _ name Hnn), !path_step_up, foldl_normal by done. cbn [app]. rewrite bool_decide_false; [done|].
  rewrite !last_cons. destruct (last cs) as [c|] eqn:Hl; [|done]. cbn. intros [= ->].
  apply last_Some in Hl as [l ->]. apply Forall_app in Hcs as [_ Hl]. by apply Forall_cons in Hl as [[? _] _].
Qed.

(** ** What compiling answers *)
Section Results.
Context {H : Host} (solcRepo : option string).

(** An answer is the JSON a compiler printed, without an error among its
    messages. *)
Theorem compiled_without_errors version input force d d' v :
  compile solcRepo version input force d = (d', Ok v) →
  error_messages v = Ok [] ∧ ∃ text, parse_json text = Ok v ∧ text ≠ "" ∧
    ((∃ path, shell (fs d') (path +:+ " --standard-json") input = {| ex_error := None; ex_stdout := text; ex_stderr := "" |} ∧
        validateSolcPath path d' = true ∧ force = false) ∨
     (∃ m, m input = Ok (Some text) ∧ ∃ file, fs d' !! file ≫= (λ c, match soljson c with Ok m => Some m | Throw _ => None end) = Some m)).
Proof.
  unfold compile, useCompiler. set (ver := replace_first "-ci." "-nightly." version). intros Hrun.
  apply io_bind_Ok in Hrun as (d1 & solcPath & Hpath & Hrun). apply io_bind_Ok in Hrun as (d2 & compiled & Hcomp & Hrun).
  unfold lift in Hrun. injection Hrun as <- Hcheck.
  assert (∃ text, compiled = Some text ∧ text ≠ "" ∧ parse_json text = Ok v ∧ error_messages v = Ok []) as (text & -> & Hne & Hparse & Herr).
  { unfold check_output in Hcheck. destruct compiled as [[|c text]|]; try done. exists (String c text). destruct (parse_json _) as [w|]; [|done].
    cbn in Hcheck. destruct (error_messages w) as [[|]|] eqn:Hw; try done. by injection Hcheck as <-. }
  split; [done|]. exists text. split; [done|]. split; [done|]. destruct solcPath as [path|].
  - left. exists path. unfold asyncExecSolc in Hcomp. injection Hcomp as <- Hcomp.
    destruct (parse_json input); [|done]. cbn in Hcomp.
    destruct (shell (fs d1) (path +:+ " --standard-json") input) as [[[]|] out err]; [done|]. cbn in Hcomp.
    case_bool_decide as Hs; [|done]. injection Hcomp as ->. split; [by rewrite Hs|].
    destruct findSolcPlatform; [|done]. destruct force; [done|]. apply executable_runs in Hpath as (_ & Hv & _). done.
  - right. apply io_bind_Ok in Hcomp as (d3 & m & Hm & Hcomp). destruct m as [m|]; [|by injection Hcomp as _ ?].
    unfold lift, compile_js in Hcomp. injection Hcomp as <- Hcomp. exists m. split.
    { destruct (coerced_before_0_4_0 ver) as [[|]|]; [done..|done]. }
    unfold getSolcJs in Hm. apply io_bind_Ok in Hm as (d4 & found & Hf & Hm). apply io_bind_Ok in Hm as (d5 & ready & Hr & Hm).
    destruct ready; [|done]. cbn [negb] in Hm. apply io_bind_Ok in Hm as (d6 & content & Hc & Hm).
    apply io_bind_Ok in Hm as (d7 & m' & Hm' & Hm). unfold query in Hc. injection Hc as <- Hc. unfold lift in Hm'.
    injection Hm' as <- Hm'. injection Hm as <- ->. eexists. rewrite Hc. destruct content as [c|]; [|done]. cbn. by rewrite Hm'.
Qed.

(** A version without a platform binary leaves the files as they are and is
    compiled with the JavaScript compiler. *)
Theorem no_binary_falls_back p version input d :
  findSolcPlatform = Some p → let ver := replace_first "-ci." "-nightly." version in
  let file := "solc-" +:+ p +:+ "-v" +:+ ver in
  fs d !! path_join (repo solcRepo "solc-repo") file = None → download p ver file = Ok None →
  compile solcRepo version input false d = compile solcRepo version input true d.
Proof.
  intros Hp ver file Hfile Hd. unfold compile, useCompiler. fold ver. rewrite Hp.
  assert (getSolcExecutable solcRepo p ver d = (d, Ok None)) as Hnone.
  { unfold getSolcExecutable. rewrite bind_query. fold file. unfold existsSync. rewrite Hfile. cbn.
    unfold fetchAndSaveSolc. by rewrite Hd. }
  rewrite (io_step _ _ _ _ _ Hnone). by rewrite (io_step (mret None) _ d d None).
Qed.

(** The compilers before 0.4.0 are to run in a worker, which cannot be started:
    a contract of theirs is never compiled. *)
Theorem old_version_never_compiles version input d d' r :
  coerced_before_0_4_0 (replace_first "-ci." "-nightly." version) = Ok true →
  compile solcRepo version input true d = (d', r) → is_ok r = false.
Proof.
  intros Hold. unfold compile, useCompiler. set (ver := replace_first "-ci." "-nightly." version) in *.
  assert (∀ k : option string → io Db Json, (match findSolcPlatform with
    | Some p => if true then mret None else getSolcExecutable solcRepo p ver | None => mret None end ≫= k) d = k None d) as ->
    by (intros k; by destruct findSolcPlatform).
  destruct (getSolcJs solcRepo ver d) as [d1 [[m|]|e]] eqn:Hjs; unfold mbind, io_bind; rewrite Hjs; unfold lift, compile_js; rewrite ?Hold; cbn.
  - by intros [= <- <-].
  - by intros [= <- <-].
  - by intros [= <- <-].
Qed.
End Results.

(** ** An example: a version whose file is a link, and one without a binary *)
#[local] Instance demo_host : Host := {|
  platform := "linux"; arch := "x64";
  fetch url :=
    if bool_decide (url = HOST_SOLC_REPO +:+ "linux-amd64/solc-linux-amd64-v0.8.7") then Ok (200, "solc-linux-amd64-v0.8.7+commit.e28d00a7")
    else if bool_decide (url = HOST_SOLC_REPO +:+ "linux-amd64/solc-linux-amd64-v0.8.7+commit.e28d00a7") then Ok (200, "ELF")
    else if bool_decide (url = HOST_SOLC_REPO +:+ "bin/soljson-v0.8.7-nightly.1.js") then Ok (200, "var Module")
    else Ok (404, "");
  runs content := bool_decide (content = "ELF");
  shell files command input := {| ex_error := None; ex_stdout := "{}"; ex_stderr := "" |};
  soljson content := Ok (λ _, Ok (Some "js"));
  encodeURIComponent s := s;
  coerced_before_0_4_0 v := Ok (String.prefix "0.3" v);
  parse_json s := if bool_decide (s = "{}") then Ok (JObj [])
                  else if bool_decide (s = "js") then Ok (JObj [("errors", JArr [JObj [("severity", JStr "warning")]])]) else Throw "SyntaxError"
|}.

Example demo_links :
  is_link <$> ["solc-linux-amd64-v0.4.10+commit.9e8cc01b"; "soljson-v0.4.10+commit.9e8cc01b.js"; "v0.4.10+commit.9"; "a-v0.4+commit.9"; "ELF"]
  = [true; true; false; false; false].
Proof. vm_compute. reflexivity. Qed.

Example demo_paths :
  path_join "/tmp/solc-repo" <$> ["solc-v1"; "solc-v/../../../bin/sh"; "solc-v./x/"] =
  ["/tmp/solc-repo/solc-v1"; "/bin/sh"; "/tmp/solc-repo/solc-v./x/"].
Proof. vm_compute. reflexivity. Qed.

Example demo_compile :
  let r := compile None "0.8.7" "{}" false {| fs := ∅ |} in
  r.2 = Ok (JObj []) ∧ fs r.1 !! "/tmp/solc-repo/solc-linux-amd64-v0.8.7" = Some "ELF".
Proof. split; vm_compute; reflexivity. Qed.
(** The binary of a nightly build is missing: the JavaScript compiler is used. *)
Example demo_fallback :
  let r := compile None "0.8.7-ci.1" "{}" false {| fs := ∅ |} in
  r.2 = Ok (JObj [("errors", JArr [JObj [("severity", JStr "warning")]])]) ∧
  fs r.1 !! "/tmp/soljson-repo/soljson-v0.8.7-nightly.1.js" = Some "var Module".
Proof. split; vm_compute; reflexivity. Qed.
Example demo_old : (compile None "0.3.6" "{}" true {| fs := {["/tmp/soljson-repo/soljson-v0.3.6.js" := "var Module"]} |}).2 =
  Throw "ReferenceError: require is not defined".
Proof. vm_compute. reflexivity. Qed.

Lemma compiled_without_errors_witness :
  error_messages (JObj []) = Ok [] ∧ (compile None "0.8.7" "{}" false {| fs := ∅ |}).2 = Ok (JObj []).
Proof.
  assert ((compile None "0.8.7" "{}" false {| fs := ∅ |}).2 = Ok (JObj [])) as Hr by (vm_compute; reflexivity).
  split; [|exact Hr]. destruct (compile None "0.8.7" "{}" false {| fs := ∅ |}) as [d' r] eqn:Hc. cbn in Hr. subst r.
  exact (proj1 (compiled_without_errors None "0.8.7" "{}" false {| fs := ∅ |} d' (JObj []) Hc)).
Defined.
