(* ===== verification/Genesis.v ===== *)
(** * The genesis

    [services/crawl-genesis/crawl_genesis.service.ts]: a job downloads the
    genesis file of the chain, seven jobs fill the tables from it, and the
    process ends when all are done.  This file has the tables, the download and
    the protocol every job follows; GenesisRows.v has the seven jobs.  The node
    and the parts of the genesis file are classes; the rows are those of the
    components they belong to. *)
From S2P Require Import Prelude JsNum Checkpoint.
From S2P Require Export Json.
From S2P Require Import Feegrant IbcTao Contracts Address Registry Validators Accounts Proposals.

(** ** Tables *)

(** A table whose ids come from a sequence. *)
Record Serial (A : Type) := { rows : list A; next_id : Z }.
Arguments rows {A} _.
Arguments next_id {A} _.
Definition insert_serial {A} (with_id : Z → A → A) (l : list A) (t : Serial A) : Serial A := {|
  rows := rows t ++ serial with_id (next_id t) l; next_id := next_id t + Z.of_nat (length l) |}.

(** A row of [account] the genesis writes: it has no [evm_address]. *)
Record Account := {
  ac_id : Z; ac_address : string; ac_balances : list Accounts.Coin; ac_spendable_balances : list Accounts.Coin;
  ac_type : string; ac_pubkey : option Json; ac_account_number : Z; ac_sequence : Z }.

Record Tables := {
  account : Serial Account;
  account_vesting : gmap Z AccountVesting;
  validator : gmap string Validator;                 (* by operator_address *)
  proposal : gmap Z Proposals.Proposal;
  code : gmap Z Code;
  smart_contract : Serial SmartContract;
  feegrant : Serial Feegrant;
  ibc_client : Serial IbcClient;
  ibc_connection : Serial IbcConnection;
  ibc_channel : Serial IbcChannel
}.
Definition set_accounts a v t := {|
  account := a; account_vesting := v; validator := validator t; proposal := proposal t; code := code t;
  smart_contract := smart_contract t; feegrant := feegrant t; ibc_client := ibc_client t;
  ibc_connection := ibc_connection t; ibc_channel := ibc_channel t |}.
Definition set_validators v t := {|
  account := account t; account_vesting := account_vesting t; validator := v; proposal := proposal t; code := code t;
  smart_contract := smart_contract t; feegrant := feegrant t; ibc_client := ibc_client t;
  ibc_connection := ibc_connection t; ibc_channel := ibc_channel t |}.
Definition set_proposals p t := {|
  account := account t; account_vesting := account_vesting t; validator := validator t; proposal := p; code := code t;
  smart_contract := smart_contract t; feegrant := feegrant t; ibc_client := ibc_client t;
  ibc_connection := ibc_connection t; ibc_channel := ibc_channel t |}.
Definition set_codes c t := {|
  account := account t; account_vesting := account_vesting t; validator := validator t; proposal := proposal t; code := c;
  smart_contract := smart_contract t; feegrant := feegrant t; ibc_client := ibc_client t;
  ibc_connection := ibc_connection t; ibc_channel := ibc_channel t |}.
Definition set_smart_contracts c t := {|
  account := account t; account_vesting := account_vesting t; validator := validator t; proposal := proposal t;
  code := code t; smart_contract := c; feegrant := feegrant t; ibc_client := ibc_client t;
  ibc_connection := ibc_connection t; ibc_channel := ibc_channel t |}.
Definition set_feegrants f t := {|
  account := account t; account_vesting := account_vesting t; validator := validator t; proposal := proposal t;
  code := code t; smart_contract := smart_contract t; feegrant := f; ibc_client := ibc_client t;
  ibc_connection := ibc_connection t; ibc_channel := ibc_channel t |}.
Definition set_ibc cl co ch t := {|
  account := account t; account_vesting := account_vesting t; validator := validator t; proposal := proposal t;
  code := code t; smart_contract := smart_contract t; feegrant := feegrant t; ibc_client := cl;
  ibc_connection := co; ibc_channel := ch |}.

(** The file genesis.json, the jobs that wait, the cache of denominations, and
    whether the process has ended. *)
Record Db := {
  tables : Tables;
  genesis_file : option string;
  genesis_queue : list string;
  ibc_denom : gmap string string;
  exited : bool;
  block_checkpoint : gmap string Z
}.
Definition set_tables t d := {|
  tables := t; genesis_file := genesis_file d; genesis_queue := genesis_queue d; ibc_denom := ibc_denom d;
  exited := exited d; block_checkpoint := block_checkpoint d |}.
Definition set_file f d := {|
  tables := tables d; genesis_file := f; genesis_queue := genesis_queue d; ibc_denom := ibc_denom d;
  exited := exited d; block_checkpoint := block_checkpoint d |}.
Definition set_queue q d := {|
  tables := tables d; genesis_file := genesis_file d; genesis_queue := q; ibc_denom := ibc_denom d;
  exited := exited d; block_checkpoint := block_checkpoint d |}.
Definition set_cache c d := {|
  tables := tables d; genesis_file := genesis_file d; genesis_queue := genesis_queue d; ibc_denom := c;
  exited := exited d; block_checkpoint := block_checkpoint d |}.
Definition set_exited d := {|
  tables := tables d; genesis_file := genesis_file d; genesis_queue := genesis_queue d; ibc_denom := ibc_denom d;
  exited := true; block_checkpoint := block_checkpoint d |}.
Definition set_checkpoint (job : string) (h : Z) d := {|
  tables := tables d; genesis_file := genesis_file d; genesis_queue := genesis_queue d; ibc_denom := ibc_denom d;
  exited := exited d; block_checkpoint := <[job := h]> (block_checkpoint d) |}.

(** ** Jobs *)
Definition CRAWL_GENESIS := "crawl:genesis".
Definition CRAWL_GENESIS_ACCOUNT := "crawl:genesis-account".
Definition CRAWL_GENESIS_VALIDATOR := "crawl:genesis-validator".
Definition CRAWL_GENESIS_PROPOSAL := "crawl:genesis-proposal".
Definition CRAWL_GENESIS_CODE := "crawl:genesis-code".
Definition CRAWL_GENESIS_CONTRACT := "crawl:genesis-contract".
Definition CRAWL_GENESIS_FEEGRANT := "crawl:genesis-feegrant".
Definition CRAWL_GENESIS_IBC_TAO := "crawl:genesis-ibc-tao".
Definition genesisJobs : list string :=
  [CRAWL_GENESIS_ACCOUNT; CRAWL_GENESIS_VALIDATOR; CRAWL_GENESIS_PROPOSAL; CRAWL_GENESIS_CODE;
   CRAWL_GENESIS_CONTRACT; CRAWL_GENESIS_FEEGRANT; CRAWL_GENESIS_IBC_TAO].

Definition createJob (job : string) (d : Db) : Db := set_queue (genesis_queue d ++ [job]) d.

(** [checkpoint.length < genesisJobs.length || checkpoint.find(c => c.height !== 1)] *)
Definition all_done (checkpoint : gmap string Z) : bool :=
  forallb (λ job, bool_decide (checkpoint !! job = Some 1)) genesisJobs.
Definition terminateProcess (d : Db) : Db := if all_done (block_checkpoint d) then set_exited d else d.

Definition checkGenesisJobProcess (jobName : string) (d : Db) : Z :=
  if bool_decide (block_checkpoint d !! CRAWL_GENESIS ≠ Some 1) then 1
  else if bool_decide (block_checkpoint d !! jobName = Some 1) then 2
  else 0.

(** The shape of a job: what it reads and asks for, then its transaction. *)
Definition genesis_job {W} (jobName : string) (prepare : io Db W) (write : W → Tables → res Tables) : io Db () :=
  genesisProcess ← query (checkGenesisJobProcess jobName);
  if bool_decide (genesisProcess ≠ 0) then mret () else
  w ← prepare;
  commit (λ d, t ← write w (tables d); Ok (set_checkpoint jobName 1 (set_tables t d)));;
  update terminateProcess.

(** ** The download *)

(** An answer of the node, an error with its code, or one whose message is not
    JSON. *)
Inductive Rpc := Answer (text : string) | RpcError (code : Z) | BadError (msg : string).

Class GenesisRpc := {
  (** [JSON.stringify(genesis.result.genesis)] *)
  rpc_genesis : Rpc;
  (** the decoded text of a chunk *)
  genesis_chunked : nat → Rpc
}.

Section Download.
Context {R : GenesisRpc}.

Definition appendFileSync (text : string) (d : Db) : Db :=
  set_file (Some (default "" (genesis_file d) +:+ text)) d.

(** [while (!done)]: the handler of the errors of a chunk looks at the error
    of the first request, which had the code -32603, so every error ends the
    loop. *)
Fixpoint read_chunks (fuel index : nat) : io Db () :=
  match fuel with
  | O => throw "fuel"
  | S fuel => match genesis_chunked index with
              | Answer text => update (appendFileSync text);; read_chunks fuel (S index)
              | RpcError _ | BadError _ => mret ()
              end
  end.

Definition finish_download : io Db () :=
  update (set_checkpoint CRAWL_GENESIS 1);;
  update (λ d, foldl (λ d job, createJob job d) d (filter (λ job, job ≠ CRAWL_GENESIS_CONTRACT) genesisJobs)).

Definition handleGenesis (fuel : nat) : io Db () :=
  genesisBlkCheck ← query (λ d, block_checkpoint d !! CRAWL_GENESIS);
  if match genesisBlkCheck with Some h => 0 <? h | None => false end then update terminateProcess else
  update (appendFileSync "");;
  match rpc_genesis with
  | Answer text => update (appendFileSync text);; finish_download
  | RpcError code => if code =? -32603 then read_chunks fuel 0;; finish_download else mret ()
  | BadError msg => throw msg
  end.
End Download.

(** ** What the download leaves *)
Section Downloaded.
Context {R : GenesisRpc}.

(** The texts of the first [n] chunks. *)
Definition chunk_text (n : nat) : string :=
  foldr (λ i s, match genesis_chunked i with Answer text => text +:+ s | _ => s end) "" (seq 0 n).
Definition is_answer_rpc (r : Rpc) : bool := match r with Answer _ => true | _ => false end.

Lemma read_chunks_run fuel index n d :
  (∀ i, (index <= i < index + n)%nat → is_answer_rpc (genesis_chunked i) = true) →
  is_answer_rpc (genesis_chunked (index + n)) = false → (n < fuel)%nat →
  ∃ f, read_chunks fuel index d = (set_file f d, Ok tt) ∧
    ∀ s, genesis_file d = Some s →
      f = Some (s +:+ foldr (λ i s, match genesis_chunked i with Answer text => text +:+ s | _ => s end) "" (seq index n)).
Proof.
  revert fuel index d. induction n as [|n IH]; intros fuel index d Hall Hend Hf; (destruct fuel as [|fuel]; [lia|]); cbn [read_chunks].
  - rewrite Nat.add_0_r in Hend. destruct (genesis_chunked index) eqn:Hc; [done|..];
      (exists (genesis_file d); split; [by destruct d|]; intros s ->; simpl; by rewrite string_app_nil).
  - destruct (genesis_chunked index) as [text|code|msg] eqn:Hc; [|by specialize (Hall index ltac:(lia)); rewrite Hc in Hall..].
    erewrite io_step by done. cbv beta.
    destruct (IH fuel (S index) (appendFileSync text d)) as (f & Hrun & Hfile).
    + intros i Hi. apply Hall. lia.
    + by replace (S index + n)%nat with (index + S n)%nat by lia.
    + lia.
    + exists f. split; [by rewrite Hrun|]. intros s Hs. rewrite (Hfile (s +:+ text)).
      * simpl. rewrite Hc. by rewrite string_app_assoc.
      * unfold appendFileSync. simpl. by rewrite Hs.
Qed.

Lemma created_jobs d l : genesis_queue (foldl (λ d job, createJob job d) d l) = genesis_queue d ++ l ∧
  tables (foldl (λ d job, createJob job d) d l) = tables d ∧
  genesis_file (foldl (λ d job, createJob job d) d l) = genesis_file d ∧
  block_checkpoint (foldl (λ d job, createJob job d) d l) = block_checkpoint d ∧
  exited (foldl (λ d job, createJob job d) d l) = exited d.
Proof.
  revert d. induction l as [|job l IH]; intros d; [by rewrite app_nil_r|]. simpl.
  destruct (IH (createJob job d)) as (-> & -> & -> & -> & ->). unfold createJob. simpl. by rewrite <-app_assoc.
Qed.

(** The jobs the download starts. *)
Definition started_jobs : list string :=
  [CRAWL_GENESIS_ACCOUNT; CRAWL_GENESIS_VALIDATOR; CRAWL_GENESIS_PROPOSAL; CRAWL_GENESIS_CODE;
   CRAWL_GENESIS_FEEGRANT; CRAWL_GENESIS_IBC_TAO].

Lemma finish_download_run d :
  ∃ d', finish_download d = (d', Ok tt) ∧ genesis_file d' = genesis_file d ∧ tables d' = tables d ∧
    genesis_queue d' = genesis_queue d ++ started_jobs ∧
    block_checkpoint d' = <[CRAWL_GENESIS := 1]> (block_checkpoint d) ∧ exited d' = exited d.
Proof.
  unfold finish_download. erewrite io_step by done. cbv beta. eexists. split; [done|].
  destruct (created_jobs (set_checkpoint CRAWL_GENESIS 1 d)
    (filter (λ job, job ≠ CRAWL_GENESIS_CONTRACT) genesisJobs)) as (-> & -> & -> & -> & ->). done.
Qed.

(** A node that refuses the genesis for its size is asked for chunks.  The
    file gets the chunks before the first one that is not answered, whatever
    the error is, after what the file held before; the download is marked as
    done and the jobs but the one for contracts are started.  A request that
    fails for another reason, as a timeout, ends the file early. *)
Theorem genesis_from_chunks fuel n d :
  (∀ h, block_checkpoint d !! CRAWL_GENESIS = Some h → h <= 0) → rpc_genesis = RpcError (-32603) →
  (∀ i, (i < n)%nat → is_answer_rpc (genesis_chunked i) = true) → is_answer_rpc (genesis_chunked n) = false →
  (n < fuel)%nat →
  ∃ d', handleGenesis fuel d = (d', Ok tt) ∧
    genesis_file d' = Some (default "" (genesis_file d) +:+ chunk_text n) ∧ tables d' = tables d ∧
    genesis_queue d' = genesis_queue d ++ started_jobs ∧
    block_checkpoint d' = <[CRAWL_GENESIS := 1]> (block_checkpoint d).
Proof.
  intros Hcheck Hg Hall Hend Hf. unfold handleGenesis. erewrite io_step by done. cbv beta.
  assert (match block_checkpoint d !! CRAWL_GENESIS with Some h => 0 <? h | None => false end = false) as ->.
  { destruct (_ !! _) as [h|] eqn:Hh; [|done]. specialize (Hcheck h eq_refl). lia. }
  erewrite io_step by done. cbv beta. rewrite Hg. simpl.
  destruct (read_chunks_run fuel 0 n (appendFileSync "" d)) as (f & Hrun & Hfile); [intros; apply Hall; lia|done|done|].
  unfold mbind at 1, io_bind at 1. rewrite Hrun.
  destruct (finish_download_run (set_file f (appendFileSync "" d))) as (d' & -> & Hf' & Ht & Hq & Hc & _).
  exists d'. split; [done|]. rewrite Hf', Ht, Hq, Hc. split_and!; try done. simpl.
  rewrite (Hfile (default "" (genesis_file d))); [done|]. simpl. by rewrite string_app_nil.
Qed.

(** A genesis that is answered at once is appended to the file. *)
Theorem genesis_at_once fuel text d :
  (∀ h, block_checkpoint d !! CRAWL_GENESIS = Some h → h <= 0) → rpc_genesis = Answer text →
  ∃ d', handleGenesis fuel d = (d', Ok tt) ∧
    genesis_file d' = Some (default "" (genesis_file d) +:+ text) ∧ tables d' = tables d ∧
    genesis_queue d' = genesis_queue d ++ started_jobs ∧
    block_checkpoint d' = <[CRAWL_GENESIS := 1]> (block_checkpoint d).
Proof.
  intros Hcheck Hg. unfold handleGenesis. erewrite io_step by done. cbv beta.
  assert (match block_checkpoint d !! CRAWL_GENESIS with Some h => 0 <? h | None => false end = false) as ->.
  { destruct (_ !! _) as [h|] eqn:Hh; [|done]. specialize (Hcheck h eq_refl). lia. }
  erewrite io_step by done. cbv beta. rewrite Hg. erewrite io_step by done. cbv beta.
  destruct (finish_download_run (appendFileSync text (appendFileSync "" d))) as (d' & -> & Hf' & Ht & Hq & Hc & _).
  exists d'. split; [done|]. rewrite Hf', Ht, Hq, Hc. split_and!; try done. simpl. by rewrite string_app_nil.
Qed.

(** A later run does not look at the file again, nor does it start the jobs. *)
Lemma genesis_downloaded_once fuel d h :
  block_checkpoint d !! CRAWL_GENESIS = Some h → 0 < h → handleGenesis fuel d = (terminateProcess d, Ok tt).
Proof.
  intros Hh Hpos. unfold handleGenesis. erewrite io_step by done. cbv beta. rewrite Hh.
  by rewrite (proj2 (Z.ltb_lt _ _) Hpos).
Qed.
End Downloaded.

(** ** The protocol *)
Section Protocol.
Context {W : Type} (jobName : string) (prepare : io Db W) (write : W → Tables → res Tables).

(** A job whose checkpoint is set, or that comes before the end of the
    download, does nothing. *)
Lemma genesis_job_idle d : checkGenesisJobProcess jobName d ≠ 0 → genesis_job jobName prepare write d = (d, Ok tt).
Proof. intros H. unfold genesis_job. erewrite io_step by done. cbv beta. by rewrite bool_decide_eq_true_2. Qed.

(** The cases of a run. *)
Lemma genesis_job_cases d d' o :
  genesis_job jobName prepare write d = (d', o) →
  (d' = d ∧ o = Ok tt ∧ checkGenesisJobProcess jobName d ≠ 0) ∨
  (∃ msg, o = Throw msg ∧ d' = (prepare d).1 ∧ checkGenesisJobProcess jobName d = 0) ∨
  ∃ d1 w t, checkGenesisJobProcess jobName d = 0 ∧ prepare d = (d1, Ok w) ∧ write w (tables d1) = Ok t ∧
    d' = terminateProcess (set_checkpoint jobName 1 (set_tables t d1)) ∧ o = Ok tt.
Proof.
  intros Hrun. unfold genesis_job in Hrun. erewrite io_step in Hrun by done. cbv beta in Hrun.
  case_bool_decide as Hp; [injection Hrun as <- <-; by left|].
  unfold mbind at 1, io_bind at 1 in Hrun. destruct (prepare d) as [d1 [w|msg]] eqn:Hprep; cycle 1.
  { injection Hrun as <- <-. right. left. by exists msg. }
  unfold commit, mbind, io_bind in Hrun. destruct (write w (tables d1)) as [t|msg] eqn:Hw; simpl in Hrun.
  - injection Hrun as <- <-. right. right. exists d1, w, t. done.
  - injection Hrun as <- <-. right. left. by exists msg.
Qed.

Lemma genesis_job_run d d1 w t :
  checkGenesisJobProcess jobName d = 0 → prepare d = (d1, Ok w) → write w (tables d1) = Ok t →
  genesis_job jobName prepare write d = (terminateProcess (set_checkpoint jobName 1 (set_tables t d1)), Ok tt).
Proof.
  intros Hp Hprep Hw. unfold genesis_job. erewrite io_step by done. cbv beta.
  rewrite bool_decide_eq_false_2 by (rewrite Hp; intros H; by apply H). unfold mbind at 1, io_bind at 1. rewrite Hprep.
  unfold commit, mbind, io_bind. by rewrite Hw.
Qed.
End Protocol.

Lemma checkGenesisJobProcess_0 job d :
  checkGenesisJobProcess job d = 0 ↔ block_checkpoint d !! CRAWL_GENESIS = Some 1 ∧ block_checkpoint d !! job ≠ Some 1.
Proof.
  unfold checkGenesisJobProcess. destruct (decide (block_checkpoint d !! CRAWL_GENESIS = Some 1)) as [Hg|Hg].
  - rewrite bool_decide_eq_false_2 by (intros H; by apply H). case_bool_decide; naive_solver.
  - rewrite bool_decide_eq_true_2 by done. naive_solver.
Qed.

Lemma checkGenesisJobProcess_cases job d :
  checkGenesisJobProcess job d = 1 ∨
  (checkGenesisJobProcess job d = 2 ∧ block_checkpoint d !! job = Some 1) ∨ checkGenesisJobProcess job d = 0.
Proof.
  unfold checkGenesisJobProcess. destruct (bool_decide (_ ≠ _)); [by left|]. case_bool_decide; auto.
Qed.

Lemma terminateProcess_fields d :
  tables (terminateProcess d) = tables d ∧ block_checkpoint (terminateProcess d) = block_checkpoint d ∧
  genesis_queue (terminateProcess d) = genesis_queue d ∧ genesis_file (terminateProcess d) = genesis_file d ∧
  ibc_denom (terminateProcess d) = ibc_denom d ∧
  exited (terminateProcess d) = exited d || all_done (block_checkpoint d).
Proof. unfold terminateProcess. destruct (all_done _); [by rewrite orb_true_r|by rewrite orb_false_r]. Qed.

Lemma all_done_spec t : all_done t = true ↔ ∀ job, job ∈ genesisJobs → t !! job = Some 1.
Proof.
  unfold all_done. rewrite forallb_forall. split; intros H job Hj.
  - specialize (H job (proj1 (list_elem_of_In _ _) Hj)). by apply bool_decide_eq_true_1 in H.
  - rewrite bool_decide_eq_true. apply H. by apply list_elem_of_In.
Qed.
