(* ===== verification/GenesisRows.v ===== *)
(** * The tables of the genesis

    The seven jobs of [services/crawl-genesis/crawl_genesis.service.ts] that
    fill the tables from genesis.json, and the system they form: which rows
    they write, that each writes once, and when the process ends. *)
From S2P Require Import Prelude JsNum Checkpoint.
From S2P Require Import Feegrant IbcTao Contracts Address Registry Validators Accounts Proposals Genesis.

(** ** JSON *)
(** [Utils.flattenObject]: the entries of the objects inside an object become
    entries of the result, except for [pub_key]; a later entry wins. *)
Fixpoint flattenObject (j : Json) : gmap string Json :=
  match j with
  | JObj l =>
      (fix go (l : list (string * Json)) (acc : gmap string Json) :=
         match l with
         | [] => acc
         | (k, v) :: l =>
             go l (match v with
                   | JObj _ => if bool_decide (k = "pub_key") then <[k := v]> acc else flattenObject v ∪ acc
                   | _ => <[k := v]> acc
                   end)
         end) l ∅
  | _ => ∅
  end.

(** A field as a text, for [parseInt] and for a column. *)
Definition str_field (m : gmap string Json) (k : string) : option string :=
  match m !! k with Some (JStr s) => Some s | Some (JNum z) => Some (toString z) | _ => None end.
Definition coin_of_json (j : Json) : option Accounts.Coin :=
  match j with
  | JObj l => let m := flattenObject j in
      d ← str_field m "denom"; a ← str_field m "amount";
      Some {| Accounts.c_denom := d; Accounts.c_amount := a; Accounts.c_base_denom := None |}
  | _ => None
  end.

(** ** The file and the node *)
Record GenBalance := { gb_address : string; gb_coins : list (string * string) }.     (* denom, amount *)
(** A message of a genesis transaction. *)
Record GenMsg := {
  gm_type : string; gm_pubkey_type : string; gm_pubkey_key : string; gm_validator_address : string;
  gm_value_amount : string; gm_description : string; gm_commission : string; gm_min_self_delegation : string }.
Record GenCode := { gc_code_id : string; gc_creator : string; gc_code_hash : string; gc_instantiate_config : string }.
Record GenContract := { gx_contract_address : string; gx_creator : string; gx_code_id : string }.
Record GenFeegrant := { gf_granter : string; gf_grantee : string; gf_allowance : Allowance }.
Record GenClient := { gl_client_id : string; gl_client_state : ClientState }.
Record GenConsensus := { gs_client_id : string; gs_consensus_states : list string }.
Record GenConnection := {
  gn_id : string; gn_client_id : string; gn_counterparty_client_id : string; gn_counterparty_connection_id : string }.
Record GenChannel := {
  gh_channel_id : string; gh_port_id : string; gh_counterparty_port_id : string; gh_counterparty_channel_id : string;
  gh_state : string; gh_connection_hops : list string }.

(** The array at a path of the text of a file ([Pick], [StreamArray]); a text
    that is not JSON is an error. *)
Class GenesisFile := {
  bank_balances : string → res (list GenBalance);
  auth_accounts : string → res (list Json);
  gen_txs : string → res (list (list GenMsg));          (* the messages of each *)
  staking_validators : string → res (list OnchainValidator);
  gov_proposals : string → res (list (ProposalV1beta1 + ProposalV1));
  wasm_codes : string → res (list GenCode);
  wasm_contracts : string → res (list GenContract);
  feegrant_allowances : string → res (list GenFeegrant);
  ibc_clients : string → res (list GenClient);
  ibc_clients_consensus : string → res (list GenConsensus);
  ibc_connections : string → res (list GenConnection);
  ibc_channels : string → res (list GenChannel)
}.
Class GenesisNode := {
  (** the base denomination of an IBC denomination *)
  denom_trace : string → res (option string);
  (** the data of [contract_info], when there is any *)
  raw_cw2 : string → res (option Cw2);
  (** code id and height of the creation *)
  contract_info : string → res (option (Z * Z));
  (** [Buffer.from(text, 'base64').toString('hex')] *)
  base64_to_hex : string → string
}.

Definition readStreamGenesis {A} (read : string → res (list A)) : io Db (list A) :=
  file ← query genesis_file;
  match file with
  | Some text => lift (read text)
  | None => throw "ENOENT: no such file or directory, open 'genesis.json'"
  end.

(** lodash [_.chunk(l, n)] *)
Fixpoint chunk_fuel {A} (fuel n : nat) (l : list A) : list (list A) :=
  match fuel, l with
  | _, [] => []
  | O, l => [l]
  | S fuel, l => take n l :: chunk_fuel fuel n (drop n l)
  end.
Definition chunk {A} (n : nat) (l : list A) : list (list A) := chunk_fuel (length l) n l.

Definition accountsPerBatch : nat := 3000.
Definition proposalsPerBatch : nat := 3000.
Definition codesPerBatch : nat := 5000.
Definition smartContractsPerBatch : nat := 5000.
Definition feeGrantsPerBatch : nat := 5000.

Definition type_error : string := "TypeError: Cannot read properties of undefined".

Section Jobs.
Context {F : GenesisFile} {N : GenesisNode} {K : StakingCodec} {C : AddressCodec} {E : Encoding}.

(** ** Accounts *)

(** What the loop builds: the two lists of balances are one array. *)
Record GenAccount := {
  ga_address : string; ga_coins : list Accounts.Coin; ga_type : option string; ga_pubkey : option Json;
  ga_account_number : option Z; ga_sequence : option Z; ga_auth : gmap string Json }.

Definition parse_field (m : gmap string Json) (k : string) : option Z := s ← str_field m k; parseInt s.
Definition gen_account (auths : gmap string (gmap string Json)) (bal : GenBalance) : res GenAccount :=
  match auths !! gb_address bal with
  | None => Throw type_error
  | Some auth => Ok {|
      ga_address := gb_address bal;
      ga_coins := (λ c : string * string, {| Accounts.c_denom := c.1; Accounts.c_amount := c.2; Accounts.c_base_denom := None |}) <$> gb_coins bal;
      ga_type := str_field auth "@type"; ga_pubkey := auth !! "pub_key";
      ga_account_number := parse_field auth "account_number"; ga_sequence := parse_field auth "sequence";
      ga_auth := auth |}
  end.

(** [_.keyBy(auths.map(flattenObject), 'address')] *)
Definition keyed_auths (auths : list Json) : gmap string (gmap string Json) :=
  foldl (λ m a, <[default "undefined" (str_field a "address") := a]> m) ∅ (flattenObject <$> auths).

Definition is_ibc_denom (denom : string) : bool := String.prefix "ibc/" denom.
Definition missing_denoms (cache : gmap string string) (accounts : list GenAccount) : list string :=
  uniq (filter (λ denom, is_ibc_denom denom = true ∧ truthy_str (cache !! denom) = false)
    (accounts ≫= λ a, Accounts.c_denom <$> ga_coins a)).
Definition set_base_denom (cache : gmap string string) (c : Accounts.Coin) : Accounts.Coin :=
  if is_ibc_denom (Accounts.c_denom c)
  then {| Accounts.c_denom := Accounts.c_denom c; Accounts.c_amount := Accounts.c_amount c; Accounts.c_base_denom := cache !! Accounts.c_denom c |}
  else c.
Definition with_base_denoms (cache : gmap string string) (a : GenAccount) : GenAccount := {|
  ga_address := ga_address a; ga_coins := set_base_denom cache <$> ga_coins a; ga_type := ga_type a;
  ga_pubkey := ga_pubkey a; ga_account_number := ga_account_number a; ga_sequence := ga_sequence a; ga_auth := ga_auth a |}.
Definition cache_traces (cache : gmap string string) (l : list (string * option string)) : gmap string string :=
  foldl (λ m x, match x.2 with Some base => <[x.1 := base]> m | None => delete x.1 m end) cache l.

Definition handleIbcDenom (accounts : list GenAccount) : io Db (list GenAccount) :=
  if bool_decide (accounts = []) then mret [] else
  cache ← query ibc_denom;
  let ibcDenoms := missing_denoms cache accounts in
  traces ← lift (mapR denom_trace ibcDenoms);
  update (λ d, if bool_decide (ibcDenoms = []) then d else set_cache (cache_traces cache (zip ibcDenoms traces)) d);;
  mret (with_base_denoms (cache_traces cache (zip ibcDenoms traces)) <$> accounts).

(** [insertGraph]: the columns are checked against the schema and the types
    of the table (integer). *)
Definition required_number (o : option Z) : res Z :=
  match o with
  | Some z => if int4 z then Ok z else Throw "value out of range for type integer"
  | None => Throw "ValidationError: must be number"
  end.
Definition json_coins (o : option Json) : res (list Accounts.Coin) :=
  match o with
  | Some (JArr l) => mapR (λ j, match coin_of_json j with Some c => Ok c | None => Throw "ValidationError" end) l
  | _ => Throw "ValidationError: must be array"
  end.
Definition account_row (a : GenAccount) : res Account :=
  ty ← required (ga_type a); n ← required_number (ga_account_number a); q ← required_number (ga_sequence a);
  Ok {| ac_id := 0; ac_address := ga_address a; ac_balances := ga_coins a; ac_spendable_balances := ga_coins a;
        ac_type := ty; ac_pubkey := ga_pubkey a; ac_account_number := n; ac_sequence := q |}.
Definition is_vesting_type (ty : option string) : bool :=
  bool_decide (ty ∈ Some <$> [AccountType.CONTINUOUS_VESTING; AccountType.DELAYED_VESTING; AccountType.PERIODIC_VESTING]).
Definition vesting_of (a : GenAccount) : res (option AccountVesting) :=
  if is_vesting_type (ga_type a) then
    original ← json_coins (ga_auth a !! "original_vesting");
    free ← json_coins (ga_auth a !! "delegated_free");
    vesting ← json_coins (ga_auth a !! "delegated_vesting");
    start ← match str_field (ga_auth a) "start_time" with
            | Some s => if bool_decide (s = "") then Ok None else n ← required_number (parseInt s); Ok (Some n)
            | None => Ok None
            end;
    end_time ← required (str_field (ga_auth a) "end_time");
    e ← coerce_number end_time;
    e ← required_number (Some e);
    Ok (Some {| v_original_vesting := original; v_delegated_free := free; v_delegated_vesting := vesting;
                v_start_time := start; v_end_time := e |})
  else Ok None.

Definition set_ac_id (i : Z) (a : Account) : Account := {|
  ac_id := i; ac_address := ac_address a; ac_balances := ac_balances a; ac_spendable_balances := ac_spendable_balances a;
  ac_type := ac_type a; ac_pubkey := ac_pubkey a; ac_account_number := ac_account_number a; ac_sequence := ac_sequence a |}.
Definition insert_account_chunk (t : Tables) (l : list GenAccount) : res Tables :=
  accounts ← mapR account_row l;
  vestings ← mapR vesting_of l;
  let new := insert_serial set_ac_id accounts (account t) in
  if bool_decide (NoDup (ac_address <$> rows new)) then
    Ok (set_accounts new
          (foldl (λ (m : gmap Z AccountVesting) x, match x.2 with Some v => <[x.1 := v]> m | None => m end) (account_vesting t)
             (zip (seqZ (next_id (account t)) (Z.of_nat (length l))) vestings)) t)
  else Throw "duplicate key value violates unique constraint".

Definition prepareAccounts : io Db (list GenAccount) :=
  stored ← query (λ d, rows (account (tables d)));
  if bool_decide (stored ≠ []) then mret [] else
  balances ← readStreamGenesis bank_balances;
  auths ← readStreamGenesis auth_accounts;
  accounts ← lift (mapR (gen_account (keyed_auths auths)) balances);
  handleIbcDenom accounts.
Definition crawlGenesisAccounts : io Db () :=
  genesis_job CRAWL_GENESIS_ACCOUNT prepareAccounts (λ l t, forEachM insert_account_chunk t (chunk accountsPerBatch l)).

(** ** Validators *)
Definition MSG_CREATE_VALIDATOR := "/cosmos.staking.v1beta1.MsgCreateValidator".
Definition filterTx (messages : list GenMsg) : list GenMsg := filter (λ m, gm_type m = MSG_CREATE_VALIDATOR) messages.
Definition gen_validator (m : GenMsg) : OnchainValidator := {|
  oc_operator_address := gm_validator_address m; oc_pubkey_type := gm_pubkey_type m; oc_pubkey_key := gm_pubkey_key m;
  oc_jailed := false; oc_status := "BOND_STATUS_BONDED"; oc_tokens := gm_value_amount m;
  oc_delegator_shares := gm_value_amount m; oc_description := gm_description m; oc_unbonding_height := "0";
  oc_unbonding_time := "1970-01-01T00:00:00.000Z"; oc_commission := gm_commission m;
  oc_min_self_delegation := gm_min_self_delegation m |}.
Definition prepareGenValidators : io Db (list Validator) :=
  genTxs ← readStreamGenesis gen_txs;
  genValidators ← (if bool_decide (genTxs = []) then readStreamGenesis staking_validators
                   else mret (gen_validator <$> (genTxs ≫= filterTx)));
  lift (mapR createNewValidator genValidators).
Definition upsert_rows `{Countable Key} {A} (key : A → Key) (l : list A) (t : gmap Key A) : res (gmap Key A) :=
  if bool_decide (NoDup (key <$> l)) then Ok (foldl (λ (t : gmap Key A) x, <[key x := x]> t) t l)
  else Throw "ON CONFLICT DO UPDATE command cannot affect row a second time".
Definition crawlGenesisValidators : io Db () :=
  genesis_job CRAWL_GENESIS_VALIDATOR prepareGenValidators
    (λ l t, v ← upsert_rows (λ v : Validator, operator v) l (validator t); Ok (set_validators v t)).

(** ** Proposals *)

(** [Proposal.createNewProposal(propose)]: a proposal of gov v1 has no
    [content]. *)
Definition genesis_proposal (p : ProposalV1beta1 + ProposalV1) : res Proposals.Proposal :=
  match p with
  | inl p => createNewProposal (of_v1beta1 p) None None
  | inr _ => Throw type_error
  end.
Definition insert_proposal_chunk (t : Tables) (l : list Proposals.Proposal) : res Tables :=
  if forallb proposal_fits l then p ← upsert_rows p_proposal_id l (proposal t); Ok (set_proposals p t)
  else Throw "the database refuses the proposals".
Definition crawlGenesisProposals : io Db () :=
  genesis_job CRAWL_GENESIS_PROPOSAL (readStreamGenesis gov_proposals)
    (λ genProposals t, l ← mapR genesis_proposal genProposals;
                       forEachM insert_proposal_chunk t (chunk proposalsPerBatch l)).

(** ** Codes and contracts *)
Definition gen_code (c : GenCode) : res (Z * Code) :=
  id ← required_number (parseInt (gc_code_id c));
  Ok (id, {| c_creator := gc_creator c; c_data_hash := base64_to_hex (gc_code_hash c);
             c_instantiate_permission := gc_instantiate_config c; c_type := None; c_status := None;
             c_store_hash := ""; c_store_height := 0 |}).
Definition insert_code_chunk (t : Tables) (l : list (Z * Code)) : res Tables :=
  if bool_decide (NoDup l.*1)
  then Ok (set_codes (foldl (λ (m : gmap Z Code) x, <[x.1 := x.2]> m) (code t) l) t)
  else Throw "ON CONFLICT DO UPDATE command cannot affect row a second time".
Definition crawl_codes : io Db () :=
  genCodes ← readStreamGenesis wasm_codes;
  commit (λ d,
    l ← mapR gen_code genCodes;
    t ← forEachM insert_code_chunk (tables d) (chunk codesPerBatch l);
    Ok (set_checkpoint CRAWL_GENESIS_CODE 1 (set_tables t d))).
(** The job of the contracts is started when the codes are stored. *)
Definition crawlGenesisCodes : io Db () :=
  genesisProcess ← query (checkGenesisJobProcess CRAWL_GENESIS_CODE);
  if bool_decide (genesisProcess = 1) then mret () else
  (if bool_decide (genesisProcess = 2) then mret () else crawl_codes);;
  update (createJob CRAWL_GENESIS_CONTRACT);;
  update terminateProcess.

Definition gen_contract (c : GenContract) (cw2 : option Cw2) (info : option (Z * Z)) : res SmartContract :=
  code_id ← coerce_number (gx_code_id c);
  Ok {| sc_id := 0; sc_name := cw2_contract <$> cw2; sc_address := gx_contract_address c; sc_creator := gx_creator c;
        sc_code_id := code_id; sc_status := LATEST; sc_label := None; sc_instantiate_hash := "";
        sc_instantiate_height := match info with Some (_, h) => h | None => 0 end;
        sc_version := cw2 ≫= cw2_version |}.
(** The patches of the types of the codes are not part of the transaction. *)
Definition type_patch (cw2 : option Cw2) (info : option (Z * Z)) : option (option Z * string) :=
  match cw2 with
  | Some data => let ty := detectCodeType (cw2_contract data) in
                 if bool_decide (ty = "") then None else Some (fst <$> info, ty)
  | None => None
  end.
Definition patch_types (l : list (option Z * string)) (t : Tables) : Tables :=
  set_codes (foldl (λ (m : gmap Z Code) x, match x.1 with Some id => alter (set_type x.2) id m | None => m end) (code t) l) t.
Definition prepareGenContracts : io Db (list SmartContract) :=
  genContracts ← readStreamGenesis wasm_contracts;
  cw2s ← lift (mapR (λ c, raw_cw2 (gx_contract_address c)) genContracts);
  infos ← lift (mapR (λ c, contract_info (gx_contract_address c)) genContracts);
  contracts ← lift (mapR (λ x, gen_contract x.1 x.2.1 x.2.2) (zip genContracts (zip cw2s infos)));
  let patches := omap (λ x : option Cw2 * option (Z * Z), type_patch x.1 x.2) (zip cw2s infos) in
  update (λ d, set_tables (patch_types patches (tables d)) d);;
  if existsb (λ x : option Z * string, bool_decide (x.1 = None)) patches
  then throw "Undefined binding(s) detected when compiling UPDATE" else mret contracts.
Definition insert_contract_chunk (t : Tables) (l : list SmartContract) : res Tables :=
  if forallb (λ c, bool_decide (is_Some (code t !! sc_code_id c))) l
  then Ok (set_smart_contracts (insert_serial Contracts.with_id l (smart_contract t)) t)
  else Throw "insert violates foreign key constraint".
Definition crawlGenesisContracts : io Db () :=
  genesis_job CRAWL_GENESIS_CONTRACT prepareGenContracts
    (λ l t, forEachM insert_contract_chunk t (chunk smartContractsPerBatch l)).

(** ** Fee grants *)

(** The loop down to a basic or periodic allowance: its type and basic part. *)
Fixpoint innermost (a : Allowance) : res (string * BasicPart) :=
  match a with
  | NoAllowance => Throw type_error
  | AllowanceOf ty own basic allowance =>
      if bool_decide (ty = Some BASIC_ALLOWANCE) then Ok (BASIC_ALLOWANCE, own)
      else if bool_decide (ty = Some PERIODIC_ALLOWANCE) then
        match basic with Some b => Ok (PERIODIC_ALLOWANCE, b) | None => Throw type_error end
      else innermost allowance
  end.
(** [new Date(null)] is the beginning of 1970, so [?? null] never applies. *)
Definition new_Date (s : option string) : string := default "1970-01-01T00:00:00.000Z" s.
Definition gen_feegrant (g : GenFeegrant) (ty : string) (b : BasicPart) (limit : option (string * string)) : Feegrant := {|
  fg_id := 0; fg_init_tx_id := None; fg_revoke_tx_id := None; fg_granter := Some (gf_granter g);
  fg_grantee := Some (gf_grantee g); fg_type := ty; fg_expiration := Some (new_Date (expiration b));
  fg_status := FEEGRANT_STATUS.AVAILABLE; fg_spend_limit := fst <$> limit; fg_denom := snd <$> limit |}.
Definition gen_feegrants (g : GenFeegrant) : res (list Feegrant) :=
  x ← innermost (gf_allowance g);
  match spend_limit x.2 with
  | None => Throw type_error
  | Some [] => Ok [gen_feegrant g x.1 x.2 None]
  | Some l => Ok ((λ limit, gen_feegrant g x.1 x.2 (Some limit)) <$> l)
  end.
Definition set_fg_id (i : Z) (f : Feegrant) : Feegrant := {|
  fg_id := i; fg_init_tx_id := fg_init_tx_id f; fg_revoke_tx_id := fg_revoke_tx_id f; fg_granter := fg_granter f;
  fg_grantee := fg_grantee f; fg_type := fg_type f; fg_expiration := fg_expiration f; fg_status := fg_status f;
  fg_spend_limit := fg_spend_limit f; fg_denom := fg_denom f |}.
Definition insert_feegrant_chunk (t : Tables) (l : list Feegrant) : res Tables :=
  Ok (set_feegrants (insert_serial set_fg_id l (feegrant t)) t).
Definition prepareGenFeegrants : io Db (list Feegrant) :=
  genFeegrants ← readStreamGenesis feegrant_allowances;
  l ← lift (mapR gen_feegrants genFeegrants);
  mret (concat l).
Definition crawlGenesisFeeGrants : io Db () :=
  genesis_job CRAWL_GENESIS_FEEGRANT prepareGenFeegrants
    (λ l t, forEachM insert_feegrant_chunk t (chunk feeGrantsPerBatch l)).

(** ** IBC *)

(** [s.substring(0, s.lastIndexOf('-'))] *)
Fixpoint before_last_dash (s : string) : string :=
  match s with
  | EmptyString => ""
  | String c s' => if existsb (λ c, bool_decide (c = "-"%char)) (String.list_ascii_of_string s')
                   then String c (before_last_dash s') else ""
  end.
Definition new_client (consensus : list GenConsensus) (c : GenClient) : res IbcClient :=
  match find (λ s, bool_decide (gs_client_id s = gl_client_id c)) consensus with
  | None => Throw type_error
  | Some states =>
      chain_id ← required (cs_chain_id (gl_client_state c));
      state ← required (last (gs_consensus_states states));
      Ok {| cl_id := 0; cl_client_id := gl_client_id c; cl_counterparty_chain_id := chain_id;
            cl_client_state := cs_json (gl_client_state c); cl_consensus_state := state;
            cl_client_type := before_last_dash (gl_client_id c) |}
  end.
Definition required_id (o : option Z) : res Z :=
  match o with Some i => Ok i | None => Throw "ValidationError: must have required property" end.
Definition new_connection (clients : list IbcClient) (c : GenConnection) : res IbcConnection :=
  id ← required_id (cl_id <$> find (λ x, bool_decide (cl_client_id x = gn_client_id c)) clients);
  Ok {| co_id := 0; co_ibc_client_id := id; co_connection_id := gn_id c;
        co_counterparty_client_id := gn_counterparty_client_id c;
        co_counterparty_connection_id := gn_counterparty_connection_id c |}.
Definition new_channel (connections : list IbcConnection) (c : GenChannel) : res IbcChannel :=
  id ← required_id (co_id <$> find (λ x, bool_decide (Some (co_connection_id x) = head (gh_connection_hops c))) connections);
  Ok {| ch_id := 0; ch_ibc_connection_id := id; ch_channel_id := gh_channel_id c; ch_port_id := gh_port_id c;
        ch_counterparty_port_id := gh_counterparty_port_id c; ch_counterparty_channel_id := gh_counterparty_channel_id c;
        ch_state := gh_state c |}.
Definition set_cl_id (i : Z) (c : IbcClient) : IbcClient := {|
  cl_id := i; cl_client_id := cl_client_id c; cl_counterparty_chain_id := cl_counterparty_chain_id c;
  cl_client_state := cl_client_state c; cl_consensus_state := cl_consensus_state c; cl_client_type := cl_client_type c |}.
Definition set_co_id (i : Z) (c : IbcConnection) : IbcConnection := {|
  co_id := i; co_ibc_client_id := co_ibc_client_id c; co_connection_id := co_connection_id c;
  co_counterparty_client_id := co_counterparty_client_id c;
  co_counterparty_connection_id := co_counterparty_connection_id c |}.
Definition set_ch_id (i : Z) (c : IbcChannel) : IbcChannel := {|
  ch_id := i; ch_ibc_connection_id := ch_ibc_connection_id c; ch_channel_id := ch_channel_id c; ch_port_id := ch_port_id c;
  ch_counterparty_port_id := ch_counterparty_port_id c; ch_counterparty_channel_id := ch_counterparty_channel_id c;
  ch_state := ch_state c |}.
(** [insert] into a table with a unique text column: the rows that were
    inserted, with their ids, and the table. *)
Definition insert_ibc {A} (with_id : Z → A → A) (key : A → string) (l : list A) (t : Serial A) : res (list A * Serial A) :=
  let new := insert_serial with_id l t in
  if bool_decide (NoDup (key <$> rows new)) then Ok (serial with_id (next_id t) l, new)
  else Throw "duplicate key value violates unique constraint".

Record GenIbc := {
  gi_clients : list GenClient; gi_consensus : list GenConsensus; gi_connections : list GenConnection;
  gi_channels : list GenChannel }.
(** The file is read inside the transaction, which does not change it. *)
Definition prepareGenIbc : io Db GenIbc :=
  clients ← readStreamGenesis ibc_clients;
  consensus ← readStreamGenesis ibc_clients_consensus;
  connections ← readStreamGenesis ibc_connections;
  channels ← readStreamGenesis ibc_channels;
  mret {| gi_clients := clients; gi_consensus := consensus; gi_connections := connections; gi_channels := channels |}.
Definition write_ibc (g : GenIbc) (t : Tables) : res Tables :=
  clients ← mapR (new_client (gi_consensus g)) (gi_clients g);
  '(newClients, cl) ← insert_ibc set_cl_id cl_client_id clients (ibc_client t);
  connections ← mapR (new_connection newClients) (gi_connections g);
  '(newConnections, co) ← insert_ibc set_co_id co_connection_id connections (ibc_connection t);
  channels ← mapR (new_channel newConnections) (gi_channels g);
  '(_, ch) ← insert_ibc set_ch_id ch_channel_id channels (ibc_channel t);
  Ok (set_ibc cl co ch t).
Definition crawlGenesisIbcTao : io Db () := genesis_job CRAWL_GENESIS_IBC_TAO prepareGenIbc write_ibc.
End Jobs.

(** ** Lists in batches *)
Lemma concat_chunk_fuel {A} fuel n (l : list A) : (0 < n)%nat → (length l <= fuel)%nat → concat (chunk_fuel fuel n l) = l.
Proof.
  intros Hn. revert l. induction fuel as [|fuel IH]; intros [|x l] Hl; simpl in *; [done|lia|done|].
  rewrite IH by (rewrite length_drop; simpl; lia). by rewrite (take_drop n (x :: l)).
Qed.
Lemma concat_chunk {A} n (l : list A) : (0 < n)%nat → concat (chunk n l) = l.
Proof. intros Hn. by apply concat_chunk_fuel. Qed.

Lemma insert_serial_app {A} (with_id : Z → A → A) l1 l2 t :
  insert_serial with_id (l1 ++ l2) t = insert_serial with_id l2 (insert_serial with_id l1 t).
Proof.
  unfold insert_serial. simpl. rewrite length_app, Nat2Z.inj_add. f_equal; [|lia].
  rewrite <-app_assoc. f_equal. unfold serial. rewrite imap_app. f_equal. apply imap_ext. intros i x _. f_equal. unfold compose. lia.
Qed.

(** A loop over batches whose steps compose is one step over the whole. *)
Lemma forEachM_concat {S A} (f : S → list A → res S) s (l : list (list A)) :
  (∀ s, f s [] = Ok s) → (∀ s l1 l2, (s' ← f s l1; f s' l2) = f s (l1 ++ l2)) →
  forEachM f s l = f s (concat l).
Proof.
  intros Hnil Happ. revert s. induction l as [|x l IH]; intros s; simpl; [by rewrite Hnil|].
  rewrite <-Happ. destruct (f s x) as [s'|]; [|done]. simpl. apply IH.
Qed.

(** ** The jobs as a system *)
Inductive Job := JAccount | JValidator | JProposal | JCode | JContract | JFeegrant | JIbcTao.
#[export] Instance Job_eq_dec : EqDecision Job.
Proof. solve_decision. Defined.
Definition name (j : Job) : string :=
  match j with
  | JAccount => CRAWL_GENESIS_ACCOUNT | JValidator => CRAWL_GENESIS_VALIDATOR | JProposal => CRAWL_GENESIS_PROPOSAL
  | JCode => CRAWL_GENESIS_CODE | JContract => CRAWL_GENESIS_CONTRACT | JFeegrant => CRAWL_GENESIS_FEEGRANT
  | JIbcTao => CRAWL_GENESIS_IBC_TAO
  end.
#[export] Instance name_inj : Inj (=) (=) name.
Proof. by intros [] []. Qed.
Lemma name_not_genesis j : name j ≠ CRAWL_GENESIS.
Proof. by destruct j. Qed.
Lemma genesisJobs_names job : job ∈ genesisJobs ↔ ∃ j, job = name j.
Proof.
  split.
  - intros H. repeat (apply elem_of_cons in H as [->|H]; [by (exists JAccount + exists JValidator + exists JProposal +
      exists JCode + exists JContract + exists JFeegrant + exists JIbcTao)|]). by apply not_elem_of_nil in H.
  - intros [j ->]. unfold genesisJobs. destruct j; cbn; rewrite !elem_of_cons; tauto.
Qed.

(** The tables a job fills are the same; the type of a code is filled by the
    job of the contracts. *)
Definition untyped (c : Code) : Code := {|
  c_creator := c_creator c; c_data_hash := c_data_hash c; c_instantiate_permission := c_instantiate_permission c;
  c_type := None; c_status := c_status c; c_store_hash := c_store_hash c; c_store_height := c_store_height c |}.
Definition same_part (j : Job) (t t' : Tables) : Prop :=
  match j with
  | JAccount => account t' = account t ∧ account_vesting t' = account_vesting t
  | JValidator => validator t' = validator t
  | JProposal => proposal t' = proposal t
  | JCode => untyped <$> code t' = untyped <$> code t
  | JContract => smart_contract t' = smart_contract t
  | JFeegrant => feegrant t' = feegrant t
  | JIbcTao => ibc_client t' = ibc_client t ∧ ibc_connection t' = ibc_connection t ∧ ibc_channel t' = ibc_channel t
  end.
#[export] Instance same_part_equiv j : Equivalence (same_part j).
Proof.
  split.
  - intros t. by destruct j.
  - intros t t'. destruct j; simpl; naive_solver.
  - intros t t1 t2. destruct j; simpl; naive_solver congruence.
Qed.

(** What a run of the job [j] can do. *)
Record effect (j : Job) (d d' : Db) : Prop := {
  eff_parts i : i ≠ j ∨ block_checkpoint d !! name j = Some 1 ∨ block_checkpoint d' !! name j ≠ Some 1 →
    same_part i (tables d) (tables d');
  eff_checks : block_checkpoint d' = block_checkpoint d ∨
    (block_checkpoint d !! CRAWL_GENESIS = Some 1 ∧ block_checkpoint d' = <[name j := 1]> (block_checkpoint d));
  eff_exit : exited d' = true → exited d = true ∨ all_done (block_checkpoint d') = true;
  eff_queue : genesis_queue d' = genesis_queue d ∨
    (genesis_queue d' = genesis_queue d ++ [CRAWL_GENESIS_CONTRACT] ∧ block_checkpoint d' !! CRAWL_GENESIS_CODE = Some 1);
  eff_file : genesis_file d' = genesis_file d
}.

(** All of the state but the cache. *)
Definition core (d : Db) : Tables * option string * list string * bool * gmap string Z :=
  (tables d, genesis_file d, genesis_queue d, exited d, block_checkpoint d).
Definition quiet {A} (m : io Db A) : Prop := ∀ c, keeps (λ d, core d = c) m.

Lemma quiet_core {A} (m : io Db A) d : quiet m → core (m d).1 = core d.
Proof. intros H. by apply (H (core d)). Qed.

Lemma core_kept d d' : core d' = core d →
  block_checkpoint d' = block_checkpoint d ∧ genesis_queue d' = genesis_queue d.
Proof. unfold core. intros H. split; congruence. Qed.

Lemma effect_refl j d d' : core d' = core d → effect j d d'.
Proof.
  intros [= Ht Hf Hq He Hc]. split; [by rewrite Ht|by left|rewrite He; by left|by left|done].
Qed.

Lemma genesis_job_effect {W} j (prepare : io Db W) (write : W → Tables → res Tables) d :
  (∀ d, effect j d (prepare d).1 ∧ block_checkpoint (prepare d).1 = block_checkpoint d ∧
        genesis_queue (prepare d).1 = genesis_queue d) →
  (∀ w t t' i, write w t = Ok t' → i ≠ j → same_part i t t') →
  effect j d (genesis_job (name j) prepare write d).1.
Proof.
  intros Hprep Hwrite. destruct (genesis_job _ _ _ d) as [d' o] eqn:Hrun. simpl.
  apply genesis_job_cases in Hrun as [(-> & _)|[(msg & _ & -> & _)|(d1 & w & t & Hp & Hd1 & Hw & -> & _)]].
  - by apply effect_refl.
  - apply Hprep.
  - destruct (Hprep d) as (Heff & Hck & Hqu). rewrite Hd1 in Heff, Hck, Hqu. simpl in Heff, Hck, Hqu.
    apply checkGenesisJobProcess_0 in Hp as [Hg Hj].
    destruct (terminateProcess_fields (set_checkpoint (name j) 1 (set_tables t d1))) as (Ht & Hc & Hq & Hf & _ & He).
    simpl in Ht, Hc, Hq, Hf, He. split.
    + intros i [Hi|[H|H]]; [|done|].
      * rewrite Ht. etrans; [apply (eff_parts _ _ _ Heff i); by left|]. by eapply Hwrite.
      * rewrite Hc, lookup_insert_eq in H. done.
    + right. split; [done|]. by rewrite Hc, Hck.
    + rewrite He, Hc, orb_true_iff. intros [H|H]; [|by right]. left. destruct (eff_exit _ _ _ Heff H) as [?|Hall]; [done|].
      rewrite Hck in Hall. exfalso. apply Hj. apply all_done_spec; [done|]. apply genesisJobs_names. by exists j.
    + left. by rewrite Hq, Hqu.
    + by rewrite Hf, (eff_file _ _ _ Heff).
Qed.

Lemma quiet_prepare {W} j (prepare : io Db W) d :
  quiet prepare → effect j d (prepare d).1 ∧ block_checkpoint (prepare d).1 = block_checkpoint d ∧
    genesis_queue (prepare d).1 = genesis_queue d.
Proof. intros H. pose proof (quiet_core prepare d H) as Hc. split; [by apply effect_refl|by apply core_kept]. Qed.

Lemma read_quiet {A} (read : string → res (list A)) : quiet (readStreamGenesis read).
Proof. intros c d Hd. unfold readStreamGenesis, query, mbind, io_bind. by destruct (genesis_file d). Qed.
#[export] Hint Resolve read_quiet : keeps.

Section System.
Context {R : GenesisRpc} {F : GenesisFile} {N : GenesisNode} {K : StakingCodec} {C : AddressCodec} {E : Encoding}.

Lemma ibc_denom_quiet accounts : quiet (handleIbcDenom accounts).
Proof.
  intros c. unfold handleIbcDenom. case_bool_decide; [apply keeps_ret|]. apply keeps_bind; [apply keeps_query|].
  intros cache. apply keeps_bind; [apply keeps_lift|]. intros traces. apply keeps_bind; [|intros; apply keeps_ret].
  apply keeps_update. intros d Hd. by case_bool_decide.
Qed.

Lemma accounts_quiet : quiet prepareAccounts.
Proof.
  intros c. unfold prepareAccounts. apply keeps_bind; [apply keeps_query|]. intros stored. case_bool_decide; [apply keeps_ret|].
  apply keeps_bind; [apply read_quiet|]. intros balances. apply keeps_bind; [apply read_quiet|]. intros auths.
  apply keeps_bind; [apply keeps_lift|]. intros accounts. apply ibc_denom_quiet.
Qed.

Lemma validators_quiet : quiet prepareGenValidators.
Proof.
  intros c. unfold prepareGenValidators. apply keeps_bind; [apply read_quiet|]. intros txs.
  apply keeps_bind; [case_bool_decide; [apply read_quiet|apply keeps_ret]|]. intros l. apply keeps_lift.
Qed.

Lemma feegrants_quiet : quiet prepareGenFeegrants.
Proof.
  intros c. unfold prepareGenFeegrants. apply keeps_bind; [apply read_quiet|]. intros l.
  apply keeps_bind; [apply keeps_lift|]. intros x. apply keeps_ret.
Qed.

Lemma ibc_quiet : quiet prepareGenIbc.
Proof.
  intros c. unfold prepareGenIbc. do 4 (apply keeps_bind; [apply read_quiet|intros ?]). apply keeps_ret.
Qed.

Lemma patch_types_parts l t i : same_part i t (patch_types l t).
Proof.
  destruct i; try by split_and?. unfold patch_types. cbn [same_part code set_codes].
  generalize (code t) as m. induction l as [|[o ty] l IH]; intros m; [done|]. simpl. rewrite IH. clear IH.
  destruct o as [id|]; [|done]. apply map_eq. intros k. rewrite !lookup_fmap, lookup_alter. case_decide as Hk; [|done].
  subst. by destruct (m !! k).
Qed.

Lemma contracts_prepare d :
  effect JContract d (prepareGenContracts d).1 ∧
  block_checkpoint (prepareGenContracts d).1 = block_checkpoint d ∧
  genesis_queue (prepareGenContracts d).1 = genesis_queue d.
Proof.
  destruct (prepareGenContracts d) as [d' o] eqn:Hx. cbn [fst]. unfold prepareGenContracts in Hx.
  unfold mbind at 1, io_bind at 1 in Hx. pose proof (quiet_core _ d (read_quiet wasm_contracts)) as Hc.
  assert (∀ d2, core d2 = core d → effect JContract d d2 ∧ block_checkpoint d2 = block_checkpoint d ∧
    genesis_queue d2 = genesis_queue d) as Hsame by (by split; [apply effect_refl|apply core_kept]).
  destruct (readStreamGenesis wasm_contracts d) as [d1 [l|msg]]; cbn [fst] in Hc; [|injection Hx as <- _; by apply Hsame].
  destruct (mapR (λ c, raw_cw2 _) l) as [cw2s|] eqn:H1; [|cbv [lift mbind io_bind] in Hx; injection Hx as <- _; by apply Hsame]. erewrite io_step in Hx by done. cbv beta in Hx.
  destruct (mapR (λ c, contract_info _) l) as [infos|] eqn:H2; [|cbv [lift mbind io_bind] in Hx; injection Hx as <- _; by apply Hsame].
  erewrite io_step in Hx by done. cbv beta in Hx.
  destruct (mapR _ (zip _ _)) as [contracts|] eqn:H3; [|cbv [lift mbind io_bind] in Hx; injection Hx as <- _; by apply Hsame].
  erewrite io_step in Hx by done. cbv beta zeta in Hx. erewrite io_step in Hx by done. cbv beta in Hx.
  set (patches := omap _ _) in Hx.
  assert (d' = set_tables (patch_types patches (tables d1)) d1) as -> by (by destruct (existsb _ patches); injection Hx).
  unfold core in Hc. injection Hc as Ht Hf Hq He Hck. split; [|done]. split; cbn.
  - intros i _. rewrite <-Ht. apply patch_types_parts.
  - by left.
  - rewrite He. by left.
  - by left.
  - done.
Qed.

(** Batches that leave a part alone. *)
Lemma batches_part {A} (f : Tables → list A → res Tables) i t l t' :
  (∀ t l t', f t l = Ok t' → same_part i t t') → forEachM f t l = Ok t' → same_part i t t'.
Proof.
  intros Hf. revert t. induction l as [|x l IH]; intros t; simpl; [by intros [= ->]|].
  rewrite bind_Ok. intros (t1 & H1 & H2). etrans; [by eapply Hf|by apply IH].
Qed.

Lemma codes_effect d : effect JCode d (crawlGenesisCodes d).1.
Proof.
  unfold crawlGenesisCodes. erewrite io_step by done. cbv beta. case_bool_decide as H1; [by apply effect_refl|].
  assert (∀ d1 : Db, effect JCode d d1 → genesis_queue d1 = genesis_queue d → block_checkpoint d1 !! CRAWL_GENESIS_CODE = Some 1 →
    effect JCode d (terminateProcess (createJob CRAWL_GENESIS_CONTRACT d1))) as Hend.
  { intros d1 [H1' H2 H3 H4 H5] Hq Hck.
    destruct (terminateProcess_fields (createJob CRAWL_GENESIS_CONTRACT d1)) as (Ht & Hc & Hq' & Hf & _ & He). simpl in *.
    split; rewrite ?Ht, ?Hc, ?Hf, ?Hq', ?He; try done.
    - rewrite orb_true_iff. intros [H|H]; [by apply H3|by right].
    - right. by rewrite Hq. }
  unfold mbind at 1, io_bind at 1. case_bool_decide as H2.
  - assert (block_checkpoint d !! CRAWL_GENESIS_CODE = Some 1) as Hck.
    { destruct (checkGenesisJobProcess_cases CRAWL_GENESIS_CODE d) as [H|[[_ H]|H]]; [done|done|congruence]. }
    simpl. unfold update, mbind, io_bind. simpl. apply Hend; [by apply effect_refl|done|done].
  - assert (checkGenesisJobProcess CRAWL_GENESIS_CODE d = 0) as [Hg Hc]%checkGenesisJobProcess_0.
    { destruct (checkGenesisJobProcess_cases CRAWL_GENESIS_CODE d) as [H|[[H _]|H]]; [done|done|done]. }
    unfold crawl_codes. unfold mbind at 1, io_bind at 1.
    pose proof (quiet_core _ d (read_quiet wasm_codes)) as Hcore.
    destruct (readStreamGenesis wasm_codes d) as [d1 [l|msg]]; cbn [fst] in Hcore; [|by apply effect_refl].
    unfold commit. destruct (mapR gen_code l) as [rows|] eqn:Hrows; [|by apply effect_refl]. simpl.
    destruct (forEachM insert_code_chunk (tables d1) _) as [t|] eqn:Ht; [|by apply effect_refl]. simpl.
    unfold update, mbind, io_bind. simpl. injection Hcore as Ht1 Hf1 Hq1 He1 Hc1.
    apply Hend; [|done|by apply lookup_insert_eq]. split; simpl.
    + intros i [Hi|[H|H]]; [|done|by rewrite lookup_insert_eq in H].
      rewrite <-Ht1. eapply (batches_part insert_code_chunk i); [|exact Ht].
      intros t1 l1 t2. unfold insert_code_chunk. case_bool_decide; [|done]. intros [= <-]. destruct i; by split_and?.
    + right. split; [done|]. by rewrite Hc1.
    + rewrite He1. by left.
    + by left.
    + done.
Qed.

(** The handlers of the jobs. *)
Definition handler (j : Job) : io Db () :=
  match j with
  | JAccount => crawlGenesisAccounts | JValidator => crawlGenesisValidators | JProposal => crawlGenesisProposals
  | JCode => crawlGenesisCodes | JContract => crawlGenesisContracts | JFeegrant => crawlGenesisFeeGrants
  | JIbcTao => crawlGenesisIbcTao
  end.

Lemma handler_effect j d : effect j d (handler j d).1.
Proof.
  destruct j; simpl; [apply (genesis_job_effect JAccount)|apply (genesis_job_effect JValidator)
    |apply (genesis_job_effect JProposal)|apply codes_effect|apply (genesis_job_effect JContract)
    |apply (genesis_job_effect JFeegrant)|apply (genesis_job_effect JIbcTao)];
    try (intros d1; apply quiet_prepare; first [apply accounts_quiet|apply validators_quiet|apply read_quiet
           |apply feegrants_quiet|apply ibc_quiet]); try apply contracts_prepare.
  - intros w t t' i Hw Hi. eapply (batches_part insert_account_chunk i); [|exact Hw].
    intros t1 l t2. unfold insert_account_chunk. rewrite bind_Ok. intros (accounts & _ & H).
    apply bind_Ok in H as (vestings & _ & H). case_bool_decide; [|done]. injection H as <-. destruct i; by split_and?.
  - intros w t t' i Hw Hi. apply bind_Ok in Hw as (v & _ & [= <-]). destruct i; by split_and?.
  - intros w t t' i Hw Hi. apply bind_Ok in Hw as (l & _ & Hw). eapply (batches_part insert_proposal_chunk i); [|exact Hw].
    intros t1 l1 t2. unfold insert_proposal_chunk. destruct (forallb _ _); [|done]. rewrite bind_Ok.
    intros (p & _ & [= <-]). destruct i; by split_and?.
  - intros w t t' i Hw Hi. eapply (batches_part insert_contract_chunk i); [|exact Hw].
    intros t1 l1 t2. unfold insert_contract_chunk. destruct (forallb _ _); [|done]. intros [= <-]. destruct i; by split_and?.
  - intros w t t' i Hw Hi. eapply (batches_part insert_feegrant_chunk i); [|exact Hw].
    intros t1 l1 t2 [= <-]. destruct i; by split_and?.
  - intros w t t' i Hw Hi. unfold write_ibc in Hw. apply bind_Ok in Hw as (cls & _ & Hw).
    apply bind_Ok in Hw as ([ncl cl] & _ & Hw). apply bind_Ok in Hw as (cos & _ & Hw).
    apply bind_Ok in Hw as ([nco co] & _ & Hw). apply bind_Ok in Hw as (chs & _ & Hw).
    apply bind_Ok in Hw as ([nch ch] & _ & Hw). injection Hw as <-. destruct i; by split_and?.
Qed.

(** The download touches neither the tables nor the checkpoints of the jobs. *)
Lemma download_keeps fuel d :
  tables (handleGenesis fuel d).1 = tables d ∧
  (∀ j, block_checkpoint (handleGenesis fuel d).1 !! name j = block_checkpoint d !! name j) ∧
  (∀ job, job ∈ genesis_queue (handleGenesis fuel d).1 → job ∈ genesis_queue d ∨ job ∈ started_jobs) ∧
  (exited (handleGenesis fuel d).1 = true → exited d = true ∨ all_done (block_checkpoint (handleGenesis fuel d).1) = true).
Proof.
  set (P := λ d' : Db, tables d' = tables d ∧ (∀ j, block_checkpoint d' !! name j = block_checkpoint d !! name j) ∧
    (∀ job, job ∈ genesis_queue d' → job ∈ genesis_queue d ∨ job ∈ started_jobs) ∧
    (exited d' = true → exited d = true ∨ all_done (block_checkpoint d') = true)).
  assert (∀ text d', P d' → P (appendFileSync text d')) as Happ by done.
  assert (keeps P finish_download) as Hfin.
  { intros d1 (Ht & Hc & Hq & He). destruct (finish_download_run d1) as (d' & -> & _ & Ht' & Hq' & Hc' & He'). cbn [fst].
    assert (∀ j, <[CRAWL_GENESIS := 1]> (block_checkpoint d1) !! name j = block_checkpoint d1 !! name j) as Hother.
    { intros j. apply lookup_insert_ne. apply not_eq_sym, name_not_genesis. }
    split_and!; [congruence| | |].
    - intros j. by rewrite Hc', Hother.
    - intros job. rewrite Hq', elem_of_app. intros [H|H]; [by apply Hq|by right].
    - rewrite He'. intros H. destruct (He H) as [?|Hall]; [by left|]. right. rewrite Hc'.
      apply all_done_spec. intros job (j & ->)%genesisJobs_names. rewrite Hother.
      apply all_done_spec; [done|]. apply genesisJobs_names. by exists j. }
  assert (∀ fuel i, keeps P (read_chunks fuel i)) as Hread.
  { intros f. induction f as [|f IH]; intros i; [apply keeps_lift|]. cbn [read_chunks].
    destruct (genesis_chunked i); [|apply keeps_ret..]. apply keeps_bind; [by apply keeps_update|]. intros _. apply IH. }
  assert (keeps P (handleGenesis fuel)) as Hk.
  { unfold handleGenesis. apply keeps_bind; [apply keeps_query|]. intros check.
    destruct (match check with Some h => 0 <? h | None => false end).
    - apply keeps_update. intros d1 (Ht & Hc & Hq & He). destruct (terminateProcess_fields d1) as (Ht' & Hc' & Hq' & _ & _ & He').
      split_and!; [congruence|by rewrite Hc'|by rewrite Hq'|]. rewrite He', Hc', orb_true_iff. tauto.
    - apply keeps_bind; [by apply keeps_update|]. intros _. destruct rpc_genesis as [text|c|msg]; [|case_match|].
      + apply keeps_bind; [by apply keeps_update|]. by intros _.
      + apply keeps_bind; [apply Hread|]. by intros _.
      + apply keeps_ret.
      + apply keeps_lift. }
  apply (Hk d). split_and!; auto.
Qed.

(** A step of the process: a run of the download or of a job that waits.  A
    job stays in its queue, so that it can be delivered again; runs can fail. *)
Inductive gstep : Db → Db → Prop :=
| step_download fuel d : exited d = false → gstep d (handleGenesis fuel d).1
| step_job j d : exited d = false → name j ∈ genesis_queue d → gstep d (handler j d).1.

Section Runs.
Context (d0 : Db) (Hfresh : ∀ job, block_checkpoint d0 !! job = None) (Hq0 : genesis_queue d0 = []) (He0 : exited d0 = false).

Inductive greachable : Db → Prop :=
| greach_start : greachable d0
| greach_step d d' : greachable d → gstep d d' → greachable d'.

Lemma done_stays d d' j : gstep d d' → block_checkpoint d !! name j = Some 1 → block_checkpoint d' !! name j = Some 1.
Proof using Type.
  intros [fuel d1 _|i d1 _ _] H.
  - destruct (download_keeps fuel d1) as (_ & Hc & _). by rewrite Hc.
  - destruct (eff_checks _ _ _ (handler_effect i d1)) as [->|[_ ->]]; [done|].
    destruct (decide (i = j)) as [->|Hne]; [apply lookup_insert_eq|]. rewrite lookup_insert_ne; [done|].
    by intros Heq%(inj name).
Qed.

Lemma step_parts d d' j :
  gstep d d' → block_checkpoint d !! name j = Some 1 ∨ block_checkpoint d' !! name j ≠ Some 1 →
  same_part j (tables d) (tables d').
Proof using Type.
  intros [fuel d1 _|i d1 _ _] H.
  - destruct (download_keeps fuel d1) as (-> & _). done.
  - apply (eff_parts _ _ _ (handler_effect i d1)). destruct (decide (j = i)) as [->|Hne]; [by right|by left].
Qed.

(** C21: each of the seven jobs fills its tables in one transaction and once:
    before its checkpoint is set its tables are those of the start, and after
    that no step changes them, whatever is delivered again or fails.  (The job
    of the contracts writes the types of the codes.) *)
Theorem genesis_written_once d d' j :
  greachable d → gstep d d' →
  (block_checkpoint d !! name j = Some 1 → same_part j (tables d) (tables d')) ∧
  (block_checkpoint d' !! name j ≠ Some 1 → same_part j (tables d0) (tables d')).
Proof using Type.
  intros Hr Hs. split; [intros H; apply step_parts; [done|by left]|]. intros Hd'.
  assert (∀ d, greachable d → block_checkpoint d !! name j ≠ Some 1 → same_part j (tables d0) (tables d)) as Hinv.
  { clear. induction 1 as [|d d' _ IH Hs]; [done|]. intros Hd'. etrans; [apply IH|by apply step_parts; [|right]].
    intros Hd. by apply (done_stays d d' j Hs) in Hd. }
  apply Hinv; [by eapply greach_step|done].
Qed.

(** The process ends only when all seven jobs have stored their rows, and
    the job of the contracts waits only when the codes are stored. *)
Theorem genesis_exits_when_done d :
  greachable d →
  (exited d = true → ∀ j, block_checkpoint d !! name j = Some 1) ∧
  (CRAWL_GENESIS_CONTRACT ∈ genesis_queue d → block_checkpoint d !! CRAWL_GENESIS_CODE = Some 1).
Proof using Hq0 He0.
  intros Hr. enough ((exited d = true → all_done (block_checkpoint d) = true) ∧
    (CRAWL_GENESIS_CONTRACT ∈ genesis_queue d → block_checkpoint d !! CRAWL_GENESIS_CODE = Some 1)) as [H1 H2].
  { split; [|done]. intros He j. apply all_done_spec; [by apply H1|]. apply genesisJobs_names. by exists j. }
  induction Hr as [|d d' _ [IH1 IH2] Hs]; [rewrite He0, Hq0; split; [done|by intros ?%not_elem_of_nil]|].
  assert (block_checkpoint d !! CRAWL_GENESIS_CODE = Some 1 → block_checkpoint d' !! CRAWL_GENESIS_CODE = Some 1) as Hcode
    by apply (done_stays d d' JCode Hs).
  destruct Hs as [fuel d1 Hd|j d1 Hd Hj].
  - destruct (download_keeps fuel d1) as (_ & _ & Hq & He). split.
    + intros [H|H]%He; [congruence|done].
    + intros [H|H]%Hq; [auto|]. exfalso. revert H.
      apply (bool_decide_eq_false_1 (CRAWL_GENESIS_CONTRACT ∈ started_jobs)). by vm_compute.
  - pose proof (handler_effect j d1) as Heff. split.
    + intros [H|H]%(eff_exit _ _ _ Heff); [congruence|done].
    + intros H. destruct (eff_queue _ _ _ Heff) as [Hq|[Hq Hc]]; [|done]. rewrite Hq in H. auto.
Qed.
End Runs.

(** The job that finishes last ends the process. *)
Theorem last_job_exits d j d' :
  j ≠ JCode → block_checkpoint d !! CRAWL_GENESIS = Some 1 → block_checkpoint d !! name j ≠ Some 1 →
  (∀ i, i ≠ j → block_checkpoint d !! name i = Some 1) → handler j d = (d', Ok tt) → exited d' = true.
Proof.
  intros Hcode Hg Hj Hothers Hrun.
  assert (∀ d1 t, block_checkpoint d1 = block_checkpoint d →
    exited (terminateProcess (set_checkpoint (name j) 1 (set_tables t d1))) = true) as Hend.
  { intros d1 t Hd1. destruct (terminateProcess_fields (set_checkpoint (name j) 1 (set_tables t d1))) as (_ & _ & _ & _ & _ & ->).
    cbn [block_checkpoint set_checkpoint set_tables exited]. apply orb_true_iff. right. apply all_done_spec.
    intros job (i & ->)%genesisJobs_names. rewrite Hd1. destruct (decide (i = j)) as [->|Hne]; [apply lookup_insert_eq|].
    rewrite lookup_insert_ne; [by apply Hothers|]. by intros Heq%(inj name). }
  assert (∀ {W} (prepare : io Db W) write, genesis_job (name j) prepare write d = (d', Ok tt) →
    block_checkpoint (prepare d).1 = block_checkpoint d → exited d' = true) as Hcase.
  { intros W prepare write H Hck. apply genesis_job_cases in H as [(_ & _ & H)|[(msg & [=] & _)|(d1 & w & t & _ & Hp & _ & -> & _)]].
    - by destruct H; apply checkGenesisJobProcess_0.
    - apply Hend. by rewrite Hp in Hck. }
  destruct j; try done; cbn [handler] in Hrun; unfold crawlGenesisAccounts, crawlGenesisValidators, crawlGenesisProposals,
    crawlGenesisContracts, crawlGenesisFeeGrants, crawlGenesisIbcTao in Hrun; apply Hcase in Hrun; try done.
  - apply core_kept, quiet_core, accounts_quiet.
  - apply core_kept, quiet_core, validators_quiet.
  - apply core_kept, quiet_core, read_quiet.
  - apply contracts_prepare.
  - apply core_kept, quiet_core, feegrants_quiet.
  - apply core_kept, quiet_core, ibc_quiet.
Qed.
End System.

(** ** The rows of the accounts *)

(** Batches whose steps compose do what one step over all does. *)
Lemma forEachM_batches {S A} (f : S → list A → res S) s (l : list (list A)) s' :
  (∀ s s', f s [] = Ok s' → s' = s) →
  (∀ s l1 l2 s', f s (l1 ++ l2) = Ok s' → ∃ s1, f s l1 = Ok s1 ∧ f s1 l2 = Ok s') →
  f s (concat l) = Ok s' → forEachM f s l = Ok s'.
Proof.
  intros Hnil Happ. revert s. induction l as [|x l IH]; intros s; simpl; [by intros ->%Hnil|].
  intros (s1 & -> & H)%Happ. simpl. by apply IH.
Qed.

Definition add_vestings (l : list (Z * option AccountVesting)) (m : gmap Z AccountVesting) : gmap Z AccountVesting :=
  foldl (λ (m : gmap Z AccountVesting) x, match x.2 with Some v => <[x.1 := v]> m | None => m end) m l.

Lemma add_vestings_lookup (l : list (Z * option AccountVesting)) m :
  NoDup l.*1 →
  (∀ i v, (i, v) ∈ l → add_vestings l m !! i = match v with Some v => Some v | None => m !! i end) ∧
  (∀ i, i ∉ l.*1 → add_vestings l m !! i = m !! i).
Proof.
  unfold add_vestings. revert m. induction l as [|[k o] l IH]; intros m Hnd; simpl.
  { split; [by intros i v ?%not_elem_of_nil|done]. }
  rewrite fmap_cons in Hnd. apply NoDup_cons in Hnd as [Hk Hnd].
  destruct (IH (match o with Some v => <[k := v]> m | None => m end) Hnd) as [IH1 IH2]. split.
  - intros i v [[= -> ->]|Hi]%elem_of_cons.
    + rewrite IH2 by done. destruct o; [by rewrite lookup_insert_eq|done].
    + rewrite (IH1 i v Hi). destruct v as [v|]; [done|]. destruct o; [|done]. rewrite lookup_insert_ne; [done|].
      intros ->. apply Hk. by apply (list_elem_of_fmap_2 fst _ (i, None)).
  - intros i [Hi Hi']%not_elem_of_cons. rewrite IH2 by done. destruct o; [by rewrite lookup_insert_ne by done|done].
Qed.

Section AccountRows.
Context {F : GenesisFile} {N : GenesisNode}.

Lemma insert_serial_nil {A} (with_id : Z → A → A) t : insert_serial with_id [] t = t.
Proof. unfold insert_serial. destruct t. simpl. f_equal; [by rewrite app_nil_r|lia]. Qed.

Lemma insert_account_chunk_nil t t' : insert_account_chunk t [] = Ok t' → t' = t.
Proof.
  unfold insert_account_chunk. cbn [mapR mbind res_bind]. rewrite insert_serial_nil. case_bool_decide; [|done].
  intros [= <-]. by destruct t.
Qed.

Lemma insert_account_chunk_app t l1 l2 t' :
  insert_account_chunk t (l1 ++ l2) = Ok t' →
  ∃ t1, insert_account_chunk t l1 = Ok t1 ∧ insert_account_chunk t1 l2 = Ok t'.
Proof.
  unfold insert_account_chunk. rewrite !mapR_app.
  destruct (mapR account_row l1) as [a1|] eqn:Ha1; [|done]. destruct (mapR account_row l2) as [a2|]; [|done].
  destruct (mapR vesting_of l1) as [v1|] eqn:Hv1; [|done]. destruct (mapR vesting_of l2) as [v2|] eqn:Hv2; [|done].
  cbn [mbind res_bind].
  apply mapR_Ok, Forall2_length in Ha1, Hv1, Hv2. case_bool_decide as Hnd; [|done]. intros [= <-].
  rewrite insert_serial_app in Hnd |- *.
  assert (NoDup (ac_address <$> rows (insert_serial set_ac_id a1 (account t)))) as Hnd1.
  { unfold insert_serial at 1 in Hnd. cbn [rows] in Hnd. rewrite fmap_app in Hnd. by apply NoDup_app in Hnd as [? _]. }
  eexists. split; [by rewrite bool_decide_eq_true_2|]. cbn [account account_vesting set_accounts].
  rewrite bool_decide_eq_true_2 by done. f_equal. unfold set_accounts. f_equal.
  rewrite length_app, Nat2Z.inj_add, seqZ_app, zip_with_app, foldl_app by (rewrite ?length_seqZ; lia).
  cbn [next_id insert_serial]. by rewrite Ha1.
Qed.

(** Denominations that are traced, and a cache that agrees with the chain. *)
Context (base_of : string → option string) (Htrace : ∀ denom, denom_trace denom = Ok (base_of denom)).

Definition cache_agrees (m : gmap string string) : Prop := ∀ denom base, m !! denom = Some base → base_of denom = Some base.

Lemma cache_traces_lookup (m : gmap string string) l denom :
  NoDup l → cache_traces m (zip l (base_of <$> l)) !! denom = if bool_decide (denom ∈ l) then base_of denom else m !! denom.
Proof.
  unfold cache_traces. revert m. induction l as [|k l IH]; intros m Hnd; [done|].
  apply NoDup_cons in Hnd as [Hk Hnd]. rewrite fmap_cons. cbn [zip zip_with foldl fst snd]. rewrite IH by done.
  destruct (decide (denom = k)) as [->|Hne].
  - rewrite (bool_decide_eq_false_2 (k ∈ l)), (bool_decide_eq_true_2 (k ∈ k :: l)) by (done || by left).
    destruct (base_of k); [by rewrite lookup_insert_eq|by rewrite lookup_delete_eq].
  - assert (bool_decide (denom ∈ k :: l) = bool_decide (denom ∈ l)) as -> by (apply bool_decide_ext; rewrite elem_of_cons; naive_solver).
    case_bool_decide; [done|]. destruct (base_of k); [by rewrite lookup_insert_ne by done|by rewrite lookup_delete_ne by done].
Qed.

Definition chain_coin (c : string * string) : Accounts.Coin := {|
  Accounts.c_denom := c.1; Accounts.c_amount := c.2;
  Accounts.c_base_denom := if is_ibc_denom c.1 then base_of c.1 else None |}.

Lemma handleIbcDenom_run accounts d :
  cache_agrees (ibc_denom d) →
  (∀ a, a ∈ accounts → Forall (λ c, Accounts.c_base_denom c = None) (ga_coins a)) →
  ∃ d' accounts', handleIbcDenom accounts d = (d', Ok accounts') ∧ core d' = core d ∧
    Forall2 (λ a a', ga_address a' = ga_address a ∧ ga_type a' = ga_type a ∧ ga_pubkey a' = ga_pubkey a ∧
      ga_account_number a' = ga_account_number a ∧ ga_sequence a' = ga_sequence a ∧ ga_auth a' = ga_auth a ∧
      ga_coins a' = (λ c, chain_coin (Accounts.c_denom c, Accounts.c_amount c)) <$> ga_coins a) accounts accounts'.
Proof using Htrace.
  intros Hcache Hraw. unfold handleIbcDenom. case_bool_decide as Hnil; [subst; exists d, []; by split_and!|].
  erewrite io_step by done. cbv beta zeta. set (l := missing_denoms (ibc_denom d) accounts).
  assert (mapR denom_trace l = Ok (base_of <$> l)) as ->.
  { rewrite <-mapR_pure. apply mapR_ext. auto. }
  erewrite io_step by done. cbv beta. erewrite io_step by done. cbv beta. set (m := cache_traces _ _).
  eexists _, _. split; [done|]. split; [by case_bool_decide|].
  apply Forall2_fmap_r, Forall_Forall2_diag, Forall_forall. intros a Ha. split_and!; try done. simpl.
  specialize (Hraw a Ha). rewrite Forall_forall in Hraw. apply list_fmap_ext. intros k c Hc. apply list_elem_of_lookup_2 in Hc.
  unfold set_base_denom, chain_coin. cbn [fst snd]. destruct (is_ibc_denom (Accounts.c_denom c)) eqn:Hibc.
  - f_equal. unfold m. rewrite cache_traces_lookup by apply NoDup_uniq. case_bool_decide as Hin; [done|].
    destruct (ibc_denom d !! Accounts.c_denom c) as [b|] eqn:Hb; [by rewrite (Hcache _ _ Hb)|].
    destruct Hin. unfold l, missing_denoms. apply elem_of_uniq, list_elem_of_filter. rewrite Hb. split; [done|].
    apply list_elem_of_bind. exists a. split; [|done]. by apply list_elem_of_fmap_2.
  - specialize (Hraw c Hc). destruct c. simpl in *. by subst.
Qed.

(** What the genesis file must say of an account: its type, numbers that fit
    the columns and, for a vesting account, a schedule. *)
Definition genesis_auth (auths : gmap string (gmap string Json)) (bal : GenBalance) : Prop :=
  ∃ auth ty n q v, auths !! gb_address bal = Some auth ∧ str_field auth "@type" = Some ty ∧
    required_number (parse_field auth "account_number") = Ok n ∧ required_number (parse_field auth "sequence") = Ok q ∧
    vesting_of {| ga_address := gb_address bal; ga_coins := []; ga_type := Some ty; ga_pubkey := None;
                  ga_account_number := Some n; ga_sequence := Some q; ga_auth := auth |} = Ok v.

(** The row of a balance, and its vesting schedule. *)
Definition stored_account (auths : gmap string (gmap string Json)) (bal : GenBalance) (x : Account)
    (v : option AccountVesting) : Prop :=
  ∃ auth, auths !! gb_address bal = Some auth ∧ ac_address x = gb_address bal ∧
    Some (ac_type x) = str_field auth "@type" ∧ ac_pubkey x = auth !! "pub_key" ∧
    Some (ac_account_number x) = parse_field auth "account_number" ∧ Some (ac_sequence x) = parse_field auth "sequence" ∧
    ac_balances x = chain_coin <$> gb_coins bal ∧ ac_spendable_balances x = ac_balances x ∧
    (v = None ↔ is_vesting_type (str_field auth "@type") = false).

Lemma gen_account_run auths bal :
  genesis_auth auths bal → ∃ a, gen_account auths bal = Ok a ∧ Forall (λ c, Accounts.c_base_denom c = None) (ga_coins a).
Proof using Type.
  intros (auth & ty & n & q & v & Ha & _). unfold gen_account. rewrite Ha. eexists. split; [done|]. simpl.
  by apply Forall_fmap, Forall_true.
Qed.

Lemma account_row_run auths bal a a' :
  genesis_auth auths bal → gen_account auths bal = Ok a →
  ga_address a' = ga_address a → ga_type a' = ga_type a → ga_pubkey a' = ga_pubkey a →
  ga_account_number a' = ga_account_number a → ga_sequence a' = ga_sequence a → ga_auth a' = ga_auth a →
  ga_coins a' = (λ c, chain_coin (Accounts.c_denom c, Accounts.c_amount c)) <$> ga_coins a →
  ∃ x v, account_row a' = Ok x ∧ vesting_of a' = Ok v ∧ stored_account auths bal x v ∧ ∀ i, stored_account auths bal (set_ac_id i x) v.
Proof using Type.
  intros (auth & ty & n & q & v & Ha & Hty & Hn & Hq & Hv) Hgen H1 H2 H3 H4 H5 H6 H7.
  unfold gen_account in Hgen. rewrite Ha in Hgen. injection Hgen as <-. simpl in *.
  unfold account_row. rewrite H2, Hty, H4, Hn, H5, Hq. simpl. eexists _, v. split; [done|].
  assert (vesting_of a' = Ok v) as Hv'.
  { rewrite <-Hv. unfold vesting_of. by rewrite H2, H6, Hty. }
  assert (∀ o z, required_number o = Ok z → Some z = o) as Hreq.
  { intros [y|] z; simpl; [|done]. by destruct (int4 y); intros [= ->]. }
  assert (v = None ↔ is_vesting_type (str_field auth "@type") = false) as Hvest.
  { unfold vesting_of in Hv. simpl in Hv. rewrite Hty. destruct (is_vesting_type (Some ty)); [|injection Hv as <-; by split].
    repeat (apply bind_Ok in Hv as (? & _ & Hv)). injection Hv as <-. by split. }
  split; [done|].
  assert (∀ i, stored_account auths bal (set_ac_id i {| ac_id := 0; ac_address := ga_address a'; ac_balances := ga_coins a';
    ac_spendable_balances := ga_coins a'; ac_type := ty; ac_pubkey := ga_pubkey a'; ac_account_number := n; ac_sequence := q |}) v)
    as Hall.
  { intros i. exists auth. unfold set_ac_id. simpl. rewrite H1, H3, H7. split_and!; auto.
    rewrite <-list_fmap_compose. apply list_fmap_ext. by intros _ [? ?] _. }
  split; [|done]. destruct (Hall 0) as (auth' & H). by exists auth'.
Qed.
End AccountRows.

Section AccountJob.
Context {F : GenesisFile} {N : GenesisNode}.
Context (base_of : string → option string) (Htrace : ∀ denom, denom_trace denom = Ok (base_of denom)).

Lemma read_run {A} (read : string → res (list A)) d text l :
  genesis_file d = Some text → read text = Ok l → readStreamGenesis read d = (d, Ok l).
Proof using Type. intros Hf Hr. unfold readStreamGenesis, query, mbind, io_bind. by rewrite Hf, Hr. Qed.

(** An account of the file as the transaction gets it, with its row. *)
Definition row_for (auths : gmap string (gmap string Json)) (bal : GenBalance) (a : GenAccount) : Prop :=
  ∃ x v, account_row a = Ok x ∧ vesting_of a = Ok v ∧ ∀ i, stored_account base_of auths bal (set_ac_id i x) v.

Lemma prepared_accounts d text balances auths :
  genesis_file d = Some text → bank_balances text = Ok balances → auth_accounts text = Ok auths →
  rows (account (tables d)) = [] → cache_agrees base_of (ibc_denom d) →
  Forall (genesis_auth (keyed_auths auths)) balances →
  ∃ d1 accounts, prepareAccounts d = (d1, Ok accounts) ∧ core d1 = core d ∧
    Forall2 (row_for (keyed_auths auths)) balances accounts.
Proof using Htrace.
  intros Hf Hb Ha Hempty Hcache Hall.
  destruct (mapR_total (gen_account (keyed_auths auths)) balances) as [accounts Hacc].
  { intros bal Hbal. rewrite Forall_forall in Hall. destruct (gen_account_run _ bal (Hall bal Hbal)) as (a & -> & _). by exists a. }
  pose proof (proj1 (mapR_Ok _ _ _) Hacc) as HF.
  destruct (handleIbcDenom_run base_of Htrace accounts d Hcache) as (d1 & accounts' & Hden & Hcore & HF').
  { intros a Ha'. apply list_elem_of_lookup in Ha' as [k Hk]. destruct (Forall2_lookup_r _ _ _ _ _ HF Hk) as (bal & Hbal & Hgen).
    rewrite Forall_forall in Hall. destruct (gen_account_run _ bal (Hall bal (list_elem_of_lookup_2 _ _ _ Hbal))) as (a2 & Ha2 & H).
    congruence. }
  exists d1, accounts'. split; [|split; [done|]].
  - unfold prepareAccounts. erewrite io_step by done. cbv beta. rewrite Hempty, bool_decide_eq_false_2 by (intros H; by apply H).
    rewrite (io_step _ _ _ _ _ (read_run _ d text _ Hf Hb)), (io_step _ _ _ _ _ (read_run _ d text _ Hf Ha)), Hacc.
    by erewrite io_step by done.
  - eapply Forall2_compose; [|eapply Forall2_impl_l; [exact HF|exact Hall|intros bal a Hg H; exact (conj Hg H)]|exact HF'].
    intros bal a a' [Hg Hgen] (H1 & H2 & H3 & H4 & H5 & H6 & H7).
    destruct (account_row_run base_of _ bal a a' Hg Hgen H1 H2 H3 H4 H5 H6 H7) as (x & v & Hx & Hv & _ & Hs).
    exists x, v. done.
Qed.

(** The rows and schedules of a list of accounts. *)
Lemma rows_for auths balances accounts :
  Forall2 (row_for auths) balances accounts →
  ∃ xs vs, mapR account_row accounts = Ok xs ∧ mapR vesting_of accounts = Ok vs ∧
    length xs = length balances ∧ length vs = length balances ∧
    ∀ i bal x v, balances !! i = Some bal → xs !! i = Some x → vs !! i = Some v →
      ∀ k, stored_account base_of auths bal (set_ac_id k x) v.
Proof using Type.
  intros HR. destruct (mapR_total account_row accounts) as [xs Hxs].
  { intros a Ha'. apply list_elem_of_lookup in Ha' as [k Hk]. destruct (Forall2_lookup_r _ _ _ _ _ HR Hk) as (bal & _ & x & v & Hx & _). eauto. }
  destruct (mapR_total vesting_of accounts) as [vs Hvs].
  { intros a Ha'. apply list_elem_of_lookup in Ha' as [k Hk]. destruct (Forall2_lookup_r _ _ _ _ _ HR Hk) as (bal & _ & x & v & _ & Hv & _). eauto. }
  pose proof (proj1 (mapR_Ok _ _ _) Hxs) as HX. pose proof (proj1 (mapR_Ok _ _ _) Hvs) as HV.
  pose proof (Forall2_length _ _ _ HX). pose proof (Forall2_length _ _ _ HV). pose proof (Forall2_length _ _ _ HR).
  exists xs, vs. split_and!; [done..|lia|lia|]. intros i bal x v Hbal Hx Hv.
  destruct (Forall2_lookup_l _ _ _ _ _ HR Hbal) as (a' & Ha' & x' & v' & Hx' & Hv' & Hs).
  destruct (Forall2_lookup_l _ _ _ _ _ HX Ha') as (x2 & Hx2 & Hrx). destruct (Forall2_lookup_l _ _ _ _ _ HV Ha') as (v2 & Hv2 & Hrv).
  assert (x' = x) as -> by congruence. assert (v' = v) as -> by congruence. exact Hs.
Qed.

(** The transaction of the job. *)
Lemma inserted_accounts auths balances accounts t :
  Forall2 (row_for auths) balances accounts → rows (account t) = [] → NoDup (gb_address <$> balances) →
  ∃ t', forEachM insert_account_chunk t (chunk accountsPerBatch accounts) = Ok t' ∧
    length (rows (account t')) = length balances ∧
    ∀ i bal, balances !! i = Some bal → ∃ x v,
      rows (account t') !! i = Some x ∧ ac_id x = next_id (account t) + Z.of_nat i ∧ stored_account base_of auths bal x v ∧
      account_vesting t' !! ac_id x = match v with Some v => Some v | None => account_vesting t !! ac_id x end.
Proof using Type.
  intros HR Hempty Hnd. destruct (rows_for auths balances accounts HR) as (xs & vs & Hxs & Hvs & Hlx & Hlv & Hrow).
  set (next := next_id (account t)). set (new := insert_serial set_ac_id xs (account t)).
  assert (rows new = serial set_ac_id next xs) as Hnew by (unfold new, insert_serial; cbn [rows]; by rewrite Hempty).
  assert (NoDup (ac_address <$> rows new)) as Hnd'.
  { assert (ac_address <$> rows new = gb_address <$> balances) as ->; [|done]. rewrite Hnew. apply list_eq. intros i.
    rewrite !list_lookup_fmap. unfold serial. rewrite list_lookup_imap. destruct (xs !! i) as [x|] eqn:Hx.
    - destruct (lookup_lt_is_Some_2 balances i) as [bal Hbal]; [apply lookup_lt_Some in Hx; lia|].
      destruct (lookup_lt_is_Some_2 vs i) as [v Hv]; [apply lookup_lt_Some in Hx; lia|]. rewrite Hbal. simpl.
      destruct (Hrow i bal x v Hbal Hx Hv 0) as (auth & _ & Hadr & _). by rewrite <-Hadr.
    - rewrite (proj2 (lookup_ge_None balances i)); [done|]. apply lookup_ge_None in Hx. lia. }
  set (l := zip (seqZ next (Z.of_nat (length accounts))) vs).
  exists (set_accounts new (add_vestings l (account_vesting t)) t). split.
  { apply (forEachM_batches insert_account_chunk); [apply insert_account_chunk_nil|apply insert_account_chunk_app|].
    rewrite concat_chunk by (unfold accountsPerBatch; lia). unfold insert_account_chunk. rewrite Hxs, Hvs.
    cbn [mbind res_bind]. by rewrite bool_decide_eq_true_2. }
  cbn [account account_vesting set_accounts]. rewrite Hnew. split; [rewrite length_serial; lia|]. intros i bal Hbal.
  destruct (lookup_lt_is_Some_2 xs i) as [x Hx]; [apply lookup_lt_Some in Hbal; lia|].
  destruct (lookup_lt_is_Some_2 vs i) as [v Hv]; [apply lookup_lt_Some in Hbal; lia|].
  exists (set_ac_id (next + Z.of_nat i) x), v. split_and!; [unfold serial; by rewrite list_lookup_imap, Hx|done|by apply (Hrow i)|].
  cbn [ac_id set_ac_id]. pose proof (Forall2_length _ _ _ HR) as Hlr.
  assert (l.*1 = seqZ next (Z.of_nat (length accounts))) as Hl by (apply fst_zip; rewrite length_seqZ; lia).
  destruct (add_vestings_lookup l (account_vesting t)) as [Hin _]; [rewrite Hl; apply NoDup_seqZ|].
  apply Hin. apply (list_elem_of_lookup_2 _ i). apply lookup_zip_Some. split; [|done].
  apply lookup_seqZ. split; [lia|]. apply lookup_lt_Some in Hv. lia.
Qed.

(** C11: when the genesis file describes every address that has a balance, the
    job stores one account per balance, with fresh ids in the order of the
    file: type, key and numbers of its description, the coins with the base
    denominations of the chain in both lists, and a schedule exactly for the
    vesting accounts; its checkpoint is set. *)
Theorem genesis_accounts_stored d text balances auths :
  checkGenesisJobProcess CRAWL_GENESIS_ACCOUNT d = 0 → genesis_file d = Some text →
  bank_balances text = Ok balances → auth_accounts text = Ok auths →
  rows (account (tables d)) = [] → cache_agrees base_of (ibc_denom d) →
  NoDup (gb_address <$> balances) → Forall (genesis_auth (keyed_auths auths)) balances →
  ∃ d', crawlGenesisAccounts d = (d', Ok tt) ∧ block_checkpoint d' !! CRAWL_GENESIS_ACCOUNT = Some 1 ∧
    length (rows (account (tables d'))) = length balances ∧
    ∀ i bal, balances !! i = Some bal → ∃ x v,
      rows (account (tables d')) !! i = Some x ∧ ac_id x = next_id (account (tables d)) + Z.of_nat i ∧
      stored_account base_of (keyed_auths auths) bal x v ∧
      account_vesting (tables d') !! ac_id x =
        match v with Some v => Some v | None => account_vesting (tables d) !! ac_id x end.
Proof using Htrace.
  intros Hp Hf Hb Ha Hempty Hcache Hnd Hall.
  destruct (prepared_accounts d text balances auths Hf Hb Ha Hempty Hcache Hall) as (d1 & accounts & Hprep & Hcore & HR).
  assert (tables d1 = tables d) as Ht by exact (f_equal (λ c, c.1.1.1.1) Hcore).
  destruct (inserted_accounts _ balances accounts (tables d) HR Hempty Hnd) as (t' & Hw & Hlen & Hrows).
  exists (terminateProcess (set_checkpoint CRAWL_GENESIS_ACCOUNT 1 (set_tables t' d1))).
  destruct (terminateProcess_fields (set_checkpoint CRAWL_GENESIS_ACCOUNT 1 (set_tables t' d1))) as (-> & -> & _).
  split; [by apply (genesis_job_run _ _ _ d d1 accounts); [done..|by rewrite Ht]|].
  split; [by apply lookup_insert_eq|]. done.
Qed.
End AccountJob.

(** ** The rows of the IBC tables *)
Lemma insert_ibc_run {A} (with_id : Z → A → A) (key : A → string) l t :
  (∀ i x, key (with_id i x) = key x) → rows t = [] → NoDup (key <$> l) →
  insert_ibc with_id key l t = Ok (serial with_id (next_id t) l, insert_serial with_id l t) ∧
  rows (insert_serial with_id l t) = serial with_id (next_id t) l ∧ key <$> serial with_id (next_id t) l = key <$> l.
Proof.
  intros Hkey Hempty Hnd.
  assert (rows (insert_serial with_id l t) = serial with_id (next_id t) l) as Hrows by (unfold insert_serial; cbn [rows]; by rewrite Hempty).
  assert (key <$> serial with_id (next_id t) l = key <$> l) as Hkeys.
  { unfold serial. rewrite fmap_imap. rewrite <-imap_const. apply imap_ext. intros i x _. apply Hkey. }
  split_and!; [|done..]. unfold insert_ibc. by rewrite Hrows, Hkeys, bool_decide_eq_true_2.
Qed.

Lemma find_key_total {A} (key : A → string) (l : list A) k :
  k ∈ key <$> l → ∃ x, find (λ x, bool_decide (key x = k)) l = Some x ∧ x ∈ l ∧ key x = k.
Proof.
  intros Hk. destruct (find (λ x, bool_decide (key x = k)) l) as [x|] eqn:Hf; [exists x; by apply find_by_key in Hf as []|].
  by apply find_by_key_None in Hf.
Qed.

Section IbcRows.
Context {F : GenesisFile}.

Lemma new_client_run consensus c :
  (∃ s, s ∈ consensus ∧ gs_client_id s = gl_client_id c) → (∀ s, s ∈ consensus → gs_consensus_states s ≠ []) →
  is_Some (cs_chain_id (gl_client_state c)) → ∃ x, new_client consensus c = Ok x ∧ cl_client_id x = gl_client_id c.
Proof using Type.
  intros (s & Hs & Hid) Hstates [chain Hchain]. unfold new_client.
  destruct (find_key_total gs_client_id consensus (gl_client_id c)) as (s' & -> & Hs' & _).
  { rewrite <-Hid. by apply list_elem_of_fmap_2. }
  rewrite Hchain. cbn [required mbind res_bind].
  destruct (last (gs_consensus_states s')) as [state|] eqn:Hlast; [by eexists|]. by apply last_None, Hstates in Hlast.
Qed.

(** The row of a connection refers to the row of its client. *)
Definition linked_connection (clients : list IbcClient) (c : GenConnection) (x : IbcConnection) : Prop :=
  co_connection_id x = gn_id c ∧ co_counterparty_client_id x = gn_counterparty_client_id c ∧
  co_counterparty_connection_id x = gn_counterparty_connection_id c ∧
  ∃ cl, cl ∈ clients ∧ cl_id cl = co_ibc_client_id x ∧ cl_client_id cl = gn_client_id c.
Definition linked_channel (connections : list IbcConnection) (c : GenChannel) (x : IbcChannel) : Prop :=
  ch_channel_id x = gh_channel_id c ∧ ch_port_id x = gh_port_id c ∧ ch_counterparty_port_id x = gh_counterparty_port_id c ∧
  ch_counterparty_channel_id x = gh_counterparty_channel_id c ∧ ch_state x = gh_state c ∧
  ∃ co, co ∈ connections ∧ co_id co = ch_ibc_connection_id x ∧ head (gh_connection_hops c) = Some (co_connection_id co).

Lemma new_connection_run clients c :
  gn_client_id c ∈ cl_client_id <$> clients → ∃ x, new_connection clients c = Ok x ∧ linked_connection clients c x.
Proof using Type.
  intros Hc. unfold new_connection. destruct (find_key_total cl_client_id clients _ Hc) as (cl & -> & Hcl & Hid).
  eexists. split; [done|]. split_and!; try done. by exists cl.
Qed.

Lemma new_channel_run connections c hop :
  head (gh_connection_hops c) = Some hop → hop ∈ co_connection_id <$> connections →
  ∃ x, new_channel connections c = Ok x ∧ linked_channel connections c x.
Proof using Type.
  intros Hhop Hc. unfold new_channel. rewrite Hhop.
  assert (find (λ x, bool_decide (Some (co_connection_id x) = Some hop)) connections =
    find (λ x, bool_decide (co_connection_id x = hop)) connections) as ->.
  { clear. induction connections as [|x l IH]; [done|]. simpl. rewrite IH.
    by rewrite (bool_decide_ext (Some (co_connection_id x) = Some hop) (co_connection_id x = hop)) by naive_solver. }
  destruct (find_key_total co_connection_id connections _ Hc) as (co & -> & Hco & Hid).
  eexists. split; [done|]. split_and!; try done. exists co. split_and!; [done..|congruence].
Qed.

(** A table filled by rows that answer to a list of the file. *)
Lemma filled {A B} (make : A → res B) (P : A → B → Prop) (with_id : Z → B → B) (l : list A) next :
  (∀ x, x ∈ l → ∃ y, make x = Ok y ∧ P x y) → (∀ i x y, P x y → P x (with_id i y)) →
  ∃ ys, mapR make l = Ok ys ∧ Forall2 P l ys ∧ Forall2 P l (serial with_id next ys).
Proof using Type.
  intros Hmake Hid. destruct (mapR_total make l) as [ys Hys]; [intros x Hx; destruct (Hmake x Hx) as (y & ? & _); eauto|].
  exists ys. split; [done|]. assert (Forall2 P l ys) as HP.
  { apply mapR_Ok in Hys. eapply Forall2_impl_l; [exact Hys|apply Forall_forall, Hmake|]. cbv beta.
    intros x y (y' & Hy' & HP) Hy. rewrite Hy in Hy'. by injection Hy' as <-. }
  split; [done|]. clear -HP Hid. revert next. induction HP as [|x y l ys Hxy _ IH]; intros next; [constructor|].
  rewrite serial_cons. constructor; [by apply Hid|apply IH].
Qed.

(** What the three parts of the file must agree on. *)
Record linked (g : GenIbc) : Prop := {
  lk_clients : NoDup (gl_client_id <$> gi_clients g);
  lk_connections : NoDup (gn_id <$> gi_connections g);
  lk_channels : NoDup (gh_channel_id <$> gi_channels g);
  lk_consensus c : c ∈ gi_clients g →
    (∃ s, s ∈ gi_consensus g ∧ gs_client_id s = gl_client_id c) ∧ is_Some (cs_chain_id (gl_client_state c));
  lk_states s : s ∈ gi_consensus g → gs_consensus_states s ≠ [];
  lk_connection c : c ∈ gi_connections g → gn_client_id c ∈ gl_client_id <$> gi_clients g;
  lk_channel c : c ∈ gi_channels g → ∃ hop, head (gh_connection_hops c) = Some hop ∧ hop ∈ gn_id <$> gi_connections g
}.

Lemma same_keys {A B} (f : A → string) (g : B → string) (P : A → B → Prop) l l' :
  (∀ x y, P x y → g y = f x) → Forall2 P l l' → g <$> l' = f <$> l.
Proof using Type. intros H. induction 1; [done|]. rewrite !fmap_cons. f_equal; auto. Qed.

Lemma write_ibc_linked g t :
  linked g → rows (ibc_client t) = [] → rows (ibc_connection t) = [] → rows (ibc_channel t) = [] →
  ∃ t', write_ibc g t = Ok t' ∧
    Forall2 (λ c x, cl_client_id x = gl_client_id c) (gi_clients g) (rows (ibc_client t')) ∧
    Forall2 (linked_connection (rows (ibc_client t'))) (gi_connections g) (rows (ibc_connection t')) ∧
    Forall2 (linked_channel (rows (ibc_connection t'))) (gi_channels g) (rows (ibc_channel t')).
Proof using Type.
  intros [H1 H2 H3 Hcons Hst Hcon Hchan] He1 He2 He3. unfold write_ibc.
  destruct (filled (new_client (gi_consensus g)) (λ c x, cl_client_id x = gl_client_id c) set_cl_id (gi_clients g) (next_id (ibc_client t)))
    as (cls & -> & Hcls & Hcls').
  { intros c Hc. destruct (Hcons c Hc). by apply new_client_run. } { done. }
  cbn [mbind res_bind]. pose proof (same_keys gl_client_id cl_client_id _ _ _ (λ x y H, H) Hcls) as Hk1.
  destruct (insert_ibc_run set_cl_id cl_client_id cls (ibc_client t)) as (-> & Hr1 & Hks1); [done..|by rewrite Hk1|].
  cbn [mbind res_bind]. set (clients := serial set_cl_id _ cls) in *.
  destruct (filled (new_connection clients) (linked_connection clients) set_co_id (gi_connections g) (next_id (ibc_connection t)))
    as (cos & -> & Hcos & Hcos').
  { intros c Hc. apply new_connection_run. rewrite Hks1, Hk1. by apply Hcon. } { done. }
  cbn [mbind res_bind].
  pose proof (same_keys gn_id co_connection_id _ _ _ (λ x y (H : linked_connection clients x y), proj1 H) Hcos) as Hk2.
  destruct (insert_ibc_run set_co_id co_connection_id cos (ibc_connection t)) as (-> & Hr2 & Hks2); [done..|by rewrite Hk2|].
  cbn [mbind res_bind]. set (connections := serial set_co_id _ cos) in *.
  destruct (filled (new_channel connections) (linked_channel connections) set_ch_id (gi_channels g) (next_id (ibc_channel t)))
    as (chs & -> & Hchs & Hchs').
  { intros c Hc. destruct (Hchan c Hc) as (hop & Hhop & Hin). apply (new_channel_run connections c hop Hhop). by rewrite Hks2, Hk2. } { done. }
  cbn [mbind res_bind].
  pose proof (same_keys gh_channel_id ch_channel_id _ _ _ (λ x y (H : linked_channel connections x y), proj1 H) Hchs) as Hk3.
  destruct (insert_ibc_run set_ch_id ch_channel_id chs (ibc_channel t)) as (-> & Hr3 & _); [done..|by rewrite Hk3|].
  cbn [mbind res_bind]. eexists. split; [done|]. cbn [ibc_client ibc_connection ibc_channel set_ibc]. by rewrite Hr1, Hr2, Hr3.
Qed.

(** When the parts of the file agree, the IBC job stores a row per client,
    connection and channel; every connection refers to the row of its client
    and every channel to the row of the first connection it goes over. *)
Theorem genesis_ibc_linked d text g :
  checkGenesisJobProcess CRAWL_GENESIS_IBC_TAO d = 0 → genesis_file d = Some text →
  ibc_clients text = Ok (gi_clients g) → ibc_clients_consensus text = Ok (gi_consensus g) →
  ibc_connections text = Ok (gi_connections g) → ibc_channels text = Ok (gi_channels g) →
  linked g → rows (ibc_client (tables d)) = [] → rows (ibc_connection (tables d)) = [] → rows (ibc_channel (tables d)) = [] →
  ∃ d', crawlGenesisIbcTao d = (d', Ok tt) ∧ block_checkpoint d' !! CRAWL_GENESIS_IBC_TAO = Some 1 ∧
    Forall2 (λ c x, cl_client_id x = gl_client_id c) (gi_clients g) (rows (ibc_client (tables d'))) ∧
    Forall2 (linked_connection (rows (ibc_client (tables d')))) (gi_connections g) (rows (ibc_connection (tables d'))) ∧
    Forall2 (linked_channel (rows (ibc_connection (tables d')))) (gi_channels g) (rows (ibc_channel (tables d'))).
Proof using Type.
  intros Hp Hf R1 R2 R3 R4 Hl He1 He2 He3.
  destruct (write_ibc_linked g (tables d) Hl He1 He2 He3) as (t & Hw & Hrows).
  exists (terminateProcess (set_checkpoint CRAWL_GENESIS_IBC_TAO 1 (set_tables t d))).
  destruct (terminateProcess_fields (set_checkpoint CRAWL_GENESIS_IBC_TAO 1 (set_tables t d))) as (-> & -> & _).
  split; [|split; [by apply lookup_insert_eq|exact Hrows]]. apply (genesis_job_run _ _ _ d d g); [done| |done].
  unfold prepareGenIbc. rewrite (io_step _ _ _ _ _ (read_run _ d text _ Hf R1)), (io_step _ _ _ _ _ (read_run _ d text _ Hf R2)),
    (io_step _ _ _ _ _ (read_run _ d text _ Hf R3)), (io_step _ _ _ _ _ (read_run _ d text _ Hf R4)). by destruct g.
Qed.

(** A client without consensus states stops the job, which stores nothing. *)
Theorem client_without_consensus_stops d text clients consensus connections channels c :
  checkGenesisJobProcess CRAWL_GENESIS_IBC_TAO d = 0 → genesis_file d = Some text →
  ibc_clients text = Ok clients → ibc_clients_consensus text = Ok consensus →
  ibc_connections text = Ok connections → ibc_channels text = Ok channels →
  c ∈ clients → (∀ s, s ∈ consensus → gs_client_id s ≠ gl_client_id c) →
  ∃ msg, crawlGenesisIbcTao d = (d, Throw msg).
Proof using Type.
  intros Hp Hf R1 R2 R3 R4 Hc Hno. unfold crawlGenesisIbcTao, genesis_job. erewrite io_step by done. cbv beta.
  rewrite Hp. rewrite bool_decide_eq_false_2 by (intros H; by apply H).
  assert (prepareGenIbc d = (d, Ok {| gi_clients := clients; gi_consensus := consensus; gi_connections := connections; gi_channels := channels |})) as Hprep.
  { unfold prepareGenIbc. by rewrite (io_step _ _ _ _ _ (read_run _ d text _ Hf R1)), (io_step _ _ _ _ _ (read_run _ d text _ Hf R2)),
      (io_step _ _ _ _ _ (read_run _ d text _ Hf R3)), (io_step _ _ _ _ _ (read_run _ d text _ Hf R4)). }
  rewrite (io_step _ _ _ _ _ Hprep). unfold commit, mbind, io_bind, write_ibc. cbn [gi_clients gi_consensus].
  destruct (mapR (new_client consensus) clients) as [cls|msg] eqn:Hm; [|by eexists].
  apply mapR_Ok in Hm. apply list_elem_of_lookup in Hc as [i Hi]. destruct (Forall2_lookup_l _ _ _ _ _ Hm Hi) as (x & _ & Hx).
  exfalso. unfold new_client in Hx. destruct (find _ consensus) as [s|] eqn:Hs; [|done].
  apply find_by_key in Hs as [Hs Hid]. by apply (Hno s Hs).
Qed.
End IbcRows.

(** ** Fee grants, and files a job refuses *)
Section Files.
Context {F : GenesisFile} {N : GenesisNode} {E : Encoding}.

Lemma insert_feegrant_chunks t l :
  forEachM insert_feegrant_chunk t (chunk feeGrantsPerBatch l) = Ok (set_feegrants (insert_serial set_fg_id l (feegrant t)) t).
Proof using Type.
  rewrite forEachM_concat; [by rewrite concat_chunk by (unfold feeGrantsPerBatch; lia)|..].
  - intros s. unfold insert_feegrant_chunk. rewrite insert_serial_nil. by destruct s.
  - intros s l1 l2. unfold insert_feegrant_chunk. cbn [mbind res_bind]. cbn [feegrant set_feegrants].
    by rewrite insert_serial_app.
Qed.

(** The rows of an allowance: one per limit of its basic part, or one without
    a limit. *)
Definition limits (b : BasicPart) : list (option (string * string)) :=
  match spend_limit b with Some (x :: l) => Some <$> x :: l | _ => [None] end.
Definition grant_rows (g : GenFeegrant) (x : string * BasicPart) : list Feegrant :=
  gen_feegrant g x.1 x.2 <$> limits x.2.

Theorem genesis_feegrants_stored d text grants parts :
  checkGenesisJobProcess CRAWL_GENESIS_FEEGRANT d = 0 → genesis_file d = Some text →
  feegrant_allowances text = Ok grants →
  Forall2 (λ g x, innermost (gf_allowance g) = Ok x ∧ is_Some (spend_limit x.2)) grants parts →
  ∃ d', crawlGenesisFeeGrants d = (d', Ok tt) ∧ block_checkpoint d' !! CRAWL_GENESIS_FEEGRANT = Some 1 ∧
    rows (feegrant (tables d')) = rows (feegrant (tables d)) ++
      serial set_fg_id (next_id (feegrant (tables d))) (concat (zip_with grant_rows grants parts)).
Proof using Type.
  intros Hp Hf R H2.
  assert (mapR gen_feegrants grants = Ok (zip_with grant_rows grants parts)) as Hm.
  { apply mapR_Ok. clear -H2. induction H2 as [|g x l l' [Hx [lim Hl]] _ IH]; [constructor|]. simpl. constructor; [|done].
    unfold gen_feegrants, grant_rows, limits. rewrite Hx. cbn [mbind res_bind]. rewrite Hl. destruct lim as [|y lim]; [done|].
    by rewrite <-list_fmap_compose. }
  set (t := set_feegrants (insert_serial set_fg_id (concat (zip_with grant_rows grants parts)) (feegrant (tables d))) (tables d)).
  exists (terminateProcess (set_checkpoint CRAWL_GENESIS_FEEGRANT 1 (set_tables t d))).
  destruct (terminateProcess_fields (set_checkpoint CRAWL_GENESIS_FEEGRANT 1 (set_tables t d))) as (-> & -> & _).
  split; [|split; [by apply lookup_insert_eq|done]].
  apply (genesis_job_run _ _ _ d d (concat (zip_with grant_rows grants parts))); [done| |apply insert_feegrant_chunks].
  unfold prepareGenFeegrants. rewrite (io_step _ _ _ _ _ (read_run _ d text _ Hf R)), Hm. by erewrite io_step by done.
Qed.

(** A grant without expiration is stored as one that ended with the first
    second of 1970. *)
Lemma no_expiration_1970 g x r :
  expiration x.2 = None → r ∈ grant_rows g x → fg_expiration r = Some "1970-01-01T00:00:00.000Z".
Proof using Type. intros Hx (l & -> & _)%list_elem_of_fmap. simpl. by rewrite Hx. Qed.

(** A job whose transaction or preparation fails. *)
Lemma genesis_job_stops {W} job (prepare : io Db W) (write : W → Tables → res Tables) d d1 w msg :
  checkGenesisJobProcess job d = 0 → prepare d = (d1, Ok w) → write w (tables d1) = Throw msg →
  genesis_job job prepare write d = (d1, Throw msg).
Proof using Type.
  intros Hp Hprep Hw. unfold genesis_job. erewrite io_step by done. cbv beta.
  rewrite bool_decide_eq_false_2 by (rewrite Hp; intros H; by apply H). rewrite (io_step _ _ _ _ _ Hprep).
  unfold commit, mbind, io_bind. by rewrite Hw.
Qed.

Lemma mapR_stops {A B} (f : A → res B) l x : x ∈ l → (∃ msg, f x = Throw msg) → ∃ msg, mapR f l = Throw msg.
Proof using Type.
  intros Hx [msg Hf]. destruct (mapR f l) as [ys|m] eqn:Hm; [|by eexists]. apply mapR_Ok in Hm.
  apply list_elem_of_lookup in Hx as [i Hi]. destruct (Forall2_lookup_l _ _ _ _ _ Hm Hi) as (y & _ & Hy). congruence.
Qed.

(** A genesis file with one proposal of gov v1 stops the job of the
    proposals whenever it runs: nothing is stored, its checkpoint is not set,
    and so the process does not end. *)
Theorem v1_proposal_stops_job d text proposals p :
  checkGenesisJobProcess CRAWL_GENESIS_PROPOSAL d = 0 → genesis_file d = Some text →
  gov_proposals text = Ok proposals → inr p ∈ proposals →
  ∃ msg, crawlGenesisProposals d = (d, Throw msg).
Proof using Type.
  intros Hp Hf R Hin. destruct (mapR_stops genesis_proposal proposals (inr p) Hin) as [msg Hm]; [by eexists|].
  exists msg. apply (genesis_job_stops _ _ _ d d proposals); [done|by apply read_run with text|]. by rewrite Hm.
Qed.

(** A balance without a description in [auth] stops the job of the accounts. *)
Theorem balance_without_auth_stops d text balances auths bal :
  checkGenesisJobProcess CRAWL_GENESIS_ACCOUNT d = 0 → genesis_file d = Some text →
  rows (account (tables d)) = [] → bank_balances text = Ok balances → auth_accounts text = Ok auths →
  bal ∈ balances → keyed_auths auths !! gb_address bal = None →
  ∃ msg, crawlGenesisAccounts d = (d, Throw msg).
Proof using Type.
  intros Hp Hf He Rb Ra Hin Hno.
  destruct (mapR_stops (gen_account (keyed_auths auths)) balances bal Hin) as [msg Hm].
  { exists type_error. unfold gen_account. by rewrite Hno. }
  exists msg. unfold crawlGenesisAccounts, genesis_job. erewrite io_step by done. cbv beta.
  rewrite Hp, bool_decide_eq_false_2 by (intros H; by apply H).
  assert (prepareAccounts d = (d, Throw msg)) as Hprep.
  { unfold prepareAccounts. erewrite io_step by done. cbv beta. rewrite He, bool_decide_eq_false_2 by (intros H; by apply H).
    rewrite (io_step _ _ _ _ _ (read_run _ d text _ Hf Rb)), (io_step _ _ _ _ _ (read_run _ d text _ Hf Ra)), Hm. done. }
  unfold mbind, io_bind. by rewrite Hprep.
Qed.
End Files.

(** ** Witnesses *)
Module Demo.
Definition text : string := "{}".
Definition rpc : GenesisRpc := {|
  rpc_genesis := RpcError (-32603);
  genesis_chunked i := match i with O => Answer "{" | S O => Answer "}" | _ => RpcError (-32603) end |}.
Definition field (k v : string) : string * Json := (k, JStr v).
(** A base account, and a vesting account whose base account is two levels
    down. *)
Definition auths : list Json :=
  [ JObj [field "@type" "/cosmos.auth.v1beta1.BaseAccount"; field "address" "aura1";
          ("pub_key", JObj [field "key" "AAAA"]); field "account_number" "0"; field "sequence" "7"];
    JObj [field "@type" AccountType.DELAYED_VESTING;
          ("base_vesting_account", JObj [
             ("base_account", JObj [field "address" "aura2"; ("pub_key", JNull); field "account_number" "1"; field "sequence" "0"]);
             ("original_vesting", JArr [JObj [field "denom" "uaura"; field "amount" "100"]]);
             ("delegated_free", JArr []); ("delegated_vesting", JArr []); field "end_time" "1800000000"])] ].
Definition balances : list GenBalance :=
  [ {| gb_address := "aura1"; gb_coins := [("ibc/AA", "5"); ("uaura", "6")] |};
    {| gb_address := "aura2"; gb_coins := [("uaura", "100")] |} ].
Definition ibc : GenIbc := {|
  gi_clients := [ {| gl_client_id := "07-tendermint-0"; gl_client_state := {| cs_chain_id := Some "osmosis-1"; cs_json := "{}" |} |} ];
  gi_consensus := [ {| gs_client_id := "07-tendermint-0"; gs_consensus_states := ["a"; "b"] |} ];
  gi_connections := [ {| gn_id := "connection-0"; gn_client_id := "07-tendermint-0";
                         gn_counterparty_client_id := "07-tendermint-9"; gn_counterparty_connection_id := "connection-9" |} ];
  gi_channels := [ {| gh_channel_id := "channel-0"; gh_port_id := "transfer"; gh_counterparty_port_id := "transfer";
                      gh_counterparty_channel_id := "channel-9"; gh_state := "STATE_OPEN";
                      gh_connection_hops := ["connection-0"] |} ] |}.
Definition file : GenesisFile := {|
  bank_balances _ := Ok balances; auth_accounts _ := Ok auths; gen_txs _ := Ok []; staking_validators _ := Ok [];
  gov_proposals _ := Ok []; wasm_codes _ := Ok []; wasm_contracts _ := Ok []; feegrant_allowances _ := Ok [];
  ibc_clients _ := Ok (gi_clients ibc); ibc_clients_consensus _ := Ok (gi_consensus ibc);
  ibc_connections _ := Ok (gi_connections ibc); ibc_channels _ := Ok (gi_channels ibc) |}.
Definition base_of (denom : string) : option string := if bool_decide (denom = "ibc/AA") then Some "uosmo" else None.
Definition node : GenesisNode := {|
  denom_trace denom := Ok (base_of denom); raw_cw2 _ := Ok None; contract_info _ := Ok None; base64_to_hex s := s |}.
Definition empty {A} : Serial A := {| rows := []; next_id := 1 |}.
Definition start : Db := {|
  tables := {| account := empty; account_vesting := ∅; validator := ∅; proposal := ∅; code := ∅; smart_contract := empty;
               feegrant := empty; ibc_client := empty; ibc_connection := empty; ibc_channel := empty |};
  genesis_file := None; genesis_queue := []; ibc_denom := ∅; exited := false; block_checkpoint := ∅ |}.
Definition loaded : Db := (handleGenesis (R := rpc) 4 start).1.
Definition codec : StakingCodec := {|
  pubkeyToRawAddress key := Ok key; toHex bytes := bytes; parseCoins s := Ok [(s, "utaura")] |}.
Definition address : AddressCodec := {|
  toBech32 p d := (p +:+ d)%string; fromBech32 s := Ok ("aura", s); ETH_encoder d := d; ETH_decoder d := Ok d |}.
Definition encoding : Encoding := {|
  fromBase64 s := Ok s; toBase64 b := b; fromUtf8 b := Ok b; toUtf8 s := s; semver_compare _ _ := Ok 0 |}.
Definition run (j : Job) (d : Db) : Db :=
  (handler (F := file) (N := node) (K := codec) (C := address) (E := encoding) j d).1.

Abbreviation reach := (greachable (R := rpc) (F := file) (N := node) (K := codec) (C := address) (E := encoding) start).
Abbreviation step := (gstep (R := rpc) (F := file) (N := node) (K := codec) (C := address) (E := encoding)).
Lemma run_step j d : exited d = false → bool_decide (name j ∈ genesis_queue d) = true → step d (run j d).
Proof. intros He Hq%bool_decide_eq_true_1. by apply step_job. Qed.
Lemma run_reach j d : reach d → exited d = false → bool_decide (name j ∈ genesis_queue d) = true → reach (run j d).
Proof. intros Hr He Hq. eapply greach_step; [exact Hr|by apply run_step]. Qed.
Lemma loaded_reach : reach loaded.
Proof. eapply greach_step; [apply greach_start|]. by apply (step_download 4). Qed.

Definition auth (address : string) : gmap string Json := default ∅ (keyed_auths auths !! address).
Lemma described : Forall (genesis_auth (keyed_auths auths)) balances.
Proof.
  apply Forall_cons; split; [|apply Forall_singleton].
  - exists (auth "aura1"), "/cosmos.auth.v1beta1.BaseAccount", 0, 7, None.
    repeat (split; [vm_compute; reflexivity|]). vm_compute; reflexivity.
  - exists (auth "aura2"), AccountType.DELAYED_VESTING, 1, 0,
      (Some {| v_original_vesting := [ {| Accounts.c_denom := "uaura"; Accounts.c_amount := "100"; Accounts.c_base_denom := None |} ];
               v_delegated_free := []; v_delegated_vesting := []; v_start_time := None; v_end_time := 1800000000 |}).
    repeat (split; [vm_compute; reflexivity|]). vm_compute; reflexivity.
Qed.

Lemma linked_ibc : linked ibc.
Proof.
  constructor; try (apply NoDup_singleton).
  - intros c Hc. apply list_elem_of_singleton in Hc as ->. split; [|by eexists]. eexists. split; [by left|done].
  - intros s Hs. by apply list_elem_of_singleton in Hs as ->.
  - intros c Hc. apply list_elem_of_singleton in Hc as ->. by left.
  - intros c Hc. apply list_elem_of_singleton in Hc as ->. exists "connection-0". split; [done|by left].
Qed.
End Demo.

(** The download, then the job of the IBC tables, which writes its rows. *)
Lemma genesis_written_once_witness :
  block_checkpoint (Demo.run JIbcTao Demo.loaded) !! name JIbcTao = Some 1 ∧
  same_part JIbcTao (tables (Demo.run JIbcTao Demo.loaded)) (tables (Demo.run JIbcTao (Demo.run JIbcTao Demo.loaded))) ∧
  same_part JAccount (tables Demo.start) (tables (Demo.run JIbcTao (Demo.run JIbcTao Demo.loaded))).
Proof.
  assert (Demo.reach (Demo.run JIbcTao Demo.loaded)) as Hr
    by (apply Demo.run_reach; [apply Demo.loaded_reach|vm_compute; reflexivity..]).
  assert (Demo.step (Demo.run JIbcTao Demo.loaded) (Demo.run JIbcTao (Demo.run JIbcTao Demo.loaded))) as Hs
    by (apply Demo.run_step; vm_compute; reflexivity).
  split; [by vm_compute|split].
  - apply (proj1 (genesis_written_once Demo.start _ _ JIbcTao Hr Hs)). by vm_compute.
  - apply (proj2 (genesis_written_once Demo.start _ _ JAccount Hr Hs)). intros H. vm_compute in H. discriminate H.
Defined.

(** The process after all the jobs but the one for contracts goes on; it ends
    after that one. *)
Definition all_but_contracts (d : Db) : Db :=
  Demo.run JCode (Demo.run JIbcTao (Demo.run JFeegrant (Demo.run JProposal (Demo.run JValidator (Demo.run JAccount d))))).
Lemma genesis_exits_when_done_witness :
  exited (all_but_contracts Demo.loaded) = false ∧
  exited (Demo.run JContract (all_but_contracts Demo.loaded)) = true ∧
  block_checkpoint (Demo.run JContract (all_but_contracts Demo.loaded)) !! name JAccount = Some 1 ∧
  block_checkpoint (Demo.run JContract (all_but_contracts Demo.loaded)) !! CRAWL_GENESIS_CODE = Some 1.
Proof.
  assert (Demo.reach (Demo.run JContract (all_but_contracts Demo.loaded))) as Hr
    by (unfold all_but_contracts; repeat (apply Demo.run_reach; [|vm_compute; reflexivity..]); apply Demo.loaded_reach).
  assert (exited (Demo.run JContract (all_but_contracts Demo.loaded)) = true) as He by by vm_compute.
  split; [by vm_compute|split; [exact He|]].
  destruct (genesis_exits_when_done Demo.start eq_refl eq_refl _ Hr) as [H1 H2]. split; [exact (H1 He JAccount)|].
  apply H2. apply (bool_decide_unpack _). by vm_compute.
Defined.

Lemma genesis_accounts_stored_witness :
  ∃ d', crawlGenesisAccounts (F := Demo.file) (N := Demo.node) Demo.loaded = (d', Ok tt) ∧
    length (rows (account (tables d'))) = 2%nat ∧ is_Some (account_vesting (tables d') !! 2).
Proof.
  destruct (genesis_accounts_stored (F := Demo.file) (N := Demo.node) Demo.base_of (λ _, eq_refl) Demo.loaded Demo.text
    Demo.balances Demo.auths) as (d' & Hrun & _ & Hlen & Hrows); [by vm_compute|by vm_compute|done|done|by vm_compute| | | |].
  - intros denom base. by vm_compute.
  - by compute_done.
  - apply Demo.described.
  - exists d'. split; [exact Hrun|]. split; [exact Hlen|].
    destruct (Hrows 1%nat _ eq_refl) as (x & v & _ & Hid & (auth & Ha & _ & _ & _ & _ & _ & _ & _ & Hv) & Hvest).
    assert (ac_id x = 2) as Hx by (rewrite Hid; by vm_compute). rewrite Hx in Hvest. rewrite Hvest.
    destruct v as [v|]; [by eexists|]. exfalso. pose proof (proj1 Hv eq_refl) as Hno.
    assert (auth = Demo.auth "aura2") as -> by (unfold Demo.auth; cbn [gb_address] in Ha; by rewrite Ha).
    vm_compute in Hno. discriminate Hno.
Defined.

Lemma genesis_ibc_linked_witness :
  ∃ d' x, crawlGenesisIbcTao (F := Demo.file) Demo.loaded = (d', Ok tt) ∧
    rows (ibc_channel (tables d')) = [x] ∧ ch_channel_id x = "channel-0" ∧ ch_ibc_connection_id x = 1.
Proof.
  destruct (genesis_ibc_linked (F := Demo.file) Demo.loaded Demo.text Demo.ibc) as (d' & Hrun & _ & Hcl & Hco & Hch);
    [by vm_compute|by vm_compute|done|done|done|done|apply Demo.linked_ibc|by vm_compute|by vm_compute|by vm_compute|].
  exists d'. pose proof Hrun as Hd. vm_compute in Hd. injection Hd as <-. eexists. split; [exact Hrun|].
  split; [vm_compute; reflexivity|by vm_compute].
Defined.
