(* ===== verification/GraphQL.v ===== *)
(** * The checks of GraphQL queries

    [services/api-gateways/graphiql.service.ts] and the functions of
    [common/utils/utils.ts] it uses: which queries are passed on to Hasura.
    The parser ([graphql-tag]) and Hasura are parameters.  A parsed query is a
    tree of JavaScript objects, which the code walks by its keys. *)
From S2P Require Import Prelude JsNum Numbers.

(** ** Values *)
#[warnings="-register-all"]
Inductive Val :=
| Undefined
| Null
| Bool (b : bool)
| Str (s : string)
| Arr (l : list Val)
| Obj (l : list (string * Val)).

Section ValInd.
Context (P : Val → Prop).
Context (Hundef : P Undefined) (Hnull : P Null) (Hbool : ∀ b, P (Bool b)) (Hstr : ∀ s, P (Str s)).
Context (Harr : ∀ l, Forall P l → P (Arr l)) (Hobj : ∀ l, Forall (λ x, P x.2) l → P (Obj l)).
(** Induction with the hypothesis for the values inside. *)
Fixpoint Val_nested_ind (v : Val) : P v :=
  match v with
  | Undefined => Hundef
  | Null => Hnull
  | Bool b => Hbool b
  | Str s => Hstr s
  | Arr l => Harr l ((fix go l : Forall P l :=
      match l with [] => Forall_nil_2 _ | x :: l => Forall_cons_2 _ _ _ (Val_nested_ind x) (go l) end) l)
  | Obj l => Hobj l ((fix go l : Forall (λ x, P x.2) l :=
      match l with [] => Forall_nil_2 _ | x :: l => Forall_cons_2 _ _ _ (Val_nested_ind x.2) (go l) end) l)
  end.
End ValInd.

Definition type_error : string := "TypeError: Cannot read properties of undefined".
(** [v.k] *)
Definition get (v : Val) (k : string) : res Val :=
  match v with
  | Undefined | Null => Throw type_error
  | Obj l => Ok (default Undefined (snd <$> find (λ x, bool_decide (x.1 = k)) l))
  | _ => Ok Undefined
  end.
(** [typeof v === 'object' && v !== null] *)
Definition is_object (v : Val) : bool := match v with Arr _ | Obj _ => true | _ => false end.
(** The elements of an array, for [find], [some] and [forEach]. *)
Definition elements (v : Val) : res (list Val) := match v with Arr l => Ok l | _ => Throw type_error end.
(** [Number(v)]; a value node holds a text, a boolean or nothing. *)
Definition Number (v : Val) : Num :=
  match v with
  | Str s => Number_text s
  | Bool b => of_Z (if b then 1 else 0)
  | Null => Finite 0
  | _ => NaN
  end.
(** [v.kind === kind] and [v.name.value] *)
Definition has_kind (kind : string) (v : Val) : res bool :=
  k ← get v "kind"; Ok (match k with Str s => bool_decide (s = kind) | _ => false end).
Definition name_value (v : Val) : res Val := n ← get v "name"; get n "value".
Definition is_text (v : Val) (s : string) : bool := match v with Str t => bool_decide (t = s) | _ => false end.
(** [list.includes(v)] *)
Definition includes (l : list string) (v : Val) : bool := match v with Str t => bool_decide (t ∈ l) | _ => false end.

(** [find], [filter] and [some] with a body that can throw. *)
Fixpoint findR {A} (p : A → res bool) (l : list A) : res (option A) :=
  match l with [] => Ok None | x :: l => b ← p x; if b : bool then Ok (Some x) else findR p l end.
Fixpoint filterR {A} (p : A → res bool) (l : list A) : res (list A) :=
  match l with
  | [] => Ok []
  | x :: l => b ← p x; r ← filterR p l; Ok (if b : bool then x :: r else r)
  end.

(** ** utils.ts *)

(** [name.match('^_.')]: an underscore and one more character of the line. *)
Definition is_operator (s : string) : bool :=
  match s with
  | String a (String b _) => is_char "_" a && negb (is_char "010" b) && negb (is_char "013" b)
  | _ => false
  end.
(** What [getDepth] counts: fields that are not operators. *)
Definition counted (object : Val) : res Z :=
  k ← has_kind "ObjectField" object;
  if k : bool then
    n ← name_value object;
    match n with Str s => Ok (if is_operator s then 0 else 1) | _ => Throw type_error end
  else Ok 0.
Fixpoint getDepth (object : Val) : res Z :=
  match object with
  | Arr l =>
      (fix go (l : list Val) : res Z :=
         match l with [] => Ok (-1) | x :: l => a ← getDepth x; b ← go l; Ok (Z.max a b) end) l
  | Obj l =>
      c ← counted object;
      m ← (fix go (l : list (string * Val)) : res Z :=
             match l with [] => Ok (-1) | x :: l => a ← getDepth x.2; b ← go l; Ok (Z.max a b) end) l;
      Ok (c + m)
  | _ => Ok 0
  end.

(** The objects inside a value, in the order in which [iterate] leaves them. *)
Fixpoint visited (obj : Val) : list Val :=
  match obj with
  | Arr l =>
      (fix go (l : list Val) : list Val :=
         match l with [] => [] | x :: l => (if is_object x then visited x ++ [x] else []) ++ go l end) l
  | Obj l =>
      (fix go (l : list (string * Val)) : list Val :=
         match l with [] => [] | x :: l => (if is_object x.2 then visited x.2 ++ [x.2] else []) ++ go l end) l
  | _ => []
  end.

Definition is_where (v : Val) : res bool :=
  k ← has_kind "Argument" v; if k : bool then n ← name_value v; Ok (is_text n "where") else Ok false.
Definition filterWhereQuery (object : Val) : res (list Val) := filterR is_where (visited object).

Record Conditions := { models : list string; relations : list string; condition : list string }.
Section NeedCondition.
Context (C : Conditions).

(** The variables of the closures: [whereHeight] and [heightRange]. *)
Definition Found : Type := option Val * Num.

Definition named (kind : string) (names : list string) (v : Val) : res bool :=
  k ← has_kind kind v; if k : bool then n ← name_value v; Ok (includes names n) else Ok false.
(** [extractFieldNeedHeightArgument]: the fields, and the conditions on
    relations. *)
Definition extractFields (object : Val) : res (list Val * list Val) :=
  fields ← filterR (named "Field" (relations C)) (visited object);
  conditions ← filterR (named "ObjectField" (relations C)) (visited object);
  Ok (fields, conditions).
(** [findConditionInObj]: the last one it comes to stays. *)
Definition findConditionInObj (v : Val) (s : Found) : res Found :=
  l ← filterR (named "ObjectField" (condition C)) (visited v);
  Ok (match last l with Some w => Some w | None => s.1 end, s.2).

Definition field_named (names : list string) (v : Val) : res bool := n ← name_value v; Ok (includes names n).
Definition checkCondition (v : Val) (s : Found) : res (bool * Found) :=
  s ← findConditionInObj v s;
  match s.1 with
  | None => Ok (false, s)
  | Some whereHeight =>
      value ← get whereHeight "value";
      fields ← get value "fields";
      fields ← elements fields;
      isEqual ← findR (field_named ["_eq"]) fields;
      match isEqual with
      | Some _ => Ok (true, s)
      | None =>
          upperLimit ← findR (field_named ["_lt"; "_lte"]) fields;
          lowerLimit ← findR (field_named ["_gt"; "_gte"]) fields;
          match lowerLimit, upperLimit with
          | Some lower, Some upper =>
              u ← (x ← get upper "value"; get x "value");
              l ← (x ← get lower "value"; get x "value");
              Ok (true, (s.1, Math_max (Math_abs (sub (Number u) (Number l))) s.2))
          | _, _ => Ok (false, s)
          end
      end
  end.
(** [result.some(...)] *)
Fixpoint someM (f : Val → Found → res (bool * Found)) (l : list Val) (s : Found) : res (bool * Found) :=
  match l with
  | [] => Ok (false, s)
  | x :: l => r ← f x s; if r.1 : bool then Ok r else someM f l r.2
  end.
Definition checkField (field : Val) (s : Found) : res (bool * Found) :=
  arguments ← get field "arguments";
  arguments ← elements arguments;
  w ← findR (field_named ["where"]) arguments;
  match w with Some w => checkCondition w s | None => Ok (false, s) end.
Definition isQueryNeedCondition (object : Val) : res (bool * Num) :=
  self ← named "Field" (models C) object;
  x ← extractFields object;
  let result := (if self : bool then [object] else []) ++ x.1 in
  r ← (if bool_decide (result = []) then Ok (true, (None, Finite 0)) else someM checkField result (None, Finite 0));
  r ← (if bool_decide (x.2 = []) then Ok r else someM checkCondition x.2 r.2);
  Ok (r.1, r.2.2).
End NeedCondition.

(** ** graphiql.service.ts *)
Inductive GraphqlError :=
| InvalidQuery | OnlyQueries | QueryDepth | RootWhereDepth | SubWhereDepth | NeedsHeight | HeightRange.
Inductive HasuraReply := Data (d : string) | Errors (e : string) | Failure (code message : string).
(** A query is refused with an error, or passed on and answered. *)
Inductive Response := Rejected (e : GraphqlError) | Forwarded (r : HasuraReply).

Record GraphiqlConfig := {
  depthLimit : Z; rootWhereDepthLimit : Z; subWhereDepthLimit : Z;
  queryNeedWhere : Conditions; queryHeightRangeLimit : Z; queryWhitelist : list string }.
Definition config (whitelist : list string) : GraphiqlConfig := {|
  depthLimit := 3; rootWhereDepthLimit := 2; subWhereDepthLimit := 1;
  queryNeedWhere := {| models := ["event_attribute"; "view_event_attribute_value_index"];
                       relations := ["event_attributes"; "event_attribute_index"]; condition := ["block_height"] |};
  queryHeightRangeLimit := 10000; queryWhitelist := whitelist |}.

(** [query.replaceAll(c, '')] *)
Fixpoint remove_char (c : ascii) (s : string) : string :=
  match s with
  | EmptyString => EmptyString
  | String d s => if is_char c d then remove_char c s else String d (remove_char c s)
  end.
(** The loop over the characters: whether it ends with an error. *)
Fixpoint too_deep (limit : Z) (query : string) (openBrackets : Z) (isWhere : bool) : bool :=
  match query with
  | EmptyString => false
  | String c query =>
      let isWhere := if is_char "(" c then true else if is_char ")" c then false else isWhere in
      let openBrackets := if is_char "{" c && negb isWhere then openBrackets + 1
                          else if is_char "}" c && negb isWhere then openBrackets - 1 else openBrackets in
      if limit + 2 <? openBrackets then true else too_deep limit query openBrackets isWhere
  end.

Section Graphiql.
Context (cfg : GraphiqlConfig) (parse : string → option Val) (hasura : string → HasuraReply).

Definition is_query (definition : Val) : res bool :=
  operation ← get definition "operation";
  fragment ← has_kind "FragmentDefinition" definition;
  Ok (is_text operation "query" || fragment).

Definition where_argument (sel : Val) : res (option Val) :=
  arguments ← get sel "arguments";
  match arguments with
  | Undefined | Null => Ok None
  | _ => l ← elements arguments; findR (field_named ["where"]) l
  end.
Definition checkRoot (sel : Val) (result : option GraphqlError) : res (option GraphqlError) :=
  w ← where_argument sel;
  match w with
  | Some w => d ← getDepth w; Ok (if rootWhereDepthLimit cfg + 1 <? d then Some RootWhereDepth else result)
  | None => Ok result
  end.
Definition checkSub (sel : Val) (result : option GraphqlError) : res (option GraphqlError) :=
  match result with
  | Some _ => Ok result
  | None =>
      selectionSet ← get sel "selectionSet";
      subWhere ← filterWhereQuery selectionSet;
      depths ← mapR getDepth subWhere;
      Ok (if existsb (λ d, subWhereDepthLimit cfg + 1 <? d) depths then Some SubWhereDepth else None)
  end.
Definition checkHeight (sel : Val) (result : option GraphqlError) : res (option GraphqlError) :=
  match result with
  | Some _ => Ok result
  | None =>
      x ← isQueryNeedCondition (queryNeedWhere cfg) sel;
      Ok (if gt x.2 (of_Z (queryHeightRangeLimit cfg)) then Some HeightRange
          else if x.1 : bool then None else Some NeedsHeight)
  end.
Definition checkSelection (result : option GraphqlError) (sel : Val) : res (option GraphqlError) :=
  result ← checkRoot sel result;
  result ← checkSub sel result;
  checkHeight sel result.
(** [selection.selectionSet?.selections] *)
Definition sub_selections (selection : Val) : res (list Val) :=
  set ← get selection "selectionSet";
  match set with
  | Undefined | Null => Throw type_error
  | _ => l ← get set "selections"; elements l
  end.
Definition checkDocument (graphqlObj : Val) : res (option GraphqlError) :=
  definitions ← get graphqlObj "definitions";
  definitions ← elements definitions;
  match definitions with
  | [] => Throw type_error
  | first :: _ =>
      set ← get first "selectionSet";
      selections ← get set "selections";
      selections ← elements selections;
      forEachM (λ result selection, l ← sub_selections selection; forEachM checkSelection result l) None selections
  end.

Definition handleGraphQLQuery (query : string) : res Response :=
  match parse query with
  | None => Ok (Rejected InvalidQuery)
  | Some graphqlObj =>
      definitions ← get graphqlObj "definitions";
      definitions ← elements definitions;
      kinds ← mapR is_query definitions;
      if existsb negb kinds then Ok (Rejected OnlyQueries) else
      if bool_decide (remove_char "010" (remove_char " " query) ∈ queryWhitelist cfg) then Ok (Forwarded (hasura query)) else
      if too_deep (depthLimit cfg) query 0 false then Ok (Rejected QueryDepth) else
      result ← checkDocument graphqlObj;
      Ok (match result with Some e => Rejected e | None => Forwarded (hasura query) end)
  end.
End Graphiql.

(** ** Which queries are passed on *)

(** [x] is strictly inside [v]. *)
Inductive inside (x : Val) : Val → Prop :=
| inside_arr l : x ∈ l → inside x (Arr l)
| inside_obj k l : (k, x) ∈ l → inside x (Obj l)
| inside_arr_deep y l : y ∈ l → inside x y → inside x (Arr l)
| inside_obj_deep k y l : (k, y) ∈ l → inside x y → inside x (Obj l).

Lemma inside_object x v : inside x v → is_object v = true.
Proof. by destruct 1. Qed.

Lemma visited_inside v : ∀ x, x ∈ visited v ↔ inside x v ∧ is_object x = true.
Proof.
  induction v as [| | | |l IH|l IH] using Val_nested_ind; intros x; try (split; [by intros ?%not_elem_of_nil|intros [H _]; by inversion H]).
  - simpl. set (go := fix go (l : list Val) : list Val := match l with [] => [] | y :: l => _ ++ go l end).
    assert (x ∈ go l ↔ ∃ y, y ∈ l ∧ is_object y = true ∧ (x = y ∨ x ∈ visited y)) as ->.
    { clear IH. induction l as [|y l IHl]; simpl; [split; [by intros ?%not_elem_of_nil|by intros (y & ?%not_elem_of_nil & _)]|].
      rewrite elem_of_app, IHl. destruct (is_object y) eqn:Hy; rewrite ?elem_of_app, ?list_elem_of_singleton; split.
      - intros [[?|?]|(z & ? & ? & ?)]; [exists y; by split_and!; [left|..|right]|exists y; by split_and!; [left|..|left]|exists z; by split_and!; [right|..]].
      - intros (z & [->|Hz]%elem_of_cons & ? & Hx); [left; tauto|right; by exists z].
      - intros [?%not_elem_of_nil|(z & ? & ? & ?)]; [done|exists z; by split_and!; [right|..]].
      - intros (z & [->|Hz]%elem_of_cons & ? & Hx); [congruence|right; by exists z]. }
    rewrite Forall_forall in IH. split.
    + intros (y & Hy & Ho & [->|Hx]); [split; [by constructor|done]|]. apply IH in Hx as [Hx ?]; [|done]. split; [|done].
      by eapply inside_arr_deep.
    + intros [Hin Ho]. inversion Hin as [l' Hx| |y l' Hy Hx|]; subst.
      * exists x. auto.
      * exists y. split; [done|]. split; [by apply inside_object in Hx|]. right. by apply IH.
  - simpl. set (go := fix go (l : list (string * Val)) : list Val := match l with [] => [] | y :: l => _ ++ go l end).
    assert (x ∈ go l ↔ ∃ k y, (k, y) ∈ l ∧ is_object y = true ∧ (x = y ∨ x ∈ visited y)) as ->.
    { clear IH. induction l as [|[k y] l IHl]; simpl; [split; [by intros ?%not_elem_of_nil|by intros (? & y & ?%not_elem_of_nil & _)]|].
      rewrite elem_of_app, IHl. destruct (is_object y) eqn:Hy; rewrite ?elem_of_app, ?list_elem_of_singleton; split.
      - intros [[?|?]|(k' & z & ? & ? & ?)]; [exists k, y; by split_and!; [left|..|right]|exists k, y; by split_and!; [left|..|left]|exists k', z; by split_and!; [right|..]].
      - intros (k' & z & [[= -> ->]|Hz]%elem_of_cons & ? & Hx); [left; tauto|right; by exists k', z].
      - intros [?%not_elem_of_nil|(k' & z & ? & ? & ?)]; [done|exists k', z; by split_and!; [right|..]].
      - intros (k' & z & [[= -> ->]|Hz]%elem_of_cons & ? & Hx); [congruence|right; by exists k', z]. }
    rewrite Forall_forall in IH. split.
    + intros (k & y & Hy & Ho & [->|Hx]); [split; [by eapply inside_obj|done]|]. apply (IH (k, y)) in Hx as [Hx ?]; [|done]. split; [|done].
      by eapply inside_obj_deep.
    + intros [Hin Ho]. inversion Hin as [|k l' Hx| |k y l' Hy Hx]; subst.
      * exists k, x. auto.
      * exists k, y. split; [done|]. split; [by apply inside_object in Hx|]. right. by apply (IH (k, y)).
Qed.

Lemma filterR_elem {A} (p : A → res bool) l l' x : filterR p l = Ok l' → x ∈ l' ↔ x ∈ l ∧ p x = Ok true.
Proof.
  revert l'. induction l as [|y l IH]; intros l'; simpl.
  - intros [= <-]. split; [by intros ?%not_elem_of_nil|by intros [?%not_elem_of_nil _]].
  - intros (b & Hb & (r & Hr & [= <-])%bind_Ok)%bind_Ok. specialize (IH r Hr). destruct b; rewrite ?elem_of_cons, IH; split.
    + intros [->|[? ?]]; tauto.
    + intros [[->|?] ?]; tauto.
    + tauto.
    + intros [[->|?] Hp]; [congruence|tauto].
Qed.

(** The arguments [filterWhereQuery] returns are exactly the objects inside
    the value, at any depth, that are [where] arguments. *)
Theorem filterWhereQuery_complete object l x :
  filterWhereQuery object = Ok l → x ∈ l ↔ inside x object ∧ is_object x = true ∧ is_where x = Ok true.
Proof. intros H. unfold filterWhereQuery in H. rewrite (filterR_elem _ _ _ x H), visited_inside. tauto. Qed.

Section Passed.
Context (cfg : GraphiqlConfig).

(** A table of the query that none of the checks objects to. *)
Record passes (sel : Val) : Prop := {
  root_depth : ∃ w, where_argument sel = Ok w ∧ match w with Some w => ∃ d, getDepth w = Ok d ∧ d <= rootWhereDepthLimit cfg + 1 | None => True end;
  sub_depth : ∃ set wheres, get sel "selectionSet" = Ok set ∧ filterWhereQuery set = Ok wheres ∧
    Forall (λ w, ∃ d, getDepth w = Ok d ∧ d <= subWhereDepthLimit cfg + 1) wheres;
  height_condition : ∃ range, isQueryNeedCondition (queryNeedWhere cfg) sel = Ok (true, range) ∧
    gt range (of_Z (queryHeightRangeLimit cfg)) = false
}.

Lemma checkRoot_None sel r :
  checkRoot cfg sel r = Ok None ↔ r = None ∧ ∃ w, where_argument sel = Ok w ∧
    match w with Some w => ∃ d, getDepth w = Ok d ∧ d <= rootWhereDepthLimit cfg + 1 | None => True end.
Proof using Type.
  unfold checkRoot. split.
  - intros ([w|] & Hw & H)%bind_Ok.
    + apply bind_Ok in H as (d & Hd & H). destruct (Z.ltb_spec (rootWhereDepthLimit cfg + 1) d); [done|].
      injection H as ->. split; [done|]. exists (Some w). split; [done|]. by exists d.
    + injection H as ->. split; [done|]. by exists None.
  - intros (-> & w & -> & Hw). cbn [mbind res_bind]. destruct w as [w|]; [|done]. destruct Hw as (d & -> & Hd). cbn [mbind res_bind].
    by rewrite (proj2 (Z.ltb_ge _ _) Hd).
Qed.

Lemma checkSub_None sel r :
  checkSub cfg sel r = Ok None ↔ r = None ∧ ∃ set wheres, get sel "selectionSet" = Ok set ∧ filterWhereQuery set = Ok wheres ∧
    Forall (λ w, ∃ d, getDepth w = Ok d ∧ d <= subWhereDepthLimit cfg + 1) wheres.
Proof using Type.
  unfold checkSub. destruct r as [e|]; [split; [done|by intros [? _]]|]. split.
  - intros (set & Hset & (wheres & Hw & (ds & Hds & H)%bind_Ok)%bind_Ok)%bind_Ok. split; [done|]. exists set, wheres. split_and!; [done..|].
    destruct (existsb _ ds) eqn:He; [done|]. apply mapR_Ok in Hds. clear -Hds He.
    induction Hds as [|w d ws ds Hd _ IH]; [constructor|]. simpl in He. apply orb_false_iff in He as [H1 H2]. constructor; [|by apply IH].
    exists d. split; [done|]. apply Z.ltb_ge in H1. done.
  - intros (_ & set & wheres & -> & H & Hall). cbn [mbind res_bind]. rewrite H. cbn [mbind res_bind].
    assert (∃ ds, mapR getDepth wheres = Ok ds ∧ existsb (λ d, subWhereDepthLimit cfg + 1 <? d) ds = false) as (ds & -> & He).
    { clear H. induction Hall as [|w ws (d & Hd & Hle) _ (ds & IH & He)]; [by exists []|]. exists (d :: ds). simpl. rewrite Hd, IH. split; [done|].
      simpl. by rewrite (proj2 (Z.ltb_ge _ _) Hle). }
    cbn [mbind res_bind]. by rewrite He.
Qed.

Lemma checkHeight_None sel r :
  checkHeight cfg sel r = Ok None ↔ r = None ∧ ∃ range, isQueryNeedCondition (queryNeedWhere cfg) sel = Ok (true, range) ∧
    gt range (of_Z (queryHeightRangeLimit cfg)) = false.
Proof using Type.
  unfold checkHeight. destruct r as [e|]; [split; [done|by intros [? _]]|]. split.
  - intros ([b range] & Hx & H)%bind_Ok. split; [done|]. cbn [fst snd] in H. destruct (gt range _) eqn:Hgt; [done|].
    destruct b; [|done]. by exists range.
  - intros (_ & range & -> & Hgt). cbn [mbind res_bind fst snd]. by rewrite Hgt.
Qed.

Lemma checkSelection_None r sel : checkSelection cfg r sel = Ok None ↔ r = None ∧ passes sel.
Proof using Type.
  unfold checkSelection. split.
  - intros (r1 & H1 & (r2 & H2 & H3)%bind_Ok)%bind_Ok. apply checkHeight_None in H3 as [-> H3].
    apply checkSub_None in H2 as [-> H2]. apply checkRoot_None in H1 as [-> H1]. done.
  - intros [-> [H1 H2 H3]]. rewrite (proj2 (checkRoot_None sel None)) by done. cbn [mbind res_bind].
    rewrite (proj2 (checkSub_None sel None)) by done. cbn [mbind res_bind]. by apply checkHeight_None.
Qed.

Lemma forEachM_None {A} (f : option GraphqlError → A → res (option GraphqlError)) (P : A → Prop) r l :
  (∀ r x, f r x = Ok None ↔ r = None ∧ P x) → forEachM f r l = Ok None ↔ r = None ∧ Forall P l.
Proof using Type.
  intros Hf. revert r. induction l as [|x l IH]; intros r; simpl.
  - split; [intros [= ->]; by split|by intros [-> _]].
  - rewrite Forall_cons. split.
    + intros (r1 & H1 & H2)%bind_Ok. apply IH in H2 as [-> H2]. apply Hf in H1 as [-> H1]. done.
    + intros (-> & Hx & Hl). rewrite (proj2 (Hf None x)) by done. cbn [mbind res_bind]. by apply IH.
Qed.

(** The tables of a document whose tables all pass: those of its first
    definition. *)
Definition document_passes (doc : Val) : Prop :=
  ∃ definitions first rest set selections l, get doc "definitions" = Ok definitions ∧ elements definitions = Ok (first :: rest) ∧
    get first "selectionSet" = Ok set ∧ get set "selections" = Ok selections ∧ elements selections = Ok l ∧
    Forall (λ selection, ∃ sels, sub_selections selection = Ok sels ∧ Forall passes sels) l.

Lemma checkDocument_None doc : checkDocument cfg doc = Ok None ↔ document_passes doc.
Proof using Type.
  assert (∀ r selection, (l ← sub_selections selection; forEachM (checkSelection cfg) r l) = Ok None ↔
    r = None ∧ ∃ sels, sub_selections selection = Ok sels ∧ Forall passes sels) as Hone.
  { intros r selection. split.
    - intros (sels & Hs & H)%bind_Ok. apply (forEachM_None _ passes) in H as [-> H]; [|apply checkSelection_None]. split; [done|]. by exists sels.
    - intros (-> & sels & -> & H). cbn [mbind res_bind]. apply (forEachM_None _ passes); [apply checkSelection_None|done]. }
  unfold checkDocument, document_passes. split.
  - intros (ds & Hds & (l & Hl & H)%bind_Ok)%bind_Ok. destruct l as [|first rest]; [done|].
    apply bind_Ok in H as (set & Hset & (sels & Hsels & (es & Hes & H)%bind_Ok)%bind_Ok).
    apply (forEachM_None _ _ None es Hone) in H as [_ H]. by exists ds, first, rest, set, sels, es.
  - intros (ds & first & rest & set & sels & es & -> & H1 & H2 & H3 & H4 & H5). cbn [mbind res_bind]. rewrite H1.
    cbn [mbind res_bind]. rewrite H2. cbn [mbind res_bind]. rewrite H3. cbn [mbind res_bind]. rewrite H4. cbn [mbind res_bind].
    by apply (forEachM_None _ _ None es Hone).
Qed.
End Passed.

Section Graphiql.
Context (cfg : GraphiqlConfig) (parse : string → option Val) (hasura : string → HasuraReply).

Lemma all_queries (l : list Val) :
  (∃ kinds, mapR is_query l = Ok kinds ∧ existsb negb kinds = false) ↔ Forall (λ d, is_query d = Ok true) l.
Proof using Type.
  split.
  - intros (kinds & Hk & He). apply mapR_Ok in Hk. clear -Hk He. induction Hk as [|d b l bs Hd _ IH]; [constructor|].
    simpl in He. apply orb_false_iff in He as [Hb He]. destruct b; [|done]. constructor; [done|by apply IH].
  - induction 1 as [|d l Hd _ (kinds & Hk & He)]; [by exists []|]. exists (true :: kinds). simpl. by rewrite Hd, Hk.
Qed.

(** A query that is not on the whitelist is passed on when none of the checks
    objects. *)
Lemma forwarded_iff_passes query doc :
  parse query = Some doc → remove_char "010" (remove_char " " query) ∉ queryWhitelist cfg →
  handleGraphQLQuery cfg parse hasura query = Ok (Forwarded (hasura query)) ↔
    (∃ definitions l, get doc "definitions" = Ok definitions ∧ elements definitions = Ok l ∧ Forall (λ d, is_query d = Ok true) l) ∧
    too_deep (depthLimit cfg) query 0 false = false ∧ document_passes cfg doc.
Proof using Type.
  intros Hp Hw. unfold handleGraphQLQuery. rewrite Hp. split.
  - intros (ds & Hds & (l & Hl & (kinds & Hk & H)%bind_Ok)%bind_Ok)%bind_Ok.
    destruct (existsb negb kinds) eqn:He; [done|]. rewrite bool_decide_eq_false_2 in H by done.
    destruct (too_deep _ _ _ _); [done|]. apply bind_Ok in H as (r & Hr & H). destruct r; [done|].
    split_and!; [|done|by apply checkDocument_None]. exists ds, l. split_and!; [done..|]. apply all_queries. by exists kinds.
  - intros ((ds & l & Hds & Hl & Hq) & Hdeep & Hpass). apply all_queries in Hq as (kinds & Hk & He).
    rewrite Hds. cbn [mbind res_bind]. rewrite Hl. cbn [mbind res_bind]. rewrite Hk. cbn [mbind res_bind].
    rewrite He, bool_decide_eq_false_2, Hdeep, (proj2 (checkDocument_None cfg doc) Hpass) by done. done.
Qed.

(** A query of the whitelist is passed on whatever it holds. *)
Lemma whitelisted_forwarded query doc definitions l :
  parse query = Some doc → remove_char "010" (remove_char " " query) ∈ queryWhitelist cfg →
  get doc "definitions" = Ok definitions → elements definitions = Ok l → Forall (λ d, is_query d = Ok true) l →
  handleGraphQLQuery cfg parse hasura query = Ok (Forwarded (hasura query)).
Proof using Type.
  intros Hp Hw Hd Hl (kinds & Hk & He)%all_queries. unfold handleGraphQLQuery. rewrite Hp, Hd. cbn [mbind res_bind].
  rewrite Hl. cbn [mbind res_bind]. rewrite Hk. cbn [mbind res_bind]. by rewrite He, bool_decide_eq_true_2.
Qed.

Definition document (definitions : list Val) : Val := Obj [("kind", Str "Document"); ("definitions", Arr definitions)].

(** Only the first definition is checked: further operations, one of which
    the request can name as the one to run, and fragments, which the first
    definition can spread, may select anything at any depth. *)
Theorem only_first_definition_checked query first rest :
  parse query = Some (document (first :: rest)) → Forall (λ d, is_query d = Ok true) (first :: rest) →
  too_deep (depthLimit cfg) query 0 false = false → document_passes cfg (document [first]) →
  handleGraphQLQuery cfg parse hasura query = Ok (Forwarded (hasura query)).
Proof using Type.
  intros Hp Hq Hdeep (ds & first' & rest' & set & sels & l & Hds & Hfirst & H1 & H2 & H3 & H4).
  destruct (decide (remove_char "010" (remove_char " " query) ∈ queryWhitelist cfg)) as [Hw|Hw];
    [by eapply whitelisted_forwarded|].
  apply (forwarded_iff_passes query _ Hp Hw). split_and!; [by eexists _, _|done|].
  injection Hds as <-. injection Hfirst as <- <-. by exists (Arr (first :: rest)), first, rest, set, sels, l.
Qed.
End Graphiql.

(** A parenthesis that is not closed, as in a comment, hides all braces after
    it from the count. *)
Lemma no_close_never_deep limit query open :
  ")"%char ∉ String.list_ascii_of_string query → open <= limit + 2 → too_deep limit query open true = false.
Proof.
  revert open. induction query as [|c query IH]; intros open Hc Ho; [done|]. cbn [too_deep].
  cbn [String.list_ascii_of_string] in Hc. apply not_elem_of_cons in Hc as [Hc Hq].
  assert (is_char ")" c = false) as -> by (by apply bool_decide_eq_false_2).
  assert ((if is_char "(" c then true else true) = true) as -> by (by destruct (is_char "(" c)).
  rewrite !andb_false_r. rewrite (proj2 (Z.ltb_ge _ _) Ho). by apply IH.
Qed.

Theorem comment_hides_depth limit query :
  0 <= limit + 2 → ")"%char ∉ String.list_ascii_of_string query → too_deep limit ("#(" +:+ query) 0 false = false.
Proof.
  intros Hl Hq. change ("#(" +:+ query)%string with (String "#" (String "(" query)). cbn [too_deep].
  change (is_char "{" "#") with false. change (is_char "}" "#") with false. change (is_char "(" "(") with true.
  cbn [andb negb]. rewrite !andb_false_r. rewrite (proj2 (Z.ltb_ge (limit + 2) 0)) by lia. by apply no_close_never_deep.
Qed.

(** ** Arguments as the parser builds them *)
#[warnings="-register-all"]
Inductive Arg :=
| AObject (fields : list (string * Arg))
| AList (items : list Arg)
| AVariable (name : string)
| AInt (n : Z)
| AText (s : string).
Section ArgInd.
Context (P : Arg → Prop).
Context (Hobj : ∀ l, Forall (λ x, P x.2) l → P (AObject l)) (Hlist : ∀ l, Forall P l → P (AList l)).
Context (Hvar : ∀ x, P (AVariable x)) (Hint : ∀ n, P (AInt n)) (Htext : ∀ s, P (AText s)).
Fixpoint Arg_nested_ind (a : Arg) : P a :=
  match a with
  | AObject l => Hobj l ((fix go l : Forall (λ x, P x.2) l :=
      match l with [] => Forall_nil_2 _ | x :: l => Forall_cons_2 _ _ _ (Arg_nested_ind x.2) (go l) end) l)
  | AList l => Hlist l ((fix go l : Forall P l :=
      match l with [] => Forall_nil_2 _ | x :: l => Forall_cons_2 _ _ _ (Arg_nested_ind x) (go l) end) l)
  | AVariable x => Hvar x
  | AInt n => Hint n
  | AText s => Htext s
  end.
End ArgInd.

Definition ast_name (s : string) : Val := Obj [("kind", Str "Name"); ("value", Str s)].
Fixpoint ast (a : Arg) : Val :=
  match a with
  | AObject l => Obj [("kind", Str "ObjectValue"); ("fields", Arr ((fix go (l : list (string * Arg)) : list Val :=
      match l with
      | [] => []
      | x :: l => Obj [("kind", Str "ObjectField"); ("name", ast_name x.1); ("value", ast x.2)] :: go l
      end) l))]
  | AList l => Obj [("kind", Str "ListValue"); ("values", Arr ((fix go (l : list Arg) : list Val :=
      match l with [] => [] | x :: l => ast x :: go l end) l))]
  | AVariable x => Obj [("kind", Str "Variable"); ("name", ast_name x)]
  | AInt n => Obj [("kind", Str "IntValue"); ("value", Str (toString n))]
  | AText s => Obj [("kind", Str "StringValue"); ("value", Str s); ("block", Bool false)]
  end.
Definition argument (name : string) (a : Arg) : Val :=
  Obj [("kind", Str "Argument"); ("name", ast_name name); ("value", ast a)].
Definition field (name : string) (args : list (string * Arg)) (sub : list Val) : Val :=
  Obj [("kind", Str "Field"); ("alias", Undefined); ("name", ast_name name);
       ("arguments", Arr ((λ x, argument x.1 x.2) <$> args)); ("directives", Arr []);
       ("selectionSet", match sub with [] => Undefined | _ => Obj [("kind", Str "SelectionSet"); ("selections", Arr sub)] end)].

(** The nesting of columns and relations in a condition; the operators ([_eq],
    [_and]) do not count. *)
Fixpoint nesting (a : Arg) : Z :=
  match a with
  | AObject l => (fix go (l : list (string * Arg)) : Z :=
      match l with [] => 0 | x :: l => Z.max ((if is_operator x.1 then 0 else 1) + nesting x.2) (go l) end) l
  | AList l => (fix go (l : list Arg) : Z := match l with [] => 0 | x :: l => Z.max (nesting x) (go l) end) l
  | _ => 0
  end.

Lemma nesting_nonneg a : 0 <= nesting a.
Proof.
  induction a as [l IH|l IH| | |] using Arg_nested_ind; simpl; try lia.
  - induction IH as [|x l Hx _ IHl]; [lia|]. destruct (is_operator x.1); lia.
  - induction IH as [|x l Hx _ IHl]; lia.
Qed.

Lemma getDepth_node kind k x m :
  kind ≠ "ObjectField" → getDepth x = Ok m → getDepth (Obj [("kind", Str kind); (k, x)]) = Ok (Z.max 0 m).
Proof.
  intros Hk Hx.
  assert (counted (Obj [("kind", Str kind); (k, x)]) = Ok 0) as Hc.
  { unfold counted, has_kind. assert (get (Obj [("kind", Str kind); (k, x)]) "kind" = Ok (Str kind)) as -> by done.
    cbn [mbind res_bind]. by rewrite bool_decide_eq_false_2. }
  cbn -[counted]. rewrite Hc, Hx. cbn. f_equal. lia.
Qed.

Lemma getDepth_ast a : getDepth (ast a) = Ok (nesting a).
Proof.
  induction a as [l IH|l IH| | |] using Arg_nested_ind; try reflexivity.
  - set (values := match ast (AObject l) with Obj [_; (_, Arr v)] => v | _ => [] end).
    change (ast (AObject l)) with (Obj [("kind", Str "ObjectValue"); ("fields", Arr values)]).
    assert (∃ m, getDepth (Arr values) = Ok m ∧ Z.max 0 m = nesting (AObject l)) as (m & Hm & Hn).
    { subst values. induction IH as [|x l Hx _ (m & Hm & Hn)]; [by exists (-1)|]. simpl in Hx, Hm, Hn |- *.
      rewrite Hx. cbn. rewrite Hm. destruct (is_operator x.1); cbn; eexists; (split; [reflexivity|]);
        pose proof (nesting_nonneg x.2); lia. }
    by rewrite (getDepth_node _ _ _ m), Hn.
  - set (values := match ast (AList l) with Obj [_; (_, Arr v)] => v | _ => [] end).
    change (ast (AList l)) with (Obj [("kind", Str "ListValue"); ("values", Arr values)]).
    assert (∃ m, getDepth (Arr values) = Ok m ∧ Z.max 0 m = nesting (AList l)) as (m & Hm & Hn).
    { subst values. induction IH as [|x l Hx _ (m & Hm & Hn)]; [by exists (-1)|]. simpl in Hx, Hm, Hn |- *.
      rewrite Hx. cbn. rewrite Hm. eexists. split; [reflexivity|]. pose proof (nesting_nonneg x). lia. }
    by rewrite (getDepth_node _ _ _ m), Hn.
Qed.

(** The depth of an argument is the number of columns and relations it
    nests, however many operators stand between them. *)
Theorem argument_depth name a : getDepth (argument name a) = Ok (nesting a).
Proof.
  assert (counted (argument name a) = Ok 0) as Hc by reflexivity.
  assert (getDepth (ast_name name) = Ok 0) as Hn by reflexivity.
  unfold argument in *. cbn -[counted ast ast_name nesting]. rewrite Hc, Hn, getDepth_ast. cbn -[nesting]. f_equal.
  pose proof (nesting_nonneg a). lia.
Qed.

(** ** What the walks find in a query

    A query as a tree of fields with arguments; [ast_sel] is the value the
    parser builds for it. *)
#[warnings="-register-all"]
Inductive Sel := Field (name : string) (args : list (string * Arg)) (sub : list Sel).
Section SelInd.
Context (P : Sel → Prop) (Hfield : ∀ name args sub, Forall P sub → P (Field name args sub)).
Fixpoint Sel_nested_ind (s : Sel) : P s :=
  match s with
  | Field name args sub => Hfield name args sub ((fix go l : Forall P l :=
      match l with [] => Forall_nil_2 _ | x :: l => Forall_cons_2 _ _ _ (Sel_nested_ind x) (go l) end) sub)
  end.
End SelInd.
Definition sel_name (s : Sel) : string := let 'Field name _ _ := s in name.
Definition sel_args (s : Sel) : list (string * Arg) := let 'Field _ args _ := s in args.
Definition sel_sub (s : Sel) : list Sel := let 'Field _ _ sub := s in sub.
Fixpoint ast_sel (s : Sel) : Val :=
  match s with Field name args sub => field name args (map ast_sel sub) end.

Lemma filterR_app {A} (p : A → res bool) l1 l2 :
  filterR p (l1 ++ l2) = (a ← filterR p l1; b ← filterR p l2; Ok (a ++ b)).
Proof.
  induction l1 as [|x l1 IH]; simpl; [by destruct (filterR p l2)|].
  destruct (p x) as [b|e]; simpl; [|done]. rewrite IH. destruct (filterR p l1); simpl; [|done].
  destruct (filterR p l2); simpl; [|done]. by destruct b.
Qed.

(** The nodes of a kind whose name is chosen: [is_where] and [named]. *)
Definition picks (kind : string) (f : string → bool) (v : Val) : res bool :=
  k ← has_kind kind v;
  if k : bool then n ← name_value v; Ok (match n with Str s => f s | _ => false end) else Ok false.
Lemma is_where_picks v : is_where v = picks "Argument" (λ s, bool_decide (s = "where")) v.
Proof. done. Qed.
Lemma named_picks kind names v : named kind names v = picks kind (λ s, bool_decide (s ∈ names)) v.
Proof. done. Qed.
Lemma filterR_ext {A} (p q : A → res bool) l : (∀ x, p x = q x) → filterR p l = filterR q l.
Proof. intros H. induction l as [|x l IH]; simpl; [done|]. by rewrite H, IH. Qed.

(** What a walk finds in a value, the value itself included. *)
Definition found (p : Val → res bool) (v : Val) : res (list Val) :=
  if is_object v then filterR p (visited v ++ [v]) else Ok [].

Lemma visited_arr p l : filterR p (visited (Arr l)) = @concat Val <$> mapR (found p) l.
Proof.
  induction l as [|x l IH]; [done|].
  assert (visited (Arr (x :: l)) = (if is_object x then visited x ++ [x] else []) ++ visited (Arr l)) as -> by done.
  rewrite filterR_app, IH. cbn [mapR]. generalize (mapR (found p) l). intros r. unfold found.
  destruct (is_object x); [destruct (filterR p (visited x ++ [x]))|]; by destruct r.
Qed.

Lemma visited_obj p l : filterR p (visited (Obj l)) = @concat Val <$> mapR (λ x, found p x.2) l.
Proof.
  induction l as [|x l IH]; [done|].
  assert (visited (Obj (x :: l)) = (if is_object x.2 then visited x.2 ++ [x.2] else []) ++ visited (Obj l)) as -> by done.
  rewrite filterR_app, IH. cbn [mapR]. generalize (mapR (λ x, found p x.2) l). intros r. unfold found.
  destruct (is_object x.2); [destruct (filterR p (visited x.2 ++ [x.2]))|]; by destruct r.
Qed.

Lemma found_arr p l : p (Arr l) = Ok false → found p (Arr l) = @concat Val <$> mapR (found p) l.
Proof.
  intros Hp. unfold found at 1. cbn [is_object]. rewrite filterR_app, visited_arr. cbn [filterR]. rewrite Hp.
  destruct (mapR (found p) l); [|done]. cbn. by rewrite app_nil_r.
Qed.

Lemma found_obj p l b :
  p (Obj l) = Ok b →
  found p (Obj l) = (r ← mapR (λ x, found p x.2) l; Ok (concat r ++ if b : bool then [Obj l] else [])).
Proof.
  intros Hp. unfold found at 1. cbn [is_object]. rewrite filterR_app, visited_obj. cbn [filterR]. rewrite Hp.
  by destruct (mapR (λ x, found p x.2) l).
Qed.

(** An object whose members are walked one by one. *)
Lemma found_members p l b rs :
  p (Obj l) = Ok b → Forall2 (λ (x : string * Val) r, found p x.2 = Ok r) l rs →
  found p (Obj l) = Ok (concat rs ++ if b : bool then [Obj l] else []).
Proof. intros Hp Hl. rewrite (found_obj p l b Hp). apply mapR_Ok in Hl. by rewrite Hl. Qed.
Lemma found_str p s : found p (Str s) = Ok [].
Proof. done. Qed.

(** The children of a list of nodes that are found independently. *)
Lemma found_map {A} p (g : A → Val) (h : A → list Val) (l : list A) :
  p (Arr (map g l)) = Ok false → Forall (λ x, found p (g x) = Ok (h x)) l →
  found p (Arr (map g l)) = Ok (concat (map h l)).
Proof.
  intros Hp Hl. rewrite found_arr by done. assert (mapR (found p) (map g l) = Ok (map h l)) as ->; [|done].
  clear Hp. induction Hl as [|x l Hx _ IH]; [done|]. cbn [map mapR]. by rewrite Hx, IH.
Qed.

Section Found.
Context (kind : string) (f : string → bool).
Abbreviation p := (picks kind f).

Lemma picks_arr l : p (Arr l) = Ok false.
Proof. done. Qed.
Lemma picks_obj k n rest :
  p (Obj (("kind", Str k) :: ("name", ast_name n) :: rest)) = Ok (bool_decide (k = kind) && f n).
Proof.
  unfold picks, has_kind. assert (∀ l, get (Obj (("kind", Str k) :: l)) "kind" = Ok (Str k)) as -> by done.
  cbn [mbind res_bind]. by destruct (bool_decide (k = kind)).
Qed.
Lemma picks_other k l : k ≠ kind → p (Obj (("kind", Str k) :: l)) = Ok false.
Proof.
  intros Hk. unfold picks, has_kind. assert (get (Obj (("kind", Str k) :: l)) "kind" = Ok (Str k)) as -> by done.
  cbn [mbind res_bind]. by rewrite bool_decide_eq_false_2.
Qed.

Lemma found_leaf k l :
  k ≠ kind → Forall (λ x : string * Val, is_object x.2 = false) l → found p (Obj (("kind", Str k) :: l)) = Ok [].
Proof.
  intros Hk Hl. rewrite (found_obj _ _ false) by by apply picks_other. cbn [mapR].
  assert (mapR (λ x : string * Val, found p x.2) l = Ok (map (λ _, []) l)) as ->.
  { induction Hl as [|x l Hx _ IH]; [done|]. cbn [mapR map]. rewrite IH. unfold found. by rewrite Hx. }
  cbn. rewrite app_nil_r. f_equal. clear. by induction l.
Qed.
End Found.

(** The columns and relations of a condition whose name is chosen, inner ones
    first. *)
Fixpoint columns (f : string → bool) (a : Arg) : list (string * Arg) :=
  match a with
  | AObject l => concat (map (λ x, columns f x.2 ++ if f x.1 then [x] else []) l)
  | AList l => concat (map (columns f) l)
  | _ => []
  end.
Definition object_field (x : string * Arg) : Val :=
  Obj [("kind", Str "ObjectField"); ("name", ast_name x.1); ("value", ast x.2)].

Lemma ast_AObject l : ast (AObject l) = Obj [("kind", Str "ObjectValue"); ("fields", Arr (map object_field l))].
Proof. reflexivity. Qed.
Lemma ast_AList l : ast (AList l) = Obj [("kind", Str "ListValue"); ("values", Arr (map ast l))].
Proof. reflexivity. Qed.

Definition node_kinds : list string := ["Name"; "ObjectValue"; "ListValue"; "Variable"; "IntValue"; "StringValue"].

Lemma found_name kind f n : kind ≠ "Name" → found (picks kind f) (ast_name n) = Ok [].
Proof. intros Hk. apply found_leaf; [congruence|by repeat constructor]. Qed.

Local Ltac members :=
  repeat (first [apply Forall2_nil_2 | apply Forall2_cons_2]); cbn [snd];
  try reflexivity; try (by apply found_name).
(** The object fields in an argument. *)
Lemma found_columns f a : found (picks "ObjectField" f) (ast a) = Ok (map object_field (columns f a)).
Proof.
  induction a as [l IH|l IH| | |] using Arg_nested_ind.
  - rewrite ast_AObject.
    rewrite (found_members _ _ false [[]; concat (map (λ x, map object_field (columns f x.2) ++ if f x.1 then [object_field x] else []) l)]).
    + cbn [concat app]. rewrite !app_nil_r. f_equal. cbn [columns].
      clear. induction l as [|x l IHl]; [done|]. cbn [map concat]. rewrite !map_app, IHl. by destruct (f x.1).
    + by apply picks_other.
    + members. apply found_map; [done|]. eapply Forall_impl; [exact IH|].
      intros x Hx. unfold object_field at 1.
      rewrite (found_members _ _ (f x.1) [[]; []; map object_field (columns f x.2)]).
      * cbn [concat app]. by rewrite app_nil_r.
      * by rewrite picks_obj.
      * members. exact Hx.
  - rewrite ast_AList.
    rewrite (found_members _ _ false [[]; concat (map (λ x, map object_field (columns f x)) l)]).
    + cbn [concat app]. rewrite !app_nil_r. f_equal. cbn [columns].
      clear. induction l as [|x l IHl]; [done|]. cbn [map concat]. by rewrite map_app, IHl.
    + by apply picks_other.
    + members. by apply found_map.
  - cbn [ast columns map]. rewrite (found_members _ _ false [[]; []]); [done|by apply picks_other|members].
  - by apply found_leaf; [|repeat constructor].
  - by apply found_leaf; [|repeat constructor].
Qed.

(** An argument holds no field and no argument. *)
Lemma found_none kind f a : kind ∈ ["Field"; "Argument"] → found (picks kind f) (ast a) = Ok [].
Proof.
  intros Hk. assert (∀ k, k ∈ "ObjectField" :: node_kinds → k ≠ kind) as Hne.
  { intros k H ->. unfold node_kinds in H. rewrite !elem_of_cons, elem_of_nil in H. rewrite !elem_of_cons, elem_of_nil in Hk.
    destruct Hk as [->|[->|[]]]; repeat (destruct H as [H|H]; [discriminate H|]); done. }
  assert (kind ≠ "Name") as Hn by (intros ->; apply (Hne "Name"); [apply (bool_decide_unpack _); by vm_compute|done]).
  assert (∀ k, bool_decide (k ∈ "ObjectField" :: node_kinds) = true → ∀ l, picks kind f (Obj (("kind", Str k) :: l)) = Ok false) as Hp.
  { intros k Hin l. apply picks_other, Hne. by apply bool_decide_eq_true in Hin. }
  induction a as [l IH|l IH| | |] using Arg_nested_ind.
  - rewrite ast_AObject. rewrite (found_members _ _ false [[]; concat (map (λ _, []) l)]); [|by apply Hp|].
    + f_equal. clear. by induction l.
    + members. apply found_map; [done|]. eapply Forall_impl; [exact IH|].
      intros x Hx. unfold object_field. rewrite (found_members _ _ false [[]; []; []]); [done|by apply Hp|members]. exact Hx.
  - rewrite ast_AList. rewrite (found_members _ _ false [[]; concat (map (λ _, []) l)]); [|by apply Hp|].
    + f_equal. clear. by induction l.
    + members. by apply found_map.
  - cbn [ast]. rewrite (found_members _ _ false [[]; []]); [done|by apply Hp|members].
  - apply found_leaf; [|by repeat constructor]. apply Hne. apply (bool_decide_unpack _). by vm_compute.
  - apply found_leaf; [|by repeat constructor]. apply Hne. apply (bool_decide_unpack _). by vm_compute.
Qed.

(** *** In a selection *)
Lemma found_argument kind f n a r :
  kind ≠ "Name" → found (picks kind f) (ast a) = Ok r →
  found (picks kind f) (argument n a) =
    Ok (r ++ if bool_decide ("Argument" = kind) && f n then [argument n a] else []).
Proof.
  intros Hk Ha. unfold argument at 1.
  rewrite (found_members _ _ (bool_decide ("Argument" = kind) && f n) [[]; []; r]).
  - cbn [concat app]. by rewrite app_nil_r.
  - by rewrite picks_obj.
  - members. exact Ha.
Qed.

(** What a walk finds in a field, when it finds [ha x] in each argument and
    [hs s] in each field below. *)
Lemma found_field kind f name args sub (ha : string * Arg → list Val) (hs : Sel → list Val) :
  kind ≠ "Name" → kind ≠ "SelectionSet" →
  (∀ x, x ∈ args → found (picks kind f) (argument x.1 x.2) = Ok (ha x)) →
  (∀ s, s ∈ sub → found (picks kind f) (ast_sel s) = Ok (hs s)) →
  found (picks kind f) (ast_sel (Field name args sub)) =
    Ok ((concat (map ha args) ++ concat (map hs sub)) ++
        if bool_decide ("Field" = kind) && f name then [ast_sel (Field name args sub)] else []) ∧
  filterR (picks kind f) (visited (ast_sel (Field name args sub))) =
    Ok (concat (map ha args) ++ concat (map hs sub)) ∧
  filterR (picks kind f) (visited (match map ast_sel sub with [] => Undefined | _ => Obj [("kind", Str "SelectionSet"); ("selections", Arr (map ast_sel sub))] end))
    = Ok (concat (map hs sub)).
Proof.
  intros Hk Hset Ha Hs.
  assert (found (picks kind f) (Arr ((λ x, argument x.1 x.2) <$> args)) = Ok (concat (map ha args))) as Hargs.
  { apply (found_map _ (λ x : string * Arg, argument x.1 x.2)); [done|]. by apply Forall_forall. }
  assert (found (picks kind f) (Arr (map ast_sel sub)) = Ok (concat (map hs sub))) as Hsub.
  { apply found_map; [done|]. by apply Forall_forall. }
  set (set := match map ast_sel sub with [] => Undefined | _ => Obj [("kind", Str "SelectionSet"); ("selections", Arr (map ast_sel sub))] end).
  assert (filterR (picks kind f) (visited set) = Ok (concat (map hs sub)) ∧ found (picks kind f) set = Ok (concat (map hs sub))) as [Hvis Hfound].
  { unfold set. destruct sub as [|s sub]; [done|]. cbn [map]. cbn [map] in Hsub. split.
    - rewrite visited_obj. cbn [mapR snd]. rewrite Hsub, found_str. cbn. by rewrite app_nil_r.
    - rewrite (found_members _ _ false [[]; concat (map hs (s :: sub))]).
      + cbn [concat app]. by rewrite !app_nil_r.
      + by apply picks_other.
      + members. exact Hsub. }
  assert (Forall2 (λ (x : string * Val) r, found (picks kind f) x.2 = Ok r)
    [("kind", Str "Field"); ("alias", Undefined); ("name", ast_name name);
     ("arguments", Arr ((λ x, argument x.1 x.2) <$> args)); ("directives", Arr []); ("selectionSet", set)]
    [[]; []; []; concat (map ha args); []; concat (map hs sub)]) as Hall.
  { members; done. }
  change (ast_sel (Field name args sub)) with (Obj [("kind", Str "Field"); ("alias", Undefined); ("name", ast_name name);
     ("arguments", Arr ((λ x, argument x.1 x.2) <$> args)); ("directives", Arr []); ("selectionSet", set)]).
  split; [|split; [|done]].
  - erewrite (found_members _ _ (bool_decide ("Field" = kind) && f name)); [|clear|exact Hall].
    + cbn [concat app]. by rewrite app_nil_r.
    + unfold picks, has_kind. match goal with |- context [get ?o "kind"] => change (get o "kind") with (Ok (Str "Field") : res Val) end.
      cbn [mbind res_bind]. by destruct (bool_decide ("Field" = kind)).
  - rewrite visited_obj. apply mapR_Ok in Hall. rewrite Hall. cbn. by rewrite app_nil_r.
Qed.

(** *** Fields, arguments and conditions below a field *)

(** The fields below a field, inner ones first, and the arguments of a field
    and of those below it. *)
Fixpoint subfields (s : Sel) : list Sel :=
  match s with Field _ _ sub => concat (map (λ t, subfields t ++ [t]) sub) end.
Fixpoint args_in (s : Sel) : list (string * Arg) :=
  match s with Field _ args sub => args ++ concat (map args_in sub) end.

Lemma concat_nils {A B} (l : list A) : concat (map (λ _, [] : list B) l) = [].
Proof. by induction l. Qed.
Lemma concat_filter {A B} (P : B → Prop) `{!∀ x, Decision (P x)} (h : A → list B) l :
  concat (map (λ x, filter P (h x)) l) = filter P (concat (map h l)).
Proof. induction l as [|x l IH]; [done|]. cbn [map concat]. by rewrite filter_app, IH. Qed.
Lemma concat_maps {A B D} (g : B → D) (h : A → list B) l : concat (map (λ x, map g (h x)) l) = map g (concat (map h l)).
Proof. induction l as [|x l IH]; [done|]. cbn [map concat]. by rewrite map_app, IH. Qed.
Lemma elem_of_concat_map {A B} (h : A → list B) l x : x ∈ concat (map h l) ↔ ∃ y, y ∈ l ∧ x ∈ h y.
Proof.
  induction l as [|y l IH]; cbn [map concat].
  - split; [by intros ?%not_elem_of_nil|by intros (? & ?%not_elem_of_nil & _)].
  - rewrite elem_of_app, IH. split.
    + intros [?|(z & ? & ?)]; [exists y; split; [left|done]|exists z; split; [by right|done]].
    + intros (z & [->|?]%elem_of_cons & ?); [by left|right; eauto].
Qed.

Definition fields_named (f : string → bool) (l : list Sel) : list Sel := filter (λ t, f (sel_name t) = true) l.
Lemma walk_fields f s :
  found (picks "Field" f) (ast_sel s) = Ok (map ast_sel (fields_named f (subfields s ++ [s]))) ∧
  filterR (picks "Field" f) (visited (ast_sel s)) = Ok (map ast_sel (fields_named f (subfields s))).
Proof.
  induction s as [name args sub IH] using Sel_nested_ind. rewrite Forall_forall in IH.
  destruct (found_field "Field" f name args sub (λ _, []) (λ t, map ast_sel (fields_named f (subfields t ++ [t]))))
    as (H1 & H2 & _); [done|done| |intros t Ht; by apply IH|].
  { intros x _. rewrite (found_argument _ _ _ _ []); [done|done|]. apply found_none. left. }
  rewrite concat_nils, concat_maps in H1, H2. unfold fields_named in H1, H2 |- *. rewrite concat_filter in H1, H2.
  split; [|exact H2]. rewrite H1. cbn [app]. f_equal. change (bool_decide ("Field" = "Field")) with true.
  rewrite filter_app, map_app, filter_cons, filter_nil. cbn [andb sel_name]. by destruct (f name).
Qed.

Definition args_named (f : string → bool) (l : list (string * Arg)) : list (string * Arg) := filter (λ x, f x.1 = true) l.
Abbreviation ast_arg := (λ x : string * Arg, argument x.1 x.2).
Lemma walk_args f s :
  found (picks "Argument" f) (ast_sel s) = Ok (map ast_arg (args_named f (args_in s))) ∧
  (set ← get (ast_sel s) "selectionSet"; filterR (picks "Argument" f) (visited set))
    = Ok (map ast_arg (args_named f (concat (map args_in (sel_sub s))))).
Proof.
  induction s as [name args sub IH] using Sel_nested_ind. rewrite Forall_forall in IH.
  destruct (found_field "Argument" f name args sub (λ x, map ast_arg (args_named f [x]))
    (λ t, map ast_arg (args_named f (args_in t)))) as (H1 & _ & H3); [done|done| |intros t Ht; by apply IH|].
  { intros x _. rewrite (found_argument _ _ _ _ []); [|done|apply found_none; right; left].
    change (bool_decide ("Argument" = "Argument")) with true. unfold args_named. rewrite filter_cons, filter_nil.
    cbn [andb app]. by destruct (f x.1). }
  assert (concat (map (λ x, map ast_arg (args_named f [x])) args) = map ast_arg (args_named f args)) as Hargs.
  { clear. induction args as [|x args IH]; [done|]. cbn [map concat]. rewrite IH. unfold args_named.
    rewrite !filter_cons, filter_nil. by destruct (decide (f x.1 = true)). }
  assert (concat (map (λ t, map ast_arg (args_named f (args_in t))) sub)
    = map ast_arg (args_named f (concat (map args_in sub)))) as Hsub.
  { unfold args_named. by rewrite concat_maps, concat_filter. }
  rewrite Hsub in H1, H3. rewrite Hargs in H1. split; [|exact H3]. rewrite H1.
  change (bool_decide ("Field" = "Argument")) with false. cbn [andb args_in]. unfold args_named.
  by rewrite app_nil_r, filter_app, map_app.
Qed.

Lemma walk_columns f s :
  found (picks "ObjectField" f) (ast_sel s) = Ok (map object_field (concat (map (λ x, columns f x.2) (args_in s)))) ∧
  filterR (picks "ObjectField" f) (visited (ast_sel s)) = Ok (map object_field (concat (map (λ x, columns f x.2) (args_in s)))).
Proof.
  induction s as [name args sub IH] using Sel_nested_ind. rewrite Forall_forall in IH.
  destruct (found_field "ObjectField" f name args sub (λ x, map object_field (columns f x.2))
    (λ t, map object_field (concat (map (λ x, columns f x.2) (args_in t))))) as (H1 & H2 & _);
    [done|done| |intros t Ht; by apply IH|].
  { intros x _. rewrite (found_argument _ _ _ _ (map object_field (columns f x.2))); [|done|apply found_columns].
    change (bool_decide ("Argument" = "ObjectField")) with false. cbn [andb]. by rewrite app_nil_r. }
  assert (concat (map (λ x, map object_field (columns f x.2)) args) ++
    concat (map (λ t, map object_field (concat (map (λ x, columns f x.2) (args_in t)))) sub)
    = map object_field (concat (map (λ x, columns f x.2) (args_in (Field name args sub))))) as Heq.
  { rewrite !concat_maps. cbn [args_in]. rewrite map_app, concat_app, map_app. f_equal. f_equal. clear.
    induction sub as [|t sub IH]; [done|]. cbn [map concat]. by rewrite map_app, concat_app, IH. }
  rewrite Heq in H1, H2. split; [|exact H2]. rewrite H1. change (bool_decide ("Field" = "ObjectField")) with false.
  cbn [andb]. by rewrite app_nil_r.
Qed.

(** Every argument of a field below is an argument in its selection. *)
Lemma args_below s x : x ∈ concat (map args_in (sel_sub s)) ↔ ∃ t, t ∈ subfields s ∧ x ∈ sel_args t.
Proof.
  assert (∀ s, x ∈ args_in s ↔ ∃ t, t ∈ subfields s ++ [s] ∧ x ∈ sel_args t) as Hin.
  { clear s. intros s. induction s as [name args sub IH] using Sel_nested_ind. rewrite Forall_forall in IH.
    cbn [args_in subfields]. rewrite elem_of_app, elem_of_concat_map. split.
    - intros [Hx|(t & Ht & Hx)]; [|apply (IH t Ht) in Hx as (u & Hu & Hx)].
      + exists (Field name args sub). rewrite elem_of_app, list_elem_of_singleton. auto.
      + exists u. rewrite elem_of_app, elem_of_concat_map. eauto.
    - intros (u & [(t & Ht & Hu)%elem_of_concat_map| ->%list_elem_of_singleton]%elem_of_app & Hx); [right|by left].
      exists t. split; [done|]. apply (IH t Ht). eauto. }
  destruct s as [name args sub]. cbn [sel_sub subfields]. rewrite elem_of_concat_map. split.
  - intros (t & Ht & (u & Hu & Hx)%Hin). exists u. rewrite elem_of_concat_map. eauto.
  - intros (u & (t & Ht & Hu)%elem_of_concat_map & Hx). exists t. split; [done|]. apply Hin. eauto.
Qed.

(** ** Conditions on the height *)

Definition first_named (names : list string) (l : list (string * Arg)) : option Arg :=
  snd <$> find (λ x, bool_decide (x.1 ∈ names)) l.
(** The condition of a table. *)
Definition where_of (s : Sel) : option Arg := first_named ["where"] (sel_args s).

Lemma findR_map {A} (p : Val → res bool) (q : A → bool) (g : A → Val) l :
  (∀ x, p (g x) = Ok (q x)) → findR p (map g l) = Ok (g <$> find q l).
Proof. intros H. induction l as [|x l IH]; [done|]. cbn [map findR find]. rewrite H. cbn. by destruct (q x). Qed.
Lemma find_fields names l :
  findR (field_named names) (map object_field l) = Ok (object_field <$> find (λ x, bool_decide (x.1 ∈ names)) l).
Proof. by apply findR_map. Qed.
Lemma find_args names l :
  findR (field_named names) (map ast_arg l) = Ok (ast_arg <$> find (λ x, bool_decide (x.1 ∈ names)) l).
Proof. by apply findR_map. Qed.

Section Conditions.
Context (C : Conditions).

(** The table goes through none of the relations that need a condition: no
    field below it and no column of a condition has the name of one. *)
Definition no_relations (s : Sel) : Prop :=
  Forall (λ t, sel_name t ∉ relations C) (subfields s) ∧
  Forall (λ x, columns (λ n, bool_decide (n ∈ relations C)) x.2 = []) (args_in s).

(** The condition on the height: the last one in the argument, inner ones
    first. *)
Definition condition_of (a : Arg) : option Arg := snd <$> last (columns (λ n, bool_decide (n ∈ condition C)) a).
Definition bound_text (a : Arg) : Val :=
  match a with AInt n => Str (toString n) | AText s => Str s | _ => Undefined end.
(** The answer for an argument. *)
Definition judge (a : Arg) : res (bool * Num) :=
  match condition_of a with
  | None => Ok (false, Finite 0)
  | Some (AObject fields) =>
      match first_named ["_eq"] fields, first_named ["_lt"; "_lte"] fields, first_named ["_gt"; "_gte"] fields with
      | Some _, _, _ => Ok (true, Finite 0)
      | None, Some upper, Some lower =>
          Ok (true, Math_max (Math_abs (sub (Number (bound_text upper)) (Number (bound_text lower)))) (Finite 0))
      | None, _, _ => Ok (false, Finite 0)
      end
  | Some _ => Throw type_error
  end.

Lemma checkCondition_argument n a :
  (λ r : bool * Found, (r.1, r.2.2)) <$> checkCondition C (argument n a) (None, Finite 0) = judge a.
Proof using Type.
  assert (filterR (named "ObjectField" (condition C)) (visited (argument n a))
    = Ok (map object_field (columns (λ n, bool_decide (n ∈ condition C)) a))) as Hw.
  { rewrite (filterR_ext _ (picks "ObjectField" (λ n, bool_decide (n ∈ condition C)))) by apply named_picks.
    unfold argument. rewrite visited_obj. cbn [mapR snd]. rewrite found_str, found_name, found_columns by done.
    cbn. by rewrite app_nil_r. }
  unfold checkCondition, findConditionInObj. rewrite Hw. cbn [mbind res_bind fst snd]. unfold judge, condition_of.
  assert (∀ l, last (map object_field l) = object_field <$> last l) as -> by (intros l; apply (fmap_last object_field)).
  destruct (last (columns _ a)) as [[k v]|]; [|done]. cbn [fmap option_fmap option_map snd].
  assert (get (object_field (k, v)) "value" = Ok (ast v)) as -> by done. cbn [mbind res_bind].
  destruct v as [fields|items|y|m|s]; [|done..]. rewrite ast_AObject.
  assert (get (Obj [("kind", Str "ObjectValue"); ("fields", Arr (map object_field fields))]) "fields"
    = Ok (Arr (map object_field fields))) as -> by done.
  cbn [mbind res_bind elements]. rewrite !find_fields. cbn [mbind res_bind]. unfold first_named.
  destruct (find (λ x, bool_decide (x.1 ∈ ["_eq"])) fields) as [e|]; [done|]. cbn [fmap option_fmap option_map].
  destruct (find (λ x, bool_decide (x.1 ∈ ["_lt"; "_lte"])) fields) as [[ku up]|]; cbn [fmap option_fmap option_map snd];
    destruct (find (λ x, bool_decide (x.1 ∈ ["_gt"; "_gte"])) fields) as [[kl lo]|]; cbn [fmap option_fmap option_map snd];
    try done.
  assert (∀ k x, get (object_field (k, x)) "value" = Ok (ast x)) as Hv by done. rewrite !Hv. cbn [mbind res_bind].
  assert (∀ x, get (ast x) "value" = Ok (bound_text x)) as Hb by by intros []. by rewrite !Hb.
Qed.

Lemma isQueryNeedCondition_table s :
  no_relations s →
  isQueryNeedCondition C (ast_sel s) =
    if bool_decide (sel_name s ∈ models C) then
      match where_of s with Some a => judge a | None => Ok (false, Finite 0) end
    else Ok (true, Finite 0).
Proof using Type.
  intros [Hfields Hcols]. unfold isQueryNeedCondition, extractFields.
  assert (named "Field" (models C) (ast_sel s) = Ok (bool_decide (sel_name s ∈ models C))) as -> by by destruct s.
  rewrite (filterR_ext (named "Field" (relations C)) (picks "Field" (λ n, bool_decide (n ∈ relations C)))) by apply named_picks.
  rewrite (proj2 (walk_fields _ _)).
  rewrite (filterR_ext (named "ObjectField" (relations C)) (picks "ObjectField" (λ n, bool_decide (n ∈ relations C)))) by apply named_picks.
  rewrite (proj2 (walk_columns _ _)).
  assert (fields_named (λ n, bool_decide (n ∈ relations C)) (subfields s) = []) as ->.
  { apply filter_none. intros t Ht H%bool_decide_eq_true. rewrite Forall_forall in Hfields. by apply (Hfields t). }
  assert (concat (map (λ x, columns (λ n, bool_decide (n ∈ relations C)) x.2) (args_in s)) = []) as ->.
  { induction Hcols as [|x l Hx _ IH]; [done|]. cbn [map concat]. by rewrite Hx, IH. }
  cbn [map mbind res_bind fst snd]. rewrite app_nil_r. destruct (bool_decide (sel_name s ∈ models C)); [|done].
  rewrite (bool_decide_eq_false_2 ([ast_sel s] = [])) by done. cbn [someM]. unfold checkField.
  assert (get (ast_sel s) "arguments" = Ok (Arr (map ast_arg (sel_args s)))) as -> by by destruct s.
  cbn [mbind res_bind elements]. rewrite find_args. cbn [mbind res_bind]. unfold where_of, first_named.
  destruct (find _ (sel_args s)) as [[k a]|]; cbn [fmap option_fmap option_map snd fst]; [|done].
  pose proof (checkCondition_argument k a) as Hj.
  destruct (checkCondition C (argument k a) (None, Finite 0)) as [[b [w range]]|e]; [|by rewrite <-Hj].
  cbn in Hj. rewrite <-Hj. cbn. by destruct b.
Qed.
End Conditions.

Section Height.
Context (whitelist : list string).
Abbreviation C := (queryNeedWhere (config whitelist)).
Abbreviation limit := (queryHeightRangeLimit (config whitelist)).

(** Two literals span at most [limit] blocks; any other pair of bounds is not
    compared. *)
Definition within (lower upper : Arg) : Prop :=
  match lower, upper with AInt l, AInt u => Z.abs (u - l) <= limit | _, _ => True end.
(** An exact height, or a range with both ends. *)
Definition height_given (a : Arg) : Prop :=
  ∃ fields, condition_of C a = Some (AObject fields) ∧
    (is_Some (first_named ["_eq"] fields) ∨
     ∃ lower upper, first_named ["_gt"; "_gte"] fields = Some lower ∧
       first_named ["_lt"; "_lte"] fields = Some upper ∧ within lower upper).
(** The bounds are not texts, and heights below 2^53. *)
Definition plain_bounds (a : Arg) : Prop :=
  ∀ fields x, condition_of C a = Some (AObject fields) → x ∈ fields →
    match x.2 with AInt n => 0 <= n <= 2 ^ 53 | AText _ => False | _ => True end.

Definition compared (a : Arg) : Prop := match a with AInt _ | AText _ => True | _ => False end.
Lemma upper_undefined a n :
  ¬ compared a → gt (Math_max (Math_abs (sub (Number (bound_text a)) n)) (Finite 0)) (of_Z limit) = false.
Proof using Type. destruct a; try (intros H; by destruct H); intros _; by destruct n. Qed.
Lemma lower_undefined a n :
  ¬ compared a → gt (Math_max (Math_abs (sub n (Number (bound_text a)))) (Finite 0)) (of_Z limit) = false.
Proof using Type. destruct a; try (intros H; by destruct H); intros _; by destruct n. Qed.

Lemma within_gt lower upper :
  match lower with AInt n => 0 <= n <= 2 ^ 53 | AText _ => False | _ => True end →
  match upper with AInt n => 0 <= n <= 2 ^ 53 | AText _ => False | _ => True end →
  gt (Math_max (Math_abs (sub (Number (bound_text upper)) (Number (bound_text lower)))) (Finite 0)) (of_Z limit) = false
  ↔ within lower upper.
Proof using Type.
  intros Hl Hu. destruct lower as [| | |l|]; [..|done].
  1-3: by split; [|intros _; by apply lower_undefined; intros []].
  destruct upper as [| | |u|]; [..|done].
  1-3: by split; [|intros _; by apply upper_undefined; intros []].
  cbn [bound_text Number]. rewrite !Number_toString by done.
  rewrite range_of_integers by (done || by vm_compute). unfold within. apply Z.ltb_ge.
Qed.

Lemma first_named_in names l a : first_named names l = Some a → ∃ n, (n, a) ∈ l ∧ n ∈ names.
Proof using Type.
  intros ([n b] & [Hin Hn]%find_Some & ->)%fmap_Some. apply bool_decide_eq_true in Hn. by exists n.
Qed.

Lemma checkHeight_spec s :
  no_relations C s → (∀ a, where_of s = Some a → plain_bounds a) →
  checkHeight (config whitelist) (ast_sel s) None = Ok None ↔
    (sel_name s ∈ models C → ∃ a, where_of s = Some a ∧ height_given a).
Proof using Type.
  intros Hrel Hplain. rewrite checkHeight_None, (isQueryNeedCondition_table _ _ Hrel). case_bool_decide as Hm; cycle 1.
  { split; [done|]. intros _. split; [done|]. by exists (Finite 0). }
  assert (((None : option GraphqlError) = None ∧ ∃ range, match where_of s with Some a => judge C a | None => Ok (false, Finite 0) end = Ok (true, range) ∧
    gt range (of_Z limit) = false) ↔ ∃ a, where_of s = Some a ∧ height_given a) as ->; [|tauto].
  destruct (where_of s) as [a|]; [|split; [by intros (_ & ? & ? & _)|by intros (? & ? & _)]].
  specialize (Hplain a eq_refl). unfold height_given, judge, plain_bounds in *.
  assert (∀ P : list (string * Arg) → Prop,
    (∃ a0, Some a = Some a0 ∧ ∃ fields, condition_of C a0 = Some (AObject fields) ∧ P fields) ↔
    ∃ fields, condition_of C a = Some (AObject fields) ∧ P fields) as ->.
  { intros P. split; [by intros (? & [= <-] & ?)|intros ?; by exists a]. }
  destruct (condition_of C a) as [[fields| | | |]|]; cycle 1.
  1-5: split; [by intros (_ & ? & ? & _)|by intros (? & ? & _)].
  specialize (Hplain fields).
  destruct (first_named ["_eq"] fields) as [e|] eqn:He.
  { split; [|intros _; split; [done|by exists (Finite 0)]]. intros _. exists fields. split; [done|]. left. by rewrite He. }
  destruct (first_named ["_lt"; "_lte"] fields) as [up|] eqn:Hup; cycle 1.
  { split; [by intros (_ & ? & ? & _)|]. intros (? & [= <-] & [[? ?]|(? & ? & _ & ? & _)]); congruence. }
  destruct (first_named ["_gt"; "_gte"] fields) as [lo|] eqn:Hlo; cycle 1.
  { split; [by intros (_ & ? & ? & _)|]. intros (? & [= <-] & [[? ?]|(? & ? & ? & _ & _)]); congruence. }
  assert (gt (Math_max (Math_abs (sub (Number (bound_text up)) (Number (bound_text lo)))) (Finite 0)) (of_Z limit) = false
    ↔ within lo up) as Hgt.
  { apply within_gt.
    - destruct (first_named_in _ _ _ Hlo) as (n & Hin & _). exact (Hplain _ eq_refl Hin).
    - destruct (first_named_in _ _ _ Hup) as (n & Hin & _). exact (Hplain _ eq_refl Hin). }
  split.
  - intros (_ & range & [= <-] & H). exists fields. split; [done|]. right. exists lo, up. by rewrite <-Hgt.
  - intros (? & [= <-] & [[? ?]|(l & u & Hl & Hu & Hw)]); [congruence|]. split; [done|]. eexists. split; [done|].
    apply Hgt. congruence.
Qed.

(** C25: a table of attributes whose query goes through no relation that needs
    a condition passes the check of the height exactly when its where argument
    has a condition on the height (the last one in it counts) with an exact
    height ([_eq]) or with both ends of a range, and a range between two literals spans at
    most 10000 blocks.  Bounds that are variables are not compared. *)
Theorem height_condition_checked s :
  sel_name s ∈ models C → no_relations C s → (∀ a, where_of s = Some a → plain_bounds a) →
  checkHeight (config whitelist) (ast_sel s) None = Ok None ↔ ∃ a, where_of s = Some a ∧ height_given a.
Proof using Type. intros Hm Hrel Hplain. rewrite checkHeight_spec by done. tauto. Qed.

(** A table of attributes with a range of heights. *)
Definition attributes (lower upper : Arg) : Sel :=
  Field "event_attribute" [("where", AObject [("block_height", AObject [("_gte", lower); ("_lte", upper)])])] [Field "value" [] []].

(** A range between two variables is never limited: the width is NaN. *)
Theorem variable_range_unlimited x y :
  checkHeight (config whitelist) (ast_sel (attributes (AVariable x) (AVariable y))) None = Ok None.
Proof using Type. reflexivity. Qed.

(** A height that is a variable itself, not an object, stops the request with
    a TypeError. *)
Theorem variable_height_throws x :
  checkHeight (config whitelist) (field "event_attribute" [("where", AObject [("block_height", AVariable x)])] []) None = Throw type_error.
Proof using Type. reflexivity. Qed.

(** The message says the range needs to be less than 10000, but a range of
    exactly 10000 blocks passes. *)
Example exact_limit_passes :
  checkHeight (config whitelist) (ast_sel (attributes (AInt 100) (AInt 10100))) None = Ok None.
Proof using Type. vm_compute. reflexivity. Qed.

(** One relation with an exact height is enough for all: here the second one
    has no condition. *)
Example one_condition_suffices n :
  checkHeight (config whitelist) (field "transaction" []
    [field "event_attributes" [("where", AObject [("block_height", AObject [("_eq", AInt n)])])] [field "value" [] []];
     field "event_attributes" [] [field "value" [] []]]) None = Ok None ∧
  checkHeight (config whitelist) (field "transaction" [] [field "event_attributes" [] [field "value" [] []]]) None = Ok (Some NeedsHeight).
Proof using Type. by split. Qed.
End Height.

(** ** A whole query

    The text of a query, the value the parser builds for it, and what decides
    whether it is passed on. *)
Definition texts (l : list string) : string := foldr String.append "" l.
Definition quote : string := String "034"%char "".
Fixpoint print_arg (a : Arg) : string :=
  match a with
  | AObject l => "{" +:+ texts (map (λ x : string * Arg, x.1 +:+ ": " +:+ print_arg x.2 +:+ ", ") l) +:+ "}"
  | AList l => "[" +:+ texts (map (λ x, print_arg x +:+ ", ") l) +:+ "]"
  | AVariable x => "$" +:+ x
  | AInt n => toString n
  | AText s => quote +:+ s +:+ quote
  end.
Definition print_args (args : list (string * Arg)) : string :=
  texts (map (λ x : string * Arg, x.1 +:+ ": " +:+ print_arg x.2 +:+ ", ") args).
Fixpoint print_sel (s : Sel) : string :=
  match s with
  | Field name args sub =>
      " " +:+ name +:+
      ((match args with [] => "" | _ => "(" +:+ print_args args +:+ ")" end) +:+
       (match sub with [] => "" | _ => "{" +:+ texts (map print_sel sub) +:+ "}" end))
  end.
Definition print_query (q : list Sel) : string := "query Q {" +:+ texts (map print_sel q) +:+ "}".
Definition query_doc (q : list Sel) : Val :=
  document [Obj [("kind", Str "OperationDefinition"); ("operation", Str "query"); ("name", ast_name "Q");
                 ("selectionSet", Obj [("kind", Str "SelectionSet"); ("selections", Arr (map ast_sel q))])]].

(** How many selection sets are nested. *)
Definition maximum (l : list Z) : Z := foldr Z.max 0 l.
Fixpoint levels (s : Sel) : Z :=
  match s with Field _ _ [] => 0 | Field _ _ sub => 1 + maximum (map levels sub) end.

(** Names without brackets, and arguments without parentheses. *)
Definition avoids (bad s : string) : bool :=
  forallb (λ c, negb (bool_decide (c ∈ String.list_ascii_of_string bad))) (String.list_ascii_of_string s).
Fixpoint clean (s : Sel) : bool :=
  match s with
  | Field name args sub => avoids "(){}" name && avoids "()" (print_args args) && forallb clean sub
  end.

Section Scan.
Context (limit : Z).
Abbreviation deep := (too_deep limit).

Lemma avoids_cons bad c s : avoids bad (String c s) = true → (c ∉ String.list_ascii_of_string bad) ∧ avoids bad s = true.
Proof using Type. unfold avoids. simpl. intros [H1 H2]%andb_true_iff. split; [|done]. intros H. by rewrite bool_decide_eq_true_2 in H1. Qed.

Lemma not_char bad c d : c ∉ String.list_ascii_of_string bad → d ∈ String.list_ascii_of_string bad → is_char d c = false.
Proof using Type. intros Hc Hd. apply bool_decide_eq_false_2. by intros ->. Qed.

Lemma scan_plain t rest o :
  avoids "(){}" t = true → o <= limit + 2 → deep (t +:+ rest) o false = deep rest o false.
Proof using Type.
  intros Ht Ho. induction t as [|c t IH]; [done|]. apply avoids_cons in Ht as [Hc Ht]. rewrite string_app_cons. cbn [too_deep].
  rewrite !(not_char _ _ _ Hc) by (apply (bool_decide_unpack _); by vm_compute).
  cbn [andb]. rewrite (proj2 (Z.ltb_ge _ _) Ho). by apply IH.
Qed.

Lemma scan_inside t rest o :
  avoids "()" t = true → o <= limit + 2 → deep (t +:+ rest) o true = deep rest o true.
Proof using Type.
  intros Ht Ho. induction t as [|c t IH]; [done|]. apply avoids_cons in Ht as [Hc Ht]. rewrite string_app_cons. cbn [too_deep].
  rewrite (not_char _ _ "("%char Hc), (not_char _ _ ")"%char Hc) by (apply (bool_decide_unpack _); by vm_compute).
  cbn [negb]. rewrite !andb_false_r. rewrite (proj2 (Z.ltb_ge _ _) Ho). by apply IH.
Qed.

Lemma scan_args t rest o :
  avoids "()" t = true → o <= limit + 2 → deep (("(" +:+ t +:+ ")") +:+ rest) o false = deep rest o false.
Proof using Type.
  intros Ht Ho. rewrite string_app_assoc. change (deep (String "(" ((t +:+ ")") +:+ rest)) o false = deep rest o false).
  rewrite string_app_assoc. cbn [too_deep]. change (is_char "(" "(") with true. cbn [andb negb]. rewrite !andb_false_r.
  rewrite (proj2 (Z.ltb_ge _ _) Ho), scan_inside by done. change (")" +:+ rest)%string with (String ")" rest).
  cbn [too_deep]. change (is_char "(" ")") with false. change (is_char ")" ")") with true.
  change (is_char "{" ")") with false. change (is_char "}" ")") with false. cbn [andb].
  by rewrite (proj2 (Z.ltb_ge _ _) Ho).
Qed.

Lemma maximum_nonneg l : 0 <= maximum l.
Proof using Type. induction l as [|x l IH]; simpl; lia. Qed.
Lemma levels_nonneg s : 0 <= levels s.
Proof using Type. destruct s as [? ? [|t sub]]; cbn [levels]; [lia|]. pose proof (maximum_nonneg (map levels (t :: sub))). lia. Qed.

(** A block of fields. *)
Lemma scan_block sub rest o :
  Forall (λ s, ∀ rest o, o <= limit + 2 →
    deep (print_sel s +:+ rest) o false = (limit + 2 <? o + levels s) || deep rest o false) sub →
  o <= limit + 2 →
  deep (texts (map print_sel sub) +:+ rest) o false = (limit + 2 <? o + maximum (map levels sub)) || deep rest o false.
Proof using Type.
  intros Hsub Ho. induction Hsub as [|s sub Hs _ IH]; cbn [map texts foldr maximum].
  - rewrite Z.add_0_r, (proj2 (Z.ltb_ge _ _) Ho). done.
  - fold (texts (map print_sel sub)). fold (maximum (map levels sub)). rewrite string_app_assoc, Hs, IH by done.
    pose proof (levels_nonneg s). pose proof (maximum_nonneg (map levels sub)).
    destruct (Z.ltb_spec (limit + 2) (o + levels s)), (Z.ltb_spec (limit + 2) (o + maximum (map levels sub))),
      (Z.ltb_spec (limit + 2) (o + Z.max (levels s) (maximum (map levels sub)))); (done || lia).
Qed.

(** Braces around a block. *)
Lemma scan_braces t m rest o :
  0 <= m → (o + 1 <= limit + 2 → ∀ rest, deep (t +:+ rest) (o + 1) false = (limit + 2 <? o + 1 + m) || deep rest (o + 1) false) →
  o <= limit + 2 →
  deep (("{" +:+ t +:+ "}") +:+ rest) o false = (limit + 2 <? o + (1 + m)) || deep rest o false.
Proof using Type.
  intros Hm Ht Ho. rewrite string_app_assoc. change (deep (String "{" ((t +:+ "}") +:+ rest)) o false = (limit + 2 <? o + (1 + m)) || deep rest o false).
  rewrite string_app_assoc. cbn [too_deep]. change (is_char "(" "{") with false. change (is_char ")" "{") with false.
  change (is_char "{" "{") with true. cbn [andb negb]. replace (o + (1 + m)) with (o + 1 + m) by lia.
  destruct (Z.ltb_spec (limit + 2) (o + 1)) as [Hlt|Hle].
  { symmetry. apply orb_true_iff. left. apply Z.ltb_lt. lia. }
  rewrite (Ht Hle). f_equal. change ("}" +:+ rest)%string with (String "}" rest). cbn [too_deep].
  change (is_char "(" "}") with false. change (is_char ")" "}") with false.
  change (is_char "{" "}") with false. change (is_char "}" "}") with true. cbn [andb negb].
  replace (o + 1 - 1) with o by lia. by rewrite (proj2 (Z.ltb_ge _ _) Ho).
Qed.

Lemma scan_sel s rest o :
  clean s = true → o <= limit + 2 →
  deep (print_sel s +:+ rest) o false = (limit + 2 <? o + levels s) || deep rest o false.
Proof using Type.
  revert rest o. induction s as [name args sub IH] using Sel_nested_ind. intros rest o Hc Ho.
  cbn [clean] in Hc. apply andb_true_iff in Hc as [[Hn Ha]%andb_true_iff Hsub].
  cbn [print_sel]. rewrite !string_app_assoc. rewrite (scan_plain " "), (scan_plain name) by done.
  assert (deep ((match args with [] => "" | _ => "(" +:+ print_args args +:+ ")" end) +:+
      ((match sub with [] => "" | _ => "{" +:+ texts (map print_sel sub) +:+ "}" end) +:+ rest)) o false
    = deep ((match sub with [] => "" | _ => "{" +:+ texts (map print_sel sub) +:+ "}" end) +:+ rest) o false) as ->.
  { destruct args; [done|]. by apply scan_args. }
  destruct sub as [|s sub].
  { cbn [levels]. rewrite Z.add_0_r, (proj2 (Z.ltb_ge _ _) Ho). done. }
  apply (scan_braces (texts (map print_sel (s :: sub))) (maximum (map levels (s :: sub)))); [apply maximum_nonneg| |done].
  intros Ho' rest'. apply scan_block; [|done]. rewrite Forall_forall in IH |- *. intros t Ht r o' Hr.
  apply IH; [done| |done]. rewrite forallb_forall in Hsub. apply Hsub. by apply list_elem_of_In.
Qed.

Lemma scan_query q :
  0 <= limit → forallb clean q = true → deep (print_query q) 0 false = (limit + 2 <? 1 + maximum (map levels q)).
Proof using Type.
  intros Hl Hq. unfold print_query.
  change ("query Q {" +:+ texts (map print_sel q) +:+ "}")%string with ("query Q " +:+ ("{" +:+ texts (map print_sel q) +:+ "}"))%string.
  rewrite scan_plain by (done || lia). rewrite <-(string_app_nil ("{" +:+ texts (map print_sel q) +:+ "}")).
  rewrite (scan_braces _ (maximum (map levels q))); [by rewrite orb_false_r|apply maximum_nonneg| |lia].
  intros Ho rest. apply scan_block; [|done]. apply Forall_forall. intros s Hs r o Hr. apply scan_sel; [|done].
  rewrite forallb_forall in Hq. apply Hq. by apply list_elem_of_In.
Qed.
End Scan.

Section Query.
Context (whitelist : list string) (parse : string → option Val) (hasura : string → HasuraReply).
Abbreviation cfg := (config whitelist).
Abbreviation C := (queryNeedWhere cfg).

(** A table whose own condition nests at most 3 columns and relations and the
    conditions below at most 2, with a condition on the height if it needs one. *)
Record table_ok (s : Sel) : Prop := {
  own_condition a : where_of s = Some a → nesting a <= 3;
  conditions_below t a : t ∈ subfields s → ("where", a) ∈ sel_args t → nesting a <= 2;
  height_of : sel_name s ∈ models C → ∃ a, where_of s = Some a ∧ height_given whitelist a
}.
(** What the theorem assumes of a table. *)
Definition simple_table (s : Sel) : Prop :=
  no_relations C s ∧ ∀ a, where_of s = Some a → plain_bounds whitelist a.

Lemma where_argument_of s : where_argument (ast_sel s) = Ok (argument "where" <$> where_of s).
Proof using Type.
  unfold where_argument. assert (get (ast_sel s) "arguments" = Ok (Arr (map ast_arg (sel_args s)))) as -> by by destruct s.
  cbn [mbind res_bind elements]. rewrite find_args. unfold where_of, first_named.
  destruct (find _ (sel_args s)) as [[k a]|] eqn:Hf; [|done]. cbn.
  apply find_Some in Hf as [_ Hk]. cbn in Hk. apply bool_decide_eq_true, list_elem_of_singleton in Hk. by subst.
Qed.

Lemma wheres_below s :
  (set ← get (ast_sel s) "selectionSet"; filterWhereQuery set) =
    Ok (map ast_arg (args_named (λ n, bool_decide (n = "where")) (concat (map args_in (sel_sub s))))).
Proof using Type.
  rewrite <-(proj2 (walk_args _ _)). destruct (get (ast_sel s) "selectionSet") as [set|]; [|done].
  cbn [mbind res_bind]. apply filterR_ext, is_where_picks.
Qed.

Lemma passes_spec s : simple_table s → passes cfg (ast_sel s) ↔ table_ok s.
Proof using Type.
  intros [Hrel Hplain]. pose proof (checkHeight_spec whitelist s Hrel Hplain) as Hh. rewrite checkHeight_None in Hh.
  pose proof (wheres_below s) as Hw. split.
  - intros [(w & Hroot & Hrd) (set & ws & Hset & Hfilter & Hall) Hheight]. split.
    + intros a Ha. rewrite where_argument_of, Ha in Hroot. injection Hroot as <-. destruct Hrd as (d & Hd & Hle).
      rewrite argument_depth in Hd. injection Hd as <-. exact Hle.
    + intros t a Ht Ha. rewrite Hset in Hw. cbn [mbind res_bind] in Hw. rewrite Hfilter in Hw. injection Hw as ->.
      rewrite Forall_forall in Hall. destruct (Hall (argument "where" a)) as (d & Hd & Hle).
      { apply (list_elem_of_fmap_2 ast_arg _ ("where", a)). apply list_elem_of_filter. split; [done|].
        apply args_below. by exists t. }
      rewrite argument_depth in Hd. injection Hd as <-. exact Hle.
    + apply Hh. by split.
  - intros [H1 H2 H3]. split.
    + eexists. split; [apply where_argument_of|]. destruct (where_of s) as [a|]; [|done]. exists (nesting a).
      split; [apply argument_depth|by apply H1].
    + apply bind_Ok in Hw as (set & Hset & Hfilter). eexists _, _. split; [exact Hset|]. split; [exact Hfilter|].
      apply Forall_forall. intros x ([n a] & -> & [Hn Hin]%list_elem_of_filter)%list_elem_of_fmap. cbn [fst snd] in *.
      apply bool_decide_eq_true in Hn as ->. exists (nesting a). split; [apply argument_depth|].
      apply args_below in Hin as (t & Ht & Ha). by apply (H2 t).
    + by apply Hh.
Qed.

End Query.

(** ** Witnesses *)
Module Demo.
Definition text : string := "query Q { chain { event_attribute(where: {block_height: {_gte: 1, _lte: 10001}}) { value } } }".
(** A table with its condition, in a query of one table of one chain. *)
Definition query (name : string) (sel : Val) : Val :=
  Obj [("kind", Str "OperationDefinition"); ("operation", Str "query"); ("name", ast_name name);
       ("selectionSet", Obj [("kind", Str "SelectionSet"); ("selections", Arr [field "chain" [] [sel]])])].
Definition doc (upper : Z) : Val := document [query "Q" (ast_sel (attributes (AInt 1) (AInt upper)))].
Definition parse (upper : Z) (s : string) : option Val := if bool_decide (s = text) then Some (doc upper) else None.
Definition hasura (s : string) : HasuraReply := Data "{}".
(** A table without any condition. *)
Definition everything : Val := query "All" (field "event_attribute" [] [field "value" [] []]).

Lemma passes_doc : document_passes (config []) (doc 10001).
Proof. by apply checkDocument_None. Qed.
End Demo.

(** A query of one table, and one whose selection sets are nested too deep. *)
Definition demo_query (upper : Z) : list Sel := [Field "chain" [] [attributes (AInt 1) (AInt upper)]].
Definition deep_query : list Sel :=
  [Field "chain" [] [Field "a" [] [Field "b" [] [Field "c" [] [Field "d" [] [Field "e" [] []]]]]]].
Definition demo_parse (q : list Sel) (s : string) : option Val :=
  if bool_decide (s = print_query q) then Some (query_doc q) else None.

Lemma demo_simple upper : 0 <= upper <= 2 ^ 53 → Forall (λ c, Forall (simple_table []) (sel_sub c)) (demo_query upper).
Proof.
  intros Hu. repeat constructor; [by apply (bool_decide_unpack _); vm_compute|].
  intros a [= <-] fields x [= <-] Hx. rewrite !elem_of_cons, elem_of_nil in Hx.
  destruct Hx as [->|[->|[]]]; cbn; lia.
Qed.


Lemma only_first_definition_checked_witness :
  handleGraphQLQuery (config []) (λ _, Some (document [Demo.query "Q" (ast_sel (attributes (AInt 1) (AInt 10001))); Demo.everything]))
    Demo.hasura Demo.text = Ok (Forwarded (Data "{}")) ∧
  ¬ document_passes (config []) (document [Demo.everything]).
Proof.
  split.
  - apply (only_first_definition_checked (config []) (λ _, Some (document [Demo.query "Q" (ast_sel (attributes (AInt 1) (AInt 10001))); Demo.everything]))
      Demo.hasura Demo.text (Demo.query "Q" (ast_sel (attributes (AInt 1) (AInt 10001)))) [Demo.everything]); [done|by repeat constructor|by vm_compute|].
    apply Demo.passes_doc.
  - intros H%checkDocument_None. vm_compute in H. discriminate H.
Defined.

Lemma filterWhereQuery_complete_witness :
  ∃ l, filterWhereQuery (Demo.doc 5) = Ok l ∧ length l = 1%nat ∧ Forall (λ x, inside x (Demo.doc 5)) l.
Proof.
  assert (filterWhereQuery (Demo.doc 5) = Ok (match filterWhereQuery (Demo.doc 5) with Ok l => l | Throw _ => [] end)) as Hl
    by (vm_compute; reflexivity).
  eexists. split; [exact Hl|]. split; [by vm_compute|]. apply Forall_forall. intros x Hx.
  exact (proj1 (proj1 (filterWhereQuery_complete (Demo.doc 5) _ x Hl) Hx)).
Defined.

Lemma height_condition_checked_witness :
  checkHeight (config []) (ast_sel (attributes (AInt 100) (AInt 10100))) None = Ok None ∧
  checkHeight (config []) (ast_sel (attributes (AInt 100) (AInt 10101))) None ≠ Ok None.
Proof.
  assert (∀ upper, 0 <= upper <= 2 ^ 53 →
    ∀ a, where_of (attributes (AInt 100) (AInt upper)) = Some a → plain_bounds [] a) as Hplain.
  { intros upper Hu a [= <-] fields x [= <-] Hx. rewrite !elem_of_cons, elem_of_nil in Hx.
    destruct Hx as [->|[->|[]]]; cbn; lia. }
  split.
  - apply (proj2 (height_condition_checked [] (attributes (AInt 100) (AInt 10100)) ltac:(left)
      ltac:(by apply (bool_decide_unpack _); vm_compute) (Hplain 10100 ltac:(lia)))).
    eexists. split; [reflexivity|]. eexists. split; [reflexivity|]. right.
    eexists _, _. split; [reflexivity|]. split; [reflexivity|]. by vm_compute.
  - intros H. apply (proj1 (height_condition_checked [] (attributes (AInt 100) (AInt 10101)) ltac:(left)
      ltac:(by apply (bool_decide_unpack _); vm_compute) (Hplain 10101 ltac:(lia)))) in H.
    destruct H as (a & [= <-] & fields & [= <-] & [[e [=]]|(l & u & [= <-] & [= <-] & Hw)]).
    by vm_compute in Hw.
Defined.
