(* ===== verification/Gateway.v ===== *)
(** * Requests

    The gateways [services/api-gateways/] (but graphiql), which forward a
    request to the node of its chain; the actions there that put a job into a
    queue, and [services/manager/services-manager.service.ts].  The matching of
    masks by moleculer-web is a parameter. *)
From S2P Require Import Prelude JsNum Checkpoint Json.

(** ** Forwarding *)
Record Network := { chainId : string; moleculerNamespace : string }.

(** The endpoints with their parameters; [chainid] is apart. *)
Inductive Endpoint :=
| cw20ReindexingByChainId (contractAddress : string)
| cw721Reindexing (contractAddresses : list string) (type : string)
| erc20Reindexing (addresses : list string)
| getImplementation (contractAddress : string)
| healthCheck (jobNames : list string)
| createCompositeIndexInAttributePartition (partitionName : string) (needConcurrently : bool)
| reDecodeTx (type : string)
| updateDelegatorValidator (height : Z)
| signatureMapping (addresses : list string)
| insertVerifyByCodeHash (codehash : string)
| getDashboardStatisticsByChainId
| getTopAccountsByChainId
| syncPrevDateStatsByChainId (startDate : string) (endDate : option string)
| createRequestVerify (contract_address : option string) (files : list Z) (creator_tx_hash compiler_version : option string).

(** The action of the gateway. *)
Definition action_name (e : Endpoint) : string :=
  match e with
  | cw20ReindexingByChainId _ => "v1.cw20-admin.cw20Reindexing"
  | cw721Reindexing _ _ => "v1.cw721-admin.cw721Reindexing"
  | erc20Reindexing _ => "v1.erc20-admin.erc20Reindexing"
  | getImplementation _ => "v2.evm-proxy.getImplementation"
  | healthCheck _ => "v2.services-manager.healthCheck"
  | createCompositeIndexInAttributePartition _ _ => "v1.job.composite-index-to-attribute-partition"
  | reDecodeTx _ => "v1.job.redecode-tx"
  | updateDelegatorValidator _ => "v1.job.update-delegator-validator"
  | signatureMapping _ => "v1.job.signature-mapping"
  | insertVerifyByCodeHash _ => "v1.job.insert-verify-by-codehash"
  | getDashboardStatisticsByChainId => "v2.statistics.getDashboardStatisticsByChainId"
  | getTopAccountsByChainId => "v2.statistics.getTopAccountsByChainId"
  | syncPrevDateStatsByChainId _ _ => "v2.statistics.syncPrevDateStatsByChainId"
  | createRequestVerify _ _ _ _ => "v1.verify-contract-evm.create-request"
  end.
(** The action it calls ... *)
Definition target (e : Endpoint) : string :=
  match e with
  | cw20ReindexingByChainId _ => "v1.Cw20ReindexingService.reindexing"
  | cw721Reindexing _ _ => "v1.Cw721ReindexingService.reindexing"
  | erc20Reindexing _ => "v1.Erc20.reindexing"
  | getImplementation _ => "v2.EvmProxyService.evmProxy"
  | healthCheck _ => "v1.ServicesManager.HealthCheck"
  | createCompositeIndexInAttributePartition _ _ => "v1.CreateIndexCompositeAttrPartition.actionCreateJob"
  | reDecodeTx _ => "v1.ReDecodeTx.actionCreateJob"
  | updateDelegatorValidator _ => "v1.CrawlDelegatorsService.updateAllValidator"
  | signatureMapping _ => "v1.SignatureMappingEVM.createJobMapping"
  | insertVerifyByCodeHash _ => "v1.InsertVerifyByCodeHash.createJobInsertVerifyByCodeHash"
  | getDashboardStatisticsByChainId => "v2.api-statistics.getDashboardStatistics"
  | getTopAccountsByChainId => "v2.api-statistics.getTopAccounts"
  | syncPrevDateStatsByChainId _ _ => "v2.api-statistics.syncPrevDateStats"
  | createRequestVerify _ _ _ _ => "v1.VerifyContractEVM.inputRequestVerify"
  end.
(** ... and what it passes on; a parameter is [None] when it is undefined. *)
Definition texts (l : list string) : Json := JArr (JStr <$> l).
Definition params (e : Endpoint) : list (string * option Json) :=
  match e with
  | cw20ReindexingByChainId a | getImplementation a => [("contractAddress", Some (JStr a))]
  | cw721Reindexing l t => [("contractAddresses", Some (texts l)); ("type", Some (JStr t))]
  | erc20Reindexing l | signatureMapping l => [("addresses", Some (texts l))]
  | healthCheck l => [("jobNames", Some (texts l))]
  | createCompositeIndexInAttributePartition n b => [("partitionName", Some (JStr n)); ("needConcurrently", Some (JBool b))]
  | reDecodeTx t => [("type", Some (JStr t))]
  | updateDelegatorValidator h => [("height", Some (JNum h))]
  | insertVerifyByCodeHash c => [("codehash", Some (JStr c))]
  | getDashboardStatisticsByChainId | getTopAccountsByChainId => []
  | syncPrevDateStatsByChainId s e => [("startDate", Some (JStr s)); ("endDate", Some (from_option JStr JNull e))]
  | createRequestVerify a files h v =>
      [("contract_address", JStr <$> a); ("files", Some (JArr (JNum <$> files))); ("creator_tx_hash", JStr <$> h); ("compiler_version", JStr <$> v)]
  end.
Definition is_multipart (e : Endpoint) : bool := match e with createRequestVerify _ _ _ _ => true | _ => false end.

Record BrokerCall := { b_action : string; b_params : list (string * option Json) }.
Definition selectedChain (networks : list Network) (chainid : option string) : option Network :=
  find (λ n, bool_decide (Some (chainId n) = chainid)) networks.
(** [enum: networks.map((network) => network.chainId)] in the schema of the
    parameters; the upload looks for itself. *)
Definition valid_chain (networks : list Network) (chainid : option string) : bool :=
  existsb (λ n, bool_decide (Some (chainId n) = chainid)) networks.
Definition forward (networks : list Network) (e : Endpoint) (chainid : option string) : BrokerCall := {|
  b_action := target e +:+ "@" +:+ from_option moleculerNamespace "undefined" (selectedChain networks chainid);
  b_params := params e |}.
Definition handle (networks : list Network) (e : Endpoint) (chainid : option string) : res BrokerCall :=
  if is_multipart e then
    match selectedChain networks chainid with
    | None => Throw "The 'chainid' field is required and valid."
    | Some _ => Ok (forward networks e chainid)
    end
  else if valid_chain networks chainid then Ok (forward networks e chainid)
  else Throw "Parameters validation error!".

(** The actions of the services with the parameters their schemas require. *)
Definition registered : list (string * list string) :=
  [("v1.Cw20ReindexingService.reindexing", ["contractAddress"]);
   ("v1.Cw721ReindexingService.reindexing", ["contractAddresses"; "type"]);
   ("v1.Erc20.reindexing", ["addresses"]);
   ("v2.EvmProxyService.evmProxy", ["contractAddress"]);
   ("v1.ServicesManager.HealthCheck", ["jobNames"]);
   ("v1.CreateIndexCompositeAttrPartition.actionCreateJob", ["partitionName"; "needConcurrently"]);
   ("v1.ReDecodeTx.actionCreateJob", ["type"]);
   ("v1.CrawlDelegatorsService.updateAllValidator", []);
   ("v1.SignatureMappingEVM.createJobMapping", ["addresses"]);
   ("v1.InsertVerifyByCodeHash.createJobInsertVerifyByCodeHash", ["codehash"]);
   ("v2.api-statistics.getDashboardStatistics", []);
   ("v2.api-statistics.getTopAccounts", []);
   ("v2.api-statistics.syncPrevDateStats", ["startDate"]);
   ("v1.VerifyContractEVM.inputRequestVerify", ["contract_address"; "files"])].

Lemma valid_selected networks c : valid_chain networks c = true ↔ ∃ n, selectedChain networks c = Some n ∧ Some (chainId n) = c.
Proof.
  unfold valid_chain, selectedChain. induction networks as [|n l IH]; cbn [existsb find].
  - split; [done|by intros (? & ? & _)].
  - case_bool_decide as Hn; cbn [orb]; [|exact IH]. split; [|done]. intros _. by exists n.
Qed.

(** A request for a chain of the list goes to the namespace of this chain, any
    other is refused. *)
Theorem forwarded_to_chain networks e c r :
  NoDup (chainId <$> networks) →
  handle networks e c = r →
  match r with
  | Ok call => ∃ n, n ∈ networks ∧ Some (chainId n) = c ∧ (∀ n', n' ∈ networks → Some (chainId n') = c → n' = n) ∧
      b_action call = target e +:+ "@" +:+ moleculerNamespace n ∧ b_params call = params e
  | Throw _ => ∀ n, n ∈ networks → Some (chainId n) ≠ c
  end.
Proof.
  intros Hnd <-. unfold handle, forward. destruct (selectedChain networks c) as [n|] eqn:Hsel.
  - assert (valid_chain networks c = true) as Hval.
    { apply valid_selected. exists n. split; [done|]. apply find_Some in Hsel as [_ Hn]. by apply bool_decide_eq_true in Hn. }
    rewrite Hval. apply find_Some in Hsel as [Hin Hn%bool_decide_eq_true].
    assert (∀ n', n' ∈ networks → Some (chainId n') = c → n' = n) as Huniq.
    { intros n' Hin' Hn'. apply (NoDup_fmap_key chainId networks); [done..|]. congruence. }
    destruct (is_multipart e); exists n; cbn; by split_and!.
  - assert (∀ n, n ∈ networks → Some (chainId n) ≠ c) as Hnone.
    { apply find_None in Hsel. rewrite Forall_forall in Hsel. intros n Hn. specialize (Hsel n Hn). by apply bool_decide_eq_false in Hsel. }
    assert (valid_chain networks c = false) as ->.
    { destruct (valid_chain networks c) eqn:Hv; [|done]. apply valid_selected in Hv as (n & Hv & _). by rewrite Hv in Hsel. }
    by destruct (is_multipart e).
Qed.

(** Every call names an action of a service and passes what its schema requires,
    an upload without an address apart. *)
Theorem calls_accepted e :
  (∀ files h v, e ≠ createRequestVerify None files h v) →
  ∃ required, (target e, required) ∈ registered ∧ Forall (λ k, ∃ v, (k, Some v) ∈ params e) required.
Proof.
  intros Hup. destruct e as [| | | | | | | | | | | | |[a|] files h v]; [..|by destruct (Hup files h v)];
    (eexists; split; [unfold registered, target; repeat (apply list_elem_of_here || apply list_elem_of_further)|]);
    repeat (apply Forall_cons_2; [eexists; cbn [params]; repeat (apply list_elem_of_here || apply list_elem_of_further)|]); apply Forall_nil_2.
Qed.

(** ** The routes *)
Record Route := { path : string; whitelist : option (list string) }.
Definition routes : list Route :=
  [ {| path := "/api"; whitelist := Some ["v2.graphql.*"; "v2.statistics.getDashboardStatisticsByChainId";
         "v2.statistics.getTopAccountsByChainId"; "v2.services-manager.*"; "v2.evm-proxy.*"] |};
    {| path := "/admin"; whitelist := Some ["v2.statistics.syncPrevDateStatsByChainId"; "v1.cw20-admin.*"; "v1.cw721-admin.*";
         "v1.job.composite-index-to-attribute-partition"; "v1.job.redecode-tx"; "v1.job.update-delegator-validator";
         "v1.job.signature-mapping"; "v1.job.insert-verify-by-codehash"; "v1.erc20-admin.*"] |};
    {| path := "/verify-contract"; whitelist := None |} ].
(** The endpoints that change something on a node. *)
Definition is_admin (e : Endpoint) : bool :=
  match e with
  | getImplementation _ | healthCheck _ | getDashboardStatisticsByChainId | getTopAccountsByChainId | createRequestVerify _ _ _ _ => false
  | _ => true
  end.

Section Routes.
Context (matches : string → string → bool).          (* mask, name *)
Context (matches_text : ∀ mask a, String.index 0 "*" mask = None → matches mask a = bool_decide (mask = a)).
Context (matches_all : ∀ p a, matches (p +:+ ".*") a = true → String.prefix (p +:+ ".") a = true).
Definition reachable (route : string) (e : Endpoint) : bool :=
  existsb (λ r, bool_decide (path r = route) &&
    from_option (λ l, existsb (λ mask, matches mask (action_name e)) l) false (whitelist r)) routes.

(** The public route does not reach what is for administrators. *)
Theorem admin_not_public e : is_admin e = true → reachable "/api" e = false.
Proof using matches_text matches_all.
  intros He. unfold reachable. cbn [existsb routes path whitelist from_option].
  rewrite bool_decide_true, (bool_decide_false ("/admin" = "/api")), (bool_decide_false ("/verify-contract" = "/api")) by done.
  cbn [andb orb]. rewrite orb_false_r.
  assert (∀ p, String.prefix (p +:+ ".") (action_name e) = false → matches (p +:+ ".*") (action_name e) = false) as Hstar.
  { intros p Hp. destruct (matches (p +:+ ".*") (action_name e)) eqn:Hm; [|done]. apply matches_all in Hm. by rewrite Hp in Hm. }
  assert (matches "v2.graphql.*" (action_name e) = false) as -> by (apply (Hstar "v2.graphql"); by destruct e).
  assert (matches "v2.services-manager.*" (action_name e) = false) as -> by (apply (Hstar "v2.services-manager"); by destruct e).
  assert (matches "v2.evm-proxy.*" (action_name e) = false) as -> by (apply (Hstar "v2.evm-proxy"); by destruct e).
  rewrite !matches_text by done. by destruct e.
Qed.
End Routes.

(** ** Queues *)
Record JobOption := { jobId : option string; removeOnComplete : bool }.
Record Job := { j_queue : string; j_payload : list (string * Json); j_opts : JobOption }.
Definition has_id (queue id : string) (j : Job) : bool := bool_decide (j_queue j = queue) && bool_decide (jobId (j_opts j) = Some id).
(** BullMQ: the jobs it keeps, and what becomes of them. *)
Class BullMQ := {
  Q : Type;
  kept : Q → list Job;
  add : Job → Q → Q;
  complete : Job → Q → Q;
  remove : string → string → Q → Q                    (* queue, id *)
}.
(** A job whose id is taken is not added; a job that ends is kept unless its
    options say otherwise. *)
Class BullMQLaws (B : BullMQ) : Prop := {
  add_free j q : (∀ id, jobId (j_opts j) = Some id → existsb (has_id (j_queue j) id) (kept q) = false) → kept (add j q) = kept q ++ [j];
  add_taken j q id : jobId (j_opts j) = Some id → existsb (has_id (j_queue j) id) (kept q) = true → kept (add j q) = kept q;
  complete_kept j q : removeOnComplete (j_opts j) = false → kept (complete j q) = kept q;
  remove_spec queue id q : kept (remove queue id q) = filter (λ j, has_id queue id j = false) (kept q)
}.

Definition reDecodeTx_job (type : string) : Job := {|
  j_queue := "job:redecode-tx"; j_payload := [("type", JStr type)];
  j_opts := {| jobId := Some type; removeOnComplete := false |} |}.
Definition compositeIndex_job (partitionName : string) (needConcurrently : bool) : Job := {|
  j_queue := "job:create-index-composite-attr-partition";
  j_payload := [("partitionName", JStr partitionName); ("needConcurrently", JBool needConcurrently)];
  j_opts := {| jobId := Some partitionName; removeOnComplete := true |} |}.
Definition insertVerify_job (codehash : string) : Job := {|
  j_queue := "job:insert-verify-by-codehash"; j_payload := [("codehash", JStr codehash)];
  j_opts := {| jobId := Some codehash; removeOnComplete := true |} |}.

(** The contracts a reindexing looks at: latest versions with the type of their code. *)
Record SmartContract := { sc_id : Z; sc_address : string; sc_latest : bool; sc_code_type : option string }.
Definition reindexCw721_job (type : string) (c : SmartContract) : Job := {|
  j_queue := "reindex:cw721-contract";
  j_payload := [("contractAddress", JStr (sc_address c)); ("smartContractId", JNum (sc_id c)); ("type", JStr type)];
  j_opts := {| jobId := Some (sc_address c); removeOnComplete := false |} |}.
Definition reindexCw20_job (contractAddress : string) (c : SmartContract) : Job := {|
  j_queue := "reindex:cw20-contract"; j_payload := [("contractAddress", JStr contractAddress); ("smartContractId", JNum (sc_id c))];
  j_opts := {| jobId := Some contractAddress; removeOnComplete := false |} |}.

Section Queues.
Context {B : BullMQ}.
Definition actionReDecode (type : string) (q : Q) : Q := add (reDecodeTx_job type) q.
Definition actionCompositeIndex (partitionName : string) (needConcurrently : bool) (q : Q) : Q :=
  add (compositeIndex_job partitionName needConcurrently) q.
Definition actionInsertVerify (codehash : string) (q : Q) : Q := add (insertVerify_job codehash) q.
Definition reindexingCw721 (contractAddresses : list string) (type : string) (contracts : list SmartContract) (q : Q) : Q :=
  foldl (λ q c, if bool_decide (sc_code_type c = Some "CW721") then add (reindexCw721_job type c) q else q) q
    (filter (λ c, sc_latest c = true ∧ sc_address c ∈ contractAddresses) contracts).
Definition reindexingCw20 (contractAddress : string) (contracts : list SmartContract) (q : Q) : Q * res () :=
  match find (λ c, bool_decide (sc_address c = contractAddress)) contracts with
  | None => (q, Throw "NotFoundError")
  | Some c => if bool_decide (sc_code_type c = Some "CW20") then (add (reindexCw20_job contractAddress c) q, Ok tt)
              else (q, Throw "is not CW20 type")
  end.
(** The last page of a history frees the id of the contract. *)
Definition history_done (queue contractAddress : string) (q : Q) : Q := remove queue contractAddress q.
End Queues.

Section QueueFacts.
Context {B : BullMQ} `{!BullMQLaws B}.

Lemma in_queue j q id : jobId (j_opts j) = Some id → existsb (has_id (j_queue j) id) (kept (add j q)) = true.
Proof using BullMQLaws0.
  intros Hid. destruct (existsb (has_id (j_queue j) id) (kept q)) eqn:Hq.
  - by rewrite (add_taken j q id).
  - rewrite add_free by (intros id' Hid'; rewrite Hid in Hid'; by injection Hid' as <-).
    rewrite existsb_app. cbn. unfold has_id at 2. rewrite !bool_decide_true by done. by rewrite orb_true_r.
Qed.

(** The job of a type is kept when it is done: the same type is not decoded
    again by a later request. *)
Theorem second_redecode_ignored type q :
  let q1 := complete (reDecodeTx_job type) (actionReDecode type q) in kept (actionReDecode type q1) = kept q1.
Proof using BullMQLaws0.
  intros q1. unfold actionReDecode at 1. apply (add_taken _ _ type); [done|]. unfold q1. rewrite complete_kept by done.
  exact (in_queue (reDecodeTx_job type) q type eq_refl).
Qed.

(** While the id of a contract is taken, by a reindexing or by its history, no
    request for it changes the jobs of this id, whatever type it has ... *)
Theorem reindex_locked addresses type contracts q a :
  existsb (has_id "reindex:cw721-contract" a) (kept q) = true →
  filter (has_id "reindex:cw721-contract" a) (kept (reindexingCw721 addresses type contracts q)) = filter (has_id "reindex:cw721-contract" a) (kept q).
Proof using BullMQLaws0.
  intros Hq. unfold reindexingCw721. generalize (filter (λ c, sc_latest c = true ∧ sc_address c ∈ addresses) contracts). intros l.
  revert q Hq. induction l as [|c l IH]; intros q Hq; [done|]. cbn [foldl]. case_bool_decide; [|by apply IH].
  assert (filter (has_id "reindex:cw721-contract" a) (kept (add (reindexCw721_job type c) q)) = filter (has_id "reindex:cw721-contract" a) (kept q)
    ∧ existsb (has_id "reindex:cw721-contract" a) (kept (add (reindexCw721_job type c) q)) = true) as [Hf He]; [|by rewrite IH].
  destruct (existsb (has_id "reindex:cw721-contract" (sc_address c)) (kept q)) eqn:Hc.
  - by rewrite (add_taken _ q (sc_address c)).
  - rewrite add_free by (intros id [= <-]; exact Hc). rewrite filter_app, existsb_app, Hq. split; [|done].
    rewrite (filter_none _ [reindexCw721_job type c]); [by rewrite app_nil_r|]. intros j ->%list_elem_of_singleton Hj. unfold has_id in Hj. cbn in Hj.
    destruct (bool_decide_reflect (Some (sc_address c) = Some a)) as [Heq|]; [|by rewrite andb_false_r in Hj].
    injection Heq as Heq. by rewrite Heq, Hq in Hc.
Qed.

(** ... and when the last page of the history is done, the next request is
    taken. *)
Theorem reindex_unlocked type c contracts q :
  filter (λ c', sc_latest c' = true ∧ sc_address c' ∈ [sc_address c]) contracts = [c] → sc_code_type c = Some "CW721" →
  let q1 := history_done "reindex:cw721-contract" (sc_address c) q in
  kept (reindexingCw721 [sc_address c] type contracts q1) = kept q1 ++ [reindexCw721_job type c].
Proof using BullMQLaws0.
  intros Hc Ht q1. unfold reindexingCw721. rewrite Hc. cbn [foldl]. rewrite bool_decide_true by done. apply add_free.
  intros id [= <-]. unfold q1, history_done. rewrite remove_spec. cbn [j_queue reindexCw721_job].
  apply not_true_iff_false. intros (j & Hj & Hid)%existsb_exists. apply list_elem_of_In, list_elem_of_filter in Hj as [Hj _]. by rewrite Hj in Hid.
Qed.
End QueueFacts.

(** ** The health of jobs *)
Definition healthCheckLimit : Z := 100.
(** Whether each job of the list that has a checkpoint is close to the block
    crawler. *)
Definition actionHealthCheck (jobNames : list string) (block_checkpoint : gmap string Z) : res (gmap string bool) :=
  match block_checkpoint !! CRAWL_BLOCK with
  | None => Throw "NotFoundError"
  | Some crawled => Ok ((λ height, bool_decide (crawled - height < healthCheckLimit)) <$> filter (λ x, x.1 ∈ jobNames) block_checkpoint)
  end.

(** The answer says exactly which of the jobs are less than a hundred blocks
    behind; a job that never stored a checkpoint is not mentioned. *)
Theorem health_exact jobNames checkpoints crawled :
  checkpoints !! CRAWL_BLOCK = Some crawled →
  ∃ r, actionHealthCheck jobNames checkpoints = Ok r ∧
    (∀ job height, job ∈ jobNames → checkpoints !! job = Some height → r !! job = Some (bool_decide (crawled - height < 100))) ∧
    (∀ job, job ∉ jobNames ∨ checkpoints !! job = None → r !! job = None).
Proof.
  intros Hc. unfold actionHealthCheck. rewrite Hc. eexists. split; [done|]. split.
  - intros job height Hj Hh. rewrite lookup_fmap. by rewrite (proj2 (map_lookup_filter_Some _ _ job height)).
  - intros job Hj. rewrite lookup_fmap. destruct (filter _ checkpoints !! job) as [h|] eqn:Hf; [|done].
    apply map_lookup_filter_Some in Hf as [Hh Hin]. destruct Hj; [done|congruence].
Qed.

(** ** An example *)
#[local] Instance demo_bullmq : BullMQ := {|
  Q := list Job;
  kept q := q;
  add j q := if from_option (λ id, existsb (has_id (j_queue j) id) q) false (jobId (j_opts j)) then q else q ++ [j];
  complete j q := if removeOnComplete (j_opts j) then filter (λ j', has_id (j_queue j) (default "" (jobId (j_opts j))) j' = false) q else q;
  remove queue id q := filter (λ j, has_id queue id j = false) q
|}.
#[local] Instance demo_bullmq_laws : BullMQLaws demo_bullmq.
Proof.
  split.
  - intros j q Hfree. cbn. destruct (jobId (j_opts j)) as [id|]; [|done]. cbn. by rewrite Hfree.
  - intros j q id Hid Hin. cbn in *. by rewrite Hid; cbn; rewrite Hin.
  - intros j q Hr. cbn. by rewrite Hr.
  - done.
Qed.
Definition demo_contract : SmartContract := {| sc_id := 3; sc_address := "aura1c"; sc_latest := true; sc_code_type := Some "CW721" |}.

Example demo_reindex :
  let request q := reindexingCw721 ["aura1c"; "aura1d"] "all" [demo_contract] q in
  length (request []) = 1%nat ∧ length (request (request [])) = 1%nat ∧
  request (history_done "reindex:cw721-contract" "aura1c" (request [])) = [reindexCw721_job "all" demo_contract].
Proof. repeat split; vm_compute; reflexivity. Qed.
Example demo_redecode :
  length (actionReDecode "/t" (complete (reDecodeTx_job "/t") (actionReDecode "/t" []))) = 1%nat ∧
  length (actionCompositeIndex "p" true (complete (compositeIndex_job "p" true) (actionCompositeIndex "p" true []))) = 1%nat ∧
  complete (reDecodeTx_job "/t") (actionReDecode "/t" []) ≠ [] ∧
  complete (compositeIndex_job "p" true) (actionCompositeIndex "p" true []) = [].
Proof. repeat split; try (vm_compute; reflexivity). done. Qed.

Definition demo_networks : list Network :=
  [ {| chainId := "xstaxy-1"; moleculerNamespace := "namespace-xstaxy" |}; {| chainId := "euphoria-2"; moleculerNamespace := "namespace-euphoria" |} ].
Lemma forwarded_to_chain_witness : ∃ n, n ∈ demo_networks ∧ Some (chainId n) = Some "euphoria-2" ∧
  b_action (forward demo_networks (reDecodeTx "/t") (Some "euphoria-2")) = "v1.ReDecodeTx.actionCreateJob@namespace-euphoria".
Proof.
  assert (NoDup (chainId <$> demo_networks)) as Hnd by (apply (bool_decide_unpack _); vm_compute; exact I).
  assert (handle demo_networks (reDecodeTx "/t") (Some "euphoria-2") = Ok (forward demo_networks (reDecodeTx "/t") (Some "euphoria-2"))) as Hr
    by (vm_compute; reflexivity).
  destruct (forwarded_to_chain demo_networks (reDecodeTx "/t") (Some "euphoria-2") _ Hnd Hr) as (n & Hin & Hn & _).
  exists n. split; [exact Hin|]. split; [exact Hn|]. vm_compute. reflexivity.
Defined.
