(* ===== verification/Statistics.v ===== *)
(** * Statistics

    [services/statistics/]: the statistics of an account and of the chain per
    day, the accounts at the top of the last days, the number of transactions
    and the figures of the dashboard, and the jobs of past days.  The node and
    the quotients of [bignumber.js] are classes. *)
From S2P Require Import Prelude JsNum Numbers Checkpoint Address Accounts Validators.

Definition day : Z := 86400000.
(** [dayjs.utc(date).startOf('day')], in milliseconds. *)
Definition startOf_day (date : Z) : Z := date - date mod day.

(** ** Tables *)
Record Transaction := { t_id : Z; t_height : Z; t_timestamp : Z; t_code : Z; t_gas_used : Z }.
Record EventAttribute := { ea_tx_id : option Z; ea_event_id : Z; ea_composite_key : string; ea_value : string }.
Record AccountStatistics := {
  as_address : string; as_amount_sent : Z; as_amount_received : Z; as_tx_sent : Z; as_gas_used : Z; as_date : Z }.
Record DailyStatistics := { ds_daily_txs : Z; ds_daily_active_addresses : Z; ds_unique_addresses : Z; ds_date : Z }.
(** The row of [statistics] for total_transaction. *)
Record Statistic := { st_value : Z; st_statistic_since : Z }.
(** A record of a top list, and the lists of the cache. *)
Record TopAccount := { ta_address : string; ta_amount : Z; ta_percentage : Num }.
Record TopAccounts := {
  top_amount_sent : list TopAccount; top_amount_received : list TopAccount;
  top_tx_sent : list TopAccount; top_gas_used : list TopAccount }.
Record Dashboard := {
  total_blocks : option Z; community_pool : string; total_transactions : Z; total_validators : Z;
  total_active_validators : Z; total_inactive_validators : Z; bonded : Z; inflation : string; total_aura : string;
  staking_apr : Num }.

Record Db := {
  transaction : list Transaction; event_attribute : list EventAttribute; accounts : Z;
  account_statistics : list AccountStatistics; daily_statistics : list DailyStatistics;
  total_transaction : option Statistic; validator : list Validator; block_checkpoint : gmap string Z;
  queue : list (string * Z);
  top_accounts : option (TopAccounts * TopAccounts * TopAccounts); dashboard_statistics : option Dashboard }.
Definition set_account_statistics l d := {|
  transaction := transaction d; event_attribute := event_attribute d; accounts := accounts d; account_statistics := l;
  daily_statistics := daily_statistics d; total_transaction := total_transaction d; validator := validator d;
  block_checkpoint := block_checkpoint d; queue := queue d; top_accounts := top_accounts d;
  dashboard_statistics := dashboard_statistics d |}.
Definition set_daily_statistics l d := {|
  transaction := transaction d; event_attribute := event_attribute d; accounts := accounts d;
  account_statistics := account_statistics d; daily_statistics := l; total_transaction := total_transaction d;
  validator := validator d; block_checkpoint := block_checkpoint d; queue := queue d; top_accounts := top_accounts d;
  dashboard_statistics := dashboard_statistics d |}.
Definition set_total_transaction s d := {|
  transaction := transaction d; event_attribute := event_attribute d; accounts := accounts d;
  account_statistics := account_statistics d; daily_statistics := daily_statistics d; total_transaction := s;
  validator := validator d; block_checkpoint := block_checkpoint d; queue := queue d; top_accounts := top_accounts d;
  dashboard_statistics := dashboard_statistics d |}.
Definition add_job (job : string) (date : Z) d := {|
  transaction := transaction d; event_attribute := event_attribute d; accounts := accounts d;
  account_statistics := account_statistics d; daily_statistics := daily_statistics d;
  total_transaction := total_transaction d; validator := validator d; block_checkpoint := block_checkpoint d;
  queue := queue d ++ [(job, date)]; top_accounts := top_accounts d; dashboard_statistics := dashboard_statistics d |}.
Definition set_top_accounts t d := {|
  transaction := transaction d; event_attribute := event_attribute d; accounts := accounts d;
  account_statistics := account_statistics d; daily_statistics := daily_statistics d;
  total_transaction := total_transaction d; validator := validator d; block_checkpoint := block_checkpoint d;
  queue := queue d; top_accounts := t; dashboard_statistics := dashboard_statistics d |}.
Definition set_dashboard x d := {|
  transaction := transaction d; event_attribute := event_attribute d; accounts := accounts d;
  account_statistics := account_statistics d; daily_statistics := daily_statistics d;
  total_transaction := total_transaction d; validator := validator d; block_checkpoint := block_checkpoint d;
  queue := queue d; top_accounts := top_accounts d; dashboard_statistics := x |}.

Definition CRAWL_ACCOUNT_STATISTICS := "crawl:account-statistics".
Definition CRAWL_DAILY_STATISTICS := "crawl:daily-statistics".
Definition HANDLE_TOP_ACCOUNTS := "handle:top-accounts".

Definition COIN_SPENT_SPENDER := "coin_spent.spender".
Definition COIN_RECEIVED_RECEIVER := "coin_received.receiver".
Definition COIN_SPENT_AMOUNT := "coin_spent.amount".
Definition COIN_RECEIVED_AMOUNT := "coin_received.amount".
Definition USE_FEEGRANT_GRANTEE := "use_feegrant.grantee".
Definition TX_FEE_PAYER := "tx.fee_payer".

Definition networkDenom : string := "utaura".
Definition numberOfTopRecords : nat := 10.
Definition dayRange : Z * Z * Z := (3, 15, 30).

(** [Number(BigNumber(amount).multipliedBy(100).dividedBy(BigNumber(total)))] *)
Class Quotients := {
  percentage : Z → Z → Num;
  (** inflation, community tax, supply and bonded tokens *)
  apr : string → string → string → Z → Num;
  (** what the sort makes of a list all of whose percentages are NaN, which
      lodash compares inconsistently *)
  unordered : list TopAccount → list TopAccount
}.
Class Lcd := {
  communityPool : res (list (string * string));      (* denom, amount *)
  mint_inflation : res string;
  community_tax : res string;
  supplyOf : res string
}.

Definition type_error : string := "TypeError: Cannot read properties of undefined".

(** The object [accountStats]. *)
Abbreviation Stats := (gmap string AccountStatistics).

Section Jobs.
Context {K : StakingCodec} {C : AddressCodec} {Q : Quotients} {L : Lcd}.

(** ** Statistics of accounts *)

(** The groups of a query with [jsonb_agg], each merged into one object. *)
Definition group_by (key : EventAttribute → Z) (l : list EventAttribute) : list (Z * gmap string string) :=
  (λ k, (k, foldl (λ (m : gmap string string) a, <[ea_composite_key a := ea_value a]> m) ∅ (filter (λ a, key a = k) l)))
    <$> uniq (key <$> l).
Definition in_txs (startTxId endTxId : Z) (keys : list string) (a : EventAttribute) : bool :=
  match ea_tx_id a with
  | Some tx => (startTxId <=? tx) && (tx <? endTxId) && bool_decide (ea_composite_key a ∈ keys)
  | None => false
  end.
Definition newAccountStat (address : string) (date : Z) : AccountStatistics := {|
  as_address := address; as_amount_sent := 0; as_amount_received := 0; as_tx_sent := 0; as_gas_used := 0; as_date := date |}.
(** The first loop: an account for every address. *)
Definition ensure (date : Z) (accountStats : Stats) (address : option string) : res Stats :=
  match address with
  | None => Throw "ValidationError: must have required property 'address'"
  | Some a => Ok (match accountStats !! a with Some _ => accountStats | None => <[a := newAccountStat a date]> accountStats end)
  end.
Definition update_stat (f : AccountStatistics → AccountStatistics) (address : string) (accountStats : Stats) : res Stats :=
  match accountStats !! address with Some s => Ok (<[address := f s]> accountStats) | None => Throw type_error end.
Definition add_sent (n : Z) (s : AccountStatistics) : AccountStatistics := {|
  as_address := as_address s; as_amount_sent := as_amount_sent s + n; as_amount_received := as_amount_received s;
  as_tx_sent := as_tx_sent s; as_gas_used := as_gas_used s; as_date := as_date s |}.
Definition add_received (n : Z) (s : AccountStatistics) : AccountStatistics := {|
  as_address := as_address s; as_amount_sent := as_amount_sent s; as_amount_received := as_amount_received s + n;
  as_tx_sent := as_tx_sent s; as_gas_used := as_gas_used s; as_date := as_date s |}.
Definition add_tx (gas : Z) (s : AccountStatistics) : AccountStatistics := {|
  as_address := as_address s; as_amount_sent := as_amount_sent s; as_amount_received := as_amount_received s;
  as_tx_sent := as_tx_sent s + 1; as_gas_used := as_gas_used s + gas; as_date := as_date s |}.

(** [parseCoins(x)[0]], its amount when it is of the network's denomination. *)
Definition first_coin (x : option string) : res (option Z) :=
  match x with
  | None => Throw type_error
  | Some s =>
      coins ← parseCoins s;
      match coins with
      | [] => Throw type_error
      | (amount, denom) :: _ => if bool_decide (denom = networkDenom) then n ← BigInt amount; Ok (Some n) else Ok None
      end
  end.
Definition spend_receive (accountStats : Stats) (event : gmap string string) : res Stats :=
  match if_text (event !! COIN_SPENT_SPENDER) id with
  | Some addrSpent =>
      amount ← first_coin (event !! COIN_SPENT_AMOUNT);
      match amount with Some n => update_stat (add_sent n) addrSpent accountStats | None => Ok accountStats end
  | None =>
      match if_text (event !! COIN_RECEIVED_RECEIVER) id with
      | Some addrReceived =>
          amount ← first_coin (event !! COIN_RECEIVED_AMOUNT);
          match amount with Some n => update_stat (add_received n) addrReceived accountStats | None => Ok accountStats end
      | None => Ok accountStats
      end
  end.
Definition or_else {A} (x y : option A) : option A := match x with Some _ => x | None => y end.
Definition coin_keys : list string := [COIN_SPENT_SPENDER; COIN_SPENT_AMOUNT; COIN_RECEIVED_AMOUNT; COIN_RECEIVED_RECEIVER].
Definition dailyEvents (startTxId endTxId : Z) (d : Db) : list (gmap string string) :=
  (group_by ea_event_id (filter (λ a, in_txs startTxId endTxId coin_keys a = true) (event_attribute d))).*2.
Definition calculateSpendReceive (startTxId endTxId : Z) (accountStats : Stats) (date : Z) (d : Db) : res Stats :=
  let events := dailyEvents startTxId endTxId d in
  accountStats ← forEachM (λ m event, ensure date m (or_else (event !! COIN_SPENT_SPENDER) (event !! COIN_RECEIVED_RECEIVER))) accountStats events;
  forEachM spend_receive accountStats events.

Definition fee_keys : list string := [TX_FEE_PAYER; USE_FEEGRANT_GRANTEE].
(** Joined with [transaction], grouped by it. *)
Definition feeEvents (startTxId endTxId : Z) (d : Db) : list (Z * gmap string string) :=
  omap (λ x : Z * gmap string string, match find (λ t, t_id t =? x.1) (transaction d) with Some t => Some (t_gas_used t, x.2) | None => None end)
    (group_by (λ a, default 0 (ea_tx_id a)) (filter (λ a, in_txs startTxId endTxId fee_keys a = true) (event_attribute d))).
Definition gas_used_tx_sent (accountStats : Stats) (event : Z * gmap string string) : res Stats :=
  match or_else (if_text (event.2 !! USE_FEEGRANT_GRANTEE) id) (event.2 !! TX_FEE_PAYER) with
  | Some addr => update_stat (add_tx event.1) addr accountStats
  | None => Throw type_error
  end.
Definition calculateGasUsedTxSent (startTxId endTxId : Z) (accountStats : Stats) (date : Z) (d : Db) : res Stats :=
  let events := feeEvents startTxId endTxId d in
  accountStats ← forEachM (λ m event, ensure date m (or_else (event !! USE_FEEGRANT_GRANTEE) (event !! TX_FEE_PAYER))) accountStats events.*2;
  forEachM gas_used_tx_sent accountStats events.

(** The first transaction since a time, and the last one before. *)
Definition startTx (startTime : Z) (d : Db) : option Transaction := find (λ t, startTime <=? t_timestamp t) (transaction d).
Definition endTx (endTime : Z) (d : Db) : option Transaction := find (λ t, t_timestamp t <? endTime) (rev (transaction d)).
Definition tx_id_of (t : option Transaction) : res Z := match t with Some t => Ok (t_id t) | None => Throw type_error end.

Definition insert_account_statistics (l : list AccountStatistics) (d : Db) : res Db :=
  let rows := account_statistics d ++ l in
  if bool_decide (NoDup ((λ s, (as_address s, as_date s)) <$> rows)) then Ok (set_account_statistics rows d)
  else Throw "duplicate key value violates unique constraint".
Definition handleAccountStatistics (date : Z) : io Db () :=
  let endTime := startOf_day date in
  let startTime := endTime - day in
  first ← query (startTx startTime);
  last ← query (endTx endTime);
  startTxId ← lift (tx_id_of first);
  endTxId ← lift (tx_id_of last);
  stats ← query (λ d, m ← calculateSpendReceive startTxId endTxId ∅ startTime d; calculateGasUsedTxSent startTxId endTxId m startTime d);
  accountStats ← lift stats;
  commit (insert_account_statistics (map_to_list accountStats).*2);;
  update (add_job HANDLE_TOP_ACCOUNTS 0).
End Jobs.

Section TopJobs.
Context {K : StakingCodec} {C : AddressCodec} {Q : Quotients} {L : Lcd}.

(** ** Top accounts *)
Definition sum_of (f : AccountStatistics → Z) (l : list AccountStatistics) : Z := foldr (λ s acc, f s + acc) 0 l.
Definition getStatsFromSpecificDaysAgo (daysAgo now endTime : Z) (d : Db) : list AccountStatistics :=
  let startTime := startOf_day (now - daysAgo * day) in
  let rows := filter (λ s, (startTime <=? as_date s) && (as_date s <? endTime) = true) (account_statistics d) in
  (λ a, let l := filter (λ s, as_address s = a) rows in
        {| as_address := a; as_amount_sent := sum_of as_amount_sent l; as_amount_received := sum_of as_amount_received l;
           as_tx_sent := sum_of as_tx_sent l; as_gas_used := sum_of as_gas_used l; as_date := 0 |})
    <$> uniq (as_address <$> rows).

(** lodash [_.orderBy(l, 'percentage', 'desc')], a stable sort. *)
Fixpoint order_insert (x : TopAccount) (l : list TopAccount) : list TopAccount :=
  match l with
  | [] => [x]
  | y :: l => if gt (ta_percentage y) (ta_percentage x) then y :: order_insert x l else x :: y :: l
  end.
Definition is_NaN (x : Num) : bool := match x with NaN => true | _ => false end.
Definition orderBy (l : list TopAccount) : list TopAccount :=
  if forallb (λ x, is_NaN (ta_percentage x)) l then unordered l else foldr order_insert [] l.
Definition topOf (f : AccountStatistics → Z) (dayStat : list AccountStatistics) : list TopAccount :=
  let total := foldl (λ init accStat, init + f accStat) 0 dayStat in
  take numberOfTopRecords (orderBy
    ((λ stat, {| ta_address := as_address stat; ta_amount := f stat; ta_percentage := percentage (f stat) total |}) <$> dayStat)).
Definition calculateTop (dayStat : list AccountStatistics) : TopAccounts := {|
  top_amount_sent := topOf as_amount_sent dayStat; top_amount_received := topOf as_amount_received dayStat;
  top_tx_sent := topOf as_tx_sent dayStat; top_gas_used := topOf as_gas_used dayStat |}.
Definition handleTopAccounts (time : Z) : io Db () :=
  let now := startOf_day time in
  threeDayStat ← query (getStatsFromSpecificDaysAgo dayRange.1.1 time now);
  fifteenDayStat ← query (getStatsFromSpecificDaysAgo dayRange.1.2 time now);
  thirtyDayStat ← query (getStatsFromSpecificDaysAgo dayRange.2 time now);
  update (set_top_accounts (Some (calculateTop threeDayStat, calculateTop fifteenDayStat, calculateTop thirtyDayStat))).

(** ** Statistics of a day *)
Definition handleDailyStatistics (date : Z) : io Db () :=
  let endTime := startOf_day date in
  let startTime := endTime - day in
  first ← query (startTx startTime);
  last ← query (endTx endTime);
  startTxId ← lift (tx_id_of first);
  endTxId ← lift (tx_id_of last);
  dailyTxs ← query (λ d, length (filter (λ t, (startTime <=? t_timestamp t) && (t_timestamp t <? endTime) && (t_code t =? 0) = true) (transaction d)));
  dailyAddresses ← query (λ d, uniq (ea_value <$> filter (λ a, match ea_tx_id a with
                                        | Some tx => (startTxId <=? tx) && (tx <=? endTxId) && String.prefix networkPrefixAddress (ea_value a)
                                        | None => false end = true) (event_attribute d)));
  uniqueAddrs ← query accounts;
  let activeAddrs := uniq (filter (λ a, isValidAccountAddress a networkPrefixAddress 20 = true) dailyAddresses) in
  let dailyStat := {| ds_daily_txs := Z.of_nat dailyTxs; ds_daily_active_addresses := Z.of_nat (length activeAddrs);
                      ds_unique_addresses := uniqueAddrs; ds_date := startTime |} in
  (* an error of the insert is only logged *)
  update (λ d, if bool_decide (startTime ∈ ds_date <$> daily_statistics d) then d
               else set_daily_statistics (daily_statistics d ++ [dailyStat]) d).

(** ** The dashboard *)
Definition txs_until (h : Z) (d : Db) : Z := Z.of_nat (length (filter (λ t, t_height t <= h) (transaction d))).
Definition statisticTotalTransaction : io Db Z :=
  totalTxStatistic ← query total_transaction;
  crawlTxJobInfo ← query (λ d, block_checkpoint d !! (jd_name HANDLE_TRANSACTION));
  match crawlTxJobInfo with
  | None => mret 0
  | Some toHeight =>
      match totalTxStatistic with
      | None =>
          totalTransaction ← query (txs_until toHeight);
          update (set_total_transaction (Some {| st_value := totalTransaction; st_statistic_since := toHeight |}));;
          mret totalTransaction
      | Some s =>
          let fromHeight := st_statistic_since s in
          if toHeight <=? fromHeight then mret (st_value s) else
          n ← query (λ d, Z.of_nat (length (filter (λ t, fromHeight < t_height t ∧ t_height t <= toHeight) (transaction d))));
          let totalTx := st_value s + n in
          update (set_total_transaction (Some {| st_value := totalTx; st_statistic_since := toHeight |}));;
          mret totalTx
      end
  end.

(** Chains whose node has no inflation. *)
Definition without_inflation (chainId : string) : bool := bool_decide (chainId ∈ ["atlantic-2"; "pacific-1"; "evmos_9000-4"]).
Definition getStatistic (chainId : string) : res (list (string * string) * string * option (string * string)) :=
  pool ← communityPool;
  if without_inflation chainId then supply ← supplyOf; Ok (pool, supply, None)
  else i ← mint_inflation; t ← community_tax; supply ← supplyOf; Ok (pool, supply, Some (i, t)).
Definition bondedTokens (l : list Validator) : res Z :=
  forEachM (λ n v, t ← BigInt (vs_tokens (v_staking v)); Ok (n + t)) 0
    (filter (λ v, vs_status (v_staking v) = "BOND_STATUS_BONDED" ∧ vs_jailed (v_staking v) = false) l).
Definition count_status (status : string) (l : list Validator) : Z :=
  Z.of_nat (length (filter (λ v, vs_status (v_staking v) = status) l)).
Definition handleDashboardStatistics (chainId : string) : io Db () :=
  totalBlocks ← query (λ d, block_checkpoint d !! (jd_name HANDLE_TRANSACTION));
  totalTxs ← statisticTotalTransaction;
  totalValidators ← query validator;
  x ← lift (getStatistic chainId);
  tokens ← lift (bondedTokens totalValidators);
  match find (λ pool : string * string, bool_decide (pool.1 = networkDenom)) x.1.1 with
  | None => throw type_error
  | Some pool =>
      update (set_dashboard (Some {|
        total_blocks := totalBlocks; community_pool := pool.2; total_transactions := totalTxs;
        total_validators := Z.of_nat (length totalValidators);
        total_active_validators := count_status "BOND_STATUS_BONDED" totalValidators;
        total_inactive_validators := count_status "BOND_STATUS_UNBONDED" totalValidators;
        bonded := tokens; inflation := match x.2 with Some (i, _) => i | None => "0" end; total_aura := x.1.2;
        staking_apr := match x.2 with Some (i, t) => apr i t x.1.2 tokens | None => Finite 0 end |}))
  end.

(** ** Past days *)
Definition createStatsJobs (date : Z) (d : Db) : Db :=
  add_job CRAWL_ACCOUNT_STATISTICS date (add_job CRAWL_DAILY_STATISTICS date d).
(** The loop over the dates; the clock of the server is UTC. *)
Fixpoint sync_dates (fuel : nat) (date endTime : Z) : io Db () :=
  match fuel with
  | O => throw "fuel"
  | S fuel => if date <=? endTime then update (createStatsJobs date);; sync_dates fuel (date + day) endTime else mret ()
  end.
Definition syncPrevDateStats (fuel : nat) (startDate : Z) (endDate : option Z) : io Db () :=
  sync_dates fuel (startDate + day) (default startDate endDate + day).
Definition handleDailyStatsJobs (now : Z) : io Db () := update (createStatsJobs now).
End TopJobs.

(** ** What the statistics of an account are *)
Section AccountStats.
Context {K : StakingCodec}.

(** What an event adds to an account. *)
Definition coin_amount (x : option string) : Z := match first_coin x with Ok (Some n) => n | _ => 0 end.
Definition is_for (a : string) (o : option string) : bool := bool_decide (o = Some a).
Definition sent_by (a : string) (event : gmap string string) : Z :=
  if is_for a (if_text (event !! COIN_SPENT_SPENDER) id) then coin_amount (event !! COIN_SPENT_AMOUNT) else 0.
Definition received_by (a : string) (event : gmap string string) : Z :=
  match if_text (event !! COIN_SPENT_SPENDER) id with
  | Some _ => 0
  | None => if is_for a (if_text (event !! COIN_RECEIVED_RECEIVER) id) then coin_amount (event !! COIN_RECEIVED_AMOUNT) else 0
  end.
Definition fee_address (event : gmap string string) : option string :=
  or_else (if_text (event !! USE_FEEGRANT_GRANTEE) id) (event !! TX_FEE_PAYER).
Definition total {A} (f : A → Z) (l : list A) : Z := foldr (λ x acc, f x + acc) 0 l.

Definition plus (sent received txs gas : Z) (s : AccountStatistics) : AccountStatistics := {|
  as_address := as_address s; as_amount_sent := as_amount_sent s + sent; as_amount_received := as_amount_received s + received;
  as_tx_sent := as_tx_sent s + txs; as_gas_used := as_gas_used s + gas; as_date := as_date s |}.
Lemma plus_0 s : plus 0 0 0 0 s = s.
Proof. destruct s. unfold plus. simpl. f_equal; lia. Qed.
Lemma plus_plus a b c e a' b' c' e' s : plus a' b' c' e' (plus a b c e s) = plus (a + a') (b + b') (c + c') (e + e') s.
Proof. unfold plus. simpl. f_equal; lia. Qed.

Lemma update_stat_lookup f address m m' a :
  update_stat f address m = Ok m' → m' !! a = (if bool_decide (a = address) then f else id) <$> m !! a.
Proof using Type.
  unfold update_stat. destruct (m !! address) as [s|] eqn:Hs; [|done]. intros [= <-]. case_bool_decide as Ha.
  - subst. by rewrite lookup_insert_eq, Hs.
  - rewrite lookup_insert_ne by done. by destruct (m !! a).
Qed.

Lemma spend_receive_lookup m e m' a :
  spend_receive m e = Ok m' → m' !! a = plus (sent_by a e) (received_by a e) 0 0 <$> m !! a.
Proof using Type.
  assert (∀ o : option AccountStatistics, plus 0 0 0 0 <$> o = o) as H0 by (intros [s|]; simpl; [by rewrite plus_0|done]).
  unfold spend_receive, sent_by, received_by, is_for. destruct (if_text (e !! COIN_SPENT_SPENDER) id) as [s|].
  - intros (o & Ho & H)%bind_Ok. unfold coin_amount. rewrite Ho. destruct o as [n|].
    + rewrite (update_stat_lookup _ _ _ _ a H). destruct (decide (a = s)) as [->|Hne].
      * rewrite !bool_decide_eq_true_2 by done. destruct (m !! s) as [x|]; [|done]. simpl. f_equal. unfold add_sent, plus. f_equal; lia.
      * rewrite !bool_decide_eq_false_2 by congruence. rewrite H0. by destruct (m !! a).
    + injection H as <-. by case_bool_decide; rewrite H0.
  - destruct (if_text (e !! COIN_RECEIVED_RECEIVER) id) as [s|].
    + rewrite (bool_decide_eq_false_2 (None = Some a)) by done. intros (o & Ho & H)%bind_Ok. unfold coin_amount. rewrite Ho. destruct o as [n|].
      * rewrite (update_stat_lookup _ _ _ _ a H). destruct (decide (a = s)) as [->|Hne].
        -- rewrite !bool_decide_eq_true_2 by done. destruct (m !! s) as [x|]; [|done]. simpl. f_equal. unfold add_received, plus. f_equal; lia.
        -- rewrite !bool_decide_eq_false_2 by congruence. rewrite H0. by destruct (m !! a).
      * injection H as <-. by case_bool_decide; rewrite H0.
    + intros [= <-]. rewrite !bool_decide_eq_false_2 by done. by rewrite H0.
Qed.

Lemma spend_receive_all l m m' a :
  forEachM spend_receive m l = Ok m' → m' !! a = plus (total (sent_by a) l) (total (received_by a) l) 0 0 <$> m !! a.
Proof using Type.
  revert m. induction l as [|e l IH]; intros m; simpl.
  - intros [= <-]. destruct (m !! a); simpl; [by rewrite plus_0|done].
  - intros (m1 & H1 & H2)%bind_Ok. rewrite (IH _ H2), (spend_receive_lookup _ _ _ a H1). destruct (m !! a); simpl; [|done].
    f_equal. rewrite plus_plus. done.
Qed.

Definition paid_by (a : string) (event : Z * gmap string string) : Z := if is_for a (fee_address event.2) then 1 else 0.
Definition gas_of (a : string) (event : Z * gmap string string) : Z := if is_for a (fee_address event.2) then event.1 else 0.
Lemma gas_used_all l m m' a :
  forEachM gas_used_tx_sent m l = Ok m' → m' !! a = plus 0 0 (total (paid_by a) l) (total (gas_of a) l) <$> m !! a.
Proof using Type.
  revert m. induction l as [|[g e] l IH]; intros m; simpl.
  - intros [= <-]. destruct (m !! a); simpl; [by rewrite plus_0|done].
  - intros (m1 & H1 & H2)%bind_Ok. rewrite (IH _ H2). unfold gas_used_tx_sent in H1. unfold paid_by, gas_of, is_for. cbn [fst snd] in *.
    fold (fee_address e) in H1. destruct (fee_address e) as [s|]; [|done]. rewrite (update_stat_lookup _ _ _ _ a H1).
    destruct (decide (a = s)) as [->|Hne].
    + rewrite !bool_decide_eq_true_2 by done. destruct (m !! s) as [x|]; [|done]. simpl. f_equal. unfold add_tx, plus. simpl. f_equal; lia.
    + rewrite !bool_decide_eq_false_2 by congruence. destruct (m !! a); done.
Qed.

Lemma ensure_all {A} (f : A → option string) date l (m : Stats) :
  (∀ x, x ∈ l → is_Some (f x)) →
  ∃ m', forEachM (λ m x, ensure date m (f x)) m l = Ok m' ∧
    ∀ a, m' !! a = match m !! a with Some s => Some s | None => if bool_decide (Some a ∈ f <$> l) then Some (newAccountStat a date) else None end.
Proof using Type.
  revert m. induction l as [|x l IH]; intros m Hall; cbn [forEachM].
  - exists m. split; [done|]. intros a. destruct (m !! a); [done|]. by rewrite bool_decide_eq_false_2 by apply not_elem_of_nil.
  - destruct (Hall x) as [b Hb]; [by left|]. rewrite Hb. cbn [ensure mbind res_bind].
    destruct (IH (match m !! b with Some _ => m | None => <[b := newAccountStat b date]> m end)) as (m' & -> & Hm').
    { intros y Hy. apply Hall. by right. }
    exists m'. split; [done|]. intros a. rewrite Hm', fmap_cons, Hb.
    assert (bool_decide (Some a ∈ Some b :: (f <$> l)) = bool_decide (a = b) || bool_decide (Some a ∈ f <$> l)) as ->.
    { destruct (decide (a = b)) as [->|Hne].
      - rewrite (bool_decide_eq_true_2 (Some b ∈ Some b :: _)) by (by left). by rewrite (bool_decide_eq_true_2 (b = b)) by done.
      - rewrite (bool_decide_eq_false_2 (a = b)) by done. simpl. apply bool_decide_ext. rewrite elem_of_cons. naive_solver. }
    destruct (m !! b) as [s|] eqn:Hs.
    + destruct (m !! a) eqn:Ha; [done|]. rewrite (bool_decide_eq_false_2 (a = b)) by congruence. done.
    + destruct (decide (a = b)) as [->|Hne].
      * rewrite lookup_insert_eq, Hs, bool_decide_eq_true_2 by done. done.
      * rewrite lookup_insert_ne, (bool_decide_eq_false_2 (a = b)) by done. done.
Qed.
End AccountStats.

Section AccountJob.
Context {K : StakingCodec}.

(** The addresses of the events of a day. *)
Definition coin_address (event : gmap string string) : option string :=
  or_else (event !! COIN_SPENT_SPENDER) (event !! COIN_RECEIVED_RECEIVER).
Definition paying_address (event : gmap string string) : option string :=
  or_else (event !! USE_FEEGRANT_GRANTEE) (event !! TX_FEE_PAYER).
Definition involved (events : list (gmap string string)) (fees : list (Z * gmap string string)) (a : string) : Prop :=
  Some a ∈ coin_address <$> events ∨ Some a ∈ paying_address <$> fees.*2.

(** An event of the bank module: a spender or a receiver, and coins. *)
Definition good_coins (o : option string) : Prop := ∃ n, first_coin o = Ok n.
Definition good_event (e : gmap string string) : Prop :=
  (∃ s, e !! COIN_SPENT_SPENDER = Some s ∧ s ≠ "" ∧ good_coins (e !! COIN_SPENT_AMOUNT)) ∨
  (e !! COIN_SPENT_SPENDER = None ∧ ∃ s, e !! COIN_RECEIVED_RECEIVER = Some s ∧ s ≠ "" ∧ good_coins (e !! COIN_RECEIVED_AMOUNT)).
Definition good_fee (e : gmap string string) : Prop :=
  (∃ s, e !! USE_FEEGRANT_GRANTEE = Some s ∧ s ≠ "") ∨ (e !! USE_FEEGRANT_GRANTEE = None ∧ ∃ s, e !! TX_FEE_PAYER = Some s).

Lemma if_text_id o s : o = Some s → s ≠ "" → if_text o id = Some s.
Proof. intros -> Hs. simpl. by rewrite bool_decide_eq_false_2. Qed.

Lemma update_stat_total f address m : is_Some (m !! address) → ∃ m', update_stat f address m = Ok m' ∧ dom m' = dom m.
Proof using Type.
  intros [s Hs]. unfold update_stat. rewrite Hs. eexists. split; [done|]. rewrite dom_insert_L.
  assert (address ∈ dom m) by (apply elem_of_dom; eauto). set_solver.
Qed.

Lemma spend_receive_total l m :
  Forall good_event l → (∀ a, Some a ∈ coin_address <$> l → is_Some (m !! a)) →
  ∃ m', forEachM spend_receive m l = Ok m'.
Proof using Type.
  intros Hl. revert m. induction Hl as [|e l He _ IH]; intros m Hm; [by exists m|]. cbn [forEachM].
  assert (∃ m1, spend_receive m e = Ok m1 ∧ dom m1 = dom m) as (m1 & Hm1 & Hdom).
  { assert (∀ s, coin_address e = Some s → is_Some (m !! s)) as Hin by (intros s Hs; apply Hm; rewrite fmap_cons, Hs; by left).
    unfold spend_receive. destruct He as [(s & Hs & Hne & n & Hn)|(Hnone & s & Hs & Hne & n & Hn)].
    - rewrite (if_text_id _ s Hs Hne), Hn. cbn [mbind res_bind]. destruct n; [|by exists m].
      apply update_stat_total, Hin. unfold coin_address. by rewrite Hs.
    - rewrite Hnone. cbn [if_text]. rewrite (if_text_id _ s Hs Hne), Hn. cbn [mbind res_bind]. destruct n; [|by exists m].
      apply update_stat_total, Hin. unfold coin_address. by rewrite Hnone. }
  rewrite Hm1. cbn [mbind res_bind]. apply IH. intros a Ha. apply elem_of_dom. rewrite Hdom. apply elem_of_dom, Hm. rewrite fmap_cons. by right.
Qed.

Lemma good_fee_address e : good_fee e → ∃ a, fee_address e = Some a ∧ paying_address e = Some a.
Proof using Type.
  unfold fee_address, paying_address. intros [(s & Hs & Hne)|(Hn & s & Hs)].
  - exists s. by rewrite (if_text_id _ s Hs Hne), Hs.
  - exists s. by rewrite Hn, Hs.
Qed.

Lemma gas_used_total l m :
  Forall (λ e : Z * gmap string string, good_fee e.2) l → (∀ a, Some a ∈ paying_address <$> l.*2 → is_Some (m !! a)) →
  ∃ m', forEachM gas_used_tx_sent m l = Ok m'.
Proof using Type.
  intros Hl. revert m. induction Hl as [|[g e] l He _ IH]; intros m Hm; [by exists m|]. cbn [forEachM]. cbn [snd] in He.
  destruct (good_fee_address e He) as (a & Ha & Hpay).
  destruct (update_stat_total (add_tx g) a m) as (m1 & Hm1 & Hdom); [apply Hm; rewrite !fmap_cons; cbn [snd]; rewrite Hpay; by left|].
  assert (gas_used_tx_sent m (g, e) = update_stat (add_tx g) a m) as ->
    by (unfold gas_used_tx_sent; unfold fee_address in Ha; cbn [fst snd]; by rewrite Ha).
  rewrite Hm1. cbn [mbind res_bind]. apply IH.
  intros b Hb. apply elem_of_dom. rewrite Hdom. apply elem_of_dom, Hm. rewrite !fmap_cons. by right.
Qed.

(** The statistics of one day, from empty. *)
Lemma day_stats first last date d :
  Forall good_event (dailyEvents first last d) → Forall (λ e : Z * gmap string string, good_fee e.2) (feeEvents first last d) →
  ∃ m, (m ← calculateSpendReceive first last ∅ date d; calculateGasUsedTxSent first last m date d) = Ok m ∧
    ∀ a s, m !! a = Some s ↔
      involved (dailyEvents first last d) (feeEvents first last d) a ∧
      s = {| as_address := a; as_amount_sent := total (sent_by a) (dailyEvents first last d);
             as_amount_received := total (received_by a) (dailyEvents first last d);
             as_tx_sent := total (paid_by a) (feeEvents first last d); as_gas_used := total (gas_of a) (feeEvents first last d);
             as_date := date |}.
Proof using Type.
  set (events := dailyEvents first last d). set (fees := feeEvents first last d). intros He Hf.
  assert (∀ x, x ∈ events → is_Some (coin_address x)) as Hca.
  { intros x Hx. rewrite Forall_forall in He. unfold coin_address. destruct (He x Hx) as [(s & -> & _)|(-> & s & -> & _)]; by eexists. }
  assert (∀ x, x ∈ fees.*2 → is_Some (paying_address x)) as Hpa.
  { intros x (y & -> & Hy)%list_elem_of_fmap. rewrite Forall_forall in Hf. destruct (good_fee_address _ (Hf y Hy)) as (a & _ & ->). by eexists. }
  unfold calculateSpendReceive, calculateGasUsedTxSent. fold events fees.
  destruct (ensure_all coin_address date events ∅ Hca) as (m1 & H1 & L1). unfold coin_address in H1 at 1. rewrite H1. cbn [mbind res_bind].
  destruct (spend_receive_total events m1 He) as [m2 H2]; [intros a Ha; rewrite L1, lookup_empty, bool_decide_eq_true_2 by done; by eexists|].
  rewrite H2. cbn [mbind res_bind].
  destruct (ensure_all paying_address date fees.*2 m2 Hpa) as (m3 & H3 & L3). unfold paying_address in H3 at 1. rewrite H3. cbn [mbind res_bind].
  destruct (gas_used_total fees m3 Hf) as [m4 H4].
  { intros a Ha. rewrite L3. destruct (m2 !! a); [by eexists|]. rewrite bool_decide_eq_true_2 by done. by eexists. }
  exists m4. split; [exact H4|]. intros a s. rewrite (gas_used_all _ _ _ a H4), L3, (spend_receive_all _ _ _ a H2), L1, lookup_empty.
  unfold involved. destruct (decide (Some a ∈ coin_address <$> events)) as [Hin|Hin].
  - rewrite (bool_decide_eq_true_2 _ Hin). unfold plus, newAccountStat. simpl. rewrite !Z.add_0_r. naive_solver.
  - rewrite (bool_decide_eq_false_2 _ Hin). cbn [fmap option_fmap option_map].
    assert (∀ f, (∀ e, good_event e → f e ≠ 0 → coin_address e = Some a) → total f events = 0) as Hzero.
    { intros f Hfz. clear -Hin Hfz He. induction He as [|e l He _ IH]; [done|]. rewrite fmap_cons in Hin. apply not_elem_of_cons in Hin as [Hne Hin].
      simpl. rewrite IH by done. destruct (decide (f e = 0)); [lia|]. destruct Hne. symmetry. by apply Hfz. }
    assert (∀ (o : option string) x, if_text o id = Some x → o = Some x) as Htext.
    { intros [t|] x; simpl; [|done]. by case_bool_decide. }
    destruct (decide (Some a ∈ paying_address <$> fees.*2)) as [Hin2|Hin2].
    + rewrite (bool_decide_eq_true_2 _ Hin2), (Hzero (sent_by a)), (Hzero (received_by a)).
      * unfold plus, newAccountStat. simpl. naive_solver.
      * intros e [(s' & Hs & Hne & _)|(Hnone & _)]; unfold received_by, is_for, coin_address; [by rewrite (if_text_id _ s' Hs Hne)|].
        rewrite Hnone. cbn [if_text]. case_bool_decide as Hr; [|done]. intros _. by apply Htext in Hr.
      * intros e _. unfold sent_by, is_for, coin_address. case_bool_decide as Hr; [|done]. apply Htext in Hr. by rewrite Hr.
    + rewrite (bool_decide_eq_false_2 _ Hin2). naive_solver.
Qed.
End AccountJob.

Section AccountTheorems.
Context {K : StakingCodec}.

(** The rows of a day: one per address involved, with what its events say. *)
Definition stat_of (events : list (gmap string string)) (fees : list (Z * gmap string string)) (date : Z) (a : string) : AccountStatistics := {|
  as_address := a; as_amount_sent := total (sent_by a) events; as_amount_received := total (received_by a) events;
  as_tx_sent := total (paid_by a) fees; as_gas_used := total (gas_of a) fees; as_date := date |}.

Lemma stats_rows (m : Stats) (f : string → AccountStatistics) (P : string → Prop) :
  (∀ a s, m !! a = Some s ↔ P a ∧ s = f a) → (∀ a, as_address (f a) = a) →
  (∀ s, s ∈ (map_to_list m).*2 ↔ ∃ a, P a ∧ s = f a) ∧ NoDup (as_address <$> (map_to_list m).*2).
Proof using Type.
  intros Hm Hf. split.
  - intros s. rewrite list_elem_of_fmap. split.
    + intros ([a x] & -> & Hx%elem_of_map_to_list). apply Hm in Hx. by exists a.
    + intros (a & Ha & ->). exists (a, f a). split; [done|]. apply elem_of_map_to_list. by apply Hm.
  - assert (as_address <$> (map_to_list m).*2 = (map_to_list m).*1) as ->; [|apply NoDup_fst_map_to_list].
    rewrite <-list_fmap_compose. apply list_fmap_ext. intros i [a s] Hi. apply list_elem_of_lookup_2, elem_of_map_to_list in Hi.
    apply Hm in Hi as [_ ->]. simpl. by rewrite Hf.
Qed.

Section Day.
Context (date : Z) (d : Db) (first last : Transaction).
Context (Hfirst : startTx (startOf_day date - day) d = Some first) (Hlast : endTx (startOf_day date) d = Some last).
Context (Hcoins : Forall good_event (dailyEvents (t_id first) (t_id last) d)).
Context (Hfees : Forall (λ e : Z * gmap string string, good_fee e.2) (feeEvents (t_id first) (t_id last) d)).

Lemma account_run :
  ∃ m : Stats, handleAccountStatistics date d =
      (commit (insert_account_statistics (map_to_list m).*2);; update (add_job HANDLE_TOP_ACCOUNTS 0)) d ∧
    (∀ a s, m !! a = Some s ↔ involved (dailyEvents (t_id first) (t_id last) d) (feeEvents (t_id first) (t_id last) d) a ∧
       s = stat_of (dailyEvents (t_id first) (t_id last) d) (feeEvents (t_id first) (t_id last) d) (startOf_day date - day) a).
Proof using Hfirst Hlast Hcoins Hfees.
  destruct (day_stats (t_id first) (t_id last) (startOf_day date - day) d Hcoins Hfees) as (m & Hm & Hrows).
  exists m. split; [|exact Hrows]. unfold handleAccountStatistics. cbv zeta. erewrite io_step by done. cbv beta.
  erewrite io_step by done. cbv beta. rewrite Hfirst, Hlast. cbn [tx_id_of]. erewrite io_step by done. cbv beta.
  erewrite io_step by done. cbv beta. erewrite io_step by done. cbv beta. rewrite Hm. by erewrite io_step by done.
Qed.

(** C35: Let [first] be the first transaction since the start of a day and [last]
    the last one before its end, let the table have no row for the day yet, and
    let every event that moves coins name an address and start with an amount
    that can be read, and every fee name its payer.  Then the job stores, for
    the transactions from [first] on whose id is below that of [last] (so
    without the last transaction of the day), one row for every address of such
    a coin event or fee: the sums of what it spent and of what it received,
    where of every amount the first coin counts, if it is of the network's
    denomination, and the number of transactions it paid for and their gas.
    The other coins of an amount are not counted, and an event with
    a spender counts for the spender only.  The rows that were there stay, and
    the job of the top accounts is started. *)
Theorem account_statistics_stored :
  NoDup ((λ s, (as_address s, as_date s)) <$> account_statistics d) →
  (∀ s, s ∈ account_statistics d → as_date s ≠ startOf_day date - day) →
  ∃ d' rows, handleAccountStatistics date d = (d', Ok tt) ∧ account_statistics d' = account_statistics d ++ rows ∧
    queue d' = queue d ++ [(HANDLE_TOP_ACCOUNTS, 0)] ∧ NoDup (as_address <$> rows) ∧
    ∀ s, s ∈ rows ↔ ∃ a, involved (dailyEvents (t_id first) (t_id last) d) (feeEvents (t_id first) (t_id last) d) a ∧
      s = stat_of (dailyEvents (t_id first) (t_id last) d) (feeEvents (t_id first) (t_id last) d) (startOf_day date - day) a.
Proof using Hfirst Hlast Hcoins Hfees.
  intros Hnd Hnew. destruct account_run as (m & -> & Hm).
  destruct (stats_rows m _ _ Hm (λ _, eq_refl)) as [Hin Hkeys].
  assert (NoDup ((λ s, (as_address s, as_date s)) <$> account_statistics d ++ (map_to_list m).*2)) as Hall.
  { rewrite fmap_app. apply NoDup_app. split_and!; [done| |].
    - intros k (s & -> & Hs)%list_elem_of_fmap (s' & [= _ Hd] & Hs')%list_elem_of_fmap.
      apply Hin in Hs' as (a & _ & ->). by apply (Hnew s Hs).
    - clear -Hkeys. induction ((map_to_list m).*2) as [|s l IH]; [constructor|]. rewrite !fmap_cons in *.
      apply NoDup_cons in Hkeys as [Hs Hl]. apply NoDup_cons. split; [|by apply IH].
      intros (s' & [= Ha _] & Hs')%list_elem_of_fmap. apply Hs. rewrite Ha. by apply list_elem_of_fmap_2. }
  eexists _, (map_to_list m).*2. split.
  - unfold commit, insert_account_statistics. unfold mbind, io_bind. rewrite bool_decide_eq_true_2 by done. reflexivity.
  - done.
Qed.

(** A second run for a day throws and does not start the job of the top
    accounts, as soon as one address has its row. *)
Theorem repeated_day_throws s :
  s ∈ account_statistics d → as_date s = startOf_day date - day →
  involved (dailyEvents (t_id first) (t_id last) d) (feeEvents (t_id first) (t_id last) d) (as_address s) →
  ∃ msg, handleAccountStatistics date d = (d, Throw msg).
Proof using Hfirst Hlast Hcoins Hfees.
  intros Hs Hdate Hinv. destruct account_run as (m & -> & Hm).
  destruct (stats_rows m _ _ Hm (λ _, eq_refl)) as [Hin _].
  eexists. unfold commit, insert_account_statistics. unfold mbind, io_bind. rewrite bool_decide_eq_false_2; [reflexivity|].
  rewrite fmap_app. intros (_ & Hno & _)%NoDup_app. eapply Hno; [by apply list_elem_of_fmap_2|].
  rewrite Hdate. apply list_elem_of_fmap. exists (stat_of (dailyEvents (t_id first) (t_id last) d) (feeEvents (t_id first) (t_id last) d) (startOf_day date - day) (as_address s)).
  split; [done|]. apply Hin. by exists (as_address s).
Qed.
End Day.

(** The attributes of the last transaction of the day are not part of any
    statistic: the range of the queries excludes it. *)
Theorem last_transaction_ignored first last d d' :
  transaction d' = transaction d →
  event_attribute d' = filter (λ a, ea_tx_id a ≠ Some last) (event_attribute d) →
  dailyEvents first last d' = dailyEvents first last d ∧ feeEvents first last d' = feeEvents first last d.
Proof using Type.
  intros Ht Hd'. assert (∀ keys, filter (λ a, in_txs first last keys a = true) (event_attribute d') =
    filter (λ a, in_txs first last keys a = true) (event_attribute d)) as Hsame.
  { intros keys. rewrite Hd', list_filter_filter. apply list_filter_iff. intros a. split; [by intros [? _]|]. intros Ha. split; [done|].
    unfold in_txs in Ha. destruct (ea_tx_id a) as [tx|]; [|done]. intros [= ->]. lia. }
  unfold dailyEvents, feeEvents. by rewrite !Hsame, Ht.
Qed.

(** A day on which nothing was stored before its end stops the job. *)
Lemma no_transaction_throws date d :
  startTx (startOf_day date - day) d = None ∨ endTx (startOf_day date) d = None → ∃ msg, handleAccountStatistics date d = (d, Throw msg).
Proof using Type.
  intros H. unfold handleAccountStatistics. cbv zeta. erewrite io_step by done. cbv beta. erewrite io_step by done. cbv beta.
  destruct (startTx _ d); [|by eexists]. destruct H as [H|H]; [done|]. rewrite H. cbn [tx_id_of]. erewrite io_step by done. cbv beta. by eexists.
Qed.
End AccountTheorems.

(** ** The number of transactions *)
Section Totals.

(** The rows of [transaction] come from the crawler, at heights after the
    checkpoint of handle:transaction; the checkpoint grows; the dashboard runs. *)
Inductive tstep : Db → Db → Prop :=
| step_insert t d d' h : block_checkpoint d !! (jd_name HANDLE_TRANSACTION) = Some h → h < t_height t →
    transaction d' = transaction d ++ [t] → total_transaction d' = total_transaction d → block_checkpoint d' = block_checkpoint d →
    tstep d d'
| step_checkpoint h h' d d' : block_checkpoint d !! (jd_name HANDLE_TRANSACTION) = Some h → h <= h' →
    transaction d' = transaction d → total_transaction d' = total_transaction d →
    block_checkpoint d' = <[(jd_name HANDLE_TRANSACTION) := h']> (block_checkpoint d) → tstep d d'
| step_count d : tstep d (statisticTotalTransaction d).1.

(** The statistic counts the transactions up to a height that the checkpoint
    has passed. *)
Definition counted_until (d : Db) : Prop :=
  ∀ s, total_transaction d = Some s → st_value s = txs_until (st_statistic_since s) d ∧
    ∃ h, block_checkpoint d !! (jd_name HANDLE_TRANSACTION) = Some h ∧ st_statistic_since s <= h.

Lemma txs_split a b d : a <= b →
  txs_until b d = txs_until a d + Z.of_nat (length (filter (λ t, a < t_height t ∧ t_height t <= b) (transaction d))).
Proof.
  intros Hab. unfold txs_until. induction (transaction d) as [|t l IH]; [done|]. rewrite !filter_cons.
  repeat case_decide; cbn [length]; lia.
Qed.

(** The statistic of the transactions is right: from a right one, the job
    returns the number of transactions up to the checkpoint of
    handle:transaction and stores it with that height. *)
Theorem total_transactions_exact d h :
  counted_until d → block_checkpoint d !! (jd_name HANDLE_TRANSACTION) = Some h →
  ∃ d', statisticTotalTransaction d = (d', Ok (txs_until h d)) ∧ counted_until d' ∧
    total_transaction d' = Some {| st_value := txs_until h d; st_statistic_since := h |} ∧
    transaction d' = transaction d ∧ block_checkpoint d' = block_checkpoint d.
Proof.
  intros Hc Hh. unfold statisticTotalTransaction. erewrite io_step by done. cbv beta. erewrite io_step by done. cbv beta. rewrite Hh.
  assert (∀ d', total_transaction d' = Some {| st_value := txs_until h d; st_statistic_since := h |} →
    transaction d' = transaction d → block_checkpoint d' = block_checkpoint d → counted_until d') as Hinv.
  { intros d' Ht Htx Hb s Hs. rewrite Ht in Hs. injection Hs as <-. simpl. split; [by unfold txs_until; rewrite Htx|].
    exists h. by rewrite Hb. }
  destruct (total_transaction d) as [s|] eqn:Hs.
  - destruct (Hc s Hs) as (Hv & h' & Hh' & Hle). assert (h' = h) as -> by congruence.
    destruct (Z.leb_spec h (st_statistic_since s)) as [Hge|Hlt].
    + assert (h = st_statistic_since s) as -> by lia. exists d. rewrite Hv. split_and!; [done..| |done|done]. rewrite Hs, <-Hv. by destruct s.
    + erewrite io_step by done. cbv beta. assert (st_value s + Z.of_nat (length (filter (λ t, st_statistic_since s < t_height t ∧ t_height t <= h) (transaction d))) = txs_until h d) as ->
        by (rewrite Hv; symmetry; apply txs_split; lia).
      erewrite io_step by done. cbv beta. eexists. split; [done|]. split_and!; try done. by apply Hinv.
  - erewrite io_step by done. cbv beta. erewrite io_step by done. cbv beta. eexists. split; [done|]. split_and!; try done. by apply Hinv.
Qed.

(** C28: the statistic stays right while rows are inserted, the checkpoint moves
    and the dashboard runs in any order. *)
Theorem statistic_stays_right d d' : counted_until d → tstep d d' → counted_until d'.
Proof.
  intros Hc Hstep. revert Hc. destruct Hstep as [t d1 d2 h Hh Hlt Htx Ht Hb|h h' d1 d2 Hh Hle Htx Ht Hb|d1]; intros Hc.
  - intros s Hs. rewrite Ht in Hs. destruct (Hc s Hs) as (Hv & h' & Hh' & Hle). assert (h' = h) as -> by congruence.
    split; [|exists h; by rewrite Hb]. rewrite Hv. unfold txs_until. rewrite Htx, filter_app, length_app, filter_cons_False by lia. simpl. lia.
  - intros s Hs. rewrite Ht in Hs. destruct (Hc s Hs) as (Hv & h1 & Hh1 & Hle1). assert (h1 = h) as -> by congruence.
    split; [unfold txs_until in *; by rewrite Htx|]. exists h'. rewrite Hb, lookup_insert_eq. split; [done|lia].
  - destruct (block_checkpoint d1 !! (jd_name HANDLE_TRANSACTION)) as [h|] eqn:Hh.
    + destruct (total_transactions_exact d1 h Hc Hh) as (d' & -> & H & _). done.
    + unfold statisticTotalTransaction. erewrite io_step by done. cbv beta. erewrite io_step by done. cbv beta. by rewrite Hh.
Qed.
End Totals.

(** ** Top accounts *)
Section Top.
Context {Q : Quotients}.
(** A quotient by a positive total is a number; by 0 it is NaN; a sort permutes. *)
Class QuotientLaws : Prop := {
  percentage_num a t : 0 < t → percentage a t ≠ NaN;
  percentage_NaN a : percentage a 0 = NaN;
  unordered_perm l : unordered l ≡ₚ l
}.

(** [y] may come after [x]. *)
Definition not_above (x y : TopAccount) : Prop := gt (ta_percentage y) (ta_percentage x) = false.
Definition same_sort (l : list TopAccount) : Prop :=
  (∀ x, x ∈ l → ta_percentage x = NaN) ∨ (∀ x, x ∈ l → ta_percentage x ≠ NaN).

Lemma gt_trans_false a b c : a ≠ NaN → b ≠ NaN → c ≠ NaN → gt b a = false → gt c b = false → gt c a = false.
Proof. destruct a as [|[]|a], b as [|[]|b], c as [|[]|c]; simpl; try done. rewrite !Z.ltb_ge. lia. Qed.

Lemma gt_asym a b : gt a b = true → gt b a = false.
Proof. destruct a as [|[]|a], b as [|[]|b]; simpl; try done. rewrite Z.ltb_lt, Z.ltb_ge. lia. Qed.

Lemma order_insert_perm x l : order_insert x l ≡ₚ x :: l.
Proof. induction l as [|y l IH]; [done|]. simpl. destruct (gt _ _); [|done]. rewrite IH. constructor. Qed.

Lemma sort_perm l : foldr order_insert [] l ≡ₚ l.
Proof using Type. induction l as [|x l IH]; [done|]. simpl. by rewrite order_insert_perm, IH. Qed.

Lemma orderBy_perm (Hlaws : QuotientLaws) l : orderBy l ≡ₚ l.
Proof using Type. unfold orderBy. destruct (forallb _ _); [apply unordered_perm|apply sort_perm]. Qed.

Definition ordered (l : list TopAccount) : Prop := StronglySorted not_above l.

Lemma order_insert_sorted x l : same_sort (x :: l) → ordered l → ordered (order_insert x l).
Proof using Type.
  intros Hs Hl. assert (∀ y z, y ∈ x :: l → z ∈ x :: l → ∀ w, w ∈ x :: l → not_above y z → not_above z w → not_above y w) as Htrans.
  { intros y z Hy Hz w Hw. unfold not_above. destruct Hs as [Hn|Hn]; [by rewrite (Hn y Hy), (Hn w Hw)|].
    apply gt_trans_false; by apply Hn. }
  induction l as [|y l IH]; [repeat constructor|]. simpl. apply StronglySorted_inv in Hl as [Hl Hy]. destruct (gt _ _) eqn:Hgt.
  - constructor.
    + apply IH; [|done|]; [destruct Hs as [H|H]; [left|right]; intros z Hz; apply H; rewrite !elem_of_cons in *; tauto|].
      intros a b Ha Hb c Hc. apply Htrans; rewrite !elem_of_cons in *; tauto.
    + rewrite order_insert_perm. constructor; [by apply gt_asym|done].
  - constructor; [by constructor|]. constructor; [done|]. rewrite Forall_forall in Hy |- *. intros z Hz.
    apply (Htrans x y); [left|right; left|right; right|exact Hgt|]; try done. by apply Hy.
Qed.

Lemma orderBy_sorted (Hlaws : QuotientLaws) l : same_sort l → ordered (orderBy l).
Proof using Type.
  intros Hs. unfold orderBy. destruct (forallb _ _) eqn:Hnan.
  - assert (∀ x, x ∈ unordered l → ta_percentage x = NaN) as Hall.
    { intros x. rewrite unordered_perm. intros Hx. rewrite forallb_forall in Hnan. specialize (Hnan x (proj1 (list_elem_of_In _ _) Hx)).
      by destruct (ta_percentage x). }
    clear Hnan Hs. induction (unordered l) as [|x k IH]; [constructor|]. constructor; [apply IH; intros y Hy; apply Hall; by right|].
    apply Forall_forall. intros y Hy. unfold not_above. by rewrite (Hall y) by (by right).
  - clear Hnan. induction l as [|x l IH]; [constructor|]. cbn [foldr]. apply order_insert_sorted.
    + destruct Hs as [H|H]; [left|right]; intros z; rewrite sort_perm; apply H.
    + apply IH. destruct Hs as [H|H]; [left|right]; intros z Hz; apply H; by right.
Qed.

Lemma foldl_total (f : AccountStatistics → Z) l n : foldl (λ init accStat, init + f accStat) n l = n + total f l.
Proof using Type. revert n. induction l as [|x l IH]; intros n; simpl; [lia|]. rewrite IH. lia. Qed.

(** A top list holds the ten accounts with the highest shares of the total,
    or all when there are fewer, the highest first. *)
Theorem top_accounts_correct (Hlaws : QuotientLaws) f dayStat :
  (∀ s, s ∈ dayStat → 0 <= f s) →
  ∃ rest, topOf f dayStat ++ rest ≡ₚ
      ((λ s, {| ta_address := as_address s; ta_amount := f s; ta_percentage := percentage (f s) (total f dayStat) |}) <$> dayStat) ∧
    length (topOf f dayStat) = Nat.min 10 (length dayStat) ∧ ordered (topOf f dayStat) ∧
    ∀ x y, x ∈ topOf f dayStat → y ∈ rest → not_above x y.
Proof using Type.
  intros Hpos. unfold topOf. rewrite foldl_total, Z.add_0_l. set (all := _ <$> dayStat). exists (drop numberOfTopRecords (orderBy all)).
  rewrite take_drop. assert (ordered (orderBy all)) as Ho.
  { apply orderBy_sorted; [done|]. assert (0 <= total f dayStat) as Ht.
    { clear -Hpos. induction dayStat as [|s l IH]; [done|]. simpl. pose proof (Hpos s ltac:(by left)).
      specialize (IH ltac:(intros x Hx; apply Hpos; by right)). lia. }
    destruct (decide (total f dayStat = 0)) as [Hz|Hz].
    - left. intros x (s & -> & _)%list_elem_of_fmap. simpl. rewrite Hz. apply percentage_NaN.
    - right. intros x (s & -> & _)%list_elem_of_fmap. simpl. apply percentage_num. lia. }
  split_and!.
  - by apply orderBy_perm.
  - rewrite length_take, (Permutation_length (orderBy_perm _ all)). unfold all. by rewrite length_fmap.
  - rewrite <-(take_drop numberOfTopRecords (orderBy all)) in Ho. by eapply StronglySorted_app_1_l.
  - intros x y Hx Hy. rewrite <-(take_drop numberOfTopRecords (orderBy all)) in Ho.
    by eapply StronglySorted_app_1_elem_of.
Qed.
End Top.

(** ** Days *)
Section Days.
Context {C : AddressCodec}.

Lemma startOf_day_add t k : startOf_day (t + k * day) = startOf_day t + k * day.
Proof. unfold startOf_day. rewrite Z.mod_add by done. lia. Qed.

(** The request for past days ends and starts both jobs once for every day
    from the first to the last one, the dates of the jobs being those of the
    day after, since a job handles the day before its date. *)
Theorem sync_creates_each_day fuel startDate n d :
  (S n < fuel)%nat →
  ∃ d', syncPrevDateStats fuel startDate (Some (startDate + Z.of_nat n * day)) d = (d', Ok tt) ∧
    queue d' = queue d ++ (seq 0 (S n) ≫= λ k,
      [(CRAWL_DAILY_STATISTICS, startDate + (Z.of_nat k + 1) * day); (CRAWL_ACCOUNT_STATISTICS, startDate + (Z.of_nat k + 1) * day)]) ∧
    ∀ k : nat, startOf_day (startDate + (Z.of_nat k + 1) * day) - day = startOf_day startDate + Z.of_nat k * day.
Proof.
  intros Hf. unfold syncPrevDateStats. simpl default.
  enough (∀ m i f d, (m < f)%nat → ∃ d', sync_dates f (startDate + (Z.of_nat i + 1) * day) (startDate + (Z.of_nat (i + m) * day)) d = (d', Ok tt) ∧
    queue d' = queue d ++ (seq i m ≫= λ k,
      [(CRAWL_DAILY_STATISTICS, startDate + (Z.of_nat k + 1) * day); (CRAWL_ACCOUNT_STATISTICS, startDate + (Z.of_nat k + 1) * day)])) as H.
  { destruct (H (S n) 0%nat fuel d ltac:(lia)) as (d' & Hrun & Hq). exists d'. split; [|split; [exact Hq|]].
    - rewrite <-Hrun. f_equal; unfold day; lia.
    - intros k. rewrite startOf_day_add. unfold day. lia. }
  induction m as [|m IH]; intros i f d0 Hm; (destruct f as [|f]; [lia|]); cbn [sync_dates].
  - destruct (Z.leb_spec (startDate + (Z.of_nat i + 1) * day) (startDate + Z.of_nat (i + 0) * day)); [unfold day in *; lia|].
    exists d0. split; [done|]. by rewrite app_nil_r.
  - destruct (Z.leb_spec (startDate + (Z.of_nat i + 1) * day) (startDate + Z.of_nat (i + S m) * day)); [|unfold day in *; lia].
    erewrite io_step by done. cbv beta. set (d1 := createStatsJobs _ d0).
    destruct (IH (S i) f d1 ltac:(lia)) as (d' & Hrun & Hq). exists d'. split.
    + rewrite <-Hrun. f_equal; unfold day; lia.
    + rewrite Hq. cbn [seq mbind list_bind]. unfold d1, createStatsJobs, add_job. cbn [queue]. rewrite <-!app_assoc. done.
Qed.

(** The values of the transactions of a day that are addresses of accounts. *)
Definition active (first last : Z) (d : Db) : list string :=
  filter (λ v, isValidAccountAddress v networkPrefixAddress 20 = true)
    (ea_value <$> filter (λ a, match ea_tx_id a with
       | Some tx => (first <=? tx) && (tx <=? last) && String.prefix networkPrefixAddress (ea_value a)
       | None => false end = true) (event_attribute d)).

Lemma length_uniq {A} `{Countable A} (l : list A) : length (uniq l) = size (list_to_set l : gset A).
Proof.
  rewrite <-(size_list_to_set (C := gset A) (uniq l)) by apply NoDup_uniq. f_equal. apply set_eq. intros x.
  by rewrite !elem_of_list_to_set, elem_of_uniq.
Qed.

(** The row of a day, unless it has one: the successful transactions of the day
    and the number of different accounts its attributes name. *)
Theorem daily_statistics_stored date d first last :
  startTx (startOf_day date - day) d = Some first → endTx (startOf_day date) d = Some last →
  startOf_day date - day ∉ ds_date <$> daily_statistics d →
  ∃ d', handleDailyStatistics date d = (d', Ok tt) ∧
    daily_statistics d' = daily_statistics d ++ [{|
      ds_daily_txs := Z.of_nat (length (filter (λ t, startOf_day date - day <= t_timestamp t ∧ t_timestamp t < startOf_day date ∧ t_code t = 0) (transaction d)));
      ds_daily_active_addresses := Z.of_nat (size (list_to_set (active (t_id first) (t_id last) d) : gset string));
      ds_unique_addresses := accounts d; ds_date := startOf_day date - day |}].
Proof.
  intros Hfirst Hlast Hnew. unfold handleDailyStatistics. cbv zeta. erewrite io_step by done. cbv beta. erewrite io_step by done. cbv beta.
  rewrite Hfirst, Hlast. cbn [tx_id_of]. do 5 (erewrite io_step by done; cbv beta). eexists. split; [done|].
  rewrite bool_decide_eq_false_2 by done. cbn [daily_statistics set_daily_statistics]. do 2 f_equal. f_equal.
  - f_equal. f_equal. apply list_filter_iff. intros t. rewrite !andb_true_iff, Z.leb_le, Z.ltb_lt, Z.eqb_eq. tauto.
  - f_equal. rewrite length_uniq. f_equal. apply set_eq. intros x. unfold active.
    rewrite !elem_of_list_to_set, !list_elem_of_filter, elem_of_uniq. done.
Qed.
End Days.

(** ** Witnesses *)
Module Demo.
Definition codec : StakingCodec := {|
  pubkeyToRawAddress key := Ok key; toHex bytes := bytes;
  parseCoins s := match s with "5utaura" => Ok [("5", "utaura")] | "7uatom" => Ok [("7", "uatom")] | _ => Ok [] end |}.
Definition quotients : Quotients := {|
  percentage a t := if t =? 0 then NaN else decimal (round_div (a * 100 * 10 ^ 20) t) (-20);
  apr _ _ _ _ := NaN; unordered l := l |}.
Lemma laws : QuotientLaws (Q := quotients).
Proof.
  constructor; [|done|done]. intros a t Ht. simpl. rewrite (proj2 (Z.eqb_neq t 0)) by lia. unfold decimal. simpl.
  unfold round_ratio. by destruct (_ <? _).
Qed.
Definition attr (tx event : Z) (k v : string) : EventAttribute := {|
  ea_tx_id := Some tx; ea_event_id := event; ea_composite_key := k; ea_value := v |}.
(** Three transactions of the second day; the third one, the last of the day,
    is not counted. *)
Definition db : Db := {|
  transaction := (λ i, {| t_id := i; t_height := i; t_timestamp := day + i; t_code := 0; t_gas_used := 100 * i |}) <$> [1; 2; 3];
  event_attribute := [ attr 1 10 COIN_SPENT_SPENDER "a"; attr 1 10 COIN_SPENT_AMOUNT "5utaura";
                       attr 1 11 COIN_RECEIVED_RECEIVER "b"; attr 1 11 COIN_RECEIVED_AMOUNT "5utaura";
                       attr 1 12 TX_FEE_PAYER "a"; attr 2 20 TX_FEE_PAYER "g"; attr 2 21 USE_FEEGRANT_GRANTEE "a";
                       attr 2 22 COIN_SPENT_SPENDER "b"; attr 2 22 COIN_SPENT_AMOUNT "7uatom";
                       attr 3 30 COIN_SPENT_SPENDER "c"; attr 3 30 COIN_SPENT_AMOUNT "5utaura" ];
  accounts := 4; account_statistics := []; daily_statistics := []; total_transaction := None; validator := [];
  block_checkpoint := {[(jd_name HANDLE_TRANSACTION) := 2]}; queue := []; top_accounts := None; dashboard_statistics := None |}.
Definition tx (i : Z) : Transaction := {| t_id := i; t_height := i; t_timestamp := day + i; t_code := 0; t_gas_used := 100 * i |}.
End Demo.

Lemma account_statistics_stored_witness :
  ∃ d' rows, handleAccountStatistics (K := Demo.codec) (2 * day + 5) Demo.db = (d', Ok tt) ∧
    account_statistics d' = [] ++ rows ∧
    {| as_address := "a"; as_amount_sent := 5; as_amount_received := 0; as_tx_sent := 2; as_gas_used := 300; as_date := day |} ∈ rows ∧
    {| as_address := "b"; as_amount_sent := 0; as_amount_received := 5; as_tx_sent := 0; as_gas_used := 0; as_date := day |} ∈ rows.
Proof.
  destruct (account_statistics_stored (K := Demo.codec) (2 * day + 5) Demo.db (Demo.tx 1) (Demo.tx 3)) as (d' & rows & Hrun & Hrows & _ & _ & Hin);
    [by vm_compute|by vm_compute| | |constructor|by intros s ?%not_elem_of_nil|].
  - vm_compute dailyEvents. repeat (apply Forall_cons; split); [| | |constructor].
    + left. exists "a". split; [by vm_compute|]. split; [done|]. eexists. by vm_compute.
    + right. split; [by vm_compute|]. exists "b". split; [by vm_compute|]. split; [done|]. eexists. by vm_compute.
    + left. exists "b". split; [by vm_compute|]. split; [done|]. eexists. by vm_compute.
  - vm_compute feeEvents. repeat (apply Forall_cons; split); [| |constructor].
    + right. split; [by vm_compute|]. eexists. by vm_compute.
    + left. exists "a". split; [by vm_compute|done].
  - exists d', rows. split; [exact Hrun|]. split; [exact Hrows|]. split; apply Hin.
    + exists "a". split; [left; apply (bool_decide_unpack _); by vm_compute|vm_compute; reflexivity].
    + exists "b". split; [left; apply (bool_decide_unpack _); by vm_compute|vm_compute; reflexivity].
Defined.

Lemma total_transactions_exact_witness :
  ∃ d', statisticTotalTransaction Demo.db = (d', Ok 2) ∧ total_transaction d' = Some {| st_value := 2; st_statistic_since := 2 |}.
Proof.
  destruct (total_transactions_exact Demo.db 2) as (d' & Hrun & _ & Ht & _); [by intros s Hs|by vm_compute|].
  exists d'. split; [exact Hrun|exact Ht].
Defined.

Lemma statistic_stays_right_witness : counted_until (statisticTotalTransaction Demo.db).1.
Proof. apply (statistic_stays_right Demo.db); [by intros s Hs|apply step_count]. Defined.

Lemma top_accounts_correct_witness :
  ta_address <$> topOf (Q := Demo.quotients) as_amount_sent [newAccountStat "a" 0; add_sent 3 (newAccountStat "b" 0)] = ["b"; "a"] ∧
  ordered (topOf (Q := Demo.quotients) as_amount_sent [newAccountStat "a" 0; add_sent 3 (newAccountStat "b" 0)]).
Proof.
  split; [by vm_compute|].
  destruct (top_accounts_correct (Q := Demo.quotients) Demo.laws as_amount_sent [newAccountStat "a" 0; add_sent 3 (newAccountStat "b" 0)])
    as (rest & _ & _ & Ho & _); [|exact Ho].
  intros s Hs. rewrite !elem_of_cons in Hs. destruct Hs as [->|[->|Hs]]; [by vm_compute..|by apply not_elem_of_nil in Hs].
Defined.

Lemma sync_creates_each_day_witness : ∃ d', syncPrevDateStats 3 0 (Some day) Demo.db = (d', Ok tt) ∧ length (queue d') = 4%nat.
Proof.
  destruct (sync_creates_each_day 3 0 1 Demo.db) as (d' & Hrun & Hq & _); [lia|]. exists d'. split; [exact Hrun|]. by rewrite Hq.
Defined.
