(* ===== verification/Backfill.v ===== *)
(** * Backfilling

    One-off jobs over rows that are stored already:
    [services/job/update_tx_count_in_block.service.ts],
    [update_sender_in_tx_message.service.ts] and [redecode_tx.service.ts]. *)
From S2P Require Import Prelude JsNum Checkpoint IdPages Json Registry Decode.

(** ** The number of transactions of blocks *)
Module TxCount.
Record Block := { bk_height : Z; bk_txs : option (list string); bk_tx_count : option Z }.   (* data.block.data.txs *)
Record Db := { block : list Block; block_checkpoint : gmap string Z }.
#[export] Instance Db_checkpoints : HasCheckpoints Db := block_checkpoint.
#[export] Program Instance Db_set_checkpoints : SetCheckpoints Db := {|
  set_checkpoints t d := {| block := block d; block_checkpoint := t |} |}.
Next Obligation. done. Qed.

(** [jsonb_array_length] of the transactions; null of null. *)
Definition count_txs (startBlock endBlock : Z) (b : Block) : Block :=
  if (startBlock <? bk_height b) && (bk_height b <=? endBlock) && bool_decide (bk_tx_count b = None)
  then {| bk_height := bk_height b; bk_txs := bk_txs b; bk_tx_count := Z.of_nat ∘ length <$> bk_txs b |} else b.
Definition update_tx_counts (startBlock endBlock : Z) (d : Db) : Db := {|
  block := count_txs startBlock endBlock <$> block d; block_checkpoint := block_checkpoint d |}.
(** The update is not part of the transaction. *)
Definition updateTxCountInBlock (cfg : Config.t) : io Db () :=
  checkpoint_handler cfg JOB_UPDATE_TX_COUNT_IN_BLOCK
    (λ startBlock endBlock, update (update_tx_counts startBlock endBlock)) (λ _ _ _ d, Ok d).

(** A run counts the transactions of every block of its range that has no
    count; a run that is repeated, because the process ended before the
    checkpoint was stored, changes nothing more. *)
Theorem tx_counts_filled cfg d s e u :
  jobCheckpoint cfg JOB_UPDATE_TX_COUNT_IN_BLOCK (checkpoints_of d) = Ok (s, e, u) → s <= e →
  ∃ d', updateTxCountInBlock cfg d = (d', Ok tt) ∧ checkpoints_of d' = saveCheckpoint u e (checkpoints_of d) ∧
    block d' = count_txs s e <$> block d ∧
    (∀ b, b ∈ block d → s < bk_height b <= e → bk_txs b ≠ None → is_Some (bk_tx_count (count_txs s e b))) ∧
    updateTxCountInBlock cfg (update_tx_counts s e d) = (d', Ok tt).
Proof.
  intros Hj Hle. assert (stops (jd_guard JOB_UPDATE_TX_COUNT_IN_BLOCK) s e = false) as Hs by (cbn; lia).
  assert (∀ b, count_txs s e (count_txs s e b) = count_txs s e b) as Hidem.
  { intros b. unfold count_txs. destruct ((s <? bk_height b) && (bk_height b <=? e)) eqn:Hr; cbn [andb]; [|by rewrite Hr].
    destruct (bool_decide_reflect (bk_tx_count b = None)) as [Hn|Hn]; cbn [bk_height bk_txs bk_tx_count].
    - rewrite Hr. cbn [andb]. destruct (bk_txs b) as [l|] eqn:Ht; cbn [fmap option_fmap option_map].
      + by rewrite bool_decide_false.
      + by rewrite bool_decide_true.
    - rewrite Hr. cbn [andb]. by rewrite bool_decide_false. }
  assert (update_tx_counts s e (update_tx_counts s e d) = update_tx_counts s e d) as Htwice.
  { unfold update_tx_counts. cbn. f_equal. rewrite <-list_fmap_compose. apply list_fmap_ext. intros i b _. apply Hidem. }
  eexists. split; [by eapply checkpoint_handler_run|]. split; [done|]. split; [done|]. split.
  - intros b _ Hb Htxs. unfold count_txs. rewrite (proj2 (Z.ltb_lt _ _)), (proj2 (Z.leb_le _ _)) by lia. cbn [andb].
    case_bool_decide as Hn; cbn [bk_tx_count]; [|by apply not_eq_None_Some]. destruct (bk_txs b); [by eexists|done].
  - eapply checkpoint_handler_run; [exact Hj|exact Hs| |done]. unfold update. by rewrite Htwice.
Qed.
End TxCount.

(** ** The sender of messages *)
Module Sender.
Record Event := { e_type : string; e_attributes : list attribute }.
(** A transaction with its events by id and their attributes by index. *)
Record Tx := { t_id : Z; t_height : Z; t_events : list Event }.
Record Message := { m_id : Z; m_tx_id : Z; m_sender : string }.
Record Db := { transaction : list Tx; transaction_message : list Message; block_checkpoint : gmap string Z }.
Definition set_messages (l : list Message) (d : Db) : Db := {|
  transaction := transaction d; transaction_message := l; block_checkpoint := block_checkpoint d |}.
Definition set_checkpoint (h : option Z) (d : Db) : Db := {|
  transaction := transaction d; transaction_message := transaction_message d;
  block_checkpoint := partial_alter (λ _, h) "job:update-sender-in-tx-messages" (block_checkpoint d) |}.
Definition checkpoint (d : Db) : option Z := block_checkpoint d !! "job:update-sender-in-tx-messages".
Definition blocksPerCall : Z := 1000.

(** An error for an empty value as for no value. *)
Definition findFirstAttribute (events : list Event) (eventType attributeKey : string) : res string :=
  let has_key e := existsb (λ a, bool_decide (attr_key a = attributeKey)) (e_attributes e) in
  match find (λ e, bool_decide (e_type e = eventType) && has_key e) events with
  | Some e =>
      match getAttributeFrom (e_attributes e) attributeKey with
      | None => Throw "TypeError: Cannot read properties of null"
      | Some "" => Throw "Could not find attribute"
      | Some v => Ok v
      end
  | None => Throw "Could not find attribute"
  end.
Definition sender_of (t : Tx) : string :=
  match findFirstAttribute (t_events t) "message" "sender" with Ok s => s | Throw _ => "" end.
Definition listTx (from to : Z) (d : Db) : list Tx :=
  sortBy t_id (filter (λ t, from <= t_height t < to) (transaction d)).
(** [UPDATE transaction_message SET sender = temp.sender FROM (VALUES ...)]: a
    sender is a bech32 address, without a quote. *)
Definition update_senders (updates : list (Z * string)) (d : Db) : Db :=
  set_messages ((λ m, match find (λ u, u.1 =? m_tx_id m) updates with
                      | Some u => {| m_id := m_id m; m_tx_id := m_tx_id m; m_sender := u.2 |}
                      | None => m end) <$> transaction_message d) d.
Definition updateSender (lastBlockCrawled : Z) : io Db () :=
  cp ← query checkpoint;
  if bool_decide (cp = Some lastBlockCrawled) then mret () else
  let from := default 0 cp in
  let lastBlock := if lastBlockCrawled <? from + blocksPerCall then lastBlockCrawled else from + blocksPerCall in
  txs ← query (listTx from lastBlock);
  update (λ d, set_checkpoint (match checkpoint d with Some _ => Some lastBlock | None => None end)
                 (update_senders ((λ t, (t_id t, sender_of t)) <$> txs) d)).

(** What the job leaves of a message when it has passed the blocks of a range. *)
Definition filled (d : Db) (from to : Z) (m : Message) : Message :=
  match find (λ t, (t_id t =? m_tx_id m) && (from <=? t_height t) && (t_height t <? to)) (transaction d) with
  | Some t => {| m_id := m_id m; m_tx_id := m_tx_id m; m_sender := sender_of t |}
  | None => m
  end.

Section Facts.
Context (d : Db) (Hids : NoDup (t_id <$> transaction d)).

Lemma find_tx from to i : find (λ t, (t_id t =? i) && (from <=? t_height t) && (t_height t <? to)) (transaction d) =
  find (λ t, t_id t =? i) (listTx from to d).
Proof using Hids.
  destruct (find (λ t, t_id t =? i) (listTx from to d)) as [t|] eqn:Hf.
  - apply find_Some in Hf as [Hin Hi]. unfold listTx in Hin. rewrite sortBy_perm, list_elem_of_filter in Hin. destruct Hin as [Hh Hin].
    destruct (find _ (transaction d)) as [t'|] eqn:Hf'.
    + apply find_Some in Hf' as [Hin' [[Hi' _]%andb_true_iff _]%andb_true_iff]. f_equal.
      apply (NoDup_fmap_key t_id (transaction d)); try done. lia.
    + apply find_None in Hf'. rewrite Forall_forall in Hf'. specialize (Hf' t Hin). simpl in Hf'. lia.
  - apply find_None in Hf. rewrite Forall_forall in Hf. apply find_None, Forall_forall. intros t Hin. cbn in *.
    destruct ((t_id t =? i) && (from <=? t_height t) && (t_height t <? to)) eqn:Hb; [|done]. exfalso.
    assert (t ∈ listTx from to d) as Ht by (unfold listTx; rewrite sortBy_perm, list_elem_of_filter; split; [lia|done]).
    specialize (Hf t Ht). cbn in Hf. lia.
Qed.

Lemma update_filled from to :
  update_senders ((λ t, (t_id t, sender_of t)) <$> listTx from to d) d = set_messages (filled d from to <$> transaction_message d) d.
Proof using Hids.
  unfold update_senders. f_equal. apply list_fmap_ext. intros i m _. unfold filled. rewrite find_fmap, find_tx. cbn [fst].
  by destruct (find _ (listTx from to d)).
Qed.
End Facts.

(** One range after the other is one range. *)
Lemma filled_twice d d' a b c m : NoDup (t_id <$> transaction d) → transaction d' = transaction d → a <= b <= c →
  filled d' b c (filled d a b m) = filled d a c m.
Proof.
  intros Hids Hd Habc. unfold filled. rewrite Hd.
  destruct (find (λ t, (t_id t =? m_tx_id m) && (a <=? t_height t) && (t_height t <? b)) (transaction d)) as [t|] eqn:H1; cbn [m_tx_id m_id].
  - apply find_Some in H1 as [Hin Ht]. cbn in Ht.
    assert (find (λ t, (t_id t =? m_tx_id m) && (b <=? t_height t) && (t_height t <? c)) (transaction d) = None) as ->.
    { apply find_None, Forall_forall. intros t' Hin'. cbn.
      destruct ((t_id t' =? m_tx_id m) && (b <=? t_height t') && (t_height t' <? c)) eqn:Ht'; [|done]. exfalso.
      assert (t' = t) as -> by (apply (NoDup_fmap_key t_id (transaction d)); try done; lia). lia. }
    destruct (find (λ t, (t_id t =? m_tx_id m) && (a <=? t_height t) && (t_height t <? c)) (transaction d)) as [t'|] eqn:H2.
    + apply find_Some in H2 as [Hin' Ht']. cbn in Ht'. assert (t' = t) as -> by (apply (NoDup_fmap_key t_id (transaction d)); try done; lia). done.
    + apply find_None in H2. rewrite Forall_forall in H2. specialize (H2 t Hin). cbn in H2. lia.
  - apply find_None in H1. rewrite Forall_forall in H1.
    assert (∀ l : list Tx, l ⊆ transaction d → find (λ t, (t_id t =? m_tx_id m) && (b <=? t_height t) && (t_height t <? c)) l =
      find (λ t, (t_id t =? m_tx_id m) && (a <=? t_height t) && (t_height t <? c)) l) as Heq; [|by rewrite Heq].
    induction l as [|t l IH]; [done|]. intros Hsub. cbn [find]. specialize (H1 t ltac:(apply Hsub; left)). cbn in H1.
    rewrite IH by set_solver.
    replace ((t_id t =? m_tx_id m) && (b <=? t_height t) && (t_height t <? c)) with ((t_id t =? m_tx_id m) && (a <=? t_height t) && (t_height t <? c)) by lia.
    done.
Qed.

Lemma filled_none d s m : filled d s s m = m.
Proof.
  unfold filled. destruct (find _ _) as [t|] eqn:Hf; [|done]. apply find_Some in Hf as [_ Ht]. cbn in Ht. lia.
Qed.

Lemma updateSender_done last d : checkpoint d = Some last → (updateSender last d).1 = d.
Proof. intros H. unfold updateSender. rewrite bind_query, H. by rewrite bool_decide_eq_true_2. Qed.

Lemma updateSender_step last h d : NoDup (t_id <$> transaction d) → checkpoint d = Some h → h < last →
  (updateSender last d).1 = set_checkpoint (Some (Z.min last (h + blocksPerCall)))
    (set_messages (filled d h (Z.min last (h + blocksPerCall)) <$> transaction_message d) d).
Proof.
  intros Hids H Hlt. unfold updateSender. rewrite bind_query, H. rewrite bool_decide_eq_false_2 by (intros [=]; lia).
  cbn [default from_option]. cbv zeta. rewrite bind_query. unfold update. cbn [fst]. unfold id.
  assert ((if last <? h + blocksPerCall then last else h + blocksPerCall) = Z.min last (h + blocksPerCall)) as ->
    by (destruct (Z.ltb_spec last (h + blocksPerCall)); lia).
  rewrite update_filled by done. by rewrite H.
Qed.

Definition runs (last : Z) (n : nat) (d : Db) : Db := Nat.iter n (λ d, (updateSender last d).1) d.

(** From a checkpoint below the last block the job passes a thousand blocks a
    run until it is there: then every message of a transaction in these blocks
    has the first sender of its events, and no other message was touched; more
    runs change nothing. *)
Theorem senders_backfilled last n d s :
  NoDup (t_id <$> transaction d) → checkpoint d = Some s → s <= last → (Z.to_nat (last - s) <= n)%nat →
  checkpoint (runs last n d) = Some last ∧ transaction_message (runs last n d) = filled d s last <$> transaction_message d.
Proof.
  intros Hids Hs Hle Hn.
  assert (∃ h, checkpoint (runs last n d) = Some h ∧ transaction (runs last n d) = transaction d ∧ s <= h <= last ∧
    Z.min last (s + Z.of_nat n) <= h ∧ transaction_message (runs last n d) = filled d s h <$> transaction_message d)
    as (h & Hh & _ & Hb & Hm & Hf); [|by assert (h = last) as -> by lia].
  clear Hn. unfold runs. induction n as [|n (h & Hh & Ht & Hb & Hm & Hf)].
  - exists s. repeat split; try done; try lia. cbn. symmetry. etrans; [|apply list_fmap_id]. apply list_fmap_ext.
    intros i m _. apply filled_none.
  - rewrite Nat.iter_succ. set (d1 := Nat.iter n _ d) in *.
    destruct (decide (h = last)) as [->|Hlt].
    + rewrite updateSender_done by done. exists last. repeat split; try done; lia.
    + rewrite (updateSender_step last h d1) by (try done; try lia; by rewrite Ht).
      exists (Z.min last (h + blocksPerCall)). unfold blocksPerCall in *. cbn [transaction transaction_message set_messages set_checkpoint].
      split; [unfold checkpoint, set_checkpoint; cbn; by rewrite lookup_partial_alter_eq|].
      split; [done|]. split; [lia|]. split; [lia|].
      rewrite Hf, <- list_fmap_compose. apply list_fmap_ext. intros i m _. cbn. apply filled_twice; try done; lia.
Qed.

(** The job is created, for the block crawled last, when it has no checkpoint:
    the job that repeats keeps this block. *)
Definition start (startBlock : Z) (d : Db) : Db * option Z :=
  match checkpoint d with
  | Some _ => (d, None)
  | None => (set_checkpoint (Some startBlock) d, Some (default 0 (block_checkpoint d !! "crawl:block")))
  end.

(** A service that starts for the first time fills in the blocks from the first
    one up to the one before the last crawled block ... *)
Theorem sender_job_start startBlock d d' last n :
  start startBlock d = (d', Some last) → NoDup (t_id <$> transaction d) → startBlock <= last → (Z.to_nat (last - startBlock) <= n)%nat →
  checkpoint (runs last n d') = Some last ∧
  transaction_message (runs last n d') = filled d startBlock last <$> transaction_message d.
Proof.
  unfold start. destruct (checkpoint d); [done|]. intros [= <- _] Hids Hle Hn.
  refine (senders_backfilled last n (set_checkpoint (Some startBlock) d) startBlock Hids _ Hle Hn).
  unfold checkpoint, set_checkpoint. cbn. by rewrite lookup_partial_alter_eq.
Qed.

(** ... but not this block itself: however often the job runs, the messages of
    its transactions keep the sender they had. *)
Theorem last_block_skipped last n d s m :
  NoDup (t_id <$> transaction d) → checkpoint d = Some s → s <= last → (Z.to_nat (last - s) <= n)%nat →
  m ∈ transaction_message d → (∀ t, t ∈ transaction d → t_id t = m_tx_id m → t_height t = last) →
  m ∈ transaction_message (runs last n d).
Proof.
  intros Hids Hs Hle Hn Hm Ht. destruct (senders_backfilled last n d s) as [_ ->]; try done.
  apply list_elem_of_fmap. exists m. split; [|done]. unfold filled.
  destruct (find _ _) as [t|] eqn:Hf; [|done]. apply find_Some in Hf as [Hin Hb]. cbn in Hb.
  specialize (Ht t Hin). lia.
Qed.
End Sender.

(** ** Decoding transactions again *)
Module Redecode.
Section Redecode.
Context {E : Encoding} {P : ProtoTypes}.
(** [decodeTxRaw(fromBase64(tx)).body.messages]: types and values. *)
Context (body_messages : string → res (list (string * bytes))).
Context (S3_GATEWAY chain : string).                (* chain: chainName/chainId *)

(** [tx_response.tx] and [tx.body.messages] of the data of a transaction. *)
Record TxData := { tx_response_tx : string; tx_messages : list Json }.
Inductive Stored := Inline (data : TxData) | LinkS3 (link : string).
Record Tx := { t_id : Z; t_height : Z; t_hash : string; t_data : Stored }.
Record Message := { m_tx_id : Z; m_index : Z; m_parent_id : option Z; m_type : string; m_content : Json }.
(** [bucket]: the objects behind a link. *)
Record Db := { transaction : list Tx; transaction_message : list Message; bucket : gmap string TxData }.
Definition set_messages (l : list Message) (d : Db) : Db := {|
  transaction := transaction d; transaction_message := l; bucket := bucket d |}.
Definition set_transactions (l : list Tx) (d : Db) : Db := {|
  transaction := l; transaction_message := transaction_message d; bucket := bucket d |}.
Definition upload (link : string) (x : TxData) (d : Db) : Db := {|
  transaction := transaction d; transaction_message := transaction_message d; bucket := <[link := x]> (bucket d) |}.

(** ** The messages of a transaction *)
Definition msg_arg (m : string * bytes) : Arg := AMsg (Some (JStr m.1)) (VBytes m.2).
Definition decode_msg (m : string * bytes) : res Json :=
  match decodeMsg (S (arg_size (msg_arg m))) (msg_arg m) with
  | Some (Ok v) => Ok (camelizeKeys (default JNull v))
  | Some (Throw e) => Throw e
  | None => Throw "out of fuel"
  end.
Definition decode_tx (x : TxData) : res (list Json) := l ← body_messages (tx_response_tx x); mapR decode_msg l.
Definition with_messages (msgs : list Json) (x : TxData) : TxData := {| tx_response_tx := tx_response_tx x; tx_messages := msgs |}.

(** ** The job *)
Definition candidate (type : string) (d : Db) (t : Tx) : bool :=
  existsb (λ m, (m_tx_id m =? t_id t) && bool_decide (m_type m = type)) (transaction_message d).
(** [SELECT DISTINCT ... WHERE id > currentId LIMIT limit]: the rows come in an
    order of the database's choice. *)
Definition tx_page (order : list Tx → list Tx) (limit : nat) (type : string) (currentId : Z) (d : Db) : list Tx :=
  take limit (order (filter (λ t, currentId < t_id t) (filter (λ t, candidate type d t = true) (transaction d)))).
Definition fetch (d : Db) (t : Tx) : res TxData :=
  match t_data t with
  | Inline x => Ok x
  | LinkS3 link => match bucket d !! link with Some x => Ok x | None => Throw "AxiosError" end
  end.
Definition s3_link (t : Tx) : string :=
  String.concat "" [S3_GATEWAY; "rawlog/"; chain; "/transaction/"; toString (t_height t); "/"; t_hash t].
(** What a page leaves to be stored: the data of transactions, the content of
    messages. *)
Record Patches := { patch_txs : list (Z * TxData); patch_msgs : list (Z * list Json) }.
(** An upload starts at once and is taken to succeed. *)
Fixpoint decode_page (l : list (Tx * TxData)) : io Db Patches :=
  match l with
  | [] => mret {| patch_txs := []; patch_msgs := [] |}
  | (t, x) :: l =>
      msgs ← lift (decode_tx x);
      _ ← match t_data t with LinkS3 _ => update (upload (s3_link t) (with_messages msgs x)) | Inline _ => mret tt end;
      p ← decode_page l;
      mret {| patch_txs := match t_data t with LinkS3 _ => [] | Inline _ => [(t_id t, with_messages msgs x)] end ++ patch_txs p;
              patch_msgs := (t_id t, msgs) :: patch_msgs p |}
  end.
Definition patch_message (p : Z * list Json) (m : Message) : Message :=
  if m_tx_id m =? p.1 then
    match (if m_index m <? 0 then None else p.2 !! Z.to_nat (m_index m)) with
    | Some msg => {| m_tx_id := m_tx_id m; m_index := m_index m; m_parent_id := m_parent_id m; m_type := m_type m; m_content := msg |}
    | None => m
    end
  else m.
Definition patch_messages (l : list (Z * list Json)) (d : Db) : Db :=
  set_messages (foldl (λ ms p, patch_message p <$> ms) (transaction_message d) l) d.
Definition patch_tx (l : list (Z * TxData)) (t : Tx) : Tx :=
  match find (λ p, p.1 =? t_id t) l with
  | Some p => {| t_id := t_id t; t_height := t_height t; t_hash := t_hash t; t_data := Inline p.2 |}
  | None => t
  end.
(** The patches of transactions belong to the database transaction of the
    job; the uploads and the patches of messages do not. *)
Fixpoint redecode_pages (order : list Tx → list Tx) (limit : nat) (type : string) (fuel : nat) (currentId : Z) : io Db (list (Z * TxData)) :=
  match fuel with
  | O => throw "out of fuel"
  | S fuel =>
      txOnDB ← query (tx_page order limit type currentId);
      match last txOnDB with
      | None => mret []
      | Some t =>
          data ← (λ d, (d, mapR (fetch d) txOnDB));
          p ← decode_page (zip txOnDB data);
          _ ← update (patch_messages (patch_msgs p));
          rest ← redecode_pages order limit type fuel (t_id t);
          mret (patch_txs p ++ rest)
      end
  end.
Definition limitRecordGet : nat := 100.
Definition redecodeTxByType (order : list Tx → list Tx) (fuel : nat) (type : string) : io Db () :=
  patches ← redecode_pages order limitRecordGet type fuel 0;
  update (λ d, set_transactions (patch_tx patches <$> transaction d) d).
End Redecode.

Section Facts.
Context {E : Encoding} {P : ProtoTypes}.
Context (body_messages : string → res (list (string * bytes))) (S3_GATEWAY chain : string).
Abbreviation decode_tx := (decode_tx body_messages).
Abbreviation decode_page := (decode_page body_messages S3_GATEWAY chain).
Abbreviation redecode_pages := (redecode_pages body_messages S3_GATEWAY chain).
Abbreviation redecodeTxByType := (redecodeTxByType body_messages S3_GATEWAY chain).

(** What a transaction decodes to. *)
Definition new_messages (t : Tx) : list Json :=
  match t_data t with Inline x => match decode_tx x with Ok msgs => msgs | Throw _ => [] end | LinkS3 _ => [] end.
Definition new_data (t : Tx) : TxData :=
  match t_data t with Inline x => with_messages (new_messages t) x
  | LinkS3 _ => {| tx_response_tx := ""; tx_messages := [] |} end.
Definition decodable (t : Tx) : Prop := ∃ x msgs, t_data t = Inline x ∧ decode_tx x = Ok msgs.

Lemma fetch_inline d l : Forall decodable l → ∃ xs, mapR (fetch d) l = Ok xs ∧
  decode_page (zip l xs) = λ d, (d, Ok {| patch_txs := (λ t, (t_id t, new_data t)) <$> l;
                                          patch_msgs := (λ t, (t_id t, new_messages t)) <$> l |}).
Proof.
  induction 1 as [|t l (x & msgs & Ht & Hx) _ (xs & Hxs & IH)]; [by exists []|].
  exists (x :: xs). assert (fetch d t = Ok x) as Hf by (unfold fetch; by rewrite Ht). split; [cbn [mapR]; by rewrite Hf, Hxs|].
  cbn [zip zip_with Redecode.decode_page]. rewrite Hx, Ht, IH. cbn. unfold new_data, new_messages. by rewrite Ht, Hx.
Qed.

Lemma candidate_patched type l d t : candidate type (patch_messages l d) t = candidate type d t.
Proof.
  unfold candidate, patch_messages. cbn [transaction_message set_messages]. generalize (transaction_message d). intros ms. revert ms.
  induction l as [|p l IH]; intros ms; [done|]. cbn [foldl]. rewrite IH. clear IH. induction ms as [|m ms IH]; [done|].
  rewrite fmap_cons. cbn [existsb]. rewrite IH. f_equal. unfold patch_message.
  destruct (m_tx_id m =? p.1) eqn:Hm; [|done]. destruct (if m_index m <? 0 then _ else _); done.
Qed.

Lemma patch_messages_app l1 l2 d : patch_messages (l1 ++ l2) d = patch_messages l2 (patch_messages l1 d).
Proof. unfold patch_messages. cbn. by rewrite foldl_app. Qed.

Definition todo (type : string) (d : Db) : list Tx := filter (λ t, candidate type d t = true) (transaction d).

Lemma pages_ordered type limit d fuel cur : (0 < limit)%nat → NoDup (t_id <$> transaction d) → Forall decodable (todo type d) →
  (length (filter (λ t, (cur < t_id t)%Z) (todo type d)) < fuel)%nat →
  redecode_pages (sortBy t_id) limit type fuel cur d =
    (patch_messages ((λ t, (t_id t, new_messages t)) <$> sortBy t_id (filter (λ t, cur < t_id t) (todo type d))) d,
     Ok ((λ t, (t_id t, new_data t)) <$> sortBy t_id (filter (λ t, cur < t_id t) (todo type d)))).
Proof.
  intros Hlimit Hnd. revert d cur Hnd. induction fuel as [|fuel IH]; intros d cur Hnd Hdec Hf; [lia|].
  assert (NoDup (t_id <$> todo type d)) as Hnd'.
  { eapply sublist_NoDup; [exact Hnd|]. apply fmap_sublist, sublist_filter. }
  cbn [Redecode.redecode_pages]. rewrite bind_query. change (tx_page (sortBy t_id) limit type cur d) with (id_page t_id limit (todo type d) cur).
  destruct (last (id_page t_id limit (todo type d) cur)) as [t|] eqn:Hlast.
  - assert (Forall decodable (id_page t_id limit (todo type d) cur)) as Hpage.
    { unfold id_page. apply Forall_take. rewrite sortBy_perm. rewrite Forall_forall in Hdec |- *. intros u [_ Hu]%list_elem_of_filter. by apply Hdec. }
    destruct (fetch_inline d _ Hpage) as (xs & Hxs & Hdp). unfold mbind at 1, io_bind at 1. rewrite Hxs.
    set (page := id_page t_id limit (todo type d) cur) in *.
    set (p := patch_messages ((λ t, (t_id t, new_messages t)) <$> page) d).
    assert (todo type p = todo type d) as Htodo.
    { unfold todo, p. cbn [transaction patch_messages set_messages]. apply list_filter_iff. intros u. by rewrite candidate_patched. }
    assert (sortBy t_id (filter (λ u, cur < t_id u) (todo type d)) = page ++ sortBy t_id (filter (λ u, t_id t < t_id u) (todo type d))) as Hsplit.
    { rewrite (next_id_page t_id limit _ cur t Hnd' Hlast). unfold page, id_page. by rewrite take_drop. }
    rewrite Hdp, (io_step _ _ d d _ eq_refl). cbn [patch_msgs patch_txs].
    unfold mbind, io_bind, update. fold p. rewrite IH; rewrite ?Htodo; try done.
    + rewrite Hsplit, !fmap_app, patch_messages_app. done.
    + apply (f_equal length) in Hsplit. rewrite length_app, !(Permutation_length (sortBy_perm t_id _)) in Hsplit.
      assert (0 < length page)%nat; [destruct page; [done|simpl; lia]|]. lia.
  - assert (filter (λ u, cur < t_id u) (todo type d) = []) as ->; [|by destruct d].
    apply last_None in Hlast. unfold id_page in Hlast. pose proof (Permutation_length (sortBy_perm t_id (filter (λ u, cur < t_id u) (todo type d)))) as Hl.
    destruct (sortBy t_id _) as [|y l]; [by destruct (filter _ _)|]. destruct limit; [lia|done].
Qed.

Definition redecoded_tx (type : string) (d : Db) (t : Tx) : Tx :=
  if candidate type d t then {| t_id := t_id t; t_height := t_height t; t_hash := t_hash t; t_data := Inline (new_data t) |} else t.
Definition redecoded_message (type : string) (d : Db) (m : Message) : Message :=
  match find (λ t, t_id t =? m_tx_id m) (todo type d) with Some t => patch_message (t_id t, new_messages t) m | None => m end.

Lemma patch_message_other p m : m_tx_id m ≠ p.1 → patch_message p m = m.
Proof. intros Hm. unfold patch_message. by rewrite (proj2 (Z.eqb_neq _ _) Hm). Qed.
Lemma patch_message_tx p m : m_tx_id (patch_message p m) = m_tx_id m.
Proof. unfold patch_message. destruct (_ =? _); [|done]. by destruct (if m_index m <? 0 then _ else _). Qed.

Lemma fold_patches (l : list Tx) m : NoDup (t_id <$> l) →
  foldl (λ m p, patch_message p m) m ((λ t, (t_id t, new_messages t)) <$> l) =
    match find (λ t, t_id t =? m_tx_id m) l with Some t => patch_message (t_id t, new_messages t) m | None => m end.
Proof.
  revert m. induction l as [|t l IH]; intros m Hnd; [done|]. rewrite fmap_cons in Hnd. apply NoDup_cons in Hnd as [Hnt Hnd].
  rewrite fmap_cons. cbn [foldl find]. rewrite IH, patch_message_tx by done. destruct (Z.eqb_spec (t_id t) (m_tx_id m)) as [He|He].
  - destruct (find _ l) as [u|] eqn:Hu; [|done]. apply find_Some in Hu as [Hin Hb%Z.eqb_eq]. exfalso. apply Hnt. rewrite He, <-Hb.
    by apply list_elem_of_fmap_2.
  - rewrite patch_message_other; [done|]. cbn. lia.
Qed.

Lemma foldl_rows {A B} (f : A → B → A) (l : list B) (rows : list A) :
  foldl (λ rows p, (λ m, f m p) <$> rows) rows l = (λ m, foldl f m l) <$> rows.
Proof. revert rows. induction l as [|p l IH]; intros rows; cbn [foldl]; [by rewrite list_fmap_id|]. by rewrite IH, <-list_fmap_compose. Qed.

Lemma find_perm (l l' : list Tx) i : NoDup (t_id <$> l) → l ≡ₚ l' → find (λ t, t_id t =? i) l = find (λ t, t_id t =? i) l'.
Proof.
  intros Hnd Hp. assert (NoDup (t_id <$> l')) as Hnd' by by rewrite <-Hp.
  destruct (find _ l) as [t|] eqn:H1, (find _ l') as [u|] eqn:H2; try done.
  - apply find_Some in H1 as [Ht Hi%Z.eqb_eq], H2 as [Hu Hj%Z.eqb_eq]. f_equal.
    rewrite <-Hp in Hu. apply (NoDup_fmap_key t_id l); try done; lia.
  - apply find_Some in H1 as [Ht Hi]. apply find_None in H2. rewrite Forall_forall in H2. rewrite Hp in Ht. by rewrite (H2 _ Ht) in Hi.
  - apply find_Some in H2 as [Ht Hi]. apply find_None in H1. rewrite Forall_forall in H1. rewrite <-Hp in Ht. by rewrite (H1 _ Ht) in Hi.
Qed.

(** Pages that come in the order of the ids reach every transaction with a
    message of the type, once: its data has the messages it decodes to now, and
    every row of [transaction_message] of it whose index is the index of such a
    message has that message, whatever row it is; no other row is touched. *)
Theorem redecode_in_order type fuel d :
  NoDup (t_id <$> transaction d) → Forall (λ t, 0 < t_id t) (transaction d) → Forall decodable (todo type d) →
  (length (transaction d) < fuel)%nat →
  redecodeTxByType (sortBy t_id) fuel type d =
    ({| transaction := redecoded_tx type d <$> transaction d; transaction_message := redecoded_message type d <$> transaction_message d;
        bucket := bucket d |}, Ok tt).
Proof.
  intros Hnd Hpos Hdec Hf.
  assert (filter (λ t, 0 < t_id t) (todo type d) = todo type d) as Hall.
  { apply filter_all. intros t [_ Ht]%list_elem_of_filter. rewrite Forall_forall in Hpos. by apply Hpos. }
  assert (NoDup (t_id <$> todo type d)) as Hndt.
  { eapply sublist_NoDup; [exact Hnd|]. apply fmap_sublist, sublist_filter. }
  assert (NoDup (t_id <$> sortBy t_id (todo type d))) as Hnds by by rewrite sortBy_perm.
  unfold Redecode.redecodeTxByType. erewrite io_step; [|apply pages_ordered; try done].
  - rewrite Hall. unfold update, patch_messages, set_transactions, set_messages. cbn. do 2 f_equal.
    + apply list_fmap_ext. intros i t Ht%list_elem_of_lookup_2. unfold patch_tx, redecoded_tx.
      rewrite find_fmap. cbn [fst]. rewrite (find_perm _ (todo type d) _ Hnds (sortBy_perm _ _)).
      destruct (candidate type d t) eqn:Hc.
      * destruct (find (λ x, t_id x =? t_id t) (todo type d)) as [u|] eqn:Hu.
        -- apply find_Some in Hu as [[_ Hin]%list_elem_of_filter Hb%Z.eqb_eq].
           by assert (u = t) as -> by (by apply (NoDup_fmap_key t_id (transaction d))).
        -- apply find_None in Hu. rewrite Forall_forall in Hu. assert (t ∈ todo type d) as Ht' by (by apply list_elem_of_filter).
           specialize (Hu t Ht'). cbn in Hu. lia.
      * destruct (find _ _) as [u|] eqn:Hu; [|done]. apply find_Some in Hu as [[Hcu Hin]%list_elem_of_filter Hb%Z.eqb_eq].
        assert (u = t) as -> by (by apply (NoDup_fmap_key t_id (transaction d))). by rewrite Hc in Hcu.
    + rewrite (foldl_rows (λ m p, patch_message p m)). apply list_fmap_ext. intros i m _. rewrite fold_patches by done. unfold redecoded_message.
      by rewrite (find_perm _ (todo type d) _ Hnds (sortBy_perm _ _)).
  - unfold limitRecordGet. lia.
  - rewrite Hall. eapply Nat.le_lt_trans; [apply sublist_length, sublist_filter|done].
Qed.

(** The rows of messages inside another one carry the id of the transaction too,
    and their index in that message: such a row gets the content of the message
    of the transaction with its index. *)
Theorem inner_message_overwritten type d t m i msg :
  NoDup (t_id <$> transaction d) → t ∈ transaction d → candidate type d t = true →
  m_tx_id m = t_id t → m_index m = Z.of_nat i → new_messages t !! i = Some msg →
  redecoded_message type d m =
    {| m_tx_id := m_tx_id m; m_index := m_index m; m_parent_id := m_parent_id m; m_type := m_type m; m_content := msg |}.
Proof.
  intros Hnd Ht Hc Htx Hi Hmsg. unfold redecoded_message. rewrite Htx.
  assert (t ∈ todo type d) as Hin by (by apply list_elem_of_filter).
  destruct (find _ (todo type d)) as [u|] eqn:Hu.
  - apply find_Some in Hu as [[_ Hu]%list_elem_of_filter Hb%Z.eqb_eq].
    assert (u = t) as -> by (by apply (NoDup_fmap_key t_id (transaction d))).
    unfold patch_message. cbn [fst snd]. rewrite Htx, Z.eqb_refl, Hi, (proj2 (Z.ltb_ge _ _)), Nat2Z.id, Hmsg by lia. done.
  - apply find_None in Hu. rewrite Forall_forall in Hu. specialize (Hu t Hin). cbn in Hu. lia.
Qed.

(** A run that fails, in whatever order the pages came, leaves the rows of
    [transaction] as they were; what it did to [transaction_message] and the
    bucket stays. *)
Theorem failed_run_keeps_transactions order fuel type d d' e :
  redecodeTxByType order fuel type d = (d', Throw e) → transaction d' = transaction d.
Proof.
  assert (∀ l d0, keeps (λ d, transaction d = d0) (decode_page l)) as Hpage.
  { intros l d0. induction l as [|[t x] l IH]; cbn [Redecode.decode_page]; eauto with keeps.
    apply keeps_bind; [eauto with keeps|]. intros msgs. apply keeps_bind; [|eauto with keeps].
    destruct (t_data t); [eauto with keeps|]. by apply keeps_update. }
  assert (∀ d0 cur, keeps (λ d, transaction d = d0) (redecode_pages order limitRecordGet type fuel cur)) as Hpages.
  { intros d0. induction fuel as [|n IH]; intros cur; cbn [Redecode.redecode_pages]; [apply keeps_lift|].
    apply keeps_bind; [eauto with keeps|]. intros txs. destruct (last txs) as [t|]; [|eauto with keeps].
    apply keeps_bind; [by intros ? ?|]. intros data. apply keeps_bind; [done|]. intros p.
    apply keeps_bind; [by apply keeps_update|]. eauto with keeps. }
  unfold Redecode.redecodeTxByType. intros H. specialize (Hpages (transaction d) 0 d eq_refl).
  unfold mbind, io_bind in H. destruct (redecode_pages _ _ _ _ _ d) as [d1 [a|e']]; [done|]. by injection H as <- _.
Qed.
End Facts.

(** ** An execution of one text, stored with a row for the text *)
Definition demo_raw (raw : string) : res (list (string * bytes)) := Ok [(MSG_TYPE.MSG_AUTHZ_EXEC, "execute")].
Definition demo_tx (i : Z) : Tx :=
  {| t_id := i; t_height := 5; t_hash := "AB"; t_data := Inline {| tx_response_tx := "raw"; tx_messages := [] |} |}.
Definition demo_exec_row (i : Z) : Message :=
  {| m_tx_id := i; m_index := 0; m_parent_id := None; m_type := MSG_TYPE.MSG_AUTHZ_EXEC; m_content := JNull |}.
Definition demo_db : Db := {| transaction := [demo_tx 1; demo_tx 2];
  transaction_message := [demo_exec_row 1;
    {| m_tx_id := 1; m_index := 0; m_parent_id := Some 7; m_type := "/text"; m_content := JObj [("@type", JStr "/text")] |};
    demo_exec_row 2];
  bucket := ∅ |}.
Definition demo_new : Json :=
  JObj [("@type", JStr MSG_TYPE.MSG_AUTHZ_EXEC); ("grantee", JStr "aura1");
        ("msgs", JArr [JObj [("@type", JStr "/text"); ("some_text", JStr "abc")]])].
Abbreviation demo_redecode order limit := (redecode_pages (E := demo_encoding) (P := demo_types [demo_sub "/text" "abcd"])
  demo_raw "https://s3/" "aura/xstaxy-1" order limit MSG_TYPE.MSG_AUTHZ_EXEC 3 0 demo_db).

Example demo_inner_overwritten :
  m_content <$> transaction_message (demo_redecode (sortBy t_id) 100%nat).1 = [demo_new; demo_new; demo_new].
Proof. vm_compute. reflexivity. Qed.

(** Pages are taken without an order: when the larger id comes first the job is
    done before the smaller one. *)
Example unordered_page_skips :
  (λ p, p.1) <$> default [] (match (demo_redecode (sortBy (λ t, - t_id t)) 1%nat).2 with Ok l => Some l | Throw _ => None end) = [2] ∧
  (λ p, p.1) <$> default [] (match (demo_redecode (sortBy t_id) 1%nat).2 with Ok l => Some l | Throw _ => None end) = [1; 2].
Proof. vm_compute. split; reflexivity. Qed.
End Redecode.
